(* ===== verification/_CoqProject ===== *)
-Q . S2P
Prelude.v
JsMap.v
JsString.v
JsRegExp.v
Json.v
JsNumber.v
Grpc.v
Raft.v
RaftLog.v
RaftCluster.v
RaftElection.v
RaftMatching.v
RaftSafety.v
RaftProps.v
RaftWire.v
Membership.v
MembershipProps.v
Replication.v
ReplicationProps.v
SharedMemory.v
MemoryTools.v
MemoryToolsProps.v
TaskTypes.v
Workflow.v
TaskStateMachine.v
TaskProps.v
TaskScheduler.v
TaskEngine.v
TaskEngineProps.v
TaskReports.v
Kubernetes.v
Chunker.v
ClusterState.v
Tailscale.v
Joining.v
Approval.v
ClusterHandlers.v
ClusterHandlersProps.v
LegacyScheduler.v
LegacySchedulerProps.v
TaskExecutor.v
GrpcTransport.v
ResourceMonitor.v
NodeReport.v
Updater.v
UpdaterProps.v
UpdaterTrace.v
ClusterHealth.v
Security.v
Announcements.v
Secrets.v
Providers.v
Conversation.v
Subagent.v
Messaging.v
Markdown.v
Inbox.v
Skills.v
Plugins.v
Cortex.v
McpTools.v
MessagingPlugin.v
McpServer.v
ProviderClients.v
Cli.v
GatewayNet.v
GatewayAuth.v
GatewayMethods.v
GatewayNodes.v
GatewayChat.v
GatewayApprovals.v
ConfigReload.v
ChannelAccess.v
DiscordText.v
GatewayHandshake.v
GatewayChannels.v
GatewayHttp.v
GatewayClient.v
Telegram.v
GatewaySessions.v
