(* ===== verification/Prelude.v ===== *)
(** * Cortex: a verification development of the cluster core

    Cortex (src/) is a cluster of machines that elect a leader with Raft, keep a
    membership table, run tasks and workflows on the members, and replicate a
    small SQL database.  This library models the parts of it that carry the
    cluster's own logic and proves what makes each of them correct.  The source
    files named below are relative to src/src/.

    ** The program and the files that model it

    A node is one process.  Its RaftNode (cluster/raft.ts) orders entries; every
    other service listens to the entries Raft reports as committed.  The
    MembershipManager (cluster/membership.ts) turns node_join and node_leave
    entries into a table of nodes and into Raft peers; the task engine
    (plugins/task-engine/) turns task and workflow entries into rows of its
    tables and appends new entries when it schedules, retries or gives up; the
    MemoryReplicator (memory/replication.ts) runs the SQL of memory_write
    entries.  The gRPC handlers (grpc/handlers.ts) connect the nodes.

    - Prelude.v: JavaScript arrays and sort, record update, tactics, the hint
      database [cortex], counting lemmas.  JsMap.v: the Map object, with
      insertion order.  JsString.v: strings, decimal text, parseInt and the paths
      of node:path.  Json.v: JSON.stringify and JSON.parse with their round trip.
      JsRegExp.v: the backtracking matcher of JavaScript's regular expressions with
      [exec], [test] and [replace].
    - Raft.v models cluster/raft.ts: one definition per method of RaftNode, an
      async method split at its awaits.  RaftLog.v holds the equations of the
      methods and the theory of logs.  RaftCluster.v is the
      semantics of a cluster of RaftNodes and of messages that may be lost,
      delayed, reordered and duplicated; RaftElection.v and RaftMatching.v prove
      its invariants; RaftSafety.v states the safety theorems and the executions
      that escape them; RaftProps.v the contracts of single methods; RaftWire.v
      the Raft service of grpc/handlers.ts and its wire format.
    - Membership.v models cluster/membership.ts; MembershipProps.v its theorems.
    - TaskTypes.v (plugins/task-engine/types.ts, migrations.ts and the SQL
      statements of state-machine.ts as a state and error monad), Workflow.v
      (workflow-engine.ts, condition-eval.ts), TaskStateMachine.v
      (state-machine.ts), TaskScheduler.v (scheduler.ts), TaskEngine.v (index.ts);
      TaskProps.v and TaskEngineProps.v hold their theorems.
      TaskReports.v holds the tools of index.ts that report and TaskEngine.v its
      start and stop.
    - Replication.v models memory/replication.ts, the write and classification
      side of memory/shared-memory-db.ts and the handlers ForwardMemoryWrite and
      RequestMemorySnapshot; ReplicationProps.v its theorems.  SharedMemory.v is
      the reading side of the database with its statistics and whereami.md, and
      MemoryTools.v the tools of memory/memory-tools.ts, with MemoryToolsProps.v.
    - ClusterState.v (cluster/state.ts), Approval.v
      (discovery/approval.ts), and Chunker.v (smartChunk of messaging/format.ts).
    - Grpc.v and JsNumber.v: what protobuf messages (the stream of an
      agent among them), JavaScript numbers in text and Node's buffers do to the
      values that pass through them.
      ClusterHandlers.v models the handlers of grpc/handlers.ts for registration,
      heartbeats, cluster state and leadership; ClusterHandlersProps.v composes
      them with the requests the membership manager sends.
    - LegacyScheduler.v (cluster/scheduler.ts with the task handlers),
      TaskExecutor.v (agent/task-executor.ts), Subagent.v (agent/subagent-executor.ts) and
      ResourceMonitor.v (agent/resource-monitor.ts, agent/health-reporter.ts).
    - Updater.v models cluster/updater.ts as programs over an interface to the
      clock, the agents and the connections; UpdaterProps.v its theorems;
      UpdaterTrace.v gives the interface a record of everything the updater asks for,
      and shows in what order it does.
    - ClusterHealth.v (plugins/cluster-health/index.ts); Plugins.v
      (plugins/loader.ts).
    - Security.v (security/auth.ts) and Secrets.v (security/secrets.ts); Providers.v
      (providers/router.ts, providers/types.ts); Conversation.v
      (messaging/conversation.ts and the stores of messaging/persistence.ts);
      Messaging.v (messaging/gateway.ts); Inbox.v (messaging/inbox.ts); Markdown.v (messaging/format.ts); MessagingPlugin.v
      (plugins/messaging/index.ts, messaging/channels/ and
      mcp/messaging-tools.ts); ProviderClients.v (providers/anthropic.ts,
      openai.ts and ollama.ts).
    - Cortex.v and Joining.v model index.ts, the program that builds all of the
      above: Cortex.v has one Module for the identity of the node, the command
      line, the choice of providers, the life cycle with every step that may
      throw, and the version check; Joining.v has waiting for the network, the
      candidates, the attempts and rejoining.  NodeReport.v follows a snapshot of
      agent/resource-monitor.ts through the listener of index.ts, the heartbeat
      of cluster/membership.ts and the handler of the leader to the scheduler.
      GrpcTransport.v models grpc/client.ts and grpc/server.ts, Tailscale.v
      discovery/tailscale.ts, Announcements.v cluster/announcements.ts.
    - Skills.v (skills/loader.ts, mcp/skill-tools.ts); Kubernetes.v
      (kubernetes/adapter.ts); McpTools.v (mcp/tools.ts and
      plugins/cluster-tools/index.ts); McpServer.v (mcp/server.ts and the tool of
      plugins/updater/index.ts); Cli.v (commands.ts and the commands events,
      drain, cordon, uncordon, run, config and snapshot of cli/).
    - openclaw/, an archived chat assistant kept beside the cluster, has a gateway
      that phones, browsers and chat channels connect to.  GatewayNet.v
      (openclaw/gateway/net.ts, origin-check.ts) has its addresses and origins;
      GatewayAuth.v (auth.ts) decides on a connection; GatewayMethods.v
      (server-methods.ts, server-broadcast.ts, node-command-policy.ts) on a method,
      an event and a command; GatewayNodes.v (node-registry.ts,
      server-node-subscriptions.ts) keeps the nodes; GatewayChat.v (server-chat.ts,
      chat-abort.ts, server-maintenance.ts) the runs of agents; GatewayApprovals.v
      (exec-approval-manager.ts, server-methods/exec-approval.ts) the commands that
      wait for an operator; ConfigReload.v (config-reload.ts) the reloader of the
      configuration; ChannelAccess.v (openclaw/discord/monitor/allow-list.ts,
      openclaw/telegram/) who may talk to the assistant; DiscordText.v
      (openclaw/discord/chunk.ts, targets.ts) the division of a reply and its
      target.  GatewayHandshake.v (gateway/server/ws-connection.ts and its
      message-handler.ts, device-auth.ts, close-reason.ts, health-state.ts) is the
      life of a connection, from the challenge to the end, over the decisions of
      GatewayAuth.v and GatewayMethods.v and the registry of GatewayNodes.v;
      GatewayChannels.v (server-channels.ts, server-methods/agent-job.ts) has the
      accounts of the channels and waiting for runs; GatewayHttp.v (hooks.ts,
      hooks-mapping.ts, server-http.ts, server/hooks.ts) the requests that other
      programs send over HTTP.  GatewayClient.v (gateway/client.ts) is the other
      end of a connection, whose first request it signs for the checks of
      GatewayHandshake.v; GatewaySessions.v has what a client sends to a session
      (sessions-patch.ts, chat-attachments.ts, chat-sanitize.ts,
      server-methods/agent-timestamp.ts) and the wizards
      (server-wizard-sessions.ts, server-methods/wizard.ts).  Telegram.v
      (openclaw/telegram/) has a Module each for the keyboards of
      model-buttons.ts, network-errors.ts, draft-stream.ts,
      sent-message-cache.ts, bot-updates.ts, update-offset-store.ts, and the
      settings of an account (accounts.ts, token.ts, inline-buttons.ts,
      reaction-level.ts, network-config.ts, draft-chunking.ts).

    ** What the theorems show

    - Raft, over every execution of the cluster semantics that is [regular] (a
      fixed membership, no restart, and every election completed in the term it
      was started in): at
      most one leader per term, and two logs that agree on the term of an index
      agree on everything up to it.  Both restrictions are needed:
      [restart_two_leaders], [stale_election_two_leaders] and [stale_tail_commit]
      are executions of the same model outside them, or beyond these two
      properties, in which the code loses safety.  For single methods, without
      restrictions: the contract and the idempotence of AppendEntries, the commit
      rule, that committed entries are handed over once and in order, one vote
      per term, monotone terms, the round trip of the state file, and that a call
      over gRPC is the method call.
    - Membership: the node table stays keyed by node id with every Raft peer in
      it, failure detection is exact, joining follows at most three addresses, an
      approved node becomes an active member and peer, a leader change leaves
      one leader.
    - Tasks: the evaluation of a workflow is the declarative one and acyclic
      workflows make progress; entries change only the task they name; submitting
      is idempotent; failed tasks climb the retry ladder and end as dead letters;
      tasks of a lost node are queued again; the scheduler considers every due task
      once and places it on a node that satisfies its constraints at that moment,
      whatever happens while it waits for its entries.
    - Shared memory: an accepted write is run by every node that commits it,
      forwarded or not; unverified bytes run nothing; forwarding makes at most
      three calls; two replicas that have applied their logs hold what the
      verified writes of the log, run once each and in order, make of the first
      database; snapshots arrive intact.
    - Services: context queries respect visibility and return the newest
      matches, the reported state has one leader, available resources are within
      the total; approval calls are answered once, and with an approval only for a
      node that a rule covers or whose own request was decided so;
      messages are split within the limit without losing text.
    - Handlers: a node that registers over gRPC ends with the nodes that its leader
      has when the node's entry is replicated; a heartbeat over gRPC is the update of
      one row.
    - Agents and the deprecated scheduler: the tables of the scheduler stay
      consistent and every submission has one of the listed outcomes; an agent
      keeps to its limit of tasks, and each is listed until it is answered; frames of a container's
      stream are read back; a subagent makes at most its number of turns.
    - Updates: the commands of an upgrade go to the follower in order, and a failure
      puts the backup back; a rollout stops at the first node that fails and leaves
      the later ones alone; the polling loops end.
    - Health: alerts of one kind are spaced, a node that goes offline is reported
      once.
    - Security: join tokens are bound to cluster, node and expiry; a policy allows
      exactly what it lists; secrets survive a restart.
    - Conversations and channels: a history stays a sequence of whole turns within
      its limit; channels are connected at the leader; archiving loses no message;
      the router answers with the first provider that succeeds; the conversion of
      Markdown lets no markup of the message through; a provider's stream is read
      whole when its reads end at lines.
    - The program: a stop, and a start that fails, leave nothing running, and what
      escapes that when they overlap or fail themselves; waiting and joining
      end, and no node calls itself; the version check settles after one restart or
      repeats for ever, and exactly when; what the leader learns of a
      node's resources, which is nothing without and no heartbeat at all with a
      graphics card.
    - Tools and commands: the totals the tools compute of the leader's answer are
      the leader's own; submitted tasks are valid; a deployment reaches every node
      and restarts the leader last; draining and cordoning remove the node; the
      generic tools of the shared memory run a query or a statement only through
      their gate; skills survive the round trip through their front matter; the
      quantities Kubernetes writes with the supported suffixes are read exactly.
    - The gateway: a client had passed every check of the handshake its kind
      requires when it was admitted, and what a device signs determines what it asked for; a connection
      that ended is in no table of the gateway; a hook runs only with the token,
      its body is read whole or refused, and its job reports once; an account of a
      channel has at most one task, and a wait for a run is answered once; a reply
      is divided into chunks within the limit.  A connection is accepted for the secret of its mode or the user
      Tailscale vouches for, and no header makes a remote client local; a method
      needs its scope, an event reaches exactly the clients entitled to it, and a
      dangerous command runs only when it was opted in; calls to nodes and requests
      for approval end exactly once; subscriptions are kept in two tables that
      mirror each other; the final message of a run carries its last text; no
      change of the configuration is forgotten, and the plan of a reload does what
      its paths need.
    - The client of the gateway: every request ends once, none outlives its
      connection, a stopped client stays stopped, the delays double up to thirty
      seconds, and what it signs passes the checks of the gateway exactly if the clocks
      agree and the nonce is that of the challenge.  A session is patched whole or not
      at all, with names that stay unique while nobody else writes; one wizard runs
      at a time; what is attached are images within the limit; a timestamp that
      is put before a message is the envelope that is taken off.
    - Telegram: every button of a keyboard is read back as what it stands for and
      the pages show every model; the last draft of a reply arrives; an error is
      recoverable exactly when one that it leads to is, also in a circle of
      causes; a sent message is known for a day; an offset is replaced whole; an
      account has no other account's token.

    ** Interfaces and assumptions

    The payload type of the log is a parameter with an [EmptyBuffer] instance.
    [MembershipCodec] states what the membership manager needs of JSON; its
    instance [json_codec] is discharged by Json.v.  [SqlEngine] is what the
    replicator uses of better-sqlite3; nothing is assumed about it except, in the
    convergence theorem, that the statements do not read the clock.  SHA-256 is a
    function without assumptions.  The evaluation of a workflow condition by the
    JavaScript engine is a function argument.  [HistoryStore] is what a
    conversation needs of its store, with one instance in memory and one in the
    SQL table.  [Crypto] states that decryption undoes encryption and that
    signatures are verified by the key they were made with.  [LLMProvider] is the
    provider interface; [UpdaterEnv] the world of the updater, with [ClockLaws]
    for its clock, discharged by a concrete laboratory; about the shell commands it
    sends nothing is assumed.  [SqlReader] and [MemoryEnv] are what the memory
    tools use of the database and of the replicator; [NodeEnv] with [NodeEnvLaws]
    the network, the clock and the members that start-up sees; [KubeApi],
    [ChannelApi], [AnthropicApi], [OpenAIApi] and [OllamaApi] the libraries of
    Kubernetes, of the channels and of the model providers, about which nothing is
    assumed.  [DeviceTokens] is the store of the client's tokens, [SessionRules]
    the words and models a session may be given, with [SessionLaws] for the one
    clause about patches that override them, and
    [WizardSession] with [WizardLaws] a wizard that asks its questions.  Processes, containers and measuring tools are
    inputs of the steps of the agent.

    ** Bounds

    Numbers are integers (rationals for CPU shares and scores): the program stays
    far below 2^53.  So [parse] does not read fractions and exponents, which
    JavaScript does: of a message with one the model says only that it is not read.
    The multiplier of a retry policy is an integer, as all of the code's own are.
    Dates are milliseconds and compared as such; the code compares their ISO texts,
    which order the same from the year 0 to the year 9999.  Loops are bounded by what they consume: [applyLoop] by the
    difference of two indices, [parse] by the length of the text, [chunk_loop]
    and [send_chunks] by the length of the input, [forward_loop] by the three
    attempts of the code, joining by its three redirects, the tool loops of
    conversations and subagents by their configured number of rounds, the demux
    of a container's stream by its length, and the polling loops of the updater
    by the time limit over the pause, as long as the clock advances by the pause.
    Stars and replacements of regular expressions are bounded by the length of the
    text, waiting for the network by its thirty-one turns ([waiting_ends]) and
    joining by its five attempts ([backoff_schedule]).
    In each case the theorems show that the bound is reached only when the code
    stops too.

    ** What is not modelled

    Timers' lengths, logging, sockets and TLS; SQL schemas beyond the columns the
    code uses; the generation of keys and certificates; the measuring of hardware
    and agent/benchmark.ts; the JSON schemas of tool arguments, which are the types
    of the arguments here; the colours and tables of the command line and its live
    views (cli/top.ts, logs.ts, tasks.ts, diag.ts, test-runner.ts);
    mcp/resources.ts, which has no caller; the polling of Telegram and Discord by
    their libraries; the plugins that only construct a modelled component
    (plugins/registry.ts, kubernetes/, memory/, skills/).  Of openclaw/, which
    tsconfig.json excludes from the build and nothing of the cluster imports, the
    HTTP interfaces in the style of OpenAI, the reports of usage, the sessions on
    disk, the steps of the wizards and most handlers of server-methods/, and the
    handlers and senders of Telegram and Discord are left out: they call libraries of the
    services and modules of the assistant (its agents, configuration and media)
    that are not in the repository. *)

From stdpp Require Export base gmap strings list sorting pretty.
From Stdlib Require Export ZArith Lia.

#[global] Open Scope Z_scope.

(** ** Notations *)

Declare Scope cortex_scope.
Delimit Scope cortex_scope with cortex.
#[global] Open Scope cortex_scope.

(** Record update.  A record type declares its eta expansion once
    ([EtaRecord]); [r <| f := v |>] and [r <| f ::= g |>] then replace or
    transform the field [f], the way the code assigns [this.f = v]. *)
Class EtaRecord (R : Type) := eta_record : R -> R.

Class FieldUpdate {R T : Type} (field : R -> T) :=
  field_update : (T -> T) -> R -> R.
Arguments field_update {R T} field {_} _ _ : simpl nomatch.

Ltac solve_field_update :=
  lazymatch goal with
  | |- @FieldUpdate ?R ?T ?f =>
      let e := constr:(_ : EtaRecord R) in
      let e := eval hnf in e in
      lazymatch eval pattern f in e with
      | ?body _ =>
          let u := eval cbv beta in
            (fun (g : T -> T) => body (fun r => g (f r))) in
          exact u
      end
  end.
#[export] Hint Extern 1 (FieldUpdate _) => solve_field_update : typeclass_instances.

Notation "r <| f := v |>" := (field_update f (fun _ => v) r)
  (at level 1, f at next level, v at level 99, left associativity,
   format "r <| f  :=  v |>") : cortex_scope.
Notation "r <| f ::= g |>" := (field_update f g r)
  (at level 1, f at next level, g at level 99, left associativity,
   format "r <| f  ::=  g |>") : cortex_scope.

(** ** Automation *)

(** The hint database of the development: list, map and order facts that the
    component files prove by search. *)
Create HintDb cortex.

(** Case analysis on the innermost boolean test or match of the goal or of a
    hypothesis, keeping the equation. *)
Ltac split_match :=
  match goal with
  | |- context [match ?x with _ => _ end] =>
      lazymatch x with
      | context [match _ with _ => _ end] => fail
      | _ => destruct x eqn:?
      end
  | H : context [match ?x with _ => _ end] |- _ =>
      lazymatch x with
      | context [match _ with _ => _ end] => fail
      | _ => destruct x eqn:?
      end
  end.

Ltac split_matches := repeat (split_match; try discriminate; simplify_eq/=).

(** Turn the boolean comparisons of the code into their propositions. *)
Lemma bool_decide_string_eqb (s t : string) : String.eqb s t = true <-> s = t.
Proof. apply String.eqb_eq. Qed.

Ltac prop_of_bool :=
  repeat match goal with
  | H : (_ && _)%bool = true |- _ => apply andb_true_iff in H as [? ?]
  | H : (_ || _)%bool = false |- _ => apply orb_false_iff in H as [? ?]
  | H : (_ || _)%bool = true |- _ => apply orb_true_iff in H
  | H : (_ && _)%bool = false |- _ => apply andb_false_iff in H
  | H : negb _ = true |- _ => apply negb_true_iff in H
  | H : negb _ = false |- _ => apply negb_false_iff in H
  | H : (_ <? _)%Z = true |- _ => apply Z.ltb_lt in H
  | H : (_ <? _)%Z = false |- _ => apply Z.ltb_ge in H
  | H : (_ <=? _)%Z = true |- _ => apply Z.leb_le in H
  | H : (_ <=? _)%Z = false |- _ => apply Z.leb_gt in H
  | H : (_ =? _)%Z = true |- _ => apply Z.eqb_eq in H
  | H : (_ =? _)%Z = false |- _ => apply Z.eqb_neq in H
  | H : (_ >? _)%Z = _ |- _ => rewrite Z.gtb_ltb in H
  | H : (_ >=? _)%Z = _ |- _ => rewrite Z.geb_leb in H
  | H : String.eqb _ _ = true |- _ => apply String.eqb_eq in H
  | H : String.eqb _ _ = false |- _ => apply String.eqb_neq in H
  | H : bool_decide _ = true |- _ => apply bool_decide_eq_true in H
  | H : bool_decide _ = false |- _ => apply bool_decide_eq_false in H
  end.

(** ** JavaScript arrays *)

(** [a[i]]: [undefined] (here [None]) for a negative or too large index. *)
Definition js_at {A : Type} (l : list A) (i : Z) : option A :=
  if i <? 0 then None else l !! Z.to_nat i.

(** [a.length]. *)
Definition js_length {A : Type} (l : list A) : Z := Z.of_nat (length l).

(** The clamping of a relative index by [slice] and [splice]: a negative index
    counts from the end, and the result lies between 0 and the length. *)
Definition js_clamp (len i : Z) : Z :=
  if i <? 0 then Z.max 0 (len + i) else Z.min i len.

(** [a.slice(start, end)]. *)
Definition js_slice {A : Type} (l : list A) (start stop : Z) : list A :=
  let a := js_clamp (js_length l) start in
  let b := js_clamp (js_length l) stop in
  take (Z.to_nat (b - a)) (drop (Z.to_nat a) l).

(** [a.slice(start)]. *)
Definition js_slice_from {A : Type} (l : list A) (start : Z) : list A :=
  drop (Z.to_nat (js_clamp (js_length l) start)) l.

(** What is left of [a] after [a.splice(start)]. *)
Definition js_splice {A : Type} (l : list A) (start : Z) : list A :=
  take (Z.to_nat (js_clamp (js_length l) start)) l.

Lemma js_at_Some {A} (l : list A) i x :
  js_at l i = Some x <-> 0 <= i /\ l !! Z.to_nat i = Some x.
Proof.
  unfold js_at. destruct (Z.ltb_spec i 0); [split; [done|lia]|].
  split; [split; [lia|done] | by intros [_ ?]].
Qed.

Lemma js_at_None {A} (l : list A) i :
  js_at l i = None <-> i < 0 \/ js_length l <= i.
Proof.
  unfold js_at, js_length. destruct (Z.ltb_spec i 0); [split; auto with lia|].
  rewrite lookup_ge_None. lia.
Qed.

Lemma js_at_lt {A} (l : list A) i x : js_at l i = Some x -> 0 <= i < js_length l.
Proof.
  rewrite js_at_Some. intros [? ?%lookup_lt_Some]. unfold js_length. lia.
Qed.

Lemma js_at_nat {A} (l : list A) (n : nat) : js_at l (Z.of_nat n) = l !! n.
Proof.
  unfold js_at. destruct (Z.ltb_spec (Z.of_nat n) 0); [lia|]. by rewrite Nat2Z.id.
Qed.

Lemma js_splice_nonneg {A} (l : list A) i :
  0 <= i -> js_splice l i = take (Z.to_nat i) l.
Proof.
  intros. unfold js_splice, js_clamp, js_length.
  destruct (Z.ltb_spec i 0); [lia|].
  destruct (Z.le_ge_cases i (Z.of_nat (length l))).
  - by rewrite Z.min_l.
  - rewrite Z.min_r, Nat2Z.id by done. rewrite !take_ge; [done|lia|lia].
Qed.

Lemma js_slice_nonneg {A} (l : list A) i n :
  0 <= i -> 0 <= n -> js_slice l i (i + n) = take (Z.to_nat n) (drop (Z.to_nat i) l).
Proof.
  intros. unfold js_slice, js_clamp, js_length.
  destruct (Z.ltb_spec i 0), (Z.ltb_spec (i + n) 0); try lia.
  destruct (Z.le_ge_cases i (Z.of_nat (length l))).
  - rewrite (Z.min_l i) by done.
    destruct (Z.le_ge_cases (i + n) (Z.of_nat (length l))).
    + rewrite Z.min_l by done. by replace (i + n - i) with n by lia.
    + rewrite Z.min_r by done. rewrite !take_ge; [done|..]; rewrite length_drop; lia.
  - rewrite !Z.min_r by lia. rewrite !drop_ge by lia. by rewrite !take_nil.
Qed.

(** ** Array.prototype.sort

    The specification of [sort] since ES2019 is a stable sort.  [js_sort le]
    is the stable insertion sort for the comparator whose test
    [cmp(a, b) <= 0] is [le a b]. *)
Fixpoint js_insert {A : Type} (le : A -> A -> bool) (x : A) (l : list A) : list A :=
  match l with
  | [] => [x]
  | y :: l' => if le x y then x :: l else y :: js_insert le x l'
  end.

Definition js_sort {A : Type} (le : A -> A -> bool) (l : list A) : list A :=
  foldr (js_insert le) [] l.

Section sorting.
Context {A : Type} (le : A -> A -> bool).

Lemma js_insert_perm x l : js_insert le x l ≡ₚ x :: l.
Proof.
  induction l as [|y l IH]; simpl; [done|].
  destruct (le x y); [done|]. rewrite IH. by apply Permutation_swap.
Qed.

Lemma js_sort_perm l : js_sort le l ≡ₚ l.
Proof.
  induction l as [|x l IH]; simpl; [done|]. by rewrite js_insert_perm, IH.
Qed.

Lemma js_sort_length l : length (js_sort le l) = length l.
Proof. by rewrite (js_sort_perm l). Qed.

Lemma js_sort_elem_of x l : x ∈ js_sort le l <-> x ∈ l.
Proof. by rewrite (js_sort_perm l). Qed.

Context (le_total : forall x y, le x y = true \/ le y x = true).
Context (le_trans : forall x y z, le x y = true -> le y z = true -> le x z = true).

Lemma js_insert_sorted x l :
  StronglySorted (fun a b => le a b = true) l ->
  StronglySorted (fun a b => le a b = true) (js_insert le x l).
Proof.
  induction 1 as [|y l Hl IH Hy]; simpl; [by repeat constructor|].
  destruct (le x y) eqn:E.
  - constructor; [by constructor|]. constructor; [done|].
    eapply Forall_impl; [exact Hy|]. eauto.
  - constructor; [done|]. rewrite js_insert_perm.
    constructor; [|done]. destruct (le_total x y); congruence.
Qed.

Lemma js_sort_sorted l : StronglySorted (fun a b => le a b = true) (js_sort le l).
Proof.
  induction l; simpl; [constructor|]. by apply js_insert_sorted.
Qed.

(** The head of the sorted array is a minimum. *)
Lemma js_sort_head x l :
  head (js_sort le l) = Some x -> x ∈ l /\ forall y, y ∈ l -> le x y = true.
Proof.
  intros Hx. pose proof (js_sort_sorted l) as Hs.
  destruct (js_sort le l) as [|z s] eqn:E; simplify_eq/=.
  assert (Hin : forall y, y ∈ l <-> y ∈ x :: s)
    by (intros y; by rewrite <- (js_sort_elem_of y l), E).
  split; [rewrite Hin; by left|].
  intros y [->|Hy]%Hin%elem_of_cons.
  - by destruct (le_total x x).
  - apply StronglySorted_inv in Hs as [_ Hall].
    by apply (proj1 (Forall_forall _ _) Hall).
Qed.

End sorting.

Lemma StronglySorted_weaken {A} (R S : A -> A -> Prop) l :
  (forall x y, R x y -> S x y) -> StronglySorted R l -> StronglySorted S l.
Proof.
  intros H. induction 1 as [|x l _ IH Hx]; constructor; [done|].
  eapply Forall_impl; [exact Hx|]. auto.
Qed.

(** Sorting looks only at comparisons between the elements. *)
Lemma js_insert_ext {A} (le le' : A -> A -> bool) x l :
  (forall y, y ∈ l -> le x y = le' x y) -> js_insert le x l = js_insert le' x l.
Proof.
  induction l as [|y l IH]; intros H; cbn; [done|].
  rewrite (H y) by (by left). destruct (le' x y); [done|]. f_equal. apply IH.
  intros z Hz. apply H. by right.
Qed.

Lemma js_sort_ext {A} (le le' : A -> A -> bool) l :
  (forall x y, x ∈ l -> y ∈ l -> le x y = le' x y) -> js_sort le l = js_sort le' l.
Proof.
  unfold js_sort. induction l as [|x l IH]; intros H; cbn; [done|].
  rewrite IH by (intros; apply H; by right). apply js_insert_ext.
  intros y Hy. apply H; [by left|]. right. by apply (js_sort_elem_of le').
Qed.

Lemma filter_none {A} (P : A -> Prop) `{!forall x, Decision (P x)} (l : list A) :
  Forall (fun x => ~ P x) l -> filter P l = [].
Proof. induction 1; [done|]. by rewrite filter_cons_False. Qed.

Lemma filter_all {A} (P : A -> Prop) `{!forall x, Decision (P x)} (l : list A) :
  Forall P l -> filter P l = l.
Proof. induction 1; [done|]. rewrite filter_cons_True by done. by f_equal. Qed.

Lemma filter_ext_in {A} (P Q : A -> Prop) `{!forall x, Decision (P x)} `{!forall x, Decision (Q x)}
    (l : list A) :
  (forall x, x ∈ l -> P x <-> Q x) -> filter P l = filter Q l.
Proof.
  induction l as [|x l IH]; intros Hpq; [done|].
  assert (IH' : filter P l = filter Q l) by (apply IH; intros; apply Hpq; by right).
  destruct (decide (P x)) as [Hp|Hp].
  - rewrite !filter_cons_True; [by f_equal|by apply Hpq; [left|]|done].
  - rewrite !filter_cons_False; [done| |done]. intros Hq. apply Hp. by apply Hpq; [left|].
Qed.

(** [l.filter(f)] of a boolean test. *)
Definition keep {A : Type} (f : A -> bool) (l : list A) : list A := filter (fun x => f x = true) l.

Lemma foldl_inv {A B} (P : A -> Prop) (Q : B -> Prop) (f : A -> B -> A) l a :
  (forall a b, P a -> Q b -> P (f a b)) -> Forall Q l -> P a -> P (foldl f a l).
Proof. intros Hf. revert a. induction l as [|b l IH]; intros a Hl Ha; [done|]. apply Forall_cons in Hl as [Hb Hl]. apply IH; [done|by apply Hf]. Qed.


Lemma keep_cons {A} (f : A -> bool) x l : keep f (x :: l) = if f x then x :: keep f l else keep f l.
Proof. unfold keep. rewrite filter_cons. destruct (f x); by case_decide. Qed.
Lemma elem_of_keep {A} f (x : A) l : x ∈ keep f l <-> f x = true /\ x ∈ l.
Proof. unfold keep. by rewrite list_elem_of_filter. Qed.

Lemma elem_of_keep_if {A} (b : bool) f (x : A) l :
  x ∈ (if b then keep f l else l) <-> (b = true -> f x = true) /\ x ∈ l.
Proof. destruct b; rewrite ?elem_of_keep; naive_solver. Qed.

(** The element at position [k] of an array sorted in descending order is a
    value that at least [k + 1] elements reach, and no larger value is. *)
Section order_statistic.
Context {A : Type} (key : A -> Z).

Lemma sorted_desc_reaches (l : list A) k x :
  StronglySorted (fun a b => (key b <=? key a) = true) l ->
  l !! k = Some x ->
  (k < length (filter (fun a => (key x <= key a)%Z) l))%nat.
Proof.
  revert k. induction l as [|y l IH]; intros k Hs Hk; [done|].
  apply StronglySorted_inv in Hs as [Hs Hall].
  destruct k as [|k]; simplify_eq/=.
  - rewrite filter_cons_True by lia. simpl. lia.
  - pose proof (IH k Hs Hk).
    assert (key x <= key y).
    { eapply Forall_lookup_1 in Hall; [|exact Hk]. simpl in Hall. by apply Z.leb_le. }
    rewrite filter_cons_True by done. simpl. lia.
Qed.

Lemma sorted_desc_exceeds (l : list A) k x v :
  StronglySorted (fun a b => (key b <=? key a) = true) l ->
  l !! k = Some x -> key x < v ->
  (length (filter (fun a => (v <= key a)%Z) l) <= k)%nat.
Proof.
  revert k. induction l as [|y l IH]; intros k Hs Hk Hv; [done|].
  apply StronglySorted_inv in Hs as [Hs Hall].
  destruct k as [|k]; simplify_eq/=.
  - rewrite filter_cons_False by lia.
    assert (filter (fun a => v <= key a) l = []) as ->; [|simpl; lia].
    apply filter_none. eapply Forall_impl; [exact Hall|].
    simpl. intros a Ha%Z.leb_le. lia.
  - specialize (IH k Hs Hk Hv).
    destruct (decide (v <= key y)).
    + rewrite filter_cons_True by done. simpl. lia.
    + rewrite filter_cons_False by done. lia.
Qed.
End order_statistic.

(** ** Quorums *)

(** Two majorities of the same finite set of voters share a voter. *)
Lemma majority_intersect {K : Type} `{Countable K} (U X Y : gset K) :
  X ⊆ U -> Y ⊆ U ->
  (size U < 2 * size X)%nat -> (size U < 2 * size Y)%nat ->
  exists v, v ∈ X /\ v ∈ Y.
Proof.
  intros HX HY HsX HsY.
  destruct (decide (X ∩ Y = ∅)) as [Hdisj|Hne].
  - assert (X ## Y) by set_solver.
    assert (X ∪ Y ⊆ U) by set_solver.
    pose proof (size_union X Y ltac:(done)).
    pose proof (subseteq_size (X ∪ Y) U ltac:(done)). lia.
  - apply set_choose_L in Hne as [v Hv]. exists v. set_solver.
Qed.

(** Counting with a boolean test, as [filter(...).length] does. *)
Definition js_count {A : Type} (f : A -> bool) (l : list A) : Z :=
  js_length (base.filter (fun x => f x = true) l).

#[export] Hint Resolve js_at_lt : cortex.
