(* ===== verification/JsMap.v ===== *)
(** * The JavaScript [Map] with string keys

    A [Map] iterates in insertion order, setting an existing key keeps its
    position, and the order is visible to the program ([Array.from(m.values())]
    feeds schedulers that break ties by position).  It is modelled by an
    association list without duplicate keys.  The abstraction function
    [jm_to_gmap] sends it to a finite map, and every operation refines the
    corresponding operation on finite maps. *)

From S2P Require Import Prelude.

Abbreviation jsmap V := (list (string * V)).

Section jsmap.
Context {V : Type}.
Implicit Types (m : jsmap V) (k : string) (v : V).

(** [m.get(k)]. *)
Fixpoint jm_get m k : option V :=
  match m with
  | [] => None
  | (k', v) :: m' => if String.eqb k' k then Some v else jm_get m' k
  end.

(** [m.has(k)]. *)
Definition jm_has m k : bool :=
  match jm_get m k with Some _ => true | None => false end.

(** [m.set(k, v)]. *)
Fixpoint jm_set m k v : jsmap V :=
  match m with
  | [] => [(k, v)]
  | (k', v') :: m' =>
      if String.eqb k' k then (k', v) :: m' else (k', v') :: jm_set m' k v
  end.

(** [m.delete(k)]. *)
Fixpoint jm_delete m k : jsmap V :=
  match m with
  | [] => []
  | (k', v') :: m' =>
      if String.eqb k' k then m' else (k', v') :: jm_delete m' k
  end.

Definition jm_keys m : list string := m.*1.
(** [Array.from(m.values())]. *)
Definition jm_values m : list V := m.*2.
(** [m.size]. *)
Definition jm_size m : Z := js_length m.

(** A loop [for (const v of m.values()) v.field = ...] mutates the objects
    the map holds: the map keeps its keys and order. *)
Definition jm_map (f : V -> V) m : jsmap V := (fun kv => (kv.1, f kv.2)) <$> m.

(** Mutation of the object found under [k], when there is one. *)
Definition jm_alter (f : V -> V) k m : jsmap V :=
  match jm_get m k with Some v => jm_set m k (f v) | None => m end.

Definition jm_wf m : Prop := NoDup (jm_keys m).

(** The abstraction. *)
Definition jm_to_gmap m : gmap string V := list_to_map m.

Lemma jm_get_to_gmap m k : jm_get m k = jm_to_gmap m !! k.
Proof.
  unfold jm_to_gmap. induction m as [|[k' v'] m IH]; simpl; [by rewrite lookup_empty|].
  destruct (String.eqb_spec k' k) as [->|].
  - by rewrite lookup_insert_eq.
  - by rewrite lookup_insert_ne.
Qed.

Lemma jm_get_set_eq m k v : jm_get (jm_set m k v) k = Some v.
Proof.
  induction m as [|[k' v'] m IH]; simpl; [by rewrite String.eqb_refl|].
  destruct (String.eqb k' k) eqn:E; simpl; by rewrite E.
Qed.

Lemma jm_get_set_ne m k k' v : k <> k' -> jm_get (jm_set m k v) k' = jm_get m k'.
Proof.
  intros Hne. induction m as [|[k0 v0] m IH]; simpl.
  - by destruct (String.eqb_spec k k').
  - destruct (String.eqb_spec k0 k) as [->|]; simpl.
    + by destruct (String.eqb_spec k k').
    + by destruct (String.eqb k0 k').
Qed.

Lemma jm_get_set m k k' v :
  jm_get (jm_set m k v) k' = if decide (k = k') then Some v else jm_get m k'.
Proof.
  case_decide; subst; [apply jm_get_set_eq|by apply jm_get_set_ne].
Qed.

(** Refinement of [set]. *)
Lemma jm_set_to_gmap m k v : jm_to_gmap (jm_set m k v) = <[k:=v]> (jm_to_gmap m).
Proof.
  apply map_eq. intros i. rewrite <- !jm_get_to_gmap, lookup_insert, jm_get_set.
  case_decide; [done|]. apply jm_get_to_gmap.
Qed.

Lemma jm_keys_set m k v :
  jm_keys (jm_set m k v) = if jm_has m k then jm_keys m else jm_keys m ++ [k].
Proof.
  unfold jm_keys, jm_has. induction m as [|[k' v'] m IH]; csimpl; [done|].
  destruct (String.eqb_spec k' k) as [->|]; csimpl; [done|].
  rewrite IH. by destruct (jm_get m k).
Qed.

Lemma jm_has_keys m k : jm_has m k = true <-> k ∈ jm_keys m.
Proof.
  unfold jm_has, jm_keys. induction m as [|[k' v'] m IH]; simpl.
  - split; [done|]. by intros ?%elem_of_nil.
  - rewrite elem_of_cons. destruct (String.eqb_spec k' k) as [->|].
    + split; auto.
    + rewrite IH. naive_solver.
Qed.

Lemma jm_get_has m k v : jm_get m k = Some v -> jm_has m k = true.
Proof. unfold jm_has. by intros ->. Qed.

Lemma jm_has_false m k : jm_has m k = false <-> jm_get m k = None.
Proof. unfold jm_has. by destruct (jm_get m k). Qed.

Lemma jm_has_true m k : jm_has m k = true <-> is_Some (jm_get m k).
Proof.
  unfold jm_has. destruct (jm_get m k); split; [eauto|done|done|by intros []].
Qed.

Lemma jm_wf_set m k v : jm_wf m -> jm_wf (jm_set m k v).
Proof.
  unfold jm_wf. rewrite jm_keys_set. destruct (jm_has m k) eqn:E; [done|].
  intros ?. apply NoDup_app. split_and!; [done| |apply NoDup_singleton].
  intros x Hx ->%list_elem_of_singleton. apply jm_has_keys in Hx. congruence.
Qed.

Lemma jm_size_set m k v :
  jm_size (jm_set m k v) = if jm_has m k then jm_size m else jm_size m + 1.
Proof.
  unfold jm_size, js_length. rewrite <- !(length_fmap fst).
  pose proof (jm_keys_set m k v) as E. unfold jm_keys in E. rewrite E.
  destruct (jm_has m k); [done|]. rewrite length_app. simpl. lia.
Qed.

Lemma jm_get_None_keys m k : jm_get m k = None <-> k ∉ jm_keys m.
Proof. rewrite <- jm_has_false, <- jm_has_keys. by destruct (jm_has m k). Qed.

Lemma jm_get_delete_ne m k k' : k <> k' -> jm_get (jm_delete m k) k' = jm_get m k'.
Proof.
  intros. induction m as [|[k0 v0] m IH]; simpl; [done|].
  destruct (String.eqb_spec k0 k) as [->|]; simpl.
  - by destruct (String.eqb_spec k k').
  - by destruct (String.eqb k0 k').
Qed.

Lemma jm_get_delete_eq m k : jm_wf m -> jm_get (jm_delete m k) k = None.
Proof.
  unfold jm_wf, jm_keys. induction m as [|[k0 v0] m IH]; simpl; [done|].
  intros [Hnot Hnd]%NoDup_cons.
  destruct (String.eqb_spec k0 k) as [->|Hne]; simpl.
  - by apply jm_get_None_keys.
  - destruct (String.eqb_spec k0 k); [done|]. auto.
Qed.

(** Refinement of [delete]. *)
Lemma jm_get_delete m k k' :
  jm_wf m -> jm_get (jm_delete m k) k' = if decide (k = k') then None else jm_get m k'.
Proof.
  intros. case_decide; subst; [by apply jm_get_delete_eq|by apply jm_get_delete_ne].
Qed.

(** [delete] keeps the order of the other entries. *)
Lemma jm_delete_filter m k : jm_wf m -> jm_delete m k = filter (fun kv => kv.1 <> k) m.
Proof.
  unfold jm_wf, jm_keys. induction m as [|[k' v] m IH]; [done|].
  rewrite fmap_cons. intros [Hk Hm]%NoDup_cons. cbn [jm_delete fst] in *.
  destruct (String.eqb_spec k' k) as [->|].
  - rewrite filter_cons_False by (by cbn; intros []).
    symmetry. apply filter_all. apply Forall_forall. intros [k0 v0] Hi. cbn. intros ->.
    apply Hk. apply list_elem_of_fmap. by exists (k, v0).
  - rewrite filter_cons_True by done. f_equal. by apply IH.
Qed.

Lemma jm_delete_to_gmap m k :
  jm_wf m -> jm_to_gmap (jm_delete m k) = delete k (jm_to_gmap m).
Proof.
  intros. apply map_eq. intros i. rewrite <- jm_get_to_gmap.
  destruct (decide (k = i)) as [->|].
  - by rewrite lookup_delete_eq, jm_get_delete_eq.
  - by rewrite lookup_delete_ne, jm_get_delete_ne, jm_get_to_gmap.
Qed.

Lemma jm_keys_delete_subset m k : jm_keys (jm_delete m k) `sublist_of` jm_keys m.
Proof.
  unfold jm_keys. induction m as [|[k0 v0] m IH]; simpl; [done|].
  destruct (String.eqb k0 k); simpl; [by constructor|by apply sublist_skip].
Qed.

Lemma jm_wf_delete m k : jm_wf m -> jm_wf (jm_delete m k).
Proof. unfold jm_wf. intros. by eapply sublist_NoDup, jm_keys_delete_subset. Qed.

Lemma jm_set_set m k v v' : jm_set (jm_set m k v) k v' = jm_set m k v'.
Proof.
  induction m as [|[k0 v0] m IH]; cbn; [by rewrite String.eqb_refl|].
  destruct (String.eqb k0 k) eqn:E; cbn; rewrite E; [done|by rewrite IH].
Qed.

Lemma jm_size_delete m k : jm_size (jm_delete m k) = if jm_has m k then jm_size m - 1 else jm_size m.
Proof.
  unfold jm_size, js_length, jm_has. induction m as [|[k0 v0] m IH]; cbn; [done|].
  destruct (String.eqb k0 k); cbn [length]; [lia|]. destruct (jm_get m k); lia.
Qed.

Lemma jm_size_delete_le m k : jm_size (jm_delete m k) <= jm_size m.
Proof. rewrite jm_size_delete. case_match; lia. Qed.

Lemma jm_wf_nil : jm_wf [].
Proof. constructor. Qed.

Lemma jm_keys_map f m : jm_keys (jm_map f m) = jm_keys m.
Proof. unfold jm_keys, jm_map. rewrite <- list_fmap_compose. done. Qed.

Lemma jm_wf_map f m : jm_wf m -> jm_wf (jm_map f m).
Proof. unfold jm_wf. by rewrite jm_keys_map. Qed.

Lemma jm_get_map f m k : jm_get (jm_map f m) k = f <$> jm_get m k.
Proof.
  induction m as [|[k0 v0] m IH]; simpl; [done|].
  by destruct (String.eqb k0 k).
Qed.

Lemma jm_values_map f m : jm_values (jm_map f m) = f <$> jm_values m.
Proof. unfold jm_values, jm_map. by rewrite <- !list_fmap_compose. Qed.

Lemma jm_get_alter f m k k' :
  jm_get (jm_alter f k m) k' = if decide (k = k') then f <$> jm_get m k' else jm_get m k'.
Proof.
  unfold jm_alter. destruct (jm_get m k) eqn:E.
  - rewrite jm_get_set. case_decide; subst; [by rewrite E|done].
  - case_decide; subst; [by rewrite E|done].
Qed.

Lemma jm_keys_alter f m k : jm_keys (jm_alter f k m) = jm_keys m.
Proof.
  unfold jm_alter. destruct (jm_get m k) eqn:E; [|done].
  rewrite jm_keys_set. by rewrite (jm_get_has _ _ _ E).
Qed.

Lemma jm_wf_alter f m k : jm_wf m -> jm_wf (jm_alter f k m).
Proof. unfold jm_wf. by rewrite jm_keys_alter. Qed.

(** Iteration meets exactly the values that [get] finds. *)
Lemma jm_values_get m v :
  jm_wf m -> v ∈ jm_values m <-> exists k, jm_get m k = Some v.
Proof.
  unfold jm_wf, jm_keys, jm_values.
  induction m as [|[k0 v0] m IH]; simpl; intros Hnd.
  - split; [by intros ?%elem_of_nil|by intros [? ?]].
  - apply NoDup_cons in Hnd as [Hnot Hnd]. rewrite elem_of_cons, IH by done. split.
    + intros [->|[k Hk]].
      * exists k0. by rewrite String.eqb_refl.
      * exists k. destruct (String.eqb_spec k0 k) as [->|]; [|done].
        apply jm_get_has, jm_has_keys in Hk. done.
    + intros [k Hk]. destruct (String.eqb k0 k); [left; congruence|eauto].
Qed.

Lemma jm_get_values m k v : jm_get m k = Some v -> v ∈ jm_values m.
Proof.
  unfold jm_values. induction m as [|[k0 v0] m IH]; simpl; [done|].
  rewrite elem_of_cons. destruct (String.eqb k0 k); [left; congruence|auto].
Qed.

Lemma jm_elem_of_get m k v : jm_wf m -> (k, v) ∈ m <-> jm_get m k = Some v.
Proof.
  intros. rewrite jm_get_to_gmap. unfold jm_to_gmap.
  by rewrite elem_of_list_to_map by done.
Qed.

End jsmap.

#[global] Arguments jm_keys {V} m : simpl never.
#[global] Arguments jm_values {V} m : simpl never.
#[global] Arguments jm_map {V} f m : simpl never.
#[global] Arguments jm_alter {V} f k m : simpl never.
#[global] Arguments jm_size {V} m : simpl never.

#[export] Hint Resolve jm_wf_set jm_wf_delete jm_wf_nil jm_wf_map jm_wf_alter : cortex.
#[export] Hint Rewrite @jm_get_set_eq @jm_get_map : cortex.
