(* ===== verification/JsString.v ===== *)
(** * JavaScript strings and numbers in text form

    Strings are sequences of ASCII characters.  The methods of
    [String.prototype] that the code uses, [Number.prototype.toString] on
    integers and [parseInt], with the facts the components share. *)

From S2P Require Import Prelude.
From Stdlib Require Import Ascii DecimalString DecimalZ.

(** A string the code tests for truth: [undefined], [null] and the empty string
    are false. *)
Definition truthy_str (s : string) : bool := negb (String.eqb s "").
Definition truthy_opt (o : option string) : bool :=
  match o with Some s => truthy_str s | None => false end.

Definition js_startsWith (s p : string) : bool := String.prefix p s.

Definition js_str_length (s : string) : Z := Z.of_nat (String.length s).

(** [s.substring(i, j)] for [0 <= i]; [substring] swaps its arguments when they
    are in the wrong order, [slice] gives the empty string. *)
Definition js_slice_str (s : string) (i j : Z) : string :=
  let len := js_str_length s in
  let a := js_clamp len i in
  let b := js_clamp len j in
  String.substring (Z.to_nat a) (Z.to_nat (b - a)) s.

Definition js_slice_str_from (s : string) (i : Z) : string := js_slice_str s i (js_str_length s).

Definition js_endsWith (s suf : string) : bool :=
  (js_str_length suf <=? js_str_length s) &&
  String.eqb (js_slice_str_from s (js_str_length s - js_str_length suf)) suf.

Definition upper_ascii (c : ascii) : ascii :=
  let n := nat_of_ascii c in
  if (97 <=? n)%nat && (n <=? 122)%nat then ascii_of_nat (n - 32) else c.
Definition lower_ascii (c : ascii) : ascii :=
  let n := nat_of_ascii c in
  if (65 <=? n)%nat && (n <=? 90)%nat then ascii_of_nat (n + 32) else c.

Fixpoint string_map (f : ascii -> ascii) (s : string) : string :=
  match s with
  | EmptyString => EmptyString
  | String c s' => String (f c) (string_map f s')
  end.

Definition js_toUpperCase : string -> string := string_map upper_ascii.
Definition js_toLowerCase : string -> string := string_map lower_ascii.

(** [s.replace(pattern, replacement)] with a string pattern: the first
    occurrence. *)
Fixpoint js_replace (pat rep s : string) : string :=
  if String.prefix pat s
  then rep +:+ String.substring (String.length pat) (String.length s - String.length pat) s
  else match s with
       | EmptyString => EmptyString
       | String c s' => String c (js_replace pat rep s')
       end.

Fixpoint js_includes (s p : string) : bool :=
  String.prefix p s ||
  match s with
  | EmptyString => false
  | String _ s' => js_includes s' p
  end.

Definition is_space (c : ascii) : bool :=
  let n := nat_of_ascii c in (n =? 32)%nat || ((9 <=? n)%nat && (n <=? 13)%nat).

Fixpoint js_trimStart (s : string) : string :=
  match s with
  | EmptyString => EmptyString
  | String c s' => if is_space c then js_trimStart s' else s
  end.

(** [s.trim() === '']. *)
Fixpoint blank (s : string) : bool :=
  match s with
  | EmptyString => true
  | String c s' => is_space c && blank s'
  end.

(** [n.toString()] of an integer. *)
Definition js_toString (n : Z) : string := NilZero.string_of_int (Z.to_int n).

(** The longest prefix of [s], of at most [n] characters, that is an integer. *)
Fixpoint int_prefix (n : nat) (s : string) : option Z :=
  match NilZero.int_of_string (String.substring 0 n s) with
  | Some d => Some (Z.of_int d)
  | None => match n with O => None | S n' => int_prefix n' s end
  end.

(** [parseInt(s)]; [None] is [NaN]. *)
Definition parseInt (s : string) : option Z :=
  let t := js_trimStart s in int_prefix (String.length t) t.

Lemma substring_full s : String.substring 0 (String.length s) s = s.
Proof. induction s as [|c s IH]; simpl; [done|by rewrite IH]. Qed.

(** [s.split('-')[0]]. *)
Fixpoint before_dash (s : string) : string :=
  match s with
  | EmptyString => EmptyString
  | String c s' => if Ascii.eqb c "-" then EmptyString else String c (before_dash s')
  end.

(** ** Concatenation, prefixes and suffixes *)

Lemma str_app_cons c (a b : string) : String c a +:+ b = String c (a +:+ b).
Proof. reflexivity. Qed.
Lemma str_app_nil (b : string) : "" +:+ b = b.
Proof. reflexivity. Qed.

Lemma str_app_assoc (a b c : string) : (a +:+ b) +:+ c = a +:+ (b +:+ c).
Proof. induction a as [|x a IH]; [done|by rewrite !str_app_cons, IH]. Qed.

Lemma str_app_nil_r (a : string) : a +:+ "" = a.
Proof. induction a as [|x a IH]; [done|by rewrite str_app_cons, IH]. Qed.

Lemma str_length_app (a b : string) : String.length (a +:+ b) = (String.length a + String.length b)%nat.
Proof. induction a as [|x a IH]; [done|rewrite str_app_cons; simpl; by rewrite IH]. Qed.

Lemma substring_app_l (a b : string) : String.substring 0 (String.length a) (a +:+ b) = a.
Proof.
  induction a as [|c a IH]; [by destruct b|]. rewrite str_app_cons. cbn. by rewrite IH.
Qed.

Lemma substring_app_r (a b : string) n :
  String.substring (String.length a) n (a +:+ b) = String.substring 0 n b.
Proof. induction a as [|c a IH]; [done|]. rewrite str_app_cons. cbn. exact IH. Qed.

Lemma substring_split s n : (n <= String.length s)%nat ->
  s = String.substring 0 n s +:+ String.substring n (String.length s - n) s.
Proof.
  revert n. induction s as [|c s IH]; intros [|n] H; cbn in *; [done|lia| |].
  - by rewrite str_app_nil, substring_full.
  - rewrite str_app_cons. f_equal. apply IH. lia.
Qed.

Lemma prefix_app p s : String.prefix p s = true <-> exists t, s = p +:+ t.
Proof.
  revert s. induction p as [|c p IH]; intros s.
  - split; [by exists s|]. intros _. by destruct s.
  - destruct s as [|d s]; cbn; [split; [done|by intros [? ?]]|].
    destruct (ascii_dec c d) as [->|Hne].
    + rewrite IH. split; intros [t Ht]; exists t; rewrite str_app_cons in *; congruence.
    + split; [done|]. intros [t Ht]. rewrite str_app_cons in Ht. congruence.
Qed.

Lemma endsWith_app s suf : js_endsWith s suf = true <-> exists k, s = k +:+ suf.
Proof.
  unfold js_endsWith, js_slice_str_from, js_slice_str, js_clamp, js_str_length.
  rewrite andb_true_iff, Z.leb_le, String.eqb_eq. split.
  - intros [Hl H].
    rewrite (proj2 (Z.ltb_ge _ _)) in H by lia. rewrite (proj2 (Z.ltb_ge _ _)) in H by lia.
    exists (String.substring 0 (String.length s - String.length suf) s).
    rewrite Z.min_l, Z.min_l in H by lia.
    rewrite (substring_split s (String.length s - String.length suf)) at 1 by lia. f_equal.
    rewrite <- H at 3. f_equal; lia.
  - intros [k ->]. rewrite str_length_app. split; [lia|].
    rewrite (proj2 (Z.ltb_ge _ _)) by lia. rewrite (proj2 (Z.ltb_ge _ _)) by lia.
    rewrite Z.min_l, Z.min_l by lia.
    replace (Z.to_nat _) with (String.length k) by lia. rewrite substring_app_r.
    match goal with |- String.substring 0 ?n suf = suf => replace n with (String.length suf) by lia end.
    apply substring_full.
Qed.

Lemma slice_suffix (p t : string) : js_slice_str_from (p +:+ t) (js_str_length p) = t.
Proof.
  unfold js_slice_str_from, js_slice_str, js_clamp, js_str_length. rewrite str_length_app.
  rewrite (proj2 (Z.ltb_ge _ _)) by lia. rewrite (proj2 (Z.ltb_ge _ _)) by lia.
  rewrite Z.min_l, Z.min_l by lia.
  replace (Z.to_nat (Z.of_nat (String.length p))) with (String.length p) by lia.
  rewrite substring_app_r.
  match goal with |- String.substring 0 ?n t = t => replace n with (String.length t) by lia end.
  apply substring_full.
Qed.

Lemma slice_drop_last (k : string) c : js_slice_str (k +:+ String c "") 0 (-1) = k.
Proof.
  unfold js_slice_str, js_clamp, js_str_length. rewrite str_length_app. cbn [String.length].
  change (0 <? 0) with false. change (-1 <? 0) with true. cbv iota.
  rewrite Z.min_l, Z.max_r by lia.
  match goal with |- String.substring _ ?n _ = _ => replace n with (String.length k) by lia end.
  apply substring_app_l.
Qed.

Lemma str_app_inj_l (a b c : string) : a +:+ b = a +:+ c -> b = c.
Proof. induction a as [|x a IH]; [done|]. rewrite !str_app_cons. intros [= H]. by apply IH. Qed.

Lemma str_app_tail (a b t : string) : a +:+ t = b +:+ t -> a = b.
Proof.
  intros H. assert (Hl : String.length a = String.length b).
  { apply (f_equal String.length) in H. rewrite !str_length_app in H. lia. }
  rewrite <- (substring_app_l a t), <- (substring_app_l b t). by rewrite H, Hl.
Qed.

(** Two divisions of one text. *)
Lemma str_app_eq p s a t : p +:+ s = a +:+ t ->
  (exists a', a = p +:+ a' /\ s = a' +:+ t) \/ (exists c p', p = a +:+ String c p' /\ t = String c p' +:+ s).
Proof.
  revert a. induction p as [|d p IH]; intros a H.
  - left. exists a. by rewrite !str_app_nil in *.
  - destruct a as [|e a].
    + right. exists d, p. by rewrite !str_app_nil in *.
    + rewrite !str_app_cons in H. injection H as -> H. apply IH in H as [(a' & -> & ->)|(c & p' & -> & ->)].
      * left. by exists a'.
      * right. by exists c, p'.
Qed.

Lemma substring_all n u : String.substring 0 (n + String.length u) u = u.
Proof.
  revert n. induction u as [|d u IH]; intros n; [by destruct n|].
  cbn [String.length]. rewrite Nat.add_succ_r. cbn. by rewrite IH.
Qed.

(** ** Integers in text form *)

Lemma Z_to_int_not_nil n : Z.to_int n <> Decimal.Pos Decimal.Nil /\ Z.to_int n <> Decimal.Neg Decimal.Nil.
Proof.
  destruct n; simpl; split; try done; injection 1; apply DecimalPos.Unsigned.to_uint_nonnil.
Qed.

Lemma js_toString_trim n : js_trimStart (js_toString n) = js_toString n.
Proof.
  unfold js_toString. destruct (Z.to_int n) as [[]|[]]; reflexivity.
Qed.

Lemma int_prefix_full s z :
  Z.of_int <$> NilZero.int_of_string s = Some z -> int_prefix (String.length s) s = Some z.
Proof.
  intros H. assert (int_prefix (String.length s) s =
    match NilZero.int_of_string (String.substring 0 (String.length s) s) with
    | Some d => Some (Z.of_int d)
    | None => match String.length s with O => None | S n' => int_prefix n' s end
    end) as -> by (by destruct (String.length s)).
  rewrite substring_full. by destruct (NilZero.int_of_string s).
Qed.

(** The decimal text of an integer reads back as that integer. *)
Lemma parseInt_toString n : parseInt (js_toString n) = Some n.
Proof.
  unfold parseInt. rewrite js_toString_trim. unfold js_toString.
  destruct (Z_to_int_not_nil n) as [H1 H2].
  apply int_prefix_full. rewrite NilZero.isi by done. simpl. by rewrite DecimalZ.of_to.
Qed.

(** ** Texts without a character *)

Fixpoint free_of (c : ascii) (s : string) : bool :=
  match s with
  | EmptyString => true
  | String d s' => negb (Ascii.eqb d c) && free_of c s'
  end.

Lemma free_of_app c s t : free_of c (s +:+ t) = free_of c s && free_of c t.
Proof.
  induction s as [|d s IH]; [done|]. rewrite str_app_cons. cbn [free_of]. rewrite IH. by destruct (Ascii.eqb d c).
Qed.

Definition in_integer_text (c : ascii) : bool :=
  Ascii.eqb "-" c || existsb (Ascii.eqb c) ["0"; "1"; "2"; "3"; "4"; "5"; "6"; "7"; "8"; "9"]%char.

Lemma uint_free c u : in_integer_text c = false -> free_of c (NilEmpty.string_of_uint u) = true.
Proof.
  unfold in_integer_text. cbn [existsb]. intros H. prop_of_bool.
  assert (Hd : forall d s, Ascii.eqb c d = false -> free_of c s = true -> free_of c (String d s) = true).
  { intros d s Hd Hs. cbn. by rewrite Ascii.eqb_sym, Hd, Hs. }
  induction u; [done|..]; by apply Hd.
Qed.

(** The text of an integer has digits and a minus sign only. *)
Lemma js_toString_free c z : in_integer_text c = false -> free_of c (js_toString z) = true.
Proof.
  intros H. pose proof (uint_free c) as Hu. assert (Hm : Ascii.eqb "-" c = false).
  { unfold in_integer_text in H. by apply orb_false_iff in H as [? _]. }
  unfold js_toString. destruct (Z.to_int z) as [u|u]; destruct u; cbn [NilZero.string_of_int NilZero.string_of_uint];
    try (by apply Hu); cbn [free_of]; rewrite ?Hm; cbn [negb andb]; try (by apply Hu).
  all: by apply (Hu (Decimal.D0 Decimal.Nil) H).
Qed.

(** ** Joining and splitting *)

Definition newline : string := String (ascii_of_nat 10) "".

(** [lines.join(sep)]. *)
Fixpoint join_with (sep : string) (l : list string) : string :=
  match l with
  | [] => ""
  | [x] => x
  | x :: l' => x +:+ sep +:+ join_with sep l'
  end.

Definition str (l : list string) : string := fold_right String.append "" l.

Lemma js_str_length_app a b : js_str_length (a +:+ b) = js_str_length a + js_str_length b.
Proof. unfold js_str_length. rewrite str_length_app. lia. Qed.
Lemma js_str_length_pos a : 0 <= js_str_length a.
Proof. unfold js_str_length. lia. Qed.
Lemma str_app_str l k : str (l ++ k) = str l +:+ str k.
Proof. induction l as [|x l IH]; [done|]. change (x +:+ str (l ++ k) = (x +:+ str l) +:+ str k). by rewrite IH, str_app_assoc. Qed.

(** [s.split(c)] with a separator of one character. *)
Fixpoint js_split (c : ascii) (s : string) : list string :=
  match s with
  | EmptyString => [""]
  | String d s' =>
      if Ascii.eqb d c then "" :: js_split c s'
      else match js_split c s' with
           | x :: l => String d x :: l
           | [] => [String d ""]
           end
  end.

Lemma truthy_str_true t : truthy_str t = true <-> t <> "".
Proof. unfold truthy_str. rewrite negb_true_iff. apply String.eqb_neq. Qed.

Lemma truthy_str_false t : truthy_str t = false <-> t = "".
Proof. unfold truthy_str. rewrite negb_false_iff. apply String.eqb_eq. Qed.

Lemma js_split_free c a : free_of c a = true -> js_split c a = [a].
Proof.
  induction a as [|d a IH]; [done|]. cbn. intros [Hd Ha]%andb_true_iff.
  apply negb_true_iff in Hd. rewrite Hd, IH by done. done.
Qed.

Lemma js_split_cons c a b : free_of c a = true -> js_split c (a +:+ String c "" +:+ b) = a :: js_split c b.
Proof.
  induction a as [|d a IH]; [rewrite str_app_nil, str_app_cons; cbn; by rewrite Ascii.eqb_refl|]. cbn [free_of]. intros [Hd Ha]%andb_true_iff.
  apply negb_true_iff in Hd. rewrite str_app_cons. cbn [js_split]. rewrite Hd, IH by done. done.
Qed.

(** Splitting undoes joining. *)
Lemma js_split_join c l : l <> [] -> Forall (fun s => free_of c s = true) l ->
  js_split c (join_with (String c "") l) = l.
Proof.
  intros Hne H. induction H as [|s l Hs Hl IH]; [done|]. destruct l as [|s' l]; [by apply js_split_free|].
  change (join_with (String c "") (s :: s' :: l)) with (s +:+ String c "" +:+ join_with (String c "") (s' :: l)).
  rewrite js_split_cons by done. by rewrite IH.
Qed.

(** * Paths (node:path on POSIX)

    [path.normalize] and [path.join], as Node defines them: segments between
    slashes, without empty ones and dots, a double dot removing the segment before
    it. *)

(** The loop of normalizeString over the segments; [res] is the result so far, the
    latest first. *)
Fixpoint normalize_segments (allowAboveRoot : bool) (res segments : list string) : list string :=
  match segments with
  | [] => rev res
  | x :: segments =>
      if String.eqb x "" || String.eqb x "." then normalize_segments allowAboveRoot res segments
      else if String.eqb x ".." then
        match res with
        | y :: res' => if String.eqb y ".." then normalize_segments allowAboveRoot (x :: res) segments
                       else normalize_segments allowAboveRoot res' segments
        | [] => normalize_segments allowAboveRoot (if allowAboveRoot then [x] else []) segments
        end
      else normalize_segments allowAboveRoot (x :: res) segments
  end.

Definition path_normalize (p : string) : string :=
  if String.eqb p "" then "."
  else
    let isAbsolute := js_startsWith p "/" in
    let trailing := js_endsWith p "/" in
    let body := join_with "/" (normalize_segments (negb isAbsolute) [] (js_split "/" p)) in
    if String.eqb body "" then (if isAbsolute then "/" else if trailing then "./" else ".")
    else str [if isAbsolute then "/" else ""; body; if trailing then "/" else ""].

Definition path_join (parts : list string) : string :=
  match keep truthy_str parts with
  | [] => "."
  | parts => path_normalize (join_with "/" parts)
  end.

Example joined :
  path_join ["/root/.cortex/skills"; "a.md"] = "/root/.cortex/skills/a.md" /\
  path_join ["skills/"; "a.md"] = "skills/a.md" /\ path_join ["a/b"; "../c"] = "a/c" /\
  path_join ["/"; ".."; "x"] = "/x" /\ path_join [""; ""] = ".".
Proof. by vm_compute. Qed.
