(* ===== verification/JsRegExp.v ===== *)
(** * JavaScript regular expressions

    The backtracking matcher of ECMAScript for the constructs the code uses:
    character classes, alternatives, greedy and lazy repetition, capturing
    groups, and assertions on the neighbouring characters (the anchors, [\b],
    one-character lookahead and lookbehind).  A pattern is matched in
    continuation-passing style, as in the standard; an iteration of [*] that
    consumes nothing is refused, as in the standard.

    [matches] is the declarative reading of a pattern; [match_here_spec] shows that
    the matcher finds a match exactly when there is one. *)

From S2P Require Import Prelude JsString.
From Stdlib Require Import Ascii.

Inductive regex :=
  | re_eps
  | re_chr (p : ascii -> bool)
  | re_seq (r1 r2 : regex)
  | re_alt (r1 r2 : regex)
  | re_star (greedy : bool) (r : regex)
  | re_assert (p : option ascii -> option ascii -> bool)
  | re_group (n : nat) (r : regex).

(** A position in the input: the character before it, what follows, and the
    groups captured on the way, the latest first. *)
Record mstate := mkMstate {
  ms_prev : option ascii;
  ms_rest : string;
  ms_caps : list (nat * string)
}.
#[export] Instance mstate_eta : EtaRecord mstate := fun s =>
  mkMstate (ms_prev s) (ms_rest s) (ms_caps s).

Definition str_head (s : string) : option ascii :=
  match s with EmptyString => None | String c _ => Some c end.

(** The text between two positions. *)
Definition consumed (s s' : mstate) : string :=
  String.substring 0 (String.length (ms_rest s) - String.length (ms_rest s')) (ms_rest s).

Definition capture (n : nat) (s s' : mstate) : mstate :=
  s' <| ms_caps ::= cons (n, consumed s s') |>.

Definition shorter (s' s : mstate) : bool :=
  (String.length (ms_rest s') <? String.length (ms_rest s))%nat.

(** ** The matcher *)

Section matcher.
Context {A : Type}.

Definition or_else (x : option A) (y : option A) : option A :=
  match x with Some a => Some a | None => y end.

(** The loop of [*]; every round shortens the rest, so its length bounds the rounds. *)
Fixpoint star_loop (body : (mstate -> option A) -> mstate -> option A) (greedy : bool)
    (k : mstate -> option A) (fuel : nat) (s : mstate) : option A :=
  match fuel with
  | O => k s
  | S fuel =>
      let round := body (fun s' => if shorter s' s then star_loop body greedy k fuel s' else None) s in
      if greedy then or_else round (k s) else or_else (k s) round
  end.

Fixpoint run_regex (r : regex) (k : mstate -> option A) (s : mstate) : option A :=
  match r with
  | re_eps => k s
  | re_chr p =>
      match ms_rest s with
      | EmptyString => None
      | String c t => if p c then k (mkMstate (Some c) t (ms_caps s)) else None
      end
  | re_seq r1 r2 => run_regex r1 (run_regex r2 k) s
  | re_alt r1 r2 => or_else (run_regex r1 k s) (run_regex r2 k s)
  | re_star greedy r => star_loop (run_regex r) greedy k (String.length (ms_rest s)) s
  | re_assert p => if p (ms_prev s) (str_head (ms_rest s)) then k s else None
  | re_group n r => run_regex r (fun s' => k (capture n s s')) s
  end.
End matcher.

(** ** The declarative reading *)

Inductive matches : regex -> mstate -> mstate -> Prop :=
  | mt_eps s : matches re_eps s s
  | mt_chr (p : ascii -> bool) c prev t caps :
      p c = true -> matches (re_chr p) (mkMstate prev (String c t) caps) (mkMstate (Some c) t caps)
  | mt_seq r1 r2 s s' s'' :
      matches r1 s s' -> matches r2 s' s'' -> matches (re_seq r1 r2) s s''
  | mt_alt_l r1 r2 s s' : matches r1 s s' -> matches (re_alt r1 r2) s s'
  | mt_alt_r r1 r2 s s' : matches r2 s s' -> matches (re_alt r1 r2) s s'
  | mt_star_done g r s : matches (re_star g r) s s
  | mt_star_round g r s s' s'' :
      matches r s s' -> shorter s' s = true -> matches (re_star g r) s' s'' ->
      matches (re_star g r) s s''
  | mt_assert (p : option ascii -> option ascii -> bool) s :
      p (ms_prev s) (str_head (ms_rest s)) = true -> matches (re_assert p) s s
  | mt_group n r s s' : matches r s s' -> matches (re_group n r) s (capture n s s').

Lemma or_else_Some {A} (x y : option A) a :
  or_else x y = Some a -> x = Some a \/ y = Some a.
Proof. destruct x; cbn; auto. Qed.

Lemma or_else_is_Some {A} (x y : option A) :
  is_Some (or_else x y) <-> is_Some x \/ is_Some y.
Proof. destruct x; cbn; [|naive_solver]. split; intros _; eauto. Qed.

Section spec.
Context {A : Type}.
Implicit Types (k : mstate -> option A) (s : mstate).

(** A body that is sound and complete for [r] makes the loop so for [r*]. *)
Lemma star_loop_sound (body : (mstate -> option A) -> mstate -> option A) g r k fuel :
  (forall k s a, body k s = Some a -> exists s', matches r s s' /\ k s' = Some a) ->
  forall s a, star_loop body g k fuel s = Some a ->
  exists s', matches (re_star g r) s s' /\ k s' = Some a.
Proof.
  intros Hb. induction fuel as [|fuel IH]; intros s a H; cbn in H.
  { exists s. split; [constructor|done]. }
  assert (Hround : forall b, body (fun s' => if shorter s' s then star_loop body g k fuel s' else None) s
                    = Some b -> exists s', matches (re_star g r) s s' /\ k s' = Some b).
  { intros b Hbd. apply Hb in Hbd as (s1 & Hm & Hk). destruct (shorter s1 s) eqn:Hs; [|done].
    apply IH in Hk as (s2 & Hm2 & Hk2). exists s2. split; [by eapply mt_star_round|done]. }
  assert (Hdone : k s = Some a -> exists s', matches (re_star g r) s s' /\ k s' = Some a).
  { intros Hk. exists s. split; [constructor|done]. }
  destruct g; apply or_else_Some in H as [H|H]; eauto.
Qed.

Lemma star_loop_complete (body : (mstate -> option A) -> mstate -> option A) g r k fuel :
  (forall k s s', matches r s s' -> is_Some (k s') -> is_Some (body k s)) ->
  forall s s', (String.length (ms_rest s) <= fuel)%nat ->
  matches (re_star g r) s s' -> is_Some (k s') -> is_Some (star_loop body g k fuel s).
Proof.
  intros Hb. induction fuel as [|fuel IH]; intros s s' Hf Hm Hk; cbn.
  { inversion Hm as [| | | | |?? s0|?? s0 s1 s2 H1 Hs H2| |]; subst; [done|].
    unfold shorter in Hs. apply Nat.ltb_lt in Hs. lia. }
  inversion Hm as [| | | | |?? s0|?? s0 s1 s2 H1 Hs H2| |]; subst.
  - destruct g; apply or_else_is_Some; auto.
  - assert (is_Some (body (fun s' => if shorter s' s then star_loop body g k fuel s' else None) s)).
    { eapply Hb; [exact H1|]. rewrite Hs. eapply IH; [|exact H2|exact Hk].
      unfold shorter in Hs. apply Nat.ltb_lt in Hs. lia. }
    destruct g; apply or_else_is_Some; auto.
Qed.

Lemma run_regex_sound r : forall k s (a : A),
  run_regex r k s = Some a -> exists s', matches r s s' /\ k s' = Some a.
Proof.
  induction r as [|p|r1 IH1 r2 IH2|r1 IH1 r2 IH2|g r IH|p|n r IH]; intros k s a H; cbn in H.
  - exists s. split; [constructor|done].
  - destruct s as [prev [|c t] caps]; [done|]. cbn in H. destruct (p c) eqn:Hp; [|done].
    eexists. split; [by constructor|done].
  - apply IH1 in H as (s1 & H1 & H). apply IH2 in H as (s2 & H2 & H).
    exists s2. split; [by econstructor|done].
  - apply or_else_Some in H as [H|H].
    + apply IH1 in H as (s1 & H1 & H). exists s1. split; [by apply mt_alt_l|done].
    + apply IH2 in H as (s1 & H1 & H). exists s1. split; [by apply mt_alt_r|done].
  - by eapply star_loop_sound.
  - case_match; [|done]. exists s. split; [by constructor|done].
  - apply IH in H as (s1 & H1 & H). eexists. split; [by constructor|done].
Qed.

Lemma run_regex_complete r : forall k s s',
  matches r s s' -> is_Some (k s') -> is_Some (run_regex r k s).
Proof.
  induction r as [|p|r1 IH1 r2 IH2|r1 IH1 r2 IH2|g r IH|p|n r IH]; intros k s s' Hm Hk; cbn.
  - by inversion Hm; subst.
  - inversion Hm as [|? c prev t caps Hp| | | | | | |]; subst. cbn. by rewrite Hp.
  - inversion Hm as [| |? ? ? s1 ? H1 H2| | | | | |]; subst. eauto.
  - apply or_else_is_Some. inversion Hm; subst; eauto.
  - by eapply star_loop_complete.
  - inversion Hm as [| | | | | | |? ? Hp|]; subst. by rewrite Hp.
  - inversion Hm as [| | | | | | | |? ? ? s1 H1]; subst. eauto.
Qed.
End spec.

(** ** Matching at a position *)

Definition match_here (r : regex) (s : mstate) : option mstate := run_regex r Some s.

Lemma match_here_matches r s s' : match_here r s = Some s' -> matches r s s'.
Proof. intros (s1 & Hm & [= ->])%run_regex_sound. done. Qed.

(** The matcher finds a match exactly when there is one. *)
Lemma match_here_spec r s : is_Some (match_here r s) <-> exists s', matches r s s'.
Proof.
  split; [intros [s' H]; exists s'; by apply match_here_matches|].
  intros [s' H]. by eapply run_regex_complete.
Qed.

(** ** exec, test and replace *)

Record MatchResult := mkMatchResult {
  mr_before : string;                 (* input.slice(0, index) *)
  mr_match : string;                  (* m[0] *)
  mr_caps : list (nat * string);
  mr_after : string
}.

(** The value of a group is its latest capture. *)
Fixpoint cap_lookup (n : nat) (caps : list (nat * string)) : option string :=
  match caps with
  | [] => None
  | (i, s) :: caps => if (i =? n)%nat then Some s else cap_lookup n caps
  end.

(** [m[n]]. *)
Definition group (n : nat) (m : MatchResult) : option string := cap_lookup n (mr_caps m).

(** The search from the position after [prev], whose rest is [s]. *)
Fixpoint exec_from (r : regex) (prev : option ascii) (s : string) : option MatchResult :=
  match match_here r (mkMstate prev s []) with
  | Some s' => Some (mkMatchResult "" (consumed (mkMstate prev s []) s') (ms_caps s') (ms_rest s'))
  | None =>
      match s with
      | EmptyString => None
      | String c t =>
          m ← exec_from r (Some c) t;
          Some (mkMatchResult (String c (mr_before m)) (mr_match m) (mr_caps m) (mr_after m))
      end
  end.

(** [s.match(r)] without the flag [g]. *)
Definition exec (r : regex) (s : string) : option MatchResult := exec_from r None s.

(** [r.test(s)]. *)
Definition test (r : regex) (s : string) : bool :=
  match exec r s with Some _ => true | None => false end.

(** [s.replace(r, f)]. *)
Definition replace_first (r : regex) (f : MatchResult -> string) (s : string) : string :=
  match exec r s with
  | Some m => mr_before m +:+ f m +:+ mr_after m
  | None => s
  end.

Fixpoint last_char (prev : option ascii) (s : string) : option ascii :=
  match s with EmptyString => prev | String c t => last_char (Some c) t end.

(** [s.replace(r, f)] with the flag [g], for a callback that may change variables
    ([acc]): after an empty match the next character is passed over.  Each round
    shortens the rest. *)
Section replace_all.
Context {S : Type} (r : regex) (f : S -> MatchResult -> S * string).

Fixpoint replace_loop (fuel : nat) (prev : option ascii) (acc : S) (s : string) : S * string :=
  match fuel with
  | O => (acc, s)
  | Datatypes.S fuel =>
      match exec_from r prev s with
      | None => (acc, s)
      | Some m =>
          let prev := last_char (last_char prev (mr_before m)) (mr_match m) in
          let '(acc, new) := f acc m in
          let '(acc, rest) :=
            match mr_match m with
            | EmptyString =>
                match mr_after m with
                | EmptyString => (acc, "")
                | String c t => let '(acc, rest) := replace_loop fuel (Some c) acc t in (acc, String c rest)
                end
            | String _ _ => replace_loop fuel prev acc (mr_after m)
            end in
          (acc, mr_before m +:+ (new +:+ rest))
      end
  end.

Definition replace_all_acc (acc : S) (s : string) : S * string :=
  replace_loop (Datatypes.S (String.length s)) None acc s.
End replace_all.

Definition replace_all (r : regex) (f : MatchResult -> string) (s : string) : string :=
  (replace_all_acc r (fun _ m => ((), f m)) () s).2.

(** ** Building patterns *)

Definition re_lit_char (c : ascii) : regex := re_chr (Ascii.eqb c).
Fixpoint re_lit (s : string) : regex :=
  match s with
  | EmptyString => re_eps
  | String c EmptyString => re_lit_char c
  | String c t => re_seq (re_lit_char c) (re_lit t)
  end.

(** A literal under the flag [i]. *)
Fixpoint re_ilit (s : string) : regex :=
  match s with
  | EmptyString => re_eps
  | String c t => re_seq (re_chr (fun d => Ascii.eqb (lower_ascii c) (lower_ascii d))) (re_ilit t)
  end.

Definition re_seqs (l : list regex) : regex := foldr re_seq re_eps l.
Definition re_alts (r : regex) (l : list regex) : regex := foldl re_alt r l.
Definition re_many (r : regex) : regex := re_star true r.
Definition re_plus (r : regex) : regex := re_seq r (re_star true r).
Definition re_lazy (r : regex) : regex := re_star false r.
Definition re_lazy_plus (r : regex) : regex := re_seq r (re_star false r).
Definition re_opt (r : regex) : regex := re_alt r re_eps.
Fixpoint re_times (n : nat) (r : regex) : regex :=
  match n with O => re_eps | S n => re_seq r (re_times n r) end.
(** [r{0,n}]. *)
Fixpoint re_upto (n : nat) (r : regex) : regex :=
  match n with O => re_eps | S n => re_opt (re_seq r (re_upto n r)) end.

Definition in_range (lo hi : ascii) (c : ascii) : bool :=
  (nat_of_ascii lo <=? nat_of_ascii c)%nat && (nat_of_ascii c <=? nat_of_ascii hi)%nat.
Definition is_digit_char : ascii -> bool := in_range "0" "9".
Definition is_lower : ascii -> bool := in_range "a" "z".
Definition is_upper : ascii -> bool := in_range "A" "Z".
Definition is_alpha (c : ascii) : bool := is_lower c || is_upper c.
Definition is_alnum (c : ascii) : bool := is_alpha c || is_digit_char c.
(** [\w]. *)
Definition is_word (c : ascii) : bool := is_alnum c || Ascii.eqb c "_".
(** [.]: any character but a line terminator. *)
Definition is_dot (c : ascii) : bool :=
  negb (nat_of_ascii c =? 10)%nat && negb (nat_of_ascii c =? 13)%nat.
Fixpoint one_of (s : string) (c : ascii) : bool :=
  match s with EmptyString => false | String d t => Ascii.eqb d c || one_of t c end.

Definition re_start : regex := re_assert (fun prev _ => match prev with None => true | Some _ => false end).
Definition re_end : regex := re_assert (fun _ next => match next with None => true | Some _ => false end).
Definition boundary_test (p : ascii -> bool) (o : option ascii) : bool :=
  match o with Some c => p c | None => false end.
(** [\b]. *)
Definition re_boundary : regex :=
  re_assert (fun prev next => xorb (boundary_test is_word prev) (boundary_test is_word next)).
(** [(?<!p)] and [(?!p)] for a class [p]. *)
Definition re_not_after (p : ascii -> bool) : regex := re_assert (fun prev _ => negb (boundary_test p prev)).
Definition re_not_before (p : ascii -> bool) : regex := re_assert (fun _ next => negb (boundary_test p next)).

(** ** Facts about matches *)

(** A match goes forward: what is left is a suffix of what was there. *)
Lemma matches_suffix r s s' : matches r s s' -> exists u, ms_rest s = u +:+ ms_rest s'.
Proof.
  induction 1 as [s|p c prev t caps|r1 r2 s s' s'' _ [u Hu] _ [v Hv]|r1 r2 s s' _ IH|r1 r2 s s' _ IH
                 |g r s|g r s s' s'' _ [u Hu] _ _ [v Hv]|p s|n r s s' _ IH]; try done; try by exists "".
  - by exists (String c "").
  - exists (u +:+ v). by rewrite Hu, Hv, str_app_assoc.
  - exists (u +:+ v). by rewrite Hu, Hv, str_app_assoc.
Qed.

Lemma consumed_spec r s s' : matches r s s' -> ms_rest s = consumed s s' +:+ ms_rest s'.
Proof.
  intros [u Hu]%matches_suffix. unfold consumed. rewrite Hu, str_length_app, Nat.add_sub.
  by rewrite substring_app_l.
Qed.

(** What [exec] returns is the input, divided. *)
Lemma exec_from_split r prev s m :
  exec_from r prev s = Some m -> s = mr_before m +:+ mr_match m +:+ mr_after m.
Proof.
  revert prev m. induction s as [|c t IH]; intros prev m; cbn;
    destruct (match_here _ _) as [s'|] eqn:E; try done.
  - intros [= <-]. cbn. by apply match_here_matches, consumed_spec in E.
  - intros [= <-]. cbn. by apply match_here_matches, consumed_spec in E.
  - intros (m' & Hm & [= <-])%bind_Some. cbn. rewrite str_app_cons. f_equal. by eapply IH.
Qed.

Lemma exec_split r s m : exec r s = Some m -> s = mr_before m +:+ mr_match m +:+ mr_after m.
Proof. apply exec_from_split. Qed.

(** A pattern is found exactly when it matches at some position. *)
Lemma exec_from_is_Some r prev s :
  is_Some (exec_from r prev s) <->
  exists u v s', s = u +:+ v /\ matches r (mkMstate (last_char prev u) v []) s'.
Proof.
  revert prev. induction s as [|c t IH]; intros prev; cbn.
  - destruct (match_here _ _) as [s'|] eqn:E.
    + split; [|by eauto]. intros _. exists "", "", s'. split; [done|]. by apply match_here_matches.
    + split; [by intros []|]. intros (u & v & s' & Huv & Hm).
      destruct u; [|done]. rewrite str_app_nil in Huv. subst v.
      assert (is_Some (match_here r (mkMstate prev "" []))) as [? ?] by (apply match_here_spec; eauto).
      congruence.
  - destruct (match_here _ _) as [s'|] eqn:E.
    + split; [|by eauto]. intros _. exists "", (String c t), s'. split; [done|].
      by apply match_here_matches.
    + assert (Hb : is_Some (m ← exec_from r (Some c) t;
                            Some (mkMatchResult (String c (mr_before m)) (mr_match m) (mr_caps m) (mr_after m)))
                   <-> is_Some (exec_from r (Some c) t)).
      { destruct (exec_from r (Some c) t); cbn; [split; intros _; eauto|done]. }
      rewrite Hb, IH. split.
      * intros (u & v & s' & -> & Hm). exists (String c u), v, s'. done.
      * intros (u & v & s' & Huv & Hm). destruct u as [|d u].
        { rewrite str_app_nil in Huv. subst v. cbn in Hm.
          assert (is_Some (match_here r (mkMstate prev (String c t) []))) as [? ?]
            by (apply match_here_spec; eauto).
          congruence. }
        rewrite str_app_cons in Huv. injection Huv as <- ->. exists u, v, s'. done.
Qed.

Lemma test_spec r s :
  test r s = true <->
  exists u v s', s = u +:+ v /\ matches r (mkMstate (last_char None u) v []) s'.
Proof.
  unfold test, exec. rewrite <- exec_from_is_Some.
  destruct (exec_from r None s); split; intros H; try done; by eauto.
Qed.

(** A pattern that begins with an anchor is only tried at the start. *)
Lemma last_char_Some c u : is_Some (last_char (Some c) u).
Proof. revert c. induction u as [|d u IH]; intros c; cbn; [by eauto|apply IH]. Qed.

Lemma test_anchored r s :
  test (re_seq re_start r) s = true <-> exists s', matches r (mkMstate None s []) s'.
Proof.
  rewrite test_spec. split.
  - intros (u & v & s' & -> & Hm). inversion Hm as [| |? ? ? s1 ? H1 H2| | | | | |]; subst.
    inversion H1 as [| | | | | | |? ? Hp|]; subst. destruct u as [|c u].
    + cbn in H2. exists s'. by rewrite str_app_nil.
    + cbn in Hp. destruct (last_char_Some c u) as [d Hd]. by rewrite Hd in Hp.
  - intros [s' Hm]. exists "", s, s'. split; [done|]. econstructor; [|exact Hm]. by constructor.
Qed.

(** A property that holds of the pieces a replacement is made of holds of the result.
    [Q] is what is known of the text that is still to be searched. *)
Lemma replace_all_acc_ind {S} r (f : S -> MatchResult -> S * string) (I : S -> Prop) (P Q : string -> Prop) acc s :
  (forall a b, P a -> P b -> P (a +:+ b)) ->
  (forall t, Q t -> P t) ->
  (forall prev t m acc, Q t -> I acc -> exec_from r prev t = Some m ->
     mr_match m <> "" /\ P (mr_before m) /\ Q (mr_after m) /\ I (f acc m).1 /\ P (f acc m).2) ->
  I acc -> Q s -> I (replace_all_acc r f acc s).1 /\ P (replace_all_acc r f acc s).2.
Proof.
  intros Happ HQ Hm. unfold replace_all_acc. generalize (Datatypes.S (String.length s)) as fuel.
  generalize (@None ascii) as prev. intros prev fuel. revert prev acc s.
  induction fuel as [|fuel IH]; intros prev acc s Hi Hs; cbn; [by auto|].
  destruct (exec_from r prev s) as [m|] eqn:E; [|by auto].
  destruct (Hm prev s m acc Hs Hi E) as (Hne & Hb & Ha & Hi' & Hf).
  destruct (f acc m) as [acc' new]. cbn in Hi', Hf. destruct (mr_match m) as [|c t]; [done|].
  specialize (IH (last_char (last_char prev (mr_before m)) (String c t)) acc' (mr_after m) Hi' Ha).
  destruct (replace_loop r f fuel _ acc' (mr_after m)) as [acc2 rest]. destruct IH as [IH1 IH2]. split; [done|].
  cbn in *. auto.
Qed.

(** What [exec] returns comes from a match of the pattern. *)
Lemma exec_from_matches r prev s m : exec_from r prev s = Some m ->
  exists p s', matches r (mkMstate p (mr_match m +:+ mr_after m) []) s' /\
    ms_rest s' = mr_after m /\ ms_caps s' = mr_caps m.
Proof.
  revert prev m. induction s as [|c t IH]; intros prev m; cbn [exec_from];
    destruct (match_here _ _) as [s'|] eqn:E; try done.
  - intros [= <-]. cbn [mr_match mr_after mr_caps]. apply match_here_matches in E. exists prev, s'.
    pose proof (consumed_spec _ _ _ E) as Hc. cbn [ms_rest] in Hc. split; [|done]. by rewrite <- Hc.
  - intros [= <-]. cbn [mr_match mr_after mr_caps]. apply match_here_matches in E. exists prev, s'.
    pose proof (consumed_spec _ _ _ E) as Hc. cbn [ms_rest] in Hc. split; [|done]. by rewrite <- Hc.
  - intros (m' & Hm & [= <-])%bind_Some. by apply IH in Hm.
Qed.

(** ** Inversions, for proofs about concrete patterns *)

Lemma matches_seq r1 r2 s s'' :
  matches (re_seq r1 r2) s s'' <-> exists s', matches r1 s s' /\ matches r2 s' s''.
Proof. split; [by inversion 1; eauto|]. intros (? & ? & ?). by econstructor. Qed.

Lemma matches_chr p s s' :
  matches (re_chr p) s s' <->
  exists c t, ms_rest s = String c t /\ p c = true /\ s' = mkMstate (Some c) t (ms_caps s).
Proof.
  split; [inversion 1; subst; cbn; eauto|]. destruct s as [prev rest caps]. cbn.
  intros (c & t & -> & Hp & ->). by constructor.
Qed.

Lemma matches_alt r1 r2 s s' :
  matches (re_alt r1 r2) s s' <-> matches r1 s s' \/ matches r2 s s'.
Proof.
  split; [inversion 1; auto|]. intros [|]; [by apply mt_alt_l|by apply mt_alt_r].
Qed.

Lemma matches_assert p s s' :
  matches (re_assert p) s s' <-> s' = s /\ p (ms_prev s) (str_head (ms_rest s)) = true.
Proof. split; [by inversion 1|]. intros [-> ?]. by constructor. Qed.

(** A run of characters of a class. *)
Lemma matches_star_chr g p s s' :
  matches (re_star g (re_chr p)) s s' ->
  exists u, ms_rest s = u +:+ ms_rest s' /\ (forall c, one_of u c = true -> p c = true) /\
            ms_caps s' = ms_caps s.
Proof.
  remember (re_star g (re_chr p)) as r eqn:Hr. intros H. revert Hr.
  induction H as [| | | | |? ? s0|? ? s0 s1 s2 H1 _ Hs _ IH| |]; intros Hr; try discriminate.
  - exists "". by split_and!.
  - injection Hr as -> ->. apply matches_chr in H1 as (c & t & E & Hp & ->).
    destruct (IH eq_refl) as (u & Hu & Hall & Hc). cbn in Hu, Hc.
    exists (String c u). split_and!; [by rewrite E, Hu, str_app_cons| |done].
    intros d. cbn. intros [->%Ascii.eqb_eq|]%orb_true_iff; auto.
Qed.

Lemma matches_lit d s s' :
  matches (re_lit d) s s' -> ms_rest s = d +:+ ms_rest s' /\ ms_caps s' = ms_caps s.
Proof.
  revert s. induction d as [|c d IH]; intros s H; [by inversion H|].
  assert (Hcons : matches (re_seq (re_lit_char c) (re_lit d)) s s').
  { destruct d; [|done]. apply matches_seq. exists s'. split; [done|constructor]. }
  apply matches_seq in Hcons as (s1 & H1 & H2). apply matches_chr in H1 as (e & t & Er & ->%Ascii.eqb_eq & ->).
  apply IH in H2 as [Hr Hc]. cbn in Hr, Hc. by rewrite Er, Hr, Hc.
Qed.

Lemma matches_group n r s s' :
  matches (re_group n r) s s' ->
  exists s1 u, matches r s s1 /\ ms_rest s = u +:+ ms_rest s' /\ ms_rest s' = ms_rest s1 /\
    ms_caps s' = (n, u) :: ms_caps s1.
Proof.
  inversion 1 as [| | | | | | | |? ? ? s1 H1]; subst. exists s1, (consumed s s1).
  split_and!; [done|by apply consumed_spec in H1|done|done].
Qed.

(** A pattern without groups captures nothing. *)
Fixpoint groupless (r : regex) : bool :=
  match r with
  | re_group _ _ => false
  | re_seq r1 r2 | re_alt r1 r2 => groupless r1 && groupless r2
  | re_star _ r => groupless r
  | _ => true
  end.

Lemma matches_caps r s s' : matches r s s' -> groupless r = true -> ms_caps s' = ms_caps s.
Proof.
  induction 1 as [s|p c prev t caps|r1 r2 s s' s'' _ IH1 _ IH2|r1 r2 s s' _ IH|r1 r2 s s' _ IH
                 |g r s|g r s s' s'' _ IH1 _ _ IH2|p s|n r s s' _ IH]; cbn [groupless]; try done.
  - intros [H1 H2]%andb_true_iff. by rewrite IH2, IH1.
  - intros [H1 _]%andb_true_iff. by apply IH.
  - intros [_ H2]%andb_true_iff. by apply IH.
  - intros H. cbn [groupless] in IH2. by rewrite IH2, IH1.
Qed.

#[export] Hint Resolve match_here_matches : cortex.

(** ** Running a pattern over known text *)

Section run.
Context {A : Type}.
Implicit Types (k : mstate -> option A).

Lemma run_chr (p : ascii -> bool) k prev c t caps : p c = true ->
  run_regex (re_chr p) k (mkMstate prev (String c t) caps) = k (mkMstate (Some c) t caps).
Proof. intros H. cbn. by rewrite H. Qed.

Lemma run_chr_fails (p : ascii -> bool) k s : boundary_test p (str_head (ms_rest s)) = false ->
  run_regex (re_chr p) k s = None.
Proof. destruct s as [prev [|c t] caps]; cbn; [done|]. by intros ->. Qed.

Lemma run_seq r1 r2 k s : run_regex (re_seq r1 r2) k s = run_regex r1 (run_regex r2 k) s.
Proof. done. Qed.
Lemma run_group n r k s : run_regex (re_group n r) k s = run_regex r (fun s' => k (capture n s s')) s.
Proof. done. Qed.

(** A greedy run of a class takes all it can, if what follows then matches. *)
Lemma run_star_chr (p : ascii -> bool) k u : forall prev v caps a,
  (forall c, one_of u c = true -> p c = true) -> boundary_test p (str_head v) = false ->
  k (mkMstate (last_char prev u) v caps) = Some a ->
  run_regex (re_star true (re_chr p)) k (mkMstate prev (u +:+ v) caps) = Some a.
Proof.
  intros prev v caps a Hu Hv Hk.
  change (star_loop (run_regex (re_chr p)) true k (String.length (u +:+ v)) (mkMstate prev (u +:+ v) caps) = Some a).
  assert (Hn : (String.length u <= String.length (u +:+ v))%nat) by (rewrite str_length_app; lia).
  revert Hn. generalize (String.length (u +:+ v)) as n. revert prev Hk.
  induction u as [|c u IH]; intros prev Hk n Hn.
  - rewrite str_app_nil. cbn in Hk. destruct n as [|n]; cbn [star_loop]; [done|].
    rewrite run_chr_fails by done. by rewrite Hk.
  - destruct n as [|n]; [cbn in Hn; lia|]. rewrite str_app_cons. cbn [star_loop].
    rewrite run_chr by (apply Hu; cbn; by rewrite Ascii.eqb_refl). unfold shorter. cbn [ms_rest String.length].
    rewrite (proj2 (Nat.ltb_lt _ _)) by lia.
    rewrite IH; [done| |exact Hk|cbn in Hn; lia].
    intros d Hd. apply Hu. cbn. by rewrite Hd, orb_true_r.
Qed.

Lemma run_plus_chr (p : ascii -> bool) k c u prev v caps a :
  (forall d, one_of (String c u) d = true -> p d = true) -> boundary_test p (str_head v) = false ->
  k (mkMstate (last_char prev (String c u)) v caps) = Some a ->
  run_regex (re_plus (re_chr p)) k (mkMstate prev (String c u +:+ v) caps) = Some a.
Proof.
  intros Hu Hv Hk. rewrite str_app_cons.
  change (run_regex (re_chr p) (run_regex (re_star true (re_chr p)) k) (mkMstate prev (String c (u +:+ v)) caps) = Some a).
  rewrite run_chr by (apply Hu; cbn; by rewrite Ascii.eqb_refl).
  apply run_star_chr; [|done|done]. intros d Hd. apply Hu. cbn. by rewrite Hd, orb_true_r.
Qed.

(** A lazy run of a class takes the first position at which what follows matches. *)
Lemma run_lazy_chr (p : ascii -> bool) k u : forall prev v caps a,
  (forall c, one_of u c = true -> p c = true) ->
  (forall u1 u2, u = u1 +:+ u2 -> u2 <> "" -> k (mkMstate (last_char prev u1) (u2 +:+ v) caps) = None) ->
  k (mkMstate (last_char prev u) v caps) = Some a ->
  run_regex (re_star false (re_chr p)) k (mkMstate prev (u +:+ v) caps) = Some a.
Proof.
  intros prev v caps a Hu Hn Hk.
  change (star_loop (run_regex (re_chr p)) false k (String.length (u +:+ v)) (mkMstate prev (u +:+ v) caps) = Some a).
  assert (Hl : (String.length u <= String.length (u +:+ v))%nat) by (rewrite str_length_app; lia).
  revert Hl. generalize (String.length (u +:+ v)) as n. revert prev Hn Hk.
  induction u as [|c u IH]; intros prev Hn Hk n Hl.
  - rewrite str_app_nil. cbn in Hk. destruct n as [|n]; cbn [star_loop]; by rewrite Hk.
  - destruct n as [|n]; [cbn in Hl; lia|]. cbn [star_loop].
    pose proof (Hn "" (String c u) eq_refl ltac:(done)) as H0. cbn [last_char] in H0. rewrite H0. rewrite str_app_cons.
    rewrite run_chr by (apply Hu; cbn; by rewrite Ascii.eqb_refl). unfold shorter. cbn [ms_rest String.length or_else].
    rewrite (proj2 (Nat.ltb_lt _ _)) by lia. apply IH.
    + intros d Hd. apply Hu. cbn. by rewrite Hd, orb_true_r.
    + intros u1 u2 -> Hne. apply (Hn (String c u1) u2); [done|done].
    + exact Hk.
    + cbn in Hl. lia.
Qed.

Lemma run_lit_fails d k s : String.prefix d (ms_rest s) = false -> run_regex (re_lit d) k s = None.
Proof.
  intros H. destruct (run_regex (re_lit d) k s) as [a|] eqn:E; [|done].
  apply run_regex_sound in E as (s' & [Hr _]%matches_lit & _).
  assert (String.prefix d (ms_rest s) = true); [|congruence]. apply prefix_app. eauto.
Qed.

Lemma run_lit d k s t : ms_rest s = d +:+ t ->
  run_regex (re_lit d) k s = k (mkMstate (last_char (ms_prev s) d) t (ms_caps s)).
Proof.
  destruct s as [prev rest caps]. cbn [ms_rest ms_prev ms_caps]. intros ->. revert prev.
  induction d as [|c d IH]; intros prev; [by rewrite str_app_nil|]. rewrite str_app_cons.
  destruct d as [|e d].
  - cbn. by rewrite Ascii.eqb_refl.
  - change (run_regex (re_lit_char c) (run_regex (re_lit (String e d)) k) (mkMstate prev (String c (String e d +:+ t)) caps) = k (mkMstate (last_char prev (String c (String e d))) t caps)).
    unfold re_lit_char. rewrite run_chr by apply Ascii.eqb_refl. by rewrite IH.
Qed.

(** An optional part that is not there. *)
Lemma run_opt_skip r k s :
  run_regex r k s = None -> run_regex (re_opt r) k s = k s.
Proof. intros H. change (or_else (run_regex r k s) (k s) = k s). by rewrite H. Qed.
End run.

Lemma test_start r s :
  test (re_seq re_start r) s =
    match match_here r (mkMstate None s []) with Some _ => true | None => false end.
Proof.
  destruct (test (re_seq re_start r) s) eqn:E.
  - apply test_anchored, match_here_spec in E as [? ->]. done.
  - destruct (match_here r (mkMstate None s [])) eqn:Em; [|done].
    assert (test (re_seq re_start r) s = true); [|congruence].
    apply test_anchored. eauto with cortex.
Qed.

(** A match at the first position is the match that [exec] returns. *)
(** A pattern that begins with an anchor matches at the start of the text or nowhere. *)
Lemma exec_from_anchored r c s : exec_from (re_seq re_start r) (Some c) s = None.
Proof. revert c. induction s as [|d s IH]; intros c; cbn; [done|]. by rewrite IH. Qed.

Lemma exec_anchored r s m : exec (re_seq re_start r) s = Some m -> exists s',
  matches r (mkMstate None s []) s' /\ ms_caps s' = mr_caps m /\ ms_rest s' = mr_after m /\ mr_before m = "".
Proof.
  unfold exec. assert (Hm : forall s', match_here (re_seq re_start r) (mkMstate None s []) = Some s' -> matches r (mkMstate None s []) s').
  { intros s' Hm%match_here_matches. inversion Hm as [| |? ? ? s1 ? H1 H2| | | | | |]; subst.
    inversion H1; subst. done. }
  destruct s as [|c t]; cbn [exec_from]; destruct (match_here _ _) as [s'|]; try done.
  - intros [= <-]. exists s'. by split; [apply Hm|].
  - intros [= <-]. exists s'. by split; [apply Hm|].
  - by rewrite exec_from_anchored.
Qed.

Lemma exec_anchored_is_Some r s s' : matches r (mkMstate None s []) s' -> is_Some (exec (re_seq re_start r) s).
Proof.
  intros Hm. unfold exec. apply exec_from_is_Some. exists "", s, s'. split; [done|]. econstructor; [|exact Hm]. by constructor.
Qed.

Lemma exec_at_start r s s' : match_here r (mkMstate None s []) = Some s' ->
  exec r s ≫= group 1 = cap_lookup 1 (ms_caps s').
Proof. unfold exec. destruct s; cbn; by intros ->. Qed.

(** The first match: [<.+?>] and [<.+>] on the same text. *)
Example lazy_match :
  mr_match <$> exec (re_seqs [re_lit "<"; re_lazy_plus (re_chr is_dot); re_lit ">"]) "a<b>c>" = Some "<b>".
Proof. reflexivity. Qed.
Example greedy_match :
  mr_match <$> exec (re_seqs [re_lit "<"; re_plus (re_chr is_dot); re_lit ">"]) "a<b>c>" = Some "<b>c>".
Proof. reflexivity. Qed.
Example replaced :
  replace_all (re_plus (re_chr is_space)) (fun _ => "_") "a  b c" = "a_b_c".
Proof. reflexivity. Qed.

(** ** Texts of one class *)

(** Every character of [s] is in the class. *)
Definition of_class (p : ascii -> bool) (s : string) : Prop := forall c, one_of s c = true -> p c = true.
Lemma of_class_cons p c s : of_class p (String c s) <-> p c = true /\ of_class p s.
Proof.
  unfold of_class. cbn. split.
  - intros H. split; [apply H; by rewrite Ascii.eqb_refl|]. intros d Hd. apply H. by rewrite Hd, orb_true_r.
  - intros [Hc Hs] d [->%Ascii.eqb_eq|Hd]%orb_true_iff; auto.
Qed.

Lemma matches_plus_chars p s s' : matches (re_plus (re_chr p)) s s' ->
  exists u, ms_rest s = u +:+ ms_rest s' /\ u <> "" /\ of_class p u /\ ms_caps s' = ms_caps s.
Proof.
  intros Hm. assert (Hc : ms_caps s' = ms_caps s) by by eapply matches_caps.
  apply matches_seq in Hm as (s1 & (c & t & Hs & Hp & ->)%matches_chr & (u & Hu & Hall & _)%matches_star_chr).
  exists (String c u). cbn in Hu. rewrite Hs, Hu. split_and!; [done|done| |done]. by apply of_class_cons.
Qed.

Lemma star_chars_match g p u : forall prev v caps, of_class p u ->
  matches (re_star g (re_chr p)) (mkMstate prev (u +:+ v) caps) (mkMstate (last_char prev u) v caps).
Proof.
  induction u as [|c u IH]; intros prev v caps Hu; [constructor|].
  apply of_class_cons in Hu as [Hc Hu]. rewrite str_app_cons.
  eapply mt_star_round; [by apply mt_chr| |by apply IH]. unfold shorter. apply Nat.ltb_lt. cbn [ms_rest String.length]. lia.
Qed.

Lemma plus_chars_match p c u prev v caps : of_class p (String c u) ->
  matches (re_plus (re_chr p)) (mkMstate prev (String c u +:+ v) caps) (mkMstate (last_char (Some c) u) v caps).
Proof.
  intros [Hc Hu]%of_class_cons. rewrite str_app_cons. econstructor; [by apply mt_chr|by apply star_chars_match].
Qed.
