(* ===== verification/Json.v ===== *)
(** * JSON text

    [JSON.stringify] and [JSON.parse] on the values the program sends: the
    payload of every log entry and the parameters of a forwarded write.

    A [json] value is what either function sees of a JavaScript value.  Strings
    are UTF-8 byte sequences, so [Buffer.from(text)] and [buffer.toString()] are
    the identity.  An object is its list of properties in enumeration order; a
    property whose value is [undefined] is left out, as [stringify] does.
    Numbers are integers: a fraction or an exponent makes [parse] fail here,
    where JavaScript reads a double.  A [\uXXXX] escape is read for one code
    unit of the basic plane. *)

From S2P Require Import Prelude JsMap JsString.
From Stdlib Require Import Ascii DecimalString DecimalZ.

Inductive json :=
  | JNull
  | JBool (b : bool)
  | JNum (z : Z)
  | JStr (s : string)
  | JArr (l : list json)
  | JObj (l : list (string * json)).

(** Whether a value counts as true in a condition. *)
Definition truthy_json (j : json) : bool :=
  match j with
  | JNull => false
  | JBool b => b
  | JNum z => negb (z =? 0)
  | JStr s => truthy_str s
  | JArr _ | JObj _ => true
  end.

(** ** JSON.stringify *)

Definition hex_digit (n : nat) : ascii :=
  ascii_of_nat (if (n <? 10)%nat then 48 + n else 87 + n)%nat.

Definition escape_char (c : ascii) : string :=
  let n := nat_of_ascii c in
  if (n =? 34)%nat then "\" +:+ String c ""
  else if (n =? 92)%nat then "\\"
  else if (n =? 8)%nat then "\b"
  else if (n =? 9)%nat then "\t"
  else if (n =? 10)%nat then "\n"
  else if (n =? 12)%nat then "\f"
  else if (n =? 13)%nat then "\r"
  else if (n <? 32)%nat
       then "\u00" +:+ String (hex_digit (n / 16)) (String (hex_digit (n mod 16)) "")
       else String c "".

Fixpoint escape (s : string) : string :=
  match s with
  | EmptyString => EmptyString
  | String c s' => escape_char c +:+ escape s'
  end.

(** The double quote. *)
Definition dq : ascii := ascii_of_nat 34.

Definition quote (s : string) : string := String dq (escape s +:+ String dq "").

(** [parts.join(',')]. *)
Fixpoint join_comma (l : list string) : string :=
  match l with
  | [] => ""
  | [x] => x
  | x :: l' => x +:+ "," +:+ join_comma l'
  end.

Fixpoint stringify (j : json) : string :=
  match j with
  | JNull => "null"
  | JBool true => "true"
  | JBool false => "false"
  | JNum z => js_toString z
  | JStr s => quote s
  | JArr l => "[" +:+ join_comma (map stringify l) +:+ "]"
  | JObj l => "{" +:+ join_comma (map (fun kv => quote kv.1 +:+ ":" +:+ stringify kv.2) l) +:+ "}"
  end.

(** ** JSON.parse *)

Definition is_json_space (c : ascii) : bool :=
  let n := nat_of_ascii c in
  (n =? 32)%nat || (n =? 9)%nat || (n =? 10)%nat || (n =? 13)%nat.

Fixpoint skip_ws (s : string) : string :=
  match s with
  | EmptyString => EmptyString
  | String c s' => if is_json_space c then skip_ws s' else s
  end.

Fixpoint strip_prefix (p s : string) : option string :=
  match p, s with
  | EmptyString, _ => Some s
  | String a p', String b s' => if Ascii.eqb a b then strip_prefix p' s' else None
  | String _ _, EmptyString => None
  end.

Definition hex_value (c : ascii) : option nat :=
  let n := nat_of_ascii c in
  if (48 <=? n)%nat && (n <=? 57)%nat then Some (n - 48)%nat
  else if (97 <=? n)%nat && (n <=? 102)%nat then Some (n - 87)%nat
  else if (65 <=? n)%nat && (n <=? 70)%nat then Some (n - 55)%nat
  else None.

(** The UTF-8 encoding of one code unit. *)
Definition utf8 (n : nat) : string :=
  if (n <? 128)%nat then String (ascii_of_nat n) ""
  else if (n <? 2048)%nat
  then String (ascii_of_nat (192 + n / 64)) (String (ascii_of_nat (128 + n mod 64)) "")
  else String (ascii_of_nat (224 + n / 4096))
         (String (ascii_of_nat (128 + n / 64 mod 64)) (String (ascii_of_nat (128 + n mod 64)) "")).

Definition unescape_simple (c : ascii) : option ascii :=
  let n := nat_of_ascii c in
  if (n =? 34)%nat || (n =? 92)%nat || (n =? 47)%nat then Some c
  else if (n =? 98)%nat then Some (ascii_of_nat 8)
  else if (n =? 116)%nat then Some (ascii_of_nat 9)
  else if (n =? 110)%nat then Some (ascii_of_nat 10)
  else if (n =? 102)%nat then Some (ascii_of_nat 12)
  else if (n =? 114)%nat then Some (ascii_of_nat 13)
  else None.

(** The characters of a string literal after its opening quote, and the text
    after the closing one. *)
Fixpoint parse_chars (s : string) : option (string * string) :=
  match s with
  | EmptyString => None
  | String c s' =>
      let n := nat_of_ascii c in
      if (n =? 34)%nat then Some ("", s')
      else if (n =? 92)%nat then
        match s' with
        | String e s'' =>
            if (nat_of_ascii e =? 117)%nat then
              match s'' with
              | String a (String b (String d (String f s4))) =>
                  match hex_value a, hex_value b, hex_value d, hex_value f with
                  | Some a, Some b, Some d, Some f =>
                      match parse_chars s4 with
                      | Some (t, rest) =>
                          Some (utf8 (a * 4096 + b * 256 + d * 16 + f)%nat +:+ t, rest)
                      | None => None
                      end
                  | _, _, _, _ => None
                  end
              | _ => None
              end
            else match unescape_simple e, parse_chars s'' with
                 | Some x, Some (t, rest) => Some (String x t, rest)
                 | _, _ => None
                 end
        | EmptyString => None
        end
      else if (n <? 32)%nat then None
      else match parse_chars s' with
           | Some (t, rest) => Some (String c t, rest)
           | None => None
           end
  end.

Definition is_digit (c : ascii) : bool :=
  let n := nat_of_ascii c in (48 <=? n)%nat && (n <=? 57)%nat.

Fixpoint span_digits (s : string) : string * string :=
  match s with
  | EmptyString => ("", "")
  | String c s' =>
      if is_digit c then let (d, r) := span_digits s' in (String c d, r) else ("", s)
  end.

(** An integer literal: no leading zeros, [-0] is 0. *)
Definition parse_number (s : string) : option (Z * string) :=
  let (text, rest) :=
    match s with
    | String c s' =>
        if (nat_of_ascii c =? 45)%nat
        then let (d, r) := span_digits s' in (String c d, r)
        else span_digits s
    | EmptyString => ("", "")
    end in
  match NilZero.int_of_string text with
  | Some d =>
      let z := Z.of_int d in
      if String.eqb (js_toString z) text || String.eqb text "-0" then Some (z, rest) else None
  | None => None
  end.

Definition parse_literal (lit : string) (v : json) (s : string) : option (json * string) :=
  match strip_prefix lit s with Some rest => Some (v, rest) | None => None end.

(** One value, the elements of an array after its bracket, the members of an
    object after its brace.  A later member with the key of an earlier one
    replaces its value.  Every call consumes a character before it recurs, so
    the length of the text is enough fuel. *)
Fixpoint parse_value (fuel : nat) (s : string) : option (json * string) :=
  match fuel with
  | O => None
  | S n =>
      match skip_ws s with
      | EmptyString => None
      | String c s' =>
          let code := nat_of_ascii c in
          if (code =? 34)%nat then
            match parse_chars s' with Some (t, r) => Some (JStr t, r) | None => None end
          else if (code =? 91)%nat then
            match strip_prefix "]" (skip_ws s') with
            | Some r => Some (JArr [], r)
            | None => match parse_elems n s' with Some (l, r) => Some (JArr l, r) | None => None end
            end
          else if (code =? 123)%nat then
            match strip_prefix "}" (skip_ws s') with
            | Some r => Some (JObj [], r)
            | None => match parse_members n [] s' with Some (l, r) => Some (JObj l, r) | None => None end
            end
          else if (code =? 110)%nat then parse_literal "null" JNull (String c s')
          else if (code =? 116)%nat then parse_literal "true" (JBool true) (String c s')
          else if (code =? 102)%nat then parse_literal "false" (JBool false) (String c s')
          else match parse_number (String c s') with
               | Some (z, r) => Some (JNum z, r)
               | None => None
               end
      end
  end
with parse_elems (fuel : nat) (s : string) : option (list json * string) :=
  match fuel with
  | O => None
  | S n =>
      match parse_value n s with
      | Some (v, r) =>
          match strip_prefix "," (skip_ws r) with
          | Some r' => match parse_elems n r' with Some (l, r'') => Some (v :: l, r'') | None => None end
          | None => match strip_prefix "]" (skip_ws r) with
                    | Some r' => Some ([v], r')
                    | None => None
                    end
          end
      | None => None
      end
  end
with parse_members (fuel : nat) (acc : list (string * json)) (s : string) :
    option (list (string * json) * string) :=
  match fuel with
  | O => None
  | S n =>
      match skip_ws s with
      | String c s' =>
          if (nat_of_ascii c =? 34)%nat then
            match parse_chars s' with
            | Some (k, r) =>
                match strip_prefix ":" (skip_ws r) with
                | Some r1 =>
                    match parse_value n r1 with
                    | Some (v, r2) =>
                        let acc' := jm_set acc k v in
                        match strip_prefix "," (skip_ws r2) with
                        | Some r3 => parse_members n acc' r3
                        | None => match strip_prefix "}" (skip_ws r2) with
                                  | Some r3 => Some (acc', r3)
                                  | None => None
                                  end
                        end
                    | None => None
                    end
                | None => None
                end
            | None => None
            end
          else None
      | EmptyString => None
      end
  end.

(** [JSON.parse(text)]; [None] is a [SyntaxError]. *)
Definition parse (s : string) : option json :=
  match parse_value (String.length s) s with
  | Some (v, r) => if String.eqb (skip_ws r) "" then Some v else None
  | None => None
  end.


(** ** The round trip *)

(** A value JavaScript can hold: the keys of an object are distinct. *)
Fixpoint json_wf (j : json) : bool :=
  match j with
  | JArr l => forallb json_wf l
  | JObj l => bool_decide (NoDup l.*1) && forallb (fun kv => json_wf kv.2) l
  | _ => true
  end.

(** Induction on values, with the hypothesis for every element and member. *)
Lemma json_rect_nested (P : json -> Prop) :
  P JNull -> (forall b, P (JBool b)) -> (forall z, P (JNum z)) -> (forall s, P (JStr s)) ->
  (forall l, Forall P l -> P (JArr l)) ->
  (forall l, Forall (fun kv => P kv.2) l -> P (JObj l)) ->
  forall j, P j.
Proof.
  intros Hn Hb Hz Hs Ha Ho. fix IH 1. intros [|b|z|s|l|l].
  - exact Hn.
  - apply Hb.
  - apply Hz.
  - apply Hs.
  - apply Ha. induction l as [|v l IHl]; constructor; [apply IH|apply IHl].
  - apply Ho. induction l as [|[k v] l IHl]; constructor; [apply IH|apply IHl].
Qed.

Lemma parse_chars_escape_char c s :
  parse_chars (escape_char c +:+ s) =
    match parse_chars s with Some (t, rest) => Some (String c t, rest) | None => None end.
Proof. destruct c as [[] [] [] [] [] [] [] []]; reflexivity. Qed.

Lemma parse_chars_escape s rest : parse_chars (escape s +:+ String dq rest) = Some (s, rest).
Proof.
  induction s as [|c s IH]; [done|]. simpl escape.
  rewrite str_app_assoc, parse_chars_escape_char, IH. done.
Qed.

(** The next token does not continue a number. *)
Definition no_digit (s : string) : Prop :=
  match s with EmptyString => True | String c _ => is_digit c = false end.

Lemma span_digits_uint u rest :
  no_digit rest ->
  span_digits (NilEmpty.string_of_uint u +:+ rest) = (NilEmpty.string_of_uint u, rest).
Proof.
  intros Hr. induction u; simpl; try (by rewrite IHu).
  destruct rest as [|c r]; [done|]. simpl in *. by rewrite Hr.
Qed.

Lemma js_toString_shape z :
  exists u, u <> Decimal.Nil /\
    (js_toString z = NilEmpty.string_of_uint u \/
     js_toString z = String "-" (NilEmpty.string_of_uint u)).
Proof.
  destruct (Z_to_int_not_nil z) as [H1 H2]. unfold js_toString.
  destruct (Z.to_int z) as [u|u]; exists u.
  - split; [congruence|left]. destruct u; done.
  - split; [congruence|right]. destruct u; done.
Qed.

Lemma nonneg_text z : 0 <= z -> exists u, u <> Decimal.Nil /\ js_toString z = NilEmpty.string_of_uint u /\ Z.of_uint u = z.
Proof.
  intros Hz. destruct (Z_to_int_not_nil z) as [H1 _]. unfold js_toString.
  assert (Hof : Z.of_int (Z.to_int z) = z) by apply DecimalZ.of_to.
  destruct (Z.to_int z) as [u|u] eqn:E; cbn [Z.of_int] in Hof.
  - exists u. split; [congruence|]. split; [|done]. destruct u; [congruence|done..].
  - exfalso. destruct z; cbn in E; try discriminate. lia.
Qed.

Lemma uint_head u : u <> Decimal.Nil ->
  exists c s, NilEmpty.string_of_uint u = String c s /\ is_digit c = true.
Proof. destruct u; [done|..]; eexists _, _; split; reflexivity. Qed.

Lemma parse_number_toString z rest :
  no_digit rest -> parse_number (js_toString z +:+ rest) = Some (z, rest).
Proof.
  intros Hr.
  assert (Hint : NilZero.int_of_string (js_toString z) = Some (Z.to_int z)).
  { destruct (Z_to_int_not_nil z). apply NilZero.isi; done. }
  assert (Hend : match NilZero.int_of_string (js_toString z) with
    | Some d => let z' := Z.of_int d in
        if String.eqb (js_toString z') (js_toString z) || String.eqb (js_toString z) "-0"
        then Some (z', rest) else None
    | None => None end = Some (z, rest)).
  { rewrite Hint. simpl. by rewrite DecimalZ.of_to, String.eqb_refl. }
  destruct (js_toString_shape z) as (u & Hu & [E|E]); unfold parse_number; rewrite E in Hend |- *.
  - destruct (uint_head u Hu) as (c & s & Es & Hc).
    pose proof (span_digits_uint u rest Hr) as Hspan. rewrite Es in Hspan, Hend |- *.
    rewrite str_app_cons in Hspan |- *. cbv iota beta.
    destruct (Nat.eqb_spec (nat_of_ascii c) 45) as [Ec|_].
    { unfold is_digit in Hc. rewrite Ec in Hc. done. }
    rewrite Hspan. exact Hend.
  - rewrite str_app_cons. cbv iota beta. replace (nat_of_ascii "-" =? 45)%nat with true by reflexivity.
    rewrite (span_digits_uint u rest Hr). exact Hend.
Qed.

(** The first character of a value: it selects the branch of the parser. *)
Definition starts_value (c : ascii) : Prop :=
  is_json_space c = false /\ c <> "]"%char /\ c <> "}"%char.

Lemma digit_code c : is_digit c = true -> (48 <= nat_of_ascii c <= 57)%nat.
Proof. unfold is_digit. intros [?%Nat.leb_le ?%Nat.leb_le]%andb_true_iff. lia. Qed.

Lemma stringify_head j : exists c s, stringify j = String c s /\ starts_value c.
Proof.
  destruct j as [|[]|z|s|l|l]; simpl; try (eexists _, _; split; [reflexivity|by split_and!]).
  destruct (js_toString_shape z) as (u & Hu & [-> | ->]).
  - destruct (uint_head u Hu) as (c & s & -> & Hc). exists c, s. split; [done|].
    apply digit_code in Hc. unfold starts_value, is_json_space.
    split_and!; [|intros ->; cbv in Hc; lia..].
    rewrite !orb_false_iff, !Nat.eqb_neq. lia.
  - eexists _, _; split; [reflexivity|by split_and!].
Qed.

Lemma number_head z c s : js_toString z = String c s ->
  nat_of_ascii c = 45%nat \/ (48 <= nat_of_ascii c <= 57)%nat.
Proof.
  intros E. destruct (js_toString_shape z) as (u & Hu & [E'|E']); rewrite E in E'.
  - destruct (uint_head u Hu) as (c' & s' & Es & Hc). rewrite Es in E'. simplify_eq.
    right. by apply digit_code.
  - simplify_eq. by left.
Qed.

Lemma skip_ws_head c s : is_json_space c = false -> skip_ws (String c s) = String c s.
Proof. intros H. simpl. by rewrite H. Qed.

Lemma skip_ws_stringify j rest : skip_ws (stringify j +:+ rest) = stringify j +:+ rest.
Proof.
  destruct (stringify_head j) as (c & s & -> & Hs & _). rewrite str_app_cons.
  by apply skip_ws_head.
Qed.

Lemma strip_bracket_stringify j rest : strip_prefix "]" (stringify j +:+ rest) = None.
Proof.
  destruct (stringify_head j) as (c & s & -> & _ & Hc & _). rewrite str_app_cons. cbn [strip_prefix].
  destruct (Ascii.eqb_spec "]" c); congruence.
Qed.

(** What the parser does on the text of [j], given fuel for its length. *)
Definition reads_back (j : json) : Prop := forall fuel rest,
  (String.length (stringify j) <= fuel)%nat -> no_digit rest ->
  parse_value fuel (stringify j +:+ rest) = Some (j, rest).

Lemma reads_back_num z : reads_back (JNum z).
Proof.
  intros fuel rest Hf Hr. simpl in Hf |- *.
  pose proof (parse_number_toString z rest Hr) as Hp.
  pose proof (skip_ws_stringify (JNum z) rest) as Hws. simpl in Hws.
  destruct (js_toString z) as [|c s] eqn:E.
  { destruct (stringify_head (JNum z)) as (? & ? & E' & _). simpl in E'. congruence. }
  destruct fuel as [|n]; [simpl in Hf; lia|]. rewrite str_app_cons in *. cbn [parse_value].
  rewrite Hws. cbv zeta iota beta. pose proof (number_head z c s E) as Hc.
  repeat match goal with
  | |- context [(nat_of_ascii c =? ?k)%nat] =>
      destruct (Nat.eqb_spec (nat_of_ascii c) k); [lia|]
  end.
  by rewrite Hp.
Qed.

Lemma reads_back_str s : reads_back (JStr s).
Proof.
  intros fuel rest Hf _. destruct fuel as [|n]; [simpl in Hf; lia|].
  cbn [stringify]. unfold quote. rewrite str_app_cons, str_app_assoc, str_app_cons, str_app_nil.
  cbn [parse_value]. rewrite skip_ws_head by done.
  change (nat_of_ascii dq =? 34)%nat with true. cbv zeta iota beta.
  by rewrite parse_chars_escape.
Qed.

Lemma join_comma_cons x y l : join_comma (x :: y :: l) = x +:+ String "," (join_comma (y :: l)).
Proof. reflexivity. Qed.

Lemma parse_elems_join l : Forall reads_back l -> l <> [] -> forall fuel rest,
  (String.length (join_comma (map stringify l)) < fuel)%nat ->
  parse_elems fuel (join_comma (map stringify l) +:+ String "]" rest) = Some (l, rest).
Proof.
  induction 1 as [|j l Hj Hl IH]; [done|]. intros _ fuel rest Hf.
  destruct fuel as [|n]; [lia|]. destruct l as [|j' l].
  - cbn [map join_comma parse_elems] in *. by rewrite (Hj n (String "]" rest)) by (done || lia).
  - cbn [map] in *. rewrite join_comma_cons in *. rewrite str_length_app in Hf.
    cbn [String.length] in Hf. rewrite str_app_assoc, str_app_cons. cbn [parse_elems].
    rewrite (Hj n _) by (done || lia). rewrite skip_ws_head by done.
    cbn [strip_prefix]. cbv iota beta. change (Ascii.eqb "," ",") with true. cbv iota.
    rewrite IH; [done|done|]. lia.
Qed.

Lemma jm_set_fresh {V} (m : jsmap V) k v : k ∉ jm_keys m -> jm_set m k v = m ++ [(k, v)].
Proof.
  induction m as [|[k' v'] m IH]; [done|]. intros H. simpl in H.
  apply not_elem_of_cons in H as [Hne H]. simpl.
  destruct (String.eqb_spec k' k) as [->|]; [done|]. by rewrite IH.
Qed.

Definition member_text (kv : string * json) : string := quote kv.1 +:+ ":" +:+ stringify kv.2.

Lemma member_text_app k v rest :
  member_text (k, v) +:+ rest = String dq (escape k +:+ String dq (String ":" (stringify v +:+ rest))).
Proof.
  unfold member_text, quote. cbn [fst snd].
  by rewrite !str_app_assoc, !str_app_cons, !str_app_assoc, !str_app_cons, !str_app_nil.
Qed.

Lemma member_text_length k v : (String.length (stringify v) < String.length (member_text (k, v)))%nat.
Proof. unfold member_text, quote. rewrite !str_length_app. cbn. lia. Qed.

Lemma parse_members_join l : Forall (fun kv => reads_back kv.2) l -> l <> [] ->
  forall fuel acc rest,
  NoDup (acc.*1 ++ l.*1) ->
  (String.length (join_comma (map member_text l)) < fuel)%nat ->
  parse_members fuel acc (join_comma (map member_text l) +:+ String "}" rest) = Some (acc ++ l, rest).
Proof.
  induction 1 as [|[k v] l Hj Hl IH]; [done|]. intros _ fuel acc rest Hnd Hf.
  destruct fuel as [|n]; [lia|]. pose proof (member_text_length k v) as Hlen. cbn [snd] in Hj.
  assert (Hfresh : jm_set acc k v = acc ++ [(k, v)]).
  { apply jm_set_fresh. apply NoDup_app in Hnd as (_ & Hd & _). intros Hin. eapply Hd; [exact Hin|]. left. }
  assert (Hstep : forall tail,
    (String.length (stringify v) <= n)%nat -> no_digit tail ->
    parse_members (S n) acc (member_text (k, v) +:+ tail) =
      match strip_prefix "," (skip_ws tail) with
      | Some r3 => parse_members n (acc ++ [(k, v)]) r3
      | None => match strip_prefix "}" (skip_ws tail) with
                | Some r3 => Some (acc ++ [(k, v)], r3) | None => None end
      end).
  { intros tail Hn Ht. rewrite member_text_app. cbn [parse_members].
    rewrite skip_ws_head by done. change (nat_of_ascii dq =? 34)%nat with true.
    cbv iota beta. rewrite parse_chars_escape, skip_ws_head by done. cbn [strip_prefix].
    change (Ascii.eqb ":" ":") with true. cbv iota. rewrite (Hj n tail) by done.
    cbv zeta. by rewrite Hfresh. }
  destruct l as [|kv' l].
  - cbn [map join_comma] in *. rewrite Hstep by (done || lia). by rewrite skip_ws_head by done.
  - cbn [map] in *. rewrite join_comma_cons in *. rewrite str_length_app in Hf.
    cbn [String.length] in Hf. rewrite str_app_assoc, str_app_cons.
    rewrite Hstep by (done || lia). rewrite skip_ws_head by done.
    cbn [strip_prefix]. change (Ascii.eqb "," ",") with true. cbv iota.
    rewrite IH; [by rewrite <- app_assoc|done| |lia].
    rewrite fmap_app, <- app_assoc. exact Hnd.
Qed.

Lemma reads_back_arr l : Forall reads_back l -> reads_back (JArr l).
Proof.
  intros Hl fuel rest Hf Hr. cbn [stringify] in *. rewrite str_app_cons, str_app_nil in *.
  cbn [String.length] in Hf. rewrite str_length_app in Hf. cbn [String.length] in Hf.
  destruct fuel as [|n]; [lia|]. rewrite str_app_cons, str_app_assoc, str_app_cons, str_app_nil.
  cbn [parse_value]. rewrite skip_ws_head by done.
  change (nat_of_ascii "[" =? 34)%nat with false. change (nat_of_ascii "[" =? 91)%nat with true.
  cbv zeta iota beta. destruct l as [|j l]; [done|].
  assert (Hhead : strip_prefix "]" (skip_ws (join_comma (map stringify (j :: l)) +:+ String "]" rest)) = None).
  { destruct l as [|j' l]; cbn [map]; [cbn [join_comma]|rewrite join_comma_cons, str_app_assoc];
      rewrite skip_ws_stringify; apply strip_bracket_stringify. }
  rewrite Hhead, parse_elems_join; [done|done|done|lia].
Qed.

Lemma reads_back_obj l :
  Forall (fun kv => reads_back kv.2) l -> NoDup l.*1 -> reads_back (JObj l).
Proof.
  intros Hl Hnd fuel rest Hf Hr. cbn [stringify] in *.
  change (fun kv : string * json => quote kv.1 +:+ ":" +:+ stringify kv.2) with member_text in *.
  rewrite str_app_cons, str_app_nil in *.
  cbn [String.length] in Hf. rewrite str_length_app in Hf. cbn [String.length] in Hf.
  destruct fuel as [|n]; [lia|]. rewrite str_app_cons, str_app_assoc, str_app_cons, str_app_nil.
  cbn [parse_value]. rewrite skip_ws_head by done.
  change (nat_of_ascii "{" =? 34)%nat with false. change (nat_of_ascii "{" =? 91)%nat with false.
  change (nat_of_ascii "{" =? 123)%nat with true.
  cbv zeta iota beta. destruct l as [|[k v] l]; [done|].
  assert (Hhead : strip_prefix "}" (skip_ws (join_comma (map member_text ((k, v) :: l)) +:+ String "}" rest)) = None).
  { destruct l as [|j' l]; cbn [map]; [cbn [join_comma]|rewrite join_comma_cons, str_app_assoc];
      rewrite member_text_app; by rewrite skip_ws_head by done. }
  rewrite Hhead, parse_members_join; [done|done|done|done|lia].
Qed.

Lemma parse_value_stringify j : json_wf j = true -> reads_back j.
Proof.
  induction j as [|b|z|s|l IH|l IH] using json_rect_nested; intros Hwf.
  - intros [|n] rest Hf _; [simpl in Hf; lia|done].
  - intros [|n] rest Hf _; destruct b; (simpl in Hf; lia) || done.
  - apply reads_back_num.
  - apply reads_back_str.
  - apply reads_back_arr. simpl in Hwf. rewrite forallb_forall in Hwf.
    apply Forall_forall. intros x Hx. rewrite Forall_forall in IH.
    apply IH; [done|]. apply Hwf. by apply list_elem_of_In.
  - simpl in Hwf. apply andb_true_iff in Hwf as [Hnd%bool_decide_eq_true Hwf].
    apply reads_back_obj; [|done]. rewrite forallb_forall in Hwf.
    apply Forall_forall. intros x Hx. rewrite Forall_forall in IH.
    apply IH; [done|]. apply Hwf. by apply list_elem_of_In.
Qed.

(** Every value reads back from its text. *)
Lemma parse_stringify j : json_wf j = true -> parse (stringify j) = Some j.
Proof.
  intros Hwf. unfold parse.
  pose proof (parse_value_stringify j Hwf (String.length (stringify j)) "" (le_n _) I) as H.
  rewrite str_app_nil_r in H. by rewrite H.
Qed.
