(* ===== verification/JsNumber.v ===== *)
(** * Numbers that need not be finite

    The program's numbers are integers or rationals nearly everywhere; the values of
    this file are for the places where a division by zero or the conversion of an
    arbitrary text matters.  Rounding to doubles is left out. *)

From S2P Require Import Prelude JsString Json.
From Stdlib Require Import QArith Qpower Ascii DecimalString DecimalZ.
#[local] Open Scope Z_scope.

Inductive number := fin (q : Q) | inf (positive : bool) | nan.

(** [a / b] on integers. *)
Definition js_div (a b : Z) : number :=
  if b =? 0 then if a =? 0 then nan else inf (0 <? a)
  else fin (inject_Z a / inject_Z b).

Definition num_add (x y : number) : number :=
  match x, y with
  | nan, _ | _, nan => nan
  | fin p, fin q => fin (p + q)
  | inf b, inf b' => if Bool.eqb b b' then inf b else nan
  | inf b, fin _ | fin _, inf b => inf b
  end.

(** The product with a positive constant. *)
Definition num_scale (k : Q) (x : number) : number :=
  match x with fin q => fin (q * k) | _ => x end.

(** The test [b - a <= 0] of a comparator, where a result that is not a number
    counts as 0. *)
Definition num_ge (a b : number) : bool :=
  match a, b with
  | nan, _ | _, nan => true
  | fin p, fin q => Qle_bool q p
  | inf true, _ => true
  | inf false, inf b => negb b
  | inf false, fin _ => false
  | fin _, inf b => negb b
  end.

(** [z > x] for an integer [z]: false when [x] is not a number. *)
Definition int_gt (z : Z) (x : number) : bool :=
  match x with
  | fin q => negb (Qle_bool (inject_Z z) q)
  | inf b => negb b
  | nan => false
  end.

(** ** [Number(text)] *)

Definition radix_digit (radix : Z) (c : ascii) : option Z :=
  let n := Z.of_nat (nat_of_ascii c) in
  let d := if (48 <=? n) && (n <=? 57) then n - 48
           else if (97 <=? n) && (n <=? 102) then n - 87
           else if (65 <=? n) && (n <=? 70) then n - 55 else radix in
  if d <? radix then Some d else None.

(** The digits at the start of a text: their value, their number and the rest. *)
Definition take_digits (s : string) : Z * nat * string :=
  let (digits, rest) := span_digits s in
  (default 0 (Z.of_uint <$> NilEmpty.uint_of_string digits), String.length digits, rest).

Fixpoint radix_literal (radix : Z) (s : string) (acc : Z) : number :=
  match s with
  | EmptyString => fin (inject_Z acc)
  | String c s' =>
      match radix_digit radix c with
      | Some d => radix_literal radix s' (acc * radix + d)
      | None => nan
      end
  end.

(** The exponent part, if any: the mantissa is scaled by its power of ten. *)
Definition exponent (mantissa : Q) (s : string) : number :=
  match s with
  | EmptyString => fin mantissa
  | String c s' =>
      if Ascii.eqb c "e" || Ascii.eqb c "E" then
        let '(sign, s') := match s' with
                           | String "-" t => (-1, t)
                           | String "+" t => (1, t)
                           | _ => (1, s')
                           end in
        match take_digits s' with
        | (e, S _, EmptyString) => fin (mantissa * Qpower 10 (sign * e))
        | _ => nan
        end
      else nan
  end.

(** An unsigned decimal literal. *)
Definition decimal_literal (s : string) : number :=
  let '(whole, n, rest) := take_digits s in
  match rest with
  | String "." rest' =>
      let '(part, k, rest'') := take_digits rest' in
      if ((n + k)%nat =? 0)%nat then nan
      else exponent (inject_Z whole + inject_Z part * Qpower 10 (- Z.of_nat k)) rest''
  | _ => if (n =? 0)%nat then nan else exponent (inject_Z whole) rest
  end.

Definition signed (negative : bool) (x : number) : number :=
  if negative then match x with fin q => fin (- q) | inf b => inf (negb b) | nan => nan end else x.

Definition unsigned_literal (s : string) : number :=
  if String.eqb s "Infinity" then inf true else decimal_literal s.

Fixpoint js_trimEnd (s : string) : string :=
  match s with
  | EmptyString => EmptyString
  | String c s' => if blank s then EmptyString else String c (js_trimEnd s')
  end.

Definition js_trim (s : string) : string := js_trimEnd (js_trimStart s).

Definition js_Number (s : string) : number :=
  match js_trim s with
  | EmptyString => fin 0
  | String "0" (String c ((String _ _) as ds)) as t =>
      if Ascii.eqb c "x" || Ascii.eqb c "X" then radix_literal 16 ds 0
      else if Ascii.eqb c "o" || Ascii.eqb c "O" then radix_literal 8 ds 0
      else if Ascii.eqb c "b" || Ascii.eqb c "B" then radix_literal 2 ds 0
      else unsigned_literal t
  | String "-" t => signed true (unsigned_literal t)
  | String "+" t => unsigned_literal t
  | t => unsigned_literal t
  end.

(** ** Finite values *)

Definition is_fin (x : number) : Prop := exists q, x = fin q.
Definition fin_value (x : number) : Q := match x with fin q => q | _ => 0%Q end.

Lemma js_div_fin a b : b <> 0 -> is_fin (js_div a b).
Proof. intros. unfold js_div, is_fin. destruct (Z.eqb_spec b 0); [done|]. eauto. Qed.

Lemma num_add_fin x y : is_fin x -> is_fin y -> is_fin (num_add x y).
Proof. intros [p ->] [q ->]. unfold is_fin. cbn. eauto. Qed.

Lemma num_scale_fin k x : is_fin x -> is_fin (num_scale k x).
Proof. intros [p ->]. unfold is_fin. cbn. eauto. Qed.

Lemma fin_fin q : is_fin (fin q).
Proof. unfold is_fin. eauto. Qed.
#[export] Hint Resolve num_add_fin num_scale_fin js_div_fin fin_fin : core.

Lemma num_ge_fin x y : is_fin x -> is_fin y -> num_ge x y = Qle_bool (fin_value y) (fin_value x).
Proof. by intros [p ->] [q ->]. Qed.

Lemma int_gt_fin z x : int_gt z (fin (inject_Z x)) = (x <? z).
Proof.
  unfold int_gt. destruct (Z.ltb_spec x z) as [H|H].
  - apply negb_true_iff, not_true_iff_false. rewrite Qle_bool_iff, <- Zle_Qle. lia.
  - apply negb_false_iff. rewrite Qle_bool_iff, <- Zle_Qle. lia.
Qed.

(** *** Decimal texts *)

Lemma trim_digits u : js_trimEnd (NilEmpty.string_of_uint u) = NilEmpty.string_of_uint u.
Proof. induction u; cbn; by rewrite ?IHu. Qed.

Lemma take_digits_uint u :
  take_digits (NilEmpty.string_of_uint u) =
  (Z.of_uint u, String.length (NilEmpty.string_of_uint u), "").
Proof.
  unfold take_digits. rewrite <- (str_app_nil_r (NilEmpty.string_of_uint u)) at 1.
  rewrite span_digits_uint by done. by rewrite NilEmpty.usu.
Qed.

Lemma unsigned_digits u : u <> Decimal.Nil ->
  unsigned_literal (NilEmpty.string_of_uint u) = fin (inject_Z (Z.of_uint u)).
Proof.
  intros Hu. unfold unsigned_literal.
  replace (String.eqb (NilEmpty.string_of_uint u) "Infinity") with false by (by destruct u).
  unfold decimal_literal. rewrite take_digits_uint. by destruct u.
Qed.

Lemma js_Number_digits u : u <> Decimal.Nil ->
  js_Number (NilEmpty.string_of_uint u) = fin (inject_Z (Z.of_uint u)).
Proof.
  intros Hu. rewrite <- unsigned_digits by done. unfold js_Number, js_trim.
  replace (js_trimStart (NilEmpty.string_of_uint u)) with (NilEmpty.string_of_uint u) by (by destruct u).
  rewrite trim_digits. destruct u as [|u|u|u|u|u|u|u|u|u|u]; try done.
  destruct u as [|u|u|u|u|u|u|u|u|u|u]; try done; by destruct u.
Qed.

(** [Number] reads the text of a natural number back. *)
Lemma js_Number_toString z : 0 <= z -> js_Number (js_toString z) = fin (inject_Z z).
Proof.
  intros Hz. destruct (Z_to_int_not_nil z) as [H1 _]. unfold js_toString.
  assert (Hof : Z.of_int (Z.to_int z) = z) by apply of_to.
  destruct (Z.to_int z) as [u|u] eqn:E; cbn [Z.of_int] in Hof.
  - replace (NilZero.string_of_int (Decimal.Pos u)) with (NilEmpty.string_of_uint u)
      by (destruct u; [congruence|done..]).
    rewrite js_Number_digits by congruence. by rewrite Hof.
  - exfalso. destruct z; cbn in E; try discriminate. lia.
Qed.

Example js_Number_examples :
  js_Number " 42 " = fin 42 /\ js_Number "" = fin 0 /\ js_Number "0x1F" = fin 31 /\
  js_Number "-7" = fin (-7) /\ js_Number "12a" = nan /\ js_Number "-Infinity" = inf false /\
  js_Number "0" = fin 0 /\ js_Number "." = nan /\ fin_value (js_Number "25e-1") == (5 # 2).
Proof. split_and!; vm_compute; reflexivity. Qed.

(** Trimming twice is trimming once. *)
Lemma blank_trimEnd s : blank (js_trimEnd s) = blank s.
Proof.
  induction s as [|c s IH]; [done|]. cbn [js_trimEnd]. destruct (blank (String c s)) eqn:E; [done|].
  cbn [blank] in *. by rewrite IH.
Qed.

Lemma trimEnd_idem s : js_trimEnd (js_trimEnd s) = js_trimEnd s.
Proof.
  induction s as [|c s IH]; [done|]. cbn [js_trimEnd]. destruct (blank (String c s)) eqn:E; [done|].
  cbn [js_trimEnd]. cbn [blank] in *. by rewrite blank_trimEnd, E, IH.
Qed.

Lemma trimStart_head s : js_trimStart s = "" \/ exists c t, js_trimStart s = String c t /\ is_space c = false.
Proof.
  induction s as [|c s IH]; [by left|]. cbn. destruct (is_space c) eqn:E; [done|]. right. by exists c, s.
Qed.

Lemma trim_idem s : js_trim (js_trim s) = js_trim s.
Proof.
  unfold js_trim. destruct (trimStart_head s) as [->|(c & t & -> & Hc)]; [done|].
  cbn [js_trimEnd]. replace (blank (String c t)) with false by (cbn; by rewrite Hc).
  cbn [js_trimStart]. rewrite Hc. cbn [js_trimEnd blank]. by rewrite Hc, trimEnd_idem.
Qed.

(** * Buffers as text (Node's Buffer encodings)

    A buffer is a string of bytes.  [hex_encode] and [base64_encode] are
    [toString('hex')] and [toString('base64')]; the decoders are [Buffer.from] with
    the same encodings: the hexadecimal one stops at the first pair that is not two
    digits, the other skips every character outside the two base64 alphabets and
    drops the bits of an incomplete group. *)

(** ** Hexadecimal *)

Definition nibble := (bool * bool * bool * bool)%type.   (* most significant bit first *)

Definition nibble_value (n : nibble) : nat :=
  let '(a, b, c, d) := n in
  ((if a then 8 else 0) + (if b then 4 else 0) + (if c then 2 else 0) + (if d then 1 else 0))%nat.

Definition hex_char (n : nibble) : ascii :=
  let v := nibble_value n in
  ascii_of_nat (if (v <? 10)%nat then v + 48 else v + 87)%nat.

Definition nibble_of_nat (v : nat) : nibble :=
  (Nat.testbit v 3, Nat.testbit v 2, Nat.testbit v 1, Nat.testbit v 0).

Definition hex_nibble (c : ascii) : option nibble :=
  let n := nat_of_ascii c in
  if (48 <=? n)%nat && (n <=? 57)%nat then Some (nibble_of_nat (n - 48))
  else if (97 <=? n)%nat && (n <=? 102)%nat then Some (nibble_of_nat (n - 87))
  else if (65 <=? n)%nat && (n <=? 70)%nat then Some (nibble_of_nat (n - 55))
  else None.

Fixpoint hex_encode (s : string) : string :=
  match s with
  | EmptyString => EmptyString
  | String (Ascii b0 b1 b2 b3 b4 b5 b6 b7) s' =>
      String (hex_char (b7, b6, b5, b4)) (String (hex_char (b3, b2, b1, b0)) (hex_encode s'))
  end.

Fixpoint hex_decode (s : string) : string :=
  match s with
  | String h (String l s') =>
      match hex_nibble h, hex_nibble l with
      | Some (b7, b6, b5, b4), Some (b3, b2, b1, b0) =>
          String (Ascii b0 b1 b2 b3 b4 b5 b6 b7) (hex_decode s')
      | _, _ => EmptyString
      end
  | _ => EmptyString
  end.

Lemma hex_nibble_char n : hex_nibble (hex_char n) = Some n.
Proof. destruct n as [[[[] []] []] []]; reflexivity. Qed.

Lemma hex_roundtrip s : hex_decode (hex_encode s) = s.
Proof.
  induction s as [|[b0 b1 b2 b3 b4 b5 b6 b7] s IH]; [done|].
  cbn [hex_encode hex_decode]. rewrite !hex_nibble_char. by rewrite IH.
Qed.

(** A hexadecimal text holds no colon. *)
Lemma hex_free s : free_of ":" (hex_encode s) = true.
Proof.
  induction s as [|[b0 b1 b2 b3 b4 b5 b6 b7] s IH]; [done|]. cbn [hex_encode free_of].
  rewrite IH. by destruct b0, b1, b2, b3, b4, b5, b6, b7.
Qed.

(** ** Base64 *)

Definition sextet := (bool * bool * bool * bool * bool * bool)%type.

Definition sextet_value (x : sextet) : nat :=
  let '(a, b, c, d, e, f) := x in
  ((if a then 32 else 0) + (if b then 16 else 0) + (if c then 8 else 0) +
   (if d then 4 else 0) + (if e then 2 else 0) + (if f then 1 else 0))%nat.

Definition sextet_of_nat (v : nat) : sextet :=
  (Nat.testbit v 5, Nat.testbit v 4, Nat.testbit v 3, Nat.testbit v 2, Nat.testbit v 1, Nat.testbit v 0).

Definition base64_char (x : sextet) : ascii :=
  let v := sextet_value x in
  ascii_of_nat (if (v <? 26)%nat then v + 65 else if (v <? 52)%nat then v + 71
                else if (v <? 62)%nat then v - 4 else if (v =? 62)%nat then 43 else 47)%nat.

(** The value of a character of either alphabet. *)
Definition base64_value (c : ascii) : option sextet :=
  let n := nat_of_ascii c in
  if (65 <=? n)%nat && (n <=? 90)%nat then Some (sextet_of_nat (n - 65))
  else if (97 <=? n)%nat && (n <=? 122)%nat then Some (sextet_of_nat (n - 71))
  else if (48 <=? n)%nat && (n <=? 57)%nat then Some (sextet_of_nat (n + 4))
  else if (n =? 43)%nat || (n =? 45)%nat then Some (sextet_of_nat 62)
  else if (n =? 47)%nat || (n =? 95)%nat then Some (sextet_of_nat 63)
  else None.

Fixpoint base64_encode (s : string) : string :=
  match s with
  | EmptyString => EmptyString
  | String (Ascii a0 a1 a2 a3 a4 a5 a6 a7) EmptyString =>
      String (base64_char (a7, a6, a5, a4, a3, a2))
        (String (base64_char (a1, a0, false, false, false, false)) "==")
  | String (Ascii a0 a1 a2 a3 a4 a5 a6 a7) (String (Ascii b0 b1 b2 b3 b4 b5 b6 b7) EmptyString) =>
      String (base64_char (a7, a6, a5, a4, a3, a2))
        (String (base64_char (a1, a0, b7, b6, b5, b4))
           (String (base64_char (b3, b2, b1, b0, false, false)) "="))
  | String (Ascii a0 a1 a2 a3 a4 a5 a6 a7)
      (String (Ascii b0 b1 b2 b3 b4 b5 b6 b7) (String (Ascii c0 c1 c2 c3 c4 c5 c6 c7) s')) =>
      String (base64_char (a7, a6, a5, a4, a3, a2))
        (String (base64_char (a1, a0, b7, b6, b5, b4))
           (String (base64_char (b3, b2, b1, b0, c7, c6))
              (String (base64_char (c5, c4, c3, c2, c1, c0)) (base64_encode s'))))
  end.

Fixpoint sextets (s : string) : list sextet :=
  match s with
  | EmptyString => []
  | String c s' => match base64_value c with Some x => x :: sextets s' | None => sextets s' end
  end.

Fixpoint bytes_of_sextets (l : list sextet) : string :=
  match l with
  | (a7, a6, a5, a4, a3, a2) :: (a1, a0, b7, b6, b5, b4) :: l' =>
      String (Ascii a0 a1 a2 a3 a4 a5 a6 a7)
        (match l' with
         | (b3, b2, b1, b0, c7, c6) :: l'' =>
             String (Ascii b0 b1 b2 b3 b4 b5 b6 b7)
               (match l'' with
                | (c5, c4, c3, c2, c1, c0) :: l''' =>
                    String (Ascii c0 c1 c2 c3 c4 c5 c6 c7) (bytes_of_sextets l''')
                | [] => EmptyString
                end)
         | [] => EmptyString
         end)
  | _ => EmptyString
  end.

Definition base64_decode (s : string) : string := bytes_of_sextets (sextets s).

Lemma base64_value_char x : base64_value (base64_char x) = Some x.
Proof. destruct x as [[[[[[] []] []] []] []] []]; reflexivity. Qed.

Lemma string_ind3 (P : string -> Prop) :
  P "" -> (forall a, P (String a "")) -> (forall a b, P (String a (String b ""))) ->
  (forall a b c s, P s -> P (String a (String b (String c s)))) -> forall s, P s.
Proof.
  intros H0 H1 H2 H3. fix IH 1. intros [|a [|b [|c s]]]; [exact H0|apply H1|apply H2|apply H3, IH].
Qed.

Lemma base64_roundtrip s : base64_decode (base64_encode s) = s.
Proof.
  unfold base64_decode. induction s as [|a|a b|a b c s IH] using string_ind3; [done|..];
    destruct a; try destruct b; try destruct c; cbn [base64_encode sextets];
    rewrite !base64_value_char; [done..|]. cbn [bytes_of_sextets]. by rewrite IH.
Qed.

Example base64_examples :
  base64_encode "Ma" = "TWE=" /\ base64_encode "Man" = "TWFu" /\ base64_decode "TW Fu" = "Man" /\
  hex_encode "AZ" = "415a".
Proof. by vm_compute. Qed.
