(* ===== verification/Grpc.v ===== *)
(** * What a unary handler answers (grpc/handlers.ts)

    A handler calls its callback with an error, a status code and a message, or
    with a response.  The catch clause of every handler answers INTERNAL with the
    message of the exception; the exceptions of the modelled handlers come from
    reading a property of a message field that is absent ([null], the default of
    the loaded package). *)

From S2P Require Import Prelude JsMap Json.

Inductive GrpcStatus := grpc_UNAVAILABLE | grpc_NOT_FOUND | grpc_INTERNAL.
#[export] Instance GrpcStatus_eq_dec : EqDecision GrpcStatus.
Proof. solve_decision. Defined.

Definition GrpcError : Type := GrpcStatus * string.

(** The answer of the catch clause to a TypeError. *)
Definition read_of_null (property : string) : GrpcError :=
  (grpc_INTERNAL, "Cannot read properties of null (reading '" +:+ property +:+ "')").

(** * The stream of the agent's ExecuteTask call (grpc/handlers.ts, grpc/client.ts)

    What the clients of an agent, the deprecated scheduler and the updater, read. *)

(** One message of the agent's stream.  Its status is the object that the client
    library builds; it is read by property name. *)
Inductive OutputType := OUTPUT_TYPE_STDOUT | OUTPUT_TYPE_STDERR | OUTPUT_TYPE_UNKNOWN.
Record AgentResponse := mkAgentResponse {
  ag_output : option (OutputType * string);
  ag_status : option (jsmap json)
}.

Definition num_property (o : jsmap json) (name : string) : option Z :=
  match jm_get o name with Some (JNum z) => Some z | _ => None end.
Definition str_property (o : jsmap json) (name : string) : option string :=
  match jm_get o name with Some (JStr t) => Some t | _ => None end.

(** The status that the ExecuteTask handler writes, as it arrives: the package is
    loaded with keepCase and with defaults, so the object has the field names of
    cluster.proto and every field of the message. *)
Definition executed_status (taskId : string) (success : bool) (exit : Z) (error : option string) :
    jsmap json :=
  [("task_id", JStr taskId);
   ("state", JStr (if success then "TASK_STATE_COMPLETED" else "TASK_STATE_FAILED"));
   ("assigned_node", JStr ""); ("started_at", JStr "0"); ("completed_at", JStr "0");
   ("exit_code", JNum exit); ("error", JStr (default "" error)); ("result", JNull)].
