(* ===== verification/Raft.v ===== *)
(** * The Raft node (src/src/cluster/raft.ts)

    [RaftNode] is the state of one [RaftNode] object.  Every method of the class
    is one function on it.  An [async] method is split at its [await]s: the part
    before the first one is a function that returns the RPC calls it issues, and
    each continuation is a function of the answer ([None] for a call that
    throws).

    - Numbers are integers ([Z]); the program only ever adds, compares and
      halves them, far below 2^53.
    - A timer is the boolean "it is armed"; the random length of the election
      timeout is left open.
    - [disk] is the content of raft-state.json.
    - [emitted] is the trace of the events the object emitted, oldest first.
      Listeners run inside [emit]; none of them touches a field that the
      emitting method still reads, except for [peers] and the tail of [log]
      beyond [commitIndex], so their effect is modelled as happening after it.
    - A [PeerInfo] object is shared between the [peers] map and the replication
      calls in flight.  [p_ref] is the object's identity: an answer mutates the
      object the call was made for, and is lost on the map when that object has
      been replaced since. *)

From S2P Require Import Prelude JsMap.

(** ** Data *)

Inductive RaftState := follower | candidate | leader.
#[export] Instance RaftState_eq_dec : EqDecision RaftState.
Proof. solve_decision. Defined.

Inductive LogEntryType :=
  | noop | config_change | task_submit | task_complete | node_join | node_leave
  | context_update | memory_write | task_assign | task_started | task_failed
  | task_cancel | task_retry | task_dead_letter | workflow_submit | workflow_advance.
#[export] Instance LogEntryType_eq_dec : EqDecision LogEntryType.
Proof. solve_decision. Defined.

(** The payload of an entry is a [Buffer] that Raft never looks into; the only
    one it makes itself is [Buffer.alloc(0)]. *)
Class EmptyBuffer (D : Type) := Buffer_alloc_0 : D.

Record PeerInfo := mkPeerInfo {
  p_ref : nat;
  p_nodeId : string;
  p_address : string;
  p_nextIndex : Z;
  p_matchIndex : Z;
  p_votingMember : bool
}.
#[export] Instance PeerInfo_eta : EtaRecord PeerInfo := fun p =>
  mkPeerInfo (p_ref p) (p_nodeId p) (p_address p) (p_nextIndex p) (p_matchIndex p)
    (p_votingMember p).

Record RaftConfig := mkRaftConfig {
  nodeId : string;
  maxLogEntriesPerAppend : option Z;
  nonVoting : bool;
  dataDir : option string
}.

(** raft-state.json: absent, unreadable, or a JSON object with the type-checked
    number [currentTerm] and [votedFor ?? null]. *)
Inductive StateFile :=
  | file_missing
  | file_corrupt
  | file_json (f_currentTerm : option Z) (f_votedFor : option string).

Section raft.
Context {D : Type} `{!EmptyBuffer D}.

Record LogEntry := mkLogEntry {
  term : Z;
  index : Z;
  type : LogEntryType;
  data : D
}.

Inductive RaftEvent :=
  | ev_stateChange (s : RaftState) (t : Z)
  | ev_leaderElected (id : string)
  | ev_leaderChanged (id : string)
  | ev_entryCommitted (e : LogEntry).

Record RaftNode := mkRaftNode {
  config : RaftConfig;
  state : RaftState;
  currentTerm : Z;
  votedFor : option string;
  log : list LogEntry;
  commitIndex : Z;
  lastApplied : Z;
  leaderId : option string;
  peers : jsmap PeerInfo;
  lastAppendEntriesAt : Z;
  electionTimeout : bool;
  heartbeatInterval : bool;
  running : bool;
  electionsPaused : bool;
  disk : StateFile;
  diskWritable : bool;
  nextRef : nat;
  emitted : list RaftEvent
}.
#[export] Instance RaftNode_eta : EtaRecord RaftNode := fun r =>
  mkRaftNode (config r) (state r) (currentTerm r) (votedFor r) (log r)
    (commitIndex r) (lastApplied r) (leaderId r) (peers r)
    (lastAppendEntriesAt r) (electionTimeout r) (heartbeatInterval r)
    (running r) (electionsPaused r) (disk r) (diskWritable r) (nextRef r)
    (emitted r).

Record RequestVoteRequest := mkRequestVote {
  rv_term : Z;
  rv_candidateId : string;
  rv_lastLogIndex : Z;
  rv_lastLogTerm : Z
}.
Record RequestVoteResponse := mkVoteResponse {
  vr_term : Z;
  vr_voteGranted : bool
}.
Record AppendEntriesRequest := mkAppendEntries {
  ae_term : Z;
  ae_leaderId : string;
  ae_prevLogIndex : Z;
  ae_prevLogTerm : Z;
  ae_entries : list LogEntry;
  ae_leaderCommit : Z
}.
Record AppendEntriesResponse := mkAppendResponse {
  ar_term : Z;
  ar_success : bool;
  ar_matchIndex : Z
}.

(** ** Construction and accessors *)

Definition maxEntriesPerAppend (r : RaftNode) : Z :=
  default 100 (maxLogEntriesPerAppend (config r)).

Definition new_RaftNode (cfg : RaftConfig) (f : StateFile) (writable : bool) : RaftNode :=
  mkRaftNode cfg follower 0 None [] 0 0 None [] 0 false false false false f writable 0 [].

Definition isLeader (r : RaftNode) : bool := bool_decide (state r = leader).

Definition getLastLogIndex (r : RaftNode) : Z :=
  match last (log r) with Some e => index e | None => 0 end.

Definition getLastLogTerm (r : RaftNode) : Z :=
  match last (log r) with Some e => term e | None => 0 end.

Definition emit (ev : RaftEvent) (r : RaftNode) : RaftNode :=
  r <| emitted ::= fun evs => evs ++ [ev] |>.

(** ** Persistence *)

Definition stateFilePath (r : RaftNode) : option string :=
  match dataDir (config r) with
  | None => None
  | Some d => if String.eqb d "" then None else Some (d +:+ "/raft-state.json")
  end.

Definition saveState (r : RaftNode) : RaftNode :=
  match stateFilePath r with
  | None => r
  | Some _ =>
      if diskWritable r
      then r <| disk := file_json (Some (currentTerm r)) (votedFor r) |>
      else r
  end.

Definition loadState (r : RaftNode) : RaftNode :=
  match stateFilePath r with
  | None => r
  | Some _ =>
      match disk r with
      | file_json (Some t) v =>
          if currentTerm r <? t
          then r <| currentTerm := t |> <| votedFor := v |>
          else r
      | _ => r
      end
  end.

(** ** Timers *)

Definition clearElectionTimeout (r : RaftNode) : RaftNode :=
  r <| electionTimeout := false |>.

Definition clearTimers (r : RaftNode) : RaftNode :=
  (clearElectionTimeout r) <| heartbeatInterval := false |>.

Definition resetElectionTimeout (r : RaftNode) : RaftNode :=
  let r := clearElectionTimeout r in
  if nonVoting (config r) then r
  else if electionsPaused r then r
  else r <| electionTimeout := true |>.

Definition startHeartbeats (r : RaftNode) : RaftNode :=
  r <| heartbeatInterval := true |>.

Definition delayNextElection (r : RaftNode) : RaftNode :=
  (clearElectionTimeout r) <| electionTimeout := true |>.

Definition pauseElections (r : RaftNode) : RaftNode :=
  clearElectionTimeout (r <| electionsPaused := true |>).

Definition resumeElections (r : RaftNode) : RaftNode :=
  let r := r <| electionsPaused := false |> in
  if running r && negb (isLeader r) then resetElectionTimeout r else r.

(** ** Peers *)

Definition addPeer (id address : string) (votingMember : bool) (r : RaftNode) : RaftNode :=
  if String.eqb id (nodeId (config r)) then r
  else
    r <| peers := jm_set (peers r) id
                    (mkPeerInfo (nextRef r) id address (getLastLogIndex r + 1) 0 votingMember) |>
      <| nextRef := S (nextRef r) |>.

Definition removePeer (id : string) (r : RaftNode) : RaftNode :=
  r <| peers := jm_delete (peers r) id |>.

Definition getPeers (r : RaftNode) : list PeerInfo := jm_values (peers r).

(** ** Applying committed entries *)

(** One round of the [while (lastApplied < commitIndex)] loop. *)
Definition applyNext (r : RaftNode) : RaftNode :=
  let r := r <| lastApplied := lastApplied r + 1 |> in
  match js_at (log r) (lastApplied r - 1) with
  | Some e => emit (ev_entryCommitted e) r
  | None => r
  end.

Fixpoint applyLoop (fuel : nat) (r : RaftNode) : RaftNode :=
  match fuel with
  | O => r
  | S fuel => if lastApplied r <? commitIndex r then applyLoop fuel (applyNext r) else r
  end.

(** Each round increments [lastApplied], so the difference of the two indices
    is exactly the number of rounds. *)
Definition applyCommittedEntries (r : RaftNode) : RaftNode :=
  applyLoop (Z.to_nat (commitIndex r - lastApplied r)) r.

(** ** Log replication *)

(** The arguments of the AppendEntries call of [replicateToPeer].  [log[i]?.term ?? 0]
    is 0 out of range. *)
Definition replicateToPeer_request (r : RaftNode) (peer : PeerInfo) : AppendEntriesRequest :=
  let prevLogIndex := p_nextIndex peer - 1 in
  let prevLogTerm :=
    if 0 <? prevLogIndex
    then match js_at (log r) (prevLogIndex - 1) with Some e => term e | None => 0 end
    else 0 in
  mkAppendEntries (currentTerm r) (nodeId (config r)) prevLogIndex prevLogTerm
    (js_slice (log r) (p_nextIndex peer - 1) (p_nextIndex peer - 1 + maxEntriesPerAppend r))
    (commitIndex r).

(** An AppendEntries call in flight: the peer object it was made for and its
    request. *)
Record AppendCall := mkAppendCall {
  ac_ref : nat;
  ac_peer : string;
  ac_request : AppendEntriesRequest
}.

(** The synchronous part of [replicateToFollowers]: one call per peer. *)
Definition replicateToFollowers (r : RaftNode) : list AppendCall :=
  (fun p => mkAppendCall (p_ref p) (p_nodeId p) (replicateToPeer_request r p)) <$> getPeers r.

(** Mutation of the peer object [ref], wherever the map still holds it. *)
Definition mutatePeer (ref : nat) (f : PeerInfo -> PeerInfo) (r : RaftNode) : RaftNode :=
  r <| peers ::= jm_map (fun p => if Nat.eqb (p_ref p) ref then f p else p) |>.

Definition becomeFollower (t : Z) (r : RaftNode) : RaftNode :=
  let r := r <| state := follower |> <| currentTerm := t |> <| votedFor := None |> in
  let r := clearTimers r in
  let r := saveState r in
  emit (ev_stateChange follower t) r.

(** The continuation of [replicateToPeer] after [await client.appendEntries]. *)
Definition replicateToPeer_reply (ref : nat) (resp : option AppendEntriesResponse)
    (r : RaftNode) : RaftNode :=
  match resp with
  | None => r
  | Some resp =>
      if currentTerm r <? ar_term resp then becomeFollower (ar_term resp) r
      else if ar_success resp then
        mutatePeer ref (fun p => p <| p_matchIndex := ar_matchIndex resp |>
                                   <| p_nextIndex := ar_matchIndex resp + 1 |>) r
      else
        mutatePeer ref (fun p => p <| p_nextIndex := Z.max 1 (p_nextIndex p - 1) |>) r
  end.

(** The match indices that [updateCommitIndex] sorts in descending order. *)
Definition matchIndices (r : RaftNode) : list Z :=
  getLastLogIndex r :: (p_matchIndex <$> filter (fun p => p_votingMember p = true) (getPeers r)).

Definition majorityMatch (r : RaftNode) : option Z :=
  let sorted := js_sort (fun a b => b <=? a) (matchIndices r) in
  js_at sorted (js_length sorted / 2).

Definition updateCommitIndex (r : RaftNode) : RaftNode :=
  match majorityMatch r with
  | None => r
  | Some newCommitIndex =>
      if commitIndex r <? newCommitIndex then
        match js_at (log r) (newCommitIndex - 1) with
        | Some e =>
            if term e =? currentTerm r
            then applyCommittedEntries (r <| commitIndex := newCommitIndex |>)
            else r
        | None => r
        end
      else r
  end.

(** [appendEntry] up to its [await]: the result it will resolve to, the new
    state and the replication calls. *)
Definition appendEntry (ty : LogEntryType) (d : D) (r : RaftNode) :
    (bool * Z) * RaftNode * list AppendCall :=
  if negb (isLeader r) then ((false, -1), r, [])
  else
    let e := mkLogEntry (currentTerm r) (getLastLogIndex r + 1) ty d in
    let r := r <| log := log r ++ [e] |> in
    ((true, index e), r, replicateToFollowers r).

(** The callback of the heartbeat interval: the replication calls it starts.
    Once they have settled, [updateCommitIndex] runs. *)
Definition heartbeatFires (r : RaftNode) : list AppendCall :=
  if isLeader r then replicateToFollowers r else [].

(** ** Elections *)

Definition becomeLeader (r : RaftNode) : RaftNode * list AppendCall :=
  let r := r <| state := leader |> <| leaderId := Some (nodeId (config r)) |> in
  let r := clearTimers r in
  let lastLogIndex := getLastLogIndex r in
  let r := r <| peers ::= jm_map (fun p => p <| p_nextIndex := lastLogIndex + 1 |>
                                             <| p_matchIndex := 0 |>) |> in
  let r := emit (ev_stateChange leader (currentTerm r)) r in
  let r := emit (ev_leaderElected (nodeId (config r))) r in
  let '(_, r, calls) := appendEntry noop Buffer_alloc_0 r in
  (startHeartbeats r, calls).

(** A started election: the votes needed, fixed when it starts, and the
    RequestVote calls it issued. *)
Record Election := mkElection {
  el_votesNeeded : Z;
  el_calls : list (string * RequestVoteRequest)
}.

Definition votingPeers (r : RaftNode) : list PeerInfo :=
  filter (fun p => p_votingMember p = true) (getPeers r).

(** The synchronous part of [startElection]. *)
Definition startElection (r : RaftNode) : RaftNode * Election :=
  let r := resetElectionTimeout r in
  let vp := votingPeers r in
  let votesNeeded := (js_length vp + 1) / 2 + 1 in
  let req := mkRequestVote (currentTerm r) (nodeId (config r))
               (getLastLogIndex r) (getLastLogTerm r) in
  (r, mkElection votesNeeded ((fun p => (p_nodeId p, req)) <$> vp)).

(** The continuation of one RequestVote call: the vote it counts as. *)
Definition startElection_reply (resp : option RequestVoteResponse) (r : RaftNode) :
    RaftNode * bool :=
  match resp with
  | None => (r, false)
  | Some resp =>
      if currentTerm r <? vr_term resp then (becomeFollower (vr_term resp) r, false)
      else (r, vr_voteGranted resp)
  end.

(** What [startElection] does once all its calls have settled. *)
Definition finishElection (votesNeeded : Z) (results : list bool) (r : RaftNode) :
    RaftNode * list AppendCall :=
  match state r with
  | candidate =>
      let votesReceived := 1 + js_count id results in
      if votesNeeded <=? votesReceived then becomeLeader r else (r, [])
  | _ => (r, [])
  end.

Definition becomeCandidate (r : RaftNode) : RaftNode * Election :=
  let r := r <| state := candidate |> <| currentTerm := currentTerm r + 1 |>
             <| votedFor := Some (nodeId (config r)) |> <| leaderId := None |> in
  let r := saveState r in
  let r := emit (ev_stateChange candidate (currentTerm r)) r in
  startElection r.

(** The callback of the election timer (both [resetElectionTimeout] and
    [delayNextElection] install the same one).  The timer has fired, so it is
    not pending any more. *)
Definition electionTimerFires (r : RaftNode) : RaftNode * option Election :=
  let r := clearElectionTimeout r in
  if running r && negb (isLeader r)
  then let '(r, el) := becomeCandidate r in (r, Some el)
  else (r, None).

Definition triggerImmediateElection (r : RaftNode) : bool * RaftNode * option Election :=
  if isLeader r then (false, r, None)
  else if nonVoting (config r) then (false, r, None)
  else
    let r := clearElectionTimeout r in
    let r := r <| state := candidate |> <| currentTerm := currentTerm r + 1 |>
               <| votedFor := Some (nodeId (config r)) |> <| leaderId := None |> in
    let r := saveState r in
    let r := emit (ev_stateChange candidate (currentTerm r)) r in
    let '(r, el) := startElection r in
    (true, r, Some el).

Definition stepDown (r : RaftNode) : bool * RaftNode :=
  if negb (isLeader r) then (false, r)
  else (true, resetElectionTimeout (becomeFollower (currentTerm r) r)).

(** ** Life cycle *)

Definition start (r : RaftNode) : RaftNode :=
  if running r then r
  else
    let r := r <| running := true |> in
    let r := loadState r in
    let r := becomeFollower (currentTerm r) r in
    resetElectionTimeout r.

Definition stop (r : RaftNode) : RaftNode := clearTimers (r <| running := false |>).

(** ** RPC handlers *)

(** The [logOk] test of [handleRequestVote]: the candidate's log is at least
    as up to date as ours. *)
Definition logOk (r : RaftNode) (req : RequestVoteRequest) : bool :=
  (getLastLogTerm r <? rv_lastLogTerm req)
  || ((rv_lastLogTerm req =? getLastLogTerm r)
      && (getLastLogIndex r <=? rv_lastLogIndex req)).

Definition canVote (r : RaftNode) (req : RequestVoteRequest) : bool :=
  match votedFor r with
  | None => true
  | Some v => String.eqb v (rv_candidateId req)
  end.

Definition handleRequestVote (req : RequestVoteRequest) (r : RaftNode) :
    RequestVoteResponse * RaftNode :=
  let r := if currentTerm r <? rv_term req then becomeFollower (rv_term req) r else r in
  let '(voteGranted, r) :=
    if currentTerm r <=? rv_term req then
      if logOk r req && canVote r req then
        let r := r <| votedFor := Some (rv_candidateId req) |> in
        let r := saveState r in
        let r := resetElectionTimeout r in
        (true, r)
      else (false, r)
    else (false, r) in
  (mkVoteResponse (currentTerm r) voteGranted, r).

(** The loop that appends the new entries: [i] is [index] before the round. *)
Fixpoint appendLoop (i : Z) (entries : list LogEntry) (lg : list LogEntry) : list LogEntry :=
  match entries with
  | [] => lg
  | e :: entries' =>
      let i := i + 1 in
      let lg' :=
        match js_at lg (i - 1) with
        | None => lg ++ [e]
        | Some existing =>
            if term existing =? term e then lg else js_splice lg (i - 1) ++ [e]
        end in
      appendLoop i entries' lg'
  end.

(** The log consistency check. *)
Definition prevOk (r : RaftNode) (req : AppendEntriesRequest) : bool :=
  if 0 <? ae_prevLogIndex req then
    match js_at (log r) (ae_prevLogIndex req - 1) with
    | Some e => term e =? ae_prevLogTerm req
    | None => false
    end
  else true.

Definition handleAppendEntries (now : Z) (req : AppendEntriesRequest) (r : RaftNode) :
    AppendEntriesResponse * RaftNode :=
  let r := if currentTerm r <? ae_term req then becomeFollower (ae_term req) r else r in
  if ae_term req <? currentTerm r then (mkAppendResponse (currentTerm r) false 0, r)
  else
    let previousLeaderId := leaderId r in
    let r := r <| leaderId := Some (ae_leaderId req) |> <| lastAppendEntriesAt := now |> in
    let r := resetElectionTimeout r in
    let r := if bool_decide (previousLeaderId = Some (ae_leaderId req)) then r
             else emit (ev_leaderChanged (ae_leaderId req)) r in
    if negb (prevOk r req) then (mkAppendResponse (currentTerm r) false 0, r)
    else
      let r := r <| log := appendLoop (ae_prevLogIndex req) (ae_entries req) (log r) |> in
      let r :=
        if commitIndex r <? ae_leaderCommit req
        then applyCommittedEntries
               (r <| commitIndex := Z.min (ae_leaderCommit req) (getLastLogIndex r) |>)
        else r in
      (mkAppendResponse (currentTerm r) true (getLastLogIndex r), r).

End raft.

Arguments LogEntry : clear implicits.
Arguments RaftEvent : clear implicits.
Arguments RaftNode : clear implicits.
Arguments AppendEntriesRequest : clear implicits.
Arguments AppendCall : clear implicits.

(** The payloads of a running node are bytes. *)
#[export] Instance string_buffer : EmptyBuffer string := "".
