(* ===== verification/RaftLog.v ===== *)
(** * Properties of one Raft node

    Each handler of Raft.v is characterised on every branch.  The helper
    operations are first rewritten as a single field update, so that the
    projections of a handler's result compute. *)

From S2P Require Import Prelude JsMap Raft.

Section facts.
Context {D : Type} `{!EmptyBuffer D}.
Implicit Types (r : RaftNode D) (lg : list (LogEntry D)).

(** ** Helpers as field updates *)

Lemma saveState_eq r :
  saveState r =
    r <| disk := match stateFilePath r with
                 | Some _ => if diskWritable r
                             then file_json (Some (currentTerm r)) (votedFor r)
                             else disk r
                 | None => disk r
                 end |>.
Proof. unfold saveState. by destruct (stateFilePath r), (diskWritable r), r. Qed.

Lemma resetElectionTimeout_eq r :
  resetElectionTimeout r =
    r <| electionTimeout := negb (nonVoting (config r)) && negb (electionsPaused r) |>.
Proof.
  unfold resetElectionTimeout, clearElectionTimeout. cbn.
  destruct (nonVoting (config r)); cbn; [done|].
  by destruct (electionsPaused r).
Qed.

(** The entries in positions [a, b) of the log, in order. *)
Definition logRange lg (a b : Z) : list (LogEntry D) :=
  omap (fun i => js_at lg i) (seqZ a (b - a)).

Lemma applyNext_eq r :
  applyNext r =
    r <| lastApplied := lastApplied r + 1 |>
      <| emitted := emitted r ++ (ev_entryCommitted <$> option_list (js_at (log r) (lastApplied r))) |>.
Proof.
  unfold applyNext, emit. cbn.
  replace (lastApplied r + 1 - 1) with (lastApplied r) by lia.
  destruct (js_at (log r) (lastApplied r)) eqn:E; cbn; [done|].
  rewrite app_nil_r. by destruct r.
Qed.

Lemma applyLoop_eq n r :
  (n = Z.to_nat (commitIndex r - lastApplied r)) ->
  applyLoop n r =
    r <| lastApplied := Z.max (lastApplied r) (commitIndex r) |>
      <| emitted := emitted r ++
           (ev_entryCommitted <$> logRange (log r) (lastApplied r) (commitIndex r)) |>.
Proof.
  revert r. induction n as [|n IH]; intros r Hn; simpl.
  - rewrite Z.max_l by lia. unfold logRange.
    replace (seqZ (lastApplied r) (commitIndex r - lastApplied r)) with (@nil Z)
      by (symmetry; apply seqZ_nil; lia).
    simpl. rewrite app_nil_r. by destruct r.
  - assert (lastApplied r < commitIndex r) by lia.
    rewrite (proj2 (Z.ltb_lt _ _)) by done.
    rewrite IH by (rewrite applyNext_eq; cbn; lia).
    rewrite applyNext_eq. cbn. rewrite !Z.max_r by lia.
    unfold logRange. rewrite (seqZ_cons (lastApplied r)) by lia. simpl.
    replace (Z.succ (lastApplied r)) with (lastApplied r + 1) by lia.
    replace (Z.pred (commitIndex r - lastApplied r))
      with (commitIndex r - (lastApplied r + 1)) by lia.
    destruct (js_at (log r) (lastApplied r)); simpl.
    + by rewrite <- app_assoc.
    + by rewrite app_nil_r.
Qed.

(** The loop ends with everything up to [commitIndex] applied, and hands the
    listeners exactly the entries of the positions it passes, once each and in
    log order. *)
Lemma applyCommittedEntries_eq r :
  applyCommittedEntries r =
    r <| lastApplied := Z.max (lastApplied r) (commitIndex r) |>
      <| emitted := emitted r ++
           (ev_entryCommitted <$> logRange (log r) (lastApplied r) (commitIndex r)) |>.
Proof. by apply applyLoop_eq. Qed.

Lemma logRange_take_drop lg a b :
  0 <= a <= b -> b <= js_length lg ->
  logRange lg a b = take (Z.to_nat (b - a)) (drop (Z.to_nat a) lg).
Proof.
  intros Ha Hb. unfold logRange. remember (Z.to_nat (b - a)) as n eqn:En.
  revert a Ha En. induction n as [|n IH]; intros a Ha En.
  - rewrite seqZ_nil by lia. done.
  - rewrite seqZ_cons by lia. csimpl.
    assert (exists e, js_at lg a = Some e) as [e He].
    { unfold js_length in Hb.
      destruct (lookup_lt_is_Some_2 lg (Z.to_nat a)) as [e He]; [lia|].
      exists e. apply js_at_Some. split; [lia|done]. }
    rewrite He. apply js_at_Some in He as [_ He].
    rewrite (drop_S lg e) by done. csimpl. f_equal.
    replace (Z.pred (b - a)) with (b - Z.succ a) by lia.
    rewrite (IH (Z.succ a)) by lia.
    by replace (Z.to_nat (Z.succ a)) with (S (Z.to_nat a)) by lia.
Qed.

End facts.

#[export] Hint Rewrite @saveState_eq @resetElectionTimeout_eq @applyCommittedEntries_eq : raft.

(** Unfold a handler down to field updates and compute its projections. *)
Ltac raft_simpl :=
  unfold becomeFollower, clearTimers, clearElectionTimeout, startHeartbeats, emit, mutatePeer in *;
  autorewrite with raft in *; cbn in *.

(** * The follower's log under AppendEntries

    The loop of [handleAppendEntries] works entry by entry on the array.
    [reconcile] is the reference definition: keep the longest prefix of the new
    entries that the log already has (comparing terms), and, if some entry is
    left, cut the log there and append the rest.  The loop is shown equal to it,
    and the properties of the log update are proved on the reference. *)

Section log.
Context {D : Type} `{!EmptyBuffer D}.
Implicit Types (r : RaftNode D) (lg es : list (LogEntry D)).

(** How many of the new entries the log suffix [lg] already has. *)
Fixpoint agreeing es lg : nat :=
  match es, lg with
  | e :: es', x :: lg' => if term x =? term e then S (agreeing es' lg') else O
  | _, _ => O
  end.

Definition reconcile (prev : nat) es lg : list (LogEntry D) :=
  let k := agreeing es (drop prev lg) in
  if Nat.eqb k (length es) then lg else take (prev + k) lg ++ drop k es.

(** The entry at position [i] carries the index [i + 1]. *)
Definition log_wf lg : Prop :=
  forall i e, lg !! i = Some e -> index e = Z.of_nat i + 1.

(** The entries of a request carry consecutive indices after [prev]. *)
Definition entries_wf (prev : Z) es : Prop :=
  forall j e, es !! j = Some e -> index e = prev + Z.of_nat j + 1.

(** Entry-wise agreement of two logs on their terms over the first [n]
    positions. *)
Definition terms_agree (n : nat) lg1 lg2 : Prop :=
  forall i, (i < n)%nat -> term <$> (lg1 !! i) = term <$> (lg2 !! i).

Lemma appendLoop_end es lg :
  appendLoop (js_length lg) es lg = lg ++ es.
Proof.
  revert lg. induction es as [|e es IH]; intros lg; simpl; [by rewrite app_nil_r|].
  replace (js_length lg + 1 - 1) with (js_length lg) by lia.
  rewrite (proj2 (js_at_None lg (js_length lg))) by lia.
  replace (js_length lg + 1) with (js_length (lg ++ [e]))
    by (unfold js_length; rewrite length_app; simpl; lia).
  rewrite IH. by rewrite <- app_assoc.
Qed.

Lemma appendLoop_reconcile prev es lg :
  (prev <= length lg)%nat ->
  appendLoop (Z.of_nat prev) es lg = reconcile prev es lg.
Proof.
  unfold reconcile. revert prev.
  induction es as [|e es IH]; intros prev Hp; simpl; [done|].
  replace (Z.of_nat prev + 1 - 1) with (Z.of_nat prev) by lia.
  rewrite js_at_nat.
  destruct (lg !! prev) as [x|] eqn:Hx.
  - rewrite (drop_S lg x prev Hx). simpl.
    destruct (term x =? term e) eqn:Ht.
    + replace (Z.of_nat prev + 1) with (Z.of_nat (S prev)) by lia.
      rewrite IH by (apply lookup_lt_Some in Hx; lia). simpl.
      by replace (prev + S (agreeing es (drop (S prev) lg)))%nat
        with (S (prev + agreeing es (drop (S prev) lg))) by lia.
    + simpl. rewrite js_splice_nonneg, Nat2Z.id by lia.
      apply lookup_lt_Some in Hx.
      replace (Z.of_nat prev + 1) with (js_length (take prev lg ++ [e]))
        by (unfold js_length; rewrite length_app, length_take; simpl; lia).
      rewrite appendLoop_end, Nat.add_0_r. by rewrite <- app_assoc.
  - apply lookup_ge_None in Hx.
    assert (prev = length lg) as -> by lia.
    rewrite drop_ge by lia. simpl.
    replace (Z.of_nat (length lg) + 1) with (js_length (lg ++ [e]))
      by (unfold js_length; rewrite length_app; simpl; lia).
    rewrite appendLoop_end, Nat.add_0_r, take_ge by lia. by rewrite <- app_assoc.
Qed.

Lemma agreeing_le es lg : (agreeing es lg <= length es)%nat.
Proof.
  revert lg. induction es as [|e es IH]; intros [|x lg]; simpl; try lia.
  destruct (term x =? term e); [specialize (IH lg); lia|lia].
Qed.

Lemma agreeing_le_log es lg : (agreeing es lg <= length lg)%nat.
Proof.
  revert lg. induction es as [|e es IH]; intros [|x lg]; simpl; try lia.
  destruct (term x =? term e); [specialize (IH lg); lia|lia].
Qed.

Lemma agreeing_lookup es lg j :
  (j < agreeing es lg)%nat -> term <$> (lg !! j) = term <$> (es !! j).
Proof.
  revert lg j. induction es as [|e es IH]; intros [|x lg] j; simpl; try lia.
  destruct (term x =? term e) eqn:Ht; [|lia]. apply Z.eqb_eq in Ht.
  destruct j as [|j]; simpl; [by rewrite Ht|]. intros. apply IH. lia.
Qed.

(** If the log already has the entries, nothing is cut or appended. *)
Lemma agreeing_full es lg :
  (length es <= length lg)%nat ->
  (forall j, (j < length es)%nat -> term <$> (lg !! j) = term <$> (es !! j)) ->
  agreeing es lg = length es.
Proof.
  revert lg. induction es as [|e es IH]; intros [|x lg] Hlen H; simpl in *; try lia.
  pose proof (H O ltac:(lia)) as H0. simpl in H0. injection H0 as ->.
  rewrite Z.eqb_refl, IH; [done|lia|]. intros j Hj. apply (H (S j)). lia.
Qed.

(** The entries up to [prev] stay as they are. *)
Lemma reconcile_prefix prev es lg :
  (prev <= length lg)%nat -> take prev (reconcile prev es lg) = take prev lg.
Proof.
  intros. unfold reconcile. destruct (Nat.eqb _ _); [done|].
  pose proof (agreeing_le_log es (drop prev lg)) as Hk. rewrite length_drop in Hk.
  rewrite take_app_le by (rewrite length_take; lia).
  rewrite take_take. f_equal. lia.
Qed.

Lemma reconcile_length prev es lg :
  (prev <= length lg)%nat -> (prev + length es <= length (reconcile prev es lg))%nat.
Proof.
  intros. unfold reconcile.
  pose proof (agreeing_le es (drop prev lg)) as Hk.
  pose proof (agreeing_le_log es (drop prev lg)) as Hk'. rewrite length_drop in Hk'.
  destruct (Nat.eqb_spec (agreeing es (drop prev lg)) (length es)); [lia|].
  rewrite length_app, length_take, length_drop. lia.
Qed.

(** After the update, the log has the terms of the request's entries. *)
Lemma reconcile_terms prev es lg j :
  (prev <= length lg)%nat -> (j < length es)%nat ->
  term <$> (reconcile prev es lg !! (prev + j)%nat) = term <$> (es !! j).
Proof.
  intros Hp Hj. unfold reconcile.
  pose proof (agreeing_le_log es (drop prev lg)) as Hk. rewrite length_drop in Hk.
  destruct (Nat.eqb_spec (agreeing es (drop prev lg)) (length es)) as [He|He].
  - rewrite <- lookup_drop. apply agreeing_lookup. lia.
  - destruct (decide (j < agreeing es (drop prev lg))%nat) as [Hlt|Hge].
    + rewrite lookup_app_l by (rewrite length_take; lia).
      rewrite lookup_take_lt by lia. rewrite <- lookup_drop. by apply agreeing_lookup.
    + rewrite lookup_app_r by (rewrite length_take; lia).
      rewrite length_take, lookup_drop. do 2 f_equal. lia.
Qed.

(** Every entry of the new log is an old one at the same position or one of
    the request at its place. *)
Lemma reconcile_origin prev es lg i e :
  (prev <= length lg)%nat ->
  reconcile prev es lg !! i = Some e ->
  lg !! i = Some e \/ ((prev <= i)%nat /\ es !! (i - prev)%nat = Some e).
Proof.
  intros Hp. unfold reconcile.
  pose proof (agreeing_le_log es (drop prev lg)) as Hk. rewrite length_drop in Hk.
  destruct (Nat.eqb _ _); [by left|].
  intros [Hi|[Hlen Hi]]%lookup_app_Some.
  - left. by apply lookup_take_Some in Hi as [? _].
  - right. rewrite length_take in Hlen, Hi. rewrite lookup_drop in Hi.
    split; [lia|]. rewrite <- Hi. f_equal. lia.
Qed.

Lemma reconcile_wf prev es lg :
  (prev <= length lg)%nat -> log_wf lg -> entries_wf (Z.of_nat prev) es ->
  log_wf (reconcile prev es lg).
Proof.
  intros Hp Hl He i e [Hi|[Hle Hi]]%reconcile_origin; [by apply Hl| |done].
  apply He in Hi. lia.
Qed.

(** A request whose entries the log already has (a duplicated or overtaken
    AppendEntries) leaves the log unchanged, whatever follows them. *)
Lemma reconcile_stale prev es lg :
  (prev + length es <= length lg)%nat ->
  (forall j, (j < length es)%nat -> term <$> (lg !! (prev + j)%nat) = term <$> (es !! j)) ->
  reconcile prev es lg = lg.
Proof.
  intros Hlen H. unfold reconcile. rewrite agreeing_full, Nat.eqb_refl; [done| |].
  - rewrite length_drop. lia.
  - intros j Hj. rewrite lookup_drop. by apply H.
Qed.

Lemma reconcile_idem prev es lg :
  (prev <= length lg)%nat ->
  reconcile prev es (reconcile prev es lg) = reconcile prev es lg.
Proof.
  intros Hp. apply reconcile_stale; [by apply reconcile_length|].
  intros j Hj. by apply reconcile_terms.
Qed.

Lemma getLastLogIndex_wf r : log_wf (log r) -> getLastLogIndex r = js_length (log r).
Proof.
  intros H. unfold getLastLogIndex, js_length. rewrite last_lookup.
  destruct (log r) as [|e l] eqn:E; [done|].
  destruct (lookup_lt_is_Some_2 (e :: l) (pred (length (e :: l)))) as [x Hx];
    [simpl; lia|].
  rewrite Hx. apply H in Hx. rewrite Hx. simpl. lia.
Qed.

Lemma prevOk_bound r (req : AppendEntriesRequest D) :
  0 <= ae_prevLogIndex req -> prevOk r req = true ->
  (Z.to_nat (ae_prevLogIndex req) <= length (log r))%nat.
Proof.
  unfold prevOk. intros H0. destruct (0 <? ae_prevLogIndex req) eqn:E; prop_of_bool; [|lia].
  destruct (js_at (log r) _) eqn:Ej; [|done].
  apply js_at_lt in Ej. unfold js_length in Ej. lia.
Qed.

End log.

#[export] Hint Resolve reconcile_wf reconcile_length : raft.
