(* ===== verification/RaftCluster.v ===== *)
(** * A cluster of Raft nodes

    The interleaving semantics of several [RaftNode] objects (Raft.v) joined by
    the gRPC calls they make.  A [Cluster] holds the nodes, every message that was
    ever sent (a message can be delivered late, more than once, or never), and
    the elections that were started: the promise of [startElection], with the
    calls it waits for.  [exec] performs one labelled step and is executable, so
    that concrete executions evaluate. *)

From S2P Require Import Prelude JsMap Raft RaftLog.

Inductive ElectionStatus := el_running | el_won | el_over.
#[export] Instance ElectionStatus_eq_dec : EqDecision ElectionStatus.
Proof. solve_decision. Defined.

Section cluster.
Context {D : Type} `{!EmptyBuffer D}.

Inductive Message :=
  | MRequestVote (el : nat) (src dst : string) (req : RequestVoteRequest)
  | MVoteReply (el : nat) (src dst : string) (resp : RequestVoteResponse)
  | MAppend (src dst : string) (ref : nat) (req : AppendEntriesRequest D)
  | MAppendReply (src dst : string) (ref : nat) (resp : AppendEntriesResponse).

(** An election in progress at a node: the term it was started in, the votes
    it needs, the voters it asked and the settled calls. *)
Record ClusterElection := mkCE {
  ce_node : string;
  ce_term : Z;
  ce_needed : Z;
  ce_calls : list string;
  ce_results : list (string * bool);
  ce_status : ElectionStatus
}.
#[export] Instance ClusterElection_eta : EtaRecord ClusterElection := fun e =>
  mkCE (ce_node e) (ce_term e) (ce_needed e) (ce_calls e) (ce_results e) (ce_status e).

Record Cluster := mkCluster {
  nodes : gmap string (RaftNode D);
  net : list Message;
  elections : list ClusterElection
}.
#[export] Instance Cluster_eta : EtaRecord Cluster := fun c =>
  mkCluster (nodes c) (net c) (elections c).

Inductive Label :=
  | LTimeout (n : string)                   (* the election timer fires *)
  | LTimeoutNow (n : string)                (* TimeoutNow RPC *)
  | LDeliver (i : nat) (now : Z)            (* the i-th message arrives *)
  | LVoteCallFails (el : nat) (voter : string)
  | LFinish (el : nat)                      (* all calls of an election settled *)
  | LHeartbeat (n : string)
  | LAppend (n : string) (ty : LogEntryType) (d : D)
  | LCommit (n : string)                    (* a replication round has settled *)
  | LStepDown (n : string)
  | LPause (n : string) | LResume (n : string) | LDelay (n : string)
  | LStop (n : string)
  | LStart (n : string)                     (* start() on a stopped node *)
  | LRestart (n : string)                   (* the process dies and is started again *)
  | LAddPeer (n id address : string) (voting : bool)
  | LRemovePeer (n id : string).

Definition put_node (n : string) (r : RaftNode D) (c : Cluster) : Cluster :=
  c <| nodes := <[n := r]> (nodes c) |>.

Definition send (ms : list Message) (c : Cluster) : Cluster :=
  c <| net := net c ++ ms |>.

(** The messages of the replication calls node [n] makes. *)
Definition append_messages (n : string) (calls : list (AppendCall D)) : list Message :=
  (fun a => MAppend n (ac_peer a) (ac_ref a) (ac_request a)) <$> calls.

(** Node [n] (now [r]) has started election [el]. *)
Definition launch (n : string) (r : RaftNode D) (el : Election) (c : Cluster) : Cluster :=
  let id := length (elections c) in
  let c := put_node n r c in
  let c := c <| elections := elections c ++
                  [mkCE n (currentTerm r) (el_votesNeeded el) (el_calls el).*1 [] el_running] |> in
  send ((fun call => MRequestVote id n call.1 call.2) <$> el_calls el) c.

Definition update_election (el : nat) (ce : ClusterElection) (c : Cluster) : Cluster :=
  c <| elections := <[el := ce]> (elections c) |>.

(** A RequestVote call of election [el] to [voter] settles with [resp]. *)
Definition settle (el : nat) (voter : string) (resp : option RequestVoteResponse) (c : Cluster) :
    option Cluster :=
  ce ← elections c !! el;
  r ← nodes c !! ce_node ce;
  if bool_decide (ce_status ce = el_running /\ voter ∈ ce_calls ce /\
                  voter ∉ (ce_results ce).*1)
  then
    let '(r', b) := startElection_reply resp r in
    Some (update_election el (ce <| ce_results := ce_results ce ++ [(voter, b)] |>)
            (put_node (ce_node ce) r' c))
  else None.

Definition deliver (m : Message) (now : Z) (c : Cluster) : option Cluster :=
  match m with
  | MRequestVote el src dst req =>
      r ← nodes c !! dst;
      let '(resp, r') := handleRequestVote req r in
      Some (send [MVoteReply el dst src resp] (put_node dst r' c))
  | MVoteReply el src _ resp => settle el src (Some resp) c
  | MAppend src dst ref req =>
      r ← nodes c !! dst;
      let '(resp, r') := handleAppendEntries now req r in
      Some (send [MAppendReply dst src ref resp] (put_node dst r' c))
  | MAppendReply _ dst ref resp =>
      r ← nodes c !! dst;
      Some (put_node dst (replicateToPeer_reply ref (Some resp) r) c)
  end.

(** [startElection] goes on after [Promise.all]. *)
Definition finish (el : nat) (c : Cluster) : option Cluster :=
  ce ← elections c !! el;
  r ← nodes c !! ce_node ce;
  if bool_decide (ce_status ce = el_running /\ length (ce_results ce) = length (ce_calls ce))
  then
    let '(r', calls) := finishElection (ce_needed ce) (ce_results ce).*2 r in
    let status := if negb (isLeader r) && isLeader r' then el_won else el_over in
    Some (send (append_messages (ce_node ce) calls)
            (update_election el (ce <| ce_status := status |>) (put_node (ce_node ce) r' c)))
  else None.

(** The process of a node ends and a new one starts on the same disk, with the
    same configuration and the peers it learns when it joins again. *)
Definition restarted (r : RaftNode D) : RaftNode D :=
  start ((new_RaftNode (config r) (disk r) (diskWritable r)) <| peers := peers r |>).

Definition exec (l : Label) (c : Cluster) : option Cluster :=
  match l with
  | LTimeout n =>
      r ← nodes c !! n;
      if electionTimeout r then
        match electionTimerFires r with
        | (r', Some el) => Some (launch n r' el c)
        | (r', None) => Some (put_node n r' c)
        end
      else None
  | LTimeoutNow n =>
      r ← nodes c !! n;
      match triggerImmediateElection r with
      | (_, r', Some el) => Some (launch n r' el c)
      | (_, r', None) => Some (put_node n r' c)
      end
  | LDeliver i now => m ← net c !! i; deliver m now c
  | LVoteCallFails el voter => settle el voter None c
  | LFinish el => finish el c
  | LHeartbeat n =>
      r ← nodes c !! n;
      if heartbeatInterval r then Some (send (append_messages n (heartbeatFires r)) c) else None
  | LAppend n ty d =>
      r ← nodes c !! n;
      let '(_, r', calls) := appendEntry ty d r in
      Some (send (append_messages n calls) (put_node n r' c))
  | LCommit n => r ← nodes c !! n; Some (put_node n (updateCommitIndex r) c)
  | LStepDown n => r ← nodes c !! n; Some (put_node n (stepDown r).2 c)
  | LPause n => r ← nodes c !! n; Some (put_node n (pauseElections r) c)
  | LResume n => r ← nodes c !! n; Some (put_node n (resumeElections r) c)
  | LDelay n => r ← nodes c !! n; Some (put_node n (delayNextElection r) c)
  | LStop n => r ← nodes c !! n; Some (put_node n (stop r) c)
  | LStart n => r ← nodes c !! n; Some (put_node n (start r) c)
  | LRestart n => r ← nodes c !! n; Some (put_node n (restarted r) c)
  | LAddPeer n id address voting =>
      r ← nodes c !! n; Some (put_node n (addPeer id address voting r) c)
  | LRemovePeer n id => r ← nodes c !! n; Some (put_node n (removePeer id r) c)
  end.

Fixpoint run (ls : list Label) (c : Cluster) : option Cluster :=
  match ls with
  | [] => Some c
  | l :: ls => c' ← exec l c; run ls c'
  end.

(** ** Initial clusters *)

(** A started node of a cluster whose voters are [V], before anything happened. *)
Record initial_node (V : gset string) (n : string) (r : RaftNode D) : Prop := {
  in_id : nodeId (config r) = n;
  in_member : n ∈ V;
  in_voters_nodup : NoDup (p_nodeId <$> votingPeers r);
  in_voters : list_to_set (p_nodeId <$> votingPeers r) = V ∖ {[n]};
  in_peers : Forall (fun p => p_nodeId p <> n) (getPeers r);
  in_next : Forall (fun p => 1 <= p_nextIndex p) (getPeers r);
  in_state : state r = follower;
  in_term : 0 <= currentTerm r;
  in_log : log r = []
}.

Definition initial (V : gset string) (c : Cluster) : Prop :=
  net c = [] /\ elections c = [] /\
  map_Forall (initial_node V) (nodes c).

(** The steps of an execution with a fixed membership, without restarts, in
    which every election is concluded in the term it was started in. *)
Definition regular (l : Label) (c : Cluster) : Prop :=
  match l with
  | LStart _ | LRestart _ | LAddPeer _ _ _ _ | LRemovePeer _ _ => False
  | LFinish el =>
      forall ce r, elections c !! el = Some ce -> nodes c !! ce_node ce = Some r ->
                   currentTerm r = ce_term ce
  | _ => True
  end.

Inductive reachable (V : gset string) : Cluster -> Prop :=
  | reachable_initial c : initial V c -> reachable V c
  | reachable_step c l c' :
      reachable V c -> regular l c -> exec l c = Some c' -> reachable V c'.

End cluster.

Arguments Cluster : clear implicits.
Arguments Message : clear implicits.
Arguments Label : clear implicits.
