(* ===== verification/RaftElection.v ===== *)
(** * Election safety

    At most one node leads in a term, in every execution of the cluster
    (RaftCluster.v) with a fixed membership, without restarts, in which an
    election is concluded in the term it was started in.  Messages may be lost,
    duplicated and reordered, leaders may step down, and clients and timers act
    at any moment.

    The proof is an inductive invariant.  [voted c v t x]: node [v] gave its vote
    of term [t] to [x], either by starting an election or by granting one.  A
    node remembers its vote of the current term, with one exception: a leader
    that steps down forgets it ([becomeFollower] resets [votedFor]), but its
    no-op entry then makes its log too recent for any candidate of that term. *)

From S2P Require Import Prelude JsMap Raft RaftLog RaftCluster.

Section election.
Context {D : Type} `{!EmptyBuffer D}.
Implicit Types (c : Cluster D) (r : RaftNode D).

Definition won c (n : string) (t : Z) : Prop :=
  exists el ce, elections c !! el = Some ce /\
    ce_node ce = n /\ ce_term ce = t /\ ce_status ce = el_won.

Definition stood c (n : string) (t : Z) : Prop :=
  exists el ce, elections c !! el = Some ce /\ ce_node ce = n /\ ce_term ce = t.

Definition granted c (v : string) (t : Z) (x : string) : Prop :=
  exists el resp, MVoteReply el v x resp ∈ net c /\
    vr_voteGranted resp = true /\ vr_term resp = t.

Definition voted c (v : string) (t : Z) (x : string) : Prop :=
  (v = x /\ stood c v t) \/ granted c v t x.

(** ** The invariant *)

(** What no step changes in a node: who it is and whom it knows. *)
Record node_static (V : gset string) (n : string) r : Prop := {
  ns_id : nodeId (config r) = n;
  ns_member : n ∈ V;
  ns_voters_nodup : NoDup (p_nodeId <$> votingPeers r);
  ns_voters : list_to_set (p_nodeId <$> votingPeers r) = V ∖ {[n]};
  ns_peers : Forall (fun p => p_nodeId p <> n) (getPeers r)
}.

Record node_dynamic c (n : string) r : Prop := {
  nd_term : 0 <= currentTerm r;
  nd_log : Forall (fun e => term e <= currentTerm r) (log r);
  nd_leader : state r = leader -> won c n (currentTerm r);
  nd_won : won c n (currentTerm r) -> getLastLogTerm r = currentTerm r;
  nd_voted : forall t x, voted c n t x ->
    t <= currentTerm r /\ (t = currentTerm r -> votedFor r = Some x \/ won c n t)
}.

Definition message_ok c (m : Message D) : Prop :=
  match m with
  | MRequestVote el src dst req =>
      (exists ce, elections c !! el = Some ce /\ ce_node ce = src /\ ce_term ce = rv_term req) /\
      rv_candidateId req = src /\ rv_lastLogTerm req < rv_term req
  | MVoteReply el src dst resp =>
      vr_voteGranted resp = true ->
      exists ce, elections c !! el = Some ce /\ ce_node ce = dst /\ ce_term ce = vr_term resp
  | MAppend src dst _ req =>
      src <> dst /\ won c src (ae_term req) /\
      Forall (fun e => term e <= ae_term req) (ae_entries req)
  | MAppendReply _ _ _ _ => True
  end.

Record election_ok (V : gset string) c (el : nat) (ce : ClusterElection) : Prop := {
  eo_node : ce_node ce ∈ V;
  eo_needed : ce_needed ce = Z.of_nat (size V) / 2 + 1;
  eo_calls : forall v, v ∈ ce_calls ce -> v ∈ V ∖ {[ce_node ce]};
  eo_results : forall v b, (v, b) ∈ ce_results ce -> v ∈ ce_calls ce;
  eo_nodup : NoDup (ce_results ce).*1;
  eo_votes : forall v, (v, true) ∈ ce_results ce -> granted c v (ce_term ce) (ce_node ce);
  eo_won : ce_status ce = el_won -> ce_needed ce <= 1 + js_count id (ce_results ce).*2
}.

Record inv (V : gset string) c : Prop := {
  i_static : map_Forall (node_static V) (nodes c);
  i_dynamic : map_Forall (node_dynamic c) (nodes c);
  i_messages : Forall (message_ok c) (net c);
  i_elections : forall el ce, elections c !! el = Some ce -> election_ok V c el ce;
  i_unique : forall v t x y, voted c v t x -> voted c v t y -> x = y
}.

(** ** Uniqueness of winners *)

(** The voters of a won election. *)
Definition quorum (ce : ClusterElection) : gset string :=
  {[ce_node ce]} ∪ list_to_set (filter (fun vb => vb.2 = true) (ce_results ce)).*1.

Lemma count_true (l : list (string * bool)) :
  js_count id l.*2 = Z.of_nat (length (filter (fun vb => vb.2 = true) l)).
Proof.
  unfold js_count, js_length. f_equal. induction l as [|[v b] l IH]; [done|].
  csimpl. destruct b.
  - rewrite !filter_cons_True by done. cbn [length]. f_equal. exact IH.
  - rewrite !filter_cons_False by done. exact IH.
Qed.

Lemma quorum_size V c el ce :
  election_ok V c el ce ->
  Z.of_nat (size (quorum ce)) = 1 + js_count id (ce_results ce).*2.
Proof.
  intros H. unfold quorum. rewrite size_union.
  - rewrite size_singleton, size_list_to_set.
    + rewrite count_true, length_fmap. lia.
    + eapply sublist_NoDup; [apply (eo_nodup _ _ _ _ H)|].
      apply fmap_sublist, sublist_filter.
  - apply disjoint_singleton_l. rewrite elem_of_list_to_set.
    intros [[v b] [Heq [_ Hin]%list_elem_of_filter]]%list_elem_of_fmap. simpl in *.
    pose proof (eo_calls _ _ _ _ H _ (eo_results _ _ _ _ H _ _ Hin)). set_solver.
Qed.

Lemma quorum_voted V c el ce v :
  elections c !! el = Some ce -> election_ok V c el ce ->
  v ∈ quorum ce -> voted c v (ce_term ce) (ce_node ce).
Proof.
  intros Hel H [->%elem_of_singleton|Hv]%elem_of_union.
  - left. split; [done|]. by exists el, ce.
  - right. apply elem_of_list_to_set in Hv.
    apply list_elem_of_fmap in Hv as [[w b] [-> [Hb Hin]%list_elem_of_filter]].
    simpl in *. subst b. by eapply eo_votes.
Qed.

Lemma quorum_subset V c el ce : election_ok V c el ce -> quorum ce ⊆ V.
Proof.
  intros H v [->%elem_of_singleton|Hv]%elem_of_union; [apply (eo_node _ _ _ _ H)|].
  apply elem_of_list_to_set in Hv.
  apply list_elem_of_fmap in Hv as [[w b] [-> [_ Hin]%list_elem_of_filter]].
  pose proof (eo_calls _ _ _ _ H _ (eo_results _ _ _ _ H _ _ Hin)). set_solver.
Qed.

Lemma quorum_majority V c el ce :
  election_ok V c el ce -> ce_status ce = el_won -> (size V < 2 * size (quorum ce))%nat.
Proof.
  intros H Hw. pose proof (quorum_size _ _ _ _ H) as Hq.
  pose proof (eo_won _ _ _ _ H Hw) as Hn. rewrite (eo_needed _ _ _ _ H) in Hn.
  pose proof (Z.div_mod (Z.of_nat (size V)) 2 ltac:(done)).
  pose proof (Z.mod_pos_bound (Z.of_nat (size V)) 2 ltac:(lia)). lia.
Qed.

Lemma won_unique V c n1 n2 t : inv V c -> won c n1 t -> won c n2 t -> n1 = n2.
Proof.
  intros I (el1 & ce1 & E1 & <- & <- & W1) (el2 & ce2 & E2 & <- & Ht & W2).
  pose proof (i_elections _ _ I _ _ E1) as O1.
  pose proof (i_elections _ _ I _ _ E2) as O2.
  destruct (majority_intersect V (quorum ce1) (quorum ce2)) as (v & V1 & V2);
    eauto using quorum_subset, quorum_majority.
  apply (quorum_voted V c el1) in V1; [|done..].
  apply (quorum_voted V c el2) in V2; [|done..]. rewrite Ht in V2.
  by eapply (i_unique _ _ I).
Qed.

(** ** How the invariant follows a step *)

(** Two states of a node with the same identity and the same peers. *)
Definition peer_ids r : list (string * bool) :=
  (fun p => (p_nodeId p, p_votingMember p)) <$> getPeers r.

Definition same_static r r' : Prop := config r' = config r /\ peer_ids r' = peer_ids r.

Lemma votingPeers_ids r :
  p_nodeId <$> votingPeers r = (filter (fun ib => ib.2 = true) (peer_ids r)).*1.
Proof.
  unfold votingPeers, peer_ids. induction (getPeers r) as [|p l IH]; [done|].
  csimpl. destruct (p_votingMember p) eqn:E.
  - rewrite !filter_cons_True by done. csimpl. by rewrite IH.
  - rewrite !filter_cons_False by (simpl; congruence). done.
Qed.

Lemma peers_ids_Forall r n :
  Forall (fun p => p_nodeId p <> n) (getPeers r) <-> Forall (fun ib => ib.1 <> n) (peer_ids r).
Proof. unfold peer_ids. by rewrite Forall_fmap. Qed.

Lemma node_static_same V n r r' : same_static r r' -> node_static V n r -> node_static V n r'.
Proof.
  intros [Hc Hp] [H1 H2 H3 H4 H5]. rewrite votingPeers_ids, <- Hp in H3.
  rewrite votingPeers_ids, <- Hp in H4. rewrite peers_ids_Forall, <- Hp in H5.
  split; [by rewrite Hc|done|..].
  - by rewrite votingPeers_ids.
  - by rewrite votingPeers_ids.
  - by rewrite peers_ids_Forall.
Qed.

(** A step that leaves the election state and the log of the node alone. *)
Record quiet r r' : Prop := {
  q_static : same_static r r';
  q_state : state r' = state r;
  q_term : currentTerm r' = currentTerm r;
  q_voted : votedFor r' = votedFor r;
  q_log : log r' = log r
}.

Lemma quiet_refl r : quiet r r.
Proof. by repeat split. Qed.

Lemma node_dynamic_quiet c n r r' : quiet r r' -> node_dynamic c n r -> node_dynamic c n r'.
Proof.
  intros [_ Hs Ht Hv Hl] [D1 D2 D3 D4 D5].
  split; unfold getLastLogTerm in *; rewrite ?Hs, ?Ht, ?Hv, ?Hl; auto.
Qed.

Lemma same_static_refl r : same_static r r.
Proof. by split. Qed.

Lemma same_static_trans r1 r2 r3 : same_static r1 r2 -> same_static r2 r3 -> same_static r1 r3.
Proof. unfold same_static. intros [-> ->] [-> ->]. done. Qed.

Lemma quiet_trans r1 r2 r3 : quiet r1 r2 -> quiet r2 r3 -> quiet r1 r3.
Proof.
  intros [? ? ? ? ?] [? ? ? ? ?].
  split; [by eapply same_static_trans|congruence..].
Qed.

Lemma becomeFollower_static t r : same_static r (becomeFollower t r).
Proof. raft_simpl. done. Qed.

Lemma won_stood c n t : won c n t -> stood c n t.
Proof. intros (el & ce & ? & ? & ? & _). by exists el, ce. Qed.

Lemma won_voted c n t : won c n t -> voted c n t n.
Proof. intros ?%won_stood. by left. Qed.

Lemma node_dynamic_follower c n t r :
  currentTerm r < t \/ (t = currentTerm r /\ state r = leader) ->
  node_dynamic c n r -> node_dynamic c n (becomeFollower t r).
Proof.
  intros Ht [D1 D2 D3 D4 D5]. raft_simpl. split; cbn.
  - lia.
  - eapply Forall_impl; [exact D2|]. simpl. lia.
  - done.
  - intros Hw. destruct Ht as [Ht|[-> _]]; [|by apply D4].
    apply won_voted, D5 in Hw. lia.
  - intros t' x Hx. destruct (D5 _ _ Hx) as [Hle Hcur]. split; [lia|].
    intros ->. right. destruct Ht as [Ht|[-> Hl]]; [lia|]. by apply D3.
Qed.

Lemma node_dynamic_votes c c' n r :
  (forall t, won c' n t <-> won c n t) ->
  (forall t x, voted c' n t x -> voted c n t x) ->
  node_dynamic c n r -> node_dynamic c' n r.
Proof.
  intros Hw Hv [D1 D2 D3 D4 D5]. split; [done|done|..].
  - intros. by apply Hw, D3.
  - intros. by apply D4, Hw.
  - intros t x Hx. destruct (D5 t x (Hv _ _ Hx)) as [Ha Hb].
    split; [done|]. intros ->. rewrite Hw. by apply Hb.
Qed.

Lemma election_ok_grants V c c' el ce :
  (forall v t x, granted c v t x -> granted c' v t x) ->
  election_ok V c el ce -> election_ok V c' el ce.
Proof. intros Hg [? ? ? ? ? ? ?]. split; auto. Qed.

Lemma put_node_inv V c n r r' :
  inv V c -> nodes c !! n = Some r -> same_static r r' -> node_dynamic c n r' ->
  inv V (put_node n r' c).
Proof.
  intros [I1 I2 I3 I4 I5] Hn Hs Hd.
  split; [..|exact I5]; cbn; [| |exact I3|].
  - apply map_Forall_insert_2; [|done].
    eapply node_static_same; [done|]. by apply (I1 n r).
  - apply map_Forall_insert_2; [by eapply node_dynamic_votes; [..|exact Hd]|].
    intros m s Hm. by eapply node_dynamic_votes; [..|apply (I2 m s Hm)].
  - intros el ce Hel. by eapply election_ok_grants; [|apply (I4 el ce Hel)].
Qed.

Lemma put_node_quiet V c n r r' :
  inv V c -> nodes c !! n = Some r -> quiet r r' -> inv V (put_node n r' c).
Proof.
  intros I Hn Hq. eapply put_node_inv; [done..|by apply q_static|].
  eapply node_dynamic_quiet; [done|]. by apply (i_dynamic _ _ I n r).
Qed.

(** Messages that grant no vote. *)
Definition no_grant (m : Message D) : Prop :=
  match m with MVoteReply _ _ _ resp => vr_voteGranted resp = false | _ => True end.

Lemma voted_send c ms v t x :
  Forall no_grant ms -> voted (send ms c) v t x <-> voted c v t x.
Proof.
  intros Hms. unfold voted, granted, stood. cbn. split.
  - intros [H|(el & resp & [Hin|Hin]%elem_of_app & Hg & Ht)]; [by left|right; eauto|].
    rewrite Forall_forall in Hms. apply Hms in Hin. simpl in Hin. congruence.
  - intros [H|(el & resp & Hin & Hg & Ht)]; [by left|right].
    exists el, resp. rewrite elem_of_app. auto.
Qed.

Lemma send_inv V c ms :
  inv V c -> Forall no_grant ms -> Forall (message_ok c) ms -> inv V (send ms c).
Proof.
  intros [I1 I2 I3 I4 I5] Hng Hok. split; cbn; [exact I1|..].
  - intros n r Hn. apply (node_dynamic_votes c); [done| |by apply I2].
    intros t x. by rewrite voted_send.
  - by apply Forall_app.
  - intros el ce Hel. apply (election_ok_grants _ c); [|by apply I4].
    intros v t x (el' & resp & ? & ?). exists el', resp. cbn. rewrite elem_of_app. auto.
  - intros v t x y. rewrite !voted_send by done. apply I5.
Qed.

(** ** Node operations *)

Lemma quiet_timer b r : quiet r (r <| electionTimeout := b |>).
Proof. by repeat split. Qed.

Lemma quiet_reset r : quiet r (resetElectionTimeout r).
Proof. rewrite resetElectionTimeout_eq. apply quiet_timer. Qed.

Lemma quiet_save r : quiet r (saveState r).
Proof. rewrite saveState_eq. by repeat split. Qed.

Lemma quiet_apply r : quiet r (applyCommittedEntries r).
Proof. rewrite applyCommittedEntries_eq. by repeat split. Qed.

Lemma quiet_commit r : quiet r (updateCommitIndex r).
Proof.
  unfold updateCommitIndex. repeat case_match; try apply quiet_refl.
  eapply quiet_trans; [|apply quiet_apply]. by repeat split.
Qed.

Lemma peer_ids_map f r :
  (forall p, p_nodeId (f p) = p_nodeId p /\ p_votingMember (f p) = p_votingMember p) ->
  peer_ids (r <| peers ::= jm_map f |>) = peer_ids r.
Proof.
  intros Hf. unfold peer_ids, getPeers. cbn. rewrite jm_values_map, <- list_fmap_compose.
  apply list_fmap_ext. intros _ p _. simpl. destruct (Hf p) as [-> ->]. done.
Qed.

Lemma quiet_mutate ref f r :
  (forall p, p_nodeId (f p) = p_nodeId p /\ p_votingMember (f p) = p_votingMember p) ->
  quiet r (mutatePeer ref f r).
Proof.
  intros Hf. split; [split; [done|]|done..]. unfold mutatePeer. apply peer_ids_map.
  intros p. destruct (Nat.eqb (p_ref p) ref); auto.
Qed.

Lemma replicateToPeer_reply_dynamic c n ref resp r :
  node_dynamic c n r ->
  same_static r (replicateToPeer_reply ref resp r) /\
  node_dynamic c n (replicateToPeer_reply ref resp r).
Proof.
  intros Hd. unfold replicateToPeer_reply. destruct resp as [resp|]; [|by auto using same_static_refl].
  destruct (currentTerm r <? ar_term resp) eqn:E; prop_of_bool.
  - split; [apply becomeFollower_static|]. apply node_dynamic_follower; auto.
  - destruct (ar_success resp);
      match goal with |- context [mutatePeer ref ?f r] =>
        assert (quiet r (mutatePeer ref f r)) as Hq by (by apply quiet_mutate) end;
      (split; [apply q_static, Hq|by eapply node_dynamic_quiet]).
Qed.

Lemma startElection_reply_dynamic c n resp r :
  node_dynamic c n r ->
  same_static r (startElection_reply resp r).1 /\
  node_dynamic c n (startElection_reply resp r).1.
Proof.
  intros Hd. unfold startElection_reply. destruct resp as [resp|]; [|by auto using same_static_refl].
  destruct (currentTerm r <? vr_term resp) eqn:E; prop_of_bool;
    [|by auto using same_static_refl].
  split; [apply becomeFollower_static|]. apply node_dynamic_follower; auto.
Qed.

Lemma stepDown_dynamic c n r :
  node_dynamic c n r -> same_static r (stepDown r).2 /\ node_dynamic c n (stepDown r).2.
Proof.
  intros Hd. unfold stepDown, isLeader. case_bool_decide as E; simpl; [|by auto using same_static_refl].
  set (r1 := becomeFollower (currentTerm r) r).
  assert (node_dynamic c n r1) by (apply node_dynamic_follower; auto).
  split.
  - eapply same_static_trans; [apply becomeFollower_static|apply q_static, quiet_reset].
  - eapply node_dynamic_quiet; [apply quiet_reset|done].
Qed.

Lemma getLastLogTerm_app r e : getLastLogTerm (r <| log := log r ++ [e] |>) = term e.
Proof. unfold getLastLogTerm. cbn. by rewrite last_snoc. Qed.

Lemma append_dynamic c n r e :
  term e = currentTerm r -> node_dynamic c n r ->
  node_dynamic c n (r <| log := log r ++ [e] |>).
Proof.
  intros He [D1 D2 D3 D4 D5]. split; try assumption.
  - cbn. apply Forall_app. split; [done|]. apply Forall_singleton. lia.
  - intros _. by rewrite getLastLogTerm_app.
Qed.

Lemma append_messages_ok c n r :
  Forall (fun p => p_nodeId p <> n) (getPeers r) ->
  Forall (fun e => term e <= currentTerm r) (log r) -> won c n (currentTerm r) ->
  Forall (message_ok c) (append_messages n (replicateToFollowers r)).
Proof.
  intros Hp Hl Hw. unfold append_messages, replicateToFollowers.
  rewrite !Forall_fmap. eapply Forall_impl; [exact Hp|]. intros p Hne. simpl.
  split; [done|]. split; [done|].
  unfold js_slice. by apply Forall_take, Forall_drop.
Qed.

Lemma append_messages_no_grant n (calls : list (AppendCall D)) :
  Forall no_grant (append_messages n calls).
Proof. unfold append_messages. rewrite Forall_fmap. by apply Forall_true. Qed.

Lemma appendLoop_Forall (P : LogEntry D -> Prop) i es lg :
  Forall P es -> Forall P lg -> Forall P (appendLoop i es lg).
Proof.
  intros Hes. revert i lg. induction Hes as [|e es He Hes IH]; intros i lg Hlg; simpl; [done|].
  apply IH. destruct (js_at lg (i + 1 - 1)).
  - destruct (term _ =? term e); [done|]. apply Forall_app.
    split; [by apply Forall_take|by apply Forall_singleton].
  - apply Forall_app. split; [done|by apply Forall_singleton].
Qed.

(** The node after the term check that both RPC handlers start with. *)
Definition catch_up (t : Z) r : RaftNode D :=
  if currentTerm r <? t then becomeFollower t r else r.

Lemma catch_up_term t r : currentTerm (catch_up t r) = Z.max t (currentTerm r).
Proof.
  unfold catch_up. destruct (currentTerm r <? t) eqn:E; prop_of_bool; [|lia].
  raft_simpl. lia.
Qed.

Lemma catch_up_dynamic c n t r :
  node_dynamic c n r -> same_static r (catch_up t r) /\ node_dynamic c n (catch_up t r).
Proof.
  intros. unfold catch_up. destruct (currentTerm r <? t) eqn:E; prop_of_bool;
    [|by auto using same_static_refl].
  split; [apply becomeFollower_static|]. apply node_dynamic_follower; auto.
Qed.

Lemma handleAppendEntries_shape now req r :
  let r1 := catch_up (ae_term req) r in
  let r' := (handleAppendEntries now req r).2 in
  quiet r1 r' \/
  (ae_term req = currentTerm r1 /\
   quiet (r1 <| log := appendLoop (ae_prevLogIndex req) (ae_entries req) (log r1) |>) r').
Proof.
  intros r1 r'. subst r'. unfold handleAppendEntries. fold (catch_up (ae_term req) r).
  fold r1. assert (Ht : currentTerm r1 = Z.max (ae_term req) (currentTerm r))
    by apply catch_up_term.
  destruct (ae_term req <? currentTerm r1) eqn:E; prop_of_bool; [left; apply quiet_refl|].
  raft_simpl. case_bool_decide; cbn.
  - destruct (negb _); cbn; [left; by repeat split|].
    right. split; [lia|].
    destruct (commitIndex r1 <? ae_leaderCommit req); autorewrite with raft; by repeat split.
  - destruct (negb _); cbn; [left; by repeat split|].
    right. split; [lia|].
    destruct (commitIndex r1 <? ae_leaderCommit req); autorewrite with raft; by repeat split.
Qed.

Lemma handleAppendEntries_dynamic V c src n ref now req r :
  inv V c -> nodes c !! n = Some r -> MAppend src n ref req ∈ net c ->
  same_static r (handleAppendEntries now req r).2 /\
  node_dynamic c n (handleAppendEntries now req r).2.
Proof.
  intros I Hn Hm. pose proof (i_dynamic _ _ I n r Hn) as Hd.
  pose proof (proj1 (Forall_forall _ _) (i_messages _ _ I) _ Hm) as (Hne & Hw & Hes).
  destruct (catch_up_dynamic c n (ae_term req) r Hd) as [Hs1 Hd1].
  destruct (handleAppendEntries_shape now req r) as [Hq|[Ht Hq]].
  - split; [eapply same_static_trans; [done|apply q_static, Hq]|].
    by eapply node_dynamic_quiet.
  - split; [eapply same_static_trans; [done|apply (q_static _ _ Hq)]|].
    eapply node_dynamic_quiet; [exact Hq|].
    destruct Hd1 as [D1 D2 D3 D4 D5]. split; try assumption.
    + cbn. apply appendLoop_Forall; [by rewrite <- Ht|done].
    + cbn. rewrite <- Ht. intros Hwn. destruct Hne. by eapply won_unique.
Qed.

Lemma handleRequestVote_cases req r :
  let r1 := catch_up (rv_term req) r in
  let '(resp, r') := handleRequestVote req r in
  (vr_voteGranted resp = false /\ r' = r1) \/
  (vr_voteGranted resp = true /\ vr_term resp = rv_term req /\ currentTerm r1 = rv_term req /\
   logOk r1 req = true /\ canVote r1 req = true /\
   quiet (r1 <| votedFor := Some (rv_candidateId req) |>) r').
Proof.
  intros r1. unfold handleRequestVote. fold (catch_up (rv_term req) r). fold r1.
  assert (Ht : currentTerm r1 = Z.max (rv_term req) (currentTerm r)) by apply catch_up_term.
  destruct (currentTerm r1 <=? rv_term req) eqn:E; prop_of_bool; [|by left].
  destruct (logOk r1 req && canVote r1 req) eqn:Eg; prop_of_bool; [|by left].
  right. autorewrite with raft. cbn. split_and!; try done; lia.
Qed.

(** A node that has already voted in the term of a request it can still grant
    has voted for that candidate. *)
Lemma grant_consistent V c el src n req r x :
  inv V c -> nodes c !! n = Some r -> MRequestVote el src n req ∈ net c ->
  let r1 := catch_up (rv_term req) r in
  currentTerm r1 = rv_term req -> logOk r1 req = true -> canVote r1 req = true ->
  voted c n (rv_term req) x -> x = src.
Proof.
  intros I Hn Hm r1 Ht Hlog Hcan Hv.
  pose proof (proj1 (Forall_forall _ _) (i_messages _ _ I) _ Hm) as (_ & Hid & Hlast).
  pose proof (i_dynamic _ _ I n r Hn) as Hd.
  destruct (catch_up_dynamic c n (rv_term req) r Hd) as [_ [_ _ _ D4 D5]]. fold r1 in D4, D5.
  destruct (D5 _ _ Hv) as [_ [Hvf|Hw]]; [by rewrite Ht|..].
  - unfold canVote in Hcan. rewrite Hvf in Hcan. prop_of_bool. congruence.
  - rewrite <- Ht in Hw. apply D4 in Hw. unfold logOk in Hlog. rewrite Hw, Ht in Hlog.
    prop_of_bool. destruct Hlog; prop_of_bool; lia.
Qed.

Lemma voted_reply c el v x resp w t y :
  voted (send [MVoteReply el v x resp] c) w t y <->
  voted c w t y \/ (w = v /\ y = x /\ vr_voteGranted resp = true /\ vr_term resp = t).
Proof.
  unfold voted, granted, stood. cbn. split.
  - intros [H|(el' & resp' & [Hin|Hin]%elem_of_app & Hg & Ht)]; [by left; left|left; right; eauto|].
    apply list_elem_of_singleton in Hin. simplify_eq. by right.
  - intros [[H|(el' & resp' & Hin & Hg & Ht)]|(-> & -> & Hg & Ht)]; [by left|right|right].
    + exists el', resp'. rewrite elem_of_app. auto.
    + exists el, resp. rewrite elem_of_app, list_elem_of_singleton. auto.
Qed.

Lemma grant_inv V c el src n req r r' resp :
  inv V c -> nodes c !! n = Some r -> MRequestVote el src n req ∈ net c ->
  handleRequestVote req r = (resp, r') ->
  inv V (send [MVoteReply el n src resp] (put_node n r' c)).
Proof.
  intros I Hn Hm Hh. pose proof (i_dynamic _ _ I n r Hn) as Hd.
  destruct (catch_up_dynamic c n (rv_term req) r Hd) as [Hs1 Hd1].
  pose proof (handleRequestVote_cases req r) as Hc. rewrite Hh in Hc.
  pose proof (proj1 (Forall_forall _ _) (i_messages _ _ I) _ Hm) as (Hce & Hid & Hlast).
  destruct Hc as [[Hg ->]|(Hg & Hrt & Ht & Hlog & Hcan & Hq)].
  - apply send_inv; [by eapply put_node_inv|by repeat constructor|].
    repeat constructor. simpl. congruence.
  - assert (Hcons : forall x, voted c n (rv_term req) x -> x = src)
      by (intros x; by eapply grant_consistent).
    set (r1 := catch_up (rv_term req) r) in *.
    assert (Hd' : node_dynamic c n r').
    { eapply node_dynamic_quiet; [exact Hq|]. destruct Hd1 as [D1 D2 D3 D4 D5].
      split; try assumption. cbn. intros t x Hx. destruct (D5 _ _ Hx) as [Hle _].
      split; [done|]. intros ->. left. rewrite Hid. f_equal. symmetry.
      apply Hcons. by rewrite <- Ht. }
    assert (I' : inv V (put_node n r' c)).
    { eapply put_node_inv; [done..| |done].
      eapply same_static_trans; [exact Hs1|]. apply (q_static _ _ Hq). }
    destruct I' as [I1 I2 I3 I4 I5]. split; cbn; [exact I1|..].
    + intros m s Hm'. destruct (I2 m s Hm') as [D1 D2 D3 D4 D5].
      split; [done..|]. intros t x [Hx|(-> & -> & _ & Hx)]%voted_reply; [by apply D5|].
      cbn in Hm'. rewrite lookup_insert_eq in Hm'. injection Hm' as <-.
      rewrite (q_term _ _ Hq), (q_voted _ _ Hq). cbn. rewrite Hid. split; [lia|]. by left.
    + apply Forall_app. split; [done|]. repeat constructor. simpl. intros _.
      by rewrite Hrt.
    + intros el' ce Hel. apply (election_ok_grants _ (put_node n r' c)); [|by apply I4].
      intros v t x (e & p & ? & ?). exists e, p. cbn. rewrite elem_of_app. auto.
    + intros v t x y [Hx|(-> & -> & _ & Hx)]%voted_reply [Hy|(Ev & -> & _ & Hy)]%voted_reply.
      * by eapply I5.
      * subst v t. rewrite Hrt in Hx. by apply Hcons.
      * subst t. rewrite Hrt in Hy. symmetry. by apply Hcons.
      * done.
Qed.

(** ** Elections *)

(** Everything a new election adds: a candidate of a term it has never seen. *)
Lemma stood_launch c n r el m t :
  stood (launch n r el c) m t <-> stood c m t \/ (m = n /\ t = currentTerm r).
Proof.
  unfold stood. cbn. split.
  - intros (i & ce & Hi & <- & <-). apply lookup_app_Some in Hi as [Hi|[Hge Hi]].
    + left. by exists i, ce.
    + apply list_lookup_singleton_Some in Hi as [_ <-]. by right.
  - intros [(i & ce & Hi & <- & <-)|[-> ->]].
    + exists i, ce. split; [|done]. by apply lookup_app_l_Some.
    + eexists (length (elections c)), _. rewrite lookup_app_r, Nat.sub_diag by done. done.
Qed.

Lemma won_launch c n r el m t : won (launch n r el c) m t <-> won c m t.
Proof.
  unfold won. cbn. split.
  - intros (i & ce & Hi & ? & ? & Hw). apply lookup_app_Some in Hi as [Hi|[_ Hi]].
    + by exists i, ce.
    + apply list_lookup_singleton_Some in Hi as [_ <-]. done.
  - intros (i & ce & Hi & ?). exists i, ce. split; [|done]. by apply lookup_app_l_Some.
Qed.

Lemma granted_launch c n r el v t x : granted (launch n r el c) v t x <-> granted c v t x.
Proof.
  unfold granted. cbn. split.
  - intros (e & resp & [Hin|Hin]%elem_of_app & ?); [by exists e, resp|].
    by apply list_elem_of_fmap in Hin as (? & ? & _).
  - intros (e & resp & Hin & ?). exists e, resp. rewrite elem_of_app. auto.
Qed.

Lemma voted_launch c n r el v t x :
  voted (launch n r el c) v t x <->
  voted c v t x \/ (v = n /\ x = n /\ t = currentTerm r).
Proof.
  unfold voted. rewrite stood_launch, granted_launch. naive_solver.
Qed.

(** What [becomeCandidate] and [triggerImmediateElection] have in common: [r']
    is a candidate of the next term that voted for itself, and the election
    asks the voting peers. *)
Record candidacy r r' (el : Election) : Prop := {
  cd_static : same_static r r';
  cd_state : state r' = candidate;
  cd_term : currentTerm r' = currentTerm r + 1;
  cd_voted : votedFor r' = Some (nodeId (config r));
  cd_log : log r' = log r;
  cd_needed : el_votesNeeded el = (js_length (votingPeers r) + 1) / 2 + 1;
  cd_calls : el_calls el =
    (fun p => (p_nodeId p, mkRequestVote (currentTerm r') (nodeId (config r))
                             (getLastLogIndex r) (getLastLogTerm r))) <$> votingPeers r
}.

Lemma becomeCandidate_candidacy r :
  candidacy r (becomeCandidate r).1 (becomeCandidate r).2.
Proof.
  unfold becomeCandidate, startElection. raft_simpl. by split.
Qed.

Lemma trigger_candidacy r b r' el :
  triggerImmediateElection r = (b, r', Some el) -> candidacy r r' el.
Proof.
  unfold triggerImmediateElection, startElection. raft_simpl.
  repeat case_match; intros; simplify_eq; raft_simpl; by split.
Qed.

Lemma last_term_bound r t :
  0 <= t -> Forall (fun e => term e <= t) (log r) -> getLastLogTerm r <= t.
Proof.
  intros Ht Hl. unfold getLastLogTerm. destruct (last (log r)) as [e|] eqn:E; [|done].
  apply last_Some_elem_of in E. by apply (proj1 (Forall_forall _ _) Hl).
Qed.

Lemma voters_length V n r :
  node_static V n r -> js_length (votingPeers r) + 1 = Z.of_nat (size V).
Proof.
  intros [_ Hin Hnd Hv _]. unfold js_length. rewrite <- (length_fmap p_nodeId).
  rewrite <- (size_list_to_set (C := gset string)) by done. rewrite Hv.
  rewrite size_difference by set_solver. rewrite size_singleton.
  assert (size V <> 0%nat) by (apply size_non_empty_iff; set_solver). lia.
Qed.

(** Every election keeps its node and term, and a won one stays won. *)
Definition elections_extend c c' : Prop :=
  forall el ce, elections c !! el = Some ce ->
    exists ce', elections c' !! el = Some ce' /\ ce_node ce' = ce_node ce /\
      ce_term ce' = ce_term ce /\ (ce_status ce = el_won -> ce_status ce' = el_won).

Lemma won_extend c c' n t : elections_extend c c' -> won c n t -> won c' n t.
Proof.
  intros He (el & ce & Hel & <- & <- & Hw).
  destruct (He _ _ Hel) as (ce' & ? & ? & ? & ?). exists el, ce'. auto.
Qed.

Lemma message_ok_extend c c' m : elections_extend c c' -> message_ok c m -> message_ok c' m.
Proof.
  intros He. destruct m as [el src dst req|el src dst resp|src dst ref req|]; simpl; [| | |done].
  - intros [(ce & Hel & <- & <-) Hr]. destruct (He _ _ Hel) as (ce' & ? & ? & ? & _). eauto.
  - intros Hm Hg. destruct (Hm Hg) as (ce & Hel & <- & <-).
    destruct (He _ _ Hel) as (ce' & ? & ? & ? & _). eauto.
  - intros (? & Hw & ?). eauto using won_extend.
Qed.

Lemma launch_extend c n r el : elections_extend c (launch n r el c).
Proof.
  intros i ce Hi. exists ce. cbn. split; [by apply lookup_app_l_Some|done].
Qed.

Lemma launch_message_ok c n r r' el :
  candidacy r r' el -> nodeId (config r) = n -> node_dynamic c n r ->
  Forall (message_ok (launch n r' el c))
    ((fun call => MRequestVote (length (elections c)) n call.1 call.2) <$> el_calls el).
Proof.
  intros [_ _ Ht _ _ _ Hcl] Hid Dn. rewrite Hcl, !Forall_fmap. apply Forall_true.
  intros p. cbn. split_and!; [|done|].
  - eexists. split; [by rewrite lookup_app_r, Nat.sub_diag by done|]. done.
  - rewrite Ht. pose proof (last_term_bound r _ (nd_term _ _ _ Dn) (nd_log _ _ _ Dn)). lia.
Qed.

Lemma launch_election_ok V c n r r' el :
  candidacy r r' el -> node_static V n r ->
  election_ok V (launch n r' el c) (length (elections c))
    (mkCE n (currentTerm r') (el_votesNeeded el) (el_calls el).*1 [] el_running).
Proof.
  intros [_ _ _ _ _ Hnd Hcl] Sn. split; cbn; try done.
  - apply (ns_member _ _ _ Sn).
  - by rewrite Hnd, (voters_length V n r).
  - intros v Hv. rewrite Hcl, <- list_fmap_compose in Hv.
    rewrite <- (ns_voters _ _ _ Sn), elem_of_list_to_set. exact Hv.
  - by intros v b ?%elem_of_nil.
  - constructor.
  - by intros v ?%elem_of_nil.
Qed.

Lemma launch_dynamic V c n r r' el m s :
  inv V c -> nodes c !! n = Some r -> candidacy r r' el ->
  nodes (launch n r' el c) !! m = Some s -> node_dynamic (launch n r' el c) m s.
Proof.
  intros I Hn [Hs Hst Ht Hv Hl _ _]. pose proof (i_dynamic _ _ I n r Hn) as [D1 D2 D3 D4 D5].
  cbn. intros [[-> ->]|[Hne Hm]]%lookup_insert_Some.
  - split; rewrite ?Ht; [lia|..].
    + rewrite Hl. eapply Forall_impl; [exact D2|]. simpl. lia.
    + by rewrite Hst.
    + intros Hw%won_launch%won_voted%D5. lia.
    + intros t x [[Hle _]%D5|(_ & -> & ->)]%voted_launch; [lia|].
      split; [lia|]. left. rewrite Hv. f_equal. apply (i_static _ _ I _ r Hn).
  - apply (node_dynamic_votes c); [intros; apply won_launch| |by apply (i_dynamic _ _ I)].
    intros t x [?|(-> & _)]%voted_launch; done.
Qed.

Lemma launch_inv V c n r r' el :
  inv V c -> nodes c !! n = Some r -> candidacy r r' el -> inv V (launch n r' el c).
Proof.
  intros I Hn Hc. pose proof (i_static _ _ I n r Hn) as Sn.
  pose proof (i_dynamic _ _ I n r Hn) as Dn.
  assert (Hfresh : forall x, ~ voted c n (currentTerm r') x).
  { intros x [Hle _]%(nd_voted _ _ _ Dn). pose proof (cd_term _ _ _ Hc). lia. }
  split.
  - cbn. apply map_Forall_insert_2; [|apply I].
    eapply node_static_same; [apply (cd_static _ _ _ Hc)|done].
  - intros m s Hm. by eapply launch_dynamic.
  - cbn. apply Forall_app. split.
    + eapply Forall_impl; [apply (i_messages _ _ I)|]. intros m.
      apply message_ok_extend, launch_extend.
    + apply (launch_message_ok c n r r' el); [done|by apply Sn|done].
  - cbn. intros i ce Hi. apply lookup_app_Some in Hi as [Hi|[Hge Hi]].
    + apply (election_ok_grants _ c); [|by apply (i_elections _ _ I)].
      intros v t x. apply granted_launch.
    + apply list_lookup_singleton_Some in Hi as [Hi <-].
      replace i with (length (elections c)) by lia.
      by apply launch_election_ok with r.
  - intros v t x y [Hx|(-> & -> & ->)]%voted_launch [Hy|(Ev & -> & Et)]%voted_launch.
    + by eapply (i_unique _ _ I).
    + subst. by destruct (Hfresh x).
    + by destruct (Hfresh y).
    + done.
Qed.

(** Progress of an election: the record [ce] of [el] becomes [ce'] while its
    node becomes [r']. *)
Section progress.
Context (V : gset string) (c : Cluster D) (el : nat) (ce ce' : ClusterElection).
Context (r r' : RaftNode D).
Hypothesis Hel : elections c !! el = Some ce.
Hypothesis Hnode : ce_node ce' = ce_node ce.
Hypothesis Hterm : ce_term ce' = ce_term ce.
Hypothesis Hrunning : ce_status ce = el_running.
Let c' := update_election el ce' (put_node (ce_node ce) r' c).

Lemma progress_lookup i x :
  elections c' !! i = Some x <->
  (i = el /\ x = ce') \/ (i <> el /\ elections c !! i = Some x).
Proof.
  subst c'. cbn. pose proof (lookup_lt_Some _ _ _ Hel). rewrite list_lookup_insert_Some.
  naive_solver.
Qed.

Lemma progress_extend : elections_extend c c'.
Proof.
  intros i x Hi. destruct (decide (i = el)) as [->|Hne].
  - exists ce'. rewrite progress_lookup. simplify_eq. rewrite Hrunning. naive_solver.
  - exists x. rewrite progress_lookup. naive_solver.
Qed.

Lemma progress_stood n t : stood c' n t <-> stood c n t.
Proof.
  split.
  - intros (i & x & [[-> ->]|[_ Hi]]%progress_lookup & <- & <-); [|by exists i, x].
    by exists el, ce.
  - intros (i & x & Hi & <- & <-). destruct (progress_extend _ _ Hi) as (y & ? & ? & ? & _).
    by exists i, y.
Qed.

Lemma progress_won n t :
  won c' n t <->
  won c n t \/ (ce_status ce' = el_won /\ n = ce_node ce /\ t = ce_term ce).
Proof.
  split.
  - intros (i & x & [[-> ->]|[_ Hi]]%progress_lookup & <- & <- & Hw); [by right|].
    left. by exists i, x.
  - intros [Hw|(Hw & -> & ->)]; [by eapply won_extend; [apply progress_extend|]|].
    exists el, ce'. rewrite progress_lookup. auto.
Qed.

Lemma progress_voted v t x : voted c' v t x <-> voted c v t x.
Proof. unfold voted. rewrite progress_stood. done. Qed.

Lemma progress_inv :
  inv V c -> nodes c !! ce_node ce = Some r -> same_static r r' ->
  election_ok V c el ce' -> node_dynamic c' (ce_node ce) r' -> inv V c'.
Proof.
  intros [I1 I2 I3 I4 I5] Hn Hs Hok Hd. split.
  - apply map_Forall_insert_2; [|exact I1]. by eapply node_static_same, I1.
  - intros m s Hm. cbn in Hm.
    apply lookup_insert_Some in Hm as [[<- <-]|[Hne Hm]]; [exact Hd|].
    apply (node_dynamic_votes c); [| |by apply I2].
    + intros t. rewrite progress_won. naive_solver.
    + intros t x. by rewrite progress_voted.
  - eapply Forall_impl; [exact I3|]. intros m. apply message_ok_extend, progress_extend.
  - intros i x [[-> ->]|[_ Hi]]%progress_lookup;
      (eapply election_ok_grants; [|by eauto]); intros ???; exact id.
  - intros v t x y. rewrite !progress_voted. apply I5.
Qed.

Lemma progress_dynamic :
  ce_status ce' <> el_won -> node_dynamic c (ce_node ce) r' ->
  node_dynamic c' (ce_node ce) r'.
Proof.
  intros Hnw. apply node_dynamic_votes.
  - intros t. rewrite progress_won. naive_solver.
  - intros t x. by rewrite progress_voted.
Qed.
End progress.

Lemma settle_inv V c el voter resp c' :
  inv V c ->
  (forall rp, resp = Some rp -> exists dst, MVoteReply el voter dst rp ∈ net c) ->
  settle el voter resp c = Some c' -> inv V c'.
Proof.
  intros I Hresp. unfold settle. intros (ce & Hel & H)%bind_Some.
  apply bind_Some in H as (r & Hn & H). case_bool_decide as Hc; [|done].
  destruct Hc as (Hst & Hcall & Hnew).
  destruct (startElection_reply resp r) as [r' b] eqn:Er. injection H as <-.
  pose proof (startElection_reply_dynamic c _ resp r (i_dynamic _ _ I _ _ Hn)) as [Hs Hd].
  rewrite Er in Hs, Hd. cbn in Hs, Hd.
  pose proof (i_elections _ _ I _ _ Hel) as [O1 O2 O3 O4 O5 O6 O7].
  eapply progress_inv; [done..| |].
  - split; cbn; try done.
    + intros v b' [Hin|Hin%list_elem_of_singleton]%elem_of_app; [by eapply O4|].
      by simplify_eq.
    + rewrite fmap_app. apply NoDup_app. split_and!; [done| |apply NoDup_singleton].
      by intros x Hx ->%list_elem_of_singleton.
    + intros v [Hin|Hin%list_elem_of_singleton]%elem_of_app; [by apply O6|].
      simplify_eq. unfold startElection_reply in Er. destruct resp as [rp|]; [|done].
      destruct (currentTerm r <? vr_term rp); [done|]. simplify_eq.
      destruct (Hresp rp eq_refl) as [dst Hin].
      pose proof (proj1 (Forall_forall _ _) (i_messages _ _ I) _ Hin) as Hm.
      destruct Hm as (ce0 & Hel0 & <- & Ht); [done|]. simplify_eq.
      exists el, rp. auto.
    + by rewrite Hst.
  - apply progress_dynamic; [done..|by cbn; rewrite Hst|done].
Qed.

(** The node and the calls that [becomeLeader] makes. *)
Lemma becomeLeader_shape r :
  exists e, term e = currentTerm r /\ index e = getLastLogIndex r + 1 /\
    same_static r (becomeLeader r).1 /\
    state (becomeLeader r).1 = leader /\ currentTerm (becomeLeader r).1 = currentTerm r /\
    votedFor (becomeLeader r).1 = votedFor r /\ log (becomeLeader r).1 = log r ++ [e] /\
    (becomeLeader r).2 = replicateToFollowers (becomeLeader r).1.
Proof.
  exists (mkLogEntry (currentTerm r) (getLastLogIndex r + 1) noop Buffer_alloc_0).
  unfold becomeLeader, appendEntry, isLeader. raft_simpl. split_and!; try done.
  split; [done|].
  trans (peer_ids (r <| peers ::= jm_map (fun p =>
           p <| p_nextIndex := getLastLogIndex r + 1 |> <| p_matchIndex := 0 |>) |>)); [done|].
  by apply peer_ids_map.
Qed.

Lemma leader_dynamic c c' n r r' e :
  node_dynamic c n r -> won c' n (currentTerm r) ->
  (forall t, won c n t -> won c' n t) -> (forall t x, voted c' n t x -> voted c n t x) ->
  term e = currentTerm r -> log r' = log r ++ [e] -> currentTerm r' = currentTerm r ->
  votedFor r' = votedFor r -> node_dynamic c' n r'.
Proof.
  intros [D1 D2 D3 D4 D5] Hw Hww Hv He Hl Ht Hvf. split; rewrite ?Ht, ?Hvf; [done|..].
  - rewrite Hl. apply Forall_app. split; [done|]. apply Forall_singleton. lia.
  - done.
  - intros _. unfold getLastLogTerm. by rewrite Hl, last_snoc.
  - intros t x [Hle Hc]%Hv%D5. split; [done|]. intros E. destruct (Hc E); auto.
Qed.

Lemma finish_inv V c el c' :
  inv V c -> regular (LFinish el) c -> finish el c = Some c' -> inv V c'.
Proof.
  intros I Hreg. unfold finish. intros (ce & Hel & H)%bind_Some.
  apply bind_Some in H as (r & Hn & H). case_bool_decide as Hc; [|done].
  destruct Hc as (Hst & Hlen). specialize (Hreg ce r Hel Hn).
  pose proof (i_dynamic _ _ I _ _ Hn) as Dn. pose proof (i_static _ _ I _ _ Hn) as Sn.
  assert (Hover : inv V (update_election el (ce <| ce_status := el_over |>)
                           (put_node (ce_node ce) r c))).
  { eapply progress_inv; [done..|apply same_static_refl| |by apply progress_dynamic].
    pose proof (i_elections _ _ I _ _ Hel) as [? ? ? ? ? ? ?]. by split. }
  unfold finishElection in H. destruct (state r) eqn:Es.
  1,3: assert (negb (isLeader r) && isLeader r = false) as E by (by destruct (isLeader r));
    rewrite E in H; injection H as <-; by apply send_inv.
  destruct (Z.leb_spec (ce_needed ce) (1 + js_count id (ce_results ce).*2)) as [Hq|Hq].
  2: { unfold isLeader in H. rewrite Es in H. injection H as <-. by apply send_inv. }
  destruct (becomeLeader_shape r) as (e & He & _ & Hs & Hld & Ht & Hv & Hl & Hcalls).
  destruct (becomeLeader r) as [r' calls]. cbn in *. unfold isLeader in H.
  rewrite Es, Hld in H. cbn in H. injection H as <-. subst calls.
  set (ce' := ce <| ce_status := el_won |>).
  set (c1 := update_election el ce' (put_node (ce_node ce) r' c)).
  assert (Hw : won c1 (ce_node ce) (currentTerm r)).
  { subst c1. apply progress_won; auto. }
  assert (Dn' : node_dynamic c1 (ce_node ce) r').
  { eapply leader_dynamic; [exact Dn|done|..]; try done.
    - intros t Hwt. subst c1. apply progress_won; auto.
    - intros t x. subst c1. by rewrite progress_voted. }
  apply send_inv; [|apply append_messages_no_grant|].
  - eapply progress_inv; [done..| |done].
    pose proof (i_elections _ _ I _ _ Hel) as [? ? ? ? ? ? ?]. by split.
  - apply append_messages_ok; [|apply Dn'|by rewrite Ht].
    eapply ns_peers, node_static_same; done.
Qed.

(** ** Every step *)

Lemma deliver_inv V c m now c' :
  inv V c -> m ∈ net c -> deliver m now c = Some c' -> inv V c'.
Proof.
  intros I Hm. destruct m as [el src dst req|el src dst resp|src dst ref req|src dst ref resp]; simpl.
  - intros (r & Hn & H)%bind_Some. destruct (handleRequestVote req r) as [resp r'] eqn:E.
    injection H as <-. by eapply grant_inv.
  - intros H. eapply settle_inv; [done| |exact H]. intros rp [= <-]. eauto.
  - intros (r & Hn & H)%bind_Some.
    pose proof (handleAppendEntries_dynamic V c src dst ref now req r I Hn Hm) as [Hs Hd].
    destruct (handleAppendEntries now req r) as [resp r']. injection H as <-.
    apply send_inv; [by eapply put_node_inv|by repeat constructor..].
  - intros (r & Hn & H)%bind_Some. injection H as <-.
    destruct (replicateToPeer_reply_dynamic c dst ref (Some resp) r) as [Hs Hd];
      [by apply (i_dynamic _ _ I)|]. by eapply put_node_inv.
Qed.

Lemma append_inv V c n ty d r :
  inv V c -> nodes c !! n = Some r ->
  let '(_, r', calls) := appendEntry ty d r in
  inv V (send (append_messages n calls) (put_node n r' c)).
Proof.
  intros I Hn. unfold appendEntry, isLeader. case_bool_decide as E; simpl.
  - pose proof (i_dynamic _ _ I _ _ Hn) as Dn.
    apply send_inv; [|apply append_messages_no_grant|].
    + eapply put_node_inv; [done..| |by apply append_dynamic]. done.
    + apply append_messages_ok; cbn; [apply (i_static _ _ I _ _ Hn)| |].
      * apply Forall_app. split; [apply Dn|]. by apply Forall_singleton.
      * by apply (nd_leader _ _ _ Dn).
  - apply send_inv; [|done..]. eapply put_node_quiet; [done..|apply quiet_refl].
Qed.

Lemma heartbeat_inv V c n r :
  inv V c -> nodes c !! n = Some r -> inv V (send (append_messages n (heartbeatFires r)) c).
Proof.
  intros I Hn. pose proof (i_dynamic _ _ I _ _ Hn) as Dn.
  apply send_inv; [done|apply append_messages_no_grant|].
  unfold heartbeatFires, isLeader. case_bool_decide as E; [|constructor].
  apply append_messages_ok; [apply (i_static _ _ I _ _ Hn)|apply Dn|by apply Dn].
Qed.

Lemma resume_quiet r : quiet r (resumeElections r).
Proof. unfold resumeElections. case_match; raft_simpl; by repeat split. Qed.

Lemma clear_candidacy r :
  candidacy r (becomeCandidate (clearElectionTimeout r)).1
    (becomeCandidate (clearElectionTimeout r)).2.
Proof.
  destruct (becomeCandidate_candidacy (clearElectionTimeout r)) as [? ? ? ? ? ? ?].
  by split.
Qed.

Theorem exec_inv V c l c' : inv V c -> regular l c -> exec l c = Some c' -> inv V c'.
Proof.
  intros I Hreg. destruct l; try done; simpl.
  (* deliveries and the steps of an election *)
  3: intros (m & Hm & H)%bind_Some; eapply deliver_inv; [done| |exact H];
     by eapply list_elem_of_lookup_2.
  3: by apply settle_inv.
  3: by apply finish_inv.
  all: intros (r & Hn & H)%bind_Some.
  (* steps that change nothing an election depends on *)
  5-9: injection H as <-;
       try (eapply put_node_quiet; [done..|]; auto using quiet_commit, resume_quiet; by repeat split).
  - unfold electionTimerFires in H. destruct (electionTimeout r); [|done].
    pose proof (clear_candidacy r) as Hc.
    destruct (running _ && _); [|injection H as <-; by eapply put_node_quiet].
    destruct (becomeCandidate _). injection H as <-. by eapply launch_inv.
  - destruct (triggerImmediateElection r) as [[b r'] [el|]] eqn:E; injection H as <-.
    + eapply launch_inv; [done..|]. by eapply trigger_candidacy.
    + unfold triggerImmediateElection, startElection in E.
      repeat case_match; simplify_eq; (eapply put_node_quiet; [done..|apply quiet_refl]).
  - destruct (heartbeatInterval r); [|done]. injection H as <-. by apply heartbeat_inv.
  - pose proof (append_inv V c n ty d r I Hn) as Ha.
    destruct (appendEntry ty d r) as [[? ?] ?]. by injection H as <-.
  - destruct (stepDown_dynamic c n r (i_dynamic _ _ I _ _ Hn)). by eapply put_node_inv.
  - injection H as <-. eapply put_node_quiet; [done..|]. by repeat split.
Qed.

Lemma initial_inv V c : initial V c -> inv V c.
Proof.
  intros (Hnet & Hel & Hn).
  assert (Hv : forall v t x, ~ voted c v t x).
  { unfold voted, stood, granted. rewrite Hnet, Hel.
    intros v t x [[_ (el & ce & ? & _)]|(el & rp & ?%elem_of_nil & _)]; done. }
  split.
  - intros n r H. destruct (Hn n r H). by split.
  - intros n r H. destruct (Hn n r H) as [_ _ _ _ _ _ Hs Ht Hl]. split; [done|..].
    + by rewrite Hl.
    + by rewrite Hs.
    + intros Hw%won_voted. by apply Hv in Hw.
    + intros t x Hx. by apply Hv in Hx.
  - by rewrite Hnet.
  - by rewrite Hel.
  - intros v t x y Hx. by apply Hv in Hx.
Qed.

Lemma reachable_inv V c : reachable V c -> inv V c.
Proof. induction 1; [by apply initial_inv|by eapply exec_inv]. Qed.

End election.
