(* ===== verification/RaftMatching.v ===== *)
(** * Log matching

    In every reachable cluster (RaftCluster.v), two logs that hold an entry of the
    same term at the same position are equal up to that position.  The
    invariant keeps a family [K] of histories: every log a node has or had, and
    the log that stands behind every AppendEntries request in flight.  Only a
    leader extends the family, at the end of its own log, and election safety
    makes it the only writer of its term. *)

From S2P Require Import Prelude JsMap Raft RaftLog RaftCluster RaftElection.

Section matching.
Context {D : Type} `{!EmptyBuffer D}.
Implicit Types (c : Cluster D) (r : RaftNode D) (l : list (LogEntry D)).
Implicit Types (K : list (LogEntry D) -> Prop).

(** The logs agree as far as they share a term at a position. *)
Definition logs_match l1 l2 : Prop :=
  forall i e1 e2, l1 !! i = Some e1 -> l2 !! i = Some e2 -> term e1 = term e2 ->
    take (S i) l1 = take (S i) l2.

Record histories K c : Prop := {
  h_match : forall l1 l2, K l1 -> K l2 -> logs_match l1 l2;
  h_wf : forall l, K l -> log_wf l;
  h_prefix : forall l m, K l -> K (take m l);
  h_won : forall l i e, K l -> l !! i = Some e -> exists n, won c n (term e)
}.

Definition next_ok r : Prop := Forall (fun p => 1 <= p_nextIndex p) (getPeers r).

Record node_log K c (n : string) r : Prop := {
  nl_log : K (log r);
  nl_next : next_ok r;
  nl_leader : state r = leader -> forall l i e,
    K l -> l !! i = Some e -> term e = currentTerm r -> (i < length (log r))%nat;
  nl_candidate : state r = candidate -> ~ won c n (currentTerm r)
}.

(** A request that carries entries is a window of a history. *)
Definition log_message_ok K (m : Message D) : Prop :=
  match m with
  | MAppend _ _ _ req =>
      ae_entries req = [] \/
      exists P, K (P ++ ae_entries req) /\ ae_prevLogIndex req = Z.of_nat (length P) /\
        (P <> [] -> exists e, last P = Some e /\ term e = ae_prevLogTerm req)
  | MAppendReply _ _ _ resp => 0 <= ar_matchIndex resp
  | _ => True
  end.

Definition log_inv c : Prop :=
  exists K, histories K c /\ map_Forall (node_log K c) (nodes c) /\
    Forall (log_message_ok K) (net c).

Lemma log_message_mono K K' m :
  (forall l, K l -> K' l) -> log_message_ok K m -> log_message_ok K' m.
Proof. intros HK. destruct m; simpl; try done. intros [?|(P & ? & ?)]; eauto. Qed.

(** ** One step of one node *)

(** Node [n] becomes [r'], messages [ms] are added, the family grows to [K'] by
    logs of [n] only. *)
Lemma log_step V K K' c c' n r' ms :
  inv V c -> inv V c' ->
  histories K c -> map_Forall (node_log K c) (nodes c) -> Forall (log_message_ok K) (net c) ->
  nodes c' = <[n := r']> (nodes c) -> net c' = net c ++ ms ->
  (forall m t, m <> n -> won c' m t -> won c m t) -> (forall m t, won c m t -> won c' m t) ->
  histories K' c' -> (forall l, K l -> K' l) ->
  (forall l i e, K' l -> l !! i = Some e ->
     (exists l0, K l0 /\ l0 !! i = Some e) \/ won c' n (term e)) ->
  node_log K' c' n r' -> Forall (log_message_ok K') ms ->
  log_inv c'.
Proof.
  intros I I' HK Hn Hm En Em Hw1 Hw2 HK' Hsub Horig Hn' Hms. exists K'.
  split; [done|]. split.
  - rewrite En. intros m s [[<- <-]|[Hne Hs]]%lookup_insert_Some; [done|].
    destruct (Hn m s Hs) as [L1 L2 L3 L4]. split; [auto|done|..].
    + intros Hl l i e Hl' Hi Ht. destruct (Horig l i e Hl' Hi) as [(l0 & H0 & Hi0)|Hw].
      * by eapply L3.
      * destruct Hne. eapply (won_unique V c'); [done..|]. rewrite Ht.
        apply Hw2. by apply (i_dynamic _ _ I m s Hs).
    + intros Hc Hw. by apply (L4 Hc), Hw1.
  - rewrite Em. apply Forall_app. split; [|done].
    eapply Forall_impl; [exact Hm|]. intros m. by apply log_message_mono.
Qed.

Lemma histories_won K c c' :
  (forall m t, won c m t -> won c' m t) -> histories K c -> histories K c'.
Proof. intros Hw [? ? ? H4]. split; try done. intros l i e Hl Hi. destruct (H4 l i e Hl Hi). eauto. Qed.

(** The same log, and either the same role in the same term or a follower. *)
Definition demoted r r' : Prop :=
  log r' = log r /\
  ((state r' = state r /\ currentTerm r' = currentTerm r) \/ state r' = follower).

Lemma node_log_demoted K c n r r' :
  demoted r r' -> next_ok r' -> node_log K c n r -> node_log K c n r'.
Proof.
  intros [Hl Hs] Hx [L1 L2 L3 L4]. split; rewrite ?Hl; [done|done|..];
    (destruct Hs as [[-> ->]| ->]; [done|done]).
Qed.

Lemma node_log_quiet K c n r r' :
  quiet r r' -> peers r' = peers r -> node_log K c n r -> node_log K c n r'.
Proof.
  intros [_ Qs Qt _ Ql] Hp Hn. eapply node_log_demoted; [|unfold next_ok, getPeers|exact Hn].
  - split; auto.
  - rewrite Hp. apply Hn.
Qed.

Lemma demoted_step V K c n r r' ms :
  inv V c -> inv V (send ms (put_node n r' c)) ->
  histories K c -> map_Forall (node_log K c) (nodes c) -> Forall (log_message_ok K) (net c) ->
  node_log K c n r' -> Forall (log_message_ok K) ms ->
  log_inv (send ms (put_node n r' c)).
Proof.
  intros I I' HK Hn Hm Hr' Hms.
  eapply (log_step V K K c _ n r' ms); try done.
  - by apply (histories_won K c).
  - intros l i e Hl Hi. left. eauto.
  - by destruct Hr'.
Qed.

(** ** The messages of a leader *)

Lemma request_ok K c n r p :
  histories K c -> node_log K c n r -> 1 <= p_nextIndex p ->
  log_message_ok K (MAppend n (p_nodeId p) (p_ref p) (replicateToPeer_request r p)).
Proof.
  intros HK Hn Hp. simpl. set (es := js_slice _ _ _).
  destruct (decide (es = [])) as [->|Hne]; [by left|]. right.
  assert (Hes : exists m, es = take m (drop (Z.to_nat (p_nextIndex p - 1)) (log r))).
  { subst es. unfold js_slice, js_clamp, js_length in *.
    destruct (p_nextIndex p - 1 <? 0) eqn:E; prop_of_bool; [lia|].
    destruct (Z.le_ge_cases (p_nextIndex p - 1) (Z.of_nat (length (log r)))).
    - rewrite (Z.min_l (p_nextIndex p - 1)) by done. eauto.
    - destruct Hne. rewrite (Z.min_r (p_nextIndex p - 1)), Nat2Z.id, drop_all by lia. apply take_nil. }
  destruct Hes as [m Hm]. set (k := Z.to_nat (p_nextIndex p - 1)) in *.
  assert (Hk : (k < length (log r))%nat).
  { destruct (Nat.lt_ge_cases k (length (log r))); [done|].
    rewrite drop_ge, take_nil in Hm by done. done. }
  exists (take k (log r)). rewrite Hm, length_take. split_and!; [|lia|].
  - rewrite take_take_drop. apply (h_prefix _ _ HK), (nl_log _ _ _ _ Hn).
  - intros HP. assert (Hk0 : k <> 0%nat) by (intros E; by rewrite E in HP).
    replace (0 <? p_nextIndex p - 1) with true by (symmetry; apply Z.ltb_lt; lia).
    destruct (lookup_lt_is_Some_2 (log r) (pred k)) as [e He]; [lia|]. exists e. split.
    + rewrite last_lookup, length_take, lookup_take_lt by lia.
      by replace (pred (k `min` length (log r))) with (pred k) by lia.
    + replace (p_nextIndex p - 1 - 1) with (Z.of_nat (pred k)) by lia.
      by rewrite js_at_nat, He.
Qed.

Lemma append_messages_log_ok K c n r :
  histories K c -> node_log K c n r ->
  Forall (log_message_ok K) (append_messages n (replicateToFollowers r)).
Proof.
  intros HK Hn. unfold append_messages, replicateToFollowers. rewrite !Forall_fmap.
  eapply Forall_impl; [apply (nl_next _ _ _ _ Hn)|]. intros p Hp.
  by apply (request_ok K c n r p).
Qed.

(** ** Extending a log *)

(** The family after a leader appends [e] to its log [l0]. *)
Definition extended K l0 (e : LogEntry D) l : Prop := K l \/ l = l0 ++ [e].

Lemma extended_match K c l0 e :
  histories K c -> K l0 ->
  (forall l i x, K l -> l !! i = Some x -> term x = term e -> (i < length l0)%nat) ->
  forall l, K l -> logs_match l (l0 ++ [e]).
Proof.
  intros HK H0 Hlast l Hl i e1 e2 H1 H2 Ht.
  apply lookup_app_Some in H2 as [H2|[Hge H2]].
  - rewrite take_app_le by (apply lookup_lt_Some in H2; lia).
    by eapply (h_match _ _ HK).
  - apply list_lookup_singleton_Some in H2 as [_ <-].
    pose proof (Hlast l i e1 Hl H1 Ht). lia.
Qed.

Lemma logs_match_sym l1 l2 : logs_match l1 l2 -> logs_match l2 l1.
Proof. intros H i e1 e2 H1 H2 Ht. symmetry. by eapply H. Qed.

Lemma extended_histories K c c' l0 e n :
  histories K c -> K l0 -> (forall m t, won c m t -> won c' m t) -> won c' n (term e) ->
  index e = js_length l0 + 1 ->
  (forall l i x, K l -> l !! i = Some x -> term x = term e -> (i < length l0)%nat) ->
  histories (extended K l0 e) c'.
Proof.
  intros HK H0 Hw Hn Hi Hlast. pose proof (extended_match K c l0 e HK H0 Hlast) as Hx.
  split.
  - intros l1 l2 [H1| ->] [H2| ->]; [by apply (h_match _ _ HK)|by apply Hx| |].
    + by apply logs_match_sym, Hx.
    + intros i e1 e2 ? ? ?. done.
  - intros l [Hl| ->]; [by apply (h_wf _ _ HK)|]. intros i x Hx'.
    apply lookup_app_Some in Hx' as [Hx'|[Hge Hx']]; [by apply (h_wf _ _ HK l0)|].
    apply list_lookup_singleton_Some in Hx' as [? <-]. unfold js_length in Hi. lia.
  - intros l m [Hl| ->]; [left; by apply (h_prefix _ _ HK)|].
    destruct (Nat.le_gt_cases m (length l0)).
    + left. rewrite take_app_le by done. by apply (h_prefix _ _ HK).
    + right. apply take_ge. rewrite length_app. simpl. lia.
  - intros l i x [Hl| ->] Hlx.
    + destruct (h_won _ _ HK l i x Hl Hlx). eauto.
    + apply lookup_app_Some in Hlx as [Hlx|[_ Hlx]].
      * destruct (h_won _ _ HK l0 i x H0 Hlx). eauto.
      * apply list_lookup_singleton_Some in Hlx as [_ <-]. eauto.
Qed.

Lemma extended_orig K l0 e l i x :
  K l0 -> extended K l0 e l -> l !! i = Some x ->
  (exists l1, K l1 /\ l1 !! i = Some x) \/ (x = e /\ i = length l0).
Proof.
  intros H0 [Hl| ->] Hx; [left; eauto|].
  apply lookup_app_Some in Hx as [Hx|[Hge Hx]]; [left; eauto|].
  apply list_lookup_singleton_Some in Hx as [? <-]. right. split; [done|lia].
Qed.

(** A leader [r'] of its term [term e] whose log is the old one and [e]. *)
Lemma extend_step V K c c' n r r' e ms :
  inv V c -> inv V c' ->
  histories K c -> map_Forall (node_log K c) (nodes c) -> Forall (log_message_ok K) (net c) ->
  nodes c !! n = Some r -> nodes c' = <[n := r']> (nodes c) -> net c' = net c ++ ms ->
  (forall m t, m <> n -> won c' m t -> won c m t) -> (forall m t, won c m t -> won c' m t) ->
  state r' = leader -> log r' = log r ++ [e] -> term e = currentTerm r' ->
  index e = getLastLogIndex r + 1 -> next_ok r' ->
  (forall l i x, K l -> l !! i = Some x -> term x = term e -> (i < length (log r))%nat) ->
  ms = append_messages n (replicateToFollowers r') ->
  log_inv c'.
Proof.
  intros I I' HK Hn Hm Er En Em Hw1 Hw2 Hs Hl Ht Hi Hx Hlast Hms.
  assert (H0 : K (log r)) by apply (Hn n r Er).
  assert (Hwn : won c' n (term e)).
  { rewrite Ht. apply (i_dynamic _ _ I' n r'); [|done]. by rewrite En, lookup_insert_eq. }
  assert (HK' : histories (extended K (log r) e) c').
  { eapply extended_histories; try done. rewrite Hi. f_equal.
    apply getLastLogIndex_wf, (h_wf _ _ HK), H0. }
  assert (Hnode : node_log (extended K (log r) e) c' n r').
  { split; [right; by rewrite Hl|done| |by rewrite Hs].
    intros _ l i x Hlx Hix Htx. rewrite Hl, length_app. simpl.
    destruct (extended_orig K (log r) e l i x H0 Hlx Hix) as [(l1 & H1 & Hi1)|[-> ->]]; [|lia].
    pose proof (Hlast l1 i x H1 Hi1 ltac:(congruence)). lia. }
  eapply (log_step V K (extended K (log r) e) c c' n r' ms); try done.
  - by left.
  - intros l i x Hlx Hix.
    destruct (extended_orig K (log r) e l i x H0 Hlx Hix) as [?|[-> _]]; auto.
  - rewrite Hms. by apply (append_messages_log_ok _ c').
Qed.

(** ** A follower's log *)

Lemma prefix_agrees K c P es l :
  histories K c -> K l -> K (P ++ es) -> (length P <= length l)%nat ->
  (P <> [] -> exists e x, last P = Some e /\ l !! pred (length P) = Some x /\ term x = term e) ->
  take (length P) l = P.
Proof.
  intros HK Hl HP Hlen Hlast. destruct (decide (P = [])) as [->|Hne]; [done|].
  destruct (Hlast Hne) as (e & x & He & Hx & Ht). rewrite last_lookup in He.
  assert (HP' : (P ++ es) !! pred (length P) = Some e).
  { rewrite lookup_app_l; [done|]. by eapply lookup_lt_Some. }
  pose proof (h_match _ _ HK _ _ Hl HP _ _ _ Hx HP' Ht) as H.
  apply lookup_lt_Some in He. replace (S (pred (length P))) with (length P) in H by lia.
  by rewrite take_app_length in H.
Qed.

Lemma reconcile_history K c P es l :
  histories K c -> K l -> K (P ++ es) -> (length P <= length l)%nat ->
  take (length P) l = P -> K (reconcile (length P) es l).
Proof.
  intros HK Hl HP Hlen Hpre. unfold reconcile.
  destruct (Nat.eqb_spec (agreeing es (drop (length P) l)) (length es)) as [He|He]; [done|].
  set (k := agreeing es (drop (length P) l)) in *.
  assert (take (length P + k) l = P ++ take k es) as ->.
  { destruct k as [|j] eqn:Ek; [by rewrite Nat.add_0_r, Hpre, take_0, app_nil_r|].
    pose proof (agreeing_lookup es (drop (length P) l) j) as Hj.
    rewrite lookup_drop in Hj. specialize (Hj ltac:(subst k; lia)).
    pose proof (agreeing_le es (drop (length P) l)).
    destruct (lookup_lt_is_Some_2 es j) as [e Hje]; [subst k; lia|].
    rewrite Hje in Hj. destruct (l !! (length P + j)%nat) as [x|] eqn:Hx; [|done].
    assert (HP' : (P ++ es) !! (length P + j)%nat = Some e).
    { by rewrite lookup_app_r, Nat.add_sub_swap, Nat.sub_diag by lia. }
    pose proof (h_match _ _ HK _ _ Hl HP _ _ _ Hx HP' ltac:(by injection Hj)) as H'.
    replace (length P + S j)%nat with (S (length P + j)) by lia.
    rewrite H', take_app, take_ge by lia. do 2 f_equal. lia. }
  by rewrite <- app_assoc, take_drop.
Qed.

Lemma catch_up_log t r : log (catch_up t r) = log r.
Proof. unfold catch_up. case_match; by raft_simpl. Qed.

Lemma handleAppendEntries_log K c n src dst ref now req r :
  histories K c -> node_log K c n r -> log_message_ok K (MAppend src dst ref req) ->
  K (log (handleAppendEntries now req r).2).
Proof.
  intros HK Hn Hm. pose proof (nl_log _ _ _ _ Hn) as Hl.
  unfold handleAppendEntries. fold (catch_up (ae_term req) r).
  pose proof (catch_up_log (ae_term req) r) as El.
  set (r0 := catch_up (ae_term req) r) in *. clearbody r0.
  destruct (ae_term req <? _); [cbn; by rewrite El|].
  set (r1 := if bool_decide _ then _ else _).
  assert (El1 : log r1 = log r) by (subst r1; case_bool_decide; raft_simpl; by rewrite El).
  clearbody r1. destruct (prevOk r1 req) eqn:Ep; simpl; [|by rewrite El1].
  assert (Hgoal : K (appendLoop (ae_prevLogIndex req) (ae_entries req) (log r1))).
  { rewrite El1. destruct Hm as [->|(P & HP & Hpi & Hlast)]; [done|].
    pose proof (prevOk_bound r1 req) as Hb. rewrite Hpi, El1, Nat2Z.id in Hb.
    specialize (Hb ltac:(lia) Ep). rewrite Hpi, appendLoop_reconcile by done.
    eapply reconcile_history; [done..|]. eapply prefix_agrees; [done..|].
    intros Hne. destruct (Hlast Hne) as (e & He & Ht).
    unfold prevOk in Ep. rewrite Hpi, El1 in Ep. destruct P; [done|].
    rewrite (proj2 (Z.ltb_lt 0 _)) in Ep by (simpl; lia).
    match type of Ep with context [js_at _ ?i] =>
      replace i with (Z.of_nat (pred (length (l :: P)))) in Ep by (simpl; lia) end.
    rewrite js_at_nat in Ep. destruct (log r !! _) as [x|] eqn:Ex; [|done].
    prop_of_bool. exists e, x. split_and!; [done|done|congruence]. }
  destruct (_ <? ae_leaderCommit req); raft_simpl; done.
Qed.

(** ** Every step *)

Lemma next_ok_map f r r' :
  peers r' = jm_map f (peers r) ->
  (forall p, 1 <= p_nextIndex p -> 1 <= p_nextIndex (f p)) -> next_ok r -> next_ok r'.
Proof.
  unfold next_ok, getPeers. intros -> Hf H. rewrite jm_values_map, Forall_fmap.
  eapply Forall_impl; [exact H|]. exact Hf.
Qed.

Lemma becomeFollower_node_log K c n t r :
  node_log K c n r -> node_log K c n (becomeFollower t r).
Proof.
  intros Hn. eapply node_log_demoted; [|raft_simpl; apply Hn|exact Hn].
  split; [by raft_simpl|right; by raft_simpl].
Qed.

Lemma replicateToPeer_reply_log K c n ref resp r :
  0 <= ar_matchIndex resp -> node_log K c n r ->
  node_log K c n (replicateToPeer_reply ref (Some resp) r).
Proof.
  intros Hm Hn. unfold replicateToPeer_reply.
  destruct (_ <? _); [by apply becomeFollower_node_log|].
  destruct (ar_success resp).
  all: apply (node_log_demoted K c n r); [split; [done|by left]| |exact Hn].
  all: eapply next_ok_map; [done| |apply Hn].
  all: intros p Hp; cbn beta; case_match; cbn; lia.
Qed.

Lemma getLastLogIndex_nonneg r : log_wf (log r) -> 0 <= getLastLogIndex r.
Proof. intros H. rewrite getLastLogIndex_wf by done. unfold js_length. lia. Qed.

Lemma handleAppendEntries_match now req r :
  log_wf (log (handleAppendEntries now req r).2) ->
  0 <= ar_matchIndex (handleAppendEntries now req r).1.
Proof.
  unfold handleAppendEntries. intros Hwf.
  set (r0 := if _ <? _ then becomeFollower _ _ else _) in *. clearbody r0.
  destruct (ae_term req <? _); [done|].
  set (r1 := if bool_decide _ then _ else _) in *. clearbody r1.
  destruct (negb (prevOk r1 req)); [done|]. cbn in *. by apply getLastLogIndex_nonneg.
Qed.

Lemma handleRequestVote_log K c n req r :
  node_log K c n r -> node_log K c n (handleRequestVote req r).2.
Proof.
  intros Hn. pose proof (handleRequestVote_cases req r) as Hc.
  destruct (handleRequestVote req r) as [resp r'] eqn:E. cbn.
  assert (H1 : node_log K c n (catch_up (rv_term req) r)).
  { unfold catch_up. case_match; [by apply becomeFollower_node_log|done]. }
  destruct Hc as [[_ ->]|(_ & _ & _ & _ & _ & Hq)]; [done|].
  eapply node_log_demoted; [| |exact H1].
  - split; [apply (q_log _ _ Hq)|left; split; [apply (q_state _ _ Hq)|apply (q_term _ _ Hq)]].
  - assert (peers r' = peers r) as Hp.
    { unfold handleRequestVote in E. repeat case_match; simplify_eq; raft_simpl; done. }
    unfold next_ok, getPeers. rewrite Hp. apply Hn.
Qed.

Lemma handleAppendEntries_peers now req r :
  peers (handleAppendEntries now req r).2 = peers r.
Proof.
  unfold handleAppendEntries. repeat case_match; simplify_eq; raft_simpl; done.
Qed.

Lemma handleAppendEntries_node_log V K c n src ref now req r :
  inv V c -> histories K c -> nodes c !! n = Some r -> MAppend src n ref req ∈ net c ->
  log_message_ok K (MAppend src n ref req) -> node_log K c n r ->
  node_log K c n (handleAppendEntries now req r).2.
Proof.
  intros I HK Er Hm Hok Hn.
  pose proof (handleAppendEntries_log K c n src n ref now req r HK Hn Hok) as Hl.
  assert (Hx : next_ok (handleAppendEntries now req r).2).
  { unfold next_ok, getPeers. rewrite handleAppendEntries_peers. apply Hn. }
  assert (H1 : node_log K c n (catch_up (ae_term req) r)).
  { unfold catch_up. case_match; [by apply becomeFollower_node_log|done]. }
  destruct (handleAppendEntries_shape now req r) as [Hq|[Ht Hq]].
  { eapply node_log_quiet; [done| |done]. rewrite handleAppendEntries_peers.
    unfold catch_up. case_match; by raft_simpl. }
  pose proof (q_state _ _ Hq) as Qs. pose proof (q_term _ _ Hq) as Qt. cbn in Qs, Qt.
  split; [done|done| |].
  - rewrite Qs. intros Hld. exfalso.
    pose proof (i_dynamic _ _ I n r Er) as Dn.
    destruct (catch_up_dynamic c n (ae_term req) r Dn) as [_ D1].
    pose proof (nd_leader _ _ _ D1 Hld) as Hw. rewrite <- Ht in Hw.
    pose proof (proj1 (Forall_forall _ _) (i_messages _ _ I) _ Hm) as (Hne & Hw' & _).
    apply Hne. by eapply won_unique.
  - rewrite Qs, Qt. apply H1.
Qed.

Lemma becomeLeader_peers r :
  peers (becomeLeader r).1 =
    jm_map (fun p => p <| p_nextIndex := getLastLogIndex r + 1 |> <| p_matchIndex := 0 |>) (peers r).
Proof. unfold becomeLeader, appendEntry, isLeader. by raft_simpl. Qed.

(** The invariant of a cluster unpacked, for the cases of [exec_log_inv]. *)
Section step.
Context (V : gset string) (c c' : Cluster D) (K : list (LogEntry D) -> Prop).
Hypothesis I : inv V c.
Hypothesis I' : inv V c'.
Hypothesis HK : histories K c.
Hypothesis Hnodes : map_Forall (node_log K c) (nodes c).
Hypothesis Hnet : Forall (log_message_ok K) (net c).

Lemma put_log n r r' :
  c' = put_node n r' c -> nodes c !! n = Some r -> node_log K c n r' -> log_inv c'.
Proof.
  intros -> Hn Hr'. eapply (log_step V K K c _ n r' []); try done.
  - by rewrite app_nil_r.
  - by apply (histories_won K c).
  - intros l i e Hl Hi. left. eauto.
  - by destruct Hr'.
Qed.

Lemma put_log_quiet n r r' :
  c' = put_node n r' c -> nodes c !! n = Some r -> quiet r r' -> peers r' = peers r ->
  log_inv c'.
Proof.
  intros Hc Hn Hq Hp. eapply put_log; [done..|].
  eapply node_log_quiet; [done..|]. by apply Hnodes.
Qed.

Lemma launch_log n r r' el :
  c' = launch n r' el c -> nodes c !! n = Some r -> candidacy r r' el ->
  peers r' = peers r -> log_inv c'.
Proof.
  intros -> Hn Hc Hp. eapply (log_step V K K c _ n r' _); try done.
  - intros m t _. by rewrite won_launch.
  - intros m t. by rewrite won_launch.
  - eapply histories_won, HK. intros m t. by rewrite won_launch.
  - intros l i e Hl Hi. left. eauto.
  - split; rewrite ?(cd_log _ _ _ Hc), ?(cd_state _ _ _ Hc); try done.
    + by apply (Hnodes n r).
    + unfold next_ok, getPeers. rewrite Hp. by apply (Hnodes n r).
    + intros _ Hw%won_launch%won_voted.
      apply (nd_voted _ _ _ (i_dynamic _ _ I n r Hn)) in Hw as [Hle _].
      rewrite (cd_term _ _ _ Hc) in Hle. lia.
  - rewrite Forall_fmap. by apply Forall_true.
Qed.

Lemma settle_log el voter resp : settle el voter resp c = Some c' -> log_inv c'.
Proof.
  unfold settle. intros (ce & Hel & H)%bind_Some. apply bind_Some in H as (r & Hn & H).
  case_bool_decide as Hc; [|done]. destruct Hc as (Hst & _ & _).
  destruct (startElection_reply resp r) as [r' b] eqn:Er. injection H as <-.
  assert (Hr' : node_log K c (ce_node ce) r').
  { unfold startElection_reply in Er. pose proof (Hnodes _ _ Hn).
    repeat case_match; simplify_eq; [by apply becomeFollower_node_log|done..]. }
  eapply (log_step V K K c _ (ce_node ce) r' []); try done.
  - by rewrite app_nil_r.
  - intros m t _. rewrite progress_won by done. cbn. rewrite Hst. naive_solver.
  - intros m t. rewrite progress_won by done. naive_solver.
  - eapply histories_won, HK. intros m t. rewrite progress_won by done. naive_solver.
  - intros l i e Hl Hi. left. eauto.
  - destruct Hr' as [L1 L2 L3 L4]. split; try done.
    rewrite progress_won by done. cbn. rewrite Hst. naive_solver.
Qed.

Lemma finish_over_log el ce r :
  elections c !! el = Some ce -> ce_status ce = el_running -> nodes c !! ce_node ce = Some r ->
  c' = send (append_messages (ce_node ce) [])
         (update_election el (ce <| ce_status := el_over |>) (put_node (ce_node ce) r c)) ->
  log_inv c'.
Proof.
  intros Hel Hst Hn ->.
  assert (Hw : forall m t, won (update_election el (ce <| ce_status := el_over |>)
                                  (put_node (ce_node ce) r c)) m t <-> won c m t).
  { intros m t. rewrite progress_won by done. cbn. naive_solver. }
  eapply (log_step V K K c _ (ce_node ce) r []); try done.
  - intros m t _. apply Hw.
  - intros m t. apply Hw.
  - eapply histories_won, HK. intros m t. apply Hw.
  - intros l i e Hl Hi. left. eauto.
  - destruct (Hnodes _ _ Hn) as [L1 L2 L3 L4]. split; try done.
    intros Hc Hwn. by apply (L4 Hc), Hw.
Qed.

Lemma finish_log el : regular (LFinish el) c -> finish el c = Some c' -> log_inv c'.
Proof.
  intros Hreg. unfold finish. intros (ce & Hel & H)%bind_Some.
  apply bind_Some in H as (r & Hn & H). case_bool_decide as Hc; [|done].
  destruct Hc as (Hst & _). specialize (Hreg ce r Hel Hn).
  unfold finishElection in H. destruct (state r) eqn:Es.
  1,3: rewrite andb_negb_l in H; injection H as H; by eapply finish_over_log.
  destruct (_ <=? _).
  2: { unfold isLeader in H. rewrite Es in H. injection H as H. by eapply finish_over_log. }
  pose proof (becomeLeader_peers r) as Hp.
  destruct (becomeLeader_shape r) as (e & He & Hi & _ & Hld & Ht & _ & Hl & Hcalls).
  destruct (becomeLeader r) as [r' calls]. cbn in *. unfold isLeader in H.
  rewrite Es, Hld in H. cbn in H. injection H as H. subst calls.
  assert (Hwin : forall m t, won c' m t <-> won c m t \/ m = ce_node ce /\ t = ce_term ce).
  { intros m t. rewrite <- H. etrans; [apply (progress_won c el ce); done|]. cbn. naive_solver. }
  assert (En : nodes c' = <[ce_node ce := r']> (nodes c)) by (by rewrite <- H).
  assert (Em : net c' = net c ++ append_messages (ce_node ce) (replicateToFollowers r'))
    by (by rewrite <- H).
  eapply (extend_step V K c c' (ce_node ce) r r' e); try done.
  - intros m t Hne [?|[? _]]%Hwin; done.
  - intros m t ?. apply Hwin. by left.
  - congruence.
  - eapply next_ok_map; [exact Hp| |by apply (Hnodes _ _ Hn)].
    intros p _. cbn. pose proof (getLastLogIndex_nonneg r) as H0. specialize (H0
      (h_wf _ _ HK _ (nl_log _ _ _ _ (Hnodes _ _ Hn)))). lia.
  - intros l i x HKl Hx Htx. destruct (h_won _ _ HK _ _ _ HKl Hx) as [m Hm].
    destruct (nl_candidate _ _ _ _ (Hnodes _ _ Hn) Es). rewrite <- He, <- Htx.
    rewrite (won_unique V c' (ce_node ce) m (term x)); [done|done| |].
    + apply Hwin. right. split; [done|congruence].
    + apply Hwin. by left.
Qed.

Lemma append_log n r ty d :
  nodes c !! n = Some r ->
  (let '(_, r', calls) := appendEntry ty d r in
   c' = send (append_messages n calls) (put_node n r' c)) -> log_inv c'.
Proof.
  intros Hn. unfold appendEntry, isLeader. case_bool_decide as E; simpl; intros Hc.
  - assert (Hw : forall m t, won c' m t <-> won c m t) by (by rewrite Hc).
    set (e := mkLogEntry (currentTerm r) (getLastLogIndex r + 1) ty d) in *.
    eapply (extend_step V K c c' n r (r <| log := log r ++ [e] |>) e);
      [done..|by rewrite Hc|by rewrite Hc| | |done|done|done|done| | |done].
    + intros m t _. apply Hw.
    + intros m t. apply Hw.
    + by apply (Hnodes n r).
    + by apply (Hnodes n r).
  - rewrite Hc. eapply (demoted_step V K c n r); rewrite <- ?Hc; [done..| |constructor].
    by apply (Hnodes n r).
Qed.

Lemma deliver_log m now : m ∈ net c -> deliver m now c = Some c' -> log_inv c'.
Proof.
  intros Hm. pose proof (proj1 (Forall_forall _ _) Hnet _ Hm) as Hok.
  destruct m as [el src dst req|el src dst resp|src dst ref req|src dst ref resp]; simpl.
  - intros (r & Hn & H)%bind_Some.
    pose proof (handleRequestVote_log K c dst req r (Hnodes _ _ Hn)) as Hl.
    destruct (handleRequestVote req r) as [resp r']. injection H as <-.
    eapply (demoted_step V K); [done..|by repeat constructor].
  - by apply settle_log.
  - intros (r & Hn & H)%bind_Some.
    pose proof (handleAppendEntries_node_log V K c dst src ref now req r I HK Hn Hm Hok
                  (Hnodes _ _ Hn)) as Hl.
    pose proof (handleAppendEntries_match now req r
                  (h_wf _ _ HK _ (nl_log _ _ _ _ Hl))) as Hmi.
    destruct (handleAppendEntries now req r) as [resp r']. injection H as <-.
    eapply (demoted_step V K); [done..|by repeat constructor].
  - intros (r & Hn & H)%bind_Some. injection H as H.
    eapply put_log; [by symmetry|done|]. apply replicateToPeer_reply_log; [done|].
    by apply Hnodes.
Qed.
End step.

Lemma resetElectionTimeout_peers r : peers (resetElectionTimeout r) = peers r.
Proof. by rewrite resetElectionTimeout_eq. Qed.

Lemma stepDown_node_log K c n r : node_log K c n r -> node_log K c n (stepDown r).2.
Proof.
  intros Hn. unfold stepDown, isLeader. case_bool_decide; simpl; [|done].
  apply (node_log_quiet K c n (becomeFollower (currentTerm r) r)); [apply quiet_reset| |].
  - apply resetElectionTimeout_peers.
  - by apply becomeFollower_node_log.
Qed.

Lemma updateCommitIndex_peers r : peers (updateCommitIndex r) = peers r.
Proof. unfold updateCommitIndex. repeat case_match; by raft_simpl. Qed.

Lemma resumeElections_peers r : peers (resumeElections r) = peers r.
Proof. unfold resumeElections. case_match; by raft_simpl. Qed.

Lemma trigger_peers r b r' el :
  triggerImmediateElection r = (b, r', Some el) -> peers r' = peers r.
Proof.
  unfold triggerImmediateElection, startElection.
  repeat case_match; intros; simplify_eq; by raft_simpl.
Qed.

Theorem exec_log_inv V c (lb : Label D) c' :
  inv V c -> log_inv c -> regular lb c -> exec lb c = Some c' -> log_inv c'.
Proof.
  intros I (K & HK & Hnodes & Hnet) Hreg Hx.
  pose proof (exec_inv V c lb c' I Hreg Hx) as I'. destruct lb; try done; simpl in Hx.
  3: apply bind_Some in Hx as (m & Hm & H); eapply (deliver_log V c c' K); try done;
     by eapply list_elem_of_lookup_2.
  3: by eapply (settle_log V c c' K).
  3: by eapply (finish_log V c c' K).
  all: apply bind_Some in Hx as (r & Hn & H).
  - unfold electionTimerFires in H. destruct (electionTimeout r); [|done].
    pose proof (clear_candidacy r) as Hc.
    destruct (running _ && _).
    + assert (Hp : peers (becomeCandidate (clearElectionTimeout r)).1 = peers r)
        by (unfold becomeCandidate, startElection; by raft_simpl).
      destruct (becomeCandidate _). injection H as H. by eapply (launch_log V c c' K).
    + injection H as H. by eapply (put_log_quiet V c c' K).
  - destruct (triggerImmediateElection r) as [[b r'] [el|]] eqn:E; injection H as H.
    + eapply (launch_log V c c' K); [done..|by symmetry|done| |].
      * by eapply trigger_candidacy.
      * by eapply trigger_peers.
    + unfold triggerImmediateElection, startElection in E.
      repeat case_match; simplify_eq;
        (eapply (put_log_quiet V c _ K); [done..|apply quiet_refl|done]).
  - destruct (heartbeatInterval r); [|done]. injection H as <-.
    assert (Hms : Forall (log_message_ok K) (append_messages n (heartbeatFires r))).
    { unfold heartbeatFires. destruct (isLeader r); [|constructor].
      apply (append_messages_log_ok K c); [done|by apply Hnodes]. }
    exists K. split; [by apply (histories_won K c)|]. split; [|by apply Forall_app].
    intros m s Hm. by destruct (Hnodes m s Hm).
  - apply (append_log V c c' K I I' HK Hnodes Hnet n r ty d Hn).
    destruct (appendEntry ty d r) as [[? ?] ?]. by injection H as <-.
  - injection H as H. eapply (put_log_quiet V c c' K); [done..|by symmetry|done| |].
    + apply quiet_commit.
    + apply updateCommitIndex_peers.
  - injection H as H. eapply (put_log V c c' K); [done..|by symmetry|done|].
    by apply stepDown_node_log, Hnodes.
  - injection H as H. by eapply (put_log_quiet V c c' K).
  - injection H as H. eapply (put_log_quiet V c c' K); [done..|by symmetry|done| |].
    + apply resume_quiet.
    + apply resumeElections_peers.
  - injection H as H. by eapply (put_log_quiet V c c' K).
  - injection H as H. by eapply (put_log_quiet V c c' K).
Qed.

Lemma initial_log_inv V c : initial V c -> log_inv c.
Proof.
  intros (Hnet & Hel & Hn). exists (fun l => l = []). split_and!.
  - split.
    + intros l1 l2 -> -> i e1 e2 ?. done.
    + intros l -> i e ?. done.
    + intros l m ->. apply take_nil.
    + intros l i e -> ?. done.
  - intros n r H. destruct (Hn n r H) as [_ _ _ _ _ Hx Hs _ Hl].
    split; rewrite ?Hs; done.
  - by rewrite Hnet.
Qed.

Lemma reachable_log_inv V c : reachable V c -> log_inv c.
Proof.
  induction 1; [by eapply initial_log_inv|].
  eapply exec_log_inv; try done. by apply reachable_inv.
Qed.
End matching.
