(* ===== verification/RaftSafety.v ===== *)
(** * Safety of a cluster, and executions

    The safety theorems of the cluster model, and an executable check of a
    schedule ([run_regular]) by which concrete executions are shown reachable.
    The last section has three executions outside the hypotheses of election
    safety, or beyond what the commit rule guarantees. *)

From S2P Require Import Prelude JsMap Raft RaftLog RaftCluster RaftElection RaftMatching.

Section schedules.
Context {D : Type} `{!EmptyBuffer D}.

(** Boolean version of [regular]. *)
Definition regularb (l : Label D) (c : Cluster D) : bool :=
  match l with
  | LStart _ | LRestart _ | LAddPeer _ _ _ _ | LRemovePeer _ _ => false
  | LFinish el =>
      match elections c !! el with
      | Some ce =>
          match nodes c !! ce_node ce with
          | Some r => currentTerm r =? ce_term ce
          | None => true
          end
      | None => true
      end
  | _ => true
  end.

(** [run] along regular steps only. *)
Fixpoint run_regular (ls : list (Label D)) (c : Cluster D) : option (Cluster D) :=
  match ls with
  | [] => Some c
  | l :: ls => if regularb l c then c' ← exec l c; run_regular ls c' else None
  end.

Lemma regularb_spec l c : regularb l c = true -> regular l c.
Proof.
  destruct l; simpl; try done. intros H ce r Hce Hr. rewrite Hce, Hr in H. by apply Z.eqb_eq.
Qed.

Lemma run_regular_reachable V ls c c' :
  reachable V c -> run_regular ls c = Some c' -> reachable V c'.
Proof.
  revert c. induction ls as [|l ls IH]; simpl; intros c Hc H; [by simplify_eq|].
  destruct (regularb l c) eqn:E; [|done]. apply bind_Some in H as (c1 & H1 & H).
  eapply IH; [|exact H]. eapply reachable_step; [done|by apply regularb_spec|done].
Qed.
End schedules.

(** ** A cluster of three *)

Definition three : gset string := {["a"; "b"; "c"]}.

(** A node that has joined the two others and was started. *)
Definition fresh_node (batch : option Z) (n p q : string) : RaftNode string :=
  start (addPeer q "10.0.0.2:50051" true (addPeer p "10.0.0.1:50051" true
    (new_RaftNode (mkRaftConfig n batch false (Some "/var/lib/cortex")) file_missing true))).

Definition cluster3 (batch : option Z) : Cluster string :=
  mkCluster {["a" := fresh_node batch "a" "b" "c";
              "b" := fresh_node batch "b" "a" "c";
              "c" := fresh_node batch "c" "a" "b"]} [] [].

Lemma cluster3_initial batch : reachable three (cluster3 batch).
Proof.
  apply reachable_initial. split; [done|]. split; [done|].
  unfold cluster3. cbn [nodes].
  repeat apply map_Forall_insert_2; [..|apply map_Forall_empty];
    (split; [reflexivity|by apply (bool_decide_unpack _)|by apply (bool_decide_unpack _)
            |reflexivity|by apply (bool_decide_unpack _)|by apply (bool_decide_unpack _)
            |reflexivity|by apply Z.leb_le|reflexivity]).
Qed.

(** Node a is elected by b, sends its no-op to b and appends a task. *)
Definition elect_a : list (Label string) :=
  [LTimeout "a"; LDeliver 0 10; LDeliver 2 11; LVoteCallFails 0 "c"; LFinish 0;
   LDeliver 3 12; LAppend "a" task_submit "t1"].

(** C1: election safety.  In every execution with a fixed membership, without
    restarts, in which each election is concluded in the term it was started in,
    two leaders of the same term are the same node. *)
Theorem election_safety {D} `{!EmptyBuffer D} (V : gset string) (c : Cluster D) n1 n2 r1 r2 :
  reachable V c -> nodes c !! n1 = Some r1 -> nodes c !! n2 = Some r2 ->
  state r1 = leader -> state r2 = leader -> currentTerm r1 = currentTerm r2 -> n1 = n2.
Proof.
  intros Hc%reachable_inv H1 H2 L1 L2 Ht.
  eapply (won_unique V c); [done|by apply (i_dynamic _ _ Hc n1 r1 H1)|].
  rewrite Ht. by apply (i_dynamic _ _ Hc n2 r2 H2).
Qed.

Lemma election_safety_witness :
  match run_regular elect_a (cluster3 None) with
  | Some c =>
      (exists r, nodes c !! "a" = Some r /\ state r = leader /\ currentTerm r = 1) /\
      (forall n r, nodes c !! n = Some r -> state r = leader -> currentTerm r = 1 -> n = "a")
  | None => False
  end.
Proof.
  destruct (run_regular elect_a (cluster3 None)) as [c|] eqn:E.
  - assert (Hr : reachable three c)
      by (eapply run_regular_reachable; [apply cluster3_initial|exact E]).
    assert (Ha : exists r, nodes c !! "a" = Some r /\ state r = leader /\ currentTerm r = 1).
    { vm_compute in E. injection E as <-. eexists. split; [reflexivity|]. by split. }
    split; [exact Ha|]. intros n r Hn Hl Ht. destruct Ha as (ra & Ha & La & Ta).
    apply (election_safety three c n "a" r ra Hr Hn Ha Hl La). congruence.
  - vm_compute in E. discriminate E.
Defined.

(** C2: log matching.  In the same executions, if the logs of two nodes hold an
    entry of the same term at some position, they hold the same entries up to
    that position. *)
Theorem log_matching {D} `{!EmptyBuffer D} (V : gset string) (c : Cluster D) n1 n2 r1 r2 i e1 e2 :
  reachable V c -> nodes c !! n1 = Some r1 -> nodes c !! n2 = Some r2 ->
  log r1 !! i = Some e1 -> log r2 !! i = Some e2 -> term e1 = term e2 ->
  take (S i) (log r1) = take (S i) (log r2).
Proof.
  intros (K & HK & Hn & _)%reachable_log_inv H1 H2 L1 L2 Ht.
  eapply (h_match _ _ HK); [by apply (Hn n1 r1)|by apply (Hn n2 r2)|done..].
Qed.

Lemma log_matching_witness :
  match run_regular elect_a (cluster3 None) with
  | Some c => (fun r => take 1 (log r)) <$> (nodes c !! "a") = (fun r => take 1 (log r)) <$> (nodes c !! "b")
  | None => False
  end.
Proof.
  destruct (run_regular elect_a (cluster3 None)) as [c|] eqn:E.
  - assert (Hr : reachable three c)
      by (eapply run_regular_reachable; [apply cluster3_initial|exact E]).
    destruct (nodes c !! "a") as [ra|] eqn:Ea; [|vm_compute in E; injection E as <-; discriminate Ea].
    destruct (nodes c !! "b") as [rb|] eqn:Eb; [|vm_compute in E; injection E as <-; discriminate Eb].
    simpl. f_equal.
    assert (La : log ra !! 0%nat = Some (mkLogEntry 1 1 noop ""))
      by (vm_compute in E; injection E as <-; vm_compute in Ea; by injection Ea as <-).
    assert (Lb : log rb !! 0%nat = Some (mkLogEntry 1 1 noop ""))
      by (vm_compute in E; injection E as <-; vm_compute in Eb; by injection Eb as <-).
    exact (log_matching three c "a" "b" ra rb 0 _ _ Hr Ea Eb La Lb eq_refl).
  - vm_compute in E. discriminate E.
Defined.

(** ** Executions that the hypotheses exclude *)

(** Node b votes for a, restarts and is asked by c for its vote in the same
    term. *)
Definition restart_schedule : list (Label string) :=
  [LTimeout "a"; LDeliver 0 1; LDeliver 2 2; LVoteCallFails 0 "c"; LFinish 0;
   LRestart "b";
   LTimeout "c"; LDeliver 6 3; LDeliver 7 4; LVoteCallFails 1 "a"; LFinish 1].

(** A restarted voter forgets its vote, although the state file keeps it.
    [start] calls [becomeFollower], which clears the [votedFor] that [loadState]
    has just read; so in a cluster of three whose state files can be written, b
    votes for a, restarts and votes for c in the same term, and both lead
    term 1. *)
Theorem restart_two_leaders :
  (fun c => (fun r => (state r, currentTerm r)) <$> nodes c) <$> run restart_schedule (cluster3 None)
  = Some {["a" := (leader, 1); "b" := (follower, 1); "c" := (leader, 1)]}.
Proof. vm_compute. reflexivity. Qed.

(** An election that ends late is counted for the node's current term: a has
    gone on to term 2 when the election of term 1 concludes, and leads term 2,
    in which nobody voted for it and b is elected by c. *)
Definition stale_election_schedule : list (Label string) :=
  [LTimeout "a"; LDeliver 0 1; LDeliver 2 2; LTimeout "a"; LVoteCallFails 0 "c"; LFinish 0;
   LTimeout "b"; LDeliver 8 3; LDeliver 9 4; LVoteCallFails 2 "a"; LFinish 2].

Theorem stale_election_two_leaders :
  (fun c => (fun r => (state r, currentTerm r)) <$> nodes c)
    <$> run stale_election_schedule (cluster3 None)
  = Some {["a" := (leader, 2); "b" := (leader, 2); "c" := (follower, 2)]}.
Proof. vm_compute. reflexivity. Qed.

(** A follower reports the index of its own last entry, verified or not.  Two
    refused requests in flight move [nextIndex] below the point where the logs
    part, the next batch (of one entry) ends before it, and the leader counts the
    follower's stale tail as replicated: b commits three entries of which the
    last two are on no other node, and a, without them, leads the next term. *)
Definition stale_tail_schedule : list (Label string) :=
  [LTimeout "a"; LDeliver 0 1; LDeliver 2 2; LVoteCallFails 0 "c"; LFinish 0;
   LDeliver 3 3; LAppend "a" task_submit "s2"; LAppend "a" task_submit "s3";
   LTimeout "b"; LDeliver 11 4; LDeliver 12 5; LVoteCallFails 1 "a"; LFinish 1;
   LStepDown "b"; LTimeout "b"; LDeliver 16 6; LDeliver 17 6; LVoteCallFails 2 "a"; LFinish 2;
   LHeartbeat "b"; LDeliver 18 7; LDeliver 20 8; LDeliver 22 9; LDeliver 23 10;
   LHeartbeat "b"; LDeliver 24 11; LDeliver 26 12; LCommit "b";
   LTimeout "a"; LDeliver 28 13; LDeliver 29 14; LVoteCallFails 3 "b"; LFinish 3].

Theorem stale_tail_commit :
  (fun c => (fun r => (state r, currentTerm r, commitIndex r, term <$> log r)) <$> nodes c)
    <$> run_regular stale_tail_schedule (cluster3 (Some 1))
  = Some {["a" := (leader, 4, 0, [1; 1; 1; 4]); "b" := (leader, 3, 3, [1; 2; 3]);
           "c" := (follower, 4, 0, [])]}.
Proof. vm_compute. reflexivity. Qed.
