(* ===== verification/RaftProps.v ===== *)
(** * What each Raft operation guarantees

    The contract of the operations of one node: the log update of AppendEntries,
    the commit rule, the hand-over of committed entries, votes, terms and the
    state file. *)

From S2P Require Import Prelude JsMap Raft RaftLog RaftCluster RaftElection.

Section contracts.
Context {D : Type} `{!EmptyBuffer D}.
Implicit Types (r : RaftNode D) (req : AppendEntriesRequest D).

(** The events of a hand-over of entries to the listeners. *)
Definition commits (es : list (LogEntry D)) : list (RaftEvent D) := ev_entryCommitted <$> es.

(** The entry events of a trace. *)
Definition committed_events (evs : list (RaftEvent D)) : list (LogEntry D) :=
  omap (fun ev => match ev with ev_entryCommitted e => Some e | _ => None end) evs.

Lemma committed_events_app evs1 evs2 :
  committed_events (evs1 ++ evs2) = committed_events evs1 ++ committed_events evs2.
Proof. apply omap_app. Qed.

Lemma committed_events_commits es : committed_events (commits es) = es.
Proof. induction es as [|e es IH]; [done|]. cbn. f_equal. exact IH. Qed.

Lemma committed_events_follower t r :
  committed_events (emitted (becomeFollower t r)) = committed_events (emitted r).
Proof. raft_simpl. rewrite committed_events_app. cbn. apply app_nil_r. Qed.

Lemma catch_up_fields t r :
  log (catch_up t r) = log r /\ commitIndex (catch_up t r) = commitIndex r /\
  lastApplied (catch_up t r) = lastApplied r /\
  committed_events (emitted (catch_up t r)) = committed_events (emitted r).
Proof.
  unfold catch_up. case_match; [|done].
  split_and!; [by raft_simpl..|apply committed_events_follower].
Qed.

(** The node once AppendEntries has recorded the leader. *)
Definition hear_leader (now : Z) req r : RaftNode D :=
  let r1 := resetElectionTimeout
              (r <| leaderId := Some (ae_leaderId req) |> <| lastAppendEntriesAt := now |>) in
  if bool_decide (leaderId r = Some (ae_leaderId req)) then r1
  else emit (ev_leaderChanged (ae_leaderId req)) r1.

Lemma hear_leader_fields now req r :
  log (hear_leader now req r) = log r /\ commitIndex (hear_leader now req r) = commitIndex r /\
  lastApplied (hear_leader now req r) = lastApplied r /\
  currentTerm (hear_leader now req r) = currentTerm r /\
  committed_events (emitted (hear_leader now req r)) = committed_events (emitted r).
Proof.
  unfold hear_leader. case_bool_decide; raft_simpl; split_and!; try done.
  rewrite committed_events_app. apply app_nil_r.
Qed.

(** What an accepted request does to the node. *)
Record accepted req r (resp : AppendEntriesResponse) r' : Prop := {
  ac_log : log r' = reconcile (Z.to_nat (ae_prevLogIndex req)) (ae_entries req) (log r);
  ac_commit : commitIndex r' =
    if commitIndex r <? ae_leaderCommit req
    then Z.min (ae_leaderCommit req) (getLastLogIndex r') else commitIndex r;
  ac_match : ar_matchIndex resp = getLastLogIndex r';
  ac_applied : lastApplied r' =
    if commitIndex r <? ae_leaderCommit req
    then Z.max (lastApplied r) (commitIndex r') else lastApplied r;
  ac_events : committed_events (emitted r') =
    committed_events (emitted r) ++
    if commitIndex r <? ae_leaderCommit req
    then logRange (log r') (lastApplied r) (commitIndex r') else []
}.

Lemma accept_lemma now req r0 :
  0 <= ae_prevLogIndex req -> prevOk r0 req = true ->
  let r := hear_leader now req r0 in
  let r1 := r <| log := appendLoop (ae_prevLogIndex req) (ae_entries req) (log r) |> in
  let r2 := if commitIndex r1 <? ae_leaderCommit req
            then applyCommittedEntries
                   (r1 <| commitIndex := Z.min (ae_leaderCommit req) (getLastLogIndex r1) |>)
            else r1 in
  accepted req r0 (mkAppendResponse (currentTerm r2) true (getLastLogIndex r2)) r2.
Proof.
  intros H0 Hp. pose proof (prevOk_bound r0 req H0 Hp) as Hb. cbn zeta.
  destruct (hear_leader_fields now req r0) as (El & Ec & Ea & _ & Ee).
  set (r := hear_leader now req r0) in *. clearbody r.
  rewrite <- (Z2Nat.id (ae_prevLogIndex req)), appendLoop_reconcile by (rewrite ?El; done).
  rewrite El. cbn. rewrite Ec.
  destruct (commitIndex r0 <? ae_leaderCommit req) eqn:E;
    (split; rewrite ?E, ?applyCommittedEntries_eq; cbn; try done).
  - by rewrite Ea.
  - rewrite committed_events_app. fold (commits (logRange
      (reconcile (Z.to_nat (ae_prevLogIndex req)) (ae_entries req) (log r0))
      (lastApplied r) (Z.min (ae_leaderCommit req) (getLastLogIndex
        (r <| log := reconcile (Z.to_nat (ae_prevLogIndex req)) (ae_entries req) (log r0) |>))))).
    rewrite committed_events_commits. by rewrite Ee, Ea.
  - by rewrite app_nil_r.
Qed.

Lemma handleAppendEntries_unfold now req r :
  handleAppendEntries now req r =
    let r0 := catch_up (ae_term req) r in
    if ae_term req <? currentTerm r0 then (mkAppendResponse (currentTerm r0) false 0, r0)
    else
      let r := hear_leader now req r0 in
      if negb (prevOk r req) then (mkAppendResponse (currentTerm r) false 0, r)
      else
        let r1 := r <| log := appendLoop (ae_prevLogIndex req) (ae_entries req) (log r) |> in
        let r2 := if commitIndex r1 <? ae_leaderCommit req
                  then applyCommittedEntries
                         (r1 <| commitIndex := Z.min (ae_leaderCommit req) (getLastLogIndex r1) |>)
                  else r1 in
        (mkAppendResponse (currentTerm r2) true (getLastLogIndex r2), r2).
Proof. reflexivity. Qed.

Lemma prevOk_log r1 r2 req : log r1 = log r2 -> prevOk r1 req = prevOk r2 req.
Proof. unfold prevOk. by intros ->. Qed.

Lemma accepted_from r0 r req resp r' :
  log r0 = log r -> commitIndex r0 = commitIndex r -> lastApplied r0 = lastApplied r ->
  committed_events (emitted r0) = committed_events (emitted r) ->
  accepted req r0 resp r' -> accepted req r resp r'.
Proof.
  intros El Ec Ea Ee [A1 A2 A3 A4 A5]. rewrite El in A1. rewrite Ec in A2, A4, A5.
  rewrite Ea in A4, A5. rewrite Ee in A5. by split.
Qed.

(** An AppendEntries request on every branch. *)
Record refused r (resp : AppendEntriesResponse) r' : Prop := {
  rf_log : log r' = log r;
  rf_commit : commitIndex r' = commitIndex r;
  rf_applied : lastApplied r' = lastApplied r;
  rf_events : committed_events (emitted r') = committed_events (emitted r);
  rf_match : ar_matchIndex resp = 0
}.

Lemma applyCommittedEntries_term r : currentTerm (applyCommittedEntries r) = currentTerm r.
Proof. by rewrite applyCommittedEntries_eq. Qed.

Lemma applyCommittedEntries_leader r : leaderId (applyCommittedEntries r) = leaderId r.
Proof. by rewrite applyCommittedEntries_eq. Qed.

Lemma hear_leader_leader now req r : leaderId (hear_leader now req r) = Some (ae_leaderId req).
Proof. unfold hear_leader. case_bool_decide; by raft_simpl. Qed.

Lemma handleAppendEntries_spec now req r :
  0 <= ae_prevLogIndex req ->
  let '(resp, r') := handleAppendEntries now req r in
  (ae_term req < currentTerm r -> resp = mkAppendResponse (currentTerm r) false 0 /\ r' = r) /\
  (currentTerm r <= ae_term req ->
     ar_term resp = ae_term req /\ currentTerm r' = ae_term req /\
     leaderId r' = Some (ae_leaderId req) /\ ar_success resp = prevOk r req /\
     (if prevOk r req then accepted req r resp r' else refused r resp r')).
Proof.
  intros H0. rewrite handleAppendEntries_unfold. cbn zeta.
  pose proof (catch_up_term (ae_term req) r) as Et.
  destruct (catch_up_fields (ae_term req) r) as (El & Ec & Ea & Ee).
  destruct (_ <? currentTerm _) eqn:E; prop_of_bool.
  { assert (ae_term req < currentTerm r) by lia.
    unfold catch_up in *. rewrite (proj2 (Z.ltb_ge (currentTerm r) _)) by lia. split; [done|lia]. }
  set (r0 := catch_up (ae_term req) r) in *. clearbody r0.
  pose proof (hear_leader_fields now req r0) as (Hl & Hc & Ha & Ht & He).
  pose proof (hear_leader_leader now req r0) as Hld.
  pose proof (accept_lemma now req r0 H0) as Hacc. cbn zeta in Hacc.
  rewrite (prevOk_log (hear_leader now req r0) r req) by congruence.
  rewrite (prevOk_log r0 r req) in Hacc by done.
  set (r1 := hear_leader now req r0) in *. clearbody r1.
  destruct (prevOk r req); simpl.
  - split; [lia|]. intros _. split_and!; [..|eapply accepted_from; [done..|by apply Hacc]].
    all: destruct (_ <? ae_leaderCommit req);
      rewrite ?applyCommittedEntries_term, ?applyCommittedEntries_leader; cbn; try done; lia.
  - split; [lia|]. intros _. split_and!; [lia|lia|done|done|]. split; cbn; congruence.
Qed.

(** C4: AppendEntries on every branch.  A request of an old term changes
    nothing.  Otherwise the node is in the request's term and follows its
    sender; it accepts exactly when its log has the previous entry; a refused
    request leaves the log, the commit index and the state machine alone; an
    accepted one replaces the log by the reference reconciliation, advances
    [commitIndex] to at most the end of the log and hands exactly the newly
    committed entries to the listeners. *)
Theorem handleAppendEntries_contract now req r :
  0 <= ae_prevLogIndex req ->
  let '(resp, r') := handleAppendEntries now req r in
  (ae_term req < currentTerm r -> resp = mkAppendResponse (currentTerm r) false 0 /\ r' = r) /\
  (currentTerm r <= ae_term req ->
     ar_term resp = ae_term req /\ currentTerm r' = ae_term req /\
     leaderId r' = Some (ae_leaderId req) /\ ar_success resp = prevOk r req /\
     (if prevOk r req then accepted req r resp r' else refused r resp r')).
Proof. apply handleAppendEntries_spec. Qed.
End contracts.

#[global] Arguments committed_events {D} evs : simpl never.

(** A follower with entries of terms 1, 1, 2 (the last one not yet committed)
    that receives a conflicting entry of term 3. *)
Definition follower3 : RaftNode string :=
  (new_RaftNode (mkRaftConfig "b" None false None) file_missing true)
    <| log := [mkLogEntry 1 1 noop ""; mkLogEntry 1 2 task_submit "t1"; mkLogEntry 2 3 noop ""] |>
    <| currentTerm := 2 |> <| commitIndex := 1 |> <| lastApplied := 1 |>.

Definition append3 : AppendEntriesRequest string :=
  mkAppendEntries 3 "a" 2 1 [mkLogEntry 3 3 noop ""; mkLogEntry 3 4 task_submit "t2"] 3.

Lemma handleAppendEntries_contract_witness :
  accepted append3 follower3 (handleAppendEntries 7 append3 follower3).1
    (handleAppendEntries 7 append3 follower3).2 /\
  (term <$> log (handleAppendEntries 7 append3 follower3).2) = [1; 1; 3; 3] /\
  commitIndex (handleAppendEntries 7 append3 follower3).2 = 3.
Proof.
  pose proof (handleAppendEntries_contract 7 append3 follower3 ltac:(by vm_compute)) as H.
  split; [|split; reflexivity].
  destruct (handleAppendEntries 7 append3 follower3) as [resp r'].
  destruct H as [_ H]. apply H. by vm_compute.
Defined.

Section rules.
Context {D : Type} `{!EmptyBuffer D}.
Implicit Types (r : RaftNode D) (req : AppendEntriesRequest D).

Lemma logRange_empty (lg : list (LogEntry D)) a b : b <= a -> logRange lg a b = [].
Proof. intros. unfold logRange. by rewrite seqZ_nil by lia. Qed.

Lemma getLastLogIndex_log r1 r2 : log r1 = log r2 -> getLastLogIndex r1 = getLastLogIndex r2.
Proof. unfold getLastLogIndex. by intros ->. Qed.

(** The previous entry is still there after the update. *)
Lemma prevOk_accepted req r resp r' :
  0 <= ae_prevLogIndex req -> prevOk r req = true -> accepted req r resp r' ->
  prevOk r' req = true.
Proof.
  intros H0 Hp Ha. pose proof (prevOk_bound r req H0 Hp) as Hb. revert Hp.
  unfold prevOk. destruct (0 <? ae_prevLogIndex req) eqn:E; [|done]. prop_of_bool.
  replace (ae_prevLogIndex req - 1) with (Z.of_nat (pred (Z.to_nat (ae_prevLogIndex req)))) by lia.
  rewrite !js_at_nat, (ac_log _ _ _ _ Ha).
  rewrite <- (lookup_take_lt (reconcile _ _ _) (Z.to_nat (ae_prevLogIndex req))) by lia.
  rewrite reconcile_prefix by done. by rewrite lookup_take_lt by lia.
Qed.

(** A request delivered twice.  Handling an accepted request again leaves
    the log, the commit index, the applied index and the entries handed to
    the listeners as the first delivery left them. *)
Theorem handleAppendEntries_idempotent now1 now2 req r :
  0 <= ae_prevLogIndex req -> currentTerm r <= ae_term req -> prevOk r req = true ->
  let r1 := (handleAppendEntries now1 req r).2 in
  let r2 := (handleAppendEntries now2 req r1).2 in
  log r2 = log r1 /\ commitIndex r2 = commitIndex r1 /\ lastApplied r2 = lastApplied r1 /\
  committed_events (emitted r2) = committed_events (emitted r1).
Proof.
  intros H0 Ht Hp. cbn zeta. pose proof (handleAppendEntries_spec now1 req r H0) as H1.
  destruct (handleAppendEntries now1 req r) as [resp1 r1]. destruct H1 as [_ H1].
  destruct (H1 Ht) as (_ & Ht1 & _ & _ & A1). rewrite Hp in A1. cbn [snd].
  pose proof (prevOk_accepted _ _ _ _ H0 Hp A1) as Hp1.
  pose proof (handleAppendEntries_spec now2 req r1 H0) as H2.
  destruct (handleAppendEntries now2 req r1) as [resp2 r2]. destruct H2 as [_ H2].
  destruct (H2 ltac:(lia)) as (_ & _ & _ & _ & A2). rewrite Hp1 in A2. cbn [snd].
  pose proof (prevOk_bound r req H0 Hp) as Hb.
  assert (El : log r2 = log r1).
  { rewrite (ac_log _ _ _ _ A2), (ac_log _ _ _ _ A1). by apply reconcile_idem. }
  pose proof (ac_commit _ _ _ _ A1) as C1. pose proof (ac_commit _ _ _ _ A2) as C2.
  pose proof (ac_applied _ _ _ _ A1) as L1. pose proof (ac_applied _ _ _ _ A2) as L2.
  pose proof (ac_events _ _ _ _ A2) as E2.
  rewrite (getLastLogIndex_log r2 r1 El) in C2. rewrite El in E2. split; [done|].
  destruct (commitIndex r <? ae_leaderCommit req) eqn:B1, (commitIndex r1 <? ae_leaderCommit req) eqn:B2;
    prop_of_bool; try lia.
  - rewrite E2, logRange_empty, app_nil_r by lia. split_and!; [lia|lia|done].
  - by rewrite E2, app_nil_r.
  - by rewrite E2, app_nil_r.
Qed.

(** ** The commit rule *)

(** How many voters, the leader included, hold the log up to [n]. *)
Definition replicas r (n : Z) : Z := js_count (fun m => n <=? m) (matchIndices r).

(** [n] is on more than half of the voters. *)
Definition on_majority r (n : Z) : Prop := js_length (matchIndices r) < 2 * replicas r n.

Lemma replicas_sorted r n :
  replicas r n = Z.of_nat (length (filter (fun m => n <= m)
                   (js_sort (fun a b => b <=? a) (matchIndices r)))).
Proof.
  unfold replicas, js_count, js_length. f_equal.
  rewrite (js_sort_perm (fun a b => b <=? a) (matchIndices r)). f_equal.
  apply list_filter_iff. intros m. apply Z.leb_le.
Qed.

Lemma majorityMatch_spec r :
  exists m, majorityMatch r = Some m /\ on_majority r m /\
    forall n, on_majority r n -> n <= m.
Proof.
  unfold majorityMatch, on_majority.
  pose proof (js_sort_sorted (fun a b => b <=? a)) as Hs.
  specialize (Hs ltac:(intros x y; simpl; rewrite !Z.leb_le; lia)).
  specialize (Hs ltac:(intros x y z; simpl; rewrite !Z.leb_le; lia) (matchIndices r)).
  set (s := js_sort (fun a b => b <=? a) (matchIndices r)) in *.
  assert (Hlen : length s = length (matchIndices r)) by apply js_sort_length.
  set (k := length s `div` 2 : nat).
  assert (Hk : (k < length s)%nat).
  { apply Nat.div_lt; [|lia]. rewrite Hlen. unfold matchIndices. simpl. lia. }
  destruct (lookup_lt_is_Some_2 s k Hk) as [m Hm]. exists m.
  replace (js_length s / 2) with (Z.of_nat k)
    by (unfold k, js_length; by rewrite Nat2Z.inj_div).
  rewrite js_at_nat. split; [done|]. unfold js_length. rewrite <- Hlen.
  pose proof (Nat.div_mod (length s) 2 ltac:(lia)).
  pose proof (Nat.mod_upper_bound (length s) 2 ltac:(lia)). fold k in H.
  pose proof (replicas_sorted r) as Hrep. fold s in Hrep. clearbody k s. split.
  - rewrite Hrep. assert (k < length (filter (fun x => (m <= x)%Z) s))%nat
      by exact (sorted_desc_reaches (fun x => x) s k m Hs Hm). lia.
  - intros n. rewrite Hrep. intros Hn. destruct (Z.le_gt_cases n m) as [|Hgt]; [done|].
    assert (length (filter (fun x => (n <= x)%Z) s) <= k)%nat
      by exact (sorted_desc_exceeds (fun x => x) s k m n Hs Hm Hgt). lia.
Qed.

(** C5: the commit rule.  [updateCommitIndex] computes the highest index that
    is on a majority of the voting members, and commits it if it is beyond the
    commit index and the entry there is of the current term; otherwise it
    changes nothing. *)
Theorem updateCommitIndex_rule r :
  exists m, on_majority r m /\ (forall n, on_majority r n -> n <= m) /\
    updateCommitIndex r =
      if decide (commitIndex r < m /\ term <$> js_at (log r) (m - 1) = Some (currentTerm r))
      then applyCommittedEntries (r <| commitIndex := m |>) else r.
Proof.
  destruct (majorityMatch_spec r) as (m & Hm & Hmaj & Hmax). exists m.
  split; [done|]. split; [done|]. unfold updateCommitIndex. rewrite Hm.
  destruct (commitIndex r <? m) eqn:E; prop_of_bool.
  - destruct (js_at (log r) (m - 1)) as [e|] eqn:Ee; simpl.
    + destruct (term e =? currentTerm r) eqn:Et; prop_of_bool.
      * rewrite decide_True by (split; [done|congruence]). done.
      * rewrite decide_False; [done|]. intros [_ ?]. congruence.
    + rewrite decide_False; [done|]. by intros [_ ?].
  - rewrite decide_False; [done|]. lia.
Qed.

(** Committed entries are handed over exactly once and in order.  When the
    indices are consistent, [applyCommittedEntries] emits the entries at
    positions [lastApplied + 1 .. commitIndex], each once, in log order, and
    leaves [lastApplied = commitIndex], so that a second call emits nothing. *)
Theorem applyCommittedEntries_exact r :
  0 <= lastApplied r <= commitIndex r -> commitIndex r <= js_length (log r) ->
  let r' := applyCommittedEntries r in
  committed_events (emitted r') =
    committed_events (emitted r) ++
    take (Z.to_nat (commitIndex r - lastApplied r)) (drop (Z.to_nat (lastApplied r)) (log r)) /\
  lastApplied r' = commitIndex r' /\ log r' = log r /\ commitIndex r' = commitIndex r /\
  applyCommittedEntries r' = r'.
Proof.
  intros Hl Hc. cbn zeta. rewrite (applyCommittedEntries_eq r). cbn.
  rewrite Z.max_r by lia. split_and!; try done.
  - rewrite committed_events_app. fold (commits (logRange (log r) (lastApplied r) (commitIndex r))).
    rewrite committed_events_commits, logRange_take_drop by lia. done.
  - unfold applyCommittedEntries. cbn. by rewrite Z.sub_diag.
Qed.

(** ** Votes *)

(** The candidates a node grants its vote to, request after request. *)
Fixpoint grants (reqs : list RequestVoteRequest) r : list string :=
  match reqs with
  | [] => []
  | q :: reqs =>
      let '(resp, r') := handleRequestVote q r in
      (if vr_voteGranted resp then [rv_candidateId q] else []) ++ grants reqs r'
  end.

Lemma grants_bound t x reqs r :
  Forall (fun q => rv_term q = t) reqs -> currentTerm r = t -> votedFor r = Some x ->
  Forall (eq x) (grants reqs r).
Proof.
  intros Hq. revert r. induction Hq as [|q reqs Hq Hqs IH]; intros r Ht Hv; simpl; [done|].
  pose proof (handleRequestVote_cases q r) as Hc.
  destruct (handleRequestVote q r) as [resp r'].
  assert (catch_up (rv_term q) r = r) as Er.
  { unfold catch_up. by rewrite (proj2 (Z.ltb_ge _ _)) by lia. }
  rewrite Er in Hc. destruct Hc as [[-> ->]|(-> & _ & _ & _ & Hcan & Q)]; simpl; [by apply IH|].
  unfold canVote in Hcan. rewrite Hv in Hcan. prop_of_bool. subst x.
  constructor; [done|]. apply IH.
  - by rewrite (q_term _ _ Q).
  - by rewrite (q_voted _ _ Q).
Qed.

(** One vote per term.  Whatever requests of one term a node receives,
    it grants its vote to at most one candidate, and to none but the one it had
    voted for when it had already voted in that term. *)
Theorem one_vote_per_term t reqs r :
  Forall (fun q => rv_term q = t) reqs ->
  exists x, Forall (eq x) (grants reqs r) /\
    forall y, currentTerm r = t -> votedFor r = Some y -> x = y.
Proof.
  intros Hq. revert r. induction Hq as [|q reqs Hq Hqs IH]; intros r; simpl.
  { exists (default "" (votedFor r)). split; [constructor|]. by intros y _ ->. }
  pose proof (handleRequestVote_cases q r) as Hc.
  destruct (handleRequestVote q r) as [resp r'].
  destruct Hc as [[-> ->]|(-> & _ & Ht & _ & Hcan & Q)]; simpl.
  - destruct (IH (catch_up (rv_term q) r)) as (x & Hx & Hy). exists x. split; [done|].
    intros y Hr Hv. apply Hy; unfold catch_up; by rewrite (proj2 (Z.ltb_ge _ _)) by lia.
  - exists (rv_candidateId q). split.
    + constructor; [done|]. apply (grants_bound t); [done|..].
      * rewrite (q_term _ _ Q). cbn. congruence.
      * apply (q_voted _ _ Q).
    + intros y Hr Hv. unfold catch_up in Hcan. rewrite (proj2 (Z.ltb_ge _ _)) in Hcan by lia.
      unfold canVote in Hcan. rewrite Hv in Hcan. by prop_of_bool.
Qed.
End rules.

Lemma handleAppendEntries_idempotent_witness :
  let r1 := (handleAppendEntries 7 append3 follower3).2 in
  commitIndex follower3 < commitIndex r1 /\
  log (handleAppendEntries 8 append3 r1).2 = log r1.
Proof.
  split; [by vm_compute|].
  apply (handleAppendEntries_idempotent 7 8 append3 follower3); by vm_compute.
Defined.

Lemma applyCommittedEntries_exact_witness :
  committed_events (emitted (applyCommittedEntries (follower3 <| commitIndex := 3 |>))) =
    [mkLogEntry 1 2 task_submit "t1"; mkLogEntry 2 3 noop ""].
Proof.
  destruct (applyCommittedEntries_exact (follower3 <| commitIndex := 3 |>)) as [H _].
  - split; by vm_compute.
  - by vm_compute.
  - rewrite H. reflexivity.
Defined.

Lemma one_vote_per_term_witness :
  exists x, Forall (eq x) (grants [mkRequestVote 3 "a" 3 2; mkRequestVote 3 "c" 9 2;
                                   mkRequestVote 3 "a" 3 2] follower3) /\
    grants [mkRequestVote 3 "a" 3 2; mkRequestVote 3 "c" 9 2; mkRequestVote 3 "a" 3 2] follower3
      = ["a"; "a"].
Proof.
  destruct (one_vote_per_term 3 [mkRequestVote 3 "a" 3 2; mkRequestVote 3 "c" 9 2;
    mkRequestVote 3 "a" 3 2] follower3) as (x & Hx & _); [by repeat constructor|].
  exists x. split; [exact Hx|reflexivity].
Defined.

(** ** Terms and the state file *)

Section terms.
Context {D : Type} `{!EmptyBuffer D}.
Implicit Types (r : RaftNode D) (c : Cluster D).

Lemma becomeFollower_term t r : currentTerm (becomeFollower t r) = t.
Proof. by raft_simpl. Qed.

Lemma resetElectionTimeout_term r : currentTerm (resetElectionTimeout r) = currentTerm r.
Proof. by rewrite resetElectionTimeout_eq. Qed.

Lemma loadState_term r : currentTerm r <= currentTerm (loadState r).
Proof.
  unfold loadState. repeat case_match; try done. prop_of_bool. cbn. lia.
Qed.

Lemma start_term r : currentTerm r <= currentTerm (start r).
Proof.
  unfold start. destruct (running r); [done|].
  rewrite resetElectionTimeout_term, becomeFollower_term.
  pose proof (loadState_term (r <| running := true |>)). done.
Qed.

Lemma handleRequestVote_term req r : currentTerm r <= currentTerm (handleRequestVote req r).2.
Proof.
  pose proof (handleRequestVote_cases req r) as H.
  destruct (handleRequestVote req r) as [resp r'].
  pose proof (catch_up_term (rv_term req) r).
  destruct H as [[_ ->]|(_ & _ & _ & _ & _ & Q)]; cbn; [lia|].
  rewrite (q_term _ _ Q). cbn. lia.
Qed.

Lemma handleAppendEntries_term now req r :
  currentTerm r <= currentTerm (handleAppendEntries now req r).2.
Proof.
  pose proof (catch_up_term (ae_term req) r).
  destruct (handleAppendEntries_shape now req r) as [Q|[_ Q]]; rewrite (q_term _ _ Q); cbn; lia.
Qed.

Lemma replicateToPeer_reply_term ref resp r :
  currentTerm r <= currentTerm (replicateToPeer_reply ref resp r).
Proof.
  unfold replicateToPeer_reply. repeat case_match; try done.
  rewrite becomeFollower_term. prop_of_bool. lia.
Qed.

Lemma startElection_reply_term resp r :
  currentTerm r <= currentTerm (startElection_reply resp r).1.
Proof.
  unfold startElection_reply. repeat case_match; try done. cbn [fst].
  rewrite becomeFollower_term. prop_of_bool. lia.
Qed.

Lemma finishElection_term needed results r :
  currentTerm (finishElection needed results r).1 = currentTerm r.
Proof.
  unfold finishElection. destruct (state r); [done| |done]. destruct (_ <=? _); [|done].
  destruct (becomeLeader_shape r) as (? & _ & _ & _ & _ & -> & _). done.
Qed.

Lemma stepDown_term r : currentTerm (stepDown r).2 = currentTerm r.
Proof.
  unfold stepDown. case_match; [done|]. cbn [snd].
  by rewrite resetElectionTimeout_term, becomeFollower_term.
Qed.

Lemma timer_term r : currentTerm r <= currentTerm (electionTimerFires r).1.
Proof.
  unfold electionTimerFires. case_match; [|done].
  pose proof (clear_candidacy r) as H1. destruct (becomeCandidate _) as [r' el]. cbn in *.
  rewrite (cd_term _ _ _ H1). lia.
Qed.

Lemma trigger_term r b r' el :
  triggerImmediateElection r = (b, r', el) -> currentTerm r <= currentTerm r'.
Proof.
  destruct el as [el|].
  - intros H%trigger_candidacy. rewrite (cd_term _ _ _ H). lia.
  - unfold triggerImmediateElection, startElection. repeat case_match; intros; by simplify_eq.
Qed.

(** Node [m] becomes [r']: no node's term decreases if [m]'s does not. *)
Lemma put_node_term c c' m r r' n s :
  nodes c' = <[m := r']> (nodes c) -> nodes c !! m = Some r ->
  currentTerm r <= currentTerm r' -> nodes c !! n = Some s ->
  exists s', nodes c' !! n = Some s' /\ currentTerm s <= currentTerm s'.
Proof.
  intros -> Hm Hle Hn. destruct (decide (m = n)) as [->|Hne].
  - exists r'. rewrite lookup_insert_eq. split; [done|]. by simplify_eq.
  - exists s. by rewrite lookup_insert_ne.
Qed.

Lemma settle_term c c' el voter resp n s :
  settle el voter resp c = Some c' -> nodes c !! n = Some s ->
  exists s', nodes c' !! n = Some s' /\ currentTerm s <= currentTerm s'.
Proof.
  unfold settle. intros (ce & _ & H)%bind_Some. apply bind_Some in H as (r & Hr & H).
  case_bool_decide; [|done]. pose proof (startElection_reply_term resp r) as Ht.
  destruct (startElection_reply resp r) as [r' b]. injection H as <-.
  by eapply put_node_term.
Qed.

Lemma deliver_term c c' msg now n s :
  deliver msg now c = Some c' -> nodes c !! n = Some s ->
  exists s', nodes c' !! n = Some s' /\ currentTerm s <= currentTerm s'.
Proof.
  destruct msg as [el src dst req|el src dst resp|src dst ref req|src dst ref resp]; simpl.
  2: apply settle_term.
  all: intros (r & Hr & H)%bind_Some.
  - pose proof (handleRequestVote_term req r) as Ht.
    destruct (handleRequestVote req r). injection H as <-. by eapply put_node_term.
  - pose proof (handleAppendEntries_term now req r) as Ht.
    destruct (handleAppendEntries now req r). injection H as <-. by eapply put_node_term.
  - injection H as <-. eapply put_node_term; [done..|].
    exact (replicateToPeer_reply_term ref (Some resp) r).
Qed.

Lemma finish_term c c' el n s :
  finish el c = Some c' -> nodes c !! n = Some s ->
  exists s', nodes c' !! n = Some s' /\ currentTerm s <= currentTerm s'.
Proof.
  unfold finish. intros (ce & _ & H)%bind_Some. apply bind_Some in H as (r & Hr & H).
  case_bool_decide; [|done]. pose proof (finishElection_term (ce_needed ce) (ce_results ce).*2 r) as Ht.
  destruct (finishElection _ _ r) as [r' calls]. injection H as <-.
  eapply put_node_term; [done..|]. cbn in Ht. by rewrite Ht.
Qed.

(** Terms never decrease.  Whatever step the cluster takes, apart from a
    node losing its memory in a crash, every node is still there with a term at
    least as high. *)
Theorem exec_term_monotone (l : Label D) c c' n r :
  (forall m, l <> LRestart m) -> exec l c = Some c' -> nodes c !! n = Some r ->
  exists r', nodes c' !! n = Some r' /\ currentTerm r <= currentTerm r'.
Proof.
  intros Hl Hx Hn. destruct l; simpl in Hx; try (by destruct (Hl n0)).
  3: apply bind_Some in Hx as (m & _ & Hx); by eapply deliver_term.
  3: by eapply settle_term.
  3: by eapply finish_term.
  all: apply bind_Some in Hx as (s & Hs & Hx).
  1: { pose proof (timer_term s). destruct (electionTimeout s); [|done].
       destruct (electionTimerFires s) as [s' [el|]]; injection Hx as <-;
         by eapply put_node_term. }
  1: { destruct (triggerImmediateElection s) as [[b s'] el] eqn:E.
       pose proof (trigger_term s b s' el E).
       destruct el; injection Hx as <-; by eapply put_node_term. }
  1: { destruct (heartbeatInterval s); [|done]. injection Hx as <-. by exists r. }
  1: { assert (currentTerm (appendEntry ty d s).1.2 = currentTerm s) as Ht
         by (unfold appendEntry; by destruct (negb (isLeader s))).
       destruct (appendEntry ty d s) as [[? s'] ?]. injection Hx as <-.
       eapply put_node_term; [done..| |done]. cbn in Ht. lia. }
  all: injection Hx as <-; (eapply put_node_term; [done..| |done]).
  1: { rewrite (q_term _ _ (quiet_commit s)). lia. }
  1: { rewrite stepDown_term. lia. }
  2: { rewrite (q_term _ _ (resume_quiet s)). lia. }
  4: apply start_term.
  all: try done. unfold addPeer. by case_match.
Qed.

(** The state file.  A node that could write its state file is reloaded
    with the same term and the same vote. *)
Theorem state_file_roundtrip r d :
  dataDir (config r) = Some d -> d <> "" -> diskWritable r = true -> 0 < currentTerm r ->
  let r' : RaftNode D := loadState (new_RaftNode (config r) (disk (saveState r)) true) in
  currentTerm r' = currentTerm r /\ votedFor r' = votedFor r.
Proof.
  intros Hd Hne Hw Ht. cbn zeta. unfold saveState, loadState, stateFilePath. cbn.
  rewrite Hd, (proj2 (String.eqb_neq d "")), Hw by done. cbn.
  by rewrite (proj2 (Z.ltb_lt 0 _)).
Qed.
End terms.

Definition persistent3 : RaftNode string :=
  follower3 <| config := mkRaftConfig "b" None false (Some "/var/lib/cortex") |>
            <| votedFor := Some "a" |>.

Lemma exec_term_monotone_witness :
  exists r' : RaftNode string, nodes (default (mkCluster ∅ [] [])
      (exec (LTimeoutNow "b") (mkCluster {["b" := persistent3]} [] []))) !! "b" = Some r' /\
    currentTerm persistent3 <= currentTerm r'.
Proof.
  destruct (exec (LTimeoutNow "b") (mkCluster {["b" := persistent3]} [] [])) as [c'|] eqn:E.
  - exact (exec_term_monotone (LTimeoutNow "b") (mkCluster {["b" := persistent3]} [] []) c' "b"
      persistent3 ltac:(done) E eq_refl).
  - vm_compute in E. discriminate E.
Defined.

Lemma state_file_roundtrip_witness :
  votedFor (D := string) (loadState (new_RaftNode (config persistent3) (disk (saveState persistent3)) true))
    = Some "a".
Proof.
  apply (state_file_roundtrip persistent3 "/var/lib/cortex"); [reflexivity|done|reflexivity|by vm_compute].
Defined.
