(* ===== verification/RaftWire.v ===== *)
(** * The Raft service on the wire (createRaftServiceHandlers of
      src/src/grpc/handlers.ts; the request literals and logEntryTypeToProto of
      src/src/cluster/raft.ts)

    The int64 fields of the protocol travel as decimal text and the entry types as
    enum names.  A field that does not parse ([NaN], or a type outside the union)
    makes a decoder return [None]. *)

From S2P Require Import Prelude JsMap JsString Raft.

Section wire.
Context {D : Type} `{!EmptyBuffer D}.

Record ProtoEntry := mkProtoEntry {
  pe_term : string;
  pe_index : string;
  pe_type : string;
  pe_data : D
}.
Record ProtoAppendEntries := mkProtoAppendEntries {
  pa_term : string;
  pa_leader_id : string;
  pa_prev_log_index : string;
  pa_prev_log_term : string;
  pa_entries : list ProtoEntry;
  pa_leader_commit : string
}.
Record ProtoAppendResponse := mkProtoAppendResponse {
  px_term : string;
  px_success : bool;
  px_match_index : string
}.
Record ProtoRequestVote := mkProtoRequestVote {
  pv_term : string;
  pv_candidate_id : string;
  pv_last_log_index : string;
  pv_last_log_term : string
}.
Record ProtoVoteResponse := mkProtoVoteResponse {
  pw_term : string;
  pw_vote_granted : bool
}.

(** ** The sender *)

Definition logEntryTypeToProto (ty : LogEntryType) : string :=
  match ty with
  | noop => "LOG_ENTRY_TYPE_NOOP"
  | config_change => "LOG_ENTRY_TYPE_CONFIG_CHANGE"
  | task_submit => "LOG_ENTRY_TYPE_TASK_SUBMIT"
  | task_complete => "LOG_ENTRY_TYPE_TASK_COMPLETE"
  | node_join => "LOG_ENTRY_TYPE_NODE_JOIN"
  | node_leave => "LOG_ENTRY_TYPE_NODE_LEAVE"
  | context_update => "LOG_ENTRY_TYPE_CONTEXT_UPDATE"
  | memory_write => "LOG_ENTRY_TYPE_MEMORY_WRITE"
  | task_assign => "LOG_ENTRY_TYPE_TASK_ASSIGN"
  | task_started => "LOG_ENTRY_TYPE_TASK_STARTED"
  | task_failed => "LOG_ENTRY_TYPE_TASK_FAILED"
  | task_cancel => "LOG_ENTRY_TYPE_TASK_CANCEL"
  | task_retry => "LOG_ENTRY_TYPE_TASK_RETRY"
  | task_dead_letter => "LOG_ENTRY_TYPE_TASK_DEAD_LETTER"
  | workflow_submit => "LOG_ENTRY_TYPE_WORKFLOW_SUBMIT"
  | workflow_advance => "LOG_ENTRY_TYPE_WORKFLOW_ADVANCE"
  end.

Definition entry_to_proto (e : LogEntry D) : ProtoEntry :=
  mkProtoEntry (js_toString (term e)) (js_toString (index e)) (logEntryTypeToProto (type e)) (data e).

(** The literal of [replicateToPeer]. *)
Definition append_to_proto (q : AppendEntriesRequest D) : ProtoAppendEntries :=
  mkProtoAppendEntries (js_toString (ae_term q)) (ae_leaderId q) (js_toString (ae_prevLogIndex q))
    (js_toString (ae_prevLogTerm q)) (map entry_to_proto (ae_entries q)) (js_toString (ae_leaderCommit q)).

(** What [replicateToPeer] reads of the answer. *)
Definition append_response (p : ProtoAppendResponse) : option AppendEntriesResponse :=
  t ← parseInt (px_term p);
  m ← parseInt (px_match_index p);
  Some (mkAppendResponse t (px_success p) m).

(** The literal of [startElection], and what it reads of the answer. *)
Definition vote_to_proto (q : RequestVoteRequest) : ProtoRequestVote :=
  mkProtoRequestVote (js_toString (rv_term q)) (rv_candidateId q) (js_toString (rv_lastLogIndex q))
    (js_toString (rv_lastLogTerm q)).

Definition vote_response (p : ProtoVoteResponse) : option RequestVoteResponse :=
  t ← parseInt (pw_term p); Some (mkVoteResponse t (pw_vote_granted p)).

(** ** The receiver *)

Definition type_name (ty : LogEntryType) : string :=
  match ty with
  | noop => "noop" | config_change => "config_change" | task_submit => "task_submit"
  | task_complete => "task_complete" | node_join => "node_join" | node_leave => "node_leave"
  | context_update => "context_update" | memory_write => "memory_write"
  | task_assign => "task_assign" | task_started => "task_started" | task_failed => "task_failed"
  | task_cancel => "task_cancel" | task_retry => "task_retry"
  | task_dead_letter => "task_dead_letter" | workflow_submit => "workflow_submit"
  | workflow_advance => "workflow_advance"
  end.

Definition all_types : list LogEntryType :=
  [noop; config_change; task_submit; task_complete; node_join; node_leave; context_update;
   memory_write; task_assign; task_started; task_failed; task_cancel; task_retry;
   task_dead_letter; workflow_submit; workflow_advance].

Definition as_type (s : string) : option LogEntryType :=
  List.find (fun ty => String.eqb (type_name ty) s) all_types.

Definition entry_of_proto (p : ProtoEntry) : option (LogEntry D) :=
  t ← parseInt (pe_term p);
  i ← parseInt (pe_index p);
  ty ← as_type (js_toLowerCase (js_replace "LOG_ENTRY_TYPE_" "" (pe_type p)));
  Some (mkLogEntry t i ty (pe_data p)).

Definition append_of_proto (p : ProtoAppendEntries) : option (AppendEntriesRequest D) :=
  t ← parseInt (pa_term p);
  pi ← parseInt (pa_prev_log_index p);
  pt ← parseInt (pa_prev_log_term p);
  es ← mapM entry_of_proto (pa_entries p);
  c ← parseInt (pa_leader_commit p);
  Some (mkAppendEntries t (pa_leader_id p) pi pt es c).

Definition vote_of_proto (p : ProtoRequestVote) : option RequestVoteRequest :=
  t ← parseInt (pv_term p);
  li ← parseInt (pv_last_log_index p);
  lt ← parseInt (pv_last_log_term p);
  Some (mkRequestVote t (pv_candidate_id p) li lt).

(** The handlers. *)
Definition RequestVote (p : ProtoRequestVote) (r : RaftNode D) :
    option (ProtoVoteResponse * RaftNode D) :=
  req ← vote_of_proto p;
  let '(res, r) := handleRequestVote req r in
  Some (mkProtoVoteResponse (js_toString (vr_term res)) (vr_voteGranted res), r).

Definition AppendEntries (now : Z) (p : ProtoAppendEntries) (r : RaftNode D) :
    option (ProtoAppendResponse * RaftNode D) :=
  req ← append_of_proto p;
  let '(res, r) := handleAppendEntries now req r in
  Some (mkProtoAppendResponse (js_toString (ar_term res)) (ar_success res)
          (js_toString (ar_matchIndex res)), r).

(** TimeoutNow: a stale term is refused; otherwise the node campaigns at once. *)
Definition TimeoutNow (fromTerm : string) (r : RaftNode D) :
    option (bool * RaftNode D * option Election) :=
  t ← parseInt fromTerm;
  if t <? currentTerm r then Some (false, r, None) else Some (triggerImmediateElection r).

(** ** The wire is transparent *)

Lemma type_roundtrip ty :
  as_type (js_toLowerCase (js_replace "LOG_ENTRY_TYPE_" "" (logEntryTypeToProto ty))) = Some ty.
Proof. destruct ty; reflexivity. Qed.

Lemma entry_roundtrip e : entry_of_proto (entry_to_proto e) = Some e.
Proof.
  unfold entry_of_proto, entry_to_proto. cbn [pe_term pe_index pe_type pe_data].
  rewrite !parseInt_toString, type_roundtrip. by destruct e.
Qed.

Lemma entries_roundtrip es : mapM entry_of_proto (map entry_to_proto es) = Some es.
Proof.
  induction es as [|e es IH]; [done|]. cbn [map mapM]. by rewrite entry_roundtrip, IH.
Qed.

Lemma append_roundtrip q : append_of_proto (append_to_proto q) = Some q.
Proof.
  unfold append_of_proto, append_to_proto. cbn [pa_term pa_leader_id pa_prev_log_index pa_prev_log_term
    pa_entries pa_leader_commit].
  rewrite !parseInt_toString, entries_roundtrip. by destruct q.
Qed.

Lemma vote_roundtrip q : vote_of_proto (vote_to_proto q) = Some q.
Proof.
  unfold vote_of_proto, vote_to_proto. cbn [pv_term pv_candidate_id pv_last_log_index pv_last_log_term].
  rewrite !parseInt_toString. by destruct q.
Qed.

(** A Raft call over gRPC is the method call.  For every AppendEntries and
    every RequestVote request, of every entry type and every index, encoding the
    request, decoding it at the receiver, running the method, encoding the
    answer and decoding it at the caller gives exactly the answer and the
    receiver state of the method itself. *)
Theorem raft_wire_transparent now (q : AppendEntriesRequest D) (v : RequestVoteRequest) (r : RaftNode D) :
  (('(p, r') ← AppendEntries now (append_to_proto q) r; res ← append_response p; Some (res, r')) =
     Some (handleAppendEntries now q r)) /\
  (('(p, r') ← RequestVote (vote_to_proto v) r; res ← vote_response p; Some (res, r')) =
     Some (handleRequestVote v r)).
Proof.
  unfold AppendEntries, RequestVote, append_response, vote_response.
  rewrite append_roundtrip, vote_roundtrip. cbn [mbind option_bind].
  destruct (handleAppendEntries now q r) as [[t s i] r1], (handleRequestVote v r) as [[t' g] r2].
  cbn -[parseInt js_toString]. rewrite !parseInt_toString. done.
Qed.
End wire.
