(* ===== verification/Membership.v ===== *)
(** * Cluster membership (src/src/cluster/membership.ts)

    [MembershipManager] is the state of the manager; it acts on the Raft node of
    the process (Raft.v), so that an operation is a function on the pair
    ([Member]).  Listeners of the Raft events are [onRaftEvent].  An [async]
    method that waits for an RPC takes the answer as an argument ([None] when the
    call throws).  The entries of the Raft log carry JSON; [MembershipCodec] is the
    interface of [JSON.stringify] and [JSON.parse] on them. *)

From S2P Require Import Prelude JsMap JsString Json Raft.
From Stdlib Require Import Ascii QArith.
#[local] Open Scope Z_scope.

(** ** Data *)

Inductive NodeRole := role_leader | role_follower | role_candidate | role_worker.
#[export] Instance NodeRole_eq_dec : EqDecision NodeRole.
Proof. solve_decision. Defined.

Inductive NodeStatus := pending_approval | active | draining | offline.
#[export] Instance NodeStatus_eq_dec : EqDecision NodeStatus.
Proof. solve_decision. Defined.

Record GpuInfo := mkGpuInfo {
  g_name : string;
  g_memoryBytes : Z;
  g_memoryAvailableBytes : Z;
  g_utilizationPercent : Q;
  g_inUseForGaming : bool
}.

Record NodeResources := mkNodeResources {
  r_cpuCores : Z;
  r_memoryBytes : Z;
  r_memoryAvailableBytes : Z;
  r_gpus : list GpuInfo;
  r_diskBytes : Z;
  r_diskAvailableBytes : Z;
  r_cpuUsagePercent : Q;
  r_gamingDetected : bool
}.

Record NodeInfo := mkNodeInfo {
  n_nodeId : string;
  n_hostname : string;
  n_tailscaleIp : string;
  n_grpcPort : Z;
  n_role : NodeRole;
  n_status : NodeStatus;
  n_resources : option NodeResources;
  n_tags : list string;
  n_joinedAt : Z;
  n_lastSeen : Z
}.
#[export] Instance NodeInfo_eta : EtaRecord NodeInfo := fun n =>
  mkNodeInfo (n_nodeId n) (n_hostname n) (n_tailscaleIp n) (n_grpcPort n) (n_role n) (n_status n)
    (n_resources n) (n_tags n) (n_joinedAt n) (n_lastSeen n).

Record MembershipConfig := mkMembershipConfig {
  m_nodeId : string;
  m_hostname : string;
  m_tailscaleIp : string;
  m_grpcPort : Z;
  m_heartbeatTimeoutMs : option Z;
  m_autoApprove : bool
}.

Inductive MembershipEvent :=
  | me_pendingApproval
  | me_joined (clusterId : string)
  | me_versionCheck (buildHash leaderAddress : string)
  | me_nodeJoinRequest (n : NodeInfo)
  | me_nodeDraining (n : NodeInfo)
  | me_rejoinNeeded
  | me_nodeOffline (n : NodeInfo)
  | me_nodeRecovered (n : NodeInfo)
  | me_nodeJoined (n : NodeInfo)
  | me_nodeLeft (n : NodeInfo).

Record MembershipManager := mkMembershipManager {
  mm_config : MembershipConfig;
  mm_nodes : jsmap NodeInfo;
  mm_pendingApprovals : jsmap NodeInfo;
  mm_leaderAddress : option string;
  mm_heartbeatFailures : Z;
  mm_rejoinInProgress : bool;
  mm_emitted : list MembershipEvent
}.
#[export] Instance MembershipManager_eta : EtaRecord MembershipManager := fun m =>
  mkMembershipManager (mm_config m) (mm_nodes m) (mm_pendingApprovals m) (mm_leaderAddress m)
    (mm_heartbeatFailures m) (mm_rejoinInProgress m) (mm_emitted m).

(** The data of a committed node_join entry. *)
Record JoinData := mkJoinData {
  jd_nodeId : string;
  jd_hostname : string;
  jd_tailscaleIp : string;
  jd_grpcPort : Z;
  jd_tags : list string
}.

(** JSON on the entries that the manager writes and reads. *)
Class MembershipCodec (D : Type) := {
  stringify_join : JoinData -> D;
  stringify_leave : string -> D;
  parse_join : D -> option JoinData;
  parse_leave : D -> option string
}.
Class MembershipCodecLaws (D : Type) `{!MembershipCodec D} : Prop := {
  parse_stringify_join j : parse_join (stringify_join j) = Some j;
  parse_stringify_leave i : parse_leave (stringify_leave i) = Some i
}.

(** The instance of the running program: the text [JSON.stringify] produces for
    the object literals of [approveNode] and [removeNode], and the fields that
    [handleCommittedEntry] reads back from [JSON.parse]. *)
Definition join_json (j : JoinData) : json :=
  JObj [("nodeId", JStr (jd_nodeId j)); ("hostname", JStr (jd_hostname j));
        ("tailscaleIp", JStr (jd_tailscaleIp j)); ("grpcPort", JNum (jd_grpcPort j));
        ("tags", JArr (map JStr (jd_tags j)))].

Definition json_str (j : json) : option string := match j with JStr s => Some s | _ => None end.

Definition json_join (j : json) : option JoinData :=
  match j with
  | JObj l =>
      match jm_get l "nodeId", jm_get l "hostname", jm_get l "tailscaleIp", jm_get l "grpcPort",
            jm_get l "tags" with
      | Some (JStr id), Some (JStr host), Some (JStr ip), Some (JNum port), Some (JArr tags) =>
          mkJoinData id host ip port <$> mapM json_str tags
      | _, _, _, _, _ => None
      end
  | _ => None
  end.

Definition json_leave (j : json) : option string :=
  match j with
  | JObj l => match jm_get l "nodeId" with Some (JStr id) => Some id | _ => None end
  | _ => None
  end.

#[export] Instance json_codec : MembershipCodec string := {
  stringify_join j := stringify (join_json j);
  stringify_leave id := stringify (JObj [("nodeId", JStr id)]);
  parse_join d := parse d ≫= json_join;
  parse_leave d := parse d ≫= json_leave
}.

Lemma mapM_json_str l : mapM json_str (map JStr l) = Some l.
Proof. induction l as [|x l IH]; [done|]. cbn. by rewrite IH. Qed.

#[export] Instance json_codec_laws : MembershipCodecLaws string.
Proof.
  split.
  - intros [id host ip port tags].
    change (parse (stringify (join_json (mkJoinData id host ip port tags))) ≫= json_join =
      Some (mkJoinData id host ip port tags)).
    rewrite parse_stringify; cbn.
    + by rewrite mapM_json_str.
    + by induction tags.
  - intros id. change (parse (stringify (JObj [("nodeId", JStr id)])) ≫= json_leave = Some id).
    by rewrite parse_stringify.
Qed.

(** The wire format of a node. *)
Record ProtoGpu := mkProtoGpu {
  pg_name : string;
  pg_memory_bytes : string;
  pg_memory_available_bytes : string;
  pg_utilization_percent : Q;
  pg_in_use_for_gaming : bool
}.
Record ProtoResources := mkProtoResources {
  pr_cpu_cores : Z;
  pr_memory_bytes : string;
  pr_memory_available_bytes : string;
  pr_gpus : list ProtoGpu;
  pr_disk_bytes : string;
  pr_disk_available_bytes : string;
  pr_cpu_usage_percent : Q;
  pr_gaming_detected : bool
}.
Record ProtoNode := mkProtoNode {
  pn_node_id : string;
  pn_hostname : string;
  pn_tailscale_ip : string;
  pn_grpc_port : Z;
  pn_role : string;
  pn_status : string;
  pn_resources : option ProtoResources;
  pn_tags : list string;
  pn_joined_at : string;
  pn_last_seen : string
}.

(** The string values of the TypeScript unions. *)
Definition role_string (r : NodeRole) : string :=
  match r with
  | role_leader => "leader" | role_follower => "follower"
  | role_candidate => "candidate" | role_worker => "worker"
  end.
Definition status_string (s : NodeStatus) : string :=
  match s with
  | pending_approval => "pending_approval" | active => "active"
  | draining => "draining" | offline => "offline"
  end.
(** The cast [as NodeRole]: [None] for a string outside the union. *)
Definition as_role (s : string) : option NodeRole :=
  if String.eqb s "leader" then Some role_leader
  else if String.eqb s "follower" then Some role_follower
  else if String.eqb s "candidate" then Some role_candidate
  else if String.eqb s "worker" then Some role_worker else None.
Definition as_status (s : string) : option NodeStatus :=
  if String.eqb s "pending_approval" then Some pending_approval
  else if String.eqb s "active" then Some active
  else if String.eqb s "draining" then Some draining
  else if String.eqb s "offline" then Some offline else None.

Definition resourcesToProto (r : NodeResources) : ProtoResources :=
  mkProtoResources (r_cpuCores r) (js_toString (r_memoryBytes r))
    (js_toString (r_memoryAvailableBytes r))
    ((fun g => mkProtoGpu (g_name g) (js_toString (g_memoryBytes g))
                 (js_toString (g_memoryAvailableBytes g)) (g_utilizationPercent g)
                 (g_inUseForGaming g)) <$> r_gpus r)
    (js_toString (r_diskBytes r)) (js_toString (r_diskAvailableBytes r))
    (r_cpuUsagePercent r) (r_gamingDetected r).

Definition nodeToProto (n : NodeInfo) : ProtoNode :=
  mkProtoNode (n_nodeId n) (n_hostname n) (n_tailscaleIp n) (n_grpcPort n)
    ("NODE_ROLE_" +:+ js_toUpperCase (role_string (n_role n)))
    ("NODE_STATUS_" +:+ js_toUpperCase (status_string (n_status n)))
    (resourcesToProto <$> n_resources n) (n_tags n)
    (js_toString (n_joinedAt n)) (js_toString (n_lastSeen n)).

(** [None] when the node would hold a value outside its type (an unknown role or
    status, or [NaN]). *)
Definition protoToNode (p : ProtoNode) : option NodeInfo :=
  role ← as_role (js_toLowerCase (js_replace "NODE_ROLE_" "" (pn_role p)));
  status ← as_status (js_toLowerCase (js_replace "NODE_STATUS_" "" (pn_status p)));
  joined ← parseInt (pn_joined_at p);
  seen ← parseInt (pn_last_seen p);
  Some (mkNodeInfo (pn_node_id p) (pn_hostname p) (pn_tailscale_ip p) (pn_grpc_port p)
          role status None (pn_tags p) joined seen).

(** [`${ip}:${port}`]. *)
Definition node_address (ip : string) (port : Z) : string := ip +:+ ":" +:+ js_toString port.

Definition address_of (n : NodeInfo) : string := node_address (n_tailscaleIp n) (n_grpcPort n).

Section membership.
Context {D : Type} `{!EmptyBuffer D} `{!MembershipCodec D}.
Implicit Types (m : MembershipManager) (raft : RaftNode D).

(** The manager and the Raft node it holds. *)
Abbreviation Member := (MembershipManager * RaftNode D)%type.

Definition m_emit (ev : MembershipEvent) m : MembershipManager :=
  m <| mm_emitted ::= fun evs => evs ++ [ev] |>.

Definition heartbeatTimeoutMs m : Z := default 15000 (m_heartbeatTimeoutMs (mm_config m)).

Definition new_MembershipManager (cfg : MembershipConfig) (now : Z) : MembershipManager :=
  mkMembershipManager cfg
    (jm_set [] (m_nodeId cfg)
       (mkNodeInfo (m_nodeId cfg) (m_hostname cfg) (m_tailscaleIp cfg) (m_grpcPort cfg)
          role_follower active None [] now now))
    [] None 0 false [].

(** ** Queries *)

Definition getNode (id : string) m : option NodeInfo := jm_get (mm_nodes m) id.
Definition getAllNodes m : list NodeInfo := jm_values (mm_nodes m).
Definition getActiveNodes m : list NodeInfo :=
  filter (fun n => n_status n = active) (getAllNodes m).
Definition getPendingApprovals m : list NodeInfo := jm_values (mm_pendingApprovals m).
Definition getSelfNode m : option NodeInfo := jm_get (mm_nodes m) (m_nodeId (mm_config m)).
Definition getLeaderAddress m : option string := mm_leaderAddress m.

(** Mutation of the object that the map holds for [id]. *)
Definition update_node (id : string) (f : NodeInfo -> NodeInfo) m : MembershipManager :=
  m <| mm_nodes ::= jm_alter f id |>.

(** ** Raft listeners *)

Definition updateNodeRole (id : string) (role : NodeRole) m : MembershipManager :=
  match jm_get (mm_nodes m) id with
  | None => m
  | Some n =>
      let m := update_node id (fun n => n <| n_role := role |>) m in
      match role with
      | role_leader => m <| mm_leaderAddress := Some (address_of n) |>
      | _ => m
      end
  end.

Definition role_of_state (s : RaftState) : NodeRole :=
  match s with follower => role_follower | candidate => role_candidate | leader => role_leader end.

(** [peer.address.split(':')] with the two parts the code uses. *)
Fixpoint split_colon (s : string) : string * option string :=
  match s with
  | EmptyString => (EmptyString, None)
  | String c s' =>
      if Ascii.eqb c ":"%char then
        (EmptyString, Some (split_colon s').1)
      else let '(a, b) := split_colon s' in (String c a, b)
  end.

Definition is_hex (c : Ascii.ascii) : bool :=
  let n := Ascii.nat_of_ascii c in
  ((48 <=? n)%nat && (n <=? 57)%nat) || ((97 <=? n)%nat && (n <=? 102)%nat).

Fixpoint all_hex (s : string) : bool :=
  match s with EmptyString => true | String c s' => is_hex c && all_hex s' end.

(** [id.replace(/-[a-f0-9]+$/, '')]: the dash at which the rest of the string
    is one or more hexadecimal digits. *)
Fixpoint strip_hex_suffix (s : string) : string :=
  match s with
  | EmptyString => EmptyString
  | String c s' =>
      if Ascii.eqb c "-"%char && truthy_str s' && all_hex s' then EmptyString
      else String c (strip_hex_suffix s')
  end.

(** [parseInt(portStr) || 50051]. *)
Definition port_or_default (s : option string) : Z :=
  match s with
  | None => 50051
  | Some s => match parseInt s with
              | Some 0 | None => 50051
              | Some p => p
              end
  end.

Definition syncPeer (now : Z) (nodes : jsmap NodeInfo) (p : PeerInfo) : jsmap NodeInfo :=
  if jm_has nodes (p_nodeId p) then nodes
  else
    let '(ip, port) := split_colon (p_address p) in
    jm_set nodes (p_nodeId p)
      (mkNodeInfo (p_nodeId p) (strip_hex_suffix (p_nodeId p)) ip (port_or_default port)
         role_follower active None [] now now).

Definition onLeaderElected (now : Z) (peers : list PeerInfo) m : MembershipManager :=
  m <| mm_nodes := foldl (syncPeer now) (mm_nodes m) peers |>.

(** Demotion of the nodes marked as leader, [self] and [except] apart. *)
Definition demote (keep : NodeInfo -> bool) (nodes : jsmap NodeInfo) : jsmap NodeInfo :=
  jm_map (fun n => if bool_decide (n_role n = role_leader) && negb (keep n)
                   then n <| n_role := role_follower |> else n) nodes.

Definition onLeaderChanged (id : string) m : MembershipManager :=
  let self := m_nodeId (mm_config m) in
  let m := m <| mm_nodes ::= demote (fun n => String.eqb (n_nodeId n) self) |> in
  match jm_get (mm_nodes m) id with
  | None => m
  | Some n =>
      (update_node id (fun n => n <| n_role := role_leader |>) m)
        <| mm_leaderAddress := Some (address_of n) |>
  end.

Definition handleNodeJoinCommitted (now : Z) (j : JoinData) (st : Member) : Member :=
  let '(m, raft) := st in
  let n := mkNodeInfo (jd_nodeId j) (jd_hostname j) (jd_tailscaleIp j) (jd_grpcPort j)
             role_follower active None (jd_tags j) now now in
  let m := m <| mm_nodes := jm_set (mm_nodes m) (jd_nodeId j) n |> in
  let isVoting := negb (js_endsWith (jd_nodeId j) "-mcp") in
  let raft := addPeer (jd_nodeId j) (node_address (jd_tailscaleIp j) (jd_grpcPort j)) isVoting raft in
  (m_emit (me_nodeJoined n) m, raft).

Definition handleNodeLeaveCommitted (id : string) (st : Member) : Member :=
  let '(m, raft) := st in
  match jm_get (mm_nodes m) id with
  | None => (m, raft)
  | Some n =>
      (m_emit (me_nodeLeft n) (m <| mm_nodes := jm_delete (mm_nodes m) id |>),
       removePeer id raft)
  end.

Definition handleCommittedEntry (now : Z) (e : LogEntry D) (st : Member) : Member :=
  match type e with
  | noop => st
  | node_join =>
      match parse_join (data e) with
      | Some j => handleNodeJoinCommitted now j st
      | None => st
      end
  | node_leave =>
      match parse_leave (data e) with
      | Some id => handleNodeLeaveCommitted id st
      | None => st
      end
  | _ => st
  end.

(** The listeners that the constructor registers on the Raft node. *)
Definition onRaftEvent (now : Z) (ev : RaftEvent D) (st : Member) : Member :=
  let '(m, raft) := st in
  match ev with
  | ev_stateChange s _ => (updateNodeRole (m_nodeId (mm_config m)) (role_of_state s) m, raft)
  | ev_leaderElected _ => (onLeaderElected now (getPeers raft) m, raft)
  | ev_leaderChanged id => (onLeaderChanged id m, raft)
  | ev_entryCommitted e => handleCommittedEntry now e st
  end.

(** ** Joining *)

Record RegisterResponse := mkRegisterResponse {
  rr_approved : bool;
  rr_pending_approval : bool;
  rr_cluster_id : string;
  rr_leader_address : string;
  rr_peers : list NodeInfo;      (* after protoToNode *)
  rr_build_hash : string
}.

(** The loop that adds the peers of an approval. *)
Definition addJoinedPeer (st : Member) (p : NodeInfo) : Member :=
  let '(m, raft) := st in
  if String.eqb (n_nodeId p) (m_nodeId (mm_config m)) then st
  else if negb (truthy_str (n_tailscaleIp p)) || (n_grpcPort p =? 0) then st
  else
    (m <| mm_nodes := jm_set (mm_nodes m) (n_nodeId p) p |>,
     addPeer (n_nodeId p) (address_of p) (bool_decide (n_role p <> role_worker)) raft).

Definition set_self_status (s : NodeStatus) m : MembershipManager :=
  update_node (m_nodeId (mm_config m)) (fun n => n <| n_status := s |>) m.

(** The continuation of [registerNode] when the node is approved. *)
Definition joinApproved (resp : RegisterResponse) (st : Member) : Member :=
  let '(m, raft) := st in
  let m := m <| mm_leaderAddress := Some (rr_leader_address resp) |> in
  let m := set_self_status active m in
  let '(m, raft) := foldl addJoinedPeer (m, raft) (rr_peers resp) in
  let raft := delayNextElection raft in
  let m := m_emit (me_joined (rr_cluster_id resp)) m in
  let m := if truthy_str (rr_build_hash resp)
           then m_emit (me_versionCheck (rr_build_hash resp) (rr_leader_address resp)) m else m in
  (m, raft).

(** [joinClusterWithRedirect]: [register a] is the answer of the node at address
    [a].  The result also lists the addresses that were called. *)
Fixpoint joinClusterWithRedirect (register : string -> option RegisterResponse)
    (seedAddress : string) (maxRedirects : nat) (st : Member) : bool * list string * Member :=
  match maxRedirects with
  | O => (false, [], st)
  | S maxRedirects' =>
      match register seedAddress with
      | None => (false, [seedAddress], st)
      | Some resp =>
          if rr_pending_approval resp then
            let '(m, raft) := st in
            (true, [seedAddress], (m_emit me_pendingApproval (set_self_status pending_approval m), raft))
          else if rr_approved resp then (true, [seedAddress], joinApproved resp st)
          else if truthy_str (rr_leader_address resp)
                  && negb (String.eqb (rr_leader_address resp) seedAddress) then
            let '(b, calls, st) :=
              joinClusterWithRedirect register (rr_leader_address resp) maxRedirects' st in
            (b, seedAddress :: calls, st)
          else (false, [seedAddress], st)
      end
  end.

Definition joinCluster (register : string -> option RegisterResponse) (seedAddress : string)
    (st : Member) : bool * list string * Member :=
  joinClusterWithRedirect register seedAddress 3 st.

Record JoinResult := mkJoinResult {
  jr_approved : bool;
  jr_pendingApproval : bool;
  jr_clusterId : string;
  jr_leaderAddress : string;
  jr_peers : list NodeInfo
}.

(** The address a node that does not lead redirects a join request to. *)
Definition redirectAddress (n : NodeInfo) m raft : string :=
  let self := m_nodeId (mm_config m) in
  let fresh :=
    match leaderId raft with
    | Some id =>
        if truthy_str id && negb (String.eqb id self) then
          match jm_get (mm_nodes m) id with
          | Some l => if bool_decide (n_status l = active) then address_of l else ""
          | None => ""
          end
        else ""
    | None => ""
    end in
  if truthy_str fresh then fresh
  else
    match mm_leaderAddress m with
    | Some a => if truthy_str a && negb (String.eqb a (address_of n)) then a else ""
    | None => ""
    end.

Definition self_address m : string :=
  node_address (m_tailscaleIp (mm_config m)) (m_grpcPort (mm_config m)).

(** [approveNode] up to its await: its result, the state and the replication calls. *)
Definition approveNode (n : NodeInfo) (st : Member) : bool * Member * list (AppendCall D) :=
  let '(m, raft) := st in
  if negb (isLeader raft) then (false, st, [])
  else
    let d := stringify_join (mkJoinData (n_nodeId n) (n_hostname n) (n_tailscaleIp n)
                               (n_grpcPort n) (n_tags n)) in
    let '((success, _), raft, calls) := appendEntry node_join d raft in
    (success, (m, raft), calls).

(** Its end, when the replication has settled. *)
Definition approveNode_settled (n : NodeInfo) (success : bool) m : MembershipManager :=
  if success then m <| mm_pendingApprovals := jm_delete (mm_pendingApprovals m) (n_nodeId n) |> else m.

(** A join request is answered at once, or its answer waits for the approval. *)
Inductive JoinAnswer := join_answered (r : JoinResult) | join_approving (success : bool).

Definition handleJoinRequest (n : NodeInfo) (st : Member) :
    JoinAnswer * Member * list (AppendCall D) :=
  let '(m, raft) := st in
  if negb (isLeader raft) then
    (join_answered (mkJoinResult false false "" (redirectAddress n m raft) []), st, [])
  else if m_autoApprove (mm_config m) then
    let '(success, st, calls) := approveNode n st in (join_approving success, st, calls)
  else
    let m := m <| mm_pendingApprovals := jm_set (mm_pendingApprovals m) (n_nodeId n) n |> in
    let m := m_emit (me_nodeJoinRequest n) m in
    (join_answered (mkJoinResult false true "" (self_address m) []), (m, raft), []).

(** The answer after the approval, from the state found then. *)
Definition handleJoinRequest_approved (n : NodeInfo) (success : bool) m : JoinResult * MembershipManager :=
  let m := approveNode_settled n success m in
  (mkJoinResult true false (m_nodeId (mm_config m)) (self_address m)
     (filter (fun p => truthy_str (n_tailscaleIp p) && negb (n_grpcPort p =? 0) = true)
        (getAllNodes m)), m).

Definition removeNode (id : string) (graceful : bool) (st : Member) :
    bool * Member * list (AppendCall D) :=
  let '(m, raft) := st in
  if negb (isLeader raft) then (false, st, [])
  else
    match jm_get (mm_nodes m) id with
    | None => (false, st, [])
    | Some n =>
        let m :=
          if graceful then
            m_emit (me_nodeDraining (n <| n_status := draining |>))
              (update_node id (fun n => n <| n_status := draining |>) m)
          else m in
        let '((success, _), raft, calls) := appendEntry node_leave (stringify_leave id) raft in
        (success, (m, raft), calls)
    end.

Definition updateNodeResources (now : Z) (id : string) (res : NodeResources) m : MembershipManager :=
  update_node id (fun n => n <| n_resources := Some res |> <| n_lastSeen := now |>) m.

(** ** Heartbeats and failure detection *)

Record HeartbeatResponse := mkHeartbeatResponse {
  hr_acknowledged : bool;
  hr_leader_address : string;
  hr_leader_id : string
}.

Definition REJOIN_FAILURE_THRESHOLD : Z := 3.

(** [sendHeartbeat] before its call: [inl] is the state of a heartbeat that
    needs no call, [inr] the address it calls. *)
Definition sendHeartbeat_call (now : Z) m raft : MembershipManager + string :=
  if isLeader raft then
    inl ((update_node (m_nodeId (mm_config m)) (fun n => n <| n_lastSeen := now |>) m)
           <| mm_heartbeatFailures := 0 |>)
  else
    match mm_leaderAddress m with
    | Some a => if truthy_str a then inr a else inl (m <| mm_heartbeatFailures := 0 |>)
    | None => inl (m <| mm_heartbeatFailures := 0 |>)
    end.

(** ... and after it. *)
Definition sendHeartbeat_reply (now : Z) (resp : option HeartbeatResponse) m : MembershipManager :=
  let self := m_nodeId (mm_config m) in
  match resp with
  | Some resp =>
      if hr_acknowledged resp then
        let m := update_node self (fun n => n <| n_lastSeen := now |>) m in
        let m := if truthy_str (hr_leader_address resp)
                 then m <| mm_leaderAddress := Some (hr_leader_address resp) |> else m in
        let m := m <| mm_heartbeatFailures := 0 |> in
        if truthy_str (hr_leader_id resp) then
          let m := m <| mm_nodes ::=
                     demote (fun n => String.eqb (n_nodeId n) self
                                      || String.eqb (n_nodeId n) (hr_leader_id resp)) |> in
          update_node (hr_leader_id resp) (fun n => n <| n_role := role_leader |>) m
        else m
      else m
  | None =>
      let m := m <| mm_heartbeatFailures ::= fun k => k + 1 |> in
      if (REJOIN_FAILURE_THRESHOLD <=? mm_heartbeatFailures m) && negb (mm_rejoinInProgress m)
      then m_emit me_rejoinNeeded m else m
  end.

Definition resetHeartbeatFailures m : MembershipManager := m <| mm_heartbeatFailures := 0 |>.
Definition setRejoinInProgress (b : bool) m : MembershipManager := m <| mm_rejoinInProgress := b |>.

(** The verdict on one node, and the event it emits. *)
Definition judge (now timeout : Z) (n : NodeInfo) : NodeInfo * option MembershipEvent :=
  if bool_decide (n_status n = active) && (timeout <? now - n_lastSeen n) then
    let n := n <| n_status := offline |> in (n, Some (me_nodeOffline n))
  else if bool_decide (n_status n = offline) && (now - n_lastSeen n <=? timeout) then
    let n := n <| n_status := active |> in (n, Some (me_nodeRecovered n))
  else (n, None).

Definition detectFailures (now : Z) m raft : MembershipManager :=
  let self := m_nodeId (mm_config m) in
  if negb (isLeader raft) then
    m <| mm_nodes ::= jm_map (fun n => if String.eqb (n_nodeId n) self then n
                                       else n <| n_lastSeen := now |>) |>
  else
    let verdict n := if String.eqb (n_nodeId n) self then (n, None)
                     else judge now (heartbeatTimeoutMs m) n in
    m <| mm_nodes ::= jm_map (fun n => (verdict n).1) |>
      <| mm_emitted ::= fun evs => evs ++ omap (fun n => (verdict n).2) (getAllNodes m) |>.
End membership.
