(* ===== verification/MembershipProps.v ===== *)
(** * What the membership manager guarantees

    The node table is keyed by node id and contains every Raft peer; committed
    joins and leaves change both together; the failure detector follows the
    heartbeat timeout exactly; a join follows at most three addresses; the wire
    format keeps a node's identity. *)

From S2P Require Import Prelude JsMap JsString Json Raft RaftLog Membership.

Section props.
Context {D : Type} `{!EmptyBuffer D} `{!MembershipCodec D}.
Implicit Types (m : MembershipManager) (raft : RaftNode D) (n : NodeInfo).

(** ** Well-formedness *)

(** Every table entry is filed under its own id. *)
Definition keyed (nodes : jsmap NodeInfo) : Prop :=
  jm_wf nodes /\ forall k n, jm_get nodes k = Some n -> n_nodeId n = k.

Lemma keyed_set nodes k n : keyed nodes -> n_nodeId n = k -> keyed (jm_set nodes k n).
Proof.
  intros [Hwf Hk] Hn. split; [by apply jm_wf_set|]. intros k' n'.
  rewrite jm_get_set. case_decide; [naive_solver|apply Hk].
Qed.

Lemma keyed_delete nodes k : keyed nodes -> keyed (jm_delete nodes k).
Proof.
  intros [Hwf Hk]. split; [by apply jm_wf_delete|]. intros k' n'.
  destruct (decide (k = k')) as [->|Hne].
  - by rewrite jm_get_delete_eq.
  - rewrite jm_get_delete_ne by done. apply Hk.
Qed.

Lemma keyed_map f nodes :
  (forall n, n_nodeId (f n) = n_nodeId n) -> keyed nodes -> keyed (jm_map f nodes).
Proof.
  intros Hf [Hwf Hk]. split; [by apply jm_wf_map|]. intros k n'.
  rewrite jm_get_map. destruct (jm_get nodes k) eqn:E; [|done]. simpl. intros [= <-].
  rewrite Hf. by apply Hk.
Qed.

Lemma keyed_alter f k nodes :
  (forall n, n_nodeId (f n) = n_nodeId n) -> keyed nodes -> keyed (jm_alter f k nodes).
Proof.
  intros Hf [Hwf Hk]. split; [by apply jm_wf_alter|]. intros k' n'.
  rewrite jm_get_alter. case_decide; [|apply Hk].
  destruct (jm_get nodes k') eqn:E; [|done]. simpl. intros [= <-]. rewrite Hf. by apply Hk.
Qed.

Lemma keyed_sync now nodes peers : keyed nodes -> keyed (foldl (syncPeer now) nodes peers).
Proof.
  revert nodes. induction peers as [|p peers IH]; intros nodes H; [done|]. simpl. apply IH.
  unfold syncPeer. destruct (jm_has nodes (p_nodeId p)); [done|].
  destruct (split_colon (p_address p)). by apply keyed_set.
Qed.

(** The table covers the peers that Raft replicates to. *)
Definition covers (nodes : jsmap NodeInfo) raft : Prop :=
  jm_wf (peers raft) /\ forall k, jm_has (peers raft) k = true -> jm_has nodes k = true.

Definition member_ok (st : MembershipManager * RaftNode D) : Prop :=
  keyed (mm_nodes st.1) /\ covers (mm_nodes st.1) st.2.

Lemma has_set {A} (mp : jsmap A) k v k' :
  jm_has (jm_set mp k v) k' = bool_decide (k = k') || jm_has mp k'.
Proof. unfold jm_has. rewrite jm_get_set. by case_bool_decide; case_decide. Qed.

Lemma covers_add nodes raft id addr v n :
  covers nodes raft -> covers (jm_set nodes id n) (addPeer id addr v raft).
Proof.
  intros [Hwf Hc]. unfold addPeer. destruct (String.eqb id _).
  - split; [done|]. intros k Hk. rewrite has_set, (Hc k Hk). apply orb_true_r.
  - split; [by apply jm_wf_set|]. intros k. cbn. rewrite !has_set.
    intros [?|?]%orb_true_iff; apply orb_true_iff; auto.
Qed.

Lemma has_delete {A} (mp : jsmap A) k k' :
  jm_wf mp -> jm_has (jm_delete mp k) k' = negb (bool_decide (k = k')) && jm_has mp k'.
Proof.
  intros. unfold jm_has. case_bool_decide as E.
  - subst. by rewrite jm_get_delete_eq.
  - by rewrite jm_get_delete_ne.
Qed.

Lemma covers_remove nodes raft id :
  jm_wf nodes -> covers nodes raft -> covers (jm_delete nodes id) (removePeer id raft).
Proof.
  intros Hn [Hwf Hc]. split; [by apply jm_wf_delete|]. intros k. cbn.
  rewrite !has_delete by done. intros [H1 H2]%andb_true_iff. by rewrite H1, (Hc k H2).
Qed.

Lemma covers_keys nodes nodes' raft :
  (forall k, jm_has nodes k = true -> jm_has nodes' k = true) ->
  covers nodes raft -> covers nodes' raft.
Proof. intros H [Hwf Hc]. split; auto. Qed.

Lemma covers_peers nodes raft raft' :
  peers raft' = peers raft -> covers nodes raft -> covers nodes raft'.
Proof. unfold covers. by intros ->. Qed.

Lemma has_map {A} f (mp : jsmap A) k : jm_has (jm_map f mp) k = jm_has mp k.
Proof. unfold jm_has. rewrite jm_get_map. by destruct (jm_get mp k). Qed.

Lemma has_alter {A} f k (mp : jsmap A) k' : jm_has (jm_alter f k mp) k' = jm_has mp k'.
Proof.
  unfold jm_has. rewrite jm_get_alter. case_decide; [|done]. by destruct (jm_get mp k').
Qed.

Lemma has_sync now nodes ps k :
  jm_has nodes k = true -> jm_has (foldl (syncPeer now) nodes ps) k = true.
Proof.
  revert nodes. induction ps as [|p ps IH]; intros nodes H; [done|]. simpl. apply IH.
  unfold syncPeer. destruct (jm_has nodes (p_nodeId p)); [done|].
  destruct (split_colon (p_address p)). rewrite has_set, H. apply orb_true_r.
Qed.

(** The operations of the manager, as one type. *)
Inductive Operation :=
  | op_raftEvent (now : Z) (ev : RaftEvent D)
  | op_join (register : string -> option RegisterResponse) (seed : string)
  | op_joinRequest (n : NodeInfo)
  | op_joinApproved (n : NodeInfo) (success : bool)
  | op_approve (n : NodeInfo)
  | op_approved (n : NodeInfo) (success : bool)
  | op_remove (id : string) (graceful : bool)
  | op_resources (now : Z) (id : string) (res : NodeResources)
  | op_heartbeat (now : Z)
  | op_heartbeatReply (now : Z) (resp : option HeartbeatResponse)
  | op_resetFailures
  | op_setRejoin (b : bool)
  | op_detectFailures (now : Z).

Definition perform (op : Operation) (st : MembershipManager * RaftNode D) :
    MembershipManager * RaftNode D :=
  match op with
  | op_raftEvent now ev => onRaftEvent now ev st
  | op_join register seed => (joinCluster register seed st).2
  | op_joinRequest n => (handleJoinRequest n st).1.2
  | op_joinApproved n success => ((handleJoinRequest_approved n success st.1).2, st.2)
  | op_approve n => (approveNode n st).1.2
  | op_approved n success => (approveNode_settled n success st.1, st.2)
  | op_remove id graceful => (removeNode id graceful st).1.2
  | op_resources now id res => (updateNodeResources now id res st.1, st.2)
  | op_heartbeat now =>
      (match sendHeartbeat_call now st.1 st.2 with inl m => m | inr _ => st.1 end, st.2)
  | op_heartbeatReply now resp => (sendHeartbeat_reply now resp st.1, st.2)
  | op_resetFailures => (resetHeartbeatFailures st.1, st.2)
  | op_setRejoin b => (setRejoinInProgress b st.1, st.2)
  | op_detectFailures now => (detectFailures now st.1 st.2, st.2)
  end.

(** An update that keeps the table's keys and node ids. *)
Lemma member_ok_update m m' raft raft' :
  (keyed (mm_nodes m) -> keyed (mm_nodes m')) ->
  (forall k, jm_has (mm_nodes m) k = true -> jm_has (mm_nodes m') k = true) ->
  peers raft' = peers raft -> member_ok (m, raft) -> member_ok (m', raft').
Proof.
  intros H1 H2 H3 [Hk Hc]. split; [by apply H1|].
  by eapply covers_peers, covers_keys.
Qed.

Lemma appendEntry_peers ty d raft : peers (appendEntry ty d raft).1.2 = peers raft.
Proof. unfold appendEntry. by destruct (negb (isLeader raft)). Qed.

Lemma approveNode_ok n st : member_ok st -> member_ok (approveNode n st).1.2.
Proof.
  destruct st as [m raft]. intros H. unfold approveNode. destruct (negb (isLeader raft)); [done|].
  match goal with |- context [appendEntry ?ty ?d raft] =>
    pose proof (appendEntry_peers ty d raft) as Hp; destruct (appendEntry ty d raft) as [[[b i] r'] cs] end.
  cbn in *. by apply (member_ok_update m _ raft).
Qed.

Lemma approveNode_settled_ok n success m raft :
  member_ok (m, raft) -> member_ok (approveNode_settled n success m, raft).
Proof. unfold approveNode_settled. destruct success; [|done]. by apply (member_ok_update m _ raft). Qed.

Lemma removeNode_ok id g st : member_ok st -> member_ok (removeNode id g st).1.2.
Proof.
  destruct st as [m raft]. intros H. unfold removeNode. destruct (negb (isLeader raft)); [done|].
  destruct (jm_get (mm_nodes m) id) as [n|]; [|done].
  match goal with |- context [appendEntry ?ty ?d raft] =>
    pose proof (appendEntry_peers ty d raft) as Hp; destruct (appendEntry ty d raft) as [[[b i] r'] cs] end.
  cbn in *. destruct g; [|by apply (member_ok_update m _ raft)].
  apply (member_ok_update m _ raft); try done; cbn; [by apply keyed_alter|].
  intros k. by rewrite has_alter.
Qed.

Lemma addJoinedPeers_ok ps st : member_ok st -> member_ok (foldl addJoinedPeer st ps).
Proof.
  revert st. induction ps as [|p ps IH]; intros st H; [done|]. apply IH.
  destruct st as [m raft]. unfold addJoinedPeer. repeat case_match; [done|done|].
  destruct H as [Hk Hc]. split; cbn; [by apply keyed_set|by apply covers_add].
Qed.

Lemma joinApproved_ok resp st : member_ok st -> member_ok (joinApproved resp st).
Proof.
  destruct st as [m raft]. intros H. unfold joinApproved.
  set (m1 := set_self_status active (m <| mm_leaderAddress := Some (rr_leader_address resp) |>)).
  assert (H1 : member_ok (m1, raft)).
  { apply (member_ok_update m _ raft); try done; cbn; [by apply keyed_alter|].
    intros k. by rewrite has_alter. }
  pose proof (addJoinedPeers_ok (rr_peers resp) (m1, raft) H1) as H2.
  destruct (foldl addJoinedPeer (m1, raft) (rr_peers resp)) as [m2 raft2].
  destruct (truthy_str _); by apply (member_ok_update m2 _ raft2).
Qed.

Lemma join_ok register seed k st :
  member_ok st -> member_ok (joinClusterWithRedirect register seed k st).2.
Proof.
  revert seed. induction k as [|k IH]; intros seed H; cbn; [done|].
  destruct (register seed) as [resp|]; [|done].
  destruct (rr_pending_approval resp).
  { destruct st as [m raft]. apply (member_ok_update m _ raft); try done; cbn; [by apply keyed_alter|].
    intros k'. by rewrite has_alter. }
  destruct (rr_approved resp); [by apply joinApproved_ok|].
  destruct (_ && _); [|done]. specialize (IH (rr_leader_address resp) H).
  by destruct (joinClusterWithRedirect _ _ _ _) as [[b calls] st'].
Qed.

Lemma raftEvent_ok now ev st : member_ok st -> member_ok (onRaftEvent now ev st).
Proof.
  destruct st as [m raft]. intros H. destruct ev as [s t|id|id|e]; cbn.
  - unfold updateNodeRole. destruct (jm_get _ _); [|done].
    apply (member_ok_update m _ raft); try done; destruct s; cbn; try by apply keyed_alter.
    all: intros k; by rewrite has_alter.
  - apply (member_ok_update m _ raft); try done; cbn; [apply keyed_sync|apply has_sync].
  - unfold onLeaderChanged. destruct (jm_get _ _).
    + apply (member_ok_update m _ raft); try done; cbn.
      * intros Hk. apply keyed_alter, keyed_map; [done| |done]. intros n'. by case_match.
      * intros k. unfold demote. by rewrite has_alter, has_map.
    + apply (member_ok_update m _ raft); try done; cbn.
      * apply keyed_map. intros n'. by case_match.
      * intros k. unfold demote. by rewrite has_map.
  - unfold handleCommittedEntry. destruct (type e); try done.
    + destruct (parse_join (data e)) as [j|]; [|done]. destruct H as [Hk Hc].
      split; cbn; [by apply keyed_set|by apply covers_add].
    + destruct (parse_leave (data e)) as [id|]; [|done]. cbn.
      destruct (jm_get (mm_nodes m) id); [|done]. destruct H as [Hk Hc].
      split; cbn; [by apply keyed_delete|]. apply covers_remove; [apply Hk|done].
Qed.

(** C6: the node table.  Whatever the manager does, every entry of the table
    is filed under its own node id, no id occurs twice, and every peer Raft
    replicates to is in the table. *)
Theorem membership_invariant op st : member_ok st -> member_ok (perform op st).
Proof.
  intros H. destruct st as [m raft] eqn:E. destruct op; cbn [perform fst snd].
  - by apply raftEvent_ok.
  - by apply join_ok.
  - unfold handleJoinRequest. destruct (negb (isLeader raft)); [done|].
    destruct (m_autoApprove _).
    + pose proof (approveNode_ok n (m, raft) H) as Ha.
      by destruct (approveNode n (m, raft)) as [[b [m' raft']] cs].
    + by apply (member_ok_update m _ raft).
  - by apply approveNode_settled_ok.
  - by apply approveNode_ok.
  - by apply approveNode_settled_ok.
  - by apply removeNode_ok.
  - apply (member_ok_update m _ raft); try done; cbn; [by apply keyed_alter|].
    intros k. by rewrite has_alter.
  - unfold sendHeartbeat_call. repeat case_match; simplify_eq; try done;
      apply (member_ok_update m _ raft); try done; cbn; [by apply keyed_alter|].
    intros k. by rewrite has_alter.
  - apply (member_ok_update m _ raft); try done; unfold sendHeartbeat_reply;
      repeat case_match; cbn; try done; unfold demote.
    all: try (intros Hk; repeat first [apply keyed_alter; [done|] | apply keyed_map];
              [..|done]; intros n'; by case_match).
    all: try by apply keyed_alter.
    all: intros k; by rewrite ?has_alter, ?has_map, ?has_alter.
  - by apply (member_ok_update m _ raft).
  - by apply (member_ok_update m _ raft).
  - apply (member_ok_update m _ raft); try done; unfold detectFailures;
      destruct (negb (isLeader raft)); cbn.
    + apply keyed_map. intros n'. by case_match.
    + apply keyed_map. intros n'. unfold judge. by repeat case_match.
    + intros k. by rewrite has_map.
    + intros k. by rewrite has_map.
Qed.
End props.

Section contracts.
Context {D : Type} `{!EmptyBuffer D} `{!MembershipCodec D} `{!MembershipCodecLaws D}.
Implicit Types (m : MembershipManager) (raft : RaftNode D) (n : NodeInfo).

(** ** The failure detector *)

(** The status a leader gives a node it last heard from [age] milliseconds ago. *)
Definition verdict_status (timeout age : Z) (s : NodeStatus) : NodeStatus :=
  match s with
  | active | offline => if timeout <? age then offline else active
  | s => s
  end.

Lemma judge_status now timeout n :
  (judge now timeout n).1 = n <| n_status := verdict_status timeout (now - n_lastSeen n) (n_status n) |>.
Proof.
  unfold judge, verdict_status.
  destruct n as [i h ip p ro s re ta jo se]; cbn.
  destruct s, (timeout <? now - se) eqn:E; cbn; try done; prop_of_bool.
  - by rewrite (proj2 (Z.leb_gt _ _)) by lia.
  - by rewrite (proj2 (Z.leb_le _ _)) by lia.
Qed.

Lemma judge_event now timeout n n' :
  (judge now timeout n).2 = Some (me_nodeOffline n') <->
  n_status n = active /\ timeout < now - n_lastSeen n /\ n' = n <| n_status := offline |>.
Proof.
  unfold judge. destruct (bool_decide (n_status n = active)) eqn:Ea, (timeout <? now - n_lastSeen n) eqn:E;
    prop_of_bool; cbn; [naive_solver|..]; split.
  all: try (intros (? & ? & ?); try lia; congruence).
  all: repeat case_match; intros ?; simplify_eq.
Qed.

(** Failure detection.  When the leader checks, every other known node that
    is active or offline becomes offline exactly if its last heartbeat is
    older than the timeout and active otherwise, nothing else about it
    changes, and a node is reported offline exactly when it goes from active
    to offline; the leader never judges itself. *)
Theorem detectFailures_exact now m raft id n :
  keyed (mm_nodes m) -> isLeader raft = true -> getNode id m = Some n ->
  let m' := detectFailures now m raft in
  getNode id m' =
    Some (if String.eqb id (m_nodeId (mm_config m)) then n
          else n <| n_status := verdict_status (heartbeatTimeoutMs m) (now - n_lastSeen n) (n_status n) |>) /\
  exists evs, mm_emitted m' = mm_emitted m ++ evs /\
    forall n', n_nodeId n' = id ->
      (me_nodeOffline n' ∈ evs <->
       id <> m_nodeId (mm_config m) /\ n_status n = active /\
       heartbeatTimeoutMs m < now - n_lastSeen n /\ n' = n <| n_status := offline |>).
Proof.
  intros [Hwf Hk] Hl Hn. cbn zeta. unfold detectFailures. rewrite Hl. cbn [negb].
  set (self := m_nodeId (mm_config m)). set (timeout := heartbeatTimeoutMs m).
  assert (Hid : n_nodeId n = id) by (by apply Hk). split.
  - unfold getNode. cbn. rewrite jm_get_map. unfold getNode in Hn. rewrite Hn. simpl.
    rewrite Hid. destruct (String.eqb id self); [done|]. f_equal. apply judge_status.
  - eexists. split; [reflexivity|]. intros n' Hn'. rewrite list_elem_of_omap. split.
    + intros (x & Hx & E). destruct (String.eqb (n_nodeId x) self) eqn:Es; [done|].
      apply judge_event in E as (E1 & E2 & ->). cbn in Hn'.
      apply jm_values_get in Hx as [k Hx]; [|done]. pose proof (Hk _ _ Hx) as Hxk.
      rewrite Hn' in Hxk. subst k. unfold getNode in Hn. simplify_eq. prop_of_bool. done.
    + intros (H1 & H2 & H3 & ->). exists n. split; [by eapply jm_get_values|].
      rewrite Hid, (proj2 (String.eqb_neq id self)) by done. by apply judge_event.
Qed.

(** Each call after the first goes to the leader that the previous answer, a
    refusal, named. *)
Definition redirected (register : string -> option RegisterResponse) (a a' : string) : Prop :=
  exists resp, register a = Some resp /\ rr_leader_address resp = a' /\ a' <> a /\ a' <> "" /\
    rr_approved resp = false /\ rr_pending_approval resp = false.

Definition chain_ok register (calls : list string) : Prop :=
  forall i a a', calls !! i = Some a -> calls !! S i = Some a' -> redirected register a a'.

Lemma chain_single register a : chain_ok register [a].
Proof. by intros []. Qed.

Lemma chain_cons register a b calls :
  redirected register a b -> chain_ok register (b :: calls) -> chain_ok register (a :: b :: calls).
Proof. intros Hr Hc [|i] x y Hx Hy; [by simplify_eq/=|by eapply Hc]. Qed.

(** A join that ends with the call to [seed]. *)
Ltac join_leaf :=
  split; [exists []; split; [done|simpl; lia]|split; [apply chain_single|done]].

Lemma join_step register k seed (st : MembershipManager * RaftNode D) :
  joinClusterWithRedirect register seed (S k) st =
    match register seed with
    | None => (false, [seed], st)
    | Some resp =>
        if rr_pending_approval resp then
          (true, [seed], (m_emit me_pendingApproval (set_self_status pending_approval st.1), st.2))
        else if rr_approved resp then (true, [seed], joinApproved resp st)
        else if truthy_str (rr_leader_address resp) && negb (String.eqb (rr_leader_address resp) seed)
        then let r := joinClusterWithRedirect register (rr_leader_address resp) k st in
             (r.1.1, seed :: r.1.2, r.2)
        else (false, [seed], st)
    end.
Proof.
  destruct st as [m raft]. cbn [joinClusterWithRedirect]. repeat case_match; simplify_eq; done.
Qed.

Lemma join_chain register k seed (st : MembershipManager * RaftNode D) :
  let '(b, calls, st') := joinClusterWithRedirect register seed (S k) st in
  (exists calls', calls = seed :: calls' /\ (length calls' <= k)%nat) /\
  chain_ok register calls /\ (b = false -> st' = st).
Proof.
  revert seed. induction k as [|k IH]; intros seed; rewrite join_step.
  all: destruct (register seed) as [resp|] eqn:Er; [|join_leaf].
  all: destruct (rr_pending_approval resp) eqn:Ep; [join_leaf|].
  all: destruct (rr_approved resp) eqn:Ea; [join_leaf|].
  all: destruct (truthy_str (rr_leader_address resp)) eqn:Et; [|join_leaf].
  all: destruct (String.eqb (rr_leader_address resp) seed) eqn:Es;
    cbn [negb andb]; [join_leaf|].
  - cbn. join_leaf.
  - specialize (IH (rr_leader_address resp)). cbn zeta.
    destruct (joinClusterWithRedirect register (rr_leader_address resp) (S k) st)
      as [[b calls] st']. cbn [fst snd].
    destruct IH as ((calls' & -> & Hlen) & Hc & Hf). split_and!; [|apply chain_cons; [|done]|done].
    + eexists. split; [done|]. simpl. lia.
    + exists resp. unfold truthy_str in Et. prop_of_bool. by split_and!.
Qed.

(** Joining ends.  A join calls at most three addresses, the first being
    the seed and each later one the leader the previous answer named; and if it
    does not succeed the manager and the Raft node are as before. *)
Theorem joinCluster_bounded register seed (st : MembershipManager * RaftNode D) :
  let '(b, calls, st') := joinCluster register seed st in
  (1 <= length calls <= 3)%nat /\ head calls = Some seed /\
  chain_ok register calls /\ (b = false -> st' = st).
Proof.
  unfold joinCluster. pose proof (join_chain register 2 seed st) as H.
  destruct (joinClusterWithRedirect register seed 3 st) as [[b calls] st'].
  destruct H as ((calls' & -> & Hlen) & Hc & Hf). split_and!; simpl; try done; lia.
Qed.

(** ** Admission *)

(** The entry at the end of the leader's log. *)
Lemma appendEntry_last ty d raft :
  isLeader raft = true ->
  last (log (appendEntry ty d raft).1.2) =
    Some (mkLogEntry (currentTerm raft) (getLastLogIndex raft + 1) ty d).
Proof. intros Hl. unfold appendEntry. rewrite Hl. cbn. apply last_snoc. Qed.

(** Admission.  When a leader approves a node and the entry it appended
    is committed at any member, that member lists the node as active under the
    approved address, and Raft there replicates to it (unless it is the member
    itself), as a voter exactly if the id does not end in -mcp. *)
Theorem approval_admits now n st st' e :
  isLeader st.2 = true -> last (log (approveNode n st).1.2.2) = Some e ->
  let st2 := handleCommittedEntry now e st' in
  option_map (fun x => (n_status x, address_of x)) (getNode (n_nodeId n) st2.1)
    = Some (active, address_of n) /\
  (n_nodeId n <> nodeId (config st'.2) ->
   option_map (fun p => (p_address p, p_votingMember p)) (jm_get (peers st2.2) (n_nodeId n))
     = Some (address_of n, negb (js_endsWith (n_nodeId n) "-mcp"))).
Proof.
  destruct st as [m raft], st' as [m' raft']. cbn [fst snd]. intros Hl. unfold approveNode.
  rewrite Hl. cbn [negb].
  match goal with |- context [appendEntry ?ty ?d raft] =>
    pose proof (appendEntry_last ty d raft Hl) as He; destruct (appendEntry ty d raft) as [[[b i] r'] cs] end.
  cbn in He. cbn; rewrite He; intros [= <-]; unfold handleCommittedEntry; cbn.
  all: rewrite parse_stringify_join; cbn; unfold getNode; cbn; rewrite jm_get_set_eq.
  all: split; [done|]; intros Hne; unfold addPeer.
  all: rewrite (proj2 (String.eqb_neq _ _)) by done; cbn; by rewrite jm_get_set_eq.
Qed.

(** The wire format.  Decoding an encoded node gives the node back, apart
    from its resources, which the decoder drops. *)
Theorem node_proto_roundtrip n : protoToNode (nodeToProto n) = Some (n <| n_resources := None |>).
Proof.
  destruct n as [i h ip p ro s re ta jo se]. unfold protoToNode, nodeToProto. cbn [pn_joined_at pn_last_seen pn_role pn_status].
  replace (as_role _) with (Some ro) by (by destruct ro).
  replace (as_status _) with (Some s) by (by destruct s).
  cbn. by rewrite !parseInt_toString.
Qed.

(** One leader in the table.  After Raft reports a new leader, no node
    other than the member itself and that leader is marked as leader, and if
    the leader is known its address is the one that is used. *)
Theorem onLeaderChanged_unique id m k n :
  keyed (mm_nodes m) -> getNode k (onLeaderChanged id m) = Some n -> n_role n = role_leader ->
  (k = m_nodeId (mm_config m) \/ k = id) /\
  (k = id -> mm_leaderAddress (onLeaderChanged id m) = Some (address_of n)).
Proof.
  intros [Hwf Hk]. unfold getNode, onLeaderChanged. cbn.
  set (self := m_nodeId (mm_config m)). unfold demote.
  assert (Hd : forall x nx, jm_get (jm_map (fun n => if bool_decide (n_role n = role_leader)
      && negb (String.eqb (n_nodeId n) self) then n <| n_role := role_follower |> else n) (mm_nodes m)) x
      = Some nx -> n_role nx = role_leader -> x = self).
  { intros x nx. rewrite jm_get_map. destruct (jm_get (mm_nodes m) x) as [y|] eqn:Ey; [|done].
    simpl. intros [= <-]. destruct (bool_decide (n_role y = role_leader)) eqn:Er; cbn.
    - destruct (String.eqb (n_nodeId y) self) eqn:Es; cbn; [|done]. prop_of_bool.
      intros _. rewrite <- Es. symmetry. by apply Hk.
    - intros ?. prop_of_bool. done. }
  destruct (jm_get (jm_map _ _) id) as [l|] eqn:El; cbn.
  - rewrite jm_get_alter. case_decide as E; subst.
    + rewrite El. simpl. intros [= <-] _. split; [by right|]. done.
    + intros Hn Hr. split; [left; by eapply Hd|]. by intros ->.
  - intros Hn Hr. split; [left; by eapply Hd|]. intros ->. congruence.
Qed.
End contracts.

(** ** A concrete member *)

Definition member_a : MembershipManager :=
  new_MembershipManager (mkMembershipConfig "a" "alpha" "100.64.0.1" 50051 (Some 15000) true) 0.

Definition node_b : NodeInfo :=
  mkNodeInfo "b" "beta" "100.64.0.2" 50051 role_follower active None [] 0 0.

Definition raft_a : RaftNode string :=
  (new_RaftNode (mkRaftConfig "a" None false None) file_missing true)
    <| state := leader |> <| currentTerm := 1 |>.

(** a, the leader, once b's admission is committed at time 100. *)
Definition joined_ab : MembershipManager * RaftNode string :=
  handleNodeJoinCommitted 100 (mkJoinData "b" "beta" "100.64.0.2" 50051 []) (member_a, raft_a).

Lemma member_a_ok : member_ok (member_a, raft_a).
Proof.
  split; cbn.
  - split; [exact (NoDup_singleton "a")|].
    intros k n. cbn [jm_get mm_nodes member_a new_MembershipManager jm_set].
    destruct (String.eqb _ k) eqn:E; [|done]. prop_of_bool. by intros [= <-].
  - split; [constructor|done].
Qed.

Lemma membership_invariant_witness :
  member_ok (perform (op_raftEvent 100 (ev_entryCommitted
    (mkLogEntry 1 1 node_join (stringify_join (mkJoinData "b" "beta" "100.64.0.2" 50051 [])))))
    (member_a, raft_a)).
Proof. apply (membership_invariant _ (member_a, raft_a)), member_a_ok. Defined.

Lemma detectFailures_exact_witness :
  n_status <$> getNode "b" (detectFailures 20000 joined_ab.1 joined_ab.2) = Some offline.
Proof.
  assert (Hk : keyed (mm_nodes joined_ab.1)).
  { apply keyed_set; [apply member_a_ok|done]. }
  destruct (detectFailures_exact 20000 joined_ab.1 joined_ab.2 "b"
    (mkNodeInfo "b" "beta" "100.64.0.2" 50051 role_follower active None [] 100 100) Hk eq_refl eq_refl)
    as [-> _]. reflexivity.
Defined.

Lemma approval_admits_witness :
  option_map (fun x => (n_status x, address_of x))
    (getNode "b" (handleCommittedEntry 100
       (mkLogEntry 1 1 node_join (stringify_join (mkJoinData "b" "beta" "100.64.0.2" 50051 [])))
       (member_a, raft_a)).1) = Some (active, "100.64.0.2:50051").
Proof.
  apply (approval_admits 100 node_b (member_a, raft_a) (member_a, raft_a)); reflexivity.
Defined.

Lemma onLeaderChanged_unique_witness :
  mm_leaderAddress (onLeaderChanged "b" joined_ab.1) = Some "100.64.0.2:50051".
Proof.
  assert (Hk : keyed (mm_nodes joined_ab.1)).
  { apply keyed_set; [apply member_a_ok|done]. }
  apply (onLeaderChanged_unique "b" joined_ab.1 "b"
    (mkNodeInfo "b" "beta" "100.64.0.2" 50051 role_leader active None [] 100 100) Hk);
    reflexivity.
Defined.

(** ** Two views of an observer *)

(** An observer (an id ending in -mcp) is a non-voting peer of every member that
    saw its node_join committed, and a voting peer of a node that learns of it
    from the answer to its own registration. *)
Theorem observer_voting_divergence :
  let observer := mkNodeInfo "x-mcp" "x" "100.64.0.9" 50052 role_follower active None [] 0 0 in
  let joined := handleNodeJoinCommitted 0
                  (mkJoinData "x-mcp" "x" "100.64.0.9" 50052 []) (member_a, raft_a) in
  let joiner := joinApproved (mkRegisterResponse true false "a" "100.64.0.1:50051" [observer] "")
                  (member_a, raft_a) in
  (p_votingMember <$> jm_get (peers joined.2) "x-mcp") = Some false /\
  (p_votingMember <$> jm_get (peers joiner.2) "x-mcp") = Some true.
Proof. split; reflexivity. Qed.

