(* ===== verification/Replication.v ===== *)
(** * Shared memory replication (src/src/memory/replication.ts,
      src/src/memory/shared-memory-db.ts, and the handlers ForwardMemoryWrite and
      RequestMemorySnapshot of src/src/grpc/handlers.ts)

    A replicated write becomes a memory_write entry of the Raft log; every node
    applies it to its own database when it is committed.  A node that joins late
    copies the database file of the leader in chunks.

    - The SQL engine (better-sqlite3) is the interface [SqlEngine]: what a
      statement does to the database, and the queries that the code writes
      itself.  SHA-256 is a function on bytes about which nothing is assumed.
    - A remote call is a function of the attempt that returns the answer or the
      exception; the state it runs in is a function of the attempt too, since
      other work runs during every [await].
    - Files are a finite map from paths to bytes. *)

From S2P Require Import Prelude JsMap JsString Json Raft Membership.
From Stdlib Require Import Ascii.

(** ** SharedMemoryDB *)

Inductive Classification := cl_public | cl_internal | cl_local.
#[export] Instance Classification_eq_dec : EqDecision Classification.
Proof. solve_decision. Defined.

Definition classification_string (c : Classification) : string :=
  match c with cl_public => "public" | cl_internal => "internal" | cl_local => "local" end.

(** The rows of the three queries of [generateWhereami]. *)
Record ThreadRow := mkThreadRow {
  th_id : Z;
  th_name : string;
  th_status : string;
  th_current_thought_id : option Z;
  th_current_thought_content : option string;
  th_project_name : option string;
  th_thought_count : Z
}.
Record ContextRow := mkContextRow {
  cx_key : string;
  cx_label : option string;
  cx_value : string
}.
Record ThoughtRow := mkThoughtRow {
  tr_id : Z;
  tr_thread_id : Z;
  tr_content : string;
  tr_thought_type : string;
  tr_thread_name : string
}.

(** What the code uses of the SQL engine.  [sql_run now sql params db] is
    [db.prepare(sql).run(...params)] at time [now] (the engine evaluates
    [datetime('now')]): the new database, and the number of changed rows or the
    message of the exception. *)
Class SqlEngine (T : Type) := {
  sql_run : Z -> string -> list json -> T -> T * (string + Z);
  sql_classification : T -> string -> option Classification;
  sql_threads : T -> list ThreadRow;
  sql_pinned : T -> list ContextRow;
  sql_recent : T -> list ThoughtRow
}.

(** The row that [initializeSchema] registers for a table. *)
Record TableClassification := mkTableClassification {
  tc_table_name : string;
  tc_classification : Classification;
  tc_domain : string
}.

Definition defaultClassifications : list TableClassification := [
  mkTableClassification "timeline_projects" cl_public "timeline";
  mkTableClassification "timeline_threads" cl_public "timeline";
  mkTableClassification "timeline_thoughts" cl_public "timeline";
  mkTableClassification "timeline_thread_position" cl_public "timeline";
  mkTableClassification "timeline_context" cl_internal "timeline";
  mkTableClassification "network_clients" cl_public "network";
  mkTableClassification "network_networks" cl_public "network";
  mkTableClassification "infra_builds" cl_public "infra";
  mkTableClassification "infra_configs" cl_public "infra";
  mkTableClassification "infra_events" cl_public "infra";
  mkTableClassification "infra_sessions" cl_public "infra";
  mkTableClassification "infra_secrets" cl_internal "infra";
  mkTableClassification "task_agent_tasks" cl_public "task"
].

(** [INSERT OR IGNORE INTO _table_classification], keyed by the table name. *)
Definition insert_or_ignore (rows : list TableClassification) (r : TableClassification) :
    list TableClassification :=
  if existsb (fun r' => String.eqb (tc_table_name r') (tc_table_name r)) rows
  then rows else rows ++ [r].

Definition registerDefaults (rows : list TableClassification) : list TableClassification :=
  fold_left insert_or_ignore defaultClassifications rows.

Definition shouldSnapshot (sql : string) : bool :=
  let lower := js_toLowerCase sql in
  js_includes lower "timeline_" || js_includes lower "_context".

(** [s.length > n ? s.slice(0, n) + '...' : s]. *)
Definition truncated (n : Z) (s : string) : string :=
  if n <? js_str_length s then js_slice_str s 0 n +:+ "..." else s.

Definition opt_suffix (pre : string) (o : option string) (post : string) : string :=
  match o with
  | Some s => if truthy_str s then str [pre; s; post] else ""
  | None => ""
  end.

Definition thread_lines (t : ThreadRow) : list string :=
  str ["- **#"; js_toString (th_id t); " "; th_name t; "**";
       opt_suffix " (project: " (th_project_name t) ")";
       if String.eqb (th_status t) "paused" then " [PAUSED]" else "";
       " — "; js_toString (th_thought_count t); " thoughts"]
  :: match th_current_thought_content t with
     | Some c =>
         if truthy_str c
         then [str ["  Position: thought #";
                    match th_current_thought_id t with Some i => js_toString i | None => "null" end;
                    " — "; String dq ""; truncated 200 c; String dq ""]]
         else []
     | None => []
     end.

Definition context_line (c : ContextRow) : string :=
  str ["- `"; cx_key c; "`"; opt_suffix " (" (cx_label c) ")"; ": "; truncated 150 (cx_value c)].

Definition recent_line (r : ThoughtRow) : string :=
  str [js_toString (tr_id r); ". #"; js_toString (tr_id r); " ("; tr_thought_type r; ", thread #";
       js_toString (tr_thread_id r); " "; tr_thread_name r; "): "; truncated 200 (tr_content r)].

Definition section_lines {A} (title none : string) (render : A -> list string) (rows : list A) :
    list string :=
  title :: match rows with [] => [none; ""] | _ => flat_map render rows ++ [""] end.

Section db.
Context {T : Type} `{!SqlEngine T}.

(** The open connection with its tables, and whereami.md. *)
Record SharedMemoryDB := mkSharedMemoryDB {
  dbPath : string;
  db_open : bool;
  db_tables : T;
  db_whereami : option string
}.
#[export] Instance SharedMemoryDB_eta : EtaRecord SharedMemoryDB := fun d =>
  mkSharedMemoryDB (dbPath d) (db_open d) (db_tables d) (db_whereami d).

(** The text of whereami.md at the time whose ISO form is [now]. *)
Definition generateWhereami_text (now : string) (t : T) : string :=
  join_with newline
    ([str ["# Cortex State — "; now]; ""] ++
     section_lines "## Active Threads" "No active threads." thread_lines (sql_threads t) ++
     section_lines "## Pinned Context" "No pinned context." (fun c => [context_line c]) (sql_pinned t) ++
     section_lines "## Recent Thoughts" "No thoughts yet." (fun r => [recent_line r]) (sql_recent t)).

(** [toISOString] of the clock, and whether whereami.md can be written. *)
Context (iso : Z -> string) (writable : bool).

Definition generateWhereami (now : Z) (d : SharedMemoryDB) : SharedMemoryDB :=
  if writable then d <| db_whereami := Some (generateWhereami_text (iso now) (db_tables d)) |> else d.

(** [run]: an exception of the statement propagates; a failure of the snapshot
    is logged and dropped. *)
Definition run (now : Z) (sql : string) (params : list json) (d : SharedMemoryDB) :
    SharedMemoryDB * (string + Z) :=
  if negb (db_open d) then (d, inl "The database connection is not open")
  else
    let '(t, res) := sql_run now sql params (db_tables d) in
    let d := d <| db_tables := t |> in
    match res with
    | inl e => (d, inl e)
    | inr changes => (if shouldSnapshot sql then generateWhereami now d else d, inr changes)
    end.

Definition getTableClassification (table : string) (d : SharedMemoryDB) : option Classification :=
  sql_classification (db_tables d) table.

Definition close (d : SharedMemoryDB) : SharedMemoryDB := d <| db_open := false |>.
End db.
Arguments SharedMemoryDB : clear implicits.

(** ** MemoryReplicator *)

Record WriteResult := mkWriteResult {
  wr_success : bool;
  wr_error : option string;
  wr_changes : option Z
}.

Definition write_failed (e : string) : WriteResult := mkWriteResult false (Some e) None.

Record WriteOptions := mkWriteOptions {
  wo_classification : option Classification;
  wo_table : option string
}.

(** The messages of ForwardMemoryWrite. *)
Record MemoryWriteRequest := mkMemoryWriteRequest {
  mw_sql : string;
  mw_params : string;
  mw_checksum : string;
  mw_classification : string;
  mw_table : string
}.
Record MemoryWriteResponse := mkMemoryWriteResponse {
  mr_success : bool;
  mr_error : string
}.

(** What a forwarded write does outside the process. *)
Inductive ForwardEvent :=
  | fe_call (address : string) (req : MemoryWriteRequest)
  | fe_closeConnection (address : string)
  | fe_sleep (ms : Z).

(** A chunk of RequestMemorySnapshot; the int64 fields travel as text. *)
Record SnapshotChunk := mkSnapshotChunk {
  ch_data : list ascii;
  ch_offset : string;
  ch_total_size : string;
  ch_done : bool;
  ch_checksum : string
}.

Definition maxRetries : nat := 3.
Definition CHUNK_SIZE : Z := 64 * 1024.

Section replication.
Context {T : Type} `{!SqlEngine T}.
Context (sha256 : list ascii -> string).
Context (iso : Z -> string) (writable : bool).

Record MemoryReplicator := mkMemoryReplicator {
  rp_db : SharedMemoryDB T;
  rp_raft : RaftNode string;
  rp_membership : MembershipManager;
  rp_nodeId : string;
  rp_listening : bool;
  rp_integrityInterval : bool;
  rp_fs : gmap string (list ascii)
}.
#[export] Instance MemoryReplicator_eta : EtaRecord MemoryReplicator := fun m =>
  mkMemoryReplicator (rp_db m) (rp_raft m) (rp_membership m) (rp_nodeId m) (rp_listening m)
    (rp_integrityInterval m) (rp_fs m).
Implicit Types (m : MemoryReplicator) (d : SharedMemoryDB T).

(** [createHash('sha256').update(text).digest('hex')]. *)
Definition sha256_text (text : string) : string := sha256 (String.list_ascii_of_string text).

Definition write_checksum (sql : string) (params : list json) : string :=
  sha256_text (sql +:+ stringify (JArr params)).

Definition getClassificationForTable (table : option string) d : Classification :=
  match table with
  | Some t => if truthy_str t then default cl_public (getTableClassification t d) else cl_public
  | None => cl_public
  end.

Definition applyLocally (now : Z) (sql : string) (params : list json) m :
    WriteResult * MemoryReplicator :=
  let '(d, res) := run iso writable now sql params (rp_db m) in
  (match res with
   | inr changes => mkWriteResult true None (Some changes)
   | inl e => write_failed e
   end, m <| rp_db := d |>).

(** [{ sql, params, checksum, classification, table }] as JSON: undefined
    properties are left out. *)
Definition opt_member (k : string) (o : option string) : list (string * json) :=
  match o with Some s => [(k, JStr s)] | None => [] end.

Definition write_entry (sql : string) (params : list json) (checksum : string)
    (classification table : option string) : json :=
  JObj ([("sql", JStr sql); ("params", JArr params); ("checksum", JStr checksum)] ++
        opt_member "classification" classification ++ opt_member "table" table).

Definition writeAsLeader (sql : string) (params : list json) (checksum : string)
    (classification table : option string) (raft : RaftNode string) :
    WriteResult * RaftNode string * list (AppendCall string) :=
  let data := stringify (write_entry sql params checksum classification table) in
  let '((success, _), raft, calls) := appendEntry memory_write data raft in
  (if success then mkWriteResult true None (Some 0)
   else write_failed "Failed to append to Raft log", raft, calls).

Definition resolveLeaderAddress (mm : MembershipManager) (raft : RaftNode string) : option string :=
  match getLeaderAddress mm with
  | Some cached => if truthy_str cached then Some cached else None
  | None => None
  end ∪
  match leaderId raft with
  | Some id =>
      if truthy_str id then
        match getNode id mm with
        | Some n =>
            if truthy_str (n_tailscaleIp n) && negb (n_grpcPort n =? 0)
            then Some (node_address (n_tailscaleIp n) (n_grpcPort n)) else None
        | None => None
        end
      else None
  | None => None
  end.

Definition forward_request (sql : string) (params : list json) (checksum : string)
    (classification table : option string) : MemoryWriteRequest :=
  mkMemoryWriteRequest sql (stringify (JArr params)) checksum
    (default "" classification) (default "" table).

(** The retry loop of [forwardToLeader]: [fuel] rounds are left, [attempt] is
    the loop variable.  [env attempt] is the node's state in that round and
    [rpc attempt] answers its call, or throws with a message. *)
Fixpoint forward_loop (env : nat -> MembershipManager * RaftNode string)
    (rpc : nat -> string -> MemoryWriteRequest -> string + MemoryWriteResponse)
    (req : MemoryWriteRequest) (fuel attempt : nat) : WriteResult * list ForwardEvent :=
  match fuel with
  | O => (write_failed "Forward to leader failed after retries", [])
  | S fuel =>
      let '(mm, raft) := env attempt in
      let again evs :=
        let '(res, rest) := forward_loop env rpc req fuel (S attempt) in (res, evs ++ rest) in
      let last := negb (attempt <? maxRetries - 1)%nat in
      match resolveLeaderAddress mm raft with
      | None =>
          if negb (truthy_opt (leaderId raft)) || last
          then (write_failed "No leader available to forward write", [])
          else again [fe_sleep (1000 * (Z.of_nat attempt + 1))]
      | Some addr =>
          match rpc attempt addr req with
          | inr resp =>
              if mr_success resp then (mkWriteResult true None None, [fe_call addr req])
              else if String.eqb (mr_error resp) "Not the leader"
              then again [fe_call addr req; fe_closeConnection addr; fe_sleep 1000]
              else (mkWriteResult false
                      (if truthy_str (mr_error resp) then Some (mr_error resp) else None) None,
                    [fe_call addr req])
          | inl e =>
              if last then (write_failed e, [fe_call addr req; fe_closeConnection addr])
              else again [fe_call addr req; fe_closeConnection addr;
                          fe_sleep (1000 * (Z.of_nat attempt + 1))]
          end
      end
  end.

Definition forwardToLeader env rpc (sql : string) (params : list json) (checksum : string)
    (classification table : option string) : WriteResult * list ForwardEvent :=
  forward_loop env rpc (forward_request sql params checksum classification table) maxRetries 0.

(** [write]: its result, the replicator after its own changes, the replication
    calls that Raft starts and the traffic of a forwarded write. *)
Definition write env rpc (now : Z) (sql : string) (params : list json) (options : WriteOptions) m :
    WriteResult * MemoryReplicator * list (AppendCall string) * list ForwardEvent :=
  let table := wo_table options in
  let classification :=
    match wo_classification options with
    | Some c => c
    | None => getClassificationForTable table (rp_db m)
    end in
  if bool_decide (classification = cl_local)
  then let '(res, m) := applyLocally now sql params m in (res, m, [], [])
  else
    let checksum := write_checksum sql params in
    let cls := Some (classification_string classification) in
    if isLeader (rp_raft m)
    then let '(res, raft, calls) := writeAsLeader sql params checksum cls table (rp_raft m) in
         (res, m <| rp_raft := raft |>, calls, [])
    else let '(res, evs) := forwardToLeader env rpc sql params checksum cls table in
         (res, m, [], evs).

(** ** Applying committed entries *)

(** [...params] in a call, where [params = []] is the default: the characters of
    a string, and a [TypeError] for what is not iterable. *)
Definition spread (p : option json) : option (list json) :=
  match p with
  | None => Some []
  | Some (JArr l) => Some l
  | Some (JStr s) => Some (map (fun c => JStr (String c "")) (String.list_ascii_of_string s))
  | Some _ => None
  end.

(** [JSON.stringify(params)] as a string operand; [undefined] has no text. *)
Definition params_text (p : option json) : string :=
  match p with Some j => stringify j | None => "undefined" end.

(** [handleCommittedEntry].  A payload whose [sql] is no string is rejected by
    the checksum test or by [prepare], which throws; either way nothing
    changes. *)
Definition handleCommittedEntry (now : Z) (e : LogEntry string) d : SharedMemoryDB T :=
  if negb (bool_decide (type e = memory_write)) then d
  else
    match parse (data e) with
    | Some (JObj payload) =>
        match jm_get payload "sql" with
        | Some (JStr sql) =>
            let params := jm_get payload "params" in
            let expectedChecksum := sha256_text (sql +:+ params_text params) in
            match jm_get payload "checksum" with
            | Some (JStr checksum) =>
                if negb (String.eqb checksum expectedChecksum) then d
                else match spread params with
                     | Some args => (run iso writable now sql args d).1
                     | None => d
                     end
            | _ => d
            end
        | _ => d
        end
    | _ => d
    end.

(** The listener of 'entryCommitted', until [stop] removes it. *)
Definition onEntryCommitted (now : Z) (e : LogEntry string) m : MemoryReplicator :=
  if rp_listening m then m <| rp_db ::= handleCommittedEntry now e |> else m.

Definition startIntegrityChecks m : MemoryReplicator := m <| rp_integrityInterval := true |>.
Definition stopIntegrityChecks m : MemoryReplicator := m <| rp_integrityInterval := false |>.
Definition stop m : MemoryReplicator := (stopIntegrityChecks m) <| rp_listening := false |>.

(** ** The leader's handlers *)

(** ForwardMemoryWrite; [JSON.parse] of the parameters may throw. *)
Definition undefined_if_empty (s : string) : option string :=
  if truthy_str s then Some s else None.

Definition ForwardMemoryWrite (syntaxError : string) (req : MemoryWriteRequest) (raft : RaftNode string) :
    MemoryWriteResponse * RaftNode string * list (AppendCall string) :=
  if negb (isLeader raft) then (mkMemoryWriteResponse false "Not the leader", raft, [])
  else
    match parse (if truthy_str (mw_params req) then mw_params req else "[]") with
    | None => (mkMemoryWriteResponse false syntaxError, raft, [])
    | Some params =>
        if negb (String.eqb (mw_checksum req) (sha256_text (mw_sql req +:+ stringify params)))
        then (mkMemoryWriteResponse false "Checksum verification failed", raft, [])
        else
          let entry := JObj ([("sql", JStr (mw_sql req)); ("params", params);
                              ("checksum", JStr (mw_checksum req))] ++
                             opt_member "classification" (undefined_if_empty (mw_classification req)) ++
                             opt_member "table" (undefined_if_empty (mw_table req))) in
          let '((success, _), raft, calls) := appendEntry memory_write (stringify entry) raft in
          (mkMemoryWriteResponse success (if success then "" else "Failed to append to Raft log"),
           raft, calls)
    end.

(** [for (offset = 0; offset < totalSize; offset += CHUNK_SIZE)]: every round
    sends at least one byte, so the length of the file is enough fuel. *)
Fixpoint send_chunks (fuel : nat) (file : list ascii) (offset : Z) : list SnapshotChunk :=
  match fuel with
  | O => []
  | S fuel =>
      let totalSize := js_length file in
      if offset <? totalSize then
        let chunk := js_slice file offset (Z.min (offset + CHUNK_SIZE) totalSize) in
        let isDone := totalSize <=? offset + CHUNK_SIZE in
        mkSnapshotChunk chunk (js_toString offset) (js_toString totalSize) isDone
          (if isDone then sha256 file else "")
        :: send_chunks fuel file (offset + CHUNK_SIZE)
      else []
  end.

(** RequestMemorySnapshot: the chunks written before the stream ends. *)
Definition RequestMemorySnapshot (file : option (list ascii)) : list SnapshotChunk :=
  match file with
  | None => []
  | Some file => send_chunks (length file) file 0
  end.

(** ** Receiving a snapshot *)

(** [source.copy(target, start)]: clipped to the end of the target, a
    [RangeError] for a negative start. *)
Definition buffer_copy (source target : list ascii) (start : Z) : option (list ascii) :=
  if start <? 0 then None
  else
    let i := Z.to_nat start in
    let n := Nat.min (length source) (length target - i) in
    if (length target <=? i)%nat then Some target
    else Some (take i target ++ take n source ++ drop (i + n) target).

(** [for (const chunk of chunks) chunk.data.copy(fileBuffer, chunk.offset)];
    [NaN] counts as 0. *)
Fixpoint copy_chunks (chunks : list SnapshotChunk) (buffer : list ascii) : option (list ascii) :=
  match chunks with
  | [] => Some buffer
  | c :: chunks =>
      match buffer_copy (ch_data c) buffer (default 0 (parseInt (ch_offset c))) with
      | Some buffer => copy_chunks chunks buffer
      | None => None
      end
  end.

(** The checksum of the last chunk marked done. *)
Definition received_checksum (chunks : list SnapshotChunk) : string :=
  fold_left (fun acc c => if ch_done c then ch_checksum c else acc) chunks "".

(** [Buffer.alloc(totalSize)]: zero bytes; [NaN] and negative sizes throw. *)
Definition buffer_alloc (size : option Z) : option (list ascii) :=
  match size with
  | Some n => if n <? 0 then None else Some (repeat (ascii_of_nat 0) (Z.to_nat n))
  | None => None
  end.

(** [totalSize] after the stream: that of the last chunk. *)
Definition total_size (chunks : list SnapshotChunk) : option Z :=
  match last chunks with Some c => parseInt (ch_total_size c) | None => Some 0 end.

(** [requestSnapshot] after the stream: [None] when it failed. *)
Definition requestSnapshot (stream : option (list SnapshotChunk)) m : bool * MemoryReplicator :=
  if negb (truthy_opt (getLeaderAddress (rp_membership m))) then (false, m)
  else
    match stream with
    | None => (false, m)
    | Some [] => (false, m)
    | Some chunks =>
        match buffer_alloc (total_size chunks) ≫= copy_chunks chunks with
        | None => (false, m)
        | Some fileBuffer =>
            let receivedChecksum := received_checksum chunks in
            if truthy_str receivedChecksum && negb (String.eqb (sha256 fileBuffer) receivedChecksum)
            then (false, m)
            else if negb writable then (false, m)
            else (true, m <| rp_db ::= close |>
                          <| rp_fs ::= insert (dbPath (rp_db m)) fileBuffer |>)
        end
    end.
End replication.
Arguments MemoryReplicator : clear implicits.
