(* ===== verification/ReplicationProps.v ===== *)
(** * What replication of the shared memory guarantees

    A write that Raft accepts is executed by every node that sees the entry
    committed, whether the leader made it or a follower forwarded it; bytes that
    fail their checksum execute nothing; forwarding makes at most three calls;
    replicas with the same committed log have the same tables; a snapshot
    arrives as it was sent. *)

From S2P Require Import Prelude JsMap JsString Json Raft RaftLog RaftProps Membership Replication.
From Stdlib Require Import Ascii.

Section writes.
Context {T : Type} `{!SqlEngine T}.
Context (sha256 : list ascii -> string) (iso : Z -> string) (writable : bool).
Implicit Types (m : MemoryReplicator T) (d : SharedMemoryDB T) (raft : RaftNode string).

Abbreviation apply := (handleCommittedEntry sha256 iso writable).
Abbreviation digest := (write_checksum sha256).

Lemma write_entry_wf sql params checksum cls table :
  json_wf (JArr params) = true -> json_wf (write_entry sql params checksum cls table) = true.
Proof.
  intros Hp. unfold write_entry. cbn [json_wf]. apply andb_true_iff. split.
  - apply bool_decide_eq_true. by destruct cls, table; apply NoDup_ListNoDup;
      repeat constructor; set_solver.
  - destruct cls, table; cbn in *; by rewrite Hp.
Qed.

(** What a node does with the entry of a write, whatever checksum it carries. *)
Lemma apply_write_entry now t i sql params checksum cls table d :
  json_wf (JArr params) = true ->
  apply now (mkLogEntry t i memory_write (stringify (write_entry sql params checksum cls table))) d =
    if String.eqb checksum (digest sql params) then (run iso writable now sql params d).1 else d.
Proof.
  intros Hp. unfold handleCommittedEntry. cbn [type data].
  rewrite bool_decide_true by done. cbn [negb].
  rewrite parse_stringify by (by apply write_entry_wf). unfold write_entry. cbn.
  unfold write_checksum, params_text. cbn [stringify].
  by destruct (String.eqb checksum _).
Qed.

Lemma appendEntry_leader (data : string) raft : isLeader raft = true ->
  appendEntry memory_write data raft =
    let raft' := raft <| log ::= fun l => l ++ [mkLogEntry (currentTerm raft) (getLastLogIndex raft + 1)
                                                  memory_write data] |> in
    ((true, getLastLogIndex raft + 1), raft', replicateToFollowers raft').
Proof. intros H. unfold appendEntry. by rewrite H. Qed.

(** C18: a replicated write of the leader.  It is acknowledged, it leaves the
    leader's own tables alone until it is committed, it appends exactly one
    entry of the leader's term, and every node that applies that entry, at
    any time and in any state, runs exactly the statement of the caller. *)
Theorem leader_write_commits env rpc now sql params options m :
  json_wf (JArr params) = true -> isLeader (rp_raft m) = true ->
  default (getClassificationForTable (wo_table options) (rp_db m)) (wo_classification options) <> cl_local ->
  let '(res, m', calls, events) := write sha256 iso writable env rpc now sql params options m in
  wr_success res = true /\ events = [] /\ rp_db m' = rp_db m /\
  calls = replicateToFollowers (rp_raft m') /\
  exists e, log (rp_raft m') = log (rp_raft m) ++ [e] /\
    term e = currentTerm (rp_raft m) /\
    forall now' d, apply now' e d = (run iso writable now' sql params d).1.
Proof.
  intros Hp Hl Hc. unfold write, writeAsLeader.
  rewrite bool_decide_false by (by destruct (wo_classification options)).
  rewrite Hl, appendEntry_leader by done. cbv zeta iota beta. split_and!; try done.
  eexists; split_and!; [reflexivity|reflexivity|].
  intros. rewrite apply_write_entry by done. by rewrite String.eqb_refl.
Qed.

Lemma undefined_if_empty_default o :
  o <> Some "" -> undefined_if_empty (default "" o) = o.
Proof.
  unfold undefined_if_empty, truthy_str. destruct o as [s|]; [|done]. cbn. intros H.
  destruct (String.eqb_spec s ""); cbn; congruence.
Qed.

Lemma stringify_nonempty j : truthy_str (stringify j) = true.
Proof. by destruct (stringify_head j) as (c & s & -> & _). Qed.

(** C20: forwarding is transparent.  A leader that handles the request a
    follower builds for a write appends exactly the entry, with the same
    replication calls, that it would append for the same write of its own, and
    answers success. *)
Theorem forwarded_write_same err sql params cls table raft :
  json_wf (JArr params) = true -> isLeader raft = true -> cls <> Some "" -> table <> Some "" ->
  ForwardMemoryWrite sha256 err (forward_request sql params (digest sql params) cls table) raft =
    let '(_, raft', calls) := writeAsLeader sql params (digest sql params) cls table raft in
    (mkMemoryWriteResponse true "", raft', calls).
Proof.
  intros Hp Hl Hc Ht. unfold ForwardMemoryWrite, forward_request, writeAsLeader.
  cbn [mw_sql mw_params mw_checksum mw_classification mw_table]. rewrite Hl. cbn [negb].
  rewrite stringify_nonempty, parse_stringify by done.
  change (sha256_text sha256 (sql +:+ stringify (JArr params))) with (digest sql params).
  rewrite String.eqb_refl. cbn [negb]. rewrite !undefined_if_empty_default by done.
  rewrite !appendEntry_leader by done. reflexivity.
Qed.

(** C19: only verified statements run.  Whatever bytes a committed entry
    holds, it either leaves the database alone, or it is a memory_write whose
    payload names the statement, its arguments and a checksum equal to the
    digest of the two, and then exactly that statement is run. *)
Theorem committed_entry_verified now e d :
  apply now e d = d \/
  exists payload sql args checksum,
    type e = memory_write /\ parse (data e) = Some (JObj payload) /\
    jm_get payload "sql" = Some (JStr sql) /\
    spread (jm_get payload "params") = Some args /\
    jm_get payload "checksum" = Some (JStr checksum) /\
    checksum = sha256_text sha256 (sql +:+ params_text (jm_get payload "params")) /\
    apply now e d = (run iso writable now sql args d).1.
Proof.
  unfold handleCommittedEntry.
  destruct (bool_decide (type e = memory_write)) eqn:Et; cbn [negb]; [|by left].
  destruct (parse (data e)) as [[| | | | |payload]|] eqn:Ep; try (by left).
  destruct (jm_get payload "sql") as [[| | |sql| |]|] eqn:Es; try (by left).
  destruct (jm_get payload "checksum") as [[| | |checksum| |]|] eqn:Ec; try (by left).
  destruct (String.eqb checksum _) eqn:Eq; cbn [negb]; [|by left].
  destruct (spread (jm_get payload "params")) as [args|] eqn:Ea; [right|by left].
  prop_of_bool. exists payload, sql, args, checksum. split_and!; done.
Qed.
End writes.

(** ** Forwarding *)

Definition call_addresses (evs : list ForwardEvent) : list string :=
  omap (fun ev => match ev with fe_call a _ => Some a | _ => None end) evs.

Section forwarding.
Context (env : nat -> MembershipManager * RaftNode string).
Context (rpc : nat -> string -> MemoryWriteRequest -> string + MemoryWriteResponse).
Context (req : MemoryWriteRequest).

(** The attempt reached a leader that accepted the write. *)
Definition accepted (k : nat) : bool :=
  match resolveLeaderAddress (env k).1 (env k).2 with
  | None => false
  | Some addr => match rpc k addr req with inr resp => mr_success resp | inl _ => false end
  end.

(** The attempt failed in a way that another one may repair: an address that
    does not resolve although a leader is known, an exception, or a node that
    is no longer the leader. *)
Definition transient (k : nat) : bool :=
  match resolveLeaderAddress (env k).1 (env k).2 with
  | None => truthy_opt (leaderId (env k).2)
  | Some addr =>
      match rpc k addr req with
      | inl _ => true
      | inr resp => negb (mr_success resp) && String.eqb (mr_error resp) "Not the leader"
      end
  end.

Lemma call_addresses_app evs1 evs2 :
  call_addresses (evs1 ++ evs2) = call_addresses evs1 ++ call_addresses evs2.
Proof. apply omap_app. Qed.

(** One attempt, by what it met: success, an outcome that ends the loop, or
    another round. *)
Lemma forward_loop_step fuel k :
  let r := forward_loop env rpc req (S fuel) k in
  (accepted k = true /\ wr_success r.1 = true /\ (length (call_addresses r.2) <= 1)%nat) \/
  (accepted k = false /\ wr_success r.1 = false /\ (length (call_addresses r.2) <= 1)%nat /\
   (transient k = false \/ (maxRetries - 1 <= k)%nat)) \/
  (accepted k = false /\ transient k = true /\
   let r' := forward_loop env rpc req fuel (S k) in
   r.1 = r'.1 /\ (length (call_addresses r.2) <= 1 + length (call_addresses r'.2))%nat).
Proof.
  unfold accepted, transient. cbn [forward_loop]. destruct (env k) as [mm raft]. cbn [fst snd].
  destruct (forward_loop env rpc req fuel (S k)) as [res rest].
  destruct (resolveLeaderAddress mm raft) as [addr|].
  - destruct (rpc k addr req) as [e|resp].
    + destruct (Nat.ltb_spec k (maxRetries - 1)); cbn [negb fst snd].
      * right; right. split_and!; first [done | rewrite call_addresses_app, length_app; cbn; lia].
      * right; left. split_and!; first [done | cbn; lia | by right].
    + destruct (mr_success resp); [left; split_and!; cbn; try done; lia|].
      destruct (String.eqb (mr_error resp) "Not the leader").
      * right; right. split_and!; first [done | cbn [snd]; rewrite call_addresses_app, length_app; cbn; lia].
      * right; left. split_and!; cbn; first [done | lia | by left].
  - destruct (truthy_opt (leaderId raft)); cbn [negb orb].
    + destruct (Nat.ltb_spec k (maxRetries - 1)); cbn [negb fst snd].
      * right; right. split_and!; first [done | rewrite call_addresses_app, length_app; cbn; lia].
      * right; left. split_and!; first [done | cbn; lia | by right].
    + right; left. split_and!; cbn; first [done | lia | by left].
Qed.

Lemma forward_loop_spec fuel k : (k + fuel = maxRetries)%nat ->
  (length (call_addresses (forward_loop env rpc req fuel k).2) <= fuel)%nat /\
  (wr_success (forward_loop env rpc req fuel k).1 = true <->
   exists j, (k <= j < maxRetries)%nat /\ accepted j = true /\
     forall i, (k <= i < j)%nat -> transient i = true).
Proof.
  assert (Hexcl : forall i, accepted i = true -> transient i = true -> False).
  { intros i. unfold accepted, transient. destruct (resolveLeaderAddress _ _) as [a|]; [|done].
    destruct (rpc i a req) as [|resp]; [done|]. by destruct (mr_success resp). }
  revert k. induction fuel as [|fuel IH]; intros k Hk.
  { cbn. split; [lia|]. split; [done|]. intros (j & ? & _). lia. }
  destruct (forward_loop_step fuel k) as [(Ha & -> & Hlen) | [(Ha & -> & Hlen & Hend) | (Ha & Ht & -> & Hlen)]].
  - split; [lia|]. split; [|done]. intros _. exists k. split_and!; [lia|lia|done|lia].
  - split; [lia|]. split; [done|]. intros (j & Hj & Haj & Hbefore).
    destruct (decide (j = k)) as [->|]; [congruence|].
    destruct Hend as [Hend|]; [|lia]. specialize (Hbefore k ltac:(lia)). congruence.
  - destruct (IH (S k) ltac:(lia)) as [IHlen IHs]. split; [lia|]. rewrite IHs.
    split; intros (j & Hj & Haj & Hb).
    + exists j. split_and!; [lia|lia|done|]. intros i Hi.
      destruct (decide (i = k)) as [->|]; [done|]. apply Hb. lia.
    + destruct (decide (j = k)) as [->|]; [congruence|].
      exists j. split_and!; [lia|lia|done|]. intros i Hi. apply Hb. lia.
Qed.
End forwarding.

(** C21: forwarding ends and retries what it should.  A forwarded write makes at
    most three calls, and it succeeds exactly if one of the first three
    attempts is accepted and every attempt before it failed transiently. *)
Theorem forwardToLeader_outcome env rpc sql params checksum cls table :
  let req := forward_request sql params checksum cls table in
  let '(res, evs) := forwardToLeader env rpc sql params checksum cls table in
  (length (call_addresses evs) <= 3)%nat /\
  (wr_success res = true <->
   exists k, (k < 3)%nat /\ accepted env rpc req k = true /\
     forall i, (i < k)%nat -> transient env rpc req i = true).
Proof.
  cbv zeta. unfold forwardToLeader.
  pose proof (forward_loop_spec env rpc (forward_request sql params checksum cls table) maxRetries 0 eq_refl) as H.
  destruct (forward_loop _ _ _ _ _) as [res evs]. cbn [fst snd] in H.
  destruct H as [Hlen Hs]. split; [done|]. rewrite Hs.
  by split; intros (k & Hk & Ha & Hb); exists k; (split_and!; [unfold maxRetries in *; lia..|done|]);
    intros i Hi; apply Hb; lia.
Qed.

(** ** Snapshots *)

Section snapshots.
Context {T : Type} `{!SqlEngine T}.
Context (sha256 : list ascii -> string) (writable : bool).
Implicit Types (m : MemoryReplicator T) (file buffer : list ascii).

Definition zeros (n : nat) : list ascii := repeat (ascii_of_nat 0) n.

(** The buffer once the first [o] bytes of the file have arrived. *)
Definition partly file (o : nat) : list ascii := take o file ++ zeros (length file - o).

Lemma zeros_drop n k : drop k (zeros n) = zeros (n - k).
Proof. revert k. induction n as [|n IH]; intros [|k]; cbn; auto. Qed.

Lemma partly_length file o : length (partly file o) = length file.
Proof. unfold partly, zeros. rewrite length_app, length_take, repeat_length. lia. Qed.

Lemma buffer_copy_partly file o n : (o < length file)%nat -> (o + n <= length file)%nat ->
  buffer_copy (take n (drop o file)) (partly file o) (Z.of_nat o) = Some (partly file (o + n)).
Proof.
  intros Ho Hn. unfold buffer_copy. destruct (Z.ltb_spec (Z.of_nat o) 0); [lia|].
  rewrite Nat2Z.id, partly_length. destruct (Nat.leb_spec (length file) o); [lia|].
  assert (Hlen : length (take n (drop o file)) = n) by (rewrite length_take, length_drop; lia).
  rewrite Hlen. replace (Nat.min n (length file - o)) with n by lia. f_equal.
  rewrite (take_ge (take n _)) by lia. unfold partly.
  rewrite take_app_le by (rewrite length_take; lia). rewrite take_take, Nat.min_id.
  rewrite drop_app_ge by (rewrite length_take; lia). rewrite length_take, Nat.min_l by lia.
  rewrite zeros_drop, app_assoc.
  replace (take o file ++ take n (drop o file)) with (take (o + n) file).
  - do 2 f_equal. lia.
  - rewrite <- (take_drop o (take (o + n) file)) at 1. rewrite take_take, Nat.min_l by lia.
    f_equal. rewrite skipn_firstn_comm. f_equal. lia.
Qed.

Lemma copy_chunks_file fuel file o : (length file <= o + fuel)%nat ->
  copy_chunks (send_chunks sha256 fuel file (Z.of_nat o)) (partly file o) = Some file.
Proof.
  revert o. induction fuel as [|fuel IH]; intros o Hf.
  - cbn. unfold partly. rewrite take_ge by lia. replace (length file - o)%nat with O by lia.
    by rewrite app_nil_r.
  - cbn [send_chunks]. unfold js_length. destruct (Z.ltb_spec (Z.of_nat o) (Z.of_nat (length file))).
    + cbn [copy_chunks ch_data ch_offset]. rewrite parseInt_toString. cbn [default].
      set (n := Z.to_nat (Z.min CHUNK_SIZE (Z.of_nat (length file) - Z.of_nat o))).
      assert (0 < CHUNK_SIZE) by done.
      replace (Z.min (Z.of_nat o + CHUNK_SIZE) (Z.of_nat (length file))) with (Z.of_nat o + Z.of_nat n) by lia.
      rewrite js_slice_nonneg, !Nat2Z.id by lia. rewrite buffer_copy_partly by lia.
      destruct (decide (o + n < length file)%nat) as [Hlt|Hge].
      * replace (Z.of_nat o + CHUNK_SIZE) with (Z.of_nat (o + n)) by lia. apply IH. lia.
      * assert (o + n = length file)%nat as -> by lia.
        replace (send_chunks sha256 fuel file (Z.of_nat o + CHUNK_SIZE)) with (@nil SnapshotChunk).
        { cbn. unfold partly. rewrite take_ge, Nat.sub_diag by lia. by rewrite app_nil_r. }
        destruct fuel; [done|]. cbn [send_chunks]. unfold js_length.
        destruct (Z.ltb_spec (Z.of_nat o + CHUNK_SIZE) (Z.of_nat (length file))); [lia|done].
    + cbn. unfold partly. rewrite take_ge by lia. replace (length file - o)%nat with O by lia.
      by rewrite app_nil_r.
Qed.

(** Every chunk announces the size, and the checksum comes with the last one. *)
Lemma send_chunks_meta fuel file o acc : (o < length file)%nat -> (length file <= o + fuel)%nat ->
  let l := send_chunks sha256 fuel file (Z.of_nat o) in
  total_size l = Some (js_length file) /\
  fold_left (fun a c => if ch_done c then ch_checksum c else a) l acc = sha256 file /\ l <> [].
Proof.
  revert o acc. induction fuel as [|fuel IH]; intros o acc Ho Hf; [lia|].
  assert (Hlt : (Z.of_nat o <? js_length file) = true) by (apply Z.ltb_lt; unfold js_length; lia).
  cbn [send_chunks]. cbv zeta. rewrite !Hlt. assert (0 < CHUNK_SIZE) by done.
  destruct (Z.leb_spec (js_length file) (Z.of_nat o + CHUNK_SIZE)) as [Hd|Hd].
  - assert (send_chunks sha256 fuel file (Z.of_nat o + CHUNK_SIZE) = []) as ->.
    { destruct fuel; [done|]. cbn [send_chunks].
      destruct (Z.ltb_spec (Z.of_nat o + CHUNK_SIZE) (js_length file)); [lia|done]. }
    split_and!; [|reflexivity|discriminate]. exact (parseInt_toString _).
  - unfold js_length in Hd. destruct (IH (o + Z.to_nat CHUNK_SIZE)%nat
      (if false then sha256 file else acc) ltac:(lia) ltac:(lia)) as (Ht & Hs & Hne).
    replace (Z.of_nat (o + Z.to_nat CHUNK_SIZE)) with (Z.of_nat o + CHUNK_SIZE) in * by lia.
    split_and!; [|exact Hs|discriminate]. unfold total_size in *.
    destruct (send_chunks sha256 fuel file (Z.of_nat o + CHUNK_SIZE)) eqn:E; [done|].
    exact Ht.
Qed.

Lemma partly_zero file : partly file 0 = zeros (length file).
Proof. unfold partly. by rewrite Nat.sub_0_r. Qed.

(** C22: a snapshot arrives intact.  For every database file that is not
    empty, however many chunks it takes, a node that receives the leader's
    stream reassembles the leader's file, finds the checksum right, and
    installs exactly that file at its own database path. *)
Theorem snapshot_transfer file m :
  file <> [] -> truthy_opt (getLeaderAddress (rp_membership m)) = true ->
  requestSnapshot sha256 true (Some (RequestMemorySnapshot sha256 (Some file))) m =
    (true, m <| rp_db ::= close |> <| rp_fs ::= insert (dbPath (rp_db m)) file |>).
Proof.
  intros Hne Hl. unfold requestSnapshot, RequestMemorySnapshot. rewrite Hl. cbn [negb].
  assert (0 < length file)%nat by (destruct file; [done|cbn; lia]).
  destruct (send_chunks_meta (length file) file 0 "" ltac:(lia) ltac:(lia)) as (Ht & Hs & Hnil).
  pose proof (copy_chunks_file (length file) file 0 ltac:(lia)) as Hc.
  rewrite partly_zero in Hc. change (Z.of_nat 0) with 0 in *.
  destruct (send_chunks sha256 (length file) file 0) as [|c chunks] eqn:E; [done|].
  rewrite Ht. unfold buffer_alloc, js_length.
  destruct (Z.ltb_spec (Z.of_nat (length file)) 0); [lia|]. rewrite Nat2Z.id. cbn [option_bind mbind].
  fold (zeros (length file)). rewrite Hc. unfold received_checksum. rewrite Hs, String.eqb_refl.
  rewrite andb_false_r. reflexivity.
Qed.

(** A snapshot whose bytes changed on the way is not installed.  Whatever
    chunks arrive, in whatever order, if the last chunk marked done carries a
    checksum then the call succeeds only with a file of that digest, and when
    it fails neither the files nor the connection have changed. *)
Theorem snapshot_verified chunks m :
  received_checksum chunks <> "" ->
  let '(ok, m') := requestSnapshot sha256 writable (Some chunks) m in
  if ok
  then exists file, rp_fs m' = <[dbPath (rp_db m) := file]> (rp_fs m) /\
                    sha256 file = received_checksum chunks
  else m' = m.
Proof.
  intros Hne. unfold requestSnapshot. destruct (truthy_opt _); cbn [negb]; [|done].
  destruct chunks as [|c chunks]; [done|].
  destruct (buffer_alloc _ ≫= _) as [buffer|]; [|done].
  unfold truthy_str. rewrite (proj2 (String.eqb_neq _ _)) by exact Hne. cbn [negb andb].
  destruct (String.eqb_spec (sha256 buffer) (received_checksum (c :: chunks))); cbn [negb]; [|done].
  destruct writable; cbn [negb]; [|done]. by exists buffer.
Qed.

(** A stream that ends before its last chunk carries no checksum, and the
    receiver then verifies nothing: of a file of several chunks, cut off after
    the first one, it installs the first chunk followed by zeros, and reports
    success. *)
Theorem truncated_snapshot_installed file m :
  CHUNK_SIZE < js_length file -> truthy_opt (getLeaderAddress (rp_membership m)) = true ->
  requestSnapshot sha256 true (Some (take 1 (RequestMemorySnapshot sha256 (Some file)))) m =
    (true, m <| rp_db ::= close |>
             <| rp_fs ::= insert (dbPath (rp_db m)) (partly file (Z.to_nat CHUNK_SIZE)) |>).
Proof.
  unfold js_length. intros Hlen Hl. unfold requestSnapshot, RequestMemorySnapshot. rewrite Hl. cbn [negb].
  assert (0 < CHUNK_SIZE) by done.
  destruct (length file) as [|n] eqn:En; [lia|]. cbn [send_chunks]. cbv zeta. unfold js_length. rewrite En.
  destruct (Z.ltb_spec 0 (Z.of_nat (S n))); [|lia].
  destruct (Z.leb_spec (Z.of_nat (S n)) (0 + CHUNK_SIZE)); [lia|].
  rewrite (firstn_cons 0), firstn_O. unfold total_size. cbn [last ch_total_size].
  rewrite parseInt_toString. unfold buffer_alloc.
  destruct (Z.ltb_spec (Z.of_nat (S n)) 0); [lia|]. rewrite Nat2Z.id. cbn [mbind option_bind copy_chunks].
  cbn [ch_data ch_offset]. rewrite parseInt_toString. cbn [default].
  fold (zeros (S n)). rewrite <- En, <- partly_zero.
  rewrite Z.min_l, js_slice_nonneg by lia.
  pose proof (buffer_copy_partly file 0 (Z.to_nat CHUNK_SIZE) ltac:(lia) ltac:(lia)) as Hb.
  change (Z.of_nat 0) with 0 in Hb. change (Z.to_nat 0) with O. change (id 0) with 0. rewrite Hb. reflexivity.
Qed.
End snapshots.

(** ** Replicas *)

Section replicas.
Context {T : Type} `{!SqlEngine T}.
Context (sha256 : list ascii -> string) (iso : Z -> string) (writable : bool).
Implicit Types (d : SharedMemoryDB T) (r : RaftNode string).

(** The committed entries a node is handed, each with the time it is handed
    over. *)
Definition replay (l : list (Z * LogEntry string)) d : SharedMemoryDB T :=
  fold_left (fun d te => handleCommittedEntry sha256 iso writable te.1 te.2 d) l d.

(** *** What a replica must have executed

    The specification does not mention the handler.  A committed entry holds a write when
    it is a memory_write whose payload names a statement, its arguments, and the digest of
    the two. *)
Definition verified (e : LogEntry string) (sql : string) (args : list json) : Prop :=
  type e = memory_write /\ exists payload,
    parse (data e) = Some (JObj payload) /\ jm_get payload "sql" = Some (JStr sql) /\
    spread (jm_get payload "params") = Some args /\
    jm_get payload "checksum" = Some (JStr (sha256_text sha256 (sql +:+ params_text (jm_get payload "params")))).

(** The writes of a log: one for every entry that holds one, in the order of the log. *)
Inductive writes_of : list (LogEntry string) -> list (string * list json) -> Prop :=
  | writes_nil : writes_of [] []
  | writes_write e l sql args ws : verified e sql args -> writes_of l ws -> writes_of (e :: l) ((sql, args) :: ws)
  | writes_skip e l ws : (forall sql args, ~ verified e sql args) -> writes_of l ws -> writes_of (e :: l) ws.

(** The tables after some statements, each executed once. *)
Definition exec_writes (ws : list (string * list json)) (t : T) : T :=
  foldl (fun t w => (sql_run 0 w.1 w.2 t).1) t ws.

(** The statement does not read the clock of the engine. *)
Definition reads_no_clock (w : string * list json) : Prop := forall now now' t,
  (sql_run now w.1 w.2 t).1 = (sql_run now' w.1 w.2 t).1.

(** The replica has executed the writes of what its node has applied, starting from
    [base]. *)
Definition follows (base : T) r d : Prop := db_open d = true /\ exists ws,
  writes_of (take (Z.to_nat (lastApplied r)) (log r)) ws /\ Forall reads_no_clock ws /\ db_tables d = exec_writes ws base.

Lemma verified_unique e s1 a1 s2 a2 : verified e s1 a1 -> verified e s2 a2 -> s1 = s2 /\ a1 = a2.
Proof. intros (_ & p1 & H1 & H2 & H3 & _) (_ & p2 & H5 & H6 & H7 & _). split; congruence. Qed.

Lemma writes_unique l w1 w2 : writes_of l w1 -> writes_of l w2 -> w1 = w2.
Proof.
  intros H1. revert w2. induction H1 as [|e l s a ws Hv H1 IH|e l ws Hn H1 IH]; intros w2 H2; inversion H2; subst.
  - done.
  - destruct (verified_unique e s a sql args) as [-> ->]; [done|done|]. f_equal. by apply IH.
  - by exfalso; eapply (H3 s a).
  - by exfalso; eapply Hn.
  - by apply IH.
Qed.

Lemma writes_app_inv l1 l2 ws : writes_of (l1 ++ l2) ws -> exists w1 w2, ws = w1 ++ w2 /\ writes_of l1 w1 /\ writes_of l2 w2.
Proof.
  revert ws. induction l1 as [|e l1 IH]; intros ws H; [exists [], ws; split_and!; [done|constructor|done]|].
  inversion H as [|? ? s a w Hv Hw|? ? w Hn Hw]; subst; destruct (IH _ Hw) as (w1 & w2 & -> & H1 & H2).
  - exists ((s, a) :: w1), w2. split_and!; [done|by constructor|done].
  - exists w1, w2. split_and!; [done|by constructor|done].
Qed.

(** The handler executes the write of an entry, and nothing else. *)
Lemma handle_verified now e sql args d : verified e sql args -> db_open d = true ->
  let d' := handleCommittedEntry sha256 iso writable now e d in
  db_open d' = true /\ db_tables d' = (sql_run now sql args (db_tables d)).1.
Proof.
  intros (Ht & payload & Hp & Hs & Ha & Hc) Ho. unfold handleCommittedEntry. rewrite Ht, Hp, Hs, Hc, Ha, String.eqb_refl.
  cbn [negb bool_decide]. rewrite bool_decide_true by done. cbn [negb]. unfold run. rewrite Ho. cbn [negb].
  destruct (sql_run now sql args (db_tables d)) as [t [x|x]]; [done|].
  destruct (shouldSnapshot sql); [unfold generateWhereami; by destruct writable|done].
Qed.
Lemma handle_unverified now e d : (forall sql args, ~ verified e sql args) ->
  handleCommittedEntry sha256 iso writable now e d = d.
Proof.
  intros Hn. unfold handleCommittedEntry.
  destruct (bool_decide (type e = memory_write)) eqn:Et; [|done]. cbn [negb].
  destruct (parse (data e)) as [[| | | | |payload]|] eqn:Ep; try done.
  destruct (jm_get payload "sql") as [[| | |sql| |]|] eqn:Es; try done.
  destruct (jm_get payload "checksum") as [[| | |checksum| |]|] eqn:Ec; try done.
  destruct (String.eqb checksum _) eqn:Eq; [|done]. cbn [negb].
  destruct (spread (jm_get payload "params")) as [args|] eqn:Ea; [|done]. exfalso. prop_of_bool.
  apply (Hn sql args). split; [done|]. exists payload. split_and!; congruence.
Qed.

Lemma replay_writes l ws d : writes_of l.*2 ws -> Forall reads_no_clock ws -> db_open d = true ->
  db_open (replay l d) = true /\ db_tables (replay l d) = exec_writes ws (db_tables d).
Proof.
  revert ws d. induction l as [|[now e] l IH]; intros ws d H Hf Ho; cbn in H; inversion H as [|? ? sql args w Hv Hw|? ? w Hn Hw]; subst.
  - done.
  - apply Forall_cons in Hf as [Hc Hf]. destruct (handle_verified now e sql args d Hv Ho) as [Ho' Ht].
    change (replay ((now, e) :: l) d) with (replay l (handleCommittedEntry sha256 iso writable now e d)).
    destruct (IH w _ Hw Hf Ho') as [H1 H2]. split; [exact H1|].
    rewrite H2, Ht. pose proof (Hc now 0 (db_tables d)) as Hc'. cbn in Hc'. by rewrite Hc'.
  - change (replay ((now, e) :: l) d) with (replay l (handleCommittedEntry sha256 iso writable now e d)).
    rewrite handle_unverified by done. by apply IH.
Qed.

(** The entries a node hands over are those between its two indices. *)
Lemma handed_over r (l : list (Z * LogEntry string)) : 0 <= lastApplied r <= commitIndex r ->
  commitIndex r <= js_length (log r) ->
  committed_events (emitted (applyCommittedEntries r)) = committed_events (emitted r) ++ l.*2 ->
  take (Z.to_nat (commitIndex r)) (log r) = take (Z.to_nat (lastApplied r)) (log r) ++ l.*2.
Proof.
  intros Hr Hr' E. rewrite applyCommittedEntries_eq in E. cbn in E.
  rewrite committed_events_app in E. apply app_inv_head in E. rewrite <- E.
  change (ev_entryCommitted <$> logRange (log r) (lastApplied r) (commitIndex r))
    with (commits (logRange (log r) (lastApplied r) (commitIndex r))).
  rewrite committed_events_commits, logRange_take_drop by done.
  rewrite take_take_drop. f_equal. lia.
Qed.

Lemma follows_step base r l d ws : follows base r d -> 0 <= lastApplied r <= commitIndex r ->
  commitIndex r <= js_length (log r) ->
  committed_events (emitted (applyCommittedEntries r)) = committed_events (emitted r) ++ l.*2 ->
  writes_of (take (Z.to_nat (commitIndex r)) (log r)) ws -> Forall reads_no_clock ws ->
  follows base (applyCommittedEntries r) (replay l d) /\ db_tables (replay l d) = exec_writes ws base.
Proof.
  intros (Ho & w0 & Hw0 & Hf0 & Ht) Hr Hr' E Hw Hf. pose proof Hw as Hall. rewrite (handed_over r l Hr Hr' E) in Hw.
  apply writes_app_inv in Hw as (w1 & w2 & -> & H1 & H2). rewrite (writes_unique _ _ _ H1 Hw0) in *. clear w1 H1.
  apply Forall_app in Hf as [_ Hf2]. destruct (replay_writes l w2 d H2 Hf2 Ho) as [Ho' Ht'].
  assert (Htab : db_tables (replay l d) = exec_writes (w0 ++ w2) base) by (rewrite Ht', Ht; unfold exec_writes; by rewrite foldl_app).
  split; [|done]. split; [done|]. exists (w0 ++ w2). rewrite applyCommittedEntries_eq. cbn.
  split_and!; [|by apply Forall_app|done]. rewrite Z.max_r by lia. exact Hall.
Qed.

(** A replica that has applied nothing yet. *)
Lemma fresh_follows r d : lastApplied r = 0 -> db_open d = true -> follows (db_tables d) r d.
Proof. intros H Ho. split; [done|]. exists []. rewrite H. split_and!; [constructor|constructor|done]. Qed.

(** C3: replicas converge to the writes of the committed log.  Take two nodes whose
    replicas have executed the writes of what they have applied so far, which need not be
    equally much, and whose logs agree up to the same commit index.  When each has
    applied what is committed, at its own times, both databases hold what executing
    every write of the committed log exactly once and in order makes of the first
    tables, an entry whose digest does not fit or that is no write being left out; and
    both are in the same position again for what is committed next.  The statements are
    assumed not to read the clock. *)
Theorem replicas_converge base r1 r2 l1 l2 d1 d2 ws :
  follows base r1 d1 -> follows base r2 d2 ->
  0 <= lastApplied r1 <= commitIndex r1 -> 0 <= lastApplied r2 <= commitIndex r2 ->
  commitIndex r1 = commitIndex r2 ->
  commitIndex r1 <= js_length (log r1) -> commitIndex r2 <= js_length (log r2) ->
  take (Z.to_nat (commitIndex r1)) (log r1) = take (Z.to_nat (commitIndex r2)) (log r2) ->
  committed_events (emitted (applyCommittedEntries r1)) = committed_events (emitted r1) ++ l1.*2 ->
  committed_events (emitted (applyCommittedEntries r2)) = committed_events (emitted r2) ++ l2.*2 ->
  writes_of (take (Z.to_nat (commitIndex r1)) (log r1)) ws -> Forall reads_no_clock ws ->
  db_tables (replay l1 d1) = exec_writes ws base /\ db_tables (replay l2 d2) = exec_writes ws base /\
  follows base (applyCommittedEntries r1) (replay l1 d1) /\ follows base (applyCommittedEntries r2) (replay l2 d2).
Proof.
  intros F1 F2 Hr1 Hr2 Hc H1 H2 Hlog E1 E2 Hw Hf.
  destruct (follows_step base r1 l1 d1 ws F1 Hr1 H1 E1 Hw Hf) as [G1 T1]. rewrite Hlog in Hw.
  by destruct (follows_step base r2 l2 d2 ws F2 Hr2 H2 E2 Hw Hf) as [G2 T2].
Qed.
End replicas.

(** ** A concrete replica *)

(** An engine whose only table records the statements it was given. *)
Definition Rows := list (string * list json).
#[export] Instance rows_engine : SqlEngine Rows := {
  sql_run _ sql params t :=
    if String.eqb sql "" then (t, inl "The supplied SQL string contains no statements")
    else (t ++ [(sql, params)], inr 1);
  sql_classification _ table := if String.eqb table "scratch" then Some cl_local else None;
  sql_threads _ := [];
  sql_pinned _ := [];
  sql_recent _ := []
}.

(** A stand-in for SHA-256 that distinguishes texts. *)
Definition text_digest (l : list ascii) : string := "sha:" +:+ String.string_of_list_ascii l.
Definition no_iso (_ : Z) : string := "2026-01-01T00:00:00.000Z".

Definition db0 : SharedMemoryDB Rows := mkSharedMemoryDB "/root/.cortex/shared-memory.db" true [] None.

Definition replica_a : MemoryReplicator Rows :=
  mkMemoryReplicator db0
    ((new_RaftNode (mkRaftConfig "a" None false None) file_missing true)
       <| state := leader |> <| currentTerm := 1 |>)
    ((new_MembershipManager (mkMembershipConfig "a" "alpha" "100.64.0.1" 50051 None true) 0)
       <| mm_leaderAddress := Some "100.64.0.1:50051" |>)
    "a" true false ∅.

Definition quiet_env (_ : nat) : MembershipManager * RaftNode string :=
  (rp_membership replica_a, rp_raft replica_a).
Definition dead_rpc (_ : nat) (_ : string) (_ : MemoryWriteRequest) : string + MemoryWriteResponse :=
  inl "14 UNAVAILABLE".

Definition insert_sql : string := "INSERT INTO timeline_projects (name) VALUES (?)".
Definition insert_params : list json := [JStr "cortex"].
Definition insert_entry : LogEntry string :=
  mkLogEntry 1 1 memory_write
    (stringify (write_entry insert_sql insert_params (write_checksum text_digest insert_sql insert_params)
                  (Some "public") (Some "timeline_projects"))).

Lemma leader_write_commits_witness :
  wr_success (write text_digest no_iso true quiet_env dead_rpc 0 insert_sql insert_params
    (mkWriteOptions None (Some "timeline_projects")) replica_a).1.1.1 = true.
Proof.
  pose proof (leader_write_commits text_digest no_iso true quiet_env dead_rpc 0 insert_sql insert_params
    (mkWriteOptions None (Some "timeline_projects")) replica_a eq_refl eq_refl) as H.
  specialize (H ltac:(discriminate)).
  destruct (write _ _ _ _ _ _ _ _ _ _) as [[[res m'] calls] evs]. exact (proj1 H).
Defined.

Lemma forwarded_write_same_witness :
  (ForwardMemoryWrite text_digest "SyntaxError"
     (forward_request insert_sql insert_params (write_checksum text_digest insert_sql insert_params)
        (Some "public") None) (rp_raft replica_a)).1.1 = mkMemoryWriteResponse true "".
Proof.
  rewrite (forwarded_write_same text_digest "SyntaxError" insert_sql insert_params (Some "public") None
    (rp_raft replica_a)) by (reflexivity || discriminate).
  reflexivity.
Defined.

Definition small_file : list ascii := String.list_ascii_of_string "SQLite format 3".

Lemma snapshot_transfer_witness :
  rp_fs (requestSnapshot text_digest true (Some (RequestMemorySnapshot text_digest (Some small_file)))
           replica_a).2 !! "/root/.cortex/shared-memory.db" = Some small_file.
Proof.
  rewrite (snapshot_transfer text_digest small_file replica_a) by (reflexivity || discriminate).
  reflexivity.
Defined.

Lemma snapshot_verified_witness :
  (requestSnapshot text_digest true
     (Some [mkSnapshotChunk small_file "0" "15" true "sha:other"]) replica_a) = (false, replica_a).
Proof.
  pose proof (snapshot_verified text_digest true [mkSnapshotChunk small_file "0" "15" true "sha:other"]
    replica_a ltac:(discriminate)) as H.
  destruct (requestSnapshot _ _ _ _) as [[] m'] eqn:E; [|by rewrite H].
  vm_compute in E. discriminate.
Defined.

(** A follower that received the insertion and its commit from a. *)
Definition insert_request : AppendEntriesRequest string := mkAppendEntries 1 "a" 0 0 [insert_entry] 1.
Definition boot (id : string) (f : StateFile) : RaftNode string :=
  start (new_RaftNode (mkRaftConfig id None false (Some "/data")) f true).
(** An entry whose digest does not fit, between two that do. *)
Definition forged_entry : LogEntry string :=
  mkLogEntry 1 2 memory_write (stringify (write_entry "DROP TABLE timeline_projects" [] "sha:other" (Some "public") None)).
Definition three_entries : list (LogEntry string) := [insert_entry; forged_entry; insert_entry].
(** Two followers that have applied nothing and one entry of the three that are committed. *)
Definition behind (id : string) (applied : Z) : RaftNode string :=
  (boot id file_missing) <| log := three_entries |> <| commitIndex := 3 |> <| lastApplied := applied |>.

Lemma insert_verified : verified text_digest insert_entry insert_sql insert_params.
Proof. split; [done|]. eexists. split_and!; by vm_compute. Qed.
Lemma forged_unverified sql args : ~ verified text_digest forged_entry sql args.
Proof.
  intros (_ & payload & Hp & Hs & _ & Hc). vm_compute in Hp. injection Hp as <-. vm_compute in Hs. injection Hs as <-.
  vm_compute in Hc. discriminate.
Qed.
Lemma three_writes : writes_of text_digest three_entries [(insert_sql, insert_params); (insert_sql, insert_params)].
Proof. repeat first [apply writes_write; [apply insert_verified|]|apply writes_skip; [apply forged_unverified|]|constructor]. Qed.
Lemma inserts_read_no_clock : Forall (reads_no_clock (T := Rows)) [(insert_sql, insert_params); (insert_sql, insert_params)].
Proof. by repeat constructor. Qed.

Lemma replicas_converge_witness :
  let l1 := [(5, insert_entry); (6, forged_entry); (7, insert_entry)] in
  let l2 := [(50, forged_entry); (51, insert_entry)] in
  let d2 := db0 <| db_tables := [(insert_sql, insert_params)] |> in
  db_tables (replay text_digest no_iso true l1 db0) = [(insert_sql, insert_params); (insert_sql, insert_params)] /\
  db_tables (replay text_digest no_iso true l2 d2) = [(insert_sql, insert_params); (insert_sql, insert_params)].
Proof.
  intros l1 l2 d2.
  destruct (replicas_converge text_digest no_iso true [] (behind "b" 0) (behind "c" 1) l1 l2 db0 d2
    [(insert_sql, insert_params); (insert_sql, insert_params)]) as (H1 & H2 & _); try reflexivity; try (cbn; lia).
  - split; [done|]. exists []. split_and!; [constructor|constructor|done].
  - split; [done|]. exists [(insert_sql, insert_params)]. split_and!; [|by repeat constructor|done].
    apply writes_write; [apply insert_verified|constructor].
  - exact three_writes.
  - exact inserts_read_no_clock.
  - by split.
Defined.

(** The log is not kept across a restart and neither is [lastApplied], but the
    database file is.  A follower that restarts is sent the log from its first
    entry, and runs every statement a second time. *)
Theorem restart_reapplies :
  let f1 := (handleAppendEntries 0 insert_request (boot "b" file_missing)).2 in
  let d1 := replay text_digest no_iso true ((fun e => (0, e)) <$> committed_events (emitted f1)) db0 in
  let f2 := (handleAppendEntries 9 insert_request (boot "b" (disk f1))).2 in
  let d2 := replay text_digest no_iso true ((fun e => (9, e)) <$> committed_events (emitted f2)) d1 in
  db_tables d1 = [(insert_sql, insert_params)] /\
  db_tables d2 = [(insert_sql, insert_params); (insert_sql, insert_params)].
Proof. vm_compute. split; reflexivity. Qed.
