(* ===== verification/SharedMemory.v ===== *)
(** * The shared memory database: reads, transactions and statistics
      (src/src/memory/shared-memory-db.ts and the read path of
      src/src/memory/replication.ts)

    Replication.v has the writing side of [SharedMemoryDB].  This file adds the
    methods that read: [query] and [queryOne] with any SQL text, the inspection of
    the schema, the statistics, and [runInTransaction].

    [SqlReader] extends [SqlEngine] by what these methods use of better-sqlite3: the
    rows of a statement ([sql_all] may change the tables, since better-sqlite3 runs
    a data-changing statement that returns rows), and the fixed queries of the
    code. *)

From S2P Require Import Prelude JsMap JsString Json Raft Membership Replication.

(** A row as the object that better-sqlite3 builds. *)
Abbreviation Row := (jsmap json).

Class SqlReader (T : Type) := {
  #[global] sql_reader_engine :: SqlEngine T;
  sql_all : Z -> string -> list json -> T -> T * (string + list Row);
  sql_get : Z -> string -> list json -> T -> T * (string + option Row);
  sql_classification_rows : T -> list TableClassification;
  sql_table_names : T -> list string;
  sql_count : string -> T -> Z;
  sql_classification_counts : T -> list (Classification * Z)
}.

Definition not_open : string := "The database connection is not open".

(** [!!v]. *)
Definition truthy_member (o : option json) : bool :=
  match o with Some j => truthy_json j | None => false end.

(** What [describeTable] reads of a row of [PRAGMA table_info]. *)
Record ColumnInfo := mkColumnInfo {
  ci_name : option json;
  ci_type : option json;
  ci_notnull : option json;
  ci_pk : option json
}.
Definition column_of_row (r : Row) : ColumnInfo :=
  mkColumnInfo (jm_get r "name") (jm_get r "type") (jm_get r "notnull") (jm_get r "pk").

(** The object with the three classifications as keys. *)
Record ClassificationCounts := mkClassificationCounts { cc_public : Z; cc_internal : Z; cc_local : Z }.
#[export] Instance ClassificationCounts_eta : EtaRecord ClassificationCounts := fun c =>
  mkClassificationCounts (cc_public c) (cc_internal c) (cc_local c).
Definition set_count (cc : ClassificationCounts) (row : Classification * Z) : ClassificationCounts :=
  match row.1 with
  | cl_public => cc <| cc_public := row.2 |>
  | cl_internal => cc <| cc_internal := row.2 |>
  | cl_local => cc <| cc_local := row.2 |>
  end.
Definition get_count (cc : ClassificationCounts) (c : Classification) : Z :=
  match c with cl_public => cc_public cc | cl_internal => cc_internal cc | cl_local => cc_local cc end.

Record DbStats := mkDbStats {
  dbSizeBytes : Z;
  tableCount : Z;
  rowCounts : jsmap Z;
  classificationCounts : ClassificationCounts
}.

Section shared_memory.
Context {T : Type} `{!SqlReader T}.
Context (iso : Z -> string) (writable : bool).
Implicit Types (d : SharedMemoryDB T).

(** ** Reading *)

Definition query (now : Z) (sql : string) (params : list json) d : SharedMemoryDB T * (string + list Row) :=
  if negb (db_open d) then (d, inl not_open)
  else let '(t, res) := sql_all now sql params (db_tables d) in (d <| db_tables := t |>, res).

Definition queryOne (now : Z) (sql : string) (params : list json) d : SharedMemoryDB T * (string + option Row) :=
  if negb (db_open d) then (d, inl not_open)
  else let '(t, res) := sql_get now sql params (db_tables d) in (d <| db_tables := t |>, res).

Definition table_info_sql (tableName : string) : string :=
  str ["PRAGMA table_info('"; tableName; "')"].

Definition describeTable (now : Z) (tableName : string) d : SharedMemoryDB T * (string + list ColumnInfo) :=
  let '(d, res) := query now (table_info_sql tableName) [] d in
  (d, match res with inl e => inl e | inr rows => inr (column_of_row <$> rows) end).

Definition getTableClassifications d : string + list TableClassification :=
  if negb (db_open d) then inl not_open else inr (sql_classification_rows (db_tables d)).

(** [size] is that of the file, [None] when [statSync] throws. *)
Definition getStats (size : option Z) d : string + DbStats :=
  match size with
  | None => inl (str ["ENOENT: no such file or directory, stat '"; dbPath d; "'"])
  | Some size =>
      if negb (db_open d) then inl not_open
      else
        let t := db_tables d in
        let tables := sql_table_names t in
        let rowCounts := foldl (fun m name => jm_set m name (sql_count name t)) [] tables in
        inr (mkDbStats size (js_length tables) rowCounts
               (foldl set_count (mkClassificationCounts 0 0 0) (sql_classification_counts t)))
  end.

(** ** Transactions *)

(** The statements one after the other, until one throws. *)
Fixpoint run_statements (now : Z) (statements : list (string * list json)) (t : T) : T * (string + ()) :=
  match statements with
  | [] => (t, inr ())
  | (sql, params) :: statements =>
      match sql_run now sql params t with
      | (t, inl e) => (t, inl e)
      | (t, inr _) => run_statements now statements t
      end
  end.

(** [db.transaction(f)()] rolls back when [f] throws and throws on; whereami.md is
    written after the commit. *)
Definition runInTransaction (now : Z) (statements : list (string * list json)) d :
    SharedMemoryDB T * (string + ()) :=
  if negb (db_open d) then (d, inl not_open)
  else
    match run_statements now statements (db_tables d) with
    | (_, inl e) => (d, inl e)
    | (t, inr _) =>
        let d := d <| db_tables := t |> in
        (if existsb (fun s => shouldSnapshot s.1) statements then generateWhereami iso writable now d else d,
         inr ())
    end.

(** ** Properties *)

(** The statements that a transaction of the given ones has run. *)
Definition all_succeed (now : Z) (statements : list (string * list json)) (t t' : T) : Prop :=
  exists states, head states = Some t /\ last states = Some t' /\
    length states = S (length statements) /\
    forall i s a b, statements !! i = Some s -> states !! i = Some a -> states !! S i = Some b ->
      exists n, sql_run now s.1 s.2 a = (b, inr n).

Lemma run_statements_inr now statements t t' :
  run_statements now statements t = (t', inr ()) -> all_succeed now statements t t'.
Proof.
  revert t. induction statements as [|[sql params] statements IH]; intros t H; cbn in H.
  { injection H as <-. exists [t]. by split_and!. }
  destruct (sql_run now sql params t) as [t1 [e|n]] eqn:E; [done|].
  apply IH in H as (states & Hh & Hl & Hlen & Hst).
  exists (t :: states). split_and!; [done| |cbn; lia|].
  { by destruct states. }
  intros [|i] s a b; cbn; [|by apply Hst].
  intros [= <-] [= <-] Hb. destruct states as [|y states]; [done|].
  injection Hh as ->. injection Hb as ->. by exists n.
Qed.

(** A transaction is all or nothing: either every statement has run after the one
    before it, or the database is the one there was before, and the error of the
    statement that failed is thrown. *)
Lemma runInTransaction_atomic now statements d :
  let '(d', res) := runInTransaction now statements d in
  match res with
  | inl e => d' = d
  | inr _ => db_open d = true /\ all_succeed now statements (db_tables d) (db_tables d')
  end.
Proof.
  unfold runInTransaction. destruct (db_open d) eqn:Ho; cbn; [|done].
  destruct (run_statements now statements (db_tables d)) as [t [e|[]]] eqn:E; [done|].
  apply run_statements_inr in E. split; [done|].
  unfold generateWhereami. by repeat case_match.
Qed.

(** The statistics count every table once, by its name, and the counts of the
    classifications are those of the last rows of each. *)
Lemma getStats_rowCounts size d s :
  getStats size d = inr s -> NoDup (sql_table_names (db_tables d)) ->
  tableCount s = jm_size (rowCounts s) /\
  forall name, jm_get (rowCounts s) name =
    if decide (name ∈ sql_table_names (db_tables d)) then Some (sql_count name (db_tables d)) else None.
Proof.
  unfold getStats. destruct size as [n|]; [|done]. destruct (db_open d); cbn; [|done].
  set (t := db_tables d). set (names := sql_table_names t). intros [= <-] Hnd. cbn.
  enough (H : forall m : jsmap Z, (forall n, n ∈ names -> jm_get m n = None) ->
    let m' := foldl (fun m name => jm_set m name (sql_count name t)) m names in
    jm_size m' = jm_size m + js_length names /\
    forall name, jm_get m' name = if decide (name ∈ names) then Some (sql_count name t) else jm_get m name).
  { destruct (H []) as [Hs Hg]; [done|]. cbn in Hs. split; [by rewrite Hs|].
    intros name. rewrite Hg. by case_decide. }
  clearbody names. induction Hnd as [|x names Hx _ IH]; intros m Hm; cbn.
  { split; [unfold js_length; cbn; lia|done]. }
  destruct (IH (jm_set m x (sql_count x t))) as [Hs Hg].
  { intros y Hy. rewrite jm_get_set_ne by (intros ->; done). apply Hm. by right. }
  assert (Hmx : jm_has m x = false) by (apply jm_has_false, Hm; by left).
  split.
  - cbn in Hs. rewrite Hs. rewrite jm_size_set, Hmx. unfold js_length. cbn. lia.
  - intros name. cbn in Hg. rewrite Hg. destruct (decide (name = x)) as [->|Hne].
    + rewrite decide_False by done. rewrite decide_True by (by left). apply jm_get_set_eq.
    + rewrite jm_get_set_ne by done. destruct (decide (name ∈ names)).
      * by rewrite decide_True by (by right).
      * rewrite decide_False; [done|]. intros [?|?]%elem_of_cons; done.
Qed.
End shared_memory.
