(* ===== verification/MemoryTools.v ===== *)
(** * The tools of the shared memory (src/src/memory/memory-tools.ts)

    The handlers of [createMemoryTools]: what they check of their arguments, the SQL
    they build, the order in which they read and write, and the objects they
    return.  Arguments have the types of the tools' input schemas; an absent
    optional argument is [None].

    The replicator and the database are behind [MemoryEnv], an interface on a world of
    an arbitrary type: between two calls of a handler anything may have happened to
    it.  [replicator_env] is the instance given by Replication.v and SharedMemory.v.
    A handler is a program of [Tool], a monad of the world, the statements that
    were issued, and exceptions. *)

From S2P Require Import Prelude JsMap JsString JsRegExp Json JsNumber Raft Membership Replication SharedMemory.
From Stdlib Require Import Ascii.

(** ** Detecting credentials and tables *)

Definition re_non_space : regex := re_chr (fun c => negb (is_space c)).
Definition re_spaces : regex := re_many (re_chr is_space).
Definition re_quote : regex := re_lit_char dq.

Definition CREDENTIAL_PATTERNS : list regex := [
  re_seqs [re_start; re_lit "sk-"; re_times 20 (re_chr is_alnum); re_many (re_chr is_alnum); re_end];
  re_seqs [re_start; re_lit "xoxb-"];
  re_seqs [re_start; re_lit "ghp_"];
  re_seqs [re_start; re_lit "glpat-"];
  re_seqs [re_ilit "password"; re_spaces; re_chr (one_of ":="); re_spaces; re_plus re_non_space];
  re_seqs [re_start; re_times 40 (re_chr (fun c => is_alnum c || one_of "+/" c));
           re_many (re_chr (fun c => is_alnum c || one_of "+/" c)); re_upto 2 (re_lit "="); re_end];
  re_seqs [re_lit "postgresql://"; re_plus re_non_space; re_lit ":"; re_plus re_non_space; re_lit "@"];
  re_seqs [re_lit "mongodb"; re_opt (re_group 1 (re_lit "+srv")); re_lit "://"; re_plus re_non_space;
           re_lit ":"; re_plus re_non_space; re_lit "@"];
  re_seqs [re_start; re_lit "AKIA"; re_times 16 (re_chr (fun c => is_upper c || is_digit_char c)); re_end];
  re_seqs [re_start; re_lit "-----BEGIN ";
           re_opt (re_group 1 (re_alts (re_lit "RSA ") [re_lit "EC "; re_lit "DSA "])); re_lit "PRIVATE KEY-----"]
].

Definition looksLikeCredential (value : string) : bool :=
  existsb (fun pattern => test pattern value) CREDENTIAL_PATTERNS.

(** ["?(\w+)"?]. *)
Definition re_table : list regex := [re_opt re_quote; re_group 1 (re_plus (re_chr is_word)); re_opt re_quote].
Definition re_some_spaces : regex := re_plus (re_chr is_space).

Definition re_insert : regex :=
  re_seqs ([re_ilit "INSERT"; re_some_spaces;
            re_opt (re_seqs [re_ilit "OR"; re_some_spaces; re_plus (re_chr is_word); re_some_spaces]);
            re_ilit "INTO"; re_some_spaces] ++ re_table).
Definition re_update : regex := re_seqs ([re_ilit "UPDATE"; re_some_spaces] ++ re_table).
Definition re_delete : regex := re_seqs ([re_ilit "DELETE"; re_some_spaces; re_ilit "FROM"; re_some_spaces] ++ re_table).
Definition re_from : regex := re_seqs ([re_ilit "FROM"; re_some_spaces] ++ re_table).

Definition normalize_sql (sql : string) : string := js_toUpperCase (js_trim sql).

Definition extractTableName (sql : string) : option string :=
  let normalized := normalize_sql sql in
  let first r := exec r sql ≫= group 1 in
  if js_startsWith normalized "INSERT" then first re_insert
  else if js_startsWith normalized "UPDATE" then first re_update
  else if js_startsWith normalized "DELETE" then first re_delete
  else if js_startsWith normalized "SELECT" then first re_from
  else None.

(** ** What the handlers call *)

Class MemoryEnv (W : Type) := {
  mem_read : string -> list json -> W -> W * (string + list Row);
  mem_readOne : string -> list json -> W -> W * (string + option Row);
  mem_write : string -> list json -> WriteOptions -> W -> W * WriteResult;
  mem_describeTable : string -> W -> W * (string + list ColumnInfo);
  mem_getTableClassification : string -> W -> W * (string + option Classification);
  mem_getTableClassifications : W -> W * (string + list TableClassification);
  mem_getStats : W -> W * (string + DbStats);
  mem_raft : W -> RaftNode string;
  mem_path : W -> string;
  mem_nodeId : W -> string
}.

(** The statements a handler issues through the replicator. *)
Inductive Statement :=
  | did_read (sql : string) (params : list json)
  | did_readOne (sql : string) (params : list json)
  | did_write (sql : string) (params : list json) (options : WriteOptions).

Definition statement_sql (s : Statement) : string :=
  match s with did_read sql _ | did_readOne sql _ | did_write sql _ _ => sql end.
Definition statement_params (s : Statement) : list json :=
  match s with did_read _ ps | did_readOne _ ps | did_write _ ps _ => ps end.

(** The bound parameters a SQL text asks for. *)
Fixpoint placeholders (sql : string) : nat :=
  match sql with
  | EmptyString => O
  | String c sql => if Ascii.eqb c "?" then S (placeholders sql) else placeholders sql
  end.

Section tools.
Context {W : Type} `{!MemoryEnv W}.

(** ** The monad *)

Record ToolState := mkToolState { tl_world : W; tl_issued : list Statement }.
Definition Tool (A : Type) : Type := ToolState -> ToolState * (string + A).
Definition ret {A} (a : A) : Tool A := fun s => (s, inr a).
Definition throw {A} (m : string) : Tool A := fun s => (s, inl m).
Definition bind {A B} (x : Tool A) (f : A -> Tool B) : Tool B := fun s =>
  match x s with (s, inl m) => (s, inl m) | (s, inr a) => f a s end.
Definition perform {A} (issued : list Statement) (f : W -> W * (string + A)) : Tool A := fun s =>
  let '(w, r) := f (tl_world s) in (mkToolState w (tl_issued s ++ issued), r).

#[local] Notation "'let*' x := c 'in' k" := (bind c (fun x => k)) (at level 60, x pattern, c at level 59, right associativity).
#[local] Notation "c ;;* k" := (bind c (fun _ => k)) (at level 60, right associativity).

Definition read (sql : string) (params : list json) : Tool (list Row) :=
  perform [did_read sql params] (mem_read sql params).
Definition readOne (sql : string) (params : list json) : Tool (option Row) :=
  perform [did_readOne sql params] (mem_readOne sql params).
Definition write (sql : string) (params : list json) (options : WriteOptions) : Tool WriteResult :=
  perform [did_write sql params options]
    (fun w => let '(w, r) := mem_write sql params options w in (w, inr r)).
Definition ask {A} (f : W -> W * (string + A)) : Tool A := perform [] f.
Definition look {A} (f : W -> A) : Tool A := ask (fun w => (w, inr (f w))).

(** ** Objects *)

Definition opt_str (k : string) (o : option string) : list (string * json) :=
  match o with Some s => [(k, JStr s)] | None => [] end.
Definition opt_json (k : string) (o : option json) : list (string * json) :=
  match o with Some j => [(k, j)] | None => [] end.
Definition write_members (r : WriteResult) : list (string * json) :=
  [("success", JBool (wr_success r))] ++ opt_str "error" (wr_error r) ++
  match wr_changes r with Some n => [("changes", JNum n)] | None => [] end.
Definition rows_json (rows : list Row) : json := JArr (JObj <$> rows).
Definition null_or_str (o : option string) : json := match o with Some s => JStr s | None => JNull end.

(** ** The generic tools *)

Definition is_query (sql : string) : bool :=
  let normalized := normalize_sql sql in
  js_startsWith normalized "SELECT" || js_startsWith normalized "PRAGMA" || js_startsWith normalized "WITH".

Definition limited_sql (sql : string) (limit : option Z) : string :=
  if js_includes (normalize_sql sql) "LIMIT" then sql else str [sql; " LIMIT "; js_toString (default 100 limit)].

Definition memory_query (sql : string) (params : option (list json)) (limit : option Z) : Tool json :=
  if is_query sql then
    let* rows := read (limited_sql sql limit) (default [] params) in
    ret (JObj [("rows", rows_json rows); ("count", JNum (js_length rows))])
  else throw "memory_query only accepts SELECT, PRAGMA, or WITH (CTE) queries. Use memory_write for mutations.".

Definition memory_write (sql : string) (params : option (list json)) (classification : option Classification) :
    Tool json :=
  let normalized := normalize_sql sql in
  if js_startsWith normalized "SELECT"
  then throw "memory_write does not accept SELECT queries. Use memory_query instead."
  else if js_startsWith normalized "DROP" || js_startsWith normalized "ALTER"
  then throw "DDL statements (DROP, ALTER) are not allowed through memory_write. Modify the schema in the source code."
  else
    let* result := write sql (default [] params) (mkWriteOptions classification (extractTableName sql)) in
    ret (JObj (write_members result)).

Definition column_json (c : ColumnInfo) : json :=
  JObj (opt_json "name" (ci_name c) ++ opt_json "type" (ci_type c) ++
        [("notNull", JBool (truthy_member (ci_notnull c))); ("primaryKey", JBool (truthy_member (ci_pk c)))]).

Definition classification_json (o : option Classification) : json :=
  match o with Some c => JStr (classification_string c) | None => JNull end.

Definition memory_schema (table domain : option string) : Tool json :=
  if truthy_opt table then
    let tableName := default "" table in
    let* columns := ask (mem_describeTable tableName) in
    let* classification := ask (mem_getTableClassification tableName) in
    ret (JObj [("table", JStr tableName); ("classification", classification_json classification);
               ("columns", JArr (column_json <$> columns))])
  else
    let* classifications := ask mem_getTableClassifications in
    let classifications :=
      if truthy_opt domain
      then keep (fun c => js_startsWith (tc_table_name c) (default "" domain +:+ "_")) classifications
      else classifications in
    ret (JObj [("tables", JArr ((fun c => JObj [("name", JStr (tc_table_name c));
                                                ("classification", JStr (classification_string (tc_classification c)));
                                                ("domain", JStr (tc_domain c))]) <$> classifications));
               ("count", JNum (js_length classifications))]).

(** [(bytes / (1024 * 1024)).toFixed(2)]: the nearest hundredth, the larger of two. *)
Definition megabytes (bytes : Z) : string :=
  let n := (200 * bytes + 1048576) / 2097152 in
  str [js_toString (n / 100); "."; if n `mod` 100 <? 10 then "0" else ""; js_toString (n `mod` 100)].

Definition raft_role (r : RaftNode string) : string :=
  match state r with follower => "follower" | candidate => "candidate" | leader => "leader" end.

Definition memory_stats : Tool json :=
  let* stats := ask mem_getStats in
  let* raft := look mem_raft in
  let* nodeId := look mem_nodeId in
  let* path := look mem_path in
  let cc := classificationCounts stats in
  ret (JObj [("nodeId", JStr nodeId); ("raftRole", JStr (raft_role raft)); ("leaderId", null_or_str (leaderId raft));
             ("dbPath", JStr path); ("dbSizeBytes", JNum (dbSizeBytes stats));
             ("dbSizeMb", JStr (megabytes (dbSizeBytes stats))); ("tableCount", JNum (tableCount stats));
             ("rowCounts", JObj ((fun kv => (kv.1, JNum kv.2)) <$> rowCounts stats));
             ("classificationCounts", JObj [("public", JNum (cc_public cc)); ("internal", JNum (cc_internal cc));
                                            ("local", JNum (cc_local cc))])]).

(** ** The texts of the SQL *)

Definition latest_sql : string :=
"SELECT current_thought_id AS id FROM timeline_thread_position WHERE thread_id = ?".

Definition insert_thought_sql : string :=
"INSERT INTO timeline_thoughts (thread_id, parent_thought_id, content, thought_type, metadata)
         VALUES (?, ?, ?, ?, ?)".

Definition last_thought_sql : string :=
"SELECT id FROM timeline_thoughts WHERE thread_id = ? ORDER BY id DESC LIMIT 1".

Definition position_sql : string :=
"INSERT INTO timeline_thread_position (thread_id, current_thought_id, updated_at)
           VALUES (?, ?, datetime('now'))
           ON CONFLICT(thread_id) DO UPDATE SET current_thought_id = ?, updated_at = datetime('now')".

Definition touch_sql : string :=
"UPDATE timeline_threads SET updated_at = datetime('now') WHERE id = ?".

Definition whereami_threads_sql : string :=
str ["
        SELECT
          t.id, t.name, t.status, t.description,
          tp.current_thought_id,
          ct.content AS current_thought_content,
          ct.thought_type,
          ct.created_at AS last_updated,
          p.name AS project_name,
          (SELECT COUNT("; "*"; ") FROM timeline_thoughts th WHERE th.thread_id = t.id) AS thought_count
        FROM timeline_threads t
        LEFT JOIN timeline_thread_position tp ON tp.thread_id = t.id
        LEFT JOIN timeline_thoughts ct ON ct.id = tp.current_thought_id
        LEFT JOIN timeline_projects p ON p.id = t.project_id
        WHERE t.status IN ('active', 'paused')
        ORDER BY t.updated_at DESC
      "].

Definition whereami_context_sql : string :=
"
        SELECT key, category, label, value FROM timeline_context
        WHERE pinned = 1 OR category = 'waiting' OR updated_at > datetime('now', '-7 days')
        ORDER BY pinned DESC, updated_at DESC
        LIMIT 20
      ".

Definition status_sql : string :=
"UPDATE timeline_threads SET status = ?, updated_at = datetime('now') WHERE id = ?".

Definition upsert_context_sql : string :=
"INSERT INTO timeline_context (key, value, category, label, source, pinned, updated_at)
         VALUES (?, ?, ?, ?, ?, ?, datetime('now'))
         ON CONFLICT(key) DO UPDATE SET
           value = excluded.value,
           category = excluded.category,
           label = COALESCE(excluded.label, timeline_context.label),
           source = excluded.source,
           pinned = COALESCE(excluded.pinned, timeline_context.pinned),
           updated_at = datetime('now')".

Definition context_matches_sql : string :=
"SELECT key, value, category, label, updated_at
         FROM timeline_context
         WHERE value LIKE ? OR key LIKE ? OR label LIKE ?
         ORDER BY updated_at DESC
         LIMIT ?".

Definition lookup_sql : string :=
"SELECT * FROM network_clients
         WHERE LOWER(hostname) LIKE ? OR ip_address LIKE ? OR LOWER(mac_address) LIKE ?
         ORDER BY hostname".

Definition thoughts_sql (conditions : string) : string :=
str ["SELECT id, thread_id, content, thought_type, created_at
         FROM timeline_thoughts
         WHERE "; conditions; "
         ORDER BY created_at DESC
         LIMIT ?"].

Definition entries_sql (conditions : string) : string :=
str ["SELECT * FROM timeline_context WHERE "; conditions; "
         ORDER BY pinned DESC, updated_at DESC LIMIT ?"].

Definition threads_sql (where_clause : string) : string :=
str [str ["
        SELECT
          t.id, t.name, t.status, t.description,
          t.project_id,
          p.name AS project_name,
          tp.current_thought_id,
          ct.content AS current_thought_content,
          ct.thought_type AS current_thought_type,
          (SELECT COUNT("; "*"; ") FROM timeline_thoughts th WHERE th.thread_id = t.id) AS thought_count,
          t.created_at,
          t.updated_at
        FROM timeline_threads t
        LEFT JOIN timeline_thread_position tp ON tp.thread_id = t.id
        LEFT JOIN timeline_thoughts ct ON ct.id = tp.current_thought_id
        LEFT JOIN timeline_projects p ON p.id = t.project_id
        "]; where_clause; "
        ORDER BY t.updated_at DESC
      "].

(** ** The shortcuts *)

Definition table_options (table : string) : WriteOptions := mkWriteOptions None (Some table).

(** [row?.id ?? null]. *)
Definition row_id (row : option Row) : json := default JNull (row ≫= fun r => jm_get r "id").

Definition memory_log_thought (thread_id : Z) (content : string) (thought_type : option string)
    (metadata : option json) : Tool json :=
  let thoughtType := default "progress" thought_type in
  let metadata := if truthy_member metadata then stringify (default JNull metadata) else "{}" in
  let* latest := readOne latest_sql [JNum thread_id] in
  let* insertResult := write insert_thought_sql
    [JNum thread_id; row_id latest; JStr content; JStr thoughtType; JStr metadata]
    (table_options "timeline_thoughts") in
  if negb (wr_success insertResult) then ret (JObj (opt_str "error" (wr_error insertResult)))
  else
    let* thought := readOne last_thought_sql [JNum thread_id] in
    let answer := JObj (opt_json "thought_id" (thought ≫= fun r => jm_get r "id") ++
                        [("thread_id", JNum thread_id); ("type", JStr thoughtType)]) in
    match thought with
    | Some row =>
        let id := row_id (Some row) in
        write position_sql [JNum thread_id; id; id] (table_options "timeline_thread_position") ;;*
        write touch_sql [JNum thread_id] (table_options "timeline_threads") ;;*
        ret answer
    | None => ret answer
    end.

Definition memory_whereami : Tool json :=
  let* threads := read whereami_threads_sql [] in
  let* context := read whereami_context_sql [] in
  ret (JObj [("active_threads", rows_json threads); ("pinned_context", rows_json context)]).

Definition bullets (l : list string) : string := join_with newline ((fun x => "- " +:+ x) <$> l).
(** [list?.map(...).join(...) || '- None']. *)
Definition bullets_or_none (l : option (list string)) : string :=
  match bullets <$> l with
  | Some s => if truthy_str s then s else "- None"
  | None => "- None"
  end.

Definition handoff_text (done : list string) (pending blockers : option (list string)) (next_steps : list string) : string :=
  let blank_line := newline +:+ newline in
  str ["## Session Handoff"; blank_line; "**Done:**"; newline; bullets done; blank_line;
       "**Pending:**"; newline; bullets_or_none pending; blank_line;
       "**Blockers:**"; newline; bullets_or_none blockers; blank_line;
       "**Next Steps:**"; newline; bullets next_steps].

(** [{ ...result, status }]; the object of the thought tool has no status. *)
Definition with_status (result : json) (status : string) : json :=
  match result with
  | JObj l => JObj (jm_set l "status" (JStr status))
  | _ => JObj [("status", JStr status)]
  end.

Definition memory_handoff (thread_id : Z) (done : list string) (pending blockers : option (list string))
    (next_steps : list string) (update_status : option string) : Tool json :=
  let* result := memory_log_thought thread_id (handoff_text done pending blockers next_steps) (Some "handoff")
    (Some (JObj [("type", JStr "session_handoff")])) in
  (if truthy_opt update_status
   then write status_sql [null_or_str update_status; JNum thread_id] (table_options "timeline_threads") ;;* ret ()
   else ret ()) ;;*
  ret (with_status result (if truthy_opt update_status then default "" update_status else "unchanged")).

Definition credential_warning : string :=
  "Value appears to contain credentials. Classification set to " +:+ String dq ("internal" +:+
  String dq " (replicates to nodes but NOT backed up to GCS).").

Definition memory_set_context (key : string) (value : list (string * json)) (category : string)
    (label : option string) (pinned : bool) (source : option string) : Tool json :=
  let valueStr := stringify (JObj value) in
  let warning := if looksLikeCredential valueStr then Some credential_warning else None in
  let* result := write upsert_context_sql
    [JStr key; JStr valueStr; JStr category; null_or_str label; null_or_str source; JNum (if pinned then 1 else 0)]
    (mkWriteOptions (Some cl_internal) (Some "timeline_context")) in
  ret (JObj (write_members result ++ [("key", JStr key); ("category", JStr category)] ++
             opt_str "credentialWarning" warning)).

(** [conditions.join(' AND ')]. *)
Definition conjunction (conditions : list string) : string := join_with " AND " conditions.

Definition recent_condition (since_days : option Z) : string :=
  str ["(updated_at > datetime('now', '-"; js_toString (default 7 since_days); " days') OR pinned = 1)"].

Definition memory_get_context (key category : option string) (pinned_only : bool) (since_days limit : option Z) :
    Tool json :=
  if truthy_opt key then
    let* entry := readOne "SELECT * FROM timeline_context WHERE key = ?" [null_or_str key] in
    match entry with
    | Some row => ret (JObj row)
    | None => throw ("Context key not found: " +:+ default "" key)
    end
  else
    let by_category := truthy_opt category in
    let conditions := [recent_condition since_days] ++
                      (if by_category then ["category = ?"] else []) ++
                      (if pinned_only then ["pinned = 1"] else []) in
    let params := if by_category then [null_or_str category] else [] in
    let* entries := read (entries_sql (conjunction conditions)) (params ++ [JNum (default 50 limit)]) in
    ret (JObj [("entries", rows_json entries); ("count", JNum (js_length entries))]).

(** A number the code tests for truth. *)
Definition truthy_num (o : option Z) : bool := match o with Some z => negb (z =? 0) | None => false end.

Definition memory_search (q : string) (thread_id limit : option Z) : Tool json :=
  let limit := default 20 limit in
  let pattern := JStr (str ["%"; q; "%"]) in
  let thread := truthy_num thread_id in
  let thoughtConditions := ["content LIKE ?"] ++ (if thread then ["thread_id = ?"] else []) in
  let thoughtParams := [pattern] ++ (if thread then [JNum (default 0 thread_id)] else []) in
  let* thoughts := read (thoughts_sql (conjunction thoughtConditions)) (thoughtParams ++ [JNum limit]) in
  let* contextEntries := read context_matches_sql [pattern; pattern; pattern; JNum limit] in
  ret (JObj [("thoughts", JObj [("results", rows_json thoughts); ("count", JNum (js_length thoughts))]);
             ("context", JObj [("results", rows_json contextEntries); ("count", JNum (js_length contextEntries))])]).

Definition memory_network_lookup (q : string) : Tool json :=
  let pattern := JStr (str ["%"; js_toLowerCase q; "%"]) in
  let* devices := read lookup_sql [pattern; pattern; pattern] in
  ret (JObj [("devices", rows_json devices); ("count", JNum (js_length devices))]).

Definition memory_list_threads (status : option string) (project_id : option Z) : Tool json :=
  let by_status := truthy_opt status in
  let by_project := truthy_num project_id in
  let conditions := (if by_status then ["t.status = ?"] else []) ++
                    (if by_project then ["t.project_id = ?"] else []) in
  let params := (if by_status then [null_or_str status] else []) ++
                (if by_project then [JNum (default 0 project_id)] else []) in
  let where_clause := match conditions with [] => "" | _ => "WHERE " +:+ conjunction conditions end in
  let* threads := read (threads_sql where_clause) params in
  ret (JObj [("threads", rows_json threads); ("count", JNum (js_length threads))]).
End tools.
Arguments ToolState : clear implicits.
Arguments Tool : clear implicits.

(** ** The replicator as the environment of the tools

    [env] and [rpc] are what a forwarded write meets, [at_time] the clock, [size] that of
    the database file; [meanwhile] is what has happened to the node when a write
    returns to the handler that awaits it. *)
Section replicator.
Context {T : Type} `{!SqlReader T}.
Context (sha256 : list ascii -> string) (iso : Z -> string) (writable : bool).
Context (env : nat -> MembershipManager * RaftNode string)
  (rpc : nat -> string -> MemoryWriteRequest -> string + MemoryWriteResponse)
  (at_time : MemoryReplicator T -> Z) (size : option Z)
  (meanwhile : MemoryReplicator T -> MemoryReplicator T).
Implicit Types m : MemoryReplicator T.

Definition on_db {A} (f : SharedMemoryDB T -> SharedMemoryDB T * A) m : MemoryReplicator T * A :=
  let '(d, a) := f (rp_db m) in (m <| rp_db := d |>, a).

Definition replicator_env : MemoryEnv (MemoryReplicator T) := {|
  mem_read sql params m := on_db (query (at_time m) sql params) m;
  mem_readOne sql params m := on_db (queryOne (at_time m) sql params) m;
  mem_write sql params options m :=
    let '(res, m, _, _) := Replication.write sha256 iso writable env rpc (at_time m) sql params options m in
    (meanwhile m, res);
  mem_describeTable table m := on_db (describeTable (at_time m) table) m;
  mem_getTableClassification table m :=
    (m, if db_open (rp_db m) then inr (getTableClassification table (rp_db m)) else inl not_open);
  mem_getTableClassifications m := (m, getTableClassifications (rp_db m));
  mem_getStats m := (m, getStats size (rp_db m));
  mem_raft := rp_raft;
  mem_path m := dbPath (rp_db m);
  mem_nodeId := rp_nodeId
|}.
End replicator.
