(* ===== verification/MemoryToolsProps.v ===== *)
(** * The tools of the shared memory: theorems

    Every statement of the shortcuts has a value for each of its placeholders; the
    generic tools keep reading and writing apart; the table of a statement is read
    from its text; which values are taken for credentials; and executions in which
    the thread position falls behind. *)

From S2P Require Import Prelude JsMap JsString JsRegExp Json JsNumber Raft Membership Replication ReplicationProps SharedMemory MemoryTools.
From Stdlib Require Import Ascii.

(** ** The table of a statement *)

(** A table name: word characters, at least one. *)
Definition identifier (t : string) : Prop :=
  t <> "" /\ forall c, one_of t c = true -> is_word c = true.

Lemma word_not_space c : is_word c = true -> is_space c = false.
Proof. by destruct c as [[] [] [] [] [] [] [] []]. Qed.
Lemma word_not_quote c : is_word c = true -> Ascii.eqb dq c = false.
Proof. by destruct c as [[] [] [] [] [] [] [] []]. Qed.

(** The end of the patterns, on a table name that is followed by no word character. *)
Lemma run_table (t rest : string) prev :
  identifier t -> boundary_test is_word (str_head rest) = false ->
  exists s', run_regex (re_seqs re_table) Some (mkMstate prev (t +:+ rest) []) = Some s' /\
             cap_lookup 1 (ms_caps s') = Some t.
Proof.
  intros [Hne Hw] Hr. unfold re_table, re_seqs. cbn [foldr].
  destruct t as [|c u]; [done|].
  assert (Hc : is_word c = true) by (apply Hw; cbn; by rewrite Ascii.eqb_refl).
  set (whole := String c u). set (k := fun s' => run_regex (re_seq (re_opt re_quote) re_eps) Some
    (capture 1 (mkMstate prev (whole +:+ rest) []) s')).
  assert (Hk : exists s', k (mkMstate (last_char prev whole) rest []) = Some s' /\ ms_caps s' = [(1%nat, whole)]).
  { unfold k, capture, consumed. cbn [ms_rest ms_caps field_update].
    rewrite str_length_app, Nat.add_sub, substring_app_l.
    destruct rest as [|d rest]; [by eexists|]. cbn.
    destruct (Ascii.eqb dq d); by eexists. }
  destruct Hk as (s' & Hk & Hcaps). exists s'. rewrite Hcaps. split; [|done].
  cbn [run_regex]. rewrite run_opt_skip.
  - change (run_regex (re_plus (re_chr is_word)) k (mkMstate prev (whole +:+ rest) []) = Some s').
    by apply run_plus_chr.
  - unfold whole. rewrite str_app_cons. unfold re_quote, re_lit_char. apply run_chr_fails. cbn. by apply word_not_quote.
Qed.

Lemma one_of_space d : one_of " " d = true -> is_space d = true.
Proof. by destruct d as [[] [] [] [] [] [] [] []]. Qed.

(** One space, then the table. *)
Lemma run_space_table (t rest : string) prev :
  identifier t -> boundary_test is_word (str_head rest) = false ->
  exists s', run_regex (re_seq re_some_spaces (re_seqs re_table)) Some (mkMstate prev (" " +:+ (t +:+ rest)) []) = Some s' /\
             cap_lookup 1 (ms_caps s') = Some t.
Proof.
  intros Ht Hr. destruct (run_table t rest (Some " "%char) Ht Hr) as (s' & Hs & Hc). exists s'. split; [|done].
  cbn [run_regex]. apply run_plus_chr; [| |exact Hs].
  - apply one_of_space.
  - destruct Ht as [Hne Hw]. destruct t as [|c u]; [done|]. rewrite str_app_cons. cbn.
    apply word_not_space, Hw. cbn. by rewrite Ascii.eqb_refl.
Qed.

(** The optional [OR REPLACE]. *)
Lemma run_or_replace x s' :
  run_regex (re_seq re_some_spaces (re_seqs re_table)) Some (mkMstate (Some "O"%char) (" " +:+ x) []) = Some s' ->
  match_here re_insert (mkMstate None ("INSERT OR REPLACE INTO " +:+ x) []) = Some s'.
Proof.
  intros H.
  set (conflict := re_seqs [re_ilit "OR"; re_some_spaces; re_plus (re_chr is_word); re_some_spaces]).
  set (k := run_regex (re_seqs ([re_ilit "INTO"; re_some_spaces] ++ re_table)) Some).
  change (run_regex re_some_spaces (run_regex (re_opt conflict) k)
            (mkMstate (Some "T"%char) (" " +:+ ("OR REPLACE INTO " +:+ x)) []) = Some s').
  apply run_plus_chr; [apply one_of_space|done|].
  change (or_else (run_regex conflict k (mkMstate (Some " "%char) ("OR REPLACE INTO " +:+ x) []))
            (k (mkMstate (Some " "%char) ("OR REPLACE INTO " +:+ x) [])) = Some s').
  enough (run_regex conflict k (mkMstate (Some " "%char) ("OR REPLACE INTO " +:+ x) []) = Some s') as -> by done.
  change (run_regex re_some_spaces (run_regex (re_seq (re_plus (re_chr is_word)) (re_seq re_some_spaces re_eps)) k)
            (mkMstate (Some "R"%char) (" " +:+ ("REPLACE INTO " +:+ x)) []) = Some s').
  apply run_plus_chr; [apply one_of_space|done|].
  change (run_regex (re_plus (re_chr is_word)) (run_regex (re_seq re_some_spaces re_eps) k)
            (mkMstate (Some " "%char) ("REPLACE" +:+ (" INTO " +:+ x)) []) = Some s').
  apply run_plus_chr; [|done|].
  { intros d Hd. by destruct d as [[] [] [] [] [] [] [] []]. }
  change (run_regex re_some_spaces (run_regex re_eps k) (mkMstate (Some "E"%char) (" " +:+ ("INTO " +:+ x)) []) = Some s').
  apply run_plus_chr; [apply one_of_space|done|]. exact H.
Qed.

(** Which pattern is used depends on the first word only. *)
Lemma extract_update x : extractTableName ("UPDATE " +:+ x) = (exec re_update ("UPDATE " +:+ x) ≫= group 1).
Proof.
  unfold extractTableName. set (sql := "UPDATE " +:+ x).
  assert (js_startsWith (normalize_sql sql) "INSERT" = false) as -> by reflexivity.
  assert (js_startsWith (normalize_sql sql) "UPDATE" = true) as ->; [|done].
  apply prefix_app. by exists (js_toUpperCase (js_trimEnd (" " +:+ x))).
Qed.

Lemma extract_delete x : extractTableName ("DELETE FROM " +:+ x) = (exec re_delete ("DELETE FROM " +:+ x) ≫= group 1).
Proof.
  unfold extractTableName. set (sql := "DELETE FROM " +:+ x).
  assert (js_startsWith (normalize_sql sql) "INSERT" = false) as -> by reflexivity.
  assert (js_startsWith (normalize_sql sql) "UPDATE" = false) as -> by reflexivity.
  by assert (js_startsWith (normalize_sql sql) "DELETE" = true) as -> by reflexivity.
Qed.

(** The tools read the table of a statement from its text: for the usual forms of
    INSERT, UPDATE and DELETE it is the table the statement changes. *)
Theorem extractTableName_statement t rest :
  identifier t -> boundary_test is_word (str_head rest) = false ->
  extractTableName ("INSERT INTO " +:+ (t +:+ rest)) = Some t /\
  extractTableName ("INSERT OR REPLACE INTO " +:+ (t +:+ rest)) = Some t /\
  extractTableName ("UPDATE " +:+ (t +:+ rest)) = Some t /\
  extractTableName ("DELETE FROM " +:+ (t +:+ rest)) = Some t.
Proof.
  intros Ht Hr.
  assert (Hat : forall r s prev, match_here r (mkMstate None s []) =
      run_regex (re_seq re_some_spaces (re_seqs re_table)) Some (mkMstate prev (" " +:+ (t +:+ rest)) []) ->
    exec r s ≫= group 1 = Some t).
  { intros r s prev E. destruct (run_space_table t rest prev Ht Hr) as (s' & Hs & Hc).
    rewrite Hs in E. by rewrite (exec_at_start _ _ _ E). }
  split_and!.
  - change (exec re_insert ("INSERT INTO " +:+ (t +:+ rest)) ≫= group 1 = Some t).
    by apply (Hat _ _ (Some "O"%char)).
  - change (exec re_insert ("INSERT OR REPLACE INTO " +:+ (t +:+ rest)) ≫= group 1 = Some t).
    apply (Hat _ _ (Some "O"%char)). destruct (run_space_table t rest (Some "O"%char) Ht Hr) as (s' & Hs & _).
    rewrite Hs. by apply run_or_replace.
  - rewrite extract_update. by apply (Hat _ _ (Some "E"%char)).
  - rewrite extract_delete. by apply (Hat _ _ (Some "M"%char)).
Qed.

(** [UPDATE OR IGNORE t] names the conflict clause, and [REPLACE INTO t] nothing: a
    local table is then written as a public one, to every node. *)
Example conflict_clause_taken_for_table :
  extractTableName "UPDATE OR IGNORE scratch SET v = 1" = Some "OR" /\
  extractTableName "REPLACE INTO scratch VALUES (1)" = None /\
  getClassificationForTable (Some "scratch") db0 = cl_local /\
  getClassificationForTable (extractTableName "UPDATE OR IGNORE scratch SET v = 1") db0 = cl_public /\
  getClassificationForTable (extractTableName "REPLACE INTO scratch VALUES (1)") db0 = cl_public.
Proof. by vm_compute. Qed.

(** ** What counts as a credential *)

(** The patterns that are not anchored at the start. *)
Definition FREE_PATTERNS : list regex :=
  omap (fun i => CREDENTIAL_PATTERNS !! i) [4%nat; 6%nat; 7%nat].

(** A context value is an object, so its JSON text begins with a brace: no key of the
    anchored patterns (sk-, xoxb-, ghp_, glpat-, AKIA, Base64, PEM) is ever detected in
    one; only [password], [postgresql://] and [mongodb://] are looked for. *)
Theorem anchored_patterns_never_match value :
  looksLikeCredential (stringify (JObj value)) =
    existsb (fun p => test p (stringify (JObj value))) FREE_PATTERNS.
Proof.
  cbn [stringify]. rewrite str_app_cons, str_app_nil. set (text := String _ _).
  assert (Ha : forall r, match_here r (mkMstate None text []) = None -> test (re_seq re_start r) text = false).
  { intros r H. by rewrite test_start, H. }
  unfold looksLikeCredential, CREDENTIAL_PATTERNS, FREE_PATTERNS. cbn [existsb omap list_omap lookup list_lookup].
  unfold re_seqs. cbn [foldr].
  rewrite !(Ha (re_seq (re_lit _) _)) by reflexivity.
  rewrite (Ha (re_seq (re_times 40 _) _)) by reflexivity.
  reflexivity.
Qed.

Example stored_keys_not_detected :
  looksLikeCredential (stringify (JObj [("token", JStr "ghp_0123456789abcdef")])) = false /\
  looksLikeCredential "ghp_0123456789abcdef" = true /\
  looksLikeCredential (stringify (JObj [("note", JStr "password: hunter2")])) = true.
Proof. by vm_compute. Qed.

(** ** Statements have a value for every placeholder *)

Section issued.
Context {W : Type} `{!MemoryEnv W}.
Context (P : Statement -> Prop).

(** Whatever the replicator answers, a program issues only statements with [P]. *)
Definition issues {A} (x : Tool W A) : Prop :=
  forall s, exists l, tl_issued (x s).1 = tl_issued s ++ l /\ Forall P l.

Lemma issues_ret {A} (a : A) : issues (ret a).
Proof. intros s. exists []. by rewrite app_nil_r. Qed.

Lemma issues_throw {A} m : issues (@throw W A m).
Proof. intros s. exists []. by rewrite app_nil_r. Qed.

Lemma issues_bind {A B} (x : Tool W A) (f : A -> Tool W B) :
  issues x -> (forall a, issues (f a)) -> issues (bind x f).
Proof.
  intros Hx Hf s. unfold bind. destruct (Hx s) as (l & El & Hl).
  destruct (x s) as [s1 [m|a]]; cbn in El; [by exists l|].
  destruct (Hf a s1) as (l2 & E2 & H2). exists (l ++ l2). cbn. rewrite E2, El, <- app_assoc.
  split; [done|]. by apply Forall_app.
Qed.

Lemma issues_perform {A} issued (f : W -> W * (string + A)) : Forall P issued -> issues (perform issued f).
Proof. intros H s. exists issued. unfold perform. by destruct (f (tl_world s)). Qed.

Lemma issues_ask {A} (f : W -> W * (string + A)) : issues (ask f).
Proof. by apply issues_perform. Qed.
End issued.

Create HintDb tools.
#[export] Hint Resolve issues_ret issues_throw issues_ask : tools.

Ltac issue_steps :=
  repeat first
    [ progress auto with tools
    | apply issues_bind; [|intros ?]
    | apply issues_perform, Forall_singleton
    | match goal with |- issues _ (if ?b then _ else _) => destruct b end
    | match goal with |- issues _ (match ?x with _ => _ end) => destruct x end ].

Definition bound (s : Statement) : Prop := placeholders (statement_sql s) = length (statement_params s).

Lemma placeholders_app a b : placeholders (a +:+ b) = (placeholders a + placeholders b)%nat.
Proof.
  induction a as [|c a IH]; [done|]. rewrite str_app_cons. cbn. rewrite IH. by destruct (Ascii.eqb c "?").
Qed.

Lemma placeholders_free s : free_of "?" s = true -> placeholders s = 0%nat.
Proof.
  induction s as [|c s IH]; [done|]. cbn. destruct (Ascii.eqb c "?"); [done|]. exact IH.
Qed.

Lemma placeholders_toString z : placeholders (js_toString z) = 0%nat.
Proof. by apply placeholders_free, js_toString_free. Qed.

Lemma placeholders_str l : placeholders (str l) = sum_list (placeholders <$> l).
Proof.
  induction l as [|s l IH]; [done|]. change (str (s :: l)) with (s +:+ str l).
  rewrite placeholders_app, IH. done.
Qed.

Lemma placeholders_conjunction l : placeholders (conjunction l) = sum_list (placeholders <$> l).
Proof.
  unfold conjunction. induction l as [|s l IH]; [done|]. destruct l as [|s' l]; [cbn; lia|].
  change (join_with " AND " (s :: s' :: l)) with (s +:+ (" AND " +:+ join_with " AND " (s' :: l))).
  rewrite !placeholders_app, IH. done.
Qed.

Lemma placeholders_recent d : placeholders (recent_condition d) = 0%nat.
Proof. unfold recent_condition. rewrite placeholders_str. cbn [fmap list_fmap]. by rewrite placeholders_toString. Qed.

(** A call of one of the shortcut tools. *)
Inductive ShortcutCall :=
  | call_log_thought (thread_id : Z) (content : string) (thought_type : option string) (metadata : option json)
  | call_whereami
  | call_handoff (thread_id : Z) (done : list string) (pending blockers : option (list string))
      (next_steps : list string) (update_status : option string)
  | call_set_context (key : string) (value : list (string * json)) (category : string) (label : option string)
      (pinned : bool) (source : option string)
  | call_get_context (key category : option string) (pinned_only : bool) (since_days limit : option Z)
  | call_search (q : string) (thread_id limit : option Z)
  | call_network_lookup (q : string)
  | call_list_threads (status : option string) (project_id : option Z).

Definition handler {W} `{!MemoryEnv W} (c : ShortcutCall) : Tool W json :=
  match c with
  | call_log_thought t c ty m => memory_log_thought t c ty m
  | call_whereami => memory_whereami
  | call_handoff t d p b n u => memory_handoff t d p b n u
  | call_set_context k v c l p s => memory_set_context k v c l p s
  | call_get_context k c p s l => memory_get_context k c p s l
  | call_search q t l => memory_search q t l
  | call_network_lookup q => memory_network_lookup q
  | call_list_threads s p => memory_list_threads s p
  end.

Ltac bound_steps :=
  unfold bound, statement_sql, statement_params, thoughts_sql, entries_sql, threads_sql;
  rewrite ?placeholders_str; cbn [fmap list_fmap sum_list];
  rewrite ?placeholders_app, ?placeholders_conjunction; cbn [fmap list_fmap sum_list app];
  rewrite ?placeholders_recent; reflexivity.

Lemma log_thought_bound {W} `{!MemoryEnv W} t c ty m : issues bound (memory_log_thought t c ty m).
Proof. unfold memory_log_thought, readOne, write. issue_steps; bound_steps. Qed.
#[export] Hint Resolve log_thought_bound : tools.

(** Whatever arguments a shortcut is called with and whatever its replicator answers,
    it never issues a statement that has more or fewer placeholders than values:
    better-sqlite3 would refuse such a statement with a RangeError. *)
Theorem shortcuts_bind_their_placeholders {W} `{!MemoryEnv W} (call : ShortcutCall) (s : ToolState W) :
  exists l, tl_issued (handler call s).1 = tl_issued s ++ l /\ Forall bound l.
Proof.
  enough (H : issues bound (handler call)) by apply H.
  destruct call; cbn [handler];
    unfold memory_whereami, memory_handoff, memory_set_context, memory_get_context, memory_search,
      memory_network_lookup, memory_list_threads, read, readOne, write;
    issue_steps; try bound_steps.
  - destruct (truthy_opt category), pinned_only; bound_steps.
  - destruct (truthy_num thread_id); bound_steps.
  - destruct (truthy_opt status), (truthy_num project_id); bound_steps.
Qed.

(** ** The generic tools *)

Lemma memory_query_reads {W} `{!MemoryEnv W} sql params limit (s : ToolState W) :
  is_query sql = true ->
  tl_issued (memory_query sql params limit s).1 = tl_issued s ++ [did_read (limited_sql sql limit) (default [] params)].
Proof.
  unfold memory_query, bind, read, perform. intros ->. by destruct (mem_read _ _ _) as [w [e|rows]].
Qed.

(** [memory_query] refuses, or reads once and writes nothing; [memory_write] refuses, or
    writes once, under the table named by the statement. *)
Theorem generic_tools_gate {W} `{!MemoryEnv W} sql params limit cls (s : ToolState W) :
  let starts p := js_startsWith (normalize_sql sql) p in
  (if starts "SELECT" || starts "PRAGMA" || starts "WITH"
   then exists added, tl_issued (memory_query sql params limit s).1 =
          tl_issued s ++ [did_read (sql +:+ added) (default [] params)]
   else (memory_query sql params limit s).1 = s /\ exists m, (memory_query sql params limit s).2 = inl m) /\
  (if starts "SELECT" || starts "DROP" || starts "ALTER"
   then (memory_write sql params cls s).1 = s /\ exists m, (memory_write sql params cls s).2 = inl m
   else tl_issued (memory_write sql params cls s).1 =
          tl_issued s ++ [did_write sql (default [] params) (mkWriteOptions cls (extractTableName sql))]).
Proof.
  cbv zeta. unfold memory_write. set (n := normalize_sql sql). split.
  - change (js_startsWith n "SELECT" || js_startsWith n "PRAGMA" || js_startsWith n "WITH") with (is_query sql).
    destruct (is_query sql) eqn:Hq.
    + exists (if js_includes n "LIMIT" then "" else " LIMIT " +:+ (js_toString (default 100 limit) +:+ "")).
      rewrite memory_query_reads by done. repeat f_equal. unfold limited_sql. fold n.
      destruct (js_includes n "LIMIT"); [by rewrite str_app_nil_r|done].
    + unfold memory_query. rewrite Hq. split; [done|]. by eexists.
  - destruct (js_startsWith n "SELECT"); cbn [orb]; [split; [done|by eexists]|].
    destruct (js_startsWith n "DROP" || js_startsWith n "ALTER"); [split; [done|by eexists]|].
    unfold bind, write, perform. by destruct (mem_write _ _ _ _).
Qed.

(** A statement that changes data behind WITH is read, and so run on the local copy
    only; a PRAGMA gets a LIMIT clause that it has no syntax for. *)
Example with_is_read (W : Type) `{!MemoryEnv W} (s : ToolState W) :
  tl_issued (memory_query "WITH x AS (SELECT 1) DELETE FROM timeline_thoughts RETURNING id" None None s).1 =
    tl_issued s ++ [did_read "WITH x AS (SELECT 1) DELETE FROM timeline_thoughts RETURNING id LIMIT 100" []] /\
  tl_issued (memory_query "PRAGMA table_info(timeline_thoughts)" None None s).1 =
    tl_issued s ++ [did_read "PRAGMA table_info(timeline_thoughts) LIMIT 100" []].
Proof. by rewrite !memory_query_reads. Qed.

(** ** Logging a thought *)

(** The statements of a logged thought: the parent is the position that was read before
    the insertion, the new position is the thought that was read after it; when
    something fails, nothing further is issued. *)
Theorem log_thought_order {W} `{!MemoryEnv W} t content ty metadata (s : ToolState W) :
  exists parent id text l,
    tl_issued (memory_log_thought t content ty metadata s).1 = tl_issued s ++ l /\
    l `prefix_of` [did_readOne latest_sql [JNum t];
                   did_write insert_thought_sql [JNum t; parent; JStr content; JStr (default "progress" ty); JStr text]
                     (table_options "timeline_thoughts");
                   did_readOne last_thought_sql [JNum t];
                   did_write position_sql [JNum t; id; id] (table_options "timeline_thread_position");
                   did_write touch_sql [JNum t] (table_options "timeline_threads")].
Proof.
  unfold memory_log_thought, bind, readOne, write, perform.
  set (text := if truthy_member metadata then _ else _).
  destruct (mem_readOne _ _ _) as [w [e|latest]].
  { exists JNull, JNull, text. eexists. split; [reflexivity|]. by eexists (_ :: _ :: _ :: [_]). }
  cbn [tl_issued tl_world]. destruct (mem_write _ _ _ w) as [w1 r]. cbn [tl_issued tl_world].
  destruct (wr_success r); cbn [negb].
  2:{ exists (row_id latest), JNull, text. eexists. split; [by rewrite <- app_assoc|]. by eexists (_ :: _ :: [_]). }
  cbn [tl_issued tl_world]. destruct (mem_readOne _ _ w1) as [w2 [e|[row|]]]; cbn [tl_issued tl_world].
  - exists (row_id latest), JNull, text. eexists. split; [by rewrite <- !app_assoc|]. by eexists (_ :: [_]).
  - destruct (mem_write _ _ _ w2) as [w3 r3]. cbn [tl_issued tl_world].
    destruct (mem_write _ _ _ w3) as [w4 r4]. cbn [tl_issued tl_world ret].
    exists (row_id latest), (row_id (Some row)), text. eexists. split; [by rewrite <- !app_assoc|done].
  - exists (row_id latest), JNull, text. eexists. split; [by rewrite <- !app_assoc|]. by eexists (_ :: [_]).
Qed.

(** ** Executions

    A small engine that knows the statements of a logged thought. *)
Module Timeline.

Record Tables := mkTables { thoughts : list Z; position : option json; touched : Z }.

Definition run_text (now : Z) (sql : string) (params : list json) (t : Tables) : Tables * (string + Z) :=
  if String.eqb sql insert_thought_sql
  then (mkTables (thoughts t ++ [js_length (thoughts t) + 1]) (position t) (touched t), inr 1)
  else if String.eqb sql position_sql
  then (mkTables (thoughts t) (params !! 1%nat) now, inr 1)
  else (t, inr 1).

#[export] Instance engine : SqlEngine Tables := {|
  sql_run := run_text;
  sql_classification _ _ := None;
  sql_threads _ := [];
  sql_pinned _ := [];
  sql_recent _ := []
|}.

Definition get_text (sql : string) (t : Tables) : option Row :=
  if String.eqb sql latest_sql then (fun i => [("id", i)]) <$> position t
  else if String.eqb sql last_thought_sql then (fun i => [("id", JNum i)]) <$> last (thoughts t)
  else None.

#[export] Instance reader : SqlReader Tables := {|
  sql_all _ _ _ t := (t, inr []);
  sql_get _ sql _ t := (t, inr (get_text sql t));
  sql_classification_rows _ := [];
  sql_table_names _ := [];
  sql_count _ _ := 0;
  sql_classification_counts _ := []
|}.

(** A node whose copy has one thought, which is the position. *)
Definition node (role : RaftState) : MemoryReplicator Tables :=
  mkMemoryReplicator (mkSharedMemoryDB "/root/.cortex/shared-memory.db" true (mkTables [1] (Some (JNum 1)) 0) None)
    ((new_RaftNode (mkRaftConfig "a" None false None) file_missing true) <| state := role |> <| currentTerm := 1 |>)
    (rp_membership replica_a) "a" true false ∅.

Definition accepting_rpc (_ : nat) (_ : string) (_ : MemoryWriteRequest) : string + MemoryWriteResponse :=
  inr (mkMemoryWriteResponse true "").

(** The tools of a node on which [meanwhile] has happened when a write returns. *)
Definition tools_of (meanwhile : MemoryReplicator Tables -> MemoryReplicator Tables) : MemoryEnv (MemoryReplicator Tables) :=
  replicator_env text_digest no_iso true quiet_env accepting_rpc (fun _ => 0) None meanwhile.

(** The last entry of the log has been committed and applied. *)
Definition applied (m : MemoryReplicator Tables) : MemoryReplicator Tables :=
  match last (log (rp_raft m)) with
  | Some e => onEntryCommitted text_digest no_iso true 0 e m
  | None => m
  end.

Definition written_position (meanwhile : MemoryReplicator Tables -> MemoryReplicator Tables) (role : RaftState) :
    option Statement :=
  tl_issued (memory_log_thought (MemoryEnv0 := tools_of meanwhile) 7 "done" None None (mkToolState (node role) [])).1 !! 3%nat.

(** At a leader that reaches a majority the new thought becomes the position.  A
    follower's write returns before the entry has been applied to its own copy, so it
    reads the previous thought and makes that the position again. *)
Example position_falls_behind :
  written_position applied leader =
    Some (did_write position_sql [JNum 7; JNum 2; JNum 2] (table_options "timeline_thread_position")) /\
  written_position id follower =
    Some (did_write position_sql [JNum 7; JNum 1; JNum 1] (table_options "timeline_thread_position")).
Proof. by vm_compute. Qed.

(** The shortcuts write the time of the statement, which every replica evaluates when it
    applies the entry: replicas that apply it at different times differ. *)
Example replicas_differ_in_time :
  (sql_run 1 position_sql [JNum 7; JNum 2; JNum 2] (mkTables [1; 2] None 0)).1 <>
  (sql_run 2 position_sql [JNum 7; JNum 2; JNum 2] (mkTables [1; 2] None 0)).1 /\
  Forall (fun sql => js_includes sql "datetime('now')" = true) [position_sql; touch_sql; status_sql; upsert_context_sql].
Proof. split; [by vm_compute|]. by repeat constructor. Qed.
End Timeline.
