(* ===== verification/TaskTypes.v ===== *)
(** * The task engine's data (src/src/plugins/task-engine/types.ts, migrations.ts)

    The tables are lists of rows in insertion (rowid) order.  A JSON column holds
    the value it encodes, and a timestamp column holds milliseconds since the
    epoch: the ISO text of [toISOString] has a fixed width, so that comparing the
    texts, as the SQL does, compares the times.  [Db] is the effect of the code
    that runs SQL statements one after the other: a statement that fails throws,
    and what was written before stays written. *)

From S2P Require Import Prelude JsMap JsString.

Inductive TaskEngineState :=
  | queued | pending | assigned | running | completed | failed | cancelled | skipped | dead_letter.
#[export] Instance TaskEngineState_eq_dec : EqDecision TaskEngineState.
Proof. solve_decision. Defined.

Inductive TaskType := tt_shell | tt_container | tt_subagent | tt_k8s_job | tt_claude_relay.
#[export] Instance TaskType_eq_dec : EqDecision TaskType.
Proof. solve_decision. Defined.

Inductive WorkflowState := wf_pending | wf_running | wf_completed | wf_failed | wf_cancelled.
#[export] Instance WorkflowState_eq_dec : EqDecision WorkflowState.
Proof. solve_decision. Defined.

Inductive TaskEventType :=
  | te_submitted | te_assigned | te_started | te_completed | te_failed | te_retried
  | te_cancelled | te_dead_lettered | te_skipped.
#[export] Instance TaskEventType_eq_dec : EqDecision TaskEventType.
Proof. solve_decision. Defined.

Record TaskConstraints := mkTaskConstraints {
  c_requiresGpu : bool;
  c_avoidGaming : bool;
  c_minMemoryMb : option Z;
  c_minDiskGb : option Z;
  c_nodeLabels : list string;
  c_targetNode : option string
}.

(** The multiplier is a number; all that the code makes itself are integers. *)
Record RetryPolicy := mkRetryPolicy {
  maxRetries : Z;
  backoffMs : Z;
  backoffMultiplier : Z;
  retryable : bool
}.

Definition DEFAULT_RETRY_POLICY : RetryPolicy := mkRetryPolicy 3 1000 2 true.

(** The result of an execution; the fields may be missing in the JSON. *)
Record TaskResult := mkTaskResult {
  res_exitCode : option Z;
  res_stdout : option string;
  res_stderr : option string
}.

Record TaskRecord := mkTaskRecord {
  t_id : string;
  t_workflow_id : option string;
  t_task_key : option string;
  t_type : TaskType;
  t_state : TaskEngineState;
  t_priority : Z;
  t_spec : string;
  t_constraints : option TaskConstraints;
  t_retry_policy : option RetryPolicy;
  t_assigned_node : option string;
  t_attempt : Z;
  t_result : option TaskResult;
  t_error : option string;
  t_scheduled_after : option Z;
  t_created_at : Z;
  t_assigned_at : option Z;
  t_started_at : option Z;
  t_completed_at : option Z;
  t_dead_lettered_at : option Z
}.
#[export] Instance TaskRecord_eta : EtaRecord TaskRecord := fun t =>
  mkTaskRecord (t_id t) (t_workflow_id t) (t_task_key t) (t_type t) (t_state t) (t_priority t)
    (t_spec t) (t_constraints t) (t_retry_policy t) (t_assigned_node t) (t_attempt t) (t_result t)
    (t_error t) (t_scheduled_after t) (t_created_at t) (t_assigned_at t) (t_started_at t)
    (t_completed_at t) (t_dead_lettered_at t).

Record WorkflowTaskDef := mkWorkflowTaskDef {
  wt_type : TaskType;
  wt_spec : string;
  wt_constraints : option TaskConstraints;
  wt_retryPolicy : option RetryPolicy;
  wt_priority : option Z;
  wt_dependsOn : option (list string);
  wt_condition : option string
}.

(** [tasks] lists the entries in the order of [Object.entries]. *)
Record WorkflowDefinition := mkWorkflowDefinition {
  wd_name : string;
  wd_tasks : list (string * WorkflowTaskDef)
}.

Record WorkflowRecord := mkWorkflowRecord {
  w_id : string;
  w_name : string;
  w_state : WorkflowState;
  w_definition : WorkflowDefinition;
  w_context : string;
  w_created_at : Z;
  w_completed_at : option Z
}.
#[export] Instance WorkflowRecord_eta : EtaRecord WorkflowRecord := fun w =>
  mkWorkflowRecord (w_id w) (w_name w) (w_state w) (w_definition w) (w_context w)
    (w_created_at w) (w_completed_at w).

Record TaskDependencyRecord := mkDependency {
  d_workflow_id : string;
  d_task_key : string;
  d_depends_on_key : string;
  d_condition : option string
}.

(** The text of an event: fixed, or the one of a retry with its two numbers. *)
Inductive EventDetail :=
  | detail (text : string)
  | retry_detail (attempt scheduledAfter : Z).

Record TaskEventRecord := mkTaskEvent {
  e_task_id : string;
  e_event_type : TaskEventType;
  e_node_id : string;
  e_detail : option EventDetail;
  e_created_at : Z
}.

(** The database of the plugin. *)
Record TaskDb := mkTaskDb {
  te_tasks : list TaskRecord;
  te_workflows : list WorkflowRecord;
  te_task_dependencies : list TaskDependencyRecord;
  te_task_events : list TaskEventRecord
}.
#[export] Instance TaskDb_eta : EtaRecord TaskDb := fun db =>
  mkTaskDb (te_tasks db) (te_workflows db) (te_task_dependencies db) (te_task_events db).

Definition empty_db : TaskDb := mkTaskDb [] [] [] [].

(** ** Statements *)

Inductive JsError := UniqueConstraintFailed | RangeError.

Definition Db (A : Type) : Type := TaskDb -> TaskDb * (JsError + A).

Definition db_ret {A} (a : A) : Db A := fun db => (db, inr a).
Definition db_throw {A} (e : JsError) : Db A := fun db => (db, inl e).
Definition db_bind {A B} (x : Db A) (f : A -> Db B) : Db B := fun db =>
  match x db with
  | (db, inr a) => f a db
  | (db, inl e) => (db, inl e)
  end.
Notation "x <-! c ;; k" := (db_bind c (fun x => k))
  (at level 60, c at next level, right associativity) : cortex_scope.
Notation "c ;;! k" := (db_bind c (fun _ => k)) (at level 60, right associativity) : cortex_scope.

(** A [for] loop of statements. *)
Fixpoint db_iter {A} (f : A -> Db unit) (l : list A) : Db unit :=
  match l with
  | [] => db_ret tt
  | x :: l => f x ;;! db_iter f l
  end.

(** SELECT ... WHERE id = ?. *)
Definition find_task (id : string) (db : TaskDb) : option TaskRecord :=
  List.find (fun t => String.eqb (t_id t) id) (te_tasks db).

(** INSERT INTO te_tasks; [id] is the primary key. *)
Definition insert_task (t : TaskRecord) : Db unit := fun db =>
  if bool_decide (t_id t ∈ (t_id <$> te_tasks db)) then (db, inl UniqueConstraintFailed)
  else (db <| te_tasks ::= fun ts => ts ++ [t] |>, inr tt).

(** UPDATE te_tasks SET ... WHERE id = ?. *)
Definition update_task (id : string) (f : TaskRecord -> TaskRecord) : Db unit := fun db =>
  (db <| te_tasks ::= fmap (fun t => if String.eqb (t_id t) id then f t else t) |>, inr tt).

Definition insert_workflow (w : WorkflowRecord) : Db unit := fun db =>
  if bool_decide (w_id w ∈ (w_id <$> te_workflows db)) then (db, inl UniqueConstraintFailed)
  else (db <| te_workflows ::= fun ws => ws ++ [w] |>, inr tt).

Definition update_workflow (id : string) (f : WorkflowRecord -> WorkflowRecord) : Db unit := fun db =>
  (db <| te_workflows ::= fmap (fun w => if String.eqb (w_id w) id then f w else w) |>, inr tt).

(** The primary key of a dependency. *)
Definition dep_key (d : TaskDependencyRecord) : string * string * string :=
  (d_workflow_id d, d_task_key d, d_depends_on_key d).

Definition insert_dependency (d : TaskDependencyRecord) : Db unit := fun db =>
  if bool_decide (dep_key d ∈ (dep_key <$> te_task_dependencies db))
  then (db, inl UniqueConstraintFailed)
  else (db <| te_task_dependencies ::= fun ds => ds ++ [d] |>, inr tt).

Definition insertEvent (taskId : string) (ty : TaskEventType) (node : string)
    (det : option EventDetail) (now : Z) : Db unit := fun db =>
  (db <| te_task_events ::= fun es => es ++ [mkTaskEvent taskId ty node det now] |>, inr tt).

Definition get_task (id : string) : Db (option TaskRecord) := fun db => (db, inr (find_task id db)).

(** ** Facts on the statements *)

(** The constraints of the schema. *)
Record db_wf (db : TaskDb) : Prop := {
  dw_tasks : NoDup (t_id <$> te_tasks db);
  dw_workflows : NoDup (w_id <$> te_workflows db);
  dw_deps : NoDup (dep_key <$> te_task_dependencies db)
}.

(** A statement sequence keeps an invariant, whether it returns or throws. *)
Definition keeps {A} (P : TaskDb -> Prop) (c : Db A) : Prop := forall db, P db -> P (c db).1.

Lemma keeps_ret {A} P (a : A) : keeps P (db_ret a).
Proof. by intros db. Qed.
Lemma keeps_throw {A} P e : keeps P (db_throw (A := A) e).
Proof. by intros db. Qed.
Lemma keeps_bind {A B} P (x : Db A) (f : A -> Db B) :
  keeps P x -> (forall a, keeps P (f a)) -> keeps P (db_bind x f).
Proof.
  intros Hx Hf db Hdb. unfold db_bind. specialize (Hx db Hdb).
  destruct (x db) as [db' [e|a]]; [done|]. by apply Hf.
Qed.
Lemma keeps_iter {A} P (f : A -> Db unit) l : (forall x, keeps P (f x)) -> keeps P (db_iter f l).
Proof.
  intros Hf. induction l; simpl; [apply keeps_ret|]. apply keeps_bind; auto.
Qed.
Lemma keeps_get P id : keeps P (get_task id).
Proof. by intros db. Qed.

Lemma NoDup_snoc {A} (l : list A) x : NoDup l -> x ∉ l -> NoDup (l ++ [x]).
Proof.
  intros. apply NoDup_app. split_and!; [done| |apply NoDup_singleton].
  by intros y Hy ->%list_elem_of_singleton.
Qed.

Lemma keeps_insert_task t : keeps db_wf (insert_task t).
Proof.
  intros db [H1 H2 H3]. unfold insert_task. case_bool_decide; [done|]. split; cbn; try done.
  rewrite fmap_app. by apply NoDup_snoc.
Qed.
Lemma keeps_insert_workflow w : keeps db_wf (insert_workflow w).
Proof.
  intros db [H1 H2 H3]. unfold insert_workflow. case_bool_decide; [done|]. split; cbn; try done.
  rewrite fmap_app. by apply NoDup_snoc.
Qed.
Lemma keeps_insert_dependency d : keeps db_wf (insert_dependency d).
Proof.
  intros db [H1 H2 H3]. unfold insert_dependency. case_bool_decide; [done|]. split; cbn; try done.
  rewrite fmap_app. by apply NoDup_snoc.
Qed.
Lemma keeps_insertEvent a b c d e : keeps db_wf (insertEvent a b c d e).
Proof. intros db [H1 H2 H3]. by split. Qed.

Lemma fmap_update_ids {A} (key : A -> string) (f : A -> A) id (l : list A) :
  (forall x, key (f x) = key x) ->
  key <$> ((fun x => if String.eqb (key x) id then f x else x) <$> l) = key <$> l.
Proof.
  intros Hf. rewrite <- list_fmap_compose. apply list_fmap_ext. intros i x _. simpl.
  by destruct (String.eqb (key x) id).
Qed.

Lemma keeps_update_task id f : (forall t, t_id (f t) = t_id t) -> keeps db_wf (update_task id f).
Proof.
  intros Hf db [H1 H2 H3]. split; cbn; try done. by rewrite fmap_update_ids.
Qed.
Lemma keeps_update_workflow id f : (forall w, w_id (f w) = w_id w) -> keeps db_wf (update_workflow id f).
Proof.
  intros Hf db [H1 H2 H3]. split; cbn; try done. by rewrite fmap_update_ids.
Qed.

#[export] Hint Resolve keeps_ret keeps_throw keeps_get keeps_insert_task keeps_insert_workflow
  keeps_insert_dependency keeps_insertEvent : cortex.

(** Lookup by primary key. *)
Lemma find_task_Some id db t :
  db_wf db -> find_task id db = Some t <-> t ∈ te_tasks db /\ t_id t = id.
Proof.
  intros [Hnd _ _]. unfold find_task. split.
  - intros [Hin Hid]%List.find_some. prop_of_bool. by rewrite list_elem_of_In.
  - intros [Hin Hid]. induction (te_tasks db) as [|x ts IH]; [by apply elem_of_nil in Hin|].
    apply NoDup_cons in Hnd as [Hx Hnd]. simpl.
    apply elem_of_cons in Hin as [->|Hin]; [by rewrite (proj2 (String.eqb_eq _ _))|].
    destruct (String.eqb_spec (t_id x) id) as [E|]; [|by apply IH].
    destruct Hx. rewrite E, <- Hid. by apply list_elem_of_fmap_2.
Qed.

Lemma find_task_id id db t : find_task id db = Some t -> t_id t = id.
Proof. intros [_ H]%List.find_some. by prop_of_bool. Qed.

Lemma find_task_update id f db id' :
  (forall t, t_id (f t) = t_id t) ->
  find_task id' (update_task id f db).1 =
    if String.eqb id' id then f <$> find_task id' db else find_task id' db.
Proof.
  intros Hf. unfold find_task, update_task. cbn.
  induction (te_tasks db) as [|t ts IH]; cbn; [by destruct (String.eqb id' id)|].
  destruct (String.eqb_spec (t_id t) id) as [Ht|Ht]; destruct (String.eqb_spec id' id) as [Hi|Hi].
  all: rewrite ?Hf; destruct (String.eqb_spec (t_id t) id'); try congruence; done.
Qed.

Lemma find_task_insert t db id :
  (insert_task t db).2 = inr tt ->
  find_task id (insert_task t db).1 =
    if String.eqb (t_id t) id then Some t else find_task id db.
Proof.
  unfold insert_task. case_bool_decide as E; [done|]. intros _. unfold find_task. cbn.
  induction (te_tasks db) as [|x ts IH]; cbn; [done|].
  rewrite fmap_cons, not_elem_of_cons in E. destruct E as [E1 E2].
  destruct (String.eqb_spec (t_id x) id) as [Hx|Hx].
  - subst. by rewrite (proj2 (String.eqb_neq _ _)) by done.
  - by apply IH.
Qed.
