(* ===== verification/Workflow.v ===== *)
(** * The workflow engine (src/src/plugins/task-engine/workflow-engine.ts, condition-eval.ts)

    [evaluateWorkflow] decides, for the pending tasks of a workflow, which are
    ready and which are skipped.  Conditions are JavaScript expressions that the
    code runs in a [node:vm] sandbox; the sandbox is the parameter
    [runInContext] ([None]: the script throws or times out). *)

From S2P Require Import Prelude JsMap JsString TaskTypes.

Record ParentResult := mkParentResult {
  par_exitCode : Z;
  par_stdout : string;
  par_stderr : string;
  par_state : TaskEngineState
}.

(** A [{ taskKey, taskId }] pair. *)
Record TaskRef := mkTaskRef { rt_taskKey : string; rt_taskId : string }.

#[export] Instance TaskRef_eq_dec : EqDecision TaskRef.
Proof. solve_decision. Defined.

Record WorkflowEvalResult := mkEvalResult {
  readyTasks : list TaskRef;
  skippedTasks : list TaskRef;
  workflowComplete : bool;
  workflowState : WorkflowState
}.

(** The states in which a task is over. *)
Definition terminal (s : TaskEngineState) : bool :=
  match s with completed | skipped | failed | cancelled | dead_letter => true | _ => false end.

Section workflow.
Context (runInContext : string -> jsmap ParentResult -> string -> option bool).

Definition evaluateCondition (condition : option string) (parents : jsmap ParentResult)
    (context : string) : bool :=
  match condition with
  | None => true
  | Some c =>
      if blank c then true
      else match runInContext c parents context with Some b => b | None => false end
  end.

(** An edge of the dependency graph. *)
Abbreviation Edge := (string * option string)%type.

(** [depMap]: task key to the edges it depends on. *)
Definition addDep (m : jsmap (list Edge)) (d : TaskDependencyRecord) : jsmap (list Edge) :=
  let m := if jm_has m (d_task_key d) then m else jm_set m (d_task_key d) [] in
  jm_alter (fun es => es ++ [(d_depends_on_key d, d_condition d)]) (d_task_key d) m.

Definition depMap (deps : list TaskDependencyRecord) : jsmap (list Edge) := foldl addDep [] deps.

(** [taskByKey]. *)
Definition addTask (m : jsmap TaskRecord) (t : TaskRecord) : jsmap TaskRecord :=
  match t_task_key t with
  | Some k => if truthy_str k then jm_set m k t else m
  | None => m
  end.

Definition taskByKey (tasks : list TaskRecord) : jsmap TaskRecord := foldl addTask [] tasks.

Definition parentResult (t : TaskRecord) : ParentResult :=
  match t_result t with
  | Some r => mkParentResult (default (-1) (res_exitCode r)) (default "" (res_stdout r))
                (default "" (res_stderr r)) (t_state t)
  | None => mkParentResult (-1) "" "" (t_state t)
  end.

Definition addParent (m : jsmap ParentResult) (t : TaskRecord) : jsmap ParentResult :=
  match t_task_key t with
  | Some k => if truthy_str k then jm_set m k (parentResult t) else m
  | None => m
  end.

Definition parentResults (tasks : list TaskRecord) : jsmap ParentResult := foldl addParent [] tasks.

Definition dep_state (byKey : jsmap TaskRecord) (k : string) : option TaskEngineState :=
  t_state <$> jm_get byKey k.

(** All dependencies are over. *)
Definition allDepsTerminal (byKey : jsmap TaskRecord) (edges : list Edge) : bool :=
  forallb (fun e => match dep_state byKey e.1 with Some s => terminal s | None => false end) edges.

Definition dep_completed (byKey : jsmap TaskRecord) (k : string) : bool :=
  bool_decide (dep_state byKey k = Some completed).

Definition shouldRun (byKey : jsmap TaskRecord) (parents : jsmap ParentResult) (context : string)
    (edges : list Edge) : bool :=
  if 0 <? js_length edges then
    if existsb (fun e => truthy_opt e.2) edges then
      forallb (fun e => if negb (truthy_opt e.2) then dep_completed byKey e.1
                        else evaluateCondition e.2 parents context) edges
    else forallb (fun e => dep_completed byKey e.1) edges
  else true.

Inductive Verdict := v_ready | v_skip | v_wait.

(** One round of the loop over the tasks. *)
Definition judgeTask (deps : jsmap (list Edge)) (byKey : jsmap TaskRecord)
    (parents : jsmap ParentResult) (context : string) (t : TaskRecord) : Verdict * TaskRef :=
  match t_task_key t with
  | Some k =>
      if bool_decide (t_state t <> pending) || negb (truthy_str k) then (v_wait, mkTaskRef k (t_id t))
      else
        let edges := default [] (jm_get deps k) in
        if negb (allDepsTerminal byKey edges) then (v_wait, mkTaskRef k (t_id t))
        else if shouldRun byKey parents context edges then (v_ready, mkTaskRef k (t_id t))
        else (v_skip, mkTaskRef k (t_id t))
  | None => (v_wait, mkTaskRef "" (t_id t))
  end.

Definition workflow_tasks (wid : string) (db : TaskDb) : list TaskRecord :=
  filter (fun t => t_workflow_id t = Some wid) (te_tasks db).

Definition workflow_deps (wid : string) (db : TaskDb) : list TaskDependencyRecord :=
  filter (fun d => d_workflow_id d = wid) (te_task_dependencies db).

(** [workflow?.context ? JSON.parse(workflow.context) : {}]. *)
Definition workflow_context (wid : string) (db : TaskDb) : string :=
  match List.find (fun w => String.eqb (w_id w) wid) (te_workflows db) with
  | Some w => if truthy_str (w_context w) then w_context w else "{}"
  | None => "{}"
  end.

Definition evaluateWorkflow (wid : string) (db : TaskDb) : WorkflowEvalResult :=
  let tasks := workflow_tasks wid db in
  let deps := depMap (workflow_deps wid db) in
  let byKey := taskByKey tasks in
  let parents := parentResults tasks in
  let context := workflow_context wid db in
  let verdicts := judgeTask deps byKey parents context <$> tasks in
  let ready := omap (fun v => match v with (v_ready, r) => Some r | _ => None end) verdicts in
  let skip := omap (fun v => match v with (v_skip, r) => Some r | _ => None end) verdicts in
  let allTerminal := forallb (fun t => terminal (t_state t)) tasks in
  let anyFailed := existsb (fun t => bool_decide (t_state t = failed \/ t_state t = dead_letter)) tasks in
  mkEvalResult ready skip allTerminal
    (if allTerminal then (if anyFailed then wf_failed else wf_completed) else wf_running).

(** ** The maps are the relations they stand for *)

Lemma depMap_edges deps k :
  default [] (jm_get (depMap deps) k) =
    (fun d => (d_depends_on_key d, d_condition d)) <$> filter (fun d => d_task_key d = k) deps.
Proof.
  unfold depMap.
  assert (Hgen : forall m, default [] (jm_get (foldl addDep m deps) k) =
    default [] (jm_get m k) ++
    ((fun d => (d_depends_on_key d, d_condition d)) <$> filter (fun d => d_task_key d = k) deps)).
  { induction deps as [|d deps IH]; intros m; [by rewrite app_nil_r|].
    cbn [foldl]. rewrite IH. clear IH. unfold addDep.
    rewrite jm_get_alter. destruct (jm_has m (d_task_key d)) eqn:E.
    - case_decide as Hk.
      + rewrite filter_cons_True by done. rewrite Hk in E.
        apply jm_has_true in E as [es ->]. simpl. by rewrite <- app_assoc.
      + by rewrite filter_cons_False by done.
    - rewrite jm_get_set. case_decide as Hk.
      + rewrite filter_cons_True by done. rewrite Hk in E. apply jm_has_false in E as ->. done.
      + by rewrite filter_cons_False by done. }
  by rewrite Hgen.
Qed.

(** The keys of the tasks of a workflow are distinct and not empty. *)
Definition keys_ok (tasks : list TaskRecord) : Prop :=
  NoDup (t_task_key <$> tasks) /\
  Forall (fun t => exists k, t_task_key t = Some k /\ k <> "") tasks.

Lemma taskByKey_get tasks k t :
  keys_ok tasks -> jm_get (taskByKey tasks) k = Some t <-> t ∈ tasks /\ t_task_key t = Some k.
Proof.
  unfold taskByKey. intros [Hnd Hk].
  assert (Hgen : forall m, (forall t', t' ∈ tasks -> forall k', t_task_key t' = Some k' -> jm_get m k' = None) ->
    jm_get (foldl addTask m tasks) k = Some t <->
    (jm_get m k = Some t \/ t ∈ tasks /\ t_task_key t = Some k)).
  { induction tasks as [|x tasks IH]; intros m Hm; cbn.
    - rewrite elem_of_nil. naive_solver.
    - apply NoDup_cons in Hnd as [Hx Hnd]. apply Forall_cons in Hk as [(kx & Ekx & Hne) Hk].
      unfold addTask at 2. rewrite Ekx. unfold truthy_str.
      rewrite (proj2 (String.eqb_neq kx "")) by done. cbn [negb].
      rewrite (IH Hnd Hk).
      2: { intros t' Ht' k' Hk'. rewrite jm_get_set. case_decide as E.
           - subst. destruct Hx. rewrite Ekx, <- Hk'. by apply list_elem_of_fmap_2.
           - eapply Hm; [by right|done]. }
      rewrite jm_get_set, elem_of_cons. case_decide as E.
      + subst. split; [|].
        * intros [[= <-]|[Hin Hkt]]; [by right; split; [left|]|]. right. auto.
        * intros [Hm'|[[->|Hin] Hkt]]; [|by left|by right].
          rewrite (Hm x ltac:(by left) k Ekx) in Hm'. done.
      + split; [naive_solver|]. intros [?|[[->|Hin] Hkt]]; [by left|congruence|by right]. }
  rewrite Hgen by done. split; [intros [?|?]; done|by right].
Qed.

(** ** The decision, stated on the tables *)

Definition edges_of (wid : string) (db : TaskDb) (k : string) : list Edge :=
  (fun d => (d_depends_on_key d, d_condition d)) <$>
    filter (fun d => d_task_key d = k) (workflow_deps wid db).

(** A task of the workflow with this key is in a state that satisfies [P]. *)
Definition task_in (tasks : list TaskRecord) (k : string) (P : TaskEngineState -> Prop) : Prop :=
  exists t, t ∈ tasks /\ t_task_key t = Some k /\ P (t_state t).

Definition deps_over (tasks : list TaskRecord) (edges : list Edge) : Prop :=
  forall e, e ∈ edges -> task_in tasks e.1 (fun s => terminal s = true).

(** Every edge lets the task run: its condition holds, or, without one, the
    task it depends on completed. *)
Definition edges_allow (tasks : list TaskRecord) (context : string) (edges : list Edge) : Prop :=
  forall e, e ∈ edges ->
    if truthy_opt e.2 then evaluateCondition e.2 (parentResults tasks) context = true
    else task_in tasks e.1 (fun s => s = completed).

Lemma dep_state_in tasks k s :
  keys_ok tasks -> dep_state (taskByKey tasks) k = Some s <-> task_in tasks k (fun x => x = s).
Proof.
  intros Hk. unfold dep_state, task_in. rewrite fmap_Some. split.
  - intros (t & Ht & ->). apply taskByKey_get in Ht; [|done]. naive_solver.
  - intros (t & Hin & Hkey & <-). exists t. split; [|done]. by apply taskByKey_get.
Qed.

Lemma allDepsTerminal_spec tasks edges :
  keys_ok tasks -> allDepsTerminal (taskByKey tasks) edges = true <-> deps_over tasks edges.
Proof.
  intros Hk. unfold allDepsTerminal, deps_over. rewrite forallb_forall.
  split; intros H e He.
  - specialize (H e ltac:(by apply list_elem_of_In)).
    destruct (dep_state _ _) as [s|] eqn:E; [|done]. apply dep_state_in in E; [|done].
    destruct E as (t & ? & ? & <-). by exists t.
  - destruct (H e ltac:(by apply list_elem_of_In)) as (t & Hin & Hkey & Ht).
    assert (dep_state (taskByKey tasks) e.1 = Some (t_state t)) as ->; [|done].
    apply dep_state_in; [done|]. by exists t.
Qed.

Lemma dep_completed_spec tasks k :
  keys_ok tasks -> dep_completed (taskByKey tasks) k = true <-> task_in tasks k (fun s => s = completed).
Proof. intros Hk. unfold dep_completed. by rewrite bool_decide_eq_true, dep_state_in. Qed.

Lemma shouldRun_spec tasks context edges :
  keys_ok tasks ->
  shouldRun (taskByKey tasks) (parentResults tasks) context edges = true <->
  edges_allow tasks context edges.
Proof.
  intros Hk. unfold edges_allow.
  assert (Hall : forallb (fun e : Edge => if negb (truthy_opt e.2) then dep_completed (taskByKey tasks) e.1
      else evaluateCondition e.2 (parentResults tasks) context) edges = true <->
    forall e, e ∈ edges -> if truthy_opt e.2
      then evaluateCondition e.2 (parentResults tasks) context = true
      else task_in tasks e.1 (fun s => s = completed)).
  { rewrite forallb_forall. split; intros H e He.
    all: specialize (H e ltac:(by apply list_elem_of_In)).
    all: destruct (truthy_opt e.2); [exact H|]; cbn in *.
    - by apply dep_completed_spec.
    - by apply (dep_completed_spec tasks e.1 Hk). }
  unfold shouldRun. destruct (0 <? js_length edges) eqn:E; prop_of_bool.
  - destruct (existsb (fun e : Edge => truthy_opt e.2) edges) eqn:Ex; [exact Hall|].
    rewrite <- Hall, !forallb_forall. split; intros H e He; specialize (H e He).
    all: assert (truthy_opt e.2 = false) as Et by
      (destruct (truthy_opt e.2) eqn:Et; [|done]; rewrite <- Ex; symmetry;
       apply existsb_exists; eauto).
    all: rewrite Et in *; done.
  - destruct edges; [|unfold js_length in E; simpl in E; lia]. split; [|done].
    intros _ e He. by apply elem_of_nil in He.
Qed.

(** The pending tasks of the workflow whose dependencies are over. *)
Definition decided (wid : string) (db : TaskDb) (allow : Prop -> Prop) (r : TaskRef) : Prop :=
  exists t k, t ∈ workflow_tasks wid db /\ t_state t = pending /\ t_task_key t = Some k /\
    r = mkTaskRef k (t_id t) /\ deps_over (workflow_tasks wid db) (edges_of wid db k) /\
    allow (edges_allow (workflow_tasks wid db) (workflow_context wid db) (edges_of wid db k)).

Lemma judgeTask_spec wid db t v r :
  keys_ok (workflow_tasks wid db) -> t ∈ workflow_tasks wid db ->
  let tasks := workflow_tasks wid db in
  judgeTask (depMap (workflow_deps wid db)) (taskByKey tasks) (parentResults tasks)
    (workflow_context wid db) t = (v, r) ->
  (v = v_ready -> decided wid db id r) /\ (v = v_skip -> decided wid db not r) /\
  (forall k, t_task_key t = Some k -> r = mkTaskRef k (t_id t) /\
     (t_state t = pending -> deps_over tasks (edges_of wid db k) ->
      v = v_ready /\ edges_allow tasks (workflow_context wid db) (edges_of wid db k) \/
      v = v_skip /\ ~ edges_allow tasks (workflow_context wid db) (edges_of wid db k))).
Proof.
  intros Hk Ht. cbn zeta.
  destruct (proj1 (Forall_forall _ _) (proj2 Hk) t Ht) as (k & Ekey & Hk0).
  unfold judgeTask. rewrite Ekey, depMap_edges. fold (edges_of wid db k).
  unfold truthy_str. rewrite (proj2 (String.eqb_neq k "")) by done.
  pose proof (allDepsTerminal_spec _ (edges_of wid db k) Hk) as Hd.
  pose proof (shouldRun_spec _ (workflow_context wid db) (edges_of wid db k) Hk) as Hr.
  destruct (bool_decide (t_state t <> pending)) eqn:Ep; prop_of_bool; cbn [orb negb].
  { intros [= <- <-]. split_and!; [done|done|]. intros k' [= <-]. split; [done|]. done. }
  apply dec_stable in Ep.
  destruct (allDepsTerminal _ _); cbn [negb].
  2: { intros [= <- <-]. split_and!; [done|done|]. intros k' [= <-]. split; [done|].
       intros _ Hx. apply Hd in Hx. done. }
  destruct (shouldRun _ _ _ _); intros [= <- <-]; (split_and!; [..|intros k' [= <-]; split; [done|]]).
  all: try done.
  - intros _. exists t, k. split_and!; try done; [by apply Hd|by apply Hr].
  - left. split; [done|by apply Hr].
  - intros _. exists t, k. split_and!; try done; [by apply Hd|]. intros Hx%Hr. done.
  - right. split; [done|]. intros Hx%Hr. done.
Qed.

Lemma elem_of_verdicts {A B} (f : A -> B) (g : B -> option TaskRef) (l : list A) r :
  r ∈ omap g (f <$> l) <-> exists x, x ∈ l /\ g (f x) = Some r.
Proof.
  rewrite list_elem_of_omap. split.
  - intros (y & Hy & Hg). apply list_elem_of_fmap in Hy as (x & -> & Hx). eauto.
  - intros (x & Hx & Hg). exists (f x). split; [by apply list_elem_of_fmap_2|done].
Qed.

Lemma keys_ok_inj tasks t1 t2 k :
  keys_ok tasks -> t1 ∈ tasks -> t2 ∈ tasks -> t_task_key t1 = Some k -> t_task_key t2 = Some k ->
  t1 = t2.
Proof.
  intros Hk H1 H2 K1 K2.
  assert (E1 : jm_get (taskByKey tasks) k = Some t1) by (by apply taskByKey_get).
  assert (E2 : jm_get (taskByKey tasks) k = Some t2) by (by apply taskByKey_get). congruence.
Qed.

(** The two lists that [evaluateWorkflow] computes. *)
Lemma readyTasks_spec wid db r :
  keys_ok (workflow_tasks wid db) ->
  r ∈ readyTasks (evaluateWorkflow wid db) <-> decided wid db id r.
Proof.
  intros Hk. unfold evaluateWorkflow. cbn [readyTasks]. rewrite elem_of_verdicts. split.
  - intros (t & Ht & E). destruct (judgeTask _ _ _ _ t) as [v r'] eqn:Ev.
    destruct v; simplify_eq. by apply (judgeTask_spec wid db t v_ready r Hk Ht Ev).
  - intros (t & k & Ht & Hp & Hkey & -> & Hd & Ha). exists t. split; [done|].
    destruct (judgeTask _ _ _ _ t) as [v r'] eqn:Ev.
    destruct (judgeTask_spec wid db t v r' Hk Ht Ev) as (_ & _ & H).
    destruct (H k Hkey) as [-> Hv]. by destruct (Hv Hp Hd) as [[-> _]|[-> Hn]].
Qed.

Lemma skippedTasks_spec wid db r :
  keys_ok (workflow_tasks wid db) ->
  r ∈ skippedTasks (evaluateWorkflow wid db) <-> decided wid db not r.
Proof.
  intros Hk. unfold evaluateWorkflow. cbn [skippedTasks]. rewrite elem_of_verdicts. split.
  - intros (t & Ht & E). destruct (judgeTask _ _ _ _ t) as [v r'] eqn:Ev.
    destruct v; simplify_eq. by apply (judgeTask_spec wid db t v_skip r Hk Ht Ev).
  - intros (t & k & Ht & Hp & Hkey & -> & Hd & Ha). exists t. split; [done|].
    destruct (judgeTask _ _ _ _ t) as [v r'] eqn:Ev.
    destruct (judgeTask_spec wid db t v r' Hk Ht Ev) as (_ & _ & H).
    destruct (H k Hkey) as [-> Hv]. by destruct (Hv Hp Hd) as [[-> Hn]|[-> _]].
Qed.

(** C7: the decision on a workflow.  With distinct task keys, a task is
    reported ready exactly if it is pending, everything it depends on is over,
    and every edge allows it (its condition holds or, without a condition, the
    task it depends on completed); it is reported skipped exactly if it is
    pending, everything it depends on is over and some edge does not allow it.
    The workflow is complete exactly if every task is over, and then it failed
    exactly if some task failed or was dead-lettered. *)
Theorem evaluateWorkflow_spec wid db :
  keys_ok (workflow_tasks wid db) ->
  let res := evaluateWorkflow wid db in
  (forall r, r ∈ readyTasks res <-> decided wid db id r) /\
  (forall r, r ∈ skippedTasks res <-> decided wid db not r) /\
  (workflowComplete res = true <-> Forall (fun t => terminal (t_state t) = true) (workflow_tasks wid db)) /\
  (workflowState res = wf_failed <-> workflowComplete res = true /\
     Exists (fun t => t_state t = failed \/ t_state t = dead_letter) (workflow_tasks wid db)) /\
  (workflowState res = wf_running <-> workflowComplete res = false).
Proof.
  intros Hk. cbn zeta. split_and!.
  - intros r. by apply readyTasks_spec.
  - intros r. by apply skippedTasks_spec.
  - cbn. rewrite forallb_forall, Forall_forall. by setoid_rewrite list_elem_of_In.
  - cbn. destruct (forallb _ _); [|split; [done|by intros [? _]]].
    assert (Hx : existsb (fun t => bool_decide (t_state t = failed \/ t_state t = dead_letter))
                   (workflow_tasks wid db) = true <->
                 Exists (fun t => t_state t = failed \/ t_state t = dead_letter) (workflow_tasks wid db)).
    { rewrite existsb_exists, Exists_exists. setoid_rewrite list_elem_of_In.
      by setoid_rewrite bool_decide_eq_true. }
    rewrite <- Hx. case_match; naive_solver.
  - cbn. destruct (forallb _ _); [|done]. case_match; naive_solver.
Qed.

(** ** Progress *)

(** The dependency relation has no cycle, and only names tasks of the
    workflow. *)
Definition acyclic (wid : string) (db : TaskDb) (rank : string -> nat) : Prop :=
  forall d, d ∈ workflow_deps wid db ->
    (rank (d_depends_on_key d) < rank (d_task_key d))%nat /\
    exists t, t ∈ workflow_tasks wid db /\ t_task_key t = Some (d_depends_on_key d).

(** A list element with the least measure among those that satisfy [P]. *)
Lemma list_minimal {A} (P : A -> Prop) `{!forall x, Decision (P x)} (f : A -> nat) (l : list A) :
  Exists P l -> exists x, x ∈ l /\ P x /\ forall y, y ∈ l -> P y -> (f x <= f y)%nat.
Proof.
  induction l as [|x l IH]; intros Hx; [by apply Exists_nil in Hx|].
  destruct (decide (Exists P l)) as [Hl|Hl].
  - destruct (IH Hl) as (y & Hy & HP & Hmin). destruct (decide (P x /\ (f x < f y)%nat)) as [[Hpx Hlt]|Hn].
    + exists x. split; [by left|]. split; [done|].
      intros z [->|Hz]%elem_of_cons HPz; [lia|]. specialize (Hmin z Hz HPz). lia.
    + exists y. split; [by right|]. split; [done|].
      intros z [->|Hz]%elem_of_cons HPz; [|by apply Hmin].
      destruct (decide (f x < f y)%nat); [naive_solver|lia].
  - apply Exists_cons in Hx as [Hx|Hx]; [|done]. exists x. split; [by left|]. split; [done|].
    intros z [->|Hz]%elem_of_cons HPz; [lia|]. destruct Hl. apply Exists_exists. eauto.
Qed.

(** C8: no deadlock.  In a workflow whose dependency graph is acyclic and
    closed, when nothing is queued or in progress and a task is still pending,
    the evaluation decides at least one more task. *)
Theorem workflow_progress wid db rank :
  keys_ok (workflow_tasks wid db) -> acyclic wid db rank ->
  Forall (fun t => t_state t = pending \/ terminal (t_state t) = true) (workflow_tasks wid db) ->
  Exists (fun t => t_state t = pending) (workflow_tasks wid db) ->
  readyTasks (evaluateWorkflow wid db) <> [] \/ skippedTasks (evaluateWorkflow wid db) <> [].
Proof.
  intros Hk Hac Hst Hex.
  destruct (list_minimal (fun t => t_state t = pending) (fun t => rank (default "" (t_task_key t)))
              _ Hex) as (t & Ht & Hp & Hmin).
  destruct (proj1 (Forall_forall _ _) (proj2 Hk) t Ht) as (k & Hkey & _).
  assert (Hover : deps_over (workflow_tasks wid db) (edges_of wid db k)).
  { intros e He. apply list_elem_of_fmap in He as (d & -> & [Hdk Hd]%list_elem_of_filter). simpl.
    destruct (Hac d Hd) as (Hlt & t' & Ht' & Hkey'). exists t'. split; [done|]. split; [done|].
    destruct (proj1 (Forall_forall _ _) Hst t' Ht') as [Hp'|]; [|done].
    specialize (Hmin t' Ht' Hp'). rewrite Hkey, Hkey' in Hmin. simpl in Hmin. subst k. lia. }
  destruct (decide (mkTaskRef k (t_id t) ∈ readyTasks (evaluateWorkflow wid db))) as [Hin|Hnin].
  - left. intros E. rewrite E in Hin. by apply elem_of_nil in Hin.
  - right. intros E.
    assert (Hs : mkTaskRef k (t_id t) ∈ skippedTasks (evaluateWorkflow wid db)).
    { apply skippedTasks_spec; [done|]. exists t, k. split_and!; try done.
      intros Ha. apply Hnin, readyTasks_spec; [done|]. by exists t, k. }
    rewrite E in Hs. by apply elem_of_nil in Hs.
Qed.
End workflow.
