(* ===== verification/TaskStateMachine.v ===== *)
(** * The task state machine (src/src/plugins/task-engine/state-machine.ts)

    Every handler of a committed entry is a statement sequence ([Db], TaskTypes.v)
    that returns the action the leader should take.  [now] is the clock of the
    replica that applies the entry; [uuids] are the values that [randomUUID]
    returns, in order. *)

From S2P Require Import Prelude JsMap JsString TaskTypes Workflow.

Inductive StateMachineAction :=
  | act_retry (taskId : string) (attempt scheduledAfter : Z)
  | act_dead_letter (taskId reason : string)
  | act_cancel_running (taskId nodeId : string)
  | act_schedule (taskId : option string) (scheduledAfter : option Z)
  | act_workflow_advance (taskId workflowId : string).

Record TaskSubmitPayload := mkTaskSubmit {
  ts_taskId : string;
  ts_type : TaskType;
  ts_spec : string;
  ts_priority : option Z;
  ts_constraints : option TaskConstraints;
  ts_retryPolicy : option RetryPolicy;
  ts_workflowId : option string;
  ts_taskKey : option string;
  ts_submitterNode : string
}.

(** A committed entry with its payload. *)
Inductive Entry :=
  | en_task_submit (p : TaskSubmitPayload)
  | en_task_assign (taskId nodeId : string)
  | en_task_started (taskId nodeId : string)
  | en_task_complete (taskId : string) (result : TaskResult)
  | en_task_failed (taskId error nodeId : string)
  | en_task_cancel (taskId : string)
  | en_task_retry (taskId : string) (attempt scheduledAfter : Z)
  | en_task_dead_letter (taskId reason : string)
  | en_workflow_submit (workflowId : string) (definition : WorkflowDefinition)
  | en_workflow_advance (workflowId completedTaskKey : string)
  | en_other.

(** The largest time value of a [Date]; [toISOString] throws beyond it. *)
Definition MAX_DATE : Z := 8640000000000000.

Section machine.
Context (runInContext : string -> jsmap ParentResult -> string -> option bool).
Context (nodeId : string) (now : Z) (uuids : list string).

Definition new_task (id : string) (wf key : option string) (ty : TaskType) (st : TaskEngineState)
    (prio : Z) (spec : string) (cs : option TaskConstraints) (rp : option RetryPolicy) : TaskRecord :=
  mkTaskRecord id wf key ty st prio spec cs rp None 0 None None None now None None None None.

Definition handleTaskSubmit (p : TaskSubmitPayload) : Db (option StateMachineAction) :=
  let st := if truthy_opt (ts_workflowId p) then pending else queued in
  insert_task (new_task (ts_taskId p) (ts_workflowId p) (ts_taskKey p) (ts_type p) st
                 (default 0 (ts_priority p)) (ts_spec p) (ts_constraints p) (ts_retryPolicy p)) ;;!
  insertEvent (ts_taskId p) te_submitted (ts_submitterNode p) None now ;;!
  db_ret None.

Definition handleTaskAssign (taskId node : string) : Db (option StateMachineAction) :=
  update_task taskId (fun t => t <| t_state := assigned |> <| t_assigned_node := Some node |>
                                 <| t_assigned_at := Some now |>) ;;!
  insertEvent taskId te_assigned node None now ;;!
  db_ret None.

Definition handleTaskStarted (taskId node : string) : Db (option StateMachineAction) :=
  update_task taskId (fun t => t <| t_state := running |> <| t_started_at := Some now |>) ;;!
  insertEvent taskId te_started node None now ;;!
  db_ret None.

Definition handleTaskComplete (taskId : string) (result : TaskResult) : Db (option StateMachineAction) :=
  task <-! get_task taskId ;;
  match task with
  | None => db_ret None
  | Some task =>
      update_task taskId (fun t => t <| t_state := completed |> <| t_result := Some result |>
                                     <| t_completed_at := Some now |>) ;;!
      insertEvent taskId te_completed (default nodeId (t_assigned_node task)) None now ;;!
      db_ret (match t_workflow_id task with
              | Some w => if truthy_str w then Some (act_workflow_advance taskId w) else None
              | None => None
              end)
  end.

(** The policy that applies to a task. *)
Definition retry_policy_of (t : TaskRecord) : RetryPolicy :=
  default DEFAULT_RETRY_POLICY (t_retry_policy t).

Definition handleTaskFailed (taskId error node : string) : Db (option StateMachineAction) :=
  task <-! get_task taskId ;;
  match task with
  | None => db_ret None
  | Some task =>
      update_task taskId (fun t => t <| t_error := Some error |>) ;;!
      insertEvent taskId te_failed node (Some (detail error)) now ;;!
      let policy := retry_policy_of task in
      if retryable policy && (t_attempt task <? maxRetries policy) then
        let nextAttempt := t_attempt task + 1 in
        let backoff := backoffMs policy * backoffMultiplier policy ^ t_attempt task in
        if MAX_DATE <? Z.abs (now + backoff) then db_throw RangeError
        else db_ret (Some (act_retry taskId nextAttempt (now + backoff)))
      else
        db_ret (Some (act_dead_letter taskId
          ("Max retries exhausted (" +:+ js_toString (maxRetries policy) +:+ ") or not retryable")))
  end.

Definition handleTaskCancel (taskId : string) : Db (option StateMachineAction) :=
  task <-! get_task taskId ;;
  match task with
  | None => db_ret None
  | Some task =>
      let wasRunning := bool_decide (t_state task = running \/ t_state task = assigned) in
      update_task taskId (fun t => t <| t_state := cancelled |> <| t_completed_at := Some now |>) ;;!
      insertEvent taskId te_cancelled nodeId None now ;;!
      db_ret (match t_assigned_node task with
              | Some n => if wasRunning && truthy_str n then Some (act_cancel_running taskId n) else None
              | None => None
              end)
  end.

(** The row after its UPDATE by a retry. *)
Definition retried (attempt scheduledAfter : Z) (t : TaskRecord) : TaskRecord :=
  t <| t_state := queued |> <| t_attempt := attempt |>
    <| t_assigned_node := None |> <| t_assigned_at := None |> <| t_started_at := None |>
    <| t_completed_at := None |> <| t_error := None |> <| t_result := None |>
    <| t_scheduled_after := Some scheduledAfter |>.

Definition handleTaskRetry (taskId : string) (attempt scheduledAfter : Z) :
    Db (option StateMachineAction) :=
  update_task taskId (retried attempt scheduledAfter) ;;!
  insertEvent taskId te_retried nodeId (Some (retry_detail attempt scheduledAfter)) now ;;!
  db_ret (Some (act_schedule (Some taskId) (Some scheduledAfter))).

Definition handleTaskDeadLetter (taskId reason : string) : Db (option StateMachineAction) :=
  update_task taskId (fun t => t <| t_state := dead_letter |> <| t_dead_lettered_at := Some now |>) ;;!
  insertEvent taskId te_dead_lettered nodeId (Some (detail reason)) now ;;!
  db_ret None.

(** ** Workflows *)

(** [taskIdMap]: one fresh id per task key. *)
Definition taskIdMap (keys : list string) : jsmap string :=
  foldl (fun m ku => jm_set m ku.1 ku.2) [] (zip keys uuids).

Definition insertDependencies (wid key : string) (def : WorkflowTaskDef) : Db unit :=
  db_iter (fun dep => insert_dependency (mkDependency wid key dep (wt_condition def)))
    (default [] (wt_dependsOn def)).

Definition submitWorkflowTask (wid : string) (ids : jsmap string) (kd : string * WorkflowTaskDef) :
    Db unit :=
  let '(key, def) := kd in
  let id := default "" (jm_get ids key) in
  let isRoot := js_length (default [] (wt_dependsOn def)) =? 0 in
  let st := if isRoot then queued else pending in
  insert_task (new_task id (Some wid) (Some key) (wt_type def) st (default 0 (wt_priority def))
                 (wt_spec def) (wt_constraints def) (wt_retryPolicy def)) ;;!
  insertEvent id te_submitted nodeId None now ;;!
  insertDependencies wid key def.

Definition handleWorkflowSubmit (wid : string) (def : WorkflowDefinition) :
    Db (option StateMachineAction) :=
  insert_workflow (mkWorkflowRecord wid (wd_name def) wf_running def "{}" now None) ;;!
  let ids := taskIdMap (wd_tasks def).*1 in
  db_iter (submitWorkflowTask wid ids) (wd_tasks def) ;;!
  db_ret (Some (act_schedule None None)).

Definition queueReady (why : string) (r : TaskRef) : Db unit :=
  update_task (rt_taskId r) (fun t => t <| t_state := queued |>) ;;!
  insertEvent (rt_taskId r) te_submitted nodeId (Some (detail why)) now.

Definition skipTask (why : string) (r : TaskRef) : Db unit :=
  update_task (rt_taskId r) (fun t => t <| t_state := skipped |> <| t_completed_at := Some now |>) ;;!
  insertEvent (rt_taskId r) te_skipped nodeId (Some (detail why)) now.

Definition closeWorkflow (wid : string) (res : WorkflowEvalResult) : Db unit :=
  if workflowComplete res
  then update_workflow wid (fun w => w <| w_state := workflowState res |> <| w_completed_at := Some now |>)
  else db_ret tt.

Definition eval_workflow (wid : string) : Db WorkflowEvalResult := fun db =>
  (db, inr (evaluateWorkflow runInContext wid db)).

Definition nonempty {A} (l : list A) : bool := 0 <? js_length l.

Definition handleWorkflowAdvance (wid : string) : Db (option StateMachineAction) :=
  result <-! eval_workflow wid ;;
  db_iter (queueReady "workflow_advance: ready") (readyTasks result) ;;!
  db_iter (skipTask "condition not met") (skippedTasks result) ;;!
  closeWorkflow wid result ;;!
  if nonempty (skippedTasks result) && negb (workflowComplete result) then
    cascade <-! eval_workflow wid ;;
    db_iter (queueReady "workflow_advance: cascade ready") (readyTasks cascade) ;;!
    db_iter (skipTask "cascade: condition not met") (skippedTasks cascade) ;;!
    closeWorkflow wid cascade ;;!
    db_ret (if nonempty (readyTasks cascade) || nonempty (readyTasks result)
            then Some (act_schedule None None) else None)
  else db_ret (if nonempty (readyTasks result) then Some (act_schedule None None) else None).

Definition applyEntry (e : Entry) : Db (option StateMachineAction) :=
  match e with
  | en_task_submit p => handleTaskSubmit p
  | en_task_assign id n => handleTaskAssign id n
  | en_task_started id n => handleTaskStarted id n
  | en_task_complete id r => handleTaskComplete id r
  | en_task_failed id err n => handleTaskFailed id err n
  | en_task_cancel id => handleTaskCancel id
  | en_task_retry id a s => handleTaskRetry id a s
  | en_task_dead_letter id r => handleTaskDeadLetter id r
  | en_workflow_submit w d => handleWorkflowSubmit w d
  | en_workflow_advance w _ => handleWorkflowAdvance w
  | en_other => db_ret None
  end.
End machine.

(** ** Queries *)

(** ORDER BY priority DESC, created_at ASC; rows that tie keep the rowid order. *)
Definition by_priority (t1 t2 : TaskRecord) : bool :=
  (t_priority t2 <? t_priority t1)
  || ((t_priority t1 =? t_priority t2) && (t_created_at t1 <=? t_created_at t2)).

Definition getTask (id : string) (db : TaskDb) : option TaskRecord := find_task id db.

(** LIMIT n OFFSET k; SQLite reads a negative limit as no limit and a negative
    offset as 0. *)
Definition limit_offset {A} (limit offset : Z) (l : list A) : list A :=
  let l := drop (Z.to_nat offset) l in
  if limit <? 0 then l else take (Z.to_nat limit) l.

Definition listTasks (st : option TaskEngineState) (limit offset : option Z) (db : TaskDb) :
    list TaskRecord :=
  limit_offset (default 100 limit) (default 0 offset)
    (js_sort by_priority
       (match st with
        | Some s => filter (fun t => t_state t = s) (te_tasks db)
        | None => te_tasks db
        end)).

(** A queued task whose delay is over.  (The statement compares ISO texts, which order
    as the times do from the year 0 to the year 9999.) *)
Definition due (now : Z) (t : TaskRecord) : bool :=
  bool_decide (t_state t = queued) &&
  match t_scheduled_after t with None => true | Some s => s <=? now end.

Definition getQueuedTasks (now : Z) (db : TaskDb) : list TaskRecord :=
  js_sort by_priority (filter (fun t => due now t = true) (te_tasks db)).

Definition on_node (node : string) (t : TaskRecord) : bool :=
  bool_decide (t_assigned_node t = Some node /\ (t_state t = assigned \/ t_state t = running)).

Definition getTasksOnNode (node : string) (db : TaskDb) : list TaskRecord :=
  js_sort by_priority (filter (fun t => on_node node t = true) (te_tasks db)).

(** ORDER BY dead_lettered_at DESC; NULL is the smallest value. *)
Definition dead_lettered_later (t1 t2 : TaskRecord) : bool :=
  match t_dead_lettered_at t1, t_dead_lettered_at t2 with
  | _, None => true
  | None, Some _ => false
  | Some a, Some b => b <=? a
  end.

Definition getDeadLetterTasks (db : TaskDb) : list TaskRecord :=
  js_sort dead_lettered_later (filter (fun t => t_state t = dead_letter) (te_tasks db)).

Definition getTaskEvents (id : string) (db : TaskDb) : list TaskEventRecord :=
  js_sort (fun a b => e_created_at a <=? e_created_at b)
    (filter (fun e => e_task_id e = id) (te_task_events db)).

Definition getWorkflow (wid : string) (db : TaskDb) : option WorkflowRecord :=
  List.find (fun w => String.eqb (w_id w) wid) (te_workflows db).

Definition getWorkflowTasks (wid : string) (db : TaskDb) : list TaskRecord :=
  js_sort (fun a b => t_created_at a <=? t_created_at b) (workflow_tasks wid db).

Definition listWorkflows (st : option WorkflowState) (limit : option Z) (db : TaskDb) :
    list WorkflowRecord :=
  limit_offset (default 100 limit) 0
    (js_sort (fun a b => w_created_at b <=? w_created_at a)
       (match st with
        | Some s => filter (fun w => w_state w = s) (te_workflows db)
        | None => te_workflows db
        end)).
