(* ===== verification/TaskProps.v ===== *)
(** * What the task state machine guarantees

    The schema's keys are unique after every entry, also after one that throws;
    an entry about one task changes that task only and records one event; an
    entry that is applied twice is ignored the second time; advancing a workflow
    touches pending tasks only. *)

From S2P Require Import Prelude JsMap JsString TaskTypes Workflow TaskStateMachine.

(** Statement sequences keep an invariant by their parts. *)
Ltac keeps_step :=
  lazymatch goal with
  | |- keeps _ (db_bind _ _) => apply keeps_bind; [|intros ?]
  | |- keeps _ (db_iter _ _) => apply keeps_iter; intros ?
  | |- keeps _ (match ?x with _ => _ end) => destruct x
  | |- keeps _ (update_task _ _) => apply keeps_update_task; done
  | |- keeps _ (update_workflow _ _) => apply keeps_update_workflow; done
  | |- keeps _ _ => auto with cortex
  end.

Section props.
Context (runInContext : string -> jsmap ParentResult -> string -> option bool).
Context (nodeId : string) (now : Z) (uuids : list string).

Abbreviation apply_entry := (applyEntry runInContext nodeId now uuids).

Lemma keeps_eval wid : keeps db_wf (eval_workflow runInContext wid).
Proof. by intros db. Qed.

Lemma keeps_submitWorkflowTask wid ids kd : keeps db_wf (submitWorkflowTask nodeId now wid ids kd).
Proof. destruct kd as [k d]. unfold submitWorkflowTask, insertDependencies. repeat keeps_step. Qed.

Lemma keeps_closeWorkflow wid res : keeps db_wf (closeWorkflow now wid res).
Proof. unfold closeWorkflow. repeat keeps_step. Qed.

Lemma keeps_queueReady why r : keeps db_wf (queueReady nodeId now why r).
Proof. unfold queueReady. repeat keeps_step. Qed.

Lemma keeps_skipTask why r : keeps db_wf (skipTask nodeId now why r).
Proof. unfold skipTask. repeat keeps_step. Qed.

#[local] Hint Resolve keeps_eval keeps_submitWorkflowTask keeps_closeWorkflow keeps_queueReady
  keeps_skipTask : cortex.

(** The schema holds.  Task ids, workflow ids and dependency keys stay
    unique whatever entry is applied, whether the handler returns or throws
    half-way. *)
Theorem applyEntry_keys e db : db_wf db -> db_wf (apply_entry e db).1.
Proof.
  revert db. change (keeps db_wf (apply_entry e)). destruct e; cbn [applyEntry].
  - unfold handleTaskSubmit. repeat keeps_step.
  - unfold handleTaskAssign. repeat keeps_step.
  - unfold handleTaskStarted. repeat keeps_step.
  - unfold handleTaskComplete. repeat keeps_step.
  - unfold handleTaskFailed. repeat keeps_step.
  - unfold handleTaskCancel. repeat keeps_step.
  - unfold handleTaskRetry. repeat keeps_step.
  - unfold handleTaskDeadLetter. repeat keeps_step.
  - unfold handleWorkflowSubmit. repeat keeps_step.
  - unfold handleWorkflowAdvance. repeat keeps_step.
  - apply keeps_ret.
Qed.

(** ** Entries about one task *)

Definition entry_task (e : Entry) : option string :=
  match e with
  | en_task_assign id _ | en_task_started id _ | en_task_complete id _ | en_task_failed id _ _
  | en_task_cancel id | en_task_retry id _ _ | en_task_dead_letter id _ => Some id
  | _ => None
  end.

(** The life cycle: the state an entry leaves its task in.  A failure keeps the
    state until the leader's retry or dead-letter entry arrives. *)
Definition next_state (e : Entry) (s : TaskEngineState) : TaskEngineState :=
  match e with
  | en_task_assign _ _ => assigned
  | en_task_started _ _ => running
  | en_task_complete _ _ => completed
  | en_task_cancel _ => cancelled
  | en_task_retry _ _ _ => queued
  | en_task_dead_letter _ _ => dead_letter
  | _ => s
  end.

Definition next_attempt (e : Entry) (a : Z) : Z :=
  match e with en_task_retry _ a' _ => a' | _ => a end.

(** One update of task [id] followed by one event about it. *)
Lemma update_event_frame {A} id f ty node det (k : Db A) db t :
  (forall t, t_id (f t) = t_id t) -> find_task id db = Some t ->
  (forall db, (k db).1 = db) ->
  let db' := ((update_task id f ;;! insertEvent id ty node det now ;;! k) db).1 in
  find_task id db' = Some (f t) /\
  (forall id', id' <> id -> find_task id' db' = find_task id' db) /\
  te_workflows db' = te_workflows db /\ te_task_dependencies db' = te_task_dependencies db /\
  te_task_events db' = te_task_events db ++ [mkTaskEvent id ty node det now].
Proof.
  intros Hf Ht Hk. cbn zeta. unfold db_bind. cbn. rewrite Hk. split_and!; try done.
  - pose proof (find_task_update id f db id Hf) as H. rewrite String.eqb_refl, Ht in H. exact H.
  - intros id' Hne. pose proof (find_task_update id f db id' Hf) as H.
    rewrite (proj2 (String.eqb_neq id' id)) in H by done. exact H.
Qed.

Lemma get_task_bind {A} id (k : option TaskRecord -> Db A) db :
  db_bind (get_task id) k db = k (find_task id db) db.
Proof. done. Qed.

(** The frame of a handler that makes one update and records one event. *)
Ltac frame_by handler :=
  unfold handler;
  match goal with
  | Ht : find_task _ _ = Some ?t
    |- context [(update_task ?i ?f ;;! insertEvent ?i ?ty ?nd ?dt now ;;! ?k) ?d] =>
      let Hk := fresh in
      assert (forall db, (k db).1 = db) as Hk by (intros; repeat case_match; done);
      let F1 := fresh in let F2 := fresh in let F3 := fresh in
      let F4 := fresh in let F5 := fresh in
      destruct (update_event_frame i f ty nd dt k d t ltac:(done) Ht Hk)
        as (F1 & F2 & F3 & F4 & F5);
      split_and!; [eexists; split; [exact F1|done]|exact F2|exact F3|exact F4
                  |eexists; split; [exact F5|done]]
  end.

(** C9: the life cycle of a task.  An entry about a known task changes the
    state of that task as [next_state] says and its attempt count only on a
    retry, leaves every other task, the workflows and the dependencies alone,
    and appends exactly one event, about that task, to the history. *)
Theorem task_entry_frame e id db t :
  entry_task e = Some id -> find_task id db = Some t ->
  let db' := (apply_entry e db).1 in
  (exists t', find_task id db' = Some t' /\ t_state t' = next_state e (t_state t) /\
     t_attempt t' = next_attempt e (t_attempt t)) /\
  (forall id', id' <> id -> find_task id' db' = find_task id' db) /\
  te_workflows db' = te_workflows db /\ te_task_dependencies db' = te_task_dependencies db /\
  (exists ev, te_task_events db' = te_task_events db ++ [ev] /\ e_task_id ev = id).
Proof.
  intros He Ht. destruct e; try discriminate He; injection He as <-;
    cbn [applyEntry next_state next_attempt]; cbn zeta.
  1: frame_by handleTaskAssign.
  1: frame_by handleTaskStarted.
  4: frame_by handleTaskRetry.
  4: frame_by handleTaskDeadLetter.
  - unfold handleTaskComplete. rewrite get_task_bind, Ht. frame_by handleTaskComplete.
  - unfold handleTaskFailed. rewrite get_task_bind, Ht. frame_by handleTaskFailed.
  - unfold handleTaskCancel. rewrite get_task_bind, Ht. frame_by handleTaskCancel.
Qed.

(** A submission that is delivered again.  Applying a task_submit for an
    id that is already in the table fails with the uniqueness error and leaves
    the database as it is. *)
Theorem submit_idempotent p db t :
  find_task (ts_taskId p) db = Some t ->
  apply_entry (en_task_submit p) db = (db, inl UniqueConstraintFailed).
Proof.
  intros Ht. cbn. unfold handleTaskSubmit, db_bind. unfold insert_task at 1.
  rewrite bool_decide_eq_true_2; [done|]. apply List.find_some in Ht as [Hin Hid]. prop_of_bool.
  cbn. rewrite <- Hid. apply list_elem_of_fmap_2. by apply list_elem_of_In.
Qed.

(** ** Advancing a workflow *)

(** What an advance may do to a task. *)
Definition advanced (t t' : TaskRecord) : Prop :=
  t' = t \/ (t_state t = pending /\ (t_state t' = queued \/ t_state t' = skipped)).

Definition advances (db db' : TaskDb) : Prop :=
  db_wf db' /\
  (forall id t, find_task id db = Some t ->
     exists t', find_task id db' = Some t' /\ advanced t t') /\
  (forall id, find_task id db = None -> find_task id db' = None).

(** The reference is to a task that is pending in [db]. *)
Definition ref_pending (db : TaskDb) (r : TaskRef) : Prop :=
  exists t, find_task (rt_taskId r) db = Some t /\ t_state t = pending.

Lemma judgeTask_pending deps byKey parents context t v r :
  judgeTask runInContext deps byKey parents context t = (v, r) -> v <> v_wait ->
  t_state t = pending /\ rt_taskId r = t_id t.
Proof.
  unfold judgeTask. destruct (t_task_key t) as [k|]; [|intros [= <- <-]; done].
  destruct (bool_decide (t_state t <> pending)) eqn:E; cbn; [intros [= <- <-]; done|].
  prop_of_bool. apply dec_stable in E. repeat case_match; intros [= <- <-]; done.
Qed.

Lemma evaluateWorkflow_pending wid db r :
  db_wf db ->
  r ∈ readyTasks (evaluateWorkflow runInContext wid db) \/
  r ∈ skippedTasks (evaluateWorkflow runInContext wid db) -> ref_pending db r.
Proof.
  intros Hwf H.
  assert (exists t v, t ∈ workflow_tasks wid db /\ v <> v_wait /\
    judgeTask runInContext (depMap (workflow_deps wid db)) (taskByKey (workflow_tasks wid db))
      (parentResults (workflow_tasks wid db)) (workflow_context wid db) t = (v, r))
    as (t & v & Ht & Hv & E).
  { destruct H as [H|H]; unfold evaluateWorkflow in H; cbn in H;
      apply (elem_of_verdicts _ _ _ r) in H as (t & Ht & E);
      destruct (judgeTask _ _ _ _ _ t) as [v r'] eqn:Ev; destruct v; simplify_eq;
      eexists t, _; (split; [done|split; [|exact Ev]]; done). }
  apply judgeTask_pending in E as [Hp Hid]; [|done]. exists t. split; [|done].
  apply find_task_Some; [done|]. apply list_elem_of_filter in Ht as [_ Ht]. by rewrite Hid.
Qed.

Lemma update_advances db r f :
  ref_pending db r -> (forall t, t_id (f t) = t_id t) ->
  (forall t, t_state (f t) = queued \/ t_state (f t) = skipped) ->
  keeps (advances db) (update_task (rt_taskId r) f).
Proof.
  intros (t0 & Ht0 & Hp) Hid Hst db1 (Hwf & Hadv & Hnone).
  split; [by apply keeps_update_task|]. split.
  2: { intros id Ht. rewrite find_task_update by done. rewrite (Hnone id Ht). by case_match. }
  intros id t Ht. destruct (Hadv id t Ht) as (t1 & Ht1 & Ha).
  rewrite find_task_update by done. rewrite Ht1.
  destruct (String.eqb_spec id (rt_taskId r)) as [->|Hne]; [|by exists t1].
  exists (f t1). split; [done|]. right. split; [congruence|apply Hst].
Qed.

Lemma insertEvent_advances db a b c d e : keeps (advances db) (insertEvent a b c d e).
Proof. intros db1 [Hwf Ha]. split; [by apply keeps_insertEvent|exact Ha]. Qed.

Lemma iter_advances db (f : TaskRef -> Db unit) l :
  (forall r, r ∈ l -> keeps (advances db) (f r)) -> keeps (advances db) (db_iter f l).
Proof.
  induction l as [|r l IH]; intros H; simpl; [apply keeps_ret|].
  apply keeps_bind; [apply H; by left|]. intros _. apply IH. intros r' Hr'. apply H. by right.
Qed.

Lemma queueReady_advances db why r :
  ref_pending db r -> keeps (advances db) (queueReady nodeId now why r).
Proof.
  intros Hr. apply keeps_bind; [|intros _; apply insertEvent_advances].
  apply update_advances; [done|done|]. by left.
Qed.

Lemma skipTask_advances db why r :
  ref_pending db r -> keeps (advances db) (skipTask nodeId now why r).
Proof.
  intros Hr. apply keeps_bind; [|intros _; apply insertEvent_advances].
  apply update_advances; [done|done|]. by right.
Qed.

Lemma close_advances db wid res : keeps (advances db) (closeWorkflow now wid res).
Proof.
  unfold closeWorkflow. destruct (workflowComplete res); [|apply keeps_ret].
  intros db1 [Hwf Ha]. split; [by apply keeps_update_workflow|exact Ha].
Qed.

Lemma ref_pending_back db db1 r : advances db db1 -> ref_pending db1 r -> ref_pending db r.
Proof.
  intros (_ & Ha & Hnone) (t1 & Ht1 & Hp).
  destruct (find_task (rt_taskId r) db) as [t|] eqn:Ht; [|by rewrite Hnone in Ht1].
  exists t. split; [done|]. destruct (Ha _ _ Ht) as (t' & Ht' & [->|[? _]]); [congruence|done].
Qed.

Lemma keeps_eval_bind {A} P wid (f : WorkflowEvalResult -> Db A) :
  (forall db1, P db1 -> keeps P (f (evaluateWorkflow runInContext wid db1))) ->
  keeps P (db_bind (eval_workflow runInContext wid) f).
Proof. intros H db Hdb. by apply (H db Hdb). Qed.

(** The statements that follow one evaluation. *)
Lemma settle_advances {A} db db1 why1 why2 wid wid' (k : Db A) :
  advances db db1 -> keeps (advances db) k ->
  let res := evaluateWorkflow runInContext wid db1 in
  keeps (advances db)
    (db_iter (queueReady nodeId now why1) (readyTasks res) ;;!
     db_iter (skipTask nodeId now why2) (skippedTasks res) ;;!
     closeWorkflow now wid' res ;;! k).
Proof.
  intros Hdb1 Hk. cbn zeta.
  assert (Hp : forall r, r ∈ readyTasks (evaluateWorkflow runInContext wid db1) \/
      r ∈ skippedTasks (evaluateWorkflow runInContext wid db1) -> ref_pending db r).
  { intros r Hr. eapply ref_pending_back; [done|]. eapply evaluateWorkflow_pending; [apply Hdb1|done]. }
  apply keeps_bind; [apply iter_advances; intros r Hr; apply queueReady_advances; auto|intros _].
  apply keeps_bind; [apply iter_advances; intros r Hr; apply skipTask_advances; auto|intros _].
  apply keeps_bind; [apply close_advances|done].
Qed.

(** Advancing is safe.  A workflow_advance entry adds and removes no task;
    it queues or skips tasks that are pending and leaves every other task, of
    any workflow, exactly as it was. *)
Theorem workflow_advance_frame wid key db :
  db_wf db -> advances db (apply_entry (en_workflow_advance wid key) db).1.
Proof.
  intros Hwf. cbn [applyEntry].
  assert (Hrefl : advances db db) by (split; [done|]; split; [intros id t Ht; exists t; split; [done|by left]|done]).
  assert (Hk : keeps (advances db) (handleWorkflowAdvance runInContext nodeId now wid)); [|by apply Hk].
  apply keeps_eval_bind. intros db1 H1. apply settle_advances; [done|].
  destruct (_ && _); [|apply keeps_ret].
  apply keeps_eval_bind. intros db2 H2. apply settle_advances; [done|]. apply keeps_ret.
Qed.
End props.

(** ** A concrete workflow *)

(** A sandbox in which every script throws. *)
Definition no_vm : string -> jsmap ParentResult -> string -> option bool := fun _ _ _ => None.

Definition shell_task (deps : list string) : WorkflowTaskDef :=
  mkWorkflowTaskDef tt_shell "{}" None None None (Some deps) None.

(** build, then test, then deploy. *)
Definition pipeline : WorkflowDefinition :=
  mkWorkflowDefinition "release"
    [("build", shell_task []); ("test", shell_task ["build"]); ("deploy", shell_task ["test"])].

Definition submitted : TaskDb :=
  (applyEntry no_vm "n1" 1000 ["u1"; "u2"; "u3"] (en_workflow_submit "w1" pipeline) empty_db).1.

(** The database after a list of entries, applied in order on node n1. *)
Definition after (es : list Entry) (db : TaskDb) : TaskDb :=
  foldl (fun db e => (applyEntry no_vm "n1" 2000 [] e db).1) db es.

Definition built : TaskDb :=
  after [en_task_assign "u1" "n2"; en_task_started "u1" "n2";
         en_task_complete "u1" (mkTaskResult (Some 0) (Some "") (Some ""))] submitted.

(** [db_wf] of a concrete database. *)
Lemma db_wf_by_decision db :
  bool_decide (NoDup (t_id <$> te_tasks db)) && bool_decide (NoDup (w_id <$> te_workflows db))
  && bool_decide (NoDup (dep_key <$> te_task_dependencies db)) = true -> db_wf db.
Proof. intros H. prop_of_bool. by split. Qed.

Lemma keys_ok_by_decision tasks :
  bool_decide (NoDup (t_task_key <$> tasks)) &&
  forallb (fun t => match t_task_key t with Some k => truthy_str k | None => false end) tasks = true ->
  keys_ok tasks.
Proof.
  intros [H1 H2]%andb_true_iff. prop_of_bool. split; [done|]. apply Forall_forall. intros t Ht.
  rewrite forallb_forall in H2. specialize (H2 t ltac:(by apply list_elem_of_In)).
  destruct (t_task_key t) as [k|]; [|done]. exists k. split; [done|].
  unfold truthy_str in H2. by prop_of_bool.
Qed.

Lemma acyclic_by_decision wid db rank :
  forallb (fun d => (rank (d_depends_on_key d) <? rank (d_task_key d))%nat &&
    existsb (fun t => bool_decide (t_task_key t = Some (d_depends_on_key d))) (workflow_tasks wid db))
    (workflow_deps wid db) = true -> acyclic wid db rank.
Proof.
  rewrite forallb_forall. intros H d Hd. specialize (H d ltac:(by apply list_elem_of_In)).
  apply andb_true_iff in H as [H1 H2]. split; [by apply Nat.ltb_lt|].
  apply existsb_exists in H2 as (t & Ht & E). exists t. prop_of_bool. by rewrite list_elem_of_In.
Qed.

Lemma applyEntry_keys_witness : db_wf (after [en_task_assign "u1" "n2"] submitted).
Proof. apply (applyEntry_keys no_vm "n1" 2000 []), db_wf_by_decision. vm_compute. reflexivity. Defined.

Lemma task_entry_frame_witness :
  find_task "u2" (after [en_task_assign "u1" "n2"] submitted) = find_task "u2" submitted.
Proof.
  destruct (find_task "u1" submitted) as [t|] eqn:E; [|vm_compute in E; discriminate E].
  destruct (task_entry_frame no_vm "n1" 2000 [] (en_task_assign "u1" "n2") "u1" submitted t eq_refl E)
    as (_ & H & _). apply H. discriminate.
Defined.

Lemma submit_idempotent_witness :
  let p := mkTaskSubmit "u1" tt_shell "{}" None None None None None "n1" in
  applyEntry no_vm "n1" 2000 [] (en_task_submit p) submitted = (submitted, inl UniqueConstraintFailed).
Proof.
  cbn zeta. destruct (find_task "u1" submitted) as [t|] eqn:E; [|vm_compute in E; discriminate E].
  exact (submit_idempotent no_vm "n1" 2000 [] (mkTaskSubmit "u1" tt_shell "{}" None None None None None "n1") submitted t E).
Defined.

Lemma workflow_advance_frame_witness :
  advances built (applyEntry no_vm "n1" 3000 [] (en_workflow_advance "w1" "build") built).1 /\
  t_state <$> find_task "u2" (applyEntry no_vm "n1" 3000 [] (en_workflow_advance "w1" "build") built).1
    = Some queued.
Proof.
  split; [|vm_compute; reflexivity].
  apply (workflow_advance_frame no_vm "n1" 3000 [] "w1" "build" built), db_wf_by_decision.
  vm_compute. reflexivity.
Defined.

Lemma evaluateWorkflow_spec_witness :
  mkTaskRef "test" "u2" ∈ readyTasks (evaluateWorkflow no_vm "w1" built) /\
  decided no_vm "w1" built id (mkTaskRef "test" "u2").
Proof.
  assert (Hin : mkTaskRef "test" "u2" ∈ readyTasks (evaluateWorkflow no_vm "w1" built))
    by (vm_compute; left).
  split; [exact Hin|].
  apply (evaluateWorkflow_spec no_vm "w1" built); [|exact Hin].
  apply keys_ok_by_decision. vm_compute. reflexivity.
Defined.

Definition pipeline_rank (k : string) : nat :=
  if String.eqb k "build" then 0 else if String.eqb k "test" then 1 else 2.

Lemma workflow_progress_witness :
  readyTasks (evaluateWorkflow no_vm "w1" built) <> [] \/
  skippedTasks (evaluateWorkflow no_vm "w1" built) <> [].
Proof.
  apply (workflow_progress no_vm "w1" built pipeline_rank).
  - apply keys_ok_by_decision. vm_compute. reflexivity.
  - apply acyclic_by_decision. vm_compute. reflexivity.
  - apply (bool_decide_unpack _). vm_compute. exact I.
  - apply (bool_decide_unpack _). vm_compute. exact I.
Defined.

(** ** Cascades stop after one round *)

(** When build is dead-lettered, one workflow_advance skips test and, in its
    cascade, deploy; but the completion test of the cascade was made before deploy
    was skipped, so that every task is over and the workflow still counts as
    running. *)
Theorem cascade_leaves_workflow_running :
  let db := after [en_task_dead_letter "u1" "x"; en_workflow_advance "w1" "build"] submitted in
  (t_state <$> te_tasks db) = [dead_letter; skipped; skipped] /\
  (w_state <$> te_workflows db) = [wf_running].
Proof. vm_compute. split; reflexivity. Qed.

(** ** Replicas generate their own ids *)

(** Each replica that applies a workflow_submit draws its own task ids: the same
    log entry leaves different tables. *)
Theorem workflow_submit_diverges :
  t_id <$> te_tasks (applyEntry no_vm "n1" 1000 ["u1"; "u2"; "u3"]
                       (en_workflow_submit "w1" pipeline) empty_db).1
  <> t_id <$> te_tasks (applyEntry no_vm "n2" 1000 ["v1"; "v2"; "v3"]
                          (en_workflow_submit "w1" pipeline) empty_db).1.
Proof. vm_compute. discriminate. Qed.
