(* ===== verification/TaskScheduler.v ===== *)
(** * The resource-aware scheduler (src/src/plugins/task-engine/scheduler.ts)

    Scores are rational numbers: the weighted sums of the code without the
    rounding of floating-point arithmetic. *)

From S2P Require Import Prelude JsMap JsString Raft Membership TaskTypes.
From Stdlib Require Import QArith.
#[local] Open Scope Z_scope.

Record SchedulerWeights := mkWeights {
  cpuHeadroom : Q;
  memoryHeadroom : Q;
  diskIoHeadroom : Q;
  networkHeadroom : Q;
  gpuHeadroom : Q;
  taskCountPenalty : Q
}.

Definition DEFAULT_SCHEDULER_WEIGHTS : SchedulerWeights :=
  mkWeights (3 # 10) (3 # 10) (15 # 100) (1 # 10) (15 # 100) 5.

(** The scheduler reads the active nodes from the membership manager. *)
Record ResourceAwareScheduler := mkScheduler {
  rs_weights : SchedulerWeights;
  rs_runningTaskCounts : jsmap Z
}.
#[export] Instance ResourceAwareScheduler_eta : EtaRecord ResourceAwareScheduler := fun s =>
  mkScheduler (rs_weights s) (rs_runningTaskCounts s).

Definition new_ResourceAwareScheduler (w : option SchedulerWeights) : ResourceAwareScheduler :=
  mkScheduler (default DEFAULT_SCHEDULER_WEIGHTS w) [].

Definition setRunningTaskCount (id : string) (count : Z) (s : ResourceAwareScheduler) :
    ResourceAwareScheduler :=
  s <| rs_runningTaskCounts := jm_set (rs_runningTaskCounts s) id count |>.

(** [n.resources?.gpus.some((g) => !g.inUseForGaming)]. *)
Definition has_free_gpu (n : NodeInfo) : bool :=
  match n_resources n with
  | Some r => existsb (fun g => negb (g_inUseForGaming g)) (r_gpus r)
  | None => false
  end.

Definition is_gaming (n : NodeInfo) : bool :=
  match n_resources n with Some r => r_gamingDetected r | None => false end.

Definition available_memory (n : NodeInfo) : Z :=
  match n_resources n with Some r => r_memoryAvailableBytes r | None => 0 end.

Definition available_disk (n : NodeInfo) : Z :=
  match n_resources n with Some r => r_diskAvailableBytes r | None => 0 end.

(** A number that the code tests for truth. *)
Definition truthy_num (o : option Z) : option Z :=
  match o with Some 0 | None => None | Some z => Some z end.

Definition filterNodes (constraints : option TaskConstraints) (active : list NodeInfo) :
    list NodeInfo :=
  match constraints with
  | None => active
  | Some c =>
      let nodes := active in
      let nodes := if c_requiresGpu c then keep has_free_gpu nodes else nodes in
      let nodes := if c_avoidGaming c then keep (fun n => negb (is_gaming n)) nodes else nodes in
      let nodes := match truthy_num (c_minMemoryMb c) with
                   | Some mb => keep (fun n => mb * 1000000 <=? available_memory n) nodes
                   | None => nodes end in
      let nodes := match truthy_num (c_minDiskGb c) with
                   | Some gb => keep (fun n => gb * 1000000000 <=? available_disk n) nodes
                   | None => nodes end in
      match c_nodeLabels c with
      | [] => nodes
      | labels => keep (fun n => existsb (fun l => bool_decide (l ∈ n_tags n)) labels) nodes
      end
  end.

(** [(available / total) * 100], or 0. *)
Definition percent (available total : Z) : Q :=
  if 0 <? total then (inject_Z available / inject_Z total * 100)%Q else 0%Q.

Definition scoreNode (s : ResourceAwareScheduler) (constraints : option TaskConstraints)
    (n : NodeInfo) : Q :=
  let w := rs_weights s in
  match n_resources n with
  | None => 0%Q
  | Some r =>
      let score := ((100 - r_cpuUsagePercent r) * cpuHeadroom w)%Q in
      let score := (score + percent (r_memoryAvailableBytes r) (r_memoryBytes r) * memoryHeadroom w)%Q in
      let score := (score + percent (r_diskAvailableBytes r) (r_diskBytes r) * diskIoHeadroom w)%Q in
      let score :=
        match constraints with
        | Some c =>
            if c_requiresGpu c then
              match List.find (fun g => negb (g_inUseForGaming g)) (r_gpus r) with
              | Some g => (score + (100 - g_utilizationPercent g) * gpuHeadroom w)%Q
              | None => score
              end
            else score
        | None => score
        end in
      let score := if r_gamingDetected r then (score - 40)%Q else score in
      let count := default 0 (jm_get (rs_runningTaskCounts s) (n_nodeId n)) in
      (score - inject_Z count * taskCountPenalty w)%Q
  end.

(** [scored.sort((a, b) => b.score - a.score)]. *)
Definition by_score (a b : NodeInfo * Q) : bool := Qle_bool b.2 a.2.

Definition targets (target : string) (n : NodeInfo) : bool :=
  String.eqb (n_nodeId n) target || String.eqb (n_hostname n) target.

Definition pickNode (s : ResourceAwareScheduler) (active : list NodeInfo) (t : TaskRecord) :
    option NodeInfo :=
  let constraints := t_constraints t in
  let target := match constraints with Some c => c_targetNode c | None => None end in
  match target with
  | Some tn =>
      if truthy_str tn then List.find (targets tn) active
      else
        let scored := (fun n => (n, scoreNode s constraints n)) <$> filterNodes constraints active in
        fst <$> head (js_sort by_score scored)
  | None =>
      let scored := (fun n => (n, scoreNode s constraints n)) <$> filterNodes constraints active in
      fst <$> head (js_sort by_score scored)
  end.

(** ** Placement *)

(** The node meets every constraint of the task. *)
Definition satisfies (c : TaskConstraints) (n : NodeInfo) : Prop :=
  (c_requiresGpu c = true -> has_free_gpu n = true) /\
  (c_avoidGaming c = true -> is_gaming n = false) /\
  (forall mb, c_minMemoryMb c = Some mb -> mb <> 0 -> mb * 1000000 <= available_memory n) /\
  (forall gb, c_minDiskGb c = Some gb -> gb <> 0 -> gb * 1000000000 <= available_disk n) /\
  (c_nodeLabels c <> [] -> exists l, l ∈ c_nodeLabels c /\ l ∈ n_tags n).

(** The constraint that pins a task. *)
Definition pinned (t : TaskRecord) : option string :=
  c ← t_constraints t; tn ← c_targetNode c; if truthy_str tn then Some tn else None.

Definition eligible (t : TaskRecord) (n : NodeInfo) : Prop :=
  match pinned t with
  | Some tn => n_nodeId n = tn \/ n_hostname n = tn
  | None => match t_constraints t with Some c => satisfies c n | None => True end
  end.

Lemma elem_of_keep_num o (f : Z -> NodeInfo -> bool) n nodes :
  n ∈ (match truthy_num o with Some z => keep (f z) nodes | None => nodes end) <->
  (forall z, o = Some z -> z <> 0 -> f z n = true) /\ n ∈ nodes.
Proof.
  destruct o as [[|z|z]|]; cbn; rewrite ?elem_of_keep; naive_solver.
Qed.

Lemma elem_of_filterNodes cs n active :
  n ∈ filterNodes cs active <->
  n ∈ active /\ match cs with Some c => satisfies c n | None => True end.
Proof.
  destruct cs as [c|]; cbn; [|naive_solver].
  assert (Hl : forall nodes, n ∈ (match c_nodeLabels c with [] => nodes | labels =>
      keep (fun n => existsb (fun l => bool_decide (l ∈ n_tags n)) labels) nodes end) <->
    (c_nodeLabels c <> [] -> exists l, l ∈ c_nodeLabels c /\ l ∈ n_tags n) /\ n ∈ nodes).
  { intros nodes. destruct (c_nodeLabels c) as [|l ls]; [naive_solver|].
    rewrite elem_of_keep, existsb_exists. split.
    - intros [(x & Hx & E) Hn]. split; [|done]. intros _. prop_of_bool. exists x.
      by rewrite list_elem_of_In.
    - intros [H Hn]. split; [|done]. destruct (H ltac:(done)) as (x & Hx & E). exists x.
      rewrite <- list_elem_of_In, bool_decide_eq_true. done. }
  rewrite Hl. clear Hl.
  rewrite (elem_of_keep_num (c_minDiskGb c) (fun gb n => gb * 1000000000 <=? available_disk n)).
  rewrite (elem_of_keep_num (c_minMemoryMb c) (fun mb n => mb * 1000000 <=? available_memory n)).
  rewrite !elem_of_keep_if. unfold satisfies. setoid_rewrite Z.leb_le. rewrite negb_true_iff. tauto.
Qed.

Lemma by_score_total a b : by_score a b = true \/ by_score b a = true.
Proof.
  unfold by_score. rewrite !Qle_bool_iff. destruct (Qlt_le_dec b.2 a.2); [left|right]; [|done].
  by apply Qlt_le_weak.
Qed.

Lemma by_score_trans a b c : by_score a b = true -> by_score b c = true -> by_score a c = true.
Proof. unfold by_score. rewrite !Qle_bool_iff. intros. by eapply Qle_trans. Qed.

(** The head of the scored and sorted candidates. *)
Lemma best_scored (score : NodeInfo -> Q) nodes :
  match fst <$> head (js_sort by_score ((fun n => (n, score n)) <$> nodes)) with
  | Some n => n ∈ nodes /\ forall n', n' ∈ nodes -> (score n' <= score n)%Q
  | None => nodes = []
  end.
Proof.
  destruct (head _) as [[n q]|] eqn:E; cbn.
  - apply js_sort_head in E as [Hin Hmax]; [|apply by_score_total|apply by_score_trans].
    apply list_elem_of_fmap in Hin as (n0 & [= <- ->] & Hn). split; [done|].
    intros n' Hn'. specialize (Hmax (n', score n')). unfold by_score in Hmax. cbn in Hmax.
    rewrite Qle_bool_iff in Hmax. apply Hmax. by apply (list_elem_of_fmap_2 (fun n => (n, score n))).
  - destruct nodes as [|n nodes]; [done|]. exfalso.
    pose proof (js_sort_length by_score ((fun n => (n, score n)) <$> n :: nodes)) as Hl.
    destruct (js_sort _ _); [|done]. done.
Qed.

Lemma pickNode_eligible s active t :
  match pickNode s active t with
  | Some n => n ∈ active /\ eligible t n /\
      (pinned t = None -> forall n', n' ∈ active -> eligible t n' ->
         (scoreNode s (t_constraints t) n' <= scoreNode s (t_constraints t) n)%Q)
  | None => forall n, n ∈ active -> ~ eligible t n
  end.
Proof.
  assert (Hscored : pinned t = None ->
    match fst <$> head (js_sort by_score ((fun n => (n, scoreNode s (t_constraints t) n)) <$>
            filterNodes (t_constraints t) active)) with
    | Some n => n ∈ active /\ eligible t n /\ (pinned t = None -> forall n', n' ∈ active ->
        eligible t n' -> (scoreNode s (t_constraints t) n' <= scoreNode s (t_constraints t) n)%Q)
    | None => forall n, n ∈ active -> ~ eligible t n
    end).
  { intros Hp. unfold eligible. rewrite Hp.
    pose proof (best_scored (scoreNode s (t_constraints t)) (filterNodes (t_constraints t) active)) as Hb.
    destruct (fst <$> _) as [n|].
    - destruct Hb as [Hn Hmax]. rewrite elem_of_filterNodes in Hn. destruct Hn as [Hn Hs].
      split_and!; [done|done|]. intros _ n' Hn' Hs'. apply Hmax. by rewrite elem_of_filterNodes.
    - intros n Hn Hs. assert (n ∈ filterNodes (t_constraints t) active) as Hin
        by (by rewrite elem_of_filterNodes). rewrite Hb in Hin. by apply elem_of_nil in Hin. }
  unfold pickNode, pinned in *. destruct (t_constraints t) as [c|] eqn:Ec; [|by apply Hscored].
  cbn in *. destruct (c_targetNode c) as [tn|] eqn:Et; [|by apply Hscored]. cbn in *.
  destruct (truthy_str tn) eqn:Etr; [|by apply Hscored].
  unfold eligible, pinned. rewrite Ec. cbn. rewrite Et. cbn. rewrite Etr.
  destruct (List.find (targets tn) active) as [n|] eqn:Ef.
  - apply List.find_some in Ef as [Hin Ht]. rewrite list_elem_of_In. split_and!; [done| |done].
    unfold targets in Ht. prop_of_bool. destruct Ht; prop_of_bool; auto.
  - intros n Hn Hx. apply list_elem_of_In in Hn.
    pose proof (List.find_none _ _ Ef n Hn) as Hf. unfold targets in Hf. prop_of_bool. naive_solver.
Qed.

(** Placement.  The scheduler returns a node exactly if some active node is
    eligible: the pinned node (by id or host name) when the task names one, and
    otherwise a node that meets every constraint; it returns an active, eligible
    node, and when the task is not pinned no eligible node has a higher score. *)
Theorem pickNode_spec s active t :
  match pickNode s active t with
  | Some n => n ∈ active /\ eligible t n /\
      (pinned t = None -> forall n', n' ∈ active -> eligible t n' ->
         (scoreNode s (t_constraints t) n' <= scoreNode s (t_constraints t) n)%Q)
  | None => forall n, n ∈ active -> ~ eligible t n
  end.
Proof. apply pickNode_eligible. Qed.
