(* ===== verification/TaskEngine.v ===== *)
(** * The task engine plugin (src/src/plugins/task-engine/index.ts)

    The plugin joins the Raft node (Raft.v), the task state machine
    (TaskStateMachine.v) and the scheduler (TaskScheduler.v).  The payload of a log
    entry is the [Entry] that its JSON encodes.  A method runs without
    interruption up to its [await]s on [appendEntry]; what others do to the engine
    during each of them (entries committed, leadership lost, another cycle) is an
    argument, a [Meanwhile] per await in order, and nothing happens once these are
    used up.  The answers of remote executions are arguments. *)

From S2P Require Import Prelude JsMap JsString Raft RaftLog Membership TaskTypes Workflow TaskStateMachine TaskScheduler.

(** The noop of a new leader has no task payload. *)
#[export] Instance Entry_buffer : EmptyBuffer Entry := en_other.

Definition entry_type (e : Entry) : LogEntryType :=
  match e with
  | en_task_submit _ => task_submit
  | en_task_assign _ _ => task_assign
  | en_task_started _ _ => task_started
  | en_task_complete _ _ => task_complete
  | en_task_failed _ _ _ => task_failed
  | en_task_cancel _ => task_cancel
  | en_task_retry _ _ _ => task_retry
  | en_task_dead_letter _ _ => task_dead_letter
  | en_workflow_submit _ _ => workflow_submit
  | en_workflow_advance _ _ => workflow_advance
  | en_other => noop
  end.

Definition is_task_type (ty : LogEntryType) : bool :=
  match ty with
  | task_submit | task_assign | task_started | task_complete | task_failed | task_cancel
  | task_retry | task_dead_letter | workflow_submit | workflow_advance => true
  | _ => false
  end.

Record TaskEnginePlugin := mkPlugin {
  pl_nodeId : string;
  pl_db : TaskDb;
  pl_scheduler : ResourceAwareScheduler;
  pl_raft : RaftNode Entry
}.
#[export] Instance TaskEnginePlugin_eta : EtaRecord TaskEnginePlugin := fun p =>
  mkPlugin (pl_nodeId p) (pl_db p) (pl_scheduler p) (pl_raft p).

(** [ctx.raft.appendEntry(type, data)]: whether it succeeded. *)
Definition append (e : Entry) (p : TaskEnginePlugin) : bool * TaskEnginePlugin :=
  let '((success, _), raft, _) := appendEntry (entry_type e) e (pl_raft p) in
  (success, p <| pl_raft := raft |>).

(** What others do to the engine while a method awaits. *)
Definition Meanwhile : Type := TaskEnginePlugin -> TaskEnginePlugin.

Definition await (ms : list Meanwhile) (p : TaskEnginePlugin) : TaskEnginePlugin * list Meanwhile :=
  match ms with
  | [] => (p, [])
  | m :: ms => (m p, ms)
  end.

(** ** Tools *)

Record SubmitTaskArgs := mkSubmitTaskArgs {
  sa_type : TaskType;
  sa_spec : string;
  sa_priority : option Z;
  sa_requiresGpu : bool;
  sa_avoidGamingNodes : bool;
  sa_targetNode : option string;
  sa_retryable : option bool;
  sa_maxRetries : option Z
}.

Definition submit_constraints (a : SubmitTaskArgs) : option TaskConstraints :=
  if sa_requiresGpu a || sa_avoidGamingNodes a || truthy_opt (sa_targetNode a)
  then Some (mkTaskConstraints (sa_requiresGpu a) (sa_avoidGamingNodes a) None None [] (sa_targetNode a))
  else None.

Definition submit_retryPolicy (a : SubmitTaskArgs) : option RetryPolicy :=
  match sa_retryable a, sa_maxRetries a with
  | None, None => None
  | r, m => Some (mkRetryPolicy (default 3 m) 1000 2 (default true r))
  end.

(** The accepted task id, or the error. *)
Definition handleSubmitTask (uuid : string) (a : SubmitTaskArgs) (p : TaskEnginePlugin) :
    option string * TaskEnginePlugin :=
  let '(success, p) :=
    append (en_task_submit (mkTaskSubmit uuid (sa_type a) (sa_spec a)
              (Some (default 0 (sa_priority a))) (submit_constraints a) (submit_retryPolicy a)
              None None (pl_nodeId p))) p in
  (if success then Some uuid else None, p).

Definition handleCancelTask (taskId : string) (p : TaskEnginePlugin) : bool * TaskEnginePlugin :=
  match getTask taskId (pl_db p) with
  | None => (false, p)
  | Some t =>
      if bool_decide (t_state t = completed \/ t_state t = cancelled \/ t_state t = dead_letter)
      then (false, p)
      else append (en_task_cancel taskId) p
  end.

Definition handleRetryDeadLetterTask (now : Z) (taskId : string) (p : TaskEnginePlugin) :
    bool * TaskEnginePlugin :=
  match getTask taskId (pl_db p) with
  | None => (false, p)
  | Some t =>
      if bool_decide (t_state t <> dead_letter) then (false, p)
      else append (en_task_retry taskId 0 now) p
  end.

(** The loop that re-queues the tasks of a node: how many entries were appended. *)
Fixpoint requeue (now : Z) (ms : list Meanwhile) (ts : list TaskRecord) (p : TaskEnginePlugin) :
    Z * TaskEnginePlugin :=
  match ts with
  | [] => (0, p)
  | t :: ts =>
      let '(success, p) := append (en_task_retry (t_id t) (t_attempt t) now) p in
      let '(p, ms) := await ms p in
      let '(n, p) := requeue now ms ts p in
      ((if success then 1 else 0) + n, p)
  end.

Definition handleDrainNodeTasks (now : Z) (ms : list Meanwhile) (node : string) (p : TaskEnginePlugin) :
    (Z * Z) * TaskEnginePlugin :=
  let tasks := getTasksOnNode node (pl_db p) in
  let '(requeued, p) := requeue now ms tasks p in
  ((requeued, js_length tasks), p).

(** One submission per element; the ids of those that were appended. *)
Fixpoint submit_each {A} (payload : string -> A -> TaskSubmitPayload) (ms : list Meanwhile)
    (uuids : list string) (xs : list A) (p : TaskEnginePlugin) : list string * TaskEnginePlugin :=
  match uuids, xs with
  | uuid :: uuids, x :: xs =>
      let '(success, p) := append (en_task_submit (payload uuid x)) p in
      let '(p, ms) := await ms p in
      let '(ids, p) := submit_each payload ms uuids xs p in
      ((if success then [uuid] else []) ++ ids, p)
  | _, _ => ([], p)
  end.

Definition handleRunDistributed (ms : list Meanwhile) (uuids : list string) (spec : string) (targetNodes : list string)
    (active : list NodeInfo) (p : TaskEnginePlugin) : option (list string) * TaskEnginePlugin :=
  let nodes := match targetNodes with
               | [] => active
               | _ => filter (fun n => n_nodeId n ∈ targetNodes \/ n_hostname n ∈ targetNodes) active
               end in
  match nodes with
  | [] => (None, p)
  | _ =>
      let '(ids, p) :=
        submit_each (fun uuid n => mkTaskSubmit uuid tt_shell spec (Some 5)
                       (Some (mkTaskConstraints false false None None [] (Some (n_nodeId n))))
                       None None None (pl_nodeId p)) ms uuids nodes p in
      (Some ids, p)
  end.

Definition handleDispatchSubagents (ms : list Meanwhile) (uuids : list string) (spec : string)
    (count : nat) (p : TaskEnginePlugin) : list string * TaskEnginePlugin :=
  submit_each (fun uuid _ => mkTaskSubmit uuid tt_subagent spec (Some 5) None None None None (pl_nodeId p))
    ms uuids (replicate count tt) p.

Definition handleSubmitWorkflow (uuid : string) (def : WorkflowDefinition) (p : TaskEnginePlugin) :
    option string * TaskEnginePlugin :=
  let '(success, p) := append (en_workflow_submit uuid def) p in
  (if success then Some uuid else None, p).

Definition handleListTasks (st : option TaskEngineState) (limit offset : option Z)
    (workflowId nodeId : option string) (p : TaskEnginePlugin) : list TaskRecord :=
  let tasks := listTasks st (Some (default 50 limit)) (Some (default 0 offset)) (pl_db p) in
  let tasks := if truthy_opt workflowId then filter (fun t => t_workflow_id t = workflowId) tasks
               else tasks in
  if truthy_opt nodeId then filter (fun t => t_assigned_node t = nodeId) tasks else tasks.

Definition handleListDeadLetterTasks (limit : option Z) (p : TaskEnginePlugin) : list TaskRecord * Z :=
  let tasks := getDeadLetterTasks (pl_db p) in
  (js_slice tasks 0 (default 50 limit), Z.min (js_length tasks) (default 50 limit)).

(** ** Committed entries *)

Section engine.
Context (runInContext : string -> jsmap ParentResult -> string -> option bool).

Definition handleStateMachineAction (a : StateMachineAction) (p : TaskEnginePlugin) :
    TaskEnginePlugin :=
  match a with
  | act_retry id attempt after => (append (en_task_retry id attempt after) p).2
  | act_dead_letter id reason => (append (en_task_dead_letter id reason) p).2
  | act_cancel_running _ _ | act_schedule _ _ | act_workflow_advance _ _ => p
  end.

(** An error of the state machine is caught and logged. *)
Definition handleEntryCommitted (now : Z) (uuids : list string) (ty : LogEntryType) (e : Entry)
    (p : TaskEnginePlugin) : TaskEnginePlugin :=
  if negb (is_task_type ty) then p
  else
    match applyEntry runInContext (pl_nodeId p) now uuids e (pl_db p) with
    | (db, inl _) => p <| pl_db := db |>
    | (db, inr None) => p <| pl_db := db |>
    | (db, inr (Some a)) =>
        let p := p <| pl_db := db |> in
        if isLeader (pl_raft p) then handleStateMachineAction a p else p
    end.

(** ** The scheduling loop *)

Definition count_running (active : list NodeInfo) (p : TaskEnginePlugin) : TaskEnginePlugin :=
  foldl (fun p n => p <| pl_scheduler ::=
           setRunningTaskCount (n_nodeId n) (js_length (getTasksOnNode (n_nodeId n) (pl_db p))) |>)
    p active.

(** One turn of the cycle's loop: the task, the nodes that were active and the
    engine that the turn found, the node it chose, whether the entry was appended
    (and the task then dispatched), and the engine at the end of the turn or, where
    it appended, at its await. *)
Record Visit := mkVisit {
  v_task : TaskRecord;
  v_active : list NodeInfo;
  v_found : TaskEnginePlugin;
  v_node : option NodeInfo;
  v_success : bool;
  v_left : TaskEnginePlugin
}.

(** The loop over the queued tasks.  [ms] says for each await what others do
    meanwhile, and which nodes are active afterwards. *)
Fixpoint assign_tasks (ms : list (Meanwhile * list NodeInfo)) (active : list NodeInfo)
    (ts : list TaskRecord) (p : TaskEnginePlugin) : list Visit * TaskEnginePlugin :=
  match ts with
  | [] => ([], p)
  | t :: ts =>
      match pickNode (pl_scheduler p) active t with
      | None =>
          let '(vs, p') := assign_tasks ms active ts p in
          (mkVisit t active p None false p :: vs, p')
      | Some n =>
          let '(success, q) := append (en_task_assign (t_id t) (n_nodeId n)) p in
          let '(vs, p') :=
            match ms with
            | [] => assign_tasks [] active ts q
            | (m, active') :: ms => assign_tasks ms active' ts (m q)
            end in
          (mkVisit t active p (Some n) success q :: vs, p')
      end
  end.

Definition runSchedulingCycle (now : Z) (ms : list (Meanwhile * list NodeInfo))
    (active : list NodeInfo) (p : TaskEnginePlugin) : list Visit * TaskEnginePlugin :=
  if negb (isLeader (pl_raft p)) then ([], p)
  else
    match getQueuedTasks now (pl_db p) with
    | [] => ([], p)
    | ts => assign_tasks ms active ts (count_running active p)
    end.

(** The messages of a remote execution. *)
Record ExecuteResponse := mkExecuteResponse {
  ex_output : option (bool * string);     (* whether it is stderr, and the text *)
  ex_status : option (option Z)           (* [status.exit_code] *)
}.

Definition accumulate (acc : Z * string * string) (r : ExecuteResponse) : Z * string * string :=
  let '(exitCode, out, err) := acc in
  let '(out, err) := match ex_output r with
                     | Some (true, d) => (out, err +:+ d)
                     | Some (false, d) => (out +:+ d, err)
                     | None => (out, err)
                     end in
  (match ex_status r with Some c => default 0 c | None => exitCode end, out, err).

(** [dispatchToNode] up to the await of the started entry: whether there is a task. *)
Definition dispatch_start (taskId node : string) (p : TaskEnginePlugin) : bool * TaskEnginePlugin :=
  match getTask taskId (pl_db p) with
  | None => (false, p)
  | Some _ => (true, (append (en_task_started taskId node) p).2)
  end.

(** Its end, when the remote execution is over: [outcome] is the stream, ended by
    an error message when it throws. *)
Definition dispatch_end (taskId node : string) (outcome : list ExecuteResponse * option string)
    (p : TaskEnginePlugin) : TaskEnginePlugin :=
  match outcome with
  | (rs, None) =>
      let '(exitCode, out, err) := foldl accumulate (0, "", "") rs in
      (append (en_task_complete taskId (mkTaskResult (Some exitCode) (Some out) (Some err))) p).2
  | (_, Some msg) => (append (en_task_failed taskId msg node) p).2
  end.

Definition dispatchToNode (meanwhile : Meanwhile) (taskId node : string)
    (outcome : list ExecuteResponse * option string) (p : TaskEnginePlugin) : TaskEnginePlugin :=
  match dispatch_start taskId node p with
  | (false, p) => p
  | (true, p) => dispatch_end taskId node outcome (meanwhile p)
  end.

(** The entries are appended without waiting for any of them. *)
Definition handleNodeOffline (now : Z) (node : string) (p : TaskEnginePlugin) : TaskEnginePlugin :=
  if negb (isLeader (pl_raft p)) then p
  else (requeue now [] (getTasksOnNode node (pl_db p)) p).2.
End engine.
