(* ===== verification/TaskEngineProps.v ===== *)
(** * What the task engine guarantees

    Retries end in the dead-letter queue after the number of attempts that the
    policy allows; the tasks of a node that goes offline are re-queued; the
    scheduling cycle considers every due task once, in order of priority, and
    assigns it if some node can take it at its turn, whatever others do while the
    cycle awaits. *)

From S2P Require Import Prelude JsMap JsString Raft RaftLog Membership TaskTypes Workflow TaskStateMachine TaskProps TaskScheduler TaskEngine.
From Stdlib Require Import QArith.
#[local] Open Scope Z_scope.

Section props.
Context (runInContext : string -> jsmap ParentResult -> string -> option bool).
Implicit Types (p : TaskEnginePlugin).

Definition leads p : Prop := isLeader (pl_raft p) = true.

(** The payloads of the leader's log. *)
Definition entries p : list Entry := data <$> log (pl_raft p).

Lemma append_leader e p :
  leads p ->
  (append e p).1 = true /\ entries (append e p).2 = entries p ++ [e] /\
  leads (append e p).2 /\ pl_db (append e p).2 = pl_db p /\
  pl_nodeId (append e p).2 = pl_nodeId p /\ pl_scheduler (append e p).2 = pl_scheduler p /\
  (exists le, last (log (pl_raft (append e p).2)) = Some le /\ data le = e /\ type le = entry_type e).
Proof.
  unfold leads, append, appendEntry, entries. intros Hl. rewrite Hl. cbn.
  split_and!; try done.
  - by rewrite fmap_app.
  - eexists. rewrite last_snoc. done.
Qed.

(** ** Retries *)

Abbreviation commit := (handleEntryCommitted runInContext).

(** The task fails at time [now], and the leader applies the entry that it
    appends in response. *)
Definition fail_round (id err node : string) p (now : Z) : TaskEnginePlugin :=
  let p := commit now [] task_failed (en_task_failed id err node) p in
  match last (log (pl_raft p)) with
  | Some le => commit now [] (type le) (data le) p
  | None => p
  end.

(** What the engine knows of the task between failures. *)
Record awaiting p (id : string) (pol : RetryPolicy) (attempt : Z) (t : TaskRecord) : Prop := {
  aw_leads : leads p;
  aw_task : find_task id (pl_db p) = Some t;
  aw_policy : retry_policy_of t = pol;
  aw_attempt : t_attempt t = attempt
}.

Definition backoff (pol : RetryPolicy) (attempt : Z) : Z :=
  backoffMs pol * backoffMultiplier pol ^ attempt.

Lemma apply_retry nid now id a s db t :
  find_task id db = Some t ->
  exists db', applyEntry runInContext nid now [] (en_task_retry id a s) db =
      (db', inr (Some (act_schedule (Some id) (Some s)))) /\
    find_task id db' = Some (retried a s t) /\
    forall id', id' <> id -> find_task id' db' = find_task id' db.
Proof.
  intros Ht.
  destruct (update_event_frame now id (retried a s) te_retried nid (Some (retry_detail a s))
    (db_ret (Some (act_schedule (Some id) (Some s)))) db t ltac:(done) Ht ltac:(done))
    as (F1 & F2 & _).
  eexists. split; [reflexivity|]. split; [exact F1|exact F2].
Qed.

Lemma apply_dead_letter nid now id reason db t :
  find_task id db = Some t ->
  exists db', applyEntry runInContext nid now [] (en_task_dead_letter id reason) db = (db', inr None) /\
    find_task id db' =
      Some (t <| t_state := dead_letter |> <| t_dead_lettered_at := Some now |>).
Proof.
  intros Ht.
  destruct (update_event_frame now id (fun t => t <| t_state := dead_letter |> <| t_dead_lettered_at := Some now |>)
    te_dead_lettered nid (Some (detail reason)) (db_ret (@None StateMachineAction)) db t
    ltac:(done) Ht ltac:(done)) as (F1 & _).
  eexists. split; [reflexivity|]. exact F1.
Qed.

(** The leader's response to a failure. *)
Definition failure_response (id : string) (pol : RetryPolicy) (attempt now : Z) : Entry :=
  if retryable pol && (attempt <? maxRetries pol)
  then en_task_retry id (attempt + 1) (now + backoff pol attempt)
  else en_task_dead_letter id
         ("Max retries exhausted (" +:+ js_toString (maxRetries pol) +:+ ") or not retryable").

Lemma apply_failed nid now id err node db t :
  find_task id db = Some t ->
  Z.abs (now + backoff (retry_policy_of t) (t_attempt t)) <= MAX_DATE ->
  exists db' act, applyEntry runInContext nid now [] (en_task_failed id err node) db = (db', inr (Some act)) /\
    find_task id db' = Some (t <| t_error := Some err |>) /\
    match act with
    | act_retry i a s => en_task_retry i a s
    | act_dead_letter i r => en_task_dead_letter i r
    | _ => en_other
    end = failure_response id (retry_policy_of t) (t_attempt t) now.
Proof.
  intros Ht Hd. cbn [applyEntry]. unfold handleTaskFailed. rewrite get_task_bind, Ht.
  unfold failure_response, backoff in *.
  set (pol := retry_policy_of t) in *.
  destruct (update_event_frame now id (fun t => t <| t_error := Some err |>) te_failed node
    (Some (detail err)) (db_ret tt) db t ltac:(done) Ht ltac:(done)) as (F1 & _).
  unfold db_bind. cbn [update_task insertEvent].
  destruct (retryable pol && (t_attempt t <? maxRetries pol)).
  - rewrite (proj2 (Z.ltb_ge MAX_DATE _)) by done. do 2 eexists. split; [reflexivity|]. split; [exact F1|done].
  - do 2 eexists. split; [reflexivity|]. split; [exact F1|done].
Qed.

Lemma fail_round_eq id err node p now t :
  leads p -> find_task id (pl_db p) = Some t ->
  Z.abs (now + backoff (retry_policy_of t) (t_attempt t)) <= MAX_DATE ->
  exists db1, find_task id db1 = Some (t <| t_error := Some err |>) /\
    let e := failure_response id (retry_policy_of t) (t_attempt t) now in
    fail_round id err node p now =
      commit now [] (entry_type e) e (append e (p <| pl_db := db1 |>)).2.
Proof.
  intros Hl Ht Hd.
  destruct (apply_failed (pl_nodeId p) now id err node (pl_db p) t Ht Hd) as (db1 & act & Eq & Ht1 & Ha).
  exists db1. split; [done|]. cbn zeta. set (e := failure_response _ _ _ _) in *.
  set (p1 := p <| pl_db := db1 |>). unfold fail_round.
  assert (commit now [] task_failed (en_task_failed id err node) p = (append e p1).2) as ->.
  { unfold handleEntryCommitted. cbn [is_task_type negb]. rewrite Eq.
    change (isLeader (pl_raft (p <| pl_db := db1 |>))) with (isLeader (pl_raft p)). rewrite Hl.
    destruct act; cbn [handleStateMachineAction]; rewrite ?Ha; try done;
      subst e; unfold failure_response in Ha; case_match; discriminate Ha. }
  destruct (append_leader e p1 Hl) as (_ & _ & _ & _ & _ & _ & le & -> & -> & ->). done.
Qed.

(** One round: the failure, the entry appended in response, and its effect. *)
Lemma fail_round_step id err node p now t :
  leads p -> find_task id (pl_db p) = Some t ->
  Z.abs (now + backoff (retry_policy_of t) (t_attempt t)) <= MAX_DATE ->
  let p' := fail_round id err node p now in
  leads p' /\ exists t', find_task id (pl_db p') = Some t' /\
    t_retry_policy t' = t_retry_policy t /\
    if retryable (retry_policy_of t) && (t_attempt t <? maxRetries (retry_policy_of t))
    then t_state t' = queued /\ t_attempt t' = t_attempt t + 1 /\
         t_scheduled_after t' = Some (now + backoff (retry_policy_of t) (t_attempt t))
    else t_state t' = dead_letter /\ t_attempt t' = t_attempt t.
Proof.
  intros Hl Ht Hd. cbn zeta.
  destruct (fail_round_eq id err node p now t Hl Ht Hd) as (db1 & Ht1 & ->).
  set (p1 := p <| pl_db := db1 |>). set (e := failure_response id (retry_policy_of t) (t_attempt t) now).
  destruct (append_leader e p1 Hl) as (_ & _ & Hl2 & Hdb & _).
  set (p2 := (append e p1).2) in *. clearbody p2. unfold handleEntryCommitted.
  assert (Ht2 : find_task id (pl_db p2) = Some (t <| t_error := Some err |>)) by (by rewrite Hdb).
  subst e. unfold failure_response. destruct (retryable _ && _) eqn:E; cbn [is_task_type entry_type negb].
  - destruct (apply_retry (pl_nodeId p2) now id (t_attempt t + 1)
      (now + backoff (retry_policy_of t) (t_attempt t)) (pl_db p2) _ Ht2) as (db' & -> & Hf & _).
    cbn [handleStateMachineAction]. destruct (isLeader _);
      (split; [exact Hl2|]); eexists; (split; [exact Hf|done]).
  - destruct (apply_dead_letter (pl_nodeId p2) now id
      ("Max retries exhausted (" +:+ js_toString (maxRetries (retry_policy_of t)) +:+ ") or not retryable")
      (pl_db p2) _ Ht2) as (db' & -> & Hf).
    split; [exact Hl2|]. eexists. split; [exact Hf|done].
Qed.

(** The state of the task after each round. *)
Definition ladder (pol : RetryPolicy) (nows : list Z) (t' : TaskRecord) : Prop :=
  retry_policy_of t' = pol /\
  t_attempt t' = Z.min (js_length nows) (maxRetries pol) /\
  (nows <> [] -> js_length nows <= maxRetries pol ->
     t_state t' = queued /\
     t_scheduled_after t' = (fun now => now + backoff pol (js_length nows - 1)) <$> last nows) /\
  (js_length nows = maxRetries pol + 1 -> t_state t' = dead_letter).

Lemma js_length_snoc {A} (l : list A) x : js_length (l ++ [x]) = js_length l + 1.
Proof. unfold js_length. rewrite length_app. simpl. lia. Qed.

Lemma retry_policy_same t t' :
  t_retry_policy t' = t_retry_policy t -> retry_policy_of t' = retry_policy_of t.
Proof. unfold retry_policy_of. by intros ->. Qed.

Lemma ladder_rounds id err node p t nows :
  leads p -> find_task id (pl_db p) = Some t -> t_attempt t = 0 ->
  retryable (retry_policy_of t) = true -> 0 <= maxRetries (retry_policy_of t) ->
  (forall j now, nows !! j = Some now ->
     Z.abs (now + backoff (retry_policy_of t) (Z.of_nat j)) <= MAX_DATE) ->
  js_length nows <= maxRetries (retry_policy_of t) + 1 ->
  let p' := foldl (fail_round id err node) p nows in
  leads p' /\ exists t', find_task id (pl_db p') = Some t' /\ ladder (retry_policy_of t) nows t'.
Proof.
  intros Hl Ht Ha Hr Hm. cbn zeta. set (pol := retry_policy_of t) in *. unfold ladder.
  induction nows as [|now nows IH] using rev_ind; intros Hd Hlen.
  { split; [done|]. exists t. unfold js_length. cbn. split_and!; try done; lia. }
  rewrite js_length_snoc in *.
  destruct IH as (Hl1 & t1 & Ht1 & Hpol & Ha1 & Hq1 & _); [|lia|].
  { intros j x Hj. apply Hd. by apply lookup_app_l_Some. }
  assert (Hn : js_length nows <= maxRetries pol) by lia. rewrite Z.min_l in Ha1 by done.
  specialize (Hd (length nows) now ltac:(by rewrite lookup_app_r, Nat.sub_diag by lia)).
  fold (js_length nows) in Hd. rewrite foldl_app. cbn [foldl].
  destruct (fail_round_step id err node _ now t1 Hl1 Ht1) as (Hl2 & t2 & Ht2 & Hp2 & Hcase);
    [by rewrite Hpol, Ha1|].
  split; [exact Hl2|]. exists t2. split; [exact Ht2|]. rewrite (retry_policy_same _ _ Hp2), Hpol.
  rewrite Hpol, Hr, Ha1 in Hcase. cbn [andb] in Hcase. rewrite last_snoc.
  destruct (js_length nows <? maxRetries pol) eqn:E; prop_of_bool.
  - destruct Hcase as (Hs & Hat & Hsch). split_and!; [done|lia| |lia].
    intros _ _. split; [done|]. simpl. rewrite Hsch. repeat f_equal. lia.
  - destruct Hcase as (Hs & Hat). split_and!; [done|lia|lia|done].
Qed.

(** C10: the retry ladder.  A task that keeps failing on the leader is re-queued
    with attempt 1, 2, ... up to the policy's limit, the j-th time not before
    [backoffMs * backoffMultiplier ^ (j - 1)] milliseconds after the failure, and
    the failure after the last allowed attempt puts it in the dead-letter
    queue.  ([nows] are the times of the failures; the dates must be
    representable.) *)
Theorem retry_ladder id err node p t nows :
  leads p -> find_task id (pl_db p) = Some t -> t_attempt t = 0 ->
  retryable (retry_policy_of t) = true -> 0 <= maxRetries (retry_policy_of t) ->
  (forall j now, nows !! j = Some now ->
     Z.abs (now + backoff (retry_policy_of t) (Z.of_nat j)) <= MAX_DATE) ->
  js_length nows <= maxRetries (retry_policy_of t) + 1 ->
  let p' := foldl (fail_round id err node) p nows in
  leads p' /\ exists t', find_task id (pl_db p') = Some t' /\
    t_attempt t' = Z.min (js_length nows) (maxRetries (retry_policy_of t)) /\
    (nows <> [] -> js_length nows <= maxRetries (retry_policy_of t) ->
       t_state t' = queued /\
       t_scheduled_after t' = (fun now => now + backoff (retry_policy_of t) (js_length nows - 1)) <$> last nows) /\
    (js_length nows = maxRetries (retry_policy_of t) + 1 -> t_state t' = dead_letter).
Proof.
  intros Hl Ht Ha Hr Hm Hd Hlen. cbn zeta.
  destruct (ladder_rounds id err node p t nows Hl Ht Ha Hr Hm Hd Hlen) as (Hl' & t' & Ht' & _ & H).
  split; [exact Hl'|]. exists t'. by split.
Qed.

(** ** Failover *)

(** The database after the entries have been applied in order. *)
Definition apply_all (nid : string) (now : Z) (es : list Entry) (db : TaskDb) : TaskDb :=
  foldl (fun db e => (applyEntry runInContext nid now [] e db).1) db es.

Definition retry_entry (now : Z) (t : TaskRecord) : Entry := en_task_retry (t_id t) (t_attempt t) now.

Lemma requeue_entries now ts p :
  leads p -> entries (requeue now [] ts p).2 = entries p ++ (retry_entry now <$> ts) /\
    (requeue now [] ts p).1 = js_length ts /\ pl_db (requeue now [] ts p).2 = pl_db p.
Proof.
  revert p. induction ts as [|t ts IH]; intros p Hl; cbn [requeue await fmap list_fmap].
  { by rewrite app_nil_r. }
  fold (retry_entry now t).
  destruct (append_leader (retry_entry now t) p Hl) as (Hs & He & Hl' & Hdb & _).
  destruct (append (retry_entry now t) p) as [b p1]. cbn in Hs, He, Hl', Hdb. subst b.
  destruct (IH p1 Hl') as (H1 & H2 & H3). destruct (requeue now [] ts p1) as [n p2]. cbn in *.
  rewrite H1, He, <- app_assoc, H3. split_and!; [done| |done].
  rewrite H2. unfold js_length. simpl. lia.
Qed.

Lemma apply_entry_wf nid now e db :
  db_wf db -> entry_task e <> None -> db_wf (applyEntry runInContext nid now [] e db).1.
Proof.
  intros Hwf He.
  assert (Hk : keeps db_wf (applyEntry runInContext nid now [] e)); [|by apply Hk].
  destruct e; try done; cbn [applyEntry]; unfold handleTaskAssign, handleTaskStarted, handleTaskComplete,
    handleTaskFailed, handleTaskCancel, handleTaskRetry, handleTaskDeadLetter; repeat keeps_step.
Qed.

Lemma apply_all_cons nid now e es db :
  apply_all nid now (e :: es) db = apply_all nid now es (applyEntry runInContext nid now [] e db).1.
Proof. done. Qed.

(** The effect of a retry on the tasks with the given ids. *)
Lemma apply_retries nid now ts db id :
  db_wf db -> NoDup (t_id <$> ts) -> (forall t, t ∈ ts -> find_task (t_id t) db = Some t) ->
  db_wf (apply_all nid now (retry_entry now <$> ts) db) /\
  find_task id (apply_all nid now (retry_entry now <$> ts) db) =
    if bool_decide (id ∈ t_id <$> ts)
    then (fun t => retried (t_attempt t) now t) <$> find_task id db else find_task id db.
Proof.
  revert db. induction ts as [|t ts IH]; intros db Hwf Hnd Hts.
  { split; [done|]. by rewrite bool_decide_eq_false_2 by apply not_elem_of_nil. }
  rewrite fmap_cons, NoDup_cons in Hnd. destruct Hnd as [Ht Hnd].
  destruct (apply_retry nid now (t_id t) (t_attempt t) now db t (Hts t ltac:(by left)))
    as (db1 & Eq & Hf & Hother).
  pose proof (apply_entry_wf nid now (retry_entry now t) db Hwf ltac:(done)) as Hwf1.
  assert (Eq' : (applyEntry runInContext nid now [] (retry_entry now t) db).1 = db1)
    by (unfold retry_entry; by rewrite Eq).
  rewrite !fmap_cons, apply_all_cons, Eq'. rewrite Eq' in Hwf1.
  destruct (IH db1 Hwf1 Hnd) as [H1 H2].
  { intros t' Ht'. rewrite Hother; [by apply Hts; right|]. intros E. apply Ht. rewrite <- E.
    by apply list_elem_of_fmap_2. }
  split; [exact H1|]. rewrite H2.
  destruct (decide (id = t_id t)) as [->|Hne].
  - rewrite bool_decide_eq_false_2 by done. rewrite bool_decide_eq_true_2 by (by left).
    rewrite Hf, (Hts t ltac:(by left)). done.
  - rewrite Hother by done.
    assert (bool_decide (id ∈ t_id t :: (t_id <$> ts)) = bool_decide (id ∈ t_id <$> ts)) as ->; [|done].
    apply bool_decide_ext. rewrite elem_of_cons. naive_solver.
Qed.

Lemma elem_of_getTasksOnNode node db t :
  t ∈ getTasksOnNode node db <-> t ∈ te_tasks db /\ on_node node t = true.
Proof. unfold getTasksOnNode. rewrite js_sort_elem_of, list_elem_of_filter. naive_solver. Qed.

Lemma getTasksOnNode_nodup node db : db_wf db -> NoDup (t_id <$> getTasksOnNode node db).
Proof.
  intros [Hnd _ _]. unfold getTasksOnNode. rewrite (js_sort_perm by_priority).
  eapply sublist_NoDup; [exact Hnd|]. apply fmap_sublist, sublist_filter.
Qed.

(** Failover.  When the leader hears that a node is offline it appends one
    retry entry for each task assigned to or running on the node, and once these
    are applied each such task is queued again, with the attempt count it had
    and no node, and nothing is left on the node. *)
Theorem offline_requeues nid now node p :
  leads p -> db_wf (pl_db p) ->
  let ts := getTasksOnNode node (pl_db p) in
  let p' := handleNodeOffline now node p in
  let db' := apply_all nid now (retry_entry now <$> ts) (pl_db p) in
  entries p' = entries p ++ (retry_entry now <$> ts) /\
  (forall t, t ∈ ts -> find_task (t_id t) db' = Some (retried (t_attempt t) now t)) /\
  getTasksOnNode node db' = [].
Proof.
  intros Hl Hwf. cbn zeta. set (ts := getTasksOnNode node (pl_db p)).
  assert (Hts : forall t, t ∈ ts -> find_task (t_id t) (pl_db p) = Some t).
  { intros t [Ht _]%elem_of_getTasksOnNode. by apply find_task_Some. }
  pose proof (getTasksOnNode_nodup node (pl_db p) Hwf) as Hnd.
  pose proof (fun id => apply_retries nid now ts (pl_db p) id Hwf Hnd Hts) as Hr.
  split_and!.
  - unfold handleNodeOffline. rewrite Hl. cbn [negb]. by apply requeue_entries.
  - intros t Ht. destruct (Hr (t_id t)) as [_ ->].
    rewrite bool_decide_eq_true_2 by (by apply list_elem_of_fmap_2). by rewrite (Hts t Ht).
  - destruct (getTasksOnNode node (apply_all _ _ _ _)) as [|t' rest] eqn:E; [done|]. exfalso.
    assert (Ht' : t' ∈ t' :: rest) by (by left). rewrite <- E in Ht'.
    apply elem_of_getTasksOnNode in Ht' as [Hin Hon]. destruct (Hr (t_id t')) as [Hwf' Hf].
    rewrite (proj2 (find_task_Some (t_id t') _ t' Hwf') (conj Hin eq_refl)) in Hf.
    case_bool_decide as Hid.
    + destruct (find_task (t_id t') (pl_db p)) as [t|]; [|done]. simpl in Hf. injection Hf as ->.
      unfold on_node in Hon. apply bool_decide_eq_true in Hon as [Hon _]. discriminate Hon.
    + symmetry in Hf. apply find_task_Some in Hf as [Hin' _]; [|done].
      apply Hid, list_elem_of_fmap_2. by apply elem_of_getTasksOnNode.
Qed.

(** ** Scheduling *)

(** Each turn of the loop finds the engine that the turn before left, changed at
    most by what others did while that turn awaited its entry. *)
Fixpoint linked (ms : list (Meanwhile * list NodeInfo)) (active : list NodeInfo) p (vs : list Visit) p' :
    Prop :=
  match vs with
  | [] => p' = p
  | v :: vs =>
      v_active v = active /\ v_found v = p /\
      match v_node v, ms with
      | Some _, (m, active') :: ms => linked ms active' (m (v_left v)) vs p'
      | _, _ => linked ms active (v_left v) vs p'
      end
  end.

(** A turn places its task if a node that is active then is eligible: on such a
    node, a best one if the task is not pinned.  It appends the assignment if the
    engine leads then, and otherwise leaves it; it does nothing else. *)
Definition right_turn (v : Visit) : Prop :=
  match v_node v with
  | None =>
      (forall n, n ∈ v_active v -> ~ eligible (v_task v) n) /\
      v_success v = false /\ v_left v = v_found v
  | Some n =>
      n ∈ v_active v /\ eligible (v_task v) n /\
      (pinned (v_task v) = None -> forall n', n' ∈ v_active v -> eligible (v_task v) n' ->
         let score := scoreNode (pl_scheduler (v_found v)) (t_constraints (v_task v)) in
         (score n' <= score n)%Q) /\
      (v_success v = true <-> leads (v_found v)) /\
      pl_db (v_left v) = pl_db (v_found v) /\
      entries (v_left v) = entries (v_found v) ++
        (if v_success v then [en_task_assign (t_id (v_task v)) (n_nodeId n)] else [])
  end.

Lemma append_outcome e p :
  ((append e p).1 = true <-> leads p) /\ pl_db (append e p).2 = pl_db p /\
  entries (append e p).2 = entries p ++ (if (append e p).1 then [e] else []).
Proof.
  destruct (isLeader (pl_raft p)) eqn:E.
  - destruct (append_leader e p E) as (H1 & H2 & _ & H3 & _). rewrite H1, H2, H3. by unfold leads.
  - unfold leads, append, appendEntry, entries. rewrite E. cbn. by rewrite app_nil_r.
Qed.

Lemma right_choice t active p n :
  pickNode (pl_scheduler p) active t = Some n ->
  let r := append (en_task_assign (t_id t) (n_nodeId n)) p in
  right_turn (mkVisit t active p (Some n) r.1 r.2).
Proof.
  intros E. pose proof (pickNode_eligible (pl_scheduler p) active t) as Hp. rewrite E in Hp.
  destruct Hp as (H1 & H2 & H3). cbn zeta. unfold right_turn. cbn.
  split_and!; [done|done|done|apply append_outcome..].
Qed.

(** The loop visits the tasks in order, by right turns that are linked. *)
Lemma assign_tasks_turns ts : forall ms active p,
  let '(vs, p') := assign_tasks ms active ts p in
  v_task <$> vs = ts /\ Forall right_turn vs /\ linked ms active p vs p'.
Proof.
  induction ts as [|t ts IH]; intros ms active p; cbn [assign_tasks]; [done|].
  destruct (pickNode (pl_scheduler p) active t) as [n|] eqn:E.
  - pose proof (right_choice t active p n E) as Hr. cbn zeta in Hr.
    destruct (append _ p) as [success q]. cbn in Hr.
    assert (Hgo : forall ms' active' p0, let '(vs, p') := assign_tasks ms' active' ts p0 in
      v_task <$> mkVisit t active p (Some n) success q :: vs = t :: ts /\
      Forall right_turn (mkVisit t active p (Some n) success q :: vs) /\ linked ms' active' p0 vs p').
    { intros ms' active' p0. specialize (IH ms' active' p0). destruct (assign_tasks _ _ _ _) as [vs p'].
      destruct IH as (<- & H1 & H2). split_and!; [done|by constructor|done]. }
    destruct ms as [|[m active'] ms]; cbn; [specialize (Hgo [] active q)|specialize (Hgo ms active' (m q))];
      destruct (assign_tasks _ _ _ _) as [vs p']; cbn; naive_solver.
  - specialize (IH ms active p). destruct (assign_tasks _ _ _ _) as [vs p'].
    destruct IH as (<- & H1 & H2). pose proof (pickNode_eligible (pl_scheduler p) active t) as Hp.
    rewrite E in Hp. split_and!; [done|by constructor|done].
Qed.

Definition counted (active : list NodeInfo) p p0 : Prop :=
  pl_raft p0 = pl_raft p /\ pl_db p0 = pl_db p /\ pl_nodeId p0 = pl_nodeId p /\
  forall n, n ∈ active ->
    jm_get (rs_runningTaskCounts (pl_scheduler p0)) (n_nodeId n) =
      Some (js_length (getTasksOnNode (n_nodeId n) (pl_db p))).

Lemma count_running_counted active p : counted active p (count_running active p).
Proof.
  induction active as [|n ns IH] using rev_ind.
  { split_and!; try done. intros n []%elem_of_nil. }
  unfold count_running in *. rewrite foldl_app. cbn [foldl].
  destruct IH as (H1 & H2 & H3 & H4). split_and!; [exact H1|exact H2|exact H3|]. intros n' Hn'. cbn.
  rewrite H2. destruct (decide (n_nodeId n' = n_nodeId n)) as [->|Hne]; [apply jm_get_set_eq|].
  rewrite jm_get_set_ne by done. apply H4.
  apply elem_of_app in Hn' as [Hn'|Hn']; [done|]. apply list_elem_of_singleton in Hn' as ->. done.
Qed.

Lemma by_priority_sorted l :
  StronglySorted (fun a b => t_priority b <= t_priority a) (js_sort by_priority l).
Proof.
  apply (StronglySorted_weaken (fun a b => by_priority a b = true)).
  - unfold by_priority. intros a b H. prop_of_bool. lia.
  - apply js_sort_sorted; unfold by_priority; intros *; rewrite !orb_true_iff, !andb_true_iff,
      !Z.ltb_lt, !Z.eqb_eq, !Z.leb_le; lia.
Qed.

(** C11: the scheduling cycle, whatever others do while it awaits the append of
    an entry.  A node that does not lead does nothing.  A leader's cycle takes
    a turn for each task that was queued and due when it started, once each and a
    higher priority first.  The turn chooses a node exactly if a node that is
    active at that turn is eligible, and then an eligible active one, the best
    scored by the counts of running tasks that the cycle started with unless others
    changed them; it appends the assignment, and nothing else, exactly if the engine
    leads then.  Nothing changes between the turns but what others do during the
    awaits.  (The task is not looked at again: one assigned or cancelled by others
    meanwhile is assigned all the same.) *)
Theorem scheduling_cycle now ms active p :
  db_wf (pl_db p) ->
  let '(vs, p') := runSchedulingCycle now ms active p in
  (~ leads p -> vs = [] /\ p' = p) /\
  (leads p -> forall t, t ∈ v_task <$> vs <-> t ∈ te_tasks (pl_db p) /\ due now t = true) /\
  NoDup (t_id <$> (v_task <$> vs)) /\
  StronglySorted (fun a b => t_priority b <= t_priority a) (v_task <$> vs) /\
  Forall right_turn vs /\
  (vs = [] /\ p' = p \/ exists p0, counted active p p0 /\ linked ms active p0 vs p').
Proof.
  intros Hwf. unfold runSchedulingCycle, leads. destruct (isLeader (pl_raft p)); cbn [negb].
  2: { split_and!; try done; [constructor|constructor|by left]. }
  assert (Hq : forall t, t ∈ getQueuedTasks now (pl_db p) <-> t ∈ te_tasks (pl_db p) /\ due now t = true).
  { intros t. unfold getQueuedTasks. rewrite js_sort_elem_of, list_elem_of_filter. naive_solver. }
  assert (Hnd : NoDup (t_id <$> getQueuedTasks now (pl_db p))).
  { unfold getQueuedTasks. rewrite (js_sort_perm by_priority).
    eapply sublist_NoDup; [apply Hwf|]. apply fmap_sublist, sublist_filter. }
  pose proof (by_priority_sorted (filter (fun t => due now t = true) (te_tasks (pl_db p)))) as Hs.
  fold (getQueuedTasks now (pl_db p)) in Hs.
  pose proof (assign_tasks_turns (getQueuedTasks now (pl_db p)) ms active (count_running active p)) as Ht.
  destruct (getQueuedTasks now (pl_db p)) as [|t ts].
  { split_and!; try done; by left. }
  destruct (assign_tasks _ _ _ _) as [vs p']. destruct Ht as (-> & H1 & H2).
  split_and!; try done. right. eexists. split; [apply count_running_counted|exact H2].
Qed.
End props.

(** ** A concrete engine *)

(** A leader whose task x1 (two retries allowed) runs on node n2. *)
Definition engine : TaskEnginePlugin :=
  mkPlugin "n1"
    (apply_all no_vm "n1" 1000
       [en_task_submit (mkTaskSubmit "x1" tt_shell "{}" None None
                          (Some (mkRetryPolicy 2 1000 2 true)) None None "n1");
        en_task_submit (mkTaskSubmit "x2" tt_shell "{}" (Some 5) None None None None "n1");
        en_task_assign "x1" "n2"; en_task_started "x1" "n2"] empty_db)
    (new_ResourceAwareScheduler None)
    ((new_RaftNode (mkRaftConfig "n1" None false None) file_missing true)
       <| state := leader |> <| currentTerm := 1 |>).

Definition x1 : TaskRecord :=
  mkTaskRecord "x1" None None tt_shell running 0 "{}" None (Some (mkRetryPolicy 2 1000 2 true))
    (Some "n2") 0 None None None 1000 (Some 1000) (Some 1000) None None.

Lemma retry_ladder_witness :
  exists t', find_task "x1" (pl_db (foldl (fail_round no_vm "x1" "boom" "n2") engine [5000; 9000; 20000]))
    = Some t' /\ t_state t' = dead_letter.
Proof.
  assert (Hl : leads engine) by (vm_compute; reflexivity).
  assert (Ht : find_task "x1" (pl_db engine) = Some x1) by (vm_compute; reflexivity).
  assert (Hm : 0 <= maxRetries (retry_policy_of x1)) by (by vm_compute).
  assert (Hd : forall j now, [5000; 9000; 20000] !! j = Some now ->
    Z.abs (now + backoff (retry_policy_of x1) (Z.of_nat j)) <= MAX_DATE).
  { intros [|[|[|j]]] now H; cbn in H; try discriminate H; injection H as <-; by vm_compute. }
  destruct (retry_ladder no_vm "x1" "boom" "n2" engine x1 [5000; 9000; 20000] Hl Ht eq_refl eq_refl Hm Hd
    ltac:(by vm_compute)) as (_ & t' & Ht' & _ & _ & Hdead).
  exists t'. split; [exact Ht'|]. apply Hdead. reflexivity.
Defined.

Lemma offline_requeues_witness :
  getTasksOnNode "n2" (apply_all no_vm "n1" 7000
    (retry_entry 7000 <$> getTasksOnNode "n2" (pl_db engine)) (pl_db engine)) = [].
Proof.
  apply (offline_requeues no_vm "n1" 7000 "n2" engine); [reflexivity|].
  apply db_wf_by_decision. vm_compute. reflexivity.
Defined.

Definition worker : NodeInfo :=
  mkNodeInfo "n2" "beta" "100.64.0.2" 50051 role_follower active None [] 0 0.

Definition x2 : TaskRecord :=
  mkTaskRecord "x2" None None tt_shell queued 5 "{}" None None None 0 None None None 1000
    None None None None.

(** The leader is deposed, and the task's node leaves, while the first of two
    assignments is appended. *)
Definition two_queued : TaskEnginePlugin :=
  engine <| pl_db := apply_all no_vm "n1" 1500
    [en_task_submit (mkTaskSubmit "x3" tt_shell "{}" (Some 3) None None None None "n1")] (pl_db engine) |>.

Definition deposed (p : TaskEnginePlugin) : TaskEnginePlugin :=
  p <| pl_raft := becomeFollower 9 (pl_raft p) |>.

Lemma scheduling_cycle_witness :
  let '(vs, p') := runSchedulingCycle 8000 [(deposed, [worker])] [worker] two_queued in
  (forall t, t ∈ v_task <$> vs <-> t ∈ te_tasks (pl_db two_queued) /\ due 8000 t = true) /\
  (fun v => (t_id (v_task v), v_success v)) <$> vs = [("x2", true); ("x3", false)].
Proof.
  assert (Hl : leads two_queued) by (vm_compute; reflexivity).
  assert (Hwf : db_wf (pl_db two_queued)) by (apply db_wf_by_decision; vm_compute; reflexivity).
  pose proof (scheduling_cycle 8000 [(deposed, [worker])] [worker] two_queued Hwf) as H.
  destruct (runSchedulingCycle _ _ _ _) as [vs p'] eqn:E. destruct H as (_ & H & _).
  split; [by apply H|]. vm_compute in E. injection E as <- _. reflexivity.
Defined.

(** Two cycles assign, and dispatch, the same task when the entry of the first is
    not yet committed. *)
Example assigned_twice :
  let '(vs, p) := runSchedulingCycle 8000 [] [worker] engine in
  let '(ws, _) := runSchedulingCycle 9000 [] [worker] p in
  (fun v => (t_id (v_task v), v_success v)) <$> vs ++ ws = [("x2", true); ("x2", true)].
Proof. vm_compute. reflexivity. Qed.
