(* ===== verification/TaskReports.v ===== *)
(** * Reports and life cycle of the task engine (src/src/plugins/task-engine/index.ts)

    The tools that only read: the result of a task, the list of workflows, the state of
    a workflow with its tasks; and [init], [start] and [stop] with the listeners and the
    interval they leave on the other components.  The tools that write are in
    TaskEngine.v.  A report keeps the record it is made of where it copies its fields. *)

From S2P Require Import Prelude JsMap JsString Raft TaskTypes Workflow TaskStateMachine TaskScheduler TaskEngine.

(** ** Tasks *)

Record TaskReport := mkTaskReport {
  tr_taskId : string;
  tr_state : TaskEngineState;
  tr_type : TaskType;
  tr_priority : Z;
  tr_assignedNode : option string;
  tr_attempt : Z;
  tr_result : option TaskResult;
  tr_error : option string;
  tr_createdAt : Z;
  tr_assignedAt : option Z;
  tr_startedAt : option Z;
  tr_completedAt : option Z
}.

Definition report_task (t : TaskRecord) : TaskReport :=
  mkTaskReport (t_id t) (t_state t) (t_type t) (t_priority t) (t_assigned_node t) (t_attempt t) (t_result t) (t_error t)
    (t_created_at t) (t_assigned_at t) (t_started_at t) (t_completed_at t).

Definition handleGetTaskResult (taskId : string) (p : TaskEnginePlugin) : string + TaskReport :=
  match getTask taskId (pl_db p) with
  | None => inl ("Task " +:+ taskId +:+ " not found")
  | Some t => inr (report_task t)
  end.

(** ** Workflows *)

Record WorkflowSummary := mkWorkflowSummary {
  ws_workflowId : string;
  ws_name : string;
  ws_state : WorkflowState;
  ws_createdAt : Z;
  ws_completedAt : option Z
}.

Definition summarize (w : WorkflowRecord) : WorkflowSummary :=
  mkWorkflowSummary (w_id w) (w_name w) (w_state w) (w_created_at w) (w_completed_at w).

Definition handleListWorkflows (st : option WorkflowState) (limit : option Z) (p : TaskEnginePlugin) :
    list WorkflowSummary * Z :=
  let workflows := listWorkflows st (Some (default 50 limit)) (pl_db p) in
  (summarize <$> workflows, js_length workflows).

Record TaskStatusEntry := mkTaskStatusEntry {
  se_state : TaskEngineState;
  se_assignedNode : option string;
  se_result : option TaskResult;
  se_error : option string
}.

Record WorkflowStatus := mkWorkflowStatus {
  wf_summary : WorkflowSummary;
  wf_tasks : jsmap TaskStatusEntry;
  wf_context : string
}.

Definition status_key (t : TaskRecord) : string := default (t_id t) (t_task_key t).
Definition status_entry (t : TaskRecord) : TaskStatusEntry :=
  mkTaskStatusEntry (t_state t) (t_assigned_node t) (t_result t) (t_error t).
Definition status_entries (l : list TaskRecord) : jsmap TaskStatusEntry :=
  foldl (fun m t => jm_set m (status_key t) (status_entry t)) [] l.

Definition handleGetWorkflowStatus (workflowId : string) (p : TaskEnginePlugin) : string + WorkflowStatus :=
  match getWorkflow workflowId (pl_db p) with
  | None => inl ("Workflow " +:+ workflowId +:+ " not found")
  | Some w => inr (mkWorkflowStatus (summarize w) (status_entries (getWorkflowTasks workflowId (pl_db p))) (w_context w))
  end.

(** ** What a workflow's report shows *)

Lemma entries_get l m k :
  jm_get (foldl (fun m t => jm_set m (status_key t) (status_entry t)) m l) k =
  match last (filter (fun t => status_key t = k) l) with
  | Some t => Some (status_entry t)
  | None => jm_get m k
  end.
Proof.
  revert m. induction l as [|t l IH]; intros m; [done|]. cbn [foldl]. rewrite IH, filter_cons.
  destruct (decide (status_key t = k)) as [Hk|Hk].
  - rewrite last_cons. destruct (last (filter _ l)); [done|]. by rewrite Hk, jm_get_set_eq.
  - destruct (last (filter _ l)); [done|]. by rewrite jm_get_set_ne.
Qed.

(** The report of a workflow has, under each key, the task of that key, and no other
    entry, when no two tasks of the workflow share one; a workflow that is not in the
    table is an error. *)
Theorem workflow_status_complete wid p :
  (forall t u, t ∈ workflow_tasks wid (pl_db p) -> u ∈ workflow_tasks wid (pl_db p) -> status_key t = status_key u -> t = u) ->
  match handleGetWorkflowStatus wid p with
  | inl e => getWorkflow wid (pl_db p) = None /\ e = "Workflow " +:+ wid +:+ " not found"
  | inr s => ws_workflowId (wf_summary s) = wid /\
      forall k e, jm_get (wf_tasks s) k = Some e <->
        exists t, t ∈ workflow_tasks wid (pl_db p) /\ status_key t = k /\ e = status_entry t
  end.
Proof.
  intros Hu. unfold handleGetWorkflowStatus. destruct (getWorkflow wid (pl_db p)) as [w|] eqn:E; [|done].
  split; [apply find_some in E as [_ H]; by apply String.eqb_eq in H|]. intros k e. cbn [wf_tasks].
  unfold status_entries. rewrite entries_get. unfold getWorkflowTasks.
  assert (Hin : forall t, t ∈ filter (fun t => status_key t = k)
      (js_sort (fun a b => t_created_at a <=? t_created_at b) (workflow_tasks wid (pl_db p))) <->
    status_key t = k /\ t ∈ workflow_tasks wid (pl_db p)) by (intros t; by rewrite list_elem_of_filter, js_sort_elem_of).
  destruct (last (filter _ _)) as [t|] eqn:El.
  - apply last_Some_elem_of in El. apply Hin in El as [Hk Ht]. split; [intros [= <-]; by exists t|].
    intros (u & Hu' & Hk' & ->). by rewrite (Hu t u Ht Hu' ltac:(congruence)).
  - apply last_None in El. split; [done|]. intros (u & Hu' & Hk' & _). exfalso.
    assert (u ∈ []) as []%elem_of_nil by (rewrite <- El; by apply Hin).
Qed.

(** ** The filters of the list of tasks *)

Definition plain (id node : string) (created : Z) : TaskRecord :=
  mkTaskRecord id None None tt_shell running 0 "{}" None None (Some node) 0 None None None created None None None None.

(** The node is filtered after the limit: with the tasks of another node in front, the
    tool finds nothing on a node that runs a task. *)
Example filter_after_limit : forall s raft,
  let db := mkTaskDb [plain "t1" "alpha" 1; plain "t2" "alpha" 2; plain "t3" "beta" 3] [] [] [] in
  let p := mkPlugin "alpha" db s raft in
  handleListTasks None (Some 2) None None (Some "beta") p = [] /\
  t_id <$> getTasksOnNode "beta" db = ["t3"].
Proof. by vm_compute. Qed.

(** ** Life cycle *)

(** The plugin's handles, and the listeners on the Raft node and on the membership
    manager, by the object that registered them. *)
Record Hooks := mkHooks {
  scheduleInterval : bool;
  entryCommittedHandler : option nat;
  nodeOfflineHandler : option nat;
  raft_listeners : list nat;
  membership_listeners : list nat;
  intervals : nat
}.

(** [init] makes two closures; [fresh] identifies them. *)
Definition init (fresh : nat) (h : Hooks) : Hooks :=
  mkHooks (scheduleInterval h) (Some fresh) (Some fresh) (raft_listeners h ++ [fresh]) (membership_listeners h ++ [fresh])
    (intervals h).

Definition start (h : Hooks) : Hooks :=
  mkHooks true (entryCommittedHandler h) (nodeOfflineHandler h) (raft_listeners h) (membership_listeners h) (S (intervals h)).

(** [removeListener] removes one registration of the closure. *)
Fixpoint remove_one (x : nat) (l : list nat) : list nat :=
  match l with
  | [] => []
  | y :: l => if (x =? y)%nat then l else y :: remove_one x l
  end.

Definition unhook (handler : option nat) (l : list nat) : list nat :=
  match handler with Some x => remove_one x l | None => l end.

Definition stop (h : Hooks) : Hooks :=
  mkHooks false None None (unhook (entryCommittedHandler h) (raft_listeners h))
    (unhook (nodeOfflineHandler h) (membership_listeners h))
    (if scheduleInterval h then pred (intervals h) else intervals h).

Lemma remove_one_app x l : x ∉ l -> remove_one x (l ++ [x]) = l.
Proof.
  induction l as [|y l IH]; cbn; [by rewrite Nat.eqb_refl|]. intros [Hne Hl]%not_elem_of_cons.
  rewrite (proj2 (Nat.eqb_neq _ _) Hne). by rewrite IH.
Qed.

(** A plugin that is loaded, started and stopped leaves the listeners and the intervals
    of the program as it found them, also when it is stopped twice. *)
Theorem plugin_cleans_up fresh h : scheduleInterval h = false ->
  fresh ∉ raft_listeners h -> fresh ∉ membership_listeners h ->
  let h' := stop (start (init fresh h)) in
  raft_listeners h' = raft_listeners h /\ membership_listeners h' = membership_listeners h /\
  intervals h' = intervals h /\ stop h' = h'.
Proof. intros Hs Hr Hm. cbn. by rewrite !remove_one_app. Qed.

Lemma plugin_cleans_up_witness :
  raft_listeners (stop (start (init 7 (mkHooks false None None [1%nat] [1%nat; 2%nat] 3)))) = [1%nat].
Proof.
  refine (proj1 (plugin_cleans_up 7 (mkHooks false None None [1%nat] [1%nat; 2%nat] 3) eq_refl _ _)); cbn; set_solver.
Defined.
