(* ===== verification/Kubernetes.v ===== *)
(** * The Kubernetes adapter (src/src/kubernetes/adapter.ts)

    The client library is an interface: configurations with their contexts, clusters and
    users, and the calls of the API groups, each of which may throw.  What the adapter
    makes of the answers is modelled whole: discovery, the sums over the nodes, the body
    of a job, the quantities and the kind of a cluster.

    The theorems are about quantities: those with the suffixes the code knows are read
    exactly; the examples are quantities that Kubernetes writes and the code misreads. *)

From S2P Require Import Prelude JsMap JsString JsNumber Json.
From Stdlib Require Import Ascii QArith DecimalString.
#[local] Open Scope Z_scope.

(** ** Quantities *)

(** [parseFloat]: the longest prefix that is a decimal literal. *)
Fixpoint float_prefix (n : nat) (s : string) : number :=
  match decimal_literal (String.substring 0 n s) with
  | nan => match n with O => nan | S n' => float_prefix n' s end
  | x => x
  end.
Definition js_parseFloat (s : string) : number :=
  match js_trimStart s with
  | String "-" t => signed true (float_prefix (String.length t) t)
  | t => float_prefix (String.length t) t
  end.

(** [x || 0]. *)
Definition or_zero (x : number) : number := match x with nan => fin 0 | _ => x end.

Definition number_of (o : option Z) : number := match o with Some z => fin (inject_Z z) | None => nan end.

Definition parseCpu (cpu : string) : number :=
  if js_endsWith cpu "m" then num_scale (1 # 1000) (number_of (parseInt (js_slice_str cpu 0 (-1))))
  else or_zero (js_parseFloat cpu).

Definition units : list (string * Z) :=
  [("Ki", 1024); ("Mi", 1024 ^ 2); ("Gi", 1024 ^ 3); ("Ti", 1024 ^ 4); ("K", 1000); ("M", 1000 ^ 2); ("G", 1000 ^ 3); ("T", 1000 ^ 4)].

Fixpoint with_unit (l : list (string * Z)) (memory : string) : number :=
  match l with
  | [] => or_zero (number_of (parseInt memory))
  | (suffix, multiplier) :: l =>
      if js_endsWith memory suffix
      then num_scale (inject_Z multiplier) (number_of (parseInt (js_slice_str memory 0 (- js_str_length suffix))))
      else with_unit l memory
  end.
Definition parseMemory (memory : string) : number := with_unit units memory.

(** ** Reading the quantities *)

Definition bad_start (s : string) : Prop := exists c t, s = String c t /\ is_digit c = false.

Lemma uint_bad u s : bad_start s -> NilEmpty.uint_of_string (NilEmpty.string_of_uint u +:+ s) = None.
Proof.
  intros (c & t & -> & Hc). induction u; cbn [NilEmpty.string_of_uint]; rewrite ?str_app_nil, ?str_app_cons;
    cbn [NilEmpty.uint_of_string]; rewrite ?IHu; [|done..].
  revert Hc. clear. destruct (NilEmpty.uint_of_string t) as [d|]; [|done].
  destruct c as [[] [] [] [] [] [] [] []]; vm_compute; done.
Qed.

Lemma substring_past a t n : String.substring 0 (String.length a + n) (a +:+ t) = a +:+ String.substring 0 n t.
Proof.
  induction a as [|c a IH]; [done|]. rewrite str_app_cons. cbn [String.length Nat.add String.substring].
  by rewrite IH, str_app_cons.
Qed.

Lemma uint_text_int u s : u <> Decimal.Nil ->
  NilZero.int_of_string (NilEmpty.string_of_uint u +:+ s) =
  Decimal.Pos <$> NilEmpty.uint_of_string (NilEmpty.string_of_uint u +:+ s).
Proof. destruct u; [done|..]; intros _; cbn [NilEmpty.string_of_uint]; by rewrite str_app_cons. Qed.

Lemma int_prefix_app u t k : u <> Decimal.Nil -> (bad_start t \/ t = "") -> (k <= String.length t)%nat ->
  int_prefix (String.length (NilEmpty.string_of_uint u) + k) (NilEmpty.string_of_uint u +:+ t) = Some (Z.of_uint u).
Proof.
  intros Hu Ht. induction k as [|k IH]; intros Hk.
  - set (a := NilEmpty.string_of_uint u). rewrite Nat.add_0_r.
    assert (Hs : NilZero.int_of_string (String.substring 0 (String.length a) (a +:+ t)) = Some (Decimal.Pos u)).
    { rewrite substring_app_l, <- (str_app_nil_r a). unfold a. rewrite uint_text_int by done.
      by rewrite str_app_nil_r, NilEmpty.usu. }
    destruct (String.length a); cbn [int_prefix]; by rewrite Hs.
  - rewrite <- plus_n_Sm. cbn [int_prefix]. rewrite plus_n_Sm, substring_past, uint_text_int by done.
    destruct Ht as [(c & s & -> & Hc)| ->]; [|cbn in Hk; lia].
    cbn [String.substring]. rewrite uint_bad by (by exists c, (String.substring 0 k s)). cbn. apply IH. cbn in *. lia.
Qed.

(** [parseInt] reads a natural number that something other than a digit follows. *)
Lemma parseInt_prefix z t : 0 <= z -> bad_start t \/ t = "" -> parseInt (js_toString z +:+ t) = Some z.
Proof.
  intros Hz Ht. destruct (nonneg_text z Hz) as (u & Hu & -> & <-). unfold parseInt.
  replace (js_trimStart (NilEmpty.string_of_uint u +:+ t)) with (NilEmpty.string_of_uint u +:+ t).
  - rewrite str_length_app. by apply int_prefix_app.
  - destruct u; [done|..]; cbn [NilEmpty.string_of_uint]; by rewrite str_app_cons.
Qed.

Lemma slice_suffix_off k s : s <> "" -> js_slice_str (k +:+ s) 0 (- js_str_length s) = k.
Proof.
  intros Hs. assert (0 < js_str_length s) by (unfold js_str_length; destruct s; [done|cbn; lia]).
  unfold js_slice_str, js_clamp. rewrite (proj2 (Z.ltb_lt (- js_str_length s) 0)) by lia.
  change (0 <? 0) with false. cbv iota. unfold js_str_length in *. rewrite str_length_app.
  rewrite Z.min_l, Z.max_r by lia.
  match goal with |- String.substring _ ?n _ = _ => replace n with (String.length k) by lia end.
  apply substring_app_l.
Qed.

Lemma last_char_inj a b c d : a +:+ String c "" = b +:+ String d "" -> c = d.
Proof.
  revert b. induction a as [|x a IH]; intros [|y b]; rewrite ?str_app_nil, ?str_app_cons; intros H; injection H.
  - done.
  - intros Hb _. destruct b; rewrite ?str_app_nil, ?str_app_cons in Hb; done.
  - intros Ha _. destruct a; rewrite ?str_app_nil, ?str_app_cons in Ha; done.
  - intros Ha _. by apply IH in Ha.
Qed.

Lemma endsWith_other a c k d : c <> d -> js_endsWith (a +:+ String c "") (k +:+ String d "") = false.
Proof.
  intros Hc. apply not_true_iff_false. intros [x Hx]%endsWith_app. rewrite <- str_app_assoc in Hx.
  by apply last_char_inj in Hx.
Qed.

Lemma endsWith_unit a c d : c <> d -> js_endsWith (a +:+ String c "i") (String d "i") = false.
Proof.
  intros Hc. apply not_true_iff_false. intros [x Hx]%endsWith_app.
  assert (H : (a +:+ String c "") +:+ "i" = (x +:+ String d "") +:+ "i") by (by rewrite !str_app_assoc).
  apply str_app_tail, last_char_inj in H. done.
Qed.

Lemma digits_end u : u <> Decimal.Nil -> exists a c, NilEmpty.string_of_uint u = a +:+ String c "" /\ is_digit c = true.
Proof.
  induction u; [done|..]; intros _; cbn [NilEmpty.string_of_uint]; assert (u = Decimal.Nil \/ u <> Decimal.Nil) as [->|Hu] by (destruct u; auto);
    try (eexists "", _; split; reflexivity); destruct (IHu Hu) as (a & c & -> & Hc);
    eexists (String _ a), c; (split; [by rewrite str_app_cons|done]).
Qed.

Lemma plain_no_suffix z k d : 0 <= z -> is_digit d = false -> js_endsWith (js_toString z) (k +:+ String d "") = false.
Proof.
  intros Hz Hd. destruct (nonneg_text z Hz) as (u & Hu & -> & _). destruct (digits_end u Hu) as (a & c & -> & Hc).
  apply endsWith_other. congruence.
Qed.

Lemma with_unit_suffix l z suffix m : 0 <= z -> suffix <> "" -> bad_start suffix ->
  Forall (fun u => js_endsWith (js_toString z +:+ suffix) u.1 = false) l ->
  forall rest, with_unit (l ++ (suffix, m) :: rest) (js_toString z +:+ suffix) = fin (inject_Z z * inject_Z m).
Proof.
  intros Hz Hs Hb Hl rest. induction Hl as [|[s n] l Hn Hl IH]; cbn [app with_unit].
  - rewrite (proj2 (endsWith_app _ _)) by (by exists (js_toString z)). rewrite slice_suffix_off by done.
    rewrite parseInt_toString. done.
  - cbn [fst] in Hn. by rewrite Hn.
Qed.

(** A natural number of bytes, or of any unit the table has, is read exactly; and so are
    whole and thousandth processors. *)
Theorem quantities_read z : 0 <= z ->
  parseMemory (js_toString z) = fin (inject_Z z) /\
  (forall suffix m, (suffix, m) ∈ units -> parseMemory (js_toString z +:+ suffix) = fin (inject_Z z * inject_Z m)) /\
  parseCpu (js_toString z +:+ "m") = fin (inject_Z z * (1 # 1000)).
Proof.
  intros Hz. split_and!.
  - unfold parseMemory, units. cbn [with_unit].
    assert (Hno : forall k d, is_digit d = false -> js_endsWith (js_toString z) (k +:+ String d "") = false)
      by (intros; by apply plain_no_suffix).
    rewrite (Hno "K" "i"%char eq_refl : js_endsWith (js_toString z) "Ki" = false),
      (Hno "M" "i"%char eq_refl : js_endsWith (js_toString z) "Mi" = false),
      (Hno "G" "i"%char eq_refl : js_endsWith (js_toString z) "Gi" = false),
      (Hno "T" "i"%char eq_refl : js_endsWith (js_toString z) "Ti" = false),
      (Hno "" "K"%char eq_refl : js_endsWith (js_toString z) "K" = false),
      (Hno "" "M"%char eq_refl : js_endsWith (js_toString z) "M" = false),
      (Hno "" "G"%char eq_refl : js_endsWith (js_toString z) "G" = false),
      (Hno "" "T"%char eq_refl : js_endsWith (js_toString z) "T" = false).
    by rewrite parseInt_toString.
  - intros suffix m [k Hk]%list_elem_of_lookup_1. unfold parseMemory.
    destruct k as [|[|[|[|[|[|[|[|k]]]]]]]]; [injection Hk as <- <-..|done].
    1: apply (with_unit_suffix []).
    5: apply (with_unit_suffix (take 1 units)).
    9: apply (with_unit_suffix (take 2 units)).
    13: apply (with_unit_suffix (take 3 units)).
    17: apply (with_unit_suffix (take 4 units)).
    21: apply (with_unit_suffix (take 5 units)).
    25: apply (with_unit_suffix (take 6 units)).
    29: apply (with_unit_suffix (take 7 units)).
    all: try done; try (by eexists _, _); repeat constructor; cbn [fst];
      first [by apply endsWith_unit|by apply (endsWith_other _ _ "K")|by apply (endsWith_other _ _ "M")
            |by apply (endsWith_other _ _ "G")|by apply (endsWith_other _ _ "T")|by apply (endsWith_other _ _ "")].
  - unfold parseCpu. rewrite (proj2 (endsWith_app _ _)) by (by exists (js_toString z)).
    rewrite slice_drop_last, parseInt_toString. done.
Qed.

Lemma quantities_read_witness :
  parseMemory "16Gi" = fin (inject_Z 16 * inject_Z (1024 ^ 3)) /\ parseCpu "3920m" = fin (inject_Z 3920 * (1 # 1000)).
Proof.
  destruct (quantities_read 16 ltac:(lia)) as (_ & Hm & _). destruct (quantities_read 3920 ltac:(lia)) as (_ & _ & Hc).
  split; [apply (Hm "Gi"); by do 2 right; left|exact Hc].
Defined.

(** Quantities of Kubernetes that the table does not have: fractions, the larger units,
    the decimal kilo and exponents. *)
Example misread_quantities :
  parseMemory "1.5Gi" = parseMemory "1Gi" /\ parseMemory "2Pi" = parseMemory "2" /\
  parseMemory "100k" = parseMemory "100" /\ parseMemory "129e6" = parseMemory "129" /\
  parseMemory "Ki" = nan.
Proof. by vm_compute. Qed.

(** ** Data *)

Inductive ClusterType := ct_gke | ct_k8s | ct_k3s | ct_unknown.

Record K8sNode := mkK8sNode {
  kn_name : string;
  kn_ready : bool;
  kn_cpuCapacity : number;
  kn_memoryCapacity : number;
  kn_cpuAllocatable : number;
  kn_memoryAllocatable : number;
  kn_hasGpu : bool;
  kn_gpuCount : number;
  kn_labels : jsmap string
}.

Record K8sCluster := mkK8sCluster {
  kc_name : string;
  kc_type : ClusterType;
  kc_context : string;
  kc_server : string;
  kc_nodes : list K8sNode;
  kc_totalCpu : number;
  kc_totalMemory : number;
  kc_gpuNodes : Z
}.

Record K8sResources := mkK8sResources {
  kr_totalCpu : number;
  kr_totalMemory : number;
  kr_allocatableCpu : number;
  kr_allocatableMemory : number;
  kr_gpuCount : number;
  kr_runningPods : Z
}.

Record K8sJobSpec := mkK8sJobSpec {
  js_name : string;
  js_namespace : option string;
  js_image : string;
  js_command : option (list string);
  js_args : option (list string);
  js_env : option (jsmap string);
  js_cpuRequest : option string;
  js_memoryRequest : option string;
  js_cpuLimit : option string;
  js_memoryLimit : option string;
  js_gpuLimit : option Z;
  js_labels : option (jsmap string);
  js_annotations : option (jsmap string);
  js_ttlSecondsAfterFinished : option Z;
  js_backoffLimit : option Z
}.

(** The body of a job, with its one container. *)
Record V1Job := mkV1Job {
  vj_name : string;
  vj_namespace : string;
  vj_labels : jsmap string;
  vj_annotations : option (jsmap string);
  vj_ttlSecondsAfterFinished : Z;
  vj_backoffLimit : Z;
  vj_image : string;
  vj_command : option (list string);
  vj_args : option (list string);
  vj_env : option (list (string * string));
  vj_requests : jsmap string;
  vj_limits : jsmap string
}.

Record Condition := mkCondition { cd_type : string; cd_status : string; cd_reason : option string; cd_message : option string }.

(** What the adapter reads of the objects of the API. *)
Record V1Node := mkV1Node {
  vn_name : option string;
  vn_capacity : option (jsmap string);
  vn_allocatable : option (jsmap string);
  vn_conditions : option (list Condition);
  vn_labels : option (jsmap string)
}.
Record V1JobStatus := mkV1JobStatus {
  vs_name : option string;
  vs_namespace : option string;
  vs_active : option Z;
  vs_succeeded : option Z;
  vs_failed : option Z;
  vs_startTime : option Z;
  vs_completionTime : option Z;
  vs_conditions : option (list Condition)
}.
Record K8sJobStatus := mkK8sJobStatus {
  kj_name : string;
  kj_namespace : string;
  kj_active : Z;
  kj_succeeded : Z;
  kj_failed : Z;
  kj_startTime : option Z;
  kj_completionTime : option Z;
  kj_conditions : list Condition
}.

(** ** The client library *)

Class KubeApi (KC W : Type) := {
  loadConfig : option string -> option KC;                          (* a path or the default; may throw *)
  getContexts : KC -> list string;
  contextOf : KC -> string -> option (string * option string);      (* its cluster and its user *)
  serverOf : KC -> string -> option string;                         (* the server of a cluster, when it exists *)
  fromClusterAndUser : KC -> string -> option string -> string -> KC;  (* then setCurrentContext *)
  listNode : KC -> W -> W * option (list V1Node);
  podPhases : KC -> W -> W * option (list string);
  createJob : KC -> string -> V1Job -> W -> W * (string + option string);
  readJob : KC -> string -> string -> W -> W * option V1JobStatus;
  podsOfJob : KC -> string -> string -> W -> W * option (list (option string));
  readLog : KC -> string -> string -> W -> W * option string;
  removeJob : KC -> string -> string -> W -> W * bool;
  patchScale : KC -> string -> string -> Z -> W -> W * bool
}.

Section adapter.
Context {KC W : Type} `{!KubeApi KC W}.
Implicit Types (w : W) (kc : KC).

Record KubernetesAdapter := mkKubernetesAdapter {
  kubeconfigPath : option string;
  kubeconfigs : jsmap KC;
  discoveredClusters : jsmap K8sCluster
}.
#[export] Instance KubernetesAdapter_eta : EtaRecord KubernetesAdapter := fun a =>
  mkKubernetesAdapter (kubeconfigPath a) (kubeconfigs a) (discoveredClusters a).

Definition num_sum (l : list number) : number := foldl num_add (fin 0) l.
Definition quantity (m : jsmap string) (k : string) : string := default "0" (jm_get m k).
Definition gpu_key : string := "nvidia.com/gpu".

(** ** Discovery *)

Definition read_node (node : V1Node) : K8sNode :=
  let capacity := default [] (vn_capacity node) in
  let allocatable := default [] (vn_allocatable node) in
  mkK8sNode (default "unknown" (vn_name node))
    (existsb (fun c => String.eqb (cd_type c) "Ready" && String.eqb (cd_status c) "True") (default [] (vn_conditions node)))
    (parseCpu (quantity capacity "cpu")) (parseMemory (quantity capacity "memory"))
    (parseCpu (quantity allocatable "cpu")) (parseMemory (quantity allocatable "memory"))
    (truthy_opt (jm_get capacity gpu_key)) (number_of (parseInt (quantity capacity gpu_key)))
    (default [] (vn_labels node)).

Definition detectClusterType (context server : string) (nodes : list K8sNode) : ClusterType :=
  if js_includes server ".gke." || js_includes server "container.googleapis.com" then ct_gke
  else
    let hasK3sLabel := existsb (fun n =>
      match jm_get (kn_labels n) "node.kubernetes.io/instance-type" with
      | Some t => js_includes t "k3s"
      | None => false
      end || jm_has (kn_labels n) "k3s.io/hostname") nodes in
    if hasK3sLabel || js_includes (js_toLowerCase context) "k3s" then ct_k3s
    else if 0 <? js_length nodes then ct_k8s else ct_unknown.

(** [createContextConfig], or the exception it throws. *)
Definition createContextConfig kc (contextName : string) : string + KC :=
  match contextOf kc contextName with
  | None => inl ("Context not found: " +:+ contextName)
  | Some (cluster, user) =>
      match serverOf kc cluster with
      | None => inl ("Cluster not found for context: " +:+ contextName)
      | Some _ => inr (fromClusterAndUser kc cluster user contextName)
      end
  end.

Definition cluster_of kc (contextName : string) (nodes : list K8sNode) : K8sCluster :=
  let server := default "" ('(c, _) ← contextOf kc contextName; serverOf kc c) in
  mkK8sCluster contextName (detectClusterType contextName server nodes) contextName server nodes
    (num_sum (kn_cpuCapacity <$> nodes)) (num_sum (kn_memoryCapacity <$> nodes))
    (js_length (keep kn_hasGpu nodes)).

(** [None] is an exception. *)
Definition probeCluster kc (contextName : string) w : W * option K8sCluster :=
  match createContextConfig kc contextName with
  | inl _ => (w, None)
  | inr ckc => let '(w, nodes) := listNode ckc w in (w, (fun l => cluster_of kc contextName (read_node <$> l)) <$> nodes)
  end.

(** One turn of the loop over the contexts. *)
Definition discover_one kc (st : W * KubernetesAdapter * list K8sCluster) (contextName : string) :
    W * KubernetesAdapter * list K8sCluster :=
  let '(w, a, clusters) := st in
  match probeCluster kc contextName w with
  | (w, None) => (w, a, clusters)
  | (w, Some cluster) =>
      let clusters := clusters ++ [cluster] in
      let a := a <| discoveredClusters ::= fun m => jm_set m contextName cluster |> in
      match createContextConfig kc contextName with
      | inl _ => (w, a, clusters)
      | inr ckc => (w, a <| kubeconfigs ::= fun m => jm_set m contextName ckc |>, clusters)
      end
  end.

Definition discoverClusters w (a : KubernetesAdapter) : W * KubernetesAdapter * list K8sCluster :=
  match loadConfig (match kubeconfigPath a with Some p => if truthy_str p then Some p else None | None => None end) with
  | None => (w, a, [])
  | Some kc => foldl (discover_one kc) (w, a, []) (getContexts kc)
  end.

(** ** The calls *)

Definition getClusterResources (context : string) w (a : KubernetesAdapter) : W * option K8sResources :=
  match jm_get (kubeconfigs a) context with
  | None => (w, None)
  | Some kc =>
      match listNode kc w with
      | (w, None) => (w, None)
      | (w, Some nodes) =>
          let ns := read_node <$> nodes in
          match podPhases kc w with
          | (w, None) => (w, None)
          | (w, Some phases) =>
              (w, Some (mkK8sResources (num_sum (kn_cpuCapacity <$> ns)) (num_sum (kn_memoryCapacity <$> ns))
                          (num_sum (kn_cpuAllocatable <$> ns)) (num_sum (kn_memoryAllocatable <$> ns))
                          (num_sum (kn_gpuCount <$> ns)) (js_length (keep (String.eqb "Running") phases))))
          end
      end
  end.

(** [...(text && { key: text })]. *)
Definition given_entry (k : string) (o : option string) : jsmap string :=
  match o with Some t => if truthy_str t then [(k, t)] else [] | None => [] end.

(** [{ ...a, ...b }]. *)
Definition spread (a b : jsmap string) : jsmap string := foldl (fun m kv => jm_set m kv.1 kv.2) a b.

Definition job_of (spec : K8sJobSpec) : V1Job :=
  mkV1Job (js_name spec) (default "default" (js_namespace spec))
    (spread [("app.kubernetes.io/managed-by", "cortex")] (default [] (js_labels spec)))
    (js_annotations spec) (default 3600 (js_ttlSecondsAfterFinished spec)) (default 3 (js_backoffLimit spec))
    (js_image spec) (js_command spec) (js_args spec) (js_env spec)
    (given_entry "cpu" (js_cpuRequest spec) ++ given_entry "memory" (js_memoryRequest spec))
    (given_entry "cpu" (js_cpuLimit spec) ++ given_entry "memory" (js_memoryLimit spec) ++
     match js_gpuLimit spec with
     | Some n => if n =? 0 then [] else [(gpu_key, js_toString n)]
     | None => []
     end).

Definition submitJob (context : string) (spec : K8sJobSpec) w (a : KubernetesAdapter) : W * (string + string) :=
  match jm_get (kubeconfigs a) context with
  | None => (w, inl ("Unknown cluster context: " +:+ context))
  | Some kc =>
      match createJob kc (default "default" (js_namespace spec)) (job_of spec) w with
      | (w, inl e) => (w, inl e)
      | (w, inr created) => (w, inr (default (js_name spec) created))
      end
  end.

Definition getJobStatus (context name : string) (namespace : option string) w (a : KubernetesAdapter) :
    W * option K8sJobStatus :=
  let namespace := default "default" namespace in
  match jm_get (kubeconfigs a) context with
  | None => (w, None)
  | Some kc =>
      let '(w, job) := readJob kc name namespace w in
      (w, (fun j => mkK8sJobStatus (default name (vs_name j)) (default namespace (vs_namespace j)) (default 0 (vs_active j))
             (default 0 (vs_succeeded j)) (default 0 (vs_failed j)) (vs_startTime j) (vs_completionTime j)
             (default [] (vs_conditions j))) <$> job)
  end.

Definition getJobLogs (context name : string) (namespace : option string) w (a : KubernetesAdapter) : W * option string :=
  let namespace := default "default" namespace in
  match jm_get (kubeconfigs a) context with
  | None => (w, None)
  | Some kc =>
      match podsOfJob kc namespace ("job-name=" +:+ name) w with
      | (w, Some (Some pod :: _)) => if truthy_str pod then readLog kc pod namespace w else (w, None)
      | (w, _) => (w, None)
      end
  end.

Definition deleteJob (context name : string) (namespace : option string) w (a : KubernetesAdapter) : W * bool :=
  match jm_get (kubeconfigs a) context with
  | None => (w, false)
  | Some kc => removeJob kc name (default "default" namespace) w
  end.

Definition scaleDeployment (context name : string) (replicas : Z) (namespace : option string) w (a : KubernetesAdapter) :
    W * bool :=
  match jm_get (kubeconfigs a) context with
  | None => (w, false)
  | Some kc => patchScale kc name (default "default" namespace) replicas w
  end.

Definition getCluster (context : string) (a : KubernetesAdapter) : option K8sCluster := jm_get (discoveredClusters a) context.
Definition listClusters (a : KubernetesAdapter) : list K8sCluster := jm_values (discoveredClusters a).

(** ** What discovery leaves *)

(** The two tables have the same contexts, each with a configuration of its own and the
    cluster of that name. *)
Record adapter_ok (a : KubernetesAdapter) : Prop := {
  ao_keys c : jm_has (kubeconfigs a) c = jm_has (discoveredClusters a) c;
  ao_names c k : jm_get (discoveredClusters a) c = Some k -> kc_context k = c /\ kc_name k = c;
  ao_wf : jm_wf (discoveredClusters a)
}.

Lemma jm_has_set {V} (m : jsmap V) k v c : jm_has (jm_set m k v) c = bool_decide (k = c) || jm_has m c.
Proof.
  apply eq_bool_prop_intro. rewrite !Is_true_true. rewrite orb_true_iff, bool_decide_eq_true, !jm_has_keys, jm_keys_set.
  destruct (jm_has m k) eqn:E.
  - apply jm_has_keys in E. naive_solver.
  - rewrite elem_of_app, list_elem_of_singleton. naive_solver.
Qed.

Lemma discover_one_ok kc w a l c : adapter_ok a ->
  let '(_, a', l') := discover_one kc (w, a, l) c in
  adapter_ok a' /\ (l' = l \/ exists k, l' = l ++ [k] /\ getCluster c a' = Some k /\ kc_context k = c).
Proof.
  intros [Hk Hn Hw]. cbn. unfold probeCluster. destruct (createContextConfig kc c) as [e|ckc]; [by split; [|left]|].
  destruct (listNode ckc w) as [w1 [nodes|]]; cbn; [|by split; [|left]]. split.
  - constructor; cbn.
    + intros d. by rewrite !jm_has_set, Hk.
    + intros d k. rewrite jm_get_set. case_decide; [|apply Hn]. subst d. by intros [= <-].
    + by apply jm_wf_set.
  - right. eexists. split; [done|]. unfold getCluster. cbn. by rewrite jm_get_set_eq.
Qed.

(** Discovery fills both tables for exactly the contexts it returns a cluster of, and
    keeps what earlier runs found; so every cluster that is listed can be used. *)
Theorem discovery_consistent w a : adapter_ok a ->
  let '(_, a', found) := discoverClusters w a in
  adapter_ok a' /\ (forall k, k ∈ found -> is_Some (getCluster (kc_context k) a') /\ is_Some (jm_get (kubeconfigs a') (kc_context k))).
Proof.
  intros Hok. unfold discoverClusters. destruct (loadConfig _) as [kc|]; [|by split; [|intros k []%elem_of_nil]].
  set (P := fun st : W * KubernetesAdapter * list K8sCluster => let '(_, a', found) := st in
    adapter_ok a' /\ forall k, k ∈ found -> jm_has (discoveredClusters a') (kc_context k) = true).
  assert (HP : forall l st, P st -> P (foldl (discover_one kc) st l)).
  { induction l as [|c l IH]; intros st Hst; [done|]. cbn [foldl]. apply IH. destruct st as [[w1 a1] l1].
    destruct Hst as [H1 H2]. pose proof (discover_one_ok kc w1 a1 l1 c H1) as H.
    assert (Hmono : forall d, jm_has (discoveredClusters a1) d = true ->
      jm_has (discoveredClusters (discover_one kc (w1, a1, l1) c).1.2) d = true).
    { intros d Hd. cbn. unfold probeCluster. destruct (createContextConfig kc c) as [e|ckc]; [done|].
      destruct (listNode ckc w1) as [w2 [nodes|]]; cbn; [|done]. by rewrite jm_has_set, Hd, orb_true_r. }
    destruct (discover_one kc (w1, a1, l1) c) as [[w2 a2] l2]. cbn in Hmono. destruct H as [Hok2 Hl]. split; [done|].
    destruct Hl as [->|(k & -> & Hg & Hc)]; [by eauto|].
    intros k' [Hk'|Hk']%elem_of_app; [by eauto|]. apply list_elem_of_singleton in Hk' as ->. rewrite Hc.
    by apply jm_get_has in Hg. }
  specialize (HP (getContexts kc) (w, a, [])). destruct (foldl _ _ _) as [[w' a'] found].
  destruct HP as [H1 H2]; [split; [done|by intros k []%elem_of_nil]|]. split; [done|]. intros k Hk.
  specialize (H2 k Hk). split; apply jm_has_true; [done|]. by rewrite (ao_keys _ H1).
Qed.
End adapter.

(** ** A cluster in memory *)

Definition lab_node : V1Node :=
  mkV1Node (Some "n1") (Some [("cpu", "4"); ("memory", "16Gi"); ("nvidia.com/gpu", "1")]) (Some [("cpu", "3920m")])
    (Some [mkCondition "Ready" "True" None None]) (Some [("k3s.io/hostname", "n1")]).

(** Two contexts, of which the second has no cluster. *)
#[local] Instance lab_api : KubeApi string () := {|
  loadConfig _ := Some "file";
  getContexts _ := ["home"; "gone"];
  contextOf _ c := Some (c +:+ "-cluster", None);
  serverOf _ c := if String.eqb c "home-cluster" then Some "https://10.0.0.1:6443" else None;
  fromClusterAndUser _ cluster _ context := context;
  listNode _ w := (w, Some [lab_node]);
  podPhases _ w := (w, Some ["Running"; "Pending"]);
  createJob _ _ job w := (w, inr (Some (vj_name job)));
  readJob _ _ _ w := (w, None);
  podsOfJob _ _ _ w := (w, None);
  readLog _ _ _ w := (w, None);
  removeJob _ _ _ w := (w, true);
  patchScale _ _ _ _ w := (w, true)
|}.

Definition fresh_adapter : KubernetesAdapter (KC := string) := mkKubernetesAdapter None [] [].
Lemma fresh_adapter_ok : adapter_ok fresh_adapter.
Proof. by constructor; [|intros c k [=]|apply jm_wf_nil]. Qed.

Lemma discovery_consistent_witness :
  let found := (discoverClusters () fresh_adapter).2 in
  (kc_name <$> found = ["home"] /\ kc_type <$> found = [ct_k3s] /\ kc_gpuNodes <$> found = [1]) /\
  is_Some (getCluster "home" (discoverClusters () fresh_adapter).1.2).
Proof.
  split; [by vm_compute|].
  pose proof (discovery_consistent () fresh_adapter fresh_adapter_ok) as H.
  destruct (discoverClusters () fresh_adapter) as [[w a] found] eqn:E. destruct H as [_ H].
  vm_compute in E. injection E as _ <- <-. exact (proj1 (H _ ltac:(by left))).
Defined.

(** The label that marks a job as the cluster's own gives way to one of the caller. *)
Example managed_by_is_overridden :
  vj_labels (job_of (mkK8sJobSpec "j" None "busybox" None None None None None None None (Some 0)
    (Some [("app.kubernetes.io/managed-by", "me")]) None None None)) = [("app.kubernetes.io/managed-by", "me")].
Proof. by vm_compute. Qed.
