(* ===== verification/Chunker.v ===== *)
(** * Splitting messages (src/src/messaging/format.ts, smartChunk)

    A string is the list of its UTF-16 code units, so lengths and indices are
    those of JavaScript.  [maxLength * 0.75] and [maxLength / 2] are compared with
    integers; the comparisons are multiplied out. *)

From S2P Require Import Prelude.

Module Chunker.
Definition text := list Z.
Definition nl : Z := 10.

Definition is_nl (c : Z) : bool := c =? nl.

(** [pat] occurs in [s] at index 0. *)
Fixpoint starts_with (pat s : text) : bool :=
  match pat, s with
  | [], _ => true
  | p :: pat, c :: s => (p =? c) && starts_with pat s
  | _ :: _, [] => false
  end.

(** [s.lastIndexOf(pat, i)]: the highest index up to [i] where [pat] occurs, or
    -1. *)
Fixpoint lastIndexOf (s pat : text) (i : nat) : Z :=
  if starts_with pat (drop i s) then Z.of_nat i
  else match i with O => -1 | S i => lastIndexOf s pat i end.

(** [s.split('\n\n')], with the characters of the current piece in [cur]. *)
Fixpoint split_paragraphs (cur s : text) : list text :=
  match s with
  | [] => [cur]
  | a :: s' =>
      match s' with
      | b :: s'' =>
          if is_nl a && is_nl b then cur :: split_paragraphs [] s''
          else split_paragraphs (cur ++ [a]) s'
      | [] => [cur ++ [a]]
      end
  end.

(** [s.includes('\n\n')]. *)
Fixpoint has_paragraph (s : text) : bool :=
  starts_with [nl; nl] s || match s with [] => false | _ :: s' => has_paragraph s' end.

(** [s.replace(/^\n+/, '')]. *)
Fixpoint trim_newlines (s : text) : text :=
  match s with
  | c :: s' => if is_nl c then trim_newlines s' else s
  | [] => []
  end.

(** Where one round of the loop cuts a text longer than [maxLength]. *)
Definition splitAt (remaining : text) (maxLength : Z) : Z :=
  let i := lastIndexOf remaining [nl; nl] (Z.to_nat maxLength) in
  let i := if 2 * i <? maxLength then lastIndexOf remaining [nl] (Z.to_nat maxLength) else i in
  if 2 * i <? maxLength then maxLength else i.

(** [while (remaining.length > 0)]; [None] when the fuel is used up. *)
Fixpoint chunk_loop (fuel : nat) (remaining : text) (maxLength : Z) : option (list text) :=
  if js_length remaining <=? 0 then Some []
  else if js_length remaining <=? maxLength then Some [remaining]
  else
    match fuel with
    | O => None
    | S fuel =>
        let i := splitAt remaining maxLength in
        match chunk_loop fuel (trim_newlines (js_slice_from remaining i)) maxLength with
        | Some chunks => Some (js_slice remaining 0 i :: chunks)
        | None => None
        end
    end.

(** For a positive [maxLength] every round removes a character, so the length
    of the text is enough fuel. *)
Definition smartChunk (s : text) (maxLength : Z) : option (list text) :=
  let paragraphs := split_paragraphs [] s in
  if (3 * maxLength <? 4 * js_length s) && has_paragraph s
     && ((1 <? js_length paragraphs) && forallb (fun p => js_length p <=? maxLength) paragraphs)
  then Some paragraphs
  else if js_length s <=? maxLength then Some [s]
  else chunk_loop (length s) s maxLength.

(** ** Proofs *)

Lemma lastIndexOf_range s pat i : -1 <= lastIndexOf s pat i <= Z.of_nat i.
Proof.
  induction i as [|i IH]; cbn [lastIndexOf]; destruct (starts_with _ _); lia.
Qed.

Lemma splitAt_range s n : 1 <= n -> 1 <= splitAt s n <= n.
Proof.
  intros Hn. unfold splitAt.
  pose proof (lastIndexOf_range s [nl; nl] (Z.to_nat n)).
  pose proof (lastIndexOf_range s [nl] (Z.to_nat n)).
  repeat match goal with |- context [?a <? ?b] => destruct (Z.ltb_spec a b) end; lia.
Qed.

(** [chunks] are consecutive pieces of a text, with nothing but newlines left
    out between them. *)
Inductive rejoins : list text -> text -> Prop :=
  | rejoins_nil : rejoins [] []
  | rejoins_cons c gap chunks rest :
      Forall (fun x => x = nl) gap -> rejoins chunks rest ->
      rejoins (c :: chunks) (c ++ gap ++ rest).

Lemma rejoins_one s : rejoins [s] s.
Proof.
  replace s with (s ++ [] ++ []) at 2 by (by rewrite !app_nil_r).
  constructor; constructor.
Qed.

Lemma trim_newlines_split s :
  exists gap, Forall (fun x => x = nl) gap /\ s = gap ++ trim_newlines s.
Proof.
  induction s as [|c s (gap & Hg & IH)]; [by exists []|]. cbn.
  unfold is_nl. destruct (Z.eqb_spec c nl) as [->|].
  - exists (nl :: gap). split; [by constructor|]. cbn. by rewrite <- IH.
  - by exists [].
Qed.

Lemma trim_newlines_length s : (length (trim_newlines s) <= length s)%nat.
Proof. induction s as [|c s IH]; cbn; [lia|]. destruct (is_nl c); cbn; lia. Qed.

Lemma slice_split (s : text) i : 0 <= i <= js_length s ->
  js_slice s 0 i = take (Z.to_nat i) s /\ js_slice_from s i = drop (Z.to_nat i) s.
Proof.
  intros Hi. split.
  - rewrite <- (Z.add_0_l i) at 1. rewrite js_slice_nonneg by lia. done.
  - unfold js_slice_from, js_clamp. destruct (Z.ltb_spec i 0); [lia|]. by rewrite Z.min_l by lia.
Qed.

Definition fits (n : Z) (c : text) : Prop := js_length c <= n.

Lemma chunk_loop_spec fuel s n : 1 <= n -> (length s <= fuel)%nat ->
  exists chunks, chunk_loop fuel s n = Some chunks /\ Forall (fits n) chunks /\ rejoins chunks s.
Proof.
  intros Hn. revert s. induction fuel as [|fuel IH]; intros s Hf;
    cbn [chunk_loop]; unfold js_length at 1; destruct (Z.leb_spec (Z.of_nat (length s)) 0).
  - exists []. assert (s = []) as -> by (destruct s; [done|cbn in *; lia]).
    split_and!; [done|constructor|constructor].
  - lia.
  - exists []. assert (s = []) as -> by (destruct s; [done|cbn in *; lia]).
    split_and!; [done|constructor|constructor].
  - destruct (Z.leb_spec (js_length s) n).
    + exists [s]. split_and!; [done|by apply Forall_singleton|apply rejoins_one].
    + pose proof (splitAt_range s n Hn) as Hi. set (i := splitAt s n) in *.
      destruct (slice_split s i ltac:(lia)) as [-> ->]. unfold js_length in *.
      destruct (trim_newlines_split (drop (Z.to_nat i) s)) as (gap & Hgap & Hdrop).
      pose proof (trim_newlines_length (drop (Z.to_nat i) s)) as Hlen.
      rewrite length_drop in Hlen.
      destruct (IH (trim_newlines (drop (Z.to_nat i) s)) ltac:(lia)) as (chunks & -> & Hfit & Hre).
      eexists; split_and!; [reflexivity| |].
      * constructor; [|done]. unfold fits, js_length. rewrite length_take. lia.
      * rewrite <- (take_drop (Z.to_nat i) s) at 2. rewrite Hdrop. by constructor.
Qed.

Lemma split_paragraphs_rejoins cur s : rejoins (split_paragraphs cur s) (cur ++ s).
Proof.
  remember (length s) as k eqn:Ek. assert (length s <= k)%nat as Hk by lia. clear Ek.
  revert cur s Hk. induction k as [|k IH]; intros cur [|a s'] Hk; cbn in Hk; try lia;
    cbn [split_paragraphs]; try (rewrite app_nil_r; apply rejoins_one).
  destruct s' as [|b s'']; [apply rejoins_one|].
  destruct (is_nl a && is_nl b) eqn:E.
  - unfold is_nl in E. prop_of_bool. subst.
    change (cur ++ nl :: nl :: s'') with (cur ++ [nl; nl] ++ ([] ++ s'')).
    constructor; [by repeat constructor|]. apply IH. cbn in *. lia.
  - replace (cur ++ a :: b :: s'') with ((cur ++ [a]) ++ b :: s'') by (by rewrite <- app_assoc).
    apply IH. cbn in *. lia.
Qed.

(** C40: a long message is split into pieces within the limit that lose no text.
    For every text and every positive limit, smartChunk returns; each piece is
    within the limit; and the pieces are, in order, consecutive parts of the
    text with nothing but newlines dropped between them.  (A piece may be empty,
    as between two blank lines: see [blank_lines_give_an_empty_piece].  Whether it
    can be sent is for the caller to see.) *)
Theorem smartChunk_correct s maxLength : 1 <= maxLength ->
  exists chunks, smartChunk s maxLength = Some chunks /\
    Forall (fits maxLength) chunks /\ rejoins chunks s.
Proof.
  intros Hn. unfold smartChunk. destruct (_ && has_paragraph s && _) eqn:E.
  - prop_of_bool. eexists; split_and!; [reflexivity| |exact (split_paragraphs_rejoins [] s)].
    apply Forall_forall. intros p Hp.
    match goal with H : forallb _ _ = true |- _ => rewrite forallb_forall in H;
      specialize (H p (proj1 (list_elem_of_In _ _) Hp)) end.
    by apply Z.leb_le.
  - clear E. destruct (Z.leb_spec (js_length s) maxLength).
    + exists [s]. split_and!; [done|by apply Forall_singleton|apply rejoins_one].
    + by apply chunk_loop_spec.
Qed.

Lemma smartChunk_correct_witness :
  exists chunks, smartChunk [97; 98; 10; 99; 100; 101; 102; 103] 4 = Some chunks /\
    Forall (fits 4) chunks /\ rejoins chunks [97; 98; 10; 99; 100; 101; 102; 103].
Proof. apply (smartChunk_correct [97; 98; 10; 99; 100; 101; 102; 103] 4). lia. Defined.

Example smartChunk_line :
  smartChunk [97; 98; 10; 99; 100; 101; 102; 103] 4 = Some [[97; 98]; [99; 100; 101; 102]; [103]].
Proof. reflexivity. Qed.

Example blank_lines_give_an_empty_piece :
  smartChunk [97; 10; 10; 10; 10; 98] 3 = Some [[97]; []; [98]].
Proof. reflexivity. Qed.
End Chunker.
