(* ===== verification/ClusterState.v ===== *)
(** * The cluster state manager (src/src/cluster/state.ts)

    Sessions, shared context and the summary of the cluster that the other
    services read.  [getAllNodes] hands out the membership manager's own node
    objects, so the role reconciliation of [getState] writes to the membership
    table; [getState] therefore returns the manager it leaves behind.

    CPU shares are rationals: [cpuCores * (1 - cpuUsagePercent / 100)] is computed
    exactly. *)

From S2P Require Import Prelude JsMap JsString Raft Membership.
From Stdlib Require Import QArith Qminmax Lqa.
#[local] Open Scope Z_scope.

(** ** Data *)

Inductive SessionMode := normal | invisible | isolated.
#[export] Instance SessionMode_eq_dec : EqDecision SessionMode.
Proof. solve_decision. Defined.

Record ClaudeSession := mkClaudeSession {
  s_sessionId : string;
  s_nodeId : string;
  s_project : string;
  s_workingDirectory : string;
  s_mode : SessionMode;
  s_startedAt : Z;
  s_lastActive : Z;
  s_contextSummary : option string
}.
#[export] Instance ClaudeSession_eta : EtaRecord ClaudeSession := fun s =>
  mkClaudeSession (s_sessionId s) (s_nodeId s) (s_project s) (s_workingDirectory s) (s_mode s)
    (s_startedAt s) (s_lastActive s) (s_contextSummary s).

Inductive ContextType := project_summary | decision | error_solution | file_change | learning.
#[export] Instance ContextType_eq_dec : EqDecision ContextType.
Proof. solve_decision. Defined.

Inductive ContextVisibility := vis_cluster | vis_project | vis_session.
#[export] Instance ContextVisibility_eq_dec : EqDecision ContextVisibility.
Proof. solve_decision. Defined.

Record ContextEntry := mkContextEntry {
  ce_entryId : string;
  ce_sessionId : string;
  ce_nodeId : string;
  ce_project : string;
  ce_type : ContextType;
  ce_key : string;
  ce_value : string;
  ce_timestamp : Z;
  ce_vectorClock : Z;
  ce_visibility : ContextVisibility
}.

Record ClusterResources := mkClusterResources {
  cr_cpuCores : Q;
  cr_memoryBytes : Z;
  cr_gpuCount : Z;
  cr_gpuMemoryBytes : Z
}.

Record ClusterState := mkClusterState {
  cs_clusterId : string;
  cs_leaderId : option string;
  cs_term : Z;
  cs_nodes : list NodeInfo;
  cs_totalResources : ClusterResources;
  cs_availableResources : ClusterResources;
  cs_activeTasks : Z;
  cs_queuedTasks : Z
}.

Inductive StateEvent :=
  | se_stateChanged
  | se_sessionRegistered (s : ClaudeSession)
  | se_sessionUnregistered (s : ClaudeSession)
  | se_sessionContextUpdated (s : ClaudeSession)
  | se_contextPublished (e : ContextEntry).

Record ClusterStateManager := mkClusterStateManager {
  sm_clusterId : string;
  sm_sessions : jsmap ClaudeSession;
  sm_contextStore : jsmap ContextEntry;
  sm_activeTasks : Z;
  sm_queuedTasks : Z;
  sm_emitted : list StateEvent
}.
#[export] Instance ClusterStateManager_eta : EtaRecord ClusterStateManager := fun s =>
  mkClusterStateManager (sm_clusterId s) (sm_sessions s) (sm_contextStore s) (sm_activeTasks s)
    (sm_queuedTasks s) (sm_emitted s).

Implicit Types (st : ClusterStateManager).

Definition new_ClusterStateManager (clusterId : string) : ClusterStateManager :=
  mkClusterStateManager clusterId [] [] 0 0 [].

Definition sm_emit (ev : StateEvent) st : ClusterStateManager :=
  st <| sm_emitted ::= fun evs => evs ++ [ev] |>.

(** The listeners that the constructor registers on the membership manager. *)
Definition onMembershipEvent (ev : MembershipEvent) st : ClusterStateManager :=
  match ev with
  | me_nodeJoined _ | me_nodeLeft _ | me_nodeOffline _ => sm_emit se_stateChanged st
  | _ => st
  end.

(** ** Resources *)

Definition no_resources : ClusterResources := mkClusterResources 0 0 0 0.

(** The nodes the loops do not skip. *)
Definition counted (n : NodeInfo) : option NodeResources :=
  if bool_decide (n_status n = active) then n_resources n else None.

Definition calculateTotalResources (nodes : list NodeInfo) : ClusterResources :=
  fold_left (fun acc n =>
    match counted n with
    | None => acc
    | Some r =>
        mkClusterResources (cr_cpuCores acc + inject_Z (r_cpuCores r))
          (cr_memoryBytes acc + r_memoryBytes r)
          (cr_gpuCount acc + js_length (r_gpus r))
          (cr_gpuMemoryBytes acc + fold_left (fun sum g => sum + g_memoryBytes g) (r_gpus r) 0)
    end) nodes no_resources.

Definition availableCpuCores (r : NodeResources) : Q :=
  Qmax 0 (inject_Z (r_cpuCores r) * (1 - r_cpuUsagePercent r / 100)).

Definition addGpu (acc : ClusterResources) (g : GpuInfo) : ClusterResources :=
  if g_inUseForGaming g then acc
  else mkClusterResources (cr_cpuCores acc) (cr_memoryBytes acc) (cr_gpuCount acc + 1)
         (cr_gpuMemoryBytes acc + g_memoryAvailableBytes g).

Definition calculateAvailableResources (nodes : list NodeInfo) : ClusterResources :=
  fold_left (fun acc n =>
    match counted n with
    | None => acc
    | Some r =>
        fold_left addGpu (r_gpus r)
          (mkClusterResources (cr_cpuCores acc + availableCpuCores r)
             (cr_memoryBytes acc + r_memoryAvailableBytes r)
             (cr_gpuCount acc) (cr_gpuMemoryBytes acc))
    end) nodes no_resources.

(** ** The cluster state *)

(** The reconciliation of one node object with the leader Raft knows. *)
Definition reconcileRole (leader : string) (n : NodeInfo) : NodeInfo :=
  if String.eqb (n_nodeId n) leader then n <| n_role := role_leader |>
  else if bool_decide (n_role n = role_leader) then n <| n_role := role_follower |> else n.

Definition getState {D} (mm : MembershipManager) (raft : RaftNode D) st :
    ClusterState * MembershipManager :=
  let mm :=
    match leaderId raft with
    | Some id => if truthy_str id then mm <| mm_nodes ::= jm_map (reconcileRole id) |> else mm
    | None => mm
    end in
  let nodes := getAllNodes mm in
  (mkClusterState (sm_clusterId st) (leaderId raft) (currentTerm raft) nodes
     (calculateTotalResources nodes) (calculateAvailableResources nodes)
     (sm_activeTasks st) (sm_queuedTasks st), mm).

Definition updateTaskCounts (a q : Z) st : ClusterStateManager :=
  sm_emit se_stateChanged (st <| sm_activeTasks := a |> <| sm_queuedTasks := q |>).

(** ** Sessions *)

Definition registerSession (s : ClaudeSession) st : ClusterStateManager :=
  if bool_decide (s_mode s = isolated) then st
  else sm_emit (se_sessionRegistered s) (st <| sm_sessions ::= fun m => jm_set m (s_sessionId s) s |>).

Definition unregisterSession (id : string) st : ClusterStateManager :=
  match jm_get (sm_sessions st) id with
  | Some s => sm_emit (se_sessionUnregistered s) (st <| sm_sessions ::= fun m => jm_delete m id |>)
  | None => st
  end.

Definition getSession (id : string) st : option ClaudeSession := jm_get (sm_sessions st) id.

Record SessionFilter := mkSessionFilter {
  sf_projectFilter : option string;
  sf_nodeFilter : option string;
  sf_excludeInvisible : bool
}.

(** [if (f) list = list.filter(x => key(x) === f)]. *)
Definition filter_by {A} (o : option string) (key : A -> string) (l : list A) : list A :=
  match o with
  | Some f => if truthy_str f then filter (fun x => key x = f) l else l
  | None => l
  end.

Definition getSessions (options : SessionFilter) st : list ClaudeSession :=
  let sessions := jm_values (sm_sessions st) in
  let sessions := if sf_excludeInvisible options
                  then filter (fun s => s_mode s <> invisible) sessions else sessions in
  let sessions := filter_by (sf_projectFilter options) s_project sessions in
  filter_by (sf_nodeFilter options) s_nodeId sessions.

Definition updateSessionActivity (now : Z) (id : string) st : ClusterStateManager :=
  st <| sm_sessions ::= jm_alter (fun s => s <| s_lastActive := now |>) id |>.

Definition updateSessionContext (id summary : string) st : ClusterStateManager :=
  match jm_get (sm_sessions st) id with
  | Some s =>
      let s := s <| s_contextSummary := Some summary |> in
      sm_emit (se_sessionContextUpdated s) (st <| sm_sessions ::= fun m => jm_set m id s |>)
  | None => st
  end.

(** ** Context *)

Definition publishContext (e : ContextEntry) st : ClusterStateManager :=
  sm_emit (se_contextPublished e) (st <| sm_contextStore ::= fun m => jm_set m (ce_entryId e) e |>).

Record ContextQuery := mkContextQuery {
  cq_projectFilter : option string;
  cq_typeFilter : option (list ContextType);
  cq_sinceTimestamp : option Z;
  cq_limit : option Z;
  cq_sessionId : option string
}.

(** The visibility filter, for the session that asks. *)
Definition visible (sessionId : option string) st (e : ContextEntry) : bool :=
  match sessionId with
  | Some id =>
      if truthy_str id then
        bool_decide (ce_visibility e = vis_cluster) ||
        (bool_decide (ce_visibility e = vis_project) &&
         match jm_get (sm_sessions st) id with
         | Some s => String.eqb (ce_project e) (s_project s)
         | None => false
         end) ||
        (bool_decide (ce_visibility e = vis_session) && String.eqb (ce_sessionId e) id)
      else bool_decide (ce_visibility e = vis_cluster)
  | None => bool_decide (ce_visibility e = vis_cluster)
  end.

Definition queryContext (options : ContextQuery) st : list ContextEntry :=
  let entries := List.filter (visible (cq_sessionId options) st) (jm_values (sm_contextStore st)) in
  let entries := filter_by (cq_projectFilter options) ce_project entries in
  let entries :=
    match cq_typeFilter options with
    | Some (t :: ts) => List.filter (fun e => bool_decide (ce_type e ∈ t :: ts)) entries
    | _ => entries
    end in
  let entries :=
    match cq_sinceTimestamp options with
    | Some since => if since =? 0 then entries
                    else List.filter (fun e => since <? ce_timestamp e) entries
    | None => entries
    end in
  let entries := js_sort (fun a b => ce_timestamp b - ce_timestamp a <=? 0) entries in
  match cq_limit options with
  | Some limit => if limit =? 0 then entries else js_slice entries 0 limit
  | None => entries
  end.

(** ** The wire format *)

Record ProtoClusterResources := mkProtoClusterResources {
  pr_cpu_cores : Q;
  pr_memory_bytes : string;
  pr_gpu_count : Z;
  pr_gpu_memory_bytes : string
}.
Record ProtoClusterState := mkProtoClusterState {
  ps_cluster_id : string;
  ps_leader_id : string;
  ps_term : string;
  ps_nodes : list ProtoNode;
  ps_total_resources : ProtoClusterResources;
  ps_available_resources : ProtoClusterResources;
  ps_active_tasks : Z;
  ps_queued_tasks : Z
}.

Definition resources_proto (r : ClusterResources) : ProtoClusterResources :=
  mkProtoClusterResources (cr_cpuCores r) (js_toString (cr_memoryBytes r)) (cr_gpuCount r)
    (js_toString (cr_gpuMemoryBytes r)).

(** A node without its resources. *)
Definition state_node_proto (n : NodeInfo) : ProtoNode := nodeToProto (n <| n_resources := None |>).

Definition toProtoState {D} (mm : MembershipManager) (raft : RaftNode D) st :
    ProtoClusterState * MembershipManager :=
  let '(s, mm) := getState mm raft st in
  (mkProtoClusterState (cs_clusterId s) (default "" (cs_leaderId s)) (js_toString (cs_term s))
     (map state_node_proto (cs_nodes s)) (resources_proto (cs_totalResources s))
     (resources_proto (cs_availableResources s)) (cs_activeTasks s) (cs_queuedTasks s), mm).

(** * What the cluster state manager guarantees

    A context query returns exactly the newest entries that the asking session
    may see; the state shows the leader that Raft knows and no other; available
    resources never exceed the total. *)

#[local] Open Scope Z_scope.

(** ** Context queries *)

(** What a query asks for, entry by entry. *)
Definition option_matches (o : option string) (s : string) : bool :=
  match o with Some f => negb (truthy_str f) || String.eqb s f | None => true end.

Definition requested (q : ContextQuery) (e : ContextEntry) : bool :=
  option_matches (cq_projectFilter q) (ce_project e) &&
  match cq_typeFilter q with Some (t :: ts) => bool_decide (ce_type e ∈ t :: ts) | _ => true end &&
  match cq_sinceTimestamp q with Some t => (t =? 0) || (t <? ce_timestamp e) | None => true end.

(** The entries of the store that the session may see and that match. *)
Definition matches (q : ContextQuery) (st : ClusterStateManager) : list ContextEntry :=
  List.filter (fun e => visible (cq_sessionId q) st e && requested q e) (jm_values (sm_contextStore st)).

Definition newer (a b : ContextEntry) : bool := ce_timestamp b - ce_timestamp a <=? 0.

Lemma filter_filter_list {A} (f g : A -> bool) l :
  List.filter g (List.filter f l) = List.filter (fun x => f x && g x) l.
Proof. induction l as [|x l IH]; cbn; [done|]. destruct (f x); cbn; rewrite IH; done. Qed.

Lemma filter_true_list {A} (f : A -> bool) (l : list A) :
  (forall x, f x = true) -> List.filter f l = l.
Proof. intros H. induction l as [|x l IH]; cbn; [done|]. by rewrite H, IH. Qed.

Lemma filter_ext_list {A} (f g : A -> bool) (l : list A) :
  (forall x, f x = g x) -> List.filter f l = List.filter g l.
Proof. intros H. induction l as [|x l IH]; cbn; [done|]. by rewrite H, IH. Qed.

Lemma filter_by_list {A} o (key : A -> string) l :
  filter_by o key l = List.filter (fun x => option_matches o (key x)) l.
Proof.
  destruct o as [f|]; cbn; [|by rewrite filter_true_list].
  destruct (truthy_str f); cbn; [|by rewrite filter_true_list].
  induction l as [|x l IH]; [done|]. rewrite filter_cons, IH. cbn [List.filter].
  destruct (String.eqb_spec (key x) f), (decide (key x = f)); done.
Qed.

(** The chain of filters in the code keeps exactly the matches, in store order. *)
Lemma queryContext_sorted q st :
  queryContext q st =
    let entries := js_sort newer (matches q st) in
    match cq_limit q with
    | Some limit => if limit =? 0 then entries else js_slice entries 0 limit
    | None => entries
    end.
Proof.
  unfold queryContext, matches, requested. rewrite filter_by_list.
  destruct (cq_typeFilter q) as [[|t ts]|], (cq_sinceTimestamp q) as [since|];
    try destruct (since =? 0); rewrite ?filter_filter_list;
    erewrite (filter_ext_list (fun e => visible _ _ e && _));
    try reflexivity; intros e; cbn; rewrite ?andb_true_r, ?andb_assoc; done.
Qed.

Lemma newer_total a b : newer a b = true \/ newer b a = true.
Proof. unfold newer. rewrite !Z.leb_le. lia. Qed.

Lemma newer_trans a b c : newer a b = true -> newer b c = true -> newer a c = true.
Proof. unfold newer. rewrite !Z.leb_le. lia. Qed.

Lemma StronglySorted_split {A} (R : A -> A -> Prop) l1 l2 : StronglySorted R (l1 ++ l2) ->
  StronglySorted R l1 /\ forall x y, x ∈ l1 -> y ∈ l2 -> R x y.
Proof.
  induction l1 as [|a l1 IH]; cbn; [intros _; split; [constructor|set_solver]|].
  intros H. apply StronglySorted_inv in H as [Hs Hf]. destruct (IH Hs) as [IH1 IH2].
  rewrite Forall_app in Hf. destruct Hf as [Hf1 Hf2]. split; [by constructor|].
  intros x y [->|Hx]%elem_of_cons Hy; [|by apply IH2]. rewrite Forall_forall in Hf2. by apply Hf2.
Qed.

(** A context query is exact.  For a limit that is not negative, the result
      is sorted newest first; together with some rest it is a permutation of the
      entries that the session may see and that match the filters; nothing in
      the rest is newer than anything returned; and the rest is empty unless
      the limit was reached. *)
Theorem queryContext_exact q st :
  0 <= default 0 (cq_limit q) ->
  exists rest, queryContext q st ++ rest ≡ₚ matches q st /\
    StronglySorted (fun a b => ce_timestamp b <= ce_timestamp a) (queryContext q st) /\
    (forall x y, x ∈ queryContext q st -> y ∈ rest -> ce_timestamp y <= ce_timestamp x) /\
    (rest = [] \/ cq_limit q = Some (js_length (queryContext q st))).
Proof.
  intros Hlim. rewrite queryContext_sorted. cbv zeta.
  pose proof (js_sort_sorted newer newer_total newer_trans (matches q st)) as Hs.
  pose proof (js_sort_perm newer (matches q st)) as Hp.
  set (l := js_sort newer (matches q st)) in *.
  assert (Hle : StronglySorted (fun a b => ce_timestamp b <= ce_timestamp a) l).
  { eapply StronglySorted_weaken; [|exact Hs]. intros a b. unfold newer. rewrite Z.leb_le. lia. }
  assert (Hall : exists rest, l ++ rest ≡ₚ matches q st /\
    StronglySorted (fun a b => ce_timestamp b <= ce_timestamp a) l /\
    (forall x y, x ∈ l -> y ∈ rest -> ce_timestamp y <= ce_timestamp x) /\
    (rest = [] \/ cq_limit q = Some (js_length l))).
  { exists []. rewrite app_nil_r. split_and!; [done|done|set_solver|by left]. }
  destruct (cq_limit q) as [n|] eqn:En; [|exact Hall].
  destruct (Z.eqb_spec n 0); [exact Hall|]. clear Hall. cbn in Hlim.
  rewrite <- (Z.add_0_l n), js_slice_nonneg by lia. change (drop (Z.to_nat 0) l) with l.
  rewrite <- (take_drop (Z.to_nat n) l) in Hle, Hp. apply StronglySorted_split in Hle as [H1 H2].
  exists (drop (Z.to_nat n) l). split_and!; [done|done| |].
  - intros x y Hx Hy. by apply H2.
  - destruct (decide (Z.to_nat n <= length l)%nat).
    + right. unfold js_length. rewrite length_take. f_equal. lia.
    + left. apply drop_ge. lia.
Qed.

Definition note (id : string) (t : Z) (v : ContextVisibility) : ContextEntry :=
  mkContextEntry id "s1" "a" "cortex" learning "k" "v" t 0 v.

Definition store3 : ClusterStateManager :=
  publishContext (note "e3" 30 vis_session)
    (publishContext (note "e2" 20 vis_cluster)
       (publishContext (note "e1" 10 vis_cluster) (new_ClusterStateManager "c"))).

Lemma queryContext_exact_witness :
  queryContext (mkContextQuery None None None (Some 1) None) store3 = [note "e2" 20 vis_cluster] /\
  exists rest, [note "e2" 20 vis_cluster] ++ rest ≡ₚ matches (mkContextQuery None None None (Some 1) None) store3.
Proof.
  destruct (queryContext_exact (mkContextQuery None None None (Some 1) None) store3 ltac:(cbn; lia))
    as (rest & H & _).
  split; [reflexivity|]. exists rest. exact H.
Defined.

(** ** The leader of the state *)

Lemma reconcileRole_leader l n :
  n_role (reconcileRole l n) = role_leader <-> n_nodeId (reconcileRole l n) = l.
Proof.
  unfold reconcileRole. destruct (String.eqb_spec (n_nodeId n) l) as [Heq|Hne]; [by cbn|].
  destruct (bool_decide_reflect (n_role n = role_leader)); cbn; split; congruence.
Qed.

(** The state shows one leader.  When Raft knows a leader, a node of the
    returned state has the leader role exactly if it is that leader, nothing
    else about the nodes changes, and the roles the caller sees are those the
    membership table holds from then on. *)
Theorem getState_reconciles {D} (mm : MembershipManager) (raft : RaftNode D) st l :
  leaderId raft = Some l -> l <> "" ->
  let '(s, mm') := getState mm raft st in
  (forall n, n ∈ cs_nodes s -> n_role n = role_leader <-> n_nodeId n = l) /\
  (fun n => n <| n_role := role_follower |>) <$> cs_nodes s =
    (fun n => n <| n_role := role_follower |>) <$> getAllNodes mm /\
  getAllNodes mm' = cs_nodes s.
Proof.
  intros Hl Hne. unfold getState. rewrite Hl. unfold truthy_str.
  rewrite (proj2 (String.eqb_neq _ _)) by done. cbn [negb cs_nodes].
  unfold getAllNodes. cbn [mm_nodes field_update]. rewrite jm_values_map.
  split_and!; [| |done].
  - intros n (n' & -> & _)%list_elem_of_fmap. apply reconcileRole_leader.
  - rewrite <- list_fmap_compose. apply list_fmap_ext. intros _ n _. unfold reconcileRole, compose.
    by repeat case_match.
Qed.

(** ** Resources *)

(** A node reports no more available than it has. *)
Record sane (r : NodeResources) : Prop := {
  sane_cores : 0 <= r_cpuCores r;
  sane_usage : (0 <= r_cpuUsagePercent r)%Q;
  sane_memory : r_memoryAvailableBytes r <= r_memoryBytes r;
  sane_gpus : Forall (fun g => 0 <= g_memoryAvailableBytes g <= g_memoryBytes g) (r_gpus r)
}.

Definition within (a t : ClusterResources) : Prop :=
  (cr_cpuCores a <= cr_cpuCores t)%Q /\ cr_memoryBytes a <= cr_memoryBytes t /\
  cr_gpuCount a <= cr_gpuCount t /\ cr_gpuMemoryBytes a <= cr_gpuMemoryBytes t.

Lemma availableCpuCores_le r : sane r -> (availableCpuCores r <= inject_Z (r_cpuCores r))%Q.
Proof.
  intros [Hc Hu _ _]. unfold availableCpuCores.
  assert (H0 : (0 <= inject_Z (r_cpuCores r))%Q) by (change 0%Q with (inject_Z 0); by rewrite <- Zle_Qle).
  apply Q.max_lub; [done|].
  assert (0 <= inject_Z (r_cpuCores r) * r_cpuUsagePercent r)%Q by (by apply Qmult_le_0_compat).
  unfold Qdiv. change (/ 100)%Q with (1 # 100)%Q. lra.
Qed.

Lemma addGpus_eq gs acc :
  let r := fold_left addGpu gs acc in
  cr_cpuCores r = cr_cpuCores acc /\ cr_memoryBytes r = cr_memoryBytes acc.
Proof.
  revert acc. induction gs as [|g gs IH]; intros acc; [done|]. cbn. destruct (IH (addGpu acc g)) as [-> ->].
  unfold addGpu. by destruct (g_inUseForGaming g).
Qed.

Lemma addGpus_within gs acc : Forall (fun g => 0 <= g_memoryAvailableBytes g <= g_memoryBytes g) gs ->
  forall count mem, cr_gpuCount acc <= count -> cr_gpuMemoryBytes acc <= mem ->
  let r := fold_left addGpu gs acc in
  cr_gpuCount r <= count + js_length gs /\
  cr_gpuMemoryBytes r <= fold_left (fun sum g => sum + g_memoryBytes g) gs mem.
Proof.
  intros Hg. revert acc. induction Hg as [|g gs Hg _ IH]; intros acc count mem Hc Hm.
  { unfold js_length. cbn. lia. }
  cbn. unfold js_length. cbn [length]. rewrite Nat2Z.inj_succ.
  assert (H : cr_gpuCount (addGpu acc g) <= count + 1 /\
              cr_gpuMemoryBytes (addGpu acc g) <= mem + g_memoryBytes g).
  { unfold addGpu. destruct (g_inUseForGaming g); cbn; lia. }
  destruct (IH (addGpu acc g) (count + 1) (mem + g_memoryBytes g) (proj1 H) (proj2 H)) as [H1 H2].
  unfold js_length in H1. split; [lia|exact H2].
Qed.

Lemma sum_shift gs mem :
  fold_left (fun sum g => sum + g_memoryBytes g) gs mem =
    mem + fold_left (fun sum g => sum + g_memoryBytes g) gs 0.
Proof.
  revert mem. induction gs as [|g gs IH]; intros mem; cbn [fold_left]; [lia|].
  rewrite (IH (mem + _)), (IH (0 + _)). lia.
Qed.

(** The cluster never offers more than it has.  If every node reports
    available memory within its memory and a CPU usage that is not negative,
    then the available cores, memory, GPUs and GPU memory of the cluster are
    each at most the total. *)
Theorem available_within_total nodes :
  (forall n r, n ∈ nodes -> n_resources n = Some r -> sane r) ->
  within (calculateAvailableResources nodes) (calculateTotalResources nodes).
Proof.
  unfold calculateAvailableResources, calculateTotalResources. intros Hs.
  assert (Hacc : within no_resources no_resources) by (split_and!; [apply Qle_refl|done..]).
  revert Hacc. generalize no_resources at 1 3 as a. generalize no_resources as t.
  induction nodes as [|n nodes IH]; intros t a Hacc; [done|]. cbn [fold_left]. apply IH.
  { intros n' r Hn'. apply Hs. by right. }
  unfold counted. destruct (bool_decide (n_status n = active)); [|done].
  destruct (n_resources n) as [r|] eqn:Er; [|done]. specialize (Hs n r ltac:(by left) Er).
  destruct Hacc as (Hc & Hm & Hgc & Hgm).
  set (a' := mkClusterResources (cr_cpuCores a + availableCpuCores r) (cr_memoryBytes a + r_memoryAvailableBytes r)
    (cr_gpuCount a) (cr_gpuMemoryBytes a)).
  destruct (addGpus_eq (r_gpus r) a') as [E1 E2].
  destruct (addGpus_within (r_gpus r) a' (sane_gpus r Hs) (cr_gpuCount t) (cr_gpuMemoryBytes t) Hgc Hgm)
    as [H1 H2].
  rewrite sum_shift in H2. pose proof (availableCpuCores_le r Hs). pose proof (sane_memory r Hs).
  unfold within. rewrite E1, E2. cbn [cr_cpuCores cr_memoryBytes cr_gpuCount cr_gpuMemoryBytes a'].
  split_and!; [by apply Qplus_le_compat|lia|done|done].
Qed.

Definition worker (id : string) (st : NodeStatus) : NodeInfo :=
  mkNodeInfo id id "100.64.0.2" 50051 role_leader st
    (Some (mkNodeResources 8 1000 600 [mkGpuInfo "g" 100 60 0 false] 0 0 (25 # 1) false)) [] 0 0.

Lemma available_within_total_witness :
  within (calculateAvailableResources [worker "a" active; worker "b" offline])
         (calculateTotalResources [worker "a" active; worker "b" offline]).
Proof.
  apply (available_within_total [worker "a" active; worker "b" offline]).
  intros n r Hn Hr.
  assert (r = mkNodeResources 8 1000 600 [mkGpuInfo "g" 100 60 0 false] 0 0 (25 # 1) false) as ->.
  { apply elem_of_cons in Hn as [->|Hn]; [by injection Hr|].
    apply elem_of_cons in Hn as [->|Hn]; [by injection Hr|]. by apply elem_of_nil in Hn. }
  split; cbn; [lia|discriminate|lia|]. repeat constructor; cbn; lia.
Defined.

Definition two_leaders : MembershipManager :=
  (new_MembershipManager (mkMembershipConfig "a" "alpha" "100.64.0.1" 50051 None true) 0)
    <| mm_nodes := [("a", worker "a" active); ("b", worker "b" active)] |>.
Definition raft_led_by_b : RaftNode string :=
  (new_RaftNode (mkRaftConfig "a" None false None) file_missing true) <| leaderId := Some "b" |>.

Lemma getState_reconciles_witness :
  let '(s, mm') := getState two_leaders raft_led_by_b (new_ClusterStateManager "c") in
  (forall n, n ∈ cs_nodes s -> n_role n = role_leader <-> n_nodeId n = "b") /\
  getAllNodes mm' = [(worker "a" active) <| n_role := role_follower |>; worker "b" active].
Proof.
  pose proof (getState_reconciles two_leaders raft_led_by_b (new_ClusterStateManager "c") "b"
    eq_refl ltac:(discriminate)) as H.
  split; [exact (proj1 H)|reflexivity].
Defined.
