(* ===== verification/Tailscale.v ===== *)
(** * Discovery over Tailscale (src/src/discovery/tailscale.ts)

    [TailscaleDiscovery] polls the command [tailscale status --json] and reports how the
    nodes with the cluster's tag come and go.  A poll is given the output of the
    command, or the message of its failure; of the output the code reads the fields that
    the command documents, an absent or null one being [undefined].

    The main theorem is about a subscriber that only sees the events: the set of online
    nodes it keeps is the one of the last status. *)

From S2P Require Import Prelude JsMap JsString Json JsNumber.
From Stdlib Require Import Ascii.

Record TailscaleNode := mkTailscaleNode {
  ts_id : string;
  ts_hostname : string;
  ts_ip : string;
  ts_online : bool;
  ts_os : string;
  ts_tags : list string;
  ts_lastSeen : option string;          (* [None]: the time of the poll *)
  ts_self : bool
}.

Record TailscaleStatus := mkTailscaleStatus {
  selfIP : string;
  selfHostname : string;
  tailnetName : string;
  magicDNSSuffix : string;
  nodes : list TailscaleNode
}.

Inductive DiscoveryEvent :=
  | nodeDiscovered (n : TailscaleNode)
  | nodeOnline (n : TailscaleNode)
  | nodeOffline (n : TailscaleNode)
  | nodeRemoved (n : TailscaleNode)
  | discovery_error (message : string).

Record TailscaleDiscovery := mkTailscaleDiscovery {
  clusterTag : string;
  polling : bool;                       (* pollInterval *)
  lastStatus : option TailscaleStatus;
  knownNodes : jsmap TailscaleNode;
  ts_emitted : list DiscoveryEvent
}.
#[export] Instance TailscaleDiscovery_eta : EtaRecord TailscaleDiscovery := fun d =>
  mkTailscaleDiscovery (clusterTag d) (polling d) (lastStatus d) (knownNodes d) (ts_emitted d).

Definition new_TailscaleDiscovery (tag : option string) : TailscaleDiscovery :=
  mkTailscaleDiscovery (default "cortex" tag) false None [] [].

Implicit Types (d : TailscaleDiscovery) (n : TailscaleNode).

(** ** Reading the status *)

Definition field_of (k : string) (j : json) : option json :=
  match j with
  | JObj l => match jm_get l k with Some JNull => None | o => o end
  | _ => None
  end.
Definition text_field (k : string) (j : json) : string :=
  match field_of k j with Some (JStr s) => s | _ => "" end.
Definition bool_field (k : string) (j : json) : bool :=
  match field_of k j with Some (JBool b) => b | _ => false end.
Definition array_field (k : string) (j : json) : list string :=
  match field_of k j with
  | Some (JArr l) => omap (fun x => match x with JStr s => Some s | _ => None end) l
  | _ => []
  end.
Definition first_ip (j : json) : string := default "" (head (array_field "TailscaleIPs" j)).

Definition parseNode (self : bool) (j : json) : TailscaleNode :=
  mkTailscaleNode (text_field "ID" j) (text_field "HostName" j) (first_ip j) (bool_field "Online" j)
    (text_field "OS" j) (js_toLowerCase <$> array_field "Tags" j)
    (match field_of "LastSeen" j with Some (JStr s) => if truthy_str s then Some s else None | _ => None end) self.

(** [fetchStatus] on the output of the command. *)
Definition fetchStatus (stdout : string) : option TailscaleStatus :=
  data ← parse stdout;
  let self := field_of "Self" data in
  let self_nodes := match self with Some j => [parseNode true j] | None => [] end in
  let peers := match field_of "Peer" data with Some (JObj l) => parseNode false <$> l.*2 | _ => [] end in
  Some (mkTailscaleStatus
          (match self with Some j => first_ip j | None => "" end)
          (match self with Some j => text_field "HostName" j | None => "" end)
          (match field_of "CurrentTailnet" data with Some j => text_field "Name" j | None => "" end)
          (text_field "MagicDNSSuffix" data)
          (self_nodes ++ peers)).

(** ** Polling *)

Definition emit_event (e : DiscoveryEvent) d : TailscaleDiscovery := d <| ts_emitted ::= fun l => l ++ [e] |>.
Definition remember n d : TailscaleDiscovery := d <| knownNodes ::= fun m => jm_set m (ts_id n) n |>.

Definition tag_of d : string := "tag:" +:+ clusterTag d.
Definition in_cluster d n : bool := bool_decide (tag_of d ∈ ts_tags n) && negb (ts_self n).

(** The loop over the tagged nodes. *)
Definition see_node d n : TailscaleDiscovery :=
  match jm_get (knownNodes d) (ts_id n) with
  | None =>
      let d := remember n d in
      if ts_online n then emit_event (nodeDiscovered n) d else d
  | Some existing =>
      if negb (ts_online existing) && ts_online n then emit_event (nodeOnline n) (remember n d)
      else if ts_online existing && negb (ts_online n) then emit_event (nodeOffline n) (remember n d)
      else d
  end.

(** The loop over the known nodes; deleting the current entry does not disturb it. *)
Definition forget_node (current : list string) d (kv : string * TailscaleNode) : TailscaleDiscovery :=
  if bool_decide (kv.1 ∈ current) then d
  else emit_event (nodeRemoved kv.2) (d <| knownNodes ::= fun m => jm_delete m kv.1 |>).

Definition take_status (s : TailscaleStatus) d : TailscaleDiscovery :=
  let d := d <| lastStatus := Some s |> in
  let current := ts_id <$> nodes s in
  let d := foldl see_node d (keep (in_cluster d) (nodes s)) in
  foldl (forget_node current) d (knownNodes d).

Definition poll (output : string + string) (syntaxError : string) d : TailscaleDiscovery :=
  match output with
  | inl message => emit_event (discovery_error message) d
  | inr stdout =>
      match fetchStatus stdout with
      | None => emit_event (discovery_error syntaxError) d
      | Some s => take_status s d
      end
  end.

(** [start] polls once before it sets the interval. *)
Definition start (output : string + string) (syntaxError : string) d : TailscaleDiscovery :=
  poll output syntaxError d <| polling := true |>.
Definition stop d : TailscaleDiscovery := d <| polling := false |>.

(** ** Queries *)

Definition getSelfIP d : option string := selfIP <$> lastStatus d.
Definition getSelfHostname d : option string := selfHostname <$> lastStatus d.
Definition getClusterNodes d : list TailscaleNode :=
  match lastStatus d with
  | None => []
  | Some s => keep (fun n => bool_decide (tag_of d ∈ ts_tags n) && ts_online n && negb (ts_self n)) (nodes s)
  end.

Definition resolveHostname (output : string + string) (syntaxError hostname : string) d :
    TailscaleDiscovery * option string :=
  let d := match lastStatus d with None => poll output syntaxError d | Some _ => d end in
  (d, s ← lastStatus d;
      ts_ip <$> List.find (fun n => String.eqb (js_toLowerCase (ts_hostname n)) (js_toLowerCase hostname)) (nodes s)).

(** ** A subscriber *)

(** The nodes a listener to the events holds online. *)
Definition listen (online : list string) (e : DiscoveryEvent) : list string :=
  match e with
  | nodeDiscovered n | nodeOnline n => ts_id n :: online
  | nodeOffline n | nodeRemoved n => filter (fun i => i <> ts_id n) online
  | discovery_error _ => online
  end.
Definition heard (events : list DiscoveryEvent) : list string := foldl listen [] events.

Definition known_online (i : string) d : bool :=
  match jm_get (knownNodes d) i with Some n => ts_online n | None => false end.

(** Every entry is stored under its own id, once, and the subscriber agrees. *)
Record discovery_ok d : Prop := {
  do_wf : jm_wf (knownNodes d);
  do_ids : forall i n, jm_get (knownNodes d) i = Some n -> ts_id n = i;
  do_heard : forall i, i ∈ heard (ts_emitted d) <-> known_online i d = true
}.

Lemma heard_snoc l e : heard (l ++ [e]) = listen (heard l) e.
Proof. unfold heard. by rewrite foldl_app. Qed.

Lemma known_online_remember n d i :
  known_online i (remember n d) = if decide (i = ts_id n) then ts_online n else known_online i d.
Proof.
  unfold known_online, remember. cbn. case_decide as Hi.
  - subst i. by rewrite jm_get_set_eq.
  - by rewrite jm_get_set_ne.
Qed.

Lemma remember_ok_ids n d : (forall i x, jm_get (knownNodes d) i = Some x -> ts_id x = i) ->
  forall i x, jm_get (knownNodes (remember n d)) i = Some x -> ts_id x = i.
Proof.
  intros H i x. cbn. destruct (decide (ts_id n = i)) as [<-|Hne].
  - rewrite jm_get_set_eq. by intros [= <-].
  - rewrite jm_get_set_ne by done. apply H.
Qed.

Lemma see_node_ok n d : discovery_ok d -> discovery_ok (see_node d n).
Proof.
  intros [Hw Hi Hh]. unfold see_node.
  assert (Hno : jm_get (knownNodes d) (ts_id n) = None \/ known_online (ts_id n) d = false ->
    known_online (ts_id n) d = false) by (unfold known_online; intros [-> | ?]; done).
  assert (Hin : forall online : list string, ts_online n = true -> (forall i, i ∈ online <-> known_online i d = true) ->
    forall i, i ∈ ts_id n :: online <-> known_online i (remember n d) = true).
  { intros online Ho Hon i. rewrite elem_of_cons, known_online_remember, Hon, Ho. case_decide; naive_solver. }
  assert (Hout : forall online : list string, ts_online n = false -> (forall i, i ∈ online <-> known_online i d = true) ->
    forall i, i ∈ filter (fun i => i <> ts_id n) online <-> known_online i (remember n d) = true).
  { intros online Ho Hon i. rewrite list_elem_of_filter, known_online_remember, Hon, Ho. case_decide; naive_solver. }
  destruct (jm_get (knownNodes d) (ts_id n)) as [x|] eqn:E.
  - destruct (ts_online x) eqn:Ex, (ts_online n) eqn:En; cbn [negb andb]; try (by constructor).
    + constructor; [by apply jm_wf_set|by apply remember_ok_ids|].
      cbn [emit_event ts_emitted field_update]. rewrite heard_snoc. by apply Hout.
    + constructor; [by apply jm_wf_set|by apply remember_ok_ids|].
      cbn [emit_event ts_emitted field_update]. rewrite heard_snoc. by apply Hin.
  - destruct (ts_online n) eqn:En.
    + constructor; [by apply jm_wf_set|by apply remember_ok_ids|].
      cbn [emit_event ts_emitted field_update]. rewrite heard_snoc. by apply Hin.
    + constructor; [by apply jm_wf_set|by apply remember_ok_ids|].
      intros i. cbn [remember ts_emitted field_update]. rewrite Hh, known_online_remember, En.
      case_decide as Hd; [|done]. subst i. rewrite Hno by auto. done.
Qed.

Lemma forget_node_ok current d i n : jm_get (knownNodes d) i = Some n ->
  discovery_ok d -> discovery_ok (forget_node current d (i, n)).
Proof.
  intros Hn [Hw Hi Hh]. unfold forget_node. cbn [fst snd]. case_bool_decide; [by constructor|].
  assert (Hid : ts_id n = i) by (by apply Hi).
  assert (Hdel : forall j x, jm_get (jm_delete (knownNodes d) i) j = Some x -> j <> i /\ jm_get (knownNodes d) j = Some x).
  { intros j x Hx. destruct (decide (j = i)) as [->|Hne]; [by rewrite jm_get_delete_eq in Hx|].
    by rewrite jm_get_delete_ne in Hx. }
  constructor.
  - by apply jm_wf_delete.
  - intros j x Hx. by apply Hdel in Hx as [_ Hx%Hi].
  - intros j. cbn [emit_event ts_emitted field_update]. rewrite heard_snoc. cbn [listen].
    rewrite list_elem_of_filter, Hh, Hid. unfold known_online.
    change (knownNodes (emit_event _ _)) with (jm_delete (knownNodes d) i).
    destruct (decide (j = i)) as [->|Hne]; [rewrite jm_get_delete_eq by done; naive_solver|].
    rewrite jm_get_delete_ne by done. naive_solver.
Qed.

Lemma see_node_online n d i :
  known_online i (see_node d n) = if decide (i = ts_id n) then ts_online n else known_online i d.
Proof.
  unfold see_node. destruct (jm_get (knownNodes d) (ts_id n)) as [x|] eqn:E.
  - assert (Hsame : ts_online x = ts_online n ->
      known_online i d = if decide (i = ts_id n) then ts_online n else known_online i d).
    { intros <-. case_decide; [|done]. subst i. unfold known_online. by rewrite E. }
    destruct (ts_online x) eqn:Ex, (ts_online n) eqn:En; cbn [negb andb]; auto;
      change (known_online i (emit_event ?e ?d)) with (known_online i d); by rewrite known_online_remember, En.
  - destruct (ts_online n) eqn:En; [change (known_online i (emit_event ?e ?d)) with (known_online i d)|];
      by rewrite known_online_remember, En.
Qed.

Lemma see_nodes l d : discovery_ok d -> NoDup (ts_id <$> l) ->
  let d' := foldl see_node d l in
  discovery_ok d' /\ (forall n, n ∈ l -> known_online (ts_id n) d' = ts_online n) /\
  (forall i, i ∉ ts_id <$> l -> known_online i d' = known_online i d).
Proof.
  revert d. induction l as [|n l IH]; intros d Hok Hnd; cbn; [by split_and!; [|intros ? []%elem_of_nil|]|].
  cbn in Hnd. apply NoDup_cons in Hnd as [Hn Hnd].
  destruct (IH (see_node d n) (see_node_ok n d Hok) Hnd) as (Hok' & Hin & Hout). split_and!; [done| |].
  - intros x [->|Hx]%elem_of_cons; [|by apply Hin]. rewrite Hout by done. rewrite see_node_online. by rewrite decide_True.
  - intros i [Hne Hi]%not_elem_of_cons. rewrite Hout by done. rewrite see_node_online. by rewrite decide_False.
Qed.

Lemma forget_nodes current kvs d : discovery_ok d -> NoDup (kvs.*1) ->
  (forall kv, kv ∈ kvs -> jm_get (knownNodes d) kv.1 = Some kv.2) ->
  let d' := foldl (forget_node current) d kvs in
  discovery_ok d' /\
  (forall i, known_online i d' = if decide (i ∈ kvs.*1 /\ i ∉ current) then false else known_online i d).
Proof.
  revert d. induction kvs as [|[k x] kvs IH]; intros d Hok Hnd Hget; cbn.
  { split; [done|]. intros i. rewrite decide_False; [done|]. intros [[]%elem_of_nil _]. }
  cbn in Hnd. apply NoDup_cons in Hnd as [Hk Hnd].
  assert (Hkx : jm_get (knownNodes d) k = Some x) by (apply (Hget (k, x)); by left).
  pose proof (forget_node_ok current d k x Hkx Hok) as Hok1.
  assert (Hg1 : forall kv, kv ∈ kvs -> jm_get (knownNodes (forget_node current d (k, x))) kv.1 = Some kv.2).
  { intros [j y] Hj. pose proof (Hget (j, y) ltac:(by right)) as Hjy. cbn [fst snd] in Hjy |- *. rewrite <- Hjy.
    unfold forget_node. cbn [fst snd]. case_bool_decide; [done|].
    change (jm_get (jm_delete (knownNodes d) k) j = jm_get (knownNodes d) j). apply jm_get_delete_ne.
    intros <-. apply Hk. by apply (list_elem_of_fmap_2 fst) in Hj. }
  destruct (IH (forget_node current d (k, x)) Hok1 Hnd Hg1) as (Hok2 & Hin). split; [done|]. intros i. rewrite Hin.
  assert (Hi : known_online i (forget_node current d (k, x)) =
    if decide (i = k /\ k ∉ current) then false else known_online i d).
  { unfold forget_node. cbn [fst snd]. case_bool_decide as Hc.
    - rewrite decide_False; [done|]. by intros [_ ?].
    - unfold known_online. change (knownNodes (emit_event _ _)) with (jm_delete (knownNodes d) k).
      rewrite (jm_get_delete _ _ _ (do_wf d Hok)). destruct (decide (k = i)) as [<-|Hne].
      + by rewrite decide_True.
      + rewrite decide_False; [done|]. by intros [? _]. }
  rewrite Hi. repeat case_decide; try done; exfalso; set_solver.
Qed.

(** ** What a subscriber knows *)

(** What happens to a discovery, whatever the command answers. *)
Inductive discovery_run : TailscaleDiscovery -> Prop :=
  | dr_new tag : discovery_run (new_TailscaleDiscovery tag)
  | dr_poll output err d : discovery_run d ->
      (forall stdout s, output = inr stdout -> fetchStatus stdout = Some s -> NoDup (ts_id <$> nodes s)) ->
      discovery_run (poll output err d)
  | dr_polling b d : discovery_run d -> discovery_run (d <| polling := b |>).

Lemma take_status_ok s d : discovery_ok d -> NoDup (ts_id <$> nodes s) ->
  discovery_ok (take_status s d) /\
  (forall n, n ∈ nodes s -> in_cluster d n = true -> known_online (ts_id n) (take_status s d) = ts_online n) /\
  (forall i, i ∉ ts_id <$> nodes s -> known_online i (take_status s d) = false).
Proof.
  intros Hok Hnd. unfold take_status. set (d0 := d <| lastStatus := Some s |>).
  set (l := keep (in_cluster d0) (nodes s)).
  assert (Hl : NoDup (ts_id <$> l)).
  { eapply sublist_NoDup; [exact Hnd|]. unfold l, keep. apply fmap_sublist, sublist_filter. }
  destruct (see_nodes l d0) as (Hok1 & Hin & Hout); [by destruct Hok|done|].
  set (d1 := foldl see_node d0 l) in *.
  destruct (forget_nodes (ts_id <$> nodes s) (knownNodes d1) d1) as (Hok2 & H2); [done|apply (do_wf d1 Hok1)| |].
  { intros [k x] Hkx. cbn. pose proof (do_wf d1 Hok1) as Hw. unfold jm_wf, jm_keys in Hw. revert Hkx Hw. clear.
    induction (knownNodes d1) as [|[k' x'] m IH]; cbn; [by intros []%elem_of_nil|].
    intros [[= -> ->]|Hm]%elem_of_cons [Hk Hnd]%NoDup_cons; [by rewrite String.eqb_refl|].
    rewrite (proj2 (String.eqb_neq _ _)); [by apply IH|]. intros ->. apply Hk. by apply (list_elem_of_fmap_2 fst) in Hm. }
  split_and!; [done| |].
  - intros n Hn Hc. rewrite H2, decide_False; [|intros [_ Hno]; apply Hno; by apply list_elem_of_fmap_2].
    apply Hin. apply elem_of_keep. by split.
  - intros i Hi. rewrite H2. case_decide as Hd; [done|]. unfold known_online.
    destruct (jm_get (knownNodes d1) i) as [x|] eqn:E; [|done]. exfalso. apply Hd. split; [|done].
    apply jm_has_keys. by apply jm_get_has in E.
Qed.

Lemma discovery_run_ok d : discovery_run d -> discovery_ok d.
Proof.
  induction 1 as [tag|output err d _ IH Hnd|b d _ []]; [| |by constructor].
  - constructor; [apply jm_wf_nil|done|]. intros i. by split; [intros []%elem_of_nil|].
  - unfold poll. destruct output as [m|stdout].
    + destruct IH as [Hw Hi Hh]. constructor; [done|done|]. intros i. cbn [emit_event ts_emitted field_update].
      rewrite heard_snoc. apply Hh.
    + destruct (fetchStatus stdout) as [s|] eqn:E; [by apply take_status_ok; [|eapply Hnd]|].
      destruct IH as [Hw Hi Hh]. constructor; [done|done|]. intros i. cbn [emit_event ts_emitted field_update].
      rewrite heard_snoc. apply Hh.
Qed.

(** A subscriber that only sees the events is right: after any polls, failed ones
    included, the set of online nodes it keeps agrees, for every other node with the
    cluster's tag in a status just read, with what that status says; and it holds no
    node online that is not in the status. *)
Theorem subscriber_sees_status d stdout s err :
  discovery_run d -> fetchStatus stdout = Some s -> NoDup (ts_id <$> nodes s) ->
  let d' := poll (inr stdout) err d in
  (forall n, n ∈ nodes s -> in_cluster d n = true -> ts_id n ∈ heard (ts_emitted d') <-> ts_online n = true) /\
  (forall i, i ∈ heard (ts_emitted d') -> i ∈ ts_id <$> nodes s).
Proof.
  intros Hrun%discovery_run_ok Hs Hnd. cbn. rewrite Hs.
  destruct (take_status_ok s d Hrun Hnd) as (Hok & Hin & Hout). split.
  - intros n Hn Hc. rewrite (do_heard _ Hok), Hin by done. done.
  - intros i Hi. destruct (decide (i ∈ ts_id <$> nodes s)) as [|Hno]; [done|].
    apply (do_heard _ Hok) in Hi. by rewrite Hout in Hi.
Qed.

(** ** Executions *)

Definition peer (id : string) (online : bool) (tags : list string) : string * json :=
  (id, JObj [("ID", JStr id); ("HostName", JStr id); ("TailscaleIPs", JArr [JStr "100.64.0.2"]);
             ("Online", JBool online); ("Tags", JArr (JStr <$> tags))]).
Definition status_text (peers : list (string * json)) : string :=
  stringify (JObj [("Self", JObj [("ID", JStr "me"); ("HostName", JStr "alpha")]); ("Peer", JObj peers)]).

Definition first_poll : TailscaleDiscovery :=
  poll (inr (status_text [peer "n1" true ["tag:Cortex"]; peer "n2" false ["tag:cortex"]])) "" (new_TailscaleDiscovery None).

Lemma subscriber_sees_status_witness :
  heard (ts_emitted (poll (inr (status_text [peer "n1" false ["tag:cortex"]; peer "n2" true ["tag:cortex"]])) "" first_poll)) = ["n2"] /\
  "n2" ∈ heard (ts_emitted (poll (inr (status_text [peer "n1" false ["tag:cortex"]; peer "n2" true ["tag:cortex"]])) "" first_poll)).
Proof.
  split; [by vm_compute|].
  set (text := status_text _). destruct (fetchStatus text) as [s|] eqn:E; [|by vm_compute in E].
  assert (Hrun : discovery_run first_poll).
  { apply dr_poll; [constructor|]. intros stdout s' [= <-] Hs. vm_compute in Hs. injection Hs as <-.
    apply (bool_decide_unpack _). by vm_compute. }
  vm_compute in E. injection E as <-.
  set (n2 := parseNode false (peer "n2" true ["tag:cortex"]).2).
  refine (proj2 (proj1 (subscriber_sees_status first_poll text _ "" Hrun _ _) n2 _ _) _);
    [reflexivity|apply (bool_decide_unpack _); by vm_compute|right; right; left|reflexivity|reflexivity].
Defined.

(** A node that loses its tag stays known with the state it had: it is neither reported
    removed nor offline, though it is no cluster node any more. *)
Example untagged_node_stays_online :
  let d := poll (inr (status_text [peer "n1" false []])) "" first_poll in
  heard (ts_emitted d) = ["n1"] /\ getClusterNodes d = [].
Proof. by vm_compute. Qed.

(** A node with a changed address is not reported and keeps its old one in the table. *)
Example moved_node_keeps_address :
  let moved := ("n1", JObj [("ID", JStr "n1"); ("HostName", JStr "n1"); ("TailscaleIPs", JArr [JStr "100.64.0.9"]);
                            ("Online", JBool true); ("Tags", JArr [JStr "tag:cortex"])]) in
  let d := poll (inr (status_text [moved])) "" first_poll in
  ts_ip <$> jm_get (knownNodes d) "n1" = Some "100.64.0.2".
Proof. by vm_compute. Qed.
