(* ===== verification/Joining.v ===== *)
(** * Joining the cluster (src/src/index.ts)

    What a node does between its start and its first term as a member: it waits for the
    network, tries the addresses it knows of, and lets elections run again.  The methods
    are functions on a world of any type: [NodeEnv] gives the clock, the Tailscale
    discovery, reachability, what the node at an address answers to RegisterNode, and
    the membership manager with its Raft node, on which the code of Membership.v and
    Raft.v runs.

    The loop over the clock gets a turn for each second of its limit and one more; a
    theorem says that this is enough. *)

From S2P Require Import Prelude JsMap JsString JsNumber Raft Membership Tailscale.
From Stdlib Require Import Ascii.

(** ** The interface *)

Class NodeEnv (D W : Type) := {
  clock : W -> Z;                                              (* Date.now() *)
  sleep : Z -> W -> W;
  tailscale : W -> option TailscaleDiscovery;
  checkPortReachable : string -> Z -> Z -> W -> W * bool;      (* host, port, timeout *)
  register : W -> string -> option RegisterResponse;           (* the call RegisterNode *)
  member : W -> MembershipManager * RaftNode D;
  with_member : MembershipManager * RaftNode D -> W -> W;
  closeAll : W -> W                                            (* GrpcClientPool.closeAll *)
}.

(** What the rest of the program leaves alone, and what time does. *)
Class NodeEnvLaws (D W : Type) `{!NodeEnv D W} : Prop := {
  member_with st (w : W) : member (with_member st w) = st;
  clock_with st (w : W) : clock (with_member st w) = clock w;
  clock_sleep ms (w : W) : clock w + ms <= clock (sleep ms w);
  clock_check host port ms (w : W) : clock w <= clock (checkPortReachable host port ms w).1;
  paused_sleep ms (w : W) : electionsPaused (member (sleep ms w)).2 = electionsPaused (member w).2;
  paused_check host port ms (w : W) :
    electionsPaused (member (checkPortReachable host port ms w).1).2 = electionsPaused (member w).2;
  member_closeAll (w : W) : member (closeAll w) = member w;
  clock_closeAll (w : W) : clock (closeAll w) = clock w
}.

(** What the methods read of the configuration, and [os.hostname()]. *)
Record NodeConfig := mkNodeConfig {
  seeds : option (list string);
  nc_grpcPort : Z;
  os_hostname : string
}.

Record Candidate := mkCandidate { ca_address : string; ca_source : string }.

(** [hostname.split('.')[0]]. *)
Definition first_label (hostname : string) : string := default "" (head (js_split "." hostname)).

Section joining.
Context {D W : Type} `{!EmptyBuffer D} `{!MembershipCodec D} `{!NodeEnv D W} (config : NodeConfig).
Implicit Types (w : W).

Definition clusterNodes w : list TailscaleNode :=
  match tailscale w with Some d => getClusterNodes d | None => [] end.

(** ** Waiting for the network *)

(** The loop over the seeds; [parseInt] of a missing or bad port is NaN, on which the
    socket throws, and the exception is caught. *)
Fixpoint any_seed_reachable (l : list string) w : W * bool :=
  match l with
  | [] => (w, false)
  | seed :: l =>
      let '(host, port) := split_colon seed in
      match port ≫= parseInt with
      | None => any_seed_reachable l w
      | Some p => let '(w, ok) := checkPortReachable host p 2000 w in
                  if (ok : bool) then (w, true) else any_seed_reachable l w
      end
  end.

Definition maxWaitMs : Z := 30000.
Definition checkIntervalMs : Z := 1000.

Fixpoint wait_loop (turns : nat) (startTime : Z) w : W * bool :=
  match turns with
  | O => (w, false)
  | S turns =>
      if clock w - startTime <? maxWaitMs then
        match clusterNodes w with
        | _ :: _ => (w, true)
        | [] => let '(w, ok) := any_seed_reachable (default [] (seeds config)) w in
                if (ok : bool) then (w, true) else wait_loop turns startTime (sleep checkIntervalMs w)
        end
      else (w, false)
  end.

Definition wait_turns : nat := 31.
(** The answer tells whether the network was found ready. *)
Definition waitForNetworkReady w : W * bool := wait_loop wait_turns (clock w) w.

(** ** The addresses *)

Definition short_hostname : string := first_label (os_hostname config).

Definition selfIp w : string := default "127.0.0.1" (tailscale w ≫= getSelfIP).

(** [seed.address.split(':')[1] || '50051']. *)
Definition seedPort (seed : string) : string :=
  match (split_colon seed).2 with
  | Some p => if truthy_str p then p else "50051"
  | None => "50051"
  end.

Definition is_self (selfIp seed : string) : bool :=
  let host := (split_colon seed).1 in
  (String.eqb host "127.0.0.1" || String.eqb host "localhost" || String.eqb host selfIp ||
   String.eqb host short_hostname) && String.eqb (seedPort seed) (js_toString (nc_grpcPort config)).

Definition tailscale_source (n : TailscaleNode) : string := "tailscale:" +:+ ts_hostname n.
Definition other_host (n : TailscaleNode) : bool := negb (String.eqb (ts_hostname n) (os_hostname config)).

Definition candidates w : list Candidate :=
  ((fun s => mkCandidate s "seed") <$> keep (fun s => negb (is_self (selfIp w) s)) (default [] (seeds config))) ++
  ((fun n => mkCandidate (ts_ip n +:+ ":50051") (tailscale_source n)) <$> keep other_host (clusterNodes w)).

(** The nodes found while waiting; here the port is that of this node. *)
Definition refresh_one (addresses : list Candidate) (n : TailscaleNode) : list Candidate :=
  let address := node_address (ts_ip n) (nc_grpcPort config) in
  if other_host n && negb (existsb (fun a => String.eqb (ca_address a) address) addresses)
  then addresses ++ [mkCandidate address (tailscale_source n)]
  else addresses.
Definition refresh (addresses : list Candidate) w : list Candidate :=
  foldl refresh_one addresses (clusterNodes w).

(** ** Trying them *)

(** [membership.joinCluster(address)]. *)
Definition join_at (address : string) w : W * bool :=
  let '(joined, _, st) := joinCluster (register w) address (member w) in (with_member st w, joined).

(** One attempt; the addresses it tried are listed. *)
Fixpoint try_all (l : list Candidate) w : W * list string * bool :=
  match l with
  | [] => (w, [], false)
  | c :: l =>
      let '(w, joined) := join_at (ca_address c) w in
      if (joined : bool) then (w, [ca_address c], true)
      else let '(w, tried, b) := try_all l w in (w, ca_address c :: tried, b)
  end.

Definition maxAttempts : nat := 5.
Definition delayMs (attempt : Z) : Z := Z.min (1000 * 2 ^ (attempt - 1)) 10000.

(** What an attempt to join did: the addresses of each attempt, the delays between them. *)
Record JoinRun := mkJoinRun { jn_tried : list (list string); jn_delays : list Z; jn_joined : bool }.

Fixpoint attempts (more : nat) (attempt : Z) (addresses : list Candidate) w : W * JoinRun :=
  let '(w, tried, joined) := try_all addresses w in
  if (joined : bool) then (w, mkJoinRun [tried] [] true)
  else match more with
       | O => (w, mkJoinRun [tried] [] false)
       | S more =>
           let w := sleep (delayMs attempt) w in
           let '(w, run) := attempts more (attempt + 1) (refresh addresses w) w in
           (w, mkJoinRun (tried :: jn_tried run) (delayMs attempt :: jn_delays run) (jn_joined run))
       end.

Definition joinClusterWithRetry w : W * JoinRun :=
  match candidates w with
  | [] => (w, mkJoinRun [] [] false)
  | addresses => attempts (pred maxAttempts) 1 addresses w
  end.

(** ** Joining and rejoining *)

Definition on_raft (f : RaftNode D -> RaftNode D) w : W :=
  let '(m, r) := member w in with_member (m, f r) w.
Definition on_membership (f : MembershipManager -> MembershipManager) w : W :=
  let '(m, r) := member w in with_member (f m, r) w.

(** [joinOrCreateCluster] from the start of Raft on; the timers of the other
    components are started in between. *)
Definition joinOrCreateCluster w : W * bool :=
  let w := on_raft pauseElections w in
  let w := on_raft Raft.start w in
  let '(w, _) := waitForNetworkReady w in
  let '(w, run) := joinClusterWithRetry w in
  (on_raft resumeElections w, jn_joined run).

(** [rejoinCluster]; nothing between the pause and the resumption throws here. *)
Definition rejoinCluster w : W * bool :=
  let w := on_membership (setRejoinInProgress true) w in
  let w := closeAll w in
  let w := on_raft pauseElections w in
  let '(w, _) := waitForNetworkReady w in
  let '(w, run) := joinClusterWithRetry w in
  let w := on_raft resumeElections w in
  let w := if jn_joined run then on_membership resetHeartbeatFailures w else w in
  (on_membership (setRejoinInProgress false) w, jn_joined run).

(** ** Waiting ends *)

Section laws.
Context `{!NodeEnvLaws D W}.

Lemma any_seed_clock l w : clock w <= clock (any_seed_reachable l w).1.
Proof.
  revert w. induction l as [|s l IH]; intros w; cbn [any_seed_reachable]; [cbn; lia|].
  destruct (split_colon s) as [host port]. destruct (port ≫= parseInt) as [p|]; [|apply IH].
  pose proof (clock_check host p 2000 w) as Hc. destruct (checkPortReachable host p 2000 w) as [w1 []]; [exact Hc|].
  specialize (IH w1). cbn in *. lia.
Qed.

Lemma wait_loop_found turns start w : clock w - start < maxWaitMs ->
  clusterNodes w <> [] \/ (any_seed_reachable (default [] (seeds config)) w).2 = true ->
  (wait_loop (S turns) start w).2 = true.
Proof.
  intros Ht Hf. cbn [wait_loop]. rewrite (proj2 (Z.ltb_lt _ _) Ht).
  destruct (clusterNodes w); [|done]. destruct Hf as [[]|Hf]; [done|].
  destruct (any_seed_reachable _ w) as [w1 b]. cbn in Hf. by subst b.
Qed.

(** One more turn than the seconds that are left changes nothing, and an unready
    network has been waited for to the end. *)
Lemma wait_loop_enough turns more start w : maxWaitMs - (clock w - start) <= 1000 * Z.of_nat turns ->
  wait_loop (S turns + more) start w = wait_loop (S turns) start w /\
  ((wait_loop (S turns) start w).2 = false -> start + maxWaitMs <= clock (wait_loop (S turns) start w).1).
Proof.
  revert w. induction turns as [|turns IH]; intros w Hle.
  - cbn [wait_loop Nat.add]. rewrite (proj2 (Z.ltb_ge _ _)) by lia. split; [done|]. cbn. lia.
  - rewrite Nat.add_succ_l. cbn [wait_loop]. destruct (clock w - start <? maxWaitMs) eqn:E.
    + destruct (clusterNodes w) as [|n l]; [|by split].
      pose proof (any_seed_clock (default [] (seeds config)) w) as Hc.
      destruct (any_seed_reachable _ w) as [w1 [|]]; [by split|]. cbn in Hc.
      pose proof (clock_sleep checkIntervalMs w1) as Hs. unfold checkIntervalMs in *. apply (IH (sleep 1000 w1)). lia.
    + split; [done|]. cbn. lia.
Qed.

(** Waiting for the network ends within its thirty-one turns: more would not change the
    result, and a wait that finds nothing has taken the thirty seconds. *)
Theorem waiting_ends more w :
  wait_loop (wait_turns + more) (clock w) w = waitForNetworkReady w /\
  ((waitForNetworkReady w).2 = false -> clock w + maxWaitMs <= clock (waitForNetworkReady w).1).
Proof.
  unfold waitForNetworkReady, wait_turns. apply wait_loop_enough. unfold maxWaitMs. lia.
Qed.

(** ** The attempts *)

(** An attempt tries the addresses in order, and all of them unless one lets it join. *)
Lemma try_all_tried l w : exists rest, ca_address <$> l = (try_all l w).1.2 ++ rest /\
  ((try_all l w).2 = false -> rest = []).
Proof.
  revert w. induction l as [|c l IH]; intros w; cbn [try_all]; [by exists []|].
  destruct (join_at (ca_address c) w) as [w1 []]; [by exists (ca_address <$> l)|].
  destruct (IH w1) as (rest & Hl & Hr). destruct (try_all l w1) as [[w2 tried] b]. cbn in *.
  exists rest. by rewrite Hl.
Qed.

Lemma join_at_clock a w : clock (join_at a w).1 = clock w.
Proof. unfold join_at. destruct (joinCluster _ _ _) as [[b calls] st]. apply clock_with. Qed.

Lemma try_all_clock l w : clock (try_all l w).1.1 = clock w.
Proof.
  revert w. induction l as [|c l IH]; intros w; cbn [try_all]; [done|].
  pose proof (join_at_clock (ca_address c) w) as Hc. destruct (join_at (ca_address c) w) as [w1 []]; [done|].
  specialize (IH w1). destruct (try_all l w1) as [[w2 tried] b]. cbn in *. lia.
Qed.

Definition delays_from (attempt : Z) (n : nat) : list Z := delayMs <$> seqZ attempt (Z.of_nat n).

Lemma delays_from_S attempt n : delays_from attempt (S n) = delayMs attempt :: delays_from (attempt + 1) n.
Proof.
  unfold delays_from. rewrite seqZ_cons by lia. cbn [fmap list_fmap]. f_equal. f_equal. f_equal; lia.
Qed.

Lemma attempts_shape more k addresses w : let '(w', run) := attempts more k addresses w in
  (1 <= length (jn_tried run) <= S more)%nat /\
  (jn_joined run = false -> length (jn_tried run) = S more) /\
  jn_delays run = delays_from k (pred (length (jn_tried run))) /\
  clock w + foldr Z.add 0 (jn_delays run) <= clock w'.
Proof.
  revert k addresses w. induction more as [|more IH]; intros k addresses w; cbn [attempts];
    pose proof (try_all_clock addresses w) as Hc; destruct (try_all addresses w) as [[w1 tried] []]; cbn in Hc.
  1-3: cbn; split_and!; done || lia.
  pose proof (clock_sleep (delayMs k) w1) as Hs.
  specialize (IH (k + 1) (refresh addresses (sleep (delayMs k) w1)) (sleep (delayMs k) w1)).
  destruct (attempts more _ _ _) as [w2 run]. destruct IH as ([H1 Hle] & Hn & Hd & Hck).
  cbn [jn_tried jn_delays jn_joined length pred]. split_and!; [lia|lia|intros H; rewrite (Hn H); lia| |cbn; lia].
  rewrite Hd. destruct (length (jn_tried run)) as [|n]; [lia|]. symmetry. apply delays_from_S.
Qed.
(** Joining gives up after five attempts and four delays of one, two, four and eight
    seconds, and a node that stopped earlier has joined; the delays have passed. *)
Theorem backoff_schedule w : candidates w <> [] ->
  let '(w', run) := joinClusterWithRetry w in
  jn_delays run = take (pred (length (jn_tried run))) [1000; 2000; 4000; 8000] /\
  (length (jn_tried run) <= maxAttempts)%nat /\
  (jn_joined run = false -> length (jn_tried run) = maxAttempts) /\
  clock w + foldr Z.add 0 (jn_delays run) <= clock w'.
Proof.
  intros Hne. unfold joinClusterWithRetry. destruct (candidates w) as [|c l] eqn:E; [done|].
  pose proof (attempts_shape (pred maxAttempts) 1 (c :: l) w) as H.
  destruct (attempts _ _ _ _) as [w' run]. destruct H as ([H1 Hle] & Hn & Hd & Hc).
  split_and!; [|done|done|done]. rewrite Hd. clear - H1 Hle. unfold maxAttempts in Hle. cbn in Hle.
  by destruct (length (jn_tried run)) as [|[|[|[|[|[|n]]]]]]; [lia|..|lia].
Qed.

(** ** No node calls itself *)

Definition own_address (ip : string) : string := node_address ip (nc_grpcPort config).

Lemma split_colon_none s : free_of ":" s = true -> split_colon s = (s, None).
Proof.
  induction s as [|c s IH]; [done|]. cbn [free_of split_colon]. intros [Hc Hs]%andb_true_iff.
  apply negb_true_iff in Hc. by rewrite Hc, (IH Hs).
Qed.

Lemma split_colon_app ip s : free_of ":" ip = true -> free_of ":" s = true ->
  split_colon (ip +:+ ":" +:+ s) = (ip, Some s).
Proof.
  intros Hip Hs. induction ip as [|c ip IH].
  - rewrite str_app_nil, str_app_cons, str_app_nil. cbn. by rewrite (split_colon_none s Hs).
  - cbn [free_of] in Hip. apply andb_true_iff in Hip as [Hc Hip]. apply negb_true_iff in Hc.
    rewrite str_app_cons. cbn [split_colon]. by rewrite Hc, (IH Hip).
Qed.

Lemma own_seed_is_self ip : free_of ":" ip = true -> is_self ip (own_address ip) = true.
Proof.
  intros Hip. unfold is_self, seedPort, own_address, node_address.
  rewrite split_colon_app by (done || by apply js_toString_free). cbn [fst snd].
  assert (Hp : truthy_str (js_toString (nc_grpcPort config)) = true).
  { pose proof (parseInt_toString (nc_grpcPort config)) as Hp. by destruct (js_toString _). }
  by rewrite Hp, !String.eqb_refl, !orb_true_r.
Qed.

Lemma elem_of_refresh l nodes a : a ∈ foldl refresh_one l nodes ->
  a ∈ l \/ exists n, n ∈ nodes /\ ca_address a = node_address (ts_ip n) (nc_grpcPort config).
Proof.
  revert l. induction nodes as [|n nodes IH]; intros l; cbn; [by left|]. intros [Ha|(x & Hx & Hax)]%IH.
  - unfold refresh_one in Ha. destruct (_ && _); [|by left].
    apply elem_of_app in Ha as [Ha|Ha]; [by left|]. apply list_elem_of_singleton in Ha as ->.
    right. exists n. split; [by left|done].
  - right. exists x. split; [by right|done].
Qed.

Lemma elem_of_candidates a w : a ∈ candidates w ->
  (exists s, s ∈ default [] (seeds config) /\ is_self (selfIp w) s = false /\ ca_address a = s) \/
  (exists n, n ∈ clusterNodes w /\ ca_address a = ts_ip n +:+ ":50051").
Proof.
  intros [Ha|Ha]%elem_of_app; apply list_elem_of_fmap_1 in Ha as (x & -> & Hx); apply elem_of_keep in Hx as [Hx Hin]; [left|right].
  - exists x. apply negb_true_iff in Hx. done.
  - by exists x.
Qed.

Lemma address_ip_inj ip ip' s s' : free_of ":" ip = true -> free_of ":" ip' = true ->
  free_of ":" s = true -> free_of ":" s' = true -> ip +:+ ":" +:+ s = ip' +:+ ":" +:+ s' -> ip = ip'.
Proof. intros H1 H2 H3 H4 H%(f_equal split_colon). rewrite !split_colon_app in H by done. congruence. Qed.

(** Addresses that are not this node's, at a given IP. *)
Definition elsewhere (ip : string) (a : Candidate) : Prop := ca_address a <> own_address ip.

Section elsewhere.
Context (ip : string) (Hip : free_of ":" ip = true).
Hypothesis others : forall w n, n ∈ clusterNodes w -> ts_ip n <> ip /\ free_of ":" (ts_ip n) = true.

Lemma candidates_elsewhere w : selfIp w = ip -> Forall (elsewhere ip) (candidates w).
Proof.
  intros Hw. apply Forall_forall. intros a [(s & _ & Hs & Ha)|(n & Hn & Ha)]%elem_of_candidates; unfold elsewhere; rewrite Ha.
  - intros ->. rewrite Hw in Hs. by rewrite own_seed_is_self in Hs.
  - destruct (others w n Hn) as [Hne Hf]. intros He. apply Hne.
    eapply (address_ip_inj (ts_ip n) ip "50051" _ Hf Hip eq_refl); [|exact He]. by apply js_toString_free.
Qed.

Lemma refresh_elsewhere l w : Forall (elsewhere ip) l -> Forall (elsewhere ip) (refresh l w).
Proof.
  rewrite !Forall_forall. intros Hl a [Ha|(n & Hn & Ha)]%elem_of_refresh; [by apply Hl|].
  destruct (others w n Hn) as [Hne Hf]. unfold elsewhere. rewrite Ha. intros He. apply Hne.
  eapply address_ip_inj; [exact Hf|exact Hip| | |exact He]; by apply js_toString_free.
Qed.

Lemma attempts_elsewhere more k l w : Forall (elsewhere ip) l ->
  Forall (Forall (fun a => a <> own_address ip)) (jn_tried (attempts more k l w).2).
Proof.
  assert (Htry : forall l w, Forall (elsewhere ip) l -> Forall (fun a => a <> own_address ip) (try_all l w).1.2).
  { intros l' w' Hl. destruct (try_all_tried l' w') as (rest & Ht & _).
    apply (Forall_app _ _ rest). rewrite <- Ht. by apply Forall_fmap. }
  revert k l w. induction more as [|more IH]; intros k l w Hl; cbn [attempts];
    pose proof (Htry l w Hl) as H; destruct (try_all l w) as [[w1 tried] []]; cbn in H.
  1-3: by constructor.
  set (w2 := sleep (delayMs k) w1). specialize (IH (k + 1) (refresh l w2) w2 (refresh_elsewhere l w2 Hl)).
  destruct (attempts more _ _ _) as [w3 run]. by constructor.
Qed.
End elsewhere.

(** A node that knows its Tailscale address never asks itself to let it join: with the
    addresses of other nodes being other addresses, no attempt calls the address and
    port of this node, whatever the seeds say. *)
Theorem never_calls_itself ip w : selfIp w = ip -> free_of ":" ip = true ->
  (forall w n, n ∈ clusterNodes w -> ts_ip n <> ip /\ free_of ":" (ts_ip n) = true) ->
  Forall (Forall (fun a => a <> node_address ip (nc_grpcPort config))) (jn_tried (joinClusterWithRetry w).2).
Proof.
  intros Hw Hip Ho. unfold joinClusterWithRetry. destruct (candidates w) as [|c l] eqn:E; [constructor|].
  apply attempts_elsewhere; [done|done|]. rewrite <- E. by apply candidates_elsewhere.
Qed.


(** ** After a rejoin *)

Lemma member_on_raft f w : member (on_raft f w) = ((member w).1, f (member w).2).
Proof. unfold on_raft. destruct (member w) as [m r]. apply member_with. Qed.
Lemma member_on_membership f w : member (on_membership f w) = (f (member w).1, (member w).2).
Proof. unfold on_membership. destruct (member w) as [m r]. apply member_with. Qed.

Lemma resume_unpauses (r : RaftNode D) : electionsPaused (resumeElections r) = false.
Proof. unfold resumeElections, resetElectionTimeout. by split_matches. Qed.

Lemma resume_arms (r : RaftNode D) :
  running (resumeElections r) = true -> isLeader (resumeElections r) = false ->
  electionTimeout (resumeElections r) = negb (nonVoting (Raft.config (resumeElections r))).
Proof.
  unfold resumeElections, resetElectionTimeout. cbn. destruct (running r) eqn:Hr, (isLeader _) eqn:Hl; cbn; try congruence.
  destruct (nonVoting _) eqn:Hn; cbn; by rewrite ?Hn.
Qed.

Lemma failed_heartbeat_asks now m : mm_rejoinInProgress m = false ->
  REJOIN_FAILURE_THRESHOLD <= mm_heartbeatFailures m + 1 ->
  last (mm_emitted (sendHeartbeat_reply now None m)) = Some me_rejoinNeeded.
Proof.
  intros Hp Ht. unfold sendHeartbeat_reply. cbn. rewrite Hp, (proj2 (Z.leb_le _ _)) by done. cbn. by rewrite last_snoc.
Qed.

Lemma rejoin_member w : exists m r, member (rejoinCluster w).1 =
  (setRejoinInProgress false (if (rejoinCluster w).2 then resetHeartbeatFailures m else m), resumeElections r).
Proof.
  unfold rejoinCluster. destruct (waitForNetworkReady _) as [w1 ready]. destruct (joinClusterWithRetry w1) as [w2 run].
  exists (member w2).1, (member w2).2. cbn [fst snd]. rewrite member_on_membership.
  destruct (jn_joined run); by rewrite ?member_on_membership, member_on_raft.
Qed.

(** A rejoin leaves the node able to go on, however it ended: elections run again, with
    the timer armed on a voting node that is not the leader, the flag is taken back, and
    the count of failed heartbeats is cleared on success; after a failed one, with the
    count at the threshold or one below, the next heartbeat that fails asks for another
    rejoin. *)
Theorem rejoin_restores w now : let '(w', joined) := rejoinCluster w in
  let '(m, r) := member w' in
  electionsPaused r = false /\ mm_rejoinInProgress m = false /\
  (running r = true -> isLeader r = false -> electionTimeout r = negb (nonVoting (Raft.config r))) /\
  (joined = true -> mm_heartbeatFailures m = 0) /\
  (REJOIN_FAILURE_THRESHOLD <= mm_heartbeatFailures m + 1 ->
   last (mm_emitted (sendHeartbeat_reply now None m)) = Some me_rejoinNeeded).
Proof.
  destruct (rejoin_member w) as (m & r & Hm). destruct (rejoinCluster w) as [w' joined]. cbn [fst snd] in Hm.
  rewrite Hm. split_and!; [apply resume_unpauses|by destruct joined|apply resume_arms|by intros ->|].
  intros Ht. apply failed_heartbeat_asks; [done|]. by destruct joined.
Qed.

End laws.
End joining.

(** ** A simulated network *)

Record SimWorld := mkSimWorld { sw_clock : Z; sw_member : MembershipManager * RaftNode string }.

Section sim.
Context (discovery : Z -> option TailscaleDiscovery) (up : string -> bool)
  (answers : Z -> string -> option RegisterResponse).

Definition sim_env : NodeEnv string SimWorld := {|
  clock := sw_clock;
  sleep ms w := mkSimWorld (sw_clock w + ms) (sw_member w);
  tailscale w := discovery (sw_clock w);
  checkPortReachable host port ms w :=
    (if up host then w else mkSimWorld (sw_clock w + Z.max 0 ms) (sw_member w), up host);
  register w := answers (sw_clock w);
  member := sw_member;
  with_member st w := mkSimWorld (sw_clock w) st;
  closeAll w := w
|}.

Lemma sim_laws : @NodeEnvLaws string SimWorld sim_env.
Proof.
  constructor; intros; cbn; try done; try lia; destruct (up host); cbn; done || lia.
Qed.
End sim.

Definition seeded (l : list string) (port : Z) : NodeConfig := mkNodeConfig (Some l) port "beta.lan".
Definition node_b : MembershipManager * RaftNode string :=
  (new_MembershipManager (mkMembershipConfig "b" "beta" "100.64.0.2" 50051 None false) 0,
   new_RaftNode (mkRaftConfig "b" None false None) file_missing true).
Definition world_b : SimWorld := mkSimWorld 0 node_b.

(** What a Tailscale poll found: this node, and a peer with the cluster's tag. *)
Definition found : option TailscaleDiscovery :=
  let self := Json.JObj [("ID", Json.JStr "b"); ("HostName", Json.JStr "beta.lan");
                         ("TailscaleIPs", Json.JArr [Json.JStr "100.64.0.1"])] in
  let status := Json.JObj [("Self", self); ("Peer", Json.JObj [peer "alpha" true ["tag:cortex"]])] in
  Some (poll (inr (Json.stringify status)) "" (new_TailscaleDiscovery None)).

Definition lonely : NodeEnv string SimWorld := sim_env (fun _ => found) (fun _ => false) (fun _ _ => None).
Definition seeds_b : NodeConfig := seeded ["gamma:50051"; "beta:50051"; "100.64.0.1:50051"; "gamma:50052"] 50051.

(** Nobody answers: five attempts on the seeds that are not this node and on the
    discovered one. *)
Lemma backoff_schedule_witness :
  let run := (joinClusterWithRetry (NodeEnv0 := lonely) seeds_b world_b).2 in
  jn_tried run = repeat ["gamma:50051"; "gamma:50052"; "100.64.0.2:50051"] 5 /\
  jn_delays run = [1000; 2000; 4000; 8000].
Proof.
  split; [by vm_compute|].
  pose proof (backoff_schedule (NodeEnv0 := lonely) seeds_b (NodeEnvLaws0 := sim_laws _ _ _) world_b) as H.
  assert (Hj : jn_joined (joinClusterWithRetry (NodeEnv0 := lonely) seeds_b world_b).2 = false) by by vm_compute.
  destruct (joinClusterWithRetry _ world_b) as [w' run]. cbn [snd] in *.
  destruct H as (Hd & _ & Hn & _); [by vm_compute|]. by rewrite Hd, (Hn Hj).
Defined.

Lemma never_calls_itself_witness :
  Forall (Forall (fun a => a <> "100.64.0.1:50051")) (jn_tried (joinClusterWithRetry (NodeEnv0 := lonely) seeds_b world_b).2) /\
  is_self seeds_b "100.64.0.1" "100.64.0.1:50051" = true.
Proof.
  split; [|by vm_compute].
  apply (never_calls_itself (NodeEnv0 := lonely) seeds_b "100.64.0.1" world_b); [by vm_compute|done|].
  intros w n Hn. vm_compute in Hn. apply list_elem_of_singleton in Hn as ->. by vm_compute.
Defined.

(** The MCP process listens on 50052.  A node that it finds while it waits between two
    attempts is asked on that port, where the cluster's nodes do not listen. *)
Example late_node_asked_on_wrong_port :
  jn_tried (joinClusterWithRetry
    (NodeEnv0 := sim_env (fun t => if t <? 1000 then None else found) (fun _ => false) (fun _ _ => None))
    (seeded ["gamma:50051"] 50052) world_b).2
  = ["gamma:50051"] :: repeat ["gamma:50051"; "100.64.0.2:50052"] 4.
Proof. by vm_compute. Qed.

(** ** A node that waits for approval *)

Definition pending_answer : RegisterResponse := mkRegisterResponse false true "" "" [] "".
Definition awaiting : SimWorld * bool :=
  joinOrCreateCluster (NodeEnv0 := sim_env (fun _ => None) (fun _ => true) (fun _ _ => Some pending_answer))
    (seeded ["gamma:50051"] 50051) world_b.

(** A node whose request waits for approval counts as joined, and its elections resume
    although it knows no peer: when its timer fires it becomes the leader of a cluster
    of its own. *)
Example pending_node_leads_alone :
  awaiting.2 = true /\
  let r := (member (NodeEnv := sim_env (fun _ => None) (fun _ => true) (fun _ _ => None)) awaiting.1).2 in
  electionTimeout r = true /\
  match electionTimerFires r with
  | (r, Some el) => el_calls el = [] /\ isLeader (finishElection (el_votesNeeded el) [] r).1 = true
  | _ => False
  end.
Proof. by vm_compute. Qed.
