(* ===== verification/Approval.v ===== *)
(** * Node approval (src/src/discovery/approval.ts)

    [requestApproval] is asynchronous: a call is answered at once, or it waits for
    the callback, or it waits for a decision, an expiry check every second and
    the disappearance of its request.  Every call gets a ticket; [aw_settled] is
    the list of the answers given so far, [aw_waiters] and [aw_calls] are the calls
    still waiting for a decision and for the callback. *)

From S2P Require Import Prelude JsMap JsString Membership.

(** ** Data *)

Record ApprovalRequest := mkApprovalRequest {
  ar_requestId : string;
  ar_node : NodeInfo;
  ar_requestedAt : Z;
  ar_expiresAt : Z;
  ar_ephemeral : bool
}.

Record ApprovalDecision := mkApprovalDecision {
  ad_requestId : string;
  ad_approved : bool;
  ad_decidedBy : string;
  ad_decidedAt : Z;
  ad_reason : option string
}.

Record ApprovalWorkflowConfig := mkApprovalConfig {
  ac_requestTimeoutMs : option Z;
  ac_autoApproveEphemeral : bool;
  ac_autoApproveTags : option (list string);
  ac_maxPendingRequests : option Z
}.

Inductive ApprovalEvent :=
  | ae_approvalRequired (r : ApprovalRequest)
  | ae_approvalExpired (r : ApprovalRequest)
  | ae_approvalCancelled (r : ApprovalRequest)
  | ae_approved (r : ApprovalRequest) (d : ApprovalDecision)
  | ae_rejected (r : ApprovalRequest) (d : ApprovalDecision).

(** A call of [requestApproval] that is still open. *)
Record Waiter := mkWaiter {
  w_ticket : nat;
  w_request : ApprovalRequest
}.

Record ApprovalWorkflow := mkApprovalWorkflow {
  aw_config : ApprovalWorkflowConfig;
  aw_pendingRequests : jsmap ApprovalRequest;
  aw_approvalCallback : bool;
  aw_cleanupInterval : bool;
  aw_waiters : list Waiter;
  aw_calls : list Waiter;
  aw_nextTicket : nat;
  aw_settled : list (nat * ApprovalDecision);
  aw_emitted : list ApprovalEvent
}.
#[export] Instance ApprovalWorkflow_eta : EtaRecord ApprovalWorkflow := fun w =>
  mkApprovalWorkflow (aw_config w) (aw_pendingRequests w) (aw_approvalCallback w)
    (aw_cleanupInterval w) (aw_waiters w) (aw_calls w) (aw_nextTicket w) (aw_settled w)
    (aw_emitted w).

Implicit Types (w : ApprovalWorkflow).

(** ** Operations *)

Definition new_ApprovalWorkflow (cfg : ApprovalWorkflowConfig) : ApprovalWorkflow :=
  mkApprovalWorkflow cfg [] false false [] [] 0 [] [].

Definition requestTimeoutMs w : Z := default (5 * 60 * 1000) (ac_requestTimeoutMs (aw_config w)).
Definition maxPending w : Z := default 100 (ac_maxPendingRequests (aw_config w)).

Definition start w : ApprovalWorkflow := w <| aw_cleanupInterval := true |>.
Definition stop w : ApprovalWorkflow := w <| aw_cleanupInterval := false |>.
Definition setApprovalCallback w : ApprovalWorkflow := w <| aw_approvalCallback := true |>.

Definition aw_emit (ev : ApprovalEvent) w : ApprovalWorkflow :=
  w <| aw_emitted ::= fun l => l ++ [ev] |>.

Definition settle (ticket : nat) (d : ApprovalDecision) w : ApprovalWorkflow :=
  w <| aw_settled ::= fun l => l ++ [(ticket, d)] |>.

Definition has_tag (tag : string) (n : NodeInfo) : bool := bool_decide (tag ∈ n_tags n).

Definition checkAutoApproval (n : NodeInfo) w : option string :=
  if ac_autoApproveEphemeral (aw_config w) && has_tag "ephemeral" n
  then Some "Ephemeral node auto-approved"
  else match ac_autoApproveTags (aw_config w) with
       | Some tags =>
           match List.find (fun t => has_tag t n) tags with
           | Some tag => Some ("Tag " +:+ tag +:+ " auto-approved")
           | None => None
           end
       | None => None
       end.

(** [requestApproval] up to its first [await]. *)
Definition requestApproval (now : Z) (n : NodeInfo) w : ApprovalWorkflow :=
  let ticket := aw_nextTicket w in
  let w := w <| aw_nextTicket := S ticket |> in
  let requestId := n_nodeId n +:+ "-" +:+ js_toString now in
  match checkAutoApproval n w with
  | Some reason => settle ticket (mkApprovalDecision requestId true "auto" now (Some reason)) w
  | None =>
      if maxPending w <=? jm_size (aw_pendingRequests w)
      then settle ticket
             (mkApprovalDecision requestId false "system" now (Some "Too many pending requests")) w
      else
        let request := mkApprovalRequest requestId n now (now + requestTimeoutMs w)
                         (has_tag "ephemeral" n) in
        let w := w <| aw_pendingRequests ::= fun m => jm_set m requestId request |> in
        let w := aw_emit (ae_approvalRequired request) w in
        if aw_approvalCallback w
        then w <| aw_calls ::= fun l => l ++ [mkWaiter ticket request] |>
        else w <| aw_waiters ::= fun l => l ++ [mkWaiter ticket request] |>
  end.

Definition waits_for (requestId : string) (x : Waiter) : bool :=
  String.eqb (ar_requestId (w_request x)) requestId.

(** [decide]: emitting [decision:requestId] answers the calls that listen. *)
Definition decide_request (now : Z) (requestId : string) (approved : bool) (decidedBy : string)
    (reason : option string) w : ApprovalDecision * ApprovalWorkflow :=
  match jm_get (aw_pendingRequests w) requestId with
  | None => (mkApprovalDecision requestId false "system" now (Some "Request not found"), w)
  | Some request =>
      let w := w <| aw_pendingRequests ::= fun m => jm_delete m requestId |> in
      let decision := mkApprovalDecision requestId approved decidedBy now reason in
      let answered := List.filter (waits_for requestId) (aw_waiters w) in
      let w := w <| aw_settled ::= fun l => l ++ map (fun x => (w_ticket x, decision)) answered |>
                 <| aw_waiters ::= List.filter (fun x => negb (waits_for requestId x)) |> in
      (decision, aw_emit (if approved then ae_approved request decision
                          else ae_rejected request decision) w)
  end.

Definition find_waiter (ticket : nat) (l : list Waiter) : option Waiter :=
  List.find (fun x => Nat.eqb (w_ticket x) ticket) l.
Definition drop_waiter (ticket : nat) (l : list Waiter) : list Waiter :=
  List.filter (fun x => negb (Nat.eqb (w_ticket x) ticket)) l.

(** The continuation of a call after [await approvalCallback(request)]: the
    callback's answer, or [None] when it threw. *)
Definition callback_returns (now : Z) (ticket : nat) (answer : option bool) w : ApprovalWorkflow :=
  match find_waiter ticket (aw_calls w) with
  | None => w
  | Some x =>
      let id := ar_requestId (w_request x) in
      let w := w <| aw_calls ::= drop_waiter ticket |> in
      match answer with
      | Some approved =>
          let '(d, w) := decide_request now id approved "callback" None w in settle ticket d w
      | None => settle ticket (mkApprovalDecision id false "system" now (Some "Callback error")) w
      end
  end.

(** The one-second check of a waiting call. *)
Definition check_fires (now : Z) (ticket : nat) w : ApprovalWorkflow :=
  match find_waiter ticket (aw_waiters w) with
  | None => w
  | Some x =>
      let id := ar_requestId (w_request x) in
      match jm_get (aw_pendingRequests w) id with
      | None =>
          settle ticket (mkApprovalDecision id false "unknown" now None)
            (w <| aw_waiters ::= drop_waiter ticket |>)
      | Some req =>
          if ar_expiresAt req <? now then
            let w := w <| aw_waiters ::= drop_waiter ticket |>
                       <| aw_pendingRequests ::= fun m => jm_delete m id |> in
            let w := aw_emit (ae_approvalExpired (w_request x)) w in
            settle ticket (mkApprovalDecision id false "timeout" now (Some "Request expired")) w
          else w
      end
  end.

Definition getPendingRequests w : list ApprovalRequest := jm_values (aw_pendingRequests w).
Definition getRequest (id : string) w : option ApprovalRequest := jm_get (aw_pendingRequests w) id.

Definition cancelRequest (id : string) w : bool * ApprovalWorkflow :=
  match jm_get (aw_pendingRequests w) id with
  | Some request =>
      (true, aw_emit (ae_approvalCancelled request)
               (w <| aw_pendingRequests ::= fun m => jm_delete m id |>))
  | None => (false, w)
  end.

(** The loop deletes entries of the map it iterates over, which visits every
    entry once. *)
Definition cleanupExpired (now : Z) w : ApprovalWorkflow :=
  fold_left (fun w kv =>
    if ar_expiresAt kv.2 <? now
    then aw_emit (ae_approvalExpired kv.2) (w <| aw_pendingRequests ::= fun m => jm_delete m kv.1 |>)
    else w) (aw_pendingRequests w) w.

(** ** Executions *)

Inductive ApprovalOp :=
  | op_request (now : Z) (n : NodeInfo)
  | op_decide (now : Z) (id : string) (approved : bool) (by_ : string) (reason : option string)
  | op_callback (now : Z) (ticket : nat) (answer : option bool)
  | op_check (now : Z) (ticket : nat)
  | op_cancel (id : string)
  | op_cleanup (now : Z)
  | op_setCallback
  | op_start
  | op_stop.

Definition perform (o : ApprovalOp) w : ApprovalWorkflow :=
  match o with
  | op_request now n => requestApproval now n w
  | op_decide now id approved by_ reason => (decide_request now id approved by_ reason w).2
  | op_callback now ticket answer => callback_returns now ticket answer w
  | op_check now ticket => check_fires now ticket w
  | op_cancel id => (cancelRequest id w).2
  | op_cleanup now => cleanupExpired now w
  | op_setCallback => setApprovalCallback w
  | op_start => start w
  | op_stop => stop w
  end.

Definition perform_all (ops : list ApprovalOp) w : ApprovalWorkflow := fold_left (fun w o => perform o w) ops w.

(** * What the approval workflow guarantees

    Every call is answered exactly once or still waiting, the number of pending
    requests is bounded, and a node is approved only by a configured rule, a
    decision or the callback. *)

(** ** Tickets *)

Definition tickets (w : ApprovalWorkflow) : list nat :=
  (aw_settled w).*1 ++ (w_ticket <$> aw_waiters w) ++ (w_ticket <$> aw_calls w).

Record approval_ok (w : ApprovalWorkflow) : Prop := {
  ok_keys : jm_wf (aw_pendingRequests w);
  ok_bound : jm_size (aw_pendingRequests w) <= Z.max 0 (maxPending w);
  ok_tickets : tickets w ≡ₚ seq 0 (aw_nextTicket w)
}.

Lemma filter_partition {A} (f : A -> bool) (l : list A) :
  l ≡ₚ List.filter f l ++ List.filter (fun x => negb (f x)) l.
Proof.
  induction l as [|x l IH]; cbn; [done|]. destruct (f x); cbn.
  - by rewrite <- IH.
  - rewrite <- Permutation_middle. by rewrite <- IH.
Qed.

Lemma find_drop_waiter t (l : list Waiter) x : NoDup (w_ticket <$> l) ->
  find_waiter t l = Some x -> w_ticket x = t /\ w_ticket <$> l ≡ₚ t :: (w_ticket <$> drop_waiter t l).
Proof.
  unfold find_waiter, drop_waiter. induction l as [|y l IH]; [done|]. cbn. intros Hnd.
  apply NoDup_cons in Hnd as [Hy Hnd]. destruct (Nat.eqb_spec (w_ticket y) t) as [Ht|Hne]; cbn.
  - intros [= ->]. split; [done|]. rewrite Ht. constructor.
    replace (List.filter _ l) with l; [done|]. symmetry. rewrite <- Ht. clear -Hy.
    induction l as [|z l IH]; [done|]. cbn in Hy. apply not_elem_of_cons in Hy as [H1 H2]. cbn.
    destruct (Nat.eqb_spec (w_ticket z) (w_ticket x)); [congruence|]. cbn. by rewrite IH.
  - intros Hf. destruct (IH Hnd Hf) as [Hx Hp]. split; [done|]. rewrite Hp. apply Permutation_swap.
Qed.

(** Operations that only remove pending requests keep the bound. *)
Lemma ok_shrink (w w' : ApprovalWorkflow) : approval_ok w ->
  aw_config w' = aw_config w -> aw_nextTicket w' = aw_nextTicket w ->
  jm_wf (aw_pendingRequests w') -> jm_size (aw_pendingRequests w') <= jm_size (aw_pendingRequests w) ->
  tickets w' ≡ₚ tickets w -> approval_ok w'.
Proof.
  intros [Hk Hb Ht] Hc Hn Hk' Hs Ht'. split; [done| |].
  - unfold maxPending in *. rewrite Hc. lia.
  - by rewrite Ht', Ht, Hn.
Qed.

Lemma ok_nodup (w : ApprovalWorkflow) : approval_ok w ->
  NoDup (w_ticket <$> aw_waiters w) /\ NoDup (w_ticket <$> aw_calls w).
Proof.
  intros [_ _ Ht]. assert (Hnd : NoDup (tickets w)) by (rewrite Ht; apply NoDup_seq).
  unfold tickets in Hnd. apply NoDup_app in Hnd as (_ & _ & Hnd). apply NoDup_app in Hnd. tauto.
Qed.

Lemma requestApproval_ok now n w : approval_ok w -> approval_ok (requestApproval now n w).
Proof.
  intros [Hk Hb Ht]. unfold requestApproval. cbv zeta.
  assert (Hseq : seq 0 (S (aw_nextTicket w)) ≡ₚ aw_nextTicket w :: seq 0 (aw_nextTicket w)).
  { rewrite seq_S. cbn. by rewrite Permutation_app_comm. }
  assert (Hsettle : forall d, approval_ok (settle (aw_nextTicket w) d (w <| aw_nextTicket := S (aw_nextTicket w) |>))).
  { intros d. split; cbn; [done|done|]. unfold tickets in *. cbn. rewrite Hseq, <- Ht, fmap_app. solve_Permutation. }
  destruct (checkAutoApproval _ _); [apply Hsettle|].
  destruct (Z.leb_spec (maxPending (w <| aw_nextTicket := S (aw_nextTicket w) |>))
    (jm_size (aw_pendingRequests (w <| aw_nextTicket := S (aw_nextTicket w) |>)))) as [|Hlt];
    [apply Hsettle|]. clear Hsettle. cbn in Hlt.
  set (id := n_nodeId n +:+ "-" +:+ js_toString now). set (req := mkApprovalRequest _ _ _ _ _).
  assert (Hsize : jm_size (jm_set (aw_pendingRequests w) id req) <= Z.max 0 (maxPending w)).
  { rewrite jm_size_set. unfold maxPending in *. cbn in Hlt. destruct (jm_has _ _); lia. }
  destruct (aw_approvalCallback _); (split; cbn; [by apply jm_wf_set|exact Hsize|]);
    unfold tickets in *; cbn; rewrite Hseq, <- Ht, fmap_app; cbn; solve_Permutation.
Qed.

Lemma decide_ok now id approved by_ reason w :
  approval_ok w -> approval_ok (decide_request now id approved by_ reason w).2.
Proof.
  intros Hok. unfold decide_request. destruct (jm_get _ id); [|done]. cbn [snd].
  apply (ok_shrink w); cbn; try done.
  - apply jm_wf_delete, Hok.
  - apply jm_size_delete_le.
  - unfold tickets. cbn. rewrite (filter_partition (waits_for id) (aw_waiters w)) at 3.
    rewrite !fmap_app, !app_assoc. do 2 f_equiv. f_equiv.
    by rewrite <- (list_fmap_compose (fun x => (w_ticket x, _)) fst).
Qed.

(** Answering an open call moves its ticket to the settled ones. *)
Lemma settle_waiter_tickets t d w x : approval_ok w -> find_waiter t (aw_waiters w) = Some x ->
  tickets (settle t d (w <| aw_waiters ::= drop_waiter t |>)) ≡ₚ tickets w.
Proof.
  intros Hok Hf. destruct (find_drop_waiter t _ x (proj1 (ok_nodup w Hok)) Hf) as [_ Hp].
  unfold tickets. cbn. rewrite Hp, fmap_app. cbn. solve_Permutation.
Qed.

Lemma settle_call_ok t d w x : approval_ok w -> find_waiter t (aw_calls w) = Some x ->
  approval_ok (settle t d (w <| aw_calls ::= drop_waiter t |>)).
Proof.
  intros Hok Hf. destruct (find_drop_waiter t _ x (proj2 (ok_nodup w Hok)) Hf) as [_ Hp].
  apply (ok_shrink w); cbn; try done; [apply Hok|].
  unfold tickets. cbn. rewrite Hp, fmap_app. cbn. solve_Permutation.
Qed.

(** [decide] neither reads nor changes the calls that wait for the callback. *)
Lemma decide_calls_settle now id approved by_ reason t d w :
  settle t d (decide_request now id approved by_ reason (w <| aw_calls ::= drop_waiter t |>)).2 =
    let w' := (decide_request now id approved by_ reason w).2 in
    settle t d (w' <| aw_calls ::= drop_waiter t |>).
Proof. unfold decide_request. cbn. by destruct (jm_get _ id). Qed.

Lemma decide_calls now id approved by_ reason w :
  aw_calls (decide_request now id approved by_ reason w).2 = aw_calls w.
Proof. unfold decide_request. by destruct (jm_get _ id). Qed.

Lemma callback_ok now t answer w : approval_ok w -> approval_ok (callback_returns now t answer w).
Proof.
  intros Hok. unfold callback_returns. destruct (find_waiter t (aw_calls w)) as [x|] eqn:E; [|done].
  destruct answer as [a|]; [|by eapply settle_call_ok].
  destruct (decide_request _ _ _ _ _ (w <| aw_calls ::= drop_waiter t |>)) as [d w'] eqn:Ed.
  pose proof (decide_calls_settle now (ar_requestId (w_request x)) a "callback" None t d w) as Hs.
  rewrite Ed in Hs. cbn [snd] in Hs. rewrite Hs. cbv zeta.
  eapply (settle_call_ok _ _ _ x); [by apply decide_ok|]. by rewrite decide_calls.
Qed.

Lemma check_ok now t w : approval_ok w -> approval_ok (check_fires now t w).
Proof.
  intros Hok. unfold check_fires. destruct (find_waiter t (aw_waiters w)) as [x|] eqn:E; [|done].
  destruct (jm_get _ _) as [req|].
  - destruct (ar_expiresAt req <? now); [|done]. apply (ok_shrink w); cbn; try done.
    + apply jm_wf_delete, Hok.
    + apply jm_size_delete_le.
    + by eapply (settle_waiter_tickets t _ w x).
  - apply (ok_shrink w); cbn; try done; [apply Hok|]. by eapply settle_waiter_tickets.
Qed.

Lemma cleanup_ok now w : approval_ok w -> approval_ok (cleanupExpired now w).
Proof.
  unfold cleanupExpired. generalize (aw_pendingRequests w) as l. intros l. revert w.
  induction l as [|kv l IH]; intros w Hok; [done|]. cbn [fold_left]. apply IH.
  destruct (ar_expiresAt kv.2 <? now); [|done]. apply (ok_shrink w); cbn; try done.
  - apply jm_wf_delete, Hok.
  - apply jm_size_delete_le.
Qed.

Lemma perform_ok o w : approval_ok w -> approval_ok (perform o w).
Proof.
  intros Hok. destruct o; cbn [perform]; eauto using requestApproval_ok, decide_ok, callback_ok, check_ok, cleanup_ok;
    try (destruct Hok; by split).
  unfold cancelRequest. destruct (jm_get _ id); [|done]. apply (ok_shrink w); cbn; try done.
  - apply jm_wf_delete, Hok.
  - apply jm_size_delete_le.
Qed.

(** Every approval call is answered once, and pending requests are bounded.
    After any sequence of requests, decisions, callback answers, expiry checks,
    cancellations and clean-ups, each call made so far either has exactly one
    answer or is still waiting, never both, and at most [maxPendingRequests]
    requests are pending. *)
Theorem approval_calls_settle cfg ops :
  let w := perform_all ops (new_ApprovalWorkflow cfg) in
  tickets w ≡ₚ seq 0 (aw_nextTicket w) /\
  jm_size (aw_pendingRequests w) <= Z.max 0 (default 100 (ac_maxPendingRequests cfg)).
Proof.
  assert (Hok : forall ops w, approval_ok w -> approval_ok (perform_all ops w)).
  { unfold perform_all. intros l. induction l as [|o l IH]; intros w Hw; [done|].
    cbn. by apply IH, perform_ok. }
  assert (Hcfg : forall ops w, aw_config (perform_all ops w) = aw_config w).
  { unfold perform_all. intros l. induction l as [|o l IH]; intros w; [done|]. cbn. rewrite IH.
    destruct o; cbn; try done.
    - unfold requestApproval. by repeat case_match.
    - unfold decide_request. by repeat case_match.
    - unfold callback_returns, decide_request. repeat case_match; by simplify_eq.
    - unfold check_fires. by repeat case_match.
    - unfold cancelRequest. by repeat case_match.
    - unfold cleanupExpired. generalize (aw_pendingRequests w) as m. intros m. revert w.
      induction m as [|kv m IHm]; intros w; [done|]. cbn. rewrite IHm. by case_match. }
  destruct (Hok ops (new_ApprovalWorkflow cfg)) as [_ Hb Ht].
  { split; cbn; [apply NoDup_nil_2|unfold jm_size, js_length; cbn; lia|done]. }
  cbv zeta. split; [done|]. unfold maxPending in Hb. by rewrite Hcfg in Hb.
Qed.

(** ** Authority *)

(** The configured rules: ephemeral nodes are let in, or a tag of the node is listed. *)
Definition by_rule (cfg : ApprovalWorkflowConfig) (n : NodeInfo) : Prop :=
  ac_autoApproveEphemeral cfg = true /\ "ephemeral" ∈ n_tags n \/
  exists tags tag, ac_autoApproveTags cfg = Some tags /\ tag ∈ tags /\ tag ∈ n_tags n.

Lemma checkAutoApproval_rule n w : is_Some (checkAutoApproval n w) <-> by_rule (aw_config w) n.
Proof.
  unfold checkAutoApproval, by_rule, has_tag.
  destruct (ac_autoApproveEphemeral (aw_config w)) eqn:Ee; cbn [andb].
  1: case_bool_decide as He; [split; [intros _; by left|by eexists]|].
  all: destruct (ac_autoApproveTags (aw_config w)) as [tags|].
  2,4: split; [by intros []|by intros [[? ?]|(? & ? & ? & _)]].
  all: destruct (List.find _ tags) as [tag|] eqn:Ef.
  1,3: apply find_some in Ef as [H1%list_elem_of_In H2]; prop_of_bool; (split; [intros _; right; eauto|by eexists]).
  all: (split; [by intros []|intros [[? ?]|(l & tag & [= <-] & Ht%list_elem_of_In & Hn)]; [done|]]);
    pose proof (find_none _ _ Ef tag Ht) as Hf; cbv beta in Hf; by rewrite bool_decide_true in Hf.
Qed.

(** The requests of a run in order: the one at position [t] got the ticket [t]. *)
Definition requests (ops : list ApprovalOp) : list (Z * NodeInfo) :=
  omap (fun o => match o with op_request now n => Some (now, n) | _ => None end) ops.
Definition request_id (q : Z * NodeInfo) : string := n_nodeId q.2 +:+ "-" +:+ js_toString q.1.

(** A positive decision or answer of the callback about the request [id], by [by_]. *)
Definition approves (o : ApprovalOp) (w : ApprovalWorkflow) (id by_ : string) : Prop :=
  match o with
  | op_decide _ id' true by' _ => id' = id /\ by' = by_
  | op_callback _ t (Some true) =>
      by_ = "callback" /\ exists x, x ∈ aw_calls w /\ w_ticket x = t /\ ar_requestId (w_request x) = id
  | _ => False
  end.

Section authority.
Context (cfg : ApprovalWorkflowConfig).
Definition after (ops : list ApprovalOp) : ApprovalWorkflow := perform_all ops (new_ApprovalWorkflow cfg).

(** The call with the ticket [t] made the request [q] and waits. *)
Definition open_call (ops : list ApprovalOp) (t : nat) : Prop :=
  exists x, x ∈ aw_waiters (after ops) ++ aw_calls (after ops) /\ w_ticket x = t.

Definition entitled (ops : list ApprovalOp) (t : nat) (d : ApprovalDecision) : Prop :=
  exists q, requests ops !! t = Some q /\ ad_requestId d = request_id q /\
    (by_rule cfg q.2 /\ ad_decidedBy d = "auto" \/
     exists before o later, ops = before ++ o :: later /\
       approves o (after before) (request_id q) (ad_decidedBy d) /\
       is_Some (getRequest (request_id q) (after before)) /\ open_call before t).

Record traced_ok (ops : list ApprovalOp) (w : ApprovalWorkflow) : Prop := {
  tr_config : aw_config w = cfg;
  tr_next : aw_nextTicket w = length (requests ops);
  tr_open x : x ∈ aw_waiters w ++ aw_calls w ->
    exists q, requests ops !! w_ticket x = Some q /\ ar_requestId (w_request x) = request_id q;
  tr_settled t d : (t, d) ∈ aw_settled w -> ad_approved d = true -> entitled ops t d;
  tr_rule t q : requests ops !! t = Some q -> by_rule cfg q.2 ->
    exists d, (t, d) ∈ aw_settled w /\ ad_approved d = true
}.

Lemma requests_snoc ops o : requests (ops ++ [o]) = requests ops ++ requests [o].
Proof. apply omap_app. Qed.

Lemma entitled_later ops o t d : entitled ops t d -> entitled (ops ++ [o]) t d.
Proof.
  intros (q & Hq & Hid & H). exists q. rewrite requests_snoc. split; [by apply lookup_app_l_Some|]. split; [done|].
  destruct H as [H|(before & o' & later & -> & H)]; [by left|right]. exists before, o', (later ++ [o]).
  split; [by rewrite <- app_assoc|exact H].
Qed.

(** A step that makes no request. *)
Lemma traced_step ops o w w' new : traced_ok ops w -> requests [o] = [] ->
  aw_config w' = aw_config w -> aw_nextTicket w' = aw_nextTicket w ->
  (forall x, x ∈ aw_waiters w' ++ aw_calls w' -> x ∈ aw_waiters w ++ aw_calls w) ->
  aw_settled w' = aw_settled w ++ new ->
  (forall t d, (t, d) ∈ new -> ad_approved d = true -> entitled (ops ++ [o]) t d) -> traced_ok (ops ++ [o]) w'.
Proof.
  intros [H1 H2 H3 H4 H5] Ho Hc Hn Hx Hs Hnew. split; rewrite ?requests_snoc, ?Ho, ?app_nil_r, ?Hs.
  - by rewrite Hc.
  - by rewrite Hn.
  - intros x Hin. by apply H3, Hx.
  - intros t d [Hin|Hin]%elem_of_app Ha; [by apply entitled_later, H4|by apply Hnew].
  - intros t q Hq Hr. destruct (H5 t q Hq Hr) as (d & Hd & Ha). exists d. split; [|done]. apply elem_of_app. by left.
Qed.

Lemma traced_same ops o w w' : traced_ok ops w -> requests [o] = [] -> aw_config w' = aw_config w ->
  aw_nextTicket w' = aw_nextTicket w -> aw_waiters w' = aw_waiters w -> aw_calls w' = aw_calls w ->
  aw_settled w' = aw_settled w -> traced_ok (ops ++ [o]) w'.
Proof.
  intros H Ho Hc Hn Hw Hl Hs. apply (traced_step ops o w w' [] H Ho Hc Hn); [by rewrite Hw, Hl|by rewrite app_nil_r|].
  by intros t d ?%elem_of_nil.
Qed.

Lemma traced_request ops now n w : traced_ok ops w -> traced_ok (ops ++ [op_request now n]) (requestApproval now n w).
Proof.
  intros [H1 H2 H3 H4 H5].
  assert (Hreq : requests (ops ++ [op_request now n]) = requests ops ++ [(now, n)]) by apply requests_snoc.
  assert (Hlast : requests (ops ++ [op_request now n]) !! length (requests ops) = Some (now, n))
    by (rewrite Hreq, lookup_app_r, Nat.sub_diag by lia; done).
  assert (Hold : forall t q, requests (ops ++ [op_request now n]) !! t = Some q ->
    requests ops !! t = Some q \/ t = length (requests ops) /\ q = (now, n)).
  { intros t q. rewrite Hreq. intros [Hq|[Hl Hq]]%lookup_app_Some; [by left|right].
    apply list_lookup_singleton_Some in Hq as [? <-]. split; [lia|done]. }
  assert (Hopen : forall x, (exists q, requests ops !! w_ticket x = Some q /\ ar_requestId (w_request x) = request_id q) ->
    exists q, requests (ops ++ [op_request now n]) !! w_ticket x = Some q /\ ar_requestId (w_request x) = request_id q).
  { intros x (q & Hq & Hid). exists q. split; [|done]. rewrite Hreq. by apply lookup_app_l_Some. }
  pose proof (checkAutoApproval_rule n w) as Hrule. rewrite H1 in Hrule.
  assert (Hlen : S (length (requests ops)) = length (requests (ops ++ [op_request now n]))).
  { rewrite Hreq, length_app. cbn. lia. }
  unfold requestApproval. cbv zeta. change (checkAutoApproval n (w <| aw_nextTicket := S (aw_nextTicket w) |>))
    with (checkAutoApproval n w). rewrite H2.
  destruct (checkAutoApproval n w) as [reason|].
  - split; cbn [settle aw_config aw_nextTicket aw_waiters aw_calls aw_settled field_update]; [done|done| |..].
    + intros x Hx. by apply Hopen, H3.
    + intros t d [Hin|Hin]%elem_of_app Ha; [by apply entitled_later, H4|].
      apply list_elem_of_singleton in Hin as [= -> ->]. exists (now, n). split; [done|]. split; [done|]. left.
      split; [by apply Hrule|done].
    + intros t q Hq Hr. apply Hold in Hq as [Hq|[-> ->]].
      * destruct (H5 t q Hq Hr) as (d & Hd & Ha). exists d. split; [|done]. apply elem_of_app. by left.
      * eexists. split; [apply elem_of_app; right; by left|done].
  - assert (Hno : ~ by_rule cfg n) by (intros Hr; by apply Hrule in Hr as []).
    destruct (_ <=? _).
    + split; cbn [settle aw_config aw_nextTicket aw_waiters aw_calls aw_settled field_update]; [done|done| |..].
      * intros x Hx. by apply Hopen, H3.
      * intros t d [Hin|Hin]%elem_of_app Ha; [by apply entitled_later, H4|].
        by apply list_elem_of_singleton in Hin as [= -> ->].
      * intros t q Hq Hr. apply Hold in Hq as [Hq|[-> ->]]; [|done].
        destruct (H5 t q Hq Hr) as (d & Hd & Ha). exists d. split; [|done]. apply elem_of_app. by left.
    + set (x0 := mkWaiter _ _).
      assert (Hx0 : exists q, requests (ops ++ [op_request now n]) !! w_ticket x0 = Some q /\
        ar_requestId (w_request x0) = request_id q) by (by exists (now, n)).
      assert (Hs : forall t d, (t, d) ∈ aw_settled w -> ad_approved d = true -> entitled (ops ++ [op_request now n]) t d)
        by (intros; by apply entitled_later, H4).
      assert (Hr : forall t q, requests (ops ++ [op_request now n]) !! t = Some q -> by_rule cfg q.2 ->
        exists d, (t, d) ∈ aw_settled w /\ ad_approved d = true).
      { intros t q Hq Hr. apply Hold in Hq as [Hq|[-> ->]]; [|done]. by apply (H5 t q). }
      destruct (aw_approvalCallback _); (split; [done|done| |exact Hs|exact Hr]);
        cbn [aw_emit aw_waiters aw_calls field_update]; intros x Hx.
      * rewrite app_assoc in Hx. apply elem_of_app in Hx as [Hx| ->%list_elem_of_singleton]; [by apply Hopen, H3|done].
      * rewrite <- app_assoc in Hx. apply elem_of_app in Hx as [Hx|[->|Hx]%elem_of_cons]; [|done|];
          apply Hopen, H3, elem_of_app; auto.
Qed.

(** What [decide] answers: the calls that wait for this request, while it is pending. *)
Lemma decide_settled now id approved by_ reason w :
  let r := decide_request now id approved by_ reason w in
  (ad_approved r.1 = true -> approved = true /\ is_Some (getRequest id w) /\ ad_decidedBy r.1 = by_) /\
  ad_requestId r.1 = id /\
  (exists new, aw_settled r.2 = aw_settled w ++ new /\
     forall t d, (t, d) ∈ new -> d = r.1 /\ exists x, x ∈ aw_waiters w /\ w_ticket x = t /\ ar_requestId (w_request x) = id) /\
  aw_config r.2 = aw_config w /\ aw_nextTicket r.2 = aw_nextTicket w /\ aw_calls r.2 = aw_calls w /\
  (forall x, x ∈ aw_waiters r.2 -> x ∈ aw_waiters w).
Proof.
  unfold decide_request, getRequest. destruct (jm_get _ id) as [req|]; cbn.
  - split_and!; [done|done| |by destruct approved..|].
    + eexists. split; [by destruct approved|]. intros t d Hin. apply list_elem_of_In, in_map_iff in Hin as (x & [= <- <-] & Hx).
      apply filter_In in Hx as [Hx Hw]. unfold waits_for in Hw. prop_of_bool. split; [done|]. exists x.
      split; [by apply list_elem_of_In|done].
    + intros x Hx. assert (Hx' : x ∈ List.filter (fun x => negb (waits_for id x)) (aw_waiters w)) by (by destruct approved).
      apply list_elem_of_In, filter_In in Hx' as [Hx' _]. by apply list_elem_of_In.
  - split_and!; try done. exists []. split; [by rewrite app_nil_r|]. by intros t d ?%elem_of_nil.
Qed.

Lemma find_waiter_Some t l x : find_waiter t l = Some x -> x ∈ l /\ w_ticket x = t.
Proof.
  intros [H1 H2%Nat.eqb_eq]%find_some. split; [by apply list_elem_of_In|done].
Qed.
Lemma elem_of_drop t l x : x ∈ drop_waiter t l -> x ∈ l.
Proof. intros [H _]%list_elem_of_In%filter_In. by apply list_elem_of_In. Qed.

(** Who waits for a request that is approved is entitled to the answer. *)
Lemma entitled_now ops o t d x : traced_ok ops (after ops) -> x ∈ aw_waiters (after ops) ++ aw_calls (after ops) ->
  w_ticket x = t -> ad_requestId d = ar_requestId (w_request x) ->
  approves o (after ops) (ad_requestId d) (ad_decidedBy d) -> is_Some (getRequest (ad_requestId d) (after ops)) ->
  entitled (ops ++ [o]) t d.
Proof.
  intros Hok Hx <- Hid Ho Hp. destruct (tr_open _ _ Hok x Hx) as (q & Hq & Hid').
  assert (E : ad_requestId d = request_id q) by congruence. rewrite E in Ho, Hp.
  exists q. rewrite requests_snoc. split; [by apply lookup_app_l_Some|]. split; [done|]. right.
  exists ops, o, []. split_and!; [done|done|done|]. by exists x.
Qed.

Lemma traced_decide ops now id approved by_ reason : traced_ok ops (after ops) ->
  traced_ok (ops ++ [op_decide now id approved by_ reason]) (decide_request now id approved by_ reason (after ops)).2.
Proof.
  intros Hok. destruct (decide_settled now id approved by_ reason (after ops)) as (Ha & Hi & (new & Hs & Hn) & Hc & Ht & Hl & Hw).
  eapply traced_step; [exact Hok|done|exact Hc|exact Ht| |exact Hs|].
  - intros x. rewrite Hl. intros [Hx|Hx]%elem_of_app; apply elem_of_app; auto.
  - intros t d Hin Had. destruct (Hn t d Hin) as (-> & x & Hx & Hxt & Hxi). destruct (Ha Had) as (-> & Hp & Hb).
    eapply (entitled_now ops _ t _ x); [done|apply elem_of_app; by left|done|by rewrite Hi| |by rewrite Hi].
    cbn. by rewrite Hi, Hb.
Qed.

Lemma traced_callback ops now t answer : traced_ok ops (after ops) ->
  traced_ok (ops ++ [op_callback now t answer]) (callback_returns now t answer (after ops)).
Proof.
  intros Hok. unfold callback_returns. destruct (find_waiter t (aw_calls (after ops))) as [x|] eqn:E.
  2: by apply (traced_same ops _ (after ops)).
  destruct (find_waiter_Some _ _ _ E) as [Hx Ht]. destruct answer as [a|].
  - set (w1 := (after ops) <| aw_calls ::= drop_waiter t |>).
    pose proof (decide_settled now (ar_requestId (w_request x)) a "callback" None w1) as Hd.
    destruct (decide_request _ _ _ _ _ _) as [d w'].
    destruct Hd as (Ha & Hi & (new & Hs & Hn) & Hc & Hnx & Hl & Hw). cbn [fst snd] in *.
    assert (Hap : ad_approved d = true -> approves (op_callback now t (Some a)) (after ops) (ad_requestId d) (ad_decidedBy d) /\
      is_Some (getRequest (ad_requestId d) (after ops))).
    { intros Had. destruct (Ha Had) as (-> & Hp & Hb). rewrite Hi, Hb. split; [|exact Hp]. split; [done|]. exists x. split_and!; [exact Hx|exact Ht|done]. }
    eapply (traced_step ops _ (after ops) _ (new ++ [(t, d)])); [exact Hok|done|exact Hc|exact Hnx| | |].
    + intros y. change (aw_waiters (settle t d w')) with (aw_waiters w'). change (aw_calls (settle t d w')) with (aw_calls w').
      rewrite Hl. intros [Hy|Hy]%elem_of_app; apply elem_of_app; [left; by apply Hw|right; exact (elem_of_drop t _ y Hy)].
    + cbn. rewrite Hs. by rewrite <- app_assoc.
    + intros t' d' Hin Had. apply elem_of_app in Hin as [Hin|Hin].
      * destruct (Hn t' d' Hin) as (-> & y & Hy & Hyt & Hyi). destruct (Hap Had).
        eapply (entitled_now ops _ t' d y); [done|apply elem_of_app; by left|done|by rewrite Hi|done|done].
      * apply list_elem_of_singleton in Hin as [= -> ->]. destruct (Hap Had).
        eapply (entitled_now ops _ t d x); [done|apply elem_of_app; by right|done|done|done|done].
  - eapply (traced_step ops _ (after ops)); [exact Hok|done|done|done| |done|].
    + intros y [Hy|Hy]%elem_of_app; apply elem_of_app; [by left|right; exact (elem_of_drop t _ y Hy)].
    + by intros t' d' [= -> ->]%list_elem_of_singleton.
Qed.

Lemma traced_check ops now t : traced_ok ops (after ops) ->
  traced_ok (ops ++ [op_check now t]) (check_fires now t (after ops)).
Proof.
  intros Hok. unfold check_fires. destruct (find_waiter t _) as [x|]; [|by apply (traced_same ops _ (after ops))].
  assert (Hsub : forall y, y ∈ drop_waiter t (aw_waiters (after ops)) ++ aw_calls (after ops) ->
    y ∈ aw_waiters (after ops) ++ aw_calls (after ops)).
  { intros y [Hy|Hy]%elem_of_app; apply elem_of_app; [left; exact (elem_of_drop t _ y Hy)|by right]. }
  destruct (jm_get _ _) as [req|]; [destruct (ar_expiresAt req <? now); [|by apply (traced_same ops _ (after ops))]|].
  all: eapply (traced_step ops _ (after ops)); [exact Hok|done|done|done|exact Hsub|done|].
  all: by intros t' d' [= -> ->]%list_elem_of_singleton.
Qed.

Lemma traced_cleanup ops now : traced_ok ops (after ops) ->
  traced_ok (ops ++ [op_cleanup now]) (cleanupExpired now (after ops)).
Proof.
  intros Hok. assert (Hsame : forall m w, let w' := fold_left (fun w (kv : string * ApprovalRequest) =>
      if ar_expiresAt kv.2 <? now
      then aw_emit (ae_approvalExpired kv.2) (w <| aw_pendingRequests ::= fun m => jm_delete m kv.1 |>) else w) m w in
    aw_config w' = aw_config w /\ aw_nextTicket w' = aw_nextTicket w /\ aw_waiters w' = aw_waiters w /\
    aw_calls w' = aw_calls w /\ aw_settled w' = aw_settled w).
  { induction m as [|kv m IH]; intros w; [done|]. cbn [fold_left]. cbv zeta in IH |- *.
    destruct (IH (if ar_expiresAt kv.2 <? now then aw_emit (ae_approvalExpired kv.2)
      (w <| aw_pendingRequests ::= fun m => jm_delete m kv.1 |>) else w)) as (-> & -> & -> & -> & ->). by case_match. }
  destruct (Hsame (aw_pendingRequests (after ops)) (after ops)) as (H1 & H2 & H3 & H4 & H5).
  by apply (traced_same ops _ (after ops)).
Qed.

Lemma traced_after ops : traced_ok ops (after ops).
Proof.
  induction ops as [|o ops IH] using rev_ind.
  { split; cbn; try done; [intros x []%elem_of_nil|intros t d []%elem_of_nil]. }
  assert (E : after (ops ++ [o]) = perform o (after ops)) by (unfold after, perform_all; by rewrite fold_left_app).
  rewrite E. destruct o; cbn [perform]; auto using traced_request, traced_decide, traced_callback, traced_check, traced_cleanup;
    apply (traced_same ops _ (after ops)); try done; unfold cancelRequest; by case_match.
Qed.

(** C35: approval needs authority.  Take any sequence of requests, decisions, answers of
    the callback, expiry checks, cancellations and clean-ups.  Every call that is answered
    with an approval is answered for the request that it made; and the node of that
    request is covered by a configured rule (it is ephemeral and these are let in, or it
    has a listed tag), or else, at a moment when the call was open and its request
    pending, that very request was decided positively, by whom the answer names, or the
    callback asked about it answered yes.  And a call for a node that a rule covers is
    answered with an approval. *)
Theorem approval_needs_authority ops :
  (forall t d, (t, d) ∈ aw_settled (after ops) -> ad_approved d = true -> entitled ops t d) /\
  (forall t q, requests ops !! t = Some q -> by_rule cfg q.2 ->
     exists d, (t, d) ∈ aw_settled (after ops) /\ ad_approved d = true).
Proof. destruct (traced_after ops) as [_ _ _ H1 H2]. by split. Qed.
End authority.

(** Two calls wait; the decision of one answers that one. *)
Example decision_answers_its_call :
  let node id := mkNodeInfo id id "100.64.0.9" 50051 role_follower pending_approval None [] 0 0 in
  let w := after (mkApprovalConfig None false None None)
    [op_request 5 (node "a"); op_request 6 (node "b"); op_decide 7 "b-6" true "admin" None] in
  (fun td => (td.1, ad_approved td.2, ad_decidedBy td.2)) <$> aw_settled w = [(1%nat, true, "admin")] /\
  w_ticket <$> aw_waiters w = [0%nat].
Proof. by vm_compute. Qed.
