(* ===== verification/ClusterHandlers.v ===== *)
(** * The cluster service on the wire (createClusterServiceHandlers of
      src/src/grpc/handlers.ts)

    RegisterNode, DeregisterNode, Heartbeat, GetClusterState and
    TransferLeadership act on the membership manager, the Raft node and the state
    manager of the process.  A handler that waits for an entry to be replicated is
    given up to its await together with the calls it started, as in Membership.v,
    and RegisterNode also from there, since it reads the node table after it;
    TransferLeadership is split at its TimeoutNow call. *)

From S2P Require Import Prelude JsMap JsString Grpc Raft RaftWire Membership ClusterState.
From Stdlib Require Import QArith.
#[local] Open Scope Z_scope.

Section handlers.
Context {D : Type} `{!EmptyBuffer D} `{!MembershipCodec D}.
Implicit Types (mm : MembershipManager) (raft : RaftNode D).

(** ** Registration *)

Record ProtoRegisterResponse := mkProtoRegisterResponse {
  prr_approved : bool;
  prr_pending_approval : bool;
  prr_cluster_id : string;
  prr_leader_address : string;
  prr_peers : list ProtoNode;
  prr_build_hash : string
}.

(** The node a request describes; the role and the status are the handler's. *)
Definition registered_node (now : Z) (p : ProtoNode) : NodeInfo :=
  mkNodeInfo (pn_node_id p) (pn_hostname p) (pn_tailscale_ip p) (pn_grpc_port p)
    role_follower pending_approval None (pn_tags p) now now.

Definition register_message (localBuildHash : string) (result : JoinResult) : ProtoRegisterResponse :=
  mkProtoRegisterResponse (jr_approved result) (jr_pendingApproval result)
    (jr_clusterId result) (jr_leaderAddress result) (state_node_proto <$> jr_peers result) localBuildHash.

(** The handler fails, answers at once, or waits for the approval of the node. *)
Inductive RegisterOutcome :=
  | register_failed (e : GrpcError)
  | register_answered (p : ProtoRegisterResponse)
  | register_waits (n : NodeInfo) (success : bool).

Definition RegisterNode (now : Z) (localBuildHash : string) (node : option ProtoNode)
    (st : MembershipManager * RaftNode D) :
    RegisterOutcome * (MembershipManager * RaftNode D) * list (AppendCall D) :=
  match node with
  | None => (register_failed (read_of_null "node_id"), st, [])
  | Some p =>
      let n := registered_node now p in
      let '(result, st, calls) := handleJoinRequest n st in
      (match result with
       | join_answered r => register_answered (register_message localBuildHash r)
       | join_approving success => register_waits n success
       end, st, calls)
  end.

(** The answer after the wait. *)
Definition RegisterNode_approved (localBuildHash : string) (n : NodeInfo) (success : bool)
    (mm : MembershipManager) : ProtoRegisterResponse * MembershipManager :=
  let '(result, mm) := handleJoinRequest_approved n success mm in
  (register_message localBuildHash result, mm).

(** What [joinClusterWithRedirect] reads of the answer. *)
Definition register_response (p : ProtoRegisterResponse) : option RegisterResponse :=
  peers ← mapM protoToNode (prr_peers p);
  Some (mkRegisterResponse (prr_approved p) (prr_pending_approval p) (prr_cluster_id p)
          (prr_leader_address p) peers (prr_build_hash p)).

(** DeregisterNode; [graceful] is a proto3 bool, never missing. *)
Definition DeregisterNode (node_id : string) (graceful : bool) (st : MembershipManager * RaftNode D) :
    bool * (MembershipManager * RaftNode D) * list (AppendCall D) :=
  removeNode node_id graceful st.

(** ** Heartbeats *)

(** The resources a heartbeat carries; [None] for a field that is not a number. *)
Definition gpu_of_proto (g : ProtoGpu) : option GpuInfo :=
  total ← parseInt (pg_memory_bytes g);
  available ← parseInt (pg_memory_available_bytes g);
  Some (mkGpuInfo (pg_name g) total available (pg_utilization_percent g) (pg_in_use_for_gaming g)).

Definition resources_of_proto (p : ProtoResources) : option NodeResources :=
  memory ← parseInt (Membership.pr_memory_bytes p);
  memoryAvailable ← parseInt (pr_memory_available_bytes p);
  gpus ← mapM gpu_of_proto (pr_gpus p);
  disk ← parseInt (pr_disk_bytes p);
  diskAvailable ← parseInt (pr_disk_available_bytes p);
  Some (mkNodeResources (Membership.pr_cpu_cores p) memory memoryAvailable gpus disk diskAvailable
          (pr_cpu_usage_percent p) (pr_gaming_detected p)).

Record ProtoHeartbeat := mkProtoHeartbeat {
  phb_node_id : string;
  phb_resources : option ProtoResources
}.

(** The request that [sendHeartbeat] sends for its own node. *)
Definition heartbeat_request mm : option ProtoHeartbeat :=
  self ← getSelfNode mm;
  Some (mkProtoHeartbeat (m_nodeId (mm_config mm)) (resourcesToProto <$> n_resources self)).

(** The object of the table is updated in place. *)
Definition touch (now : Z) (n : NodeInfo) : NodeInfo :=
  let n := n <| n_lastSeen := now |> in
  if bool_decide (n_status n = offline) then n <| n_status := active |> else n.

Definition Heartbeat (now : Z) (p : ProtoHeartbeat) mm raft :
    option (HeartbeatResponse * MembershipManager) :=
  let mm := update_node (phb_node_id p) (touch now) mm in
  let answer mm :=
    Some (mkHeartbeatResponse true (default "" (getLeaderAddress mm)) (default "" (leaderId raft)), mm) in
  match phb_resources p with
  | None => answer mm
  | Some res => r ← resources_of_proto res; answer (updateNodeResources now (phb_node_id p) r mm)
  end.

(** ** The cluster state *)

(** The ids that Raft holds alive: at the leader, its own and those of the peers
    that have replicated something, or of all peers while nothing is committed. *)
Definition raftAlive (selfId : string) raft : list string :=
  if isLeader raft then
    selfId :: omap (fun p => if (0 <? p_matchIndex p) || (commitIndex raft =? 0)
                             then Some (p_nodeId p) else None) (getPeers raft)
  else [].

Definition reported_status (alive : list string) (n : NodeInfo) : NodeStatus :=
  if bool_decide (n_nodeId n ∈ alive) then active else n_status n.

Definition reported_node (alive : list string) (n : NodeInfo) : ProtoNode :=
  nodeToProto (n <| n_status := reported_status alive n |>).

Definition GetClusterState (selfId : string) mm raft (st : ClusterStateManager) :
    ProtoClusterState * MembershipManager :=
  let '(s, mm) := getState mm raft st in
  let alive := raftAlive selfId raft in
  (mkProtoClusterState (cs_clusterId s) (default "" (cs_leaderId s)) (js_toString (cs_term s))
     (map (reported_node alive) (cs_nodes s)) (resources_proto (cs_totalResources s))
     (resources_proto (cs_availableResources s)) (cs_activeTasks s) (cs_queuedTasks s), mm).

(** ** Transfer of the leadership *)

Record TransferResponse := mkTransferResponse { tl_success : bool; tl_message : string }.

(** The TimeoutNow call: the address, the leader's id and its term. *)
Record TimeoutNowCall := mkTimeoutNowCall {
  tn_address : string;
  tn_from_leader_id : string;
  tn_term : string
}.

Definition transferTarget (targetNodeId : string) raft : option PeerInfo :=
  List.find (fun p => String.eqb (p_nodeId p) targetNodeId || js_startsWith (p_nodeId p) targetNodeId)
    (getPeers raft).

(** [hasPool] is [config.clientPool].  The answer is fixed before the TimeoutNow
    call: it is given whether or not the call is delivered. *)
Definition TransferLeadership (targetNodeId : string) (hasPool : bool) raft :
    TransferResponse * RaftNode D * option TimeoutNowCall :=
  if negb (isLeader raft) then
    (mkTransferResponse false ("This node is not the leader. Current leader: "
       +:+ default "unknown" (leaderId raft)), raft, None)
  else
    let t := js_toString (currentTerm raft) in
    if truthy_str targetNodeId && hasPool then
      match transferTarget targetNodeId raft with
      | None => (mkTransferResponse false ("Target " +:+ targetNodeId +:+ " not found in peers"), raft, None)
      | Some target =>
          let '(_, raft) := stepDown raft in
          (mkTransferResponse true ("Stepped down from term " +:+ t +:+ ". TimeoutNow sent to "
             +:+ p_nodeId target +:+ "."), raft,
           Some (mkTimeoutNowCall (p_address target) (nodeId (config raft)) t))
      end
    else
      let '(stepped, raft) := stepDown raft in
      if stepped
      then (mkTransferResponse true ("Stepped down from term " +:+ t +:+ ". New election in progress."),
            raft, None)
      else (mkTransferResponse false "stepDown failed", raft, None).

(** ** The placeholders: constant answers *)

Definition RegisterSession : bool * list string := (true, []).
Definition QuerySessions : list string := [].
Definition RelayToSession : bool * string := (false, "").
Definition PublishContext : bool := true.
Definition QueryContext : list string := [].

End handlers.
