(* ===== verification/ClusterHandlersProps.v ===== *)
(** * Theorems about the cluster service (ClusterHandlers.v)

    Each composes both ends of a call: the member that sends the request, the wire
    and the member that handles it. *)

From S2P Require Import Prelude JsMap JsString Grpc Raft RaftLog RaftWire Membership MembershipProps ClusterState ClusterHandlers.
From Stdlib Require Import QArith.
#[local] Open Scope Z_scope.

Section handlers.
Context {D : Type} `{!EmptyBuffer D} `{!MembershipCodec D} `{!MembershipCodecLaws D}.
Implicit Types (mm : MembershipManager) (raft : RaftNode D) (st : MembershipManager * RaftNode D).

(** ** Heartbeats *)

Definition gpu_proto (g : GpuInfo) : ProtoGpu :=
  mkProtoGpu (g_name g) (js_toString (g_memoryBytes g)) (js_toString (g_memoryAvailableBytes g))
    (g_utilizationPercent g) (g_inUseForGaming g).

Lemma gpu_roundtrip g : gpu_of_proto (gpu_proto g) = Some g.
Proof.
  unfold gpu_of_proto, gpu_proto.
  cbn [pg_name pg_memory_bytes pg_memory_available_bytes pg_utilization_percent pg_in_use_for_gaming].
  rewrite !parseInt_toString. by destruct g.
Qed.

Lemma gpus_roundtrip gpus : mapM gpu_of_proto (gpu_proto <$> gpus) = Some gpus.
Proof.
  induction gpus as [|g gpus IH]; [done|]. rewrite fmap_cons. cbn [mapM].
  by rewrite gpu_roundtrip, IH.
Qed.

Lemma resources_roundtrip r : resources_of_proto (resourcesToProto r) = Some r.
Proof.
  unfold resources_of_proto, resourcesToProto.
  cbn [Membership.pr_memory_bytes pr_memory_available_bytes pr_gpus pr_disk_bytes
    pr_disk_available_bytes Membership.pr_cpu_cores pr_cpu_usage_percent pr_gaming_detected].
  fold gpu_proto. rewrite !parseInt_toString, gpus_roundtrip. by destruct r.
Qed.

(** What a heartbeat makes of the record of its sender. *)
Definition refreshed (now : Z) (res : option NodeResources) (n : NodeInfo) : NodeInfo :=
  match res with
  | Some r => touch now n <| n_resources := Some r |>
  | None => touch now n
  end.

Lemma Heartbeat_get now p mm raft res :
  (phb_resources p = None /\ res = None \/
   exists q r, phb_resources p = Some q /\ resources_of_proto q = Some r /\ res = Some r) ->
  exists resp mm', Heartbeat now p mm raft = Some (resp, mm') /\
    hr_acknowledged resp = true /\ hr_leader_id resp = default "" (leaderId raft) /\
    hr_leader_address resp = default "" (mm_leaderAddress mm) /\
    forall k, getNode k mm' =
      if decide (phb_node_id p = k) then refreshed now res <$> getNode k mm else getNode k mm.
Proof.
  unfold Heartbeat. intros [[-> ->]|(q & r & -> & Hq & ->)].
  - do 2 eexists. split; [done|]. split_and!; [done..|]. intros k. unfold getNode, update_node. cbn.
    by rewrite jm_get_alter.
  - rewrite Hq. cbn [mbind option_bind]. do 2 eexists. split; [done|]. split_and!; [done..|].
    intros k. unfold getNode, updateNodeResources, update_node. cbn. rewrite !jm_get_alter.
    case_decide; [|done]. destruct (jm_get (mm_nodes mm) k) as [n|]; [|done].
    unfold refreshed, touch. cbn. by case_bool_decide.
Qed.


(** ** Registration *)

Lemma addJoinedPeer_frame p st k :
  n_nodeId p <> k ->
  getNode k (addJoinedPeer st p).1 = getNode k st.1 /\
  jm_get (peers (addJoinedPeer st p).2) k = jm_get (peers st.2) k.
Proof.
  destruct st as [m raft]. intros Hne. unfold addJoinedPeer.
  destruct (String.eqb _ _); [done|]. destruct (_ || _)%bool; [done|]. cbn [fst snd]. split.
  - unfold getNode. cbn. by rewrite jm_get_set_ne.
  - unfold addPeer. destruct (String.eqb _ _); [done|]. cbn. by rewrite jm_get_set_ne.
Qed.

Lemma addJoinedPeers_frame ps st k : k ∉ n_nodeId <$> ps ->
  getNode k (foldl addJoinedPeer st ps).1 = getNode k st.1 /\
  jm_get (peers (foldl addJoinedPeer st ps).2) k = jm_get (peers st.2) k.
Proof.
  revert st. induction ps as [|p ps IH]; intros st Hk; [done|].
  rewrite fmap_cons, not_elem_of_cons in Hk. destruct Hk as [Hne Hk]. cbn [foldl].
  destruct (IH (addJoinedPeer st p) Hk) as [-> ->]. by apply addJoinedPeer_frame, not_eq_sym.
Qed.

Lemma addJoinedPeer_config p st :
  mm_config (addJoinedPeer st p).1 = mm_config st.1 /\ config (addJoinedPeer st p).2 = config st.2.
Proof.
  destruct st as [m raft]. unfold addJoinedPeer. repeat case_match; try done. split; [done|].
  unfold addPeer. cbn. by case_match.
Qed.

Lemma addJoinedPeers_get ps st n :
  NoDup (n_nodeId <$> ps) -> n ∈ ps -> m_nodeId (mm_config st.1) = nodeId (config st.2) ->
  n_nodeId n <> m_nodeId (mm_config st.1) -> n_tailscaleIp n <> "" -> n_grpcPort n <> 0 ->
  getNode (n_nodeId n) (foldl addJoinedPeer st ps).1 = Some n /\
  option_map p_address (jm_get (peers (foldl addJoinedPeer st ps).2) (n_nodeId n)) = Some (address_of n).
Proof.
  revert st. induction ps as [|p ps IH]; intros st Hnd Hin Hc Hid Hip Hport; [by apply elem_of_nil in Hin|].
  rewrite fmap_cons, NoDup_cons in Hnd. destruct Hnd as [Hp Hnd]. cbn [foldl].
  destruct (addJoinedPeer_config p st) as [Hc1 Hc2].
  apply elem_of_cons in Hin as [->|Hin]; [|apply IH; try done; congruence].
  destruct (addJoinedPeers_frame ps (addJoinedPeer st p) (n_nodeId p) Hp) as [-> ->].
  destruct st as [m raft]. cbn [fst snd] in *. unfold addJoinedPeer.
  rewrite (proj2 (String.eqb_neq _ _)) by done.
  unfold truthy_str. rewrite (proj2 (String.eqb_neq _ _)) by done.
  rewrite (proj2 (Z.eqb_neq _ _)) by done. cbn [negb orb fst snd]. split.
  - unfold getNode. cbn. by rewrite jm_get_set_eq.
  - unfold addPeer. rewrite (proj2 (String.eqb_neq _ _)) by congruence. cbn. by rewrite jm_get_set_eq.
Qed.

Lemma NoDup_fmap_filter {A B} (f : A -> B) (P : A -> Prop) `{!forall x, Decision (P x)} (l : list A) :
  NoDup (f <$> l) -> NoDup (f <$> filter P l).
Proof.
  induction l as [|x l IH]; [done|]. rewrite fmap_cons. intros [Hx Hl]%NoDup_cons.
  destruct (decide (P x)) as [Hp|Hp].
  - rewrite filter_cons_True by done. rewrite fmap_cons. apply NoDup_cons. split; [|by apply IH].
    intros (y & Hy & [_ Hin]%list_elem_of_filter)%list_elem_of_fmap. apply Hx.
    rewrite Hy. by apply list_elem_of_fmap_2.
  - rewrite filter_cons_False by done. by apply IH.
Qed.

Lemma peers_roundtrip ns :
  mapM protoToNode (state_node_proto <$> ns) = Some ((fun n => n <| n_resources := None |>) <$> ns).
Proof.
  induction ns as [|n ns IH]; [done|]. rewrite !fmap_cons. cbn [mapM].
  assert (protoToNode (state_node_proto n) = Some (n <| n_resources := None |>)) as ->.
  { destruct n as [i h ip p ro s re ta jo se]. unfold protoToNode, state_node_proto, nodeToProto.
    cbn [pn_joined_at pn_last_seen pn_role pn_status field_update n_role n_status n_joinedAt n_lastSeen].
    replace (as_role _) with (Some ro) by (by destruct ro).
    replace (as_status _) with (Some s) by (by destruct s).
    cbn -[parseInt js_toString]. by rewrite !parseInt_toString. }
  cbn [mbind option_bind]. by rewrite IH.
Qed.

(** The peers that an approval lists. *)
Definition listed mm : list NodeInfo :=
  filter (fun p => truthy_str (n_tailscaleIp p) && negb (n_grpcPort p =? 0) = true) (getAllNodes mm).

Lemma RegisterNode_starts now hash p mm raft :
  isLeader raft = true -> m_autoApprove (mm_config mm) = true ->
  exists raft' calls,
    RegisterNode now hash (Some p) (mm, raft) =
      (register_waits (registered_node now p) true, (mm, raft'), calls) /\
    log raft' = log raft ++ [mkLogEntry (currentTerm raft) (getLastLogIndex raft + 1) node_join
      (stringify_join (mkJoinData (pn_node_id p) (pn_hostname p) (pn_tailscale_ip p) (pn_grpc_port p)
         (pn_tags p)))].
Proof.
  intros Hl Ha. unfold RegisterNode, handleJoinRequest, approveNode, appendEntry.
  rewrite Hl, Ha. cbn [negb]. by do 2 eexists.
Qed.

Lemma listed_ids mm : MembershipProps.keyed (mm_nodes mm) -> NoDup (n_nodeId <$> listed mm).
Proof.
  intros [Hwf Hkey]. apply NoDup_fmap_filter.
  assert (n_nodeId <$> getAllNodes mm = jm_keys (mm_nodes mm)) as ->; [|done].
  unfold getAllNodes, jm_values, jm_keys. rewrite <- list_fmap_compose. apply list_fmap_ext.
  intros i [k x] Hi. cbn. apply Hkey. apply jm_elem_of_get; [done|]. by eapply list_elem_of_lookup_2.
Qed.

Lemma elem_of_listed mm n :
  n ∈ listed mm <-> n ∈ getAllNodes mm /\ n_tailscaleIp n <> "" /\ n_grpcPort n <> 0.
Proof.
  unfold listed. rewrite list_elem_of_filter, andb_true_iff, negb_true_iff, Z.eqb_neq.
  unfold truthy_str. rewrite negb_true_iff, String.eqb_neq. tauto.
Qed.

Lemma joinApproved_get resp joiner (raftj : RaftNode D) n :
  NoDup (n_nodeId <$> rr_peers resp) -> n ∈ rr_peers resp ->
  m_nodeId (mm_config joiner) = nodeId (config raftj) ->
  n_nodeId n <> m_nodeId (mm_config joiner) -> n_tailscaleIp n <> "" -> n_grpcPort n <> 0 ->
  let st2 := joinApproved resp (joiner, raftj) in
  getNode (n_nodeId n) st2.1 = Some n /\
  option_map p_address (jm_get (peers st2.2) (n_nodeId n)) = Some (address_of n).
Proof.
  intros Hnd Hin Hc Hid Hip Hport. unfold joinApproved.
  set (m0 := set_self_status active _).
  pose proof (addJoinedPeers_get (rr_peers resp) (m0, raftj) n Hnd Hin Hc Hid Hip Hport) as [H1 H2].
  destruct (foldl addJoinedPeer (m0, raftj) (rr_peers resp)) as [m raft]. cbn [fst snd] in *.
  split; [by destruct (truthy_str _)|]. unfold delayNextElection. by repeat case_match.
Qed.

Lemma joinApproved_frame resp joiner (raftj : RaftNode D) k :
  k ∉ n_nodeId <$> rr_peers resp -> k <> m_nodeId (mm_config joiner) ->
  let st2 := joinApproved resp (joiner, raftj) in
  getNode k st2.1 = getNode k joiner /\ jm_get (peers st2.2) k = jm_get (peers raftj) k.
Proof.
  intros Hk Hself. unfold joinApproved. set (m0 := set_self_status active _).
  destruct (addJoinedPeers_frame (rr_peers resp) (m0, raftj) k Hk) as [H1 H2].
  destruct (foldl addJoinedPeer (m0, raftj) (rr_peers resp)) as [m raft]. cbn [fst snd] in *. split.
  - transitivity (getNode k m); [by destruct (truthy_str _)|]. rewrite H1. unfold getNode. cbn.
    rewrite jm_get_alter. by rewrite decide_False by congruence.
  - rewrite <- H2. unfold delayNextElection. by repeat case_match.
Qed.

Lemma joinApproved_leaderAddress resp (st : MembershipManager * RaftNode D) :
  getLeaderAddress (joinApproved resp st).1 = Some (rr_leader_address resp).
Proof.
  destruct st as [joiner raftj].
  assert (Ha : forall ps (st : MembershipManager * RaftNode D),
    mm_leaderAddress (foldl addJoinedPeer st ps).1 = mm_leaderAddress st.1).
  { induction ps as [|p ps IH]; intros st; [done|]. cbn [foldl]. rewrite IH.
    destruct st. unfold addJoinedPeer. by repeat case_match. }
  unfold joinApproved. set (m0 := set_self_status active _).
  specialize (Ha (rr_peers resp) (m0, raftj)).
  destruct (foldl addJoinedPeer (m0, raftj) (rr_peers resp)) as [m r]. cbn [fst] in *.
  transitivity (mm_leaderAddress m); [by destruct (truthy_str (rr_build_hash resp))|]. by rewrite Ha.
Qed.

(** C16: registration at an approving leader, from the joiner's request to its
    tables.  The request appends one node_join entry with the joiner's data to the
    leader's log and waits for its replication.  Whatever happens meanwhile, joins
    and leaves that are committed included, the answer then is made of the table
    that the leader has at its end ([mm'], whose ids are keys as
    [membership_invariant] keeps them), and the joiner is no longer pending there.
    The answer decodes, and the joiner ends with the leader's address and with
    exactly the nodes of that table that have an address, itself excepted, added to
    its own table (without resources) and to its Raft peers; its records of other
    nodes stay as they were. *)
Theorem registration_end_to_end now hash mm raft mm' joiner (raftj : RaftNode D) self :
  isLeader raft = true -> m_autoApprove (mm_config mm) = true ->
  MembershipProps.keyed (mm_nodes mm') -> jm_wf (mm_pendingApprovals mm') ->
  getSelfNode joiner = Some self -> m_nodeId (mm_config joiner) = nodeId (config raftj) ->
  exists n raft' calls answer mm'' resp,
    RegisterNode now hash (Some (nodeToProto self)) (mm, raft) = (register_waits n true, (mm, raft'), calls) /\
    log raft' = log raft ++ [mkLogEntry (currentTerm raft) (getLastLogIndex raft + 1) node_join
      (stringify_join (mkJoinData (n_nodeId self) (n_hostname self) (n_tailscaleIp self)
         (n_grpcPort self) (n_tags self)))] /\
    RegisterNode_approved hash n true mm' = (answer, mm'') /\
    jm_get (mm_pendingApprovals mm'') (n_nodeId self) = None /\
    register_response answer = Some resp /\ rr_approved resp = true /\
    let st2 := joinApproved resp (joiner, raftj) in
    getLeaderAddress st2.1 = Some (self_address mm') /\
    forall k, k <> m_nodeId (mm_config joiner) ->
      (forall p, p ∈ getAllNodes mm' -> n_nodeId p = k -> n_tailscaleIp p <> "" -> n_grpcPort p <> 0 ->
         getNode k st2.1 = Some (p <| n_resources := None |>) /\
         option_map p_address (jm_get (peers st2.2) k) = Some (address_of p)) /\
      ((forall p, p ∈ getAllNodes mm' -> n_nodeId p = k -> n_tailscaleIp p = "" \/ n_grpcPort p = 0) ->
         getNode k st2.1 = getNode k joiner /\ jm_get (peers st2.2) k = jm_get (peers raftj) k).
Proof.
  intros Hl Ha Hkeyed Hpend Hself Hc.
  destruct (RegisterNode_starts now hash (nodeToProto self) mm raft Hl Ha) as (raft' & calls & HR & Hlog).
  do 6 eexists. split; [exact HR|]. split; [exact Hlog|]. split; [reflexivity|]. split.
  { cbn. by rewrite jm_get_delete_eq. }
  split.
  { unfold register_response. cbn [prr_peers jr_peers register_message]. fold (listed mm').
    change (getAllNodes (approveNode_settled _ true mm')) with (getAllNodes mm'). fold (listed mm').
    rewrite peers_roundtrip. reflexivity. }
  split; [done|]. cbv zeta. rewrite joinApproved_leaderAddress. split; [done|].
  set (resp := mkRegisterResponse _ _ _ _ _ _).
  assert (Hids : n_nodeId <$> rr_peers resp = n_nodeId <$> listed mm')
    by (cbn [rr_peers resp]; by rewrite <- list_fmap_compose).
  intros k Hk. split.
  - intros p Hp <- Hip Hport.
    pose proof (joinApproved_get resp joiner raftj (p <| n_resources := None |>)) as Hget.
    cbv zeta in Hget. apply Hget; try done; clear Hget.
    + rewrite Hids. by apply listed_ids.
    + cbn [rr_peers resp]. apply (list_elem_of_fmap_2 (fun n => n <| n_resources := None |>)).
      by apply elem_of_listed.
  - intros Hnone. apply joinApproved_frame; [|done]. rewrite Hids.
    intros (p & -> & (Hp & Hip & Hport)%elem_of_listed)%list_elem_of_fmap. by destruct (Hnone p Hp eq_refl).
Qed.

(** ** Transfer of the leadership *)

Lemma stepDown_state raft : isLeader raft = true ->
  isLeader (stepDown raft).2 = false /\ currentTerm (stepDown raft).2 = currentTerm raft /\
  log (stepDown raft).2 = log raft /\ config (stepDown raft).2 = config raft.
Proof.
  intros Hl. unfold stepDown. rewrite Hl. cbn [negb snd]. rewrite resetElectionTimeout_eq.
  unfold becomeFollower. rewrite saveState_eq. by split_and!.
Qed.

Lemma triggerImmediateElection_campaigns raft : isLeader raft = false -> nonVoting (config raft) = false ->
  exists raft' el, triggerImmediateElection raft = (true, raft', Some el) /\
    state raft' = candidate /\ currentTerm raft' = currentTerm raft + 1 /\
    votedFor raft' = Some (nodeId (config raft)) /\
    el_calls el = (fun p => (p_nodeId p, mkRequestVote (currentTerm raft + 1) (nodeId (config raft))
      (getLastLogIndex raft) (getLastLogTerm raft))) <$> votingPeers raft.
Proof.
  intros Hl Hn. unfold triggerImmediateElection. rewrite Hl, Hn. unfold startElection.
  do 2 eexists. split; [reflexivity|]. rewrite resetElectionTimeout_eq, saveState_eq.
  by split_and!.
Qed.

(** A vote requested of a node in an older term. *)
Lemma handleRequestVote_newer req raft : currentTerm raft < rv_term req ->
  (handleRequestVote req raft).1 = mkVoteResponse (rv_term req) (logOk raft req).
Proof.
  intros Ht. unfold handleRequestVote. rewrite (proj2 (Z.ltb_lt _ _)) by done.
  unfold becomeFollower. rewrite saveState_eq.
  match goal with |- context [currentTerm ?r <=? _] => set (r0 := r) end.
  assert (currentTerm r0 = rv_term req) as E by done. rewrite E.
  rewrite (proj2 (Z.leb_le (rv_term req) (rv_term req))) by lia.
  assert (canVote r0 req = true) as -> by done.
  assert (logOk r0 req = logOk raft req) as -> by done. rewrite andb_true_r.
  destruct (logOk raft req); cbn [fst]; [|by rewrite E].
  rewrite resetElectionTimeout_eq, saveState_eq. cbn. done.
Qed.

(** A targeted transfer.  The leader steps down in its term and sends
    TimeoutNow with that term to the target, the first peer whose id is or starts
    with the given text; a voting target in that term becomes a candidate of the
    next term, votes for itself and asks every voting peer; and the former leader
    grants its vote exactly if the target's log is as up to date as its own. *)
Theorem transfer_leadership targetId (raft target : RaftNode D) p :
  isLeader raft = true -> truthy_str targetId = true -> transferTarget targetId raft = Some p ->
  isLeader target = false -> nonVoting (config target) = false ->
  currentTerm target = currentTerm raft ->
  exists resp raft' call target' el,
    TransferLeadership targetId true raft = (resp, raft', Some call) /\ tl_success resp = true /\
    isLeader raft' = false /\ currentTerm raft' = currentTerm raft /\ tn_address call = p_address p /\
    TimeoutNow (tn_term call) target = Some (true, target', Some el) /\
    state target' = candidate /\ currentTerm target' = currentTerm raft + 1 /\
    votedFor target' = Some (nodeId (config target)) /\
    (forall q, q ∈ votingPeers target -> exists req, (p_nodeId q, req) ∈ el_calls el /\
       rv_candidateId req = nodeId (config target) /\
       (handleRequestVote req raft').1 = mkVoteResponse (currentTerm raft + 1)
         ((getLastLogTerm raft <? getLastLogTerm target)
          || ((getLastLogTerm target =? getLastLogTerm raft)
              && (getLastLogIndex raft <=? getLastLogIndex target)))).
Proof.
  intros Hl Ht Hp Htl Htn Hterm.
  destruct (stepDown_state raft Hl) as (Hl' & Ht' & Hlog' & _).
  destruct (triggerImmediateElection_campaigns target Htl Htn) as (target' & el & He & Hs & Hc & Hv & Hcalls).
  destruct (stepDown raft) as [b raft'] eqn:Es. cbn [snd] in *.
  do 2 eexists. exists (mkTimeoutNowCall (p_address p) (nodeId (config raft')) (js_toString (currentTerm raft))).
  exists target', el. split_and!; try done.
  - unfold TransferLeadership. rewrite Hl, Ht, Hp, Es. cbn [negb andb]. reflexivity.
  - reflexivity.
  - unfold TimeoutNow. cbn [tn_term]. rewrite parseInt_toString. cbn [mbind option_bind].
    rewrite Hterm, Z.ltb_irrefl. by rewrite He.
  - by rewrite Hc, Hterm.
  - intros q Hq. eexists. rewrite Hcalls. split; [by apply (list_elem_of_fmap_2 (fun q => (p_nodeId q, _)))|].
    split; [done|]. rewrite handleRequestVote_newer by (cbn; lia). cbn [rv_term]. rewrite Hterm. f_equal.
    unfold logOk, getLastLogTerm, getLastLogIndex. cbn [rv_lastLogTerm rv_lastLogIndex]. by rewrite Hlog'.
Qed.

End handlers.

(** ** Instances *)

Definition resources_b : NodeResources :=
  mkNodeResources 8 16000 9000 [mkGpuInfo "gpu" 8000 6000 0 false] 500 200 (25 # 1) false.
Definition fresh_b : MembershipManager :=
  new_MembershipManager (mkMembershipConfig "b" "beta" "100.64.0.2" 50051 None true) 5.
Definition worker_b : MembershipManager :=
  fresh_b <| mm_nodes ::= jm_map (fun n => n <| n_resources := Some resources_b |>) |>.
Definition raft_b : RaftNode string :=
  (new_RaftNode (mkRaftConfig "b" None false None) file_missing true) <| currentTerm := 1 |>.

Definition self_b (res : option NodeResources) : NodeInfo :=
  mkNodeInfo "b" "beta" "100.64.0.2" 50051 role_follower active res [] 5 5.


(** The leader's table when b's own entry was committed meanwhile: its answer lists
    the joiner itself, which skips it. *)
Lemma registration_end_to_end_witness :
  exists n raft' calls answer mm'' resp,
    RegisterNode 50 "abc" (Some (nodeToProto (self_b None))) (member_a, raft_a)
      = (register_waits n true, (member_a, raft'), calls) /\
    RegisterNode_approved "abc" n true joined_ab.1 = (answer, mm'') /\
    pn_node_id <$> prr_peers answer = ["a"; "b"] /\
    register_response answer = Some resp /\
    getLeaderAddress (joinApproved resp (fresh_b, raft_b)).1 = Some "100.64.0.1:50051" /\
    option_map p_address (jm_get (peers (joinApproved resp (fresh_b, raft_b)).2) "a")
      = Some "100.64.0.1:50051".
Proof.
  assert (Hk : MembershipProps.keyed (mm_nodes joined_ab.1)) by (apply keyed_set; [apply member_a_ok|done]).
  destruct (registration_end_to_end 50 "abc" member_a raft_a joined_ab.1 fresh_b raft_b (self_b None)
    eq_refl eq_refl Hk (NoDup_nil_2) eq_refl eq_refl)
    as (n & raft' & calls & answer & mm'' & resp & HR & _ & HA & _ & Hresp & _ & Ha & Hpeers).
  exists n, raft', calls, answer, mm'', resp. split_and!; [exact HR|exact HA| |exact Hresp|exact Ha|].
  - unfold RegisterNode in HR. cbn in HR. injection HR as <- _ _. cbn in HA. injection HA as <- _. reflexivity.
  - destruct (Hpeers "a") as [Hp _]; [done|].
    destruct (Hp (mkNodeInfo "a" "alpha" "100.64.0.1" 50051 role_follower active None [] 0 0)) as [_ Hq];
      [by left|done..|exact Hq].
Defined.

(** The leader a with the peer b, and b with the peer a, both in term 1. *)
Definition leader_ab : RaftNode string := addPeer "b" "100.64.0.2:50051" true raft_a.
Definition follower_b : RaftNode string := addPeer "a" "100.64.0.1:50051" true raft_b.

Lemma transfer_leadership_witness :
  exists resp raft' call target' el,
    TransferLeadership "b" true leader_ab = (resp, raft', Some call) /\
    TimeoutNow (tn_term call) follower_b = Some (true, target', Some el) /\
    state target' = candidate /\ currentTerm target' = 2.
Proof.
  assert (Hp : transferTarget "b" leader_ab = Some (mkPeerInfo 0 "b" "100.64.0.2:50051" 1 0 true))
    by reflexivity.
  destruct (transfer_leadership "b" leader_ab follower_b _ eq_refl eq_refl Hp eq_refl eq_refl eq_refl)
    as (resp & raft' & call & target' & el & HT & _ & _ & _ & _ & HN & Hs & Hc & _).
  exists resp, raft', call, target', el. split_and!; [exact HT|exact HN|exact Hs|exact Hc].
Defined.

(** The target of a transfer is the first peer whose id starts with the text, even
    when a later peer has exactly that id. *)
Example transfer_prefers_earlier_prefix :
  p_nodeId <$> transferTarget "node-1"
    (addPeer "node-1" "100.64.0.3:50051" true (addPeer "node-10" "100.64.0.2:50051" true raft_a))
  = Some "node-10".
Proof. by vm_compute. Qed.
