(* ===== verification/LegacyScheduler.v ===== *)
(** * The in-memory task scheduler (src/src/cluster/scheduler.ts)

    The deprecated scheduler that the SubmitTask, GetTaskStatus and CancelTask
    handlers of grpc/handlers.ts still serve.  [TaskScheduler] is its state: the
    queue, the running tasks and the statuses, three Maps keyed by task id.  The
    type of a task is the string that arrives: the handler lower-cases whatever
    the request says, and [validateTask] is what rejects an unknown one.

    An async method is split at its awaits.  [submit] runs up to the first await
    and says how it goes on ([SubmitStep]); [submit_resume] is the rest after the
    entry was appended and [forwardToLeader_reply] the rest after the leader
    answered.  [dispatchTask] runs up to the loop over the agent's stream; the
    local variables of the loop are a [Dispatch], and [onResponse] and [onError]
    are its body and its [catch].  The cluster view of the scheduler (membership
    and Raft) is passed to each operation. *)

From S2P Require Import Prelude JsMap JsString JsNumber Json Grpc Raft Membership.
From Stdlib Require Import QArith.
#[local] Open Scope Z_scope.

(** ** Data *)

Record ShellTaskSpec := mkShellTaskSpec {
  sh_command : string;
  sh_workingDirectory : option string;
  sh_sandboxed : option bool
}.

Record Mount := mkMount {
  mo_hostPath : string;
  mo_containerPath : string;
  mo_readOnly : option bool
}.

Record ContainerTaskSpec := mkContainerTaskSpec {
  co_image : string;
  co_command : option (list string);
  co_args : option (list string);
  co_labels : option (jsmap string);
  co_mounts : option (list Mount)
}.

Record SubagentTaskSpec := mkSubagentTaskSpec {
  su_prompt : string;
  su_model : option string;
  su_tools : option (list string);
  su_contextSummary : option string;
  su_maxTurns : option Z
}.

Record ResourceRequirements := mkResourceRequirements {
  rq_cpuCores : option Q;
  rq_memoryBytes : option Z;
  rq_requiresGpu : option bool;
  rq_gpuMemoryBytes : option Z
}.

Record K8sJobTaskSpec := mkK8sJobTaskSpec {
  k8_clusterContext : string;
  k8_namespace : option string;
  k8_image : string;
  k8_command : option (list string);
  k8_labels : option (jsmap string);
  k8_resources : option ResourceRequirements
}.

Record ClaudeRelayTaskSpec := mkClaudeRelayTaskSpec {
  cl_targetSessionId : string;
  cl_prompt : string;
  cl_fullContext : option string;
  cl_awaitResponse : option bool
}.

Record TaskConstraints := mkTaskConstraints {
  tc_allowedNodes : option (list string);
  tc_excludedNodes : option (list string);
  tc_preferLocal : option bool;
  tc_avoidGamingNodes : option bool
}.

Record TaskSpec := mkTaskSpec {
  ts_taskId : string;
  ts_type : string;
  ts_submitterNode : string;
  ts_submitterSession : option string;
  ts_shell : option ShellTaskSpec;
  ts_container : option ContainerTaskSpec;
  ts_subagent : option SubagentTaskSpec;
  ts_k8sJob : option K8sJobTaskSpec;
  ts_claudeRelay : option ClaudeRelayTaskSpec;
  ts_requirements : option ResourceRequirements;
  ts_constraints : option TaskConstraints;
  ts_priority : option Z;
  ts_timeoutMs : option Z;
  ts_environment : option (jsmap string);
  ts_targetNodes : option (list string)
}.

Record QueuedTask := mkQueuedTask { q_spec : TaskSpec; q_queuedAt : Z; q_attempts : Z }.
Record RunningTask := mkRunningTask { ru_spec : TaskSpec; ru_assignedNode : string; ru_startedAt : Z }.

Record TaskResult := mkTaskResult {
  tr_taskId : string;
  tr_success : bool;
  tr_exitCode : Z;
  tr_stdout : string;
  tr_stderr : string;
  tr_error : option string
}.

Inductive TaskState := st_queued | st_assigned | st_running | st_completed | st_failed | st_cancelled.
#[export] Instance TaskState_eq_dec : EqDecision TaskState.
Proof. solve_decision. Defined.

Record TaskStatus := mkTaskStatus {
  tst_taskId : string;
  tst_state : TaskState;
  tst_assignedNode : option string;
  tst_startedAt : option Z;
  tst_completedAt : option Z;
  tst_exitCode : option Z;
  tst_error : option string;
  tst_result : option TaskResult
}.
#[export] Instance TaskStatus_eta : EtaRecord TaskStatus := fun s =>
  mkTaskStatus (tst_taskId s) (tst_state s) (tst_assignedNode s) (tst_startedAt s)
    (tst_completedAt s) (tst_exitCode s) (tst_error s) (tst_result s).

(** The objects passed to listeners are the ones of the maps; the trace keeps
    what identifies them. *)
Inductive SchedulerEvent :=
  | sv_taskSubmitted (spec : TaskSpec)
  | sv_taskAssigned (spec : TaskSpec) (node : string)
  | sv_taskOutput (taskId : string) (data : string)
  | sv_taskCompleted (taskId : string) (result : TaskResult)
  | sv_taskFailed (taskId : string) (error : string)
  | sv_statusChanged (status : TaskStatus).

Record TaskScheduler := mkTaskScheduler {
  taskQueue : jsmap QueuedTask;
  runningTasks : jsmap RunningTask;
  taskStatuses : jsmap TaskStatus;
  schedulingInterval : bool;
  maxQueueSize : Z;
  maxRetries : Z;
  sch_emitted : list SchedulerEvent
}.
#[export] Instance TaskScheduler_eta : EtaRecord TaskScheduler := fun s =>
  mkTaskScheduler (taskQueue s) (runningTasks s) (taskStatuses s) (schedulingInterval s)
    (maxQueueSize s) (maxRetries s) (sch_emitted s).

Implicit Types (s : TaskScheduler) (spec : TaskSpec).

Definition new_TaskScheduler (queueSize retries : option Z) : TaskScheduler :=
  mkTaskScheduler [] [] [] false (default 1000 queueSize) (default 3 retries) [].

Definition start s : TaskScheduler := s <| schedulingInterval := true |>.
Definition stop s : TaskScheduler :=
  if schedulingInterval s then s <| schedulingInterval := false |> else s.

Definition s_emit (ev : SchedulerEvent) s : TaskScheduler :=
  s <| sch_emitted ::= fun evs => evs ++ [ev] |>.

Definition getStatus (taskId : string) s : option TaskStatus := jm_get (taskStatuses s) taskId.
Definition getQueuedCount s : Z := jm_size (taskQueue s).
Definition getRunningCount s : Z := jm_size (runningTasks s).

(** ** Statuses *)

Definition terminal (st : TaskState) : bool :=
  match st with st_completed | st_failed | st_cancelled => true | _ => false end.

Definition updateStatus (now : Z) (taskId : string) (st : TaskState) (node : option string) s :
    TaskScheduler :=
  let old := default (mkTaskStatus taskId st None None None None None None) (getStatus taskId s) in
  let status := old <| tst_state := st |> in
  let status := match node with
                | Some a => if truthy_str a then status <| tst_assignedNode := Some a |> else status
                | None => status
                end in
  let status := if bool_decide (st = st_running) then status <| tst_startedAt := Some now |> else status in
  let status := if terminal st then status <| tst_completedAt := Some now |> else status in
  s_emit (sv_statusChanged status) (s <| taskStatuses ::= fun m => jm_set m taskId status |>).

(** ** Validation *)

Definition missing {A} (o : option A) (field : A -> string) : bool :=
  match o with Some a => negb (truthy_str (field a)) | None => true end.

(** The reason of a rejection, or [None] for a valid task. *)
Definition validateTask spec : option string :=
  if negb (truthy_str (ts_taskId spec)) then Some "Missing taskId"
  else if negb (truthy_str (ts_type spec)) then Some "Missing task type"
  else if String.eqb (ts_type spec) "shell" then
    if missing (ts_shell spec) sh_command then Some "Shell task missing command" else None
  else if String.eqb (ts_type spec) "container" then
    if missing (ts_container spec) co_image then Some "Container task missing image" else None
  else if String.eqb (ts_type spec) "subagent" then
    if missing (ts_subagent spec) su_prompt then Some "Subagent task missing prompt" else None
  else if String.eqb (ts_type spec) "k8s_job" then
    if missing (ts_k8sJob spec) k8_image || missing (ts_k8sJob spec) k8_clusterContext
    then Some "K8s job missing image or context" else None
  else if String.eqb (ts_type spec) "claude_relay" then
    if missing (ts_claudeRelay spec) cl_targetSessionId || missing (ts_claudeRelay spec) cl_prompt
    then Some "Claude relay missing target or prompt" else None
  else Some ("Unknown task type: " +:+ ts_type spec).

(** ** Candidates *)

(** [names.includes(n.nodeId) || names.includes(n.hostname)]. *)
Definition named (names : list string) (n : NodeInfo) : bool :=
  bool_decide (n_nodeId n ∈ names) || bool_decide (n_hostname n ∈ names).

(** [names && names.length > 0], as the names or nothing. *)
Definition nonempty (o : option (list string)) : option (list string) :=
  match o with Some [] | None => None | Some l => Some l end.

Definition truthy_flag (o : option bool) : bool := match o with Some true => true | _ => false end.
Definition truthy_int (o : option Z) : option Z :=
  match o with Some z => if z =? 0 then None else Some z | None => None end.
Definition truthy_rat (o : option Q) : option Q :=
  match o with Some q => if Qeq_bool q 0 then None else Some q | None => None end.
Definition given {A} (o : option A) : bool := match o with Some _ => true | None => false end.

Definition free_gpu (r : NodeResources) : option GpuInfo :=
  List.find (fun g => negb (g_inUseForGaming g)) (r_gpus r).

Definition meetsRequirements (n : NodeInfo) (rq : ResourceRequirements) : bool :=
  if negb (given (truthy_rat (rq_cpuCores rq)) || given (truthy_int (rq_memoryBytes rq))
           || truthy_flag (rq_requiresGpu rq) || given (truthy_int (rq_gpuMemoryBytes rq)))
  then true
  else
    match n_resources n with
    | None => false
    | Some r =>
        match truthy_rat (rq_cpuCores rq) with
        | Some c => Qle_bool c (inject_Z (r_cpuCores r) * (1 - r_cpuUsagePercent r / 100))
        | None => true
        end &&
        match truthy_int (rq_memoryBytes rq) with
        | Some m => m <=? r_memoryAvailableBytes r
        | None => true
        end &&
        (if truthy_flag (rq_requiresGpu rq) then
           match free_gpu r with
           | None => false
           | Some g =>
               match truthy_int (rq_gpuMemoryBytes rq) with
               | Some m => m <=? g_memoryAvailableBytes g
               | None => true
               end
           end
         else true)
    end.

Definition no_constraints : TaskConstraints := mkTaskConstraints None None None None.
Definition no_requirements : ResourceRequirements := mkResourceRequirements None None None None.

Definition gaming (n : NodeInfo) : bool :=
  match n_resources n with Some r => r_gamingDetected r | None => false end.

Definition getCandidateNodes spec (mm : MembershipManager) : list NodeInfo :=
  let candidates := getActiveNodes mm in
  let c := default no_constraints (ts_constraints spec) in
  let candidates := match nonempty (ts_targetNodes spec) with
                    | Some l => keep (named l) candidates | None => candidates end in
  let candidates := match nonempty (tc_allowedNodes c) with
                    | Some l => keep (named l) candidates | None => candidates end in
  let candidates := match nonempty (tc_excludedNodes c) with
                    | Some l => keep (fun n => negb (named l n)) candidates | None => candidates end in
  let candidates := if truthy_flag (tc_avoidGamingNodes c)
                    then keep (fun n => negb (gaming n)) candidates else candidates in
  keep (fun n => meetsRequirements n (default no_requirements (ts_requirements spec))) candidates.

(** ** Scores

    A score divides by the memory sizes a node reports, and a node may report 0:
    the result is then not a finite number (JsNumber.v). *)

Definition scoreNode (n : NodeInfo) spec s : number :=
  match n_resources n with
  | None => fin 0
  | Some r =>
      let score := fin ((1 - r_cpuUsagePercent r / 100) * 30) in
      let score := num_add score (num_scale 30 (js_div (r_memoryAvailableBytes r) (r_memoryBytes r))) in
      let local := match ts_constraints spec with
                   | Some c => truthy_flag (tc_preferLocal c) && String.eqb (n_nodeId n) (ts_submitterNode spec)
                   | None => false
                   end in
      let score := if local then num_add score (fin 50) else score in
      let score := if r_gamingDetected r then num_add score (fin (-40)) else score in
      let running := filter (fun t => js_includes (ru_assignedNode t) (n_tailscaleIp n) = true)
                       (jm_values (runningTasks s)) in
      let score := num_add score (fin (- (inject_Z (js_length running) * 10))) in
      let gpu := match ts_requirements spec with
                 | Some rq => truthy_flag (rq_requiresGpu rq)
                 | None => false
                 end in
      if gpu then
        match free_gpu r with
        | Some g => num_add score (num_scale 20 (js_div (g_memoryAvailableBytes g) (g_memoryBytes g)))
        | None => score
        end
      else score
  end.

Definition by_score (a b : NodeInfo * number) : bool := num_ge a.2 b.2.

Definition bestNode spec (mm : MembershipManager) s : option NodeInfo :=
  fst <$> head (js_sort by_score ((fun n => (n, scoreNode n spec s)) <$> getCandidateNodes spec mm)).

Definition scheduleTask spec (mm : MembershipManager) s : option string :=
  address_of <$> bestNode spec mm s.

(** ** Dispatch *)

Record Dispatch := mkDispatch {
  di_spec : TaskSpec;
  di_node : string;
  di_stdout : list string;
  di_stderr : list string
}.
#[export] Instance Dispatch_eta : EtaRecord Dispatch := fun d =>
  mkDispatch (di_spec d) (di_node d) (di_stdout d) (di_stderr d).

Definition dispatchTask (now : Z) spec (node : string) s : TaskScheduler * Dispatch :=
  let id := ts_taskId spec in
  let s := s <| runningTasks ::= fun m => jm_set m id (mkRunningTask spec node now) |> in
  let s := updateStatus now id st_assigned (Some node) s in
  let s := s_emit (sv_taskAssigned spec node) s in
  let s := updateStatus now id st_running (Some node) s in
  (s, mkDispatch spec node [] []).

(** [scheduleNext]: the sorted queue, and the loop over it. *)
Definition by_priority (a b : QueuedTask) : bool :=
  let diff := default 0 (ts_priority (q_spec b)) - default 0 (ts_priority (q_spec a)) in
  if negb (diff =? 0) then diff <=? 0 else q_queuedAt a - q_queuedAt b <=? 0.

Definition sortedQueue s : list QueuedTask := js_sort by_priority (jm_values (taskQueue s)).

Definition scheduleOne (now : Z) (mm : MembershipManager) (acc : TaskScheduler * list Dispatch)
    (q : QueuedTask) : TaskScheduler * list Dispatch :=
  match scheduleTask (q_spec q) mm acc.1 with
  | Some node =>
      let s := acc.1 <| taskQueue ::= fun m => jm_delete m (ts_taskId (q_spec q)) |> in
      let '(s, d) := dispatchTask now (q_spec q) node s in
      (s, acc.2 ++ [d])
  | None => acc
  end.

Definition scheduleNext {D} (now : Z) (mm : MembershipManager) (raft : RaftNode D) s :
    TaskScheduler * list Dispatch :=
  if negb (isLeader raft) then (s, [])
  else fold_left (scheduleOne now mm) (sortedQueue s) (s, []).

(** ** The agent's answers *)

Definition handleTaskCompletion (now : Z) (taskId : string) (r : TaskResult) s : TaskScheduler :=
  let s := s <| runningTasks ::= fun m => jm_delete m taskId |> in
  let s := s <| taskStatuses ::= jm_alter (fun st =>
             st <| tst_state := if tr_success r then st_completed else st_failed |>
                <| tst_completedAt := Some now |>
                <| tst_exitCode := Some (tr_exitCode r) |>
                <| tst_error := tr_error r |>
                <| tst_result := Some r |>) taskId |> in
  s_emit (sv_taskCompleted taskId r) s.

Definition handleTaskFailure (now : Z) spec (error : string) s : TaskScheduler :=
  let id := ts_taskId spec in
  let s := s <| runningTasks ::= fun m => jm_delete m id |> in
  let attempts := match jm_get (taskQueue s) id with Some q => q_attempts q | None => 0 end in
  if attempts <? maxRetries s then
    let s := s <| taskQueue ::= fun m => jm_set m id (mkQueuedTask spec now (attempts + 1)) |> in
    updateStatus now id st_queued None s
  else
    let s := updateStatus now id st_failed None s in
    let s := s <| taskStatuses ::= jm_alter (fun st => st <| tst_error := Some error |>) id |> in
    s_emit (sv_taskFailed id error) s.

Definition onResponse (now : Z) (resp : AgentResponse) (d : Dispatch) s : TaskScheduler * Dispatch :=
  let id := ts_taskId (di_spec d) in
  let '(s, d) :=
    match ag_output resp with
    | Some (ty, data) =>
        let d := match ty with
                 | OUTPUT_TYPE_STDOUT => d <| di_stdout ::= fun l => l ++ [data] |>
                 | OUTPUT_TYPE_STDERR => d <| di_stderr ::= fun l => l ++ [data] |>
                 | OUTPUT_TYPE_UNKNOWN => d
                 end in
        (s_emit (sv_taskOutput id data) s, d)
    | None => (s, d)
    end in
  match ag_status resp with
  | Some st =>
      let result := mkTaskResult id (bool_decide (num_property st "exitCode" = Some 0))
                      (default (-1) (num_property st "exitCode"))
                      (foldr String.append "" (di_stdout d)) (foldr String.append "" (di_stderr d))
                      (str_property st "error") in
      (handleTaskCompletion now id result s, d)
  | None => (s, d)
  end.

Definition onError (now : Z) (message : string) (d : Dispatch) s : TaskScheduler :=
  handleTaskFailure now (di_spec d) message s.

(** ** Cancellation

    [cancel] up to its await: the answer, or the agent to be asked; [None] in the
    second component of [cancel_reply] is a call that threw. *)
Definition cancel (now : Z) (taskId : string) s : TaskScheduler * (bool + string) :=
  if jm_has (taskQueue s) taskId then
    let s := s <| taskQueue ::= fun m => jm_delete m taskId |> in
    (updateStatus now taskId st_cancelled None s, inl true)
  else
    match jm_get (runningTasks s) taskId with
    | Some r => (s, inr (ru_assignedNode r))
    | None => (s, inl false)
    end.

Definition cancel_reply (now : Z) (taskId : string) (answered : bool) s : TaskScheduler * bool :=
  if answered then (updateStatus now taskId st_cancelled None s, true) else (s, false).

(** ** Submission *)

Record SubmitResult := mkSubmitResult {
  sb_accepted : bool;
  sb_taskId : string;
  sb_assignedNode : option string;
  sb_reason : option string
}.

Definition rejected spec (reason : string) : SubmitResult :=
  mkSubmitResult false (ts_taskId spec) None (Some reason).

(** The request that a follower sends to the leader: the fields of the literal in
    [forwardToLeader], after the serialisation of protobuf, which replaces a
    missing scalar by its default and a missing array by the empty one. *)
Record ProtoShell := mkProtoShell {
  psh_command : string; psh_working_directory : string; psh_sandboxed : bool }.
Record ProtoContainer := mkProtoContainer {
  pco_image : string; pco_command : list string; pco_args : list string }.
Record ProtoConstraints := mkProtoConstraints {
  pcn_allowed_nodes : list string;
  pcn_excluded_nodes : list string;
  pcn_prefer_local : bool;
  pcn_avoid_gaming_nodes : bool
}.
Record ProtoTaskSpec := mkProtoTaskSpec {
  pts_task_id : string;
  pts_type : string;
  pts_submitter_node : string;
  pts_submitter_session : string;
  pts_shell : option ProtoShell;
  pts_container : option ProtoContainer;
  pts_constraints : option ProtoConstraints;
  pts_priority : Z;
  pts_timeout_ms : string
}.
Record ProtoSubmitResponse := mkProtoSubmitResponse {
  psr_task_id : string;
  psr_accepted : bool;
  psr_assigned_node : string;
  psr_rejection_reason : string
}.

(** The names of the enum; a name outside it is sent as the number 0. *)
Definition task_type_enum (name : string) : string :=
  if bool_decide (name ∈ ["TASK_TYPE_SHELL"; "TASK_TYPE_CONTAINER"; "TASK_TYPE_SUBAGENT";
                          "TASK_TYPE_K8S_JOB"; "TASK_TYPE_CLAUDE_RELAY"])
  then name else "TASK_TYPE_UNKNOWN".

Definition forward_request spec : ProtoTaskSpec :=
  mkProtoTaskSpec (ts_taskId spec) (task_type_enum ("TASK_TYPE_" +:+ js_toUpperCase (ts_type spec)))
    (ts_submitterNode spec) (default "" (ts_submitterSession spec))
    ((fun sh => mkProtoShell (sh_command sh) (default "" (sh_workingDirectory sh))
                  (default false (sh_sandboxed sh))) <$> ts_shell spec)
    ((fun c => mkProtoContainer (co_image c) (default [] (co_command c)) (default [] (co_args c)))
       <$> ts_container spec)
    ((fun c => mkProtoConstraints (default [] (tc_allowedNodes c)) (default [] (tc_excludedNodes c))
                 (default false (tc_preferLocal c)) (default false (tc_avoidGamingNodes c)))
       <$> ts_constraints spec)
    (default 0 (ts_priority spec))
    (match ts_timeoutMs spec with Some t => js_toString t | None => "0" end).

(** How [submit] goes on. *)
Inductive SubmitStep :=
  | submit_done (r : SubmitResult)
  | submit_appended (success : bool)
  | submit_forwarded (address : string) (request : ProtoTaskSpec)
  | submit_throws.

Definition forwardToLeader spec (mm : MembershipManager) : SubmitStep :=
  match getLeaderAddress mm with
  | None => submit_done (rejected spec "No leader available")
  | Some addr =>
      if negb (truthy_str addr) then submit_done (rejected spec "No leader available")
      else
        match getSelfNode mm with
        | None => submit_throws
        | Some self =>
            if String.eqb addr (address_of self)
            then submit_done (rejected spec "Cluster leader not available (self-reference)")
            else submit_forwarded addr (forward_request spec)
        end
  end.

Definition falsy_to_undefined (t : string) : option string := if truthy_str t then Some t else None.

(** The rest of [forwardToLeader]: [None] when the call threw. *)
Definition forwardToLeader_reply spec (resp : option ProtoSubmitResponse) : SubmitResult :=
  match resp with
  | Some p => mkSubmitResult (psr_accepted p) (psr_task_id p)
                (falsy_to_undefined (psr_assigned_node p))
                (falsy_to_undefined (psr_rejection_reason p))
  | None => rejected spec "Failed to forward to leader"
  end.

Section submission.
(** [Buffer.from(JSON.stringify(spec))]. *)
Context {D : Type} (spec_data : TaskSpec -> D).

Definition submit spec (mm : MembershipManager) (raft : RaftNode D) s :
    SubmitStep * RaftNode D * list (AppendCall D) :=
  match validateTask spec with
  | Some reason => (submit_done (rejected spec reason), raft, [])
  | None =>
      if negb (isLeader raft) then (forwardToLeader spec mm, raft, [])
      else if maxQueueSize s <=? jm_size (taskQueue s)
      then (submit_done (rejected spec "Queue full"), raft, [])
      else
        let '((success, _), raft, calls) := appendEntry task_submit (spec_data spec) raft in
        (submit_appended success, raft, calls)
  end.

Definition submit_resume (now : Z) spec (success : bool) (mm : MembershipManager) s :
    SubmitResult * TaskScheduler :=
  if negb success then (rejected spec "Failed to replicate task", s)
  else
    let id := ts_taskId spec in
    let s := s <| taskQueue ::= fun m => jm_set m id (mkQueuedTask spec now 0) |> in
    let s := s <| taskStatuses ::= fun m =>
               jm_set m id (mkTaskStatus id st_queued None None None None None None) |> in
    let s := s_emit (sv_taskSubmitted spec) s in
    let high := match ts_priority spec with Some p => 5 <? p | None => false end in
    match (if high then scheduleTask spec mm s else None) with
    | Some node => (mkSubmitResult true id (Some node) None, s)
    | None => (mkSubmitResult true id None None, s)
    end.

End submission.

(** ** The handlers (src/src/grpc/handlers.ts) *)

(** SubmitTask: the specification that it hands to [submit]. *)
Definition submitted_spec (p : ProtoTaskSpec) : TaskSpec :=
  mkTaskSpec (pts_task_id p) (js_toLowerCase (js_replace "TASK_TYPE_" "" (pts_type p)))
    (pts_submitter_node p) (Some (pts_submitter_session p))
    ((fun sh => mkShellTaskSpec (psh_command sh) (Some (psh_working_directory sh))
                  (Some (psh_sandboxed sh))) <$> pts_shell p)
    ((fun c => mkContainerTaskSpec (pco_image c) (Some (pco_command c)) (Some (pco_args c)) None None)
       <$> pts_container p)
    None None None None
    ((fun c => mkTaskConstraints (Some (pcn_allowed_nodes c)) (Some (pcn_excluded_nodes c))
                 (Some (pcn_prefer_local c)) (Some (pcn_avoid_gaming_nodes c))) <$> pts_constraints p)
    (Some (pts_priority p))
    (if truthy_str (pts_timeout_ms p) then parseInt (pts_timeout_ms p) else None)
    None None.

Definition submit_response (r : SubmitResult) : ProtoSubmitResponse :=
  mkProtoSubmitResponse (sb_taskId r) (sb_accepted r) (default "" (sb_assignedNode r))
    (default "" (sb_reason r)).

Definition scheduler_disabled : GrpcError :=
  (grpc_UNAVAILABLE, "Legacy TaskScheduler disabled — use the task-engine plugin instead").

Record ProtoTaskStatus := mkProtoTaskStatus {
  pst_task_id : string;
  pst_state : string;
  pst_assigned_node : string;
  pst_started_at : string;
  pst_completed_at : string;
  pst_exit_code : Z;
  pst_error : string
}.

Definition state_name (st : TaskState) : string :=
  match st with
  | st_queued => "queued" | st_assigned => "assigned" | st_running => "running"
  | st_completed => "completed" | st_failed => "failed" | st_cancelled => "cancelled"
  end.

Definition status_response (st : TaskStatus) : ProtoTaskStatus :=
  mkProtoTaskStatus (tst_taskId st) ("TASK_STATE_" +:+ js_toUpperCase (state_name (tst_state st)))
    (default "" (tst_assignedNode st)) (default "" (js_toString <$> tst_startedAt st))
    (default "" (js_toString <$> tst_completedAt st)) (default 0 (tst_exitCode st))
    (default "" (tst_error st)).

Definition GetTaskStatus (taskId : string) (scheduler : option TaskScheduler) :
    GrpcError + ProtoTaskStatus :=
  match scheduler with
  | None => inl scheduler_disabled
  | Some s =>
      match getStatus taskId s with
      | None => inl (grpc_NOT_FOUND, "Task not found: " +:+ taskId)
      | Some st => inr (status_response st)
      end
  end.

Definition CancelTask (now : Z) (taskId : string) (scheduler : option TaskScheduler) :
    option TaskScheduler * (GrpcError + (bool + string)) :=
  match scheduler with
  | None => (None, inl scheduler_disabled)
  | Some s => let '(s, r) := cancel now taskId s in (Some s, inr r)
  end.
