(* ===== verification/LegacySchedulerProps.v ===== *)
(** * Theorems about the in-memory scheduler (LegacyScheduler.v)

    Validation and submission, the choice of a node, a scheduling pass, what a
    forwarded task keeps, and the executions of the scheduler together with the
    streams it has opened ([reachable]). *)

From S2P Require Import Prelude JsMap JsString JsNumber Json Grpc Raft Membership LegacyScheduler.
From Stdlib Require Import QArith.
#[local] Open Scope Z_scope.

Implicit Types (s : TaskScheduler) (spec : TaskSpec) (mm : MembershipManager).

(** ** Validation and submission *)

(** What the code asks of a task: an id, and the payload of its type. *)
Definition has_payload spec : Prop :=
  (ts_type spec = "shell" /\ exists p, ts_shell spec = Some p /\ sh_command p <> "") \/
  (ts_type spec = "container" /\ exists p, ts_container spec = Some p /\ co_image p <> "") \/
  (ts_type spec = "subagent" /\ exists p, ts_subagent spec = Some p /\ su_prompt p <> "") \/
  (ts_type spec = "k8s_job" /\ exists p, ts_k8sJob spec = Some p /\
     k8_image p <> "" /\ k8_clusterContext p <> "") \/
  (ts_type spec = "claude_relay" /\ exists p, ts_claudeRelay spec = Some p /\
     cl_targetSessionId p <> "" /\ cl_prompt p <> "").

Definition valid_task spec : Prop := ts_taskId spec <> "" /\ has_payload spec.

Lemma missing_false {A} (o : option A) f :
  missing o f = false <-> exists a, o = Some a /\ f a <> "".
Proof.
  unfold missing. destruct o as [a|]; [|split; [done|by intros (? & ? & ?)]].
  rewrite negb_false_iff, truthy_str_true. naive_solver.
Qed.

Lemma missing2_false {A} (o : option A) f g :
  missing o f || missing o g = false <-> exists a, o = Some a /\ f a <> "" /\ g a <> "".
Proof. rewrite orb_false_iff, !missing_false. naive_solver. Qed.

Lemma validateTask_None spec : validateTask spec = None <-> valid_task spec.
Proof.
  unfold validateTask, valid_task, has_payload.
  destruct (truthy_str (ts_taskId spec)) eqn:Eid; cbn;
    [apply truthy_str_true in Eid | apply truthy_str_false in Eid; naive_solver].
  destruct (truthy_str (ts_type spec)) eqn:Ety; cbn;
    [apply truthy_str_true in Ety | apply truthy_str_false in Ety; rewrite Ety; naive_solver].
  rewrite <- !missing_false, <- !missing2_false.
  repeat match goal with
  | |- context [String.eqb (ts_type spec) ?c] =>
      destruct (String.eqb_spec (ts_type spec) c) as [->|]; [case_match; intuition congruence|]
  end.
  intuition congruence.
Qed.

(** The reasons of a rejection, in the order of the tests. *)
Definition rejection_reasons spec : list string :=
  ["Missing taskId"; "Missing task type"; "Shell task missing command";
   "Container task missing image"; "Subagent task missing prompt";
   "K8s job missing image or context"; "Claude relay missing target or prompt";
   "Unknown task type: " +:+ ts_type spec].

Lemma validateTask_reason spec reason :
  validateTask spec = Some reason -> reason ∈ rejection_reasons spec.
Proof.
  unfold validateTask, rejection_reasons. intros H.
  repeat (case_match; [try (injection H as <-; repeat (first [by left | right]))|]; try done);
    injection H as <-; repeat (first [by left | right]).
Qed.

(** Submitting.  The scheduler appends a task_submit entry exactly if
    the task is valid, the node leads and the queue has room, and then one entry
    with the data of the task; in every other case the log is untouched and
    nothing is sent.  A rejection names the task and its reason: the first failed
    test of the validation, a full queue at the leader, or at a follower that no
    other leader is known.  A follower forwards a valid task only to an address
    that is neither empty nor its own. *)
Theorem submit_outcome {D} (spec_data : TaskSpec -> D) spec mm (raft : RaftNode D) s :
  let '(step, raft', calls) := submit spec_data spec mm raft s in
  (forall ok, step = submit_appended ok <->
     ok = true /\ valid_task spec /\ isLeader raft = true /\ jm_size (taskQueue s) < maxQueueSize s) /\
  (if step is submit_appended _
   then log raft' = log raft ++ [mkLogEntry (currentTerm raft) (getLastLogIndex raft + 1) task_submit
                                   (spec_data spec)] /\ calls = replicateToFollowers raft'
   else raft' = raft /\ calls = []) /\
  (forall r, step = submit_done r -> exists reason, r = rejected spec reason /\
     ((~ valid_task spec /\ validateTask spec = Some reason /\ reason ∈ rejection_reasons spec) \/
      (valid_task spec /\ isLeader raft = true /\ maxQueueSize s <= jm_size (taskQueue s) /\
         reason = "Queue full") \/
      (valid_task spec /\ isLeader raft = false /\
         reason ∈ ["No leader available"; "Cluster leader not available (self-reference)"]))) /\
  (forall a req, step = submit_forwarded a req ->
     valid_task spec /\ isLeader raft = false /\ mm_leaderAddress mm = Some a /\ a <> "" /\
     req = forward_request spec /\
     exists self, getSelfNode mm = Some self /\ address_of self <> a).
Proof.
  unfold submit. pose proof (validateTask_None spec) as Hv.
  destruct (validateTask spec) as [reason|] eqn:Ev.
  { assert (~ valid_task spec) by (intros ?%Hv; done).
    split_and!; try done; [naive_solver|].
    intros r [= <-]. exists reason. split; [done|]. left. eauto using validateTask_reason. }
  assert (valid_task spec) as Hvalid by (by apply Hv). clear Hv.
  destruct (isLeader raft) eqn:El; cbn [negb].
  - destruct (Z.leb_spec (maxQueueSize s) (jm_size (taskQueue s))).
    { split_and!; try done; [intros ok; split; [done|intros (_ & _ & _ & ?); lia]|].
      intros r [= <-]. eexists. split; [done|]. naive_solver. }
    unfold appendEntry. rewrite El. cbn. split_and!; try done. naive_solver.
  - unfold forwardToLeader, getLeaderAddress.
    destruct (mm_leaderAddress mm) as [a|] eqn:Ea.
    2: { split_and!; try done; [naive_solver|].
         intros r [= <-]. eexists. split; [done|]. right. right. split_and!; [done..|set_solver]. }
    destruct (truthy_str a) eqn:Et; cbn [negb].
    2: { split_and!; try done; [naive_solver|].
         intros r [= <-]. eexists. split; [done|]. right. right. split_and!; [done..|set_solver]. }
    destruct (getSelfNode mm) as [self|] eqn:Es; [|split_and!; try done; naive_solver].
    destruct (String.eqb_spec a (address_of self)).
    { split_and!; try done; [naive_solver|].
      intros r [= <-]. eexists. split; [done|]. right. right. split_and!; [done..|set_solver]. }
    apply truthy_str_true in Et. split_and!; try done; [naive_solver|].
    intros ? ? [= <- <-]. split_and!; try done. eauto.
Qed.

(** ** Placement *)

Definition asks_resources (rq : ResourceRequirements) : Prop :=
  is_Some (truthy_rat (rq_cpuCores rq)) \/ is_Some (truthy_int (rq_memoryBytes rq)) \/
  rq_requiresGpu rq = Some true \/ is_Some (truthy_int (rq_gpuMemoryBytes rq)).

(** The requirements, read declaratively. *)
Definition offers (n : NodeInfo) (rq : ResourceRequirements) : Prop :=
  asks_resources rq -> exists r, n_resources n = Some r /\
    (forall c, truthy_rat (rq_cpuCores rq) = Some c ->
       (c <= inject_Z (r_cpuCores r) * (1 - r_cpuUsagePercent r / 100))%Q) /\
    (forall m, truthy_int (rq_memoryBytes rq) = Some m -> m <= r_memoryAvailableBytes r) /\
    (rq_requiresGpu rq = Some true -> exists g, free_gpu r = Some g /\
       forall m, truthy_int (rq_gpuMemoryBytes rq) = Some m -> m <= g_memoryAvailableBytes g).

Definition is_named (names : list string) (n : NodeInfo) : Prop :=
  n_nodeId n ∈ names \/ n_hostname n ∈ names.

(** The nodes that may run a task. *)
Definition may_run spec (n : NodeInfo) : Prop :=
  let c := default no_constraints (ts_constraints spec) in
  (forall l, nonempty (ts_targetNodes spec) = Some l -> is_named l n) /\
  (forall l, nonempty (tc_allowedNodes c) = Some l -> is_named l n) /\
  (forall l, nonempty (tc_excludedNodes c) = Some l -> ~ is_named l n) /\
  (tc_avoidGamingNodes c = Some true -> gaming n = false) /\
  offers n (default no_requirements (ts_requirements spec)).

Lemma named_true l n : named l n = true <-> is_named l n.
Proof. unfold named, is_named. rewrite orb_true_iff, !bool_decide_eq_true. done. Qed.

Lemma truthy_flag_true o : truthy_flag o = true <-> o = Some true.
Proof. destruct o as [[]|]; naive_solver. Qed.

Lemma given_true {A} (o : option A) : given o = true <-> is_Some o.
Proof. destruct o; split; eauto; [done|]. by intros []. Qed.

Lemma elem_of_keep_opt {A} (o : option (list string)) f (n : A) nodes :
  n ∈ match o with Some l => keep (f l) nodes | None => nodes end <->
  (forall l, o = Some l -> f l n = true) /\ n ∈ nodes.
Proof. destruct o; rewrite ?elem_of_keep; naive_solver. Qed.

Lemma asks_resources_true rq :
  given (truthy_rat (rq_cpuCores rq)) || given (truthy_int (rq_memoryBytes rq))
    || truthy_flag (rq_requiresGpu rq) || given (truthy_int (rq_gpuMemoryBytes rq)) = true <->
  asks_resources rq.
Proof.
  unfold asks_resources. rewrite !orb_true_iff, !given_true, truthy_flag_true. tauto.
Qed.

Lemma implb_match {A} (o : option A) (f : A -> bool) :
  match o with Some a => f a | None => true end = true <-> forall a, o = Some a -> f a = true.
Proof. destruct o; naive_solver. Qed.

Lemma meetsRequirements_true n rq : meetsRequirements n rq = true <-> offers n rq.
Proof.
  unfold meetsRequirements, offers. pose proof (asks_resources_true rq) as Ha.
  destruct (_ || _)%bool; cbn [negb].
  2: { split; [|done]. intros _ H%Ha. done. }
  destruct (n_resources n) as [r|].
  2: { split; [done|]. intros H. destruct H as (? & ? & _); [by apply Ha|done]. }
  rewrite !andb_true_iff, !implb_match. cbn beta.
  setoid_rewrite Qle_bool_iff. setoid_rewrite Z.leb_le.
  assert (Hg : (if truthy_flag (rq_requiresGpu rq)
          then match free_gpu r with
               | Some g => match truthy_int (rq_gpuMemoryBytes rq) with
                           | Some m => m <=? g_memoryAvailableBytes g
                           | None => true end
               | None => false end
          else true) = true <->
    (rq_requiresGpu rq = Some true -> exists g, free_gpu r = Some g /\
       forall m, truthy_int (rq_gpuMemoryBytes rq) = Some m -> m <= g_memoryAvailableBytes g)).
  { rewrite <- truthy_flag_true. destruct (truthy_flag _); [|naive_solver].
    destruct (free_gpu r) as [g|]; [|naive_solver]. rewrite implb_match. setoid_rewrite Z.leb_le.
    naive_solver. }
  rewrite Hg. split.
  - intros [[? ?] ?] _. eauto.
  - intros H. destruct H as (r' & [= <-] & ? & ? & ?); [by apply Ha|]. done.
Qed.

Lemma elem_of_getCandidateNodes spec mm n :
  n ∈ getCandidateNodes spec mm <-> n ∈ getActiveNodes mm /\ may_run spec n.
Proof.
  unfold getCandidateNodes, may_run.
  rewrite elem_of_keep, elem_of_keep_if, !elem_of_keep_opt, meetsRequirements_true, truthy_flag_true.
  setoid_rewrite negb_true_iff. setoid_rewrite <- not_true_iff_false. setoid_rewrite named_true.
  tauto.
Qed.

(** A node that reports the sizes of its memory. *)
Definition sized (n : NodeInfo) : Prop :=
  forall r, n_resources n = Some r ->
    r_memoryBytes r <> 0 /\ forall g, g ∈ r_gpus r -> g_memoryBytes g <> 0.

Lemma free_gpu_in r g : free_gpu r = Some g -> g ∈ r_gpus r.
Proof. intros H%List.find_some. rewrite list_elem_of_In. naive_solver. Qed.

Lemma scoreNode_fin n spec s : sized n -> is_fin (scoreNode n spec s).
Proof.
  unfold sized, scoreNode. intros H. destruct (n_resources n) as [r|]; [|auto].
  destruct (H r eq_refl) as [Hm Hg].
  repeat case_match; subst; repeat apply num_add_fin; auto;
    apply num_scale_fin, js_div_fin, Hg; by apply free_gpu_in.
Qed.

Lemma Qge_bool_total (f : NodeInfo * number -> Q) a b :
  Qle_bool (f b) (f a) = true \/ Qle_bool (f a) (f b) = true.
Proof. rewrite !Qle_bool_iff. destruct (Qlt_le_dec (f b) (f a)); [left; by apply Qlt_le_weak|by right]. Qed.

Lemma Qge_bool_trans (f : NodeInfo * number -> Q) a b c :
  Qle_bool (f b) (f a) = true -> Qle_bool (f c) (f b) = true -> Qle_bool (f c) (f a) = true.
Proof. rewrite !Qle_bool_iff. intros. by eapply Qle_trans. Qed.

Lemma bestNode_in spec mm s n :
  bestNode spec mm s = Some n -> n ∈ getCandidateNodes spec mm.
Proof.
  unfold bestNode. intros H.
  destruct (head _) as [[n' x]|] eqn:E; simplify_eq/=.
  assert (Hin : (n, x) ∈ js_sort by_score ((fun n => (n, scoreNode n spec s)) <$> getCandidateNodes spec mm)).
  { destruct (js_sort _ _); simplify_eq/=. by left. }
  rewrite js_sort_elem_of in Hin. apply list_elem_of_fmap in Hin as (? & [= -> ->] & ?). done.
Qed.

Lemma bestNode_None spec mm s : bestNode spec mm s = None <-> getCandidateNodes spec mm = [].
Proof.
  unfold bestNode. split.
  - intros H. destruct (head _) eqn:E; [done|].
    pose proof (js_sort_length by_score
      ((fun n => (n, scoreNode n spec s)) <$> getCandidateNodes spec mm)) as Hl.
    destruct (js_sort _ _); [|done]. rewrite length_fmap in Hl. by apply nil_length_inv.
  - intros ->. done.
Qed.

Lemma bestNode_best spec mm s n :
  (forall n', n' ∈ getCandidateNodes spec mm -> sized n') ->
  bestNode spec mm s = Some n ->
  forall n', n' ∈ getCandidateNodes spec mm ->
  (fin_value (scoreNode n' spec s) <= fin_value (scoreNode n spec s))%Q.
Proof.
  intros Hs Hb n' Hn'. unfold bestNode in Hb.
  rewrite (js_sort_ext _ (fun a b => Qle_bool (fin_value b.2) (fin_value a.2))) in Hb.
  2: { intros x y (? & -> & ?)%list_elem_of_fmap (? & -> & ?)%list_elem_of_fmap.
       unfold by_score. cbn. apply num_ge_fin; eauto using scoreNode_fin. }
  destruct (head _) as [[n0 x]|] eqn:E; simplify_eq/=.
  apply js_sort_head in E as [Hin Hmax];
    [|apply (Qge_bool_total (fun a => fin_value a.2)) | apply (Qge_bool_trans (fun a => fin_value a.2))].
  apply list_elem_of_fmap in Hin as (? & [= <- ->] & _).
  specialize (Hmax (n', scoreNode n' spec s)). cbn in Hmax. rewrite Qle_bool_iff in Hmax.
  apply Hmax. by apply (list_elem_of_fmap_2 (fun n => (n, scoreNode n spec s))).
Qed.

(** Placement.  A task gets a node exactly if some active node may run
    it: it is named by the target and the allowed lists where these are given, not
    by the excluded list, not gaming when that is to be avoided, and it offers the
    required cores, memory and GPU.  The address handed out is that of such a node,
    and when the nodes report their memory sizes no candidate has a higher score. *)
Theorem scheduleTask_spec spec mm s :
  match scheduleTask spec mm s with
  | None => forall n, n ∈ getActiveNodes mm -> ~ may_run spec n
  | Some a => exists n, a = address_of n /\ n ∈ getActiveNodes mm /\ may_run spec n /\
      ((forall n', n' ∈ getActiveNodes mm -> may_run spec n' -> sized n') ->
       forall n', n' ∈ getActiveNodes mm -> may_run spec n' ->
       (fin_value (scoreNode n' spec s) <= fin_value (scoreNode n spec s))%Q)
  end.
Proof.
  unfold scheduleTask. destruct (bestNode spec mm s) as [n|] eqn:E; cbn.
  - pose proof (bestNode_in _ _ _ _ E) as Hin. apply elem_of_getCandidateNodes in Hin as [Ha Hr].
    exists n. split_and!; [done..|]. intros Hs n' Hn' Hr'.
    eapply bestNode_best; [|exact E|by apply elem_of_getCandidateNodes].
    intros n'' [? ?]%elem_of_getCandidateNodes. auto.
  - apply bestNode_None in E. intros n Hn Hr.
    assert (n ∈ getCandidateNodes spec mm) as Hc by (by apply elem_of_getCandidateNodes).
    rewrite E in Hc. by apply elem_of_nil in Hc.
Qed.

(** ** A scheduling pass *)

Definition schedulable mm (q : QueuedTask) : bool :=
  match getCandidateNodes (q_spec q) mm with [] => false | _ => true end.

Definition q_id (q : QueuedTask) : string := ts_taskId (q_spec q).

(** The queue is keyed by the ids of its tasks. *)
Definition keyed (m : jsmap QueuedTask) : Prop :=
  jm_wf m /\ forall k q, (k, q) ∈ m -> q_id q = k.

Lemma scheduleTask_schedulable mm s q :
  schedulable mm q = true <-> is_Some (scheduleTask (q_spec q) mm s).
Proof.
  unfold schedulable, scheduleTask. rewrite fmap_is_Some.
  pose proof (bestNode_None (q_spec q) mm s) as H.
  destruct (bestNode _ _ _), (getCandidateNodes _ _); split; intros Hx;
    first [done | by eauto | by destruct Hx | discriminate (proj2 H eq_refl)
          | discriminate (proj1 H eq_refl)].
Qed.

Lemma scheduleTask_None mm s q : schedulable mm q = false -> scheduleTask (q_spec q) mm s = None.
Proof.
  intros H. destruct (scheduleTask _ _ _) eqn:E; [|done].
  assert (schedulable mm q = true) by (apply (scheduleTask_schedulable mm s); eauto). congruence.
Qed.

Definition take_out mm (m : jsmap QueuedTask) (q : QueuedTask) : jsmap QueuedTask :=
  if schedulable mm q then jm_delete m (q_id q) else m.

Lemma scheduleOne_queue now mm acc q :
  taskQueue (scheduleOne now mm acc q).1 = take_out mm (taskQueue acc.1) q /\
  di_spec <$> (scheduleOne now mm acc q).2 =
    (di_spec <$> acc.2) ++ (if schedulable mm q then [q_spec q] else []).
Proof.
  unfold scheduleOne, take_out. destruct (schedulable mm q) eqn:E.
  - apply (scheduleTask_schedulable mm acc.1) in E as [a ->]. cbn. by rewrite fmap_app.
  - rewrite scheduleTask_None by done. by rewrite app_nil_r.
Qed.

Lemma scheduleNext_fold now mm l acc :
  taskQueue (fold_left (scheduleOne now mm) l acc).1 = fold_left (take_out mm) l (taskQueue acc.1) /\
  di_spec <$> (fold_left (scheduleOne now mm) l acc).2 =
    (di_spec <$> acc.2) ++ (q_spec <$> filter (fun q => schedulable mm q = true) l).
Proof.
  revert acc. induction l as [|q l IH]; intros acc; [by cbn; rewrite app_nil_r|].
  cbn [fold_left]. destruct (scheduleOne_queue now mm acc q) as [Hq Hd].
  destruct (IH (scheduleOne now mm acc q)) as [-> ->]. rewrite Hq, Hd. split; [done|].
  rewrite <- app_assoc. f_equal. destruct (schedulable mm q) eqn:E.
  - by rewrite filter_cons_True.
  - rewrite filter_cons_False by (by rewrite E). done.
Qed.

Lemma take_out_filter mm l m : jm_wf m ->
  fold_left (take_out mm) l m =
  filter (fun kv => Forall (fun q => ~ (schedulable mm q = true /\ q_id q = kv.1)) l) m.
Proof.
  revert m. induction l as [|q l IH]; intros m Hm; cbn.
  { symmetry. apply filter_all. apply Forall_true. intros. constructor. }
  rewrite IH by (unfold take_out; case_match; auto using jm_wf_delete).
  unfold take_out. destruct (schedulable mm q) eqn:E.
  - rewrite jm_delete_filter by done. rewrite list_filter_filter.
    apply list_filter_iff. intros [k v]. cbn. rewrite Forall_cons. naive_solver.
  - apply list_filter_iff. intros [k v]. rewrite Forall_cons, E. naive_solver.
Qed.

Lemma keyed_take_out mm m l : keyed m -> l ≡ₚ jm_values m ->
  fold_left (take_out mm) l m = filter (fun kv => schedulable mm kv.2 = false) m.
Proof.
  intros [Hwf Hk] Hl. rewrite take_out_filter by done. apply filter_ext_in.
  intros [k q] Hin. rewrite Hl, Forall_forall. cbn. split.
  - intros H. destruct (schedulable mm q) eqn:E; [|done].
    exfalso. apply (H q); [|by rewrite (Hk k q)].
    apply list_elem_of_fmap. by exists (k, q).
  - intros E q' Hq' [Hs Hid]. unfold jm_values in Hq'.
    apply list_elem_of_fmap in Hq' as ([k' q''] & -> & Hin'). cbn in *.
    rewrite (Hk k' q'') in Hid by done. subst k'.
    apply jm_elem_of_get in Hin, Hin'; [|done..]. congruence.
Qed.

Lemma by_priority_total a b : by_priority a b = true \/ by_priority b a = true.
Proof.
  unfold by_priority.
  destruct (Z.eqb_spec (default 0 (ts_priority (q_spec b)) - default 0 (ts_priority (q_spec a))) 0),
    (Z.eqb_spec (default 0 (ts_priority (q_spec a)) - default 0 (ts_priority (q_spec b))) 0);
    cbn; rewrite !Z.leb_le; lia.
Qed.

Lemma by_priority_trans a b c :
  by_priority a b = true -> by_priority b c = true -> by_priority a c = true.
Proof.
  unfold by_priority. repeat case_match; prop_of_bool; rewrite ?Z.leb_le; lia.
Qed.

Lemma StronglySorted_filter {A} (R : A -> A -> Prop) (P : A -> Prop) `{!forall x, Decision (P x)} l :
  StronglySorted R l -> StronglySorted R (filter P l).
Proof.
  induction 1 as [|x l Hl IH Hx]; [constructor|]. destruct (decide (P x)).
  - rewrite filter_cons_True by done. constructor; [done|].
    apply Forall_forall. intros y [_ Hy]%list_elem_of_filter. by eapply Forall_forall in Hx.
  - by rewrite filter_cons_False.
Qed.

(** The status of a task that was just handed to an agent. *)
Definition placed (now : Z) mm s (q : QueuedTask) : Prop :=
  exists n st, n ∈ getActiveNodes mm /\ may_run (q_spec q) n /\
    jm_get (runningTasks s) (q_id q) = Some (mkRunningTask (q_spec q) (address_of n) now) /\
    getStatus (q_id q) s = Some st /\ tst_state st = st_running /\
    tst_assignedNode st = Some (address_of n).

Definition same_task (id : string) s s' : Prop :=
  jm_get (runningTasks s') id = jm_get (runningTasks s) id /\ getStatus id s' = getStatus id s.

Lemma updateStatus_get now id st node s k :
  id <> k -> getStatus k (updateStatus now id st node s) = getStatus k s.
Proof. intros. unfold updateStatus, getStatus. cbn. by rewrite jm_get_set_ne. Qed.

Lemma dispatchTask_frame now spec node s id :
  ts_taskId spec <> id -> same_task id s (dispatchTask now spec node s).1.
Proof.
  intros Hne. unfold dispatchTask, same_task. cbn [fst]. split.
  - cbn. by rewrite jm_get_set_ne.
  - rewrite updateStatus_get by done. unfold getStatus at 1, s_emit. cbn [field_update taskStatuses].
    change (getStatus id (updateStatus now (ts_taskId spec) st_assigned (Some node)
      (s <| runningTasks ::= fun m => jm_set m (ts_taskId spec) (mkRunningTask spec node now) |>))
      = getStatus id s).
    by rewrite updateStatus_get.
Qed.

Lemma node_address_truthy ip port : truthy_str (node_address ip port) = true.
Proof.
  apply truthy_str_true. unfold node_address. destruct ip; [|done].
  rewrite str_app_nil, str_app_cons. done.
Qed.

Lemma dispatchTask_placed now spec node s : truthy_str node = true ->
  let s' := (dispatchTask now spec node s).1 in
  jm_get (runningTasks s') (ts_taskId spec) = Some (mkRunningTask spec node now) /\
  exists st, getStatus (ts_taskId spec) s' = Some st /\ tst_state st = st_running /\
    tst_assignedNode st = Some node.
Proof.
  intros Ht. unfold dispatchTask. cbn [fst]. split.
  - cbn. by rewrite jm_get_set_eq.
  - eexists. split; [unfold updateStatus at 1, getStatus at 1; cbn [field_update taskStatuses s_emit];
      apply jm_get_set_eq|]. rewrite Ht. done.
Qed.

Lemma scheduleOne_frame now mm acc q id :
  q_id q <> id -> same_task id acc.1 (scheduleOne now mm acc q).1.
Proof.
  intros Hne. unfold scheduleOne. destruct (scheduleTask _ _ _) as [a|]; [|done].
  pose proof (dispatchTask_frame now (q_spec q) a
    (acc.1 <| taskQueue ::= fun m => jm_delete m (ts_taskId (q_spec q)) |>) id Hne) as Hf.
  destruct (dispatchTask _ _ _ _). exact Hf.
Qed.

Lemma same_task_trans id s1 s2 s3 : same_task id s1 s2 -> same_task id s2 s3 -> same_task id s1 s3.
Proof. unfold same_task. intros [-> ->] [-> ->]. done. Qed.

Lemma schedule_frame now mm l acc id :
  id ∉ q_id <$> l -> same_task id acc.1 (fold_left (scheduleOne now mm) l acc).1.
Proof.
  revert acc. induction l as [|q l IH]; intros acc Hn; cbn; [done|].
  rewrite fmap_cons, not_elem_of_cons in Hn. destruct Hn as [Hne Hn].
  eapply same_task_trans; [by apply scheduleOne_frame, not_eq_sym|]. by apply IH.
Qed.

Lemma same_task_placed now mm s s' q : same_task (q_id q) s s' -> placed now mm s q -> placed now mm s' q.
Proof. unfold placed. intros [-> ->] H. done. Qed.

Lemma scheduleOne_placed now mm acc q :
  schedulable mm q = true -> placed now mm (scheduleOne now mm acc q).1 q.
Proof.
  intros Hs. apply (scheduleTask_schedulable mm acc.1) in Hs as [a Ha].
  unfold scheduleOne. rewrite Ha. unfold scheduleTask in Ha.
  apply fmap_Some in Ha as (n & Eb & ->).
  apply bestNode_in, elem_of_getCandidateNodes in Eb as [Hact Hrun].
  pose proof (dispatchTask_placed now (q_spec q) (address_of n)
    (acc.1 <| taskQueue ::= fun m => jm_delete m (ts_taskId (q_spec q)) |>)
    (node_address_truthy _ _)) as (Hr & st & Hst).
  destruct (dispatchTask _ _ _ _) as [s' d]. exists n, st.
  destruct Hst as (? & ? & ?). by split_and!.
Qed.

Lemma schedule_placed now mm l acc q :
  NoDup (q_id <$> l) -> q ∈ l -> schedulable mm q = true ->
  placed now mm (fold_left (scheduleOne now mm) l acc).1 q.
Proof.
  revert acc. induction l as [|q' l IH]; intros acc; [by intros _ ?%elem_of_nil|].
  rewrite fmap_cons, NoDup_cons. intros [Hn Hnd] [->|Hin]%elem_of_cons Hs; cbn.
  - eapply same_task_placed; [by apply schedule_frame|]. by apply scheduleOne_placed.
  - by apply IH.
Qed.

Lemma keyed_ids m : keyed m -> q_id <$> jm_values m = jm_keys m.
Proof.
  intros [_ Hk]. unfold jm_values, jm_keys. rewrite <- list_fmap_compose.
  apply list_fmap_ext. intros i [k q] Hi. cbn. apply Hk. by eapply list_elem_of_lookup_2.
Qed.

(** A scheduling pass of the leader.  It dispatches exactly the queued tasks that
    some node may run, in the order of priority and then of age; the others keep
    their place in the queue; each dispatched task is recorded as running on an
    active node that may run it, and its status says so. *)
Theorem scheduleNext_pass {D} now mm (raft : RaftNode D) s :
  keyed (taskQueue s) -> isLeader raft = true ->
  let '(s', ds) := scheduleNext now mm raft s in
  taskQueue s' = filter (fun kv => schedulable mm kv.2 = false) (taskQueue s) /\
  (exists l, l ≡ₚ filter (fun q => schedulable mm q = true) (jm_values (taskQueue s)) /\
     StronglySorted (fun a b => by_priority a b = true) l /\ di_spec <$> ds = q_spec <$> l) /\
  (forall q, q ∈ jm_values (taskQueue s) -> schedulable mm q = true -> placed now mm s' q).
Proof.
  intros Hk Hl. unfold scheduleNext. rewrite Hl. cbn [negb].
  pose proof (scheduleNext_fold now mm (sortedQueue s) (s, [])) as [Hq Hd].
  assert (Hp : forall q, q ∈ jm_values (taskQueue s) -> schedulable mm q = true ->
    placed now mm (fold_left (scheduleOne now mm) (sortedQueue s) (s, [])).1 q).
  { intros q Hin Hs. apply schedule_placed; [|by apply js_sort_elem_of|done].
    unfold sortedQueue. rewrite js_sort_perm, keyed_ids by done. apply Hk. }
  destruct (fold_left _ _ _) as [s' ds]. cbn [fst snd] in *. split_and!; [| |done].
  - rewrite Hq. apply keyed_take_out; [done|]. apply js_sort_perm.
  - exists (filter (fun q => schedulable mm q = true) (sortedQueue s)). split_and!; [| |done].
    + unfold sortedQueue. by rewrite js_sort_perm.
    + apply StronglySorted_filter, js_sort_sorted; [apply by_priority_total|apply by_priority_trans].
Qed.

(** ** Executions

    The scheduler, the streams it is reading and the cancellations it has asked
    agents for.  A task id is submitted once (a fresh id); everything else may
    happen in any order: scheduling passes, messages, errors and the end of a
    stream, cancellations and their answers, with any view of the cluster. *)
Record Sys := mkSys {
  sy_sched : TaskScheduler;
  sy_open : list Dispatch;
  sy_cancels : list string
}.

Inductive step : Sys -> Sys -> Prop :=
  | step_submit now spec mm s ds cs :
      getStatus (ts_taskId spec) s = None ->
      step (mkSys s ds cs) (mkSys (submit_resume now spec true mm s).2 ds cs)
  | step_pass {D} now mm (raft : RaftNode D) s ds cs :
      step (mkSys s ds cs)
        (mkSys (scheduleNext now mm raft s).1 (ds ++ (scheduleNext now mm raft s).2) cs)
  | step_response now resp s ds1 d ds2 cs :
      step (mkSys s (ds1 ++ d :: ds2) cs)
        (mkSys (onResponse now resp d s).1 (ds1 ++ (onResponse now resp d s).2 :: ds2) cs)
  | step_error now message s ds1 d ds2 cs :
      step (mkSys s (ds1 ++ d :: ds2) cs) (mkSys (onError now message d s) (ds1 ++ ds2) cs)
  | step_end s ds1 d ds2 cs : step (mkSys s (ds1 ++ d :: ds2) cs) (mkSys s (ds1 ++ ds2) cs)
  | step_cancel now id s ds cs :
      step (mkSys s ds cs)
        (mkSys (cancel now id s).1 ds (if (cancel now id s).2 is inr _ then id :: cs else cs))
  | step_cancel_reply now id answered s ds cs1 cs2 :
      step (mkSys s ds (cs1 ++ id :: cs2)) (mkSys (cancel_reply now id answered s).1 ds (cs1 ++ cs2)).

Inductive reachable (queueSize retries : option Z) : Sys -> Prop :=
  | reach_init : reachable queueSize retries (mkSys (new_TaskScheduler queueSize retries) [] [])
  | reach_step x y : reachable queueSize retries x -> step x y -> reachable queueSize retries y.

Definition d_id (d : Dispatch) : string := ts_taskId (di_spec d).

Definition known s (id : string) : Prop := is_Some (getStatus id s).
Definition in_state s (id : string) (P : TaskState -> Prop) : Prop :=
  exists st, getStatus id s = Some st /\ P (tst_state st).

(** The invariant.  The maps are keyed by task id and every task they mention has
    a status; a task is queued, running or neither, and a queued task has no open
    stream; statuses agree with the maps, except that a cancellation may be
    recorded first; no task was ever tried more than once before it was queued. *)
Record Inv (x : Sys) : Prop := {
  inv_queue : keyed (taskQueue (sy_sched x));
  inv_running_wf : jm_wf (runningTasks (sy_sched x));
  inv_status_wf : jm_wf (taskStatuses (sy_sched x));
  inv_running_id : forall k r, jm_get (runningTasks (sy_sched x)) k = Some r -> ts_taskId (ru_spec r) = k;
  inv_status_id : forall k st, getStatus k (sy_sched x) = Some st -> tst_taskId st = k;
  inv_open : NoDup (d_id <$> sy_open x);
  inv_queued : forall k q, jm_get (taskQueue (sy_sched x)) k = Some q ->
    jm_get (runningTasks (sy_sched x)) k = None /\ k ∉ d_id <$> sy_open x /\
    0 <= q_attempts q <= 1 /\
    in_state (sy_sched x) k (fun st => st = st_queued \/ st = st_cancelled);
  inv_running : forall k r, jm_get (runningTasks (sy_sched x)) k = Some r ->
    in_state (sy_sched x) k (fun st => st = st_running \/ st = st_cancelled);
  inv_open_known : forall k, k ∈ d_id <$> sy_open x -> known (sy_sched x) k;
  inv_cancel_known : forall k, k ∈ sy_cancels x -> known (sy_sched x) k;
  inv_not_failed : 1 <= maxRetries (sy_sched x) ->
    forall id e, sv_taskFailed id e ∉ sch_emitted (sy_sched x)
}.

(** The fields that an operation leaves, for the ones that only add events. *)
Lemma updateStatus_status now id st node s k :
  getStatus k (updateStatus now id st node s) =
  if decide (id = k) then
    Some ((fun o => o <| tst_state := st |>
       <| tst_assignedNode := if default false (truthy_str <$> node) then node else tst_assignedNode o |>
       <| tst_startedAt := if bool_decide (st = st_running) then Some now else tst_startedAt o |>
       <| tst_completedAt := if terminal st then Some now else tst_completedAt o |>)
      (default (mkTaskStatus id st None None None None None None) (getStatus id s)))
  else getStatus k s.
Proof.
  case_decide as Hk; [|by apply updateStatus_get]. subst k.
  unfold updateStatus, getStatus at 1. cbn [field_update taskStatuses s_emit].
  rewrite jm_get_set_eq. f_equal.
  set (o := default _ _). destruct o, node as [a|]; cbn; [destruct (truthy_str a)|];
    destruct st; reflexivity.
Qed.

(** *** The invariant under the elementary changes *)

Lemma in_state_known s k P : in_state s k P -> known s k.
Proof. intros (st & H & _). by exists st. Qed.

Lemma inv_queue_unset s ds cs id : Inv (mkSys s ds cs) ->
  Inv (mkSys (s <| taskQueue ::= fun m => jm_delete m id |>) ds cs).
Proof.
  intros []. cbn in *. destruct inv_queue0 as [Hwf Hk].
  constructor; cbn; auto.
  - split; [by apply jm_wf_delete|]. intros k q Hin. apply Hk.
    rewrite jm_delete_filter in Hin by done. by apply list_elem_of_filter in Hin as [_ ?].
  - intros k q. rewrite jm_get_delete by done. case_decide; [done|]. intros Hq. by apply inv_queued0.
Qed.

Lemma inv_queue_set s ds cs id spec now n : Inv (mkSys s ds cs) ->
  ts_taskId spec = id -> jm_get (runningTasks s) id = None -> id ∉ d_id <$> ds ->
  0 <= n <= 1 -> in_state s id (fun st => st = st_queued \/ st = st_cancelled) ->
  Inv (mkSys (s <| taskQueue ::= fun m => jm_set m id (mkQueuedTask spec now n) |>)
         ds cs).
Proof.
  intros [] Hid Hr Ho Hn Hs. cbn in *. destruct inv_queue0 as [Hwf Hk].
  constructor; cbn; auto.
  - split; [by apply jm_wf_set|]. intros k q Hin%jm_elem_of_get; [|by apply jm_wf_set].
    rewrite jm_get_set in Hin. case_decide; simplify_eq; [done|]. apply Hk. by apply jm_elem_of_get.
  - intros k q. rewrite jm_get_set. case_decide; [|by apply inv_queued0]. intros [= <-]. subst. done.
Qed.

Lemma inv_running_unset s ds cs id : Inv (mkSys s ds cs) ->
  Inv (mkSys (s <| runningTasks ::= fun m => jm_delete m id |>) ds cs).
Proof.
  intros []. cbn in *.
  constructor; cbn; auto using jm_wf_delete.
  - intros k r. rewrite jm_get_delete by done. case_decide; [done|]. apply inv_running_id0.
  - intros k q Hq. destruct (inv_queued0 _ _ Hq) as (? & ? & ? & ?).
    rewrite jm_get_delete by done. split_and!; first [done | lia | by case_decide].
  - intros k r. rewrite jm_get_delete by done. case_decide; [done|]. apply inv_running0.
Qed.

Lemma inv_running_set s ds cs id spec node now : Inv (mkSys s ds cs) ->
  ts_taskId spec = id -> jm_get (taskQueue s) id = None ->
  in_state s id (fun st => st = st_running \/ st = st_cancelled) ->
  Inv (mkSys (s <| runningTasks ::= fun m => jm_set m id (mkRunningTask spec node now) |>)
         ds cs).
Proof.
  intros [] Hid Hq Hs. cbn in *.
  constructor; cbn; auto using jm_wf_set.
  - intros k r. rewrite jm_get_set. case_decide; [|apply inv_running_id0]. intros [= <-]. by subst.
  - intros k q Hk. destruct (inv_queued0 _ _ Hk) as (? & ? & ? & ?).
    rewrite jm_get_set. case_decide; [congruence|]. split_and!; try done; lia.
  - intros k r. rewrite jm_get_set. case_decide; [|apply inv_running0]. intros [= <-]. by subst.
Qed.

Lemma inv_statuses s ds cs (f : jsmap TaskStatus -> jsmap TaskStatus) : Inv (mkSys s ds cs) ->
  jm_wf (f (taskStatuses s)) ->
  (forall k st, jm_get (f (taskStatuses s)) k = Some st -> tst_taskId st = k) ->
  (forall k, known s k -> is_Some (jm_get (f (taskStatuses s)) k)) ->
  (forall k q, jm_get (taskQueue s) k = Some q ->
     in_state (s <| taskStatuses ::= f |>) k (fun st => st = st_queued \/ st = st_cancelled)) ->
  (forall k r, jm_get (runningTasks s) k = Some r ->
     in_state (s <| taskStatuses ::= f |>) k (fun st => st = st_running \/ st = st_cancelled)) ->
  Inv (mkSys (s <| taskStatuses ::= f |>) ds cs).
Proof.
  intros [] Hwf Hid Hkn Hq Hr. cbn in *.
  constructor; cbn; unfold known, getStatus in *; cbn in *; auto.
  intros k q Hk. destruct (inv_queued0 _ _ Hk) as (? & ? & ? & ?). split_and!; try done; try lia. eauto.
Qed.

Lemma inv_emit s ds cs ev : Inv (mkSys s ds cs) -> (forall id e, ev <> sv_taskFailed id e) \/ maxRetries s < 1 ->
  Inv (mkSys (s_emit ev s) ds cs).
Proof.
  intros [] Hev. cbn in *. constructor; cbn; auto.
  intros Hm id e. rewrite elem_of_app, list_elem_of_singleton. intros [H|H].
  - by eapply inv_not_failed0.
  - destruct Hev as [Hev|?]; [|lia]. by eapply Hev.
Qed.

Lemma updateStatus_shape now id st node s : exists status,
  updateStatus now id st node s =
    s_emit (sv_statusChanged status) (s <| taskStatuses ::= fun m => jm_set m id status |>) /\
  tst_state status = st /\ tst_taskId status = default id (tst_taskId <$> getStatus id s).
Proof.
  unfold updateStatus. cbv zeta. eexists. split; [done|].
  split; [by repeat case_match|]. destruct (getStatus id s); cbn; by repeat case_match.
Qed.

(** A status may be written if it fits the map the task is in. *)
Lemma inv_updateStatus s ds cs now id st node : Inv (mkSys s ds cs) ->
  (is_Some (jm_get (taskQueue s) id) -> st = st_queued \/ st = st_cancelled) ->
  (is_Some (jm_get (runningTasks s) id) -> st = st_running \/ st = st_cancelled) ->
  Inv (mkSys (updateStatus now id st node s) ds cs).
Proof.
  intros Hx Hq Hr. cbn in *.
  destruct (updateStatus_shape now id st node s) as (status & -> & Hst & Hid).
  assert (tst_taskId status = id) as Hid'.
  { rewrite Hid. destruct (getStatus id s) eqn:E; [|done]. cbn. by apply (inv_status_id _ Hx) in E. }
  apply inv_emit; [|by left].
  assert (Hin : forall k (P : TaskState -> Prop), (id = k -> P st) -> in_state s k P ->
    in_state (s <| taskStatuses ::= fun m => jm_set m id status |>) k P).
  { intros k P Hp (o & Ho & HP). unfold in_state, getStatus. cbn. rewrite jm_get_set.
    case_decide; [exists status; by rewrite Hst; auto|]. by exists o. }
  apply inv_statuses; cbn.
  - done.
  - apply jm_wf_set, (inv_status_wf _ Hx).
  - intros k o. rewrite jm_get_set. case_decide; [|apply (inv_status_id _ Hx)].
    intros [= <-]. by subst k.
  - intros k [o Ho]. rewrite jm_get_set. case_decide; eauto.
  - intros k q Hk. apply Hin; [intros ->; eauto|]. by apply (inv_queued _ Hx) in Hk as (_ & _ & _ & ?).
  - intros k r Hk. apply Hin; [intros ->; eauto|]. by apply (inv_running _ Hx) in Hk.
Qed.

Lemma fmap_snoc {A B} (f : A -> B) l x : f <$> (l ++ [x]) = (f <$> l) ++ [f x].
Proof. by rewrite fmap_app. Qed.

Lemma inv_open_add s ds cs d : Inv (mkSys s ds cs) ->
  d_id d ∉ d_id <$> ds -> jm_get (taskQueue s) (d_id d) = None -> known s (d_id d) ->
  Inv (mkSys s (ds ++ [d]) cs).
Proof.
  intros [] Hn Hq Hk. cbn in *. constructor; cbn; auto.
  - rewrite fmap_snoc. apply NoDup_app. split_and!; [done| |apply NoDup_singleton].
    by intros k Hin ->%list_elem_of_singleton.
  - intros k q Hk'. destruct (inv_queued0 _ _ Hk') as (? & ? & ? & ?).
    split_and!; try done; try lia. rewrite fmap_snoc, elem_of_app, list_elem_of_singleton.
    intros [?| ->]; [done|]. congruence.
  - intros k. rewrite fmap_snoc, elem_of_app, list_elem_of_singleton. intros [?| ->]; auto.
Qed.

Lemma inv_open_remove s ds1 d ds2 cs : Inv (mkSys s (ds1 ++ d :: ds2) cs) ->
  Inv (mkSys s (ds1 ++ ds2) cs) /\ d_id d ∉ d_id <$> (ds1 ++ ds2) /\
  jm_get (taskQueue s) (d_id d) = None /\ known s (d_id d).
Proof.
  intros []. cbn in *.
  assert (Hp : d_id <$> ds1 ++ d :: ds2 ≡ₚ d_id d :: (d_id <$> ds1 ++ ds2))
    by (rewrite !fmap_app, fmap_cons; solve_Permutation).
  rewrite Hp, NoDup_cons in inv_open0. destruct inv_open0 as [Hn Hnd].
  split_and!; [|done| |apply inv_open_known0; rewrite Hp; by left].
  - constructor; cbn; auto.
    + intros k q Hk. destruct (inv_queued0 _ _ Hk) as (? & Hin & ? & ?).
      split_and!; try done; try lia. intros Hk'. apply Hin. rewrite Hp. by right.
    + intros k Hk. apply inv_open_known0. rewrite Hp. by right.
  - destruct (jm_get (taskQueue s) (d_id d)) eqn:E; [|done].
    apply inv_queued0 in E as (_ & Hin & _). destruct Hin. rewrite Hp. by left.
Qed.

Lemma inv_cancels s ds cs cs' : Inv (mkSys s ds cs) -> (forall k, k ∈ cs' -> known s k) ->
  Inv (mkSys s ds cs').
Proof. intros [] H. cbn in *. by constructor. Qed.

Lemma in_state_updateStatus now id st node s (P : TaskState -> Prop) :
  P st -> in_state (updateStatus now id st node s) id P.
Proof.
  intros HP. unfold in_state. rewrite updateStatus_status, decide_True by done. by eexists.
Qed.

Lemma inv_dispatch now spec node s ds cs : Inv (mkSys s ds cs) ->
  jm_get (taskQueue s) (ts_taskId spec) = None -> ts_taskId spec ∉ d_id <$> ds ->
  jm_get (runningTasks s) (ts_taskId spec) = None ->
  Inv (mkSys (dispatchTask now spec node s).1 (ds ++ [(dispatchTask now spec node s).2]) cs).
Proof.
  intros Hx Hq Ho Hr. set (id := ts_taskId spec) in *.
  set (s1 := updateStatus now id st_running (Some node)
    (s_emit (sv_taskAssigned spec node) (updateStatus now id st_assigned (Some node) s))).
  assert (Hs1 : Inv (mkSys s1 ds cs)).
  { apply inv_updateStatus; [|intros [? E]; cbn in E; congruence|by left].
    apply inv_emit; [|by left]. apply inv_updateStatus; [done|..]; intros [? E]; congruence. }
  change (Inv (mkSys (s1 <| runningTasks ::= fun m => jm_set m id (mkRunningTask spec node now) |>)
    (ds ++ [mkDispatch spec node [] []]) cs)).
  assert (Hst : in_state s1 id (fun st => st = st_running \/ st = st_cancelled))
    by (apply in_state_updateStatus; by left).
  apply inv_open_add; [by apply inv_running_set|done|done|by eapply in_state_known].
Qed.

Lemma inv_schedule now mm l s ds ds' cs : Inv (mkSys s (ds ++ ds') cs) ->
  NoDup (q_id <$> l) -> (forall q, q ∈ l -> jm_get (taskQueue s) (q_id q) = Some q) ->
  let '(s2, ds2) := fold_left (scheduleOne now mm) l (s, ds') in Inv (mkSys s2 (ds ++ ds2) cs).
Proof.
  revert s ds'. induction l as [|q l IH]; intros s ds' Hx Hnd Hin; cbn [fold_left]; [done|].
  rewrite fmap_cons, NoDup_cons in Hnd. destruct Hnd as [Hn Hnd].
  assert (Hl : forall q', q' ∈ l -> q_id q <> q_id q').
  { intros q' Hq' Heq. apply Hn. rewrite Heq. by apply list_elem_of_fmap_2. }
  unfold scheduleOne at 2. cbn [fst snd].
  destruct (scheduleTask (q_spec q) mm s) as [a|]; [|apply IH; [done..|]; intros; apply Hin; by right].
  pose proof (Hin q ltac:(by left)) as Hq.
  destruct (inv_queued _ Hx _ _ Hq) as (Hr & Ho & _). cbn in Hr, Ho.
  pose proof (inv_dispatch now (q_spec q) a (s <| taskQueue ::= fun m => jm_delete m (q_id q) |>)
    (ds ++ ds') cs (inv_queue_unset _ _ _ _ Hx)) as Hd.
  cbn [taskQueue field_update runningTasks] in Hd.
  rewrite jm_get_delete_eq in Hd by apply (inv_queue _ Hx). specialize (Hd eq_refl Ho Hr).
  rewrite <- app_assoc in Hd.
  apply IH; [exact Hd|done|]. intros q' Hq'.
  transitivity (jm_get (jm_delete (taskQueue s) (q_id q)) (q_id q')); [done|].
  rewrite jm_get_delete_ne by auto. apply Hin. by right.
Qed.

Lemma inv_pass {D} now mm (raft : RaftNode D) s ds cs : Inv (mkSys s ds cs) ->
  Inv (mkSys (scheduleNext now mm raft s).1 (ds ++ (scheduleNext now mm raft s).2) cs).
Proof.
  intros Hx. unfold scheduleNext. destruct (isLeader raft); cbn [negb]; [|by cbn; rewrite app_nil_r].
  pose proof (inv_queue _ Hx) as Hk. cbn in Hk.
  pose proof (inv_schedule now mm (sortedQueue s) s ds [] cs) as H. rewrite app_nil_r in H.
  destruct (fold_left _ _ _) as [s2 ds2]. apply H; [done| |].
  - unfold sortedQueue. rewrite js_sort_perm, keyed_ids by done. apply Hk.
  - intros q Hq. unfold sortedQueue in Hq. rewrite js_sort_elem_of in Hq.
    unfold jm_values in Hq. apply list_elem_of_fmap in Hq as ([k q'] & -> & Hin). cbn.
    destruct Hk as [Hwf Hk]. rewrite (Hk _ _ Hin). by apply jm_elem_of_get.
Qed.

Lemma inv_alter id (f : TaskStatus -> TaskStatus) s ds cs : Inv (mkSys s ds cs) ->
  (forall o, tst_taskId (f o) = tst_taskId o) ->
  jm_get (taskQueue s) id = None -> jm_get (runningTasks s) id = None ->
  Inv (mkSys (s <| taskStatuses ::= jm_alter f id |>) ds cs).
Proof.
  intros Hx Hf Hq Hr.
  assert (Hin : forall k P, k <> id -> in_state s k P ->
    in_state (s <| taskStatuses ::= jm_alter f id |>) k P).
  { intros k P Hne (o & Ho & HP). unfold in_state, getStatus in *. cbn.
    rewrite jm_get_alter, decide_False by done. eauto. }
  apply inv_statuses; [done|..].
  - apply jm_wf_alter, (inv_status_wf _ Hx).
  - intros k o. rewrite jm_get_alter. case_decide; [|apply (inv_status_id _ Hx)].
    destruct (jm_get _ k) as [o'|] eqn:E; [|done]. intros [= <-]. rewrite Hf.
    by apply (inv_status_id _ Hx k).
  - intros k [o Ho]. unfold getStatus in Ho. rewrite jm_get_alter, Ho. case_decide; cbn; eauto.
  - intros k q Hk. apply Hin; [congruence|]. by apply (inv_queued _ Hx) in Hk as (_ & _ & _ & ?).
  - intros k r Hk. apply Hin; [congruence|]. by apply (inv_running _ Hx) in Hk.
Qed.

Lemma inv_completion now id r s ds cs : Inv (mkSys s ds cs) ->
  jm_get (taskQueue s) id = None -> Inv (mkSys (handleTaskCompletion now id r s) ds cs).
Proof.
  intros Hx Hq. unfold handleTaskCompletion. apply inv_emit; [|by left].
  apply inv_alter; [by apply inv_running_unset|done|done|].
  cbn. apply jm_get_delete_eq, (inv_running_wf _ Hx).
Qed.

Lemma inv_response now resp s ds1 d ds2 cs : Inv (mkSys s (ds1 ++ d :: ds2) cs) ->
  Inv (mkSys (onResponse now resp d s).1 (ds1 ++ (onResponse now resp d s).2 :: ds2) cs).
Proof.
  intros Hx.
  assert (Hout : forall s' d', di_spec d' = di_spec d -> Inv (mkSys s' (ds1 ++ d :: ds2) cs) ->
    Inv (mkSys s' (ds1 ++ d' :: ds2) cs)).
  { intros s' d' Hd []. assert (He : d_id <$> ds1 ++ d' :: ds2 = d_id <$> ds1 ++ d :: ds2)
      by (rewrite !fmap_app, !fmap_cons; unfold d_id; by rewrite Hd).
    cbn in *. constructor; cbn; rewrite ?He; auto. }
  assert (Hev : forall data,
    Inv (mkSys (s_emit (sv_taskOutput (ts_taskId (di_spec d)) data) s) (ds1 ++ d :: ds2) cs))
    by (intros; apply inv_emit; [done|by left]).
  pose proof (inv_open_remove _ _ _ _ _ Hx) as (_ & _ & Hq & _).
  unfold onResponse.
  destruct (ag_output resp) as [[[] data]|], (ag_status resp); cbn -[handleTaskCompletion];
    first [done | apply Hout; [done|]; first [apply Hev | apply inv_completion; [apply Hev|exact Hq]]
          | apply inv_completion; [first [done | apply Hev] | exact Hq]].
Qed.

Lemma inv_failure now spec e s ds cs : Inv (mkSys s ds cs) ->
  jm_get (taskQueue s) (ts_taskId spec) = None -> ts_taskId spec ∉ d_id <$> ds ->
  Inv (mkSys (handleTaskFailure now spec e s) ds cs).
Proof.
  intros Hx Hq Ho. unfold handleTaskFailure. set (id := ts_taskId spec) in *. cbv zeta.
  set (s1 := s <| runningTasks ::= fun m => jm_delete m id |>).
  assert (Hx1 : Inv (mkSys s1 ds cs)) by (by apply inv_running_unset).
  assert (Hr1 : jm_get (runningTasks s1) id = None)
    by (apply jm_get_delete_eq, (inv_running_wf _ Hx)).
  change (taskQueue s1) with (taskQueue s). rewrite Hq.
  destruct (Z.ltb_spec 0 (maxRetries s1)) as [Hm|Hm].
  - change (Inv (mkSys ((updateStatus now id st_queued None s1)
      <| taskQueue ::= fun m => jm_set m id (mkQueuedTask spec now (0 + 1)) |>) ds cs)).
    apply inv_queue_set; [|done..|lia|apply in_state_updateStatus; by left].
    apply inv_updateStatus; [done|by left|]. intros [? E]. congruence.
  - apply inv_emit; [|right; cbn in *; lia].
    apply inv_alter; [|done|done|done].
    apply inv_updateStatus; [done|..]; intros [? E]; [|congruence].
    change (taskQueue s1) with (taskQueue s) in E. congruence.
Qed.

Lemma inv_submit now spec mm s ds cs : Inv (mkSys s ds cs) ->
  getStatus (ts_taskId spec) s = None -> Inv (mkSys (submit_resume now spec true mm s).2 ds cs).
Proof.
  intros Hx Hfresh. set (id := ts_taskId spec) in *.
  assert (Hnot : forall P, ~ in_state s id P) by (intros P (? & ? & _); congruence).
  assert (Hq : jm_get (taskQueue s) id = None).
  { destruct (jm_get _ id) eqn:E; [|done]. apply (inv_queued _ Hx) in E as (_ & _ & _ & ?). by edestruct Hnot. }
  assert (Hr : jm_get (runningTasks s) id = None).
  { destruct (jm_get (runningTasks s) id) eqn:E; [|done]. apply (inv_running _ Hx) in E. by edestruct Hnot. }
  assert (Ho : id ∉ d_id <$> ds).
  { intros [o Hk]%(inv_open_known _ Hx). cbn in Hk. congruence. }
  set (status := mkTaskStatus id st_queued None None None None None None).
  assert (Hs : Inv (mkSys (s <| taskStatuses ::= fun m => jm_set m id status |>) ds cs)).
  { assert (Hin : forall k P, in_state s k P ->
      in_state (s <| taskStatuses ::= fun m => jm_set m id status |>) k P).
    { intros k P (o & Hk & HP). unfold in_state, getStatus in *. cbn.
      rewrite jm_get_set, decide_False by congruence. eauto. }
    apply inv_statuses; [done|..].
    - apply jm_wf_set, (inv_status_wf _ Hx).
    - intros k o. rewrite jm_get_set. case_decide; [by intros [= <-]|]. apply (inv_status_id _ Hx).
    - intros k [o Hk]. unfold getStatus in Hk. rewrite jm_get_set. case_decide; eauto.
    - intros k q Hk. apply Hin. by apply (inv_queued _ Hx) in Hk as (_ & _ & _ & ?).
    - intros k r Hk. apply Hin. by apply (inv_running _ Hx) in Hk. }
  assert (Hs2 : Inv (mkSys (s_emit (sv_taskSubmitted spec)
      ((s <| taskStatuses ::= fun m => jm_set m id status |>)
         <| taskQueue ::= fun m => jm_set m id (mkQueuedTask spec now 0) |>)) ds cs)).
  { apply inv_emit; [|by left]. apply inv_queue_set; [done..|lia|].
    exists status. unfold getStatus. cbn. rewrite jm_get_set_eq. auto. }
  unfold submit_resume. cbn [negb]. cbv zeta. by case_match.
Qed.

Lemma inv_cancel now id s ds cs : Inv (mkSys s ds cs) ->
  Inv (mkSys (cancel now id s).1 ds (if (cancel now id s).2 is inr _ then id :: cs else cs)).
Proof.
  intros Hx. unfold cancel. destruct (jm_has (taskQueue s) id) eqn:Eh.
  - apply inv_updateStatus; [by apply inv_queue_unset| |].
    + cbn. rewrite jm_get_delete_eq by apply (inv_queue _ Hx). by intros [].
    + by right.
  - destruct (jm_get (runningTasks s) id) as [r|] eqn:E; [|done]. cbn.
    eapply inv_cancels; [exact Hx|]. intros k [->|Hk]%elem_of_cons.
    + apply (inv_running _ Hx) in E. by eapply in_state_known.
    + by apply (inv_cancel_known _ Hx).
Qed.

Lemma reachable_Inv queueSize retries x : reachable queueSize retries x -> Inv x.
Proof.
  induction 1 as [|x y _ Hx Hstep].
  { constructor; cbn; try done; try by intros ? ?%elem_of_nil.
    - split; [apply jm_wf_nil|]. by intros ? ? ?%elem_of_nil.
    - apply jm_wf_nil.
    - apply jm_wf_nil.
    - constructor.
    - by intros _ id e ?%elem_of_nil. }
  destruct Hstep.
  - by apply inv_submit.
  - by apply inv_pass.
  - by apply inv_response.
  - apply inv_open_remove in Hx as (? & ? & ? & ?). by apply inv_failure.
  - by apply inv_open_remove in Hx as (? & _).
  - by apply inv_cancel.
  - assert (Hx' : Inv (mkSys s ds (cs1 ++ cs2))).
    { eapply inv_cancels; [exact Hx|]. intros k Hk. apply (inv_cancel_known _ Hx). cbn. set_solver. }
    unfold cancel_reply. destruct answered; [|done]. cbn. by apply inv_updateStatus; [|right|right].
Qed.

(** The tables of the scheduler, in every execution in which task ids
    are not reused and whatever the order of scheduling passes, messages, stream
    errors, cancellations and their answers: the maps are keyed by task id, no task
    is queued and running at once, a queued task has no open stream, a queued task
    has the status queued and a running one the status running, except for a
    cancellation recorded first, and every task of a map has a status. *)
Theorem scheduler_tables queueSize retries x : reachable queueSize retries x -> Inv x.
Proof. apply reachable_Inv. Qed.

Lemma step_maxRetries x y : step x y -> maxRetries (sy_sched y) = maxRetries (sy_sched x).
Proof.
  assert (Hu : forall now id st node s, maxRetries (updateStatus now id st node s) = maxRetries s) by done.
  assert (Hc : forall now id r s, maxRetries (handleTaskCompletion now id r s) = maxRetries s) by done.
  destruct 1; cbn [sy_sched]; try done.
  - unfold submit_resume. cbn [negb]. cbv zeta. by case_match.
  - unfold scheduleNext. destruct (isLeader raft); [|done]. cbn [negb].
    assert (H : forall l acc, maxRetries (fold_left (scheduleOne now mm) l acc).1 = maxRetries acc.1).
    { induction l as [|q l IH]; intros acc; [done|]. cbn [fold_left]. rewrite IH.
      unfold scheduleOne. by destruct (scheduleTask _ _ _). }
    by rewrite H.
  - unfold onResponse. by destruct (ag_output resp) as [[[] ?]|], (ag_status resp).
  - unfold onError, handleTaskFailure. cbv zeta. by destruct (_ <? _).
  - unfold cancel. destruct (jm_has _ _); [done|]. by destruct (jm_get _ _).
  - by destruct answered.
Qed.

Lemma reachable_maxRetries queueSize retries x :
  reachable queueSize retries x -> maxRetries (sy_sched x) = default 3 retries.
Proof. induction 1 as [|x y _ IH Hs]; [done|]. by rewrite (step_maxRetries _ _ Hs). Qed.

(** Retries are not limited.  The attempts of a task are kept in its
    queue entry, which the dispatch deletes; so a failed execution always finds
    none, the task is queued again with one attempt, and with a limit of at least
    one retry the limit is never reached: no task is ever given up. *)
Theorem retry_limit_never_reached queueSize retries x :
  reachable queueSize retries x -> 1 <= default 3 retries ->
  (forall id e, sv_taskFailed id e ∉ sch_emitted (sy_sched x)) /\
  (forall id q, jm_get (taskQueue (sy_sched x)) id = Some q -> q_attempts q <= 1) /\
  (forall d now e, d ∈ sy_open x ->
     let s' := onError now e d (sy_sched x) in
     jm_get (taskQueue s') (d_id d) = Some (mkQueuedTask (di_spec d) now 1) /\
     in_state s' (d_id d) (fun st => st = st_queued)).
Proof.
  intros Hx Hm. pose proof (reachable_maxRetries _ _ _ Hx) as Hmax.
  apply reachable_Inv in Hx. split_and!.
  - apply (inv_not_failed _ Hx). lia.
  - intros id q Hq. apply (inv_queued _ Hx) in Hq. lia.
  - intros d now e Hd. apply list_elem_of_split in Hd as (ds1 & ds2 & Hd).
    destruct x as [s ds cs]. cbn in *. subst ds.
    pose proof (inv_open_remove _ _ _ _ _ Hx) as (_ & _ & Hq & _).
    unfold onError, handleTaskFailure. cbv zeta.
    change (taskQueue (s <| runningTasks ::= fun m => jm_delete m (ts_taskId (di_spec d)) |>))
      with (taskQueue s). unfold d_id in *. rewrite Hq.
    change (maxRetries (s <| runningTasks ::= fun m => jm_delete m (ts_taskId (di_spec d)) |>))
      with (maxRetries s).
    destruct (Z.ltb_spec 0 (maxRetries s)); [|lia]. split.
    + cbn. apply jm_get_set_eq.
    + by apply in_state_updateStatus.
Qed.

Lemma completion_status now id r s st0 : getStatus id s = Some st0 ->
  getStatus id (handleTaskCompletion now id r s) =
  Some (mkTaskStatus (tst_taskId st0) (if tr_success r then st_completed else st_failed)
          (tst_assignedNode st0) (tst_startedAt st0) (Some now) (Some (tr_exitCode r)) (tr_error r) (Some r)).
Proof.
  intros H. unfold handleTaskCompletion, getStatus in *. cbv zeta.
  match goal with |- jm_get (taskStatuses (s_emit _ (_ <| taskStatuses ::= ?f |>))) _ = _ =>
    change (jm_get (f (taskStatuses s)) id = Some (mkTaskStatus (tst_taskId st0)
      (if tr_success r then st_completed else st_failed) (tst_assignedNode st0) (tst_startedAt st0)
      (Some now) (Some (tr_exitCode r)) (tr_error r) (Some r))) end.
  rewrite jm_get_alter, decide_True by done. by rewrite H.
Qed.

(** The status an agent reports is not understood.  The ExecuteTask
    handler reports the exit code in the field [exit_code]; the scheduler reads
    [exitCode].  Whatever the agent reports, success included, the task ends as
    failed with the exit code -1. *)
Theorem agent_status_misread now success exit error d s st0 :
  getStatus (d_id d) s = Some st0 ->
  let s' := (onResponse now (mkAgentResponse None (Some (executed_status (d_id d) success exit error))) d s).1 in
  exists st, getStatus (d_id d) s' = Some st /\ tst_state st = st_failed /\
    tst_exitCode st = Some (-1) /\ tst_error st = Some (default "" error).
Proof.
  intros H. unfold onResponse. cbn [ag_output ag_status fst].
  rewrite (completion_status _ _ _ _ _ H). by eexists.
Qed.

(** ** Forwarding *)

(** A task with the one payload of its type and no labels or mounts. *)
Definition plain_shell spec : Prop :=
  ts_type spec = "shell" /\ ts_container spec = None.
Definition plain_container spec : Prop :=
  ts_type spec = "container" /\ ts_shell spec = None /\
  forall c, ts_container spec = Some c -> co_labels c = None /\ co_mounts c = None.

Lemma forwarded_type spec :
  ts_type spec ∈ ["shell"; "container"; "subagent"; "k8s_job"; "claude_relay"] ->
  ts_type (submitted_spec (forward_request spec)) = ts_type spec.
Proof.
  intros H. cbn [submitted_spec ts_type forward_request pts_type].
  repeat (apply elem_of_cons in H as [->|H]; [by vm_compute|]). by apply elem_of_nil in H.
Qed.

(** What the leader may run a forwarded task on: the constraints survive, the
    requirements and the target nodes do not. *)
Lemma forwarded_candidates spec mm :
  getCandidateNodes (submitted_spec (forward_request spec)) mm =
  getCandidateNodes (mkTaskSpec (ts_taskId spec) (ts_type spec) (ts_submitterNode spec) None None None
    None None None None (ts_constraints spec) None None None None) mm.
Proof.
  unfold getCandidateNodes. cbn [ts_constraints submitted_spec forward_request pts_constraints].
  destruct (ts_constraints spec) as [[[[]|] [[]|] pl [[]|]]|]; reflexivity.
Qed.

(** A follower's forwarding.  A shell task, or a container task without
    labels and mounts, reaches the leader's [submit] with its id, type, payload,
    constraints, priority and timeout; the leader validates it as the follower did
    and, when the task states neither requirements nor target nodes, considers the
    same nodes.  The other three types lose their payload on the way: the leader
    rejects every such task, although the follower found it valid. *)
Theorem forwarded_task spec mm : valid_task spec ->
  let spec' := submitted_spec (forward_request spec) in
  (plain_shell spec \/ plain_container spec ->
     validateTask spec' = None /\ ts_taskId spec' = ts_taskId spec /\ ts_type spec' = ts_type spec /\
     sh_command <$> ts_shell spec' = sh_command <$> ts_shell spec /\
     (fun c => (co_image c, default [] (co_command c), default [] (co_args c))) <$> ts_container spec' =
       (fun c => (co_image c, default [] (co_command c), default [] (co_args c))) <$> ts_container spec /\
     default 0 (ts_priority spec') = default 0 (ts_priority spec) /\
     default 0 (ts_timeoutMs spec') = default 0 (ts_timeoutMs spec) /\
     (ts_requirements spec = None -> nonempty (ts_targetNodes spec) = None ->
      getCandidateNodes spec' mm = getCandidateNodes spec mm)) /\
  (ts_type spec = "subagent" -> validateTask spec' = Some "Subagent task missing prompt") /\
  (ts_type spec = "k8s_job" -> validateTask spec' = Some "K8s job missing image or context") /\
  (ts_type spec = "claude_relay" -> validateTask spec' = Some "Claude relay missing target or prompt").
Proof.
  intros [Hid Hp]. cbv zeta.
  assert (Hty : ts_type (submitted_spec (forward_request spec)) = ts_type spec).
  { apply forwarded_type. unfold has_payload in Hp. set_solver. }
  assert (Hid' : truthy_str (ts_taskId spec) = true) by (by apply truthy_str_true).
  split; [intros Hkind | clear Hp; unfold validateTask; rewrite Hty;
    change (ts_taskId (submitted_spec (forward_request spec))) with (ts_taskId spec); rewrite Hid';
    split_and!; intros ->; reflexivity].
  split_and!; try done.
  - apply validateTask_None. split; [done|]. unfold has_payload in *. rewrite Hty.
    destruct Hkind as [[Hs _]|[Hs _]]; rewrite Hs in Hp.
    + left. split; [done|]. destruct Hp as [(_ & p & Hsh & Hc)|Hp];
        [|repeat destruct Hp as [[? _]|Hp]; try discriminate; by destruct Hp].
      cbn. rewrite Hsh. cbn. by eexists.
    + right. left. split; [done|].
      destruct Hp as [[? _]|[(_ & p & Hsh & Hc)|Hp]]; [done| |];
        [|repeat destruct Hp as [[? _]|Hp]; try discriminate; by destruct Hp].
      cbn. rewrite Hsh. cbn. by eexists.
  - cbn. by destruct (ts_shell spec).
  - cbn. by destruct (ts_container spec).
  - cbn [ts_timeoutMs submitted_spec forward_request pts_timeout_ms].
    destruct (ts_timeoutMs spec) as [t|]; [|done].
    destruct (truthy_str (js_toString t)) eqn:Et; [by rewrite parseInt_toString|].
    apply truthy_str_false in Et. pose proof (parseInt_toString t) as H. by rewrite Et in H.
  - intros Hrq Htn. rewrite forwarded_candidates. unfold getCandidateNodes. cbn. by rewrite Hrq, Htn.
Qed.

(** ** A small cluster *)

Definition alone : MembershipManager :=
  new_MembershipManager (mkMembershipConfig "a" "alpha" "100.64.0.1" 50051 None true) 0.
Definition leader_a : RaftNode string :=
  (new_RaftNode (mkRaftConfig "a" None false None) file_missing true) <| state := leader |>.
Definition hello : TaskSpec :=
  mkTaskSpec "t1" "shell" "a" None (Some (mkShellTaskSpec "echo hello" None None)) None None None None
    None None None None None None.

(** A task submitted and dispatched. *)
Definition submitted_sys : Sys := mkSys (submit_resume 1 hello true alone (new_TaskScheduler None None)).2 [] [].
Definition dispatched_sys : Sys :=
  mkSys (scheduleNext 2 alone leader_a (sy_sched submitted_sys)).1
    ([] ++ (scheduleNext 2 alone leader_a (sy_sched submitted_sys)).2) [].

Lemma dispatched_reachable : reachable None None dispatched_sys.
Proof.
  eapply reach_step; [eapply reach_step; [apply reach_init|]|].
  - apply (step_submit 1 hello alone). reflexivity.
  - apply step_pass.
Qed.

Lemma scheduler_tables_witness :
  reachable None None dispatched_sys /\ jm_size (runningTasks (sy_sched dispatched_sys)) = 1 /\
  Inv dispatched_sys.
Proof.
  split; [apply dispatched_reachable|]. split; [reflexivity|].
  exact (scheduler_tables None None dispatched_sys dispatched_reachable).
Defined.

Lemma retry_limit_never_reached_witness :
  reachable None None dispatched_sys /\ js_length (sy_open dispatched_sys) = 1 /\
  forall id e, sv_taskFailed id e ∉ sch_emitted (sy_sched dispatched_sys).
Proof.
  split; [apply dispatched_reachable|]. split; [reflexivity|].
  apply (retry_limit_never_reached None None dispatched_sys dispatched_reachable). cbn. lia.
Defined.

Lemma scheduleNext_pass_witness :
  keyed (taskQueue (sy_sched submitted_sys)) /\ isLeader leader_a = true /\
  (let '(s', ds) := scheduleNext 2 alone leader_a (sy_sched submitted_sys) in
   taskQueue s' = [] /\ di_spec <$> ds = [hello]).
Proof.
  assert (Hk : keyed (taskQueue (sy_sched submitted_sys))).
  { split; [apply NoDup_singleton|]. by intros k q [= -> ->]%list_elem_of_singleton. }
  split; [done|]. split; [done|].
  pose proof (scheduleNext_pass 2 alone leader_a (sy_sched submitted_sys) Hk eq_refl) as H.
  destruct (scheduleNext _ _ _ _) as [s' ds]. destruct H as (-> & (l & Hl & _ & ->) & _).
  split; [reflexivity|]. change (l ≡ₚ [mkQueuedTask hello 1 0]) in Hl.
  by apply Permutation_singleton_r in Hl as ->.
Defined.

Lemma forwarded_task_witness :
  valid_task hello /\ validateTask (submitted_spec (forward_request hello)) = None.
Proof.
  assert (Hv : valid_task hello).
  { split; [done|]. left. split; [done|]. by eexists. }
  split; [done|]. apply (forwarded_task hello alone Hv). left. done.
Defined.

Lemma agent_status_misread_witness :
  exists st, getStatus "t1" (onResponse 3 (mkAgentResponse None (Some (executed_status "t1" true 0 None)))
    (mkDispatch hello "100.64.0.1:50051" [] []) (sy_sched dispatched_sys)).1 = Some st /\
  tst_state st = st_failed.
Proof.
  assert (H0 : getStatus "t1" (sy_sched dispatched_sys) = Some
    (mkTaskStatus "t1" st_running (Some "100.64.0.1:50051") (Some 2) None None None None))
    by (vm_compute; reflexivity).
  pose proof (agent_status_misread 3 true 0 None (mkDispatch hello "100.64.0.1:50051" [] [])
    (sy_sched dispatched_sys) _ H0) as H. cbv zeta in H. destruct H as (st & H & Hs & _). eauto.
Defined.

(** A task that was cancelled while it ran is queued again when its stream then
    fails, and its status says queued. *)
Example cancelled_task_runs_again :
  let s := (cancel_reply 3 "t1" true (sy_sched dispatched_sys)).1 in
  let s' := onError 4 "killed" (mkDispatch hello "100.64.0.1:50051" [] []) s in
  (tst_state <$> getStatus "t1" s) = Some st_cancelled /\
  (tst_state <$> getStatus "t1" s') = Some st_queued /\ getQueuedCount s' = 1.
Proof. by vm_compute. Qed.

(** A task of high priority is reported as assigned when it is submitted, but it
    is only queued: nothing is dispatched. *)
Example high_priority_is_only_reported :
  let '(r, s) := submit_resume 1 (mkTaskSpec "t2" "shell" "a" None
      (Some (mkShellTaskSpec "true" None None)) None None None None None None (Some 9) None None None)
      true alone (new_TaskScheduler None None) in
  sb_assignedNode r = Some "100.64.0.1:50051" /\ getRunningCount s = 0 /\
  (tst_state <$> getStatus "t2" s) = Some st_queued.
Proof. by vm_compute. Qed.

(** The load of a node counts the tasks of every node whose address contains its
    own as a text: a task on 100.64.0.11 also weighs on 100.64.0.1. *)
Example load_counts_longer_addresses :
  let n ip := mkNodeInfo "n" "n" ip 50051 role_follower active
    (Some (mkNodeResources 8 1000 1000 [] 0 0 0 false)) [] 0 0 in
  let s := (new_TaskScheduler None None) <| runningTasks := [("t", mkRunningTask hello "100.64.0.11:50051" 0)] |> in
  num_ge (scoreNode (n "100.64.0.1") hello s) (scoreNode (n "100.64.0.2") hello s) = false.
Proof. by vm_compute. Qed.
