(* ===== verification/TaskExecutor.v ===== *)
(** * The task executor of an agent (src/src/agent/task-executor.ts)

    [TaskExecutor.execute] adds a [RunningTask] object to the table of running
    tasks, runs the task, and removes the table's entry when its promise settles.
    The objects are a store ([objects], an object is an index) since the callbacks
    of a child process hold their object and not the table's entry.  A buffer is a
    string of bytes.  Process, Docker and subagent events are inputs. *)

From S2P Require Import Prelude JsMap JsString Json Grpc.
From Stdlib Require Import Ascii.

(** ** Data *)

Record ShellTaskSpec := mkShellTaskSpec {
  sh_command : string;
  sh_workingDirectory : option string;
  sh_sandboxed : bool
}.

Record Mount := mkMount { hostPath : string; containerPath : string; readOnly : bool }.
Record ContainerTaskSpec := mkContainerTaskSpec {
  image : string;
  command : option (list string);
  args : option (list string);
  labels : option (jsmap string);
  mounts : option (list Mount)
}.

Record SubagentTaskSpec := mkSubagentTaskSpec {
  prompt : string;
  model : option string;
  tools : option (list string);
  contextSummary : option string;
  maxTurns : option Z
}.

(** The kind of a task is the text of [spec.type]. *)
Record TaskSpec := mkTaskSpec {
  taskId : string;
  task_type : string;
  shell : option ShellTaskSpec;
  container : option ContainerTaskSpec;
  subagent : option SubagentTaskSpec;
  environment : option (jsmap string);
  timeoutMs : option Z
}.

Record TaskResult := mkTaskResult {
  r_taskId : string;
  r_success : bool;
  r_exitCode : Z;
  r_stdout : string;
  r_stderr : string;
  r_error : option string;
  r_startedAt : Z;
  r_completedAt : Z
}.

Inductive OutputKind := out_stdout | out_stderr | out_status.
Record TaskOutput := mkTaskOutput {
  o_taskId : string;
  o_type : OutputKind;
  o_data : string;
  o_timestamp : Z
}.

Record RunningTask := mkRunningTask {
  spec : TaskSpec;
  process : option (string * list string);      (* command and arguments *)
  containerId : option string;
  startedAt : Z;
  stdout : list string;
  stderr : list string;
  cancelled : bool;
  settled : bool                                 (* its promise has its value *)
}.
#[export] Instance RunningTask_eta : EtaRecord RunningTask := fun r =>
  mkRunningTask (spec r) (process r) (containerId r) (startedAt r) (stdout r) (stderr r) (cancelled r) (settled r).

Record TaskExecutor := mkTaskExecutor {
  maxConcurrent : Z;
  sandboxCommand : option string;
  docker : bool;                                 (* a Docker client exists *)
  subagentExecutor : bool;
  objects : list RunningTask;
  runningTasks : jsmap nat;
  listeners : list nat;                          (* objects that listen to the subagent executor *)
  outputs : list TaskOutput                      (* the output events *)
}.
#[export] Instance TaskExecutor_eta : EtaRecord TaskExecutor := fun e =>
  mkTaskExecutor (maxConcurrent e) (sandboxCommand e) (docker e) (subagentExecutor e) (objects e)
    (runningTasks e) (listeners e) (outputs e).

Implicit Types (e : TaskExecutor) (sp : TaskSpec) (i : nat).

Definition new_TaskExecutor (maxConcurrentTasks : option Z) (sandbox : option string) (dockerAvailable apiKey : bool) :
    TaskExecutor :=
  mkTaskExecutor (default 10 maxConcurrentTasks) sandbox dockerAvailable apiKey [] [] [] [].

Definition emitOutput (now : Z) (id : string) (ty : OutputKind) (data : string) e : TaskExecutor :=
  e <| outputs ::= fun l => l ++ [mkTaskOutput id ty data now] |>.

Definition getRunningTaskIds e : list string := jm_keys (runningTasks e).

(** The [finally] clause: the entry under the task's id is removed. *)
Definition finish i e : TaskExecutor :=
  match objects e !! i with
  | Some r => e <| objects ::= alter (fun r => r <| settled := true |>) i |>
                <| runningTasks ::= fun m => jm_delete m (taskId (spec r)) |>
  | None => e
  end.

(** ** execute *)

Definition shell_command (sh : ShellTaskSpec) e : string * list string :=
  match sandboxCommand e with
  | Some sandbox => if sh_sandboxed sh && truthy_str sandbox then (sandbox, [sh_command sh])
                    else ("/bin/sh", ["-c"; sh_command sh])
  | None => ("/bin/sh", ["-c"; sh_command sh])
  end.

(** What [createContainer] is called with. *)
Record ContainerConfig := mkContainerConfig {
  Image : string;
  Cmd : option (list string);
  Entrypoint : option (list string);
  Labels : option (jsmap string);
  Env : list string;
  Binds : option (list string)
}.
Definition container_config sp (c : ContainerTaskSpec) : ContainerConfig :=
  mkContainerConfig (image c) (command c) (args c) (labels c)
    ((fun kv : string * string => kv.1 +:+ "=" +:+ kv.2) <$> default [] (environment sp))
    ((fun l : list Mount => (fun m => hostPath m +:+ ":" +:+ containerPath m +:+ ":" +:+ (if readOnly m then "ro" else "rw")) <$> l)
       <$> mounts c).

Definition subagent_started (s : SubagentTaskSpec) : string :=
  stringify (JObj ([("type", JStr "subagent_started")] ++
    (match model s with Some m => [("model", JStr m)] | None => [] end) ++
    [("toolCount", JNum (match tools s with Some l => js_length l | None => 0 end))])).

(** How [execute] goes on: it throws, it has its result, or it waits for the events
    of the object. *)
Inductive Execution := threw (message : string) | returned (r : TaskResult) | waiting (i : nat).

Definition failure (now : Z) (r : RunningTask) (error : string) : TaskResult :=
  mkTaskResult (taskId (spec r)) false (-1) "" "" (Some error) (startedAt r) now.

Definition execute (now : Z) sp e : TaskExecutor * Execution :=
  if maxConcurrent e <=? jm_size (runningTasks e)
  then (e, threw ("Max concurrent tasks (" +:+ js_toString (maxConcurrent e) +:+ ") reached"))
  else
    let i := length (objects e) in
    let r := mkRunningTask sp None None now [] [] false false in
    let e := e <| objects ::= fun l => l ++ [r] |> <| runningTasks ::= fun m => jm_set m (taskId sp) i |> in
    if String.eqb (task_type sp) "shell" then
      match shell sp with
      | None => (finish i e, threw "Cannot read properties of undefined (reading 'sandboxed')")
      | Some sh =>
          (e <| objects ::= alter (fun r => r <| process := Some (shell_command sh e) |>) i |>, waiting i)
      end
    else if String.eqb (task_type sp) "container" then
      if negb (docker e) then (finish i e, returned (failure now r "Docker not available"))
      else match container sp with
           | None => (finish i e, returned (failure now r "Cannot read properties of undefined (reading 'image')"))
           | Some _ => (e, waiting i)
           end
    else if String.eqb (task_type sp) "subagent" then
      if negb (subagentExecutor e)
      then (finish i e, returned (failure now r "Subagent executor not configured (missing ANTHROPIC_API_KEY)"))
      else match subagent sp with
           | None => (finish i e, threw "Cannot read properties of undefined (reading 'prompt')")
           | Some s => (emitOutput now (taskId sp) out_status (subagent_started s) e <| listeners ::= fun l => l ++ [i] |>,
                        waiting i)
           end
    else (finish i e, threw ("Unsupported task type: " +:+ task_type sp)).

(** ** Events of a task *)

(** A chunk of output. *)
Definition onData (now : Z) (ty : OutputKind) (data : string) i e : TaskExecutor :=
  match objects e !! i with
  | Some r =>
      let push r := match ty with
                    | out_stdout => r <| stdout ::= fun l => l ++ [data] |>
                    | out_stderr => r <| stderr ::= fun l => l ++ [data] |>
                    | out_status => r
                    end in
      emitOutput now (taskId (spec r)) ty data (e <| objects ::= alter push i |>)
  | None => e
  end.

Definition concat (chunks : list string) : string := foldr String.append "" chunks.

Definition task_result (now : Z) (r : RunningTask) (exitCode : Z) : TaskResult :=
  mkTaskResult (taskId (spec r)) ((exitCode =? 0) && negb (cancelled r)) exitCode
    (concat (stdout r)) (concat (stderr r))
    (if cancelled r then Some "Task cancelled" else None) (startedAt r) now.

Definition task_error (now : Z) (r : RunningTask) (message : string) : TaskResult :=
  mkTaskResult (taskId (spec r)) false (-1) (concat (stdout r)) (concat (stderr r)) (Some message) (startedAt r) now.

(** A promise takes the first value it is given. *)
Definition resolve (result : RunningTask -> TaskResult) i e : TaskExecutor * option TaskResult :=
  match objects e !! i with
  | Some r => if settled r then (e, None) else (finish i e, Some (result r))
  | None => (e, None)
  end.

(** The close and error events of the child process. *)
Definition close_code (code : option Z) (signal : bool) : Z :=
  match code with Some c => c | None => if signal then 128 else -1 end.
Definition onClose (now : Z) (code : option Z) (signal : bool) i e : TaskExecutor * option TaskResult :=
  resolve (fun r => task_result now r (close_code code signal)) i e.
Definition onProcessError (now : Z) (message : string) i e : TaskExecutor * option TaskResult :=
  resolve (fun r => task_error now r message) i e.

(** The container was created; it exited, or a call to Docker failed.  The failure
    ends the task, and not the container if it was started. *)
Definition onContainerCreated (id : string) i e : TaskExecutor :=
  e <| objects ::= alter (fun r => r <| containerId := Some id |>) i |>.
Definition onContainerEnd (now : Z) (outcome : string + Z) i e : TaskExecutor * option TaskResult :=
  match outcome with
  | inr statusCode => resolve (fun r => task_result now r statusCode) i e
  | inl message => resolve (fun r => task_error now r message) i e
  end.

(** An event of the subagent executor reaches every object that listens. *)
Inductive SubagentEvent :=
  | sa_text (text : string)
  | sa_turn (turn maxTurns : Z)
  | sa_tool_call (name : string) (input : json)
  | sa_tool_result (name result : string).

Definition event_output (ev : SubagentEvent) : OutputKind * string :=
  match ev with
  | sa_text text => (out_stdout, text)
  | sa_turn turn maxTurns =>
      (out_status, stringify (JObj [("type", JStr "subagent_turn"); ("turn", JNum turn); ("maxTurns", JNum maxTurns)]))
  | sa_tool_call name input =>
      (out_status, stringify (JObj [("type", JStr "tool_call"); ("name", JStr name); ("input", input)]))
  | sa_tool_result name result =>
      (out_status, stringify (JObj [("type", JStr "tool_result"); ("name", JStr name); ("result", JStr result)]))
  end.

Definition onSubagentEvent (now : Z) (ev : SubagentEvent) e : TaskExecutor :=
  foldl (fun e i => match objects e !! i with
                    | Some r => emitOutput now (taskId (spec r)) (event_output ev).1 (event_output ev).2 e
                    | None => e
                    end) e (listeners e).

(** The subagent executor returned. *)
Record ToolCallRecord := mkToolCallRecord { tc_name : string; tc_input : json; tc_output : string; tc_timestamp : Z }.

Record SubagentResult := mkSubagentResult {
  sr_success : bool;
  sr_response : string;
  sr_toolCalls : list ToolCallRecord;
  sr_turns : Z;
  sr_inputTokens : Z;
  sr_outputTokens : Z;
  sr_error : option string
}.

Definition subagent_completed (r : SubagentResult) : string :=
  stringify (JObj [("type", JStr "subagent_completed"); ("success", JBool (sr_success r)); ("turns", JNum (sr_turns r));
    ("inputTokens", JNum (sr_inputTokens r)); ("outputTokens", JNum (sr_outputTokens r));
    ("toolCalls", JNum (js_length (sr_toolCalls r)))]).

Definition onSubagentEnd (now : Z) (result : SubagentResult) i e : TaskExecutor * option TaskResult :=
  match objects e !! i with
  | None => (e, None)
  | Some r =>
      let e := emitOutput now (taskId (spec r)) out_status (subagent_completed result) e in
      let e := e <| listeners ::= filter (fun j => j <> i) |> in
      resolve (fun r => mkTaskResult (taskId (spec r)) (sr_success result) (if sr_success result then 0 else 1)
        (sr_response result) (default "" (sr_error result)) (sr_error result) (startedAt r) now) i e
  end.

(** [cancel]: the answer, and what is sent to the task. *)
Inductive Signal := kill_process (i : nat) | stop_container (id : string).
Definition cancel (id : string) e : TaskExecutor * bool * list Signal :=
  match jm_get (runningTasks e) id with
  | None => (e, false, [])
  | Some i =>
      match objects e !! i with
      | None => (e, false, [])
      | Some r =>
          (e <| objects ::= alter (fun r => r <| cancelled := true |>) i |>, true,
           (match process r with Some _ => [kill_process i] | None => [] end) ++
           (match containerId r with Some c => if docker e && truthy_str c then [stop_container c] else [] | None => [] end))
      end
  end.

(** ** Docker's multiplexed stream

    A frame is a type byte, three unused bytes, the length of the payload in four
    bytes, most significant first, and the payload. *)
Definition byte_at (n : nat) (s : string) : option Z := (fun c => Z.of_nat (nat_of_ascii c)) <$> String.get n s.

Definition readUInt32BE (n : nat) (s : string) : option Z :=
  a ← byte_at n s; b ← byte_at (n + 1) s; c ← byte_at (n + 2) s; d ← byte_at (n + 3) s;
  Some (a * 16777216 + b * 65536 + c * 256 + d).

(** The loop over one chunk; [None] is the RangeError of a header cut short.  Each
    turn consumes a header, so the length of the chunk bounds the turns. *)
Fixpoint demux_loop (fuel : nat) (data : string) : option (list (Z * string)) :=
  match fuel with
  | O => Some []
  | S n =>
      match byte_at 0 data with
      | None => Some []
      | Some streamType =>
          size ← readUInt32BE 4 data;
          let payload := js_slice_str data 8 (8 + size) in
          rest ← demux_loop n (js_slice_str_from data (8 + size));
          Some ((streamType, payload) :: rest)
      end
  end.
Definition demux (data : string) : option (list (Z * string)) := demux_loop (String.length data) data.

Definition onAttachData (now : Z) (data : string) i e : option TaskExecutor :=
  frames ← demux data;
  Some (foldl (fun e (f : Z * string) =>
    if f.1 =? 1 then onData now out_stdout f.2 i e
    else if f.1 =? 2 then onData now out_stderr f.2 i e
    else e) e frames).

(** ** The ExecuteTask handler of the agent's service *)

(** What [call.request.spec] holds; [None] is a payload that is absent. *)
Record ProtoTask := mkProtoTask {
  p_task_id : string;
  p_type : string;
  p_shell : option ShellTaskSpec
}.

Definition spec_of_proto (p : ProtoTask) : TaskSpec :=
  mkTaskSpec (p_task_id p) (js_toLowerCase (js_replace "TASK_TYPE_" "" (p_type p))) (p_shell p) None None None None.

(** The message written when [execute] returned and when it threw, as the client
    reads it: the second carries no exit code, which arrives as the default. *)
Definition result_response (p : ProtoTask) (r : TaskResult) : AgentResponse :=
  mkAgentResponse None (Some (executed_status (p_task_id p) (r_success r) (r_exitCode r) (r_error r))).
Definition thrown_response (p : ProtoTask) (message : string) : AgentResponse :=
  mkAgentResponse None (Some (executed_status (p_task_id p) false 0 (Some message))).

(** The call: the messages that follow at once, or the object to wait for. *)
Definition ExecuteTask (now : Z) (p : ProtoTask) e : TaskExecutor * (list AgentResponse + nat) :=
  match execute now (spec_of_proto p) e with
  | (e, threw m) => (e, inl [thrown_response p m])
  | (e, returned r) => (e, inl [result_response p r])
  | (e, waiting i) => (e, inr i)
  end.

(** * Theorems about the task executor *)

(** ** Docker's multiplexed stream *)

Definition byte (n : Z) : ascii := ascii_of_nat (Z.to_nat n).

Lemma byte_value n : 0 <= n < 256 -> Z.of_nat (nat_of_ascii (byte n)) = n.
Proof. intros H. unfold byte. rewrite nat_ascii_embedding by lia. lia. Qed.

(** A frame, as Docker writes it. *)
Definition header (ty len : Z) : string :=
  String (byte ty) (String zero (String zero (String zero
    (String (byte (len / 16777216)) (String (byte (len / 65536 mod 256))
      (String (byte (len / 256 mod 256)) (String (byte (len mod 256)) ""))))))).
Definition frame (f : Z * string) : string := header f.1 (js_str_length f.2) +:+ f.2.

Lemma header_size ty len s : 0 <= len < 4294967296 -> readUInt32BE 4 (header ty len +:+ s) = Some len.
Proof.
  intros H. unfold readUInt32BE, byte_at, header. rewrite !str_app_cons. cbn.
  rewrite !byte_value by
    first [apply Z.mod_pos_bound; lia | split; [apply Z.div_pos; lia|apply Z.div_lt_upper_bound; lia]].
  f_equal. assert (H1 := Z.div_mod len 256 ltac:(lia)).
  assert (H2 := Z.div_mod (len / 256) 256 ltac:(lia)). rewrite Z.div_div in H2 by lia.
  assert (H3 := Z.div_mod (len / 65536) 256 ltac:(lia)). rewrite Z.div_div in H3 by lia.
  change (256 * 256) with 65536 in *. change (65536 * 256) with 16777216 in *. lia.
Qed.

Lemma header_length ty len : js_str_length (header ty len) = 8.
Proof. reflexivity. Qed.

Lemma slice_middle (a b c : string) :
  js_slice_str (a +:+ b +:+ c) (js_str_length a) (js_str_length a + js_str_length b) = b.
Proof.
  unfold js_slice_str, js_clamp, js_str_length. rewrite !str_length_app.
  rewrite !(proj2 (Z.ltb_ge _ _)) by lia. rewrite !Z.min_l by lia.
  replace (Z.to_nat (Z.of_nat (String.length a))) with (String.length a) by lia.
  rewrite substring_app_r.
  match goal with |- String.substring 0 ?n _ = _ => replace n with (String.length b) by lia end.
  apply substring_app_l.
Qed.

Lemma concat_cons s l : concat (s :: l) = s +:+ concat l.
Proof. reflexivity. Qed.

Lemma demux_frames frames n :
  Forall (fun f => 0 <= f.1 < 256 /\ js_str_length f.2 < 4294967296) frames ->
  (length frames <= n)%nat -> demux_loop n (concat (frame <$> frames)) = Some frames.
Proof.
  revert n. induction frames as [|[ty s] frames IH]; intros n Hf Hn; [by destruct n|].
  apply Forall_cons in Hf as [[Ht Hs] Hf]. cbn [fst snd] in Ht, Hs. destruct n as [|n]; cbn [length] in Hn; [lia|].
  rewrite fmap_cons, concat_cons. unfold frame at 1. cbn [fst snd].
  rewrite str_app_assoc. set (rest := concat _) in *.
  cbn [demux_loop]. rewrite header_size by (unfold js_str_length in *; lia).
  assert (byte_at 0 (header ty (js_str_length s) +:+ s +:+ rest) = Some ty) as ->.
  { unfold byte_at, header. rewrite !str_app_cons. cbn. f_equal. by apply byte_value. }
  cbn [option_bind mbind].
  assert (H1 := slice_middle (header ty (js_str_length s)) s rest). rewrite header_length in H1. rewrite H1.
  assert (js_slice_str_from (header ty (js_str_length s) +:+ s +:+ rest) (8 + js_str_length s) = rest) as ->.
  { rewrite <- str_app_assoc.
    replace (8 + js_str_length s) with (js_str_length (header ty (js_str_length s) +:+ s)) by
      (rewrite <- (header_length ty (js_str_length s)); unfold js_str_length; rewrite str_length_app; lia).
    apply slice_suffix. }
  unfold rest. by rewrite IH by (done || lia).
Qed.

(** Container output arrives.  A chunk of whole frames, of any types and any
    payloads that a frame can hold, is taken apart into exactly these frames. *)
Theorem demux_roundtrip frames :
  Forall (fun f => 0 <= f.1 < 256 /\ js_str_length f.2 < 4294967296) frames ->
  demux (concat (frame <$> frames)) = Some frames.
Proof.
  intros H. apply demux_frames; [done|]. clear H. unfold frame.
  induction frames as [|f frames IH]; [done|]. rewrite fmap_cons, concat_cons, !str_length_app. cbn [length].
  change (String.length (header _ _)) with 8%nat. lia.
Qed.

Lemma demux_roundtrip_witness : demux (concat (frame <$> [(1, "hello"); (2, ""); (1, "!")])) = Some [(1, "hello"); (2, ""); (1, "!")].
Proof. apply demux_roundtrip. repeat constructor; vm_compute; done. Defined.

(** A frame that two chunks share is not put together: the rest of its payload is
    read as a header. *)
Example split_frame_misread :
  let s := frame (1, "hello, world") in
  demux (js_slice_str s 0 12) = Some [(1, "hell")] /\
  demux (js_slice_str_from s 12) = Some [(111, "")].
Proof. by vm_compute. Qed.

(** ** The table of running tasks *)

(** What [execute] and the events answer to the caller of [execute]: the objects
    whose promise got its value. *)
Definition answered i (x : TaskExecutor * option TaskResult) : list nat :=
  match x.2 with Some _ => [i] | None => [] end.
Definition answered_at_once e (x : TaskExecutor * Execution) : list nat :=
  match x.2 with
  | waiting _ => []
  | threw _ | returned _ => seq (length (objects e)) (length (objects x.1) - length (objects e))
  end.

(** What can happen to an executor, and the answers that it gives.  A task is started
    under an id that no running task has, as [randomUUID] gives them. *)
Inductive step : TaskExecutor -> list nat -> TaskExecutor -> Prop :=
  | step_execute now sp e : jm_get (runningTasks e) (taskId sp) = None ->
      step e (answered_at_once e (execute now sp e)) (execute now sp e).1
  | step_data now ty data i e : step e [] (onData now ty data i e)
  | step_close now code signal i e :
      step e (answered i (onClose now code signal i e)) (onClose now code signal i e).1
  | step_process_error now m i e :
      step e (answered i (onProcessError now m i e)) (onProcessError now m i e).1
  | step_created id i e : step e [] (onContainerCreated id i e)
  | step_attach now data i e e' : onAttachData now data i e = Some e' -> step e [] e'
  | step_container_end now outcome i e :
      step e (answered i (onContainerEnd now outcome i e)) (onContainerEnd now outcome i e).1
  | step_subagent_event now ev e : step e [] (onSubagentEvent now ev e)
  | step_subagent_end now r i e :
      step e (answered i (onSubagentEnd now r i e)) (onSubagentEnd now r i e).1
  | step_cancel id e : step e [] (cancel id e).1.1.

(** The executor after a run, with all answers so far, in order. *)
Inductive run (e0 : TaskExecutor) : list nat -> TaskExecutor -> Prop :=
  | run_refl : run e0 [] e0
  | run_step ans e now e' : run e0 ans e -> step e now e' -> run e0 (ans ++ now) e'.

(** The table names exactly the objects whose promise is open, under their ids. *)
Record executor_ok (e : TaskExecutor) : Prop := {
  ok_wf : jm_wf (runningTasks e);
  ok_open i r : objects e !! i = Some r ->
    settled r = false <-> jm_get (runningTasks e) (taskId (spec r)) = Some i;
  ok_entry k i : jm_get (runningTasks e) k = Some i -> exists r, objects e !! i = Some r /\ taskId (spec r) = k;
  ok_bound : jm_size (runningTasks e) <= Z.max 0 (maxConcurrent e)
}.

Lemma executor_ok_new m sandbox d k : executor_ok (new_TaskExecutor m sandbox d k).
Proof. split; cbn; try done; [apply jm_wf_nil|]. unfold jm_size, js_length. cbn. lia. Qed.

Lemma alter_lookup_Some {A} (f : A -> A) (l : list A) i j y : alter f i l !! j = Some y <->
  (exists x, l !! i = Some x /\ j = i /\ y = f x) \/ (j <> i /\ l !! j = Some y).
Proof.
  rewrite list_lookup_alter. case_decide as H; [subst|naive_solver].
  rewrite fmap_Some. naive_solver.
Qed.

(** Events that keep the ids and the open promises keep the invariant. *)
Lemma executor_ok_same e e' (f : RunningTask -> RunningTask) i :
  executor_ok e -> (forall r, spec (f r) = spec r /\ settled (f r) = settled r) ->
  objects e' = alter f i (objects e) -> runningTasks e' = runningTasks e -> maxConcurrent e' = maxConcurrent e ->
  executor_ok e'.
Proof.
  intros [Hw Ho He Hb] Hf Eo Er Em. split; rewrite ?Er, ?Em; try done.
  - intros j r. rewrite Eo, alter_lookup_Some. intros [(r0 & E & -> & ->)|[_ E]].
    + destruct (Hf r0) as [-> ->]. by apply Ho.
    + by apply Ho.
  - intros k j [r [Hj Hk]]%He. rewrite Eo. destruct (decide (j = i)) as [->|Hne].
    + exists (f r). rewrite list_lookup_alter_eq, Hj. split; [done|]. by destruct (Hf r) as [-> _].
    + exists r. by rewrite list_lookup_alter_ne by done.
Qed.

Lemma executor_ok_finish i e : executor_ok e ->
  (forall r, objects e !! i = Some r -> settled r = false) -> executor_ok (finish i e).
Proof.
  intros [Hw Ho He Hb] Hi. unfold finish. destruct (objects e !! i) as [r|] eqn:Ei; [|by split].
  specialize (Hi r eq_refl). assert (Hg := proj1 (Ho i r Ei) Hi).
  split; cbn.
  - by apply jm_wf_delete.
  - intros j r'. rewrite alter_lookup_Some, jm_get_delete by done.
    intros [(r0 & Ej & -> & ->)|[Hne Ej]].
    + rewrite Ei in Ej. injection Ej as <-. cbn. rewrite decide_True by done. done.
    + case_decide as Hd; [|by apply Ho]. split; [|done]. intros Hs.
      apply (Ho j r' Ej) in Hs. rewrite <- Hd, Hg in Hs. congruence.
  - intros k j. rewrite jm_get_delete by done. case_decide as Hd; [done|]. intros [r' [Hj Hk]]%He.
    exists r'. rewrite list_lookup_alter_ne; [done|]. intros ->. rewrite Ei in Hj. injection Hj as <-. done.
  - rewrite jm_size_delete, (jm_get_has _ _ _ Hg). lia.
Qed.

Lemma executor_ok_start sp r e : executor_ok e -> jm_get (runningTasks e) (taskId sp) = None ->
  (maxConcurrent e <=? jm_size (runningTasks e)) = false -> spec r = sp -> settled r = false ->
  executor_ok (e <| objects ::= fun l => l ++ [r] |>
                 <| runningTasks ::= fun m => jm_set m (taskId sp) (length (objects e)) |>).
Proof.
  intros [Hw Ho He Hb] Hnew Hmax Hsp Hset. apply Z.leb_gt in Hmax. split; cbn.
  - by apply jm_wf_set.
  - intros j r'. rewrite lookup_app_Some, jm_get_set. intros [Ej|[Hl Ej]].
    + case_decide as Hd; [|by apply Ho]. assert (Hlt := lookup_lt_Some _ _ _ Ej). split.
      * intros Hs. apply (Ho j r' Ej) in Hs. congruence.
      * intros [= E]. lia.
    + apply list_lookup_singleton_Some in Ej as [Hj <-]. rewrite Hsp, decide_True by done.
      split; [|done]. intros _. f_equal. lia.
  - intros k j. rewrite jm_get_set. case_decide as Hd.
    + intros [= <-]. exists r. split; [|by rewrite Hsp]. rewrite lookup_app_r by lia. by rewrite Nat.sub_diag.
    + intros [r' [Hj Hk]]%He. exists r'. by rewrite lookup_app_l by (by eapply lookup_lt_Some).
  - rewrite jm_size_set. apply jm_has_false in Hnew. rewrite Hnew. lia.
Qed.

Lemma executor_ok_emit now id ty data e : executor_ok e -> executor_ok (emitOutput now id ty data e).
Proof. by intros []. Qed.

Lemma executor_ok_data now ty data i e : executor_ok e -> executor_ok (onData now ty data i e).
Proof.
  intros H. unfold onData. destruct (objects e !! i) as [r|]; [|done]. apply executor_ok_emit.
  eapply (executor_ok_same e _ _ i H); [|reflexivity..]. by intros []; destruct ty.
Qed.

Lemma executor_ok_resolve f i e : executor_ok e -> executor_ok (resolve f i e).1.
Proof.
  intros H. unfold resolve. destruct (objects e !! i) as [r|] eqn:E; [|done].
  destruct (settled r) eqn:Es; [done|]. cbn. apply executor_ok_finish; [done|]. intros r'. congruence.
Qed.

Lemma executor_ok_execute now sp e : executor_ok e -> jm_get (runningTasks e) (taskId sp) = None ->
  executor_ok (execute now sp e).1.
Proof.
  intros H Hnew. unfold execute. destruct (maxConcurrent e <=? _) eqn:Em; [done|].
  set (r := mkRunningTask _ _ _ _ _ _ _ _).
  assert (H1 := executor_ok_start sp r e H Hnew Em eq_refl eq_refl).
  set (e1 := field_update runningTasks _ _) in *.
  assert (Hfin : executor_ok (finish (length (objects e)) e1)).
  { apply executor_ok_finish; [done|]. cbn. intros r'. rewrite lookup_app_r, Nat.sub_diag by lia. by intros [= <-]. }
  split_matches; try done.
  - eapply (executor_ok_same e1 _ _ _ H1); [|reflexivity..]. by intros [].
  - by destruct H1.
Qed.

(** Chunks and events of output change nothing but the buffers. *)
Lemma attach_ind (P : TaskExecutor -> Prop) now data i e e' :
  (forall ty d e, P e -> P (onData now ty d i e)) -> onAttachData now data i e = Some e' -> P e -> P e'.
Proof.
  intros Hd H. unfold onAttachData in H. destruct (demux data) as [fs|]; [|done]. cbn in H. injection H as <-.
  revert e. induction fs as [|f fs IHf]; intros e He; [done|]. cbn [foldl]. apply IHf.
  repeat case_match; try done; by apply Hd.
Qed.

Lemma subagent_event_ind (P : TaskExecutor -> Prop) now ev e :
  (forall id ty d e, P e -> P (emitOutput now id ty d e)) -> P e -> P (onSubagentEvent now ev e).
Proof.
  intros Hd. unfold onSubagentEvent. generalize (listeners e) as l. intros l. revert e.
  induction l as [|i l IHl]; intros e He; [done|]. cbn [foldl]. apply IHl. case_match; [by apply Hd|done].
Qed.

Lemma executor_ok_run e0 ans e : executor_ok e0 -> run e0 ans e -> executor_ok e.
Proof.
  intros H0. induction 1 as [|ans e now e' _ IH Hs]; [done|].
  destruct Hs; eauto using executor_ok_execute, executor_ok_data, executor_ok_resolve.
  - eapply (executor_ok_same e _ _ i IH); [|reflexivity..]. by intros [].
  - eapply attach_ind; [|done|done]. eauto using executor_ok_data.
  - unfold onContainerEnd. destruct outcome; eauto using executor_ok_resolve.
  - apply subagent_event_ind; [|done]. eauto using executor_ok_emit.
  - unfold onSubagentEnd. destruct (objects e !! i); [|done]. apply executor_ok_resolve. by destruct IH.
  - unfold cancel. destruct (jm_get (runningTasks e) id) as [i|]; [|done]. destruct (objects e !! i); [|done].
    cbn. eapply (executor_ok_same e _ _ i IH); [|reflexivity..]. by intros [].
Qed.

(** The answers so far are those of the objects whose promise is settled. *)
Definition answers_ok (ans : list nat) (e : TaskExecutor) : Prop :=
  NoDup ans /\ forall i, i ∈ ans <-> exists r, objects e !! i = Some r /\ settled r = true.

Lemma answers_ok_same ans e e' (f : RunningTask -> RunningTask) i :
  answers_ok ans e -> (forall r, settled (f r) = settled r) -> objects e' = alter f i (objects e) ->
  answers_ok ans e'.
Proof.
  intros [Hn Ha] Hf Eo. split; [done|]. intros j. rewrite Ha, Eo. split.
  - intros (r & Hr & Hs). destruct (decide (j = i)) as [->|Hne].
    + exists (f r). rewrite list_lookup_alter_eq, Hr. split; [done|]. by rewrite Hf.
    + exists r. by rewrite list_lookup_alter_ne by done.
  - intros (r & [(r0 & Hr & -> & ->)|[_ Hr]]%alter_lookup_Some & Hs); [|by exists r].
    exists r0. split; [done|]. by rewrite Hf in Hs.
Qed.

Lemma answers_ok_finish ans i r e : answers_ok ans e -> objects e !! i = Some r -> settled r = false ->
  answers_ok (ans ++ [i]) (finish i e).
Proof.
  intros [Hn Ha] Hr Hs. unfold finish. rewrite Hr. split.
  - apply NoDup_app. split_and!; [done| |apply NoDup_singleton].
    intros j (r' & Hr' & Hs')%Ha ->%list_elem_of_singleton. rewrite Hr in Hr'. injection Hr' as <-. congruence.
  - intros j. cbn. rewrite elem_of_app, list_elem_of_singleton, Ha. split.
    + intros [(r' & Hr' & Hs')| ->].
      * exists r'. rewrite list_lookup_alter_ne; [done|]. intros ->. rewrite Hr in Hr'. injection Hr' as <-. congruence.
      * eexists. rewrite list_lookup_alter_eq, Hr. done.
    + intros (r' & [(r0 & _ & -> & _)|[_ Hr']]%alter_lookup_Some & Hs'); [by right|left]. by exists r'.
Qed.

Lemma answers_ok_data ans now ty data i e : answers_ok ans e -> answers_ok ans (onData now ty data i e).
Proof.
  intros H. unfold onData. destruct (objects e !! i) as [r|]; [|done].
  eapply (answers_ok_same ans e _ _ i H); [|reflexivity]. by intros []; destruct ty.
Qed.

Lemma answers_ok_resolve ans f i e :
  answers_ok ans e -> answers_ok (ans ++ answered i (resolve f i e)) (resolve f i e).1.
Proof.
  intros H. unfold resolve, answered. destruct (objects e !! i) as [r|] eqn:E; [|by rewrite app_nil_r].
  destruct (settled r) eqn:Es; cbn [fst snd]; [by rewrite app_nil_r|]. by eapply answers_ok_finish.
Qed.

Lemma answers_ok_execute ans now sp e :
  answers_ok ans e -> answers_ok (ans ++ answered_at_once e (execute now sp e)) (execute now sp e).1.
Proof.
  intros H. unfold execute, answered_at_once. destruct (maxConcurrent e <=? _) eqn:Em.
  { cbn [fst snd]. rewrite Nat.sub_diag. cbn [seq]. by rewrite app_nil_r. }
  set (r := mkRunningTask _ _ _ _ _ _ _ _). set (e1 := field_update runningTasks _ _).
  assert (H1 : answers_ok ans e1).
  { destruct H as [Hn Ha]. split; [done|]. intros i. rewrite Ha. cbn. setoid_rewrite lookup_app_Some. split.
    - intros (r' & Hr & Hs). eauto.
    - intros (r' & [Hr|[_ [Hi <-]%list_lookup_singleton_Some]] & Hs); [eauto|done]. }
  assert (Er : objects e1 !! length (objects e) = Some r) by (cbn; by rewrite lookup_app_r, Nat.sub_diag by lia).
  assert (Hlen : length (objects (finish (length (objects e)) e1)) = S (length (objects e))).
  { unfold finish. rewrite Er. cbn. rewrite length_alter, length_app. cbn. lia. }
  pose proof (answers_ok_finish ans _ r e1 H1 Er eq_refl) as Hf.
  clearbody e1. split_matches; cbn [fst snd]; rewrite ?app_nil_r; try done;
    try (rewrite Hlen; replace (S (length (objects e)) - length (objects e))%nat with 1%nat by lia; exact Hf).
  eapply (answers_ok_same ans e1 _ _ _ H1); [|reflexivity]. by intros [].
Qed.

Lemma answers_ok_run e0 ans e : objects e0 = [] -> run e0 ans e -> answers_ok ans e.
Proof.
  intros H0. induction 1 as [|ans e now e' _ IH Hs].
  { split; [constructor|]. intros i. rewrite H0. split; [by intros []%elem_of_nil|by intros (r & E & _)]. }
  destruct Hs; try (rewrite app_nil_r); try (by apply answers_ok_resolve).
  - by apply answers_ok_execute.
  - by apply answers_ok_data.
  - eapply (answers_ok_same ans e _ _ i IH); [|reflexivity]. by intros [].
  - eapply attach_ind; [|done|done]. eauto using answers_ok_data.
  - unfold onContainerEnd. destruct outcome; by apply answers_ok_resolve.
  - apply subagent_event_ind; [|done]. by intros id ty d [].
  - unfold onSubagentEnd. destruct (objects e !! i) eqn:E; [|by rewrite app_nil_r]. by apply answers_ok_resolve.
  - unfold cancel. destruct (jm_get (runningTasks e) id) as [i|]; [|done]. destruct (objects e !! i); [|done].
    cbn. eapply (answers_ok_same ans e _ _ i IH); [|reflexivity]. by intros [].
Qed.

Lemma maxConcurrent_run e0 ans e : run e0 ans e -> maxConcurrent e = maxConcurrent e0.
Proof.
  induction 1 as [|ans e now e' _ <- Hs]; [done|].
  assert (Hr : forall f i e, maxConcurrent (resolve f i e).1 = maxConcurrent e)
    by (intros f i e1; unfold resolve, finish; by split_matches).
  assert (Hd : forall now ty d i e, maxConcurrent (onData now ty d i e) = maxConcurrent e)
    by (intros; unfold onData; by case_match).
  destruct Hs; try done; try apply Hr; try apply Hd.
  - unfold execute. split_matches; cbn; unfold finish; by split_matches.
  - by eapply (attach_ind (fun e' => maxConcurrent e' = maxConcurrent e)); [|done|]; [intros; by rewrite Hd|].
  - unfold onContainerEnd. destruct outcome; apply Hr.
  - by apply (subagent_event_ind (fun e' => maxConcurrent e' = maxConcurrent e)).
  - unfold onSubagentEnd. destruct (objects e !! i); [|done]. by rewrite Hr.
  - unfold cancel. by split_matches.
Qed.

(** The ids of the tasks that were begun and for which no answer was given. *)
Definition unanswered (ans : list nat) (e : TaskExecutor) : list string :=
  omap (fun i => if bool_decide (i ∈ ans) then None else (fun r => taskId (spec r)) <$> objects e !! i)
    (seq 0 (length (objects e))).

Lemma elem_of_unanswered ans e id :
  id ∈ unanswered ans e <-> exists i r, i ∉ ans /\ objects e !! i = Some r /\ taskId (spec r) = id.
Proof.
  unfold unanswered. rewrite list_elem_of_omap. split.
  - intros (i & _ & H). case_bool_decide as Hi; [done|]. apply fmap_Some in H as (r & Hr & ->). eauto.
  - intros (i & r & Hi & Hr & <-). exists i. rewrite bool_decide_eq_false_2, Hr by done. split; [|done].
    apply elem_of_seq. apply lookup_lt_Some in Hr. lia.
Qed.

Lemma NoDup_omap {A B} (f : A -> option B) (l : list A) :
  NoDup l -> (forall x y z, x ∈ l -> y ∈ l -> f x = Some z -> f y = Some z -> x = y) -> NoDup (omap f l).
Proof.
  induction 1 as [|x l Hx Hl IH]; intros Hf; csimpl; [constructor|].
  assert (IH' : NoDup (omap f l)) by (apply IH; intros a b c Ha Hb; apply Hf; by right).
  destruct (f x) as [z|] eqn:E; [|done]. constructor; [|done].
  intros (y & Hy & Ey)%list_elem_of_omap. apply Hx. by rewrite (Hf x y z) by (done || by (left || right)).
Qed.

(** C14: the agent keeps to its limit.  Whatever happens, if no task is started under
    the id of a running one, each call of [execute] is answered at most once; the
    table lists exactly the tasks that were begun and whose call was not answered
    yet, once each, and they are at most [maxConcurrentTasks]; and while they are
    that many (or the limit is not positive) a further task is refused and leaves
    no trace.  (The answer ends a task.  A container may outlive it, after an error
    of Docker: see [container_outlives_its_task].) *)
Theorem tasks_within_limit m sandbox d k ans e :
  run (new_TaskExecutor m sandbox d k) ans e ->
  NoDup ans /\
  getRunningTaskIds e ≡ₚ unanswered ans e /\
  js_length (unanswered ans e) <= Z.max 0 (default 10 m) /\
  (default 10 m <= js_length (unanswered ans e) -> forall now sp,
     execute now sp e = (e, threw ("Max concurrent tasks (" +:+ js_toString (default 10 m) +:+ ") reached"))).
Proof.
  intros H. pose proof (maxConcurrent_run _ _ _ H) as Hmax. cbn in Hmax.
  destruct (answers_ok_run (new_TaskExecutor m sandbox d k) ans e eq_refl H) as [Hn Ha].
  apply executor_ok_run in H as [Hw Ho He Hb]; [|apply executor_ok_new].
  assert (Hopen : forall i r, objects e !! i = Some r -> i ∉ ans -> jm_get (runningTasks e) (taskId (spec r)) = Some i).
  { intros i r Hr Hi. apply (Ho i r Hr). destruct (settled r) eqn:E; [|done]. destruct Hi. apply Ha. eauto. }
  assert (Hp : getRunningTaskIds e ≡ₚ unanswered ans e).
  { apply NoDup_Permutation; [done| |].
    - apply NoDup_omap; [apply NoDup_seq|]. intros i j id _ _ Hi Hj.
      case_bool_decide as Hi'; [done|]. case_bool_decide as Hj'; [done|].
      apply fmap_Some in Hi as (r & Hr & ->). apply fmap_Some in Hj as (r' & Hr' & E).
      apply (Hopen i) in Hr; [|done]. apply (Hopen j) in Hr'; [|done]. rewrite <- E in Hr'. congruence.
    - intros id. rewrite elem_of_unanswered. unfold getRunningTaskIds. rewrite <- jm_has_keys, jm_has_true. split.
      + intros [i Hi]. destruct (He id i Hi) as (r & Hr & <-). exists i, r. split; [|done].
        intros (r' & Hr' & Hs)%Ha. rewrite Hr in Hr'. injection Hr' as <-.
        apply (Ho i r Hr) in Hi. congruence.
      + intros (i & r & Hi & Hr & <-). exists i. by apply Hopen. }
  assert (Hsize : js_length (unanswered ans e) = jm_size (runningTasks e)).
  { apply Permutation_length in Hp. unfold getRunningTaskIds, jm_keys in Hp. rewrite length_fmap in Hp.
    unfold jm_size, js_length in *. lia. }
  rewrite Hsize, <- Hmax. split_and!; try done. intros Hle now sp. unfold execute.
  by rewrite (proj2 (Z.leb_le _ _)) by done.
Qed.

Definition sample_task (id : string) : TaskSpec :=
  mkTaskSpec id "shell" (Some (mkShellTaskSpec "true" None false)) None None None None.

Lemma tasks_within_limit_witness :
  let e0 := new_TaskExecutor (Some 1) None false false in
  let e1 := (execute 1 (sample_task "a") e0).1 in
  let e2 := (onClose 2 (Some 0) false 0 e1).1 in
  let e3 := (execute 3 (sample_task "b") e2).1 in
  getRunningTaskIds e3 ≡ₚ ["b"] /\ (execute 4 (sample_task "c") e3).1 = e3.
Proof.
  cbn zeta. set (e1 := (execute 1 _ _).1). set (e2 := (onClose 2 _ _ _ e1).1). set (e3 := (execute 3 _ e2).1).
  destruct (tasks_within_limit (Some 1) None false false [0%nat] e3) as (_ & H1 & _ & H2).
  - change [0%nat] with (((([] ++ answered_at_once (new_TaskExecutor (Some 1) None false false)
      (execute 1 (sample_task "a") (new_TaskExecutor (Some 1) None false false))) ++
      answered 0 (onClose 2 (Some 0) false 0 e1)) ++ answered_at_once e2 (execute 3 (sample_task "b") e2))).
    repeat (eapply run_step; [|constructor; reflexivity]). apply run_refl.
  - split; [exact H1|]. rewrite H2; [done|]. by vm_compute.
Defined.

(** A call to Docker fails after the container was started: the task ends with the
    error and leaves the table, and the container can no longer be cancelled. *)
Example container_outlives_its_task :
  let c := mkTaskSpec "c" "container" None (Some (mkContainerTaskSpec "alpine" None None None None)) None None None in
  let e1 := (execute 1 c (new_TaskExecutor (Some 1) None true false)).1 in
  let e2 := onContainerCreated "0123" 0 e1 in
  let '(e3, result) := onContainerEnd 3 (inl "socket hang up") 0 e2 in
  (r_success <$> result) = Some false /\ (containerId <$> objects e3 !! 0%nat) = Some (Some "0123") /\
  getRunningTaskIds e3 = [] /\ cancel "c" e3 = (e3, false, []).
Proof. by vm_compute. Qed.

(** With two tasks of one id the first to end takes the entry of the other, which
    is then neither listed nor counted nor cancelled. *)
Example duplicate_id_forgotten :
  let e0 := new_TaskExecutor (Some 2) None false false in
  let e1 := (execute 2 (sample_task "a") (execute 1 (sample_task "a") e0).1).1 in
  let e2 := (onClose 3 (Some 0) false 0 e1).1 in
  getRunningTaskIds e2 = [] /\ unanswered [0%nat] e2 = ["a"] /\ (cancel "a" e2).1.2 = false.
Proof. by vm_compute. Qed.

(** The listeners hear the events of every subagent: the text of one task is also
    emitted as output of another one that is running. *)
Example subagent_output_crosses :
  let sub id := mkTaskSpec id "subagent" None None (Some (mkSubagentTaskSpec "p" None None None None)) None None in
  let e0 := new_TaskExecutor None None false true in
  let e1 := (execute 2 (sub "b") (execute 1 (sub "a") e0).1).1 in
  (fun o => (o_taskId o, o_data o)) <$> drop 2 (outputs (onSubagentEvent 3 (sa_text "secret of a") e1)) =
  [("a", "secret of a"); ("b", "secret of a")].
Proof. by vm_compute. Qed.
