(* ===== verification/GrpcTransport.v ===== *)
(** * The gRPC transport (src/src/grpc/client.ts, src/src/grpc/server.ts)

    The pool of connections of a node, the requests its clients build, the generator
    that turns a stream of an agent into responses, and the life of the server.  The
    channels, the framing and the proto loader are the gRPC library; of the loader the
    model uses what its options document: with [keepCase] and [defaults] a message has
    exactly the fields of the proto file, under their names there, each absent one with
    its default. *)

From S2P Require Import Prelude JsMap JsString JsNumber Json Grpc TaskExecutor.
From S2P Require LegacyScheduler.

(** ** The pool *)

Module Pool.

(** A connection with its three clients, by its number. *)
Record ClientConnection := mkClientConnection { cc_id : nat; cc_address : string; connected : bool; lastError : option string }.
#[export] Instance ClientConnection_eta : EtaRecord ClientConnection := fun c =>
  mkClientConnection (cc_id c) (cc_address c) (connected c) (lastError c).

Record GrpcClientPool := mkGrpcClientPool {
  protoLoaded : bool;
  connections : jsmap ClientConnection;
  made : nat;                               (* connections made so far *)
  closed : list nat                         (* those whose clients were closed *)
}.
#[export] Instance GrpcClientPool_eta : EtaRecord GrpcClientPool := fun p =>
  mkGrpcClientPool (protoLoaded p) (connections p) (made p) (closed p).

Definition new_GrpcClientPool : GrpcClientPool := mkGrpcClientPool false [] 0 [].
Implicit Types (p : GrpcClientPool).

Definition loadProto p : GrpcClientPool := p <| protoLoaded := true |>.

Definition not_loaded : string := "Proto not loaded. Call loadProto() first.".

Definition getConnection (address : string) p : GrpcClientPool * (string + ClientConnection) :=
  match jm_get (connections p) address with
  | Some c => (p, inr c)
  | None =>
      if negb (protoLoaded p) then (p, inl not_loaded)
      else
        let c := mkClientConnection (made p) address false None in
        (p <| connections ::= fun m => jm_set m address c |> <| made ::= S |>, inr c)
  end.

(** The callback of [waitForReady]; the object is the one of the call, which may have
    left the table since. *)
Definition ready_callback (error : option string) (id : nat) (address : string) p : GrpcClientPool * bool :=
  let settle c := match error with
                  | Some e => c <| connected := false |> <| lastError := Some e |>
                  | None => c <| connected := true |> <| lastError := None |>
                  end in
  let p := match jm_get (connections p) address with
           | Some c => if (cc_id c =? id)%nat then p <| connections ::= jm_alter settle address |> else p
           | None => p
           end in
  (p, match error with Some _ => false | None => true end).

Definition closeConnection (address : string) p : GrpcClientPool :=
  match jm_get (connections p) address with
  | Some c => p <| connections ::= fun m => jm_delete m address |> <| closed ::= fun l => cc_id c :: l |>
  | None => p
  end.

(** Deleting the current key does not disturb the iteration. *)
Definition closeAll p : GrpcClientPool := foldl (fun p a => closeConnection a p) p (jm_keys (connections p)).

(** *** No connection is lost *)

Inductive pool_step p : GrpcClientPool -> Prop :=
  | ps_load : pool_step p (loadProto p)
  | ps_get a : pool_step p (getConnection a p).1
  | ps_ready e id a : pool_step p (ready_callback e id a p).1
  | ps_close a : pool_step p (closeConnection a p)
  | ps_closeAll : pool_step p (closeAll p).

Inductive pool_run : GrpcClientPool -> Prop :=
  | pr_new : pool_run new_GrpcClientPool
  | pr_step p p' : pool_run p -> pool_step p p' -> pool_run p'.

(** The ids of the table, and that it holds each under its address. *)
Definition open_ids p : list nat := cc_id <$> jm_values (connections p).
Record pool_ok p : Prop := {
  po_wf : jm_wf (connections p);
  po_address a c : jm_get (connections p) a = Some c -> cc_address c = a;
  po_ids : Permutation (open_ids p ++ closed p) (List.seq 0 (made p))
}.

Lemma values_set_fresh {V} (m : jsmap V) k v : jm_get m k = None -> jm_values (jm_set m k v) = jm_values m ++ [v].
Proof.
  intros Hk. rewrite jm_set_fresh by by apply jm_get_None_keys. unfold jm_values. by rewrite fmap_app.
Qed.

Lemma values_delete {V} (m : jsmap V) k v : jm_wf m -> jm_get m k = Some v ->
  Permutation (jm_values m) (v :: jm_values (jm_delete m k)).
Proof.
  induction m as [|[k' v'] m IH]; [done|]. intros [Hn Hw]%NoDup_cons. cbn [jm_get jm_delete].
  destruct (String.eqb_spec k' k) as [->|Hne].
  - by intros [= ->].
  - intros Hg. change (Permutation (v' :: jm_values m) (v :: v' :: jm_values (jm_delete m k))).
    rewrite (IH Hw Hg). apply perm_swap.
Qed.

Lemma closeConnection_ok a p : pool_ok p -> pool_ok (closeConnection a p).
Proof.
  intros [Hw Ha Hi]. unfold closeConnection. destruct (jm_get (connections p) a) as [c|] eqn:E; [|by constructor].
  constructor; cbn.
  - by apply jm_wf_delete.
  - intros b d. destruct (decide (a = b)) as [<-|Hne]; [by rewrite jm_get_delete_eq|].
    rewrite jm_get_delete_ne by done. apply Ha.
  - rewrite <- Hi. unfold open_ids. cbn. rewrite (Permutation_map cc_id (values_delete _ _ _ Hw E)). cbn.
    symmetry. apply Permutation_middle.
Qed.

Lemma values_set_same {V B} (g : V -> B) (m : jsmap V) k v v' : jm_get m k = Some v -> g v' = g v ->
  g <$> jm_values (jm_set m k v') = g <$> jm_values m.
Proof.
  intros Hm Hg. induction m as [|[k' x] m IH]; [done|]. revert Hm. cbn [jm_get jm_set].
  destruct (String.eqb k' k); [intros [= ->]; unfold jm_values; cbn; by rewrite Hg|].
  intros Hm. unfold jm_values in *. cbn. f_equal. by apply IH.
Qed.

Lemma pool_step_ok p p' : pool_ok p -> pool_step p p' -> pool_ok p'.
Proof.
  intros Hok Hs. destruct Hs as [|a|e id a|a|].
  - by destruct Hok.
  - unfold getConnection. destruct (jm_get (connections p) a) as [c|] eqn:E; [done|].
    destruct (negb (protoLoaded p)); [done|]. destruct Hok as [Hw Ha Hi]. constructor; cbn.
    + by apply jm_wf_set.
    + intros b d. rewrite jm_get_set. case_decide; [|apply Ha]. by intros [= <-].
    + unfold open_ids. cbn. rewrite values_set_fresh by done. rewrite fmap_app. cbn.
      change (0%nat :: List.seq 1 (made p)) with (List.seq 0 (S (made p))). rewrite List.seq_S, <- Hi. cbn. unfold open_ids. rewrite <- !app_assoc. apply Permutation_app_head. apply Permutation_app_comm.
  - unfold ready_callback. cbn [fst]. destruct (jm_get (connections p) a) as [c|]; [|done].
    destruct (cc_id c =? id)%nat; [|done]. destruct Hok as [Hw Ha Hi]. constructor; cbn.
    + by apply jm_wf_alter.
    + intros b d. rewrite jm_get_alter. case_decide; [|apply Ha]. intros (d' & Hd & ->)%fmap_Some. specialize (Ha _ _ Hd).
      by destruct e.
    + unfold open_ids, jm_alter. cbn. destruct (jm_get (connections p) a) as [d|] eqn:Ed; [|exact Hi].
      rewrite (values_set_same cc_id _ _ d); [exact Hi|done|by destruct e].
  - by apply closeConnection_ok.
  - unfold closeAll. generalize (jm_keys (connections p)). intros l. revert p Hok.
    induction l as [|a l IH]; intros p Hok; [done|]. cbn. apply IH. by apply closeConnection_ok.
Qed.

Lemma pool_run_ok p : pool_run p -> pool_ok p.
Proof.
  induction 1 as [|p p' _ IH Hs]; [|by eapply pool_step_ok].
  constructor; [apply jm_wf_nil|done|done].
Qed.

Lemma closeAll_empty p : connections (closeAll p) = [] /\ made (closeAll p) = made p.
Proof.
  unfold closeAll. remember (jm_keys (connections p)) as l eqn:El. revert p El.
  induction l as [|k l IH]; intros p El; cbn [foldl].
  - split; [|done]. by destruct (connections p).
  - destruct (connections p) as [|[k' c] m] eqn:Em; [done|]. cbn in El. injection El as -> ->.
    assert (Hc : closeConnection k' p = p <| connections := m |> <| closed ::= fun l => cc_id c :: l |>).
    { destruct p as [pl con md cl]. cbn in Em. subst con. unfold closeConnection. cbn. rewrite String.eqb_refl. 
      change (mkGrpcClientPool pl (jm_delete ((k', c) :: m) k') md (cc_id c :: cl) = mkGrpcClientPool pl m md (cc_id c :: cl)).
      f_equal. cbn. by rewrite String.eqb_refl. }
    rewrite Hc. destruct (IH (p <| connections := m |> <| closed ::= fun l => cc_id c :: l |>)) as [H1 H2]; [done|by split].
Qed.

(** Every connection that was made is either in the table, under its address, or has
    been closed, and not both: the pool leaves no channel open, and [closeAll] closes
    all there are. *)
Theorem no_channel_left p : pool_run p ->
  Permutation (open_ids p ++ closed p) (List.seq 0 (made p)) /\
  (forall i, i ∈ open_ids p -> i ∉ closed p) /\
  connections (closeAll p) = [] /\ Permutation (closed (closeAll p)) (List.seq 0 (made p)).
Proof.
  intros Hr. pose proof (pool_run_ok p Hr) as [Hw Ha Hi].
  assert (Hnd : NoDup (open_ids p ++ closed p)) by (rewrite Hi; apply NoDup_ListNoDup, seq_NoDup).
  apply NoDup_app in Hnd as (_ & Hdis & _). destruct (closeAll_empty p) as [He Hm].
  split_and!; [done|done|done|].
  pose proof (pool_run_ok _ (pr_step _ _ Hr (ps_closeAll p))) as [_ _ Hi']. unfold open_ids in Hi'. by rewrite He, Hm in Hi'.
Qed.

Lemma no_channel_left_witness :
  let p := (getConnection "a:1" (closeConnection "a:1" (getConnection "b:1" (getConnection "a:1" (loadProto new_GrpcClientPool)).1).1)).1 in
  (open_ids p = [1%nat; 2%nat] /\ closed p = [0%nat]) /\ connections (closeAll p) = [].
Proof.
  split; [by vm_compute|]. apply no_channel_left.
  eapply pr_step; [|apply ps_get]. eapply pr_step; [|apply ps_close].
  do 2 (eapply pr_step; [|apply ps_get]). eapply pr_step; [constructor|apply ps_load].
Defined.
End Pool.

(** ** Requests *)

Module Requests.

(** A message of string fields, as the other side receives it. *)
Definition transmit (fields : list string) (o : jsmap string) : jsmap string :=
  (fun f => (f, default "" (jm_get o f))) <$> fields.

(** The fields of GetTaskStatusRequest, CancelTaskRequest and CancelExecutionRequest. *)
Definition task_request_fields : list string := ["task_id"].

(** The objects the clients pass for them. *)
Definition task_request (taskId : string) : jsmap string := [("taskId", taskId)].

(** [call.request.task_id] in the handlers. *)
Definition requested_task (taskId : string) : string :=
  default "" (jm_get (transmit task_request_fields (task_request taskId)) "task_id").

Definition getTaskStatus (taskId : string) (scheduler : option LegacyScheduler.TaskScheduler) :
    GrpcError + LegacyScheduler.ProtoTaskStatus := LegacyScheduler.GetTaskStatus (requested_task taskId) scheduler.
Definition cancelTask (now : Z) (taskId : string) (scheduler : option LegacyScheduler.TaskScheduler) :
    option LegacyScheduler.TaskScheduler * (GrpcError + (bool + string)) :=
  LegacyScheduler.CancelTask now (requested_task taskId) scheduler.

(** The CancelExecution handler does not wait for the executor; the field is true for
    any object, so also for the promise it puts there. *)
Definition CancelExecution (taskId : string) (e : TaskExecutor) : TaskExecutor * list Signal * bool :=
  let '(e, _, signals) := TaskExecutor.cancel taskId e in (e, signals, true).
Definition cancelExecution (taskId : string) (e : TaskExecutor) : TaskExecutor * list Signal * bool :=
  CancelExecution (requested_task taskId) e.

Lemma requested_nothing taskId : requested_task taskId = "".
Proof. reflexivity. Qed.

(** The clients name the field [taskId] where the messages have [task_id]: whatever task
    they ask for, the other side is asked for the empty id.  The status of no task is
    found and no task is cancelled; the agent stops nothing, and answers that it did. *)
Theorem task_requests_are_lost now taskId s e :
  LegacyScheduler.getStatus "" s = None ->
  jm_get (LegacyScheduler.taskQueue s) "" = None -> jm_get (LegacyScheduler.runningTasks s) "" = None ->
  jm_get (TaskExecutor.runningTasks e) "" = None ->
  getTaskStatus taskId (Some s) = inl (grpc_NOT_FOUND, "Task not found: ") /\
  cancelTask now taskId (Some s) = (Some s, inr (inl false)) /\
  cancelExecution taskId e = (e, [], true).
Proof.
  intros Hst Hq Hr He. unfold getTaskStatus, cancelTask, cancelExecution, CancelExecution, TaskExecutor.cancel.
  rewrite requested_nothing. unfold LegacyScheduler.GetTaskStatus, LegacyScheduler.CancelTask, LegacyScheduler.cancel.
  rewrite Hst, He. split_and!; [done| |done].
  unfold jm_has. by rewrite ?Hq, ?Hr.
Qed.

Definition submitted : LegacyScheduler.TaskScheduler :=
  LegacyScheduler.updateStatus 1 "t1" LegacyScheduler.st_running (Some "100.64.0.2:50051") (LegacyScheduler.new_TaskScheduler None None).

(** The scheduler has the task, and its status is not found. *)
Lemma task_requests_are_lost_witness :
  is_Some (LegacyScheduler.getStatus "t1" submitted) /\
  getTaskStatus "t1" (Some submitted) = inl (grpc_NOT_FOUND, "Task not found: ").
Proof.
  split; [by eexists|].
  exact (proj1 (task_requests_are_lost 2 "t1" submitted (new_TaskExecutor None None true true) eq_refl eq_refl eq_refl eq_refl)).
Defined.
End Requests.

(** ** The responses of an agent *)

Module Responses.
Section responses.
Context {A : Type}.

(** The variables of [executeTask] after the stream was opened, and what its consumer
    has been given. *)
Record Generator := mkGenerator {
  responses : list A;
  error : option string;
  ended : bool;
  yielded : list A;
  returned : option (option string)         (* finished, and the error it threw *)
}.
#[export] Instance Generator_eta : EtaRecord Generator := fun g =>
  mkGenerator (responses g) (error g) (ended g) (yielded g) (returned g).
Definition opened : Generator := mkGenerator [] None false [] None.

Inductive StreamEvent := on_data (a : A) | on_error (e : string) | on_end.
Definition receive (ev : StreamEvent) (g : Generator) : Generator :=
  match ev with
  | on_data a => g <| responses ::= fun l => l ++ [a] |>
  | on_error e => g <| error := Some e |> <| ended := true |>
  | on_end => g <| ended := true |>
  end.

(** One turn of the loop, when the consumer asks for the next response; without a
    response the generator sleeps until the next turn. *)
Definition turn (g : Generator) : Generator :=
  match returned g with
  | Some _ => g
  | None =>
      match responses g with
      | a :: l => g <| responses := l |> <| yielded ::= fun y => y ++ [a] |>
      | [] => if ended g then g <| returned := Some (error g) |> else g
      end
  end.

(** Events and turns in any order; the stream ends at most once, and nothing follows. *)
Inductive Input := an_event (ev : StreamEvent) | a_turn.
Definition feed (g : Generator) (i : Input) : Generator :=
  match i with an_event ev => receive ev g | a_turn => turn g end.

Definition data_of (i : Input) : list A := match i with an_event (on_data a) => [a] | _ => [] end.
Definition is_data (i : Input) : bool := match i with an_event (on_data _) | a_turn => true | _ => false end.

Lemma open_stream l : forallb is_data l = true -> let g := foldl feed opened l in
  yielded g ++ responses g = mjoin (data_of <$> l) /\ error g = None /\ ended g = false /\ returned g = None.
Proof.
  induction l as [|i l IH] using rev_ind; [done|]. rewrite forallb_app. intros [Hl Hi]%andb_true_iff.
  destruct (IH Hl) as (Hy & He & Hn & Hr). cbn. rewrite foldl_snoc, fmap_app, join_app. cbn. rewrite app_nil_r.
  set (g := foldl feed opened l) in *. destruct i as [[a|e|]|]; cbn in Hi |- *; try done.
  - by rewrite app_assoc, Hy.
  - unfold turn. rewrite Hr, app_nil_r, <- Hy. destruct (responses g) as [|a rest] eqn:E; [by rewrite Hn, E|].
    cbn. by rewrite <- app_assoc.
Qed.

Lemma drain g n : returned g = None -> ended g = true -> length (responses g) = n ->
  let g' := Nat.iter (S n) turn g in
  yielded g' = yielded g ++ responses g /\ returned g' = Some (error g).
Proof.
  revert g. induction n as [|n IH]; intros g Hr He Hl.
  - destruct (responses g) eqn:E; [|done]. cbn. unfold turn. rewrite Hr, E, He. cbn. by rewrite app_nil_r.
  - destruct (responses g) as [|a rest] eqn:E; [done|]. rewrite Nat.iter_succ_r.
    assert (Ht : turn g = g <| responses := rest |> <| yielded ::= fun y => y ++ [a] |>) by (unfold turn; by rewrite Hr, E).
    rewrite Ht. destruct (IH (g <| responses := rest |> <| yielded ::= fun y => y ++ [a] |>)) as [Hy Hret]; [done|done|by injection Hl|].
    cbn [yielded responses error field_update] in Hy, Hret. split; [|exact Hret].
    etransitivity; [exact Hy|]. cbn. by rewrite <- app_assoc.
Qed.

(** C28: the consumer gets every response in the order of the stream, however the turns fall
    between them, and the error of the stream only after the last one. *)
Theorem executeTask_delivers l (e : option string) : forallb is_data l = true ->
  let last_event := match e with Some m => on_error m | None => on_end end in
  let g := receive last_event (foldl feed opened l) in
  exists n, let g' := Nat.iter n turn g in
    yielded g' = mjoin (data_of <$> l) /\ returned g' = Some e.
Proof.
  intros Hl last_event g. destruct (open_stream l Hl) as (Hy & He & Hn & Hr). exists (S (length (responses g))). cbn zeta.
  destruct (drain g (length (responses g))) as [H1 H2]; [by subst g last_event; destruct e|by subst g last_event; destruct e|done|].
  rewrite H1, H2. subst g last_event. destruct e; cbn; by rewrite ?He.
Qed.
End responses.

Lemma executeTask_delivers_witness :
  exists n, let g := Nat.iter n turn (receive (on_error "gone") (foldl feed opened [an_event (on_data 1%nat); a_turn; an_event (on_data 2%nat)])) in
    yielded g = [1%nat; 2%nat] /\ returned g = Some (Some "gone").
Proof. exact (executeTask_delivers [an_event (on_data 1%nat); a_turn; an_event (on_data 2%nat)] (Some "gone") eq_refl). Defined.
End Responses.

(** ** The server *)

Module Server.

Record PortInfo := mkPortInfo { inUse : bool; pid : option Z; processName : option string }.

(** What the commands print: [ss] and its [ps], or the exception of [ss] and then
    [lsof] and its [ps]; [None] is an exception. *)
Definition found_process (pid : option Z) (ps : option string) : option Z * option string :=
  match pid with
  | Some n => (Some n, js_trim <$> ps)
  | None => (None, None)
  end.
Definition getProcessUsingPort (ss : option (option Z)) (lsof : option (option Z)) (ps : option string) :
    option Z * option string :=
  match ss with
  | Some pid => found_process pid ps
  | None => match lsof with Some pid => found_process pid ps | None => (None, None) end
  end.

(** [listen] on the port fails with EADDRINUSE, with another error, or succeeds. *)
Inductive Probe := address_in_use | other_error | listening.
Definition checkPortInUse (probe : Probe) (process : option Z * option string) : PortInfo :=
  match probe with
  | address_in_use => mkPortInfo true process.1 process.2
  | _ => mkPortInfo false None None
  end.

Definition truthy_num (o : option Z) : option Z := match o with Some z => if z =? 0 then None else Some z | None => None end.

Definition formatPortInUseError (port : Z) (info : PortInfo) : string :=
  let message := "Port " +:+ js_toString port +:+ " is already in use" in
  let other := js_toString (port + 1) in
  match truthy_num (pid info) with
  | Some n =>
      str [message; " by PID "; js_toString n;
           match processName info with Some p => if truthy_str p then " (" +:+ p +:+ ")" else "" | None => "" end;
           "."; newline; newline; "To fix this:"; newline;
           "  1. Stop the existing process: kill "; js_toString n; newline;
           "  2. Or use a different port: --port "; other; newline;
           match processName info with
           | Some p => if js_includes p "node" || js_includes p "cortex"
                       then str [newline; "This appears to be another cortex instance. ";
                                 "Stop it first or connect to the existing cluster."]
                       else ""
           | None => ""
           end]
  | None => str [message; "."; newline; newline; "Use a different port with: --port "; other]
  end.

Record GrpcServer := mkGrpcServer { port : Z; proto : bool; services : list string; started : bool; emitted : list string }.
#[export] Instance GrpcServer_eta : EtaRecord GrpcServer := fun s =>
  mkGrpcServer (port s) (proto s) (services s) (started s) (emitted s).
Implicit Types (s : GrpcServer).

Definition new_GrpcServer (port : Z) : GrpcServer := mkGrpcServer port false [] false [].
Definition loadProto s : GrpcServer := s <| proto := true |>.

Definition registerServices (names : list string) s : GrpcServer * option string :=
  if negb (proto s) then (s, Some Pool.not_loaded) else (s <| services ::= fun l => l ++ names |>, None).

(** [start]; [bindError] is the error of [bindAsync]. *)
Definition start (info : PortInfo) (bindError : option string) s : GrpcServer * option string :=
  if inUse info then (s, Some (formatPortInUseError (port s) info))
  else match bindError with
       | Some e => (s, Some e)
       | None => (s <| started := true |> <| emitted ::= fun l => l ++ ["started"] |>, None)
       end.

Definition stop s : GrpcServer :=
  if started s then s <| started := false |> <| emitted ::= fun l => l ++ ["stopped"] |> else s.
Definition forceStop s : GrpcServer := s <| started := false |> <| emitted ::= fun l => l ++ ["stopped"] |>.

(** The server runs exactly when its start was accepted, and a refused start changes
    nothing and says why; stopping is idempotent. *)
Theorem server_start_outcome info bindError s :
  (snd (start info bindError s) = None <-> inUse info = false /\ bindError = None) /\
  (snd (start info bindError s) = None -> started (fst (start info bindError s)) = true) /\
  (snd (start info bindError s) <> None -> fst (start info bindError s) = s) /\
  stop (stop s) = stop s.
Proof.
  unfold start. split_and!.
  - destruct (inUse info), bindError; cbn; naive_solver.
  - by destruct (inUse info), bindError.
  - by destruct (inUse info), bindError.
  - unfold stop at 2 3. destruct (started s) eqn:E; [done|]. unfold stop. by rewrite E.
Qed.

Example port_taken_by_cortex :
  snd (start (checkPortInUse address_in_use (getProcessUsingPort (Some (Some 812)) None (Some "node
"))) None (new_GrpcServer 50051)) =
  Some "Port 50051 is already in use by PID 812 (node).

To fix this:
  1. Stop the existing process: kill 812
  2. Or use a different port: --port 50052

This appears to be another cortex instance. Stop it first or connect to the existing cluster.".
Proof. by vm_compute. Qed.
End Server.
