(* ===== verification/ResourceMonitor.v ===== *)
(** * Resource monitoring and health of an agent (src/src/agent/resource-monitor.ts, health-reporter.ts)

    The readings come from the systeminformation package and from nvidia-smi: a
    poll takes them as a value, or as the exception they raised.  Percentages are
    rational numbers. *)

From S2P Require Import Prelude JsMap JsString JsNumber.
From Stdlib Require Import QArith Qround.
#[local] Open Scope Z_scope.

(** ** Data *)

Record CpuInfo := mkCpuInfo { cores : Z; usagePercent : Q }.
Record MemoryInfo := mkMemoryInfo { totalBytes : Z; availableBytes : Z; usedPercent : Q }.
Record GpuInfo := mkGpuInfo {
  gpu_index : Z;
  gpu_name : string;
  memoryTotalBytes : Z;
  memoryAvailableBytes : Z;
  utilizationPercent : Q;
  inUseForGaming : bool
}.
#[export] Instance GpuInfo_eta : EtaRecord GpuInfo := fun g =>
  mkGpuInfo (gpu_index g) (gpu_name g) (memoryTotalBytes g) (memoryAvailableBytes g) (utilizationPercent g) (inUseForGaming g).
Record DiskInfo := mkDiskInfo { d_totalBytes : Z; d_availableBytes : Z; d_usedPercent : Q }.

Record ResourceSnapshot := mkResourceSnapshot {
  rs_timestamp : Z;
  cpu : CpuInfo;
  memory : MemoryInfo;
  gpus : list GpuInfo;
  disk : DiskInfo;
  gamingDetected : bool
}.

Inductive MonitorEvent := gaming_started | gaming_ended | snapshot (s : ResourceSnapshot) | poll_error (m : string).

Record ResourceMonitor := mkResourceMonitor {
  pollInterval : bool;
  lastSnapshot : option ResourceSnapshot;
  gamingStartedAt : option Z;
  gamingEndedAt : option Z;
  gamingProcesses : list string;           (* a Set *)
  gpuThreshold : Q;
  cooldownMs : Z;
  m_emitted : list MonitorEvent
}.
#[export] Instance ResourceMonitor_eta : EtaRecord ResourceMonitor := fun m =>
  mkResourceMonitor (pollInterval m) (lastSnapshot m) (gamingStartedAt m) (gamingEndedAt m) (gamingProcesses m)
    (gpuThreshold m) (cooldownMs m) (m_emitted m).

Implicit Types (m : ResourceMonitor).

Definition DEFAULT_GAMING_PROCESSES : list string :=
  ["steam"; "steamwebhelper"; "wine"; "wine64"; "wineserver"; "proton"; "pressure-vessel"; "gamescope"; "gamemode";
   "lutris"; "heroic"; "mangohud"; "UE4"; "UnrealEngine"; "Unity"].

Definition new_ResourceMonitor (processes : option (list string)) (threshold : option Q) (cooldown : option Z) : ResourceMonitor :=
  mkResourceMonitor false None None None (js_toLowerCase <$> default DEFAULT_GAMING_PROCESSES processes)
    (default (inject_Z 70) threshold) (default 30000 cooldown) [].

Definition isGamingActive m : bool := match lastSnapshot m with Some s => gamingDetected s | None => false end.

Definition isInGamingCooldown (now : Z) m : bool :=
  match gamingEndedAt m with
  | Some t => if t =? 0 then false else now - t <? cooldownMs m
  | None => false
  end.

(** ** Detection *)

(** What the name lists contain: a process counts when a name occurs in it. *)
Definition detectGamingByProcesses (processes : list string) m : bool :=
  existsb (fun proc => bool_decide (proc ∈ gamingProcesses m) || existsb (js_includes proc) (gamingProcesses m)) processes.

Definition above (threshold x : Q) : bool := negb (Qle_bool x threshold).
Definition detectGamingByGpu (l : list GpuInfo) m : bool :=
  existsb (fun g => above (gpuThreshold m) (utilizationPercent g)) l.

(** ** Readings *)

(** A graphics controller: model, vram in megabytes and utilization. *)
Definition controller_gpu (index : Z) (model : option string) (vram : option Z) (utilization : option Q) : GpuInfo :=
  mkGpuInfo index (match model with Some n => if truthy_str n then n else "Unknown GPU" | None => "Unknown GPU" end)
    (default 0 vram * 1024 * 1024) (default 0 vram * 1024 * 1024) (default 0%Q utilization) false.

(** [getDiskInfo]: the mount points and their numbers. *)
Definition getDiskInfo (fsSize : list (string * DiskInfo)) : DiskInfo :=
  match List.find (fun f : string * DiskInfo => String.eqb f.1 "/") fsSize with
  | Some f => f.2
  | None => match fsSize with f :: _ => f.2 | [] => mkDiskInfo 0 0 0%Q end
  end.

Record Readings := mkReadings {
  rd_cpu : CpuInfo;
  rd_memory : MemoryInfo;
  rd_gpus : list GpuInfo;
  rd_disk : DiskInfo;
  rd_processes : list string
}.

(** ** poll *)

Definition mark_gaming (gaming : bool) m (g : GpuInfo) : GpuInfo :=
  g <| inUseForGaming := gaming && above (gpuThreshold m) (utilizationPercent g) |>.

Definition poll (now : Z) (readings : string + Readings) m : ResourceMonitor :=
  match readings with
  | inl error => m <| m_emitted ::= fun l => l ++ [poll_error error] |>
  | inr r =>
      let gaming := detectGamingByProcesses (rd_processes r) m || detectGamingByGpu (rd_gpus r) m in
      let wasGaming := isGamingActive m in
      let m :=
        if gaming && negb wasGaming then
          m <| gamingStartedAt := Some now |> <| gamingEndedAt := None |> <| m_emitted ::= fun l => l ++ [gaming_started] |>
        else if negb gaming && wasGaming then
          m <| gamingEndedAt := Some now |> <| m_emitted ::= fun l => l ++ [gaming_ended] |>
        else m in
      let s := mkResourceSnapshot now (rd_cpu r) (rd_memory r) (mark_gaming gaming m <$> rd_gpus r) (rd_disk r) gaming in
      m <| lastSnapshot := Some s |> <| m_emitted ::= fun l => l ++ [snapshot s] |>
  end.

Definition start_monitor (now : Z) (readings : string + Readings) m : ResourceMonitor :=
  (poll now readings m) <| pollInterval := true |>.
Definition stop_monitor m : ResourceMonitor := m <| pollInterval := false |>.

(** ** The wire form *)

Record ProtoGpu := mkProtoGpu { pg_name : string; pg_memory_bytes : string; pg_memory_available_bytes : string;
  pg_utilization_percent : Q; pg_in_use_for_gaming : bool }.
Record ProtoResources := mkProtoResources {
  pr_cpu_cores : Z; pr_memory_bytes : string; pr_memory_available_bytes : string; pr_gpus : list ProtoGpu;
  pr_disk_bytes : string; pr_disk_available_bytes : string; pr_cpu_usage_percent : Q; pr_gaming_detected : bool }.

Definition toProtoResources m : option ProtoResources :=
  (fun s => mkProtoResources (cores (cpu s)) (js_toString (totalBytes (memory s))) (js_toString (availableBytes (memory s)))
    ((fun g => mkProtoGpu (gpu_name g) (js_toString (memoryTotalBytes g)) (js_toString (memoryAvailableBytes g))
        (utilizationPercent g) (inUseForGaming g)) <$> gpus s)
    (js_toString (d_totalBytes (disk s))) (js_toString (d_availableBytes (disk s))) (usagePercent (cpu s)) (gamingDetected s))
  <$> lastSnapshot m.

(** ** HealthReporter *)

Inductive Severity := sev_warning | sev_error.
#[export] Instance Severity_eq_dec : EqDecision Severity.
Proof. solve_decision. Defined.

Record HealthIssue := mkHealthIssue { severity : Severity; code : string; i_message : string; i_timestamp : Z }.

Record HealthStatus := mkHealthStatus {
  h_healthy : bool;
  h_message : string;
  lastCheck : Z;
  uptime : Z;
  resources : option ResourceSnapshot;
  activeTasks : list string;
  h_issues : list HealthIssue
}.

Record HealthReporter := mkHealthReporter {
  startTime : Z;
  lastStatus : option HealthStatus;
  issues : list HealthIssue;
  memoryThreshold : Q;
  cpuThreshold : Q;
  diskThreshold : Q;
  checkInterval : bool;
  h_emitted : list (HealthIssue + HealthStatus)
}.
#[export] Instance HealthReporter_eta : EtaRecord HealthReporter := fun h =>
  mkHealthReporter (startTime h) (lastStatus h) (issues h) (memoryThreshold h) (cpuThreshold h) (diskThreshold h)
    (checkInterval h) (h_emitted h).

Definition new_HealthReporter (now : Z) (memT cpuT diskT : option Q) : HealthReporter :=
  mkHealthReporter now None [] (default (inject_Z 90) memT) (default (inject_Z 95) cpuT) (default (inject_Z 95) diskT) false [].

(** [x.toFixed(1)] of a number that is not negative. *)
Definition toFixed1 (x : Q) : string :=
  let z := Qfloor (x * inject_Z 10 + (1 # 2)) in js_toString (z / 10) +:+ "." +:+ js_toString (z mod 10).

Definition over (threshold x errorAbove : Q) (code what : string) (now : Z) : list HealthIssue :=
  if above threshold x
  then [mkHealthIssue (if above errorAbove x then sev_error else sev_warning) code
          (what +:+ " usage at " +:+ toFixed1 x +:+ "%") now]
  else [].

Definition found_issues (now : Z) (s : option ResourceSnapshot) (h : HealthReporter) : list HealthIssue :=
  match s with
  | Some s =>
      over (memoryThreshold h) (usedPercent (memory s)) (inject_Z 95) "HIGH_MEMORY" "Memory" now
      ++ over (cpuThreshold h) (usagePercent (cpu s)) (inject_Z 98) "HIGH_CPU" "CPU" now
      ++ over (diskThreshold h) (d_usedPercent (disk s)) (inject_Z 98) "HIGH_DISK" "Disk" now
      ++ (if gamingDetected s
          then [mkHealthIssue sev_warning "GAMING_ACTIVE" "Gaming activity detected, GPU tasks may be migrated" now] else [])
  | None => [mkHealthIssue sev_warning "NO_RESOURCES" "Resource monitoring data unavailable" now]
  end.

Definition is_error (i : HealthIssue) : bool := bool_decide (severity i = sev_error).

Definition check_health (now : Z) (s : option ResourceSnapshot) (tasks : list string) (h : HealthReporter) : HealthReporter :=
  let found := found_issues now s h in
  let hasErrors := existsb is_error found in
  let healthy := negb hasErrors && bool_decide (is_Some s) in
  let message :=
    if hasErrors then "Node unhealthy: " +:+ String.concat "; " (i_message <$> keep is_error found)
    else if 0 <? js_length found then "Node operational with warnings: " +:+ String.concat ", " (code <$> found)
    else "Node healthy" in
  let status := mkHealthStatus healthy message now (now - startTime h) s tasks found in
  h <| issues := found |> <| lastStatus := Some status |>
    <| h_emitted ::= fun l => l ++ (inl <$> found) ++ [inr status] |>.

Definition getHealthStatus (now : Z) (s : option ResourceSnapshot) (tasks : list string) (h : HealthReporter) :
    HealthReporter * option HealthStatus :=
  match lastStatus h with
  | Some st => (h, Some st)
  | None => let h := check_health now s tasks h in (h, lastStatus h)
  end.
Definition isHealthy (h : HealthReporter) : bool := match lastStatus h with Some st => h_healthy st | None => false end.
Definition start_reporter (now : Z) (s : option ResourceSnapshot) (tasks : list string) (h : HealthReporter) : HealthReporter :=
  (check_health now s tasks h) <| checkInterval := true |>.
Definition stop_reporter (h : HealthReporter) : HealthReporter := h <| checkInterval := false |>.

(** ** Theorems *)

(** The gaming events of a list of events, in order. *)
Definition gaming_events (l : list MonitorEvent) : list bool :=
  omap (fun e => match e with gaming_started => Some true | gaming_ended => Some false | _ => None end) l.

(** [alternating b l]: the values of [l] alternate, and the first is not [b]. *)
Fixpoint alternating (b : bool) (l : list bool) : Prop :=
  match l with [] => True | x :: l' => x = negb b /\ alternating x l' end.

Lemma alternating_snoc b l x : alternating b l -> x = negb (default b (last l)) -> alternating b (l ++ [x]).
Proof.
  revert b. induction l as [|y l IH]; intros b; cbn [alternating app]; [by intros _ ->|].
  intros [-> Hl] Hx. split; [done|]. apply IH; [done|]. rewrite Hx, last_cons. by destruct (last l).
Qed.

Definition poll_all (polls : list (Z * (string + Readings))) m : ResourceMonitor :=
  foldl (fun m p => poll p.1 p.2 m) m polls.

Definition monitor_ok m : Prop :=
  alternating false (gaming_events (m_emitted m)) /\
  default false (last (gaming_events (m_emitted m))) = isGamingActive m.

Lemma poll_ok now r m : monitor_ok m -> monitor_ok (poll now r m).
Proof.
  intros [Ha Hl]. unfold poll. destruct r as [e|r].
  - split; cbn; unfold gaming_events in *; by rewrite omap_app, app_nil_r.
  - set (gaming := _ || _). destruct gaming eqn:Eg, (isGamingActive m) eqn:Ei; unfold monitor_ok, gaming_events in *; cbn;
      rewrite ?omap_app; cbn; rewrite ?app_nil_r; split; try done.
    + apply alternating_snoc; [done|]. by rewrite Hl.
    + by rewrite last_snoc.
    + apply alternating_snoc; [done|]. by rewrite Hl.
    + by rewrite last_snoc.
Qed.

(** The gaming events tell the state.  Over any sequence of polls, failed ones
    included, the started and ended events alternate, beginning with started, and a
    node counts as gaming exactly if the last of them is started. *)
Theorem gaming_events_alternate processes threshold cooldown polls :
  let m := poll_all polls (new_ResourceMonitor processes threshold cooldown) in
  alternating false (gaming_events (m_emitted m)) /\
  isGamingActive m = default false (last (gaming_events (m_emitted m))).
Proof.
  cbn zeta. assert (H : forall polls m, monitor_ok m -> monitor_ok (poll_all polls m)).
  { induction polls0 as [|[now r] l IH]; intros m Hm; [done|]. cbn. by apply IH, poll_ok. }
  destruct (H polls (new_ResourceMonitor processes threshold cooldown)) as [Ha Hl]; [done|]. done.
Qed.

Lemma existsb_over threshold x e code what now :
  existsb is_error (over threshold x e code what now) = above threshold x && above e x.
Proof. unfold over. destruct (above threshold x); [|done]. cbn. destruct (above e x); done. Qed.

(** A node is healthy exactly if there is a reading and none of its numbers is above
    both its threshold and the limit of an error: 95 percent for memory, 98 for
    the processor and the disk; gaming alone leaves it healthy. *)
Theorem check_health_exact now s tasks h :
  let over_limit threshold limit x := above threshold x && above (inject_Z limit) x in
  isHealthy (check_health now s tasks h) = true <->
  exists snap, s = Some snap /\
    over_limit (memoryThreshold h) 95 (usedPercent (memory snap)) = false /\
    over_limit (cpuThreshold h) 98 (usagePercent (cpu snap)) = false /\
    over_limit (diskThreshold h) 98 (d_usedPercent (disk snap)) = false.
Proof.
  cbn zeta. assert (E : isHealthy (check_health now s tasks h) =
    negb (existsb is_error (found_issues now s h)) && bool_decide (is_Some s)) by reflexivity.
  rewrite E. clear E. destruct s as [snap|]; cbn [found_issues].
  - rewrite bool_decide_true, andb_true_r, negb_true_iff by eauto. rewrite !existsb_app, !existsb_over.
    rewrite !orb_false_iff. split.
    + intros (H1 & H2 & H3 & _). by exists snap.
    + intros (? & [= <-] & H1 & H2 & H3). split_and!; try done. by destruct (gamingDetected snap).
  - rewrite bool_decide_false by by intros []. rewrite andb_false_r. split; [done|by intros (? & ? & _)].
Qed.
