(* ===== verification/NodeReport.v ===== *)
(** * From the resource monitor to the scheduler (src/src/index.ts, plugins/resource-monitor)

    A reading of the monitor reaches the scheduler through four components: the plugin
    emits the snapshot on the plugins' bus, the listener of [initializePlugins] turns it
    into the resources of this node, [sendHeartbeat] of the membership manager sends
    them, and the handler of the leader stores them.

    The listener reads its argument as an untyped object, each property with
    alternatives; [snapshot_object] is the object the monitor emits, so that a property
    it does not have is really absent.  The graphics cards are passed on as they are,
    and the sender then reads a property of theirs. *)

From S2P Require Import Prelude JsMap JsString Raft Membership MembershipProps ClusterHandlers ClusterHandlersProps.
From S2P Require Import TaskTypes TaskScheduler.
From S2P Require ResourceMonitor.
From Stdlib Require Import QArith.
#[local] Open Scope Z_scope.

(** ** The snapshot as an object *)

Inductive SnapshotValue :=
  | sv_int (z : Z)
  | sv_percent (q : Q)
  | sv_bool (b : bool)
  | sv_string (s : string)
  | sv_gpus (l : list ResourceMonitor.GpuInfo)
  | sv_object (fields : list (string * SnapshotValue)).

Definition snapshot_object (s : ResourceMonitor.ResourceSnapshot) : SnapshotValue :=
  let cpu := ResourceMonitor.cpu s in
  let memory := ResourceMonitor.memory s in
  let disk := ResourceMonitor.disk s in
  sv_object
    [("timestamp", sv_int (ResourceMonitor.rs_timestamp s));
     ("cpu", sv_object [("cores", sv_int (ResourceMonitor.cores cpu));
                        ("usagePercent", sv_percent (ResourceMonitor.usagePercent cpu))]);
     ("memory", sv_object [("totalBytes", sv_int (ResourceMonitor.totalBytes memory));
                           ("availableBytes", sv_int (ResourceMonitor.availableBytes memory));
                           ("usedPercent", sv_percent (ResourceMonitor.usedPercent memory))]);
     ("gpus", sv_gpus (ResourceMonitor.gpus s));
     ("disk", sv_object [("totalBytes", sv_int (ResourceMonitor.d_totalBytes disk));
                         ("availableBytes", sv_int (ResourceMonitor.d_availableBytes disk));
                         ("usedPercent", sv_percent (ResourceMonitor.d_usedPercent disk))]);
     ("gamingDetected", sv_bool (ResourceMonitor.gamingDetected s))].

(** [v.key], and [v.outer?.inner]. *)
Definition prop (v : SnapshotValue) (key : string) : option SnapshotValue :=
  match v with sv_object fields => jm_get fields key | _ => None end.
Definition prop2 (v : SnapshotValue) (outer inner : string) : option SnapshotValue :=
  o ← prop v outer; prop o inner.

Definition as_int (v : SnapshotValue) : option Z := match v with sv_int z => Some z | _ => None end.
Definition as_percent (v : SnapshotValue) : option Q := match v with sv_percent q => Some q | _ => None end.
Definition as_bool (v : SnapshotValue) : option bool := match v with sv_bool b => Some b | _ => None end.
Definition as_string (v : SnapshotValue) : option string := match v with sv_string s => Some s | _ => None end.
Definition as_gpus (v : SnapshotValue) : option (list ResourceMonitor.GpuInfo) :=
  match v with sv_gpus l => Some l | _ => None end.

(** [a ?? b ?? zero]. *)
Definition either {A} (a b : option A) (zero : A) : A :=
  match a with Some x => x | None => default zero b end.

(** ** The listener *)

(** The object given to [updateNodeResources]; its cards are those of the monitor. *)
Record ForwardedResources := mkForwardedResources {
  fw_cpuCores : Z;
  fw_memoryBytes : Z;
  fw_memoryAvailableBytes : Z;
  fw_gpus : list ResourceMonitor.GpuInfo;
  fw_diskBytes : Z;
  fw_diskAvailableBytes : Z;
  fw_cpuUsagePercent : Q;
  fw_gamingDetected : bool
}.

Definition forward_snapshot (v : SnapshotValue) : ForwardedResources :=
  let int key outer inner := either (prop v key ≫= as_int) (prop2 v outer inner ≫= as_int) 0 in
  mkForwardedResources
    (int "cpuCores" "cpu" "cores")
    (int "memoryBytes" "memory" "total")
    (int "memoryAvailableBytes" "memory" "available")
    (default [] (prop v "gpus" ≫= as_gpus))
    (int "diskBytes" "disk" "total")
    (int "diskAvailableBytes" "disk" "available")
    (either (prop v "cpuUsagePercent" ≫= as_percent) (prop2 v "cpu" "usage" ≫= as_percent) 0%Q)
    (default false (prop v "gamingDetected" ≫= as_bool)).

(** ** The sender *)

Definition gpu_object (g : ResourceMonitor.GpuInfo) : SnapshotValue :=
  sv_object
    [("index", sv_int (ResourceMonitor.gpu_index g));
     ("name", sv_string (ResourceMonitor.gpu_name g));
     ("memoryTotalBytes", sv_int (ResourceMonitor.memoryTotalBytes g));
     ("memoryAvailableBytes", sv_int (ResourceMonitor.memoryAvailableBytes g));
     ("utilizationPercent", sv_percent (ResourceMonitor.utilizationPercent g));
     ("inUseForGaming", sv_bool (ResourceMonitor.inUseForGaming g))].

(** [resourcesToProto] on such an object; [toString] of an absent property throws. *)
Definition gpu_to_proto (v : SnapshotValue) : option ProtoGpu :=
  memory ← prop v "memoryBytes" ≫= as_int;
  available ← prop v "memoryAvailableBytes" ≫= as_int;
  Some (mkProtoGpu (default "" (prop v "name" ≫= as_string)) (js_toString memory) (js_toString available)
          (default 0%Q (prop v "utilizationPercent" ≫= as_percent))
          (default false (prop v "inUseForGaming" ≫= as_bool))).

Definition forwarded_to_proto (f : ForwardedResources) : option ProtoResources :=
  gpus ← mapM gpu_to_proto (gpu_object <$> fw_gpus f);
  Some (mkProtoResources (fw_cpuCores f) (js_toString (fw_memoryBytes f)) (js_toString (fw_memoryAvailableBytes f))
          gpus (js_toString (fw_diskBytes f)) (js_toString (fw_diskAvailableBytes f))
          (fw_cpuUsagePercent f) (fw_gamingDetected f)).

Section report.
Context {D : Type}.
Implicit Types (m : MembershipManager) (raft : RaftNode D).

(** [sendHeartbeat] of a node whose resources are [resources]; [send] is the call. *)
Definition heartbeat_with (resources : option ForwardedResources)
    (send : string -> ProtoHeartbeat -> option HeartbeatResponse) (now : Z) m raft : MembershipManager :=
  match sendHeartbeat_call now m raft with
  | inl m => m
  | inr address =>
      let request resources := mkProtoHeartbeat (m_nodeId (mm_config m)) resources in
      match resources with
      | None => sendHeartbeat_reply now (send address (request None)) m
      | Some f =>
          match forwarded_to_proto f with
          | None => sendHeartbeat_reply now None m
          | Some p => sendHeartbeat_reply now (send address (request (Some p))) m
          end
      end
  end.

(** ** What arrives *)

(** Only the number of cores and the detection of games survive the listener: the
    names it reads for memory, disk and processor load are not those of the snapshot. *)
Lemma forward_snapshot_object s : forward_snapshot (snapshot_object s) =
  mkForwardedResources (ResourceMonitor.cores (ResourceMonitor.cpu s)) 0 0 (ResourceMonitor.gpus s) 0 0 0%Q
    (ResourceMonitor.gamingDetected s).
Proof. reflexivity. Qed.

Lemma forwarded_without_gpus s : ResourceMonitor.gpus s = [] ->
  forwarded_to_proto (forward_snapshot (snapshot_object s)) =
    Some (resourcesToProto (mkNodeResources (ResourceMonitor.cores (ResourceMonitor.cpu s)) 0 0 [] 0 0 0%Q
                              (ResourceMonitor.gamingDetected s))).
Proof. intros Hg. rewrite forward_snapshot_object, Hg. reflexivity. Qed.

Lemma forwarded_with_gpus s : ResourceMonitor.gpus s <> [] ->
  forwarded_to_proto (forward_snapshot (snapshot_object s)) = None.
Proof. intros Hg. rewrite forward_snapshot_object. unfold forwarded_to_proto. cbn. by destruct (ResourceMonitor.gpus s). Qed.

(** *** A node without graphics cards *)

Lemma constrained_needs c nodes n : n ∈ filterNodes (Some c) nodes ->
  (forall mb, c_minMemoryMb c = Some mb -> mb <> 0 -> mb * 1000000 <= available_memory n) /\
  (forall gb, c_minDiskGb c = Some gb -> gb <> 0 -> gb * 1000000000 <= available_disk n).
Proof. intros [_ (_ & _ & Hm & Hd & _)]%elem_of_filterNodes. done. Qed.

(** A node without graphics cards is known to the leader, after any heartbeat it can
    deliver, with no memory and no disk, however much it has: the scheduler never gives
    it a task that asks for some. *)
Theorem unplaceable_with_requirements s now m raft id n c :
  ResourceMonitor.gpus s = [] -> getNode id m = Some n ->
  (exists mb, c_minMemoryMb c = Some mb /\ 0 < mb) \/ (exists gb, c_minDiskGb c = Some gb /\ 0 < gb) ->
  let request := mkProtoHeartbeat id (forwarded_to_proto (forward_snapshot (snapshot_object s))) in
  exists answer m' n', Heartbeat now request m raft = Some (answer, m') /\ getNode id m' = Some n' /\
    available_memory n' = 0 /\ available_disk n' = 0 /\
    forall nodes, n' ∉ filterNodes (Some c) nodes.
Proof.
  intros Hg Hn Hc. rewrite (forwarded_without_gpus s Hg). set (r := mkNodeResources _ 0 0 [] 0 0 0%Q _). intros request.
  destruct (Heartbeat_get now request m raft (Some r)) as (answer & m' & HH & _ & _ & _ & Hget).
  { right. exists (resourcesToProto r), r. by rewrite resources_roundtrip. }
  exists answer, m', (refreshed now (Some r) n). specialize (Hget id). cbn [phb_node_id request] in Hget.
  rewrite decide_True, Hn in Hget by done.
  assert (Hz : available_memory (refreshed now (Some r) n) = 0 /\ available_disk (refreshed now (Some r) n) = 0)
    by (unfold refreshed, touch; by case_bool_decide).
  destruct Hz as [Hzm Hzd]. split_and!; [done..|].
  intros nodes [Hm Hd]%constrained_needs.
  destruct Hc as [(mb & Hmb & Hpos)|(gb & Hgb & Hpos)].
  - specialize (Hm mb Hmb). lia.
  - specialize (Hd gb Hgb). lia.
Qed.

(** *** A node with graphics cards *)

Lemma heartbeat_throws s send now m raft address : ResourceMonitor.gpus s <> [] ->
  sendHeartbeat_call now m raft = inr address ->
  heartbeat_with (Some (forward_snapshot (snapshot_object s))) send now m raft = sendHeartbeat_reply now None m.
Proof. intros Hg Hc. unfold heartbeat_with. by rewrite Hc, forwarded_with_gpus. Qed.

Lemma call_after_failure now now' m raft address : sendHeartbeat_call now m raft = inr address ->
  sendHeartbeat_call now' (sendHeartbeat_reply now None m) raft = inr address.
Proof.
  assert (Ha : mm_leaderAddress (sendHeartbeat_reply now None m) = mm_leaderAddress m).
  { unfold sendHeartbeat_reply. cbn. by destruct (_ && _). }
  unfold sendHeartbeat_call. rewrite Ha. destruct (isLeader raft); [done|].
  destruct (mm_leaderAddress m) as [a|]; [|done]. by destruct (truthy_str a).
Qed.

(** A follower with a graphics card cannot send a heartbeat at all, whatever the leader
    would answer: the exception is counted as a failed heartbeat, and the third one asks
    for a rejoin of the cluster that the node never left. *)
Theorem gpu_node_is_never_heard s send now1 now2 now3 m raft address :
  ResourceMonitor.gpus s <> [] -> sendHeartbeat_call now1 m raft = inr address ->
  mm_heartbeatFailures m = 0 -> mm_rejoinInProgress m = false ->
  let beat now m := heartbeat_with (Some (forward_snapshot (snapshot_object s))) send now m raft in
  let m' := beat now3 (beat now2 (beat now1 m)) in
  mm_heartbeatFailures m' = 3 /\ mm_emitted m' = mm_emitted m ++ [me_rejoinNeeded] /\ mm_nodes m' = mm_nodes m.
Proof.
  intros Hg Hc Hf Hp. cbn zeta beta.
  rewrite (heartbeat_throws s send now1 m raft address Hg Hc).
  pose proof (call_after_failure now1 now2 m raft address Hc) as Hc2.
  rewrite (heartbeat_throws s send now2 _ raft address Hg Hc2).
  rewrite (heartbeat_throws s send now3 _ raft address Hg (call_after_failure now2 now3 _ raft address Hc2)).
  destruct m as [cfg nodes pend la f rj ev]. cbn in Hf, Hp. subst f rj. by split_and!.
Qed.
End report.

(** ** Instances *)

Definition workstation (gpus : list ResourceMonitor.GpuInfo) : ResourceMonitor.ResourceSnapshot :=
  ResourceMonitor.mkResourceSnapshot 0 (ResourceMonitor.mkCpuInfo 16 40)
    (ResourceMonitor.mkMemoryInfo 64000000000 48000000000 25) gpus
    (ResourceMonitor.mkDiskInfo 2000000000000 900000000000 55) false.
Definition rtx : ResourceMonitor.GpuInfo := ResourceMonitor.mkGpuInfo 0 "rtx" 24000000000 20000000000 5 false.

Definition small_task : TaskConstraints := mkTaskConstraints false false (Some 512) None [] None.

Lemma unplaceable_with_requirements_witness :
  exists answer m' n',
    Heartbeat 2000 (mkProtoHeartbeat "b" (forwarded_to_proto (forward_snapshot (snapshot_object (workstation [])))))
      joined_ab.1 joined_ab.2 = Some (answer, m') /\ getNode "b" m' = Some n' /\ available_memory n' = 0.
Proof.
  destruct (unplaceable_with_requirements (workstation []) 2000 joined_ab.1 joined_ab.2 "b"
    (mkNodeInfo "b" "beta" "100.64.0.2" 50051 role_follower active None [] 100 100) small_task)
    as (answer & m' & n' & HH & Hn & Hm & _); [reflexivity|reflexivity|left; by exists 512|].
  by exists answer, m', n'.
Defined.

Definition member_b : MembershipManager := fresh_b <| mm_leaderAddress := Some "100.64.0.1:50051" |>.

Lemma gpu_node_is_never_heard_witness :
  let accept (_ : string) (_ : ProtoHeartbeat) := Some (mkHeartbeatResponse true "" "a") in
  let beat now m := heartbeat_with (Some (forward_snapshot (snapshot_object (workstation [rtx])))) accept now m raft_b in
  mm_heartbeatFailures (heartbeat_with (Some (forward_snapshot (snapshot_object (workstation [])))) accept 1 member_b raft_b) = 0 /\
  mm_heartbeatFailures (beat 3 (beat 2 (beat 1 member_b))) = 3.
Proof.
  split; [reflexivity|].
  destruct (gpu_node_is_never_heard (workstation [rtx]) (fun _ _ => Some (mkHeartbeatResponse true "" "a")) 1 2 3
    member_b raft_b "100.64.0.1:50051") as [H _]; [done|reflexivity|reflexivity|reflexivity|]. exact H.
Defined.
