(* ===== verification/Updater.v ===== *)
(** * Rolling updates (src/src/cluster/updater.ts)

    [RollingUpdater] updates the followers one after the other and then the leader.
    Everything it touches is behind [UpdaterEnv]: the clock, the node table, the
    agents of the other nodes, the callbacks of its configuration and the local
    file system, as operations on a world of an arbitrary type.  What an agent
    answers to a shell command is not free: an [Outcome] says what happened there,
    and [answer] is the answer of the agent's ExecuteTask handler.

    The methods are programs of [Eff], a monad of the world, the progress events
    and exceptions.  The two polling loops get as many turns as there are poll
    intervals in the timeout, and one more. *)

From S2P Require Import Prelude JsMap JsString JsNumber Json Grpc Raft Membership TaskExecutor.
From Stdlib Require Import Ascii.

(** ** Data *)

Inductive Phase :=
  | ph_preflight | ph_add | ph_activate | ph_stabilize | ph_commit | ph_rollback | ph_leader_restart | ph_complete | ph_aborted.

Record UpdateProgress := mkUpdateProgress { phase : Phase; u_nodeId : string; u_message : string }.

Record PreflightResult := mkPreflightResult {
  ok : bool;
  reason : option string;
  pf_nodes : list NodeInfo;
  followers : list NodeInfo;
  quorumSize : Z;
  votingCount : Z
}.

Record UpdateResult := mkUpdateResult {
  success : bool;
  nodesUpdated : list string;
  nodesRolledBack : list string;
  u_error : option string
}.

Record FollowerResult := mkFollowerResult { fr_success : bool; rolledBack : bool; fr_error : option string }.

Record UpdaterConfig := mkUpdaterConfig {
  selfNodeId : string;
  distDir : string;
  heartbeatIntervalMs : option Z;
  preRestartGraceMs : option Z;
  hasNotify : bool;
  hasSquelch : bool
}.

Definition heartbeatMs (c : UpdaterConfig) : Z := default 5000 (heartbeatIntervalMs c).
Definition graceMs (c : UpdaterConfig) : Z := default 30000 (preRestartGraceMs c).

(** [path.dirname(p)]. *)
Fixpoint last_slash (s : string) (i : nat) (found : option nat) : option nat :=
  match s with
  | EmptyString => found
  | String c s' => last_slash s' (S i) (if Ascii.eqb c "/" then Some i else found)
  end.
Fixpoint strip_slashes (s : string) : string :=
  match s with
  | EmptyString => EmptyString
  | String c s' => match strip_slashes s' with
                   | EmptyString => if Ascii.eqb c "/" then EmptyString else String c EmptyString
                   | t => String c t
                   end
  end.
Definition dirname (p : string) : string :=
  match last_slash (strip_slashes p) 0 None with
  | None => if js_startsWith p "/" then "/" else "."
  | Some i => match strip_slashes (String.substring 0 i p) with
              | EmptyString => "/"
              | d => d
              end
  end.

(** [Math.round(ms / 1000)]. *)
Definition seconds (ms : Z) : Z := (ms + 500) / 1000.

(** ** What the updater calls *)

(** The fate of a command on an agent: the agent did not run it (its executor
    threw), it ran and ended with a code, or the call broke off. *)
Inductive Outcome := refused (message : string) | ran (exitCode : Z) | broken (message : string).

Class UpdaterEnv (D W : Type) := {
  now : W -> Z;
  sleep : Z -> W -> W;
  raft : W -> RaftNode D;
  getAllNodes : W -> list NodeInfo;
  call : string -> string -> Z -> W -> W * Outcome;           (* address, command, timeout *)
  healthCheck : string -> W -> W * option bool;               (* healthy, or an exception *)
  closeConnection : string -> W -> W;
  notifyFn : string -> string -> W -> W * bool;               (* false is an exception *)
  squelchFn : Z -> W -> W * bool;
  backupDist : W -> W * bool;                                 (* the leader's own dist.bak *)
  restartSelf : W -> W
}.

(** The messages of the agent's stream, and its error. *)
Definition answer (o : Outcome) : list AgentResponse * option string :=
  let task := mkProtoTask "" "TASK_TYPE_SHELL" None in
  match o with
  | refused m => ([thrown_response task m], None)
  | ran c => ([result_response task (mkTaskResult "" (c =? 0) c "" "" None 0 0)], None)
  | broken m => ([], Some m)
  end.

(** The loop of [runShellOnNode] over the messages.  No output type has one of the
    two names that the code takes for standard output. *)
Record Shell := mkShell { sh_stdout : string; sh_stderr : string; sh_exitCode : Z }.
Definition read_response (s : Shell) (resp : AgentResponse) : Shell :=
  let s := match ag_output resp with
           | Some (_, data) => mkShell (sh_stdout s) (sh_stderr s +:+ data) (sh_exitCode s)
           | None => s
           end in
  match ag_status resp with
  | Some st => mkShell (sh_stdout s) (sh_stderr s) (default (-1) (num_property st "exit_code"))
  | None => s
  end.

Section updater.
Context {D W : Type} `{!UpdaterEnv D W} (config : UpdaterConfig).

(** ** The monad *)

Record State := mkState { world : W; progressed : list UpdateProgress }.
Definition Eff (A : Type) : Type := State -> State * (string + A).
Definition ret {A} (a : A) : Eff A := fun s => (s, inr a).
Definition throw {A} (m : string) : Eff A := fun s => (s, inl m).
Definition bind {A B} (x : Eff A) (f : A -> Eff B) : Eff B := fun s =>
  match x s with (s, inl m) => (s, inl m) | (s, inr a) => f a s end.
Definition catch {A} (x : Eff A) (h : string -> Eff A) : Eff A := fun s =>
  match x s with (s, inl m) => h m s | r => r end.
Definition lift {A} (f : W -> W * A) : Eff A := fun s =>
  let '(w, a) := f (world s) in (mkState w (progressed s), inr a).
Definition look {A} (f : W -> A) : Eff A := lift (fun w => (w, f w)).
Definition act (f : W -> W) : Eff () := lift (fun w => (f w, ())).

#[local] Notation "'let*' x := c 'in' k" := (bind c (fun x => k)) (at level 60, x pattern, c at level 59, right associativity).
#[local] Notation "c ;;* k" := (bind c (fun _ => k)) (at level 60, right associativity).

Definition progress (ph : Phase) (node message : string) : Eff () := fun s =>
  (mkState (world s) (progressed s ++ [mkUpdateProgress ph node message]), inr ()).

(** ** Preflight *)

Definition voters (w : W) : Z := js_length (keep p_votingMember (getPeers (raft w))) + 1.
Definition quorum (n : Z) : Z := n / 2 + 1.

Definition preflight_at (w : W) : PreflightResult :=
  if negb (isLeader (raft w))
  then mkPreflightResult false (Some "Rolling update must be initiated from the leader node") [] [] 0 0
  else
    let allNodes := getAllNodes w in
    let fs := keep (fun n => negb (String.eqb (n_nodeId n) (selfNodeId config))) allNodes in
    let count := voters w in
    let size := quorum count in
    let canLose := count - size in
    let refuse why := mkPreflightResult false (Some why) allNodes fs size count in
    if canLose <? 1 then
      refuse ("Quorum unsafe: " +:+ js_toString count +:+ " voting nodes, quorum=" +:+ js_toString size
              +:+ ", can lose " +:+ js_toString canLose +:+ " (need at least 1)")
    else
      match keep (fun n => negb (bool_decide (n_status n = active))) allNodes with
      | (_ :: _) as unhealthy =>
          refuse ("Unhealthy nodes: " +:+ String.concat ", "
            ((fun n => n_nodeId n +:+ " (" +:+ status_string (n_status n) +:+ ")") <$> unhealthy))
      | [] =>
          match keep (fun n => n_lastSeen n <? now w - heartbeatMs config * 2) fs with
          | (_ :: _) as stale =>
              refuse ("Nodes with stale heartbeats: " +:+ String.concat ", "
                ((fun n => n_nodeId n +:+ " (stale " +:+ js_toString (seconds (now w - n_lastSeen n)) +:+ "s)") <$> stale))
          | [] => mkPreflightResult true None allNodes fs size count
          end
      end.
Definition preflight : Eff PreflightResult := look preflight_at.

(** ** Commands on a node *)

Definition runShellOnNode (node : NodeInfo) (command : string) (timeoutMs : Z) : Eff Shell :=
  let* o := lift (call (address_of node) command timeoutMs) in
  match answer o with
  | (messages, None) =>
      let s := foldl read_response (mkShell "" "" (-1)) messages in
      ret (mkShell (js_trim (sh_stdout s)) (js_trim (sh_stderr s)) (sh_exitCode s))
  | (_, Some m) => throw m
  end.

Definition baseDir : string := dirname (distDir config).
Definition backup_command : string :=
  "cd " +:+ baseDir +:+ " && rm -rf dist.bak && cp -a dist dist.bak".
Definition rsync_command (leaderIp : string) : string :=
  "rsync -az --delete " +:+ leaderIp +:+ ":" +:+ distDir config +:+ "/ " +:+ distDir config +:+ "/".
Definition verify_command : string := "cat " +:+ distDir config +:+ "/version.json".
Definition restart_command : string := "systemctl restart cortex".
Definition commit_command : string := "rm -rf " +:+ baseDir +:+ "/dist.bak".
Definition rollback_command : string := "cd " +:+ baseDir +:+ " && rm -rf dist && mv dist.bak dist".
Definition wall_command (message : string) : string :=
  "wall " +:+ String dq "" +:+ message +:+ String dq "".

Definition restart_message (node : NodeInfo) : string :=
  "🔄 ISSU: " +:+ before_dash (n_nodeId node) +:+ " restarting in " +:+ js_toString (seconds (graceMs config))
  +:+ "s for rolling update. Wrap up any work on this node.".

Definition notifyBeforeRestart (node : NodeInfo) : Eff () :=
  (if hasNotify config then lift (notifyFn (n_nodeId node) (restart_message node)) ;;* ret () else ret ()) ;;*
  catch (runShellOnNode node (wall_command (restart_message node)) 5000 ;;* ret ()) (fun _ => ret ()) ;;*
  progress ph_activate (n_nodeId node)
    ("Waiting " +:+ js_toString (seconds (graceMs config)) +:+ "s grace period before restart...") ;;*
  act (sleep (graceMs config)).

(** ** Rollback *)

Definition rollbackNode (node : NodeInfo) : Eff () :=
  let restart :=
    catch (runShellOnNode node restart_command 10000 ;;* ret ()) (fun _ => ret ()) ;;*
    act (closeConnection (address_of node)) in
  let* restored := catch (runShellOnNode node rollback_command 120000 ;;* ret true)
    (fun _ => act (closeConnection (address_of node)) ;;*
              catch (runShellOnNode node rollback_command 120000 ;;* ret true) (fun _ => ret false)) in
  if restored then restart else ret ().

(** ** Waiting for a node *)

Fixpoint poll_loop (fuel : nat) (node : NodeInfo) (deadline : Z) : Eff bool :=
  match fuel with
  | O => ret false
  | S n =>
      let* t := look now in
      if t <? deadline then
        let* h := lift (healthCheck (address_of node)) in
        match h with
        | Some true => ret true
        | _ => act (sleep 2000) ;;* poll_loop n node deadline
        end
      else ret false
  end.
Definition pollHealthCheck (node : NodeInfo) (timeoutMs : Z) : Eff bool :=
  let* t := look now in
  poll_loop (S (Z.to_nat (timeoutMs / 2000 + 1))) node (t + timeoutMs).

Definition stable_at (node : NodeInfo) (w : W) : bool :=
  match List.find (fun n => String.eqb (n_nodeId n) (n_nodeId node)) (getAllNodes w) with
  | Some current => bool_decide (n_status current = active) && (now w - n_lastSeen current <? heartbeatMs config * 2)
  | None => false
  end.

Fixpoint stabilize_loop (fuel : nat) (node : NodeInfo) (deadline : Z) : Eff bool :=
  match fuel with
  | O => ret false
  | S n =>
      let* t := look now in
      if t <? deadline then
        let* s := look (stable_at node) in
        if (s : bool) then ret true else act (sleep 1000) ;;* stabilize_loop n node deadline
      else ret false
  end.
Definition waitForStabilization (node : NodeInfo) (timeoutMs : Z) : Eff bool :=
  let* t := look now in
  stabilize_loop (S (Z.to_nat (timeoutMs / 1000 + 1))) node (t + timeoutMs).

(** ** One follower *)

Definition failed (rolled : bool) (error : string) : FollowerResult := mkFollowerResult false rolled (Some error).

Definition upgradeFollower (node : NodeInfo) : Eff FollowerResult :=
  let id := n_nodeId node in
  let undo message error :=
    progress ph_rollback id message ;;* rollbackNode node ;;* ret (failed true error) in
  let* nodes := look getAllNodes in
  let leaderIp := match List.find (fun n => String.eqb (n_nodeId n) (selfNodeId config)) nodes with
                  | Some n => n_tailscaleIp n | None => "127.0.0.1" end in
  catch
    (progress ph_add id "Backing up dist/ to dist.bak/" ;;*
     let* backup := runShellOnNode node backup_command 120000 in
     if negb (sh_exitCode backup =? 0) then ret (failed false ("Backup failed: " +:+ sh_stderr backup)) else
     progress ph_add id "Syncing new dist/ from leader" ;;*
     let* rsync := runShellOnNode node (rsync_command leaderIp) 120000 in
     if negb (sh_exitCode rsync =? 0) then
       undo "Rsync failed, restoring backup" ("Rsync failed: " +:+ sh_stderr rsync) else
     progress ph_add id "Verifying version.json" ;;*
     let* verify := runShellOnNode node verify_command 120000 in
     if negb (sh_exitCode verify =? 0) then
       undo "Version verify failed, restoring backup" ("Version verify failed: " +:+ sh_stderr verify) else
     notifyBeforeRestart node ;;*
     progress ph_activate id "Restarting cortex service" ;;*
     catch (runShellOnNode node restart_command 10000 ;;* ret ())
       (fun _ => progress ph_activate id "Connection dropped (expected during restart)") ;;*
     act (closeConnection (address_of node)) ;;*
     progress ph_activate id "Polling health check..." ;;*
     let* healthy := pollHealthCheck node 60000 in
     if negb healthy then
       undo "Health check timed out, rolling back" "Health check timed out after 60s" else
     progress ph_stabilize id "Waiting for stabilization (membership + heartbeats)..." ;;*
     let* stable := waitForStabilization node (heartbeatMs config * 4) in
     if negb stable then
       undo "Stabilization failed, rolling back" "Node did not stabilize after restart" else
     progress ph_commit id "Removing dist.bak/ (commit)" ;;*
     runShellOnNode node commit_command 120000 ;;*
     progress ph_complete id "Upgrade committed successfully" ;;*
     ret (mkFollowerResult true false None))
    (fun m =>
       progress ph_rollback id ("Unexpected error: " +:+ m) ;;*
       catch (rollbackNode node) (fun _ => ret ()) ;;*
       ret (failed true m)).

(** ** The whole update *)

Definition upgradeLeader : Eff () :=
  lift backupDist ;;*
  let* nodes := look getAllNodes in
  (match List.find (fun n => String.eqb (n_nodeId n) (selfNodeId config)) nodes with
   | Some self => notifyBeforeRestart self
   | None => ret ()
   end) ;;*
  progress ph_leader_restart (selfNodeId config) "Executing systemctl restart cortex" ;;*
  act restartSelf.

Definition squelch (minutes : Z) (after : Eff ()) : Eff () :=
  if hasSquelch config then let* done := lift (squelchFn minutes) in if (done : bool) then after else ret ()
  else ret ().

(** The loop over the followers. *)
Fixpoint upgrade_loop (total : Z) (fs : list NodeInfo) (updated rolled : list string) : Eff UpdateResult :=
  match fs with
  | [] =>
      progress ph_leader_restart (selfNodeId config) "All followers updated. Restarting leader..." ;;*
      upgradeLeader ;;*
      ret (mkUpdateResult true updated rolled None)
  | f :: fs' =>
      progress ph_add (n_nodeId f)
        ("Starting upgrade (" +:+ js_toString (js_length updated + 1) +:+ "/" +:+ js_toString total +:+ ")") ;;*
      let* result := upgradeFollower f in
      let rolled := if rolledBack result then rolled ++ [n_nodeId f] else rolled in
      let error := default "undefined" (fr_error result) in
      if negb (fr_success result) then
        progress ph_aborted (selfNodeId config)
          ("Aborting rolling update: " +:+ n_nodeId f +:+ " failed — " +:+ error) ;;*
        squelch 0 (ret ()) ;;*
        ret (mkUpdateResult false updated rolled (Some ("Failed on " +:+ n_nodeId f +:+ ": " +:+ error)))
      else upgrade_loop total fs' (updated ++ [n_nodeId f]) rolled
  end.

Definition execute_update (dryRun : bool) : Eff UpdateResult :=
  progress ph_preflight (selfNodeId config) "Running pre-flight checks" ;;*
  let* pf := preflight in
  if negb (ok pf) then
    progress ph_aborted (selfNodeId config) ("Pre-flight failed: " +:+ default "undefined" (reason pf)) ;;*
    ret (mkUpdateResult false [] [] (reason pf))
  else
    progress ph_preflight (selfNodeId config)
      ("Pre-flight passed: " +:+ js_toString (votingCount pf) +:+ " voting nodes, quorum=" +:+ js_toString (quorumSize pf)
       +:+ ", " +:+ js_toString (js_length (followers pf)) +:+ " followers to update") ;;*
    if dryRun then ret (mkUpdateResult true [] [] None) else
    let minutes := Z.max 10 ((js_length (followers pf) + 1) * 3) in
    squelch minutes (progress ph_preflight (selfNodeId config)
      ("Health alerts squelched for " +:+ js_toString minutes +:+ " minutes")) ;;*
    upgrade_loop (js_length (followers pf)) (followers pf) [] [].

End updater.
