(* ===== verification/UpdaterProps.v ===== *)
(** * Theorems about rolling updates *)

From S2P Require Import Prelude JsMap JsString JsNumber Json Grpc Raft Membership TaskExecutor Updater.
From Stdlib Require Import Ascii.

(** ** Preflight *)

Section preflight.
Context {D W : Type} `{!UpdaterEnv D W} (config : UpdaterConfig).

Lemma keep_nil {A} (f : A -> bool) l : keep f l = [] <-> forall x, x ∈ l -> f x = false.
Proof.
  split.
  - intros H x Hx. destruct (f x) eqn:E; [|done]. assert (Hk : x ∈ keep f l) by by apply elem_of_keep.
    rewrite H in Hk. by apply elem_of_nil in Hk.
  - intros H. destruct (keep f l) as [|x k] eqn:E; [done|].
    assert (Hk : x ∈ keep f l) by (rewrite E; by left). apply elem_of_keep in Hk as [Hf Hx].
    by rewrite H in Hf.
Qed.

Lemma quorum_slack n : 0 < n -> n - quorum n >= 1 <-> 3 <= n.
Proof. unfold quorum. intros H. assert (H2 := Z.div_mod n 2 ltac:(lia)). assert (H3 := Z.mod_pos_bound n 2 ltac:(lia)). lia. Qed.

(** The pre-flight check lets an update start exactly when it is safe to lose a
    node.  It passes exactly if the node is the leader, at least three nodes vote,
    so that a quorum is left without any one of them, every member is active, and
    every follower was heard of within two heartbeat intervals; the followers it
    returns are all members but the node itself. *)
Theorem preflight_exact (w : W) :
  let r := preflight_at config w in
  (ok r = true <->
    isLeader (raft w) = true /\ 3 <= voters w /\
    (forall n, n ∈ getAllNodes w -> n_status n = active) /\
    (forall n, n ∈ getAllNodes w -> n_nodeId n <> selfNodeId config -> now w - heartbeatMs config * 2 <= n_lastSeen n)) /\
  (ok r = true -> quorum (voters w) <= voters w - 1 /\
    forall n, n ∈ followers r <-> n ∈ getAllNodes w /\ n_nodeId n <> selfNodeId config).
Proof.
  assert (Hpos : 0 < voters w) by (unfold voters, js_length; lia).
  assert (Hslack := quorum_slack _ Hpos). cbn zeta. unfold preflight_at.
  set (fs := keep _ (getAllNodes w)).
  assert (Hfs : forall n, n ∈ fs <-> n ∈ getAllNodes w /\ n_nodeId n <> selfNodeId config).
  { intros n. unfold fs. rewrite elem_of_keep, negb_true_iff, String.eqb_neq. tauto. }
  destruct (isLeader (raft w)) eqn:El; cbn [negb]; [|cbn; split; [|done]; by split; [|intros []]].
  destruct (voters w - quorum (voters w) <? 1) eqn:Eq.
  { apply Z.ltb_lt in Eq. cbn. split; [|done]. split; [done|]. lia. }
  apply Z.ltb_ge in Eq.
  destruct (keep (fun n => negb (bool_decide (n_status n = active))) _) as [|u us] eqn:Eu.
  2: { cbn. split; [|done]. split; [done|]. intros (_ & _ & H & _).
       assert (Hu : u ∈ u :: us) by by left. rewrite <- Eu in Hu. apply elem_of_keep in Hu as [Hu Hi].
       apply negb_true_iff, bool_decide_eq_false in Hu. by destruct Hu; apply H. }
  destruct (keep (fun n => n_lastSeen n <? _) fs) as [|u us] eqn:Es.
  2: { cbn. split; [|done]. split; [done|]. intros (_ & _ & _ & H).
       assert (Hu : u ∈ u :: us) by by left. rewrite <- Es in Hu. apply elem_of_keep in Hu as [Hu%Z.ltb_lt Hi].
       apply Hfs in Hi as [Hi Hne]. specialize (H u Hi Hne). lia. }
  cbn [ok followers]. split; [|intros _; split; [lia|exact Hfs]].
  split; [|done]. intros _. split; [done|]. split; [lia|]. split.
  - intros n Hn. destruct (proj1 (keep_nil _ _) Eu n Hn). apply (proj1 (keep_nil _ _)) with (x := n) in Eu; [|done].
    by apply negb_false_iff, bool_decide_eq_true in Eu.
  - intros n Hn Hne. apply (proj1 (keep_nil _ _)) with (x := n) in Es; [|by apply Hfs].
    apply Z.ltb_ge in Es. lia.
Qed.

End preflight.

(** ** Programs that do not throw, and whom they report on *)

Section total.
Context {D W : Type} `{!UpdaterEnv D W}.

(** [x] ends with a value, and the progress it reports is about [ids]. *)
Definition reports {A} (ids : list string) (x : Eff (W := W) A) : Prop :=
  forall s, exists a new, (x s).2 = inr a /\ progressed (x s).1 = progressed s ++ new /\
    Forall (fun u => u_nodeId u ∈ ids) new.

(** The same without the promise of a value. *)
Definition reports_maybe {A} (ids : list string) (x : Eff (W := W) A) : Prop :=
  forall s, exists new, progressed (x s).1 = progressed s ++ new /\ Forall (fun u => u_nodeId u ∈ ids) new.

Lemma reports_maybe_of {A} ids (x : Eff A) : reports ids x -> reports_maybe ids x.
Proof. intros H s. destruct (H s) as (a & new & _ & ? & ?). by exists new. Qed.

Lemma maybe_bind {A B} ids (x : Eff A) (f : A -> Eff B) :
  reports_maybe ids x -> (forall a, reports_maybe ids (f a)) -> reports_maybe ids (bind x f).
Proof.
  intros Hx Hf s. unfold bind. destruct (Hx s) as (n1 & E1 & F1). destruct (x s) as [s1 [m|a]]; cbn in *.
  - by exists n1.
  - destruct (Hf a s1) as (n2 & E2 & F2). exists (n1 ++ n2). rewrite E2, E1, app_assoc.
    split; [done|]. by apply Forall_app.
Qed.

Lemma maybe_catch {A} ids (x : Eff A) h :
  reports_maybe ids x -> (forall m, reports_maybe ids (h m)) -> reports_maybe ids (catch x h).
Proof.
  intros Hx Hh s. unfold catch. destruct (Hx s) as (n1 & E1 & F1). destruct (x s) as [s1 [m|a]]; cbn in *.
  - destruct (Hh m s1) as (n2 & E2 & F2). exists (n1 ++ n2). rewrite E2, E1, app_assoc.
    split; [done|]. by apply Forall_app.
  - by exists n1.
Qed.

Lemma reports_bind {A B} ids (x : Eff A) (f : A -> Eff B) :
  reports ids x -> (forall a, reports ids (f a)) -> reports ids (bind x f).
Proof.
  intros Hx Hf s. unfold bind. destruct (Hx s) as (a & n1 & E & E1 & F1). destruct (x s) as [s1 r]; cbn in *. subst r.
  destruct (Hf a s1) as (b & n2 & Eb & E2 & F2). exists b, (n1 ++ n2). split; [done|]. rewrite E2, E1, app_assoc.
  split; [done|]. by apply Forall_app.
Qed.

Lemma reports_catch {A} ids (x : Eff A) h :
  reports_maybe ids x -> (forall m, reports ids (h m)) -> reports ids (catch x h).
Proof.
  intros Hx Hh s. unfold catch. destruct (Hx s) as (n1 & E1 & F1). destruct (x s) as [s1 [m|a]]; cbn in *.
  - destruct (Hh m s1) as (b & n2 & Eb & E2 & F2). exists b, (n1 ++ n2). split; [done|]. rewrite E2, E1, app_assoc.
    split; [done|]. by apply Forall_app.
  - by exists a, n1.
Qed.

Lemma reports_lift {A} ids (f : W -> W * A) : reports ids (lift f).
Proof. intros s. unfold lift. destruct (f (world s)) as [w a]. exists a, []. cbn. by rewrite app_nil_r. Qed.
Lemma reports_ret {A} ids (a : A) : reports ids (ret a).
Proof. intros s. exists a, []. cbn. by rewrite app_nil_r. Qed.
Lemma maybe_throw {A} ids m : reports_maybe ids (throw (A := A) m).
Proof. intros s. exists []. cbn. by rewrite app_nil_r. Qed.
Lemma reports_progress ids ph id m : id ∈ ids -> reports ids (progress ph id m).
Proof. intros H s. exists (), [mkUpdateProgress ph id m]. split; [done|]. split; [done|]. by repeat constructor. Qed.

Lemma maybe_shell ids node cmd t : reports_maybe ids (runShellOnNode node cmd t).
Proof.
  unfold runShellOnNode. apply maybe_bind; [apply reports_maybe_of, reports_lift|]. intros o.
  destruct (answer o) as [msgs [m|]]; [apply maybe_throw|apply reports_maybe_of, reports_ret].
Qed.

End total.

(** Walk over a program; what is left are the node ids and the named parts. *)
Ltac reports_step :=
  lazymatch goal with
  | |- reports _ (let _ := _ in _) => cbv zeta
  | |- reports _ (bind _ _) => apply reports_bind; [|intros ?]
  | |- reports _ (ret _) => apply reports_ret
  | |- reports _ (lift _) => apply reports_lift
  | |- reports _ (look _) => apply reports_lift
  | |- reports _ (act _) => apply reports_lift
  | |- reports _ (progress _ _ _) => apply reports_progress
  | |- reports _ (catch _ _) => apply reports_catch; [|intros ?]
  | |- reports _ (if ?b then _ else _) => destruct b
  | |- reports _ (match ?b with _ => _ end) => destruct b eqn:?
  | |- reports_maybe _ (let _ := _ in _) => cbv zeta
  | |- reports_maybe _ (bind _ _) => apply maybe_bind; [|intros ?]
  | |- reports_maybe _ (runShellOnNode _ _ _) => apply maybe_shell
  | |- reports_maybe _ (throw _) => apply maybe_throw
  | |- reports_maybe _ (if ?b then _ else _) => destruct b
  | |- reports_maybe _ (match ?b with _ => _ end) => destruct b
  | |- reports_maybe _ (catch _ _) => apply maybe_catch; [|intros ?]
  | |- reports_maybe _ _ => apply reports_maybe_of
  end.
Ltac walk := repeat reports_step; eauto with cortex.

Section rollout.
Context {D W : Type} `{!UpdaterEnv D W} (config : UpdaterConfig).

Lemma reports_notify ids node : n_nodeId node ∈ ids -> reports ids (notifyBeforeRestart config node).
Proof. intros H. unfold notifyBeforeRestart. walk. Qed.

Lemma reports_rollback ids node : reports ids (rollbackNode config node).
Proof. unfold rollbackNode. walk. Qed.

Lemma reports_poll ids n node d : reports ids (poll_loop n node d).
Proof. induction n as [|n IH]; cbn [poll_loop]; walk. Qed.

Lemma reports_stabilize ids n node d : reports ids (stabilize_loop config n node d).
Proof. induction n as [|n IH]; cbn [stabilize_loop]; walk. Qed.

Lemma reports_upgrade ids node : n_nodeId node ∈ ids -> reports ids (upgradeFollower config node).
Proof.
  intros H. unfold upgradeFollower, pollHealthCheck, waitForStabilization.
  walk; eauto using reports_rollback, reports_poll, reports_stabilize, reports_notify.
Qed.

Lemma reports_leader ids : selfNodeId config ∈ ids -> reports ids (upgradeLeader config).
Proof.
  intros H. unfold upgradeLeader. walk. apply reports_notify.
  match goal with E : List.find _ _ = Some _ |- _ => apply List.find_some in E as [_ E%String.eqb_eq] end.
  congruence.
Qed.

Lemma reports_squelch ids m after : reports ids after -> reports ids (squelch config m after).
Proof. intros H. unfold squelch. walk. Qed.

(** Every value that [x] can end with satisfies [Q]. *)
Definition yields {A} (Q : A -> Prop) (x : Eff (W := W) A) : Prop := forall s a, (x s).2 = inr a -> Q a.

Lemma yields_bind {A B} Q (x : Eff A) (f : A -> Eff B) : (forall a, yields Q (f a)) -> yields Q (bind x f).
Proof. intros Hf s b. unfold bind. destruct (x s) as [s1 [m|a]]; [done|]. apply Hf. Qed.
Lemma yields_catch {A} Q (x : Eff A) h : yields Q x -> (forall m, yields Q (h m)) -> yields Q (catch x h).
Proof.
  intros Hx Hh s b. unfold catch. specialize (Hx s). destruct (x s) as [s1 [m|a]]; [apply Hh|]. intros [= <-]. by apply Hx.
Qed.
Lemma yields_ret {A} (Q : A -> Prop) a : Q a -> yields Q (ret a).
Proof. intros H s b. unfold ret. by intros [= <-]. Qed.

Lemma upgrade_success node :
  yields (fun r => fr_success r = true -> rolledBack r = false) (upgradeFollower config node).
Proof.
  unfold upgradeFollower.
  repeat first [apply yields_bind; intros ? | apply yields_catch; [|intros ?] | apply yields_ret; cbn; done | case_match].
Qed.

(** What the loop returns from a state in which [updated] were updated. *)
Record rollout (fs : list NodeInfo) (updated : list string) (r : UpdateResult) (done rest : list NodeInfo) : Prop := {
  ro_split : fs = done ++ rest;
  ro_updated : nodesUpdated r = updated ++ (n_nodeId <$> done);
  ro_complete : success r = true -> rest = [] /\ nodesRolledBack r = [] /\ u_error r = None;
  ro_failed : success r = false -> exists f rest' e, rest = f :: rest' /\
    nodesRolledBack r ∈ [[]; [n_nodeId f]] /\ u_error r = Some ("Failed on " +:+ n_nodeId f +:+ ": " +:+ e)
}.

Lemma upgrade_loop_rollout total fs updated s :
  exists r new done rest, (upgrade_loop config total fs updated [] s).2 = inr r /\
    progressed (upgrade_loop config total fs updated [] s).1 = progressed s ++ new /\
    Forall (fun u => u_nodeId u ∈ selfNodeId config :: (n_nodeId <$> done ++ take 1 rest)) new /\
    rollout fs updated r done rest.
Proof.
  revert updated s. induction fs as [|f fs IH]; intros updated s.
  - exists (mkUpdateResult true updated [] None).
    destruct ((ltac:(cbn [upgrade_loop]; walk; first [apply reports_leader; by left|by left]) :
      reports [selfNodeId config] (upgrade_loop config total [] updated [])) s) as (r & new & E & En & F).
    exists new, [], []. split; [|split; [done|split; [done|]]].
    + cbn [upgrade_loop] in *. unfold bind, progress, ret in *. destruct (upgradeLeader config _) as [s2 [m|u]]; cbn in *; [done|done].
    + split; cbn; try done. by rewrite app_nil_r.
  - remember (upgrade_loop config total (f :: fs) updated [] s) as res eqn:Eres. cbn [upgrade_loop] in Eres.
    unfold bind at 1, progress at 1 in Eres. set (s1 := mkState _ _) in Eres.
    destruct (reports_upgrade [n_nodeId f] f ltac:(by left) s1) as (fr & new1 & Ef & En1 & F1).
    assert (Hfr := upgrade_success f s1 fr Ef).
    unfold bind at 1 in Eres. destruct (upgradeFollower config f s1) as [s2 x]. cbn in Ef, En1. subst x.
    destruct (fr_success fr) eqn:Es; cbn [negb] in Eres.
    + rewrite (Hfr Es) in Eres. cbv zeta iota in Eres. subst res.
      destruct (IH (updated ++ [n_nodeId f]) s2) as (r & new & done & rest & Er & En & F & [H1 H2 H3 H4]).
      exists r, (mkUpdateProgress ph_add (n_nodeId f)
        ("Starting upgrade (" +:+ js_toString (js_length updated + 1) +:+ "/" +:+ js_toString total +:+ ")") :: new1 ++ new),
        (f :: done), rest.
      split; [done|]. split; [by rewrite En, En1, <- !app_assoc|]. split.
      * constructor; [by right; left|]. apply Forall_app. split.
        -- eapply Forall_impl; [exact F1|]. cbn. intros u ->%list_elem_of_singleton. by right; left.
        -- eapply Forall_impl; [exact F|]. cbn. intros u. rewrite !elem_of_cons. tauto.
      * split; [by rewrite H1|by rewrite H2, <- app_assoc|done|done].
    + set (rolled := if rolledBack fr then _ else _) in Eres. cbv zeta in Eres.
      set (r := mkUpdateResult false updated rolled
        (Some ("Failed on " +:+ n_nodeId f +:+ ": " +:+ default "undefined" (fr_error fr)))).
      set (abort := bind (progress ph_aborted (selfNodeId config)
             ("Aborting rolling update: " +:+ n_nodeId f +:+ " failed — " +:+ default "undefined" (fr_error fr)))
             (fun _ => bind (squelch config 0 (ret ())) (fun _ => ret r))).
      assert (Habort : reports [selfNodeId config] abort) by (unfold abort; walk; first [apply reports_squelch; walk|by left]).
      assert (res = abort s2) as -> by exact Eres.
      destruct (Habort s2) as (r' & new2 & Er & En2 & F2).
      assert (r' = r) as ->.
      { revert Er. unfold abort, bind, progress, ret. cbn. destruct (squelch config 0 _ _) as [s3 [m|u]]; cbn; by intros [= <-]. }
      eexists r, (mkUpdateProgress ph_add (n_nodeId f) _ :: new1 ++ new2), [], (f :: fs).
      split; [exact Er|]. split; [rewrite En2, En1, <- !app_assoc; reflexivity|]. split.
      * cbn. constructor; [by right; left|]. apply Forall_app. split.
        -- eapply Forall_impl; [exact F1|]. cbn. intros u ->%list_elem_of_singleton. by right; left.
        -- eapply Forall_impl; [exact F2|]. cbn. intros u ->%list_elem_of_singleton. by left.
      * split; cbn; try done; [by rewrite app_nil_r|]. intros _. exists f, fs, (default "undefined" (fr_error fr)).
        split; [done|]. split; [|done]. unfold rolled. destruct (rolledBack fr); set_solver.
Qed.

(** An update always returns, and what it reports.  Without preflight or in a dry run it
    touches nothing.  Otherwise its progress is about the leader, the followers that were
    updated and the first that failed, which alone may be reported as rolled back.
    UpdaterTrace.v says what it does. *)
Theorem update_reports dryRun s :
  let pf := preflight_at config (world s) in
  exists r new, (execute_update config dryRun s).2 = inr r /\
    progressed (execute_update config dryRun s).1 = progressed s ++ new /\
    if negb (ok pf) || dryRun
    then r = mkUpdateResult (ok pf) [] [] (if ok pf then None else reason pf) /\ world (execute_update config dryRun s).1 = world s
    else exists done rest, rollout (followers pf) [] r done rest /\
      Forall (fun u => u_nodeId u ∈ selfNodeId config :: (n_nodeId <$> done ++ take 1 rest)) new.
Proof.
  cbn zeta. remember (execute_update config dryRun s) as res eqn:Eres. unfold execute_update in Eres.
  unfold bind at 1 2, progress at 1, preflight, look, lift in Eres. cbn [world progressed] in Eres.
  set (pf := preflight_at config (world s)) in *.
  destruct (ok pf) eqn:Eok; cbn [negb orb] in *.
  2: { subst res. unfold bind, progress, ret. cbn. eexists _, [_; _]. split; [reflexivity|].
       split; [by rewrite <- app_assoc|]. done. }
  unfold bind at 1, progress at 1 in Eres. cbn [world progressed] in Eres.
  destruct dryRun.
  { subst res. cbn. eexists _, [_; _]. split; [reflexivity|]. split; [by rewrite <- app_assoc|]. done. }
  set (s1 := mkState _ _) in Eres.
  assert (Hsq : reports [selfNodeId config] (squelch config (Z.max 10 ((js_length (followers pf) + 1) * 3))
    (progress ph_preflight (selfNodeId config) ("Health alerts squelched for " +:+
       js_toString (Z.max 10 ((js_length (followers pf) + 1) * 3)) +:+ " minutes")))).
  { apply reports_squelch. walk. by left. }
  destruct (Hsq s1) as (u & n1 & E & En & F). unfold bind at 1 in Eres. destruct (squelch config _ _ s1) as [s2 x]. cbn in E, En. subst x res.
  destruct (upgrade_loop_rollout (js_length (followers pf)) (followers pf) [] s2) as (r & n2 & done & rest & Er & En2 & F2 & Hr).
  eexists r, (_ :: _ :: n1 ++ n2). split; [exact Er|]. split.
  { rewrite En2, En. cbn. rewrite <- !app_assoc. reflexivity. }
  exists done, rest. split; [done|]. constructor; [by left|]. constructor; [by left|]. apply Forall_app. split; [|done].
  eapply Forall_impl; [exact F|]. cbn. intros v ->%list_elem_of_singleton. by left.
Qed.
End rollout.

(** ** The polling loops end by themselves *)

(** A sleep takes its time, and the clock does not run backwards. *)
Class ClockLaws `{!UpdaterEnv D W} : Prop := {
  sleep_now ms w : now w + ms <= now (sleep ms w);
  health_now a w : now w <= now (healthCheck a w).1
}.

Lemma div_step a b k : 0 < k -> a + k <= b -> a / k <= b / k - 1.
Proof.
  intros Hk H. assert (E := Z.div_add b (-1) k ltac:(lia)).
  assert (a / k <= (b + -1 * k) / k) by (apply Z.div_le_mono; lia). lia.
Qed.

Section polling.
Context {D W : Type} `{!UpdaterEnv D W} `{!ClockLaws} (config : UpdaterConfig).

Lemma poll_fuel node deadline n m s :
  (Z.to_nat ((deadline - now (world s)) / 2000 + 1) < n)%nat -> (n <= m)%nat ->
  poll_loop n node deadline s = poll_loop m node deadline s.
Proof.
  revert m s. induction n as [|n IH]; intros m s Hn Hm; [lia|]. destruct m as [|m]; [lia|].
  cbn [poll_loop]. unfold look, lift, act, bind. cbn [world progressed].
  destruct (now (world s) <? deadline) eqn:Et; [|done]. apply Z.ltb_lt in Et.
  assert (Hh := health_now (address_of node) (world s)).
  cbn [world progressed]. destruct (healthCheck (address_of node) (world s)) as [w h]. cbn in Hh.
  assert (Hs := sleep_now 2000 w).
  assert (Hlt : (Z.to_nat ((deadline - now (sleep 2000 w)) / 2000 + 1) < n)%nat).
  { assert ((deadline - now (sleep 2000 w)) / 2000 <= (deadline - now (world s)) / 2000 - 1) by (apply div_step; lia).
    assert (0 <= (deadline - now (world s)) / 2000) by (apply Z.div_pos; lia). lia. }
  destruct h as [[]|]; [reflexivity| |]; apply IH; cbn; (done || lia).
Qed.

Lemma stabilize_fuel node deadline n m s :
  (Z.to_nat ((deadline - now (world s)) / 1000 + 1) < n)%nat -> (n <= m)%nat ->
  stabilize_loop config n node deadline s = stabilize_loop config m node deadline s.
Proof.
  revert m s. induction n as [|n IH]; intros m s Hn Hm; [lia|]. destruct m as [|m]; [lia|].
  cbn [stabilize_loop]. unfold look, lift, act, bind. cbn [world progressed].
  destruct (now (world s) <? deadline) eqn:Et; [|done]. apply Z.ltb_lt in Et.
  cbn [world progressed]. destruct (stable_at config node (world s)); [reflexivity|]. assert (Hs := sleep_now 1000 (world s)).
  apply IH; cbn; [|lia].
  assert ((deadline - now (sleep 1000 (world s))) / 1000 <= (deadline - now (world s)) / 1000 - 1) by (apply div_step; lia).
  assert (0 <= (deadline - now (world s)) / 1000) by (apply Z.div_pos; lia). lia.
Qed.

(** The number of turns given to the two polling loops is enough: with any larger
    number they return the same, so they end at the deadline or when the node is
    well, and not for want of turns. *)
Theorem polling_ends node timeoutMs n s : 0 <= timeoutMs ->
  (S (Z.to_nat (timeoutMs / 2000 + 1)) <= n)%nat -> (S (Z.to_nat (timeoutMs / 1000 + 1)) <= n)%nat ->
  pollHealthCheck node timeoutMs s = poll_loop n node (now (world s) + timeoutMs) s /\
  waitForStabilization config node timeoutMs s = stabilize_loop config n node (now (world s) + timeoutMs) s.
Proof.
  intros Ht H1 H2. destruct s as [w l]. split.
  - unfold pollHealthCheck, bind, look, lift. cbn [world progressed].
    apply poll_fuel; cbn [world]; [|done]. replace (now w + timeoutMs - now w) with timeoutMs by lia. lia.
  - unfold waitForStabilization, bind, look, lift. cbn [world progressed].
    apply stabilize_fuel; cbn [world]; [|done]. replace (now w + timeoutMs - now w) with timeoutMs by lia. lia.
Qed.
End polling.
