(* ===== verification/UpdaterTrace.v ===== *)
(** * What a rolling update does, command by command

    The commands an update sends are recorded: [traced] adds to any environment of the
    updater the list of its operations, with what became of each.  What the commands do
    on a disk is not assumed.  The theorems say which command is sent to which node after
    which answers; four executions in a concrete world, with disks, show what the order
    is worth when commands fail or their answers are lost. *)

From S2P Require Import Prelude JsMap JsString JsNumber Json Grpc Raft Membership TaskExecutor Updater UpdaterProps.

(** ** Recording *)

Inductive Op :=
  | op_call (address command : string) (o : Outcome)
  | op_health (address : string) (healthy : option bool)
  | op_close (address : string)
  | op_notify (node : string)
  | op_squelch (minutes : Z)
  | op_backup
  | op_restart.

#[export] Instance traced {D W} (base : UpdaterEnv D W) : UpdaterEnv D (W * list Op) | 100 := {|
  now w := now w.1;
  sleep ms w := (sleep ms w.1, w.2);
  raft w := raft w.1;
  getAllNodes w := getAllNodes w.1;
  call a c t w := let '(w1, o) := call a c t w.1 in ((w1, w.2 ++ [op_call a c o]), o);
  healthCheck a w := let '(w1, h) := healthCheck a w.1 in ((w1, w.2 ++ [op_health a h]), h);
  closeConnection a w := (closeConnection a w.1, w.2 ++ [op_close a]);
  notifyFn n m w := let '(w1, b) := notifyFn n m w.1 in ((w1, w.2 ++ [op_notify n]), b);
  squelchFn m w := let '(w1, b) := squelchFn m w.1 in ((w1, w.2 ++ [op_squelch m]), b);
  backupDist w := let '(w1, b) := backupDist w.1 in ((w1, w.2 ++ [op_backup]), b);
  restartSelf w := (restartSelf w.1, w.2 ++ [op_restart])
|}.

(** The exit code the updater reads; a broken call is an exception. *)
Definition code (o : Outcome) : option Z :=
  match o with refused _ => Some 0 | ran c => Some c | broken _ => None end.

(** The commands, with the address of the agent. *)
Definition commands (ops : list Op) : list (string * string * Outcome) :=
  omap (fun op => match op with op_call a c o => Some (a, c, o) | _ => None end) ops.
Lemma commands_app l1 l2 : commands (l1 ++ l2) = commands l1 ++ commands l2.
Proof. apply omap_app. Qed.

Section trace.
Context {D W : Type} `{base : UpdaterEnv D W} (config : UpdaterConfig).
Notation TW := (W * list Op)%type.
Notation State := (State (W := TW)).
Notation Eff := (Eff (W := TW)).
Implicit Types (s : State).

Definition trace s : list Op := (world s).2.

(** ** A calculus of traces

    [wp x Q pre]: when [pre] was recorded so far, [x] ends with a result and a record that
    satisfy [Q]. *)
Definition wp {A} (x : Eff A) (Q : string + A -> list Op -> Prop) (pre : list Op) : Prop :=
  forall s l, trace s = l ++ pre -> exists ops, trace (x s).1 = l ++ ops /\ Q (x s).2 ops.

Lemma wp_ret {A} (a : A) Q pre : Q (inr a) pre -> wp (ret a) Q pre.
Proof. intros H s l E. by exists pre. Qed.
Lemma wp_progress ph id m Q pre : Q (inr ()) pre -> wp (progress ph id m) Q pre.
Proof. intros H s l E. by exists pre. Qed.
Lemma wp_bind {A B} (x : Eff A) (f : A -> Eff B) Q pre :
  wp x (fun r ops => match r with inl m => Q (inl m) ops | inr a => wp (f a) Q ops end) pre -> wp (bind x f) Q pre.
Proof.
  intros H s l E. destruct (H s l E) as (ops & E1 & H1). unfold bind. destruct (x s) as [s1 [m|a]]; cbn in *; [by exists ops|].
  by apply H1.
Qed.
Lemma wp_catch {A} (x : Eff A) h Q pre :
  wp x (fun r ops => match r with inl m => wp (h m) Q ops | inr a => Q (inr a) ops end) pre -> wp (catch x h) Q pre.
Proof.
  intros H s l E. destruct (H s l E) as (ops & E1 & H1). unfold catch. destruct (x s) as [s1 [m|a]]; cbn in *; [|by exists ops].
  by apply H1.
Qed.
Lemma wp_look {A} (f : TW -> A) Q pre : (forall a, Q (inr a) pre) -> wp (look f) Q pre.
Proof. intros H s l E. exists pre. split; [done|apply H]. Qed.
Lemma wp_sleep ms Q pre : Q (inr ()) pre -> wp (act (sleep ms)) Q pre.
Proof. intros H s l E. by exists pre. Qed.
Lemma wp_mono {A} (x : Eff A) (Q Q' : string + A -> list Op -> Prop) pre :
  wp x Q pre -> (forall r ops, Q r ops -> Q' r ops) -> wp x Q' pre.
Proof. intros H HQ s l E. destruct (H s l E) as (ops & ? & ?). exists ops. auto. Qed.

Ltac recorded :=
  let w := fresh "w" in let l0 := fresh "l0" in let E := fresh "E" in
  intros [[w l0] ?] l E; unfold trace, lift, act in *; cbn in *; subst l0;
  repeat match goal with
         | |- context [match ?c with (_, _) => _ end] =>
             lazymatch c with context [match _ with _ => _ end] => fail | _ => destruct c end
         end; cbn;
  eexists; split; [symmetry; apply app_assoc|auto].
Lemma wp_close a Q pre : Q (inr ()) (pre ++ [op_close a]) -> wp (act (closeConnection a)) Q pre.
Proof. intros H. recorded. Qed.
Lemma wp_notify n m Q pre : (forall b, Q (inr b) (pre ++ [op_notify n])) -> wp (lift (notifyFn n m)) Q pre.
Proof. intros H. recorded. Qed.
Lemma wp_squelchFn n Q pre : (forall b, Q (inr b) (pre ++ [op_squelch n])) -> wp (lift (squelchFn n)) Q pre.
Proof. intros H. recorded. Qed.
Lemma wp_backupDist Q pre : (forall b, Q (inr b) (pre ++ [op_backup])) -> wp (lift backupDist) Q pre.
Proof. intros H. recorded. Qed.
Lemma wp_restartSelf Q pre : Q (inr ()) (pre ++ [op_restart]) -> wp (act restartSelf) Q pre.
Proof. intros H. recorded. Qed.
Lemma wp_health a Q pre : (forall h, Q (inr h) (pre ++ [op_health a h])) -> wp (lift (healthCheck a)) Q pre.
Proof. intros H. recorded. Qed.

(** A command: its exit code, or an exception. *)
Lemma wp_shell node cmd t Q pre :
  (forall o sh, code o = Some (sh_exitCode sh) -> Q (inr sh) (pre ++ [op_call (address_of node) cmd o])) ->
  (forall o m, code o = None -> Q (inl m) (pre ++ [op_call (address_of node) cmd o])) ->
  wp (runShellOnNode node cmd t) Q pre.
Proof.
  intros H1 H2. unfold runShellOnNode. apply wp_bind. intros [[w l0] ps] l E. unfold trace, lift in *. cbn in *. subst l0.
  destruct (call (address_of node) cmd t w) as [w1 o]. cbn. exists (pre ++ [op_call (address_of node) cmd o]). split; [by rewrite app_assoc|].
  destruct o as [m|c|m]; cbn; [by apply wp_ret, H1|by apply wp_ret, H1|]. intros s2 l2 E2. eexists. split; [exact E2|]. by apply H2.
Qed.

(** ** One follower *)

(** The commands of an update, in order. *)
Definition plan (node : NodeInfo) (leaderIp : string) : list string :=
  [backup_command config; rsync_command config leaderIp; verify_command config;
   wall_command (restart_message config node); restart_command; commit_command config].

(** The backup was put back: at the first attempt or, when that could not be sent, at the
    second, and then the service was restarted; or neither attempt could be sent. *)
Inductive backup_restored : list (string * Outcome) -> Prop :=
  | at_once o r : code o <> None -> backup_restored [(rollback_command config, o); (restart_command, r)]
  | second_try o o' r : code o = None -> code o' <> None ->
      backup_restored [(rollback_command config, o); (rollback_command config, o'); (restart_command, r)]
  | given_up o o' : code o = None -> code o' = None -> backup_restored [(rollback_command config, o); (rollback_command config, o')].

(** What the commands of an update of [node] with the result [r] were.  Every one goes to
    the node; they follow the plan, each of the first three being followed by another only
    when it ended with 0; the backup is removed only after the node answered that it is
    healthy.  A success went through the whole plan.  A failure that is not reported as
    rolled back sent the backup alone, which ended with an error; after any other failure
    the backup is put back. *)
Definition follower_ran (node : NodeInfo) (leaderIp : string) (r : FollowerResult) (ops : list Op) : Prop :=
  exists done undo,
    commands ops = (fun co => (address_of node, co.1, co.2)) <$> done ++ undo /\
    done.*1 `prefix_of` plan node leaderIp /\
    (forall i x y, (i < 3)%nat -> done !! i = Some x -> done !! S i = Some y -> code x.2 = Some 0) /\
    (commit_command config ∈ done.*1 -> op_health (address_of node) (Some true) ∈ ops) /\
    if fr_success r then rolledBack r = false /\ undo = [] /\ done.*1 = plan node leaderIp /\ (code ∘ snd <$> last done) <> Some None
    else if rolledBack r then backup_restored undo
    else undo = [] /\ exists o c, done = [(backup_command config, o)] /\ code o = Some c /\ c <> 0.

(** Operations that are no commands. *)
Definition silent (ops : list Op) : Prop := commands ops = [].

Lemma wp_poll node n d Q pre :
  (forall b ops, silent ops -> (b = true -> op_health (address_of node) (Some true) ∈ ops) -> Q (inr b) (pre ++ ops)) ->
  wp (poll_loop n node d) Q pre.
Proof.
  revert pre. induction n as [|n IH]; intros pre H; cbn [poll_loop].
  - apply wp_ret. rewrite <- (app_nil_r pre). by apply H.
  - apply wp_bind, wp_look. intros t. destruct (t <? d); [|apply wp_ret; rewrite <- (app_nil_r pre); by apply H].
    apply wp_bind, wp_health. intros h.
    assert (Hgo : wp (bind (act (sleep 2000)) (fun _ => poll_loop n node d)) Q (pre ++ [op_health (address_of node) h])).
    { apply wp_bind, wp_sleep, IH. intros b ops Hs Hb. rewrite <- app_assoc. apply H; [done|]. intros E. right. by apply Hb. }
    destruct h as [[]|]; [|exact Hgo|exact Hgo]. apply wp_ret, H; [done|]. intros _. left.
Qed.
Lemma wp_stabilize node n d Q pre : (forall b, Q (inr b) pre) -> wp (stabilize_loop config n node d) Q pre.
Proof.
  intros H. induction n as [|n IH]; cbn [stabilize_loop]; [by apply wp_ret|].
  apply wp_bind, wp_look. intros t. destruct (t <? d); [|by apply wp_ret].
  apply wp_bind, wp_look. intros [|]; [by apply wp_ret|]. apply wp_bind, wp_sleep, IH.
Qed.

(** The notice before a restart: one command, whatever comes of it. *)
Lemma wp_notice node Q pre :
  (forall ops o, commands ops = [(address_of node, wall_command (restart_message config node), o)] -> Q (inr ()) (pre ++ ops)) ->
  wp (notifyBeforeRestart config node) Q pre.
Proof.
  intros H. unfold notifyBeforeRestart.
  assert (Hrest : forall ops, silent ops -> wp (bind (catch (bind (runShellOnNode node (wall_command (restart_message config node)) 5000) (fun _ => ret ()))
      (fun _ => ret ())) (fun _ => bind (progress ph_activate (n_nodeId node)
      ("Waiting " +:+ js_toString (seconds (graceMs config)) +:+ "s grace period before restart...")) (fun _ => act (sleep (graceMs config))))) Q (pre ++ ops)).
  { intros ops Hs.
    assert (Hend : forall o, wp (bind (progress ph_activate (n_nodeId node)
      ("Waiting " +:+ js_toString (seconds (graceMs config)) +:+ "s grace period before restart...")) (fun _ => act (sleep (graceMs config)))) Q
      ((pre ++ ops) ++ [op_call (address_of node) (wall_command (restart_message config node)) o])).
    { intros o. apply wp_bind, wp_progress, wp_sleep. rewrite <- app_assoc. apply (H _ o). by rewrite commands_app, Hs. }
    apply wp_bind, wp_catch, wp_bind, wp_shell; [intros o sh _; apply wp_ret, Hend|intros o m _; apply wp_ret, Hend]. }
  apply wp_bind. destruct (hasNotify config).
  - apply wp_bind, wp_notify. intros b. by apply wp_ret, Hrest.
  - apply wp_ret. rewrite <- (app_nil_r pre). by apply Hrest.
Qed.

Lemma wp_rollback node Q pre :
  (forall ops undo, commands ops = (fun co => (address_of node, co.1, co.2)) <$> undo -> backup_restored undo -> Q (inr ()) (pre ++ ops)) ->
  wp (rollbackNode config node) Q pre.
Proof.
  intros H. unfold rollbackNode.
  assert (Hrestart : forall ops undo, commands ops = (fun co => (address_of node, co.1, co.2)) <$> undo ->
    (forall r, backup_restored (undo ++ [(restart_command, r)])) ->
    wp (bind (catch (bind (runShellOnNode node restart_command 10000) (fun _ => ret ())) (fun _ => ret ()))
         (fun _ => act (closeConnection (address_of node)))) Q (pre ++ ops)).
  { intros ops undo Hc Hr. apply wp_bind, wp_catch, wp_bind.
    assert (Hend : forall o, wp (act (closeConnection (address_of node))) Q ((pre ++ ops) ++ [op_call (address_of node) restart_command o])).
    { intros o. apply wp_close. rewrite <- !app_assoc. apply (H _ (undo ++ [(restart_command, o)])); [|done].
      by rewrite !commands_app, Hc, fmap_app. }
    apply wp_shell; [intros o sh _; apply wp_ret, Hend|intros o m _; apply wp_ret, Hend]. }
  apply wp_bind, wp_catch, wp_bind, wp_shell.
  - intros o sh Ho. apply wp_ret. apply (Hrestart [_] [(rollback_command config, o)]); [done|]. intros r. apply at_once. congruence.
  - intros o m Ho. apply wp_bind, wp_close. rewrite <- app_assoc. cbn [app]. apply wp_catch, wp_bind, wp_shell.
    + intros o' sh Ho'. apply wp_ret. rewrite <- app_assoc. apply (Hrestart _ [(rollback_command config, o); (rollback_command config, o')]); [done|].
      intros r. apply second_try; congruence.
    + intros o' m' Ho'. apply wp_ret, wp_ret. rewrite <- app_assoc.
      apply (H _ [(rollback_command config, o); (rollback_command config, o')]); [done|]. by apply given_up.
Qed.

Definition leader_ip (nodes : list NodeInfo) : string :=
  match List.find (fun n => String.eqb (n_nodeId n) (selfNodeId config)) nodes with
  | Some n => n_tailscaleIp n | None => "127.0.0.1" end.

(** The commands so far are [done], a part of the plan carried out in order. *)
Definition on_plan (node : NodeInfo) (ip : string) (done : list (string * Outcome)) (ops : list Op) : Prop :=
  commands ops = (fun co => (address_of node, co.1, co.2)) <$> done /\
  done.*1 `prefix_of` plan node ip /\
  (forall i x y, (i < 3)%nat -> done !! i = Some x -> done !! S i = Some y -> code x.2 = Some 0) /\
  (commit_command config ∈ done.*1 -> op_health (address_of node) (Some true) ∈ ops).

Lemma on_plan_silent node ip done ops more : on_plan node ip done ops -> silent more -> on_plan node ip done (ops ++ more).
Proof.
  intros (H1 & H2 & H3 & H4) Hs. split_and!; [by rewrite commands_app, Hs, app_nil_r|done|done|].
  intros H. apply elem_of_app. left. by apply H4.
Qed.

(** The next command of the plan. *)
Lemma on_plan_next node ip done ops cmd o x : on_plan node ip done ops -> commands x = [(address_of node, cmd, o)] ->
  done.*1 ++ [cmd] `prefix_of` plan node ip ->
  (forall y, last done = Some y -> (length done <= 3)%nat -> code y.2 = Some 0) ->
  (cmd = commit_command config -> op_health (address_of node) (Some true) ∈ ops) ->
  on_plan node ip (done ++ [(cmd, o)]) (ops ++ x).
Proof.
  intros (H1 & H2 & H3 & H4) Hx Hp Hl Hc. split_and!.
  - by rewrite commands_app, Hx, H1, !fmap_app.
  - by rewrite fmap_app.
  - intros i a b Hi Ha Hb. destruct (decide (S i < length done)%nat) as [Hlt|Hge].
    + rewrite lookup_app_l in Ha by lia. rewrite lookup_app_l in Hb by lia. by eapply H3.
    + assert (Hb' := lookup_lt_Some _ _ _ Hb). rewrite length_app in Hb'. cbn in Hb'.
      assert (i = pred (length done)) as -> by lia. rewrite lookup_app_l in Ha by lia. apply Hl; [by rewrite last_lookup|lia].
  - rewrite fmap_app. intros [H|H]%elem_of_app; apply elem_of_app; left; [by apply H4|].
    apply list_elem_of_singleton in H. by apply Hc.
Qed.

Lemma wp_upgrade node s l : trace s = l -> exists r ops,
  (upgradeFollower config node s).2 = inr r /\ trace (upgradeFollower config node s).1 = l ++ ops /\
  follower_ran node (leader_ip (getAllNodes (world s))) r ops.
Proof.
  intros Hl. unfold upgradeFollower. change (bind (look getAllNodes) ?f s) with (f (getAllNodes (world s)) (mkState (world s) (progressed s))).
  cbv beta zeta. fold (leader_ip (getAllNodes (world s))). set (ip := leader_ip (getAllNodes (world s))).
  set (Q := fun (r : string + FollowerResult) ops => exists fr, r = inr fr /\ follower_ran node ip fr ops).
  match goal with |- exists r ops, (?x _).2 = _ /\ _ => enough (Hwp : wp x Q []) end.
  { destruct (Hwp (mkState (world s) (progressed s)) l) as (ops & E & fr & Er & Hf); [by rewrite app_nil_r|]. by exists fr, ops. }
  assert (Hback : forall done ops e, on_plan node ip done ops -> (length done > 0)%nat ->
    wp (bind (rollbackNode config node) (fun _ => ret (failed true e))) Q ops).
  { intros done ops e (H1 & H2 & H3 & H4) _. apply wp_bind, wp_rollback. intros more undo Hm Hu. apply wp_ret.
    eexists. split; [done|]. exists done, undo. split_and!; [by rewrite commands_app, H1, Hm, fmap_app|done|done| |done].
    intros H. apply elem_of_app. left. by apply H4. }
  assert (Hthrow : forall done ops m, on_plan node ip done ops -> (length done > 0)%nat ->
    wp (bind (progress ph_rollback (n_nodeId node) ("Unexpected error: " +:+ m))
      (fun _ => bind (catch (rollbackNode config node) (fun _ => ret ())) (fun _ => ret (failed true m)))) Q ops).
  { intros done ops m (H1 & H2 & H3 & H4) _. apply wp_bind, wp_progress, wp_bind, wp_catch, wp_rollback. intros more undo Hm Hu. apply wp_ret.
    eexists. split; [done|]. exists done, undo. split_and!; [by rewrite commands_app, H1, Hm, fmap_app|done|done| |done].
    intros H. apply elem_of_app. left. by apply H4. }
  assert (Hundo : forall done ops m e, on_plan node ip done ops -> (length done > 0)%nat ->
    wp (bind (progress ph_rollback (n_nodeId node) m) (fun _ => bind (rollbackNode config node) (fun _ => ret (failed true e))))
      (fun r ops => match r with
        | inl m => wp (bind (progress ph_rollback (n_nodeId node) ("Unexpected error: " +:+ m))
            (fun _ => bind (catch (rollbackNode config node) (fun _ => ret ())) (fun _ => ret (failed true m)))) Q ops
        | inr a => Q (inr a) ops end) ops).
  { intros done ops m e Hp Hn. apply wp_bind, wp_progress. eapply wp_mono; [by eapply Hback|]. intros r ops' (fr & -> & Hf). by exists fr. }
  assert (Hp0 : on_plan node ip [] []).
  { split_and!; [done|by exists (plan node ip)|by intros ? ? ? ? ?%list_elem_of_lookup_2%not_elem_of_nil|by intros ?%not_elem_of_nil]. }
  apply wp_catch, wp_bind, wp_progress, wp_bind.
  assert (Hp1 : forall o, on_plan node ip [(backup_command config, o)] ([] ++ [op_call (address_of node) (backup_command config) o])).
  { intros o. apply (on_plan_next _ _ [] [] _ o); [done|done|by eexists|done|done]. }
  apply wp_shell; [intros o1 b Ho1|intros o1 m Ho1; apply (Hthrow [(backup_command config, o1)]); [apply Hp1|cbn; lia]].
  destruct (Z.eqb_spec (sh_exitCode b) 0) as [E1|E1]; cbn [negb].
  2: { apply wp_ret. eexists. split; [done|]. destruct (Hp1 o1) as (H1 & H2 & H3 & H4). exists [(backup_command config, o1)], []. split_and!; try done.
       split; [done|]. by exists o1, (sh_exitCode b). }
  specialize (Hp1 o1). assert (Hc1 : code o1 = Some 0) by by rewrite Ho1, E1.
  apply wp_bind, wp_progress, wp_bind.
  assert (Hp2 : forall o, on_plan node ip [(backup_command config, o1); (rsync_command config ip, o)]
    (([] ++ [op_call (address_of node) (backup_command config) o1]) ++ [op_call (address_of node) (rsync_command config ip) o])).
  { intros o. apply (on_plan_next _ _ [_] _ _ o _ Hp1); [done|by eexists|by intros y [= <-]|done]. }
  apply wp_shell; [intros o2 r Ho2|intros o2 m Ho2; eapply Hthrow; [apply Hp2|cbn; lia]].
  destruct (Z.eqb_spec (sh_exitCode r) 0) as [E2|E2]; cbn [negb]; [|eapply Hundo; [apply Hp2|cbn; lia]].
  specialize (Hp2 o2). assert (Hc2 : code o2 = Some 0) by by rewrite Ho2, E2.
  apply wp_bind, wp_progress, wp_bind.
  match type of Hp2 with on_plan _ _ _ ?ops => generalize dependent ops end. intros ops2 Hp2.
  assert (Hp3 : forall o, on_plan node ip [(backup_command config, o1); (rsync_command config ip, o2); (verify_command config, o)]
    (ops2 ++ [op_call (address_of node) (verify_command config) o])).
  { intros o. apply (on_plan_next _ _ [_; _] _ _ o _ Hp2); [done|by eexists|by intros y [= <-]|done]. }
  apply wp_shell; [intros o3 v Ho3|intros o3 m Ho3; eapply Hthrow; [apply Hp3|cbn; lia]].
  destruct (Z.eqb_spec (sh_exitCode v) 0) as [E3|E3]; cbn [negb]; [|eapply Hundo; [apply Hp3|cbn; lia]].
  specialize (Hp3 o3). assert (Hc3 : code o3 = Some 0) by by rewrite Ho3, E3.
  match type of Hp3 with on_plan _ _ _ ?ops => generalize dependent ops end. intros ops3 Hp3.
  apply wp_bind, wp_notice. intros wall o4 Hwall.
  assert (Hp4 : on_plan node ip [(backup_command config, o1); (rsync_command config ip, o2); (verify_command config, o3);
    (wall_command (restart_message config node), o4)] (ops3 ++ wall)).
  { apply (on_plan_next _ _ [_; _; _] _ _ o4 _ Hp3); [done|by eexists|by intros y [= <-]|done]. }
  match type of Hp4 with on_plan _ _ _ ?ops => generalize dependent ops end. intros ops4 Hp4.
  apply wp_bind, wp_progress, wp_bind.
  assert (Hp5 : forall o, on_plan node ip [(backup_command config, o1); (rsync_command config ip, o2); (verify_command config, o3);
    (wall_command (restart_message config node), o4); (restart_command, o)] (ops4 ++ [op_call (address_of node) restart_command o])).
  { intros o. apply (on_plan_next _ _ [_; _; _; _] _ _ o _ Hp4); [done|by eexists|cbn; lia|done]. }
  apply (wp_mono _ (fun r ops => r = inr () /\ exists o5, on_plan node ip [(backup_command config, o1); (rsync_command config ip, o2);
    (verify_command config, o3); (wall_command (restart_message config node), o4); (restart_command, o5)] ops)).
  { apply wp_catch, wp_bind, wp_shell; intros o5 ? _; [apply wp_ret|apply wp_progress]; (split; [done|]; exists o5; apply Hp5). }
  clear Hp5. intros ? ops5 (-> & o5 & Hp5). apply wp_bind, wp_close, wp_bind, wp_progress, wp_bind.
  apply (on_plan_silent _ _ _ _ [op_close (address_of node)]) in Hp5; [|done].
  unfold pollHealthCheck. apply wp_bind, wp_look. intros t1. apply wp_poll. intros healthy polls Hpolls Hhealthy.
  pose proof (on_plan_silent _ _ _ _ polls Hp5 Hpolls) as Hp6.
  destruct healthy; cbn [negb]; [|eapply Hundo; [apply Hp6|cbn; lia]].
  apply wp_bind, wp_progress, wp_bind. unfold waitForStabilization. apply wp_bind, wp_look. intros t2. apply wp_stabilize.
  intros stable. destruct stable; cbn [negb]; [|eapply Hundo; [apply Hp6|cbn; lia]].
  apply wp_bind, wp_progress, wp_bind.
  assert (Hh : op_health (address_of node) (Some true) ∈ (ops5 ++ [op_close (address_of node)]) ++ polls) by (apply elem_of_app; right; auto).
  assert (Hp7 := fun o => on_plan_next _ _ _ _ (commit_command config) o [op_call (address_of node) (commit_command config) o] Hp6 eq_refl
    ltac:(by eexists []) ltac:(cbn; lia) ltac:(done)).
  apply wp_shell; [intros o6 c Ho6|intros o6 m Ho6; eapply Hthrow; [apply Hp7|cbn; lia]].
  apply wp_bind, wp_progress, wp_ret. eexists. split; [done|]. destruct (Hp7 o6) as (H1 & H2 & H3 & H4).
  eexists _, []. rewrite app_nil_r. split; [exact H1|]. split_and!; try done. cbn [fr_success]. split_and!; try done.
  cbn. congruence.
Qed.

(** ** The roll-out *)

(** The leader's own part: it keeps a copy of its files, tells the users of its machine,
    and restarts itself last. *)
Definition leader_ran (ops : list Op) : Prop := exists mid, ops = [op_backup] ++ mid ++ [op_restart] /\
  (commands mid = [] \/ exists self o, n_nodeId self = selfNodeId config /\
     commands mid = [(address_of self, wall_command (restart_message config self), o)]).

Definition failure_of (f : NodeInfo) (fr : FollowerResult) : string :=
  "Failed on " +:+ n_nodeId f +:+ ": " +:+ default "undefined" (fr_error fr).

(** The operations of a roll-out over [fs], when [updated] were updated before, and its
    result. *)
Inductive rolled_out : list NodeInfo -> list string -> UpdateResult -> list Op -> Prop :=
  | ro_all updated ops : leader_ran ops -> rolled_out [] updated (mkUpdateResult true updated [] None) ops
  | ro_stopped f fs updated ip fr ops after : follower_ran f ip fr ops -> fr_success fr = false -> silent after ->
      rolled_out (f :: fs) updated
        (mkUpdateResult false updated (if rolledBack fr then [n_nodeId f] else []) (Some (failure_of f fr))) (ops ++ after)
  | ro_next f fs updated ip fr ops r rest : follower_ran f ip fr ops -> fr_success fr = true ->
      rolled_out fs (updated ++ [n_nodeId f]) r rest -> rolled_out (f :: fs) updated r (ops ++ rest).

Lemma wp_leader Q pre : (forall ops, leader_ran ops -> Q (inr ()) (pre ++ ops)) -> wp (upgradeLeader config) Q pre.
Proof.
  intros H. unfold upgradeLeader. apply wp_bind, wp_backupDist. intros b. apply wp_bind, wp_look. intros nodes. apply wp_bind.
  destruct (List.find _ nodes) as [self|] eqn:E.
  - apply List.find_some in E as [_ E%String.eqb_eq]. apply wp_notice. intros ops o Hc.
    apply wp_bind, wp_progress, wp_restartSelf. rewrite <- !app_assoc. apply H. exists ops. split; [done|]. right. by exists self, o.
  - apply wp_ret, wp_bind, wp_progress, wp_restartSelf. rewrite <- app_assoc. apply H. exists []. split; [done|]. by left.
Qed.

Lemma wp_squelch m after Q pre : (forall ops, silent ops -> wp after Q (pre ++ ops)) -> (forall ops, silent ops -> Q (inr ()) (pre ++ ops)) ->
  wp (squelch config m after) Q pre.
Proof.
  intros H1 H2. unfold squelch. destruct (hasSquelch config); [|apply wp_ret; rewrite <- (app_nil_r pre); by apply H2].
  apply wp_bind, wp_squelchFn. intros [|]; [by apply H1|by apply wp_ret, H2].
Qed.

Lemma wp_loop total fs updated pre : wp (upgrade_loop config total fs updated [])
  (fun r ops => exists u more, r = inr u /\ ops = pre ++ more /\ rolled_out fs updated u more) pre.
Proof.
  revert updated pre. induction fs as [|f fs IH]; intros updated pre; cbn [upgrade_loop]; apply wp_bind, wp_progress, wp_bind.
  - apply wp_leader. intros ops Hl. apply wp_ret. eexists _, ops. split_and!; [done|done|by constructor].
  - intros s l E. destruct (wp_upgrade f s (l ++ pre) E) as (fr & ops & Er & Et & Hf).
    destruct (upgradeFollower config f s) as [s1 x]. cbn in Er, Et |- *. subst x. exists (pre ++ ops). split; [by rewrite app_assoc|].
    set (ip := leader_ip _) in Hf. clearbody ip. clear s E Et s1 l.
    destruct (fr_success fr) eqn:Es; cbn [negb].
    + assert (rolledBack fr = false) as ->.
      { destruct Hf as (d & u & _ & _ & _ & _ & Hf). rewrite Es in Hf. tauto. }
      eapply wp_mono; [apply IH|]. intros r ops' (u & more & -> & -> & Hu). exists u, (ops ++ more). split_and!; [done|by rewrite app_assoc|].
      by eapply ro_next.
    + assert (Hend : forall after, silent after -> exists u more,
        inr (mkUpdateResult false updated (if rolledBack fr then [n_nodeId f] else []) (Some (failure_of f fr))) = (inr u : string + UpdateResult) /\
        (pre ++ ops) ++ after = pre ++ more /\ rolled_out (f :: fs) updated u more).
      { intros after Ha. eexists _, (ops ++ after). split_and!; [done|by rewrite app_assoc|by eapply ro_stopped]. }
      apply wp_bind, wp_progress, wp_bind, wp_squelch; intros after Ha; repeat apply wp_ret; by apply Hend.
Qed.

(** The commands of a roll-out go to the followers that were updated and to the one that
    failed; those to the leader itself come when all were updated. *)
Lemma rolled_out_split fs updated r ops : rolled_out fs updated r ops -> exists done rest,
  fs = done ++ rest /\ nodesUpdated r = updated ++ (n_nodeId <$> done) /\ (success r = true <-> rest = []) /\
  Forall (fun c : string * string * Outcome => c.1.1 ∈ (address_of <$> done ++ take 1 rest) \/
            rest = [] /\ exists self, n_nodeId self = selfNodeId config /\ c.1 = (address_of self, wall_command (restart_message config self)))
    (commands ops).
Proof.
  assert (Hto : forall f ip fr ops, follower_ran f ip fr ops -> Forall (fun c : string * string * Outcome => c.1.1 = address_of f) (commands ops)).
  { intros f ip fr o (d & u & -> & _). apply Forall_fmap, Forall_true. by intros []. }
  induction 1 as [updated ops (mid & -> & Hm)|f fs updated ip fr ops after Hf Hs Ha|f fs updated ip fr ops r rest Hf Hs Hr (d & rs & -> & Hu & Hsu & Hc)].
  - exists [], []. split_and!; [done|by rewrite app_nil_r|done|]. rewrite !commands_app. cbn. rewrite app_nil_r.
    destruct Hm as [->|(self & o & Hid & ->)]; [done|]. apply Forall_singleton. right. split; [done|]. by exists self.
  - exists [], (f :: fs). split_and!; [done|by rewrite app_nil_r|done|]. rewrite commands_app, Ha, app_nil_r.
    eapply Forall_impl; [by eapply Hto|]. intros c Hc. left. cbn. rewrite Hc. left.
  - exists (f :: d), rs. split_and!; [done|by rewrite Hu, <- app_assoc|done|]. rewrite commands_app. apply Forall_app. split.
    + eapply Forall_impl; [by eapply Hto|]. intros c Hc'. left. cbn. rewrite Hc'. left.
    + eapply Forall_impl; [exact Hc|]. intros c [Hx|Hx]; [left; by right|by right].
Qed.

Lemma wp_preflight Q pre : (forall a, Q (inr a) pre) -> wp (preflight config) Q pre.
Proof. apply wp_look. Qed.
End trace.



(** ** A concrete world

    The disks hold version names; [fate] says what becomes of the [n]-th command. *)
Module Lab.

Inductive Fate := runs | exits (code : Z) | busy | drops_before | drops_after.

(** The directories dist and dist.bak of a node; [None] is absent. *)
Record Files (V : Type) := mkFiles { f_dist : option V; f_bak : option V }.
Arguments mkFiles {V} _ _.
Arguments f_dist {V} _.
Arguments f_bak {V} _.

Record Lab := mkLab { clock : Z; lab_nodes : list NodeInfo; lab_raft : RaftNode string; calls : nat;
                      disks : jsmap (Files string) }.
#[export] Instance Lab_eta : EtaRecord Lab := fun l =>
  mkLab (clock l) (lab_nodes l) (lab_raft l) (calls l) (disks l).

Definition cfg : UpdaterConfig := mkUpdaterConfig "a" "/opt/cortex/dist" None (Some 0) false false.

Definition files (l : Lab) (a : string) : Files string := default (mkFiles None None) (jm_get (disks l) a).

(** What a command does to a disk, and its exit code. *)
Definition effect (cmd : string) (f : Files string) : Files string * Z :=
  if String.eqb cmd (backup_command cfg) then
    match f_dist f with Some v => (mkFiles (Some v) (Some v), 0) | None => (mkFiles None None, 1) end
  else if String.eqb cmd (rsync_command cfg "100.64.0.1") then (mkFiles (Some "v2") (f_bak f), 0)
  else if String.eqb cmd (commit_command cfg) then (mkFiles (f_dist f) None, 0)
  else if String.eqb cmd (rollback_command cfg) then
    match f_bak f with Some v => (mkFiles (Some v) None, 0) | None => (mkFiles None None, 1) end
  else (f, 0).

Definition lab_call (fate : nat -> Fate) (a cmd : string) (timeoutMs : Z) (l : Lab) : Lab * Outcome :=
  let '(f, code) := effect cmd (files l a) in
  let done := l <| calls ::= S |> <| disks ::= fun d => jm_set d a f |> in
  let skipped := l <| calls ::= S |> in
  match fate (calls l) with
  | runs => (done, ran code)
  | exits c => (skipped, if c =? 0 then broken "" else ran c)
  | busy => (skipped, refused "Max concurrent tasks (10) reached")
  | drops_before => (skipped, broken "14 UNAVAILABLE")
  | drops_after => (done, broken "14 UNAVAILABLE")
  end.

#[export] Instance env (fate : nat -> Fate) : UpdaterEnv string Lab := {|
  now := clock;
  sleep ms l := l <| clock ::= fun t => t + Z.max 0 ms |>;
  raft := lab_raft;
  getAllNodes := lab_nodes;
  call := lab_call fate;
  healthCheck _ l := (l, Some true);
  closeConnection _ l := l;
  notifyFn _ _ l := (l, true);
  squelchFn _ l := (l, true);
  backupDist l := (l, true);
  restartSelf l := l
|}.

Definition member (id ip : string) : NodeInfo :=
  mkNodeInfo id id ip 50051 role_follower active None [] 0 0.
Definition leading : RaftNode string :=
  addPeer "c" "100.64.0.3:50051" true (addPeer "b" "100.64.0.2:50051" true
    ((new_RaftNode (mkRaftConfig "a" None false None) file_missing true) <| state := leader |>)).
Definition start_lab : Lab :=
  mkLab 0 [member "a" "100.64.0.1"; member "b" "100.64.0.2"; member "c" "100.64.0.3"] leading 0
    [("100.64.0.2:50051", mkFiles (Some "v1") None); ("100.64.0.3:50051", mkFiles (Some "v1") None)].

Definition run_update (fate : nat -> Fate) : State * (string + UpdateResult) :=
  execute_update (UpdaterEnv0 := env fate) cfg false (mkState start_lab []).
Definition disk_of (a : string) (s : State (W := Lab)) : Files string := files (world s) a.

Example update_all :
  (run_update (fun _ => runs)).2 = inr (mkUpdateResult true ["b"; "c"] [] None) /\
  disk_of "100.64.0.2:50051" (run_update (fun _ => runs)).1 = mkFiles (Some "v2") None /\
  disk_of "100.64.0.3:50051" (run_update (fun _ => runs)).1 = mkFiles (Some "v2") None.
Proof. by vm_compute. Qed.

(** An agent with no free slot throws; its handler answers without an exit code,
    the client reads the default 0, and the updater takes a command that never ran
    for one that succeeded: with busy nodes the whole update succeeds and changes
    nothing. *)
Example busy_nodes_reported_updated :
  (run_update (fun _ => busy)).2 = inr (mkUpdateResult true ["b"; "c"] [] None) /\
  disk_of "100.64.0.2:50051" (run_update (fun _ => busy)).1 = mkFiles (Some "v1") None.
Proof. by vm_compute. Qed.

(** The commit removes the backup; if its answer is lost, the rollback that follows
    removes the installation and has nothing to restore. *)
Example lost_commit_erases_installation :
  let r := run_update (fun n => if (n =? 5)%nat then drops_after else runs) in
  r.2 = inr (mkUpdateResult false [] ["b"] (Some "Failed on b: 14 UNAVAILABLE")) /\
  disk_of "100.64.0.2:50051" r.1 = mkFiles None None.
Proof. by vm_compute. Qed.

(** So does a first command that could not be sent, when the node has no backup. *)
Example unreachable_once_erases_installation :
  let r := run_update (fun n => if (n =? 0)%nat then drops_before else runs) in
  r.2 = inr (mkUpdateResult false [] ["b"] (Some "Failed on b: 14 UNAVAILABLE")) /\
  disk_of "100.64.0.2:50051" r.1 = mkFiles None None.
Proof. by vm_compute. Qed.
End Lab.

#[export] Instance lab_clock fate : ClockLaws (UpdaterEnv0 := Lab.env fate).
Proof. split; intros; cbn; [|done]. lia. Qed.

Lemma polling_ends_witness :
  pollHealthCheck (UpdaterEnv0 := Lab.env (fun _ => Lab.runs)) (Lab.member "b" "100.64.0.2") 60000 (mkState Lab.start_lab []) =
  poll_loop (UpdaterEnv0 := Lab.env (fun _ => Lab.runs)) 100 (Lab.member "b" "100.64.0.2") 60000 (mkState Lab.start_lab []).
Proof.
  refine (proj1 (polling_ends (UpdaterEnv0 := Lab.env (fun _ => Lab.runs)) Lab.cfg (Lab.member "b" "100.64.0.2") 60000 100
    (mkState Lab.start_lab []) _ _ _)); [lia|apply Nat.leb_le; vm_compute; reflexivity..].
Defined.
