(* ===== verification/ClusterHealth.v ===== *)
(** * Cluster health alerts (src/src/plugins/cluster-health/index.ts)

    The plugin samples the Raft node at intervals.  [runHealthCheck] is one check up
    to the loop that sends the alerts, [sendAlert] one turn of that loop; each reads
    the clock for itself.  The alert tool that may be missing or fail, the row of the
    local database that keeps the squelch time, and [toISOString] are parameters. *)

From S2P Require Import Prelude JsMap JsString Raft Membership.

(** ** Data *)

Inductive Level := warning | critical.
#[export] Instance Level_eq_dec : EqDecision Level.
Proof. solve_decision. Defined.

Record HealthAlert := mkHealthAlert { level : Level; message : string; a_timestamp : Z }.
Record TermSample := mkTermSample { s_term : Z; s_timestamp : Z }.

Record ClusterHealthPlugin := mkClusterHealthPlugin {
  termHistory : list TermSample;
  becameLeaderAt : Z;
  peerLastAlive : jsmap Z;
  alertedOfflinePeers : list string;       (* a Set, in insertion order *)
  squelchedUntil : Z;
  intervalMs : Z;
  termVelocityThreshold : Z;
  noLeaderAlertMs : Z;
  lastAlerts : jsmap Z;
  sent : list (Z * HealthAlert)            (* the alerts that passed, and when *)
}.
#[export] Instance ClusterHealthPlugin_eta : EtaRecord ClusterHealthPlugin := fun p =>
  mkClusterHealthPlugin (termHistory p) (becameLeaderAt p) (peerLastAlive p) (alertedOfflinePeers p)
    (squelchedUntil p) (intervalMs p) (termVelocityThreshold p) (noLeaderAlertMs p) (lastAlerts p) (sent p).

Implicit Types (p : ClusterHealthPlugin).

Definition peerGracePeriodMs : Z := 90000.
Definition termWindowMs : Z := 300000.
Definition alertCooldownMs : Z := 300000.
Definition leaderGracePeriodMs : Z := 60000.

Definition new_ClusterHealthPlugin : ClusterHealthPlugin :=
  mkClusterHealthPlugin [] 0 [] [] 0 15000 5 30000 [] [].

(** A number of the configuration that is present and not 0. *)
Definition override (o : option Z) (d : Z) : Z := match o with Some z => if z =? 0 then d else z | None => d end.
Definition init (interval threshold noLeader : option Z) p : ClusterHealthPlugin :=
  p <| intervalMs ::= override interval |> <| termVelocityThreshold ::= override threshold |>
    <| noLeaderAlertMs ::= override noLeader |>.

(** ** Terms *)

Definition recordTerm (now term : Z) p : ClusterHealthPlugin :=
  p <| termHistory ::= fun l =>
    keep (fun s => now - termWindowMs <=? s_timestamp s) (l ++ [mkTermSample term now]) |>.

Definition onRaftStateChange (now term : Z) p : ClusterHealthPlugin :=
  if term =? 0 then p else recordTerm now term p.

(** [new Set(l).size]. *)
Definition distinct (l : list Z) : Z := js_length (remove_dups l).

Definition getTermVelocity (now : Z) p : Z :=
  let recent := keep (fun s => now - termWindowMs <=? s_timestamp s) (termHistory p) in
  Z.max 0 (distinct (s_term <$> recent) - 1).

(** [termsPerMin.toFixed(1)]: the window is five minutes. *)
Definition per_minute (elections : Z) : string :=
  js_toString (elections * 2 / 10) +:+ "." +:+ js_toString (elections * 2 mod 10).

(** ** The check *)

Section check.
Context {D : Type}.
Implicit Types (raft : RaftNode D).

Definition alive (q : PeerInfo) : bool := 0 <? p_matchIndex q.

Definition unresponsive (now : Z) raft p (q : PeerInfo) : bool :=
  if alive q || (commitIndex raft =? 0) then false
  else peerGracePeriodMs <? now - default 0 (jm_get (peerLastAlive p) (p_nodeId q)).

Definition markAlive (now : Z) raft p : ClusterHealthPlugin :=
  p <| peerLastAlive ::= fun m => foldl (fun m q => if alive q then jm_set m (p_nodeId q) now else m) m (getPeers raft) |>.

Definition recovered raft (id : string) : bool :=
  match List.find (fun q => String.eqb (p_nodeId q) id) (getPeers raft) with
  | Some q => alive q
  | None => false
  end.

Definition recovery_alert (now : Z) (id : string) : HealthAlert :=
  mkHealthAlert warning ("Node recovered: " +:+ before_dash id +:+ " is back online and replicating.") now.

Definition velocity_alerts (now : Z) p : list HealthAlert :=
  let elections := getTermVelocity now p in
  if termVelocityThreshold p <=? elections then
    [mkHealthAlert critical ("Election storm: " +:+ js_toString elections +:+ " elections in 5min ("
       +:+ per_minute elections +:+ "/min). Cluster may be unstable.") now]
  else [].

(** Peers gone offline: those not yet reported, who are then remembered. *)
Definition newlyOffline (now : Z) raft p : list PeerInfo :=
  keep (fun q => negb (bool_decide (p_nodeId q ∈ alertedOfflinePeers p))) (keep (unresponsive now raft p) (getPeers raft)).

Definition add_all (ids l : list string) : list string :=
  foldl (fun l id => if bool_decide (id ∈ l) then l else l ++ [id]) l ids.

Definition offline_alerts (now : Z) raft p : list HealthAlert :=
  match newlyOffline now raft p with
  | [] => []
  | (_ :: more) as l =>
      [mkHealthAlert warning ("Node" +:+ (match more with [] => "" | _ => "s" end) +:+ " went offline: "
         +:+ String.concat ", " (before_dash ∘ p_nodeId <$> l) +:+ " ("
         +:+ js_toString (js_length (keep (unresponsive now raft p) (getPeers raft))) +:+ "/"
         +:+ js_toString (js_length (getPeers raft)) +:+ " not replicating)") now]
  end.

Definition aliveVoting raft : Z := js_length (keep p_votingMember (keep alive (getPeers raft))) + 1.
Definition totalVoting raft : Z := js_length (keep p_votingMember (getPeers raft)) + 1.
Definition quorumNeeded raft : Z := totalVoting raft / 2 + 1.

Definition quorum_alerts (now : Z) raft : list HealthAlert :=
  if aliveVoting raft <? quorumNeeded raft then
    [mkHealthAlert critical ("Quorum at risk: " +:+ js_toString (aliveVoting raft) +:+ " alive voting nodes, need "
       +:+ js_toString (quorumNeeded raft) +:+ " for quorum (" +:+ js_toString (totalVoting raft) +:+ " total)") now]
  else [].

Definition lagging raft (q : PeerInfo) : bool := alive q && (p_matchIndex q <? commitIndex raft - 10).
Definition lag_alerts (now : Z) raft : list HealthAlert :=
  (fun q => mkHealthAlert warning ("Replication lag: " +:+ p_nodeId q +:+ " is "
     +:+ js_toString (commitIndex raft - p_matchIndex q) +:+ " entries behind (matchIndex="
     +:+ js_toString (p_matchIndex q) +:+ ", commitIndex=" +:+ js_toString (commitIndex raft) +:+ ")") now)
  <$> keep (lagging raft) (getPeers raft).

(** [runHealthCheck] up to the loop over the alerts. *)
Definition runHealthCheck (now : Z) raft p : ClusterHealthPlugin * list HealthAlert :=
  let p := recordTerm now (currentTerm raft) p in
  if negb (isLeader raft) then (p <| becameLeaderAt := 0 |>, [])
  else
    let p := if becameLeaderAt p =? 0 then p <| becameLeaderAt := now |> else p in
    if now - becameLeaderAt p <? leaderGracePeriodMs then (p, [])
    else
      let storm := velocity_alerts now p in
      let p := markAlive now raft p in
      let back := keep (recovered raft) (alertedOfflinePeers p) in
      let p := p <| alertedOfflinePeers ::= keep (fun id => negb (recovered raft id)) |> in
      let gone := newlyOffline now raft p in
      let alerts := offline_alerts now raft p in
      let p := p <| alertedOfflinePeers ::= add_all (p_nodeId <$> gone) |> in
      (p, storm ++ (recovery_alert now <$> back) ++ alerts ++ quorum_alerts now raft ++ lag_alerts now raft).
End check.

(** ** Sending *)

Definition isSquelched (now : Z) p : ClusterHealthPlugin * bool :=
  if squelchedUntil p <=? 0 then (p, false)
  else if now <? squelchedUntil p then (p, true)
  else (p <| squelchedUntil := 0 |>, false).

Definition level_name (l : Level) : string := match l with warning => "warning" | critical => "critical" end.
Definition alertKey (a : HealthAlert) : string := level_name (level a) +:+ ":" +:+ js_slice_str (message a) 0 50.

(** [for (const [key, ts] of m) if (now - ts > limit) m.delete(key)]. *)
Definition prune (now : Z) (m : jsmap Z) : jsmap Z :=
  filter (fun kv => ~ alertCooldownMs * 2 < now - kv.2) m.

Definition sendAlert (now : Z) (a : HealthAlert) p : ClusterHealthPlugin :=
  let '(p, squelched) := isSquelched now p in
  if squelched then p
  else
    let lastSent := default 0 (jm_get (lastAlerts p) (alertKey a)) in
    if now - lastSent <? alertCooldownMs then p
    else p <| lastAlerts ::= fun m => prune now (jm_set m (alertKey a) now) |>
           <| sent ::= fun l => l ++ [(now, a)] |>.

(** A check with its alerts; the [i]-th alert is sent at [times i]. *)
Definition health_tick {D} (now : Z) (times : nat -> Z) (raft : RaftNode D) p : ClusterHealthPlugin :=
  let '(p, alerts) := runHealthCheck now raft p in
  foldl (fun p ia => sendAlert (times ia.1) ia.2 p) p (imap pair alerts).

(** ** Squelching *)

Section squelch.
Variable toISOString : Z -> option string.      (* [None] is the RangeError *)

(** The value of the health_squelch_until row of the local database; [writable] tells
    whether the statement can be run. *)
Definition persistSquelch (untilMs : Z) (writable : bool) (row : option string) : option string :=
  if writable then (if 0 <? untilMs then Some (js_toString untilMs) else None) else row.

Definition loadSquelch (now : Z) (row : option string) p : ClusterHealthPlugin :=
  match row ≫= parseInt with
  | Some until => if now <? until then p <| squelchedUntil := until |> else p
  | None => p
  end.

Definition start_health (now term : Z) (row : option string) p : ClusterHealthPlugin :=
  recordTerm now term (loadSquelch now row p).

(** The plugin, the row, and what is returned: [None] is an exception. *)
Definition squelchAlerts (now : Z) (minutes : option Z) (writable : bool) (row : option string) p :
    ClusterHealthPlugin * option string * option (bool * string) :=
  let mins := default 30 minutes in
  if mins <=? 0 then
    (p <| squelchedUntil := 0 |>, persistSquelch 0 writable row,
     Some (false, "Alerts unsquelched — notifications re-enabled."))
  else
    let until := now + mins * 60000 in
    let p := p <| squelchedUntil := until |> in
    match toISOString until with
    | None => (p, row, None)
    | Some iso =>
        (p, persistSquelch until writable row,
         Some (true, "Alerts squelched for " +:+ js_toString mins +:+ " minutes (until " +:+ iso +:+ ")."))
    end.
End squelch.

(** ** The report *)

Inductive OverallStatus := HEALTHY | DEGRADED | CRITICAL.
#[export] Instance OverallStatus_eq_dec : EqDecision OverallStatus.
Proof. solve_decision. Defined.

Definition computeOverallStatus (threshold elections unresponsiveCount aliveV needed : Z) : OverallStatus :=
  if aliveV <? needed then CRITICAL
  else if threshold <=? elections then CRITICAL
  else if 0 <? unresponsiveCount then DEGRADED
  else HEALTHY.

Record PeerReplication := mkPeerReplication {
  pr_nodeId : string; pr_matchIndex : Z; pr_lag : Z; pr_voting : bool; pr_alive : bool }.
Record PeerStatus := mkPeerStatus {
  ps_nodeId : string; ps_hostname : string; ps_status : NodeStatus; ps_role : string; ps_alive : bool }.

Inductive Perspective :=
  | of_leader (total alive unresponsive : Z) (unresponsiveNames : list string) (replication : list PeerReplication)
      (aliveVoting : Z)
  | of_follower (lastReceivedMs : Z) (leaderAlive : bool) (total knownAlive : Z) (peerStatus : list PeerStatus).

Record HealthReport := mkHealthReport {
  alertsSquelched : bool;
  hr_leaderId : option string;
  hr_term : Z;
  hr_state : RaftState;
  elections : Z;
  unstable : bool;
  perspective : Perspective;
  votingMembers : Z;
  needed : Z;
  healthy : bool;
  overallStatus : OverallStatus
}.

Definition getHealthReport {D} (now : Z) (raft : RaftNode D) (mm : MembershipManager) p : HealthReport :=
  let velocity := getTermVelocity now p in
  let peers := getPeers raft in
  let squelched := (0 <? squelchedUntil p) && (now <? squelchedUntil p) in
  let storm := termVelocityThreshold p <=? velocity in
  let report := mkHealthReport squelched (leaderId raft) (currentTerm raft) (state raft) velocity storm in
  let total := totalVoting raft in
  let quorum := quorumNeeded raft in
  if isLeader raft then
    let gone := keep (fun q => (p_matchIndex q =? 0) && (0 <? commitIndex raft)) peers in
    let aliveV := aliveVoting raft in
    report
      (of_leader (js_length peers) (js_length (keep alive peers)) (js_length gone) (p_nodeId <$> gone)
         ((fun q => mkPeerReplication (p_nodeId q) (p_matchIndex q) (commitIndex raft - p_matchIndex q)
             (p_votingMember q) (alive q || (commitIndex raft =? 0))) <$> peers) aliveV)
      total quorum (quorum <=? aliveV)
      (computeOverallStatus (termVelocityThreshold p) velocity (js_length gone) aliveV quorum)
  else
    let age := if 0 <? lastAppendEntriesAt raft then now - lastAppendEntriesAt raft else -1 in
    let leaderAlive := (0 <=? age) && (age <? 5000) in
    let self := nodeId (config raft) in
    let is_leader (n : NodeInfo) := bool_decide (Some (n_nodeId n) = leaderId raft) in
    let status := (fun n => mkPeerStatus (n_nodeId n) (n_hostname n) (n_status n)
        (if is_leader n then "leader" else "follower")
        (if is_leader n then leaderAlive else bool_decide (n_status n = active)))
      <$> keep (fun n => negb (String.eqb (n_nodeId n) self)) (getAllNodes mm) in
    report
      (of_follower age leaderAlive (js_length (keep p_votingMember peers)) (js_length (keep ps_alive status)) status)
      total quorum leaderAlive
      (if leaderAlive then (if storm then CRITICAL else HEALTHY) else CRITICAL).

(** * Theorems about the cluster health alerts *)

(** ** Alerts are spaced *)

(** What the plugin does over time: checks, alerts that are sent, samples and
    squelching, at times that never decrease. *)
Inductive health_run : Z -> ClusterHealthPlugin -> Prop :=
  | run_new t : health_run t new_ClusterHealthPlugin
  | run_wait t t' p : t <= t' -> health_run t p -> health_run t' p
  | run_check {D} t (raft : RaftNode D) p : health_run t p -> health_run t (runHealthCheck t raft p).1
  | run_send t a p : health_run t p -> health_run t (sendAlert t a p)
  | run_term t term p : health_run t p -> health_run t (onRaftStateChange t term p)
  | run_init t i v n p : health_run t p -> health_run t (init i v n p)
  | run_squelch iso t m w row p : health_run t p -> health_run t (squelchAlerts iso t m w row p).1.1
  | run_load t row p : health_run t p -> health_run t (loadSquelch t row p).

(** At time [t] the time of every sent alert is bounded by the entry of its key, or
    is so far back that the entry may be gone. *)
Definition remembered (t : Z) (m : jsmap Z) (ta : Z * HealthAlert) : Prop :=
  ta.1 <= t /\ ((exists t', jm_get m (alertKey ta.2) = Some t' /\ ta.1 <= t' <= t) \/ alertCooldownMs * 2 < t - ta.1).

Definition spaced (l : list (Z * HealthAlert)) : Prop :=
  forall i j ta tb, l !! i = Some ta -> l !! j = Some tb -> (i < j)%nat -> alertKey ta.2 = alertKey tb.2 ->
  alertCooldownMs <= tb.1 - ta.1.

Record alerts_ok (t : Z) (p : ClusterHealthPlugin) : Prop := {
  al_wf : jm_wf (lastAlerts p);
  al_remembered : Forall (remembered t (lastAlerts p)) (sent p);
  al_spaced : spaced (sent p)
}.

Lemma jm_get_filter {V} (P : string * V -> Prop) `{!forall x, Decision (P x)} (m : jsmap V) k v :
  jm_wf m -> jm_get (filter P m) k = Some v <-> jm_get m k = Some v /\ P (k, v).
Proof.
  intros Hw. assert (Hf : jm_wf (filter P m)).
  { unfold jm_wf, jm_keys in *. eapply sublist_NoDup; [exact Hw|apply (fmap_sublist fst), sublist_filter]. }
  rewrite <- !jm_elem_of_get by done. rewrite list_elem_of_filter. tauto.
Qed.

Lemma jm_wf_filter {V} (P : string * V -> Prop) `{!forall x, Decision (P x)} (m : jsmap V) : jm_wf m -> jm_wf (filter P m).
Proof. unfold jm_wf, jm_keys. intros. eapply sublist_NoDup; [done|apply (fmap_sublist fst), sublist_filter]. Qed.

Lemma remembered_later t t' m ta : t <= t' -> remembered t m ta -> remembered t' m ta.
Proof.
  intros Ht [H1 [(x & Hx & Hb)|H2]]; (split; [lia|]); [left; exists x|right]; [split; [done|]|]; lia.
Qed.

Lemma sendAlert_ok t a p : alerts_ok t p -> alerts_ok t (sendAlert t a p).
Proof.
  intros [Hw Hr Hs]. unfold sendAlert.
  assert (Hp : forall p' b, isSquelched t p = (p', b) -> lastAlerts p' = lastAlerts p /\ sent p' = sent p).
  { unfold isSquelched. intros p' b. repeat case_match; intros [= <- <-]; done. }
  destruct (isSquelched t p) as [p' b]. destruct (Hp p' b eq_refl) as [El Es].
  rewrite El. destruct b; [by split; rewrite ?El, ?Es|].
  destruct (t - default 0 (jm_get (lastAlerts p) (alertKey a)) <? alertCooldownMs) eqn:Ec; [by split; rewrite ?El, ?Es|].
  apply Z.ltb_ge in Ec. split; cbn; rewrite ?El, ?Es.
  - by apply jm_wf_filter, jm_wf_set.
  - apply Forall_app. split.
    + eapply Forall_impl; [exact Hr|]. intros ta [H1 H2]. split; [done|].
      destruct H2 as [(x & Hx & Hb)|H2]; [|by right].
      destruct (decide (alertCooldownMs * 2 < t - ta.1)) as [|Hn]; [by right|]. left. unfold prune.
      destruct (decide (alertKey a = alertKey ta.2)) as [E|E].
      * exists t. split; [|lia]. apply jm_get_filter; [by apply jm_wf_set|]. rewrite jm_get_set, decide_True by done.
        split; [done|]. cbn. unfold alertCooldownMs. lia.
      * exists x. split; [|lia]. apply jm_get_filter; [by apply jm_wf_set|]. rewrite jm_get_set, decide_False by done.
        split; [done|]. cbn. lia.
    + constructor; [|constructor]. cbn. split; [cbn; lia|]. left. exists t. split; [|cbn; lia]. cbn. unfold prune.
      apply jm_get_filter; [by apply jm_wf_set|]. rewrite jm_get_set, decide_True by done.
      split; [done|]. cbn. unfold alertCooldownMs. lia.
  - intros i j ta tb Hi Hj Hij E. apply lookup_app_Some in Hj as [Hj|[Hl Hj]].
    + rewrite lookup_app_l in Hi by (apply lookup_lt_Some in Hj; lia). by eapply Hs.
    + apply list_lookup_singleton_Some in Hj as [Hj <-]. cbn in *.
      rewrite lookup_app_l in Hi by lia. rewrite Forall_lookup in Hr.
      destruct (Hr _ _ Hi) as [H1 [(x & Hx & Hb)|H2]].
      * rewrite <- E, Hx in Ec. cbn in Ec. lia.
      * unfold alertCooldownMs in *. lia.
Qed.

Lemma alerts_ok_same t p p' : lastAlerts p' = lastAlerts p -> sent p' = sent p -> alerts_ok t p -> alerts_ok t p'.
Proof. intros E1 E2 []. by split; rewrite ?E1, ?E2. Qed.

Lemma runHealthCheck_sent {D} t (raft : RaftNode D) p :
  lastAlerts (runHealthCheck t raft p).1 = lastAlerts p /\ sent (runHealthCheck t raft p).1 = sent p.
Proof. unfold runHealthCheck. repeat case_match; done. Qed.

(** No alert storm.  However often the checks run and whatever they find, two alerts
    of the same level and the same first fifty characters are sent at least five
    minutes apart. *)
Theorem alerts_are_spaced t p i j ta tb :
  health_run t p -> sent p !! i = Some ta -> sent p !! j = Some tb -> (i < j)%nat ->
  alertKey ta.2 = alertKey tb.2 -> alertCooldownMs <= tb.1 - ta.1.
Proof.
  intros H. enough (Hok : alerts_ok t p) by (intros; by eapply (al_spaced t p Hok)). clear i j ta tb.
  induction H as [t|t t' p Ht _ [Hw Hr Hs]|D t raft p _ IH|t a p _ IH|t term p _ IH|t i v n p _ IH|iso t m w row p _ IH|t row p _ IH].
  - split; [apply jm_wf_nil|constructor|done].
  - split; [done| |done]. eapply Forall_impl; [exact Hr|]. intros ta. by apply remembered_later.
  - destruct (runHealthCheck_sent t raft p). by eapply alerts_ok_same.
  - by apply sendAlert_ok.
  - eapply alerts_ok_same; [| |exact IH]; unfold onRaftStateChange; by case_match.
  - by eapply alerts_ok_same; [| |exact IH].
  - eapply alerts_ok_same; [| |exact IH]; unfold squelchAlerts; by repeat case_match.
  - eapply alerts_ok_same; [| |exact IH]; unfold loadSquelch; by repeat case_match.
Qed.

(** ** Peers that go offline *)

Lemma elem_of_add_all ids l id : id ∈ add_all ids l <-> id ∈ ids \/ id ∈ l.
Proof.
  unfold add_all. revert l. induction ids as [|x ids IH]; intros l; cbn.
  - rewrite elem_of_nil. tauto.
  - rewrite IH, elem_of_cons. case_bool_decide; [|rewrite elem_of_app, list_elem_of_singleton]; naive_solver.
Qed.

(** A peer is reported offline once.  A leader past its grace period names in its
    offline alert exactly the peers that are unresponsive and were not reported
    since they last recovered; afterwards the peers remembered as reported are these
    and the earlier ones that have not recovered.  Before that, and on a node that is
    not the leader, nothing is reported. *)
Theorem offline_reported_once {D} now (raft : RaftNode D) p :
  let '(p', alerts) := runHealthCheck now raft p in
  if isLeader raft && (leaderGracePeriodMs <=? now - becameLeaderAt p') then
    let fresh q := q ∈ getPeers raft /\ unresponsive now raft (markAlive now raft p) q = true /\
      (p_nodeId q ∈ alertedOfflinePeers p -> recovered raft (p_nodeId q) = true) in
    (forall id, id ∈ alertedOfflinePeers p' <->
       (id ∈ alertedOfflinePeers p /\ recovered raft id = false) \/ exists q, fresh q /\ p_nodeId q = id) /\
    ((exists q, fresh q) -> exists a, a ∈ alerts /\ level a = warning)
  else alerts = [] /\ alertedOfflinePeers p' = alertedOfflinePeers p.
Proof.
  unfold runHealthCheck. destruct (isLeader raft); cbn [negb andb]; [|done].
  set (p0 := recordTerm now (currentTerm raft) p).
  set (p1 := if becameLeaderAt p0 =? 0 then _ else _).
  assert (E1 : alertedOfflinePeers p1 = alertedOfflinePeers p /\ peerLastAlive p1 = peerLastAlive p).
  { unfold p1. by case_match. }
  destruct E1 as [Ea El].
  destruct (now - becameLeaderAt p1 <? leaderGracePeriodMs) eqn:Eg.
  { rewrite (proj2 (Z.leb_gt _ _)) by (by apply Z.ltb_lt). done. }
  set (p2 := markAlive now raft p1). set (p3 := field_update alertedOfflinePeers _ p2).
  set (p4 := field_update alertedOfflinePeers _ p3).
  apply Z.ltb_ge in Eg. rewrite (proj2 (Z.leb_le _ _)) by exact Eg.
  assert (Hu : forall q, unresponsive now raft p3 q = unresponsive now raft (markAlive now raft p) q).
  { intros q. unfold unresponsive. cbn. by rewrite El. }
  assert (E3 : alertedOfflinePeers p3 = keep (fun id => negb (recovered raft id)) (alertedOfflinePeers p)).
  { unfold p3, p2, markAlive. unfold field_update. cbn [alertedOfflinePeers]. by rewrite Ea. }
  assert (Hn : forall q, q ∈ newlyOffline now raft p3 <-> q ∈ getPeers raft /\
     unresponsive now raft (markAlive now raft p) q = true /\
     (p_nodeId q ∈ alertedOfflinePeers p -> recovered raft (p_nodeId q) = true)).
  { intros q. unfold newlyOffline. rewrite !elem_of_keep, negb_true_iff, bool_decide_eq_false, Hu, E3.
    rewrite elem_of_keep, negb_true_iff. destruct (recovered raft (p_nodeId q)); naive_solver. }
  split.
  - intros id. change (alertedOfflinePeers p4) with (add_all (p_nodeId <$> newlyOffline now raft p3) (alertedOfflinePeers p3)).
    rewrite E3, elem_of_add_all, list_elem_of_fmap, elem_of_keep, negb_true_iff.
    setoid_rewrite Hn. naive_solver.
  - intros [q Hq%Hn]. unfold offline_alerts. fold p3. destruct (newlyOffline now raft p3) as [|q0 more] eqn:E.
    { by apply elem_of_nil in Hq. }
    eexists. split; [rewrite !elem_of_app; right; right; left; by left|done].
Qed.

(** A peer that acknowledged an entry is not reported: Raft keeps its match index
    when its calls fail, so as long as the leader stays, a peer that dies is neither
    unresponsive nor missing from the quorum. *)
Lemma dead_peer_unnoticed {D} `{!EmptyBuffer D} now (raft : RaftNode D) p ref q :
  0 < p_matchIndex q -> q ∈ getPeers raft ->
  replicateToPeer_reply ref None raft = raft /\
  unresponsive now (replicateToPeer_reply ref None raft) p q = false /\
  q ∈ keep alive (getPeers (replicateToPeer_reply ref None raft)).
Proof.
  intros Hm Hq. assert (Ha : alive q = true) by (by apply Z.ltb_lt). split; [done|]. cbn. split.
  - unfold unresponsive. by rewrite Ha.
  - by apply elem_of_keep.
Qed.

Definition storm_alert : HealthAlert := mkHealthAlert critical "Quorum at risk" 0.

Lemma alerts_are_spaced_witness :
  let p := sendAlert 700000 storm_alert (sendAlert 500000 storm_alert (sendAlert 400000 storm_alert new_ClusterHealthPlugin)) in
  fst <$> sent p = [400000; 700000] /\ alertCooldownMs <= 700000 - 400000.
Proof.
  split; [by vm_compute|].
  apply (alerts_are_spaced 700000
    (sendAlert 700000 storm_alert (sendAlert 500000 storm_alert (sendAlert 400000 storm_alert new_ClusterHealthPlugin)))
    0 1 (400000, storm_alert) (700000, storm_alert)); [|reflexivity|reflexivity|lia|reflexivity].
  apply run_send, (run_wait 500000); [lia|]. apply run_send, (run_wait 400000); [lia|]. apply run_send, run_new.
Defined.
