(* ===== verification/Security.v ===== *)
(** * Tokens, policies and secrets (src/src/security/auth.ts, secrets.ts)

    HMAC, AES-GCM and PBKDF2 are parameters.  A join token is base64 text of JSON
    that anybody may write: [validateJoinToken] works on whatever value the JSON
    holds, so the model keeps JavaScript's conversions of that value to a text and
    to a number.  A decoded byte sequence is taken as it is: the replacement of
    malformed UTF-8 by U+FFFD is left out. *)

From S2P Require Import Prelude JsMap JsString Json JsNumber.
From Stdlib Require Import QArith Ascii.
#[local] Open Scope Z_scope.

(** ** Conversions of JSON values *)

(** [String(v)]; [None] is a TypeError: an object with a property of its own called
    toString has no text. *)
Fixpoint js_String (j : json) : option string :=
  match j with
  | JNull => Some "null"
  | JBool b => Some (if b then "true" else "false")
  | JNum z => Some (js_toString z)
  | JStr s => Some s
  | JArr l =>
      join_comma <$> mapM (fun x => x)
        (List.map (fun x => match x with JNull => Some "" | _ => js_String x end) l)
  | JObj l => if existsb (fun kv => String.eqb kv.1 "toString") l then None else Some "[object Object]"
  end.

(** [`${v}`] of a property that may be missing. *)
Definition template (v : option json) : option string :=
  match v with Some j => js_String j | None => Some "undefined" end.

(** [Number(v)]. *)
Definition js_toNumber (v : option json) : option number :=
  match v with
  | None => Some nan
  | Some JNull => Some (fin 0)
  | Some (JBool b) => Some (fin (if b then 1 else 0))
  | Some (JNum z) => Some (fin (inject_Z z))
  | Some (JStr s) => Some (js_Number s)
  | Some j => js_Number <$> js_String j
  end.

(** [v.name]: [None] is a TypeError (on null), [Some None] is [undefined]. *)
Definition property (v : json) (name : string) : option (option json) :=
  match v with
  | JNull => None
  | JObj l => Some (jm_get l name)
  | _ => Some None
  end.

(** ** Join tokens *)

Record AuthToken := mkAuthToken {
  at_nodeId : string;
  at_issuedAt : Z;
  at_expiresAt : Z;
  at_signature : string
}.

Record AuthManager := mkAuthManager {
  clusterSecret : string;
  tokens : jsmap AuthToken
}.
#[export] Instance AuthManager_eta : EtaRecord AuthManager := fun a =>
  mkAuthManager (clusterSecret a) (tokens a).

(** [randomBytes] is what [crypto.randomBytes(32)] returned. *)
Definition new_AuthManager (secret : option string) (randomBytes : string) : AuthManager :=
  mkAuthManager (match secret with
                 | Some s => if truthy_str s then s else randomBytes
                 | None => randomBytes
                 end) [].

Inductive TokenVerdict :=
  | token_valid (nodeId : option json)
  | token_invalid (reason : string).

Definition token_data (nodeId issuedAt expiresAt : string) : string :=
  nodeId +:+ ":" +:+ issuedAt +:+ ":" +:+ expiresAt.

Definition token_json (t : AuthToken) : json :=
  JObj [("nodeId", JStr (at_nodeId t)); ("issuedAt", JNum (at_issuedAt t));
        ("expiresAt", JNum (at_expiresAt t)); ("signature", JStr (at_signature t))].

Section tokens.
(** [createHmac('sha256', key).update(data).digest('hex')]. *)
Context (hmac : string -> string -> string).

Definition default_validity : Z := 3600000.

Definition generateJoinToken (now : Z) (nodeId : string) (validityMs : Z) (a : AuthManager) :
    string * AuthManager :=
  let data := token_data nodeId (js_toString now) (js_toString (now + validityMs)) in
  let token := mkAuthToken nodeId now (now + validityMs) (hmac (clusterSecret a) data) in
  (base64_encode (stringify (token_json token)), a <| tokens ::= fun m => jm_set m nodeId token |>).

(** The body of the try block; [None] is an exception. *)
Definition checkToken (now : Z) (tokenStr : string) (a : AuthManager) : option TokenVerdict :=
  token ← parse (base64_decode tokenStr);
  expiresAt ← property token "expiresAt";
  expiry ← js_toNumber expiresAt;
  if int_gt now expiry then Some (token_invalid "Token expired")
  else
    nodeId ← property token "nodeId";
    issuedAt ← property token "issuedAt";
    nodeText ← template nodeId;
    issuedText ← template issuedAt;
    expiresText ← template expiresAt;
    signature ← property token "signature";
    let expected := hmac (clusterSecret a) (token_data nodeText issuedText expiresText) in
    match signature with
    | Some (JStr s) => if String.eqb s expected then Some (token_valid nodeId)
                       else Some (token_invalid "Invalid signature")
    | _ => Some (token_invalid "Invalid signature")
    end.

Definition validateJoinToken (now : Z) (tokenStr : string) (a : AuthManager) : TokenVerdict :=
  default (token_invalid "Invalid token format") (checkToken now tokenStr a).

End tokens.

Definition verifyPeerCertificate (cert : string) (expectedNodeId : option string) : bool :=
  match expectedNodeId with
  | Some id => if truthy_str id && negb (js_includes cert id) then false else true
  | None => true
  end.

(** ** Authorization *)

Record AuthzPolicy := mkAuthzPolicy {
  ap_name : string;
  ap_subjects : list string;
  ap_actions : list string;
  ap_resources : list string
}.

Definition AuthzManager : Type := list AuthzPolicy.

Definition cluster_read : AuthzPolicy :=
  mkAuthzPolicy "cluster-read" ["*"] ["read"] ["cluster:state"; "cluster:nodes"; "cluster:sessions"].
Definition task_submit_policy : AuthzPolicy := mkAuthzPolicy "task-submit" ["*"] ["submit"] ["task:*"].
Definition leader_only : AuthzPolicy :=
  mkAuthzPolicy "leader-only" ["role:leader"] ["approve"; "remove"; "scale"] ["node:*"; "cluster:*"].

Definition loadDefaultPolicies (m : AuthzManager) : AuthzManager :=
  m ++ [cluster_read] ++ [task_submit_policy] ++ [leader_only].
Definition new_AuthzManager : AuthzManager := loadDefaultPolicies [].

Definition addPolicy (p : AuthzPolicy) (m : AuthzManager) : AuthzManager := m ++ [p].

(** [findIndex] and [splice(index, 1)]. *)
Fixpoint removePolicy (name : string) (m : AuthzManager) : bool * AuthzManager :=
  match m with
  | [] => (false, [])
  | p :: m' =>
      if String.eqb (ap_name p) name then (true, m')
      else let '(b, m') := removePolicy name m' in (b, p :: m')
  end.

Definition subject_matches (subject : string) (role : option string) (s : string) : bool :=
  String.eqb s "*"
  || (js_startsWith s "role:" && bool_decide (role = Some (js_slice_str_from s 5)))
  || String.eqb s subject.

Definition resource_matches (resource r : string) : bool :=
  String.eqb r "*"
  || (if js_endsWith r ":*" then js_startsWith resource (js_slice_str r 0 (-1)) else String.eqb r resource).

Definition policy_allows (subject action resource : string) (role : option string) (p : AuthzPolicy) : bool :=
  existsb (subject_matches subject role) (ap_subjects p)
  && (bool_decide (action ∈ ap_actions p) || bool_decide ("*" ∈ ap_actions p))
  && existsb (resource_matches resource) (ap_resources p).

Definition isAuthorized (subject action resource : string) (role : option string) (m : AuthzManager) : bool :=
  existsb (policy_allows subject action resource role) m.

(** * Theorems about tokens and policies (Security.v) *)

#[local] Open Scope Z_scope.

(** ** Texts with separators *)

Fixpoint count (c : ascii) (s : string) : nat :=
  match s with
  | EmptyString => 0
  | String d s' => (if Ascii.eqb d c then 1 else 0) + count c s'
  end.

Lemma count_app c a b : count c (a +:+ b) = (count c a + count c b)%nat.
Proof. induction a as [|d a IH]; [done|]. rewrite str_app_cons. cbn [count]. rewrite IH. lia. Qed.

Lemma count_free c s : count c s = 0%nat <-> free_of c s = true.
Proof.
  induction s as [|d s IH]; [done|]. cbn. destruct (Ascii.eqb d c); cbn; [done|]. exact IH.
Qed.

Lemma count_uint u : count ":" (DecimalString.NilEmpty.string_of_uint u) = 0%nat.
Proof. by induction u. Qed.

Lemma count_toString z : count ":" (js_toString z) = 0%nat.
Proof.
  destruct (js_toString_shape z) as (u & _ & [-> | ->]); [apply count_uint|]. cbn. apply count_uint.
Qed.

(** The part before the first separator. *)
Lemma split_first c a x a' x' : count c a = 0%nat -> count c a' = 0%nat ->
  a +:+ String c x = a' +:+ String c x' -> a = a' /\ x = x'.
Proof.
  revert a'. induction a as [|d a IH]; intros [|d' a'] Ha Ha'; rewrite ?str_app_cons, ?str_app_nil.
  - by intros [= ->].
  - intros [= <- _]. cbn in Ha'. by rewrite Ascii.eqb_refl in Ha'.
  - intros [= -> _]. cbn in Ha. by rewrite Ascii.eqb_refl in Ha.
  - intros [= -> H]. cbn in Ha, Ha'. destruct (IH a') as [-> ->]; [lia..|done|done].
Qed.

(** The signed data determines its three parts when the id holds no colon. *)
Lemma token_data_inj id t e id' t' e' : count ":" id = 0%nat -> count ":" t = 0%nat ->
  count ":" e = 0%nat -> token_data id t e = token_data id' t' e' -> id = id' /\ t = t' /\ e = e'.
Proof.
  intros Hid Ht He H. pose proof (f_equal (count ":") H) as Hc. unfold token_data in *.
  rewrite !count_app in Hc. cbn in Hc.
  change (id +:+ String ":" (t +:+ String ":" e) = id' +:+ String ":" (t' +:+ String ":" e')) in H.
  apply split_first in H as [-> H]; [|done|lia]. apply split_first in H as [-> ->]; [done|done|lia].
Qed.

(** ** Join tokens *)

Section tokens.
Context (hmac : string -> string -> string).

Lemma token_parses t : parse (base64_decode (base64_encode (stringify (token_json t)))) = Some (token_json t).
Proof. rewrite base64_roundtrip. by apply parse_stringify. Qed.

(** Join tokens.  A token is accepted, as the node it was made for,
    exactly until its validity has passed, by every manager with the same secret;
    afterwards it is refused as expired; a manager with another secret refuses it
    unless both secrets give the same code for its data. *)
Theorem join_token_lifetime now now' id validity a a' :
  validateJoinToken hmac now' (generateJoinToken hmac now id validity a).1 a' =
  if now + validity <? now' then token_invalid "Token expired"
  else if String.eqb
      (hmac (clusterSecret a) (token_data id (js_toString now) (js_toString (now + validity))))
      (hmac (clusterSecret a') (token_data id (js_toString now) (js_toString (now + validity))))
  then token_valid (Some (JStr id)) else token_invalid "Invalid signature".
Proof.
  unfold validateJoinToken, checkToken, generateJoinToken. cbn [fst].
  rewrite token_parses. cbn [mbind option_bind token_json property].
  cbn [jm_get String.eqb Ascii.eqb Bool.eqb at_nodeId at_issuedAt at_expiresAt at_signature
    js_toNumber template js_String mbind option_bind].
  rewrite int_gt_fin. destruct (now + validity <? now'); [done|].
  by destruct (String.eqb _ _).
Qed.

Lemma checkToken_valid now tokenStr a n :
  checkToken hmac now tokenStr a = Some (token_valid n) ->
  exists token i e x nt it et,
    parse (base64_decode tokenStr) = Some token /\ property token "nodeId" = Some n /\
    property token "issuedAt" = Some i /\ property token "expiresAt" = Some e /\
    js_toNumber e = Some x /\ int_gt now x = false /\
    template n = Some nt /\ template i = Some it /\ template e = Some et /\
    property token "signature" = Some (Some (JStr (hmac (clusterSecret a) (token_data nt it et)))).
Proof.
  unfold checkToken. intros H.
  destruct (parse _) as [token|] eqn:E1; [|done]. cbn [mbind option_bind] in H.
  destruct (property token "expiresAt") as [e|] eqn:E2; [|done]. cbn [mbind option_bind] in H.
  destruct (js_toNumber e) as [x|] eqn:E3; [|done]. cbn [mbind option_bind] in H.
  destruct (int_gt now x) eqn:E4; [done|].
  destruct (property token "nodeId") as [n'|] eqn:E5; [|done]. cbn [mbind option_bind] in H.
  destruct (property token "issuedAt") as [i|] eqn:E6; [|done]. cbn [mbind option_bind] in H.
  destruct (template n') as [nt|] eqn:E7; [|done]. cbn [mbind option_bind] in H.
  destruct (template i) as [it|] eqn:E8; [|done]. cbn [mbind option_bind] in H.
  destruct (template e) as [et|] eqn:E9; [|done]. cbn [mbind option_bind] in H.
  destruct (property token "signature") as [sg|] eqn:E10; [|done]. cbn [mbind option_bind] in H.
  destruct sg as [[| | |sg| |]|]; try done.
  destruct (String.eqb_spec sg (hmac (clusterSecret a) (token_data nt it et))) as [->|]; [|done].
  injection H as <-. by repeat eexists.
Qed.

(** The number and the text of a value agree on the digits of a natural number. *)
Lemma toNumber_digits e z x : 0 <= z -> template e = Some (js_toString z) -> js_toNumber e = Some x ->
  x = fin (inject_Z z).
Proof.
  intros Hz Ht Hn. destruct e as [j|]; cbn in Ht.
  2: { injection Ht as Ht. pose proof (parseInt_toString z) as H. rewrite <- Ht in H. done. }
  destruct j as [|b|k|s|l|l]; cbn [js_toNumber] in Hn.
  - injection Ht as Ht. pose proof (parseInt_toString z) as H. rewrite <- Ht in H. done.
  - injection Ht as Ht. pose proof (parseInt_toString z) as H. rewrite <- Ht in H. by destruct b.
  - injection Ht as Ht. injection Hn as <-. pose proof (parseInt_toString z) as H.
    rewrite <- Ht, parseInt_toString in H. by injection H as ->.
  - injection Ht as ->. injection Hn as <-. by apply js_Number_toString.
  - rewrite Ht in Hn. injection Hn as <-. by apply js_Number_toString.
  - rewrite Ht in Hn. injection Hn as <-. by apply js_Number_toString.
Qed.

(** What a signature is good for.  Take the signature of a token made
    for an id without colons: any text that carries it and is accepted, however it
    was put together, is accepted as that node and not after the expiry; otherwise
    the two signed texts are different and have the same code. *)
Theorem join_token_binding now now' id validity a tokenStr n token :
  count ":" id = 0%nat -> 0 <= now + validity ->
  let data := token_data id (js_toString now) (js_toString (now + validity)) in
  parse (base64_decode tokenStr) = Some token ->
  property token "signature" = Some (Some (JStr (hmac (clusterSecret a) data))) ->
  validateJoinToken hmac now' tokenStr a = token_valid n ->
  (template n = Some id /\ now' <= now + validity) \/
  exists data', data' <> data /\ hmac (clusterSecret a) data' = hmac (clusterSecret a) data.
Proof.
  intros Hid Hexp data Hp Hs Hv. unfold validateJoinToken in Hv.
  destruct (checkToken hmac now' tokenStr a) as [v|] eqn:E; [|done]. cbn in Hv. subst v.
  apply checkToken_valid in E as (token' & i & e & x & nt & it & et & E1 & E2 & E3 & E4 & E5 & E6 & E7 & E8 & E9 & E10).
  rewrite Hp in E1. injection E1 as <-. rewrite Hs in E10. injection E10 as Hsig.
  destruct (decide (token_data nt it et = data)) as [Hd|Hd]; [left|right; eauto].
  unfold data in Hd. symmetry in Hd.
  apply token_data_inj in Hd as (<- & <- & <-); [|done|apply count_toString..].
  split; [done|]. rewrite (toNumber_digits e (now + validity) x Hexp E9 E5) in E6.
  rewrite int_gt_fin in E6. apply Z.ltb_ge in E6. lia.
Qed.

(** With a colon in the id the signed text is ambiguous: from a token made for
    [a:b] one gets, without the secret, a token that is accepted as [a]. *)
Definition recut (hmacText id rest : string) (now expiry : Z) : string :=
  base64_encode (stringify (JObj [("nodeId", JStr id);
    ("issuedAt", JStr (rest +:+ ":" +:+ js_toString now)); ("expiresAt", JNum expiry);
    ("signature", JStr hmacText)])).

Theorem colon_confuses_tokens now now' id rest validity (a : AuthManager) : now' <= now + validity ->
  let signature := hmac (clusterSecret a)
    (token_data (id +:+ ":" +:+ rest) (js_toString now) (js_toString (now + validity))) in
  at_signature <$> jm_get (tokens (generateJoinToken hmac now (id +:+ ":" +:+ rest) validity a).2)
      (id +:+ ":" +:+ rest) = Some signature /\
  validateJoinToken hmac now' (recut signature id rest now (now + validity)) a = token_valid (Some (JStr id)).
Proof.
  intros Hn. cbv zeta. split.
  { unfold generateJoinToken. cbn [snd]. cbn. by rewrite jm_get_set_eq. }
  unfold validateJoinToken, checkToken, recut.
  rewrite base64_roundtrip, parse_stringify by done. cbn [mbind option_bind property].
  cbn [jm_get String.eqb Ascii.eqb Bool.eqb js_toNumber template js_String mbind option_bind].
  rewrite int_gt_fin. destruct (Z.ltb_spec (now + validity) now'); [lia|].
  unfold token_data. rewrite !str_app_assoc. cbn [default]. by rewrite String.eqb_refl.
Qed.

End tokens.

(** ** Patterns *)

(** Which subjects a pattern names: everybody, the holders of a role, or one. *)
Definition names_subject (s subject : string) (role : option string) : Prop :=
  s = "*" \/ (exists r, s = "role:" +:+ r /\ role = Some r) \/ s = subject.

Lemma subject_matches_true subject role s :
  subject_matches subject role s = true <-> names_subject s subject role.
Proof.
  unfold subject_matches, names_subject, js_startsWith.
  rewrite !orb_true_iff, andb_true_iff, !String.eqb_eq, bool_decide_eq_true, prefix_app.
  assert (H : (exists t, s = "role:" +:+ t) /\ role = Some (js_slice_str_from s 5) <->
    exists r, s = "role:" +:+ r /\ role = Some r).
  { split.
    - intros [[t ->] ->]. exists t. split; [done|]. f_equal. apply (slice_suffix "role:").
    - intros (r & -> & ->). split; [by exists r|]. f_equal. symmetry. apply (slice_suffix "role:"). }
  rewrite H. tauto.
Qed.

(** Which resources a pattern names: all, those of a kind, or one. *)
Definition names_resource (r resource : string) : Prop :=
  r = "*" \/ (exists kind id, r = kind +:+ ":*" /\ resource = kind +:+ ":" +:+ id) \/
  ((forall kind, r <> kind +:+ ":*") /\ r = resource).

Lemma resource_matches_true resource r : resource_matches resource r = true <-> names_resource r resource.
Proof.
  unfold resource_matches, names_resource. rewrite orb_true_iff, String.eqb_eq.
  destruct (js_endsWith r ":*") eqn:E.
  - apply endsWith_app in E as [k ->].
    replace (k +:+ ":*") with ((k +:+ ":") +:+ String "*" "") by (by rewrite str_app_assoc).
    rewrite slice_drop_last. unfold js_startsWith. rewrite prefix_app.
    rewrite str_app_assoc. change (":" +:+ String "*" "") with ":*". split.
    + intros [?|[t ->]]; [by left|]. right. left. exists k, t. split; [done|]. by rewrite str_app_assoc.
    + intros [?|[(kind & id & Hk & ->)|[Hn _]]]; [by left| |by destruct (Hn k)].
      right. apply str_app_tail in Hk as ->. exists id. by rewrite str_app_assoc.
  - rewrite String.eqb_eq. split.
    + intros [?| ->]; [by left|]. right. right. split; [|done].
      intros kind Hk. assert (js_endsWith resource ":*" = true) by (apply endsWith_app; eauto). congruence.
    + intros [?|[(kind & id & -> & _)|[_ ->]]]; [by left| |by right].
      assert (js_endsWith (kind +:+ ":*") ":*" = true) by (apply endsWith_app; eauto). congruence.
Qed.

(** ** Authorization *)

Definition grants (p : AuthzPolicy) (subject action resource : string) (role : option string) : Prop :=
  (exists s, s ∈ ap_subjects p /\ names_subject s subject role) /\
  (action ∈ ap_actions p \/ "*" ∈ ap_actions p) /\
  (exists r, r ∈ ap_resources p /\ names_resource r resource).

Lemma existsb_elem {A} (f : A -> bool) l : existsb f l = true <-> exists x, x ∈ l /\ f x = true.
Proof. rewrite existsb_exists. by setoid_rewrite list_elem_of_In. Qed.

Lemma policy_allows_true p subject action resource role :
  policy_allows subject action resource role p = true <-> grants p subject action resource role.
Proof.
  unfold policy_allows, grants.
  rewrite !andb_true_iff, orb_true_iff, !bool_decide_eq_true, !existsb_elem.
  setoid_rewrite subject_matches_true. setoid_rewrite resource_matches_true. tauto.
Qed.

Lemma isAuthorized_true m subject action resource role :
  isAuthorized subject action resource role m = true <->
  exists p, p ∈ m /\ grants p subject action resource role.
Proof. unfold isAuthorized. rewrite existsb_elem. by setoid_rewrite policy_allows_true. Qed.

(** What the default policies allow. *)
Definition by_default (subject action resource : string) (role : option string) : Prop :=
  (action = "read" /\ resource ∈ ["cluster:state"; "cluster:nodes"; "cluster:sessions"]) \/
  (action = "submit" /\ exists id, resource = "task:" +:+ id) \/
  ((role = Some "leader" \/ subject = "role:leader") /\ action ∈ ["approve"; "remove"; "scale"] /\
   exists id, resource = "node:" +:+ id \/ resource = "cluster:" +:+ id).

Lemma names_kind kind resource : kind <> "" ->
  names_resource (kind +:+ ":*") resource <-> exists id, resource = kind +:+ ":" +:+ id.
Proof.
  intros Hk. unfold names_resource. split.
  - intros [H|[(k & id & H & ->)|[H _]]].
    + destruct kind as [|c kind]; [done|]. rewrite str_app_cons in H. injection H as -> H.
      by destruct kind.
    + apply str_app_tail in H as ->. eauto.
    + by destruct (H kind).
  - intros [id ->]. right. left. eauto.
Qed.

Lemma names_exact r resource : r <> "*" -> (forall kind, r <> kind +:+ ":*") ->
  names_resource r resource <-> r = resource.
Proof. unfold names_resource. naive_solver. Qed.

Lemma not_kind r : js_endsWith r ":*" = false -> forall kind, r <> kind +:+ ":*".
Proof. intros H kind ->. assert (js_endsWith (kind +:+ ":*") ":*" = true) by (apply endsWith_app; eauto). congruence. Qed.

Lemma addPolicies extra m : foldl (fun m p => addPolicy p m) m extra = m ++ extra.
Proof.
  revert m. induction extra as [|p extra IH]; intros m; [by rewrite app_nil_r|]. cbn.
  rewrite IH. unfold addPolicy. by rewrite <- app_assoc.
Qed.

Lemma grants_cluster_read subject action resource role :
  grants cluster_read subject action resource role <->
  action = "read" /\ resource ∈ ["cluster:state"; "cluster:nodes"; "cluster:sessions"].
Proof.
  unfold grants. cbn [ap_subjects ap_actions ap_resources cluster_read].
  setoid_rewrite list_elem_of_singleton. split.
  - intros (_ & [->|Ha] & r & Hr & Hn); [|discriminate Ha]. split; [done|].
    apply names_exact in Hn as <-; [done|..];
      repeat (apply elem_of_cons in Hr as [->|Hr]; [first [done | by apply not_kind]|]);
      by apply elem_of_nil in Hr.
  - intros [-> Hr]. split_and!; [exists "*"; split; [done|by left]|by left|].
    exists resource. split; [done|]. apply names_exact; [..|done];
      repeat (apply elem_of_cons in Hr as [->|Hr]; [first [done | by apply not_kind]|]);
      by apply elem_of_nil in Hr.
Qed.

Lemma grants_task_submit subject action resource role :
  grants task_submit_policy subject action resource role <->
  action = "submit" /\ exists id, resource = "task:" +:+ id.
Proof.
  unfold grants. cbn [ap_subjects ap_actions ap_resources task_submit_policy].
  setoid_rewrite list_elem_of_singleton. split.
  - intros (_ & [->|Ha] & r & -> & Hn); [|discriminate Ha]. split; [done|].
    by apply (names_kind "task") in Hn.
  - intros [-> Hr]. split_and!; [exists "*"; split; [done|by left]|by left|].
    eexists. split; [done|]. by apply (names_kind "task").
Qed.

Lemma grants_leader_only subject action resource role :
  grants leader_only subject action resource role <->
  (role = Some "leader" \/ subject = "role:leader") /\ action ∈ ["approve"; "remove"; "scale"] /\
   exists id, resource = "node:" +:+ id \/ resource = "cluster:" +:+ id.
Proof.
  unfold grants. cbn [ap_subjects ap_actions ap_resources leader_only].
  setoid_rewrite (list_elem_of_singleton (A := string)).
  assert (Hs : (exists s, s = "role:leader" /\ names_subject s subject role) <->
    role = Some "leader" \/ subject = "role:leader").
  { unfold names_subject. split.
    - intros (s & -> & [H|[(r & H & ->)|H]]); [discriminate| |by right].
      rewrite !str_app_cons, str_app_nil in H. injection H as <-. by left.
    - intros [-> | ->]; exists "role:leader"; split; try done; [|by right; right].
      right. left. by exists "leader". }
  rewrite Hs.
  assert (Ha : "*" ∈ ["approve"; "remove"; "scale"] -> False).
  { intros H. repeat (apply elem_of_cons in H as [H|H]; [discriminate|]). by apply elem_of_nil in H. }
  assert (Hr : (exists r, r ∈ ["node:*"; "cluster:*"] /\ names_resource r resource) <->
    exists id, resource = "node:" +:+ id \/ resource = "cluster:" +:+ id).
  { split.
    - intros (r & [->|[->|H]%elem_of_cons]%elem_of_cons & Hn); [..|by apply elem_of_nil in H].
      + apply (names_kind "node") in Hn as [id ->]; [|done]. eauto.
      + apply (names_kind "cluster") in Hn as [id ->]; [|done]. eauto.
    - intros [id [->| ->]].
      + exists "node:*". split; [by left|]. apply (names_kind "node"); [done|]. by exists id.
      + exists "cluster:*". split; [by right; left|]. apply (names_kind "cluster"); [done|]. by exists id. }
  rewrite Hr. tauto.
Qed.

(** Authorization.  With the default policies and any added ones, an
    action is allowed exactly if it is reading the cluster's state, nodes or
    sessions, submitting a task, or an approval, removal or scaling of a node or
    the cluster by the leader (by role, or by a subject that is literally named
    role:leader), or if an added policy names the subject, the action and the
    resource. *)
Theorem authorization_exact extra subject action resource role :
  isAuthorized subject action resource role (foldl (fun m p => addPolicy p m) new_AuthzManager extra)
    = true <->
  by_default subject action resource role \/
  exists p, p ∈ extra /\ grants p subject action resource role.
Proof.
  rewrite addPolicies, isAuthorized_true. unfold by_default.
  rewrite <- grants_cluster_read with (subject := subject) (role := role),
    <- grants_task_submit with (subject := subject) (role := role), <- grants_leader_only.
  unfold new_AuthzManager, loadDefaultPolicies. cbn [app]. setoid_rewrite elem_of_cons.
  setoid_rewrite elem_of_cons. setoid_rewrite elem_of_cons. naive_solver.
Qed.

(** Removing a policy takes the first one of that name away and never allows
    anything new. *)
Lemma removePolicy_spec name m :
  (exists m1 p m2, m = m1 ++ p :: m2 /\ ap_name p = name /\ Forall (fun q => ap_name q <> name) m1 /\
     removePolicy name m = (true, m1 ++ m2)) \/
  (Forall (fun q => ap_name q <> name) m /\ removePolicy name m = (false, m)).
Proof.
  induction m as [|q m IH]; cbn; [right; by split|].
  destruct (String.eqb_spec (ap_name q) name) as [Hq|Hq].
  - left. by exists [], q, m.
  - destruct IH as [(m1 & p & m2 & -> & Hp & Hf & ->)|[Hf ->]].
    + left. exists (q :: m1), p, m2. split_and!; [done..| |done]. by constructor.
    + right. split; [by constructor|done].
Qed.

Lemma removePolicy_shrinks name m subject action resource role :
  isAuthorized subject action resource role (removePolicy name m).2 = true ->
  isAuthorized subject action resource role m = true.
Proof.
  rewrite !isAuthorized_true. destruct (removePolicy_spec name m) as
    [(m1 & p & m2 & -> & _ & _ & ->)|[_ ->]]; [|done].
  intros (q & Hq & Hg). exists q. split; [|done]. cbn in Hq. set_solver.
Qed.

(** ** Instances *)

Definition text_hmac (key data : string) : string := key +:+ "/" +:+ data.

Lemma join_token_binding_witness :
  let a := new_AuthManager (Some "s3cret") "" in
  let t := (generateJoinToken text_hmac 1000 "node-1" 500 a).1 in
  validateJoinToken text_hmac 1500 t a = token_valid (Some (JStr "node-1")) /\ template (Some (JStr "node-1")) = Some "node-1".
Proof.
  cbv zeta.
  assert (Hv : validateJoinToken text_hmac 1500
    (generateJoinToken text_hmac 1000 "node-1" 500 (new_AuthManager (Some "s3cret") "")).1
    (new_AuthManager (Some "s3cret") "") = token_valid (Some (JStr "node-1"))) by (vm_compute; reflexivity).
  split; [exact Hv|].
  destruct (join_token_binding text_hmac 1000 1500 "node-1" 500 (new_AuthManager (Some "s3cret") "")
    (generateJoinToken text_hmac 1000 "node-1" 500 (new_AuthManager (Some "s3cret") "")).1
    (Some (JStr "node-1"))
    (token_json (mkAuthToken "node-1" 1000 1500 (text_hmac "s3cret" (token_data "node-1" "1000" "1500")))))
    as [[H _]|(d & Hne & Heq)].
  - reflexivity.
  - lia.
  - vm_compute. reflexivity.
  - vm_compute. reflexivity.
  - exact Hv.
  - exact H.
  - exfalso. apply Hne. unfold text_hmac in Heq. cbn [clusterSecret new_AuthManager] in Heq.
    change (truthy_str "s3cret") with true in Heq. cbv iota in Heq.
    rewrite !str_app_cons, !str_app_nil in Heq. by injection Heq.
Defined.

Lemma colon_confuses_tokens_witness :
  let a := new_AuthManager (Some "s3cret") "" in
  exists forged, validateJoinToken text_hmac 1200 forged a = token_valid (Some (JStr "admin")).
Proof.
  eexists. apply (colon_confuses_tokens text_hmac 1000 1200 "admin" "guest" 500). lia.
Defined.
