(* ===== verification/Announcements.v ===== *)
(** * Announcements (src/src/cluster/announcements.ts)

    [ClusterAnnouncer] listens to the membership manager, keeps the last hundred
    announcements, prints them and publishes its own to the other nodes over the
    PublishContext call.  An announcement that arrives from another node is whatever
    JSON it sent, so the log holds JSON values.  A published entry is a call of the
    list that the methods return; its failure is only logged, so the answers play no
    part. *)

From S2P Require Import Prelude JsMap JsString JsRegExp Json JsNumber Membership Replication Security ClusterHandlers.
From Stdlib Require Import QArith Ascii.
#[local] Open Scope Z_scope.

Record AnnouncementConfig := mkAnnouncementConfig {
  an_nodeId : string;
  an_hostname : string;
  an_invisible : bool;
  an_silent : bool
}.

Inductive AnnouncementType := an_join | an_leave | an_status | an_message.
Definition announcement_type_string (t : AnnouncementType) : string :=
  match t with an_join => "join" | an_leave => "leave" | an_status => "status" | an_message => "message" end.

Record ResourceSummary := mkResourceSummary {
  rs_cpuCores : Z;
  rs_memoryGB : Z;
  rs_gpus : list string;
  rs_gamingActive : bool
}.

Record ClusterAnnouncement := mkClusterAnnouncement {
  ca_type : AnnouncementType;
  ca_fromNode : string;
  ca_fromHostname : string;
  ca_message : string;
  ca_timestamp : Z;
  ca_resources : option ResourceSummary
}.

Definition summary_json (r : ResourceSummary) : json :=
  JObj [("cpuCores", JNum (rs_cpuCores r)); ("memoryGB", JNum (rs_memoryGB r));
        ("gpus", JArr (JStr <$> rs_gpus r)); ("gamingActive", JBool (rs_gamingActive r))].

Definition announcement_json (a : ClusterAnnouncement) : json :=
  JObj ([("type", JStr (announcement_type_string (ca_type a))); ("fromNode", JStr (ca_fromNode a));
         ("fromHostname", JStr (ca_fromHostname a)); ("message", JStr (ca_message a));
         ("timestamp", JNum (ca_timestamp a))] ++
        match ca_resources a with Some r => [("resources", summary_json r)] | None => [] end).

(** The entry of a PublishContext call. *)
Record ContextPublication := mkContextPublication {
  cp_address : string;
  cp_entry_id : string;
  cp_node_id : string;
  cp_project : string;
  cp_type : string;
  cp_key : string;
  cp_value : string;
  cp_timestamp : string
}.

Record ClusterAnnouncer := mkClusterAnnouncer {
  an_config : AnnouncementConfig;
  announcementLog : list json;
  an_emitted : list json;
  an_console : list string
}.
#[export] Instance ClusterAnnouncer_eta : EtaRecord ClusterAnnouncer := fun a =>
  mkClusterAnnouncer (an_config a) (announcementLog a) (an_emitted a) (an_console a).

Definition new_ClusterAnnouncer (c : AnnouncementConfig) : ClusterAnnouncer := mkClusterAnnouncer c [] [] [].

Definition maxLogSize : Z := 100.

Implicit Types (a : ClusterAnnouncer) (n : NodeInfo) (r : NodeResources).

(** ** Texts *)

(** [Math.round(bytes / (1024 * 1024 * 1024))]. *)
Definition gigabytes (bytes : Z) : Z := (bytes + 2 ^ 29) / 2 ^ 30.

Definition summarizeResources (o : option NodeResources) : ResourceSummary :=
  match o with
  | None => mkResourceSummary 0 0 [] false
  | Some r => mkResourceSummary (r_cpuCores r) (gigabytes (r_memoryBytes r)) (g_name <$> r_gpus r) (r_gamingDetected r)
  end.

Definition formatResourceSummary (s : ResourceSummary) : string :=
  let parts :=
    (if 0 <? rs_cpuCores s then [js_toString (rs_cpuCores s) +:+ " cores"] else []) ++
    (if 0 <? rs_memoryGB s then [js_toString (rs_memoryGB s) +:+ " GB RAM"] else []) ++
    (if 0 <? js_length (rs_gpus s) then [join_with ", " (rs_gpus s)] else []) ++
    (if rs_gamingActive s then ["(gaming in progress)"] else []) in
  if 0 <? js_length parts then str ["["; join_with " | " parts; "]"] else "[resources unknown]".

(** [/NVIDIA |GeForce /gi]. *)
Definition re_gpu_brand : regex := re_alt (re_ilit "NVIDIA ") (re_ilit "GeForce ").

Definition formatResourceBrief (o : option NodeResources) : string :=
  match o with
  | None => "resources unknown"
  | Some r =>
      let gpuNames := (fun g => replace_all re_gpu_brand (fun _ => "") (g_name g)) <$> r_gpus r in
      join_with " | "
        ([js_toString (r_cpuCores r) +:+ " CPU"; js_toString (gigabytes (r_memoryBytes r)) +:+ " GB"] ++
         (if 0 <? js_length (r_gpus r) then [join_with ", " gpuNames] else []))
  end.

Definition formatTimeAgo (now timestamp : Z) : string :=
  let seconds := (now - timestamp) / 1000 in
  if seconds <? 60 then js_toString seconds +:+ "s ago"
  else if seconds <? 3600 then js_toString (seconds / 60) +:+ "m ago"
  else if seconds <? 86400 then js_toString (seconds / 3600) +:+ "h ago"
  else js_toString (seconds / 86400) +:+ "d ago".

Definition esc (code : string) : string := String (ascii_of_nat 27) code.

(** A member of a value that may be no object; [None] is [undefined].  Strings and
    arrays have none of the names that are asked for. *)
Definition member (name : string) (j : json) : option json :=
  match j with JObj l => jm_get l name | _ => None end.

(** ** The log *)

(** A line of the console: [None] when the property access throws a TypeError, or the
    conversion to a string does. *)
Definition announcement_line (j : json) : option string :=
  match j with
  | JNull => None
  | _ =>
      let joined := match member "type" j with Some (JStr t) => String.eqb t "join" | _ => false end in
      message ← match member "message" j with Some m => js_String m | None => Some "undefined" end;
      Some (str [if joined then esc "[32m" else esc "[33m"; "["; if joined then "++" else "--"; "] ";
                 message; esc "[0m"])
  end.

Definition displayAnnouncement (j : json) a : option ClusterAnnouncer :=
  if an_silent (an_config a) then Some a
  else line ← announcement_line j; Some (a <| an_console ::= fun l => l ++ [line] |>).

Definition logAnnouncement (j : json) a : ClusterAnnouncer :=
  let a := a <| announcementLog ::= fun l => l ++ [j] |> in
  if maxLogSize <? js_length (announcementLog a)
  then a <| announcementLog ::= fun l => js_slice_from l (- maxLogSize) |> else a.

Definition emit_announcement (j : json) a : ClusterAnnouncer := a <| an_emitted ::= fun l => l ++ [j] |>.

(** [logAnnouncement], [emit] and [displayAnnouncement] of an announcement of its own,
    whose message is a string. *)
Definition announce (x : ClusterAnnouncement) a : ClusterAnnouncer :=
  let j := announcement_json x in
  let a := emit_announcement j (logAnnouncement j a) in
  default a (displayAnnouncement j a).

Definition getRecentAnnouncements (count : Z) a : list json := js_slice_from (announcementLog a) (- count).

(** ** Membership events *)

Definition createJoinAnnouncement (now : Z) n : ClusterAnnouncement :=
  let resources := summarizeResources (n_resources n) in
  mkClusterAnnouncement an_join (n_nodeId n) (n_hostname n)
    (str ["Hey Claude! Node "; n_hostname n; " reporting in! "; formatResourceSummary resources])
    now (Some resources).

Definition onNodeJoined (now : Z) n a : ClusterAnnouncer := announce (createJoinAnnouncement now n) a.

Definition onNodeLeft (now : Z) n a : ClusterAnnouncer :=
  announce (mkClusterAnnouncement an_leave (n_nodeId n) (n_hostname n)
              (str ["Node "; n_hostname n; " has left the cluster gracefully. Goodbye!"]) now None) a.

Definition onNodeOffline (now : Z) n a : ClusterAnnouncer :=
  announce (mkClusterAnnouncement an_leave (n_nodeId n) (n_hostname n)
              (str ["Node "; n_hostname n; " has gone offline. Last seen: "; formatTimeAgo now (n_lastSeen n)])
              now None) a.

(** ** Publishing *)

Definition publication (nodeId key entry_id : string) (now : Z) (x : ClusterAnnouncement) n : ContextPublication :=
  mkContextPublication (address_of n) entry_id nodeId "_cluster" "announcement" key
    (stringify (announcement_json x)) (js_toString now).

(** The other active nodes. *)
Definition recipients (selfId : string) (nodes : list NodeInfo) : list NodeInfo :=
  keep (fun n => negb (String.eqb (n_nodeId n) selfId) && bool_decide (n_status n = active)) nodes.

(** The loop over the recipients; the clock is read in each round. *)
Definition broadcastJoin (now : Z) (times : nat -> Z) (selfNode : NodeInfo) (nodes : list NodeInfo) a :
    list ContextPublication :=
  imap (fun i n => publication (an_nodeId (an_config a)) "node_join" ("announcement-" +:+ js_toString (times i)) (times i)
                     (createJoinAnnouncement now selfNode) n)
    (recipients (n_nodeId selfNode) nodes).

Definition message_announcement (now : Z) (message : string) a : ClusterAnnouncement :=
  mkClusterAnnouncement an_message (an_nodeId (an_config a)) (an_hostname (an_config a))
    (str [an_hostname (an_config a); ": "; message]) now None.

(** [broadcast] logs and emits its announcement without printing it. *)
Definition broadcast (now : Z) (times : nat -> Z) (message : string) (nodes : list NodeInfo) a :
    ClusterAnnouncer * list ContextPublication :=
  let x := message_announcement now message a in
  let j := announcement_json x in
  (emit_announcement j (logAnnouncement j a),
   imap (fun i n => publication (an_nodeId (an_config a)) "message" ("message-" +:+ js_toString (times i)) (times i) x n)
     (recipients (an_nodeId (an_config a)) nodes)).

(** [handleIncomingAnnouncement]; what was done before an exception stays done. *)
Definition handleIncomingAnnouncement (data : string) a : ClusterAnnouncer :=
  match parse data with
  | None => a
  | Some j =>
      let a := emit_announcement j (logAnnouncement j a) in
      default a (displayAnnouncement j a)
  end.

(** ** The status shown after joining *)

(** ['='.repeat(n)]. *)
Fixpoint repeated (s : string) (n : nat) : string :=
  match n with O => "" | S n => s +:+ repeated s n end.

Definition status_lines_of n : list string :=
  [str ["  "; n_hostname n; if bool_decide (n_role n = role_leader) then " [LEADER]" else "";
        match n_resources n with Some r => if r_gamingDetected r then " [GAMING]" else "" | None => "" end];
   str ["    "; address_of n; " | "; formatResourceBrief (n_resources n)]].

Definition showClusterStatus (nodes : list NodeInfo) (selfNode : NodeInfo) a : ClusterAnnouncer :=
  if an_silent (an_config a) then a
  else
    let activeNodes := recipients (n_nodeId selfNode) nodes in
    let bar := repeated "=" 60 in
    let rule := "  " +:+ repeated "-" 56 in
    a <| an_console ::= fun l => l ++
      [newline +:+ bar;
       "  Connected to Claude Cluster" +:+ (if an_invisible (an_config a) then " (invisible mode)" else "");
       bar;
       str ["  This node: "; n_hostname selfNode; " ("; js_slice_str (n_nodeId selfNode) 0 8; "...)"];
       "  Visible nodes: " +:+ js_toString (js_length activeNodes);
       ""] ++
      (if 0 <? js_length activeNodes
       then ["  Cluster Members:"; rule] ++ mjoin (status_lines_of <$> activeNodes) ++ [rule]
       else ["  No other nodes in cluster yet."]) ++
      [bar +:+ newline] |>.

(** The listener of 'joined'; the node is in its own table. *)
Definition onSelfJoined (now : Z) (times : nat -> Z) (selfNode : NodeInfo) (nodes : list NodeInfo) a :
    ClusterAnnouncer * list ContextPublication :=
  (showClusterStatus nodes selfNode a,
   if an_invisible (an_config a) then [] else broadcastJoin now times selfNode nodes a).

(** ** Theorems *)

Lemma js_slice_from_neg {A} (l : list A) k :
  0 <= k -> js_slice_from l (- k) = if k =? 0 then l else drop (length l - Z.to_nat k) l.
Proof.
  intros Hk. unfold js_slice_from, js_clamp, js_length. destruct (Z.eqb_spec k 0) as [->|Hne].
  - rewrite (proj2 (Z.ltb_ge _ _)), Z.min_l by lia. done.
  - rewrite (proj2 (Z.ltb_lt _ _)) by lia. f_equal. lia.
Qed.

Lemma slice_log {A} (l : list A) : js_slice_from l (- maxLogSize) = drop (length l - 100) l.
Proof. by rewrite (js_slice_from_neg l maxLogSize). Qed.

(** The end of the list of everything that was logged. *)
Definition newest (k : nat) (l : list json) : list json := drop (length l - k) l.

Lemma newest_snoc k l j : (0 < k)%nat ->
  newest k (newest k l ++ [j]) = newest k (l ++ [j]).
Proof.
  intros Hk. unfold newest. rewrite !length_app, length_drop. cbn [length].
  destruct (decide (length l <= k)%nat).
  - replace (length l - k)%nat with 0%nat by lia. rewrite drop_0. f_equal. lia.
  - replace (length l - (length l - k) + 1 - k)%nat with 1%nat by lia.
    replace (length l + 1 - k)%nat with (S (length l - k)) by lia.
    rewrite <- drop_app_le by lia. rewrite drop_drop. f_equal. lia.
Qed.

Lemma logAnnouncement_newest j a past :
  announcementLog a = newest 100 past -> announcementLog (logAnnouncement j a) = newest 100 (past ++ [j]).
Proof.
  intros H. unfold logAnnouncement. cbn [announcementLog field_update].
  rewrite <- newest_snoc by lia. rewrite <- H.
  set (l := announcementLog a ++ [j]). unfold js_length.
  destruct (Z.ltb_spec maxLogSize (Z.of_nat (length l))) as [Hlt|Hge]; cbn [announcementLog field_update].
  - apply slice_log.
  - unfold newest, maxLogSize in *. by replace (length l - 100)%nat with 0%nat by lia.
Qed.

(** What happens to an announcer, each with the values it logs. *)
Inductive announcer_run : ClusterAnnouncer -> list json -> Prop :=
  | ar_new c : announcer_run (new_ClusterAnnouncer c) []
  | ar_joined now n a past : announcer_run a past ->
      announcer_run (onNodeJoined now n a) (past ++ [announcement_json (createJoinAnnouncement now n)])
  | ar_left now n a past j : announcer_run a past -> j = default JNull (last (an_emitted (onNodeLeft now n a))) ->
      announcer_run (onNodeLeft now n a) (past ++ [j])
  | ar_offline now n a past j : announcer_run a past -> j = default JNull (last (an_emitted (onNodeOffline now n a))) ->
      announcer_run (onNodeOffline now n a) (past ++ [j])
  | ar_self now times self nodes a past : announcer_run a past ->
      announcer_run (onSelfJoined now times self nodes a).1 past
  | ar_broadcast now times m nodes a past : announcer_run a past ->
      announcer_run (broadcast now times m nodes a).1 (past ++ [announcement_json (message_announcement now m a)])
  | ar_incoming data j a past : announcer_run a past -> parse data = Some j ->
      announcer_run (handleIncomingAnnouncement data a) (past ++ [j])
  | ar_garbage data a past : announcer_run a past -> parse data = None ->
      announcer_run (handleIncomingAnnouncement data a) past.

Lemma announce_log x a :
  announcementLog (announce x a) = announcementLog (logAnnouncement (announcement_json x) a) /\
  an_emitted (announce x a) = an_emitted a ++ [announcement_json x].
Proof.
  assert (He : forall j, an_emitted (logAnnouncement j a) = an_emitted a)
    by (intros j; unfold logAnnouncement; by case_match).
  unfold announce, displayAnnouncement. set (j := announcement_json x).
  assert (Hl : exists line, announcement_line j = Some line) by (by eexists).
  destruct Hl as [line Hl]. rewrite Hl. cbn [mbind option_bind].
  case_match; cbn [default id announcementLog an_emitted emit_announcement field_update]; by rewrite He.
Qed.

Lemma incoming_log data j a : parse data = Some j ->
  announcementLog (handleIncomingAnnouncement data a) = announcementLog (logAnnouncement j a) /\
  an_emitted (handleIncomingAnnouncement data a) = an_emitted a ++ [j].
Proof.
  assert (He : forall j, an_emitted (logAnnouncement j a) = an_emitted a)
    by (intros j'; unfold logAnnouncement; by case_match).
  intros Hp. unfold handleIncomingAnnouncement, displayAnnouncement. rewrite Hp.
  case_match; [cbn; by rewrite He|]. destruct (announcement_line j); cbn; by rewrite He.
Qed.

(** The log is the last hundred of what was announced or received, in order, and every
    announcement is emitted once when it is logged. *)
Theorem log_keeps_newest a past :
  announcer_run a past -> announcementLog a = newest 100 past /\ an_emitted a = past.
Proof.
  induction 1 as [c|now n a past H [IH1 IH2]|now n a past j H [IH1 IH2] Hj|now n a past j H [IH1 IH2] Hj
    |now times self nodes a past H [IH1 IH2]|now times m nodes a past H [IH1 IH2]
    |data j a past H [IH1 IH2] Hp|data a past H [IH1 IH2] Hp].
  - done.
  - unfold onNodeJoined. destruct (announce_log (createJoinAnnouncement now n) a) as [-> ->].
    split; [by apply logAnnouncement_newest|by rewrite IH2].
  - unfold onNodeLeft in *. set (x := mkClusterAnnouncement _ _ _ _ _ _) in *.
    destruct (announce_log x a) as [-> E]. rewrite E in Hj |- *. rewrite last_snoc in Hj. cbn in Hj. subst j.
    split; [by apply logAnnouncement_newest|by rewrite IH2].
  - unfold onNodeOffline in *. set (x := mkClusterAnnouncement _ _ _ _ _ _) in *.
    destruct (announce_log x a) as [-> E]. rewrite E in Hj |- *. rewrite last_snoc in Hj. cbn in Hj. subst j.
    split; [by apply logAnnouncement_newest|by rewrite IH2].
  - cbn. unfold showClusterStatus. by case_match.
  - cbn. split; [by apply logAnnouncement_newest|].
    unfold emit_announcement. cbn. unfold logAnnouncement. case_match; cbn; by rewrite IH2.
  - destruct (incoming_log data j a Hp) as [-> ->]. split; [by apply logAnnouncement_newest|by rewrite IH2].
  - unfold handleIncomingAnnouncement. by rewrite Hp.
Qed.

Lemma calls_addresses (f : nat -> NodeInfo -> ContextPublication) l :
  (forall i n, cp_address (f i n) = address_of n) -> cp_address <$> imap f l = address_of <$> l.
Proof.
  intros H. rewrite fmap_imap, <- (imap_const address_of). apply imap_ext. intros i n _. apply H.
Qed.

(** A message of one announcer reaches every other active node of the table, once each
    and in the order of the table, and no one else; another announcer that is handed
    the published text logs exactly the announcement that the sender logged. *)
Theorem broadcast_reaches_active_nodes now times message nodes a :
  let '(a', calls) := broadcast now times message nodes a in
  let sent := announcement_json (message_announcement now message a) in
  cp_address <$> calls =
    address_of <$> keep (fun n => bool_decide (n_status n = active))
                     (keep (fun n => negb (String.eqb (n_nodeId n) (an_nodeId (an_config a)))) nodes) /\
  last (announcementLog a') = Some sent /\
  (json_wf sent = true -> forall c b, c ∈ calls ->
     last (announcementLog (handleIncomingAnnouncement (cp_value c) b)) = Some sent /\
     last (an_emitted (handleIncomingAnnouncement (cp_value c) b)) = Some sent).
Proof.
  unfold broadcast. set (x := message_announcement now message a).
  assert (Hlast : forall j b, last (announcementLog (logAnnouncement j b)) = Some j).
  { intros j b. unfold logAnnouncement. cbn [announcementLog field_update]. unfold js_length.
    destruct (Z.ltb_spec maxLogSize (Z.of_nat (length (announcementLog b ++ [j])))) as [Hl|];
      cbn [announcementLog field_update]; [|by rewrite last_snoc]. unfold maxLogSize in Hl.
    rewrite slice_log. rewrite length_app in Hl |- *. cbn [length] in Hl |- *.
    rewrite drop_app_le by lia. by rewrite last_snoc. }
  split_and!.
  - rewrite calls_addresses by done. unfold recipients, keep. rewrite list_filter_filter.
    f_equal. apply list_filter_iff. intros n. rewrite andb_true_iff. tauto.
  - apply Hlast.
  - intros Hwf c b Hc. apply elem_of_lookup_imap in Hc as (i & n & -> & _). cbn [cp_value publication].
    pose proof (parse_stringify _ Hwf) as Hp. destruct (incoming_log _ _ b Hp) as [-> ->].
    split; [apply Hlast|by rewrite last_snoc].
Qed.

(** A value that is no announcement is logged and emitted before the access to it
    throws. *)
Example null_is_announced c :
  an_silent c = false ->
  let a := handleIncomingAnnouncement "null" (new_ClusterAnnouncer c) in
  announcementLog a = [JNull] /\ an_emitted a = [JNull] /\ an_console a = [].
Proof. destruct c as [? ? ? []]; [done|]. by vm_compute. Qed.

Example shown_resources :
  formatResourceBrief (Some (mkNodeResources 16 (64 * 2 ^ 30) 0 [mkGpuInfo "NVIDIA GeForce RTX 4090" 0 0 0%Q false] 0 0 0%Q false)) =
    "16 CPU | 64 GB | RTX 4090" /\
  formatTimeAgo 200000 10000 = "3m ago".
Proof. by vm_compute. Qed.
