(* ===== verification/Secrets.v ===== *)
(** * Secrets at rest and in environments (src/src/security/secrets.ts)

    [SecretsManager] keeps named values in memory and, encrypted, in secrets.json.
    AES-256-GCM, PBKDF2 and the random source are parameters.  The state file is the
    record it holds ([None] when it is absent or does not parse); JSON keeps the
    fields of a secret as they are, so only the encryption is spelled out. *)

From S2P Require Import Prelude JsMap JsString Json JsNumber.
From Stdlib Require Import Ascii.

Record Secret := mkSecret {
  sec_name : string;
  sec_value : string;
  sec_encrypted : bool;
  sec_createdAt : Z;
  sec_updatedAt : Z
}.
#[export] Instance Secret_eta : EtaRecord Secret := fun s =>
  mkSecret (sec_name s) (sec_value s) (sec_encrypted s) (sec_createdAt s) (sec_updatedAt s).

Record SecretsManager := mkSecretsManager {
  masterKey : option string;
  secrets : jsmap Secret;
  loaded : bool
}.
#[export] Instance SecretsManager_eta : EtaRecord SecretsManager := fun m =>
  mkSecretsManager (masterKey m) (secrets m) (loaded m).

(** The files of the secrets directory. *)
Record SecretsDir := mkSecretsDir {
  key_file : option string;
  secrets_file : option (jsmap Secret)
}.
#[export] Instance SecretsDir_eta : EtaRecord SecretsDir := fun d =>
  mkSecretsDir (key_file d) (secrets_file d).

Definition new_SecretsManager : SecretsManager := mkSecretsManager None [] false.

(** What the code uses of node:crypto.  [gcm_seal key iv plaintext] is the
    ciphertext and the authentication tag, [gcm_open key iv tag ciphertext] the
    plaintext; [None] is an exception (a key of the wrong length, a tag that does
    not match). *)
Class Crypto := {
  gcm_seal : string -> string -> string -> option (string * string);
  gcm_open : string -> string -> string -> string -> option string;
  pbkdf2 : string -> string -> string
}.
Class CryptoLaws `{!Crypto} : Prop := {
  gcm_open_seal key iv p c t : gcm_seal key iv p = Some (c, t) -> gcm_open key iv t c = Some p
}.

Section secrets.
Context `{!Crypto}.
Implicit Types (m : SecretsManager) (d : SecretsDir).

(** ** Encryption *)

Definition encrypt (iv plaintext : string) m : option string :=
  key ← masterKey m;
  '(c, t) ← gcm_seal key iv plaintext;
  Some (hex_encode iv +:+ ":" +:+ hex_encode t +:+ ":" +:+ hex_encode c).

Definition decrypt (ciphertext : string) m : option string :=
  key ← masterKey m;
  match js_split ":" ciphertext with
  | ivHex :: authTagHex :: encrypted :: _ =>
      gcm_open key (hex_decode ivHex) (hex_decode authTagHex) (hex_decode encrypted)
  | _ => None
  end.

(** ** The file *)

(** The loop of [loadSecrets]; an exception leaves it with what was read. *)
Fixpoint load_loop (entries : jsmap Secret) m : SecretsManager :=
  match entries with
  | [] => m
  | (name, secret) :: entries' =>
      let value := match masterKey m with
                   | Some _ => if sec_encrypted secret then decrypt (sec_value secret) m
                               else Some (sec_value secret)
                   | None => Some (sec_value secret)
                   end in
      match value with
      | Some v => load_loop entries' (m <| secrets ::= fun s => jm_set s name (secret <| sec_value := v |>) |>)
      | None => m
      end
  end.

Definition loadSecrets d m : SecretsManager :=
  let m := match secrets_file d with Some entries => load_loop entries m | None => m end in
  m <| loaded := true |>.

(** [initialize]: [envKey] is the environment variable, [random] what
    [randomBytes(32)] returned. *)
Definition initialize (envKey : option string) (random : string) d m : SecretsManager * SecretsDir :=
  let '(key, d) :=
    match (match envKey with Some k => if truthy_str k then Some k else None | None => None end) with
    | Some k => (hex_decode k, d)
    | None => match key_file d with
              | Some k => (k, d)
              | None => (random, d <| key_file := Some random |>)
              end
    end in
  (loadSecrets d (m <| masterKey := Some key |>), d).

Definition stored (iv : string) m (s : Secret) : option Secret :=
  match masterKey m with
  | Some _ => v ← encrypt iv (sec_value s) m; Some (s <| sec_value := v |> <| sec_encrypted := true |>)
  | None => Some (s <| sec_encrypted := false |>)
  end.

(** The object [toStore]: assigning to the name __proto__ makes no property. *)
Fixpoint to_store (ivs : string -> string) m (entries : jsmap Secret) : option (jsmap Secret) :=
  match entries with
  | [] => Some []
  | (name, s) :: entries' =>
      s' ← stored (ivs name) m s;
      rest ← to_store ivs m entries';
      Some (if String.eqb name "__proto__" then rest else (name, s') :: rest)
  end.

(** [saveSecrets]: [None] when it throws, and then nothing is written. *)
Definition saveSecrets (ivs : string -> string) d m : option SecretsDir :=
  entries ← to_store ivs m (secrets m); Some (d <| secrets_file := Some entries |>).

(** ** Operations

    An operation changes the memory first; the flag says whether it then completed
    or threw while saving. *)
Definition set (now : Z) (ivs : string -> string) (name value : string) d m :
    SecretsManager * SecretsDir * bool :=
  let created := match jm_get (secrets m) name with Some e => sec_createdAt e | None => now end in
  let encrypted := match masterKey m with Some _ => true | None => false end in
  let m := m <| secrets ::= fun s => jm_set s name (mkSecret name value encrypted created now) |> in
  match saveSecrets ivs d m with
  | Some d => (m, d, true)
  | None => (m, d, false)
  end.

Definition get (name : string) m : option string := sec_value <$> jm_get (secrets m) name.

(** The answer is [None] when saving threw. *)
Definition delete (ivs : string -> string) (name : string) d m :
    SecretsManager * SecretsDir * option bool :=
  if jm_has (secrets m) name then
    let m := m <| secrets ::= fun s => jm_delete s name |> in
    match saveSecrets ivs d m with
    | Some d => (m, d, Some true)
    | None => (m, d, None)
    end
  else (m, d, Some false).

Definition list_names m : list string := jm_keys (secrets m).
Definition has (name : string) m : bool := jm_has (secrets m) name.

(** ** Hashes *)

Definition generateSecret (random : string) : string := hex_encode random.

Definition hash_value (value : string) (salt : option string) (random : string) : string * string :=
  let useSalt := match salt with Some s => s | None => hex_encode random end in
  (hex_encode (pbkdf2 value useSalt), useSalt).

(** [timingSafeEqual] throws on different lengths ([None]). *)
Definition verifyHash (value hash salt : string) : option bool :=
  let computed := hex_encode (pbkdf2 value salt) in
  if (String.length computed =? String.length hash)%nat then Some (String.eqb computed hash) else None.

(** ** Environments *)

(** The text up to the first closing brace, and what follows it. *)
Fixpoint until_brace (s : string) : option (string * string) :=
  match s with
  | EmptyString => None
  | String c s' =>
      if Ascii.eqb c "}" then Some ("", s')
      else '(name, rest) ← until_brace s'; Some (String c name, rest)
  end.

(** The match of [/\$\{([^}]+)\}/] at the start of a text. *)
Definition reference (s : string) : option (string * string) :=
  match s with
  | String "$" (String "{" t) =>
      '(name, rest) ← until_brace t; if truthy_str name then Some (name, rest) else None
  | _ => None
  end.

(** [value.replace(/.../g, f)]: the matches from left to right; the fuel is the
    length of the text. *)
Fixpoint interpolate_from (fuel : nat) (s : string) m : string :=
  match fuel with
  | O => s
  | S fuel =>
      match reference s with
      | Some (name, rest) =>
          default ("${" +:+ name +:+ "}") (get name m) +:+ interpolate_from fuel rest m
      | None =>
          match s with
          | EmptyString => EmptyString
          | String c s' => String c (interpolate_from fuel s' m)
          end
      end
  end.

Definition interpolate (value : string) m : string := interpolate_from (String.length value) value m.

Definition injectSecrets (env : jsmap string) m : jsmap string := jm_map (fun v => interpolate v m) env.

Definition getSecretsAsEnv (prefix : string) m : jsmap string :=
  foldl (fun env name =>
    match get name m with
    | Some v => if truthy_str v then jm_set env (prefix +:+ js_toUpperCase name) v else env
    | None => env
    end) [] (list_names m).

End secrets.

(** * Theorems about secrets (Secrets.v) *)

(** ** Encryption *)

Section secrets.
Context `{!Crypto} `{!CryptoLaws}.
Implicit Types (m : SecretsManager) (d : SecretsDir).

Lemma decrypt_encrypt iv p m m' c : masterKey m' = masterKey m ->
  encrypt iv p m = Some c -> decrypt c m' = Some p.
Proof.
  unfold encrypt, decrypt. intros ->. destruct (masterKey m) as [key|]; [|done]. cbn [mbind option_bind].
  destruct (gcm_seal key iv p) as [[ct tag]|] eqn:E; [|done]. cbn [mbind option_bind]. intros [= <-].
  rewrite !js_split_cons, js_split_free by apply hex_free. rewrite !hex_roundtrip.
  by apply gcm_open_seal.
Qed.

Lemma decrypt_key c m m' : masterKey m = masterKey m' -> decrypt c m = decrypt c m'.
Proof. unfold decrypt. by intros ->. Qed.

(** What is loaded for a stored secret. *)
Definition reloaded (s : Secret) : Secret := s <| sec_encrypted := true |>.

Lemma stored_decrypts iv m m' s s' : masterKey m' = masterKey m -> is_Some (masterKey m) ->
  stored iv m s = Some s' ->
  sec_encrypted s' = true /\ decrypt (sec_value s') m' = Some (sec_value s) /\
  s' <| sec_value := sec_value s |> = reloaded s.
Proof.
  unfold stored. intros Hk [key Hkey]. rewrite Hkey.
  destruct (encrypt iv (sec_value s) m) as [c|] eqn:E; [|done]. cbn. intros [= <-].
  split; [done|]. split; [|by destruct s]. cbn. by eapply decrypt_encrypt.
Qed.

Lemma load_loop_stored ivs m entries out m' n :
  is_Some (masterKey m) -> masterKey m' = masterKey m -> NoDup entries.*1 ->
  to_store ivs m entries = Some out ->
  masterKey (load_loop out m') = masterKey m /\
  jm_get (secrets (load_loop out m')) n =
    if decide (n = "__proto__") then jm_get (secrets m') n
    else match jm_get entries n with
         | Some s => Some (reloaded s)
         | None => jm_get (secrets m') n
         end.
Proof.
  intros Hsome. revert out m'. induction entries as [|[name s] entries IH]; intros out m' Hk Hnd Ho.
  { injection Ho as <-. cbn. split; [done|]. by case_decide. }
  rewrite fmap_cons, NoDup_cons in Hnd. destruct Hnd as [Hn Hnd]. cbn [to_store] in Ho.
  destruct (stored (ivs name) m s) as [s'|] eqn:Es; [|done]. cbn [mbind option_bind] in Ho.
  destruct (to_store ivs m entries) as [rest|] eqn:Er; [|done]. cbn [mbind option_bind] in Ho.
  injection Ho as <-. destruct (String.eqb_spec name "__proto__") as [->|Hne].
  - destruct (IH rest m' Hk Hnd eq_refl) as [IHk IHg]. split; [done|]. rewrite IHg.
    case_decide; [done|]. cbn [jm_get]. by rewrite (proj2 (String.eqb_neq _ _)) by auto.
  - cbn [load_loop]. destruct (stored_decrypts (ivs name) m m' s s' Hk Hsome Es) as (He & Hd & Hs).
    rewrite Hk. destruct Hsome as [key Hkey]. rewrite Hkey, He, Hd.
    set (m1 := m' <| secrets ::= _ |>). destruct (IH rest m1 Hk Hnd eq_refl) as [IHk IHg].
    split; [by rewrite <- Hkey|]. rewrite IHg. cbn [jm_get].
    assert (Hm1 : jm_get (secrets m1) n = if decide (name = n) then Some (reloaded s) else jm_get (secrets m') n).
    { cbn. rewrite jm_get_set. by rewrite Hs. }
    rewrite Hm1. destruct (String.eqb_spec name n) as [->|Hnn].
    + rewrite (decide_True (P := n = n)) by done. case_decide; [done|].
      destruct (jm_get entries n) as [s2|] eqn:E; [|done].
      exfalso. apply Hn. apply jm_has_keys. by eapply jm_get_has.
    + by rewrite (decide_False (P := name = n)) by done.
Qed.

(** C36: secrets survive a restart.  After a completed [set], a manager that is
    started with the same key file holds the new value under its name, every other
    secret with its value and creation time, and nothing else; only a secret called
    __proto__ is not written. *)
Theorem secrets_survive_restart now ivs random name value d m key m' d' :
  masterKey m = Some key -> key_file d = Some key -> jm_wf (secrets m) ->
  set now ivs name value d m = (m', d', true) ->
  let m2 := (initialize None random d' new_SecretsManager).1 in
  loaded m2 = true /\ get "__proto__" m2 = None /\
  (name <> "__proto__" -> get name m2 = Some value) /\
  (forall n, n <> "__proto__" -> n <> name -> get n m2 = get n m /\
     sec_createdAt <$> jm_get (secrets m2) n = sec_createdAt <$> jm_get (secrets m) n).
Proof.
  intros Hk Hf Hwf. unfold set, saveSecrets. cbv zeta. rewrite Hk.
  set (s0 := mkSecret name value true _ now). set (m1 := m <| secrets ::= _ |>).
  destruct (to_store ivs m1 (secrets m1)) as [out|] eqn:Eo; [|done]. cbn [mbind option_bind].
  intros [= <- <-].
  assert (Hs1 : is_Some (masterKey m1)) by (exists key; exact Hk).
  unfold initialize. cbn [secrets_file key_file]. change (key_file (d <| secrets_file := Some out |>)) with (key_file d).
  rewrite Hf. cbn [fst].
  set (m0 := new_SecretsManager <| masterKey := Some key |>).
  assert (Hg : forall n, jm_get (secrets (loadSecrets (d <| secrets_file := Some out |>) m0)) n =
    if decide (n = "__proto__") then None else reloaded <$> jm_get (secrets m1) n).
  { intros n. change (jm_get (secrets (load_loop out m0)) n =
      if decide (n = "__proto__") then None else reloaded <$> jm_get (secrets m1) n).
    destruct (load_loop_stored ivs m1 (secrets m1) out m0 n) as [_ ->]; [done|exact (eq_sym Hk)| |done|].
    - change (jm_wf (jm_set (secrets m) name s0)). by apply jm_wf_set.
    - case_decide; [done|]. by destruct (jm_get (secrets m1) n). }
  split; [done|]. unfold get. split_and!.
  - by rewrite Hg.
  - intros Hne. rewrite Hg, decide_False by done. change (secrets m1) with (jm_set (secrets m) name s0).
    by rewrite jm_get_set_eq.
  - intros n Hp Hne. rewrite Hg, decide_False by done. change (secrets m1) with (jm_set (secrets m) name s0).
    rewrite jm_get_set_ne by done. by destruct (jm_get (secrets m) n).
Qed.

(** A secrets file that cannot be decrypted is lost.  When the first stored
    secret does not open under the key at hand, the manager starts empty and says
    so only in its log; the next [set] writes a file that holds nothing but the new
    secret. *)
Theorem undecryptable_file_lost now ivs random name value d key n0 s0 rest m' d' :
  key_file d = Some key -> secrets_file d = Some ((n0, s0) :: rest) -> sec_encrypted s0 = true ->
  decrypt (sec_value s0) (mkSecretsManager (Some key) [] false) = None ->
  name <> "__proto__" ->
  let m := (initialize None random d new_SecretsManager).1 in
  list_names m = [] /\ loaded m = true /\
  (set now ivs name value d m = (m', d', true) ->
   exists s, secrets_file d' = Some [(name, s)]).
Proof.
  intros Hf Hs He Hd Hne. unfold initialize. rewrite Hf. cbn [fst]. unfold loadSecrets. rewrite Hs.
  cbn [load_loop new_SecretsManager field_update masterKey]. rewrite He.
  rewrite (decrypt_key (sec_value s0) _ (mkSecretsManager (Some key) [] false)) by done. rewrite Hd. split; [done|]. split; [done|].
  unfold set, saveSecrets. cbv zeta.
  cbn [new_SecretsManager jm_get secrets field_update masterKey jm_set to_store].
  match goal with |- context [stored ?iv ?m ?s] => destruct (stored iv m s) as [s'|]; [|done] end.
  cbn [mbind option_bind]. rewrite (proj2 (String.eqb_neq _ _)) by done.
  intros [= _ <-]. by exists s'.
Qed.

(** ** Interpolation *)

(** A text as literal parts and references. *)
Inductive piece := lit (t : string) | ref (name : string).

Definition piece_ok (p : piece) : Prop :=
  match p with
  | lit t => free_of "$" t = true
  | ref name => name <> "" /\ free_of "}" name = true
  end.

Definition render (p : piece) : string :=
  match p with lit t => t | ref name => "${" +:+ name +:+ "}" end.
Definition value_of m (p : piece) : string :=
  match p with lit t => t | ref name => default ("${" +:+ name +:+ "}") (get name m) end.
Definition concat_map (f : piece -> string) (l : list piece) : string :=
  foldr (fun p acc => f p +:+ acc) "" l.

Lemma until_brace_free name rest : free_of "}" name = true ->
  until_brace (name +:+ "}" +:+ rest) = Some (name, rest).
Proof.
  induction name as [|c name IH]; [done|]. cbn [free_of]. intros [Hc Hn]%andb_true_iff.
  apply negb_true_iff in Hc. rewrite str_app_cons. cbn [until_brace]. by rewrite Hc, IH.
Qed.

Lemma reference_ref name rest : name <> "" -> free_of "}" name = true ->
  reference ("${" +:+ name +:+ "}" +:+ rest) = Some (name, rest).
Proof.
  intros Hn Hf. pose proof (until_brace_free name rest Hf) as Hu.
  rewrite !str_app_cons, !str_app_nil in *. cbn [reference]. rewrite Hu. cbn [mbind option_bind].
  unfold truthy_str. by rewrite (proj2 (String.eqb_neq _ _)).
Qed.

Lemma reference_lit c s : Ascii.eqb c "$" = false -> reference (String c s) = None.
Proof. intros Hc. destruct c as [[] [] [] [] [] [] [] []]; try done. Qed.

Lemma interpolate_lit t s fuel m : free_of "$" t = true ->
  interpolate_from (String.length t + fuel) (t +:+ s) m = t +:+ interpolate_from fuel s m.
Proof.
  induction t as [|c t IH]; [done|]. cbn [free_of]. intros [Hc Ht]%andb_true_iff.
  apply negb_true_iff in Hc. rewrite !str_app_cons. cbn [String.length Nat.add interpolate_from].
  rewrite reference_lit by done. by rewrite IH.
Qed.

Lemma interpolate_enough fuel l m : Forall piece_ok l ->
  (String.length (concat_map render l) <= fuel)%nat ->
  interpolate_from fuel (concat_map render l) m = concat_map (value_of m) l.
Proof.
  intros Hl. revert fuel. induction Hl as [|p l Hp Hl IH]; intros fuel Hlen; [by destruct fuel|].
  change (concat_map render (p :: l)) with (render p +:+ concat_map render l) in *.
  change (concat_map (value_of m) (p :: l)) with (value_of m p +:+ concat_map (value_of m) l).
  rewrite str_length_app in Hlen. destruct p as [t|name]; cbn [render value_of] in *.
  - replace fuel with (String.length t + (fuel - String.length t))%nat by lia.
    rewrite interpolate_lit by done. f_equal. apply IH. lia.
  - destruct Hp as [Hn Hf]. rewrite !str_length_app in Hlen. cbn in Hlen.
    destruct fuel as [|fuel]; [lia|]. cbn [interpolate_from].
    rewrite !str_app_assoc, reference_ref by done. f_equal. apply IH. lia.
Qed.

(** Interpolation.  In a text made of literal parts and of references
    [${name}], every reference to a known secret is replaced by its value, a
    reference to an unknown one is kept, the literal parts stay, and inserted
    values are not scanned again. *)
Theorem interpolate_exact l m : Forall piece_ok l ->
  interpolate (concat_map render l) m = concat_map (value_of m) l.
Proof. intros. by apply interpolate_enough. Qed.

End secrets.

(** ** Instances *)

(** A cipher for the instances: the key must match. *)
Definition toy_crypto : Crypto := {|
  gcm_seal key iv p := if (String.length key =? 2)%nat then Some (p, key) else None;
  gcm_open key iv tag c := if String.eqb key tag then Some c else None;
  pbkdf2 v s := v +:+ s
|}.

Lemma toy_laws : @CryptoLaws toy_crypto.
Proof.
  split. intros key iv p c t. cbn. destruct (_ =? 2)%nat; [|done]. intros [= <- <-].
  by rewrite String.eqb_refl.
Qed.

Definition dir_k : SecretsDir := mkSecretsDir (Some "k1") None.
Definition manager_k : SecretsManager := mkSecretsManager (Some "k1") [] true.
Definition ivs0 (name : string) : string := "iv".

Lemma secrets_survive_restart_witness :
  exists m' d', @set toy_crypto 5 ivs0 "token" "abc" dir_k manager_k = (m', d', true) /\
    get "token" (@initialize toy_crypto None "r" d' new_SecretsManager).1 = Some "abc".
Proof.
  assert (Hset : @set toy_crypto 5 ivs0 "token" "abc" dir_k manager_k =
    ((@set toy_crypto 5 ivs0 "token" "abc" dir_k manager_k).1.1,
     (@set toy_crypto 5 ivs0 "token" "abc" dir_k manager_k).1.2, true)) by (vm_compute; reflexivity).
  do 2 eexists. split; [exact Hset|].
  destruct (@secrets_survive_restart toy_crypto toy_laws 5 ivs0 "r" "token" "abc" dir_k manager_k "k1" _ _
    eq_refl eq_refl jm_wf_nil Hset) as (_ & _ & H & _). by apply H.
Defined.

(** A file written under the key k1, read with the key k2. *)
Definition dir_other : SecretsDir :=
  mkSecretsDir (Some "k2") (secrets_file (@set toy_crypto 5 ivs0 "token" "abc" dir_k manager_k).1.2).

Definition after_set : SecretsManager * SecretsDir * bool :=
  @set toy_crypto 9 ivs0 "other" "x" dir_other (@initialize toy_crypto None "r" dir_other new_SecretsManager).1.

Lemma undecryptable_file_lost_witness : exists s, secrets_file after_set.1.2 = Some [("other", s)].
Proof.
  assert (Hset : after_set = (after_set.1.1, after_set.1.2, true)) by (vm_compute; reflexivity).
  destruct (@undecryptable_file_lost toy_crypto 9 ivs0 "r" "other" "x" dir_other "k2" "token"
    (mkSecret "token" "6976:6b31:616263" true 5 5) [] after_set.1.1 after_set.1.2
    eq_refl eq_refl eq_refl eq_refl ltac:(discriminate)) as (_ & _ & H).
  exact (H Hset).
Defined.

Lemma interpolate_exact_witness :
  @interpolate "user:${token}@host" (manager_k <| secrets := [("token", mkSecret "token" "a${x}b" true 0 0)] |>)
    = "user:a${x}b@host".
Proof.
  apply (interpolate_exact [lit "user:"; ref "token"; lit "@host"]).
  repeat constructor; done.
Defined.
