(* ===== verification/Providers.v ===== *)
(** * Model providers and their router (src/src/providers/types.ts, router.ts)

    A provider is a record of operations on a world [W], everything outside the
    program that a call may change; a call that throws answers with the message of
    its error.  The router is itself such a record. *)

From S2P Require Import Prelude JsString Json.
From Stdlib Require Import QArith.
#[local] Open Scope Z_scope.

Inductive ContentBlock :=
  | text_block (text : string)
  | tool_use (id name : string) (input : json)
  | tool_result (tool_use_id content : string).

Inductive Role := user | assistant | system.
#[export] Instance Role_eq_dec : EqDecision Role.
Proof. solve_decision. Defined.

Inductive Content := plain (text : string) | blocks (l : list ContentBlock).

Record ChatMessage := mkChatMessage { cm_role : Role; cm_content : Content }.

Record ToolDefinition := mkToolDefinition {
  td_name : string;
  td_description : string;
  td_inputSchema : json
}.

Record ChatOptions := mkChatOptions {
  co_model : option string;
  co_maxTokens : option Z;
  co_temperature : option Q;
  co_systemPrompt : option string;
  co_tools : option (list ToolDefinition)
}.

Record ToolCall := mkToolCall { tk_id : string; tk_name : string; tk_input : json }.

Record TokenUsage := mkTokenUsage { us_inputTokens : Z; us_outputTokens : Z }.

(** A missing list of tool calls is the empty one: the program tests for both. *)
Record ChatResponse := mkChatResponse {
  cr_content : string;
  cr_model : string;
  cr_usage : TokenUsage;
  cr_stopReason : option string;
  cr_toolCalls : list ToolCall
}.

Record StreamChunk := mkStreamChunk { sc_content : string; sc_done : bool }.

(** A stream is the chunks it yields and, if it fails, its error. *)
Record LLMProvider (W : Type) := mkLLMProvider {
  name : string;
  chat : list ChatMessage -> ChatOptions -> W -> W * (string + ChatResponse);
  stream : list ChatMessage -> ChatOptions -> W -> W * (list StreamChunk * option string);
  models : W -> W * (string + list string);
  isAvailable : W -> W * (string + bool)
}.
Arguments mkLLMProvider {W} _ _ _ _ _.
Arguments name {W} _.
Arguments chat {W} _ _ _ _.
Arguments stream {W} _ _ _ _.
Arguments models {W} _ _.
Arguments isAvailable {W} _ _.

(** [parts.join(sep)]. *)
Fixpoint join (sep : string) (l : list string) : string :=
  match l with
  | [] => ""
  | [x] => x
  | x :: l' => x +:+ sep +:+ join sep l'
  end.

Section router.
Context {W : Type}.
Implicit Types (w : W).

Record ProviderRouter := mkProviderRouter {
  primary : LLMProvider W;
  fallback : list (LLMProvider W)
}.

Definition providers (r : ProviderRouter) : list (LLMProvider W) := primary r :: fallback r.

Definition all_failed (errors : list string) : string := "All providers failed: " +:+ join "; " errors.

(** The loop of [chat]. *)
Fixpoint chat_loop (ps : list (LLMProvider W)) (errors : list string) (messages : list ChatMessage)
    (options : ChatOptions) w : W * (string + ChatResponse) :=
  match ps with
  | [] => (w, inl (all_failed errors))
  | p :: ps' =>
      match chat p messages options w with
      | (w, inr r) => (w, inr r)
      | (w, inl e) => chat_loop ps' (errors ++ [e]) messages options w
      end
  end.

Definition router_chat (r : ProviderRouter) messages options w :=
  chat_loop (providers r) [] messages options w.

(** The loop of [stream]: what a failing provider yielded has been passed on. *)
Fixpoint stream_loop (ps : list (LLMProvider W)) (errors : list string) (messages : list ChatMessage)
    (options : ChatOptions) w : W * (list StreamChunk * option string) :=
  match ps with
  | [] => (w, ([], Some (all_failed errors)))
  | p :: ps' =>
      match stream p messages options w with
      | (w, (chunks, None)) => (w, (chunks, None))
      | (w, (chunks, Some e)) =>
          let '(w, (more, err)) := stream_loop ps' (errors ++ [e]) messages options w in
          (w, (chunks ++ more, err))
      end
  end.

Definition router_stream (r : ProviderRouter) messages options w :=
  stream_loop (providers r) [] messages options w.

Fixpoint models_loop (ps : list (LLMProvider W)) (allModels : list string) w : W * list string :=
  match ps with
  | [] => (w, allModels)
  | p :: ps' =>
      match models p w with
      | (w, inr ms) => models_loop ps' (allModels ++ ms) w
      | (w, inl _) => models_loop ps' allModels w
      end
  end.

Definition router_models (r : ProviderRouter) w : W * (string + list string) :=
  let '(w, ms) := models_loop (providers r) [] w in (w, inr ms).

Fixpoint available_loop (ps : list (LLMProvider W)) w : W * (string + bool) :=
  match ps with
  | [] => (w, inr false)
  | p :: ps' =>
      match isAvailable p w with
      | (w, inr true) => (w, inr true)
      | (w, inr false) => available_loop ps' w
      | (w, inl e) => (w, inl e)
      end
  end.

Definition router_isAvailable (r : ProviderRouter) w := available_loop (providers r) w.

Definition listProviders (r : ProviderRouter) : list string := name <$> providers r.

Definition getProvider (r : ProviderRouter) (n : string) : option (LLMProvider W) :=
  if String.eqb (name (primary r)) n then Some (primary r)
  else List.find (fun p => String.eqb (name p) n) (fallback r).

Definition router_provider (r : ProviderRouter) : LLMProvider W :=
  mkLLMProvider "router" (router_chat r) (router_stream r) (router_models r) (router_isAvailable r).

(** ** What the router answers *)

(** The providers of a list all throw, one after the other. *)
Inductive all_throw (messages : list ChatMessage) (options : ChatOptions) :
    list (LLMProvider W) -> W -> list string -> W -> Prop :=
  | throw_nil w : all_throw messages options [] w [] w
  | throw_cons p ps w e w1 es w2 :
      chat p messages options w = (w1, inl e) -> all_throw messages options ps w1 es w2 ->
      all_throw messages options (p :: ps) w (e :: es) w2.

Lemma chat_loop_cases ps errors messages options w :
  (exists before p after es w1 w2 r, ps = before ++ p :: after /\
     all_throw messages options before w es w1 /\ chat p messages options w1 = (w2, inr r) /\
     chat_loop ps errors messages options w = (w2, inr r)) \/
  (exists es w1, all_throw messages options ps w es w1 /\
     chat_loop ps errors messages options w = (w1, inl (all_failed (errors ++ es)))).
Proof.
  revert errors w. induction ps as [|p ps IH]; intros errors w; cbn.
  - right. exists [], w. rewrite app_nil_r. split; [constructor|done].
  - destruct (chat p messages options w) as [w1 [e|r]] eqn:E.
    + destruct (IH (errors ++ [e]) w1) as
        [(b & q & a & es & w2 & w3 & r & -> & Ht & Hc & Hl)|(es & w2 & Ht & Hl)].
      * left. exists (p :: b), q, a, (e :: es), w2, w3, r. split_and!; [done|by econstructor|done|done].
      * right. exists (e :: es), w2. split; [by econstructor|]. by rewrite Hl, <- app_assoc.
    + left. exists [], p, ps, [], w, w1, r. split_and!; [done|constructor|done|done].
Qed.

(** Failing over.  The router answers with the first provider, the primary
    one first, that answers, all before it having thrown and none after it being
    asked; when all throw, it throws, and its message lists theirs in that order. *)
Theorem router_first_success r messages options w :
  (exists before p after es w1 w2 resp, providers r = before ++ p :: after /\
     all_throw messages options before w es w1 /\ chat p messages options w1 = (w2, inr resp) /\
     chat (router_provider r) messages options w = (w2, inr resp)) \/
  (exists es w1, all_throw messages options (providers r) w es w1 /\
     chat (router_provider r) messages options w =
       (w1, inl ("All providers failed: " +:+ join "; " es))).
Proof. apply (chat_loop_cases (providers r) []). Qed.

End router.
Arguments ProviderRouter : clear implicits.
Arguments mkProviderRouter {W} _ _.

(** Streaming falls back too, but what the failed provider has already yielded is
    not taken back: the consumer sees the beginning twice. *)
Example stream_repeats_the_beginning :
  let p1 := mkLLMProvider "a" (fun _ _ (w : unit) => (w, inl "")) (fun _ _ w =>
              (w, ([mkStreamChunk "Hello" false], Some "reset"))) (fun w => (w, inr [])) (fun w => (w, inr true)) in
  let p2 := mkLLMProvider "b" (fun _ _ (w : unit) => (w, inl "")) (fun _ _ w =>
              (w, ([mkStreamChunk "Hello" false; mkStreamChunk " world" true], None)))
              (fun w => (w, inr [])) (fun w => (w, inr true)) in
  sc_content <$> (router_stream (mkProviderRouter p1 [p2]) [] (mkChatOptions None None None None None) tt).2.1
    = ["Hello"; "Hello"; " world"].
Proof. by vm_compute. Qed.
