(* ===== verification/Conversation.v ===== *)
(** * Conversations with tools (src/src/messaging/conversation.ts, persistence.ts)

    [handleMessage] loads the history of a chat, asks the model, runs the tools it
    calls and asks again, and stores the trimmed history.  The provider and the
    tools act on a world [W]; the history is kept either in a Map or in an SQL
    table, behind the interface [HistoryStore]. *)

From S2P Require Import Prelude JsMap JsString Json Providers.
#[local] Open Scope Z_scope.

Definition MAX_TOOL_RESULT_LENGTH : Z := 4000.
Definition DEFAULT_MAX_HISTORY : Z := 20.
Definition DEFAULT_MAX_TOOL_ITERATIONS : Z := 5.

(** A tool's handler throws (its message), or answers with a JSON value or with
    [undefined]. *)
Record ToolHandler (W : Type) := mkToolHandler {
  th_description : string;
  th_inputSchema : json;
  th_handler : json -> W -> W * (string + option json)
}.
Arguments mkToolHandler {W} _ _ _.
Arguments th_description {W} _.
Arguments th_inputSchema {W} _.
Arguments th_handler {W} _ _ _.

(** ** The store of histories *)

Class HistoryStore (St : Type) := {
  hs_load : string -> St -> list ChatMessage;
  hs_save : string -> list ChatMessage -> St -> St;
  hs_clear : string -> St -> St;
  storable : list ChatMessage -> Prop
}.
Class HistoryStoreLaws (St : Type) `{!HistoryStore St} : Prop := {
  load_save_eq id h s : storable h -> hs_load id (hs_save id h s) = h;
  load_save_ne id id' h s : id <> id' -> hs_load id' (hs_save id h s) = hs_load id' s
}.

(** The Map of the handler itself. *)
Abbreviation Histories := (jsmap (list ChatMessage)).
#[export] Instance memory_store : HistoryStore Histories := {|
  hs_load id s := default [] (jm_get s id);
  hs_save id h s := jm_set s id h;
  hs_clear id s := jm_delete s id;
  storable h := True
|}.
#[export] Instance memory_store_laws : HistoryStoreLaws Histories.
Proof.
  split; cbn; intros.
  - by rewrite jm_get_set_eq.
  - by rewrite jm_get_set_ne.
Qed.

(** The JSON of a history, and the reading of it. *)
Definition block_json (b : ContentBlock) : json :=
  match b with
  | text_block t => JObj [("type", JStr "text"); ("text", JStr t)]
  | tool_use id n i => JObj [("type", JStr "tool_use"); ("id", JStr id); ("name", JStr n); ("input", i)]
  | tool_result id c => JObj [("type", JStr "tool_result"); ("tool_use_id", JStr id); ("content", JStr c)]
  end.

Definition role_name (r : Role) : string :=
  match r with user => "user" | assistant => "assistant" | system => "system" end.

Definition message_json (m : ChatMessage) : json :=
  JObj [("role", JStr (role_name (cm_role m)));
        ("content", match cm_content m with plain t => JStr t | blocks l => JArr (map block_json l) end)].

Definition history_json (h : list ChatMessage) : json := JArr (map message_json h).

Definition json_block (j : json) : option ContentBlock :=
  match j with
  | JObj l =>
      match jm_get l "type" with
      | Some (JStr "text") => match jm_get l "text" with Some (JStr t) => Some (text_block t) | _ => None end
      | Some (JStr "tool_use") =>
          match jm_get l "id", jm_get l "name", jm_get l "input" with
          | Some (JStr id), Some (JStr n), Some i => Some (tool_use id n i)
          | _, _, _ => None
          end
      | Some (JStr "tool_result") =>
          match jm_get l "tool_use_id", jm_get l "content" with
          | Some (JStr id), Some (JStr c) => Some (tool_result id c)
          | _, _ => None
          end
      | _ => None
      end
  | _ => None
  end.

Definition json_role (j : json) : option Role :=
  match j with
  | JStr "user" => Some user
  | JStr "assistant" => Some assistant
  | JStr "system" => Some system
  | _ => None
  end.

Definition json_message (j : json) : option ChatMessage :=
  match j with
  | JObj l =>
      r ← jm_get l "role" ≫= json_role;
      match jm_get l "content" with
      | Some (JStr t) => Some (mkChatMessage r (plain t))
      | Some (JArr bs) => bs ← mapM json_block bs; Some (mkChatMessage r (blocks bs))
      | _ => None
      end
  | _ => None
  end.

Definition json_history (j : json) : option (list ChatMessage) :=
  match j with JArr l => mapM json_message l | _ => None end.

(** The table bot_conversations: chat id and the text of the history.  Text that
    does not parse gives the empty history; text that holds something other than a
    history (the cast of [load] does not look) is treated the same way here. *)
Record ConversationStore := mkConversationStore { rows : jsmap string }.

#[export] Instance sql_store : HistoryStore ConversationStore := {|
  hs_load id s :=
    match jm_get (rows s) id with
    | Some text => default [] (parse text ≫= json_history)
    | None => []
    end;
  hs_save id h s := mkConversationStore (jm_set (rows s) id (stringify (history_json h)));
  hs_clear id s := mkConversationStore (jm_delete (rows s) id);
  storable h := json_wf (history_json h) = true
|}.

Lemma json_block_block b : json_block (block_json b) = Some b.
Proof. by destruct b. Qed.

Lemma mapM_map {A B} (f : B -> option A) (g : A -> B) l :
  (forall x, f (g x) = Some x) -> mapM f (map g l) = Some l.
Proof.
  intros H. induction l as [|x l IH]; [done|]. cbn [map mapM]. rewrite H, IH. done.
Qed.

Lemma json_message_message m : json_message (message_json m) = Some m.
Proof.
  destruct m as [r c]. unfold message_json, json_message. cbn [cm_role cm_content].
  change (jm_get _ "role") with (Some (JStr (role_name r))).
  cbn [mbind option_bind]. replace (json_role (JStr (role_name r))) with (Some r) by (by destruct r).
  cbn [mbind option_bind]. destruct c as [t|bs]; [done|].
  change (jm_get _ "content") with (Some (JArr (map block_json bs))).
  cbv iota beta. by rewrite (mapM_map json_block block_json bs json_block_block).
Qed.

#[export] Instance sql_store_laws : HistoryStoreLaws ConversationStore.
Proof.
  split; cbn [hs_load hs_save storable sql_store rows]; intros.
  - rewrite jm_get_set_eq, parse_stringify by done. cbn [mbind option_bind json_history history_json].
    by rewrite (mapM_map json_message message_json h json_message_message).
  - by rewrite jm_get_set_ne.
Qed.

(** ** The handler *)

Section conversation.
Context {W : Type} {St : Type} `{!HistoryStore St}.

Record ConversationHandler := mkConversationHandler {
  ch_provider : LLMProvider W;
  ch_tools : jsmap (ToolHandler W);
  ch_systemPrompt : string;
  ch_maxHistory : Z;
  ch_maxToolIterations : Z
}.
Implicit Types (c : ConversationHandler) (w : W) (st : St).

Definition default_prompt (agentName : option string) : string :=
  "You are " +:+ default "Cortex" agentName +:+ ", an AI assistant. You have access to tools for managing a compute cluster. Be concise and helpful. When using tools, explain what you're doing briefly.".

Definition new_ConversationHandler (provider : LLMProvider W) (tools : jsmap (ToolHandler W))
    (agentName systemPrompt : option string) (maxHistory maxToolIterations : option Z) : ConversationHandler :=
  mkConversationHandler provider tools
    (match systemPrompt with Some p => p | None => default_prompt agentName end)
    (default DEFAULT_MAX_HISTORY maxHistory) (default DEFAULT_MAX_TOOL_ITERATIONS maxToolIterations).

Definition buildToolDefinitions c : list ToolDefinition :=
  (fun kv => mkToolDefinition kv.1 (th_description kv.2) (th_inputSchema kv.2)) <$> ch_tools c.

Definition chatOptions c : ChatOptions :=
  mkChatOptions None None None (Some (ch_systemPrompt c))
    (match buildToolDefinitions c with [] => None | defs => Some defs end).

Definition error_text (msg : string) : string := stringify (JObj [("error", JStr msg)]).

(** The text of a tool's result; [None] when the tool answered [undefined]. *)
Definition executeTool (tool : string) (input : json) c w : W * option string :=
  match jm_get (ch_tools c) tool with
  | None => (w, Some (error_text ("Unknown tool: " +:+ tool)))
  | Some h =>
      match th_handler h input w with
      | (w, inr result) => (w, stringify <$> result)
      | (w, inl e) => (w, Some (error_text ("Tool execution failed: " +:+ e)))
      end
  end.

Definition truncateResult (result : string) : string :=
  if MAX_TOOL_RESULT_LENGTH <? js_str_length result
  then js_slice_str result 0 MAX_TOOL_RESULT_LENGTH +:+ "... [truncated]"
  else result.

(** [result.length] of [undefined]. *)
Definition length_of_undefined : string := "Cannot read properties of undefined (reading 'length')".

Fixpoint runTools (calls : list ToolCall) c w : W * (string + list ContentBlock) :=
  match calls with
  | [] => (w, inr [])
  | tc :: calls' =>
      match executeTool (tk_name tc) (tk_input tc) c w with
      | (w, None) => (w, inl length_of_undefined)
      | (w, Some result) =>
          match runTools calls' c w with
          | (w, inr l) => (w, inr (tool_result (tk_id tc) (truncateResult result) :: l))
          | (w, inl e) => (w, inl e)
          end
      end
  end.

Definition assistantBlocks (r : ChatResponse) : list ContentBlock :=
  (if truthy_str (cr_content r) then [text_block (cr_content r)] else []) ++
  ((fun tc => tool_use (tk_id tc) (tk_name tc) (tk_input tc)) <$> cr_toolCalls r).

(** The tool loop: [fuel] is the number of iterations that are left. *)
Fixpoint toolLoop (fuel : nat) (history : list ChatMessage) (r : ChatResponse) c w :
    W * (string + (list ChatMessage * ChatResponse)) :=
  match cr_toolCalls r, fuel with
  | _ :: _, S fuel =>
      let history := history ++ [mkChatMessage assistant (blocks (assistantBlocks r))] in
      match runTools (cr_toolCalls r) c w with
      | (w, inl e) => (w, inl e)
      | (w, inr results) =>
          let history := history ++ [mkChatMessage user (blocks results)] in
          match chat (ch_provider c) history (chatOptions c) w with
          | (w, inl e) => (w, inl e)
          | (w, inr r) => toolLoop fuel history r c w
          end
      end
  | _, _ => (w, inr (history, r))
  end.

Definition is_tool_result (b : ContentBlock) : bool :=
  match b with tool_result _ _ => true | _ => false end.

(** A message that the trimmed history may start with. *)
Definition plain_user (m : ChatMessage) : bool :=
  bool_decide (cm_role m = user) &&
  negb (match cm_content m with plain _ => false | blocks l => existsb is_tool_result l end).

Fixpoint drop_to_user (history : list ChatMessage) : list ChatMessage :=
  match history with
  | [] => []
  | m :: history' => if plain_user m then history else drop_to_user history'
  end.

(** [splice(0, excess)] with a length that may be negative: the limit may be. *)
Definition trimHistoryArray c (history : list ChatMessage) : list ChatMessage :=
  if js_length history <=? ch_maxHistory c then history
  else drop_to_user (drop (Z.to_nat (js_length history - ch_maxHistory c)) history).

(** The history the model is asked with: a copy of the stored one and the new
    message. *)
Definition beginMessage (chatId content : string) st : list ChatMessage :=
  hs_load chatId st ++ [mkChatMessage user (plain content)].

Definition finishMessage c (chatId : string) (history : list ChatMessage) (r : ChatResponse) st : St :=
  hs_save chatId (trimHistoryArray c (history ++ [mkChatMessage assistant (plain (cr_content r))])) st.

(** [handleMessage] when no other message of the chat is handled meanwhile: the
    answer or the error, and nothing is stored in the second case. *)
Definition handleMessage c (chatId content : string) w st : W * St * (string + string) :=
  let history := beginMessage chatId content st in
  match chat (ch_provider c) history (chatOptions c) w with
  | (w, inl e) => (w, st, inl e)
  | (w, inr r) =>
      match toolLoop (Z.to_nat (ch_maxToolIterations c)) history r c w with
      | (w, inl e) => (w, st, inl e)
      | (w, inr (history, r)) => (w, finishMessage c chatId history r st, inr (cr_content r))
      end
  end.

Definition clearHistory (chatId : string) st : St := hs_clear chatId st.

End conversation.
Arguments ConversationHandler : clear implicits.

(** * Theorems about conversations (Conversation.v) *)

#[local] Open Scope Z_scope.

(** ** Histories that a model accepts *)

Definition use_ids (l : list ContentBlock) : list string :=
  omap (fun b => match b with tool_use id _ _ => Some id | _ => None end) l.
Definition result_ids (l : list ContentBlock) : list string :=
  omap (fun b => match b with tool_result id _ => Some id | _ => None end) l.

(** Rounds of tool calls: the calls of the assistant, and the results for exactly
    these calls, in their order. *)
Inductive rounds : list ChatMessage -> Prop :=
  | rounds_nil : rounds []
  | rounds_cons abs results h :
      results <> [] -> Forall (fun b => is_tool_result b = true) results ->
      use_ids abs = result_ids results -> rounds h ->
      rounds (mkChatMessage assistant (blocks abs) :: mkChatMessage user (blocks results) :: h).

(** A sequence of whole turns: a message of the user, rounds of tool calls, and the
    answer. *)
Inductive turns : list ChatMessage -> Prop :=
  | turns_nil : turns []
  | turns_cons content rs answer h : rounds rs -> turns h ->
      turns (mkChatMessage user (plain content) :: rs ++ mkChatMessage assistant (plain answer) :: h).

Lemma rounds_app a b : rounds a -> rounds b -> rounds (a ++ b).
Proof. induction 1; [done|]. intros. cbn. by constructor; auto. Qed.

Lemma turns_app a b : turns a -> turns b -> turns (a ++ b).
Proof.
  induction 1; [done|]. intros. rewrite <- app_comm_cons, <- app_assoc. cbn. constructor; auto.
Qed.

(** ** Trimming *)

Lemma drop_to_user_turns h : turns h -> drop_to_user h = h.
Proof. by destruct 1. Qed.

Lemma results_not_plain results : results <> [] -> Forall (fun b => is_tool_result b = true) results ->
  plain_user (mkChatMessage user (blocks results)) = false.
Proof.
  intros Hne Hall. destruct results as [|b results]; [done|].
  apply Forall_cons in Hall as [Hb _]. unfold plain_user. cbn. by rewrite Hb.
Qed.

Lemma drop_rounds n rs answer h : rounds rs -> turns h ->
  drop_to_user (drop n (rs ++ [mkChatMessage assistant (plain answer)]) ++ h) = h.
Proof.
  intros Hr Hh. revert n. induction Hr as [|abs results rs Hne Hall _ _ IH]; intros n.
  - destruct n as [|n]; cbn; [by apply drop_to_user_turns|]. rewrite drop_nil. by apply drop_to_user_turns.
  - destruct n as [|[|n]]; cbn; [| |apply IH].
    + rewrite results_not_plain by done. apply (IH 0%nat).
    + rewrite results_not_plain by done. apply (IH 0%nat).
Qed.

Lemma turns_drop n h : turns h -> turns (drop_to_user (drop n h)).
Proof.
  intros Hh. revert n. induction Hh as [|content rs answer h Hr Hh IH]; intros n; [rewrite drop_nil; constructor|].
  destruct n as [|n]; [rewrite drop_0; by constructor|]. rewrite skipn_cons.
  replace (rs ++ mkChatMessage assistant (plain answer) :: h)
    with ((rs ++ [mkChatMessage assistant (plain answer)]) ++ h) by (rewrite <- app_assoc; reflexivity).
  rewrite drop_app. destruct (decide (n <= length (rs ++ [mkChatMessage assistant (plain answer)]))%nat).
  - replace (n - length _)%nat with 0%nat by lia. rewrite drop_0. by rewrite drop_rounds.
  - rewrite drop_ge by lia. apply IH.
Qed.

Lemma drop_to_user_length h : (length (drop_to_user h) <= length h)%nat.
Proof. induction h as [|m h IH]; cbn; [lia|]. destruct (plain_user m); cbn; lia. Qed.

Section conversation.
Context {W : Type} {St : Type} `{!HistoryStore St} `{!HistoryStoreLaws St}.
Implicit Types (c : ConversationHandler W) (w : W) (st : St).

Lemma trim_turns c h : turns h -> turns (trimHistoryArray c h).
Proof. intros. unfold trimHistoryArray. case_match; [done|]. by apply turns_drop. Qed.

Lemma trim_length c h : js_length (trimHistoryArray c h) <= Z.max 0 (ch_maxHistory c).
Proof.
  unfold trimHistoryArray, js_length. destruct (Z.leb_spec (Z.of_nat (length h)) (ch_maxHistory c)); [lia|].
  pose proof (drop_to_user_length (drop (Z.to_nat (Z.of_nat (length h) - ch_maxHistory c)) h)) as Hl.
  rewrite length_drop in Hl. lia.
Qed.

(** ** The tool loop *)

Lemma runTools_results calls c w w' results :
  runTools calls c w = (w', inr results) ->
  Forall (fun b => is_tool_result b = true) results /\ result_ids results = tk_id <$> calls.
Proof.
  revert w w' results. induction calls as [|tc calls IH]; intros w w' results; cbn [runTools].
  { intros [= _ <-]. by split. }
  destruct (executeTool _ _ _ _) as [w1 [r|]]; [|done].
  destruct (runTools calls c w1) as [w2 [e|l]] eqn:E; [done|]. intros [= _ <-].
  destruct (IH _ _ _ E) as [Hf Hi]. split; [by constructor|].
  change (tk_id tc :: result_ids l = tk_id tc :: (tk_id <$> calls)). by rewrite Hi.
Qed.

Lemma assistantBlocks_ids r : use_ids (assistantBlocks r) = tk_id <$> cr_toolCalls r.
Proof.
  unfold assistantBlocks, use_ids. rewrite omap_app.
  replace (omap _ (if truthy_str (cr_content r) then _ else _)) with (@nil string) by (by case_match).
  cbn [app]. induction (cr_toolCalls r) as [|tc l IH]; [done|]. cbn. by rewrite IH.
Qed.

Lemma toolLoop_rounds fuel history r c w w' history' r' :
  toolLoop fuel history r c w = (w', inr (history', r')) ->
  exists rs, history' = history ++ rs /\ rounds rs /\ (length rs <= 2 * fuel)%nat.
Proof.
  revert history r w. induction fuel as [|fuel IH]; intros history r w; cbn [toolLoop].
  { intros H. exists []. rewrite app_nil_r.
    assert (history = history') as -> by (destruct (cr_toolCalls r); congruence).
    split; [done|]. split; [constructor|cbn; lia]. }
  destruct (cr_toolCalls r) as [|tc calls] eqn:Ec.
  { intros [= _ <- _]. exists []. rewrite app_nil_r. split; [done|]. split; [constructor|cbn; lia]. }
  destruct (runTools (tc :: calls) c w) as [w1 [e|results]] eqn:Er; [done|].
  destruct (chat _ _ _ _) as [w2 [e|r2]]; [done|]. intros H.
  apply IH in H as (rs & -> & Hr & Hl). apply runTools_results in Er as [Hf Hi].
  eexists (_ :: _ :: rs). rewrite <- !app_assoc. cbn [app]. split; [done|].
  split; [|cbn; lia]. constructor; [|done| |done].
  - by intros ->.
  - by rewrite assistantBlocks_ids, Ec, Hi.
Qed.

(** C15: a handled message.  If the stored history is a sequence of whole turns,
    it stays one: the turn that is added consists of the user's text, at most as
    many rounds of tool calls as the limit allows, each with a result for exactly
    the calls made, and the answer; trimming removes whole turns from the front and
    leaves at most the configured number of messages; other chats are untouched.
    When the model throws, or a tool has no result, nothing is stored. *)
Theorem conversation_keeps_turns c chatId content w st w' st' res :
  turns (hs_load chatId st) ->
  handleMessage c chatId content w st = (w', st', res) ->
  match res with
  | inl _ => st' = st
  | inr answer => exists rs saved,
      rounds rs /\ (length rs <= 2 * Z.to_nat (ch_maxToolIterations c))%nat /\
      saved = trimHistoryArray c (hs_load chatId st ++
        mkChatMessage user (plain content) :: rs ++ [mkChatMessage assistant (plain answer)]) /\
      turns saved /\ js_length saved <= Z.max 0 (ch_maxHistory c) /\ st' = hs_save chatId saved st /\
      (storable saved -> hs_load chatId st' = saved) /\
      (forall id, id <> chatId -> hs_load id st' = hs_load id st)
  end.
Proof.
  intros Ht. unfold handleMessage.
  destruct (chat _ _ _ _) as [w1 [e|r]]; [by intros [= _ <- <-]|].
  destruct (toolLoop _ _ _ _ _) as [w2 [e|[history r']]] eqn:El; [by intros [= _ <- <-]|].
  intros [= _ <- <-]. apply toolLoop_rounds in El as (rs & -> & Hr & Hl).
  unfold finishMessage, beginMessage. rewrite <- !app_assoc. cbn [app].
  set (saved := trimHistoryArray c _). exists rs, saved.
  split_and!; [done|done|done| |apply trim_length|done| |].
  - apply trim_turns, turns_app; [done|]. by apply turns_cons; [|constructor].
  - intros. by apply load_save_eq.
  - intros. by apply load_save_ne.
Qed.

(** Two messages of one chat that overlap: both are answered from the history they
    found, and the one that finishes last replaces what the other has stored. *)
Lemma overlapping_message_lost c chatId content1 content2 r1 r2 st :
  let h1 := beginMessage chatId content1 st in
  let h2 := beginMessage chatId content2 st in
  let saved := trimHistoryArray c (h2 ++ [mkChatMessage assistant (plain (cr_content r2))]) in
  storable saved ->
  hs_load chatId (finishMessage c chatId h2 r2 (finishMessage c chatId h1 r1 st)) = saved.
Proof. intros. unfold finishMessage. by apply load_save_eq. Qed.

End conversation.

(** ** An instance: one tool, one round *)

Definition echo_tool : ToolHandler nat := mkToolHandler "echo" (JObj []) (fun i w => (S w, inr (Some i))).
Definition scripted : LLMProvider nat :=
  mkLLMProvider "scripted"
    (fun _ _ w => match w with
                  | O => (1%nat, inr (mkChatResponse "" "m" (mkTokenUsage 0 0) None [mkToolCall "c1" "echo" (JNum 7)]))
                  | _ => (w, inr (mkChatResponse "done" "m" (mkTokenUsage 0 0) None []))
                  end)
    (fun _ _ w => (w, ([], None))) (fun w => (w, inr [])) (fun w => (w, inr true)).
Definition handler_ex : ConversationHandler nat :=
  new_ConversationHandler scripted [("echo", echo_tool)] None None None None.

Lemma conversation_keeps_turns_witness :
  exists w' st', handleMessage handler_ex "chat" "hi" 0%nat ([] : Histories) = (w', st', inr "done") /\
    turns (hs_load "chat" st') /\ js_length (hs_load "chat" st') = 4.
Proof.
  assert (Hh : handleMessage handler_ex "chat" "hi" 0%nat ([] : Histories) =
    ((handleMessage handler_ex "chat" "hi" 0%nat ([] : Histories)).1.1,
     (handleMessage handler_ex "chat" "hi" 0%nat ([] : Histories)).1.2, inr "done"))
    by (vm_compute; reflexivity).
  assert (Ht : turns (hs_load "chat" ([] : Histories))) by constructor.
  do 2 eexists. split; [exact Hh|].
  destruct (conversation_keeps_turns handler_ex "chat" "hi" 0%nat ([] : Histories) _ _ _ Ht Hh)
    as (rs & saved & _ & _ & _ & Hturns & _ & _ & Hload & _).
  rewrite Hload by done. split; [done|]. rewrite <- Hload by done. vm_compute. reflexivity.
Defined.
