(* ===== verification/Subagent.v ===== *)
(** * The subagent executor (src/src/agent/subagent-executor.ts)

    The loop of calls to the Anthropic client that runs a subagent task.  The client
    and the tools are parameters on a world [W]; a call that throws answers with the
    message of its error. *)

From S2P Require Import Prelude JsMap JsString Json Grpc TaskExecutor Providers Conversation.

Record ApiResponse := mkApiResponse {
  stop_reason : string;
  api_content : list ContentBlock;
  input_tokens : Z;
  output_tokens : Z
}.

Section subagent.
Context {W : Type}.

Record AgentTool := mkAgentTool {
  at_name : string;
  at_description : string;
  at_inputSchema : json;
  at_handler : json -> W -> W * (string + string)
}.

Record ApiRequest := mkApiRequest {
  rq_model : string;
  rq_system : string;
  rq_messages : list ChatMessage;
  rq_tools : option (list ToolDefinition)
}.

Record SubagentExecutor := mkSubagentExecutor {
  create : ApiRequest -> W -> W * (string + ApiResponse);
  date_now : W -> Z;
  defaultModel : string;
  se_maxTurns : Z;
  availableTools : option (jsmap AgentTool)
}.

Definition new_SubagentExecutor create date_now (model : option string) (turns : option Z) tools : SubagentExecutor :=
  mkSubagentExecutor create date_now (default "claude-sonnet-4-20250514" model) (default 10 turns) tools.

Implicit Types (x : SubagentExecutor) (sp : SubagentTaskSpec) (w : W).

Definition system_prompt sp : string :=
  "You are a helpful AI assistant executing a task as part of a distributed compute cluster." +:+
  match contextSummary sp with
  | Some s => if truthy_str s
              then String (Ascii.ascii_of_nat 10) (String (Ascii.ascii_of_nat 10) "") +:+
                   "Context from the requesting session:" +:+ String (Ascii.ascii_of_nat 10) s
              else ""
  | None => ""
  end.

Definition getToolsForSpec sp x : list ToolDefinition :=
  match tools sp, availableTools x with
  | Some names, Some available =>
      omap (fun n => (fun t => mkToolDefinition (at_name t) (at_description t) (at_inputSchema t)) <$> jm_get available n) names
  | _, _ => []
  end.

Definition error_json (m : string) : string := stringify (JObj [("error", JStr m)]).

Definition executeAgentTool (name : string) (input : json) x w : W * string :=
  match availableTools x ≫= fun m => jm_get m name with
  | None => (w, error_json ("Tool '" +:+ name +:+ "' not found"))
  | Some t => match at_handler t input w with
              | (w, inr result) => (w, result)
              | (w, inl e) => (w, error_json e)
              end
  end.

(** The state of the loop: the local variables of [execute] and the events. *)
Record Progress := mkProgress {
  messages : list ChatMessage;
  toolCalls : list ToolCallRecord;
  turns_done : Z;
  inputTokens : Z;
  outputTokens : Z;
  events : list SubagentEvent
}.
#[export] Instance Progress_eta : EtaRecord Progress := fun p =>
  mkProgress (messages p) (toolCalls p) (turns_done p) (inputTokens p) (outputTokens p) (events p).

Definition raise (ev : SubagentEvent) (p : Progress) : Progress := p <| events ::= fun l => l ++ [ev] |>.

(** The loop over the tool calls of one response. *)
Fixpoint run_tools (content : list ContentBlock) x (p : Progress) w : W * Progress * list ContentBlock :=
  match content with
  | [] => (w, p, [])
  | tool_use id name input :: content' =>
      let p := raise (sa_tool_call name input) p in
      let '(w, result) := executeAgentTool name input x w in
      let p := p <| toolCalls ::= fun l => l ++ [mkToolCallRecord name input result (date_now x w)] |> in
      let p := raise (sa_tool_result name result) p in
      let '(w, p, results) := run_tools content' x p w in
      (w, p, tool_result id result :: results)
  | _ :: content' => run_tools content' x p w
  end.

Definition texts (content : list ContentBlock) : list string :=
  omap (fun b => match b with text_block t => Some t | _ => None end) content.

Definition result_of (success : bool) (response : string) (error : option string) (p : Progress) : SubagentResult :=
  mkSubagentResult success response (toolCalls p) (turns_done p) (inputTokens p) (outputTokens p) error.


(** The while loop: [fuel] is the number of turns left. *)
Fixpoint turn_loop (fuel : nat) (model system : string) (defs : list ToolDefinition) (maxTurns : Z) x (p : Progress) w :
    W * Progress * SubagentResult :=
  match fuel with
  | O =>
      let partial := match last (messages p) with
                     | Some (mkChatMessage _ (plain t)) => t
                     | _ => "Max turns reached without completion"
                     end in
      (w, p, result_of false partial (Some ("Max turns (" +:+ js_toString maxTurns +:+ ") reached without completion")) p)
  | S fuel =>
      let p := p <| turns_done ::= Z.add 1 |> in
      let p := raise (sa_turn (turns_done p) maxTurns) p in
      match create x (mkApiRequest model system (messages p) (match defs with [] => None | _ => Some defs end)) w with
      | (w, inl e) => (w, p, result_of false "" (Some e) p)
      | (w, inr r) =>
          let p := p <| inputTokens ::= Z.add (input_tokens r) |> <| outputTokens ::= Z.add (output_tokens r) |> in
          let p := foldl (fun p t => raise (sa_text t) p) p (texts (api_content r)) in
          if String.eqb (stop_reason r) "tool_use" then
            let p := p <| messages ::= fun l => l ++ [mkChatMessage assistant (blocks (api_content r))] |> in
            let '(w, p, results) := run_tools (api_content r) x p w in
            let p := p <| messages ::= fun l => l ++ [mkChatMessage user (blocks results)] |> in
            turn_loop fuel model system defs maxTurns x p w
          else (w, p, result_of true (String.concat newline (texts (api_content r))) None p)
      end
  end.

Definition execute_subagent sp x w : W * Progress * SubagentResult :=
  let maxTurns := default (se_maxTurns x) (maxTurns sp) in
  turn_loop (Z.to_nat maxTurns) (default (defaultModel x) (model sp)) (system_prompt sp) (getToolsForSpec sp x) maxTurns x
    (mkProgress [mkChatMessage user (plain (prompt sp))] [] 0 0 0 []) w.

(** [withClusterTools]: a tool of the cluster as a tool of the subagent; a result
    that is not a string is sent as JSON. *)
Definition cluster_tool (name description : string) (schema : json) (handler : json -> W -> W * (string + json)) : AgentTool :=
  mkAgentTool name description schema (fun input w =>
    match handler input w with
    | (w, inr (JStr s)) => (w, inr s)
    | (w, inr j) => (w, inr (stringify j))
    | (w, inl e) => (w, inl e)
    end).

(** ** Theorems *)

Lemma run_tools_results content x p w : let '(_, p', results) := run_tools content x p w in
  messages p' = messages p /\ turns_done p' = turns_done p /\
  Forall (fun b => exists id c, b = tool_result id c) results /\ result_ids results = use_ids content /\
  length (toolCalls p') = (length (toolCalls p) + length results)%nat.
Proof.
  revert p w. induction content as [|[t|id name input|id c] content IH]; intros p w; cbn [run_tools]; try apply IH.
  - split_and!; done || (cbn; lia).
  - destruct (executeAgentTool name input x w) as [w1 result].
    set (p1 := raise _ _). specialize (IH p1 w1). destruct (run_tools content x p1 w1) as [[w2 p2] results].
    destruct IH as (E1 & E2 & F & E3 & E4). split_and!.
    + by rewrite E1.
    + by rewrite E2.
    + constructor; [by eauto|done].
    + unfold result_ids, use_ids in *. cbn. by rewrite E3.
    + rewrite E4. cbn. rewrite length_app. cbn. lia.
Qed.

(** The rounds of a run: a response of the model that stopped for tools, and the
    results of its calls. *)
Inductive agent_rounds : list ChatMessage -> Prop :=
  | ar_nil : agent_rounds []
  | ar_round content results rs :
      Forall (fun b => exists id c, b = tool_result id c) results -> result_ids results = use_ids content ->
      agent_rounds rs ->
      agent_rounds (mkChatMessage assistant (blocks content) :: mkChatMessage user (blocks results) :: rs).

Lemma texts_kept ts p : messages (foldl (fun p t => raise (sa_text t) p) p ts) = messages p /\
  turns_done (foldl (fun p t => raise (sa_text t) p) p ts) = turns_done p.
Proof. revert p. induction ts as [|t ts IH]; intros p; [done|]. cbn [foldl]. by destruct (IH (raise (sa_text t) p)) as [-> ->]. Qed.

(** What a run of the loop that starts after [rs] leaves. *)
Record run_ok (fuel : nat) (first : ChatMessage) (rs : list ChatMessage) (p p' : Progress) (r : SubagentResult) : Prop := {
  ro_messages : exists new, messages p' = first :: rs ++ new /\ agent_rounds new /\
    Z.of_nat (length new) <= 2 * (turns_done p' - turns_done p);
  ro_turns : turns_done p <= turns_done p' <= turns_done p + Z.of_nat fuel;
  ro_result : sr_turns r = turns_done p' /\ sr_toolCalls r = toolCalls p';
  ro_error : sr_success r = true <-> sr_error r = None
}.

Lemma turn_loop_ok fuel m s defs mt x p w first rs : messages p = first :: rs ->
  let '(_, p', r) := turn_loop fuel m s defs mt x p w in run_ok fuel first rs p p' r.
Proof.
  revert p w rs. induction fuel as [|fuel IH]; intros p w rs Hm; cbn [turn_loop].
  - split; cbn; [|lia|done|done]. exists []. rewrite app_nil_r. split_and!; [done|constructor|cbn; lia].
  - set (p1 := raise _ (p <| turns_done ::= Z.add 1 |>)).
    assert (Hm1 : messages p1 = first :: rs) by done. assert (Ht1 : turns_done p1 = 1 + turns_done p) by done.
    destruct (create x _ w) as [w1 [e|resp]].
    { split; cbn [result_of sr_turns sr_toolCalls sr_success sr_error]; rewrite ?Ht1; [|lia|done|done].
      exists []. rewrite app_nil_r. split_and!; [done|constructor|cbn; lia]. }
    set (p2 := field_update outputTokens _ (field_update inputTokens _ p1)).
    destruct (texts_kept (texts (api_content resp)) p2) as [Em Et]. set (p3 := foldl _ p2 _) in *.
    change (messages p2) with (messages p1) in Em. change (turns_done p2) with (turns_done p1) in Et.
    destruct (String.eqb (stop_reason resp) "tool_use").
    + set (p4 := p3 <| messages ::= _ |>).
      assert (E4 : messages p4 = messages p3 ++ [mkChatMessage assistant (blocks (api_content resp))]) by done.
      assert (Et4 : turns_done p4 = turns_done p3) by done.
      assert (Hr := run_tools_results (api_content resp) x p4 w1).
      destruct (run_tools (api_content resp) x p4 w1) as [[w2 p5] results].
      destruct Hr as (E5 & Et5 & F & Ei & _). set (p6 := p5 <| messages ::= _ |>).
      assert (E6 : messages p6 = messages p5 ++ [mkChatMessage user (blocks results)]) by done.
      assert (Et6 : turns_done p6 = turns_done p5) by done.
      specialize (IH p6 w2 (rs ++ [mkChatMessage assistant (blocks (api_content resp)); mkChatMessage user (blocks results)])).
      destruct (turn_loop fuel m s defs mt x p6 w2) as [[w3 p7] r].
      destruct IH as [(new & En & Hn & Hl) Ht Hres Herr].
      { by rewrite E6, E5, E4, Em, Hm1, <- !app_assoc. }
      split; [|lia|done|done]. eexists (_ :: _ :: new). rewrite <- app_assoc in En. split_and!; [exact En|by constructor|cbn; lia].
    + split; cbn [result_of sr_turns sr_toolCalls sr_success sr_error]; rewrite ?Et, ?Ht1; [|lia|done|done].
      exists []. rewrite Em, Hm1, app_nil_r. split_and!; [done|constructor|cbn; lia].
Qed.

(** A subagent run ends and keeps its dialogue well formed.  It makes at most
    [maxTurns] calls to the model; the messages it sends are the prompt followed by
    at most that many rounds, each a response that asked for tools and a result for
    exactly the calls in it, in order, whether the tools exist, fail or succeed; and
    the run is a success exactly if it reports no error. *)
Theorem subagent_run sp x w :
  let '(_, p, r) := execute_subagent sp x w in
  (exists rs, messages p = mkChatMessage user (plain (prompt sp)) :: rs /\ agent_rounds rs /\
     Z.of_nat (length rs) <= 2 * sr_turns r) /\
  0 <= sr_turns r <= Z.max 0 (default (se_maxTurns x) (maxTurns sp)) /\
  (sr_success r = true <-> sr_error r = None).
Proof.
  unfold execute_subagent. set (p0 := mkProgress _ _ _ _ _ _).
  assert (H := turn_loop_ok (Z.to_nat (default (se_maxTurns x) (maxTurns sp))) (default (defaultModel x) (model sp))
    (system_prompt sp) (getToolsForSpec sp x) (default (se_maxTurns x) (maxTurns sp)) x p0 w _ [] eq_refl).
  destruct (turn_loop _ _ _ _ _ _ _ _) as [[w' p] r]. destruct H as [(new & En & Hn & Hl) Ht [Hr _] He].
  change (turns_done p0) with 0 in *. rewrite Hr. split_and!; [|lia|lia|done]. exists new. split_and!; [done|done|lia].
Qed.
End subagent.
