(* ===== verification/Messaging.v ===== *)
(** * The messaging gateway (src/src/messaging/gateway.ts)

    The channel adapters of a node run on the leader only. *)

From S2P Require Import Prelude JsMap JsString JsNumber Raft.

(** [connect] and [disconnect] are asynchronous: a call is pending until it settles,
    and [isConnected] changes when it does.  A call that is rejected leaves the
    adapter as it was. *)
Inductive Call := connecting | disconnecting.
#[export] Instance Call_eq_dec : EqDecision Call.
Proof. solve_decision. Defined.

Record MessagingGateway := mkGateway {
  agentName : string;
  channels : jsmap bool;                (* the adapters by name, and isConnected() *)
  active : bool;
  pending : list (string * Call)
}.
#[export] Instance MessagingGateway_eta : EtaRecord MessagingGateway := fun g =>
  mkGateway (agentName g) (channels g) (active g) (pending g).

Implicit Types (g : MessagingGateway).

Definition new_MessagingGateway (agent : string) (adapters : list string) : MessagingGateway :=
  mkGateway agent (foldl (fun m a => jm_set m a false) [] adapters) false [].

Definition activate g : MessagingGateway :=
  if active g then g
  else g <| active := true |> <| pending ::= fun p => p ++ ((fun a => (a, connecting)) <$> jm_keys (channels g)) |>.

Definition deactivate g : MessagingGateway :=
  if negb (active g) then g
  else g <| active := false |>
         <| pending ::= fun p => p ++ omap (fun a : string * bool => if a.2 then Some (a.1, disconnecting) else None) (channels g) |>.

(** The listener on the Raft node's stateChange event. *)
Definition onStateChange (s : RaftState) g : MessagingGateway :=
  match s with
  | leader => activate g
  | _ => if active g then deactivate g else g
  end.

Definition gateway_stop g : MessagingGateway := deactivate g.

Definition getStatus g : string * bool * list (string * bool) := (agentName g, active g, channels g).

(** The [i]-th pending call settles. *)
Definition settle (i : nat) (fulfilled : bool) g : MessagingGateway :=
  match pending g !! i with
  | None => g
  | Some (a, call) =>
      let g := g <| pending ::= fun p => take i p ++ drop (S i) p |> in
      if fulfilled
      then g <| channels ::= jm_alter (fun _ => bool_decide (call = connecting)) a |>
      else g
  end.

(** Executions in which a change of state finds no call pending, and disconnecting
    succeeds. *)
Inductive calm_step : MessagingGateway -> MessagingGateway -> Prop :=
  | calm_change s g : pending g = [] -> calm_step g (onStateChange s g)
  | calm_settle i fulfilled g :
      (forall a, pending g !! i = Some (a, disconnecting) -> fulfilled = true) ->
      calm_step g (settle i fulfilled g).

Inductive calm (agent : string) (adapters : list string) : MessagingGateway -> Prop :=
  | calm_init : calm agent adapters (new_MessagingGateway agent adapters)
  | calm_next g g' : calm agent adapters g -> calm_step g g' -> calm agent adapters g'.

(** While inactive, an adapter is connected only if its disconnection is pending,
    and no connection is pending; while active, no disconnection is pending. *)
Definition gateway_inv g : Prop :=
  jm_wf (channels g) /\
  if active g then forall a, (a, disconnecting) ∉ pending g
  else (forall a, (a, connecting) ∉ pending g) /\
       forall a, jm_get (channels g) a = Some true -> (a, disconnecting) ∈ pending g.

Lemma new_channels adapters m a : (forall a, jm_get m a <> Some true) ->
  jm_get (foldl (fun m a => jm_set m a false) m adapters) a <> Some true.
Proof.
  revert m. induction adapters as [|x l IH]; intros m Hm; [apply Hm|]. cbn. apply IH.
  intros b. rewrite jm_get_set. by case_decide.
Qed.

Lemma new_channels_wf adapters m : jm_wf m -> jm_wf (foldl (fun m a => jm_set m a false) m adapters).
Proof. revert m. induction adapters as [|x l IH]; intros m Hm; [done|]. cbn. by apply IH, jm_wf_set. Qed.

Lemma elem_of_take_drop {A} (x : A) i l : x ∈ take i l ++ drop (S i) l -> x ∈ l.
Proof.
  rewrite elem_of_app. intros [H|H]; rewrite <- (take_drop i l), elem_of_app; [by left|right].
  destruct (l !! i) as [y|] eqn:E.
  - rewrite (drop_S _ _ _ E). by right.
  - apply lookup_ge_None in E. rewrite drop_ge in H by lia. by apply elem_of_nil in H.
Qed.

Lemma elem_of_other {A} (x y : A) i l : l !! i = Some y -> x ∈ l -> x <> y -> x ∈ take i l ++ drop (S i) l.
Proof.
  intros Hi Hx Hne. rewrite <- (take_drop_middle l i y Hi) in Hx. set_solver.
Qed.

Lemma calm_inv agent adapters g : calm agent adapters g -> gateway_inv g.
Proof.
  induction 1 as [|g g' _ [Hwf IH] Hs].
  - split; [by apply new_channels_wf, jm_wf_nil|]. cbn. split; [by intros a ?%elem_of_nil|].
    intros a Ha. exfalso. by eapply new_channels; [|exact Ha].
  - destruct Hs as [s g Hp|i fulfilled g Hd].
    + unfold onStateChange, activate, deactivate.
      destruct s; destruct (active g) eqn:Ea; cbn [negb]; unfold gateway_inv; cbn; rewrite ?Ea, ?Hp;
        (split; [done|]); rewrite ?Hp in IH; try done; cbn.
      1,2: split; [intros a Ha; apply list_elem_of_omap in Ha as ([b []] & _ & Hx); by simplify_eq/=|];
           intros a Ha; apply list_elem_of_omap; exists (a, true); split; [by apply jm_elem_of_get|done].
      intros a (x & Hx & _)%list_elem_of_fmap. discriminate.
    + unfold settle. destruct (pending g !! i) as [[b call]|] eqn:Ei; [|done].
      assert (Hin : (b, call) ∈ pending g) by (by eapply list_elem_of_lookup_2).
      destruct fulfilled; unfold gateway_inv; cbn; (split; [solve [by apply jm_wf_alter | exact Hwf]|]).
      all: destruct (active g) eqn:Ea; [intros a Ha%elem_of_take_drop; by eapply IH|].
      all: destruct IH as [IHc IHd]; split; [intros a Ha%elem_of_take_drop; by eapply IHc|].
      * intros a. rewrite jm_get_alter. case_decide as Hb.
        { destruct (jm_get (channels g) a); [|done]. cbn. intros [= E]. apply bool_decide_eq_true in E.
          subst. by destruct (IHc _ Hin). }
        intros Ha. apply (elem_of_other _ (b, call)); [done|by apply IHd|congruence].
      * intros a Ha. destruct (decide ((a, disconnecting) = (b, call))) as [E|E].
        { injection E as -> <-. by specialize (Hd _ eq_refl). }
        apply (elem_of_other _ (b, call)); [done|by apply IHd|done].
Qed.

(** The gateway is active exactly while the last reported state is leader. *)
Lemma active_follows_leader s g : active (onStateChange s g) = bool_decide (s = leader).
Proof.
  unfold onStateChange, activate, deactivate. destruct s; destruct (active g) eqn:E; cbn [negb]; by rewrite ?E.
Qed.

(** Channels run on the leader only.  If every change of the Raft state
    finds the earlier connections and disconnections settled, and disconnecting
    succeeds, then whenever nothing is pending no adapter is connected on a node
    that is not the leader. *)
Theorem channels_only_at_leader agent adapters g :
  calm agent adapters g -> pending g = [] -> active g = false ->
  forall a, jm_get (channels g) a <> Some true.
Proof.
  intros H Hp Ha a Hc. apply calm_inv in H as [_ H]. rewrite Ha, Hp in H.
  destruct H as [_ H]. by apply H, elem_of_nil in Hc.
Qed.

(** Without that: a node that loses the leadership while an adapter is still
    connecting keeps the channel open. *)
Example deposed_while_connecting :
  let g := new_MessagingGateway "agent" ["telegram"] in
  let g := settle 0 true (onStateChange follower (onStateChange leader g)) in
  active g = false /\ pending g = [] /\ jm_get (channels g) "telegram" = Some true.
Proof. by vm_compute. Qed.

Lemma channels_only_at_leader_witness :
  jm_get (channels (settle 0 true (onStateChange follower (settle 0 true (onStateChange leader
    (new_MessagingGateway "agent" ["telegram"])))))) "telegram" <> Some true.
Proof.
  apply (channels_only_at_leader "agent" ["telegram"]); [|reflexivity|reflexivity].
  eapply calm_next; [eapply calm_next; [eapply calm_next; [eapply calm_next; [apply calm_init|]|]|]|].
  - apply (calm_change leader). reflexivity.
  - apply (calm_settle 0 true). done.
  - apply (calm_change follower). reflexivity.
  - apply (calm_settle 0 true). done.
Defined.
