(* ===== verification/Markdown.v ===== *)
(** * Markdown for Telegram (src/src/messaging/format.ts, markdownToTelegramHtml)

    The converter is a sequence of replacements by regular expressions, run here by
    JsRegExp.v.  Code is taken out first, behind placeholders of a NUL character, a
    kind and an index; the two arrays of extracted code are the accumulators of
    their replacements.

    The main theorem: whatever the text, every [<], [>], double quote and [&] of the
    result belongs to a tag or an entity that the converter itself writes. *)

From S2P Require Import Prelude JsString JsRegExp Replication.
From Stdlib Require Import Ascii.

Definition backtick : string := "`".
Definition nul : string := String (ascii_of_nat 0) "".
Definition dquote : string := String (ascii_of_nat 34) "".

(** ** The converter *)

Definition escapeHtml (text : string) : string :=
  let text := replace_all (re_lit "&") (fun _ => "&amp;") text in
  let text := replace_all (re_lit "<") (fun _ => "&lt;") text in
  let text := replace_all (re_lit ">") (fun _ => "&gt;") text in
  replace_all (re_lit dquote) (fun _ => "&quot;") text.

Definition re_any : regex := re_chr (fun _ => true).
Definition re_fence : regex := re_lit "```".
(** Three backticks, word characters and perhaps a newline; the code; three backticks. *)
Definition re_code_block : regex :=
  re_seqs [re_fence; re_many (re_chr is_word); re_opt (re_lit newline); re_group 1 (re_lazy re_any); re_fence].
(** Code between backticks. *)
Definition re_inline_code : regex :=
  re_seqs [re_lit backtick; re_group 1 (re_plus (re_chr (fun c => negb (one_of backtick c)))); re_lit backtick].
(** Some text of one line between two delimiters. *)
Definition re_between (d : string) : regex :=
  re_seqs [re_lit d; re_group 1 (re_lazy_plus (re_chr is_dot)); re_lit d].
(** One star on each side, not next to a letter or digit outside. *)
Definition re_italic : regex :=
  re_seqs [re_not_after is_alnum; re_lit "*"; re_group 1 (re_lazy_plus (re_chr is_dot)); re_lit "*";
           re_not_before is_alnum].
(** A text in brackets and an address in parentheses. *)
Definition re_link : regex :=
  re_seqs [re_lit "["; re_group 1 (re_plus (re_chr (fun c => negb (one_of "]" c)))); re_lit "]("; 
           re_group 2 (re_plus (re_chr (fun c => negb (one_of ")" c)))); re_lit ")"].
(** NUL, the kind, digits, NUL. *)
Definition re_placeholder (kind : string) : regex :=
  re_seqs [re_lit (nul +:+ kind); re_group 1 (re_plus (re_chr is_digit_char)); re_lit nul].

(** A group that took part in the match. *)
Definition group_text (n : nat) (m : MatchResult) : string := default "" (group n m).

Definition placeholder (kind : string) (index : Z) : string := str [nul; kind; js_toString index; nul].

Definition take_code_block (codeBlocks : list string) (m : MatchResult) : list string * string :=
  let trimmed := replace_first (re_seqs [re_lit newline; re_end]) (fun _ => "") (group_text 1 m) in
  (codeBlocks ++ [str ["<pre><code>"; escapeHtml trimmed; "</code></pre>"]],
   placeholder "CB" (js_length codeBlocks)).

Definition take_inline_code (inlineCode : list string) (m : MatchResult) : list string * string :=
  (inlineCode ++ [str ["<code>"; escapeHtml (group_text 1 m); "</code>"]],
   placeholder "IC" (js_length inlineCode)).

Definition wrapped (opening closing : string) (m : MatchResult) : string :=
  str [opening; group_text 1 m; closing].

Definition link_html (m : MatchResult) : string :=
  str ["<a href="; dquote; group_text 2 m; dquote; ">"; group_text 1 m; "</a>"].

(** [array[parseInt(idx, 10)]] as the value of a replacement. *)
Definition restored (code : list string) (m : MatchResult) : string :=
  default "undefined" (parseInt (group_text 1 m) ≫= js_at code).

Definition markdownToTelegramHtml (markdown : string) : string :=
  if negb (truthy_str markdown) then ""
  else
    let '(codeBlocks, text) := replace_all_acc re_code_block take_code_block [] markdown in
    let '(inlineCode, text) := replace_all_acc re_inline_code take_inline_code [] text in
    let text := escapeHtml text in
    let text := replace_all (re_between "***") (wrapped "<b><i>" "</i></b>") text in
    let text := replace_all (re_between "**") (wrapped "<b>" "</b>") text in
    let text := replace_all re_italic (wrapped "<i>" "</i>") text in
    let text := replace_all (re_between "~~") (wrapped "<s>" "</s>") text in
    let text := replace_all re_link link_html text in
    let text := replace_all (re_placeholder "IC") (restored inlineCode) text in
    replace_all (re_placeholder "CB") (restored codeBlocks) text.

Example converted :
  markdownToTelegramHtml "**bold** a<b [x](http://y) `a*b`" =
    str ["<b>bold</b> a&lt;b <a href="; dquote; "http://y"; dquote; ">x</a> <code>a*b</code>"].
Proof. by vm_compute. Qed.

(** ** Texts made of plain characters, entities and tags *)

Definition vocabulary : list string :=
  ["&amp;"; "&lt;"; "&gt;"; "&quot;"; "<b>"; "</b>"; "<i>"; "</i>"; "<s>"; "</s>"; "<code>"; "</code>";
   "<pre>"; "</pre>"; "<a href=" +:+ dquote; dquote +:+ ">"; "</a>"].

Definition plain_char (c : ascii) : bool := negb (one_of ("<>&" +:+ dquote) c).

Inductive Html : string -> Prop :=
  | html_nil : Html ""
  | html_char c s : plain_char c = true -> Html s -> Html (String c s)
  | html_word w s : w ∈ vocabulary -> Html s -> Html (w +:+ s).

Create HintDb html.
#[export] Hint Constructors Html : html.

Lemma html_app a b : Html a -> Html b -> Html (a +:+ b).
Proof.
  induction 1 as [|c s Hc _ IH|w s Hw _ IH]; intros Hb; [by rewrite str_app_nil| |].
  - rewrite str_app_cons. auto with html.
  - rewrite str_app_assoc. auto with html.
Qed.

Lemma html_in w : w ∈ vocabulary -> Html w.
Proof. intros H. rewrite <- (str_app_nil_r w). auto with html. Qed.

Lemma html_str l : Forall Html l -> Html (str l).
Proof. induction 1; [constructor|]. by apply html_app. Qed.

Lemma plain_html s : (forall c, one_of s c = true -> plain_char c = true) -> Html s.
Proof.
  induction s as [|c s IH]; intros H; [constructor|]. constructor.
  - apply H. cbn. by rewrite Ascii.eqb_refl.
  - apply IH. intros d Hd. apply H. cbn. by rewrite Hd, orb_true_r.
Qed.

(** A test for closed texts. *)
Fixpoint html_check (fuel : nat) (s : string) : bool :=
  match fuel, s with
  | _, EmptyString => true
  | O, _ => false
  | S fuel, String c t =>
      match List.find (fun w => String.prefix w s) vocabulary with
      | Some w => html_check fuel (String.substring (String.length w) (String.length s) s)
      | None => plain_char c && html_check fuel t
      end
  end.

Lemma html_check_sound fuel s : html_check fuel s = true -> Html s.
Proof.
  revert s. induction fuel as [|fuel IH]; intros [|c t]; try done; [constructor|constructor|]. cbn [html_check].
  destruct (List.find _ vocabulary) as [w|] eqn:E.
  - apply find_some in E as [Hw [u Hu]%prefix_app]. rewrite Hu, substring_app_r.
    rewrite str_length_app, substring_all. intros H. apply html_word; [by apply list_elem_of_In|by apply IH].
  - intros [Hc Ht]%andb_true_iff. constructor; [done|by apply IH].
Qed.

Ltac html_literal := apply (html_check_sound 40); reflexivity.

(** The characters that the patterns are made of occur in no tag and no entity. *)
Definition delimiter (c : ascii) : bool := one_of ("*~[]()" +:+ nul) c.

Lemma vocabulary_free c w : delimiter c = true -> w ∈ vocabulary -> free_of c w = true.
Proof.
  intros Hd Hw. assert (H : Forall (fun w => free_of c w = true) vocabulary); [|by eapply Forall_forall in H].
  unfold delimiter in Hd. cbn -[vocabulary] in Hd.
  repeat (apply orb_true_iff in Hd as [<-%Ascii.eqb_eq|Hd]; [by repeat constructor|]). done.
Qed.

(** A delimiter divides such a text into two of them. *)
Lemma html_split c a b : delimiter c = true -> Html (a +:+ String c b) -> Html a /\ Html b.
Proof.
  intros Hd H. remember (a +:+ String c b) as s eqn:Hs. revert a Hs.
  induction H as [|d s Hc Hs IH|w s Hw Hs IH]; intros a E.
  - by destruct a.
  - destruct a as [|e a].
    + rewrite str_app_nil in E. injection E as -> ->. auto with html.
    + rewrite str_app_cons in E. injection E as -> ->. destruct (IH a eq_refl). auto with html.
  - apply str_app_eq in E as [(a' & -> & ->)|(e & p & -> & E)].
    + destruct (IH a' eq_refl). auto using html_app, html_in.
    + rewrite str_app_cons in E. injection E as <- ->.
      pose proof (vocabulary_free c _ Hd Hw) as Hf. rewrite free_of_app in Hf. cbn in Hf.
      rewrite Ascii.eqb_refl, andb_false_r in Hf. done.
Qed.

(** Dropping what a delimiter string covers. *)
Lemma html_split_str d a b : (forall c, one_of d c = true -> delimiter c = true) -> d <> "" ->
  Html (a +:+ (d +:+ b)) -> Html a /\ Html b.
Proof.
  intros Hd Hne. revert a. destruct d as [|c d]; [done|]. clear Hne. revert c Hd.
  induction d as [|e d IH]; intros c Hd a H.
  - rewrite str_app_cons, str_app_nil in H. apply html_split in H; [done|]. apply Hd. cbn. by rewrite Ascii.eqb_refl.
  - rewrite str_app_cons in H. apply html_split in H as [Ha H].
    2:{ apply Hd. cbn. by rewrite Ascii.eqb_refl. }
    split; [done|]. destruct (IH e) with (a := "") as [_ Hb]; [|by rewrite str_app_nil|done].
    intros x Hx. apply Hd. change (Ascii.eqb c x || one_of (String e d) x = true). by rewrite Hx, orb_true_r.
Qed.

(** ** Escaping *)

(** Replacing each character by a text. *)
Fixpoint str_flat (f : ascii -> string) (s : string) : string :=
  match s with EmptyString => "" | String c s => f c +:+ str_flat f s end.

Lemma str_flat_app f a b : str_flat f (a +:+ b) = str_flat f a +:+ str_flat f b.
Proof.
  induction a as [|c a IH]; [by rewrite str_app_nil|]. rewrite str_app_cons. cbn. by rewrite IH, str_app_assoc.
Qed.

Definition swap_char (c : ascii) (u : string) (d : ascii) : string := if Ascii.eqb c d then u else String d "".

Lemma str_flat_free c u s : free_of c s = true -> str_flat (swap_char c u) s = s.
Proof.
  induction s as [|d s IH]; [done|]. cbn. unfold swap_char at 1. rewrite (Ascii.eqb_sym c).
  destruct (Ascii.eqb d c); [done|]. cbn. intros H. by rewrite IH.
Qed.

Lemma exec_from_char c prev s :
  match exec_from (re_lit_char c) prev s with
  | None => free_of c s = true
  | Some m => mr_match m = String c "" /\ free_of c (mr_before m) = true
  end.
Proof.
  revert prev. induction s as [|d s IH]; intros prev; cbn [exec_from]; [done|].
  assert (Hm : match_here (re_lit_char c) (mkMstate prev (String d s) []) =
    if Ascii.eqb c d then Some (mkMstate (Some d) s []) else None) by done.
  rewrite Hm. destruct (Ascii.eqb_spec c d) as [<-|Hne].
  - cbn [mr_match mr_before]. split; [|done]. unfold consumed. cbn [ms_rest String.length].
    replace (S (String.length s) - String.length s)%nat with 1%nat by lia. cbn. by destruct s.
  - assert (Hd : negb (Ascii.eqb d c) = true) by (apply negb_true_iff; apply Ascii.eqb_neq; congruence).
    specialize (IH (Some d)). destruct (exec_from (re_lit_char c) (Some d) s) as [m|]; cbn.
    + destruct IH. split; [done|]. by rewrite Hd.
    + by rewrite Hd.
Qed.

Lemma replace_all_char c u s : replace_all (re_lit_char c) (fun _ => u) s = str_flat (swap_char c u) s.
Proof.
  unfold replace_all, replace_all_acc. set (f := fun (_ : ()) (_ : MatchResult) => ((), u)).
  assert (H : (String.length s < S (String.length s))%nat) by lia.
  revert H. generalize (S (String.length s)) as fuel. generalize (@None ascii) as prev.
  intros prev fuel. revert prev s. induction fuel as [|fuel IH]; intros prev s Hl; [lia|]. cbn [replace_loop].
  pose proof (exec_from_char c prev s) as He. pose proof (exec_from_split (re_lit_char c) prev s) as Hs.
  destruct (exec_from (re_lit_char c) prev s) as [m|]; [|cbn; by rewrite str_flat_free].
  destruct He as [Em Hb]. specialize (Hs m eq_refl). rewrite Em in Hs |- *.
  rewrite Hs, str_flat_app, str_flat_app, (str_flat_free _ _ _ Hb).
  set (p := last_char (last_char prev (mr_before m)) (String c "")).
  specialize (IH p (mr_after m)).
  assert (Hf : f () m = ((), u)) by done. rewrite Hf. cbv iota beta zeta.
  destruct (replace_loop (re_lit_char c) f fuel p () (mr_after m)) as [acc rest]. cbn [snd] in IH |- *. rewrite IH.
  - cbn [str_flat]. assert (swap_char c u c = u) as -> by (unfold swap_char; by rewrite Ascii.eqb_refl).
    by rewrite str_app_nil_r.
  - apply (f_equal String.length) in Hs. rewrite !str_length_app in Hs. cbn in Hs. lia.
Qed.

(** The character-wise reading of [escapeHtml]. *)
Definition escaped_char (c : ascii) : string :=
  if Ascii.eqb c "&" then "&amp;"
  else if Ascii.eqb c "<" then "&lt;"
  else if Ascii.eqb c ">" then "&gt;"
  else if Ascii.eqb c (ascii_of_nat 34) then "&quot;"
  else String c "".

Lemma escapeHtml_spec text : escapeHtml text = str_flat escaped_char text.
Proof.
  unfold escapeHtml. change (re_lit "&") with (re_lit_char "&"). change (re_lit "<") with (re_lit_char "<").
  change (re_lit ">") with (re_lit_char ">"). change (re_lit dquote) with (re_lit_char (ascii_of_nat 34)).
  rewrite !replace_all_char. induction text as [|c text IH]; [done|]. cbn [str_flat].
  rewrite !str_flat_app, IH. f_equal.
  by destruct c as [[] [] [] [] [] [] [] []].
Qed.

Lemma escapeHtml_html text : Html (escapeHtml text).
Proof.
  rewrite escapeHtml_spec. induction text as [|c text IH]; [constructor|]. cbn [str_flat].
  apply html_app; [|done]. unfold escaped_char.
  destruct (Ascii.eqb c "&") eqn:E1; [apply html_in; by vm_compute; repeat first [left|right]|].
  destruct (Ascii.eqb c "<") eqn:E2; [apply html_in; by vm_compute; repeat first [left|right]|].
  destruct (Ascii.eqb c ">") eqn:E3; [apply html_in; by vm_compute; repeat first [left|right]|].
  destruct (Ascii.eqb c (ascii_of_nat 34)) eqn:E4; [apply html_in; by vm_compute; repeat first [left|right]|].
  constructor; [|constructor]. clear -E1 E2 E3 E4.
  by destruct c as [[] [] [] [] [] [] [] []].
Qed.

(** ** The replacements *)

Lemma match_inv r prev s m : exec_from r prev s = Some m ->
  exists p s', matches r (mkMstate p (mr_match m +:+ mr_after m) []) s' /\
    ms_rest s' = mr_after m /\ ms_caps s' = mr_caps m /\ s = mr_before m +:+ (mr_match m +:+ mr_after m).
Proof.
  intros H. pose proof (exec_from_split _ _ _ _ H) as Hs.
  apply exec_from_matches in H as (p & s' & Hm & Hr & Hc). by exists p, s'.
Qed.

(** What a pattern [d group d'] with delimiters does to such a text. *)
Definition splits (m : MatchResult) : Prop :=
  mr_match m <> "" /\ Html (mr_before m) /\ Html (mr_after m) /\ Html (group_text 1 m).

(** The middle of a match between two delimiters. *)
Lemma html_between d g d' before after :
  (forall c, one_of d c = true -> delimiter c = true) -> d <> "" ->
  (forall c, one_of d' c = true -> delimiter c = true) -> d' <> "" ->
  Html (before +:+ (d +:+ (g +:+ (d' +:+ after)))) -> Html before /\ Html g /\ Html after.
Proof.
  intros Hd Hn Hd' Hn' H. apply html_split_str in H as [? H]; [|done|done].
  apply html_split_str in H as [? ?]; done.
Qed.

Lemma delimiters_of l : forallb delimiter (String.list_ascii_of_string l) = true ->
  forall c, one_of l c = true -> delimiter c = true.
Proof.
  induction l as [|d l IH]; [done|]. cbn. intros [Hd Hl]%andb_true_iff c [->%Ascii.eqb_eq|Hc]%orb_true_iff; auto.
Qed.

Lemma between_inv d r p t s' :
  matches (re_seqs [re_lit d; re_group 1 r; re_lit d]) (mkMstate p t []) s' ->
  exists g s1 s2, matches r s1 s2 /\ t = d +:+ (g +:+ (d +:+ ms_rest s')) /\ ms_caps s1 = [] /\
    ms_caps s' = (1%nat, g) :: ms_caps s2.
Proof.
  unfold re_seqs. cbn [foldr]. intros (s1 & H1 & (s2 & H2 & (s3 & H3 & H4)%matches_seq)%matches_seq)%matches_seq.
  inversion H4; subst. apply matches_lit in H1 as [Hr1 Hc1], H3 as [Hr3 Hc3].
  apply matches_group in H2 as (s4 & g & Hm & Hg & Hr & Hc). cbn in Hr1, Hc1.
  exists g, s1, s4. split_and!; [done| |done|congruence].
  by rewrite Hr1, Hg, Hr3.
Qed.

Lemma between_splits d r prev t m :
  forallb delimiter (String.list_ascii_of_string d) = true -> d <> "" ->
  Html t -> exec_from (re_seqs [re_lit d; re_group 1 r; re_lit d]) prev t = Some m -> splits m.
Proof.
  intros Hd Hn Ht (p & s' & Hm & Hr & Hc & ->)%match_inv.
  apply between_inv in Hm as (g & s1 & s2 & _ & E & _ & Hcaps). rewrite E, Hr in Ht.
  apply html_between in Ht as (? & ? & ?); eauto using delimiters_of.
  unfold splits, group_text, group. rewrite <- Hc, Hcaps. cbn [cap_lookup Nat.eqb default]. split_and!; try done.
  intros Hempty. rewrite Hempty, str_app_nil, Hr in E. apply (f_equal String.length) in E.
  rewrite !str_length_app in E. destruct d; [done|cbn in E; lia].
Qed.

Lemma italic_splits prev t m : Html t -> exec_from re_italic prev t = Some m -> splits m.
Proof.
  intros Ht (p & s' & Hm & Hr & Hc & ->)%match_inv. unfold re_italic, re_seqs in Hm. cbn [foldr] in Hm.
  apply matches_seq in Hm as (s0 & [-> _]%matches_assert & Hm).
  assert (Hm' : matches (re_seqs [re_lit "*"; re_group 1 (re_lazy_plus (re_chr is_dot)); re_lit "*"])
                  (mkMstate p (mr_match m +:+ mr_after m) []) s').
  { apply matches_seq in Hm as (s1 & H1 & (s2 & H2 & (s3 & H3 & (s4 & [-> _]%matches_assert & H4)%matches_seq)%matches_seq)%matches_seq).
    inversion H4; subst. unfold re_seqs. cbn [foldr]. repeat (apply matches_seq; eexists; split; [eassumption|]). constructor. }
  apply between_inv in Hm' as (g & s1 & s2 & _ & E & _ & Hcaps). rewrite E, Hr in Ht.
  apply html_between in Ht as (? & ? & ?); [|by apply delimiters_of|done|by apply delimiters_of|done].
  unfold splits, group_text, group. rewrite <- Hc, Hcaps. cbn [cap_lookup Nat.eqb default]. split_and!; try done.
  intros Hempty. rewrite Hempty, str_app_nil, Hr in E. apply (f_equal String.length) in E.
  rewrite !str_length_app in E. cbn in E. lia.
Qed.

Lemma link_splits prev t m : Html t -> exec_from re_link prev t = Some m -> splits m /\ Html (group_text 2 m).
Proof.
  intros Ht (p & s' & Hm & Hr & Hc & ->)%match_inv. unfold re_link, re_seqs in Hm. cbn [foldr] in Hm.
  apply matches_seq in Hm as (s1 & [R1 _]%matches_lit & Hm). apply matches_seq in Hm as (s2 & H2 & Hm).
  apply matches_group in H2 as (s3 & g1 & _ & G1 & R2 & C2). apply matches_seq in Hm as (s4 & [R4 C4]%matches_lit & Hm).
  apply matches_seq in Hm as (s5 & H5 & Hm). apply matches_group in H5 as (s6 & g2 & H6 & G2 & R5 & C5).
  apply matches_seq in Hm as (s7 & [R7 C7]%matches_lit & H7). assert (s' = s7) as -> by (by inversion H7).
  assert (Hc6 : ms_caps s6 = ms_caps s4).
  { apply matches_seq in H6 as (s8 & (c & u & _ & _ & ->)%matches_chr & (v & _ & _ & Hv)%matches_star_chr). exact Hv. }
  cbn in R1. rewrite R1, G1, R4, G2, R7, Hr in Ht.
  apply html_split_str in Ht as [Hb Ht]; [|by apply delimiters_of|done].
  apply html_split_str in Ht as [Hg1 Ht]; [|by apply delimiters_of|done].
  apply html_split_str in Ht as [Hg2 Ha]; [|by apply delimiters_of|done].
  unfold splits, group_text, group. rewrite <- Hc, C7, C5, Hc6, C4, C2. cbn [cap_lookup Nat.eqb default].
  split_and!; try done. intros Hempty. rewrite Hempty, str_app_nil in R1.
  apply (f_equal String.length) in R1. rewrite G1, R4, G2, R7, Hr, !str_length_app in R1. cbn in R1. lia.
Qed.

(** A replacement whose matches are so divided keeps the text so. *)
Lemma replace_html r (f : MatchResult -> string) t :
  (forall prev t m, Html t -> exec_from r prev t = Some m -> splits m /\ Html (f m)) ->
  Html t -> Html (replace_all r f t).
Proof.
  intros H Ht.
  apply (replace_all_acc_ind r (fun _ m => ((), f m)) (fun _ => True) Html Html () t html_app); [done| |done|done].
  intros prev s m [] Hs _ He. destruct (H prev s m Hs He) as [(? & ? & ? & ?) ?]. by split_and!.
Qed.

(** The extracted pieces. *)
Lemma extracted_html r (f : list string -> MatchResult -> list string * string) t :
  (forall prev t m, exec_from r prev t = Some m -> mr_match m <> "") ->
  (forall acc m, Forall Html acc -> Forall Html (f acc m).1) ->
  Forall Html (replace_all_acc r f [] t).1.
Proof.
  intros Hne Hf.
  apply (replace_all_acc_ind r f (Forall Html) (fun _ => True) (fun _ => True) [] t); auto.
  intros prev s m acc _ Hacc He. split_and!; eauto.
Qed.

Lemma starts_nonempty d r prev t m : d <> "" -> exec_from (re_seq (re_lit d) r) prev t = Some m -> mr_match m <> "".
Proof.
  intros Hd (p & s' & Hm & Hr & Hc & Hs)%match_inv Hempty. rewrite Hempty, str_app_nil in Hm.
  apply matches_seq in Hm as (s1 & [R1 _]%matches_lit & (u & Hu)%matches_suffix). cbn in R1.
  rewrite Hu, Hr in R1. apply (f_equal String.length) in R1. rewrite !str_length_app in R1.
  destruct d; [done|cbn in R1; lia].
Qed.

Lemma restored_html code m : Forall Html code -> Html (restored code m).
Proof.
  intros H. unfold restored. destruct (parseInt (group_text 1 m)) as [i|]; cbn; [|by apply plain_html; intros c; destruct c as [[] [] [] [] [] [] [] []]].
  destruct (js_at code i) as [x|] eqn:E; cbn; [|by apply plain_html; intros c; destruct c as [[] [] [] [] [] [] [] []]].
  apply js_at_Some in E as [_ E]. by eapply Forall_lookup_1.
Qed.

Lemma placeholder_splits kind prev t m :
  Html t -> exec_from (re_placeholder kind) prev t = Some m ->
  mr_match m <> "" /\ Html (mr_before m) /\ Html (mr_after m).
Proof.
  intros Ht He. assert (Hne : mr_match m <> "") by (by eapply (starts_nonempty (nul +:+ kind))).
  split; [done|]. apply match_inv in He as (p & s' & Hm & Hr & Hc & ->).
  unfold re_placeholder, re_seqs in Hm. cbn [foldr] in Hm.
  apply matches_seq in Hm as (s1 & [R1 _]%matches_lit & Hm). apply matches_seq in Hm as (s2 & H2 & Hm).
  apply matches_group in H2 as (s3 & g & _ & G & R2 & _). apply matches_seq in Hm as (s4 & [R4 _]%matches_lit & H4).
  assert (s' = s4) as -> by (by inversion H4). cbn in R1. rewrite R1, G, R4, Hr, str_app_assoc in Ht.
  apply html_split_str in Ht as [Hb Ht]; [|by apply delimiters_of|done]. split; [done|].
  rewrite <- !str_app_assoc in Ht. rewrite str_app_assoc in Ht.
  by apply html_split_str in Ht as [_ Ha]; [|by apply delimiters_of|done].
Qed.

Lemma replace_placeholders kind code t :
  Forall Html code -> Html t -> Html (replace_all (re_placeholder kind) (restored code) t).
Proof.
  intros Hcode Ht.
  apply (replace_all_acc_ind (re_placeholder kind) (fun _ m => ((), restored code m)) (fun _ => True) Html Html () t
           html_app); [done| |done|done].
  intros prev s m [] Hs _ He. destruct (placeholder_splits kind prev s m Hs He) as (? & ? & ?).
  split_and!; [done..|]. by apply restored_html.
Qed.

Lemma code_block_html acc m : Forall Html acc -> Forall Html (take_code_block acc m).1.
Proof.
  intros H. apply Forall_app. split; [done|]. apply Forall_singleton, html_str.
  rewrite !Forall_cons. split_and!; [html_literal|apply escapeHtml_html|html_literal|constructor].
Qed.

Lemma inline_code_html acc m : Forall Html acc -> Forall Html (take_inline_code acc m).1.
Proof.
  intros H. apply Forall_app. split; [done|]. apply Forall_singleton, html_str.
  rewrite !Forall_cons. split_and!; [html_literal|apply escapeHtml_html|html_literal|constructor].
Qed.

Lemma wrapped_html opening closing m : Html opening -> Html closing -> splits m -> Html (wrapped opening closing m).
Proof. intros ? ? (_ & _ & _ & ?). apply html_str. rewrite !Forall_cons. by split_and!. Qed.

(** C38: the converter lets no markup through: in its result every angle bracket, double quote
    and ampersand is part of a tag or an entity of its own vocabulary, whatever the
    message was, also inside links and code and with forged placeholders. *)
Theorem only_own_markup markdown : Html (markdownToTelegramHtml markdown).
Proof.
  unfold markdownToTelegramHtml. destruct (truthy_str markdown); [|constructor]. cbn [negb].
  pose proof (extracted_html re_code_block take_code_block markdown
    (fun p t m => starts_nonempty "```" _ p t m ltac:(done)) code_block_html) as Hcb.
  destruct (replace_all_acc re_code_block take_code_block [] markdown) as [codeBlocks text].
  pose proof (extracted_html re_inline_code take_inline_code text
    (fun p t m => starts_nonempty backtick _ p t m ltac:(done)) inline_code_html) as Hic.
  destruct (replace_all_acc re_inline_code take_inline_code [] text) as [inlineCode text'].
  cbn [fst] in Hcb, Hic.
  apply replace_placeholders, replace_placeholders; [done..|].
  apply replace_html.
  { intros prev t m Ht He. destruct (link_splits prev t m Ht He) as [Hs Hg]. split; [done|].
    destruct Hs as (_ & _ & _ & Hs).
    change (Html (str ["<a href=" +:+ dquote; group_text 2 m; dquote +:+ ">"; group_text 1 m; "</a>"])).
    apply html_str. rewrite !Forall_cons. split_and!; [html_literal|done|html_literal|done|html_literal|constructor]. }
  apply replace_html.
  { intros prev t m Ht He. assert (Hs : splits m) by (by apply (between_splits "~~" _ prev t m eq_refl ltac:(done) Ht He)). split; [done|].
    apply wrapped_html; [html_literal|html_literal|done]. }
  apply replace_html.
  { intros prev t m Ht He. assert (Hs : splits m) by (by eapply italic_splits). split; [done|].
    apply wrapped_html; [html_literal|html_literal|done]. }
  apply replace_html.
  { intros prev t m Ht He. assert (Hs : splits m) by (by apply (between_splits "**" _ prev t m eq_refl ltac:(done) Ht He)). split; [done|].
    apply wrapped_html; [html_literal|html_literal|done]. }
  apply replace_html; [|apply escapeHtml_html].
  intros prev t m Ht He. assert (Hs : splits m) by (by apply (between_splits "***" _ prev t m eq_refl ltac:(done) Ht He)). split; [done|].
  apply wrapped_html; [html_literal|html_literal|done].
Qed.

(** ** Executions *)

(** Text without any of the special characters is only escaped. *)
Example escaped_only : markdownToTelegramHtml "a & b < c" = "a &amp; b &lt; c".
Proof. by vm_compute. Qed.

(** Overlapping emphasis gives tags that cross, which Telegram refuses. *)
Example crossing_tags :
  markdownToTelegramHtml "**a *b** c*" = "<b>a <i>b</b> c</i>".
Proof. by vm_compute. Qed.

(** A message can contain the text of a placeholder: it is replaced by the code of
    another place, or by the word undefined. *)
Example forged_placeholder :
  markdownToTelegramHtml ("`x` " +:+ placeholder "IC" 0) = "<code>x</code> <code>x</code>" /\
  markdownToTelegramHtml (placeholder "CB" 7) = "undefined".
Proof. by vm_compute. Qed.

(** Inside a fence the characters of inline markup are left alone. *)
Example fenced :
  markdownToTelegramHtml (str ["```js"; newline; "a **b** <c>"; newline; "```"]) =
    "<pre><code>a **b** &lt;c&gt;</code></pre>".
Proof. by vm_compute. Qed.
