(* ===== verification/Inbox.v ===== *)
(** * The inbox of the messaging plugin (src/src/messaging/inbox.ts, types.ts)

    A message is a file of the inbox directory, named after its identifier.  A file
    is [Some] of the message it holds, or [None] when it cannot be read or parsed;
    a time is its milliseconds, since [toISOString] and [Date] are inverse on them.
    [readdir] enumerates a directory in the order of the map. *)

From S2P Require Import Prelude JsMap JsString JsNumber.
From Stdlib Require Import Ascii DecimalString.

Inductive MessageStatus := msg_new | msg_read | msg_archived.
#[export] Instance MessageStatus_eq_dec : EqDecision MessageStatus.
Proof. solve_decision. Defined.

Record MessageContext := mkMessageContext {
  project : option string;
  priority : option string
}.

Record InboxMessage := mkInboxMessage {
  msg_id : string;
  from : string;
  to : string;
  content : string;
  msg_type : string;
  status : MessageStatus;
  timestamp : Z;
  threadId : option string;
  context : option MessageContext
}.
#[export] Instance InboxMessage_eta : EtaRecord InboxMessage := fun m =>
  mkInboxMessage (msg_id m) (from m) (to m) (content m) (msg_type m) (status m) (timestamp m)
    (threadId m) (context m).

Record WriteMessageInput := mkWriteMessageInput {
  in_from : string;
  in_to : string;
  in_content : string;
  in_type : string;
  in_threadId : option string;
  in_context : option MessageContext
}.

(** The directories on disk; [None] is a directory that does not exist. *)
Definition dir : Type := jsmap (option InboxMessage).
Record Inbox := mkInbox { inbox : option dir; archive : option dir }.
#[export] Instance Inbox_eta : EtaRecord Inbox := fun b => mkInbox (inbox b) (archive b).

Implicit Types (b : Inbox) (m : InboxMessage).

(** [fs.mkdir(path, { recursive: true })]. *)
Definition mkdir (d : option dir) : dir := default [] d.

Definition message_file (id : string) : string := id +:+ ".json".

(** ** Operations *)

(** [now] is [Date.now()], [random] the four random bytes. *)
Definition message_name (now : Z) (random : string) : string :=
  js_toString now +:+ "-" +:+ hex_encode random.

Definition new_message (now : Z) (random : string) (input : WriteMessageInput) : InboxMessage :=
  mkInboxMessage (message_name now random) (in_from input) (in_to input) (in_content input)
    (in_type input) msg_new now (in_threadId input) (in_context input).

Definition writeMessage (now : Z) (random : string) (input : WriteMessageInput) b : Inbox * string :=
  let m := new_message now random input in
  (b <| inbox := Some (jm_set (mkdir (inbox b)) (message_file (msg_id m)) (Some m)) |>, msg_id m).

Inductive ReadError := not_found (message : string) | unreadable.

Definition readMessage (messageId : string) b : ReadError + InboxMessage :=
  match inbox b ≫= fun d => jm_get d (message_file messageId) with
  | None => inl (not_found ("Message not found: " +:+ messageId))
  | Some None => inl unreadable
  | Some (Some m) => inr m
  end.

Definition listMessages b : list string :=
  match inbox b with
  | None => []
  | Some d => js_replace ".json" "" <$> filter (fun f => js_endsWith f ".json" = true) (jm_keys d)
  end.

Definition getNewMessages b : list InboxMessage :=
  omap (fun id => match readMessage id b with
                  | inr m => if bool_decide (status m = msg_new) then Some m else None
                  | inl _ => None
                  end) (listMessages b).

Definition markRead (messageId : string) b : ReadError + Inbox :=
  match readMessage messageId b with
  | inl e => inl e
  | inr m => inr (b <| inbox ::= fmap (fun d => jm_set d (message_file messageId) (Some (m <| status := msg_read |>))) |>)
  end.

(** One message of [archiveOlderThan].  [written] and [unlinked] tell whether the
    two file operations succeed on a path; a failure skips the message. *)
Section archive.
Variables (written unlinked : string -> bool) (cutoff : Z).

Definition archive_one (s : Inbox * Z) (id : string) : Inbox * Z :=
  let '(b, archived) := s in
  match readMessage id b with
  | inl _ => s
  | inr m =>
      if timestamp m <? cutoff then
        let path := message_file id in
        if written path then
          let b := b <| archive := Some (jm_set (mkdir (archive b)) path (Some (m <| status := msg_archived |>))) |> in
          if unlinked path
          then (b <| inbox ::= fmap (fun d => jm_delete d path) |>, archived + 1)
          else (b, archived)
        else s
      else s
  end.
End archive.

Definition archiveOlderThan (written unlinked : string -> bool) (now days : Z) b : Inbox * Z :=
  let ids := listMessages b in
  let cutoff := now - days * 24 * 60 * 60 * 1000 in
  let b := b <| archive := Some (mkdir (archive b)) |> in
  foldl (archive_one written unlinked cutoff) (b, 0) ids.

(** ** Names *)

Lemma hex_free_dot s : free_of "." (hex_encode s) = true.
Proof.
  induction s as [|[b0 b1 b2 b3 b4 b5 b6 b7] s IH]; [done|]. cbn [hex_encode free_of].
  rewrite IH. by destruct b0, b1, b2, b3, b4, b5, b6, b7.
Qed.

Lemma message_name_free now random : free_of "." (message_name now random) = true.
Proof. unfold message_name. by rewrite !free_of_app, js_toString_free, hex_free_dot by done. Qed.

Lemma strip_json id : free_of "." id = true -> js_replace ".json" "" (message_file id) = id.
Proof.
  unfold message_file. induction id as [|c s IH]; [done|]. cbn [free_of].
  rewrite andb_true_iff, negb_true_iff. intros [Hc Hs]. rewrite str_app_cons. cbn [js_replace].
  assert (String.prefix ".json" (String c (s +:+ ".json")) = false) as ->.
  { cbn [String.prefix]. destruct (ascii_dec "." c) as [<-|]; [discriminate|done]. }
  by rewrite IH.
Qed.

Lemma message_file_json id : js_endsWith (message_file id) ".json" = true.
Proof. apply endsWith_app. by exists id. Qed.

(** ** Delivery *)

Lemma message_file_inj id id' : message_file id = message_file id' -> id = id'.
Proof. apply str_app_tail. Qed.

Lemma readMessage_set b id m id' :
  readMessage id' (b <| inbox := Some (jm_set (mkdir (inbox b)) (message_file id) (Some m)) |>) =
  if decide (id = id') then inr m else readMessage id' b.
Proof.
  unfold readMessage. cbn. rewrite jm_get_set. destruct (decide (id = id')) as [->|Hne].
  - by rewrite decide_True.
  - rewrite decide_False by by intros ?%message_file_inj. by destruct (inbox b).
Qed.

(** Every file of the inbox is named after an identifier without a dot, as
    [writeMessage] names them. *)
Definition inbox_names b : Prop :=
  jm_wf (mkdir (inbox b)) /\
  forall f, f ∈ jm_keys (mkdir (inbox b)) -> exists id, f = message_file id /\ free_of "." id = true.

Lemma elem_of_listMessages b id : inbox_names b ->
  id ∈ listMessages b <-> free_of "." id = true /\ message_file id ∈ jm_keys (mkdir (inbox b)).
Proof.
  intros [_ Hn]. unfold listMessages. destruct (inbox b) as [d|]; cbn in *.
  - rewrite list_elem_of_fmap. split.
    + intros (f & -> & [_ Hf]%list_elem_of_filter). destruct (Hn f Hf) as (id & -> & Hi).
      by rewrite (strip_json id Hi).
    + intros [Hi Hf]. exists (message_file id). rewrite strip_json by done. split; [done|].
      apply list_elem_of_filter. split; [apply message_file_json|done].
  - split; [by intros ?%elem_of_nil|by intros [_ ?%elem_of_nil]].
Qed.

Lemma elem_of_getNewMessages b m : m ∈ getNewMessages b <->
  exists id, id ∈ listMessages b /\ readMessage id b = inr m /\ status m = msg_new.
Proof.
  unfold getNewMessages. rewrite list_elem_of_omap. split.
  - intros (id & Hi & H). exists id. split; [done|]. destruct (readMessage id b) as [|m']; [done|].
    case_bool_decide; by simplify_eq.
  - intros (id & Hi & Hr & Hs). exists id. split; [done|]. rewrite Hr. by rewrite bool_decide_true.
Qed.

Lemma inbox_names_set b id m : inbox_names b -> free_of "." id = true ->
  inbox_names (b <| inbox := Some (jm_set (mkdir (inbox b)) (message_file id) (Some m)) |>).
Proof.
  intros [Hwf Hn] Hi. split; cbn; [by apply jm_wf_set|]. intros f. rewrite jm_keys_set.
  case_match; [apply Hn|]. rewrite elem_of_app, list_elem_of_singleton. intros [Hf| ->]; [by apply Hn|by exists id].
Qed.

(** The messages of an inbox where [id] was written are those there were, and it. *)
Lemma getNewMessages_set b id m : inbox_names b -> free_of "." id = true ->
  let b' := b <| inbox := Some (jm_set (mkdir (inbox b)) (message_file id) (Some m)) |> in
  forall x, x ∈ getNewMessages b' <->
    (x = m /\ status m = msg_new) \/
    exists id', id' <> id /\ id' ∈ listMessages b /\ readMessage id' b = inr x /\ status x = msg_new.
Proof.
  intros Hb Hi b' x. rewrite elem_of_getNewMessages.
  assert (Hk : forall id', id' ∈ listMessages b' <-> id' = id \/ id' ∈ listMessages b).
  { intros id'. rewrite !elem_of_listMessages by (done || by apply inbox_names_set). cbn.
    rewrite jm_keys_set. split.
    - intros [Hf H]. case_match; [by right|]. apply elem_of_app in H as [H|H]; [by right|].
      apply list_elem_of_singleton, message_file_inj in H. by left.
    - intros [->|[Hf H]]; (split; [done|]).
      + case_match; [by apply jm_has_keys|]. apply elem_of_app. right. by apply list_elem_of_singleton.
      + case_match; [done|]. apply elem_of_app. by left. }
  assert (Hr : forall id', readMessage id' b' = if decide (id = id') then inr m else readMessage id' b) by (intros id'; apply readMessage_set).
  split.
  - intros (id' & Hk' & Hrd & Hs). rewrite Hr in Hrd. case_decide; subst.
    + left. by injection Hrd as <-.
    + right. exists id'. apply Hk in Hk' as [->|Hk']; [done|]. done.
  - intros [[-> Hs]|(id' & Hne & Hk' & Hrd & Hs)].
    + exists id. rewrite Hr, decide_True by done. split; [apply Hk; by left|done].
    + exists id'. rewrite Hr, decide_False by done. split; [apply Hk; by right|done].
Qed.

(** A message reaches its reader once.  What [writeMessage] stores under a fresh
    name is new, with the sender's text and the name that was returned; the other
    new messages stay new; [markRead] of that name takes this message, and no
    other, off the list. *)
Theorem inbox_delivers_once now random input b :
  inbox_names b -> message_file (message_name now random) ∉ jm_keys (mkdir (inbox b)) ->
  let '(b1, id) := writeMessage now random input b in
  id = message_name now random /\ inbox_names b1 /\
  readMessage id b1 = inr (new_message now random input) /\
  (forall x, x ∈ getNewMessages b1 <-> x = new_message now random input \/ x ∈ getNewMessages b) /\
  exists b2, markRead id b1 = inr b2 /\ inbox_names b2 /\
    forall x, x ∈ getNewMessages b2 <-> x ∈ getNewMessages b.
Proof.
  intros Hb Hf. unfold writeMessage. cbn [msg_id new_message]. set (m := new_message now random input).
  set (id := message_name now random) in *. set (b1 := field_update inbox _ b).
  assert (Hid : free_of "." id = true) by apply message_name_free.
  assert (Hb1 : inbox_names b1) by by apply inbox_names_set.
  assert (Hother : forall x, (exists id', id' <> id /\ id' ∈ listMessages b /\ readMessage id' b = inr x /\ status x = msg_new)
     <-> x ∈ getNewMessages b).
  { intros x. rewrite elem_of_getNewMessages. split; [intros (i & _ & H); by exists i|].
    intros (i & Hi & H). exists i. split; [|done]. intros ->. by apply elem_of_listMessages in Hi as [_ Hi]. }
  assert (Hrd : readMessage id b1 = inr m).
  { unfold b1. by rewrite readMessage_set, decide_True by done. }
  split; [done|]. split; [done|]. split; [done|]. split.
  - intros x. unfold b1. rewrite getNewMessages_set by done. rewrite Hother.
    split; [intros [[-> _]|H]; [by left|by right]|intros [->|H]; [by left|by right]].
  - unfold markRead. rewrite Hrd. eexists. split; [reflexivity|].
    set (m2 := m <| status := msg_read |>).
    assert (Hset : b1 <| inbox ::= fmap (fun d => jm_set d (message_file id) (Some m2)) |> =
      b <| inbox := Some (jm_set (mkdir (inbox b)) (message_file id) (Some m2)) |>).
    { unfold b1. destruct b as [d a]. unfold field_update. cbn. f_equal. f_equal. apply jm_set_set. }
    rewrite Hset. split; [by apply inbox_names_set|]. intros x.
    rewrite getNewMessages_set by done. rewrite Hother. split; [by intros [[_ ?]|?]|by right].
Qed.

(** ** Archiving *)

(** Where the file [f], which held [c] at first, is. *)
Definition kept_or_archived (cutoff : Z) (c : option InboxMessage) (f : string) b : Prop :=
  (inbox b ≫= fun d => jm_get d f) = Some c \/
  exists m, c = Some m /\ timestamp m < cutoff /\ (inbox b ≫= fun d => jm_get d f) = None /\
    (archive b ≫= fun d => jm_get d f) = Some (Some (m <| status := msg_archived |>)).

Lemma archive_one_keeps written unlinked cutoff c f id s :
  jm_wf (mkdir (inbox s.1)) -> kept_or_archived cutoff c f s.1 ->
  let s' := archive_one written unlinked cutoff s id in
  jm_wf (mkdir (inbox s'.1)) /\ kept_or_archived cutoff c f s'.1 /\
  s'.2 + jm_size (mkdir (inbox s'.1)) = s.2 + jm_size (mkdir (inbox s.1)).
Proof.
  destruct s as [[[d|] a] n]; [|done]. cbn [fst snd inbox archive mkdir default]. intros Hwf Hk.
  unfold archive_one, readMessage. cbn [inbox option_bind mbind].
  destruct (jm_get d (message_file id)) as [[m|]|] eqn:E; [|done|done].
  destruct (timestamp m <? cutoff) eqn:Et; [|done].
  destruct (written (message_file id)); [|done].
  assert (Hk' : kept_or_archived cutoff c f
    (mkInbox (Some d) (Some (jm_set (mkdir a) (message_file id) (Some (m <| status := msg_archived |>)))))).
  { destruct Hk as [Hk|(x & -> & Hx & Hn & Ha)]; [by left|]. right. exists x. split; [done|]. split; [done|].
    split; [done|]. cbn in *. rewrite jm_get_set. case_decide as Hd; [|by destruct a].
    subst. by rewrite E in Hn. }
  destruct (unlinked (message_file id)); [|done]. cbn. split; [by apply jm_wf_delete|]. split.
  - destruct Hk' as [Hk'|(x & -> & Hx & Hn & Ha)]; unfold kept_or_archived; cbn in *;
      rewrite !jm_get_delete by done.
    + case_decide as Hd; [|by left]. subst f. right. exists m. rewrite Hk' in E. injection E as ->.
      rewrite jm_get_set, decide_True by done. apply Z.ltb_lt in Et. done.
    + right. exists x. rewrite Hn. case_decide; done.
  - rewrite jm_size_delete by done. rewrite (jm_get_has _ _ _ E). lia.
Qed.

(** Archiving loses nothing.  Whatever file operations fail, a file of the
    inbox is afterwards still there as it was, or its message was older than the
    limit and is in the archive, marked archived and otherwise unchanged; and the
    number returned is the number of files that left the inbox. *)
Theorem archiving_loses_nothing written unlinked now days b f c :
  jm_wf (mkdir (inbox b)) -> (inbox b ≫= fun d => jm_get d f) = Some c ->
  let '(b', archived) := archiveOlderThan written unlinked now days b in
  kept_or_archived (now - days * 24 * 60 * 60 * 1000) c f b' /\
  archived = jm_size (mkdir (inbox b)) - jm_size (mkdir (inbox b')).
Proof.
  intros Hwf Hf. unfold archiveOlderThan. set (cutoff := now - _).
  set (b0 := field_update archive _ b).
  assert (H : forall ids s, jm_wf (mkdir (inbox s.1)) -> kept_or_archived cutoff c f s.1 ->
    let s' := foldl (archive_one written unlinked cutoff) s ids in
    kept_or_archived cutoff c f s'.1 /\
    s'.2 + jm_size (mkdir (inbox s'.1)) = s.2 + jm_size (mkdir (inbox s.1))).
  { induction ids as [|id ids IH]; intros s Hw Hk; [done|]. cbn [foldl].
    destruct (archive_one_keeps written unlinked cutoff c f id s Hw Hk) as (Hw' & Hk' & <-).
    by apply IH. }
  specialize (H (listMessages b) (b0, 0) Hwf (or_introl Hf)). cbn [fst snd] in H.
  destruct (foldl _ _ _) as [b' n]. cbn in H. destruct H as [? H]. split; [done|]. 
  unfold mkdir in *. lia.
Qed.

Definition sample_inbox : Inbox :=
  mkInbox (Some [("1-aa.json", Some (mkInboxMessage "1-aa" "a" "b" "hi" "info" msg_new 1 None None));
                 ("junk.json", None)]) None.

Lemma sample_inbox_names : inbox_names sample_inbox.
Proof.
  split.
  - cbn. repeat constructor; set_solver.
  - intros f Hf. cbn in Hf. apply elem_of_cons in Hf as [->|Hf]; [by exists "1-aa"|].
    apply list_elem_of_singleton in Hf as ->. by exists "junk".
Qed.

Lemma inbox_delivers_once_witness :
  let '(b1, id) := writeMessage 86400001 "abcd" (mkWriteMessageInput "x" "y" "text" "info" None None) sample_inbox in
  id = "86400001-61626364" /\ length (getNewMessages b1) = 2%nat.
Proof.
  assert (H := inbox_delivers_once 86400001 "abcd" (mkWriteMessageInput "x" "y" "text" "info" None None) sample_inbox
    sample_inbox_names ltac:(cbn; set_solver)).
  split; [exact (proj1 H)|vm_compute; reflexivity].
Defined.

Lemma archiving_loses_nothing_witness :
  let '(b', archived) := archiveOlderThan (fun _ => true) (fun _ => true) 86400002 1 sample_inbox in
  archived = 1 /\ kept_or_archived 2 (Some (mkInboxMessage "1-aa" "a" "b" "hi" "info" msg_new 1 None None)) "1-aa.json" b'.
Proof.
  assert (H := archiving_loses_nothing (fun _ => true) (fun _ => true) 86400002 1 sample_inbox "1-aa.json"
    (Some (mkInboxMessage "1-aa" "a" "b" "hi" "info" msg_new 1 None None))
    (proj1 sample_inbox_names) ltac:(reflexivity)).
  split; [vm_compute; reflexivity|exact (proj1 H)].
Defined.
