(* ===== verification/Skills.v ===== *)
(** * Skills (src/src/skills/loader.ts, src/src/skills/types.ts and
      src/src/mcp/skill-tools.ts)

    A skill is a Markdown file with a front matter between two lines of dashes.
    [SkillLoader] reads every such file of its directories; the tools list them.  A
    value of the front matter is a text or an array of texts; a skill whose name is an
    array is stored under that array, a key no other file has.

    The file system is what [readdir] and [readFile] answer. *)

From S2P Require Import Prelude JsMap JsString JsRegExp Json JsNumber.
From Stdlib Require Import Ascii.

Inductive FrontValue := fv_text (s : string) | fv_array (l : list string).

Record Skill := mkSkill {
  sk_name : FrontValue;
  sk_description : FrontValue;
  sk_content : string;
  sk_triggers : option FrontValue;
  sk_filePath : string
}.

(** The errors of the file system by their code. *)
Inductive FsError := ENOENT | fs_error (message : string).

Record FileSystem := mkFileSystem {
  readdir : string -> FsError + list string;
  readFile : string -> FsError + string
}.

Record SkillLoader := mkSkillLoader {
  directories : list string;
  skills : list Skill;              (* the values of the map, in its order *)
  watchers : nat
}.
#[export] Instance SkillLoader_eta : EtaRecord SkillLoader := fun l =>
  mkSkillLoader (directories l) (skills l) (watchers l).

Definition new_SkillLoader (dirs : list string) : SkillLoader := mkSkillLoader dirs [] 0.


(** ** The front matter *)

Definition fence : string := "---".
Definition re_all : regex := re_chr (fun _ => true).

(** A line of dashes, the front matter, a line that begins with dashes, the rest. *)
Definition re_frontmatter : regex :=
  re_seqs [re_start; re_lit (fence +:+ newline); re_group 1 (re_lazy re_all); re_lit (newline +:+ fence);
           re_opt (re_lit newline); re_group 2 (re_many re_all); re_end].

(** A key, a colon, spaces, the value. *)
Definition re_key_value : regex :=
  re_seqs [re_start; re_group 1 (re_plus (re_chr is_word)); re_lit ":"; re_many (re_chr is_space);
           re_group 2 (re_many (re_chr is_dot)); re_end].

(** Assignment to a property of the front matter; [__proto__] makes none. *)
Definition assign (key : string) (v : FrontValue) (fm : jsmap FrontValue) : jsmap FrontValue :=
  if String.eqb key "__proto__" then fm else jm_set fm key v.

(** The variables of the loop over the lines. *)
Record LineState := mkLineState {
  frontmatter : jsmap FrontValue;
  currentKey : string;
  inArray : bool;
  arrayItems : list string
}.

Definition flush (s : LineState) : LineState :=
  if inArray s
  then mkLineState (assign (currentKey s) (fv_array (arrayItems s)) (frontmatter s)) (currentKey s) false []
  else s.

Definition parse_line (s : LineState) (line : string) : LineState :=
  let trimmed := js_trim line in
  if negb (truthy_str trimmed) then s
  else if inArray s && js_startsWith trimmed "- "
  then mkLineState (frontmatter s) (currentKey s) true (arrayItems s ++ [js_trim (js_slice_str_from trimmed 2)])
  else
    let s := flush s in
    match exec re_key_value trimmed with
    | Some m =>
        let key := default "" (group 1 m) in
        let value := default "" (group 2 m) in
        if String.eqb value "" then mkLineState (frontmatter s) key true (arrayItems s)
        else mkLineState (assign key (fv_text value) (frontmatter s)) (currentKey s) (inArray s) (arrayItems s)
    | None => s
    end.

Definition parse_lines (lines : list string) : jsmap FrontValue :=
  frontmatter (flush (foldl parse_line (mkLineState [] "" false []) lines)).

Definition parseFrontmatter (raw : string) : option (jsmap FrontValue * string) :=
  m ← exec re_frontmatter raw;
  Some (parse_lines (js_split (ascii_of_nat 10) (default "" (group 1 m))), default "" (group 2 m)).

(** ** Loading *)

Definition truthy_front (o : option FrontValue) : bool :=
  match o with Some (fv_text s) => truthy_str s | Some (fv_array _) => true | None => false end.

Definition same_key (a b : FrontValue) : bool :=
  match a, b with fv_text s, fv_text t => String.eqb s t | _, _ => false end.

(** [this.skills.set(name, skill)]. *)
Fixpoint set_skill (sk : Skill) (m : list Skill) : list Skill :=
  match m with
  | [] => [sk]
  | x :: m => if same_key (sk_name x) (sk_name sk) then sk :: m else x :: set_skill sk m
  end.

Definition skill_of (filePath raw : string) : option Skill :=
  '(fm, content) ← parseFrontmatter raw;
  name ← jm_get fm "name";
  description ← jm_get fm "description";
  if truthy_front (Some name) && truthy_front (Some description)
  then Some (mkSkill name description (js_trim content) (jm_get fm "triggers") filePath)
  else None.

Definition loadSkillFile (fs : FileSystem) (filePath : string) (m : list Skill) : FsError + list Skill :=
  match readFile fs filePath with
  | inl e => inl e
  | inr raw => inr (match skill_of filePath raw with Some sk => set_skill sk m | None => m end)
  end.

(** The files of one directory: what was loaded before an error stays loaded. *)
Fixpoint loadFiles (fs : FileSystem) (dir : string) (files : list string) (m : list Skill) :
    list Skill * option FsError :=
  match files with
  | [] => (m, None)
  | file :: files =>
      if js_endsWith file ".md" then
        match loadSkillFile fs (path_join [dir; file]) m with
        | inl e => (m, Some e)
        | inr m => loadFiles fs dir files m
        end
      else loadFiles fs dir files m
  end.

Fixpoint loadDirectories (fs : FileSystem) (dirs : list string) (m : list Skill) : list Skill * option FsError :=
  match dirs with
  | [] => (m, None)
  | dir :: dirs =>
      let '(m, err) := match readdir fs dir with
                       | inl e => (m, Some e)
                       | inr files => loadFiles fs dir files m
                       end in
      match err with
      | Some (fs_error e) => (m, Some (fs_error e))
      | _ => loadDirectories fs dirs m
      end
  end.

(** [loadAll]: the loader, and the error it throws. *)
Definition loadAll (fs : FileSystem) (l : SkillLoader) : SkillLoader * option FsError :=
  let '(m, err) := loadDirectories fs (directories l) [] in (l <| skills := m |>, err).

Definition listSkills (l : SkillLoader) : list Skill := skills l.
Definition getSkill (name : string) (l : SkillLoader) : option Skill :=
  List.find (fun sk => same_key (sk_name sk) (fv_text name)) (skills l).
Definition stop (l : SkillLoader) : SkillLoader := l <| watchers := 0%nat |>.

(** ** The tools *)

Definition front_json (v : FrontValue) : json :=
  match v with fv_text s => JStr s | fv_array a => JArr (JStr <$> a) end.
Definition opt_triggers (sk : Skill) : list (string * json) :=
  match sk_triggers sk with Some t => [("triggers", front_json t)] | None => [] end.

Definition list_skills (l : SkillLoader) : json :=
  JObj [("skills", JArr ((fun sk => JObj ([("name", front_json (sk_name sk));
                                           ("description", front_json (sk_description sk))] ++ opt_triggers sk ++
                                          [("filePath", JStr (sk_filePath sk))])) <$> listSkills l));
        ("count", JNum (js_length (listSkills l)))].

Definition skill_json (sk : Skill) : json :=
  JObj ([("name", front_json (sk_name sk)); ("description", front_json (sk_description sk));
         ("content", JStr (sk_content sk))] ++ opt_triggers sk ++ [("filePath", JStr (sk_filePath sk))]).

Definition get_skill (name : string) (l : SkillLoader) : json :=
  match getSkill name l with
  | Some sk => JObj [("skill", skill_json sk)]
  | None => JObj [("error", JStr ("Skill not found: " +:+ name));
                  ("available", JArr ((fun sk => front_json (sk_name sk)) <$> listSkills l))]
  end.

Example parsed :
  parseFrontmatter (join_with newline ["---"; "name: deploy"; "description: Roll out"; "triggers:"; "  - ship it"; "---"; ""; "Body"]) =
    Some ([("name", fv_text "deploy"); ("description", fv_text "Roll out"); ("triggers", fv_array ["ship it"])],
          newline +:+ "Body").
Proof. by vm_compute. Qed.

(** * Skills: theorems

    A front matter that is written the usual way is read back, whatever its keys, values
    and arrays; what [loadAll] keeps of the files; and a directory cut short by a file
    that vanishes. *)

Definition nl : ascii := ascii_of_nat 10.

(** ** Trimming *)

Lemma blank_app a b : blank (a +:+ b) = blank a && blank b.
Proof.
  induction a as [|c a IH]; [done|]. rewrite str_app_cons. cbn. by rewrite IH, andb_assoc.
Qed.

Lemma trimEnd_app a b : b <> "" -> js_trimEnd b = b -> js_trimEnd (a +:+ b) = a +:+ b.
Proof.
  intros Hne Hb. assert (Hbl : blank b = false).
  { destruct b as [|c b]; [done|]. cbn in Hb. destruct (is_space c && blank b) eqn:E; [done|exact E]. }
  induction a as [|c a IH]; [done|]. rewrite str_app_cons. cbn [js_trimEnd].
  assert (blank (String c (a +:+ b)) = false) as ->.
  { cbn. by rewrite blank_app, Hbl, andb_false_r, andb_false_r. }
  by rewrite IH.
Qed.

Lemma trim_nonspace c s : is_space c = false -> js_trimEnd (String c s) = String c s -> js_trim (String c s) = String c s.
Proof. intros Hc Hs. unfold js_trim. cbn [js_trimStart]. by rewrite Hc. Qed.

Lemma trimmed_head c s : js_trim (String c s) = String c s -> is_space c = false /\ js_trimEnd (String c s) = String c s.
Proof.
  unfold js_trim. cbn [js_trimStart]. destruct (is_space c) eqn:E; [|done]. intros H. exfalso.
  assert (Hlen : forall t, (String.length (js_trimEnd t) <= String.length t)%nat).
  { induction t as [|d t IH]; [done|]. cbn. destruct (is_space d && blank t); cbn; lia. }
  assert (Hstart : forall t, (String.length (js_trimStart t) <= String.length t)%nat).
  { induction t as [|d t IH]; [done|]. cbn. destruct (is_space d); cbn; lia. }
  apply (f_equal String.length) in H. specialize (Hlen (js_trimStart s)). specialize (Hstart s). cbn in H. lia.
Qed.

(** ** Lines *)

(** A value: a nonempty text of one line without spaces around it. *)
Definition value_ok (v : string) : Prop :=
  v <> "" /\ js_trim v = v /\ (forall c, one_of v c = true -> is_dot c = true).

Definition key_ok (k : string) : Prop :=
  k <> "" /\ (forall c, one_of k c = true -> is_word c = true) /\ k <> "__proto__".

Definition field : Type := string * FrontValue.
Definition field_ok (f : field) : Prop :=
  key_ok f.1 /\ match f.2 with fv_text v => value_ok v | fv_array items => Forall value_ok items end.

Definition field_lines (f : field) : list string :=
  match f.2 with
  | fv_text v => [f.1 +:+ ": " +:+ v]
  | fv_array items => (f.1 +:+ ":") :: ((fun x => "- " +:+ x) <$> items)
  end.

Definition render (fields : list field) (body : string) : string :=
  str [fence; newline; join_with newline (mjoin (field_lines <$> fields)); newline; fence; newline; body].

Lemma word_facts c : is_word c = true -> is_space c = false /\ Ascii.eqb "-" c = false /\ is_dot c = true.
Proof. by destruct c as [[] [] [] [] [] [] [] []]. Qed.

Lemma key_head k : key_ok k -> exists c u, k = String c u /\ is_word c = true.
Proof.
  intros (Hne & Hw & _). destruct k as [|c u]; [done|]. exists c, u. split; [done|]. apply Hw. cbn. by rewrite Ascii.eqb_refl.
Qed.

(** ** One line *)

Lemma value_head v : value_ok v -> exists c u, v = String c u /\ is_space c = false /\ js_trimEnd v = v.
Proof.
  intros (Hne & Ht & _). destruct v as [|c u]; [done|]. exists c, u. by apply trimmed_head in Ht as [? ?].
Qed.

Lemma key_value_groups k v rest : key_ok k ->
  (forall c, one_of v c = true -> is_dot c = true) -> boundary_test is_space (str_head v) = false ->
  rest = v \/ rest = " " +:+ v ->
  exists m, exec re_key_value (k +:+ String ":" rest) = Some m /\ group 1 m = Some k /\ group 2 m = Some v.
Proof.
  intros (Hne & Hw & _) Hv Hs Hrest. destruct k as [|c u]; [done|]. set (k := String c u) in *.
  assert (Hm : exists s', match_here re_key_value (mkMstate None (k +:+ String ":" rest) []) = Some s' /\
                 cap_lookup 1 (ms_caps s') = Some k /\ cap_lookup 2 (ms_caps s') = Some v).
  { set (s0 := mkMstate None (k +:+ String ":" rest) []).
    set (tail := re_seq (re_group 2 (re_many (re_chr is_dot))) (re_seq re_end re_eps)).
    assert (Hend : forall p caps, run_regex tail Some (mkMstate p v caps) = Some (mkMstate (last_char p v) "" ((2%nat, v) :: caps))).
    { intros p caps. unfold tail. rewrite run_seq, run_group.
      pose proof (run_star_chr is_dot (fun s' => run_regex (re_seq re_end re_eps) Some (capture 2 (mkMstate p v caps) s'))
        v p "" caps (mkMstate (last_char p v) "" ((2%nat, v) :: caps)) Hv eq_refl) as Hrun.
      rewrite str_app_nil_r in Hrun. apply Hrun.
      unfold capture, consumed. cbn [ms_rest String.length]. rewrite Nat.sub_0_r, substring_full. done. }
    assert (Hafter : exists s', run_regex (re_seq (re_many (re_chr is_space)) tail) Some (mkMstate (Some ":"%char) rest [(1%nat, k)]) = Some s' /\
       ms_caps s' = [(2%nat, v); (1%nat, k)]).
    { destruct Hrest as [-> | ->]; eexists; (split; [rewrite run_seq|]).
      - apply (run_star_chr is_space _ ""); [done|done|apply Hend].
      - done.
      - apply (run_star_chr is_space _ " "); [intros d; by destruct d as [[] [] [] [] [] [] [] []]|done|apply Hend].
      - done. }
    destruct Hafter as (s' & Hs' & Hc). exists s'. rewrite Hc. split; [|done].
    change (run_regex (re_plus (re_chr is_word)) (fun s' => run_regex (re_seq (re_lit ":") (re_seq (re_many (re_chr is_space)) tail))
      Some (capture 1 s0 s')) (mkMstate None (k +:+ String ":" rest) []) = Some s').
    apply run_plus_chr; [done|done|].
    assert (Hcap : capture 1 s0 (mkMstate (last_char None k) (String ":" rest) []) =
      mkMstate (last_char None k) (String ":" rest) [(1%nat, k)]).
    { unfold capture, consumed, s0. cbn [ms_rest]. rewrite str_length_app, Nat.add_sub, substring_app_l. done. }
    cbv beta. fold k. rewrite Hcap. exact Hs'. }
  destruct Hm as (s' & Hm & C1 & C2).
  unfold exec. destruct (k +:+ String ":" rest) as [|d t] eqn:E; [by destruct k|]. cbn [exec_from]. rewrite Hm.
  eexists. split; [done|]. done.
Qed.

Definition clean (s : LineState) : Prop := inArray s = false -> arrayItems s = [].
Definition meaning (s : LineState) : jsmap FrontValue := frontmatter (flush s).

Lemma prefix_head c d p s : Ascii.eqb c d = false -> String.prefix (String c p) (String d s) = false.
Proof. intros H%Ascii.eqb_neq. cbn. by destruct (ascii_dec c d). Qed.

Lemma trim_keyed k rest : key_ok k -> rest <> "" -> js_trimEnd rest = rest -> js_trim (k +:+ rest) = k +:+ rest.
Proof.
  intros Hk Hr Ht. destruct (key_head k Hk) as (c & u & -> & Hc). destruct (word_facts c Hc) as (Hs & _ & _).
  rewrite str_app_cons. apply trim_nonspace; [done|]. change (String c (u +:+ rest)) with (String c u +:+ rest).
  by apply trimEnd_app.
Qed.

(** A line with a key ends the array before it and assigns, or begins an array. *)
Lemma parse_keyed st k v rest : clean st -> key_ok k -> 
  (forall c, one_of v c = true -> is_dot c = true) -> boundary_test is_space (str_head v) = false ->
  rest = v \/ rest = " " +:+ v -> js_trimEnd (String ":" rest) = String ":" rest ->
  parse_line st (k +:+ String ":" rest) =
    if String.eqb v "" then mkLineState (meaning st) k true []
    else mkLineState (jm_set (meaning st) k (fv_text v)) (currentKey st) false [].
Proof.
  intros Hcl Hk Hv Hs Hrest Ht. unfold parse_line. rewrite trim_keyed by done.
  destruct (key_value_groups k v rest Hk Hv Hs Hrest) as (m & Hm & G1 & G2).
  pose proof Hk as (_ & _ & Hproto). destruct (key_head k Hk) as (c & u & Ek & Hc).
  destruct (word_facts c Hc) as (_ & Hdash & _).
  assert (truthy_str (k +:+ String ":" rest) = true) as -> by (by rewrite Ek, str_app_cons).
  assert (js_startsWith (k +:+ String ":" rest) "- " = false) as ->
    by (rewrite Ek, str_app_cons; by apply prefix_head).
  rewrite andb_false_r. cbn [negb]. rewrite Hm, G1, G2. cbn [default id].
  assert (Hfl : arrayItems (flush st) = [] /\ inArray (flush st) = false /\ currentKey (flush st) = currentKey st).
  { unfold flush, clean in *. destruct (inArray st) eqn:Ea; cbn; [done|]. split_and!; auto. }
  destruct Hfl as (-> & -> & ->). unfold assign. rewrite (proj2 (String.eqb_neq _ _) Hproto). done.
Qed.

Lemma parse_item st x : value_ok x -> inArray st = true ->
  parse_line st ("- " +:+ x) = mkLineState (frontmatter st) (currentKey st) true (arrayItems st ++ [x]).
Proof.
  intros Hx Ha. destruct (value_head x Hx) as (c & u & Ex & _ & Ht). destruct Hx as (Hne & Htr & _).
  assert (E : js_trim ("- " +:+ x) = "- " +:+ x).
  { apply (trim_nonspace "-"); [done|]. by apply (trimEnd_app "- "). }
  unfold parse_line. rewrite E, Ha.
  assert (js_startsWith ("- " +:+ x) "- " = true) as -> by (apply prefix_app; by exists x).
  assert (js_slice_str_from ("- " +:+ x) 2 = x) as -> by apply (slice_suffix "- " x).
  by rewrite Htr.
Qed.

Lemma parse_items st items : Forall value_ok items -> inArray st = true ->
  foldl parse_line st ((fun x => "- " +:+ x) <$> items) =
    mkLineState (frontmatter st) (currentKey st) true (arrayItems st ++ items).
Proof.
  intros H. revert st. induction H as [|x items Hx _ IH]; intros st Ha; cbn.
  - rewrite app_nil_r. by destruct st as [? ? [] ?].
  - rewrite (parse_item st x Hx Ha), IH by done. cbn. by rewrite <- app_assoc.
Qed.

Lemma field_step st f : clean st -> field_ok f ->
  clean (foldl parse_line st (field_lines f)) /\
  meaning (foldl parse_line st (field_lines f)) = jm_set (meaning st) f.1 f.2.
Proof.
  destruct f as [k [v|items]]; intros Hcl [Hk Hv]; cbn [field_lines fst snd] in *.
  - destruct (value_head v Hv) as (c & u & Ev & Hs & Ht). destruct Hv as (Hne & _ & Hdot).
    cbn [foldl]. change (k +:+ ": " +:+ v) with (k +:+ String ":" (" " +:+ v)).
    rewrite (parse_keyed st k v (" " +:+ v)); [|done|done|done|by rewrite Ev|by right|].
    + rewrite (proj2 (String.eqb_neq _ _) Hne). done.
    + by apply (trimEnd_app ": ").
  - cbn [foldl]. change (k +:+ ":") with (k +:+ String ":" "").
    rewrite (parse_keyed st k "" ""); [|done|done|done|done|by left|done]. cbn [String.eqb].
    rewrite parse_items by done. cbn [app]. split; [done|].
    unfold meaning, flush. cbn. destruct Hk as (_ & _ & Hproto). unfold assign.
    by rewrite (proj2 (String.eqb_neq _ _) Hproto).
Qed.

Lemma fields_fold fields : forall st, clean st -> Forall field_ok fields ->
  meaning (foldl parse_line st (mjoin (field_lines <$> fields))) =
    foldl (fun m f => jm_set m f.1 f.2) (meaning st) fields.
Proof.
  induction fields as [|f fields IH]; intros st Hcl Hok; [done|].
  apply Forall_cons in Hok as [Hf Hok]. cbn [fmap list_fmap mjoin list_join foldl].
  rewrite foldl_app. destruct (field_step st f Hcl Hf) as [Hcl' Hm]. by rewrite IH, Hm.
Qed.

(** A map written with distinct keys is the list of its entries. *)
Lemma set_all_distinct (fields : list field) : NoDup (fields.*1) ->
  foldl (fun m f => jm_set m f.1 f.2) [] fields = fields.
Proof.
  assert (Hset : forall (m : jsmap FrontValue) k v, k ∉ m.*1 -> jm_set m k v = m ++ [(k, v)]).
  { intros m k v. induction m as [|[k' v'] m IH]; cbn; [done|]. intros Hk.
    rewrite (proj2 (String.eqb_neq _ _)) by (intros ->; apply Hk; by left).
    rewrite IH; [done|]. intros ?. apply Hk. by right. }
  intros Hnd. enough (H : forall done, NoDup ((done ++ fields).*1) ->
    foldl (fun m f => jm_set m f.1 f.2) done fields = done ++ fields) by (by apply (H [])).
  clear Hnd. induction fields as [|[k v] fields IH]; intros d Hnd; cbn; [by rewrite app_nil_r|].
  rewrite Hset.
  - rewrite IH; [by rewrite <- app_assoc|]. by rewrite <- app_assoc.
  - rewrite fmap_app in Hnd. apply NoDup_app in Hnd as (_ & Hd & _). intros Hk. apply (Hd k Hk). by left.
Qed.

(** ** The whole file *)

(** The first character of a line tells it from a line of dashes. *)
Definition line_shape (l : string) : Prop :=
  free_of nl l = true /\ ((exists c t, l = String c t /\ Ascii.eqb "-" c = false) \/ exists x, l = "- " +:+ x).

Lemma not_dashes l z : line_shape l -> String.prefix fence (l +:+ z) = false.
Proof.
  intros [_ [(c & t & -> & Hc)|[x ->]]]; [|done]. rewrite str_app_cons. by apply prefix_head.
Qed.

Lemma free_head c t : free_of nl (String c t) = true -> Ascii.eqb nl c = false.
Proof. cbn. rewrite (Ascii.eqb_sym nl). by destruct (Ascii.eqb c nl). Qed.

(** No line of the front matter is taken for its end. *)
Lemma no_early_fence lines z : Forall line_shape lines ->
  forall u1 u2, join_with newline lines = u1 +:+ u2 -> u2 <> "" ->
  String.prefix (newline +:+ fence) (u2 +:+ z) = false.
Proof.
  assert (Hin : forall l u1 u2 y, line_shape l -> l = u1 +:+ u2 -> u2 <> "" ->
    String.prefix (newline +:+ fence) (u2 +:+ y) = false).
  { intros l u1 u2 y [Hf _] -> Hne. destruct u2 as [|c t]; [done|]. rewrite str_app_cons.
    apply prefix_head. rewrite free_of_app in Hf. apply andb_true_iff in Hf as [_ Hf]. by apply free_head in Hf. }
  induction 1 as [|l lines Hl Hls IH]; intros u1 u2 E Hne; [by destruct u1, u2|].
  destruct lines as [|l' lines]; [by eapply Hin|].
  set (J := join_with newline (l' :: lines)) in *.
  change (join_with newline (l :: l' :: lines)) with (l +:+ (newline +:+ J)) in E.
  apply str_app_eq in E as [(a' & -> & E)|(c & p' & -> & ->)].
  - destruct a' as [|c a'].
    + rewrite str_app_nil in E. subst u2. rewrite str_app_assoc.
      change (String.prefix fence (J +:+ z) = false). unfold J. apply Forall_cons in Hls as [Hl' _].
      destruct lines as [|l2 lines]; [by apply not_dashes|].
      change (join_with newline (l' :: l2 :: lines)) with (l' +:+ (newline +:+ join_with newline (l2 :: lines))).
      rewrite str_app_assoc. by apply not_dashes.
    + rewrite str_app_cons in E. unfold newline in E. rewrite str_app_cons in E. injection E as <- E.
      rewrite str_app_nil in E. by apply (IH a').
  - rewrite str_app_assoc. by eapply (Hin _ u1).
Qed.

Lemma word_not_nl c : is_word c = true -> Ascii.eqb c nl = false.
Proof. by destruct c as [[] [] [] [] [] [] [] []]. Qed.
Lemma dot_not_nl c : is_dot c = true -> Ascii.eqb c nl = false.
Proof. by destruct c as [[] [] [] [] [] [] [] []]. Qed.

Lemma free_class (p : ascii -> bool) s : (forall c, p c = true -> Ascii.eqb c nl = false) ->
  (forall c, one_of s c = true -> p c = true) -> free_of nl s = true.
Proof.
  intros Hp. induction s as [|c s IH]; [done|]. intros H. cbn. rewrite Hp.
  - apply IH. intros d Hd. apply H. cbn. by rewrite Hd, orb_true_r.
  - apply H. cbn. by rewrite Ascii.eqb_refl.
Qed.

Lemma field_lines_shape f : field_ok f -> Forall line_shape (field_lines f).
Proof.
  destruct f as [k [v|items]]; intros [Hk Hv]; cbn [field_lines fst snd] in *;
    pose proof (key_head k Hk) as (c & u & Ek & Hc); destruct (word_facts c Hc) as (_ & Hd & _);
    assert (Hfk : free_of nl k = true) by (apply (free_class is_word); [apply word_not_nl|by destruct Hk as (_ & ? & _)]).
  - apply Forall_singleton. split.
    + rewrite !free_of_app, Hfk. cbn. apply (free_class is_dot); [apply dot_not_nl|by destruct Hv as (_ & _ & ?)].
    + left. exists c, (u +:+ ": " +:+ v). by rewrite Ek, str_app_cons.
  - constructor.
    + split; [by rewrite free_of_app, Hfk|]. left. exists c, (u +:+ ":"). by rewrite Ek, str_app_cons.
    + apply Forall_fmap. eapply Forall_impl; [exact Hv|]. intros x (_ & _ & Hx). cbn. split; [|by right; exists x].
      rewrite free_of_app. cbn. apply (free_class is_dot); [apply dot_not_nl|done].
Qed.

Lemma frontmatter_match lines body : Forall line_shape lines ->
  exists m, exec re_frontmatter (str [fence; newline; join_with newline lines; newline; fence; newline; body]) = Some m /\
    group 1 m = Some (join_with newline lines) /\ group 2 m = Some body.
Proof.
  intros Hls. set (J := join_with newline lines).
  set (text := str [fence; newline; J; newline; fence; newline; body]).
  set (opening := fence +:+ newline). set (closing := newline +:+ fence).
  assert (Etext : text = opening +:+ (J +:+ (closing +:+ (newline +:+ body)))).
  { unfold text, opening, closing. cbn [str fold_right]. by rewrite str_app_nil_r. }
  set (tail := re_seq (re_lit closing) (re_seq (re_opt (re_lit newline)) (re_seq (re_group 2 (re_many re_all)) (re_seq re_end re_eps)))).
  set (p := last_char None opening).
  set (s0 := mkMstate p (J +:+ (closing +:+ (newline +:+ body))) []).
  set (q := last_char (last_char (last_char p J) closing) newline).
  set (final := mkMstate (last_char q body) "" [(2%nat, body); (1%nat, J)]).
  assert (Hall : forall s c, one_of s c = true -> (fun _ : ascii => true) c = true) by done.
  assert (Hend : forall caps, run_regex (re_seq (re_group 2 (re_many re_all)) (re_seq re_end re_eps)) Some (mkMstate q body caps) =
    Some (mkMstate (last_char q body) "" ((2%nat, body) :: caps))).
  { intros caps. rewrite run_seq, run_group.
    pose proof (run_star_chr (fun _ => true) (fun s' => run_regex (re_seq re_end re_eps) Some (capture 2 (mkMstate q body caps) s'))
      body q "" caps (mkMstate (last_char q body) "" ((2%nat, body) :: caps)) (Hall body) eq_refl) as Hrun.
    rewrite str_app_nil_r in Hrun. apply Hrun.
    unfold capture, consumed. cbn [ms_rest String.length]. rewrite Nat.sub_0_r, substring_full. done. }
  assert (Hm : match_here re_frontmatter (mkMstate None text []) = Some final).
  { unfold match_here, re_frontmatter, re_seqs. cbn [foldr]. rewrite run_seq.
    change (run_regex (re_seq (re_lit opening) (re_seq (re_group 1 (re_lazy re_all)) tail)) Some (mkMstate None text []) = Some final).
    rewrite run_seq, (run_lit opening _ (mkMstate None text []) _ Etext). cbn [ms_prev ms_caps]. fold p.
    rewrite run_seq, run_group. unfold re_lazy, re_all.
    apply run_lazy_chr; [done| |].
    - intros u1 u2 Hu Hne. unfold tail. rewrite run_seq. apply run_lit_fails. cbn.
      change (String.prefix closing (u2 +:+ (closing +:+ (newline +:+ body))) = false).
      by apply (no_early_fence lines _ Hls u1 u2).
    - assert (Hcap : capture 1 (mkMstate p (J +:+ (closing +:+ (newline +:+ body))) []) (mkMstate (last_char p J) (closing +:+ (newline +:+ body)) []) =
        mkMstate (last_char p J) (closing +:+ (newline +:+ body)) [(1%nat, J)]).
      { unfold capture, consumed. cbn [ms_rest]. rewrite (str_length_app J), Nat.add_sub, substring_app_l. done. }
      rewrite Hcap. unfold tail. rewrite run_seq, (run_lit closing _ _ (newline +:+ body)) by done. cbn [ms_prev ms_caps].
      rewrite run_seq.
      change (or_else (run_regex (re_lit newline) (run_regex (re_seq (re_group 2 (re_many re_all)) (re_seq re_end re_eps)) Some)
        (mkMstate (last_char (last_char p J) closing) (newline +:+ body) [(1%nat, J)])) 
        (run_regex (re_seq (re_group 2 (re_many re_all)) (re_seq re_end re_eps)) Some
          (mkMstate (last_char (last_char p J) closing) (newline +:+ body) [(1%nat, J)])) = Some final).
      rewrite (run_lit newline _ _ body) by done. cbn [ms_prev ms_caps]. fold q. by rewrite Hend. }
  exists (mkMatchResult "" (consumed (mkMstate None text []) final) (ms_caps final) (ms_rest final)).
  split; [|done]. unfold exec. rewrite Etext in Hm |- *. unfold opening, fence in Hm |- *.
  rewrite !str_app_cons in Hm |- *. cbn [exec_from]. by rewrite Hm.
Qed.

(** A front matter is read back as it was written: keys in their order with their texts
    and arrays, and the body untouched. *)
Theorem frontmatter_roundtrip fields body :
  Forall field_ok fields -> NoDup (fields.*1) -> fields <> [] ->
  parseFrontmatter (render fields body) = Some (fields, body).
Proof.
  intros Hok Hnd Hne. set (lines := mjoin (field_lines <$> fields)).
  assert (Hls : Forall line_shape lines).
  { unfold lines. clear Hnd Hne. induction Hok as [|f fields Hf _ IH]; [constructor|].
    apply Forall_app. split; [by apply field_lines_shape|done]. }
  unfold parseFrontmatter, render. fold lines.
  destruct (frontmatter_match lines body Hls) as (m & -> & G1 & G2). cbn [mbind option_bind].
  rewrite G1, G2. cbn [default id].
  f_equal. f_equal. unfold newline. rewrite js_split_join.
  - unfold parse_lines. change (frontmatter (flush (foldl parse_line (mkLineState [] "" false []) lines)))
      with (meaning (foldl parse_line (mkLineState [] "" false []) lines)).
    unfold lines. rewrite fields_fold by done. by apply set_all_distinct.
  - unfold lines. destruct fields as [|[k [v|items]] fields]; done.
  - eapply Forall_impl; [exact Hls|]. by intros l [? _].
Qed.

Definition sample_fields : list field :=
  [("name", fv_text "deploy"); ("description", fv_text "Roll out: a service"); ("triggers", fv_array ["ship it"; "-- now"])].

Lemma sample_fields_ok : Forall field_ok sample_fields.
Proof.
  assert (Hclass : forall p s, forallb p (String.list_ascii_of_string s) = true -> forall c, one_of s c = true -> p c = true).
  { intros p s. induction s as [|d s IH]; [done|]. cbn. intros [Hd Hl]%andb_true_iff c [->%Ascii.eqb_eq|Hc]%orb_true_iff; auto. }
  repeat constructor; try done; by apply Hclass.
Qed.

Lemma frontmatter_roundtrip_witness :
  parseFrontmatter (render sample_fields "# Steps") = Some (sample_fields, "# Steps").
Proof.
  apply (frontmatter_roundtrip sample_fields "# Steps" sample_fields_ok); [|done].
  apply (bool_decide_unpack _). by vm_compute.
Defined.

(** ** Loading *)

(** The skills of all files that have one, in the order of directories and files; a later
    file of the same name takes the place of the earlier one. *)
Definition markdown_files (fs : FileSystem) (dirs : list string) : list string :=
  mjoin ((fun d => match readdir fs d with
                   | inr files => (fun f => path_join [d; f]) <$> keep (fun f => js_endsWith f ".md") files
                   | inl _ => [] end) <$> dirs).

Definition keep_skill (fs : FileSystem) (m : list Skill) (path : string) : list Skill :=
  match readFile fs path with
  | inr raw => match skill_of path raw with Some sk => set_skill sk m | None => m end
  | inl _ => m
  end.

Lemma loadFiles_all fs dir files m :
  (forall f, f ∈ files -> js_endsWith f ".md" = true -> exists raw, readFile fs (path_join [dir; f]) = inr raw) ->
  loadFiles fs dir files m =
    (foldl (keep_skill fs) m ((fun f => path_join [dir; f]) <$> keep (fun f => js_endsWith f ".md") files), None).
Proof.
  revert m. induction files as [|f files IH]; intros m H; [done|]. cbn [loadFiles]. unfold keep.
  destruct (js_endsWith f ".md") eqn:E.
  - rewrite filter_cons_True by done. cbn [fmap list_fmap foldl].
    destruct (H f) as [raw Hr]; [by left|done|]. unfold loadSkillFile, keep_skill at 2. rewrite Hr.
    apply IH. intros g Hg. apply H. by right.
  - rewrite filter_cons_False by congruence. apply IH. intros g Hg. apply H. by right.
Qed.

(** When every Markdown file can be read, [loadAll] succeeds whatever directories are
    missing, and keeps exactly the skills of the files, each with a name and a
    description. *)
Theorem loadAll_keeps_files fs l :
  (forall d e, d ∈ directories l -> readdir fs d = inl e -> e = ENOENT) ->
  (forall d files f, d ∈ directories l -> readdir fs d = inr files -> f ∈ files -> js_endsWith f ".md" = true ->
     exists raw, readFile fs (path_join [d; f]) = inr raw) ->
  let '(l', err) := loadAll fs l in
  err = None /\ skills l' = foldl (keep_skill fs) [] (markdown_files fs (directories l)) /\
  Forall (fun sk => truthy_front (Some (sk_name sk)) = true /\ truthy_front (Some (sk_description sk)) = true) (skills l').
Proof.
  intros Hd Hf. unfold loadAll.
  assert (H : forall dirs m, (forall d, d ∈ dirs -> d ∈ directories l) ->
    loadDirectories fs dirs m = (foldl (keep_skill fs) m (markdown_files fs dirs), None)).
  { induction dirs as [|d dirs IH]; intros m Hin; [done|]. cbn [loadDirectories].
    unfold markdown_files. cbn [fmap list_fmap mjoin list_join]. fold (markdown_files fs dirs).
    assert (Hdd : d ∈ directories l) by (apply Hin; by left).
    destruct (readdir fs d) as [e|files] eqn:E.
    - rewrite (Hd d e Hdd E). apply IH. intros x Hx. apply Hin. by right.
    - rewrite loadFiles_all by (intros f; by apply (Hf d)). rewrite foldl_app. apply IH.
      intros x Hx. apply Hin. by right. }
  rewrite H by done. cbn. split_and!; [done|done|].
  generalize (markdown_files fs (directories l)) as paths. intros paths.
  enough (Hall : forall m, Forall (fun sk => truthy_front (Some (sk_name sk)) = true /\
    truthy_front (Some (sk_description sk)) = true) m -> Forall (fun sk => truthy_front (Some (sk_name sk)) = true /\
    truthy_front (Some (sk_description sk)) = true) (foldl (keep_skill fs) m paths)) by (by apply Hall).
  induction paths as [|p paths IH]; intros m Hm; [done|]. cbn. apply IH. unfold keep_skill.
  destruct (readFile fs p) as [|raw]; [done|]. destruct (skill_of p raw) as [sk|] eqn:Es; [|done].
  assert (Hsk : truthy_front (Some (sk_name sk)) = true /\ truthy_front (Some (sk_description sk)) = true).
  { unfold skill_of in Es. destruct (parseFrontmatter raw) as [[fm content]|]; [|done]. cbn in Es.
    destruct (jm_get fm "name") as [n|]; [|done]. cbn in Es. destruct (jm_get fm "description") as [ds|]; [|done]. cbn in Es.
    case_match eqn:Et; [|done]. apply andb_true_iff in Et as [? ?]. by injection Es as <-. }
  clear Es. induction m as [|x m IHm]; cbn; [by constructor|]. apply Forall_cons in Hm as [Hx Hm].
  case_match; constructor; auto.
Qed.

(** ** Executions *)

Definition skill_file (name : string) : string :=
  render [("name", fv_text name); ("description", fv_text "d")] "".
Definition folder (files : list string) (missing : string) : FileSystem :=
  mkFileSystem (fun d => if String.eqb d "skills" then inr files else inl ENOENT)
    (fun p => if String.eqb p missing then inl ENOENT else inr (skill_file (js_slice_str p 7 8))).

Lemma loadAll_keeps_files_witness :
  (loadAll (folder ["a.md"; "b.txt"; "c.md"] "") (new_SkillLoader ["none"; "skills"])).2 = None.
Proof.
  pose proof (loadAll_keeps_files (folder ["a.md"; "b.txt"; "c.md"] "") (new_SkillLoader ["none"; "skills"])) as H.
  destruct (loadAll _ _) as [l' err]. refine (proj1 (H _ _)).
  - intros d e _. cbn. case_match; [done|]. by intros [= <-].
  - intros d files f Hdir. apply list_elem_of_In in Hdir. cbn. intros Hr. case_match eqn:E; [|done].
    apply String.eqb_eq in E. subst d. injection Hr as <-. intros Hf%list_elem_of_In _.
    destruct Hf as [<-|[<-|[<-|[]]]]; by eexists.
Defined.

(** A file that vanishes between listing and reading ends the reading of its directory
    without an error: the skills after it are not loaded. *)
Example vanished_file_hides_rest :
  sk_name <$> listSkills (loadAll (folder ["a.md"; "b.md"; "c.md"] "skills/b.md") (new_SkillLoader ["skills"])).1 =
    [fv_text "a"] /\
  (loadAll (folder ["a.md"; "b.md"; "c.md"] "skills/b.md") (new_SkillLoader ["skills"])).2 = None.
Proof. by vm_compute. Qed.
