(* ===== verification/Plugins.v ===== *)
(** * Loading plugins (src/src/plugins/loader.ts, types.ts)

    A plugin is what the loader sees of it: whether its asynchronous methods throw,
    and the tools and resources it offers.  [calls] lists the calls the loader made,
    in order. *)

From S2P Require Import Prelude JsMap JsString.

Section plugins.
Context {Tool Resource Config : Type}.

Record PluginEntry := mkPluginEntry { enabled : bool; settings : Config }.

Record Plugin := mkPlugin {
  pl_name : string;
  pl_version : string;
  pl_init : PluginEntry -> option string;      (* the error it throws *)
  pl_start : option string;
  pl_stop : option string;
  pl_getTools : option (jsmap Tool);
  pl_getResources : option (jsmap Resource)
}.

(** A factory is asynchronous too. *)
Definition PluginFactory : Type := string + Plugin.
Definition PluginRegistry : Type := jsmap PluginFactory.

Inductive PluginCall := called_init (p : Plugin) | called_start (p : Plugin) | called_stop (p : Plugin).

Record PluginLoader := mkPluginLoader { plugins : list Plugin; calls : list PluginCall }.
#[export] Instance PluginLoader_eta : EtaRecord PluginLoader := fun l => mkPluginLoader (plugins l) (calls l).

Definition new_PluginLoader : PluginLoader := mkPluginLoader [] [].

(** The plugin that an entry of the configuration names, when it is to be loaded. *)
Definition made (registry : PluginRegistry) (name : string) (entry : PluginEntry) : option Plugin :=
  if enabled entry then
    match jm_get registry name with
    | Some (inr p) => Some p
    | _ => None
    end
  else None.

Definition load_one (registry : PluginRegistry) (l : PluginLoader) (e : string * PluginEntry) : PluginLoader :=
  if negb (enabled e.2) then l
  else match jm_get registry e.1 with
       | None => l
       | Some (inl _) => l
       | Some (inr p) =>
           let l := l <| calls ::= fun c => c ++ [called_init p] |> in
           match pl_init p e.2 with
           | Some _ => l
           | None => l <| plugins ::= fun ps => ps ++ [p] |>
           end
       end.

Definition loadAll (pluginsConfig : jsmap PluginEntry) (registry : PluginRegistry) (l : PluginLoader) : PluginLoader :=
  foldl (load_one registry) l pluginsConfig.

(** [for (const [name, handler] of ...) merged.set(name, handler)]. *)
Definition merge {A} (m extra : jsmap A) : jsmap A := foldl (fun m kv => jm_set m kv.1 kv.2) m extra.
Definition merge_all {A} (get : Plugin -> option (jsmap A)) (ps : list Plugin) : jsmap A :=
  foldl (fun m p => match get p with Some extra => merge m extra | None => m end) [] ps.

Definition getAllTools (l : PluginLoader) : jsmap Tool := merge_all pl_getTools (plugins l).
Definition getAllResources (l : PluginLoader) : jsmap Resource := merge_all pl_getResources (plugins l).

(** The loops of [startAll] and [stopAll]: an exception ends one turn only. *)
Definition startAll (l : PluginLoader) : PluginLoader :=
  foldl (fun l p => l <| calls ::= fun c => c ++ [called_start p] |>) l (plugins l).
Definition stopAll (l : PluginLoader) : PluginLoader :=
  foldl (fun l p => l <| calls ::= fun c => c ++ [called_stop p] |>) l (reverse (plugins l)).

(** ** Theorems *)

Lemma calls_each (f : Plugin -> PluginCall) ps l :
  plugins (foldl (fun l p => l <| calls ::= fun c => c ++ [f p] |>) l ps) = plugins l /\
  calls (foldl (fun l p => l <| calls ::= fun c => c ++ [f p] |>) l ps) = calls l ++ (f <$> ps).
Proof.
  revert l. induction ps as [|p ps IH]; intros l; [by rewrite app_nil_r|]. cbn [foldl].
  destruct (IH (l <| calls ::= fun c => c ++ [f p] |>)) as [E1 E2]. rewrite E1, E2. split; [done|]. cbn. by rewrite <- app_assoc.
Qed.

Definition initialised (registry : PluginRegistry) (e : string * PluginEntry) : option Plugin :=
  p ← made registry e.1 e.2; match pl_init p e.2 with Some _ => None | None => Some p end.

Lemma loadAll_plugins cfg registry l :
  plugins (loadAll cfg registry l) = plugins l ++ omap (initialised registry) cfg /\
  calls (loadAll cfg registry l) = calls l ++ (called_init <$> omap (fun e => made registry e.1 e.2) cfg).
Proof.
  revert l. induction cfg as [|e cfg IH]; intros l; [by rewrite !app_nil_r|].
  unfold loadAll in *. cbn [foldl]. destruct (IH (load_one registry l e)) as [-> ->]. cbn [omap list_omap].
  assert (Ei : initialised registry e = p ← made registry e.1 e.2; match pl_init p e.2 with Some _ => None | None => Some p end)
    by done.
  rewrite Ei. unfold load_one, made. destruct (enabled e.2); cbn [negb]; [|done].
  destruct (jm_get registry e.1) as [[m|p]|]; cbn; try done.
  destruct (pl_init p e.2); cbn; by rewrite <- ?app_assoc.
Qed.

(** Failures of plugins stay their own.  Loading keeps, in the order of the
    configuration, exactly the enabled plugins that are registered and whose factory
    and initialisation succeed; every one of them is started, in that order, and
    stopped, in the opposite order, whichever of the calls throw. *)
Theorem plugin_lifecycle cfg registry :
  let l := loadAll cfg registry new_PluginLoader in
  plugins l = omap (initialised registry) cfg /\
  calls (stopAll (startAll l)) =
    calls l ++ (called_start <$> omap (initialised registry) cfg) ++ (called_stop <$> reverse (omap (initialised registry) cfg)).
Proof.
  cbn zeta. destruct (loadAll_plugins cfg registry new_PluginLoader) as [E _]. cbn in E. split; [done|].
  unfold stopAll, startAll.
  destruct (calls_each called_start (plugins (loadAll cfg registry new_PluginLoader)) (loadAll cfg registry new_PluginLoader)) as [E1 E2].
  rewrite E1. rewrite (proj2 (calls_each called_stop _ _)), E2, E. by rewrite app_assoc.
Qed.

Lemma jm_get_merge {A} (m extra : jsmap A) k : jm_wf extra ->
  jm_get (merge m extra) k = match jm_get extra k with Some v => Some v | None => jm_get m k end.
Proof.
  unfold merge, jm_wf, jm_keys. revert m. induction extra as [|[k0 v0] extra IH]; intros m; [done|].
  rewrite fmap_cons. intros [Hk Hw]%NoDup_cons. cbn [foldl fst snd jm_get]. rewrite IH by done. rewrite jm_get_set.
  destruct (String.eqb_spec k0 k) as [->|Hne].
  - rewrite decide_True by done. destruct (jm_get extra k) eqn:E; [|done].
    by apply jm_get_has, jm_has_keys in E.
  - by rewrite decide_False.
Qed.

(** A tool that several plugins offer is that of the plugin loaded last. *)
Lemma merge_all_last {A} (get : Plugin -> option (jsmap A)) ps k :
  Forall (fun p => match get p with Some m => jm_wf m | None => True end) ps ->
  jm_get (merge_all get ps) k = last (omap (fun p => m ← get p; jm_get m k) ps).
Proof.
  unfold merge_all. induction ps as [|p ps IH] using rev_ind; intros Hw; [done|].
  apply Forall_app in Hw as [Hw Hp]. apply Forall_cons in Hp as [Hp _].
  rewrite foldl_app, omap_app. cbn [foldl omap list_omap]. specialize (IH Hw).
  destruct (get p) as [m|]; cbn; [|by rewrite app_nil_r].
  rewrite jm_get_merge by done. destruct (jm_get m k); [by rewrite last_snoc|by rewrite app_nil_r].
Qed.
End plugins.
