(* ===== verification/Cortex.v ===== *)
(** * The program (src/src/index.ts)

    [Cortex] builds the components, starts them in order and stops them.  [NodeId] is
    the identity a node keeps across restarts, [Providers] the choice of the model
    providers, [CommandLine] what the options make of the configuration, and
    [Lifecycle] the start and the stop as programs of a monad whose state holds the
    object in each field, by number, and the calls made on the objects; whether a step
    throws is an input, and one that throws has started nothing.  Joining the cluster is in Joining.v, the report of resources in
    NodeReport.v. *)

From S2P Require Import Prelude JsMap JsString JsNumber Joining.
From S2P Require Providers Membership Tailscale.
From Stdlib Require Import Ascii.

(** ** The identity of a node *)

Module NodeId.

(** The files by path, and whether directories and files can be written. *)
Record FileSystem := mkFileSystem { files : jsmap string; writable : bool }.
#[export] Instance FileSystem_eta : EtaRecord FileSystem := fun f => mkFileSystem (files f) (writable f).

Definition id_file (dir : string) : string := path_join [dir; "node-id"].
Definition newConfigDir (homeDir : string) : string := path_join [homeDir; ".cortex"].
Definition oldConfigDir (homeDir : string) : string := path_join [homeDir; ".claudecluster"].

(** The id in a directory: a text that is not blank. *)
Definition existingId (dir : string) (fs : FileSystem) : option string :=
  text ← jm_get (files fs) (id_file dir);
  let id := js_trim text in if truthy_str id then Some id else None.

(** Directory and file are written, or the exception is swallowed. *)
Definition write_id (dir id : string) (fs : FileSystem) : FileSystem :=
  if writable fs then fs <| files ::= fun m => jm_set m (id_file dir) id |> else fs.

Definition node_name (hostname id : string) (mcpMode : bool) : string :=
  first_label hostname +:+ "-" +:+ id +:+ (if mcpMode then "-mcp" else "").

(** The short id, and the files it leaves. *)
Definition short_id (homeDir uuid : string) (fs : FileSystem) : FileSystem * string :=
  match existingId (newConfigDir homeDir) fs with
  | Some id => (fs, id)
  | None =>
      match existingId (oldConfigDir homeDir) fs with
      | Some id => (write_id (newConfigDir homeDir) id fs, id)
      | None => let id := js_slice_str uuid 0 8 in (write_id (newConfigDir homeDir) id fs, id)
      end
  end.

Definition getOrCreateNodeId (homeDir hostname uuid : string) (mcpMode : bool) (fs : FileSystem) :
    FileSystem * string :=
  let '(fs, id) := short_id homeDir uuid fs in (fs, node_name hostname id mcpMode).

(** *** Trimming twice is trimming once *)

(** *** The identity is kept *)

Lemma existingId_write dir id fs : writable fs = true -> js_trim id = id -> id <> "" ->
  existingId dir (write_id dir id fs) = Some id.
Proof.
  intros Hw Ht Hne. unfold write_id, existingId. rewrite Hw. cbn. rewrite jm_get_set_eq. cbn. rewrite Ht.
  unfold truthy_str. by rewrite (proj2 (String.eqb_neq _ _) Hne).
Qed.

Lemma existingId_trim dir fs id : existingId dir fs = Some id -> js_trim id = id /\ id <> "".
Proof.
  unfold existingId. intros (text & _ & Hid)%bind_Some. destruct (truthy_str _) eqn:E; [|done].
  injection Hid as <-. split; [apply trim_idem|]. intros H. by rewrite H in E.
Qed.

(** A node keeps its identity: when its directory can be written, the name it gets at
    the next start is the same, whatever the next random id is, also when the id was
    taken over from the old directory; and that start writes nothing. *)
Theorem node_id_stable homeDir hostname uuid uuid' mcpMode fs :
  writable fs = true -> js_trim (js_slice_str uuid 0 8) = js_slice_str uuid 0 8 -> js_slice_str uuid 0 8 <> "" ->
  let '(fs', id) := getOrCreateNodeId homeDir hostname uuid mcpMode fs in
  getOrCreateNodeId homeDir hostname uuid' mcpMode fs' = (fs', id).
Proof.
  intros Hw Ht Hne. unfold getOrCreateNodeId, short_id.
  destruct (existingId (newConfigDir homeDir) fs) as [id|] eqn:E; [by rewrite E|].
  destruct (existingId (oldConfigDir homeDir) fs) as [id|] eqn:Eo.
  - destruct (existingId_trim _ _ _ Eo) as [Hid Hid']. by rewrite existingId_write.
  - by rewrite existingId_write.
Qed.

Definition migrated : FileSystem :=
  mkFileSystem [("/root/.claudecluster/node-id", "8e800054" +:+ newline)] true.

Lemma node_id_stable_witness :
  (getOrCreateNodeId "/root" "rog2.lan" "11111111-2222" true migrated).2 = "rog2-8e800054-mcp" /\
  let fs' := (getOrCreateNodeId "/root" "rog2.lan" "11111111-2222" true migrated).1 in
  getOrCreateNodeId "/root" "rog2.lan" "33333333-4444" true fs' = (fs', "rog2-8e800054-mcp").
Proof.
  split; [by vm_compute|].
  exact (node_id_stable "/root" "rog2.lan" "11111111-2222" "33333333-4444" true migrated eq_refl eq_refl ltac:(by vm_compute)).
Defined.

(** A node that cannot keep its id is another node at each start. *)
Example unwritable_home_renames :
  (getOrCreateNodeId "/" "rog2" "11111111-2222" false (mkFileSystem [] false)).2 = "rog2-11111111" /\
  (getOrCreateNodeId "/" "rog2" "33333333-4444" false (mkFileSystem [] false)).2 = "rog2-33333333".
Proof. by vm_compute. Qed.
End NodeId.

(** ** The providers *)

Module Choice.
Section choice.
Context {W : Type}.

(** The clients are built by constructors of other files, which are parameters here. *)
Context (AnthropicProvider : option string -> option string -> Providers.LLMProvider W)   (* apiKey, model *)
  (OpenAIProvider : string -> option string -> option string -> Providers.LLMProvider W)  (* apiKey, model, baseUrl *)
  (OllamaProvider : option string -> option string -> Providers.LLMProvider W).           (* baseUrl, model *)

Record ModelConfig := mkModelConfig { mc_model : option string; mc_apiKey : option string; mc_baseUrl : option string }.
Record ProvidersConfig := mkProvidersConfig {
  pc_primary : string;
  pc_fallback : option (list string);
  pc_anthropic : option ModelConfig;
  pc_openai : option ModelConfig;
  pc_ollama : option ModelConfig
}.

Definition given_text (o : option string) : option string :=
  s ← o; if truthy_str s then Some s else None.

(** The object of the providers that are set up; [envKey] is ANTHROPIC_API_KEY. *)
Definition available (envKey : option string) (c : ProvidersConfig) : jsmap (Providers.LLMProvider W) :=
  let key := given_text (a ← pc_anthropic c; mc_apiKey a) in
  let m : jsmap (Providers.LLMProvider W) := [] in
  let m := match key, given_text envKey with
           | None, None => m
           | _, _ => jm_set m "anthropic" (AnthropicProvider key (a ← pc_anthropic c; mc_model a))
           end in
  let m := match pc_openai c with
           | Some o => match given_text (mc_apiKey o) with
                       | Some k => jm_set m "openai" (OpenAIProvider k (mc_model o) (mc_baseUrl o))
                       | None => m
                       end
           | None => m
           end in
  match pc_ollama c with
  | Some o => jm_set m "ollama" (OllamaProvider (mc_baseUrl o) (mc_model o))
  | None => m
  end.

Definition initializeProviders (envKey : option string) (config : option ProvidersConfig) :
    option (Providers.ProviderRouter W) :=
  c ← config;
  let providers := available envKey c in
  primary ← jm_get providers (pc_primary c);
  Some (Providers.mkProviderRouter primary (omap (jm_get providers) (default [] (pc_fallback c)))).

(** What may be behind a provider of the router. *)
Inductive set_up (envKey : option string) (c : ProvidersConfig) : string -> Providers.LLMProvider W -> Prop :=
  | up_anthropic key : key = given_text (a ← pc_anthropic c; mc_apiKey a) ->
      key <> None \/ given_text envKey <> None ->
      set_up envKey c "anthropic" (AnthropicProvider key (a ← pc_anthropic c; mc_model a))
  | up_openai o key : pc_openai c = Some o -> mc_apiKey o = Some key -> key <> "" ->
      set_up envKey c "openai" (OpenAIProvider key (mc_model o) (mc_baseUrl o))
  | up_ollama o : pc_ollama c = Some o -> set_up envKey c "ollama" (OllamaProvider (mc_baseUrl o) (mc_model o)).

Lemma given_text_Some o k : given_text o = Some k <-> o = Some k /\ k <> "".
Proof.
  unfold given_text. destruct o as [t|]; [|naive_solver]. cbn. unfold truthy_str.
  destruct (String.eqb_spec t ""); naive_solver.
Qed.

Lemma available_set_up envKey c n p : jm_get (available envKey c) n = Some p -> set_up envKey c n p.
Proof.
  unfold available. set (m1 := match given_text _, given_text envKey with None, None => _ | _, _ => _ end).
  set (m2 := match pc_openai c with Some _ => _ | None => m1 end).
  assert (H1 : jm_get m1 n = Some p -> set_up envKey c n p).
  { subst m1. destruct (given_text (a ← pc_anthropic c; mc_apiKey a)) as [k|] eqn:Ek, (given_text envKey) eqn:Ee; [..|done].
    all: cbn [jm_set jm_get]; destruct (String.eqb_spec "anthropic" n) as [<-|]; [|done]; intros [= <-].
    all: apply up_anthropic; [done|]; rewrite ?Ee; naive_solver. }
  assert (H2 : jm_get m2 n = Some p -> set_up envKey c n p).
  { subst m2. destruct (pc_openai c) as [o|] eqn:Eo; [|done].
    destruct (given_text (mc_apiKey o)) as [k|] eqn:Ek; [|done]. apply given_text_Some in Ek as [Hk Hne].
    rewrite jm_get_set. case_decide; [|done]. subst n. intros [= <-]. by eapply up_openai. }
  destruct (pc_ollama c) as [o|] eqn:Eo; [|done]. rewrite jm_get_set. case_decide; [|done]. subst n.
  intros [= <-]. by apply up_ollama.
Qed.

(** The router exists only with its primary provider set up; each of its providers is one
    that the configuration names and that has what it needs, a key that is not empty for
    OpenAI, a key or the environment's for Anthropic; and the fallbacks keep their order. *)
Theorem router_only_set_up envKey c r : initializeProviders envKey (Some c) = Some r ->
  set_up envKey c (pc_primary c) (Providers.primary r) /\
  Providers.fallback r = omap (jm_get (available envKey c)) (default [] (pc_fallback c)) /\
  Forall (fun p => exists n, n ∈ default [] (pc_fallback c) /\ set_up envKey c n p) (Providers.fallback r).
Proof.
  intros (p & Hp & [= <-])%bind_Some. cbn. split_and!; [by apply available_set_up|done|].
  apply Forall_forall. intros q (n & Hn & Hq)%list_elem_of_omap. exists n. split; [done|by apply available_set_up].
Qed.
End choice.
End Choice.

(** ** The command line *)

Module CommandLine.

(** The fields of the configuration that options change. *)
Record Settings := mkSettings {
  invisible : bool;
  isolated : bool;
  grpcPort : option Z;                     (* None is NaN *)
  seedList : option (list string);
  logLevel : string;
  logFile : option string
}.
#[export] Instance Settings_eta : EtaRecord Settings := fun s =>
  mkSettings (invisible s) (isolated s) (grpcPort s) (seedList s) (logLevel s) (logFile s).

Record CliOptions := mkCliOptions {
  o_mcp : bool;
  o_invisible : option bool;
  o_isolated : option bool;
  o_port : option string;
  o_seed : option string;
  o_verbose : option bool
}.

Definition CLI_COMMANDS : list string :=
  ["status"; "switch-leader"; "squelch"; "deploy"; "test"; "events"; "top"; "run"; "ssh"; "logs"; "drain"; "cordon";
   "uncordon"; "tasks"; "snapshot"; "diag"; "config"; "help"].

(** Whether the first argument asks for a command instead of the daemon. *)
Definition runs_command (firstArg : option string) : bool :=
  match firstArg with
  | None => false
  | Some a => String.eqb a "--help" || String.eqb a "-h" || String.eqb a "help" ||
              (truthy_str a && bool_decide (a ∈ CLI_COMMANDS))
  end.

(** The part of [main] and of [runMcpServer] that is the same, with the port to take when none is given. *)
Definition overrides (o : CliOptions) (default_port : Settings -> option Z) (s : Settings) : Settings :=
  let s := match o_port o with
           | Some p => if truthy_str p then s <| grpcPort := parseInt p |> else s <| grpcPort := default_port s |>
           | None => s <| grpcPort := default_port s |>
           end in
  let s := match o_seed o with
           | Some a => if truthy_str a then s <| seedList := Some [a] |> else s
           | None => s
           end in
  if default false (o_verbose o) then s <| logLevel := "debug" |> else s.

(** [runMcpServer] up to the construction of the node. *)
Definition mcp_settings (o : CliOptions) (s : Settings) : Settings :=
  let s := s <| logFile := Some "/tmp/cortex-mcp.log" |> in
  let s := overrides o (fun _ => Some 50052) s in
  s <| invisible := true |> <| isolated := false |>.

(** [main] from the loaded configuration on: the settings of the node, and whether it
    is the MCP process. *)
Definition node_settings (o : CliOptions) (s : Settings) : Settings * bool :=
  let s := s <| invisible := default false (o_invisible o) |> <| isolated := default false (o_isolated o) |> in
  let s := overrides o grpcPort s in
  if o_mcp o then (mcp_settings o s, true) else (s, false).

(** A daemon and the MCP process beside it, started with the same options and no port,
    differ in their ports unless the configuration says 50052, and only the MCP process
    hides itself and keeps its output clean. *)
Theorem mcp_beside_daemon o s : o_port o = None -> grpcPort s <> Some 50052 ->
  let daemon := (node_settings (mkCliOptions false (o_invisible o) (o_isolated o) (o_port o) (o_seed o) (o_verbose o)) s).1 in
  let mcp := (node_settings (mkCliOptions true (o_invisible o) (o_isolated o) (o_port o) (o_seed o) (o_verbose o)) s).1 in
  grpcPort daemon <> grpcPort mcp /\ seedList daemon = seedList mcp /\ logLevel daemon = logLevel mcp /\
  invisible mcp = true /\ logFile mcp = Some "/tmp/cortex-mcp.log" /\ logFile daemon = logFile s.
Proof.
  intros Hp Hport. unfold node_settings, mcp_settings, overrides. rewrite Hp. cbn.
  destruct (o_seed o) as [a|]; [destruct (truthy_str a)|]; destruct (default false (o_verbose o)); by split_and!.
Qed.

Definition no_options (mcp : bool) : CliOptions := mkCliOptions mcp None None None None None.
Definition default_settings : Settings := mkSettings false false (Some 50051) (Some ["forge:50051"]) "info" None.

Lemma mcp_beside_daemon_witness :
  grpcPort (node_settings (no_options false) default_settings).1 <> grpcPort (node_settings (no_options true) default_settings).1.
Proof. exact (proj1 (mcp_beside_daemon (no_options true) default_settings eq_refl ltac:(done))). Defined.

(** With [--mcp] the option [--isolated] has no effect: the process joins the cluster. *)
Example mcp_ignores_isolated :
  isolated (node_settings (mkCliOptions false None (Some true) None None None) default_settings).1 = true /\
  isolated (node_settings (mkCliOptions true None (Some true) None None None) default_settings).1 = false.
Proof. done. Qed.

End CommandLine.

(** ** Starting and stopping *)

Module Lifecycle.

Inductive Component :=
  | grpcServer | clientPool | resourceMonitor | taskExecutor | raft | membership | stateManager | scheduler
  | tailscale | approval | mcpServer | sharedMemoryDb | memoryReplicator | authManager | authzManager | secretsManager
  | announcer | providerRouter | pluginLoader.
#[export] Instance Component_eq_dec : EqDecision Component.
Proof. solve_decision. Defined.

(** An object: its class, and the number under which it was made. *)
Definition Object : Type := Component * nat.
Inductive Action :=
  | started_it (o : Object) | stopped_it (o : Object) | cancelled_task (id : string) | emit_started | emit_stopped.

(** [fields] lists the objects that were assigned, the last first: a field holds the
    first of its class.  [made] counts the objects; [joins] counts the joins that an MCP
    process has left in the background. *)
Record Cortex := mkCortex { fields : list Object; made : nat; trace : list Action; running : bool; joins : nat }.
#[export] Instance Cortex_eta : EtaRecord Cortex := fun c =>
  mkCortex (fields c) (made c) (trace c) (running c) (joins c).
Definition new_Cortex : Cortex := mkCortex [] 0 [] false 0.

Definition field (x : Component) (c : Cortex) : option Object :=
  List.find (fun o => bool_decide (o.1 = x)) (fields c).
Definition built (c : Cortex) : list Component := (fields c).*1.

(** What can throw during a start or a stop. *)
Inductive Step :=
  | mcp_connect | secrets_initialize | tailscale_start | pool_loadProto | server_loadProto | database_open
  | monitor_start | server_start | mcp_stop | server_stop.

Record Mode := mkMode {
  mcpMode : bool;
  isolated : bool;
  tailscaleAvailable : bool;
  taskEngine : bool;                       (* the task-engine plugin is enabled *)
  hasRouter : bool                         (* a provider is configured *)
}.

Section lifecycle.
Context (mode : Mode) (fails : Step -> bool).

(** Programs: the state, and whether they end without an exception. *)
Definition Eff : Type := Cortex -> Cortex * bool.
Definition skip : Eff := fun c => (c, true).
Definition seq (a b : Eff) : Eff := fun c => let '(c, ok) := a c in if ok then b c else (c, false).
Definition try_ (s : Step) : Eff := fun c => (c, negb (fails s)).
Definition create (x : Component) : Eff := fun c =>
  (c <| fields ::= fun l => (x, made c) :: l |> <| made ::= Nat.add 1 |>, true).
Definition act (a : Action) : Eff := fun c => (c <| trace ::= fun l => l ++ [a] |>, true).
(** A call on the object of a field; null has no methods. *)
Definition begin (x : Component) : Eff := fun c =>
  match field x c with Some o => act (started_it o) c | None => (c, false) end.
Definition set_running (b : bool) : Eff := fun c => (c <| running := b |>, true).
Definition join_later : Eff := fun c => (c <| joins ::= Nat.add 1 |>, true).
Definition only (b : bool) (a : Eff) : Eff := if b then a else skip.
Definition all (l : list Eff) : Eff := foldr seq skip l.
(** A call on a field that is not null. *)
Definition if_built (x : Component) (a : Object -> Eff) : Eff := fun c =>
  match field x c with Some o => a o c | None => (c, true) end.

(** *** The parts of [start] *)

Definition initializeSecurity : Eff :=
  all [create authManager; create authzManager; create secretsManager; try_ secrets_initialize].

Definition initializeTailscale : Eff :=
  only (tailscaleAvailable mode) (all [create tailscale; try_ tailscale_start; begin tailscale]).

Definition initializeGrpc : Eff :=
  all [create clientPool; try_ pool_loadProto; create grpcServer; try_ server_loadProto].

Definition initializeCluster : Eff :=
  all [create raft; create membership; try_ database_open; create sharedMemoryDb; begin sharedMemoryDb;
       create memoryReplicator; begin memoryReplicator; create stateManager;
       only (negb (taskEngine mode)) (create scheduler); create approval].

Definition initializeAnnouncements : Eff := create announcer.

Definition initializeAgent : Eff :=
  all [create resourceMonitor; create taskExecutor; try_ monitor_start; begin resourceMonitor].

Definition initialize_router : Eff := only (hasRouter mode) (create providerRouter).

(** The loader catches the exceptions of the plugins. *)
Definition initializePlugins : Eff := all [create pluginLoader; begin pluginLoader].

(** What [joinOrCreateCluster] starts. *)
Definition join_starts : Eff :=
  all [try_ server_start; begin grpcServer; begin raft; begin membership; if_built scheduler (fun _ => begin scheduler);
       begin approval].

Definition start_all : Eff := begin pluginLoader.

Definition mcp_early : Eff := only (mcpMode mode) (all [create mcpServer; try_ mcp_connect; begin mcpServer]).

Definition start_body : Eff :=
  all [mcp_early; initializeSecurity; initializeTailscale; initializeGrpc; initializeCluster; initializeAnnouncements;
       initializeAgent; initialize_router; initializePlugins;
       if mcpMode mode
       then all [set_running true; act emit_started; join_later]
       else all [join_starts; start_all; create mcpServer; set_running true; act emit_started]].

(** *** [stop] *)

(** [tasks] are the ids that the task executor reports as running. *)
Context (tasks : list string).
Definition cancel_tasks : Eff := if_built taskExecutor (fun _ => all ((fun id => act (cancelled_task id)) <$> tasks)).
Definition halt (x : Component) : Eff := if_built x (fun o => act (stopped_it o)).
Definition halt_async (x : Component) (s : Step) : Eff := if_built x (fun o => seq (try_ s) (act (stopped_it o))).

Definition stop : Eff :=
  all [cancel_tasks; halt_async mcpServer mcp_stop; halt pluginLoader; halt memoryReplicator; halt sharedMemoryDb; halt scheduler;
       halt membership; halt raft; halt resourceMonitor; halt tailscale; halt approval;
       halt_async grpcServer server_stop; halt clientPool; set_running false; act emit_stopped].

(** *** [start] *)

Definition start : Eff := fun c =>
  if running c then (c, true)
  else if isolated mode then (c <| running := true |>, true)
  else match start_body c with
       | (c, true) => (c, true)
       | (c, false) => ((stop c).1, false)
       end.

(** The rest of the start in MCP mode, which runs later on the fields of that time; its
    exceptions are logged. *)
Definition background_join : Eff := fun c =>
  match joins c with
  | O => (c, true)
  | S n => ((all [join_starts; start_all] (c <| joins := n |>)).1, true)
  end.

(** *** What is running *)

Definition listen (l : list Object) (a : Action) : list Object :=
  match a with
  | started_it o => o :: l
  | stopped_it o => filter (fun p => p <> o) l
  | _ => l
  end.
Definition live (c : Cortex) : list Object := foldl listen [] (trace c).

(** The order in which [stop] goes through the components it stops. *)
Definition stop_order : list Component :=
  [mcpServer; pluginLoader; memoryReplicator; sharedMemoryDb; scheduler; membership; raft; resourceMonitor; tailscale;
   approval; grpcServer; clientPool].

(** Every live object is the one in the field of its class, and [stop] stops that class. *)
Definition owned (c : Cortex) : Prop := forall o, o ∈ live c -> field o.1 c = Some o /\ o.1 ∈ stop_order.

Lemma field_class x c o : field x c = Some o -> o.1 = x.
Proof. unfold field. intros H. apply List.find_some in H as [_ H]. by prop_of_bool. Qed.
Lemma field_built x c : x ∈ built c <-> exists o, field x c = Some o.
Proof.
  unfold built, field. split.
  - intros (o & -> & Ho)%list_elem_of_fmap. destruct (List.find _ _) as [p|] eqn:E; [by exists p|].
    apply list_elem_of_In in Ho. pose proof (List.find_none _ _ E o Ho) as H.
    cbv beta in H. by rewrite bool_decide_true in H.
  - intros (o & H). apply List.find_some in H as [Ho H]. prop_of_bool. subst x.
    apply list_elem_of_fmap_2. by apply list_elem_of_In.
Qed.

(** *** A logic for the parts: [hoare s a s'] when [a], begun with nothing live but of
    the classes [s], ends so with [s'], and keeps [owned] also when it throws. *)
Definition within (s : list Component) (c : Cortex) : Prop := forall o, o ∈ live c -> o.1 ∈ s.
Definition hoare (s : list Component) (a : Eff) (s' : list Component) : Prop :=
  forall c, owned c -> within s c -> owned (a c).1 /\ ((a c).2 = true -> within s' (a c).1).

Lemma h_seq s s1 s2 a b : hoare s a s1 -> hoare s1 b s2 -> hoare s (seq a b) s2.
Proof.
  intros Ha Hb c Hc Hs. destruct (Ha c Hc Hs) as [Hok H1]. unfold seq. destruct (a c) as [c1 []]; [|by split].
  apply Hb; [done|by apply H1].
Qed.

Lemma h_skip s : hoare s skip s.
Proof. by intros c. Qed.
Lemma h_try s x : hoare s (try_ x) s.
Proof. by intros c. Qed.

Lemma h_create s x : x ∉ s -> hoare s (create x) s.
Proof.
  intros Hx c Hc Hs. split; [|done]. intros o Ho. change (o ∈ live c) in Ho.
  destruct (Hc o Ho) as [H1 H2]. split; [|done]. unfold field in *. cbn. rewrite bool_decide_false; [done|].
  cbn. intros E. apply Hx. rewrite E. by apply Hs.
Qed.

Lemma live_act a c : live (c <| trace ::= fun l => l ++ [a] |>) = listen (live c) a.
Proof. unfold live. cbn. by rewrite foldl_snoc. Qed.

Lemma h_begin s x : x ∈ stop_order -> hoare s (begin x) (x :: s).
Proof.
  intros Ho c Hc Hs. unfold begin. destruct (field x c) as [o|] eqn:Hf; [|done].
  pose proof (field_class x c o Hf) as Ex. cbn [act fst snd]. split.
  - intros p. rewrite live_act. intros [->|Hp]%elem_of_cons; [|by apply Hc].
    rewrite Ex. split; [exact Hf|exact Ho].
  - intros _ p. rewrite live_act. intros [->|Hp]%elem_of_cons; [rewrite Ex; by left|]. right. by apply Hs.
Qed.

Lemma h_weaken s s1 s2 a : hoare s a s1 -> s1 ⊆ s2 -> hoare s a s2.
Proof.
  intros Ha Hs2 c Hc Hs. destruct (Ha c Hc Hs) as [Hok H]. split; [done|]. intros Ht o Ho. by apply Hs2, H.
Qed.
Lemma h_only s s' b a : hoare s a s' -> s ⊆ s' -> hoare s (only b a) s'.
Proof. intros Ha Hsub. destruct b; [done|]. eapply h_weaken; [apply h_skip|done]. Qed.
Lemma h_if_built s x a s' : (forall o, hoare s (a o) s') -> s ⊆ s' -> hoare s (if_built x a) s'.
Proof.
  intros Ha Hsub c Hc Hs. unfold if_built. destruct (field x c) as [o|]; [by apply Ha|].
  exact (h_weaken s s s' skip (h_skip s) Hsub c Hc Hs).
Qed.

(** Effects that leave the fields and the objects alone. *)
Lemma h_same s a : (forall c, fields (a c).1 = fields c /\ live (a c).1 = live c) -> hoare s a s.
Proof.
  intros Ha c Hc Hs. destruct (Ha c) as (Hf & Hv). unfold owned, within, field in *. rewrite Hf, Hv. by split.
Qed.
Lemma h_emit s a : match a with started_it _ | stopped_it _ => False | _ => True end -> hoare s (act a) s.
Proof. intros H. apply h_same. intros c. split; [done|]. unfold act. cbn [fst]. rewrite live_act. by destruct a. Qed.
Lemma h_stopped s o : hoare s (act (stopped_it o)) s.
Proof.
  intros c Hc Hs. cbn [act fst snd]. split; [|intros _]; intros p; rewrite live_act;
    intros [_ Hp]%list_elem_of_filter; [by apply Hc|by apply Hs].
Qed.
Lemma h_cancels s : hoare s (all ((fun id => act (cancelled_task id)) <$> tasks)) s.
Proof.
  unfold all. induction tasks as [|id ids IH]; cbn [fmap list_fmap foldr]; [apply h_skip|].
  eapply h_seq; [by apply h_emit|exact IH].
Qed.

#[local] Ltac listed := solve [vm_compute; repeat (left || right) | set_solver].
#[local] Ltac absent := apply (bool_decide_unpack _); vm_compute; exact I.
#[local] Ltac run_parts :=
  lazymatch goal with
  | |- hoare _ (seq _ _) _ => eapply h_seq; [run_parts|run_parts]
  | |- hoare _ (only _ _) _ => eapply h_only; [run_parts|listed]
  | |- hoare _ (if_built _ _) _ => eapply h_if_built; [intros ?; run_parts|listed]
  | |- hoare _ skip _ => apply h_skip
  | |- hoare _ (try_ _) _ => apply h_try
  | |- hoare _ (create _) _ => apply h_create; absent
  | |- hoare _ (begin _) _ => apply h_begin; listed
  | |- hoare _ (act (stopped_it _)) _ => apply h_stopped
  | |- hoare _ (act _) _ => by apply h_emit
  | |- hoare _ (all _) _ => apply h_cancels
  | |- hoare _ _ _ => by apply h_same
  end.

Lemma start_body_owned c : owned c -> live c = [] -> owned (start_body c).1.
Proof.
  intros Hc Hlive.
  assert (H : exists s, hoare [] start_body s).
  { unfold start_body, mcp_early, initializeSecurity, initializeTailscale, initializeGrpc, initializeCluster,
      initializeAnnouncements, initializeAgent, initialize_router, initializePlugins, join_starts, start_all, all. cbn [foldr].
    destruct (mcpMode mode); cbn [only]; eexists; run_parts. }
  destruct H as [s H]. refine (proj1 (H c Hc _)). intros o. rewrite Hlive. by intros ?%elem_of_nil.
Qed.

(** *** Stopping *)

(** What is live is among the components [l] that are still to be stopped. *)
Definition left_over (l : list Component) (c : Cortex) : Prop := owned c /\ within l c.

Lemma halt_left x l c : left_over (x :: l) c -> left_over l (halt x c).1 /\ (halt x c).2 = true.
Proof.
  intros [Hc Hl]. unfold halt, if_built. destruct (field x c) as [o|] eqn:E; cbn [act fst snd].
  - split; [|done]. split; intros p; rewrite live_act; intros [Hne Hp]%list_elem_of_filter; [by apply Hc|].
    pose proof (Hl p Hp) as Hx. apply elem_of_cons in Hx as [Hx|?]; [|done].
    destruct (Hc p Hp) as [Hf _]. rewrite Hx, E in Hf. by injection Hf as ->.
  - split; [|done]. split; [done|]. intros p Hp. pose proof (Hl p Hp) as Hx.
    apply elem_of_cons in Hx as [Hx|?]; [|done]. destruct (Hc p Hp) as [Hf _]. by rewrite Hx, E in Hf.
Qed.

Lemma halt_async_left x s l c : fails s = false -> left_over (x :: l) c ->
  left_over l (halt_async x s c).1 /\ (halt_async x s c).2 = true.
Proof.
  intros Hs Hc. pose proof (halt_left x l c Hc) as H. revert H. unfold halt_async, halt, if_built, seq, try_. by rewrite Hs.
Qed.

Lemma cancels_same c : let c' := (all ((fun id => act (cancelled_task id)) <$> tasks) c).1 in
  (all ((fun id => act (cancelled_task id)) <$> tasks) c).2 = true /\ fields c' = fields c /\ live c' = live c /\
  trace c' = trace c ++ (cancelled_task <$> tasks).
Proof.
  cbn zeta. unfold all. revert c. induction tasks as [|id ids IH]; intros c; cbn [fmap list_fmap foldr].
  { split_and!; try done. cbn. by rewrite app_nil_r. }
  unfold seq at 1 3 5 7. cbn [act fst snd].
  destruct (IH (c <| trace ::= fun l => l ++ [cancelled_task id] |>)) as (H1 & H2 & H3 & H4).
  rewrite H1, H2, H3, H4, live_act. split_and!; try done. cbn. by rewrite <- app_assoc.
Qed.

Lemma cancel_tasks_left l c : left_over l c -> left_over l (cancel_tasks c).1 /\ (cancel_tasks c).2 = true.
Proof.
  intros [Hc Hl]. unfold cancel_tasks, if_built. destruct (field taskExecutor c); [|done].
  destruct (cancels_same c) as (H1 & H2 & H3 & _). split; [|done]. unfold left_over, owned, within, field in *. by rewrite H2, H3.
Qed.

Lemma seq_left a b l1 l2 c : left_over l1 c -> (left_over l1 c -> left_over l2 (a c).1 /\ (a c).2 = true) ->
  (forall c, left_over l2 c -> left_over [] (b c).1 /\ running (b c).1 = false) ->
  left_over [] (seq a b c).1 /\ running (seq a b c).1 = false.
Proof. intros Hc Ha Hb. destruct (Ha Hc) as [H1 H2]. unfold seq. destruct (a c) as [c1 r]. cbn in *. subst r. by apply Hb. Qed.

Lemma stop_left c : fails mcp_stop = false -> fails server_stop = false -> owned c ->
  left_over [] (stop c).1 /\ running (stop c).1 = false.
Proof.
  intros Hm Hs Hc. assert (H0 : left_over stop_order c) by (split; [done|]; intros o Ho; by apply (Hc o)).
  unfold stop, all. cbn [foldr]. revert c Hc H0. unfold stop_order.
  assert (Hend : forall c, left_over [] c -> left_over [] (seq (set_running false) (seq (act emit_stopped) skip) c).1 /\
    running (seq (set_running false) (seq (act emit_stopped) skip) c).1 = false).
  { intros c [Hc Hl]. split; [|done]. set (c' := (seq _ _ c).1).
    assert (Hc' : live c' = live c) by (unfold live; cbn; by rewrite foldl_snoc).
    unfold left_over, owned, within. rewrite Hc'. by split. }
  intros c _. revert c.
  repeat (intros c H0; eapply seq_left;
    [exact H0|first [apply cancel_tasks_left|apply halt_left|by apply halt_async_left]|clear c H0]).
  exact Hend.
Qed.

Lemma empty_left c : left_over [] c -> live c = [].
Proof. intros [_ H]. apply list_nil_subseteq. intros o Ho. by apply H, elem_of_nil in Ho. Qed.

(** Nothing that [stop] does afterwards takes a call back. *)
Definition grows (a : Eff) : Prop := forall c, trace c `prefix_of` trace (a c).1.
Lemma g_seq a b : grows a -> grows b -> grows (seq a b).
Proof.
  intros Ha Hb c. unfold seq. specialize (Ha c). destruct (a c) as [c1 []]; [|done]. cbn in *. etrans; [exact Ha|apply Hb].
Qed.
Lemma g_act a : grows (act a).
Proof. intros c. cbn. by apply prefix_app_r. Qed.
Lemma g_halt x : grows (halt x).
Proof. intros c. unfold halt, if_built. destruct (field x c); [apply g_act|done]. Qed.
Lemma g_halt_async x s : grows (halt_async x s).
Proof. intros c. unfold halt_async, if_built. destruct (field x c); [|done]. apply g_seq; [by intros ?|apply g_act]. Qed.
Lemma g_running b : grows (set_running b).
Proof. by intros c. Qed.

Lemma stop_cancels c id : id ∈ tasks -> taskExecutor ∈ built c -> cancelled_task id ∈ trace (stop c).1.
Proof.
  intros Hid [o Ho]%field_built. unfold stop, all. cbn [foldr]. unfold seq at 1. unfold cancel_tasks, if_built. rewrite Ho.
  destruct (cancels_same c) as (H1 & _ & _ & H4). destruct (all _ c) as [c1 b]. cbn in H1, H4. subst b.
  assert (Hin : cancelled_task id ∈ trace c1) by (rewrite H4; apply elem_of_app; right; by apply list_elem_of_fmap_2).
  match goal with |- _ ∈ trace (?b c1).1 => assert (Hg : grows b) end.
  { repeat (apply g_seq; [first [apply g_halt|apply g_halt_async|apply g_act|apply g_running]|]). by intros ?. }
  destruct (Hg c1) as [l ->]. apply elem_of_app. by left.
Qed.

(** *** A run of the program *)

Lemma stop_owned c : owned c -> owned (stop c).1.
Proof.
  intros Hc. assert (H : hoare stop_order stop stop_order).
  { unfold stop, all, cancel_tasks, halt, halt_async. cbn [foldr]. run_parts. }
  refine (proj1 (H c Hc _)). intros o Ho. by apply (Hc o).
Qed.

Lemma background_join_owned c : owned c -> owned (background_join c).1.
Proof.
  intros Hc. unfold background_join. destruct (joins c) as [|n]; [done|]. cbn [fst].
  assert (H : exists s, hoare stop_order (all [join_starts; start_all]) s).
  { unfold all, join_starts, start_all, all. cbn [foldr]. eexists. run_parts. }
  destruct H as [s H]. set (c' := c <| joins := n |>). assert (Hc' : owned c') by exact Hc.
  refine (proj1 (H c' Hc' _)). intros o Ho. by apply (Hc' o).
Qed.

Lemma start_owned c : owned c -> (running c = false -> live c = []) -> owned (start c).1.
Proof.
  intros Hc Hlive. unfold start. destruct (running c); [done|]. destruct (isolated mode); [done|].
  pose proof (start_body_owned c Hc (Hlive eq_refl)) as H. destruct (start_body c) as [c1 []]; [done|]. by apply stop_owned.
Qed.
End lifecycle.

(** Starts, stops and pending joins one after the other, any steps of them failing; a
    program that does not run is started only while nothing of it is live. *)
Inductive reachable : Cortex -> Prop :=
  | r_new : reachable new_Cortex
  | r_start mode fails tasks c : reachable c -> (running c = false -> live c = []) ->
      reachable (start mode fails tasks c).1
  | r_stop fails tasks c : reachable c -> reachable (stop fails tasks c).1
  | r_join fails c : reachable c -> reachable (background_join fails c).1.

Lemma reachable_owned c : reachable c -> owned c.
Proof.
  induction 1; [by intros o Ho%elem_of_nil|by apply start_owned|by apply stop_owned|by apply background_join_owned].
Qed.

(** C25: a stop, and a start that fails, leave nothing running.  In any state that
    starts, stops and background joins lead to, when none of them overlap and the program
    was started only while nothing of it was live, and when the two asynchronous stops
    do not fail: after a stop, every object that was started has been stopped, the tasks
    that were running have been cancelled, and the program can be started again; and
    a start from such a stopped state that fails at any step ends the same way.  (Where
    a stop fails or comes in the midst of a start, objects leak: see [second_start_leaks]
    and [stop_amid_start].) *)
Theorem failed_start_releases mode fails tasks c :
  reachable c -> fails mcp_stop = false -> fails server_stop = false ->
  (live (stop fails tasks c).1 = [] /\ running (stop fails tasks c).1 = false /\
   (taskExecutor ∈ built c -> forall id, id ∈ tasks -> cancelled_task id ∈ trace (stop fails tasks c).1)) /\
  (live c = [] -> (start mode fails tasks c).2 = false ->
     live (start mode fails tasks c).1 = [] /\ running (start mode fails tasks c).1 = false).
Proof.
  intros Hc%reachable_owned Hm Hs. split.
  - destruct (stop_left fails tasks c Hm Hs Hc) as [Hl Hr]. split_and!; [by apply empty_left|exact Hr|].
    intros He id Hid. by apply stop_cancels.
  - intros Hlive. unfold start. destruct (running c); [done|]. destruct (isolated mode); [done|].
    pose proof (start_body_owned mode fails c Hc Hlive) as H.
    destruct (start_body mode fails c) as [c1 []]; [done|]. intros _.
    destruct (stop_left fails tasks c1 Hm Hs H) as [Hl Hr]. split; [by apply empty_left|exact Hr].
Qed.

Definition daemon : Mode := mkMode false false true false true.
Definition mcp : Mode := mkMode true false true true false.
Definition never (s : Step) : bool := false.
Definition at_step (s : Step) (t : Step) : bool :=
  match s, t with
  | server_start, server_start | monitor_start, monitor_start | mcp_stop, mcp_stop => true
  | _, _ => false
  end.

(** The port is taken: everything that was up goes down again. *)
Lemma failed_start_releases_witness :
  (start daemon (at_step server_start) ["t1"] new_Cortex).2 = false /\
  length (live (start_body daemon (at_step server_start) new_Cortex).1) = 5%nat /\
  live (start daemon (at_step server_start) ["t1"] new_Cortex).1 = [].
Proof.
  split; [by vm_compute|]. split; [by vm_compute|].
  destruct (failed_start_releases daemon (at_step server_start) ["t1"] new_Cortex r_new eq_refl eq_refl) as [_ H].
  apply H; [done|by vm_compute].
Defined.

(** A daemon that starts: what runs, what a stop leaves, and a second start. *)
Example daemon_runs :
  let c := (start daemon never [] new_Cortex).1 in
  running c = true /\
  (live c).*1 = [pluginLoader; approval; scheduler; membership; raft; grpcServer; pluginLoader; resourceMonitor;
                 memoryReplicator; sharedMemoryDb; tailscale] /\
  live (stop never ["t1"] c).1 = [] /\
  live (stop never [] (start daemon never [] (stop never ["t1"] c).1).1).1 = [].
Proof. by vm_compute. Qed.

(** A stop does not end the join that the MCP process left in the background: when it
    goes on, it starts the server, Raft and the plugins of a stopped program. *)
Example stopped_program_joins :
  let c := (stop never [] (start mcp never [] new_Cortex).1).1 in
  running c = false /\ live c = [] /\
  (live (background_join never c).1).*1 = [pluginLoader; approval; membership; raft; grpcServer].
Proof. by vm_compute. Qed.

(** An exception of the first stop keeps everything else running. *)
Example failed_stop_stops_nothing :
  let c := (start mcp never [] new_Cortex).1 in
  live (stop (at_step mcp_stop) [] c).1 = live c /\ running (stop (at_step mcp_stop) [] c).1 = true.
Proof. by vm_compute. Qed.

(** A start that fails, and whose stop fails, leaves its objects running; a second start
    makes new ones, and no stop reaches the first any more. *)
Example second_start_leaks :
  let broken s := at_step mcp_stop s || at_step monitor_start s in
  let c1 := (start mcp broken [] new_Cortex).1 in
  let c2 := (start mcp never [] c1).1 in
  running c1 = false /\ (live c1).*1 = [memoryReplicator; sharedMemoryDb; tailscale; mcpServer] /\
  live (stop never [] c2).1 = live c1.
Proof. by vm_compute. Qed.

(** A stop that comes while a start awaits: the start goes on after it, and what it
    starts then stays. *)
Example stop_amid_start :
  let before := all [mcp_early daemon never; initializeSecurity never; initializeTailscale daemon never;
                     initializeGrpc never] in
  let after := all [initializeCluster daemon never; initializeAnnouncements; initializeAgent never] in
  let c := (after (stop never [] (before new_Cortex).1).1).1 in
  running c = false /\ (live c).*1 = [resourceMonitor; memoryReplicator; sharedMemoryDb].
Proof. by vm_compute. Qed.
End Lifecycle.

(** ** The version check *)

Module Version.

(** The part of the two installations that the check compares: [buildHash] of
    version.json, none when the file cannot be read or parsed. *)
Record Install := mkInstall { distHash : option string; protoOf : string }.

Inductive Outcome := goes_on | exits.

(** The text of [execSync] for the two directories. *)
Definition rsync (leaderIp dir : string) : string :=
  str ["rsync -az --delete -e 'ssh -o StrictHostKeyChecking=no' "; leaderIp; ":"; dir; "/ "; dir; "/"].

(** [handleVersionCheck]: [leader] is what the leader's disk holds, [fails] says which
    command throws.  The commands that were run are listed. *)
Definition handleVersionCheck (leaderBuildHash leaderAddress distDir : string) (leader : Install)
    (fails_dist fails_proto : bool) (mine : Install) : Install * list string * Outcome :=
  let localHash := default "" (distHash mine) in
  if negb (truthy_str localHash) || String.eqb localHash leaderBuildHash then (mine, [], goes_on)
  else
    let leaderIp := (Membership.split_colon leaderAddress).1 in
    let projectDir := path_join [distDir; ".."] in
    let first := rsync leaderIp distDir in
    if (fails_dist : bool) then (mine, [first], goes_on)
    else
      let mine := mkInstall (distHash leader) (protoOf mine) in
      let second := rsync leaderIp (projectDir +:+ "/proto") in
      if (fails_proto : bool) then (mine, [first; second], goes_on)
      else (mkInstall (distHash mine) (protoOf leader), [first; second], exits).

(** Starts of the node under one leader, each with its version check after the join; the
    process ends when the check makes it exit, and the service starts it again. *)
Fixpoint starts (n : nat) (leaderBuildHash leaderAddress distDir : string) (leader mine : Install) : list Outcome :=
  match n with
  | O => []
  | S n =>
      let '(mine, _, outcome) := handleVersionCheck leaderBuildHash leaderAddress distDir leader false false mine in
      outcome :: starts n leaderBuildHash leaderAddress distDir leader mine
  end.

Lemma settled n hash address dir leader mine : distHash mine = Some hash \/ distHash mine = None ->
  starts n hash address dir leader mine = repeat goes_on n.
Proof.
  intros Hm. induction n as [|n IH]; [done|]. cbn [starts]. unfold handleVersionCheck.
  destruct Hm as [Hm|Hm]; rewrite Hm; cbn; rewrite ?String.eqb_refl, ?orb_true_r; cbn; by rewrite IH.
Qed.

Lemma unsettled n hash address dir leader mine d : distHash leader = Some d -> d <> "" -> d <> hash ->
  distHash mine = Some d -> starts n hash address dir leader mine = repeat exits n.
Proof.
  intros Hl Hd Hne. revert mine. induction n as [|n IH]; intros mine Hm; [done|]. cbn [starts]. unfold handleVersionCheck.
  rewrite Hm. cbn [from_option id]. unfold truthy_str. rewrite (proj2 (String.eqb_neq _ _) Hd), (proj2 (String.eqb_neq _ _) Hne).
  cbn. f_equal. by apply IH.
Qed.

(** A node that differs from the leader's build is updated with one restart when the
    leader runs what its disk holds.  When its files are newer than the process, as
    between the copying of a new version and the restart of the leader, the node exits
    at every start. *)
Theorem update_settles_or_loops n hash address dir leader mine l d :
  distHash mine = Some l -> l <> "" -> l <> hash -> distHash leader = Some d -> d <> "" ->
  starts (S n) hash address dir leader mine = exits :: repeat (if String.eqb d hash then goes_on else exits) n.
Proof.
  intros Hm Hl Hne Hd Hd'. cbn [starts]. unfold handleVersionCheck. rewrite Hm. cbn [from_option id]. unfold truthy_str.
  rewrite (proj2 (String.eqb_neq _ _) Hl), (proj2 (String.eqb_neq _ _) Hne). cbn. f_equal.
  destruct (String.eqb_spec d hash) as [->|Hdh]; [apply settled; by left|by apply (unsettled _ _ _ _ _ _ d)].
Qed.

Lemma update_settles_or_loops_witness :
  starts 4 "old" "100.64.0.1:50051" "/opt/cortex/dist" (mkInstall (Some "new") "p") (mkInstall (Some "older") "p")
  = [exits; exits; exits; exits].
Proof.
  exact (update_settles_or_loops 3 "old" "100.64.0.1:50051" "/opt/cortex/dist" (mkInstall (Some "new") "p")
    (mkInstall (Some "older") "p") "older" "new" eq_refl ltac:(done) ltac:(done) eq_refl ltac:(done)).
Defined.

(** When the second copy fails the node goes on with the files of two versions. *)
Example half_updated :
  handleVersionCheck "new" "100.64.0.1:50051" "/opt/cortex/dist" (mkInstall (Some "new") "p2") false true (mkInstall (Some "old") "p1")
  = (mkInstall (Some "new") "p1",
     ["rsync -az --delete -e 'ssh -o StrictHostKeyChecking=no' 100.64.0.1:/opt/cortex/dist/ /opt/cortex/dist/";
      "rsync -az --delete -e 'ssh -o StrictHostKeyChecking=no' 100.64.0.1:/opt/cortex/proto/ /opt/cortex/proto/"], goes_on).
Proof. by vm_compute. Qed.
End Version.

(** ** Events nobody listens to *)

Module Unheard.

(** [emit] of an event emitter: the event 'error' without a listener is thrown. *)
Definition emit_throws (listeners : list string) (event : string) : bool :=
  String.eqb event "error" && negb (bool_decide ("error" ∈ listeners)).

(** The listeners [initializeTailscale] registers. *)
Definition tailscale_listeners : list string := ["nodeDiscovered"].

(** A turn of the interval of [poll]: the emit in its handler of exceptions may throw,
    and then the promise that nobody awaits is rejected. *)
Definition tick_rejects (output : string + string) : bool :=
  match output with
  | inl _ => emit_throws tailscale_listeners "error"
  | inr stdout => match Tailscale.fetchStatus stdout with
                  | None => emit_throws tailscale_listeners "error"
                  | Some _ => false
                  end
  end.

(** An unhandled rejection ends the process unless it has a handler for them, which
    [runMcpServer] installs and [main] does not. *)
Definition survives (mcpMode : bool) (output : string + string) : bool := mcpMode || negb (tick_rejects output).

(** One failed [tailscale status] ends the daemon. *)
Theorem failed_status_ends_daemon output :
  survives false output = match output with
                          | inl _ => false
                          | inr stdout => bool_decide (is_Some (Tailscale.fetchStatus stdout))
                          end.
Proof. destruct output as [m|stdout]; [done|]. unfold survives, tick_rejects. by destruct (Tailscale.fetchStatus stdout). Qed.
End Unheard.
