(* ===== verification/McpTools.v ===== *)
(** * The tools of the MCP server (src/src/mcp/tools.ts, plugins/cluster-tools)

    What a tool answers to a model: the handlers of [createTools] over the membership
    manager, the state manager and the deprecated scheduler, whose code is in the files
    of those names, and the selection that the cluster-tools plugin makes of them.
    The views of the cluster come from the leader when it answers, as its
    GetClusterState message, and else from this node.

    The theorems compare the two: the message read back is the leader's table, and the
    totals computed from it are the ones the leader computes; an example shows where the
    available resources differ. *)

From S2P Require Import Prelude JsMap JsString Raft Membership MembershipProps ClusterState ClusterHandlers ClusterHandlersProps.
From S2P Require LegacyScheduler.
From Stdlib Require Import QArith.
#[local] Open Scope Z_scope.

(** ** The leader's view *)

(** Numbers read by [parseInt]; none is NaN. *)
Definition Num : Type := option Z.
Definition nan_add (a b : Num) : Num := x ← a; y ← b; Some (x + y).

Record LeaderGpu := mkLeaderGpu {
  lg_name : string;
  lg_memoryBytes : Num;
  lg_memoryAvailableBytes : Num;
  lg_utilizationPercent : Q;
  lg_inUseForGaming : bool
}.
Record LeaderResources := mkLeaderResources {
  lr_cpuCores : Z;
  lr_memoryBytes : Num;
  lr_memoryAvailableBytes : Num;
  lr_gpus : list LeaderGpu;
  lr_diskBytes : Num;
  lr_diskAvailableBytes : Num;
  lr_cpuUsagePercent : Q;
  lr_gamingDetected : bool
}.
Record LeaderNode := mkLeaderNode {
  ln_nodeId : string;
  ln_hostname : string;
  ln_tailscaleIp : string;
  ln_grpcPort : Z;
  ln_role : string;
  ln_status : string;
  ln_resources : option LeaderResources;
  ln_tags : list string;
  ln_joinedAt : Num;
  ln_lastSeen : Num
}.
Record LeaderState := mkLeaderState {
  le_nodes : list LeaderNode;
  le_leaderId : option string;
  le_term : Z;
  le_clusterId : string;
  le_activeTasks : Z;
  le_queuedTasks : Z
}.

Definition enum_name (prefix s : string) : string := js_toLowerCase (js_replace prefix "" s).

Definition parse_gpu (g : ProtoGpu) : LeaderGpu :=
  mkLeaderGpu (pg_name g) (parseInt (pg_memory_bytes g)) (parseInt (pg_memory_available_bytes g))
    (pg_utilization_percent g) (pg_in_use_for_gaming g).
Definition parse_resources (r : ProtoResources) : LeaderResources :=
  mkLeaderResources (Membership.pr_cpu_cores r) (parseInt (Membership.pr_memory_bytes r)) (parseInt (pr_memory_available_bytes r))
    (parse_gpu <$> pr_gpus r) (parseInt (pr_disk_bytes r)) (parseInt (pr_disk_available_bytes r))
    (pr_cpu_usage_percent r) (pr_gaming_detected r).
Definition parse_node (n : ProtoNode) : LeaderNode :=
  mkLeaderNode (pn_node_id n) (pn_hostname n) (pn_tailscale_ip n) (pn_grpc_port n)
    (enum_name "NODE_ROLE_" (pn_role n)) (enum_name "NODE_STATUS_" (pn_status n))
    (parse_resources <$> pn_resources n) (pn_tags n) (parseInt (pn_joined_at n)) (parseInt (pn_last_seen n)).
Definition parse_state (s : ProtoClusterState) : LeaderState :=
  mkLeaderState (parse_node <$> ps_nodes s) (if truthy_str (ps_leader_id s) then Some (ps_leader_id s) else None)
    (default 0 (parseInt (ps_term s))) (ps_cluster_id s) (ps_active_tasks s) (ps_queued_tasks s).

(** [answer] is the leader's, or none when the call fails.  The result is none for an
    exception, and then none when the tools use what this node knows. *)
Definition fetchLeaderState (hasPool : bool) (answer : option ProtoClusterState) (mm : MembershipManager) :
    option (option LeaderState) :=
  match getLeaderAddress mm with
  | None => Some None
  | Some address =>
      if negb (truthy_str address) || negb hasPool then Some None
      else
        self ← getSelfNode mm;
        if String.eqb address (address_of self) then Some None else Some (parse_state <$> answer)
  end.

(** ** The tools over that view *)

Definition is_mcp (id : string) : bool := js_endsWith id "-mcp".
Definition real_nodes (l : list LeaderNode) : list LeaderNode := keep (fun n => negb (is_mcp (ln_nodeId n))) l.

Record ToolTotals := mkToolTotals { tt_cpuCores : Q; tt_memoryBytes : Num; tt_gpuCount : Z; tt_gpuMemoryBytes : Num }.
Definition no_totals : ToolTotals := mkToolTotals 0 (Some 0) 0 (Some 0).

Definition sum_of (f : LeaderGpu -> Num) (l : list LeaderGpu) : Num := fold_left (fun s g => nan_add s (f g)) l (Some 0).

Definition add_node (cores : LeaderResources -> Q) (memory : LeaderResources -> Num) (gpuMemory : LeaderGpu -> Num)
    (acc : ToolTotals) (n : LeaderNode) : ToolTotals :=
  match ln_resources n with
  | Some r =>
      if String.eqb (ln_status n) "active" then
        mkToolTotals (tt_cpuCores acc + cores r) (nan_add (tt_memoryBytes acc) (memory r))
          (tt_gpuCount acc + js_length (lr_gpus r)) (nan_add (tt_gpuMemoryBytes acc) (sum_of gpuMemory (lr_gpus r)))
      else acc
  | None => acc
  end.

Definition calcTotal (l : list LeaderNode) : ToolTotals :=
  fold_left (add_node (fun r => inject_Z (lr_cpuCores r)) lr_memoryBytes lg_memoryBytes) l no_totals.
Definition calcAvailable (l : list LeaderNode) : ToolTotals :=
  fold_left (add_node (fun r => inject_Z (lr_cpuCores r) * (1 - lr_cpuUsagePercent r / 100))%Q
               lr_memoryAvailableBytes lg_memoryAvailableBytes) l no_totals.

Record ToolStatus := mkToolStatus {
  tl_clusterId : string;
  tl_leaderId : option string;
  tl_term : Z;
  tl_nodes : list LeaderNode;
  tl_totalResources : ToolTotals;
  tl_availableResources : ToolTotals;
  tl_activeTasks : Z;
  tl_queuedTasks : Z
}.

(** [cluster_status]: the leader's view, or this node's own state. *)
Definition cluster_status {D} (leaderState : option LeaderState) (mm : MembershipManager) (raft : RaftNode D)
    (st : ClusterStateManager) : (ToolStatus + ClusterState.ClusterState) * MembershipManager :=
  match leaderState with
  | Some s =>
      let nodes := real_nodes (le_nodes s) in
      (inl (mkToolStatus (le_clusterId s) (le_leaderId s) (le_term s) nodes (calcTotal nodes) (calcAvailable nodes)
              (le_activeTasks s) (le_queuedTasks s)), mm)
  | None => let '(s, mm) := getState mm raft st in (inr s, mm)
  end.

(** *** The list of nodes *)

(** [x.toFixed(1)]: the nearest tenth, the larger one of two. *)
Definition tenths (q : Q) : Z := Qnum (q * 10 + (1 # 2)) / Zpos (Qden (q * 10 + (1 # 2))).
Definition toFixed1_nonneg (q : Q) : string :=
  js_toString (tenths q / 10) +:+ "." +:+ js_toString (tenths q mod 10).
Definition toFixed1 (q : Q) : string :=
  if Qle_bool 0 q then toFixed1_nonneg q else "-" +:+ toFixed1_nonneg (- q).
Definition memory_gb (n : Num) : string :=
  match n with Some z => toFixed1 (z # 1073741824) | None => "NaN" end.

Record ListedGpu := mkListedGpu { gl_name : string; gl_memoryGb : string; gl_utilization : Q; gl_gamingActive : bool }.
Record ListedResources := mkListedResources {
  rl_cpuCores : Z;
  rl_memoryGb : string;
  rl_memoryAvailableGb : string;
  rl_cpuUsagePercent : string;
  rl_gpus : list ListedGpu;
  rl_gamingDetected : bool
}.
Record ListedNode := mkListedNode {
  nl_nodeId : string;
  nl_hostname : string;
  nl_ip : string;
  nl_role : string;
  nl_status : string;
  nl_resources : option ListedResources
}.

Definition list_gpu (g : LeaderGpu) : ListedGpu :=
  mkListedGpu (lg_name g) (memory_gb (lg_memoryBytes g)) (lg_utilizationPercent g) (lg_inUseForGaming g).
Definition list_resources (r : LeaderResources) : ListedResources :=
  mkListedResources (lr_cpuCores r) (memory_gb (lr_memoryBytes r)) (memory_gb (lr_memoryAvailableBytes r))
    (toFixed1 (lr_cpuUsagePercent r)) (list_gpu <$> lr_gpus r) (lr_gamingDetected r).
Definition list_leader_node (n : LeaderNode) : ListedNode :=
  mkListedNode (ln_nodeId n) (ln_hostname n) (ln_tailscaleIp n) (ln_role n) (ln_status n) (list_resources <$> ln_resources n).

(** The same of a node of this table. *)
Definition list_local_gpu (g : GpuInfo) : ListedGpu :=
  mkListedGpu (g_name g) (memory_gb (Some (g_memoryBytes g))) (g_utilizationPercent g) (g_inUseForGaming g).
Definition list_local_resources (r : NodeResources) : ListedResources :=
  mkListedResources (r_cpuCores r) (memory_gb (Some (r_memoryBytes r))) (memory_gb (Some (r_memoryAvailableBytes r)))
    (toFixed1 (r_cpuUsagePercent r)) (list_local_gpu <$> r_gpus r) (r_gamingDetected r).
Definition list_local_node (n : NodeInfo) : ListedNode :=
  mkListedNode (n_nodeId n) (n_hostname n) (n_tailscaleIp n) (role_string (n_role n)) (status_string (n_status n))
    (list_local_resources <$> n_resources n).

(** [list_nodes]. *)
Definition by_status {A} (status : option string) (name_of : A -> string) (l : list A) : list A :=
  match status with
  | Some s => if truthy_str s then keep (fun n => String.eqb (name_of n) s) l else l
  | None => l
  end.
Definition list_nodes (status : option string) (leaderState : option LeaderState) (mm : MembershipManager) : list ListedNode :=
  match leaderState with
  | Some s => list_leader_node <$> by_status status ln_status (real_nodes (le_nodes s))
  | None => list_local_node <$> keep (fun n => negb (is_mcp (n_nodeId n)))
              (by_status status (fun n => status_string (n_status n)) (getAllNodes mm))
  end.

(** *** The tools over the deprecated scheduler *)

Definition disabled : string := "Legacy TaskScheduler disabled — use the task-engine plugin instead".

(** The arguments of [submit_task]. *)
Record SubmitArgs := mkSubmitArgs {
  sa_type : string;
  sa_command : option string;
  sa_image : option string;
  sa_prompt : option string;
  sa_workingDirectory : option string;
  sa_targetNode : option string;
  sa_priority : option Z;
  sa_requiresGpu : option bool;
  sa_avoidGamingNodes : option bool
}.
Definition given_str (o : option string) : option string := s ← o; if truthy_str s then Some s else None.

Section submitting.
Variables (nodeId sessionId : string).

Definition plain_spec (taskId type : string) : LegacyScheduler.TaskSpec :=
  LegacyScheduler.mkTaskSpec taskId type nodeId (Some sessionId) None None None None None None None None None None None.
#[local] Instance TaskSpec_eta : EtaRecord LegacyScheduler.TaskSpec := fun s =>
  LegacyScheduler.mkTaskSpec (LegacyScheduler.ts_taskId s) (LegacyScheduler.ts_type s) (LegacyScheduler.ts_submitterNode s)
    (LegacyScheduler.ts_submitterSession s) (LegacyScheduler.ts_shell s) (LegacyScheduler.ts_container s)
    (LegacyScheduler.ts_subagent s) (LegacyScheduler.ts_k8sJob s) (LegacyScheduler.ts_claudeRelay s)
    (LegacyScheduler.ts_requirements s) (LegacyScheduler.ts_constraints s) (LegacyScheduler.ts_priority s)
    (LegacyScheduler.ts_timeoutMs s) (LegacyScheduler.ts_environment s) (LegacyScheduler.ts_targetNodes s).

(** The part of the task's type, or the error thrown. *)
Definition with_body (args : SubmitArgs) (spec : LegacyScheduler.TaskSpec) : string + LegacyScheduler.TaskSpec :=
  if String.eqb (sa_type args) "shell" then
    match given_str (sa_command args) with
    | None => inl "Shell task requires command"
    | Some c => inr (spec <| LegacyScheduler.ts_shell := Some (LegacyScheduler.mkShellTaskSpec c (sa_workingDirectory args) None) |>)
    end
  else if String.eqb (sa_type args) "container" then
    match given_str (sa_image args) with
    | None => inl "Container task requires image"
    | Some i => inr (spec <| LegacyScheduler.ts_container :=
                  Some (LegacyScheduler.mkContainerTaskSpec i ((fun c => [c]) <$> given_str (sa_command args)) None None None) |>)
    end
  else if String.eqb (sa_type args) "subagent" then
    match given_str (sa_prompt args) with
    | None => inl "Subagent task requires prompt"
    | Some p => inr (spec <| LegacyScheduler.ts_subagent := Some (LegacyScheduler.mkSubagentTaskSpec p None None None None) |>)
    end
  else inr spec.

Definition submit_task_spec (taskId : string) (args : SubmitArgs) : string + LegacyScheduler.TaskSpec :=
  with_body args
    ((plain_spec taskId (sa_type args))
      <| LegacyScheduler.ts_priority := Some (default 5 (sa_priority args)) |>
      <| LegacyScheduler.ts_requirements := Some (LegacyScheduler.mkResourceRequirements None None (sa_requiresGpu args) None) |>
      <| LegacyScheduler.ts_constraints := Some (LegacyScheduler.mkTaskConstraints None None None (sa_avoidGamingNodes args)) |>
      <| LegacyScheduler.ts_targetNodes := (fun t => [t]) <$> given_str (sa_targetNode args) |>).

(** What a tool does first: throw, answer with an error, or submit tasks. *)
Inductive ToolStep :=
  | tool_throws (message : string)
  | tool_error (message : string)
  | tool_submits (specs : list LegacyScheduler.TaskSpec).

Definition submit_task (taskId : string) (args : SubmitArgs) (scheduler : bool) : ToolStep :=
  match submit_task_spec taskId args with
  | inl e => tool_throws e
  | inr spec => if negb scheduler then tool_error disabled else tool_submits [spec]
  end.

(** [ids] are the results of [randomUUID], one per task. *)
Definition run_distributed (ids : list string) (command : string) (nodes : option (list string))
    (mm : MembershipManager) (scheduler : bool) : ToolStep :=
  if negb scheduler then tool_error disabled else
  let targets := match nodes with
                 | None | Some [] => n_nodeId <$> getActiveNodes mm
                 | Some targets => targets
                 end in
  tool_submits (zip_with (fun id node =>
    (plain_spec id "shell") <| LegacyScheduler.ts_shell := Some (LegacyScheduler.mkShellTaskSpec command None None) |>
      <| LegacyScheduler.ts_targetNodes := Some [node] |>) ids targets).

Definition agent_prompt (count : Z) (prompt : string) (i : nat) : string :=
  "Agent " +:+ js_toString (Z.of_nat i + 1) +:+ "/" +:+ js_toString count +:+ ": " +:+ prompt.

(** [Array.from] makes no element for a count below one. *)
Definition dispatch_subagents (ids : list string) (prompt : string) (count : Z) (contextSummary : option string)
    (scheduler : bool) : ToolStep :=
  if negb scheduler then tool_error disabled else
  tool_submits (zip_with (fun id i =>
    (plain_spec id "subagent") <| LegacyScheduler.ts_subagent :=
      Some (LegacyScheduler.mkSubagentTaskSpec (agent_prompt count prompt i) None None contextSummary None) |>)
    ids (seq 0 (Z.to_nat count))).

Definition relay_to_session (taskId target message : string) (includeContext : bool) (st : ClusterStateManager)
    (scheduler : bool) : ToolStep :=
  if negb scheduler then tool_error disabled else
  let session := getSession sessionId st in
  let context := if includeContext then s ← session; s_contextSummary s else None in
  tool_submits [(plain_spec taskId "claude_relay") <| LegacyScheduler.ts_claudeRelay :=
    Some (LegacyScheduler.mkClaudeRelayTaskSpec target message context (Some true)) |>].

(** *** Sessions and context *)

Record ListedSession := mkListedSession {
  ls_sessionId : string;
  ls_nodeId : string;
  ls_project : string;
  ls_workingDirectory : string;
  ls_startedAt : Z;
  ls_lastActive : Z;
  ls_contextSummary : option string
}.
(** A time stands for its ISO form. *)
Definition list_sessions (project node : option string) (st : ClusterStateManager) : list ListedSession :=
  (fun s => mkListedSession (s_sessionId s) (s_nodeId s) (s_project s) (s_workingDirectory s) (s_startedAt s)
              (s_lastActive s) (s_contextSummary s)) <$> getSessions (mkSessionFilter project node true) st.

Definition publish_context (now : Z) (entryId : string) (type : ContextType) (key value : string)
    (visibility : option ContextVisibility) (st : ClusterStateManager) : string * ClusterStateManager :=
  let project := match getSession sessionId st with Some s => s_project s | None => "" end in
  let entry := mkContextEntry entryId sessionId nodeId project type key value now now (default vis_cluster visibility) in
  (entryId, publishContext entry st).

Record ListedContext := mkListedContext {
  lc_entryId : string;
  lc_type : ContextType;
  lc_key : string;
  lc_value : string;
  lc_project : string;
  lc_sessionId : string;
  lc_timestamp : Z
}.
Definition query_context (project : option string) (types : option (list ContextType)) (limit : option Z)
    (st : ClusterStateManager) : list ListedContext :=
  (fun e => mkListedContext (ce_entryId e) (ce_type e) (ce_key e) (ce_value e) (ce_project e) (ce_sessionId e) (ce_timestamp e)) <$>
    queryContext (mkContextQuery project types None (Some (default 20 limit)) (Some sessionId)) st.

End submitting.

(** [get_task_result]. *)
Record ToolTaskStatus := mkToolTaskStatus {
  tq_taskId : string;
  tq_state : LegacyScheduler.TaskState;
  tq_assignedNode : option string;
  tq_startedAt : option Z;
  tq_completedAt : option Z;
  tq_exitCode : option Z;
  tq_error : option string;
  tq_stdout : option string;
  tq_stderr : option string
}.
Definition get_task_result (taskId : string) (scheduler : option LegacyScheduler.TaskScheduler) : string + ToolTaskStatus :=
  match scheduler with
  | None => inl disabled
  | Some s =>
      match LegacyScheduler.getStatus taskId s with
      | None => inl "Task not found"
      | Some t =>
          inr (mkToolTaskStatus (LegacyScheduler.tst_taskId t) (LegacyScheduler.tst_state t) (LegacyScheduler.tst_assignedNode t)
                 (LegacyScheduler.tst_startedAt t) (LegacyScheduler.tst_completedAt t) (LegacyScheduler.tst_exitCode t)
                 (LegacyScheduler.tst_error t) (LegacyScheduler.tr_stdout <$> LegacyScheduler.tst_result t)
                 (LegacyScheduler.tr_stderr <$> LegacyScheduler.tst_result t))
      end
  end.

(** *** Scaling and leadership *)

Inductive ScaleAnswer :=
  | scale_message (message clusterTag : string)
  | scale_result (success : bool) (nodeId : string) (graceful : bool).

Section raft.
Context {D : Type} `{!EmptyBuffer D} `{!MembershipCodec D}.
Implicit Types (raft : RaftNode D) (st : MembershipManager * RaftNode D).

(** The error thrown, or the answer, the state and the calls to the followers. *)
Definition scale_cluster (action : string) (target : option string) st :
    string + ScaleAnswer * (MembershipManager * RaftNode D) * list (AppendCall D) :=
  if String.eqb action "add" then
    inr (scale_message "To add nodes, start the cortex agent on a new machine with Tailscale connected" "cortex", st, [])
  else if String.eqb action "remove" || String.eqb action "drain" then
    match given_str target with
    | None => inl (action +:+ " requires nodeId")
    | Some id =>
        let graceful := String.eqb action "drain" in
        let '(success, st, calls) := removeNode id graceful st in
        inr (scale_result success id graceful, st, calls)
    end
  else inl ("Unknown action: " +:+ action).

Inductive LeadershipAnswer :=
  | ls_refused (currentLeader : option string)
  | ls_stepped (message : string)
  | ls_failed.
Definition transfer_leadership raft : LeadershipAnswer * RaftNode D :=
  if negb (isLeader raft) then (ls_refused (leaderId raft), raft)
  else
    let term := currentTerm raft in
    let '(stepped, raft) := stepDown raft in
    (if stepped then ls_stepped ("Leader stepped down from term " +:+ js_toString term +:+ ". New election in progress.")
     else ls_failed, raft).
End raft.

(** *** The tools of the plugin *)

Definition excludeTools : list string :=
  ["k8s_list_clusters"; "k8s_submit_job"; "k8s_get_resources"; "k8s_scale"; "initiate_rolling_update";
   "submit_task"; "get_task_result"; "run_distributed"; "dispatch_subagents"].

(** The names [createTools] registers, in its order. *)
Definition tool_names : list string :=
  ["cluster_status"; "list_nodes"; "submit_task"; "get_task_result"; "run_distributed"; "dispatch_subagents"; "scale_cluster";
   "k8s_list_clusters"; "k8s_submit_job"; "k8s_get_resources"; "k8s_scale"; "list_sessions"; "relay_to_session";
   "publish_context"; "query_context"; "initiate_rolling_update"].

Definition plugin_tools {T} (allTools : jsmap T) (transfer : T) : jsmap T :=
  jm_set (foldl (fun m kv => if bool_decide (kv.1 ∈ excludeTools) then m else jm_set m kv.1 kv.2) [] allTools)
    "transfer_leadership" transfer.

(** ** What the leader's answer shows *)

Definition view_gpu (g : GpuInfo) : LeaderGpu :=
  mkLeaderGpu (g_name g) (Some (g_memoryBytes g)) (Some (g_memoryAvailableBytes g)) (g_utilizationPercent g) (g_inUseForGaming g).
Definition view_resources (r : NodeResources) : LeaderResources :=
  mkLeaderResources (r_cpuCores r) (Some (r_memoryBytes r)) (Some (r_memoryAvailableBytes r)) (view_gpu <$> r_gpus r)
    (Some (r_diskBytes r)) (Some (r_diskAvailableBytes r)) (r_cpuUsagePercent r) (r_gamingDetected r).
Definition view_node (n : NodeInfo) : LeaderNode :=
  mkLeaderNode (n_nodeId n) (n_hostname n) (n_tailscaleIp n) (n_grpcPort n) (role_string (n_role n)) (status_string (n_status n))
    (view_resources <$> n_resources n) (n_tags n) (Some (n_joinedAt n)) (Some (n_lastSeen n)).

Lemma parse_gpu_proto g : parse_gpu (gpu_proto g) = view_gpu g.
Proof. unfold parse_gpu, gpu_proto, view_gpu. cbn -[parseInt js_toString]. by rewrite !parseInt_toString. Qed.

Lemma parse_resources_proto r : parse_resources (resourcesToProto r) = view_resources r.
Proof.
  unfold parse_resources, resourcesToProto, view_resources. cbn -[parseInt js_toString]. rewrite !parseInt_toString. f_equal.
  rewrite <- list_fmap_compose. apply list_fmap_ext. intros ? g _. apply parse_gpu_proto.
Qed.

Lemma parse_node_proto n : parse_node (nodeToProto n) = view_node n.
Proof.
  destruct n as [id host ip port role status res tags j l]. unfold parse_node, nodeToProto, view_node, mbind; cbn -[js_toString parseInt].
  rewrite !parseInt_toString. f_equal.
  - by destruct role.
  - by destruct status.
  - destruct res; [|done]. cbn. by rewrite parse_resources_proto.
Qed.

(** The table as the leader reports it: with the status of the nodes Raft holds alive. *)
Definition reported_table (alive : list string) (l : list NodeInfo) : list NodeInfo :=
  (fun n => n <| n_status := reported_status alive n |>) <$> l.

Section leader.
Context {D : Type} `{!EmptyBuffer D} `{!MembershipCodec D}.
Implicit Types (raft : RaftNode D) (mm : MembershipManager).

Lemma parse_state_nodes self mm raft st :
  le_nodes (parse_state (GetClusterState self mm raft st).1) =
  view_node <$> reported_table (raftAlive self raft) (cs_nodes (getState mm raft st).1).
Proof.
  unfold GetClusterState. destruct (getState mm raft st) as [s mm']. cbn. unfold reported_table.
  rewrite <- (list_fmap_compose (reported_node _)), <- list_fmap_compose. apply list_fmap_ext. intros ? n _. apply parse_node_proto.
Qed.

Definition totals_of (r : ClusterResources) : ToolTotals :=
  mkToolTotals (cr_cpuCores r) (Some (cr_memoryBytes r)) (cr_gpuCount r) (Some (cr_gpuMemoryBytes r)).

Lemma sum_view (l : list GpuInfo) a :
  fold_left (fun s g => nan_add s (lg_memoryBytes g)) (view_gpu <$> l) (Some a) =
  Some (fold_left (fun s g => s + g_memoryBytes g) l a).
Proof. revert a. induction l as [|g l IH]; intros a; [done|]. cbn. apply IH. Qed.

Lemma status_active n : String.eqb (status_string (n_status n)) "active" = bool_decide (n_status n = active).
Proof. by destruct (n_status n). Qed.

Lemma calcTotal_view l acc :
  fold_left (add_node (fun r => inject_Z (lr_cpuCores r)) lr_memoryBytes lg_memoryBytes) (view_node <$> l) (totals_of acc) =
  totals_of (fold_left (fun acc n =>
    match counted n with
    | None => acc
    | Some r =>
        mkClusterResources (cr_cpuCores acc + inject_Z (r_cpuCores r)) (cr_memoryBytes acc + r_memoryBytes r)
          (cr_gpuCount acc + js_length (r_gpus r)) (cr_gpuMemoryBytes acc + fold_left (fun sum g => sum + g_memoryBytes g) (r_gpus r) 0)
    end) l acc).
Proof.
  revert acc. induction l as [|n l IH]; intros acc; [done|]. cbn [fmap list_fmap fold_left].
  rewrite <- IH. f_equal. unfold add_node, counted. cbn [ln_resources ln_status view_node]. rewrite status_active.
  destruct (n_resources n) as [r|]; cbn; [|by destruct (bool_decide _)].
  destruct (bool_decide (n_status n = active)); [|done]. unfold totals_of, sum_of. cbn.
  rewrite sum_view. unfold js_length. by rewrite length_fmap.
Qed.

(** The answer of GetClusterState, read by the tools of another node, is the table of
    the leader, field by field, with the statuses that Raft corrects; and the totals
    the tools add up are the ones the leader's own state manager computes of that
    table. *)
Theorem leader_view_totals self mm raft st :
  let nodes := reported_table (raftAlive self raft) (cs_nodes (getState mm raft st).1) in
  let view := parse_state (GetClusterState self mm raft st).1 in
  le_nodes view = view_node <$> nodes /\
  calcTotal (le_nodes view) = totals_of (calculateTotalResources nodes) /\
  le_term view = cs_term (getState mm raft st).1 /\ le_clusterId view = cs_clusterId (getState mm raft st).1.
Proof.
  cbn zeta. rewrite parse_state_nodes. split_and!; [done|apply (calcTotal_view _ no_resources)| |].
  - unfold GetClusterState. destruct (getState mm raft st) as [s mm']. cbn -[js_toString parseInt]. by rewrite parseInt_toString.
  - unfold GetClusterState. by destruct (getState mm raft st).
Qed.

End leader.

(** The available resources differ: the tools count a graphics card that a game uses,
    and its memory, which the state manager leaves out. *)
Example available_gpus_differ :
  let gpu := mkGpuInfo "RTX" 24 20 0 true in
  let n := mkNodeInfo "n1" "h" "1.1.1.1" 50051 role_worker active
             (Some (mkNodeResources 8 64 32 [gpu] 0 0 0 true)) [] 0 0 in
  tt_gpuCount (calcAvailable [view_node n]) = 1 /\ tt_gpuMemoryBytes (calcAvailable [view_node n]) = Some 20 /\
  cr_gpuCount (calculateAvailableResources [n]) = 0 /\ cr_gpuMemoryBytes (calculateAvailableResources [n]) = 0.
Proof. by vm_compute. Qed.

(** ** What the tools submit *)

Lemma given_str_Some o s : given_str o = Some s -> truthy_str s = true.
Proof. destruct o as [t|]; cbn; [|done]. destruct (truthy_str t) eqn:E; [|done]. by intros [= <-]. Qed.

(** A task that a tool submits passes the scheduler's validation: [submit_task] checks
    the field of its type first, a subagent's prompt is never empty, and a command or
    a relay is checked by nobody else. *)
Theorem submitted_tasks_valid nodeId sessionId taskId args scheduler specs :
  truthy_str taskId = true -> sa_type args ∈ ["shell"; "container"; "subagent"] ->
  submit_task nodeId sessionId taskId args scheduler = tool_submits specs ->
  scheduler = true /\ exists spec, specs = [spec] /\ LegacyScheduler.validateTask spec = None /\
    LegacyScheduler.ts_priority spec = Some (default 5 (sa_priority args)).
Proof.
  intros Hid Ht. unfold submit_task, submit_task_spec, with_body.
  assert (sa_type args = "shell" \/ sa_type args = "container" \/ sa_type args = "subagent") as Ht2 by set_solver. destruct Ht2 as [Hq|[Hq|Hq]]; rewrite Hq; cbn [String.eqb Ascii.eqb Bool.eqb];
  (destruct (given_str _) as [c|] eqn:E; [|done]); apply given_str_Some in E; destruct scheduler; cbn [negb]; intros [= <-];
  (split; [done|]; eexists; split; [done|]; split; [|done]);
  unfold LegacyScheduler.validateTask; cbn; by rewrite Hid; cbn; rewrite E.
Qed.

Lemma submitted_tasks_valid_witness :
  let args := mkSubmitArgs "shell" (Some "ls") None None None None None None None in
  exists spec, submit_task "n1" "s1" "t1" args true = tool_submits [spec] /\ LegacyScheduler.validateTask spec = None.
Proof.
  cbn zeta. eexists. split; [reflexivity|].
  destruct (submitted_tasks_valid "n1" "s1" "t1" (mkSubmitArgs "shell" (Some "ls") None None None None None None None) true _
              eq_refl ltac:(by set_solver) eq_refl) as [_ (spec & [= <-] & H & _)]. exact H.
Defined.

Lemma dispatched_valid nodeId sessionId ids prompt count ctx specs spec :
  Forall (fun id => truthy_str id = true) ids ->
  dispatch_subagents nodeId sessionId ids prompt count ctx true = tool_submits specs -> spec ∈ specs ->
  LegacyScheduler.validateTask spec = None.
Proof.
  intros Hids [= <-] (id & i & -> & Hid & _)%elem_of_zip_with.
  pose proof (proj1 (Forall_forall _ _) Hids id Hid) as Ht. cbn beta in Ht.
  unfold LegacyScheduler.validateTask, LegacyScheduler.missing. cbn -[js_toString truthy_str]. by rewrite Ht.
Qed.

(** ** The plugin's selection *)

Lemma jm_get_selected {T} (l acc : jsmap T) k : jm_wf l ->
  jm_get (foldl (fun m kv => if bool_decide (kv.1 ∈ excludeTools) then m else jm_set m kv.1 kv.2) acc l) k =
  match jm_get l k with
  | Some v => if bool_decide (k ∈ excludeTools) then jm_get acc k else Some v
  | None => jm_get acc k
  end.
Proof.
  unfold jm_wf, jm_keys. revert acc. induction l as [|[k0 v0] l IH]; intros acc; [done|].
  rewrite fmap_cons. intros [Hk Hw]%NoDup_cons. cbn [foldl fst snd]. rewrite IH by done. cbn [jm_get].
  destruct (String.eqb_spec k0 k) as [->|Hne].
  - assert (jm_get l k = None) as -> by (by apply jm_get_None_keys).
    case_bool_decide; [done|]. by rewrite jm_get_set_eq.
  - destruct (bool_decide (k0 ∈ excludeTools)); [done|]. by rewrite jm_get_set_ne.
Qed.

(** The plugin offers the tools of [createTools] but those of the kubernetes, updater
    and task-engine plugins, and its own transfer of the leadership. *)
Theorem plugin_tools_exact {T} (allTools : jsmap T) transfer k : jm_wf allTools ->
  jm_get (plugin_tools allTools transfer) k =
    if String.eqb k "transfer_leadership" then Some transfer
    else if bool_decide (k ∈ excludeTools) then None else jm_get allTools k.
Proof.
  intros Hwf. unfold plugin_tools. destruct (String.eqb_spec k "transfer_leadership") as [->|Hne].
  - by rewrite jm_get_set_eq.
  - rewrite jm_get_set_ne by done. rewrite jm_get_selected by done. cbn [jm_get].
    by destruct (jm_get allTools k), (bool_decide _).
Qed.
