(* ===== verification/MessagingPlugin.v ===== *)
(** * The messaging plugin (src/src/plugins/messaging/index.ts, messaging/channels,
      mcp/messaging-tools.ts)

    The plugin joins a channel adapter, the conversations, the gateway and the tools of
    the inbox.  The bot of a channel is behind [ChannelApi]: sending a text and showing
    that one types, each of which may throw.  The Telegram and Discord adapters are what
    they keep: whether they are connected, the commands and the handlers.  A text has
    one unit per character, as in JsString.v. *)

From S2P Require Import Prelude JsMap JsString Json Chunker Markdown Conversation Messaging Inbox.
From Stdlib Require Import Ascii.

(** [`${v}`]. *)
Fixpoint js_text (j : json) : string :=
  match j with
  | JNull => "null"
  | JBool b => if b then "true" else "false"
  | JNum z => js_toString z
  | JStr s => s
  | JArr l => join_comma (map (fun x => match x with JNull => "" | _ => js_text x end) l)
  | JObj _ => "[object Object]"
  end.

(** [Object.entries(v)] of a value that is not a string. *)
Definition entries (j : json) : list (string * json) :=
  match j with
  | JObj l => l
  | JArr l => imap (fun i x => (js_toString (Z.of_nat i), x)) l
  | _ => []
  end.

(** ** The text of a tool's result *)

(** [typeof v === 'object'], null included. *)
Definition is_object (j : json) : bool := match j with JNull | JArr _ | JObj _ => true | _ => false end.
Definition flat_parts (item : json) : string :=
  String.concat ", " ((fun kv : string * json => kv.1 +:+ ": " +:+ js_text kv.2) <$>
                        keep (fun kv : string * json => negb (is_object kv.2)) (entries item)).
Definition format_item (indent : string) (item : json) : string :=
  match item with
  | JArr _ | JObj _ => indent +:+ "  - " +:+ flat_parts item
  | _ => indent +:+ "  - " +:+ js_text item
  end.

Definition starred (indent key : string) : string := indent +:+ "**" +:+ key +:+ ":**".

Fixpoint formatValue (indent key : string) (value : json) : list string :=
  match value with
  | JNull => []
  | JArr [] => [starred indent key +:+ " (none)"]
  | JArr l => starred indent key :: (format_item indent <$> l)
  | JObj l => starred indent key :: concat (map (fun kv : string * json => formatValue (indent +:+ "  ") kv.1 kv.2) l)
  | _ => [starred indent key +:+ " " +:+ js_text value]
  end.

Definition lines_or_ok (lines : list string) : string :=
  match lines with [] => "OK" | _ => String.concat newline lines end.

Definition formatToolResult (result : option json) : string :=
  match result with
  | None | Some JNull => "No data returned."
  | Some (JStr s) => s
  | Some obj =>
      let error := match obj with JObj l => jm_get l "error" | _ => None end in
      let lines := lines_or_ok (concat ((fun kv : string * json => formatValue "" kv.1 kv.2) <$> entries obj)) in
      match error with
      | Some e => if truthy_json e then "Error: " +:+ js_text e else lines
      | None => lines
      end
  end.

(** ** Channels *)

Class ChannelApi (W : Type) := {
  api_send : string -> string -> bool -> option Z -> W -> W * option string;   (* chat, text, as HTML, reply to; the error *)
  api_typing : string -> W -> W * option string
}.

Record MediaFile := mkMediaFile {
  mf_type : string;
  mf_fileId : string;
  mf_fileName : option string;
  mf_mimeType : option string;
  mf_fileSize : option Z
}.
Record ChannelMessage := mkChannelMessage {
  cm_channelType : string;
  cm_channelId : string;
  cm_userId : string;
  cm_username : string;
  cm_content : string;
  cm_timestamp : Z;
  cm_replyTo : option string;
  cm_media : option (list MediaFile)
}.

(** What Telegram delivers, as far as it is read. *)
Record TelegramUser := mkTelegramUser { tu_id : Z; tu_username : option string; tu_first_name : option string }.
Record TelegramMessage := mkTelegramMessage {
  tm_chat : Z;
  tm_from : option TelegramUser;
  tm_text : option string;
  tm_caption : option string;
  tm_date : Z;
  tm_reply_to : option Z
}.
(** The file of a message; of a photo, the sizes in ascending order. *)
Inductive TelegramMedia :=
  | media_photo (sizes : list (string * option Z))
  | media_file (type fileId : string) (fileName mimeType : option string) (fileSize : option Z).

Definition buildChannelMessage (m : TelegramMessage) : ChannelMessage :=
  mkChannelMessage "telegram" (js_toString (tm_chat m))
    (match tm_from m with Some u => js_toString (tu_id u) | None => "unknown" end)
    (match tm_from m with
     | Some u => match tu_username u with Some n => n | None => default "unknown" (tu_first_name u) end
     | None => "unknown"
     end)
    (match tm_text m with Some t => t | None => default "" (tm_caption m) end)
    (tm_date m * 1000) (js_toString <$> tm_reply_to m) None.

(** The message that the handlers get.  [media] is none for a text. *)
Definition media_of (m : TelegramMedia) : option MediaFile :=
  match m with
  | media_photo sizes => s ← last sizes; Some (mkMediaFile "photo" s.1 None None s.2)
  | media_file type fileId fileName mimeType fileSize => Some (mkMediaFile type fileId fileName mimeType fileSize)
  end.
Definition delivered (m : TelegramMessage) (media : option TelegramMedia) : option ChannelMessage :=
  match media with
  | None => if js_startsWith (default "" (tm_text m)) "/" then None else Some (buildChannelMessage m)
  | Some f =>
      let c := buildChannelMessage m in
      Some (mkChannelMessage (cm_channelType c) (cm_channelId c) (cm_userId c) (cm_username c) (cm_content c)
              (cm_timestamp c) (cm_replyTo c) ((fun x => [x]) <$> media_of f))
  end.

(** What Discord delivers: nothing for a message of a bot. *)
Record DiscordMessage := mkDiscordMessage {
  dm_bot : bool;
  dm_channelId : string;
  dm_authorId : string;
  dm_username : string;
  dm_content : string;
  dm_createdAt : Z;
  dm_reference : option string
}.
Definition discord_delivered (m : DiscordMessage) : option ChannelMessage :=
  if dm_bot m then None
  else Some (mkChannelMessage "discord" (dm_channelId m) (dm_authorId m) (dm_username m) (dm_content m) (dm_createdAt m)
               (dm_reference m) None).

Section plugin.
Context {W : Type} `{!ChannelApi W}.
Implicit Types (w : W).

(** Programs over the world that may throw. *)
Definition Io (A : Type) : Type := W -> W * (string + A).
Definition io_ret {A} (a : A) : Io A := fun w => (w, inr a).
Definition io_throw {A} (e : string) : Io A := fun w => (w, inl e).
Definition io_bind {A B} (x : Io A) (f : A -> Io B) : Io B := fun w =>
  match x w with (w, inl e) => (w, inl e) | (w, inr a) => f a w end.
Definition io_catch {A} (x : Io A) (h : string -> Io A) : Io A := fun w =>
  match x w with (w, inl e) => h e w | r => r end.
Definition io_call (f : W -> W * option string) : Io unit := fun w =>
  match f w with (w, None) => (w, inr tt) | (w, Some e) => (w, inl e) end.

Definition reply_id (replyTo : option string) : option Z :=
  t ← replyTo; if truthy_str t then parseInt t else None.
Definition entity_error (e : string) : bool := js_includes (js_toLowerCase e) "parse entities".

(** [TelegramAdapter.sendMessage]: as HTML, and again as it is when it cannot be parsed. *)
Definition sendMessage (channelId content : string) (replyTo : option string) : Io unit :=
  io_catch (io_call (api_send channelId content true (reply_id replyTo)))
    (fun e => if entity_error e then io_call (api_send channelId content false (reply_id replyTo)) else io_throw e).

Definition sendTyping (channelId : string) : Io unit := io_call (api_typing channelId).

(** ** Replies *)

Definition chars (s : string) : Chunker.text := (fun c => Z.of_nat (nat_of_ascii c)) <$> String.list_ascii_of_string s.
Definition of_chars (l : Chunker.text) : string := String.string_of_list_ascii ((fun z => ascii_of_nat (Z.to_nat z)) <$> l).

Definition reply_chunks (text : string) (maxLength : Z) : list string :=
  of_chars <$> default [] (Chunker.smartChunk (chars (markdownToTelegramHtml text)) maxLength).

Fixpoint send_all (channelId : string) (chunks : list string) : Io unit :=
  match chunks with
  | [] => io_ret tt
  | c :: chunks => io_bind (sendMessage channelId c None) (fun _ => send_all channelId chunks)
  end.
Definition sendReply (channelId text : string) : Io unit := send_all channelId (reply_chunks text 4096).

(** ** Commands *)

Definition COMMANDS : list (string * string) :=
  [("status", "Cluster status overview"); ("health", "Detailed health report"); ("nodes", "List cluster nodes");
   ("tasks", "List running tasks"); ("sessions", "Active Claude sessions"); ("new", "Clear conversation history");
   ("help", "List available commands"); ("squelch", "Suppress alerts (minutes)"); ("whereami", "Show timeline state")].
Definition COMMAND_TOOL_MAP : list (string * string) :=
  [("status", "cluster_status"); ("health", "cluster_health"); ("nodes", "list_nodes"); ("tasks", "list_tasks");
   ("sessions", "list_sessions"); ("squelch", "squelch_alerts"); ("whereami", "memory_whereami")].

Definition call_tool (tool : ToolHandler W) (args : json) : Io (option json) := th_handler tool args.

Definition tool_command (allTools : jsmap (ToolHandler W)) (command toolName chatId : string) : Io unit :=
  match jm_get allTools toolName with
  | None => sendReply chatId ("Tool `" +:+ toolName +:+ "` not available.")
  | Some tool =>
      io_catch
        (io_bind (sendTyping chatId) (fun _ =>
         io_bind (call_tool tool (JObj [])) (fun result => sendReply chatId (formatToolResult result))))
        (fun _ => sendReply chatId ("/" +:+ command +:+ " failed. Please try again later."))
  end.

Definition squelch_usage : string := "Usage: /squelch [minutes] (default: 30, 0 to clear)".
Definition squelch_command (allTools : jsmap (ToolHandler W)) (chatId args : string) : Io unit :=
  match jm_get allTools "squelch_alerts" with
  | None => sendReply chatId "Squelch tool not available."
  | Some tool =>
      io_catch
        (match (if truthy_str args then parseInt args else Some 30) with
         | None => sendReply chatId squelch_usage
         | Some minutes =>
             if minutes <? 0 then sendReply chatId squelch_usage
             else
               io_bind (sendTyping chatId) (fun _ =>
               io_bind (call_tool tool (JObj [("minutes", JNum minutes)])) (fun _ =>
               sendReply chatId (if minutes =? 0 then "Alerts re-enabled."
                                 else "Alerts squelched for " +:+ js_toString minutes +:+ " minutes.")))
         end)
        (fun _ => sendReply chatId "/squelch failed. Please try again later.")
  end.

Definition help_text : string :=
  "**Available commands:**" +:+ newline +:+ newline +:+
  String.concat newline ((fun c => "/" +:+ c.1 +:+ " — " +:+ c.2) <$> COMMANDS).

(** The handlers that [registerCommands] sets, by the command's name. *)
Definition run_command {St} `{!HistoryStore St} (allTools : jsmap (ToolHandler W)) (command chatId args : string)
    (st : St) w : St * (W * (string + unit)) :=
  if String.eqb command "squelch" then (st, squelch_command allTools chatId args w)
  else if String.eqb command "new" then (clearHistory chatId st, sendReply chatId "Conversation cleared." w)
  else if String.eqb command "help" then (st, sendReply chatId help_text w)
  else match jm_get COMMAND_TOOL_MAP command with
       | Some toolName => (st, tool_command allTools command toolName chatId w)
       | None => (st, (w, inr tt))
       end.

(** ** Messages *)

(** The gateway's [onMessage]: the answer of the conversation, or an apology whose own
    failure is ignored. *)
Definition onMessage {St} `{!HistoryStore St} (c : ConversationHandler W) (m : ChannelMessage) (st : St) w : St * W :=
  let sorry w := fst (sendMessage (cm_channelId m) "Sorry, I encountered an error processing your message." None w) in
  match handleMessage c (cm_channelId m) (cm_content m) w st with
  | (w, st, inl _) => (st, sorry w)
  | (w, st, inr reply) =>
      match sendReply (cm_channelId m) reply w with
      | (w, inr _) => (st, w)
      | (w, inl _) => (st, sorry w)
      end
  end.

(** ** Starting *)

Record MessagingConfig := mkMessagingConfig {
  mc_enabled : bool;
  mc_token : string;            (* of the configuration, or else of the environment *)
  mc_alertChatId : string;
  mc_agent : option string;
  mc_provider : bool            (* whether the context has one *)
}.
Record MessagingPlugin := mkMessagingPlugin {
  mp_adapter : bool;                          (* the Telegram adapter exists *)
  mp_notify : option string;                  (* the chat of messaging_notify *)
  mp_gateway : option MessagingGateway
}.

Definition plugin_start (config : MessagingConfig) (isLeader : bool) : MessagingPlugin :=
  if negb (mc_enabled config) || negb (truthy_str (mc_token config)) then mkMessagingPlugin false None None
  else
    let notify := if truthy_str (mc_alertChatId config) then Some (mc_alertChatId config) else None in
    if negb (mc_provider config) then mkMessagingPlugin true notify None
    else
      let g := new_MessagingGateway (default "Cipher" (mc_agent config)) ["telegram"] in
      mkMessagingPlugin true notify (Some (if isLeader then activate g else g)).

(** [adapter.isConnected()]: only the gateway connects it. *)
Definition adapter_connected (p : MessagingPlugin) : bool :=
  match mp_gateway p with Some g => default false (jm_get (channels g) "telegram") | None => false end.

(** The tool messaging_notify, when there is one. *)
Definition messaging_notify (p : MessagingPlugin) (message : string) : option (Io (bool * option string)) :=
  (fun chat =>
     if negb (adapter_connected p) then io_ret (false, Some "Telegram not connected")
     else io_bind (sendMessage chat message None) (fun _ => io_ret (true, None))) <$> mp_notify p.

Definition plugin_stop (p : MessagingPlugin) : option MessagingGateway := gateway_stop <$> mp_gateway p.

End plugin.

(** ** The tools of the inbox (mcp/messaging-tools.ts) *)

Definition messaging_send (now : Z) (random : string) (input : WriteMessageInput) (b : Inbox) : Inbox * string :=
  writeMessage now random input b.

(** [new Date(timestamp)] of a message is its time. *)
Definition messaging_check (now : Z) (staleThresholdMinutes : option Z) (b : Inbox) : list (InboxMessage * bool) :=
  let threshold := default 30 staleThresholdMinutes in
  (fun m => (m, threshold * 60 * 1000 <? now - timestamp m)) <$> getNewMessages b.

Definition messaging_list (b : Inbox) : list string * Z := (listMessages b, js_length (listMessages b)).
Definition messaging_get (messageId : string) (b : Inbox) : ReadError + InboxMessage := readMessage messageId b.
Definition messaging_gateway_status : string * list string * option string := ("not_initialized", [], None).

(** ** Theorems *)

(** A notification needs more than its channel: without a model provider the plugin
    makes no gateway, nothing ever connects the bot, and the tool answers that
    Telegram is not connected, whatever happens to the leadership. *)
Theorem notify_needs_provider {W} `{!ChannelApi W} config isLeader message (w : W) :
  mc_enabled config = true -> truthy_str (mc_token config) = true -> truthy_str (mc_alertChatId config) = true ->
  mc_provider config = false ->
  exists notify, messaging_notify (plugin_start config isLeader) message = Some notify /\
    notify w = (w, inr (false, Some "Telegram not connected")).
Proof.
  intros He Ht Hc Hp. unfold plugin_start. rewrite He, Ht, Hc, Hp. cbn. by eexists.
Qed.

(** A world to try the plugin in: the texts that were delivered, for a bot that takes
    the texts Telegram takes, of one to 4096 characters. *)
#[local] Instance lab_api : ChannelApi (list string) := {|
  api_send chat text html reply w :=
    if truthy_str text && (js_str_length text <=? 4096) then (w ++ [text], None)
    else (w, Some "Bad Request: message text is empty");
  api_typing chat w := (w, None)
|}.

Lemma notify_needs_provider_witness :
  let config := mkMessagingConfig true "t" "c" None false in
  exists notify, messaging_notify (plugin_start config true) "down" = Some notify /\
    notify [] = ([] : list string, inr (false, Some "Telegram not connected")).
Proof. exact (notify_needs_provider (mkMessagingConfig true "t" "c" None false) true "down" [] eq_refl eq_refl eq_refl eq_refl). Defined.

(** The text of a result is empty only when the result is the empty text. *)
Lemma concat_nonempty sep x (l : list string) : x <> "" -> String.concat sep (x :: l) <> "".
Proof.
  intros Hx. cbn [String.concat]. destruct l; [done|]. destruct x; [done|]. by rewrite str_app_cons.
Qed.
Lemma starred_nonempty indent key : starred indent key <> "".
Proof. unfold starred. destruct indent; by rewrite ?str_app_cons, ?str_app_nil. Qed.
Lemma app_nonempty a b : a <> "" -> a +:+ b <> "".
Proof. destruct a; [done|]. by rewrite str_app_cons. Qed.
Lemma format_item_nonempty indent item : format_item indent item <> "".
Proof.
  assert (H : forall s, indent +:+ "  - " +:+ s <> "") by (intros s; destruct indent; by rewrite ?str_app_cons, ?str_app_nil).
  unfold format_item. destruct item; apply H.
Qed.

Lemma formatValue_nonempty value : forall indent key, Forall (fun s => s <> "") (formatValue indent key value).
Proof.
  induction value as [| | | |l IH|l IH] using json_rect_nested; intros indent key; cbn [formatValue];
    try (repeat constructor; apply app_nonempty, starred_nonempty).
  - destruct l as [|x l']; [repeat constructor; apply app_nonempty, starred_nonempty|].
    constructor; [apply starred_nonempty|]. apply Forall_fmap, Forall_true. intros i. apply format_item_nonempty.
  - constructor; [apply starred_nonempty|]. induction IH as [|[k v] l' Hv _ IHl]; [constructor|].
    cbn [map concat]. apply Forall_app. split; [apply Hv|apply IHl].
Qed.

(** A command whose tool answers is answered by a text: what is shown of a result is
    empty only for the empty text. *)
Theorem result_is_shown result : formatToolResult result = "" <-> result = Some (JStr "").
Proof.
  split; [|by intros ->].
  assert (Hl : forall l, Forall (fun s => s <> "") l ->
    lines_or_ok l <> "").
  { intros l Hl. unfold lines_or_ok. destruct Hl as [|x l Hx Hl]; [done|by apply concat_nonempty]. }
  assert (He : forall obj, Forall (fun s => s <> "") (concat ((fun kv : string * json => formatValue "" kv.1 kv.2) <$> entries obj))).
  { intros obj. induction (entries obj) as [|[k v] es IH]; [constructor|]. cbn. apply Forall_app.
    split; [apply formatValue_nonempty|exact IH]. }
  destruct result as [[|b|z|s|l|l]|]; try done.
  - cbn. by intros ->.
  - intros H. destruct (Hl _ (He (JArr l)) H).
  - unfold formatToolResult. destruct (jm_get l "error") as [e|]; [destruct (truthy_json e); [done|]|];
      intros H; destruct (Hl _ (He (JObj l)) H).
Qed.

(** Two blank lines in a long answer: the middle one of the three pieces is empty,
    Telegram refuses it, and what follows is never sent. *)
Definition long_part : string := String.concat " " (repeat "word" 400).
Example blank_lines_cut_the_answer :
  reply_chunks (str [long_part; newline; newline; newline; newline; long_part]) 4096 = [long_part; ""; long_part] /\
  sendReply "chat" (str [long_part; newline; newline; newline; newline; long_part]) [] =
    ([long_part], inl "Bad Request: message text is empty").
Proof. by vm_compute. Qed.

(** A cut falls inside a tag: neither piece is text that Telegram can parse. *)
Example cut_divides_markup :
  reply_chunks (str ["see **"; "0123456789"; "** now"]) 20 = ["see <b>0123456789</b"; "> now"].
Proof. by vm_compute. Qed.
