(* ===== verification/McpServer.v ===== *)
(** * The MCP server and the updater's tool (src/src/mcp/server.ts, plugins/updater)

    [ClusterMcpServer] keeps the two maps it was given and answers the requests of the
    protocol from them; the transport is the SDK's.  The maps are shared: an entry that
    [updateToolsAndResources] adds is seen by the next request.  A tool acts on a world
    [W] and may throw, as in Conversation.v; a resource reads it. *)

From S2P Require Import Prelude JsMap JsString Json Conversation.
From S2P Require Updater.

(** [JSON.stringify(value, null, 2)], at a depth of [n] spaces. *)
Definition spaces (n : nat) : string := str (repeat " " n).
Definition pretty_block (opening closing : string) (n : nat) (lines : list string) : string :=
  match lines with
  | [] => opening +:+ closing
  | _ => opening +:+ newline +:+ String.concat ("," +:+ newline) ((fun l => spaces (n + 2) +:+ l) <$> lines)
         +:+ newline +:+ spaces n +:+ closing
  end.
Fixpoint pretty (n : nat) (j : json) : string :=
  match j with
  | JArr l => pretty_block "[" "]" n (map (pretty (n + 2)) l)
  | JObj l => pretty_block "{" "}" n (map (fun kv : string * json => quote kv.1 +:+ ": " +:+ pretty (n + 2) kv.2) l)
  | _ => stringify j
  end.

Section server.
Context {W : Type}.

Record ResourceHandler := mkResourceHandler {
  rh_uri : string;
  rh_name : string;
  rh_description : string;
  rh_mimeType : string;
  rh_handler : W -> W * (string + option json)
}.

Record ClusterMcpServer := mkClusterMcpServer { tools : jsmap (ToolHandler W); resources : jsmap ResourceHandler }.
Implicit Types (s : ClusterMcpServer) (w : W).

Record ToolEntry := mkToolEntry { te_name : string; te_description : string; te_inputSchema : json }.
Definition ListTools s : list ToolEntry :=
  (fun kv => mkToolEntry kv.1 (th_description kv.2) (th_inputSchema kv.2)) <$> tools s.

(** The text is none for a tool that answers [undefined]. *)
Record ToolAnswer := mkToolAnswer { ta_text : option string; ta_isError : bool }.

(** The arguments default to the empty object. *)
Definition CallTool (name : string) (args : option json) s w : W * ToolAnswer :=
  match jm_get (tools s) name with
  | None => (w, mkToolAnswer (Some ("Unknown tool: " +:+ name)) true)
  | Some handler =>
      match th_handler handler (default (JObj []) args) w with
      | (w, inr result) => (w, mkToolAnswer (pretty 0 <$> result) false)
      | (w, inl message) => (w, mkToolAnswer (Some ("Error: " +:+ message)) true)
      end
  end.

Record ResourceEntry := mkResourceEntry {
  re_uri : string; re_name : string; re_description : string; re_mimeType : string }.
Definition ListResources s : list ResourceEntry :=
  (fun kv => mkResourceEntry (rh_uri kv.2) (rh_name kv.2) (rh_description kv.2) (rh_mimeType kv.2)) <$> resources s.

Record ResourceAnswer := mkResourceAnswer { ra_uri : string; ra_mimeType : string; ra_text : option string }.
(** An exception of the handler is the request's. *)
Definition ReadResource (uri : string) s w : W * (string + ResourceAnswer) :=
  match jm_get (resources s) uri with
  | None => (w, inr (mkResourceAnswer uri "text/plain" (Some ("Unknown resource: " +:+ uri))))
  | Some handler =>
      match rh_handler handler w with
      | (w, inr content) => (w, inr (mkResourceAnswer uri (rh_mimeType handler) (pretty 0 <$> content)))
      | (w, inl e) => (w, inl e)
      end
  end.

Definition set_entries {A} (m extra : jsmap A) : jsmap A := foldl (fun m kv => jm_set m kv.1 kv.2) m extra.
Definition updateToolsAndResources (t : jsmap (ToolHandler W)) (r : jsmap ResourceHandler) s : ClusterMcpServer :=
  mkClusterMcpServer (set_entries (tools s) t) (set_entries (resources s) r).

(** ** Theorems *)

Lemma set_entries_get {A} (m extra : jsmap A) k : jm_wf extra ->
  jm_get (set_entries m extra) k = match jm_get extra k with Some v => Some v | None => jm_get m k end.
Proof.
  unfold set_entries, jm_wf, jm_keys. revert m. induction extra as [|[k0 v0] extra IH]; intros m; [done|].
  rewrite fmap_cons. intros [Hk Hw]%NoDup_cons. cbn [fst] in Hk. cbn [foldl fst snd jm_get]. rewrite IH by done. rewrite jm_get_set.
  destruct (String.eqb_spec k0 k) as [->|Hne].
  - rewrite decide_True by done. by rewrite (proj2 (jm_get_None_keys extra k) Hk).
  - by rewrite decide_False.
Qed.

(** A tool that is listed can be called, and one that is not answers an error; a tool
    that throws ends in an answer, never in an exception of the server; and after
    [updateToolsAndResources] a new tool is called instead of an old one of its name. *)
Theorem CallTool_listed name args t r s w : jm_wf t ->
  (name ∈ te_name <$> ListTools s <-> is_Some (jm_get (tools s) name)) /\
  (jm_get (tools s) name = None -> CallTool name args s w = (w, mkToolAnswer (Some ("Unknown tool: " +:+ name)) true)) /\
  (forall h w' e, jm_get (tools s) name = Some h -> th_handler h (default (JObj []) args) w = (w', inl e) ->
     CallTool name args s w = (w', mkToolAnswer (Some ("Error: " +:+ e)) true)) /\
  CallTool name args (updateToolsAndResources t r s) w =
    match jm_get t name with
    | Some h => CallTool name args (mkClusterMcpServer t (resources s)) w
    | None => CallTool name args s w
    end.
Proof.
  intros Hwf. unfold CallTool, ListTools. split_and!.
  - rewrite <- list_fmap_compose. rewrite <- not_eq_None_Some, jm_get_None_keys. unfold jm_keys.
    change ((te_name ∘ _) <$> tools s) with (fst <$> tools s). split; [intros H H'; exact (H' H)|apply dec_stable].
  - by intros ->.
  - intros h w' e -> Hh. by rewrite Hh.
  - cbn [updateToolsAndResources tools]. rewrite set_entries_get by done.
    by destruct (jm_get t name) as [h|] eqn:E.
Qed.

End server.
Arguments ResourceHandler : clear implicits.
Arguments ClusterMcpServer : clear implicits.

Lemma CallTool_listed_witness :
  let h := mkToolHandler "d" JNull (fun _ (w : nat) => (S w, inr (Some (JArr [JNum 1; JObj []])))) in
  CallTool "t" None (updateToolsAndResources [("t", h)] [] (mkClusterMcpServer (W := nat) [] [])) 0%nat =
    (1%nat, mkToolAnswer (Some (str ["["; newline; "  1,"; newline; "  {}"; newline; "]"])) false).
Proof.
  cbn zeta.
  rewrite (proj2 (proj2 (proj2 (CallTool_listed "t" None
    [("t", mkToolHandler "d" JNull (fun _ (w : nat) => (S w, inr (Some (JArr [JNum 1; JObj []])))))] []
    (mkClusterMcpServer (W := nat) [] []) 0%nat ltac:(by apply (jm_wf_set [] "t"), jm_wf_nil))))).
  by vm_compute.
Defined.

(** ** The tool of the updater plugin *)

Module UpdaterTool.
Import Updater.
Section updater_tool.
Context {D W : Type} `{!UpdaterEnv D W} (config : UpdaterConfig).

Inductive UpdateAnswer :=
  | refused_preflight (pf : PreflightResult)
  | checked (pf : PreflightResult)
  | updated (r : UpdateResult).

(** The handler of [initiate_rolling_update]: the checks, and then either their result
    or the update, which makes the checks again. *)
Definition initiate_rolling_update (dryRun : bool) : Eff (W := W) UpdateAnswer :=
  bind (preflight config) (fun pf =>
  if negb (ok pf) then ret (refused_preflight pf)
  else if dryRun then ret (checked pf)
  else bind (execute_update config false) (fun r => ret (updated r))).

(** A dry run and a refused update touch nothing: the world is the one before, no step
    is reported, and the answer is what the checks say; otherwise the tool is the
    updater's [execute]. *)
Theorem initiate_rolling_update_spec dryRun s :
  initiate_rolling_update dryRun s =
    let pf := preflight_at config (world s) in
    if negb (ok pf) then (s, inr (refused_preflight pf))
    else if dryRun then (s, inr (checked pf))
    else match execute_update config false s with
         | (s', inr r) => (s', inr (updated r))
         | (s', inl e) => (s', inl e)
         end.
Proof.
  destruct s as [w ps]. unfold initiate_rolling_update, bind, preflight, look, lift. cbn -[execute_update preflight_at].
  destruct (ok (preflight_at config w)); cbn -[execute_update]; [|done]. destruct dryRun; [done|]. unfold ret. by destruct (execute_update config false (mkState w ps)) as [s' [e|r]].
Qed.
End updater_tool.
End UpdaterTool.
