(* ===== verification/ProviderClients.v ===== *)
(** * The model providers (src/src/providers/anthropic.ts, openai.ts, ollama.ts)

    Each provider turns the program's messages into the requests of a service and the
    service's answer into a [ChatResponse].  The service is an interface: the SDK's
    client for Anthropic and OpenAI, [fetch] for Ollama.  [anthropic], [openai] and
    [ollama] are the providers as records of Providers.v, so that the router and the
    conversations run over them. *)

From S2P Require Import Prelude JsMap JsString Json Providers Conversation.
From Stdlib Require Import QArith Ascii.
#[local] Open Scope Z_scope.

(** ** Anthropic *)

Record AnthropicTool := mkAnthropicTool { at_name : string; at_description : string; at_input_schema : json }.
Record AnthropicRequest := mkAnthropicRequest {
  ar_model : string;
  ar_max_tokens : Z;
  ar_system : option string;
  ar_messages : list ChatMessage;        (* the blocks are the SDK's, passed on as they are *)
  ar_tools : option (list AnthropicTool)
}.
(** A block of the answer: of the ones read, or another. *)
Inductive AnthropicBlock :=
  | ab_text (text : string)
  | ab_tool_use (id name : string) (input : json)
  | ab_other (type : string).
Record AnthropicResponse := mkAnthropicResponse {
  an_content : list AnthropicBlock;
  an_model : string;
  an_input_tokens : Z;
  an_output_tokens : Z;
  an_stop_reason : option string
}.
(** An event of a stream: the text of a text delta, or anything else. *)
Inductive AnthropicEvent := text_delta (text : string) | other_event.

Class AnthropicApi (W : Type) := {
  messages_create : AnthropicRequest -> W -> W * (string + AnthropicResponse);
  messages_stream : AnthropicRequest -> W -> W * (list AnthropicEvent * option string)
}.

Definition is_system (m : ChatMessage) : bool := bool_decide (cm_role m = system).

Definition system_prompt (messages : list ChatMessage) (options : ChatOptions) : option string :=
  match co_systemPrompt options with
  | Some p => Some p
  | None => match List.find is_system messages with
            | Some m => match cm_content m with plain t => Some t | blocks _ => None end
            | None => None
            end
  end.

Definition anthropic_request (defaultModel : string) (tools : option (list AnthropicTool))
    (messages : list ChatMessage) (options : ChatOptions) : AnthropicRequest :=
  mkAnthropicRequest (default defaultModel (co_model options)) (default 4096 (co_maxTokens options))
    (system_prompt messages options) (keep (fun m => negb (is_system m)) messages) tools.

Definition sdk_tools (options : ChatOptions) : option (list AnthropicTool) :=
  match co_tools options with
  | None | Some [] => None
  | Some l => Some ((fun t => mkAnthropicTool (td_name t) (td_description t) (td_inputSchema t)) <$> l)
  end.

Definition block_text (b : AnthropicBlock) : option string := match b with ab_text t => Some t | _ => None end.
Definition block_call (b : AnthropicBlock) : option ToolCall :=
  match b with ab_tool_use id n i => Some (mkToolCall id n i) | _ => None end.
Definition anthropic_response (r : AnthropicResponse) : ChatResponse :=
  mkChatResponse (str (omap block_text (an_content r))) (an_model r) (mkTokenUsage (an_input_tokens r) (an_output_tokens r))
    (an_stop_reason r) (omap block_call (an_content r)).

Definition no_anthropic_key : string := "Anthropic API key not configured".
Definition anthropic_models : list string := ["claude-opus-4-6"; "claude-sonnet-4-6"; "claude-haiku-4-5"].

Definition delta_chunk (e : AnthropicEvent) : option StreamChunk :=
  match e with text_delta t => Some (mkStreamChunk t false) | other_event => None end.
(** The chunks of a stream, and the last one when it does not fail. *)
Definition ended (chunks : list StreamChunk) (error : option string) : list StreamChunk * option string :=
  match error with
  | Some e => (chunks, Some e)
  | None => (chunks ++ [mkStreamChunk "" true], None)
  end.

(** [apiKey] is the configured key or the one of the environment. *)
Definition anthropic {W} `{!AnthropicApi W} (apiKey model : option string) : LLMProvider W :=
  let key := match apiKey with Some k => truthy_str k | None => false end in
  let defaultModel := default "claude-sonnet-4-6" model in
  mkLLMProvider "anthropic"
    (fun messages options w =>
       if negb key then (w, inl no_anthropic_key) else
       match messages_create (anthropic_request defaultModel (sdk_tools options) messages options) w with
       | (w, inl e) => (w, inl e)
       | (w, inr r) => (w, inr (anthropic_response r))
       end)
    (fun messages options w =>
       if negb key then (w, ([], Some no_anthropic_key)) else
       let '(w, (events, error)) := messages_stream (anthropic_request defaultModel None messages options) w in
       (w, ended (omap delta_chunk events) error))
    (fun w => (w, inr anthropic_models))
    (fun w => (w, inr key)).

(** ** OpenAI *)

(** The text of a message; a block that is not text has none. *)
Definition text_of_block (b : ContentBlock) : option string := match b with text_block t => Some t | _ => None end.
Definition contentToString (c : Content) : string :=
  match c with plain t => t | blocks l => str (omap text_of_block l) end.

Definition role_text (r : Role) : string := match r with user => "user" | assistant => "assistant" | system => "system" end.

Record OpenAIRequest := mkOpenAIRequest {
  or_model : string;
  or_max_tokens : Z;
  or_temperature : option Q;
  or_messages : list (string * string)      (* role and content *)
}.
Record OpenAIResponse := mkOpenAIResponse {
  op_choices : list (option string * option string);     (* message.content and finish_reason *)
  op_model : string;
  op_usage : option (Z * Z)
}.
Class OpenAIApi (W : Type) := {
  completions_create : OpenAIRequest -> W -> W * (string + OpenAIResponse);
  completions_stream : OpenAIRequest -> W -> W * ((string + list (option string)) * option string);  (* deltas *)
  models_list : W -> W * (string + list string)
}.

Definition openai_request (defaultModel : string) (temperature : option Q) (messages : list ChatMessage)
    (options : ChatOptions) : OpenAIRequest :=
  mkOpenAIRequest (default defaultModel (co_model options)) (default 4096 (co_maxTokens options)) temperature
    ((fun m => (role_text (cm_role m), contentToString (cm_content m))) <$> messages).

Definition openai_response (r : OpenAIResponse) : ChatResponse :=
  let choice := head (op_choices r) in
  mkChatResponse (default "" (c ← choice; c.1)) (op_model r)
    (mkTokenUsage (match op_usage r with Some u => u.1 | None => 0 end) (match op_usage r with Some u => u.2 | None => 0 end))
    (c ← choice; c.2) [].

Definition no_openai_key : string := "OpenAI API key not configured".
Definition openai_chunk (delta : option string) : option StreamChunk :=
  match delta with Some t => if truthy_str t then Some (mkStreamChunk t false) else None | None => None end.

Definition openai {W} `{!OpenAIApi W} (apiKey model : option string) : LLMProvider W :=
  let key := match apiKey with Some k => truthy_str k | None => false end in
  let defaultModel := default "gpt-4o" model in
  mkLLMProvider "openai"
    (fun messages options w =>
       if negb key then (w, inl no_openai_key) else
       match completions_create (openai_request defaultModel (co_temperature options) messages options) w with
       | (w, inl e) => (w, inl e)
       | (w, inr r) => (w, inr (openai_response r))
       end)
    (fun messages options w =>
       if negb key then (w, ([], Some no_openai_key)) else
       match completions_stream (openai_request defaultModel None messages options) w with
       | (w, (inl e, _)) => (w, ([], Some e))
       | (w, (inr deltas, error)) => (w, ended (omap openai_chunk deltas) error)
       end)
    (fun w => if negb key then (w, inr []) else models_list w)
    (fun w => (w, inr key)).

(** ** Ollama *)

Record OllamaToolCall := mkOllamaToolCall { oc_name : string; oc_arguments : json }.
Record OllamaMessage := mkOllamaMessage {
  om_role : string;
  om_content : string;
  om_tool_calls : option (list OllamaToolCall)
}.
Record OllamaTool := mkOllamaTool { ot_name : string; ot_description : string; ot_parameters : json }.
Record OllamaRequest := mkOllamaRequest {
  ol_model : string;
  ol_messages : list OllamaMessage;
  ol_stream : bool;
  ol_tools : option (list OllamaTool)
}.

Definition convertTools (tools : list ToolDefinition) : list OllamaTool :=
  (fun t => mkOllamaTool (td_name t) (td_description t) (td_inputSchema t)) <$> tools.

Definition block_use (b : ContentBlock) : option OllamaToolCall :=
  match b with tool_use _ n i => Some (mkOllamaToolCall n i) | _ => None end.
Definition block_result (b : ContentBlock) : option string :=
  match b with tool_result _ c => Some c | _ => None end.

Definition tool_message (content : string) : OllamaMessage := mkOllamaMessage "tool" content None.

(** The messages that one of ours becomes. *)
Definition convertMessage (hasPrompt : bool) (m : ChatMessage) : list OllamaMessage :=
  if is_system m then
    if hasPrompt then [] else [mkOllamaMessage "system" (contentToString (cm_content m)) None]
  else
    match cm_content m with
    | plain t => [mkOllamaMessage (role_text (cm_role m)) t None]
    | blocks l =>
        let text := str (omap text_of_block l) in
        match omap block_use l, omap block_result l with
        | (_ :: _) as calls, results =>
            if bool_decide (cm_role m = assistant) then [mkOllamaMessage "assistant" text (Some calls)]
            else match results with
                 | [] => [mkOllamaMessage (role_text (cm_role m)) text None]
                 | _ => tool_message <$> results
                 end
        | [], (_ :: _) as results => tool_message <$> results
        | [], [] => [mkOllamaMessage (role_text (cm_role m)) text None]
        end
    end.

Definition given_prompt (systemPrompt : option string) : option string :=
  p ← systemPrompt; if truthy_str p then Some p else None.

Definition convertMessages (messages : list ChatMessage) (systemPrompt : option string) : list OllamaMessage :=
  match given_prompt systemPrompt with
  | Some p => mkOllamaMessage "system" p None :: concat (convertMessage true <$> messages)
  | None => concat (convertMessage false <$> messages)
  end.

Definition ollama_request (defaultModel : string) (stream : bool) (messages : list ChatMessage) (options : ChatOptions) :
    OllamaRequest :=
  mkOllamaRequest (default defaultModel (co_model options)) (convertMessages messages (co_systemPrompt options)) stream
    (if stream then None else
     match co_tools options with
     | Some ((_ :: _) as l) => Some (convertTools l)
     | _ => None
     end).

(** What the service answers: [fetch] rejects, the status is an error, or the body.
    The arguments of a call are an object, or the text of one. *)
Record OllamaReply := mkOllamaReply {
  ry_content : option string;
  ry_tool_calls : list (string * json);
  ry_model : string;
  ry_eval_count : option Z;
  ry_prompt_eval_count : option Z
}.
Inductive Fetched (A : Type) := fetch_rejects (e : string) | fetch_status (status : Z) (statusText : string) | fetch_ok (a : A).
Arguments fetch_rejects {A} _.
Arguments fetch_status {A} _ _.
Arguments fetch_ok {A} _.

(** [ol_read] is the body of a stream: the decoded text of each read. *)
Class OllamaApi (W : Type) := {
  ol_chat : OllamaRequest -> W -> W * Fetched OllamaReply;
  ol_read : OllamaRequest -> W -> W * Fetched (list string);
  ol_tags : W -> W * Fetched (list string);
  ol_uuid : W -> W * string
}.

Definition invalid_json : string := "JSON.parse".      (* the message of the SyntaxError *)

Section ollama.
Context {W : Type} `{!OllamaApi W}.
Implicit Types (w : W).

Definition call_input (arguments : json) : string + json :=
  match arguments with
  | JStr s => match parse s with Some j => inr j | None => inl invalid_json end
  | j => inr j
  end.

Fixpoint read_calls (l : list (string * json)) w : W * (string + list ToolCall) :=
  match l with
  | [] => (w, inr [])
  | (n, arguments) :: l =>
      let '(w, id) := ol_uuid w in
      match call_input arguments with
      | inl e => (w, inl e)
      | inr input =>
          match read_calls l w with
          | (w, inr calls) => (w, inr (mkToolCall id n input :: calls))
          | (w, inl e) => (w, inl e)
          end
      end
  end.

Definition ollama_chat (defaultModel : string) (messages : list ChatMessage) (options : ChatOptions) w :
    W * (string + ChatResponse) :=
  match ol_chat (ollama_request defaultModel false messages options) w with
  | (w, fetch_rejects e) => (w, inl e)
  | (w, fetch_status s t) => (w, inl ("Ollama API error: " +:+ js_toString s +:+ " " +:+ t))
  | (w, fetch_ok r) =>
      match read_calls (ry_tool_calls r) w with
      | (w, inl e) => (w, inl e)
      | (w, inr calls) =>
          (w, inr (mkChatResponse (default "" (ry_content r)) (ry_model r)
             (mkTokenUsage (default 0 (ry_prompt_eval_count r)) (default 0 (ry_eval_count r))) None calls))
      end
  end.

(** One line of a stream: the text of [data.message?.content] when it is not empty, and
    [data.done]. *)
Definition member (k : string) (j : json) : option json := match j with JObj l => JsMap.jm_get l k | _ => None end.
Definition read_line (line : string) : option (option string * bool) :=
  match parse line with
  | None | Some JNull => None
  | Some data =>
      Some (match member "message" data ≫= member "content" with
            | Some (JStr t) => if truthy_str t then Some t else None
            | _ => None
            end,
            match member "done" data with Some d => truthy_json d | None => false end)
  end.

(** The lines of one read: the chunks, and whether the stream is over or failed. *)
Inductive StreamEnd := going_on | finished | broke (e : string).
Fixpoint read_lines (lines : list string) : list StreamChunk * StreamEnd :=
  match lines with
  | [] => ([], going_on)
  | line :: lines =>
      match read_line line with
      | None => ([], broke invalid_json)
      | Some (content, done) =>
          let chunk := match content with Some t => [mkStreamChunk t done] | None => [] end in
          if done then (chunk ++ [mkStreamChunk "" true], finished)
          else let '(chunks, e) := read_lines lines in (chunk ++ chunks, e)
      end
  end.
Definition lines_of (text : string) : list string := keep truthy_str (js_split (ascii_of_nat 10) text).
Fixpoint read_stream (reads : list string) : list StreamChunk * option string :=
  match reads with
  | [] => ([], None)
  | text :: reads =>
      match read_lines (lines_of text) with
      | (chunks, finished) => (chunks, None)
      | (chunks, broke e) => (chunks, Some e)
      | (chunks, going_on) => let '(rest, e) := read_stream reads in (chunks ++ rest, e)
      end
  end.

Definition ollama (model : option string) : LLMProvider W :=
  let defaultModel := default "llama3" model in
  mkLLMProvider "ollama" (ollama_chat defaultModel)
    (fun messages options w =>
       match ol_read (ollama_request defaultModel true messages options) w with
       | (w, fetch_rejects e) => (w, ([], Some e))
       | (w, fetch_status s _) => (w, ([], Some ("Ollama API error: " +:+ js_toString s)))
       | (w, fetch_ok reads) => (w, read_stream reads)
       end)
    (fun w => match ol_tags w with
              | (w, fetch_rejects e) => (w, inl e)
              | (w, fetch_status _ _) => (w, inr [])
              | (w, fetch_ok l) => (w, inr l)
              end)
    (fun w => match ol_tags w with
              | (w, fetch_ok _) => (w, inr true)
              | (w, _) => (w, inr false)
              end).
End ollama.

(** ** Streams of Ollama *)

(** A line of the service, with its newline. *)
Definition delta_json (t : string) : json := JObj [("message", JObj [("content", JStr t)]); ("done", JBool false)].
Definition done_json : json := JObj [("message", JObj [("content", JStr "")]); ("done", JBool true)].
Definition line (j : json) : string := stringify j +:+ newline.

Lemma escape_free s : free_of (ascii_of_nat 10) (escape s) = true.
Proof.
  induction s as [|c s IH]; [done|]. cbn [escape]. rewrite free_of_app, IH, andb_true_r.
  by destruct c as [[] [] [] [] [] [] [] []].
Qed.

Lemma delta_free t : free_of (ascii_of_nat 10) (stringify (delta_json t)) = true.
Proof.
  unfold delta_json. cbn -[escape]. unfold quote.
  repeat first [rewrite free_of_app | rewrite escape_free | progress cbn -[escape]]. done.
Qed.

Lemma lines_of_deltas ts rest : lines_of (str (line ∘ delta_json <$> ts) +:+ rest) = (stringify ∘ delta_json <$> ts) ++ lines_of rest.
Proof.
  induction ts as [|t ts IH]; [done|]. unfold lines_of in *.
  change (str (line ∘ delta_json <$> t :: ts)) with (line (delta_json t) +:+ str (line ∘ delta_json <$> ts)).
  unfold line at 1, newline. rewrite !str_app_assoc, js_split_cons by apply delta_free.
  unfold keep. rewrite filter_cons_True by done. cbn [fmap list_fmap app]. f_equal. exact IH.
Qed.

Lemma read_line_delta t : read_line (stringify (delta_json t)) = Some (if truthy_str t then Some t else None, false).
Proof. unfold read_line. rewrite parse_stringify by reflexivity. reflexivity. Qed.

Lemma read_lines_deltas ts l : Forall (fun t => truthy_str t = true) ts ->
  read_lines ((stringify ∘ delta_json <$> ts) ++ l) =
    let '(chunks, e) := read_lines l in (((fun t => mkStreamChunk t false) <$> ts) ++ chunks, e).
Proof.
  induction 1 as [|t ts Ht _ IH]; [cbn; by destruct (read_lines l)|]. cbn [fmap list_fmap app read_lines].
  unfold compose at 1. rewrite read_line_delta, Ht, IH. by destruct (read_lines l).
Qed.

(** A stream of Ollama whose reads end at the ends of lines gives its texts, one chunk
    each and in order, and then the closing chunk, however the lines are grouped into
    reads. *)
Theorem read_stream_whole_lines (groups : list (list string)) (final : list string) :
  Forall (Forall (fun t => truthy_str t = true)) (groups ++ [final]) ->
  read_stream (((fun g => str (line ∘ delta_json <$> g)) <$> groups) ++ [str (line ∘ delta_json <$> final) +:+ line done_json]) =
    (((fun t => mkStreamChunk t false) <$> concat (groups ++ [final])) ++ [mkStreamChunk "" true], None).
Proof.
  induction groups as [|g groups IH]; intros [Hg Hgs]%Forall_cons.
  - cbn [fmap list_fmap app concat read_stream]. rewrite lines_of_deltas, read_lines_deltas by done.
    cbn -[str fmap]. by rewrite app_nil_r.
  - cbn [fmap list_fmap app concat read_stream]. rewrite <- (str_app_nil_r (str _)), lines_of_deltas, read_lines_deltas by done.
    change (read_lines (lines_of "")) with ([] : list StreamChunk, going_on). cbv iota beta zeta. rewrite app_nil_r, IH by done.
    by rewrite fmap_app, <- app_assoc.
Qed.

Lemma read_stream_whole_lines_witness :
  read_stream [str (line ∘ delta_json <$> ["Hel"; "lo"]); str (line ∘ delta_json <$> ["!"]) +:+ line done_json] =
    ([mkStreamChunk "Hel" false; mkStreamChunk "lo" false; mkStreamChunk "!" false; mkStreamChunk "" true], None).
Proof. exact (read_stream_whole_lines [["Hel"; "lo"]] ["!"] ltac:(repeat constructor)). Defined.

(** The network need not respect lines: a read that ends inside one fails the stream,
    since the rest of the line is not kept for the next read. *)
Example divided_line_fails :
  let l := line (delta_json "Hello") in
  read_stream [js_slice_str l 0 20; js_slice_str_from l 20 +:+ line done_json] = ([], Some invalid_json).
Proof. by vm_compute. Qed.

(** ** What a provider passes on *)

(** The messages a conversation makes of tools: an assistant's text and calls, and the
    results as a user's. *)
Definition is_use (b : ContentBlock) : bool := match b with tool_use _ _ _ => true | _ => false end.
Definition is_result (b : ContentBlock) : bool := match b with tool_result _ _ => true | _ => false end.
Definition tool_shaped (m : ChatMessage) : Prop :=
  match cm_role m, cm_content m with
  | system, _ => True
  | _, plain _ => True
  | assistant, blocks l => forallb (fun b => negb (is_result b)) l = true
  | user, blocks l => forallb (fun b => negb (is_use b)) l = true
  end.

Definition results_of (m : ChatMessage) : list string :=
  match cm_role m, cm_content m with system, _ => [] | _, blocks l => omap block_result l | _, plain _ => [] end.
Definition uses_of (m : ChatMessage) : list OllamaToolCall :=
  match cm_role m, cm_content m with system, _ => [] | _, blocks l => omap block_use l | _, plain _ => [] end.

Definition sent_result (m : OllamaMessage) : option string := if String.eqb (om_role m) "tool" then Some (om_content m) else None.
Definition sent_calls (m : OllamaMessage) : list OllamaToolCall := default [] (om_tool_calls m).

Lemma no_use l : forallb (fun b => negb (is_use b)) l = true -> omap block_use l = [].
Proof. induction l as [|[]]; cbn; auto. done. Qed.
Lemma no_result l : forallb (fun b => negb (is_result b)) l = true -> omap block_result l = [].
Proof. induction l as [|[]]; cbn; auto. done. Qed.

Lemma sent_tool_messages l : omap sent_result (tool_message <$> l) = l /\ concat (sent_calls <$> (tool_message <$> l)) = [].
Proof. induction l as [|c l [IH1 IH2]]; [done|]. cbn. split; [by f_equal|done]. Qed.

Lemma convertMessage_tools b m : tool_shaped m ->
  omap sent_result (convertMessage b m) = results_of m /\ concat (sent_calls <$> convertMessage b m) = uses_of m.
Proof.
  destruct m as [r c]. unfold tool_shaped, results_of, uses_of, convertMessage, is_system. cbn [cm_role cm_content].
  destruct r, c as [t|l]; cbn; try (by destruct b); try done.
  - intros Hu%no_use. rewrite Hu. destruct (omap block_result l) as [|x xs] eqn:E; [done|].
    apply (sent_tool_messages (x :: xs)).
  - intros Hr%no_result. rewrite Hr. destruct (omap block_use l) as [|x xs] eqn:E; [done|]. split; [done|]. apply (app_nil_r (x :: xs)).
Qed.

(** Over Ollama the calls of a model and the results of its tools are sent as they
    happened: the calls are those of the assistant's messages, the tool messages those
    of the results, in their order, for any history a conversation makes. *)
Theorem convertMessages_keeps_tools messages systemPrompt : Forall tool_shaped messages ->
  omap sent_result (convertMessages messages systemPrompt) = concat (results_of <$> messages) /\
  concat (sent_calls <$> convertMessages messages systemPrompt) = concat (uses_of <$> messages).
Proof.
  intros H. assert (Hc : forall b, omap sent_result (concat (convertMessage b <$> messages)) = concat (results_of <$> messages) /\
    concat (sent_calls <$> concat (convertMessage b <$> messages)) = concat (uses_of <$> messages)).
  { intros b. induction H as [|m ms Hm _ [IH1 IH2]]; [done|]. cbn [fmap list_fmap concat].
    destruct (convertMessage_tools b m Hm) as [H1 H2].
    by rewrite omap_app, fmap_app, concat_app, IH1, IH2, H1, H2. }
  unfold convertMessages. destruct (given_prompt systemPrompt); [|apply Hc]. cbn. apply Hc.
Qed.

Lemma convertMessages_keeps_tools_witness :
  omap sent_result (convertMessages [mkChatMessage user (plain "hi"); mkChatMessage assistant (blocks [tool_use "1" "t" (JObj [])]);
    mkChatMessage user (blocks [tool_result "1" "ok"])] (Some "p")) = ["ok"].
Proof.
  exact (proj1 (convertMessages_keeps_tools [mkChatMessage user (plain "hi"); mkChatMessage assistant (blocks [tool_use "1" "t" (JObj [])]);
    mkChatMessage user (blocks [tool_result "1" "ok"])] (Some "p") ltac:(repeat constructor))).
Defined.

(** A conversation over OpenAI is a plain one: whatever tools and system prompt the
    handler was given, the service is asked with the texts of the history alone, its
    answer calls no tool, and it is stored as it came. *)
Theorem openai_conversation_is_plain {W St} `{!OpenAIApi W} `{!HistoryStore St} key model tools prompt maxHistory maxTools
    chatId content (w : W) (st : St) : truthy_str key = true ->
  let c := mkConversationHandler (openai (Some key) model) tools prompt maxHistory maxTools in
  let history := beginMessage chatId content st in
  handleMessage c chatId content w st =
    match completions_create (mkOpenAIRequest (default "gpt-4o" model) 4096 None
            ((fun m => (role_text (cm_role m), contentToString (cm_content m))) <$> history)) w with
    | (w, inl e) => (w, st, inl e)
    | (w, inr r) => (w, finishMessage c chatId history (openai_response r) st, inr (cr_content (openai_response r)))
    end.
Proof.
  intros Hk c history. unfold handleMessage. fold history.
  change (chat (ch_provider c) history (chatOptions c) w) with
    (if negb (truthy_str key) then (w, inl no_openai_key) else
     match completions_create (openai_request (default "gpt-4o" model) (co_temperature (chatOptions c)) history (chatOptions c)) w with
     | (w, inl e) => (w, inl e)
     | (w, inr r) => (w, inr (openai_response r))
     end).
  rewrite Hk. cbn [negb].
  change (openai_request (default "gpt-4o" model) (co_temperature (chatOptions c)) history (chatOptions c))
    with (mkOpenAIRequest (default "gpt-4o" model) 4096 None
            ((fun m => (role_text (cm_role m), contentToString (cm_content m))) <$> history)).
  destruct (completions_create _ w) as [w' [e|r]]; [done|]. by destruct (Z.to_nat (ch_maxToolIterations c)).
Qed.

(** A service to try it with. *)
#[local] Instance lab_openai : OpenAIApi nat := {|
  completions_create r w := (S w, inr (mkOpenAIResponse [(Some "hello", Some "stop")] (or_model r) None));
  completions_stream r w := (w, (inr [], None));
  models_list w := (w, inr [])
|}.

Lemma openai_conversation_is_plain_witness :
  let c := mkConversationHandler (openai (Some "key") None) [("t", mkToolHandler "d" JNull (fun _ w => (w, inr None)))] "You are Cortex" 20 5 in
  snd (handleMessage c "chat" "hi" 0%nat ([] : Histories)) = inr "hello".
Proof.
  cbn zeta. rewrite (openai_conversation_is_plain "key" None [("t", mkToolHandler "d" JNull (fun _ w => (w, inr None)))] "You are Cortex" 20 5
    "chat" "hi" 0%nat [] eq_refl). reflexivity.
Defined.
