(* ===== verification/Cli.v ===== *)
(** * The command line tools (src/src/commands.ts, cli/*.ts)

    What a command does with the cluster's answer: the node it picks, the request it
    sends to the leader, the commands it runs and its exit code.  The state is the
    GetClusterState message; ssh, rsync and systemctl are commands whose success is an
    input; the files of the snapshots are a map from path to content.

    The last part follows two of the requests into the cluster. *)

From S2P Require Import Prelude JsMap JsString JsNumber Json Raft Membership MembershipProps ClusterState ClusterHandlers.
From Stdlib Require Import Ascii.

(** ** Nodes by name *)

Definition shortName (nodeId : string) : string :=
  match js_split "-" nodeId with
  | [] | [_] => nodeId
  | parts => String.concat "-" (removelast parts)
  end.

Definition cli_nodes (s : ProtoClusterState) : list ProtoNode :=
  keep (fun n => negb (js_endsWith (pn_node_id n) "-mcp")) (ps_nodes s).
Definition shows_active (n : ProtoNode) : bool := js_includes (pn_status n) "ACTIVE".

Definition called (name : string) (n : ProtoNode) : bool :=
  String.eqb (js_toLowerCase (shortName (pn_node_id n))) (js_toLowerCase name) ||
  String.eqb (js_toLowerCase (pn_hostname n)) (js_toLowerCase name).
Definition findNode (nodes : list ProtoNode) (name : string) : option ProtoNode := List.find (called name) nodes.

Definition leader_node (s : ProtoClusterState) : option ProtoNode :=
  List.find (fun n => String.eqb (pn_node_id n) (ps_leader_id s)) (ps_nodes s).
Definition rpc_address (n : ProtoNode) : string :=
  node_address (pn_tailscale_ip n) (if pn_grpc_port n =? 0 then 50051 else pn_grpc_port n).

(** ** cortex status *)

Inductive Health := HEALTHY | DEGRADED | CRITICAL.
Record StatusReport := mkStatusReport {
  st_overall : Health;
  st_leader : string;
  st_active : Z;
  st_total : Z;
  st_quorumNeeded : Z;
  st_quorumMet : bool
}.
Definition status_report (s : ProtoClusterState) : StatusReport :=
  let nodes := cli_nodes s in
  let active := js_length (keep shows_active nodes) in
  let total := js_length nodes in
  let hasLeader := truthy_str (ps_leader_id s) in
  let needed := total / 2 + 1 in
  let met := needed <=? active in
  mkStatusReport
    (if negb hasLeader then CRITICAL else if negb met then CRITICAL else if active <? total then DEGRADED else HEALTHY)
    (if hasLeader then shortName (ps_leader_id s) else "NONE") active total needed met.

(** ** Commands that call the leader *)

Inductive Rpc :=
  | rpc_deregister (node_id : string) (graceful : bool)
  | rpc_register (node : ProtoNode)
  | rpc_transfer (target_node_id : string).
Inductive CliStep :=
  | cli_exit (code : Z) (message : string)
  | cli_call (address : string) (request : Rpc).

Definition not_listed (name : string) (nodes : list ProtoNode) : string :=
  str ["Node "; String dq ""; name; String dq ""; " not found. Available: ";
       String.concat ", " ((fun n => shortName (pn_node_id n)) <$> nodes)].

(** What drain, cordon and uncordon share: the node, then the leader. *)
Definition node_op (name : string) (s : ProtoClusterState) (already : ProtoNode -> option string) (request : ProtoNode -> Rpc) :
    CliStep :=
  match findNode (cli_nodes s) name with
  | None => cli_exit 1 (not_listed name (cli_nodes s))
  | Some n =>
      match already n with
      | Some message => cli_exit 0 (shortName (pn_node_id n) +:+ message)
      | None =>
          match leader_node s with
          | None => cli_exit 1 "No leader found"
          | Some l => cli_call (rpc_address l) (request n)
          end
      end
  end.

Definition runDrain (name : string) (s : ProtoClusterState) : CliStep :=
  node_op name s (fun _ => None) (fun n => rpc_deregister (pn_node_id n) true).
Definition runCordon (name : string) (s : ProtoClusterState) : CliStep :=
  node_op name s (fun n => if js_includes (pn_status n) "DRAINING" then Some " is already cordoned (draining)" else None)
    (fun n => rpc_deregister (pn_node_id n) true).
Definition runUncordon (name : string) (s : ProtoClusterState) : CliStep :=
  node_op name s (fun n => if shows_active n then Some " is already active (not cordoned)" else None)
    (fun n => rpc_register (mkProtoNode (pn_node_id n) (pn_hostname n) (pn_tailscale_ip n) (pn_grpc_port n) (pn_role n)
                              "NODE_STATUS_ACTIVE" None (pn_tags n) "0" "0")).

(** The texts that report the leader's answer. *)
Definition drain_answer (name : string) (success : bool) : Z * string :=
  if success then (0, name +:+ " drained — node set to draining status, tasks will be rescheduled") else (1, "Drain failed").
Definition cordon_answer (name : string) (success : bool) : Z * string :=
  if success then (0, name +:+ " cordoned — existing tasks continue, no new scheduling") else (1, "Cordon failed").
Definition uncordon_answer (name : string) (approved pending : bool) : Z * string :=
  if approved || pending then (0, name +:+ " uncordoned — active for scheduling") else (1, "Uncordon failed").

(** [cortex switch-leader]: the target is checked by its short name or host name, and
    asked for by what was typed. *)
Definition switch_leader (name : option string) (s : ProtoClusterState) : CliStep :=
  match leader_node s with
  | None => cli_exit 1 "No leader found in cluster"
  | Some l =>
      let ask := cli_call (node_address (pn_tailscale_ip l) (pn_grpc_port l)) (rpc_transfer (default "" name)) in
      match name with
      | Some name =>
          if truthy_str name then
            match List.find (fun n => String.eqb (shortName (pn_node_id n)) name || String.eqb (pn_hostname n) name) (cli_nodes s) with
            | None => cli_exit 1 (not_listed name (cli_nodes s))
            | Some target => if String.eqb (pn_node_id target) (ps_leader_id s)
                             then cli_exit 0 (name +:+ " is already the leader.") else ask
            end
          else ask
      | None => ask
      end
  end.

(** ** cortex squelch *)

Record SquelchWrite := mkSquelchWrite {
  sw_sql : string;
  sw_params : string;
  sw_checksum : string;
  sw_classification : string;
  sw_table : string
}.
Definition squelch_sql (mins : Z) : string :=
  if 0 <? mins
  then "INSERT OR REPLACE INTO timeline_context (key, value, category, label, source, pinned, updated_at) VALUES ('health_squelch_until', ?, 'machine', 'Health Alert Squelch', 'cortex-cli', 0, datetime('now'))"
  else "DELETE FROM timeline_context WHERE key = 'health_squelch_until'".

(** The error, or the write that is sent. *)
Definition squelch_request (sha256 : string -> string) (now : Z) (minutes : string) : string + SquelchWrite :=
  match parseInt minutes with
  | None => inl "Minutes must be a non-negative number"
  | Some mins =>
      if mins <? 0 then inl "Minutes must be a non-negative number"
      else
        let sql := squelch_sql mins in
        let params := stringify (JArr (if 0 <? mins then [JStr (js_toString (now + mins * 60000))] else [])) in
        inr (mkSquelchWrite sql params (sha256 (sql +:+ params)) "internal" "timeline_context")
  end.
(** The answer of the write is not looked at. *)
Definition squelch_answer (mins : Z) (answer : bool * string) : Z * string :=
  (0, if 0 <? mins then "Alerts squelched for " +:+ js_toString mins +:+ " minutes"
      else "Alerts unsquelched — notifications re-enabled").

(** ** cortex run *)

Record NodeTarget := mkNodeTarget { nt_name : string; nt_ip : string; nt_isLocal : bool }.

Definition resolveNodes (localHostname : string) (filter : option string) (s : ProtoClusterState) : list NodeTarget :=
  let nodes := keep (fun n => negb (js_endsWith (pn_node_id n) "-mcp") && shows_active n) (ps_nodes s) in
  let nodes :=
    match filter with
    | Some f =>
        if truthy_str f then
          let names := (fun t => js_toLowerCase (js_trim t)) <$> js_split "," f in
          keep (fun n => existsb (fun name => String.eqb (js_toLowerCase (shortName (pn_node_id n))) name ||
                                              String.eqb (js_toLowerCase (pn_hostname n)) name) names) nodes
        else nodes
    | None => nodes
    end in
  (fun n => mkNodeTarget (shortName (pn_node_id n)) (pn_tailscale_ip n) (String.eqb (pn_hostname n) localHostname)) <$> nodes.

(** The shell command of one node. *)
Definition node_command (user command : string) (n : NodeTarget) : string :=
  if nt_isLocal n then command
  else str ["ssh -o ConnectTimeout=5 -o StrictHostKeyChecking=no "; user; "@"; nt_ip n; " "; quote command].

(** [exits] is the exit code of each command; the result is the command's own. *)
Definition run_exit (nodes : list NodeTarget) (exits : list Z) : Z :=
  match nodes with
  | [] => 1
  | _ => if existsb (fun c => negb (c =? 0)) exits then 1 else 0
  end.

(** ** cortex deploy *)

Record DeployNode := mkDeployNode { dn_id : string; dn_name : string; dn_ip : string; dn_isLeader : bool; dn_isLocal : bool }.
Inductive DeployCommand :=
  | dc_build | dc_squelch (minutes : Z) | dc_rsync (n : DeployNode) | dc_restart (n : DeployNode)
  | dc_pause | dc_settle | dc_status.

Definition deploy_nodes (localHostname : string) (s : ProtoClusterState) : list DeployNode :=
  (fun n => mkDeployNode (pn_node_id n) (shortName (pn_node_id n)) (pn_tailscale_ip n)
              (String.eqb (pn_node_id n) (ps_leader_id s)) (String.eqb (pn_hostname n) localHostname)) <$> cli_nodes s.

Definition restartOrder (nodes : list DeployNode) : list DeployNode :=
  keep (fun n => negb (dn_isLeader n)) nodes ++
  match List.find dn_isLeader nodes with Some l => [l] | None => [] end.

Fixpoint restarts (l : list DeployNode) : list DeployCommand :=
  match l with
  | [] => []
  | [n] => [dc_restart n]
  | n :: l => dc_restart n :: dc_pause :: restarts l
  end.

(** The commands that are run.  [build] is the option and [built] the success of the
    build, the only result that anything depends on; [state] is none when the cluster
    cannot be asked. *)
Definition deploy (build built : bool) (squelchMins : Z) (localHostname : string) (state : option ProtoClusterState) :
    list DeployCommand :=
  (if build then [dc_build] else []) ++
  if build && negb built then [] else
  match state with
  | None => []
  | Some s =>
      let nodes := deploy_nodes localHostname s in
      dc_squelch squelchMins :: (dc_rsync <$> keep (fun n => negb (dn_isLocal n)) nodes) ++
      restarts (restartOrder nodes) ++ [dc_settle; dc_status; dc_squelch 0]
  end.
(** What is printed after a restart, whether it succeeded or not. *)
Definition restarted_message (n : DeployNode) (succeeded : bool) : string :=
  "cortex@" +:+ dn_name n +:+ (if dn_isLeader n then " (leader)" else "") +:+ " restarted".

(** ** cortex events *)

Record EventRow := mkEventRow { er_id : Z; er_type : string; er_occurred_at : Z; er_source : string; er_details : string }.

Definition unit_ms (c : ascii) : option Z :=
  if Ascii.eqb c "s" then Some 1000 else if Ascii.eqb c "m" then Some 60000
  else if Ascii.eqb c "h" then Some 3600000 else if Ascii.eqb c "d" then Some 86400000 else None.
(** The match of [/^(\d+)([smhd])$/]: the value in milliseconds. *)
Definition duration_ms (since : string) : option Z :=
  match span_digits since with
  | (digits, String c EmptyString) =>
      if truthy_str digits then ms ← unit_ms c; v ← parseInt digits; Some (v * ms) else None
  | _ => None
  end.
(** [readDate] is the engine's reading of a date. *)
Definition parseSince (readDate : string -> option Z) (now : Z) (since : string) : Z :=
  match duration_ms since with
  | Some ms => now - ms
  | None => match readDate since with Some t => t | None => now - 3600000 end
  end.

(** [ORDER BY occurred_at DESC LIMIT ?]; a negative limit is none. *)
Definition newest_first (a b : EventRow) : bool := er_occurred_at b <=? er_occurred_at a.
Definition queryEvents (sinceIso : Z) (type : option string) (limit : Z) (rows : list EventRow) : list EventRow :=
  let rows := keep (fun r => sinceIso <=? er_occurred_at r) rows in
  let rows := match type with
              | Some t => if truthy_str t && negb (String.eqb t "all") then keep (fun r => String.eqb (er_type r) t) rows else rows
              | None => rows
              end in
  let rows := js_sort newest_first rows in
  reverse (if limit <? 0 then rows else take (Z.to_nat limit) rows).

(** ** cortex config diff *)

Definition add_config (groups : jsmap (list string)) (c : string * string) : jsmap (list string) :=
  match jm_get groups c.2 with
  | Some names => jm_set groups c.2 (names ++ [c.1])
  | None => jm_set groups c.2 [c.1]
  end.
(** The configurations by node name, grouped by content. *)
Definition config_groups (configs : jsmap string) : jsmap (list string) := foldl add_config [] configs.
Definition fetched_configs (l : list (string * string)) : jsmap string := foldl (fun m c => jm_set m c.1 c.2) [] l.

(** ** cortex snapshot *)

Abbreviation Files := (jsmap string).
Section snapshots.
Variables (DB_PATH SNAPSHOT_DIR : string).

Definition snapshot_path (name : string) : string := SNAPSHOT_DIR +:+ "/" +:+ name +:+ ".db".

(** [stamp] is the text of the time. *)
Definition runSnapshotCreate (stamp : string) (name : option string) (fs : Files) : string + Files :=
  match jm_get fs DB_PATH with
  | None => inl ("Database not found at " +:+ DB_PATH)
  | Some db =>
      let snapshotName := default ("snapshot_" +:+ stamp) name in
      if jm_has fs (snapshot_path snapshotName) then inl (str ["Snapshot "; String dq ""; snapshotName; String dq ""; " already exists"])
      else inr (jm_set fs (snapshot_path snapshotName) db)
  end.

Definition doRestore (stamp sourcePath : string) (fs : Files) : Files :=
  match jm_get fs sourcePath with
  | None => fs
  | Some source =>
      match jm_get fs DB_PATH with
      | None => jm_set fs DB_PATH source
      | Some db =>
          let fs := jm_set fs (snapshot_path ("pre_restore_" +:+ stamp)) db in
          (* the source is read again: it may be the file just written *)
          jm_set fs DB_PATH (default source (jm_get fs sourcePath))
      end
  end.
Definition runSnapshotRestore (stamp name : string) (fs : Files) : string + Files :=
  if jm_has fs (snapshot_path name) then inr (doRestore stamp (snapshot_path name) fs)
  else if jm_has fs name then inr (doRestore stamp name fs)
  else inl (str ["Snapshot "; String dq ""; name; String dq ""; " not found"]).
End snapshots.

(** ** Theorems *)

Lemma keep_length_le {A} (f : A -> bool) l : (length (keep f l) <= length l)%nat.
Proof. apply length_filter. Qed.
Lemma keep_all {A} (f : A -> bool) (l : list A) : length (keep f l) = length l <-> Forall (fun x => f x = true) l.
Proof.
  unfold keep. induction l as [|x l IH]; [split; [constructor|done]|]. rewrite Forall_cons, <- IH. destruct (f x) eqn:E.
  - rewrite filter_cons_True by done. cbn. split; [by intros [= ->]|by intros [_ ->]].
  - rewrite filter_cons_False by (by rewrite E). pose proof (keep_length_le f l) as Hl. unfold keep in Hl. cbn. split; [lia|by intros [? _]].
Qed.

(** The cluster is shown as healthy exactly when a leader is known and every node of it,
    and there is one, is active; without a leader, or without a majority of the shown
    nodes, it is critical. *)
Theorem status_health s :
  (st_overall (status_report s) = HEALTHY <->
     truthy_str (ps_leader_id s) = true /\ cli_nodes s <> [] /\ Forall (fun n => shows_active n = true) (cli_nodes s)) /\
  (st_overall (status_report s) = CRITICAL <->
     truthy_str (ps_leader_id s) = false \/ 2 * js_length (keep shows_active (cli_nodes s)) <= js_length (cli_nodes s)).
Proof.
  unfold status_report. cbn [st_overall]. rewrite <- keep_all. set (l := cli_nodes s).
  pose proof (keep_length_le shows_active l) as Hle. unfold js_length.
  set (a := Z.of_nat (length (keep shows_active l))). set (t := Z.of_nat (length l)).
  assert (Ha : 0 <= a <= t) by lia. assert (Hq : t / 2 * 2 <= t < t / 2 * 2 + 2) by (pose proof (Z.div_mod t 2 ltac:(done)); pose proof (Z.mod_pos_bound t 2 ltac:(done)); lia).
  assert (Hn : l <> [] <-> 0 < t) by (subst t; destruct l; cbn; split; [done|lia|lia|done]).
  assert (Hf : length (keep shows_active l) = length l <-> a = t) by lia. rewrite Hf, Hn.
  destruct (truthy_str (ps_leader_id s)); cbn [negb]; [|split; [split; [done|by intros [? _]]|split; [by left|done]]].
  destruct (Z.leb_spec (t / 2 + 1) a); cbn [negb].
  - destruct (Z.ltb_spec a t); (split; [split; [done || (intros _; lia)|intros (_ & _ & ?); done || lia]|split; [done|intros [?|?]; [done|lia]]]).
  - split; split; [done|intros (_ & ? & ?); lia|intros _; right; lia|done].
Qed.

(** *** Durations *)

Lemma span_digits_int z c rest : 0 <= z -> is_digit c = false ->
  span_digits (js_toString z +:+ String c rest) = (js_toString z, String c rest).
Proof.
  intros Hz Hc. destruct (nonneg_text z Hz) as (u & _ & -> & _). by apply span_digits_uint.
Qed.

(** A duration counts back from now in its unit; any other text that is not a date
    counts back an hour. *)
Theorem parseSince_units readDate now v c ms : 0 <= v -> unit_ms c = Some ms ->
  parseSince readDate now (js_toString v +:+ String c "") = now - v * ms /\
  (readDate "yesterday" = None -> parseSince readDate now "yesterday" = now - 3600000).
Proof.
  intros Hv Hu. split; [|intros Hn; unfold parseSince; cbn; by rewrite Hn].
  assert (Hc : is_digit c = false).
  { by destruct c as [[] [] [] [] [] [] [] []]. }
  unfold parseSince, duration_ms. rewrite span_digits_int by done.
  destruct (nonneg_text v Hv) as (u & Hne & E & _). destruct (uint_head u Hne) as (d & t & Et & _).
  assert (Htr : truthy_str (js_toString v) = true) by (by rewrite E, Et).
  rewrite Htr, Hu. cbn [mbind option_bind]. by rewrite parseInt_toString.
Qed.

Lemma parseSince_units_witness : parseSince (fun _ => None) 10000000 "90m" = 10000000 - 90 * 60000.
Proof. exact (proj1 (parseSince_units (fun _ => None) 10000000 90 "m" 60000 ltac:(done) eq_refl)). Defined.

(** *** Events *)

Lemma newest_first_total a b : newest_first a b = true \/ newest_first b a = true.
Proof. unfold newest_first. rewrite !Z.leb_le. lia. Qed.

Definition matches (sinceIso : Z) (type : option string) (r : EventRow) : Prop :=
  sinceIso <= er_occurred_at r /\
  (forall t, type = Some t -> truthy_str t = true -> t <> "all" -> er_type r = t).

(** The events shown are matching rows in the order of their times, at most as many as
    asked for, and no matching row that is left out is newer than one that is shown. *)
Theorem queryEvents_newest sinceIso type limit rows : 0 <= limit ->
  let shown := queryEvents sinceIso type limit rows in
  StronglySorted (fun a b => er_occurred_at a <= er_occurred_at b) shown /\
  js_length shown <= limit /\
  (forall r, r ∈ shown -> r ∈ rows /\ matches sinceIso type r) /\
  (forall r, r ∈ rows -> matches sinceIso type r -> r ∉ shown ->
     js_length shown = limit /\ forall x, x ∈ shown -> er_occurred_at r <= er_occurred_at x).
Proof.
  intros Hl. unfold queryEvents. rewrite (proj2 (Z.ltb_ge limit 0)) by done. cbn zeta.
  set (l0 := keep (fun r => sinceIso <=? er_occurred_at r) rows).
  set (l1 := match type with Some t => if truthy_str t && negb (String.eqb t "all") then keep (fun r => String.eqb (er_type r) t) l0 else l0
             | None => l0 end).
  assert (H1 : forall r, r ∈ l1 <-> r ∈ rows /\ matches sinceIso type r).
  { intros r. assert (H0 : r ∈ l0 <-> r ∈ rows /\ sinceIso <= er_occurred_at r).
    { unfold l0. rewrite elem_of_keep, Z.leb_le. tauto. }
    unfold l1, matches. destruct type as [t|]; [|rewrite H0; split; [intros [? ?]; by repeat split|tauto]].
    destruct (truthy_str t && negb (String.eqb t "all")) eqn:E.
    - rewrite elem_of_keep, H0, String.eqb_eq. split; [intros (<- & ? & ?); split_and!; try done; by intros ? [= <-]|].
      apply andb_true_iff in E as [Et En%negb_true_iff%String.eqb_neq]. intros (? & ? & H). split; [by apply H|done].
    - rewrite H0. split; [|tauto]. intros [? ?]. split_and!; try done. intros t' [= <-] Ht Hne.
      apply andb_false_iff in E as [E|E]; [by rewrite E in Ht|]. by apply negb_false_iff, String.eqb_eq in E. }
  assert (Hs := js_sort_sorted newest_first newest_first_total (fun x y z Hx Hy =>
                  proj2 (Z.leb_le _ _) (Z.le_trans _ _ _ (proj1 (Z.leb_le _ _) Hy) (proj1 (Z.leb_le _ _) Hx))) l1).
  set (l2 := js_sort newest_first l1) in *. set (n := Z.to_nat limit). split_and!.
  - rewrite <- (take_drop n l2) in Hs. apply StronglySorted_app_1_l in Hs. revert Hs. generalize (take n l2). clear.
    induction 1 as [|x l Hs IH Hx]; [constructor|]. rewrite reverse_cons. apply StronglySorted_app. split_and!; [|done|repeat constructor].
    intros a b Ha Hb%list_elem_of_singleton. subst b. rewrite elem_of_reverse in Ha. rewrite Forall_forall in Hx.
    exact (proj1 (Z.leb_le _ _) (Hx a Ha)).
  - unfold js_length. rewrite length_reverse, length_take. lia.
  - intros r Hr. apply H1, (js_sort_elem_of newest_first). change (r ∈ l2). rewrite <- (take_drop n l2). apply elem_of_app. left. by apply elem_of_reverse.
  - intros r Hr Hm Hn. assert (Hd : r ∈ drop n l2).
    { assert (Hin : r ∈ l2) by (apply js_sort_elem_of; by apply H1). rewrite <- (take_drop n l2) in Hin.
      apply elem_of_app in Hin as [H|H]; [by destruct Hn; apply elem_of_reverse|done]. }
    split.
    + unfold js_length. rewrite length_reverse, length_take.
      assert (n <= length l2)%nat; [|lia]. destruct (decide (n <= length l2)%nat) as [|Hge]; [done|].
      rewrite drop_ge in Hd by lia. by apply elem_of_nil in Hd.
    + intros x Hx. rewrite elem_of_reverse in Hx. apply Z.leb_le. rewrite <- (take_drop n l2) in Hs. exact (StronglySorted_app_1_elem_of _ _ _ x r Hs Hx Hd).
Qed.

Lemma queryEvents_newest_witness :
  let rows := [mkEventRow 1 "deploy" 10 "a" ""; mkEventRow 2 "alert" 30 "a" ""; mkEventRow 3 "deploy" 20 "a" ""] in
  js_length (queryEvents 5 None 2 rows) <= 2 /\ er_id <$> queryEvents 5 None 2 rows = [3; 2].
Proof.
  split; [|reflexivity].
  exact (proj1 (proj2 (queryEvents_newest 5 None 2 [mkEventRow 1 "deploy" 10 "a" ""; mkEventRow 2 "alert" 30 "a" "";
    mkEventRow 3 "deploy" 20 "a" ""] ltac:(done)))).
Defined.

(** *** Deployment *)

Definition restarted (c : DeployCommand) : option DeployNode := match c with dc_restart n => Some n | _ => None end.
Definition synced (c : DeployCommand) : option DeployNode := match c with dc_rsync n => Some n | _ => None end.

Lemma restarts_restarted l : omap restarted (restarts l) = l.
Proof. induction l as [|n [|n' l] IH]; [done|done|]. cbn [restarts omap list_omap restarted]. f_equal. exact IH. Qed.
Lemma restarts_synced l : omap synced (restarts l) = [].
Proof. induction l as [|n [|n' l] IH]; [done|done|]. exact IH. Qed.
Lemma rsyncs l : omap synced (dc_rsync <$> l) = l /\ omap restarted (dc_rsync <$> l) = [].
Proof. induction l as [|n l [IH1 IH2]]; [done|]. cbn. by rewrite IH1, IH2. Qed.

Lemma restartOrder_perm leader (nodes : list DeployNode) : NoDup (dn_id <$> nodes) ->
  (forall n, n ∈ nodes -> dn_isLeader n = String.eqb (dn_id n) leader) -> restartOrder nodes ≡ₚ nodes.
Proof.
  unfold restartOrder, keep. induction nodes as [|n nodes IH]; intros Hd Hl; [done|].
  rewrite fmap_cons in Hd. apply NoDup_cons in Hd as [Hn Hd]. cbn [List.find].
  specialize (IH Hd (fun x Hx => Hl x (proj2 (elem_of_cons _ _ _) (or_intror Hx)))).
  destruct (dn_isLeader n) eqn:E.
  - rewrite filter_cons_False by (by rewrite E). rewrite Permutation_app_comm. cbn. apply perm_skip.
    destruct (List.find dn_isLeader nodes) as [l|] eqn:Ef; [|by rewrite app_nil_r in IH].
    exfalso. apply find_some in Ef as [Hin%list_elem_of_In Hll]. apply Hn.
    rewrite (Hl n) in E by left. rewrite (Hl l) in Hll by (by right).
    apply String.eqb_eq in E, Hll. rewrite E, <- Hll. by apply list_elem_of_fmap_2.
  - rewrite filter_cons_True by (by rewrite E). cbn. by apply perm_skip.
Qed.

(** A deployment reaches every node, whatever fails on the way: once the build is done,
    every remote node is copied to before any node is restarted, every node is restarted
    once, the followers first and the leader last, and the alerts are silenced first and
    enabled again at the end. *)
Theorem deploy_order build built mins host s : (build = true -> built = true) -> NoDup (pn_node_id <$> ps_nodes s) ->
  let nodes := deploy_nodes host s in
  exists sync restart,
    deploy build built mins host (Some s) = (if build then [dc_build] else []) ++ dc_squelch mins :: sync ++ restart ++ [dc_settle; dc_status; dc_squelch 0] /\
    sync = dc_rsync <$> keep (fun n => negb (dn_isLocal n)) nodes /\
    omap synced restart = [] /\ omap restarted restart ≡ₚ nodes /\
    (forall l, l ∈ nodes -> dn_isLeader l = true -> last (omap restarted restart) = Some l).
Proof.
  intros Hb Hd nodes. eexists _, (restarts (restartOrder nodes)).
  rewrite restarts_synced, restarts_restarted.
  assert (Hid : NoDup (dn_id <$> nodes)).
  { unfold nodes, deploy_nodes. rewrite <- list_fmap_compose. change (dn_id ∘ _) with pn_node_id.
    eapply sublist_NoDup; [exact Hd|]. apply fmap_sublist. unfold cli_nodes, keep. apply sublist_filter. }
  assert (Hl : forall n, n ∈ nodes -> dn_isLeader n = String.eqb (dn_id n) (ps_leader_id s)).
  { intros n (p & -> & _)%list_elem_of_fmap. done. }
  split_and!; [|done|done|by eapply restartOrder_perm|].
  - unfold deploy. destruct build, built; try done. by specialize (Hb eq_refl).
  - intros l Hin Hll. unfold restartOrder.
    assert (List.find dn_isLeader nodes = Some l) as ->; [|by rewrite last_snoc].
    destruct (List.find dn_isLeader nodes) as [l'|] eqn:Ef.
    + apply find_some in Ef as [Hin'%list_elem_of_In Hll']. f_equal.
      pose proof (Hl _ Hin) as H1. pose proof (Hl _ Hin') as H2. rewrite Hll in H1. rewrite Hll' in H2.
      symmetry in H1, H2. apply String.eqb_eq in H1, H2.
      apply list_elem_of_lookup_1 in Hin as [i Hi], Hin' as [j Hj].
      assert (j = i) as ->; [|congruence].
      eapply (NoDup_lookup (dn_id <$> nodes)); [done|by rewrite list_lookup_fmap, Hj|]. rewrite list_lookup_fmap, Hi. cbn. congruence.
    + apply list_elem_of_In in Hin. by rewrite (find_none _ _ Ef l Hin) in Hll.
Qed.

Definition lab_proto (id : string) : ProtoNode :=
  mkProtoNode id id "10.0.0.1" 50051 "NODE_ROLE_FOLLOWER" "NODE_STATUS_ACTIVE" None [] "0" "0".
Definition lab_state : ProtoClusterState :=
  mkProtoClusterState "c" "a-1" "3" [lab_proto "a-1"; lab_proto "b-1"; lab_proto "b-mcp"]
    (mkProtoClusterResources (QArith_base.inject_Z 0) "0" 0 "0") (mkProtoClusterResources (QArith_base.inject_Z 0) "0" 0 "0") 0 0.

Lemma deploy_order_witness :
  exists restart, omap restarted restart ≡ₚ deploy_nodes "a-1" lab_state /\
    last (omap restarted restart) = Some (mkDeployNode "a-1" "a" "10.0.0.1" true true).
Proof.
  destruct (deploy_order true true 10 "a-1" lab_state (fun _ => eq_refl) ltac:(apply (bool_decide_unpack _); reflexivity))
    as (sync & restart & _ & _ & _ & Hp & Hlast).
  exists restart. split; [exact Hp|]. apply Hlast; [left|reflexivity].
Defined.

(** A node that could not be copied to is restarted all the same, and reported so. *)
Example failed_copy_is_restarted :
  dc_restart (mkDeployNode "b-1" "b" "10.0.0.1" false false) ∈ deploy true true 10 "a-1" (Some lab_state) /\
  restarted_message (mkDeployNode "b-1" "b" "10.0.0.1" false false) false = "cortex@b restarted".
Proof. split; [apply list_elem_of_In; vm_compute; tauto|reflexivity]. Qed.

(** *** Configurations *)

Lemma config_groups_get configs c acc : jm_wf acc ->
  jm_get (foldl add_config acc configs) c =
    match default [] (jm_get acc c) ++ (fst <$> keep (fun x : string * string => String.eqb x.2 c) configs) with
    | [] => jm_get acc c
    | names => Some names
    end /\ jm_wf (foldl add_config acc configs).
Proof.
  revert acc. induction configs as [|[n k] configs IH]; intros acc Hw.
  - cbn. rewrite app_nil_r. split; [|done]. by destruct (jm_get acc c) as [[|]|].
  - cbn [foldl]. assert (Hw' : jm_wf (add_config acc (n, k))) by (unfold add_config; destruct (jm_get acc _); by apply jm_wf_set).
    destruct (IH _ Hw') as [-> Hwf]. split; [|done]. unfold add_config, keep. cbn [fst snd].
    destruct (String.eqb_spec k c) as [->|Hne].
    + rewrite filter_cons_True by (exact (String.eqb_refl c)). cbn [fmap list_fmap].
      destruct (jm_get acc c) as [names|]; rewrite jm_get_set_eq; [|done].
      change (default [] (Some (names ++ [n]))) with (names ++ [n]). rewrite <- app_assoc. by destruct names.
    + rewrite filter_cons_False by (cbn; by apply String.eqb_neq in Hne as ->).
      by destruct (jm_get acc k); rewrite jm_get_set_ne.
Qed.

(** Two nodes are shown in one group exactly when their configurations are the same. *)
Theorem config_groups_exact configs c :
  jm_get (config_groups configs) c =
    match fst <$> keep (fun x : string * string => String.eqb x.2 c) configs with [] => None | names => Some names end.
Proof. apply (config_groups_get configs c [] jm_wf_nil). Qed.

(** Nodes are told apart by their short names: of two nodes of one host only the last
    is compared. *)
Example same_short_name_hidden :
  config_groups (fetched_configs [(shortName "forge-1a2b", "A"); (shortName "forge-3c4d", "B")]) = [("B", ["forge"])].
Proof. reflexivity. Qed.

(** *** Snapshots *)

Section snapshot_props.
Variables (DB_PATH SNAPSHOT_DIR : string).
Notation path := (snapshot_path SNAPSHOT_DIR).

(** A snapshot brings the database back as it was when it was made, whatever was written
    to it since, and the restore can be undone from the copy it keeps. *)
Theorem snapshot_roundtrip stamp stamp2 stamp3 name fs fs1 db db' :
  path name <> DB_PATH -> path ("pre_restore_" +:+ stamp2) <> DB_PATH ->
  name <> "pre_restore_" +:+ stamp2 -> stamp2 <> stamp3 ->
  jm_get fs DB_PATH = Some db -> runSnapshotCreate DB_PATH SNAPSHOT_DIR stamp (Some name) fs = inr fs1 ->
  exists fs2, runSnapshotRestore DB_PATH SNAPSHOT_DIR stamp2 name (jm_set fs1 DB_PATH db') = inr fs2 /\
    jm_get fs2 DB_PATH = Some db /\
    exists fs3, runSnapshotRestore DB_PATH SNAPSHOT_DIR stamp3 ("pre_restore_" +:+ stamp2) fs2 = inr fs3 /\
      jm_get fs3 DB_PATH = Some db'.
Proof.
  intros Hn Hp Hne Hst Hdb. unfold runSnapshotCreate. rewrite Hdb.
  change (default ("snapshot_" +:+ stamp) (Some name)) with name. cbv zeta. destruct (jm_has fs (path name)) eqn:Eh; [discriminate|].
  intros [= <-].
  assert (Hpath : forall a b, path a = path b -> a = b).
  { intros a b H. unfold snapshot_path in H. apply str_app_inj_l in H. apply str_app_inj_l in H. by apply str_app_tail in H. }
  set (fs' := jm_set (jm_set fs (path name) db) DB_PATH db').
  assert (H1 : jm_get fs' (path name) = Some db) by (unfold fs'; by rewrite jm_get_set_ne, jm_get_set_eq).
  assert (H2 : jm_get fs' DB_PATH = Some db') by (unfold fs'; by rewrite jm_get_set_eq).
  unfold runSnapshotRestore at 1. rewrite (jm_get_has _ _ _ H1). eexists; split; [reflexivity|].
  unfold doRestore at 1. rewrite H1, H2. split.
  { rewrite jm_get_set_eq, jm_get_set_ne by (intros E%Hpath; congruence). by rewrite H1. }
  set (fs2 := doRestore _ _ _ _ _).
  assert (Hf : fs2 = jm_set (jm_set fs' (path ("pre_restore_" +:+ stamp2)) db') DB_PATH db).
  { unfold fs2, doRestore. rewrite H1, H2. rewrite jm_get_set_ne by (intros E%Hpath; congruence). by rewrite H1. }
  rewrite Hf. unfold runSnapshotRestore, doRestore.
  assert (H3 : jm_get (jm_set (jm_set fs' (path ("pre_restore_" +:+ stamp2)) db') DB_PATH db) (path ("pre_restore_" +:+ stamp2)) = Some db')
    by (by rewrite jm_get_set_ne, jm_get_set_eq).
  rewrite (jm_get_has _ _ _ H3), H3, jm_get_set_eq. eexists; split; [reflexivity|].
  rewrite jm_get_set_eq, jm_get_set_ne; [by rewrite H3|]. intros E%Hpath. by apply str_app_inj_l in E.
Qed.
End snapshot_props.

(** *** Drain and cordon in the cluster *)

Section cordon.
Context {D : Type} `{!EmptyBuffer D} `{!MembershipCodec D} `{!MembershipCodecLaws D}.
Implicit Types (st : MembershipManager * RaftNode D).

(** Draining and cordoning remove the node.  Either command asks the leader to
    deregister it; the leader marks it as draining in its own table and appends its
    leave at once; and every member that applies this entry has the node neither in its
    table nor among the peers of Raft, so that no heartbeat, no task and no command by
    name reaches it, uncordon included. *)
Theorem cordon_removes_the_node name s address id st st' calls e now st2 :
  runCordon name s = cli_call address (rpc_deregister id true) \/ runDrain name s = cli_call address (rpc_deregister id true) ->
  DeregisterNode id true st = (true, st', calls) -> last (log st'.2) = Some e ->
  jm_wf (mm_nodes st2.1) -> jm_wf (peers st2.2) -> jm_has (mm_nodes st2.1) id = true ->
  let st3 := handleCommittedEntry now e st2 in
  jm_get (mm_nodes st3.1) id = None /\ jm_get (peers st3.2) id = None /\
  (exists n, findNode (cli_nodes s) name = Some n /\ pn_node_id n = id) /\
  (forall s', (forall n, n ∈ ps_nodes s' -> called name n = false) ->
     runUncordon name s' = cli_exit 1 (not_listed name (cli_nodes s'))).
Proof.
  destruct st as [m raft], st2 as [m2 raft2]. cbn [fst snd]. intros Hrun Hde Hlast Hw Hp Hhas.
  assert (He : handleCommittedEntry now e (m2, raft2) = handleNodeLeaveCommitted id (m2, raft2)).
  { unfold DeregisterNode, removeNode in Hde. destruct (isLeader raft) eqn:Hl; [|done]. cbn [negb] in Hde.
    destruct (jm_get (mm_nodes m) id) as [n|]; [|done]. pose proof (appendEntry_last node_leave (stringify_leave id) raft Hl) as Ha.
    destruct (appendEntry node_leave (stringify_leave id) raft) as [[[b i] r'] cs]. cbn in Ha. injection Hde as _ <- _.
    cbn in Hlast. rewrite Ha in Hlast. injection Hlast as <-. unfold handleCommittedEntry. cbn. by rewrite parse_stringify_leave. }
  cbn zeta. rewrite He. unfold handleNodeLeaveCommitted. apply jm_has_true in Hhas as [n Hn]. rewrite Hn. cbn.
  split_and!; [by apply jm_get_delete_eq|by apply jm_get_delete_eq| |].
  - assert (Hn2 : forall already, node_op name s already (fun n => rpc_deregister (pn_node_id n) true) = cli_call address (rpc_deregister id true) ->
      exists n, findNode (cli_nodes s) name = Some n /\ pn_node_id n = id).
    { intros already. unfold node_op. destruct (findNode (cli_nodes s) name) as [x|]; [|done]. destruct (already x); [done|].
      destruct (leader_node s); [|done]. intros [= _ <-]. by eexists. }
    destruct Hrun as [H|H]; by eapply Hn2.
  - intros s' Hs. unfold runUncordon, node_op.
    assert (findNode (cli_nodes s') name = None) as ->; [|done].
    unfold findNode. destruct (List.find (called name) (cli_nodes s')) as [x|] eqn:Ef; [|done].
    apply find_some in Ef as [Hin%list_elem_of_In Hc]. unfold cli_nodes in Hin. apply elem_of_keep in Hin as [_ Hin].
    by rewrite (Hs x Hin) in Hc.
Qed.
End cordon.

Definition cordon_state : ProtoClusterState :=
  mkProtoClusterState "c" "a" "1" [nodeToProto node_b; lab_proto "a"] (mkProtoClusterResources (QArith_base.inject_Z 0) "0" 0 "0")
    (mkProtoClusterResources (QArith_base.inject_Z 0) "0" 0 "0") 0 0.

Lemma cordon_removes_the_node_witness :
  let e := mkLogEntry 1 1 node_leave (stringify_leave "b") in
  runCordon "beta" cordon_state = cli_call "10.0.0.1:50051" (rpc_deregister "b" true) /\
  jm_get (mm_nodes (handleCommittedEntry 200 e joined_ab).1) "b" = None.
Proof.
  split; [reflexivity|].
  destruct (DeregisterNode "b" true joined_ab) as [[success st'] calls] eqn:E.
  apply (cordon_removes_the_node "beta" cordon_state "10.0.0.1:50051" "b" joined_ab st' calls).
  - left. reflexivity.
  - rewrite E. by injection E as <-.
  - injection E as _ <- _. reflexivity.
  - apply (bool_decide_unpack _). reflexivity.
  - apply (bool_decide_unpack _). reflexivity.
  - reflexivity.
Defined.
