(* ===== verification/GatewayNet.v ===== *)
(** * Addresses of the gateway

    openclaw/gateway/net.ts and origin-check.ts: loopback and proxy addresses, the
    client behind a proxy, the hosts the gateway binds, and the origins it lets a
    browser connect from.  [net.isIP] is Node's pair of patterns; the parser of URLs
    is a parameter. *)

From S2P Require Import Prelude JsMap JsString JsNumber JsRegExp.
From Stdlib Require Import Ascii.

(** ** Texts *)

(** [s.indexOf(c)] for one character; none is -1. *)
Fixpoint js_indexOf (c : ascii) (s : string) : option Z :=
  match s with
  | EmptyString => None
  | String d t => if Ascii.eqb c d then Some 0 else Z.succ <$> js_indexOf c t
  end.
(** [s.lastIndexOf(c)]. *)
Fixpoint js_lastIndexOf (c : ascii) (s : string) : option Z :=
  match s with
  | EmptyString => None
  | String d t =>
      match js_lastIndexOf c t with
      | Some i => Some (i + 1)
      | None => if Ascii.eqb c d then Some 0 else None
      end
  end.
(** The first piece of [s.split(c)]. *)
Definition first_piece (c : ascii) (s : string) : string := default "" (head (js_split c s)).
(** [s.trim().toLowerCase()]. *)
Definition folded (s : string) : string := js_toLowerCase (js_trim s).

(** ** net.isIP *)

Definition re_v4_seg : regex :=
  re_alts (re_seq (re_lit "25") (re_chr (in_range "0" "5")))
    [re_seqs [re_lit "2"; re_chr (in_range "0" "4"); re_chr is_digit_char];
     re_seqs [re_lit "1"; re_chr is_digit_char; re_chr is_digit_char];
     re_seq (re_chr (in_range "1" "9")) (re_chr is_digit_char);
     re_chr is_digit_char].
Definition re_v4 : regex := re_seq (re_times 3 (re_seq re_v4_seg (re_lit "."))) re_v4_seg.
Definition is_hex_char (c : ascii) : bool := is_digit_char c || in_range "a" "f" c || in_range "A" "F" c.
Definition re_v6_seg : regex := re_seq (re_chr is_hex_char) (re_upto 3 (re_chr is_hex_char)).
Definition re_groups (n : nat) : regex := re_times n (re_seq re_v6_seg (re_lit ":")).
Definition re_tail : regex := re_seq (re_lit ":") re_v6_seg.
(** [(:seg){0,n}:v4] and [(:seg){1,n}]. *)
Definition re_tail_v4 (n : nat) : regex := re_seqs [re_upto n re_tail; re_lit ":"; re_v4].
Definition re_tails (n : nat) : regex := re_seq re_tail (re_upto (pred n) re_tail).
Definition re_v6 : regex :=
  re_seqs [re_start;
    re_alts (re_seq (re_groups 7) (re_alt re_v6_seg (re_lit ":")))
      [re_seq (re_groups 6) (re_alts re_v4 [re_tail; re_lit ":"]);
       re_seq (re_groups 5) (re_alts (re_tail_v4 0) [re_tails 2; re_lit ":"]);
       re_seq (re_groups 4) (re_alts (re_tail_v4 1) [re_tails 3; re_lit ":"]);
       re_seq (re_groups 3) (re_alts (re_tail_v4 2) [re_tails 4; re_lit ":"]);
       re_seq (re_groups 2) (re_alts (re_tail_v4 3) [re_tails 5; re_lit ":"]);
       re_seq (re_groups 1) (re_alts (re_tail_v4 4) [re_tails 6; re_lit ":"]);
       re_seq (re_lit ":") (re_alts (re_tail_v4 5) [re_tails 7; re_lit ":"])];
    re_opt (re_seq (re_lit "%") (re_plus (re_chr (fun c => is_alnum c || one_of "-.:" c))));
    re_end].
Definition isIP (s : string) : Z :=
  if test (re_seqs [re_start; re_v4; re_end]) s then 4 else if test re_v6 s then 6 else 0.

(** ** Interfaces *)

Record NetworkInterface := mkNetworkInterface { ni_address : string; ni_family : string; ni_internal : bool }.

Definition external_v4 (l : list NetworkInterface) : option string :=
  n ← List.find (fun n => String.eqb (ni_family n) "IPv4" && negb (ni_internal n)) l;
  if truthy_str (ni_address n) then Some (ni_address n) else None.

(** The loops over the interfaces: the first that gives an address. *)
Fixpoint first_external (l : list (list NetworkInterface)) : option string :=
  match l with
  | [] => None
  | x :: l => match external_v4 x with Some a => Some a | None => first_external l end
  end.

Definition pickPrimaryLanIPv4 (nets : jsmap (list NetworkInterface)) : option string :=
  match first_external (omap (jm_get nets) ["en0"; "eth0"]) with
  | Some a => Some a
  | None => first_external (jm_values nets)
  end.

(** ** Loopback and proxies *)

Definition isLoopbackAddress (ip : option string) : bool :=
  match ip with
  | Some ip => truthy_str ip &&
      (String.eqb ip "127.0.0.1" || js_startsWith ip "127." || String.eqb ip "::1" || js_startsWith ip "::ffff:127.")
  | None => false
  end.

Definition normalizeIPv4MappedAddress (ip : string) : string :=
  if js_startsWith ip "::ffff:" then js_slice_str_from ip (js_str_length "::ffff:") else ip.

(** [ip?.trim()], or none when nothing is left. *)
Definition trimmed (s : option string) : option string :=
  s ← s; let t := js_trim s in if truthy_str t then Some t else None.

Definition normalizeIp (ip : option string) : option string :=
  (fun t => normalizeIPv4MappedAddress (js_toLowerCase t)) <$> trimmed ip.

Definition stripOptionalPort (ip : string) : string :=
  let plain :=
    if negb (isIP ip =? 0) then ip else
    match js_lastIndexOf ":" ip with
    | Some lastColon =>
        if js_includes ip "." && bool_decide (js_indexOf ":" ip = Some lastColon) then
          let candidate := js_slice_str ip 0 lastColon in
          if isIP candidate =? 4 then candidate else ip
        else ip
    | None => ip
    end in
  if js_startsWith ip "[" then
    match js_indexOf "]" ip with Some e => js_slice_str ip 1 e | None => plain end
  else plain.

Definition parseRealIp (realIp : option string) : option string :=
  raw ← trimmed realIp; normalizeIp (Some (stripOptionalPort raw)).
Definition parseForwardedForClientIp (forwardedFor : option string) : option string :=
  parseRealIp (first_piece "," <$> forwardedFor).

Definition isTrustedProxyAddress (ip : option string) (trustedProxies : list string) : bool :=
  match normalizeIp ip with
  | None => false
  | Some normalized =>
      truthy_str normalized && existsb (fun proxy => bool_decide (normalizeIp (Some proxy) = Some normalized)) trustedProxies
  end.

Definition resolveGatewayClientIp (remoteAddr forwardedFor realIp : option string) (trustedProxies : list string) : option string :=
  remote ← normalizeIp remoteAddr;
  if negb (truthy_str remote) then None else
  if negb (isTrustedProxyAddress (Some remote) trustedProxies) then Some remote else
  match parseForwardedForClientIp forwardedFor with
  | Some ip => Some ip
  | None => match parseRealIp realIp with Some ip => Some ip | None => Some remote end
  end.

Definition isLocalGatewayAddress (tailnetIPv4 tailnetIPv6 : option string) (ip : option string) : bool :=
  isLoopbackAddress ip ||
  match ip with
  | Some ip => truthy_str ip &&
      (match tailnetIPv4 with
       | Some a => truthy_str a && String.eqb (normalizeIPv4MappedAddress (folded ip)) (js_toLowerCase a)
       | None => false
       end ||
       match tailnetIPv6 with
       | Some a => truthy_str a && String.eqb (folded ip) (js_toLowerCase a)
       | None => false
       end)
  | None => false
  end.

(** ** The host to bind *)

Inductive GatewayBindMode := bind_loopback | bind_lan | bind_tailnet | bind_auto | bind_custom.
#[export] Instance GatewayBindMode_eq_dec : EqDecision GatewayBindMode.
Proof. solve_decision. Defined.

Definition isValidIPv4 (host : string) : bool :=
  let parts := js_split "." host in
  (js_length parts =? 4) &&
  forallb (fun part =>
    match parseInt part with
    | Some n => (0 <=? n) && (n <=? 255) && String.eqb part (js_toString n)
    | None => false
    end) parts.

(** [canBind] is the attempt to listen on a port of the host. *)
Section bind.
Context (tailnetIPv4 : option string) (canBindToHost : string -> bool).

Definition resolveGatewayBindHost (bind : option GatewayBindMode) (customHost : option string) : string :=
  let loopback := if canBindToHost "127.0.0.1" then "127.0.0.1" else "0.0.0.0" in
  match default bind_loopback bind with
  | bind_loopback => loopback
  | bind_tailnet =>
      match tailnetIPv4 with
      | Some ip => if truthy_str ip && canBindToHost ip then ip else loopback
      | None => loopback
      end
  | bind_lan => "0.0.0.0"
  | bind_custom =>
      match trimmed customHost with
      | None => "0.0.0.0"
      | Some host => if isValidIPv4 host && canBindToHost host then host else "0.0.0.0"
      end
  | bind_auto => loopback
  end.

Definition resolveGatewayListenHosts (bindHost : string) : list string :=
  if negb (String.eqb bindHost "127.0.0.1") then [bindHost]
  else if canBindToHost "::1" then [bindHost; "::1"] else [bindHost].
End bind.

Definition isLoopbackHost (host : string) : bool :=
  if negb (truthy_str host) then false else
  let h := folded host in
  String.eqb h "localhost" ||
  isLoopbackAddress (Some (if js_startsWith h "[" && js_endsWith h "]" then js_slice_str h 1 (-1) else h)).

(** ** Origins *)

(** The host of a Host header, without brackets or port. *)
Definition resolveHostName (hostHeader : option string) : string :=
  let host := folded (default "" hostHeader) in
  if negb (truthy_str host) then "" else
  match (if js_startsWith host "[" then js_indexOf "]" host else None) with
  | Some e => js_slice_str host 1 e
  | None => first_piece ":" host
  end.

(** What the code reads of [new URL(text)]. *)
Record URL := mkURL { url_origin : string; url_host : string; url_hostname : string }.

Section origin.
(** None when the constructor throws. *)
Context (new_URL : string -> option URL).

Definition parseOrigin (originRaw : option string) : option URL :=
  let t := js_trim (default "" originRaw) in
  if negb (truthy_str t) || String.eqb t "null" then None
  else (fun u => mkURL (js_toLowerCase (url_origin u)) (js_toLowerCase (url_host u)) (js_toLowerCase (url_hostname u))) <$> new_URL t.

(** The reason of a refusal, or none. *)
Definition checkBrowserOrigin (requestHost origin : option string) (allowedOrigins : list string) : option string :=
  match parseOrigin origin with
  | None => Some "origin missing or invalid"
  | Some o =>
      let allowlist := keep truthy_str (folded <$> allowedOrigins) in
      let host := folded (default "" requestHost) in
      if bool_decide (url_origin o ∈ allowlist) then None
      else if truthy_str host && String.eqb (url_host o) host then None
      else if isLoopbackHost (url_hostname o) && isLoopbackHost (resolveHostName (Some host)) then None
      else Some "origin not allowed"
  end.
End origin.

(** ** Theorems *)

Lemma trimmed_idem x t : trimmed x = Some t -> trimmed (Some t) = Some t.
Proof.
  unfold trimmed. destruct x as [s|]; [|done]. cbn. destruct (truthy_str (js_trim s)) eqn:E; [|done]. intros [= <-].
  by rewrite trim_idem, E.
Qed.

Lemma join_split c s : join_with (String c "") (js_split c s) = s.
Proof.
  induction s as [|d s IH]; [done|]. cbn [js_split]. destruct (Ascii.eqb_spec d c) as [->|Hd].
  - destruct (js_split c s) as [|x l] eqn:E; [by destruct s; cbn in E; repeat case_match|].
    change (join_with (String c "") ("" :: x :: l)) with ("" +:+ String c "" +:+ join_with (String c "") (x :: l)).
    by rewrite IH, str_app_nil, str_app_cons, str_app_nil.
  - destruct (js_split c s) as [|x l] eqn:E; [by destruct s; cbn in E; repeat case_match|].
    rewrite <- IH. destruct l as [|y l]; [done|].
    change (join_with (String c "") (?x :: ?y :: ?l)) with (x +:+ String c "" +:+ join_with (String c "") (y :: l)).
    by rewrite str_app_cons.
Qed.

Definition octet (z : Z) : Prop := 0 <= z <= 255.

Lemma octet_part part :
  match parseInt part with
  | Some n => (0 <=? n) && (n <=? 255) && String.eqb part (js_toString n)
  | None => false
  end = true <-> exists n, octet n /\ part = js_toString n.
Proof.
  unfold octet. split.
  - destruct (parseInt part) as [n|]; [|done]. intros H. prop_of_bool. exists n. split; [lia|done].
  - intros (n & Hn & ->). rewrite parseInt_toString, String.eqb_refl, andb_true_r. apply andb_true_intro; lia.
Qed.

(** A host is taken as an IPv4 address exactly when it is the text of four octets, without
    leading zeros, signs or spaces. *)
Theorem isValidIPv4_spec host : isValidIPv4 host = true <->
  exists a b c d, octet a /\ octet b /\ octet c /\ octet d /\
    host = join_with "." [js_toString a; js_toString b; js_toString c; js_toString d].
Proof.
  unfold isValidIPv4. rewrite andb_true_iff, forallb_forall. split.
  - intros [Hl Hp]. apply Z.eqb_eq in Hl. unfold js_length in Hl.
    pose proof (join_split "." host) as Hj.
    destruct (js_split "." host) as [|p [|q [|r [|s [|]]]]]; cbn [length] in Hl; try lia. clear Hl.
    destruct (proj1 (octet_part p) (Hp p ltac:(by left))) as (a & Ha & ->).
    destruct (proj1 (octet_part q) (Hp q ltac:(by right; left))) as (b & Hb & ->).
    destruct (proj1 (octet_part r) (Hp r ltac:(by right; right; left))) as (c & Hc & ->).
    destruct (proj1 (octet_part s) (Hp s ltac:(by right; right; right; left))) as (d & Hd & ->).
    by exists a, b, c, d.
  - intros (a & b & c & d & Ha & Hb & Hc & Hd & ->).
    rewrite js_split_join; [|done|repeat constructor; by apply js_toString_free]. split; [done|].
    intros p Hin. apply octet_part. cbn in Hin. destruct Hin as [<-|[<-|[<-|[<-|[]]]]]; eauto.
Qed.

(** The headers of a request count only behind a trusted proxy: of any other peer the
    client address is the peer's own. *)
Theorem untrusted_headers_ignored remote forwardedFor realIp proxies ip :
  normalizeIp remote = Some ip -> ip <> "" -> isTrustedProxyAddress (Some ip) proxies = false ->
  resolveGatewayClientIp remote forwardedFor realIp proxies = Some ip.
Proof.
  intros Hr Hne Ht. unfold resolveGatewayClientIp, truthy_str. rewrite Hr. cbn.
  by rewrite (proj2 (String.eqb_neq _ _) Hne), Ht.
Qed.

(** The host that is bound can be bound or is every address; with the loopback available
    no mode but [lan] and [custom] binds more than this machine or its tailnet address;
    a custom host that is bound is a valid address. *)
Theorem bind_host_outcome tailnet canBind bind custom :
  let host := resolveGatewayBindHost tailnet canBind bind custom in
  (host = "0.0.0.0" \/ canBind host = true) /\
  (canBind "127.0.0.1" = true -> default bind_loopback bind <> bind_lan -> default bind_loopback bind <> bind_custom ->
   host = "127.0.0.1" \/ (default bind_loopback bind = bind_tailnet /\ tailnet = Some host)) /\
  (bind = Some bind_custom -> host = "0.0.0.0" \/ (trimmed custom = Some host /\ isValidIPv4 host = true)).
Proof.
  unfold resolveGatewayBindHost. cbv zeta.
  destruct (canBind "127.0.0.1") eqn:Hl, bind as [[]|]; cbn [default from_option id];
    try (split_and!; [by auto|by auto|done]).
  all: try (destruct tailnet as [ip|]; [destruct (truthy_str ip && canBind ip) eqn:E|]; prop_of_bool;
    split_and!; by auto).
  all: destruct (trimmed custom) as [h|]; [destruct (isValidIPv4 h && canBind h) eqn:E|]; prop_of_bool;
    split_and!; by auto.
Qed.

(** From a page of another machine's host a connection to a gateway that was not asked for
    on the loopback is accepted only from the origins that are listed. *)
Theorem remote_origin_must_be_listed new_URL requestHost origin allowed :
  isLoopbackHost (resolveHostName (Some (folded (default "" requestHost)))) = false ->
  checkBrowserOrigin new_URL requestHost origin allowed = None <->
  exists o, parseOrigin new_URL origin = Some o /\
    (url_origin o ∈ keep truthy_str (folded <$> allowed) \/
     (folded (default "" requestHost) <> "" /\ url_host o = folded (default "" requestHost))).
Proof.
  intros Hl. unfold checkBrowserOrigin. destruct (parseOrigin new_URL origin) as [o|]; [|by split; [|intros (? & ? & ?)]].
  cbv zeta. rewrite Hl, andb_false_r. case_bool_decide as Ha.
  - split; [|done]. intros _. exists o. auto.
  - unfold truthy_str at 1. destruct (String.eqb_spec (folded (default "" requestHost)) "") as [E|E]; cbn [negb andb].
    + split; [done|]. intros (? & [= <-] & [|[]]); done.
    + destruct (String.eqb_spec (url_host o) (folded (default "" requestHost))) as [E'|E'].
      * split; [|done]. intros _. exists o. auto.
      * split; [done|]. intros (? & [= <-] & [|[]]); done.
Qed.

(** The parser, on one origin. *)
Definition one_origin (text : string) : option URL :=
  if String.eqb text "http://127.evil.example" then Some (mkURL text "127.evil.example" "127.evil.example") else None.

(** Any name that begins with 127. passes for the loopback: a page of such a host may
    connect to a gateway on localhost. *)
Example prefix_taken_for_loopback :
  checkBrowserOrigin one_origin (Some "localhost:18789") (Some "http://127.evil.example") [] = None.
Proof. vm_compute. reflexivity. Qed.

(** Behind a trusted proxy the first address of the list is believed, which the client
    itself may have written. *)
Example client_names_itself :
  resolveGatewayClientIp (Some "10.0.0.1") (Some "127.0.0.1, 203.0.113.9") None ["10.0.0.1"] = Some "127.0.0.1".
Proof. vm_compute. reflexivity. Qed.

Example addresses_read :
  isIP "203.0.113.9" = 4 /\ isIP "::ffff:10.0.0.1" = 6 /\ isIP "fe80::1%eth0" = 6 /\ isIP "256.1.1.1" = 0 /\ isIP "1:2" = 0 /\
  parseForwardedForClientIp (Some " [::1]:443 , 10.0.0.1") = Some "::1" /\
  parseForwardedForClientIp (Some "203.0.113.9:51234") = Some "203.0.113.9" /\
  normalizeIp (Some " ::FFFF:10.0.0.1 ") = Some "10.0.0.1".
Proof. vm_compute. auto 8. Qed.
