(* ===== verification/GatewayAuth.v ===== *)
(** * Authorization of connections and methods

    openclaw/gateway/auth.ts: who may connect, by token, by password or as the user
    Tailscale vouches for; getBearerToken of http-utils.ts; and openclaw/gateway/
    server-methods.ts: which methods a role and its scopes may call.  The lookup of
    the owner of a Tailscale address is a parameter, which may throw. *)

From S2P Require Import Prelude JsMap JsString JsNumber Json GatewayNet.
From Stdlib Require Import Ascii.

(** ** Requests *)

(** [req.headers[name]]. *)
Inductive HeaderValue := one_header (s : string) | many_headers (l : list string).

Record IncomingMessage := mkIncomingMessage {
  remoteAddress : option string;
  host_header : option string;
  headers : jsmap HeaderValue
}.

Definition header_truthy (req : IncomingMessage) (name : string) : bool :=
  match jm_get (headers req) name with
  | Some (one_header s) => truthy_str s
  | Some (many_headers _) => true
  | None => false
  end.

(** [headerValue(req.headers[name])]. *)
Definition headerValue (req : IncomingMessage) (name : string) : option string :=
  match jm_get (headers req) name with
  | Some (one_header s) => Some s
  | Some (many_headers l) => head l
  | None => None
  end.

(** The header when it is one text that is not blank. *)
Definition text_header (req : IncomingMessage) (name : string) : option string :=
  match jm_get (headers req) name with
  | Some (one_header s) => trimmed (Some s)
  | _ => None
  end.

Definition getBearerToken (req : IncomingMessage) : option string :=
  let raw := js_trim (default "" (headerValue req "authorization")) in
  if negb (js_startsWith (js_toLowerCase raw) "bearer ") then None
  else trimmed (Some (js_slice_str_from raw 7)).

(** ** Comparing secrets *)

(** [Buffer.from(s)]. *)
Fixpoint utf8_text (s : string) : string :=
  match s with EmptyString => EmptyString | String c t => utf8 (nat_of_ascii c) +:+ utf8_text t end.

Definition unequal_lengths : string := "Input buffers must have the same byte length".

(** [timingSafeEqual] throws on buffers of different lengths. *)
Definition timingSafeEqual (a b : string) : string + bool :=
  if js_str_length a =? js_str_length b then inr (String.eqb a b) else inl unequal_lengths.

Definition safeEqual (a b : string) : string + bool :=
  if negb (js_str_length a =? js_str_length b) then inr false
  else timingSafeEqual (utf8_text a) (utf8_text b).

(** ** Where a request comes from *)

Definition resolveTailscaleClientIp (req : IncomingMessage) : option string :=
  match headerValue req "x-forwarded-for" with
  | Some f => if truthy_str f then parseForwardedForClientIp (Some f) else None
  | None => None
  end.

Definition resolveRequestClientIp (req : IncomingMessage) (trustedProxies : list string) : option string :=
  resolveGatewayClientIp (Some (default "" (remoteAddress req))) (headerValue req "x-forwarded-for")
    (headerValue req "x-real-ip") trustedProxies.

Definition hasForwarded (req : IncomingMessage) : bool :=
  header_truthy req "x-forwarded-for" || header_truthy req "x-real-ip" || header_truthy req "x-forwarded-host".

Definition getHostName (hostHeader : option string) : string := resolveHostName hostHeader.

Definition isLocalDirectRequest (req : option IncomingMessage) (trustedProxies : list string) : bool :=
  match req with
  | None => false
  | Some req =>
      if negb (isLoopbackAddress (Some (default "" (resolveRequestClientIp req trustedProxies)))) then false else
      let host := getHostName (host_header req) in
      let hostIsLocal := String.eqb host "localhost" || String.eqb host "127.0.0.1" || String.eqb host "::1" in
      let hostIsTailscaleServe := js_endsWith host ".ts.net" in
      (hostIsLocal || hostIsTailscaleServe) &&
      (negb (hasForwarded req) || isTrustedProxyAddress (remoteAddress req) trustedProxies)
  end.

(** ** The user Tailscale vouches for *)

Record TailscaleUser := mkTailscaleUser { tu_login : string; tu_name : string; tu_profilePic : option string }.
Record WhoisIdentity := mkWhoisIdentity { wi_login : string; wi_name : option string }.

Definition getTailscaleUser (req : option IncomingMessage) : option TailscaleUser :=
  req ← req; login ← text_header req "tailscale-user-login";
  Some (mkTailscaleUser login (default login (text_header req "tailscale-user-name"))
          (text_header req "tailscale-user-profile-pic")).

Definition hasTailscaleProxyHeaders (req : IncomingMessage) : bool :=
  header_truthy req "x-forwarded-for" && header_truthy req "x-forwarded-proto" && header_truthy req "x-forwarded-host".

Definition isTailscaleProxyRequest (req : IncomingMessage) : bool :=
  isLoopbackAddress (remoteAddress req) && hasTailscaleProxyHeaders req.

Definition normalizeLogin (login : string) : string := folded login.

(** ** Connections *)

Inductive ResolvedGatewayAuthMode := mode_token | mode_password.
#[export] Instance ResolvedGatewayAuthMode_eq_dec : EqDecision ResolvedGatewayAuthMode.
Proof. solve_decision. Defined.

Record GatewayAuthConfig := mkGatewayAuthConfig {
  ac_token : option string; ac_password : option string;
  ac_mode : option ResolvedGatewayAuthMode; ac_allowTailscale : option bool
}.
Record ResolvedGatewayAuth := mkResolvedGatewayAuth {
  ga_mode : ResolvedGatewayAuthMode; ga_token : option string; ga_password : option string; ga_allowTailscale : bool
}.

(** [a ?? b]. *)
Definition nullish {A} (a b : option A) : option A := match a with Some _ => a | None => b end.

(** [serve] is the test of the Tailscale mode. *)
Definition resolveGatewayAuth (authConfig : option GatewayAuthConfig) (env : jsmap string) (serve : bool) : ResolvedGatewayAuth :=
  let authConfig := default (mkGatewayAuthConfig None None None None) authConfig in
  let token := nullish (ac_token authConfig) (nullish (jm_get env "OPENCLAW_GATEWAY_TOKEN") (jm_get env "CLAWDBOT_GATEWAY_TOKEN")) in
  let password := nullish (ac_password authConfig)
                    (nullish (jm_get env "OPENCLAW_GATEWAY_PASSWORD") (jm_get env "CLAWDBOT_GATEWAY_PASSWORD")) in
  let mode := default (if truthy_opt password then mode_password else mode_token) (ac_mode authConfig) in
  mkResolvedGatewayAuth mode token password
    (default (serve && bool_decide (mode <> mode_password)) (ac_allowTailscale authConfig)).

(** The message of the exception, or none. *)
Definition assertGatewayAuthConfigured (auth : ResolvedGatewayAuth) : option string :=
  if bool_decide (ga_mode auth = mode_token) && negb (truthy_opt (ga_token auth)) then
    if ga_allowTailscale auth then None
    else Some "gateway auth mode is token, but no token was configured (set gateway.auth.token or OPENCLAW_GATEWAY_TOKEN)"
  else if bool_decide (ga_mode auth = mode_password) && negb (truthy_opt (ga_password auth))
  then Some "gateway auth mode is password, but no password was configured"
  else None.

Inductive GatewayAuthResult :=
  | by_token | by_password | by_tailscale (user : string)
  | refused (reason : string).

Section connect.
Context (tailscaleWhois : string -> string + option WhoisIdentity).

(** The exception of the lookup, the reason of a refusal, or the user. *)
Definition resolveVerifiedTailscaleUser (req : option IncomingMessage) : string + (string + TailscaleUser) :=
  match req, getTailscaleUser req with
  | Some req, Some user =>
      if negb (isTailscaleProxyRequest req) then inr (inl "tailscale_proxy_missing") else
      match resolveTailscaleClientIp req with
      | None => inr (inl "tailscale_whois_failed")
      | Some ip =>
          if negb (truthy_str ip) then inr (inl "tailscale_whois_failed") else
          match tailscaleWhois ip with
          | inl e => inl e
          | inr None => inr (inl "tailscale_whois_failed")
          | inr (Some whois) =>
              if negb (truthy_str (wi_login whois)) then inr (inl "tailscale_whois_failed")
              else if negb (String.eqb (normalizeLogin (wi_login whois)) (normalizeLogin (tu_login user)))
              then inr (inl "tailscale_user_mismatch")
              else inr (inr (mkTailscaleUser (wi_login whois) (default (tu_name user) (wi_name whois)) (tu_profilePic user)))
          end
      end
  | _, _ => inr (inl "tailscale_user_missing")
  end.

(** One secret: the configured one, the one sent, and the texts of the refusals. *)
Definition check_secret (configured sent : option string) (what : string) (granted : GatewayAuthResult) :
    string + GatewayAuthResult :=
  match configured, sent with
  | Some c, s =>
      if negb (truthy_str c) then inr (refused (what +:+ "_missing_config"))
      else if negb (truthy_opt s) then inr (refused (what +:+ "_missing"))
      else match safeEqual (default "" s) c with
           | inl e => inl e
           | inr b => inr (if (b : bool) then granted else refused (what +:+ "_mismatch"))
           end
  | None, _ => inr (refused (what +:+ "_missing_config"))
  end.

Definition authorizeGatewayConnect (auth : ResolvedGatewayAuth) (token password : option string)
    (req : option IncomingMessage) (trustedProxies : list string) : string + GatewayAuthResult :=
  let by_secret :=
    match ga_mode auth with
    | mode_token => check_secret (ga_token auth) token "token" by_token
    | mode_password => check_secret (ga_password auth) password "password" by_password
    end in
  if ga_allowTailscale auth && negb (isLocalDirectRequest req trustedProxies) then
    match resolveVerifiedTailscaleUser req with
    | inl e => inl e
    | inr (inr user) => inr (by_tailscale (tu_login user))
    | inr (inl _) => by_secret
    end
  else by_secret.
End connect.

(** ** Theorems on connections *)

(** The bytes of a text determine it. *)
Lemma utf8_byte c : exists b t, utf8 (nat_of_ascii c) = String b t /\
  ((nat_of_ascii b < 128)%nat /\ b = c /\ t = "" \/
   (128 <= nat_of_ascii b)%nat /\ exists d, t = String d "" /\
     (nat_of_ascii c = 64 * (nat_of_ascii b - 192) + (nat_of_ascii d - 128))%nat).
Proof.
  pose proof (nat_ascii_bounded c) as Hc. unfold utf8.
  destruct (Nat.ltb_spec (nat_of_ascii c) 128) as [H|H].
  - exists (ascii_of_nat (nat_of_ascii c)), "". rewrite ascii_nat_embedding. auto.
  - destruct (Nat.ltb_spec (nat_of_ascii c) 2048) as [_|]; [|lia].
    assert (Hq : (nat_of_ascii c / 64 < 4)%nat) by (apply Nat.Div0.div_lt_upper_bound; lia).
    pose proof (Nat.mod_upper_bound (nat_of_ascii c) 64 ltac:(lia)) as Hm.
    pose proof (Nat.div_mod (nat_of_ascii c) 64 ltac:(lia)) as Hdm.
    eexists _, _. split; [reflexivity|]. right.
    rewrite nat_ascii_embedding by lia. split; [lia|]. eexists. split; [reflexivity|].
    rewrite nat_ascii_embedding by lia. lia.
Qed.

Lemma utf8_text_inj a b : utf8_text a = utf8_text b -> a = b.
Proof.
  revert b. induction a as [|c a IH]; intros [|d b]; cbn [utf8_text]; [done| | |].
  - destruct (utf8_byte d) as (x & t & -> & _). done.
  - destruct (utf8_byte c) as (x & t & -> & _). done.
  - destruct (utf8_byte c) as (x & t & -> & Hx), (utf8_byte d) as (y & u & -> & Hy).
    rewrite !str_app_cons. intros [= <- H].
    destruct Hx as [(Hx & Hxc & ->)|(Hx & p & -> & Hc)], Hy as [(Hy & Hyd & ->)|(Hy & q & -> & Hd)]; try lia.
    + subst c d. f_equal. by apply IH.
    + rewrite !str_app_cons in H. injection H as <- H. f_equal; [|by apply IH].
      rewrite <- (ascii_nat_embedding c), <- (ascii_nat_embedding d), Hc, Hd. done.
Qed.

Definition ascii_text (s : string) : Prop := utf8_text s = s.

(** Two secrets are taken as equal only if they are; on ASCII texts the comparison is
    equality, and otherwise it may throw. *)
Lemma safeEqual_true a b : safeEqual a b = inr true <-> a = b.
Proof.
  unfold safeEqual, timingSafeEqual. split.
  - destruct (negb _); [done|]. destruct (_ =? _); [|done]. intros [= H%String.eqb_eq]. by apply utf8_text_inj.
  - intros ->. by rewrite !Z.eqb_refl, String.eqb_refl.
Qed.

Lemma safeEqual_ascii a b : ascii_text a -> ascii_text b -> safeEqual a b = inr (String.eqb a b).
Proof.
  unfold safeEqual, timingSafeEqual. intros -> ->. destruct (_ =? _) eqn:E; [done|]. cbn.
  destruct (String.eqb_spec a b) as [->|]; [by rewrite Z.eqb_refl in E|done].
Qed.

(** Letters with diacritics in a guess of the right length end the check with an
    exception. *)
Example guess_throws : safeEqual (String (ascii_of_nat 233) "b") "ab" = inl unequal_lengths.
Proof. reflexivity. Qed.

Definition knows (configured sent : option string) : Prop :=
  exists s, s <> "" /\ configured = Some s /\ sent = Some s.

(** The request comes from the proxy of this machine, with the three headers it sets, and
    the owner of the address it reports is the user it names. *)
Definition vouched (whois : string -> string + option WhoisIdentity) (req : option IncomingMessage) (user : string) : Prop :=
  exists r u ip w, req = Some r /\ getTailscaleUser req = Some u /\
    isLoopbackAddress (remoteAddress r) = true /\ hasTailscaleProxyHeaders r = true /\
    resolveTailscaleClientIp r = Some ip /\ ip <> "" /\ whois ip = inr (Some w) /\
    user = wi_login w /\ user <> "" /\ normalizeLogin user = normalizeLogin (tu_login u).

Lemma verified_spec whois req :
  match resolveVerifiedTailscaleUser whois req with
  | inl _ => True
  | inr (inr u) => vouched whois req (tu_login u)
  | inr (inl _) => forall user, ~ vouched whois req user
  end.
Proof.
  unfold resolveVerifiedTailscaleUser. destruct req as [r|]; [|by intros user (? & ? & ? & ? & ? & _)].
  destruct (getTailscaleUser (Some r)) as [u|] eqn:Hu; [|intros user (? & ? & ? & ? & _ & ? & _); congruence].
  unfold isTailscaleProxyRequest. destruct (isLoopbackAddress (remoteAddress r) && hasTailscaleProxyHeaders r) eqn:Hp; cbn [negb].
  2: { intros user (r' & ? & ? & ? & [= <-] & _ & H1 & H2 & _). by rewrite H1, H2 in Hp. }
  apply andb_true_iff in Hp as [Hp1 Hp2].
  destruct (resolveTailscaleClientIp r) as [ip|] eqn:Hip.
  2: { intros user (r' & ? & ? & ? & [= <-] & _ & _ & _ & H & _). congruence. }
  destruct (truthy_str ip) eqn:Ht; cbn [negb].
  2: { apply truthy_str_false in Ht. intros user (r' & ? & ? & ? & [= <-] & _ & _ & _ & H & H' & _). congruence. }
  apply truthy_str_true in Ht. destruct (whois ip) as [e|[w|]] eqn:Hw; [done| |].
  2: { intros user (r' & ? & ip' & ? & [= <-] & _ & _ & _ & H & _ & H' & _). congruence. }
  destruct (truthy_str (wi_login w)) eqn:Hl; cbn [negb].
  2: { apply truthy_str_false in Hl. intros user (r' & ? & ip' & w' & [= <-] & _ & _ & _ & H & _ & H' & -> & Hne & _).
       assert (w' = w) as -> by congruence. done. }
  apply truthy_str_true in Hl. destruct (String.eqb_spec (normalizeLogin (wi_login w)) (normalizeLogin (tu_login u))) as [E|E]; cbn [negb].
  - exists r, u, ip, w. by split_and!.
  - intros user (r' & u' & ip' & w' & [= <-] & Hu' & _ & _ & H & _ & H' & -> & _ & Hn).
    assert (w' = w) as -> by congruence. assert (u' = u) as -> by congruence. done.
Qed.

(** What a secret decides, when the comparison does not throw. *)
Lemma check_secret_spec configured sent what granted :
  match check_secret configured sent what granted with
  | inl _ => True
  | inr r => (r = granted /\ knows configured sent) \/ (~ knows configured sent /\ exists reason, r = refused reason)
  end.
Proof.
  unfold check_secret, knows. destruct configured as [c|]; [|right; split; [by intros (? & _ & [=] & _)|by eexists]].
  destruct (truthy_str c) eqn:Hc; cbn [negb].
  2: { apply truthy_str_false in Hc. right. split; [intros (? & ? & ? & _); congruence|by eexists]. }
  apply truthy_str_true in Hc. destruct sent as [s|]; cbn [truthy_opt default from_option id negb].
  2: { right. split; [by intros (? & _ & _ & [=])|by eexists]. }
  destruct (truthy_str s) eqn:Hs; cbn [negb].
  2: { apply truthy_str_false in Hs. right. split; [intros (? & ? & ? & ?); congruence|by eexists]. }
  destruct (safeEqual s c) as [e|[]] eqn:E; [done| |].
  - apply safeEqual_true in E as ->. left. eauto.
  - right. split; [|by eexists]. intros (x & _ & [= ->] & [= ->]). by rewrite (proj2 (safeEqual_true x x)) in E.
Qed.

(** The secret of the mode the gateway is in. *)
Definition knows_secret (auth : ResolvedGatewayAuth) (token password : option string) : Prop :=
  match ga_mode auth with
  | mode_token => knows (ga_token auth) token
  | mode_password => knows (ga_password auth) password
  end.

Definition by_mode (auth : ResolvedGatewayAuth) : GatewayAuthResult :=
  match ga_mode auth with mode_token => by_token | mode_password => by_password end.

(** Whether Tailscale is asked at all. *)
Definition asks_tailscale (auth : ResolvedGatewayAuth) req proxies : bool :=
  ga_allowTailscale auth && negb (isLocalDirectRequest req proxies).

(** What a decision says of the request. *)
Definition rightly whois auth token password req proxies (r : GatewayAuthResult) : Prop :=
  let nobody := asks_tailscale auth req proxies = true -> forall user, ~ vouched whois req user in
  match r with
  | by_tailscale user => asks_tailscale auth req proxies = true /\ vouched whois req user
  | refused _ => ~ knows_secret auth token password /\ nobody
  | granted => granted = by_mode auth /\ knows_secret auth token password /\ nobody
  end.

(** A connection is accepted exactly for the secret of the mode, or as the user Tailscale
    vouches for when that is allowed and the request is not a local one; every other
    connection is refused with a reason, or ends with the exception of the lookup or of
    the comparison. *)
Theorem connection_decision whois auth token password req proxies r :
  authorizeGatewayConnect whois auth token password req proxies = inr r ->
  rightly whois auth token password req proxies r.
Proof.
  unfold authorizeGatewayConnect, rightly, knows_secret, by_mode. fold (asks_tailscale auth req proxies).
  pose proof (check_secret_spec (ga_token auth) token "token" by_token) as Ht.
  pose proof (check_secret_spec (ga_password auth) password "password" by_password) as Hp.
  pose proof (verified_spec whois req) as Hv.
  destruct (asks_tailscale auth req proxies); [destruct (resolveVerifiedTailscaleUser whois req) as [e|[e|u]]; [done| |by intros [= <-]]|];
    destruct (ga_mode auth); intros E; rewrite E in *;
    (destruct Ht as [[-> Hk]|[Hk [x ->]]] || destruct Hp as [[-> Hk]|[Hk [x ->]]]); split_and!; first [done | intros _; exact Hv | by intros].
Qed.

Definition from_tailscale : IncomingMessage :=
  mkIncomingMessage (Some "127.0.0.1") (Some "box.tail1234.ts.net")
    [("x-forwarded-for", one_header "100.64.0.9"); ("x-forwarded-proto", one_header "https");
     ("x-forwarded-host", one_header "box.tail1234.ts.net"); ("tailscale-user-login", one_header "Ann@Example.com")].
Definition knows_ann (ip : string) : string + option WhoisIdentity :=
  inr (if String.eqb ip "100.64.0.9" then Some (mkWhoisIdentity "ann@example.com" None) else None).

Lemma connection_decision_witness :
  let auth := mkResolvedGatewayAuth mode_token (Some "s3cret") None true in
  vouched knows_ann (Some from_tailscale) "ann@example.com" /\ ~ knows_secret auth (Some "s3cr3t") None.
Proof.
  cbn zeta. set (auth := mkResolvedGatewayAuth _ _ _ _). split.
  - exact (proj2 (connection_decision knows_ann auth None None (Some from_tailscale) [] (by_tailscale "ann@example.com") eq_refl)).
  - exact (proj1 (connection_decision knows_ann auth (Some "s3cr3t") None None [] (refused "token_mismatch") eq_refl)).
Defined.

(** A connection from another machine that is no trusted proxy is never a local one,
    whatever its headers say. *)
Theorem remote_is_not_local r proxies ip :
  normalizeIp (remoteAddress r) = Some ip -> isLoopbackAddress (Some ip) = false -> isTrustedProxyAddress (Some ip) proxies = false ->
  isLocalDirectRequest (Some r) proxies = false.
Proof.
  intros Hr Hl Ht. unfold isLocalDirectRequest, resolveRequestClientIp.
  assert (Hr' : normalizeIp (Some (default "" (remoteAddress r))) = Some ip) by (by destruct (remoteAddress r)).
  destruct (String.eqb_spec ip "") as [->|Hne].
  - unfold resolveGatewayClientIp. by rewrite Hr'.
  - rewrite (untrusted_headers_ignored _ _ _ _ _ Hr' Hne Ht). cbn [default from_option id]. by rewrite Hl.
Qed.

(** A gateway that starts with its settings accepted has a secret or accepts Tailscale. *)
Lemma configured_has_a_way_in auth : assertGatewayAuthConfigured auth = None ->
  ga_allowTailscale auth = true \/
  match ga_mode auth with mode_token => truthy_opt (ga_token auth) | mode_password => truthy_opt (ga_password auth) end = true.
Proof.
  unfold assertGatewayAuthConfigured. destruct (ga_mode auth);
    [destruct (truthy_opt (ga_token auth))|destruct (truthy_opt (ga_password auth))];
    destruct (ga_allowTailscale auth); cbn; auto; discriminate.
Qed.
