(* ===== verification/GatewayMethods.v ===== *)
(** * Methods, events and commands of the gateway

    openclaw/gateway/server-methods.ts: which methods a client may call;
    server-broadcast.ts: which clients an event reaches; node-command-policy.ts: which
    commands a node may be sent.  The handlers, the payloads and the frames are opaque. *)

From S2P Require Import Prelude JsMap JsString JsNumber GatewayNet.
From Stdlib Require Import Ascii.

(** ** Clients *)

Record GatewayWsClient := mkGatewayWsClient {
  gc_connId : string;
  gc_role : option string;
  gc_scopes : option (list string)
}.

Definition role_of (c : GatewayWsClient) : string := default "operator" (gc_role c).
Definition scopes_of (c : GatewayWsClient) : list string := default [] (gc_scopes c).

Definition ADMIN_SCOPE : string := "operator.admin".
Definition READ_SCOPE : string := "operator.read".
Definition WRITE_SCOPE : string := "operator.write".
Definition APPROVALS_SCOPE : string := "operator.approvals".
Definition PAIRING_SCOPE : string := "operator.pairing".

(** ** Methods *)

Definition APPROVAL_METHODS : list string := ["exec.approval.request"; "exec.approval.resolve"].
Definition NODE_ROLE_METHODS : list string := ["node.invoke.result"; "node.event"; "skills.bins"].
Definition PAIRING_METHODS : list string :=
  ["node.pair.request"; "node.pair.list"; "node.pair.approve"; "node.pair.reject"; "node.pair.verify";
   "device.pair.list"; "device.pair.approve"; "device.pair.reject"; "device.token.rotate"; "device.token.revoke"; "node.rename"].
Definition ADMIN_METHOD_PREFIXES : list string := ["exec.approvals."].
Definition READ_METHODS : list string :=
  ["health"; "logs.tail"; "channels.status"; "status"; "usage.status"; "usage.cost"; "tts.status"; "tts.providers";
   "models.list"; "agents.list"; "agent.identity.get"; "skills.status"; "voicewake.get"; "sessions.list";
   "sessions.preview"; "cron.list"; "cron.status"; "cron.runs"; "system-presence"; "last-heartbeat"; "node.list";
   "node.describe"; "chat.history"].
Definition WRITE_METHODS : list string :=
  ["send"; "agent"; "agent.wait"; "wake"; "talk.mode"; "tts.enable"; "tts.disable"; "tts.convert"; "tts.setProvider";
   "voicewake.set"; "node.invoke"; "chat.send"; "chat.abort"; "browser.request"].
(** The methods the last test lists by name. *)
Definition ADMIN_METHODS : list string :=
  ["channels.logout"; "agents.create"; "agents.update"; "agents.delete"; "skills.install"; "skills.update"; "cron.add";
   "cron.update"; "cron.remove"; "cron.run"; "sessions.patch"; "sessions.reset"; "sessions.delete"; "sessions.compact"].

Definition has (l : list string) (s : string) : bool := bool_decide (s ∈ l).

(** The message of the refusal, of the code INVALID_REQUEST, or none. *)
Definition authorizeGatewayMethod (method : string) (client : option GatewayWsClient) : option string :=
  match client with
  | None => None
  | Some c =>
      let role := role_of c in
      let scopes := scopes_of c in
      let unauthorized := Some ("unauthorized role: " +:+ role) in
      if has NODE_ROLE_METHODS method then
        if String.eqb role "node" then None else unauthorized
      else if String.eqb role "node" then unauthorized
      else if negb (String.eqb role "operator") then unauthorized
      else if has scopes ADMIN_SCOPE then None
      else if has APPROVAL_METHODS method && negb (has scopes APPROVALS_SCOPE) then Some "missing scope: operator.approvals"
      else if has PAIRING_METHODS method && negb (has scopes PAIRING_SCOPE) then Some "missing scope: operator.pairing"
      else if has READ_METHODS method && negb (has scopes READ_SCOPE || has scopes WRITE_SCOPE) then Some "missing scope: operator.read"
      else if has WRITE_METHODS method && negb (has scopes WRITE_SCOPE) then Some "missing scope: operator.write"
      else if has APPROVAL_METHODS method then None
      else if has PAIRING_METHODS method then None
      else if has READ_METHODS method then None
      else if has WRITE_METHODS method then None
      else if existsb (js_startsWith method) ADMIN_METHOD_PREFIXES then Some "missing scope: operator.admin"
      else if js_startsWith method "config." || js_startsWith method "wizard." || js_startsWith method "update." ||
              has ADMIN_METHODS method then Some "missing scope: operator.admin"
      else Some "missing scope: operator.admin"
  end.

(** The members an object literal has of [Object.prototype]; all are functions but the
    last. *)
Definition inherited_names : list string :=
  ["constructor"; "hasOwnProperty"; "isPrototypeOf"; "propertyIsEnumerable"; "toLocaleString"; "toString"; "valueOf";
   "__defineGetter__"; "__defineSetter__"; "__lookupGetter__"; "__lookupSetter__"; "__proto__"].

Inductive Member {H : Type} := own (h : H) | inherited | no_member.
Arguments Member : clear implicits.

Definition member_of {H} (o : jsmap H) (name : string) : Member H :=
  match jm_get o name with
  | Some h => own h
  | None => if has inherited_names name then inherited else no_member
  end.

(** What a request comes to: an answer with an error, the call of a handler, or the call
    of an inherited member, which answers nothing. *)
Inductive Dispatch {H : Type} := answer_error (message : string) | call_handler (h : H) | call_inherited.
Arguments Dispatch : clear implicits.

Definition handleGatewayRequest {H} (extraHandlers : option (jsmap H)) (coreGatewayHandlers : jsmap H)
    (method : string) (client : option GatewayWsClient) : Dispatch H :=
  match authorizeGatewayMethod method client with
  | Some e => answer_error e
  | None =>
      let extra := match extraHandlers with Some o => member_of o method | None => no_member end in
      match (match extra with no_member => member_of coreGatewayHandlers method | m => m end) with
      | own h => call_handler h
      | inherited => call_inherited
      | no_member => answer_error ("unknown method: " +:+ method)
      end
  end.

(** ** Events *)

Definition EVENT_SCOPE_GUARDS : jsmap (list string) :=
  [("exec.approval.requested", [APPROVALS_SCOPE]); ("exec.approval.resolved", [APPROVALS_SCOPE]);
   ("device.pair.requested", [PAIRING_SCOPE]); ("device.pair.resolved", [PAIRING_SCOPE]);
   ("node.pair.requested", [PAIRING_SCOPE]); ("node.pair.resolved", [PAIRING_SCOPE])].

Definition hasEventScope (c : GatewayWsClient) (event : string) : bool :=
  match jm_get EVENT_SCOPE_GUARDS event with
  | None => true
  | Some required =>
      if negb (String.eqb (role_of c) "operator") then false
      else has (scopes_of c) ADMIN_SCOPE || existsb (has (scopes_of c)) required
  end.

Definition MAX_BUFFERED_BYTES : Z := 1572864.

(** A connection as a broadcast finds it: the client, the bytes that wait in its socket,
    and whether sending throws. *)
Record Connection := mkConnection { cn_client : GatewayWsClient; cn_buffered : Z; cn_broken : bool }.

Section events.
Context {P : Type}.

Record Frame := mkFrame { fr_event : string; fr_payload : P; fr_seq : option Z; fr_stateVersion : option (option Z * option Z) }.
Inductive SocketAction := sock_send (connId : string) (f : Frame) | sock_close (connId : string) (code : Z) (reason : string).
Record BroadcastOpts := mkBroadcastOpts { bo_dropIfSlow : bool; bo_stateVersion : option (option Z * option Z) }.

Definition deliver (event : string) (f : Frame) (dropIfSlow : bool) (targetConnIds : option (list string)) (c : Connection) :
    list SocketAction :=
  let id := gc_connId (cn_client c) in
  if match targetConnIds with Some l => negb (has l id) | None => false end then []
  else if negb (hasEventScope (cn_client c) event) then []
  else let slow := MAX_BUFFERED_BYTES <? cn_buffered c in
    if slow && dropIfSlow then []
    else if slow then [sock_close id 1008 "slow consumer"]
    else if cn_broken c then [] else [sock_send id f].

(** The counter, and what is done with the sockets. *)
Definition broadcastInternal (clients : list Connection) (event : string) (payload : P) (opts : BroadcastOpts)
    (targetConnIds : option (list string)) (seq : Z) : Z * list SocketAction :=
  let isTargeted := match targetConnIds with Some _ => true | None => false end in
  let seq' := if isTargeted then seq else seq + 1 in
  let f := mkFrame event payload (if isTargeted then None else Some seq') (bo_stateVersion opts) in
  (seq', mjoin (deliver event f (bo_dropIfSlow opts) targetConnIds <$> clients)).

Definition broadcast clients event payload opts seq := broadcastInternal clients event payload opts None seq.
Definition broadcastToConnIds clients event payload connIds opts seq : Z * list SocketAction :=
  match connIds with
  | [] => (seq, [])
  | _ => broadcastInternal clients event payload opts (Some connIds) seq
  end.
End events.
Arguments Frame : clear implicits.
Arguments SocketAction : clear implicits.

(** ** Commands of nodes *)

Definition CANVAS_COMMANDS : list string :=
  ["canvas.present"; "canvas.hide"; "canvas.navigate"; "canvas.eval"; "canvas.snapshot"; "canvas.a2ui.push";
   "canvas.a2ui.pushJSONL"; "canvas.a2ui.reset"].
Definition CAMERA_COMMANDS : list string := ["camera.list"].
Definition CAMERA_DANGEROUS_COMMANDS : list string := ["camera.snap"; "camera.clip"].
Definition SCREEN_DANGEROUS_COMMANDS : list string := ["screen.record"].
Definition LOCATION_COMMANDS : list string := ["location.get"].
Definition DEVICE_COMMANDS : list string := ["device.info"; "device.status"].
Definition CONTACTS_COMMANDS : list string := ["contacts.search"].
Definition CONTACTS_DANGEROUS_COMMANDS : list string := ["contacts.add"].
Definition CALENDAR_COMMANDS : list string := ["calendar.events"].
Definition CALENDAR_DANGEROUS_COMMANDS : list string := ["calendar.add"].
Definition REMINDERS_COMMANDS : list string := ["reminders.list"].
Definition REMINDERS_DANGEROUS_COMMANDS : list string := ["reminders.add"].
Definition PHOTOS_COMMANDS : list string := ["photos.latest"].
Definition MOTION_COMMANDS : list string := ["motion.activity"; "motion.pedometer"].
Definition SMS_DANGEROUS_COMMANDS : list string := ["sms.send"].
Definition IOS_SYSTEM_COMMANDS : list string := ["system.notify"].
Definition SYSTEM_COMMANDS : list string :=
  ["system.run"; "system.which"; "system.notify"; "system.execApprovals.get"; "system.execApprovals.set"; "browser.proxy"].
Definition DEFAULT_DANGEROUS_NODE_COMMANDS : list string :=
  CAMERA_DANGEROUS_COMMANDS ++ SCREEN_DANGEROUS_COMMANDS ++ CONTACTS_DANGEROUS_COMMANDS ++
  CALENDAR_DANGEROUS_COMMANDS ++ REMINDERS_DANGEROUS_COMMANDS ++ SMS_DANGEROUS_COMMANDS.

Inductive PlatformId := ios | android | macos | linux | windows | unknown_platform.

Definition MOBILE_COMMANDS : list string :=
  CANVAS_COMMANDS ++ CAMERA_COMMANDS ++ LOCATION_COMMANDS ++ DEVICE_COMMANDS ++ CONTACTS_COMMANDS ++
  CALENDAR_COMMANDS ++ REMINDERS_COMMANDS ++ PHOTOS_COMMANDS ++ MOTION_COMMANDS.
Definition PLATFORM_DEFAULTS (p : PlatformId) : list string :=
  match p with
  | ios => MOBILE_COMMANDS ++ IOS_SYSTEM_COMMANDS
  | android => MOBILE_COMMANDS
  | macos => MOBILE_COMMANDS ++ SYSTEM_COMMANDS
  | linux => SYSTEM_COMMANDS
  | windows => SYSTEM_COMMANDS
  | unknown_platform => CANVAS_COMMANDS ++ CAMERA_COMMANDS ++ LOCATION_COMMANDS ++ SYSTEM_COMMANDS
  end.

Definition normalizePlatformId (platform deviceFamily : option string) : PlatformId :=
  let raw := folded (default "" platform) in
  let starts := js_startsWith raw in
  if starts "ios" then ios
  else if starts "android" then android
  else if starts "mac" then macos
  else if starts "darwin" then macos
  else if starts "win" then windows
  else if starts "linux" then linux
  else
    let family := folded (default "" deviceFamily) in
    let includes := js_includes family in
    if includes "iphone" || includes "ipad" || includes "ios" then ios
    else if includes "android" then android
    else if includes "mac" then macos
    else if includes "windows" then windows
    else if includes "linux" then linux
    else unknown_platform.

(** A Set is the list of its members. *)
Definition resolveNodeCommandAllowlist (allowCommands denyCommands : option (list string)) (platform deviceFamily : option string) :
    list string :=
  let base := PLATFORM_DEFAULTS (normalizePlatformId platform deviceFamily) in
  let allow := keep truthy_str (js_trim <$> (base ++ default [] allowCommands)) in
  foldl (fun allow blocked =>
           let t := js_trim blocked in
           if truthy_str t then keep (fun c => negb (String.eqb c t)) allow else allow)
    allow (default [] denyCommands).

(** The reason of a refusal, or none. *)
Definition isNodeCommandAllowed (command : string) (declaredCommands : option (list string)) (allowlist : list string) : option string :=
  let command := js_trim command in
  if negb (truthy_str command) then Some "command required"
  else if negb (has allowlist command) then Some "command not allowlisted"
  else match declaredCommands with
       | Some ((_ :: _) as l) => if negb (has l command) then Some "command not declared by node" else None
       | _ => Some "node did not declare commands"
       end.

(** ** Theorems on methods *)

Lemma has_true l s : has l s = true <-> s ∈ l.
Proof. apply bool_decide_eq_true. Qed.
Lemma has_false l s : has l s = false <-> s ∉ l.
Proof. apply bool_decide_eq_false. Qed.

Definition disjointb (l k : list string) : bool := forallb (fun s => negb (has k s)) l.
Lemma disjointb_spec l k s : disjointb l k = true -> has l s = true -> has k s = false.
Proof.
  unfold disjointb. rewrite forallb_forall. intros H Hl%has_true. apply negb_true_iff, H.
  by apply list_elem_of_In.
Qed.

(** The scope that opens a method to an operator who is not an administrator. *)
Definition opened_by (scopes : list string) (method : string) : Prop :=
  (method ∈ APPROVAL_METHODS /\ APPROVALS_SCOPE ∈ scopes) \/
  (method ∈ PAIRING_METHODS /\ PAIRING_SCOPE ∈ scopes) \/
  (method ∈ READ_METHODS /\ (READ_SCOPE ∈ scopes \/ WRITE_SCOPE ∈ scopes)) \/
  (method ∈ WRITE_METHODS /\ WRITE_SCOPE ∈ scopes).

(** A client may call exactly: a node the three methods of nodes; an operator no method of
    nodes, and of the others all as administrator, and otherwise those its scopes open; any
    other role nothing.  A method that no table lists needs an administrator. *)
Theorem method_authorization method c :
  authorizeGatewayMethod method (Some c) = None <->
  (role_of c = "node" /\ method ∈ NODE_ROLE_METHODS) \/
  (role_of c = "operator" /\ (method ∉ NODE_ROLE_METHODS) /\
   (ADMIN_SCOPE ∈ scopes_of c \/ opened_by (scopes_of c) method)).
Proof.
  unfold authorizeGatewayMethod, opened_by. rewrite <- has_false, <- !has_true.
  destruct (has NODE_ROLE_METHODS method) eqn:Hn.
  { destruct (String.eqb_spec (role_of c) "node") as [->|Hr]; [tauto|]. split; [done|]. intros [[? _]|[_ [? _]]]; done. }
  destruct (String.eqb_spec (role_of c) "node") as [->|Hr]; [split; [done|intros [[_ ?]|[? _]]; done]|].
  destruct (String.eqb_spec (role_of c) "operator") as [->|Hr']; [|split; [done|intros [[? _]|[? _]]; done]]. cbn [negb].
  destruct (has (scopes_of c) ADMIN_SCOPE); [tauto|].
  pose proof (disjointb_spec APPROVAL_METHODS PAIRING_METHODS method eq_refl) as D1.
  pose proof (disjointb_spec APPROVAL_METHODS READ_METHODS method eq_refl) as D2.
  pose proof (disjointb_spec APPROVAL_METHODS WRITE_METHODS method eq_refl) as D3.
  pose proof (disjointb_spec PAIRING_METHODS READ_METHODS method eq_refl) as D4.
  pose proof (disjointb_spec PAIRING_METHODS WRITE_METHODS method eq_refl) as D5.
  pose proof (disjointb_spec READ_METHODS WRITE_METHODS method eq_refl) as D6.
  destruct (has APPROVAL_METHODS method); [rewrite D1, D2, D3 by done; by destruct (has _ APPROVALS_SCOPE); cbn; intuition congruence|].
  destruct (has PAIRING_METHODS method); [rewrite D4, D5 by done; by destruct (has _ PAIRING_SCOPE); cbn; intuition congruence|].
  destruct (has READ_METHODS method);
    [rewrite D6 by done; by destruct (has _ READ_SCOPE), (has _ WRITE_SCOPE); cbn; intuition congruence|].
  destruct (has WRITE_METHODS method); [by destruct (has _ WRITE_SCOPE); cbn; intuition congruence|].
  cbn [andb]. split; [|intuition congruence]. by repeat case_match.
Qed.

(** The names of the members of every object pass for methods: an administrator who calls
    one is never answered. *)
Example constructor_is_a_method :
  handleGatewayRequest (H:=nat) None [("health", 1%nat)] "constructor" (Some (mkGatewayWsClient "c" None (Some [ADMIN_SCOPE])))
  = call_inherited.
Proof. reflexivity. Qed.

(** ** Theorems on events *)

Section event_props.
Context {P : Type}.

(** A broadcast: the connections at its time, the event and its payload. *)
Record Broadcast := mkBroadcast {
  bc_clients : list Connection; bc_event : string; bc_payload : P; bc_opts : BroadcastOpts; bc_targets : option (list string)
}.

Definition run_broadcast (b : Broadcast) (seq : Z) : Z * list (SocketAction P) :=
  match bc_targets b with
  | None => broadcast (bc_clients b) (bc_event b) (bc_payload b) (bc_opts b) seq
  | Some l => broadcastToConnIds (bc_clients b) (bc_event b) (bc_payload b) l (bc_opts b) seq
  end.

Fixpoint run_broadcasts (l : list Broadcast) (seq : Z) : list (SocketAction P) :=
  match l with
  | [] => []
  | b :: l => let '(seq, out) := run_broadcast b seq in out ++ run_broadcasts l seq
  end.

Definition sent_to (id : string) (a : SocketAction P) : option (Frame P) :=
  match a with sock_send i f => if String.eqb i id then Some f else None | sock_close _ _ _ => None end.
Definition numbers_to (id : string) (l : list (SocketAction P)) : list Z := omap fr_seq (omap (sent_to id) l).

Definition general (b : Broadcast) : bool := match bc_targets b with None => true | Some _ => false end.

(** What one broadcast sends, and to whom. *)
Lemma deliver_sends event f drop targets c i g :
  sock_send i g ∈ deliver (P:=P) event f drop targets c <->
  i = gc_connId (cn_client c) /\ g = f /\ hasEventScope (cn_client c) event = true /\
  (cn_buffered c <= MAX_BUFFERED_BYTES) /\ cn_broken c = false /\
  (forall l, targets = Some l -> i ∈ l).
Proof.
  unfold deliver. split.
  - destruct (match targets with Some l => _ | None => _ end) eqn:Ht; [by intros ?%elem_of_nil|].
    destruct (hasEventScope _ _); [|by intros ?%elem_of_nil]. cbn [negb].
    destruct (Z.ltb_spec MAX_BUFFERED_BYTES (cn_buffered c)), drop; cbn [andb];
      try (intros H'; by apply elem_of_nil in H' || by apply list_elem_of_singleton in H').
    all: destruct (cn_broken c); [by intros ?%elem_of_nil|]; intros [= -> ->]%list_elem_of_singleton; split_and!; try done.
    all: intros l ->; apply negb_false_iff in Ht; by apply has_true.
  - intros (-> & -> & -> & Hb & -> & Ht). cbn [negb].
    destruct (match targets with Some l => _ | None => _ end) eqn:E.
    { destruct targets as [l|]; [|done]. apply negb_true_iff, has_false in E. by destruct E; apply Ht. }
    destruct (Z.ltb_spec MAX_BUFFERED_BYTES (cn_buffered c)); [lia|]. cbn [andb]. by apply list_elem_of_singleton.
Qed.

Lemma broadcast_sends (clients : list Connection) event payload opts targets seq i g :
  sock_send i g ∈ (broadcastInternal (P:=P) clients event payload opts targets seq).2 ->
  fr_event g = event /\ exists c, c ∈ clients /\ i = gc_connId (cn_client c) /\ hasEventScope (cn_client c) event = true /\
    (forall l, targets = Some l -> i ∈ l).
Proof.
  unfold broadcastInternal. cbn [snd]. intros (l & Hl & (c & -> & Hc)%list_elem_of_fmap)%list_elem_of_join.
  apply deliver_sends in Hl as (-> & -> & ? & _ & _ & ?). split; [done|]. by exists c.
Qed.

(** An event of approvals or of pairing reaches only operators with its scope or that of
    the administrator; a targeted event only the connections it names. *)
Theorem events_reach_the_entitled (l : list Broadcast) seq i f :
  sock_send i f ∈ run_broadcasts l seq ->
  exists b c, b ∈ l /\ c ∈ bc_clients b /\ i = gc_connId (cn_client c) /\ fr_event f = bc_event b /\
    (forall ids, bc_targets b = Some ids -> i ∈ ids) /\
    (forall required, jm_get EVENT_SCOPE_GUARDS (bc_event b) = Some required ->
       role_of (cn_client c) = "operator" /\
       (ADMIN_SCOPE ∈ scopes_of (cn_client c) \/ exists s, s ∈ required /\ s ∈ scopes_of (cn_client c))).
Proof.
  revert seq. induction l as [|b l IH]; intros seq; cbn [run_broadcasts]; [by intros ?%elem_of_nil|].
  destruct (run_broadcast b seq) as [seq' out] eqn:E. intros [H|H]%elem_of_app.
  2: { destruct (IH _ H) as (b' & c & ? & ? & ? & ? & ? & ?). exists b', c. split_and!; try done. by right. }
  assert (Hs : exists targets, (bc_targets b = targets) /\
    sock_send i f ∈ (broadcastInternal (bc_clients b) (bc_event b) (bc_payload b) (bc_opts b) targets seq).2).
  { unfold run_broadcast, broadcast, broadcastToConnIds in E. destruct (bc_targets b) as [[|x ids]|].
    - injection E as _ <-. by apply elem_of_nil in H.
    - eexists. split; [done|]. by rewrite E.
    - eexists. split; [done|]. by rewrite E. }
  destruct Hs as (targets & Ht & (Hf & c & Hc & -> & Hscope & Hids)%broadcast_sends).
  exists b, c. split_and!; try done; [by left|by rewrite Ht|].
  intros required Hr. unfold hasEventScope in Hscope. rewrite Hr in Hscope.
  destruct (String.eqb_spec (role_of (cn_client c)) "operator") as [->|]; [|done]. split; [done|].
  apply orb_true_iff in Hscope as [?%has_true|(s & Hs & ?%has_true)%existsb_exists]; [by left|].
  right. exists s. by apply list_elem_of_In in Hs.
Qed.

(** The connection [id] gets the event: it is there, entitled, and neither slow nor
    broken. *)
Definition hears (id : string) (b : Broadcast) : bool :=
  existsb (fun c => String.eqb (gc_connId (cn_client c)) id && hasEventScope (cn_client c) (bc_event b) &&
                    negb (MAX_BUFFERED_BYTES <? cn_buffered c) && negb (cn_broken c)) (bc_clients b).

Definition distinct_ids (b : Broadcast) : Prop := NoDup ((fun c => gc_connId (cn_client c)) <$> bc_clients b).

Lemma numbers_app id l k : numbers_to id (l ++ k) = numbers_to id l ++ numbers_to id k.
Proof. unfold numbers_to. by rewrite !omap_app. Qed.

Lemma numbers_deliver id event f drop c : numbers_to id (deliver (P:=P) event f drop None c) =
  if String.eqb (gc_connId (cn_client c)) id && hasEventScope (cn_client c) event &&
     negb (MAX_BUFFERED_BYTES <? cn_buffered c) && negb (cn_broken c)
  then option_list (fr_seq f) else [].
Proof.
  unfold deliver, numbers_to.
  destruct (hasEventScope _ _), (MAX_BUFFERED_BYTES <? cn_buffered c), (cn_broken c), drop; cbn;
    destruct (String.eqb _ _); try done; cbn; by destruct (fr_seq f).
Qed.

Lemma numbers_unnumbered id event f drop targets c : fr_seq f = None -> numbers_to id (deliver (P:=P) event f drop targets c) = [].
Proof.
  intros Hf. unfold deliver, numbers_to. repeat case_match; simplify_eq/=; done || (repeat case_match; simplify_eq/=; by rewrite ?Hf).
Qed.

Lemma numbers_general id (b : Broadcast) seq : distinct_ids b -> bc_targets b = None ->
  numbers_to id (run_broadcast b seq).2 = if hears id b then [seq + 1] else [].
Proof.
  unfold run_broadcast, broadcast, broadcastInternal, hears, distinct_ids. intros Hd ->. cbn [snd].
  set (f := mkFrame _ _ _ _). assert (Hf : option_list (fr_seq f) = [seq + 1]) by done.
  induction (bc_clients b) as [|c l IH]; [done|]. rewrite fmap_cons in *. cbn [existsb].
  change (mjoin (?x :: ?k)) with (x ++ mjoin k).
  apply NoDup_cons in Hd as [Hc Hd]. rewrite numbers_app, numbers_deliver, (IH Hd), Hf.
  destruct (String.eqb_spec (gc_connId (cn_client c)) id) as [<-|]; cbn [andb orb]; [|done].
  assert (Hno : existsb (fun x => String.eqb (gc_connId (cn_client x)) (gc_connId (cn_client c)) &&
      hasEventScope (cn_client x) (bc_event b) && negb (MAX_BUFFERED_BYTES <? cn_buffered x) && negb (cn_broken x)) l = false).
  { apply not_true_is_false. intros (x & Hx & Hp)%existsb_exists. prop_of_bool.
    apply Hc, list_elem_of_fmap. exists x. split; [done|by apply list_elem_of_In]. }
  rewrite Hno, orb_false_r. by destruct (_ && _ && _).
Qed.

Lemma numbers_targeted id (b : Broadcast) ids seq : bc_targets b = Some ids ->
  run_broadcast b seq = (seq, (run_broadcast b seq).2) /\ numbers_to id (run_broadcast b seq).2 = [].
Proof.
  unfold run_broadcast, broadcastToConnIds. intros ->. destruct ids as [|i ids]; [done|].
  unfold broadcastInternal. cbn [snd]. split; [done|]. set (f := mkFrame _ _ _ _).
  induction (bc_clients b) as [|c l IH]; [done|]. rewrite fmap_cons. change (mjoin (?x :: ?k)) with (x ++ mjoin k).
  by rewrite numbers_app, IH, app_nil_r, numbers_unnumbered.
Qed.

Lemma seq_after (b : Broadcast) seq : (run_broadcast b seq).1 = if general b then seq + 1 else seq.
Proof.
  unfold run_broadcast, general, broadcastToConnIds. by destruct (bc_targets b) as [[]|].
Qed.

Definition heard_numbers (id : string) : Z -> list Broadcast -> list Z :=
  fix go seq l :=
    match l with
    | [] => []
    | b :: l => (if general b && hears id b then [seq + 1] else []) ++ go (if general b then seq + 1 else seq) l
    end.

Lemma numbers_run id (l : list Broadcast) seq : Forall distinct_ids l ->
  numbers_to id (run_broadcasts l seq) = heard_numbers id seq l.
Proof.
  intros Hd. revert seq. induction Hd as [|b l Hb _ IH]; intros seq; [done|]. cbn [run_broadcasts heard_numbers].
  rewrite <- seq_after. destruct (run_broadcast b seq) as [seq' out] eqn:E. cbn [fst].
  rewrite numbers_app, IH. f_equal. change out with (snd (seq', out)). rewrite <- E. unfold general.
  destruct (bc_targets b) eqn:Ht; [by destruct (numbers_targeted id b _ seq Ht)|]. cbn [andb]. by apply numbers_general.
Qed.

(** The events a connection is sent to everybody carry increasing numbers, out of those
    given so far; it is missing a number exactly when an event was not for it or it was too
    slow, so that one that heard every event of the time counts without a gap. *)
Theorem event_numbers id (l : list Broadcast) seq : Forall distinct_ids l ->
  let numbers := numbers_to id (run_broadcasts l seq) in
  let given := seqZ (seq + 1) (js_length (keep general l)) in
  numbers `sublist_of` given /\
  (numbers = given <-> Forall (fun b => general b = true -> hears id b = true) l).
Proof.
  intros Hd. cbv zeta. rewrite numbers_run by done. clear Hd. revert seq. unfold js_length, keep.
  induction l as [|b l IH]; intros seq; [by split; [constructor|split; [constructor|done]]|]. cbn [heard_numbers].
  rewrite Forall_cons. destruct (general b) eqn:Hg; cbn [andb].
  - rewrite filter_cons_True by done. cbn [length]. rewrite Nat2Z.inj_succ, seqZ_cons by lia.
    rewrite Z.pred_succ. change (Z.succ (seq + 1)) with (seq + 1 + 1). destruct (IH (seq + 1)) as [Hs He].
    destruct (hears id b) eqn:Hh; cbn [app].
    + split; [by apply sublist_skip|]. rewrite <- He. split; [intros [= ->]; done|intros [_ ->]; done].
    + split; [by apply sublist_cons|]. split; [|intros [H _]; by specialize (H eq_refl)].
      intros E. apply (f_equal length) in E. apply sublist_length in Hs. cbn in E. lia.
  - rewrite filter_cons_False by (by rewrite Hg). destruct (IH seq) as [Hs He]. cbn [app]. split; [done|].
    rewrite He. split; [by split|by intros []].
Qed.
End event_props.

Definition an_operator : GatewayWsClient := mkGatewayWsClient "c1" None (Some [READ_SCOPE]).
Definition to_operator (event : string) (buffered : Z) : Broadcast :=
  mkBroadcast [mkConnection an_operator buffered false] event tt (mkBroadcastOpts true None) None.

Lemma event_numbers_witness :
  let l := [to_operator "chat" 0; to_operator "device.pair.requested" 0; to_operator "chat" 2000000; to_operator "tick" 0] in
  numbers_to "c1" (run_broadcasts l 0) = [1; 4] /\
  numbers_to "c1" (run_broadcasts l 0) `sublist_of` seqZ 1 4.
Proof.
  split; [reflexivity|].
  apply (event_numbers "c1" [to_operator "chat" 0; to_operator "device.pair.requested" 0; to_operator "chat" 2000000; to_operator "tick" 0] 0).
  repeat constructor; by intros ?%elem_of_nil.
Defined.

(** ** Theorems on commands *)

Lemma denied_out l allow c :
  c ∈ foldl (fun allow blocked =>
           let t := js_trim blocked in
           if truthy_str t then keep (fun c => negb (String.eqb c t)) allow else allow) allow l <->
  c ∈ allow /\ (c <> "" -> c ∉ (js_trim <$> l)).
Proof.
  revert allow. induction l as [|b l IH]; intros allow; cbn [foldl fmap list_fmap].
  { split; [|by intros []]. intros H. split; [done|]. by intros _ ?%elem_of_nil. }
  rewrite IH, not_elem_of_cons. cbv zeta. destruct (truthy_str (js_trim b)) eqn:E; unfold truthy_str in E;
    [apply negb_true_iff, String.eqb_neq in E|apply negb_false_iff, String.eqb_eq in E; rewrite E].
  2: split; [|tauto].
  2: intros [? H]; split; [done|]; auto.
  1: unfold keep; rewrite list_elem_of_filter, negb_true_iff, String.eqb_neq; split; [tauto|].
  1: intros [Hin H]. destruct (decide (c = "")) as [->|Hc]; [|destruct (H Hc); tauto]. split; [|done].
    split; [congruence|done].
Qed.

Lemma kept_trimmed l c : c ∈ keep truthy_str (js_trim <$> l) <-> c <> "" /\ c ∈ (js_trim <$> l).
Proof. unfold keep. rewrite list_elem_of_filter. unfold truthy_str. by rewrite negb_true_iff, String.eqb_neq. Qed.

Definition default_commands (p : PlatformId) : list string := js_trim <$> PLATFORM_DEFAULTS p.

Lemma defaults_trimmed p : default_commands p = PLATFORM_DEFAULTS p.
Proof. by destruct p. Qed.

(** A command may be sent to a node exactly when, without the spaces around it, the node
    declared it, the configuration does not deny it, and it is among the defaults of the
    platform or allowed by the configuration. *)
Theorem command_policy command declared allow deny platform family :
  isNodeCommandAllowed command declared (resolveNodeCommandAllowlist allow deny platform family) = None <->
  let c := js_trim command in
  c <> "" /\ c ∈ default [] declared /\ (c ∉ (js_trim <$> default [] deny)) /\
  (c ∈ PLATFORM_DEFAULTS (normalizePlatformId platform family) \/ c ∈ (js_trim <$> default [] allow)).
Proof.
  unfold isNodeCommandAllowed, resolveNodeCommandAllowlist. cbv zeta. set (c := js_trim command).
  unfold truthy_str at 1. destruct (String.eqb_spec c "") as [->|Hc]; cbn [negb]; [by split; [|intros []]|].
  destruct (has (foldl _ _ _) c) eqn:Ha; cbn [negb].
  - apply has_true, denied_out in Ha as [[_ Ha]%kept_trimmed Hd]. rewrite fmap_app, elem_of_app in Ha.
    fold (default_commands (normalizePlatformId platform family)) in Ha. rewrite defaults_trimmed in Ha.
    destruct declared as [[|d l]|]; cbn [default from_option id];
      [split; [done|intros (_ & ?%elem_of_nil & _); done]| |split; [done|intros (_ & ?%elem_of_nil & _); done]].
    destruct (has (d :: l) c) eqn:Hl; cbn [negb].
    + apply has_true in Hl. split; [|done]. intros _. split_and!; [done|done|by apply Hd|done].
    + apply has_false in Hl. split; [done|]. by intros (_ & ? & _).
  - apply has_false in Ha. split; [done|]. intros (_ & _ & Hd & Hp). destruct Ha. apply denied_out. split; [|done].
    apply kept_trimmed. split; [done|]. rewrite fmap_app, elem_of_app.
    fold (default_commands (normalizePlatformId platform family)). by rewrite defaults_trimmed.
Qed.

(** A dangerous command needs to be allowed by the configuration, on every platform. *)
Corollary dangerous_needs_opt_in command declared allow deny platform family :
  js_trim command ∈ DEFAULT_DANGEROUS_NODE_COMMANDS ->
  isNodeCommandAllowed command declared (resolveNodeCommandAllowlist allow deny platform family) = None ->
  js_trim command ∈ (js_trim <$> default [] allow).
Proof.
  intros Hd (_ & _ & _ & [H|H])%command_policy; [exfalso|done]. revert Hd. apply has_false.
  apply (disjointb_spec (PLATFORM_DEFAULTS (normalizePlatformId platform family))); [by destruct (normalizePlatformId _ _)|by apply has_true].
Qed.

