(* ===== verification/GatewayNodes.v ===== *)
(** * Nodes of the gateway

    openclaw/gateway/node-registry.ts: the connected nodes and the calls that wait for
    their answers; server-node-subscriptions.ts: which node follows which session.  Ids are
    drawn by the caller; whether a socket accepts a frame is an input. *)

From S2P Require Import Prelude JsMap JsString JsNumber Json GatewayNet.
From Stdlib Require Import Ascii.

(** ** The registry *)
Module Registry.

Record ConnectParams := mkConnectParams {
  cp_device_id : option string;
  cp_client_id : string;
  cp_displayName : option string; cp_platform : string; cp_version : string;
  cp_coreVersion : option string; cp_uiVersion : option string;
  cp_deviceFamily : option string; cp_modelIdentifier : option string;
  cp_caps : option (list string); cp_commands : option (list string);
  cp_permissions : option (jsmap bool); cp_pathEnv : option string
}.

Record NodeSession := mkNodeSession {
  ns_nodeId : string; ns_connId : string;
  ns_displayName : option string; ns_platform : string; ns_version : string;
  ns_coreVersion : option string; ns_uiVersion : option string;
  ns_deviceFamily : option string; ns_modelIdentifier : option string; ns_remoteIp : option string;
  ns_caps : list string; ns_commands : list string;
  ns_permissions : option (jsmap bool); ns_pathEnv : option string;
  ns_connectedAtMs : Z
}.

Record PendingInvoke := mkPendingInvoke { pi_nodeId : string; pi_command : string }.

Record NodeInvokeResult := mkNodeInvokeResult {
  ir_ok : bool; ir_payload : option json; ir_payloadJSON : option string; ir_error : option (option string * option string)
}.

(** How a call ended: with a result, or with an exception. *)
Inductive Settled := resolved (r : NodeInvokeResult) | rejected (message : string).

Record NodeRegistry := mkNodeRegistry {
  nodesById : jsmap NodeSession;
  nodesByConn : jsmap string;
  pendingInvokes : jsmap PendingInvoke;
  settled : list (string * Settled);         (* the calls that ended, in order *)
  sent : list (string * string)              (* connection and text of every frame *)
}.
#[export] Instance NodeRegistry_eta : EtaRecord NodeRegistry := fun s =>
  mkNodeRegistry (nodesById s) (nodesByConn s) (pendingInvokes s) (settled s) (sent s).
Definition new_NodeRegistry : NodeRegistry := mkNodeRegistry [] [] [] [] [].

Implicit Types s : NodeRegistry.

Definition node_id (c : ConnectParams) : string := default (cp_client_id c) (cp_device_id c).

Definition register (now : Z) (connId : string) (c : ConnectParams) (remoteIp : option string) s : NodeRegistry :=
  let nodeId := node_id c in
  let session := mkNodeSession nodeId connId (cp_displayName c) (cp_platform c) (cp_version c) (cp_coreVersion c) (cp_uiVersion c)
    (cp_deviceFamily c) (cp_modelIdentifier c) remoteIp (default [] (cp_caps c)) (default [] (cp_commands c))
    (cp_permissions c) (cp_pathEnv c) now in
  s <| nodesById ::= fun m => jm_set m nodeId session |>
    <| nodesByConn ::= fun m => jm_set m connId nodeId |>.

Definition settle (id : string) (r : Settled) s : NodeRegistry := s <| settled ::= fun l => l ++ [(id, r)] |>.

(** The loop over the calls of a node that went away. *)
Definition reject_calls (nodeId : string) s : NodeRegistry :=
  foldl (fun s kv =>
           if negb (String.eqb (pi_nodeId kv.2) nodeId) then s
           else settle kv.1 (rejected ("node disconnected (" +:+ pi_command kv.2 +:+ ")")) s
                  <| pendingInvokes ::= fun m => jm_delete m kv.1 |>)
    s (pendingInvokes s).

Definition unregister (connId : string) s : NodeRegistry * option string :=
  match jm_get (nodesByConn s) connId with
  | None => (s, None)
  | Some nodeId =>
      if negb (truthy_str nodeId) then (s, None) else
      (reject_calls nodeId (s <| nodesByConn ::= fun m => jm_delete m connId |>
                              <| nodesById ::= fun m => jm_delete m nodeId |>), Some nodeId)
  end.

Definition listConnected s : list NodeSession := jm_values (nodesById s).
Definition get s (nodeId : string) : option NodeSession := jm_get (nodesById s) nodeId.

(** [accepts] is whether the socket of the connection takes a frame now. *)
Section sockets.
Context (accepts : string -> bool).

Definition opt_member (k : string) (v : option json) : list (string * json) :=
  match v with Some j => [(k, j)] | None => [] end.

Definition sendEventInternal (node : NodeSession) (event : string) (payload : option json) s : NodeRegistry * bool :=
  if accepts (ns_connId node) then
    (s <| sent ::= fun l => l ++ [(ns_connId node,
       stringify (JObj ([("type", JStr "event"); ("event", JStr event)] ++ opt_member "payload" payload)))] |>, true)
  else (s, false).

Definition sendEvent (nodeId event : string) (payload : option json) s : NodeRegistry * bool :=
  match jm_get (nodesById s) nodeId with
  | None => (s, false)
  | Some node => sendEventInternal node event payload s
  end.

Definition failed_invoke (code message : string) : NodeInvokeResult :=
  mkNodeInvokeResult false None None (Some (Some code, Some message)).

Definition invoke_payload (requestId nodeId command : string) (params : option json) (timeoutMs : option Z) (idempotencyKey : option string) : json :=
  JObj ([("id", JStr requestId); ("nodeId", JStr nodeId); ("command", JStr command);
         ("paramsJSON", match params with Some j => JStr (stringify j) | None => JNull end)] ++
        opt_member "timeoutMs" (JNum <$> timeoutMs) ++ opt_member "idempotencyKey" (JStr <$> idempotencyKey)).

(** The time to wait when the call does not say. *)
Definition invoke_timeout (timeoutMs : option Z) : Z := default 30000 timeoutMs.

(** A result at once, or none when the call waits. *)
Definition invoke (requestId nodeId command : string) (params : option json) (timeoutMs : option Z) (idempotencyKey : option string) s :
    NodeRegistry * option NodeInvokeResult :=
  match jm_get (nodesById s) nodeId with
  | None => (s, Some (failed_invoke "NOT_CONNECTED" "node not connected"))
  | Some node =>
      match sendEventInternal node "node.invoke.request" (Some (invoke_payload requestId nodeId command params timeoutMs idempotencyKey)) s with
      | (s, false) => (s, Some (failed_invoke "UNAVAILABLE" "failed to send invoke to node"))
      | (s, true) => (s <| pendingInvokes ::= fun m => jm_set m requestId (mkPendingInvoke nodeId command) |>, None)
      end
  end.
End sockets.

(** The timer of a call; it is cleared when the call is settled otherwise. *)
Definition timer_fires (requestId : string) s : NodeRegistry :=
  if jm_has (pendingInvokes s) requestId then
    settle requestId (resolved (failed_invoke "TIMEOUT" "node invoke timed out")) (s <| pendingInvokes ::= fun m => jm_delete m requestId |>)
  else s.

Definition handleInvokeResult (id nodeId : string) (r : NodeInvokeResult) s : NodeRegistry * bool :=
  match jm_get (pendingInvokes s) id with
  | None => (s, false)
  | Some pending =>
      if negb (String.eqb (pi_nodeId pending) nodeId) then (s, false)
      else (settle id (resolved r) (s <| pendingInvokes ::= fun m => jm_delete m id |>), true)
  end.

(** ** Theorems on the registry *)

(** What can happen to a registry; a call draws an id that was never drawn. *)
Inductive step : NodeRegistry -> NodeRegistry -> Prop :=
  | step_register now connId c ip s : step s (register now connId c ip s)
  | step_unregister connId s : step s (unregister connId s).1
  | step_send accepts nodeId event payload s : step s (sendEvent accepts nodeId event payload s).1
  | step_invoke accepts id nodeId command params timeout key s :
      id ∉ (settled s).*1 -> jm_get (pendingInvokes s) id = None ->
      step s (invoke accepts id nodeId command params timeout key s).1
  | step_timer id s : step s (timer_fires id s)
  | step_result id nodeId r s : step s (handleInvokeResult id nodeId r s).1.

(** The calls that wait are calls to nodes of the table, and none of them has ended; no
    call ends twice. *)
Record calls_ok s : Prop := {
  ok_nodes : jm_wf (nodesById s);
  ok_pending : jm_wf (pendingInvokes s);
  ok_settled : NoDup (settled s).*1;
  ok_open id p : jm_get (pendingInvokes s) id = Some p -> (id ∉ (settled s).*1) /\ is_Some (jm_get (nodesById s) (pi_nodeId p))
}.

Lemma settle_invoke_ok id p r s : calls_ok s -> jm_get (pendingInvokes s) id = Some p ->
  calls_ok (settle id r s <| pendingInvokes ::= fun m => jm_delete m id |>).
Proof.
  intros [Hn Hp Hs Ho] Hid. constructor; cbn; [done|by apply jm_wf_delete| |].
  - rewrite fmap_app. apply NoDup_app. split_and!; [done| |apply NoDup_singleton].
    intros x Hx ->%list_elem_of_singleton. by destruct (Ho id p Hid).
  - intros id' p'. rewrite jm_get_delete by done. case_decide; [done|]. intros Hg. destruct (Ho id' p' Hg) as [H1 H2].
    split; [|done]. rewrite fmap_app. intros [?|E%list_elem_of_singleton]%elem_of_app; [done|]. by cbn in E.
Qed.

(** The calls of the node among those of the loop. *)
Definition of_node (nodeId : string) (kv : string * PendingInvoke) : bool := String.eqb (pi_nodeId kv.2) nodeId.
Definition rejection (kv : string * PendingInvoke) : string * Settled :=
  (kv.1, rejected ("node disconnected (" +:+ pi_command kv.2 +:+ ")")).

Lemma reject_loop nodeId l s :
  foldl (fun s kv =>
           if negb (String.eqb (pi_nodeId kv.2) nodeId) then s
           else settle kv.1 (rejected ("node disconnected (" +:+ pi_command kv.2 +:+ ")")) s
                  <| pendingInvokes ::= fun m => jm_delete m kv.1 |>) s l =
  s <| pendingInvokes ::= fun m => foldl jm_delete m (keep (of_node nodeId) l).*1 |>
    <| settled ::= fun k => k ++ (rejection <$> keep (of_node nodeId) l) |>.
Proof.
  revert s. unfold keep. induction l as [|kv l IH]; intros s; cbn [foldl].
  - destruct s as [a b c d e]. rewrite filter_nil. unfold field_update. cbn. by rewrite (app_nil_r d).
  - rewrite IH. fold (of_node nodeId kv). destruct (of_node nodeId kv) eqn:E; cbn [negb].
    + rewrite filter_cons_True by done. destruct s as [a b c d e]. unfold field_update. cbn. by rewrite <- (app_assoc d).
    + rewrite filter_cons_False by (by rewrite E). done.
Qed.

Lemma deletes_get {V} (ks : list string) (m : jsmap V) k : jm_wf m ->
  jm_wf (foldl jm_delete m ks) /\ jm_get (foldl jm_delete m ks) k = if bool_decide (k ∈ ks) then None else jm_get m k.
Proof.
  revert m. induction ks as [|x ks IH]; intros m Hm; cbn [foldl].
  - split; [done|]. by rewrite bool_decide_eq_false_2 by apply not_elem_of_nil.
  - destruct (IH (jm_delete m x) (jm_wf_delete _ _ Hm)) as [Hw Hg]. split; [done|]. rewrite Hg, jm_get_delete by done.
    repeat case_bool_decide; repeat case_decide; set_solver.
Qed.

(** The calls of a node that goes away are rejected, in their order, and no others. *)
Lemma reject_calls_spec nodeId s : jm_wf (pendingInvokes s) ->
  let s' := reject_calls nodeId s in
  nodesById s' = nodesById s /\ nodesByConn s' = nodesByConn s /\ sent s' = sent s /\
  settled s' = settled s ++ (rejection <$> keep (of_node nodeId) (pendingInvokes s)) /\ jm_wf (pendingInvokes s') /\
  forall id, jm_get (pendingInvokes s') id =
    match jm_get (pendingInvokes s) id with
    | Some p => if String.eqb (pi_nodeId p) nodeId then None else Some p
    | None => None
    end.
Proof.
  intros Hw. cbv zeta. unfold reject_calls. rewrite reject_loop. destruct s as [a b pend c d]. cbn in *.
  split_and!; [done|done|done|done|by apply (deletes_get _ _ "")|]. intros id.
  rewrite (proj2 (deletes_get _ _ id Hw)). case_bool_decide as Hin.
  - apply list_elem_of_fmap in Hin as ([i p] & -> & [Hk Hm]%list_elem_of_filter). cbn.
    rewrite (proj1 (jm_elem_of_get _ _ _ Hw) Hm). unfold of_node in Hk. cbn in Hk. by rewrite Hk.
  - destruct (jm_get pend id) as [p|] eqn:E; [|done]. destruct (String.eqb (pi_nodeId p) nodeId) eqn:En; [|done].
    destruct Hin. apply list_elem_of_fmap. exists (id, p). split; [done|]. apply list_elem_of_filter.
    split; [done|]. by apply jm_elem_of_get.
Qed.

Lemma unregister_ok connId s : calls_ok s -> calls_ok (unregister connId s).1.
Proof.
  intros [Hn Hp Hs Ho]. unfold unregister. destruct (jm_get (nodesByConn s) connId) as [n|]; [|done].
  destruct (truthy_str n); [|done]. cbn [negb fst].
  set (s0 := s <| nodesByConn ::= fun m => jm_delete m connId |> <| nodesById ::= fun m => jm_delete m n |>).
  destruct (reject_calls_spec n s0 Hp) as (H1 & _ & _ & H2 & H3 & H4).
  change (nodesById s0) with (jm_delete (nodesById s) n) in H1. change (settled s0) with (settled s) in H2.
  change (pendingInvokes s0) with (pendingInvokes s) in *. clearbody s0. remember (pendingInvokes s) as pend.
  constructor; [rewrite H1; by apply jm_wf_delete|done| |].
  - rewrite H2, fmap_app, <- list_fmap_compose. apply NoDup_app. split_and!; [done| |].
    + intros id Hid (kv & -> & [_ Hkv]%list_elem_of_filter)%list_elem_of_fmap. destruct kv as [i p].
      apply jm_elem_of_get in Hkv; [|done]. by destruct (Ho i p Hkv).
    + change (fst ∘ rejection) with (fst : string * PendingInvoke -> string). eapply sublist_NoDup; [exact Hp|].
      apply fmap_sublist, sublist_filter.
  - intros id p. rewrite H4. destruct (jm_get pend id) as [p'|] eqn:E; [|done].
    destruct (String.eqb_spec (pi_nodeId p') n) as [|Hne]; [done|]. intros [= <-]. destruct (Ho id p' E) as [Ho1 Ho2]. split.
    + rewrite H2, fmap_app. intros [?|(kv & -> & (kv' & -> & [Hk Hkv]%list_elem_of_filter)%list_elem_of_fmap)%list_elem_of_fmap]%elem_of_app; [done|].
      destruct kv' as [i q]. cbn in E. apply jm_elem_of_get in Hkv; [|done]. unfold of_node in Hk. cbn in Hk.
      apply String.eqb_eq in Hk. congruence.
    + rewrite H1, jm_get_delete by done. by case_decide.
Qed.

Lemma sent_ok accepts node event payload s : calls_ok s -> calls_ok (sendEventInternal accepts node event payload s).1.
Proof. unfold sendEventInternal. intros [H1 H2 H3 H4]. by destruct (accepts _). Qed.

Lemma call_step_ok s s' : step s s' -> calls_ok s -> calls_ok s'.
Proof.
  intros Hst H. destruct Hst.
  - destruct H as [H1 H2 H3 H4]. constructor; cbn; [by apply jm_wf_set|done|done|]. intros id p Hp.
    destruct (H4 id p Hp) as [? Hn]. split; [done|]. rewrite jm_get_set. by case_decide.
  - by apply unregister_ok.
  - unfold sendEvent. destruct (jm_get _ _); [by apply sent_ok|done].
  - unfold invoke. destruct (jm_get (nodesById s) nodeId) as [node|] eqn:Hn; [|done].
    pose proof (sent_ok accepts node "node.invoke.request" (Some (invoke_payload id nodeId command params timeout key)) s H) as Hok.
    unfold sendEventInternal in *. destruct (accepts _); [|done]. cbn [fst] in *. destruct Hok as [B1 B2 B3 B4].
    constructor; cbn; [done|by apply jm_wf_set|done|]. intros id' p. rewrite jm_get_set. case_decide as E.
    + intros [= <-]. subst id'. split; [done|]. cbn. by rewrite Hn.
    + apply B4.
  - unfold timer_fires. destruct (jm_has _ _) eqn:Hh; [|done]. apply jm_has_true in Hh as [p Hp].
    exact (settle_invoke_ok id p _ s H Hp).
  - unfold handleInvokeResult. destruct (jm_get (pendingInvokes s) id) as [p|] eqn:Hp; [|done].
    destruct (String.eqb _ _); [|done]. exact (settle_invoke_ok id p _ s H Hp).
Qed.

(** C32: in every state the registry reaches no call has ended twice, none that waits has ended,
    and each waits for a node of the table; and when a connection closes, the calls to its
    node, and only they, are rejected. *)
Theorem calls_end_once s connId n s' : rtc step new_NodeRegistry s -> unregister connId s = (s', Some n) ->
  calls_ok s /\
  (forall id p, jm_get (pendingInvokes s) id = Some p ->
     if String.eqb (pi_nodeId p) n
     then jm_get (pendingInvokes s') id = None /\
          (id, rejected ("node disconnected (" +:+ pi_command p +:+ ")")) ∈ settled s'
     else jm_get (pendingInvokes s') id = Some p /\ (id ∉ (settled s').*1)).
Proof.
  intros Hr Hu. assert (Hok : calls_ok s).
  { revert Hr. apply (rtc_ind_r (fun x => calls_ok x)).
    - constructor; cbn; [constructor|constructor|constructor|done].
    - intros x y _ Hxy Hx. by eapply call_step_ok. }
  split; [done|]. intros id p Hp.
  pose proof (unregister_ok connId s Hok) as Hok'. rewrite Hu in Hok'. cbn [fst] in Hok'.
  destruct Hok as [_ Hw _ _]. unfold unregister in Hu. destruct (jm_get (nodesByConn s) connId) as [m|]; [|done].
  destruct (truthy_str m); [|done]. cbn [negb] in Hu. injection Hu as <- <-.
  set (s0 := s <| nodesByConn ::= fun x => jm_delete x connId |> <| nodesById ::= fun x => jm_delete x m |>) in *.
  destruct (reject_calls_spec m s0 Hw) as (_ & _ & _ & H2 & _ & H4).
  change (pendingInvokes s0) with (pendingInvokes s) in *. specialize (H4 id). rewrite Hp in H4.
  destruct (String.eqb (pi_nodeId p) m) eqn:E.
  - split; [done|]. rewrite H2. apply elem_of_app. right. apply list_elem_of_fmap. exists (id, p). split; [done|].
    apply list_elem_of_filter. split; [done|]. by apply jm_elem_of_get.
  - split; [done|]. by destruct (ok_open _ Hok' id p H4).
Qed.

Definition a_node (id : string) : ConnectParams :=
  mkConnectParams (Some id) "cli" None "ios" "1" None None None None None (Some ["camera.list"]) None None.

Definition called_once : NodeRegistry :=
  (invoke (fun _ => true) "r1" "phone" "camera.list" None None None (register 0 "c1" (a_node "phone") None new_NodeRegistry)).1.

Lemma calls_end_once_witness :
  rtc step new_NodeRegistry called_once /\
  (unregister "c1" called_once).2 = Some "phone" /\
  jm_get (pendingInvokes (unregister "c1" called_once).1) "r1" = None /\
  ("r1", rejected "node disconnected (camera.list)") ∈ settled (unregister "c1" called_once).1.
Proof.
  assert (Hr : rtc step new_NodeRegistry called_once).
  { eapply rtc_l; [apply (step_register 0 "c1" (a_node "phone") None)|].
    eapply rtc_l; [apply (step_invoke (fun _ => true) "r1" "phone" "camera.list" None None None); [apply not_elem_of_nil|reflexivity]|].
    apply rtc_refl. }
  split; [exact Hr|]. split; [reflexivity|].
  exact (proj2 (calls_end_once called_once "c1" "phone" _ Hr eq_refl) "r1" (mkPendingInvoke "phone" "camera.list") eq_refl).
Defined.

(** A node that connects again before its old connection closes is dropped when that one
    closes: it is connected, listed nowhere, and its calls are rejected. *)
Example late_close_drops_node :
  let s := register 1 "c2" (a_node "phone") None called_once in
  let '(s, dropped) := unregister "c1" s in
  dropped = Some "phone" /\ listConnected s = [] /\ jm_get (nodesByConn s) "c2" = Some "phone" /\
  (invoke (fun _ => true) "r2" "phone" "camera.list" None None None s).2 = Some (failed_invoke "NOT_CONNECTED" "node not connected").
Proof. vm_compute. auto. Qed.
End Registry.

(** ** Subscriptions *)
Module Subscriptions.

(** A Set is the list of its members in order. *)
Definition set_of (m : jsmap (list string)) (k : string) : list string := default [] (jm_get m k).
Definition set_add (x : string) (l : list string) : list string := if bool_decide (x ∈ l) then l else l ++ [x].
Definition set_delete (x : string) (l : list string) : list string := keep (fun y => negb (String.eqb y x)) l.

Record Subscriptions := mkSubscriptions {
  nodeSubscriptions : jsmap (list string);
  sessionSubscribers : jsmap (list string)
}.
#[export] Instance Subscriptions_eta : EtaRecord Subscriptions := fun s =>
  mkSubscriptions (nodeSubscriptions s) (sessionSubscribers s).
Definition new_Subscriptions : Subscriptions := mkSubscriptions [] [].
Implicit Types s : Subscriptions.

(** [set?.delete(x)], and the removal of a set that is empty then. *)
Definition drop_member (x k : string) (m : jsmap (list string)) : jsmap (list string) :=
  match jm_get m k with
  | None => m
  | Some l => match set_delete x l with [] => jm_delete m k | l => jm_set m k l end
  end.

Definition add_member (x k : string) (m : jsmap (list string)) : jsmap (list string) := jm_set m k (set_add x (set_of m k)).

Definition subscribe (nodeId sessionKey : string) s : Subscriptions :=
  let n := js_trim nodeId in
  let k := js_trim sessionKey in
  if negb (truthy_str n) || negb (truthy_str k) then s
  else if bool_decide (k ∈ set_of (nodeSubscriptions s) n) then s
  else mkSubscriptions (add_member k n (nodeSubscriptions s)) (add_member n k (sessionSubscribers s)).

Definition unsubscribe (nodeId sessionKey : string) s : Subscriptions :=
  let n := js_trim nodeId in
  let k := js_trim sessionKey in
  if negb (truthy_str n) || negb (truthy_str k) then s
  else mkSubscriptions (drop_member k n (nodeSubscriptions s)) (drop_member n k (sessionSubscribers s)).

Definition unsubscribeAll (nodeId : string) s : Subscriptions :=
  let n := js_trim nodeId in
  match jm_get (nodeSubscriptions s) n with
  | None => s
  | Some nodeSet =>
      mkSubscriptions (jm_delete (nodeSubscriptions s) n) (foldl (fun m k => drop_member n k m) (sessionSubscribers s) nodeSet)
  end.

Definition toPayloadJSON (payload : option json) : option string :=
  match payload with Some j => if truthy_json j then Some (stringify j) else None | None => None end.

(** One call of [sendEvent]. *)
Record NodeEvent := mkNodeEvent { ne_nodeId : string; ne_event : string; ne_payloadJSON : option string }.

(** The calls of [sendEvent], when there is one. *)
Definition sendToSession (sessionKey event : string) (payload : option json) s : list NodeEvent :=
  let k := js_trim sessionKey in
  if negb (truthy_str k) then [] else
  (fun n => mkNodeEvent n event (toPayloadJSON payload)) <$> set_of (sessionSubscribers s) k.

Definition sendToAllSubscribed (event : string) (payload : option json) s : list NodeEvent :=
  (fun n => mkNodeEvent n event (toPayloadJSON payload)) <$> jm_keys (nodeSubscriptions s).

Definition sendToAllConnected (connected : list string) (event : string) (payload : option json) : list NodeEvent :=
  (fun n => mkNodeEvent n event (toPayloadJSON payload)) <$> connected.

Definition clear s : Subscriptions := new_Subscriptions.

(** *** The two maps mirror each other *)

Record map_ok (m : jsmap (list string)) : Prop := {
  mo_wf : jm_wf m;
  mo_sets k l : jm_get m k = Some l -> l <> [] /\ NoDup l
}.

Record subscriptions_ok s : Prop := {
  so_nodes : map_ok (nodeSubscriptions s);
  so_sessions : map_ok (sessionSubscribers s);
  so_mirror n k : k ∈ set_of (nodeSubscriptions s) n <-> n ∈ set_of (sessionSubscribers s) k
}.

Lemma set_delete_spec x y l : y ∈ set_delete x l <-> y <> x /\ y ∈ l.
Proof. unfold set_delete, keep. rewrite list_elem_of_filter. by rewrite negb_true_iff, String.eqb_neq. Qed.
Lemma set_delete_NoDup x l : NoDup l -> NoDup (set_delete x l).
Proof. apply NoDup_filter. Qed.
Lemma set_add_spec x y l : y ∈ set_add x l <-> y = x \/ y ∈ l.
Proof. unfold set_add. case_bool_decide; [set_solver|]. set_solver. Qed.
Lemma set_add_NoDup x l : NoDup l -> NoDup (set_add x l).
Proof.
  unfold set_add. case_bool_decide; [done|]. intros Hl. apply NoDup_app. split_and!; [done| |apply NoDup_singleton]. set_solver.
Qed.

Lemma add_member_ok x k m : map_ok m -> map_ok (add_member x k m).
Proof.
  intros [Hw Hs]. unfold add_member, set_of. constructor; [by apply jm_wf_set|]. intros k' l. rewrite jm_get_set. case_decide; [|by apply Hs].
  intros [= <-]. split.
  - intros E. assert (Hx : x ∈ set_add x (default [] (jm_get m k))) by (apply set_add_spec; by left). rewrite E in Hx. by apply elem_of_nil in Hx.
  - apply set_add_NoDup. destruct (jm_get m k) as [l|] eqn:El; cbn; [by destruct (Hs _ _ El)|constructor].
Qed.

Lemma add_member_get x k m y k' : y ∈ set_of (add_member x k m) k' <-> (y = x /\ k' = k) \/ y ∈ set_of m k'.
Proof.
  unfold add_member. unfold set_of at 1. rewrite jm_get_set. case_decide as E; cbn.
  - subst k'. rewrite set_add_spec. naive_solver.
  - fold (set_of m k'). naive_solver.
Qed.

Lemma drop_member_ok x k m : map_ok m -> map_ok (drop_member x k m).
Proof.
  intros [Hw Hs]. unfold drop_member. destruct (jm_get m k) as [l|] eqn:El; [|done]. destruct (Hs _ _ El) as [_ Hl].
  pose proof (set_delete_NoDup x l Hl) as Hd. destruct (set_delete x l) as [|y l'].
  - constructor; [by apply jm_wf_delete|]. intros k' z. rewrite jm_get_delete by done. case_decide; [done|]. apply Hs.
  - constructor; [by apply jm_wf_set|]. intros k' z. rewrite jm_get_set. case_decide; [|by apply Hs]. by intros [= <-].
Qed.

Lemma drop_member_get x k m y k' : map_ok m ->
  y ∈ set_of (drop_member x k m) k' <-> ~ (y = x /\ k' = k) /\ y ∈ set_of m k'.
Proof.
  intros [Hw Hs]. unfold drop_member, set_of. destruct (jm_get m k) as [l|] eqn:El.
  2: { split; [|tauto]. intros Hy. split; [|done]. intros [-> ->]. rewrite El in Hy. by apply elem_of_nil in Hy. }
  pose proof (set_delete_spec x y l) as Hd. destruct (set_delete x l) as [|z l'].
  - rewrite jm_get_delete by done. case_decide as E; [|naive_solver]. subst k'. rewrite El. cbn.
    split; [by intros ?%elem_of_nil|]. intros [Hn Hy]. apply Hd. split; [|done]. naive_solver.
  - rewrite jm_get_set. case_decide as E; [|naive_solver]. subst k'. rewrite El. cbn. rewrite Hd. naive_solver.
Qed.

Lemma drop_all_spec n ks m : map_ok m ->
  map_ok (foldl (fun m k => drop_member n k m) m ks) /\
  forall y k, y ∈ set_of (foldl (fun m k => drop_member n k m) m ks) k <-> ~ (y = n /\ k ∈ ks) /\ y ∈ set_of m k.
Proof.
  revert m. induction ks as [|k0 ks IH]; intros m Hm; cbn [foldl].
  - split; [done|]. intros y k. split; [|by intros []]. intros H. split; [|done]. intros [_ ?%elem_of_nil]. done.
  - destruct (IH _ (drop_member_ok n k0 m Hm)) as [H1 H2]. split; [done|]. intros y k. rewrite H2, drop_member_get by done.
    rewrite elem_of_cons. naive_solver.
Qed.

(** What a session's subscribers are after each operation; the two maps stay mirrors of
    each other, without empty sets or repetitions. *)
Theorem subscriptions_mirror s : subscriptions_ok s ->
  (forall n k, subscriptions_ok (subscribe n k s) /\
     (js_trim n <> "" -> js_trim k <> "" -> forall y j, y ∈ set_of (sessionSubscribers (subscribe n k s)) j <->
        (y = js_trim n /\ j = js_trim k) \/ y ∈ set_of (sessionSubscribers s) j)) /\
  (forall n k, subscriptions_ok (unsubscribe n k s) /\
     (js_trim n <> "" -> js_trim k <> "" -> forall y j, y ∈ set_of (sessionSubscribers (unsubscribe n k s)) j <->
        ~ (y = js_trim n /\ j = js_trim k) /\ y ∈ set_of (sessionSubscribers s) j)) /\
  (forall n, subscriptions_ok (unsubscribeAll n s) /\
     forall y j, y ∈ set_of (sessionSubscribers (unsubscribeAll n s)) j <-> y <> js_trim n /\ y ∈ set_of (sessionSubscribers s) j).
Proof.
  intros [Hn Hk Hm]. split_and!.
  - intros n k. unfold subscribe. destruct (truthy_str (js_trim n)) eqn:E1, (truthy_str (js_trim k)) eqn:E2; cbn [negb orb].
    2-4: split; [done|]; intros H1 H2; apply String.eqb_neq in H1, H2; unfold truthy_str in *; by rewrite ?H1, ?H2 in *.
    case_bool_decide as Hin; [split; [done|]|split].
    + intros _ _ y j. split; [by right|]. intros [[-> ->]|?]; [by apply Hm|done].
    + constructor; cbn [nodeSubscriptions sessionSubscribers]; [by apply add_member_ok..|]. intros n' k'. rewrite !add_member_get, Hm. naive_solver.
    + intros _ _ y j. cbn [sessionSubscribers]. apply add_member_get.
  - intros n k. unfold unsubscribe. destruct (truthy_str (js_trim n)) eqn:E1, (truthy_str (js_trim k)) eqn:E2; cbn [negb orb].
    2-4: split; [done|]; intros H1 H2; apply String.eqb_neq in H1, H2; unfold truthy_str in *; by rewrite ?H1, ?H2 in *.
    split.
    + constructor; cbn [nodeSubscriptions sessionSubscribers]; [by apply drop_member_ok..|]. intros n' k'. rewrite !drop_member_get, Hm by done. naive_solver.
    + intros _ _ y j. cbn [sessionSubscribers]. by apply drop_member_get.
  - intros n. unfold unsubscribeAll. destruct (jm_get (nodeSubscriptions s) (js_trim n)) as [ks|] eqn:E.
    + assert (Hks : forall k, k ∈ ks <-> js_trim n ∈ set_of (sessionSubscribers s) k).
      { intros k. rewrite <- Hm. unfold set_of. by rewrite E. }
      destruct (drop_all_spec (js_trim n) ks (sessionSubscribers s) Hk) as [H1 H2]. split.
      * constructor; cbn [nodeSubscriptions sessionSubscribers]; [|done|].
        { destruct Hn as [Hw Hs]. constructor; [by apply jm_wf_delete|]. intros k l. rewrite jm_get_delete by done.
          case_decide; [done|]. apply Hs. }
        intros n' k. rewrite H2, <- Hm. unfold set_of at 1. rewrite jm_get_delete by apply Hn.
        case_decide as En; cbn [default from_option id]; [subst n'|fold (set_of (nodeSubscriptions s) n')].
        { split; [by intros ?%elem_of_nil|]. intros [Hno Hin]. destruct Hno. split; [done|]. rewrite Hks. by apply Hm. }
        naive_solver.
      * intros y j. cbn [sessionSubscribers]. rewrite H2, Hks. naive_solver.
    + split; [done|]. intros y j. split; [|tauto]. intros Hy. split; [|done]. intros ->. apply Hm in Hy.
      unfold set_of in Hy. rewrite E in Hy. by apply elem_of_nil in Hy.
Qed.

Lemma subscriptions_mirror_witness :
  let s := subscribe " n1" "main" new_Subscriptions in
  subscriptions_ok new_Subscriptions /\ subscriptions_ok s /\ "n1" ∈ set_of (sessionSubscribers s) "main".
Proof.
  assert (H0 : subscriptions_ok new_Subscriptions).
  { constructor; [by constructor; [constructor|]..|]. intros n k. by split; intros ?%elem_of_nil. }
  cbn zeta. split; [exact H0|]. destruct (proj1 (subscriptions_mirror new_Subscriptions H0) " n1" "main") as [H1 H2].
  split; [exact H1|]. apply H2; [done|done|]. left. split; reflexivity.
Defined.
End Subscriptions.
