(* ===== verification/GatewayChat.v ===== *)
(** * Chat runs of the gateway

    openclaw/gateway/server-chat.ts: how the events of an agent become the deltas and the
    final message of a chat run; chat-abort.ts: how runs are aborted; and the cleaning of
    server-maintenance.ts.  The context of a run, the settings of a session and the text of
    an error are parameters; one clock reading serves a whole step. *)

From S2P Require Import Prelude JsMap JsString JsNumber Json GatewayNet.

(** ** The state *)

Record ChatRunEntry := mkChatRunEntry { cr_sessionKey : string; cr_clientRunId : string }.
Record ChatAbortControllerEntry := mkChatAbortControllerEntry {
  ca_sessionId : string; ca_sessionKey : string; ca_startedAtMs : Z; ca_expiresAtMs : Z
}.
Record ToolRecipientEntry := mkToolRecipientEntry { tr_connIds : list string; tr_updatedAt : Z; tr_finalizedAt : option Z }.
#[export] Instance ToolRecipientEntry_eta : EtaRecord ToolRecipientEntry := fun e =>
  mkToolRecipientEntry (tr_connIds e) (tr_updatedAt e) (tr_finalizedAt e).

(** An event of an agent; [data] is the object of the event. *)
Record AgentEvent := mkAgentEvent {
  ev_runId : string; ev_seq : Z; ev_stream : string; ev_ts : Z; ev_data : option (jsmap json)
}.
#[export] Instance AgentEvent_eta : EtaRecord AgentEvent := fun e =>
  mkAgentEvent (ev_runId e) (ev_seq e) (ev_stream e) (ev_ts e) (ev_data e).

Inductive ChatPayload :=
  | chat_delta (runId sessionKey : string) (seq : Z) (text : string) (timestamp : Z)
  | chat_final (runId sessionKey : string) (seq : Z) (message : option (string * Z))
  | chat_error (runId sessionKey : string) (seq : Z) (errorMessage : option string)
  | chat_aborted (runId sessionKey : string) (seq : Z) (stopReason : option string).

(** What a step sends: an event of the agent with the key of its session, the notice of a
    gap, a chat payload, the signal of an abort controller, the end of a run's context. *)
Inductive Out :=
  | agent_all (e : AgentEvent) (sessionKey : option string)
  | agent_conns (connIds : list string) (e : AgentEvent) (sessionKey : option string)
  | agent_session (to : string) (e : AgentEvent) (sessionKey : option string)
  | seq_gap (runId : string) (ts : Z) (sessionKey : option string) (expected received : Z)
  | chat_all (p : ChatPayload) (dropIfSlow : bool)
  | chat_session (to : string) (p : ChatPayload)
  | abort_signal (runId : string)
  | context_cleared (runId : string).

Record Chat := mkChat {
  chatRunSessions : jsmap (list ChatRunEntry);
  buffers : jsmap string;
  deltaSentAt : jsmap Z;
  abortedRuns : jsmap Z;
  agentRunSeq : jsmap Z;
  chatAbortControllers : jsmap ChatAbortControllerEntry;
  recipients : jsmap ToolRecipientEntry;
  outs : list Out
}.
#[export] Instance Chat_eta : EtaRecord Chat := fun s =>
  mkChat (chatRunSessions s) (buffers s) (deltaSentAt s) (abortedRuns s) (agentRunSeq s) (chatAbortControllers s) (recipients s) (outs s).
Definition new_Chat : Chat := mkChat [] [] [] [] [] [] [] [].
Implicit Types s : Chat.

Definition emit (o : Out) s : Chat := s <| outs ::= fun l => l ++ [o] |>.

(** ** The queues of runs *)

Definition add_run (sessionId : string) (e : ChatRunEntry) s : Chat :=
  s <| chatRunSessions ::= fun m => jm_set m sessionId (default [] (jm_get m sessionId) ++ [e]) |>.

Definition peek (sessionId : string) s : option ChatRunEntry := jm_get (chatRunSessions s) sessionId ≫= head.

Definition put_queue (sessionId : string) (queue : list ChatRunEntry) (m : jsmap (list ChatRunEntry)) : jsmap (list ChatRunEntry) :=
  match queue with [] => jm_delete m sessionId | _ => jm_set m sessionId queue end.

Definition shift (sessionId : string) s : Chat * option ChatRunEntry :=
  match jm_get (chatRunSessions s) sessionId with
  | Some (e :: queue) => (s <| chatRunSessions ::= put_queue sessionId queue |>, Some e)
  | _ => (s, None)
  end.

(** [findIndex] and [splice]: the queue without the first entry that passes the test. *)
Fixpoint remove_first {A} (test : A -> bool) (l : list A) : option (A * list A) :=
  match l with
  | [] => None
  | x :: l =>
      if test x then Some (x, l)
      else match remove_first test l with Some (y, l) => Some (y, x :: l) | None => None end
  end.

Definition remove_run (sessionId clientRunId : string) (sessionKey : option string) s : Chat * option ChatRunEntry :=
  let wanted e := String.eqb (cr_clientRunId e) clientRunId &&
    match sessionKey with Some k => if truthy_str k then String.eqb (cr_sessionKey e) k else true | None => true end in
  match jm_get (chatRunSessions s) sessionId with
  | Some queue =>
      match remove_first wanted queue with
      | Some (e, queue) => (s <| chatRunSessions ::= put_queue sessionId queue |>, Some e)
      | None => (s, None)
      end
  | None => (s, None)
  end.

Definition clear_runs s : Chat :=
  s <| chatRunSessions := [] |> <| buffers := [] |> <| deltaSentAt := [] |> <| abortedRuns := [] |>.

(** ** The recipients of tool events *)

Definition TOOL_EVENT_RECIPIENT_TTL_MS : Z := 600000.
Definition TOOL_EVENT_RECIPIENT_FINAL_GRACE_MS : Z := 30000.

Definition cutoff (e : ToolRecipientEntry) : Z :=
  match tr_finalizedAt e with
  | Some t => if t =? 0 then tr_updatedAt e + TOOL_EVENT_RECIPIENT_TTL_MS else t + TOOL_EVENT_RECIPIENT_FINAL_GRACE_MS
  | None => tr_updatedAt e + TOOL_EVENT_RECIPIENT_TTL_MS
  end.
Definition prune_recipients (now : Z) (m : jsmap ToolRecipientEntry) : jsmap ToolRecipientEntry :=
  keep (fun kv => negb (cutoff kv.2 <=? now)) m.

Definition add_recipient (now : Z) (runId connId : string) s : Chat :=
  if negb (truthy_str runId) || negb (truthy_str connId) then s else
  s <| recipients ::= fun m => prune_recipients now
    match jm_get m runId with
    | Some e => jm_set m runId (e <| tr_connIds ::= fun l => if bool_decide (connId ∈ l) then l else l ++ [connId] |>
                                  <| tr_updatedAt := now |>)
    | None => jm_set m runId (mkToolRecipientEntry [connId] now None)
    end |>.

Definition get_recipients (now : Z) (runId : string) s : Chat * option (list string) :=
  match jm_get (recipients s) runId with
  | None => (s, None)
  | Some e => (s <| recipients ::= fun m => prune_recipients now (jm_set m runId (e <| tr_updatedAt := now |>)) |>, Some (tr_connIds e))
  end.

Definition markFinal (now : Z) (runId : string) s : Chat :=
  match jm_get (recipients s) runId with
  | None => s
  | Some e => s <| recipients ::= fun m => prune_recipients now (jm_set m runId (e <| tr_finalizedAt := Some now |>)) |>
  end.

(** ** The events of an agent *)

Inductive VerboseLevel := verbose_off | verbose_on | verbose_full.
#[export] Instance VerboseLevel_eq_dec : EqDecision VerboseLevel.
Proof. solve_decision. Defined.

(** The context of a run: whether it is a heartbeat, and its own verbosity. *)
Record AgentRunContext := mkAgentRunContext { rc_isHeartbeat : bool; rc_verboseLevel : option VerboseLevel }.

(** What the handler asks of the rest of the gateway.  Loading the configuration or the
    entry of a session may throw. *)
Record ChatEnv := mkChatEnv {
  getAgentRunContext : string -> option AgentRunContext;
  webchat_showOk : option bool;
  session_verbose : string -> option (option VerboseLevel * option VerboseLevel);
  resolveSessionKeyForRun : string -> option string;
  formatForLog : json -> string
}.

Section handler.
Context (env : ChatEnv) (now : Z).

Definition shouldSuppressHeartbeatBroadcast (runId : string) : bool :=
  match getAgentRunContext env runId with
  | Some c => if rc_isHeartbeat c then match webchat_showOk env with Some showOk => negb showOk | None => true end else false
  | None => false
  end.

Definition resolveToolVerboseLevel (runId : string) (sessionKey : option string) : VerboseLevel :=
  match getAgentRunContext env runId ≫= rc_verboseLevel with
  | Some v => v
  | None =>
      match sessionKey with
      | Some k =>
          if negb (truthy_str k) then verbose_off else
          match session_verbose env k with
          | Some (Some v, _) => v
          | Some (None, v) => default verbose_off v
          | None => verbose_off
          end
      | None => verbose_off
      end
  end.

Definition emitChatDelta (sessionKey clientRunId : string) (seq : Z) (text : string) s : Chat :=
  let s := s <| buffers ::= fun m => jm_set m clientRunId text |> in
  let last := default 0 (jm_get (deltaSentAt s) clientRunId) in
  if now - last <? 150 then s else
  let s := s <| deltaSentAt ::= fun m => jm_set m clientRunId now |> in
  let payload := chat_delta clientRunId sessionKey seq text now in
  let s := if shouldSuppressHeartbeatBroadcast clientRunId then s else emit (chat_all payload true) s in
  emit (chat_session sessionKey payload) s.

Definition emitChatFinal (sessionKey clientRunId : string) (seq : Z) (failed : bool) (error : option json) s : Chat :=
  let text := default "" (js_trim <$> jm_get (buffers s) clientRunId) in
  let s := s <| buffers ::= fun m => jm_delete m clientRunId |> <| deltaSentAt ::= fun m => jm_delete m clientRunId |> in
  if negb failed then
    let payload := chat_final clientRunId sessionKey seq (if truthy_str text then Some (text, now) else None) in
    let s := if shouldSuppressHeartbeatBroadcast clientRunId then s else emit (chat_all payload false) s in
    emit (chat_session sessionKey payload) s
  else
    let payload := chat_error clientRunId sessionKey seq
      (match error with Some j => if truthy_json j then Some (formatForLog env j) else None | None => None end) in
    emit (chat_session sessionKey payload) (emit (chat_all payload false) s).

Definition data_member (e : AgentEvent) (k : string) : option json := ev_data e ≫= fun d => jm_get d k.
Definition data_text (e : AgentEvent) (k : string) : option string :=
  match data_member e k with Some (JStr t) => Some t | _ => None end.

(** The event without the results of the tool. *)
Definition without_results (e : AgentEvent) : AgentEvent :=
  e <| ev_data := Some (jm_delete (jm_delete (default [] (ev_data e)) "result") "partialResult") |>.

(** [sessionKey ? ... : ...]. *)
Definition present (k : option string) : option string :=
  match k with Some t => if truthy_str t then k else None | None => None end.

Definition phase_of (e : AgentEvent) : option string :=
  if String.eqb (ev_stream e) "lifecycle" then data_text e "phase" else None.
Definition run_ends (e : AgentEvent) : bool :=
  bool_decide (phase_of e = Some "end") || bool_decide (phase_of e = Some "error").

(** The part that feeds the chat run of the session. *)
Definition feed_chat (e : AgentEvent) (chatLink : option ChatRunEntry) (sessionKey clientRunId : string) (isAborted : bool) s : Chat * bool :=
  let failed := bool_decide (phase_of e = Some "error") in
  match (if isAborted then None else if String.eqb (ev_stream e) "assistant" then data_text e "text" else None) with
  | Some text => (emitChatDelta sessionKey clientRunId (ev_seq e) text s, true)
  | None =>
      if negb isAborted && run_ends e then
        match chatLink with
        | Some _ =>
            match shift (ev_runId e) s with
            | (s, None) => (emit (context_cleared (ev_runId e)) s, false)
            | (s, Some finished) =>
                (emitChatFinal (cr_sessionKey finished) (cr_clientRunId finished) (ev_seq e) failed (data_member e "error") s, true)
            end
        | None => (emitChatFinal sessionKey (ev_runId e) (ev_seq e) failed (data_member e "error") s, true)
        end
      else if isAborted && run_ends e then
        let s := s <| abortedRuns ::= fun m => jm_delete (jm_delete m clientRunId) (ev_runId e) |>
                   <| buffers ::= fun m => jm_delete m clientRunId |>
                   <| deltaSentAt ::= fun m => jm_delete m clientRunId |> in
        (match chatLink with Some _ => (remove_run (ev_runId e) clientRunId (Some sessionKey) s).1 | None => s end, true)
      else (s, true)
  end.

Definition handle (e : AgentEvent) s : Chat :=
  let runId := ev_runId e in
  let chatLink := peek runId s in
  let sessionKey := match chatLink with Some l => Some (cr_sessionKey l) | None => resolveSessionKeyForRun env runId end in
  let clientRunId := match chatLink with Some l => cr_clientRunId l | None => runId end in
  let isAborted := jm_has (abortedRuns s) clientRunId || jm_has (abortedRuns s) runId in
  let last := default 0 (jm_get (agentRunSeq s) runId) in
  let isToolEvent := String.eqb (ev_stream e) "tool" in
  let toolVerbose := if isToolEvent then resolveToolVerboseLevel runId sessionKey else verbose_off in
  let remember s := s <| agentRunSeq ::= fun m => jm_set m runId (ev_seq e) |> in
  if isToolEvent && bool_decide (toolVerbose = verbose_off) then remember s else
  let payload := if isToolEvent && negb (bool_decide (toolVerbose = verbose_full)) then without_results e else e in
  let s := if ev_seq e =? last + 1 then s else emit (seq_gap runId now sessionKey (last + 1) (ev_seq e)) s in
  let s := remember s in
  let s :=
    if isToolEvent then
      match get_recipients now runId s with
      | (s, Some ((_ :: _) as conns)) => emit (agent_conns conns payload (present sessionKey)) s
      | (s, _) => s
      end
    else emit (agent_all e (present sessionKey)) s in
  let '(s, goes_on) :=
    match present sessionKey with
    | Some k => feed_chat e chatLink k clientRunId isAborted (emit (agent_session k payload (Some k)) s)
    | None => (s, true)
    end in
  if goes_on && run_ends e then emit (context_cleared runId) (markFinal now runId s) else s.
End handler.

(** ** Aborting *)

Section abort.
Context (now : Z).

Definition abortChatRunById (runId sessionKey : string) (stopReason : option string) s : Chat * bool :=
  match jm_get (chatAbortControllers s) runId with
  | None => (s, false)
  | Some active =>
      if negb (String.eqb (ca_sessionKey active) sessionKey) then (s, false) else
      let s := s <| abortedRuns ::= fun m => jm_set m runId now |> in
      let s := emit (abort_signal runId) s in
      let s := s <| chatAbortControllers ::= fun m => jm_delete m runId |> <| buffers ::= fun m => jm_delete m runId |>
                 <| deltaSentAt ::= fun m => jm_delete m runId |> in
      let s := (remove_run runId runId (Some sessionKey) s).1 in
      let payload := chat_aborted runId sessionKey (default 0 (jm_get (agentRunSeq s) runId) + 1) stopReason in
      (emit (chat_session sessionKey payload) (emit (chat_all payload false) s), true)
  end.

(** The loop over the controllers: the entries of the session, in order. *)
Fixpoint abort_loop (sessionKey : string) (stopReason : option string) (l : list (string * ChatAbortControllerEntry)) s : Chat * list string :=
  match l with
  | [] => (s, [])
  | (runId, active) :: l =>
      if negb (String.eqb (ca_sessionKey active) sessionKey) then abort_loop sessionKey stopReason l s else
      let '(s, aborted) := abortChatRunById runId sessionKey stopReason s in
      let '(s, ids) := abort_loop sessionKey stopReason l s in
      (s, if (aborted : bool) then runId :: ids else ids)
  end.

Definition abortChatRunsForSessionKey (sessionKey : string) (stopReason : option string) s : Chat * list string :=
  abort_loop sessionKey stopReason (chatAbortControllers s) s.

Definition resolveChatRunExpiresAtMs (timeoutMs : Z) : Z :=
  let target := now + Z.max 0 timeoutMs + 60000 in
  Z.min (now + 86400000) (Z.max (now + 120000) target).
End abort.

(** ** The cleaning of every minute *)

Definition DEDUPE_TTL_MS : Z := 300000.
Definition DEDUPE_MAX : Z := 1000.
Definition ABORTED_RUN_TTL_MS : Z := 3600000.

(** The loop of deletions: its bound is read again before every turn. *)
Fixpoint evict (entries : list (string * Z)) (i : Z) (m : jsmap Z) : jsmap Z :=
  match entries with
  | [] => m
  | (k, _) :: entries => if i <? jm_size m - DEDUPE_MAX then evict entries (i + 1) (jm_delete m k) else m
  end.

(** The cache of answers, here with the times of its entries. *)
Definition clean_dedupe (now : Z) (m : jsmap Z) : jsmap Z :=
  let m := keep (fun kv => negb (DEDUPE_TTL_MS <? now - kv.2)) m in
  if DEDUPE_MAX <? jm_size m then evict (js_sort (fun a b => a.2 <=? b.2) m) 0 m else m.

Definition abort_expired (now : Z) s : Chat :=
  foldl (fun s kv => if now <=? ca_expiresAtMs kv.2 then s
                     else (abortChatRunById now kv.1 (ca_sessionKey kv.2) (Some "timeout") s).1)
    s (chatAbortControllers s).

Definition forget_aborted (now : Z) s : Chat :=
  foldl (fun s kv => if now - kv.2 <=? ABORTED_RUN_TTL_MS then s
                     else s <| abortedRuns ::= fun m => jm_delete m kv.1 |> <| buffers ::= fun m => jm_delete m kv.1 |>
                            <| deltaSentAt ::= fun m => jm_delete m kv.1 |>)
    s (abortedRuns s).

(** ** Theorems on aborting *)

Lemma remove_run_frame sid cid k s :
  let s' := (remove_run sid cid k s).1 in
  buffers s' = buffers s /\ deltaSentAt s' = deltaSentAt s /\ abortedRuns s' = abortedRuns s /\ agentRunSeq s' = agentRunSeq s /\
  chatAbortControllers s' = chatAbortControllers s /\ recipients s' = recipients s /\ outs s' = outs s.
Proof. unfold remove_run. repeat case_match; by simplify_eq/=. Qed.

Lemma outs_emit o s : outs (emit o s) = outs s ++ [o].
Proof. done. Qed.

(** What aborting one run of the session does to the tables. *)
Lemma abort_one now runId key reason s active :
  jm_get (chatAbortControllers s) runId = Some active -> ca_sessionKey active = key ->
  let s' := (abortChatRunById now runId key reason s).1 in
  (abortChatRunById now runId key reason s).2 = true /\
  chatAbortControllers s' = jm_delete (chatAbortControllers s) runId /\ buffers s' = jm_delete (buffers s) runId /\
  deltaSentAt s' = jm_delete (deltaSentAt s) runId /\ abortedRuns s' = jm_set (abortedRuns s) runId now /\
  agentRunSeq s' = agentRunSeq s /\
  outs s' = outs s ++ [abort_signal runId;
    chat_all (chat_aborted runId key (default 0 (jm_get (agentRunSeq s) runId) + 1) reason) false;
    chat_session key (chat_aborted runId key (default 0 (jm_get (agentRunSeq s) runId) + 1) reason)].
Proof.
  intros Ha Hk. unfold abortChatRunById. rewrite Ha, Hk, String.eqb_refl. cbn [negb]. set (s1 := _ <| deltaSentAt ::= _ |>).
  destruct (remove_run_frame runId runId (Some key) s1) as (H1 & H2 & H3 & H4 & H5 & H6 & H7). cbn [fst snd].
  split_and!; [done|exact H5|exact H1|exact H2|exact H3|exact H4|].
  rewrite !outs_emit, H7, H4. change (outs s1) with (outs s ++ [abort_signal runId]). change (agentRunSeq s1) with (agentRunSeq s).
  by rewrite <- !app_assoc.
Qed.

Definition of_session (key : string) (kv : string * ChatAbortControllerEntry) : bool := String.eqb (ca_sessionKey kv.2) key.

Lemma abort_loop_spec now key reason l s : jm_wf l ->
  (forall id a, (id, a) ∈ l -> jm_get (chatAbortControllers s) id = Some a) ->
  let '(s', ids) := abort_loop now key reason l s in
  ids = (keep (of_session key) l).*1 /\
  (forall id, jm_get (abortedRuns s') id = if bool_decide (id ∈ ids) then Some now else jm_get (abortedRuns s) id) /\
  (forall id, id ∉ ids -> jm_get (buffers s') id = jm_get (buffers s) id /\
                          jm_get (chatAbortControllers s') id = jm_get (chatAbortControllers s) id) /\
  (jm_wf (chatAbortControllers s) -> jm_wf (buffers s) -> forall id, id ∈ ids ->
     jm_get (buffers s') id = None /\ jm_get (chatAbortControllers s') id = None).
Proof.
  revert s. induction l as [|[runId a] l IH]; intros s Hw Hl; cbn [abort_loop].
  - split_and!; [done|intros id; by rewrite bool_decide_eq_false_2 by apply not_elem_of_nil|done|by intros _ _ id ?%elem_of_nil].
  - apply NoDup_cons in Hw as [Hfresh Hw]. unfold keep in *. destruct (of_session key (runId, a)) eqn:Ho; unfold of_session in Ho; cbn [snd] in Ho; rewrite Ho; cbn [negb].
    + rewrite filter_cons_True by done. apply String.eqb_eq in Ho.
      pose proof (abort_one now runId key reason s a (Hl runId a ltac:(by left)) Ho) as Ha.
      destruct (abortChatRunById now runId key reason s) as [s1 b]. cbn [fst snd] in Ha.
      destruct Ha as (-> & Hc & Hb & _ & Hab & _ & _).
      assert (Hl1 : forall id x, (id, x) ∈ l -> jm_get (chatAbortControllers s1) id = Some x).
      { intros id x Hx. rewrite Hc, jm_get_delete_ne; [apply Hl; by right|].
        intros ->. apply Hfresh, list_elem_of_fmap. by exists (id, x). }
      specialize (IH s1 Hw Hl1). destruct (abort_loop now key reason l s1) as [s2 ids]. destruct IH as (-> & H1 & H2 & H3).
      cbn [fmap list_fmap fst]. set (rest := (filter (fun x => of_session key x = true) l).*1) in *.
      assert (Hnr : runId ∉ rest).
      { intros (x & Hx & [_ Hin]%list_elem_of_filter)%list_elem_of_fmap. apply Hfresh, list_elem_of_fmap. by exists x. }
      split_and!; [done| | |].
      * intros id. rewrite H1, Hab, jm_get_set. destruct (decide (id = runId)) as [->|Hne].
        -- rewrite bool_decide_eq_false_2 by done. rewrite decide_True by done. by rewrite bool_decide_eq_true_2 by (by left).
        -- rewrite (decide_False (P := runId = id)) by done. repeat case_bool_decide; set_solver.
      * intros id [Hne Hr]%not_elem_of_cons. destruct (H2 id Hr) as [-> ->]. rewrite Hb, Hc, !jm_get_delete_ne by done. done.
      * intros Hwc Hwb id [->|Hin]%elem_of_cons.
        -- destruct (H2 runId Hnr) as [-> ->]. rewrite Hb, Hc. by rewrite !jm_get_delete_eq.
        -- apply H3; [rewrite Hc; by apply jm_wf_delete|rewrite Hb; by apply jm_wf_delete|done].
    + rewrite filter_cons_False by (unfold of_session; cbn; by rewrite Ho). apply IH; [done|]. intros id x Hx. apply Hl. by right.
Qed.

(** Stopping a session aborts exactly its runs, in the order they were started: each is
    marked as aborted and loses its buffer and its controller; the runs of other sessions
    keep theirs. *)
Theorem abort_session_exact now key reason s :
  jm_wf (chatAbortControllers s) -> jm_wf (buffers s) ->
  let '(s', ids) := abortChatRunsForSessionKey now key reason s in
  ids = (keep (of_session key) (chatAbortControllers s)).*1 /\
  forall id,
    (id ∈ ids -> jm_get (abortedRuns s') id = Some now /\ jm_get (buffers s') id = None /\ jm_get (chatAbortControllers s') id = None) /\
    (id ∉ ids -> jm_get (abortedRuns s') id = jm_get (abortedRuns s) id /\ jm_get (buffers s') id = jm_get (buffers s) id /\
                 jm_get (chatAbortControllers s') id = jm_get (chatAbortControllers s) id).
Proof.
  intros Hw Hb. unfold abortChatRunsForSessionKey.
  pose proof (abort_loop_spec now key reason (chatAbortControllers s) s Hw) as H.
  destruct (abort_loop _ _ _ _ _) as [s' ids]. destruct H as (-> & H1 & H2 & H3).
  { intros id a Hin. by apply jm_elem_of_get. }
  split; [done|]. intros id. split; intros Hid.
  - rewrite H1, bool_decide_eq_true_2 by done. split; [done|]. by apply H3.
  - rewrite H1, bool_decide_eq_false_2 by done. split; [done|]. by apply H2.
Qed.

(** ** Theorems on the events *)

Definition reports_chat (o : Out) : Prop :=
  match o with
  | chat_all (chat_delta _ _ _ _ _ | chat_final _ _ _ _ | chat_error _ _ _ _) _
  | chat_session _ (chat_delta _ _ _ _ _ | chat_final _ _ _ _ | chat_error _ _ _ _) => True
  | _ => False
  end.

(** The run an event belongs to, as its client knows it. *)
Definition client_run (e : AgentEvent) s : string :=
  match peek (ev_runId e) s with Some l => cr_clientRunId l | None => ev_runId e end.
Definition aborted_for (e : AgentEvent) s : bool := jm_has (abortedRuns s) (client_run e s) || jm_has (abortedRuns s) (ev_runId e).

Definition adds (P : Out -> Prop) s s' : Prop := exists added, outs s' = outs s ++ added /\ Forall P added.

Lemma adds_refl P s s' : outs s' = outs s -> adds P s s'.
Proof. intros H. exists []. by rewrite H, app_nil_r. Qed.
Lemma adds_trans P s1 s2 s3 : adds P s1 s2 -> adds P s2 s3 -> adds P s1 s3.
Proof.
  intros (l & Hl & HP) (k & Hk & HQ). exists (l ++ k). rewrite Hk, Hl, app_assoc. split; [done|]. by apply Forall_app.
Qed.
Lemma adds_emit P o s s' : P o -> adds P s s' -> adds P s (emit o s').
Proof. intros Ho H. eapply adds_trans; [exact H|]. exists [o]. split; [apply outs_emit|by constructor]. Qed.

Lemma outs_recipients now runId s : outs (get_recipients now runId s).1 = outs s.
Proof. unfold get_recipients. by destruct (jm_get _ _). Qed.
Lemma outs_final now runId s : outs (markFinal now runId s) = outs s.
Proof. unfold markFinal. by destruct (jm_get _ _). Qed.

(** The steps of [handle] up to the chat run. *)
Definition announced now (e : AgentEvent) (sessionKey : option string) (payload : AgentEvent) s : Chat :=
  let last := default 0 (jm_get (agentRunSeq s) (ev_runId e)) in
  let s := if ev_seq e =? last + 1 then s else emit (seq_gap (ev_runId e) now sessionKey (last + 1) (ev_seq e)) s in
  let s := s <| agentRunSeq ::= fun m => jm_set m (ev_runId e) (ev_seq e) |> in
  if String.eqb (ev_stream e) "tool" then
    match get_recipients now (ev_runId e) s with
    | (s, Some ((_ :: _) as conns)) => emit (agent_conns conns payload (present sessionKey)) s
    | (s, _) => s
    end
  else emit (agent_all e (present sessionKey)) s.

Lemma announced_adds now e k p s : adds (fun o => ~ reports_chat o) s (announced now e k p s).
Proof.
  unfold announced. set (s1 := if _ =? _ then s else _). assert (H1 : adds (fun o => ~ reports_chat o) s s1).
  { unfold s1. destruct (_ =? _); [by apply adds_refl|]. apply adds_emit; [by intros []|by apply adds_refl]. }
  clearbody s1. set (s2 := s1 <| agentRunSeq ::= _ |>).
  assert (H2 : adds (fun o => ~ reports_chat o) s s2) by (eapply adds_trans; [exact H1|by apply adds_refl]). clearbody s2.
  destruct (String.eqb _ _); [|apply adds_emit; [by intros []|done]].
  pose proof (outs_recipients now (ev_runId e) s2) as Ho. destruct (get_recipients now (ev_runId e) s2) as [s3 [[|c l]|]]; cbn [fst] in Ho;
    [|apply adds_emit; [by intros []|]|]; (eapply adds_trans; [exact H2|by apply adds_refl]).
Qed.

(** The announcements leave the chat tables alone. *)
Lemma announced_frame now e k p s :
  let s' := announced now e k p s in
  chatRunSessions s' = chatRunSessions s /\ buffers s' = buffers s /\ deltaSentAt s' = deltaSentAt s /\ abortedRuns s' = abortedRuns s.
Proof. unfold announced, get_recipients. cbv zeta. repeat case_match; by simplify_eq/=. Qed.

Definition session_of (env : ChatEnv) (e : AgentEvent) s : option string :=
  match peek (ev_runId e) s with Some l => Some (cr_sessionKey l) | None => resolveSessionKeyForRun env (ev_runId e) end.

Lemma handle_eq env now e s :
  let verbose := if String.eqb (ev_stream e) "tool" then resolveToolVerboseLevel env (ev_runId e) (session_of env e s) else verbose_off in
  handle env now e s =
  if String.eqb (ev_stream e) "tool" && bool_decide (verbose = verbose_off)
  then s <| agentRunSeq ::= fun m => jm_set m (ev_runId e) (ev_seq e) |>
  else
    let payload := if String.eqb (ev_stream e) "tool" && negb (bool_decide (verbose = verbose_full)) then without_results e else e in
    let s1 := announced now e (session_of env e s) payload s in
    let '(s2, goes_on) :=
      match present (session_of env e s) with
      | Some k => feed_chat env now e (peek (ev_runId e) s) k (client_run e s) (aborted_for e s) (emit (agent_session k payload (Some k)) s1)
      | None => (s1, true)
      end in
    if goes_on && run_ends e then emit (context_cleared (ev_runId e)) (markFinal now (ev_runId e) s2) else s2.
Proof. reflexivity. Qed.

Lemma aborted_feed env now e link k c s : let '(s', _) := feed_chat env now e link k c true s in outs s' = outs s.
Proof.
  unfold feed_chat. cbn [negb andb]. destruct (run_ends e); [|done]. destruct link; [|done].
  match goal with |- outs (remove_run ?a ?b ?c ?s).1 = _ => by destruct (remove_run_frame a b c s) as (_ & _ & _ & _ & _ & _ & ->) end.
Qed.

(** Nothing that arrives late from an aborted run is shown as its answer: no delta, no final
    message and no error is sent to anyone, for as long as the run is marked. *)
Theorem aborted_run_is_silent env now e s : aborted_for e s = true ->
  adds (fun o => ~ reports_chat o) s (handle env now e s).
Proof.
  intros Ha. rewrite handle_eq. cbv zeta. destruct (_ && _); [by apply adds_refl|].
  match goal with |- context [announced _ _ _ ?p _] => set (payload := p) end. pose proof (announced_adds now e (session_of env e s) payload s) as H1.
  set (s1 := announced _ _ _ _ _) in *. clearbody s1. rewrite Ha.
  match goal with |- adds _ _ (match ?x with _ => _ end) => set (r := x) end.
  assert (Hr : adds (fun o => ~ reports_chat o) s r.1).
  { unfold r. destruct (present (session_of env e s)) as [k|]; [|done].
    pose proof (aborted_feed env now e (peek (ev_runId e) s) k (client_run e s) (emit (agent_session k payload (Some k)) s1)) as Hf.
    destruct (feed_chat _ _ _ _ _ _ _ _) as [s' b]. eapply adds_trans; [|by apply adds_refl].
    apply adds_emit; [by intros []|done]. }
  destruct r as [s2 b]. cbn [fst] in Hr. destruct (b && run_ends e); [|done].
  apply adds_emit; [by intros []|]. eapply adds_trans; [exact Hr|]. apply adds_refl, outs_final.
Qed.

(** The text an event brings. *)
Definition text_of (e : AgentEvent) : option string :=
  if String.eqb (ev_stream e) "assistant" then data_text e "text" else None.

Lemma delta_frame env now k c q t s :
  let s' := emitChatDelta env now k c q t s in
  chatRunSessions s' = chatRunSessions s /\ abortedRuns s' = abortedRuns s /\ buffers s' = jm_set (buffers s) c t.
Proof. unfold emitChatDelta. cbv zeta. repeat case_match; done. Qed.

(** An event of a run that goes on: at most the text of the run changes. *)
Lemma handle_running env now e s : run_ends e = false -> aborted_for e s = false ->
  let s' := handle env now e s in
  chatRunSessions s' = chatRunSessions s /\ abortedRuns s' = abortedRuns s /\
  buffers s' = match present (session_of env e s), text_of e with
               | Some _, Some t => jm_set (buffers s) (client_run e s) t
               | _, _ => buffers s
               end.
Proof.
  intros He Ha. cbv zeta. rewrite handle_eq. cbv zeta. destruct (String.eqb (ev_stream e) "tool" && _) eqn:Et.
  - apply andb_true_iff in Et as [Et _]. apply String.eqb_eq in Et. unfold text_of. rewrite Et. cbn. by destruct (present _).
  - clear Et. match goal with |- context [announced _ _ _ ?p _] => set (payload := p) end.
    destruct (announced_frame now e (session_of env e s) payload s) as (H1 & H2 & H3 & H4).
    set (s1 := announced _ _ _ _ _) in *. clearbody s1. rewrite Ha, He.
    destruct (present (session_of env e s)) as [k|]; [|by rewrite andb_false_r].
    unfold feed_chat. fold (text_of e). rewrite He. cbn [negb andb]. destruct (text_of e) as [t|]; cbn [andb]; [|done].
    rewrite ?andb_false_r. destruct (delta_frame env now k (client_run e s) (ev_seq e) t (emit (agent_session k payload (Some k)) s1)) as (-> & -> & ->).
    cbn. by rewrite H1, H2, H4.
Qed.

Lemma same_run env e e' s s' : ev_runId e' = ev_runId e -> chatRunSessions s' = chatRunSessions s -> abortedRuns s' = abortedRuns s ->
  session_of env e' s' = session_of env e s /\ client_run e' s' = client_run e s /\ aborted_for e' s' = aborted_for e s /\
  peek (ev_runId e') s' = peek (ev_runId e) s.
Proof. unfold session_of, aborted_for, client_run, peek. by intros -> -> ->. Qed.

Definition run_events env (l : list (Z * AgentEvent)) s : Chat := foldl (fun s te => handle env te.1 te.2 s) s l.

Lemma quiet_events env e l s : aborted_for e s = false ->
  Forall (fun te => ev_runId te.2 = ev_runId e /\ run_ends te.2 = false /\ text_of te.2 = None) l ->
  let s' := run_events env l s in
  chatRunSessions s' = chatRunSessions s /\ abortedRuns s' = abortedRuns s /\ buffers s' = buffers s.
Proof.
  intros Ha Hl. revert s Ha. induction Hl as [|[t x] l (Hr & He & Ht) _ IH]; intros s Ha; [done|]. cbn [run_events foldl fst snd] in *.
  destruct (same_run env e x s s Hr eq_refl eq_refl) as (_ & _ & Hab & _).
  destruct (handle_running env t x s He) as (H1 & H2 & H3); [by rewrite Hab|].
  rewrite Ht in H3. assert (H3' : buffers (handle env t x s) = buffers s) by (rewrite H3; by destruct (present _)).
  destruct (IH (handle env t x s)) as (H4 & H5 & H6).
  { by rewrite (proj1 (proj2 (proj2 (same_run env e e s (handle env t x s) eq_refl H1 H2)))). }
  unfold run_events in *. by rewrite H4, H5, H6, H1, H2, H3'.
Qed.

Lemma feed_end env now e link k c s : run_ends e = true -> phase_of e = Some "end" ->
  link = peek (ev_runId e) s -> c = match link with Some l => cr_clientRunId l | None => ev_runId e end ->
  Some k = match link with Some l => Some (cr_sessionKey l) | None => Some k end ->
  let text := default "" (js_trim <$> jm_get (buffers s) c) in
  let '(s', b) := feed_chat env now e link k c false s in
  b = true /\ chat_session k (chat_final c k (ev_seq e) (if truthy_str text then Some (text, now) else None)) ∈ outs s' /\
  buffers s' = jm_delete (buffers s) c.
Proof.
  intros He Hp -> -> Hk text. unfold feed_chat. rewrite He. cbn [negb andb].
  assert (Hs : String.eqb (ev_stream e) "assistant" = false).
  { unfold phase_of in Hp. destruct (String.eqb_spec (ev_stream e) "lifecycle") as [->|]; done. }
  rewrite Hs, Hp. rewrite (bool_decide_eq_false_2 (Some "end" = Some "error")) by done.
  assert (Hfinal : forall c s0, text = default "" (js_trim <$> jm_get (buffers s0) c) -> buffers s0 = buffers s ->
    chat_session k (chat_final c k (ev_seq e) (if truthy_str text then Some (text, now) else None)) ∈
      outs (emitChatFinal env now k c (ev_seq e) false (data_member e "error") s0) /\
    buffers (emitChatFinal env now k c (ev_seq e) false (data_member e "error") s0) = jm_delete (buffers s) c).
  { intros c0 s0 Ht Hb. unfold emitChatFinal. cbn [negb]. rewrite <- Ht. split.
    - rewrite outs_emit. apply elem_of_app. right. by left.
    - destruct (shouldSuppressHeartbeatBroadcast env c0); unfold emit, field_update; cbn; by rewrite Hb. }
  unfold peek, shift in *. destruct (jm_get (chatRunSessions s) (ev_runId e)) as [[|x q]|]; cbn [mbind option_bind head] in *.
  - split; [done|]. by apply Hfinal.
  - injection Hk as ->. split; [done|]. by apply Hfinal.
  - split; [done|]. by apply Hfinal.
Qed.

(** C29: the final message of a run carries the last text of the agent whole, although the deltas
    in between are sent at most every 150 milliseconds, and whatever else the run reports
    before it ends. *)
Theorem final_message_is_last_text env now1 e1 mid now2 e2 t k s :
  text_of e1 = Some t -> run_ends e1 = false -> aborted_for e1 s = false -> present (session_of env e1 s) = Some k ->
  Forall (fun te => ev_runId te.2 = ev_runId e1 /\ run_ends te.2 = false /\ text_of te.2 = None) mid ->
  ev_runId e2 = ev_runId e1 -> phase_of e2 = Some "end" ->
  let s' := handle env now2 e2 (run_events env mid (handle env now1 e1 s)) in
  let c := client_run e1 s in
  chat_session k (chat_final c k (ev_seq e2) (if truthy_str (js_trim t) then Some (js_trim t, now2) else None)) ∈ outs s' /\
  (jm_wf (buffers s) -> jm_get (buffers s') c = None).
Proof.
  intros Ht1 He1 Ha Hk Hmid Hr Hp s' c. destruct (handle_running env now1 e1 s He1 Ha) as (A1 & A2 & A3).
  rewrite Hk, Ht1 in A3. set (sa := handle env now1 e1 s) in *.
  destruct (same_run env e1 e1 s sa eq_refl A1 A2) as (_ & _ & Haa & _).
  destruct (quiet_events env e1 mid sa) as (B1 & B2 & B3); [by rewrite Haa|done|]. set (sb := run_events env mid sa) in *.
  destruct (same_run env e1 e2 s sb Hr ltac:(congruence) ltac:(congruence)) as (C1 & C2 & C3 & C4).
  assert (He2 : run_ends e2 = true) by (unfold run_ends; by rewrite Hp).
  assert (Hstream : String.eqb (ev_stream e2) "tool" = false).
  { unfold phase_of in Hp. destruct (String.eqb_spec (ev_stream e2) "lifecycle") as [->|]; done. }
  unfold s'. rewrite handle_eq. cbv zeta. rewrite Hstream. cbn [andb]. rewrite C1, Hk, C2, C3, Ha.
  destruct (announced_frame now2 e2 (session_of env e1 s) e2 sb) as (D1 & D2 & _ & _).
  set (s1 := announced _ _ _ _ _) in *. clearbody s1.
  pose proof (feed_end env now2 e2 (peek (ev_runId e2) sb) k (client_run e1 s) (emit (agent_session k e2 (Some k)) s1) He2 Hp) as Hf.
  destruct (feed_chat _ _ _ _ _ _ _ _) as [s3 b].
  destruct Hf as (-> & Hin & Hb).
  { unfold peek. cbn. by rewrite D1. }
  { rewrite C4. unfold c, client_run. by rewrite Hr. }
  { rewrite C4. unfold session_of in Hk. destruct (peek (ev_runId e1) s) as [l|]; [|done]. unfold present in Hk.
    destruct (truthy_str _); [|done]. congruence. }
  rewrite He2. cbn [andb]. change (buffers (emit (agent_session k e2 (Some k)) s1)) with (buffers s1) in *.
  assert (Hbuf : jm_get (buffers s1) c = Some t) by (rewrite D2, B3, A3; apply jm_get_set_eq). fold c in Hin, Hb.
  rewrite Hbuf in Hin. cbn [fmap option_fmap option_map default from_option id] in Hin. split.
  - rewrite outs_emit, outs_final. apply elem_of_app. by left.
  - intros Hw. unfold markFinal. assert (Hd : jm_get (buffers s3) c = None).
    { rewrite Hb. apply jm_get_delete_eq. rewrite D2, B3, A3. by apply jm_wf_set. }
    by destruct (jm_get (recipients s3) _).
Qed.

Definition quiet_env : ChatEnv := mkChatEnv (fun _ => None) (Some true) (fun _ => None) (fun _ => Some "main") (fun _ => "error").
Definition agent_event (seq : Z) (stream k v : string) : AgentEvent := mkAgentEvent "r1" seq stream 0 (Some [(k, JStr v)]).

Lemma final_message_is_last_text_witness :
  let hello := agent_event 1 "assistant" "text" " hello " in
  chat_session "main" (chat_final "r1" "main" 3 (Some ("hello", 20))) ∈
    outs (handle quiet_env 20 (agent_event 3 "lifecycle" "phase" "end")
      (run_events quiet_env [(15, agent_event 2 "thinking" "text" "...")] (handle quiet_env 10 hello new_Chat))).
Proof.
  cbn zeta. apply (final_message_is_last_text quiet_env 10 (agent_event 1 "assistant" "text" " hello ")
    [(15, agent_event 2 "thinking" "text" "...")] 20 (agent_event 3 "lifecycle" "phase" "end") " hello " "main" new_Chat);
    try reflexivity. by repeat constructor.
Defined.

Definition aborted_once : Chat := new_Chat <| abortedRuns := [("r1", 5)] |>.

Lemma aborted_run_is_silent_witness :
  adds (fun o => ~ reports_chat o) aborted_once (handle quiet_env 20 (agent_event 3 "lifecycle" "phase" "end") aborted_once) /\
  abortedRuns (handle quiet_env 20 (agent_event 3 "lifecycle" "phase" "end") aborted_once) = [].
Proof. split; [by apply (aborted_run_is_silent quiet_env 20 (agent_event 3 "lifecycle" "phase" "end") aborted_once)|reflexivity]. Defined.

(** ** The cache of answers *)

Lemma evict_size entries i m : jm_wf m -> NoDup entries.*1 -> entries.*1 ⊆ jm_keys m ->
  (jm_size m - DEDUPE_MAX - i + 1) / 2 <= js_length entries ->
  jm_size (evict entries i m) = jm_size m - Z.max 0 ((jm_size m - DEDUPE_MAX - i + 1) / 2).
Proof.
  revert i m. induction entries as [|[k t] entries IH]; intros i m Hw Hd Hs Hl; cbn [evict].
  - unfold js_length in Hl. cbn in Hl. lia.
  - destruct (Z.ltb_spec i (jm_size m - DEDUPE_MAX)) as [Hi|Hi].
    2: { assert ((jm_size m - DEDUPE_MAX - i + 1) / 2 < 1) by (apply Z.div_lt_upper_bound; lia). lia. }
    cbn [fmap list_fmap fst] in Hd, Hs. apply NoDup_cons in Hd as [Hk Hd].
    assert (Hh : jm_has m k = true) by (apply jm_has_keys, Hs; by left).
    assert (Hsz : jm_size (jm_delete m k) = jm_size m - 1) by (by rewrite jm_size_delete, Hh).
    assert (Hhalf : (jm_size m - DEDUPE_MAX - i + 1) / 2 = (jm_size (jm_delete m k) - DEDUPE_MAX - (i + 1) + 1) / 2 + 1).
    { rewrite Hsz, <- Z.div_add by lia. f_equal. lia. }
    rewrite IH.
    + rewrite Hsz at 1. rewrite Hhalf.
      assert (0 <= (jm_size (jm_delete m k) - DEDUPE_MAX - (i + 1) + 1) / 2) by (apply Z.div_pos; lia). lia.
    + by apply jm_wf_delete.
    + done.
    + intros x Hx. pose proof (Hs x ltac:(by right)) as Hin. apply jm_has_keys, jm_has_true in Hin.
      apply jm_has_keys, jm_has_true. rewrite jm_get_delete_ne; [done|]. by intros ->.
    + unfold js_length in *. cbn [length] in Hl. lia.
Qed.

(** The cleaning means to leave a thousand entries; because it reads the size again in
    every turn it removes only half of what is too much. *)
Theorem dedupe_half_evicted now m : jm_wf m -> Forall (fun kv => now - kv.2 <= DEDUPE_TTL_MS) m -> DEDUPE_MAX < jm_size m ->
  jm_size (clean_dedupe now m) = DEDUPE_MAX + (jm_size m - DEDUPE_MAX) / 2.
Proof.
  intros Hw Hf Hn. unfold clean_dedupe.
  assert (keep (fun kv => negb (DEDUPE_TTL_MS <? now - kv.2)) m = m) as ->.
  { unfold keep. apply filter_all. eapply Forall_impl; [exact Hf|]. cbn. intros x Hx. apply negb_true_iff. lia. }
  rewrite (proj2 (Z.ltb_lt _ _) Hn). set (l := js_sort _ m).
  assert (Hp : l.*1 ≡ₚ jm_keys m) by (apply fmap_Permutation, js_sort_perm).
  assert (Hlen : js_length l = jm_size m) by (unfold js_length, jm_size, js_length, l; by rewrite js_sort_length).
  set (x := jm_size m - DEDUPE_MAX). assert (Hx : 0 < x) by lia.
  assert (Hhalf : (x + 1) / 2 = x - x / 2) by (clearbody x; Z.to_euclidean_division_equations; lia).
  assert (0 <= x / 2) by (apply Z.div_pos; lia). assert (x / 2 <= x) by (apply Z.div_le_upper_bound; lia).
  rewrite evict_size; [|done|by rewrite Hp|by rewrite Hp|].
  - replace (jm_size m - DEDUPE_MAX - 0 + 1) with (x + 1) by (unfold x; lia). rewrite Hhalf, Z.max_r by lia. unfold x. lia.
  - replace (jm_size m - DEDUPE_MAX - 0 + 1) with (x + 1) by (unfold x; lia). rewrite Hlen, Hhalf. assert (jm_size m = x + 1000) by (unfold x, DEDUPE_MAX; lia). lia.
Qed.

Lemma dedupe_half_evicted_witness :
  let m := (fun n => (js_toString n, 0)) <$> seqZ 0 1004 in
  jm_size m = 1004 /\ jm_size (clean_dedupe 0 m) = 1002.
Proof.
  cbn zeta. split; [vm_compute; reflexivity|].
  refine (dedupe_half_evicted 0 ((fun n => (js_toString n, 0)) <$> seqZ 0 1004) _ _ _).
  - unfold jm_wf, jm_keys. rewrite <- list_fmap_compose. apply NoDup_fmap_2; [|apply NoDup_seqZ].
    intros a b H. cbn in H. assert (Hp : Some a = Some b) by (by rewrite <- (parseInt_toString a), <- (parseInt_toString b), H). by injection Hp.
  - apply Forall_fmap, Forall_true. cbn. unfold DEDUPE_TTL_MS. lia.
  - vm_compute. reflexivity.
Defined.

Definition two_sessions : Chat :=
  new_Chat <| chatAbortControllers := [("r1", mkChatAbortControllerEntry "s1" "main" 0 9); ("r2", mkChatAbortControllerEntry "s2" "other" 0 9)] |>
           <| buffers := [("r1", "he"); ("r2", "ho")] |>.

Lemma abort_session_exact_witness :
  (abortChatRunsForSessionKey 5 "main" (Some "stop") two_sessions).2 = ["r1"] /\
  jm_get (buffers (abortChatRunsForSessionKey 5 "main" (Some "stop") two_sessions).1) "r1" = None /\
  jm_get (buffers (abortChatRunsForSessionKey 5 "main" (Some "stop") two_sessions).1) "r2" = Some "ho".
Proof.
  assert (Hd : NoDup ["r1"; "r2"]) by (apply (bool_decide_unpack (NoDup ["r1"; "r2"])); exact I).
  destruct (abort_session_exact 5 "main" (Some "stop") two_sessions Hd Hd) as [H1 H2].
  split; [exact H1|]. split; [apply (H2 "r1"); by left|]. apply (H2 "r2"). intros [E|E%elem_of_nil]%elem_of_cons; done.
Defined.
