(* ===== verification/GatewayApprovals.v ===== *)
(** * Approvals of commands

    openclaw/gateway/exec-approval-manager.ts and the handlers of server-methods/
    exec-approval.ts: a request waits until an operator decides or its time is over.
    Validation of the parameters against their schema is an input; a request carries the
    number of the call that waits for it. *)

From S2P Require Import Prelude JsMap JsString JsNumber GatewayNet.

Record ExecApprovalRequestPayload := mkExecApprovalRequestPayload {
  rp_command : string; rp_cwd : option string; rp_host : option string; rp_security : option string;
  rp_ask : option string; rp_agentId : option string; rp_resolvedPath : option string; rp_sessionKey : option string
}.
Inductive ExecApprovalDecision := allow_once | allow_always | deny.
#[export] Instance ExecApprovalDecision_eq_dec : EqDecision ExecApprovalDecision.
Proof. solve_decision. Defined.

Record ExecApprovalRecord := mkExecApprovalRecord {
  ar_id : string; ar_request : ExecApprovalRequestPayload; ar_createdAtMs : Z; ar_expiresAtMs : Z;
  ar_resolvedAtMs : option Z; ar_decision : option ExecApprovalDecision; ar_resolvedBy : option string
}.
#[export] Instance ExecApprovalRecord_eta : EtaRecord ExecApprovalRecord := fun r =>
  mkExecApprovalRecord (ar_id r) (ar_request r) (ar_createdAtMs r) (ar_expiresAtMs r) (ar_resolvedAtMs r) (ar_decision r) (ar_resolvedBy r).

(** An entry of the table: the record and the call whose promise it settles. *)
Record PendingEntry := mkPendingEntry { pe_record : ExecApprovalRecord; pe_waiter : nat }.

(** What the gateway sends of an approval. *)
Inductive ApprovalEvent :=
  | approval_requested (r : ExecApprovalRecord)
  | approval_resolved (id : string) (decision : ExecApprovalDecision) (resolvedBy : option string) (ts : Z).

(** An answer to a call: the decision with the times of its record, an acknowledgement, or
    the message of a refusal. *)
Inductive Answer :=
  | ans_decision (id : string) (decision : option ExecApprovalDecision) (createdAtMs expiresAtMs : Z)
  | ans_ok
  | ans_error (message : string).

Record Approvals := mkApprovals {
  pending : jsmap PendingEntry;
  (** The timers that run: the call they belong to and the record. *)
  timers : list (nat * ExecApprovalRecord);
  calls : nat;
  (** The answers, by call; their order is not that of the sockets. *)
  answers : list (nat * Answer);
  events : list ApprovalEvent
}.
#[export] Instance Approvals_eta : EtaRecord Approvals := fun s =>
  mkApprovals (pending s) (timers s) (calls s) (answers s) (events s).
Definition new_Approvals : Approvals := mkApprovals [] [] 0 [] [].
Implicit Types s : Approvals.

(** ** The manager *)

Definition create (now : Z) (uuid : string) (request : ExecApprovalRequestPayload) (timeoutMs : Z) (id : option string) : ExecApprovalRecord :=
  mkExecApprovalRecord (default uuid (trimmed id)) request now (now + timeoutMs) None None None.

(** The call [n] waits: its timer runs and its entry replaces one of the same id. *)
Definition waitForDecision (n : nat) (r : ExecApprovalRecord) s : Approvals :=
  s <| timers ::= fun l => l ++ [(n, r)] |> <| pending ::= fun m => jm_set m (ar_id r) (mkPendingEntry r n) |>.

Definition stop_timer (n : nat) (l : list (nat * ExecApprovalRecord)) : list (nat * ExecApprovalRecord) :=
  keep (fun t => negb (Nat.eqb t.1 n)) l.

Definition answer (n : nat) (a : Answer) s : Approvals := s <| answers ::= fun l => l ++ [(n, a)] |>.
Definition answer_decision (n : nat) (r : ExecApprovalRecord) (d : option ExecApprovalDecision) s : Approvals :=
  answer n (ans_decision (ar_id r) d (ar_createdAtMs r) (ar_expiresAtMs r)) s.

(** The timer of a call: it deletes whatever entry has the id, and ends the waiting. *)
Definition timer_fires (n : nat) s : Approvals :=
  match List.find (fun t => Nat.eqb t.1 n) (timers s) with
  | None => s
  | Some (_, r) =>
      answer_decision n r None (s <| timers ::= stop_timer n |> <| pending ::= fun m => jm_delete m (ar_id r) |>)
  end.

Definition resolve (now : Z) (recordId : string) (d : ExecApprovalDecision) (resolvedBy : option string) s : Approvals * bool :=
  match jm_get (pending s) recordId with
  | None => (s, false)
  | Some e =>
      let r := (pe_record e) <| ar_resolvedAtMs := Some now |> <| ar_decision := Some d |> <| ar_resolvedBy := resolvedBy |> in
      (answer_decision (pe_waiter e) r (Some d)
         (s <| timers ::= stop_timer (pe_waiter e) |> <| pending ::= fun m => jm_delete m recordId |>), true)
  end.

Definition getSnapshot s (recordId : string) : option ExecApprovalRecord := pe_record <$> jm_get (pending s) recordId.

(** ** The handlers *)

Record RequestParams := mkRequestParams { rq_id : option string; rq_payload : ExecApprovalRequestPayload; rq_timeoutMs : option Z }.

(** [exec.approval.request], up to its wait; [invalid] is the message of the validation. *)
Definition request_approval (now : Z) (uuid : string) (invalid : option string) (p : RequestParams) s : Approvals :=
  let n := calls s in
  let s := s <| calls ::= S |> in
  match invalid with
  | Some m => answer n (ans_error ("invalid exec.approval.request params: " +:+ m)) s
  | None =>
      let timeoutMs := default 120000 (rq_timeoutMs p) in
      let explicitId := trimmed (rq_id p) in
      if match explicitId with Some id => bool_decide (is_Some (getSnapshot s id)) | None => false end
      then answer n (ans_error "approval id already pending") s
      else
        let r := create now uuid (rq_payload p) timeoutMs explicitId in
        waitForDecision n r s <| events ::= fun l => l ++ [approval_requested r] |>
  end.

Definition parse_decision (t : string) : option ExecApprovalDecision :=
  if String.eqb t "allow-once" then Some allow_once
  else if String.eqb t "allow-always" then Some allow_always
  else if String.eqb t "deny" then Some deny
  else None.

(** [exec.approval.resolve]; [resolvedBy] is the name or the id of the client. *)
Definition resolve_approval (now : Z) (invalid : option string) (id decision : string) (resolvedBy : option string) s : Approvals :=
  let n := calls s in
  let s := s <| calls ::= S |> in
  match invalid with
  | Some m => answer n (ans_error ("invalid exec.approval.resolve params: " +:+ m)) s
  | None =>
      match parse_decision decision with
      | None => answer n (ans_error "invalid decision") s
      | Some d =>
          match resolve now id d resolvedBy s with
          | (s, false) => answer n (ans_error "unknown approval id") s
          | (s, true) => answer n ans_ok (s <| events ::= fun l => l ++ [approval_resolved id d resolvedBy now] |>)
          end
      end
  end.

(** ** Every request is answered once *)

(** What happens to the table; a drawn id is not one that waits. *)
Inductive step : Approvals -> Approvals -> Prop :=
  | step_request now uuid invalid p s : jm_get (pending s) uuid = None -> step s (request_approval now uuid invalid p s)
  | step_resolve now invalid id decision by_ s : step s (resolve_approval now invalid id decision by_ s)
  | step_timer n s : step s (timer_fires n s).

(** Every call so far was answered once or waits, with its timer and with the entry under
    the id of its record. *)
Record approvals_ok s : Prop := {
  ok_pending : jm_wf (pending s);
  ok_calls : (answers s).*1 ++ (timers s).*1 ≡ₚ seq 0 (calls s);
  ok_entry n r : (n, r) ∈ timers s <-> jm_get (pending s) (ar_id r) = Some (mkPendingEntry r n);
  ok_key id e : jm_get (pending s) id = Some e -> ar_id (pe_record e) = id
}.

Lemma ok_NoDup s : approvals_ok s -> NoDup ((answers s).*1 ++ (timers s).*1).
Proof. intros [_ H _ _]. rewrite H. apply NoDup_seq. Qed.

Lemma timers_unique s n r r' : approvals_ok s -> (n, r) ∈ timers s -> (n, r') ∈ timers s -> r = r'.
Proof.
  intros H%ok_NoDup H1 H2. apply NoDup_app in H as (_ & _ & H). revert H H1 H2. generalize (timers s) as l.
  induction l as [|[m q] l IH]; [by intros _ ?%elem_of_nil|]. cbn. intros [Hm Hl]%NoDup_cons.
  intros [E1|H1]%elem_of_cons [E2|H2]%elem_of_cons; [congruence|..].
  - injection E1 as <- <-. destruct Hm. apply list_elem_of_fmap. by exists (n, r').
  - injection E2 as <- <-. destruct Hm. apply list_elem_of_fmap. by exists (n, r).
  - by apply IH.
Qed.

Lemma stop_timer_perm n r l : NoDup l.*1 -> (n, r) ∈ l -> l.*1 ≡ₚ n :: (stop_timer n l).*1.
Proof.
  unfold stop_timer, keep. induction l as [|[m q] l IH]; [by intros _ ?%elem_of_nil|]. cbn [fmap list_fmap fst].
  intros [Hm Hl]%NoDup_cons [[= -> ->]|H]%elem_of_cons.
  - rewrite filter_cons_False by (cbn; by rewrite Nat.eqb_refl). constructor. rewrite filter_all; [done|].
    apply Forall_forall. intros [k x] Hx. cbn. apply negb_true_iff, Nat.eqb_neq. intros ->. apply Hm, list_elem_of_fmap. by exists (m, x).
  - rewrite filter_cons_True.
    + cbn [fmap list_fmap fst]. rewrite (IH Hl H) at 1. apply perm_swap.
    + cbn. apply negb_true_iff, Nat.eqb_neq. intros ->. apply Hm, list_elem_of_fmap. by exists (n, r).
Qed.

Lemma elem_of_stop_timer n t l : t ∈ stop_timer n l <-> t.1 <> n /\ t ∈ l.
Proof. unfold stop_timer. rewrite elem_of_keep, negb_true_iff, Nat.eqb_neq. done. Qed.

(** A call that waits is answered: its timer stops and the entry of its record goes. *)
Lemma settle_approval_ok n r id a s : approvals_ok s -> (n, r) ∈ timers s -> id = ar_id r ->
  approvals_ok (answer n a (s <| timers ::= stop_timer n |> <| pending ::= fun m => jm_delete m id |>)).
Proof.
  intros Hok Hin ->. pose proof (ok_NoDup s Hok) as Hd. apply NoDup_app in Hd as (_ & _ & Hd). destruct Hok as [Hw Hc He Hk].
  constructor; cbn; [by apply jm_wf_delete| | |].
  - rewrite fmap_app, <- app_assoc. cbn. by rewrite <- (stop_timer_perm n r).
  - intros n' r'. rewrite elem_of_stop_timer, He. cbn. rewrite jm_get_delete by done. case_decide as E.
    + split; [|done]. intros [Hn Hg]. apply He in Hin. congruence.
    + split; [by intros []|]. intros Hg. split; [|done]. intros ->. apply He in Hg. destruct E.
      rewrite (timers_unique s n r r' ltac:(by constructor) Hin Hg). done.
  - intros id e. rewrite jm_get_delete by done. case_decide; [done|]. apply Hk.
Qed.

Lemma one_more_call s : approvals_ok s -> (answers s).*1 ++ (timers s).*1 ++ [calls s] ≡ₚ seq 0 (S (calls s)).
Proof. intros [_ Hc _ _]. rewrite seq_S, app_assoc. by rewrite Hc. Qed.

Lemma refused_ok a s : approvals_ok s -> approvals_ok (answer (calls s) a (s <| calls ::= S |>)).
Proof.
  intros Hok. pose proof (one_more_call s Hok) as H. destruct Hok as [Hw Hc He Hk]. constructor; cbn; [done| |done|done].
  rewrite fmap_app. cbn. rewrite <- app_assoc, (Permutation_app_comm [_]). exact H.
Qed.

Lemma approval_step_ok s s' : step s s' -> approvals_ok s -> approvals_ok s'.
Proof.
  intros Hst Hok. destruct Hst as [now uuid invalid p s Hu|now invalid id decision by_ s|n s].
  - unfold request_approval. cbv zeta. destruct invalid as [m|]; [by apply refused_ok|].
    change (getSnapshot (s <| calls ::= S |>)) with (getSnapshot s).
    destruct (match trimmed (rq_id p) with Some _ => _ | None => _ end) eqn:Et; [by apply refused_ok|].
    unfold waitForDecision. set (r := create _ _ _ _ _).
    assert (Hfresh : jm_get (pending s) (ar_id r) = None).
    { unfold r, create. cbn [ar_id]. destruct (trimmed (rq_id p)) as [id|] eqn:Ei; [|done]. rewrite (trimmed_idem _ _ Ei).
      apply bool_decide_eq_false in Et. unfold getSnapshot in Et. cbn. destruct (jm_get (pending s) id); [|done]. by destruct Et. }
    pose proof (one_more_call s Hok) as Hm. clearbody r. destruct Hok as [Hw Hc He Hk]. constructor; cbn.
    + by apply jm_wf_set.
    + rewrite fmap_app. exact Hm.
    + intros n r'. rewrite elem_of_app, list_elem_of_singleton, He, jm_get_set. case_decide as E.
      * rewrite <- E, Hfresh. split; [intros [|[= -> ->]]; done|]. intros [= -> ->]. by right.
      * split; [intros [|[= -> ->]]; done|]. by left.
    + intros id e. rewrite jm_get_set. case_decide as E; [by intros [= <-]|apply Hk].
  - unfold resolve_approval. destruct invalid as [m|]; [by apply refused_ok|].
    destruct (parse_decision decision) as [d|]; [|by apply refused_ok].
    unfold resolve. change (pending (s <| calls ::= S |>)) with (pending s).
    destruct (jm_get (pending s) id) as [e|] eqn:Eg; [|by apply refused_ok].
    pose proof (ok_key s Hok id e Eg) as Hid. assert (Hin : (pe_waiter e, pe_record e) ∈ timers s).
    { apply (ok_entry s Hok). rewrite Hid, Eg. by destruct e. }
    pose proof (settle_approval_ok (pe_waiter e) (pe_record e) id (ans_decision id (Some d) (ar_createdAtMs (pe_record e)) (ar_expiresAtMs (pe_record e)))
      s Hok Hin (eq_sym Hid)) as H.
    apply (refused_ok ans_ok) in H. destruct H as [A1 A2 A3 A4]. constructor; [exact A1| |exact A3|exact A4].
    revert A2. cbn. by rewrite Hid.
  - unfold timer_fires. destruct (List.find _ (timers s)) as [[m r]|] eqn:Ef; [|done].
    apply find_some in Ef as [Hin%list_elem_of_In Hm]. cbn in Hm. apply Nat.eqb_eq in Hm as ->.
    exact (settle_approval_ok n r (ar_id r) _ s Hok Hin eq_refl).
Qed.

(** A decision is only reported of an operator's, announced before. *)
Definition decided s : Prop := forall n id d c e, (n, ans_decision id (Some d) c e) ∈ answers s ->
  exists resolvedBy ts, approval_resolved id d resolvedBy ts ∈ events s.

Lemma decided_more s s' added : decided s -> answers s' = answers s ++ added ->
  (forall ev, ev ∈ events s -> ev ∈ events s') ->
  (forall n id d c e, (n, ans_decision id (Some d) c e) ∈ added -> exists resolvedBy ts, approval_resolved id d resolvedBy ts ∈ events s') ->
  decided s'.
Proof.
  intros Hd Ha He Hn n id d c e. rewrite Ha. intros [H|H]%elem_of_app; [|by eapply Hn].
  destruct (Hd _ _ _ _ _ H) as (b & ts & Hin). exists b, ts. by apply He.
Qed.

Lemma no_decision n a (P : Prop) id d c e m : (forall x i y z, a <> ans_decision i (Some x) y z) ->
  (m, ans_decision id (Some d) c e) ∈ [(n : nat, a)] -> P.
Proof. intros Ha [= _ <-]%list_elem_of_singleton. by destruct (Ha d id c e). Qed.

Lemma step_decided s s' : step s s' -> approvals_ok s -> decided s -> decided s'.
Proof.
  intros Hst Hok Hd. destruct Hst as [now uuid invalid p s Hu|now invalid id decision by_ s|n s].
  - unfold request_approval. cbv zeta. destruct invalid as [m|].
    { eapply decided_more; [exact Hd|done|done|]. intros *. by apply no_decision. }
    change (getSnapshot (s <| calls ::= S |>)) with (getSnapshot s).
    destruct (match trimmed (rq_id p) with Some _ => _ | None => _ end).
    { eapply decided_more; [exact Hd|done|done|]. intros *. by apply no_decision. }
    eapply (decided_more _ _ []); [exact Hd|by rewrite app_nil_r| |by intros * ?%elem_of_nil].
    intros ev Hev. apply elem_of_app. by left.
  - unfold resolve_approval. destruct invalid as [m|].
    { eapply decided_more; [exact Hd|done|done|]. intros *. by apply no_decision. }
    destruct (parse_decision decision) as [d|].
    2: { eapply decided_more; [exact Hd|done|done|]. intros *. by apply no_decision. }
    unfold resolve. change (pending (s <| calls ::= S |>)) with (pending s).
    destruct (jm_get (pending s) id) as [e|] eqn:Eg.
    2: { eapply decided_more; [exact Hd|done|done|]. intros *. by apply no_decision. }
    pose proof (ok_key s Hok id e Eg) as Hid. unfold answer_decision.
    eapply (decided_more s _ [_; _]); [exact Hd|cbn; by rewrite <- app_assoc| |].
    + intros ev Hev. apply elem_of_app. by left.
    + intros n i d' c x [[= _ -> -> _ _]|H]%elem_of_cons; [|revert H; by apply no_decision].
      exists by_, now. cbn. rewrite Hid. apply elem_of_app. right. by left.
  - unfold timer_fires. destruct (List.find _ _) as [[m r]|]; [|done].
    eapply decided_more; [exact Hd|done|done|]. intros *. by apply no_decision.
Qed.

(** C33: every call is answered at most once, and one that is not waits with its timer, which
    answers it without a decision when it fires.  A command is allowed only by a decision
    an operator sent for its id. *)
Theorem approvals_answered s : rtc step new_Approvals s ->
  NoDup (answers s).*1 /\
  (forall n, (n < calls s)%nat -> (n ∈ (answers s).*1) \/
     exists r, (n, r) ∈ timers s /\ (n ∉ (answers s).*1) /\
       (n, ans_decision (ar_id r) None (ar_createdAtMs r) (ar_expiresAtMs r)) ∈ answers (timer_fires n s)) /\
  (forall n id d c e, (n, ans_decision id (Some d) c e) ∈ answers s ->
     exists resolvedBy ts, approval_resolved id d resolvedBy ts ∈ events s).
Proof.
  intros Hr. assert (H : approvals_ok s /\ decided s).
  { revert Hr. apply (rtc_ind_r (fun x => approvals_ok x /\ decided x)).
    - split; [|by intros ? ? ? ? ? ?%elem_of_nil].
      constructor; [constructor|done| |done]. intros n r. cbn. by split; [intros ?%elem_of_nil|].
    - intros x y _ Hxy [H1 H2]. split; [by eapply approval_step_ok|by eapply step_decided]. }
  destruct H as [Hok Hd]. pose proof (ok_NoDup s Hok) as Hn. apply NoDup_app in Hn as (H1 & H2 & H3).
  split_and!; [done| |exact Hd].
  intros n Hlt. assert (Hin : n ∈ (answers s).*1 ++ (timers s).*1).
  { rewrite (ok_calls s Hok). apply elem_of_seq. lia. }
  apply elem_of_app in Hin as [|Ht]; [by left|right]. pose proof Ht as ([m r] & -> & Hin)%list_elem_of_fmap. cbn in *.
  exists r. split_and!; [done|intros Ha; by apply (H2 m)|]. unfold timer_fires.
  destruct (List.find (fun t => Nat.eqb t.1 m) (timers s)) as [[k q]|] eqn:Ef.
  - apply find_some in Ef as [Hq%list_elem_of_In Hk]. cbn in Hk. apply Nat.eqb_eq in Hk as ->.
    rewrite (timers_unique s m r q Hok Hin Hq). apply elem_of_app. right. by left.
  - pose proof (find_none _ _ Ef (m, r) ltac:(by apply list_elem_of_In)) as Hno. cbn in Hno. by rewrite Nat.eqb_refl in Hno.
Qed.

Definition a_command : RequestParams :=
  mkRequestParams (Some " a1 ") (mkExecApprovalRequestPayload "rm -r build" None None None None None None None) None.

Lemma approvals_answered_witness :
  let s := resolve_approval 10 None "a1" "allow-once" (Some "ann") (request_approval 0 "u" None a_command new_Approvals) in
  rtc step new_Approvals s /\ NoDup (answers s).*1 /\
  answers s = [(0%nat, ans_decision "a1" (Some allow_once) 0 120000); (1%nat, ans_ok)] /\
  exists resolvedBy ts, approval_resolved "a1" allow_once resolvedBy ts ∈ events s.
Proof.
  cbn zeta. set (s := resolve_approval _ _ _ _ _ _). assert (Hr : rtc step new_Approvals s).
  { eapply rtc_l; [by apply (step_request 0 "u" None a_command)|]. eapply rtc_l; [apply (step_resolve 10 None "a1" "allow-once" (Some "ann"))|apply rtc_refl]. }
  destruct (approvals_answered s Hr) as (H1 & _ & H3). split; [exact Hr|]. split; [exact H1|]. split; [reflexivity|].
  apply (H3 0%nat "a1" allow_once 0 120000). by left.
Defined.

(** Two calls of the manager that wait under one id, which the handler refuses: the decision
    goes to the second, and the first is answered by its timer, which would also have
    deleted the entry of the second. *)
Example one_id_twice :
  let r := create 0 "u" (rq_payload a_command) 1000 (Some "a1") in
  let s := waitForDecision 1 r (waitForDecision 0 r new_Approvals) in
  (resolve 10 "a1" deny None (timer_fires 0 s)).2 = false.
Proof. reflexivity. Qed.
