(* ===== verification/ConfigReload.v ===== *)
(** * Reloading the configuration

    openclaw/gateway/config-reload.ts: which paths of the configuration changed, what has
    to be reloaded for them, and the reloader, whose file events, timer, reading and hot
    reload may interleave.  A configuration is a JSON value; the channel plugins contribute
    their rules as a parameter. *)

From S2P Require Import Prelude JsMap JsString Json.

(** ** Differences *)

(** [a === b] of two values read at different times: objects and arrays are other objects. *)
Definition same_value (a b : option json) : bool :=
  match a, b with
  | None, None => true
  | Some JNull, Some JNull => true
  | Some (JBool x), Some (JBool y) => Bool.eqb x y
  | Some (JNum x), Some (JNum y) => x =? y
  | Some (JStr x), Some (JStr y) => String.eqb x y
  | _, _ => false
  end.

Fixpoint same_elements (a b : list json) : bool :=
  match a, b with
  | [], [] => true
  | x :: a, y :: b => same_value (Some x) (Some y) && same_elements a b
  | _, _ => false
  end.

(** The members of a Set built from both lists of keys. *)
Definition both_keys (a b : list string) : list string :=
  foldl (fun l k => if bool_decide (k ∈ l) then l else l ++ [k]) [] (a ++ b).

Definition child_prefix (prefix key : string) : string := if truthy_str prefix then prefix +:+ "." +:+ key else key.

(** The nesting of a value, which bounds the recursion. *)
Fixpoint depth (j : json) : nat :=
  match j with
  | JObj l => S (foldr (fun kv n => Nat.max (depth kv.2) n) 0%nat l)
  | _ => 0%nat
  end.

Fixpoint diff_from (fuel : nat) (prev next : option json) (prefix : string) : list string :=
  if same_value prev next then [] else
  let here := [if truthy_str prefix then prefix else "<root>"] in
  match prev, next with
  | Some (JObj p), Some (JObj n) =>
      match fuel with
      | O => here
      | S fuel =>
          mjoin ((fun key =>
            match jm_get p key, jm_get n key with
            | None, None => []
            | a, b => diff_from fuel a b (child_prefix prefix key)
            end) <$> both_keys p.*1 n.*1)
      end
  | Some (JArr p), Some (JArr n) => if same_elements p n then [] else here
  | _, _ => here
  end.

Definition diffConfigPaths (prev next : option json) (prefix : string) : list string :=
  diff_from (default 0%nat (depth <$> prev)) prev next prefix.

(** ** Settings and rules *)

Inductive GatewayReloadMode := mode_off | mode_restart | mode_hot | mode_hybrid.
#[export] Instance GatewayReloadMode_eq_dec : EqDecision GatewayReloadMode.
Proof. solve_decision. Defined.

Record GatewayReloadSettings := mkGatewayReloadSettings { rs_mode : GatewayReloadMode; rs_debounceMs : Z }.

(** [cfg?.k]. *)
Definition member (k : string) (j : option json) : option json :=
  match j with Some (JObj l) => jm_get l k | _ => None end.

Definition resolveGatewayReloadSettings (cfg : json) : GatewayReloadSettings :=
  let reload := member "reload" (member "gateway" (Some cfg)) in
  let mode :=
    match member "mode" reload with
    | Some (JStr t) =>
        if String.eqb t "off" then mode_off else if String.eqb t "restart" then mode_restart
        else if String.eqb t "hot" then mode_hot else mode_hybrid
    | _ => mode_hybrid
    end in
  mkGatewayReloadSettings mode (match member "debounceMs" reload with Some (JNum n) => Z.max 0 n | _ => 300 end).

Inductive ReloadAction :=
  | reload_hooks | restart_gmail_watcher | restart_browser_control | restart_cron | restart_heartbeat
  | restart_channel (id : string).
#[export] Instance ReloadAction_eq_dec : EqDecision ReloadAction.
Proof. solve_decision. Defined.

Inductive RuleKind := kind_restart | kind_hot (actions : list ReloadAction) | kind_none.
Record ReloadRule := mkReloadRule { rr_prefix : string; rr_kind : RuleKind }.

Definition BASE_RELOAD_RULES : list ReloadRule :=
  [mkReloadRule "gateway.remote" kind_none;
   mkReloadRule "gateway.reload" kind_none;
   mkReloadRule "hooks.gmail" (kind_hot [restart_gmail_watcher]);
   mkReloadRule "hooks" (kind_hot [reload_hooks]);
   mkReloadRule "agents.defaults.heartbeat" (kind_hot [restart_heartbeat]);
   mkReloadRule "agent.heartbeat" (kind_hot [restart_heartbeat]);
   mkReloadRule "cron" (kind_hot [restart_cron]);
   mkReloadRule "browser" (kind_hot [restart_browser_control])].

Definition BASE_RELOAD_RULES_TAIL : list ReloadRule :=
  ((fun p => mkReloadRule p kind_none) <$>
    ["identity"; "wizard"; "logging"; "models"; "agents"; "tools"; "bindings"; "audio"; "agent"; "routing"; "messages";
     "session"; "talk"; "skills"]) ++
  [mkReloadRule "plugins" kind_restart; mkReloadRule "ui" kind_none] ++
  ((fun p => mkReloadRule p kind_restart) <$> ["gateway"; "discovery"; "canvasHost"]).

(** What a channel plugin contributes. *)
Record ChannelReload := mkChannelReload { cl_id : string; cl_configPrefixes : list string; cl_noopPrefixes : list string }.

Definition listReloadRules (plugins : list ChannelReload) : list ReloadRule :=
  BASE_RELOAD_RULES ++
  mjoin ((fun p => ((fun x => mkReloadRule x (kind_hot [restart_channel (cl_id p)])) <$> cl_configPrefixes p) ++
                   ((fun x => mkReloadRule x kind_none) <$> cl_noopPrefixes p)) <$> plugins) ++
  BASE_RELOAD_RULES_TAIL.

Definition covers (path : string) (r : ReloadRule) : bool :=
  String.eqb path (rr_prefix r) || js_startsWith path (rr_prefix r +:+ ".").
Definition matchRule (plugins : list ChannelReload) (path : string) : option ReloadRule :=
  List.find (covers path) (listReloadRules plugins).

(** ** Plans *)

Record GatewayReloadPlan := mkGatewayReloadPlan {
  gp_changedPaths : list string; gp_restartGateway : bool; gp_restartReasons : list string; gp_hotReasons : list string;
  gp_reloadHooks : bool; gp_restartGmailWatcher : bool; gp_restartBrowserControl : bool; gp_restartCron : bool;
  gp_restartHeartbeat : bool; gp_restartChannels : list string; gp_noopPaths : list string
}.
#[export] Instance GatewayReloadPlan_eta : EtaRecord GatewayReloadPlan := fun p =>
  mkGatewayReloadPlan (gp_changedPaths p) (gp_restartGateway p) (gp_restartReasons p) (gp_hotReasons p) (gp_reloadHooks p)
    (gp_restartGmailWatcher p) (gp_restartBrowserControl p) (gp_restartCron p) (gp_restartHeartbeat p) (gp_restartChannels p) (gp_noopPaths p).

Definition applyAction (a : ReloadAction) (p : GatewayReloadPlan) : GatewayReloadPlan :=
  match a with
  | restart_channel id => p <| gp_restartChannels ::= fun l => if bool_decide (id ∈ l) then l else l ++ [id] |>
  | reload_hooks => p <| gp_reloadHooks := true |>
  | restart_gmail_watcher => p <| gp_restartGmailWatcher := true |>
  | restart_browser_control => p <| gp_restartBrowserControl := true |>
  | restart_cron => p <| gp_restartCron := true |>
  | restart_heartbeat => p <| gp_restartHeartbeat := true |>
  end.

Definition plan_path (plugins : list ChannelReload) (p : GatewayReloadPlan) (path : string) : GatewayReloadPlan :=
  match rr_kind <$> matchRule plugins path with
  | None | Some kind_restart => p <| gp_restartGateway := true |> <| gp_restartReasons ::= fun l => l ++ [path] |>
  | Some kind_none => p <| gp_noopPaths ::= fun l => l ++ [path] |>
  | Some (kind_hot actions) => foldl (fun p a => applyAction a p) (p <| gp_hotReasons ::= fun l => l ++ [path] |>) actions
  end.

Definition buildGatewayReloadPlan (plugins : list ChannelReload) (changedPaths : list string) : GatewayReloadPlan :=
  let plan := foldl (plan_path plugins)
    (mkGatewayReloadPlan changedPaths false [] [] false false false false false [] []) changedPaths in
  if gp_restartGmailWatcher plan then plan <| gp_reloadHooks := true |> else plan.

(** ** The reloader *)

(** What a read of the file gives: an exception, an invalid configuration, or one. *)
Inductive ConfigFileSnapshot := read_throws | read_invalid | read_valid (config : json).

(** What a reload is waiting for. *)
Inductive Running := idle | reading | hot_reloading.
#[export] Instance Running_eq_dec : EqDecision Running.
Proof. solve_decision. Defined.

Inductive Effect := on_restart (p : GatewayReloadPlan) (c : json) | on_hot_reload (p : GatewayReloadPlan) (c : json).

Record Reloader := mkReloader {
  currentConfig : json;
  settings : GatewayReloadSettings;
  debounceTimer : bool;
  pending : bool;
  running : Running;
  stopped : bool;
  restartQueued : bool;
  effects : list Effect
}.
#[export] Instance Reloader_eta : EtaRecord Reloader := fun s =>
  mkReloader (currentConfig s) (settings s) (debounceTimer s) (pending s) (running s) (stopped s) (restartQueued s) (effects s).
Implicit Types s : Reloader.

Definition startGatewayConfigReloader (c : json) : Reloader :=
  mkReloader c (resolveGatewayReloadSettings c) false false idle false false [].

Definition schedule s : Reloader := if stopped s then s else s <| debounceTimer := true |>.

(** The timer fires: [runReload] up to the reading of the file.  A timer whose turn came
    while a reload runs is not cleared from its variable; it will not fire again. *)
Definition timer_fires s : Reloader :=
  let s := s <| debounceTimer := false |> in
  if stopped s then s
  else if bool_decide (running s = idle) then s <| running := reading |>
  else s <| pending := true |>.

(** The [finally] of [runReload]. *)
Definition finish s : Reloader :=
  let s := s <| running := idle |> in
  if pending s then schedule (s <| pending := false |>) else s.

Definition queue_restart (plan : GatewayReloadPlan) (c : json) s : Reloader :=
  if restartQueued s then s else s <| restartQueued := true |> <| effects ::= fun l => l ++ [on_restart plan c] |>.

(** The file was read. *)
Definition snapshot_read (plugins : list ChannelReload) (snapshot : ConfigFileSnapshot) s : Reloader :=
  match snapshot with
  | read_throws | read_invalid => finish s
  | read_valid nextConfig =>
      let changedPaths := diffConfigPaths (Some (currentConfig s)) (Some nextConfig) "" in
      let s := s <| currentConfig := nextConfig |> <| settings := resolveGatewayReloadSettings nextConfig |> in
      match changedPaths with
      | [] => finish s
      | _ =>
          let plan := buildGatewayReloadPlan plugins changedPaths in
          match rs_mode (settings s) with
          | mode_off => finish s
          | mode_restart => finish (queue_restart plan nextConfig s)
          | mode =>
              if gp_restartGateway plan then
                if bool_decide (mode = mode_hot) then finish s else finish (queue_restart plan nextConfig s)
              else s <| running := hot_reloading |> <| effects ::= fun l => l ++ [on_hot_reload plan nextConfig] |>
          end
      end
  end.

(** The hot reload ended, well or with an exception, which is only logged. *)
Definition hot_reloaded s : Reloader := finish s.

Definition stop s : Reloader := s <| stopped := true |> <| debounceTimer := false |>.

(** ** Theorems on differences *)

(** Two values agree when they are equal as far as the code compares: members by key, in
    whatever order, and arrays element by element as plain values. *)
Inductive agree : option json -> option json -> Prop :=
  | agree_value a b : same_value a b = true -> agree a b
  | agree_object p n : (forall k, agree (jm_get p k) (jm_get n k)) -> agree (Some (JObj p)) (Some (JObj n))
  | agree_array p n : same_elements p n = true -> agree (Some (JArr p)) (Some (JArr n)).

Lemma both_keys_spec a b k : k ∈ both_keys a b <-> k ∈ a \/ k ∈ b.
Proof.
  unfold both_keys. rewrite <- elem_of_app. generalize (a ++ b). intros l.
  assert (H : forall acc, k ∈ foldl (fun l k => if bool_decide (k ∈ l) then l else l ++ [k]) acc l <-> k ∈ acc \/ k ∈ l).
  { induction l as [|x l IH]; intros acc; cbn [foldl]; [set_solver|]. rewrite IH. case_bool_decide; set_solver. }
  rewrite H. set_solver.
Qed.

Lemma depth_child p k j : jm_get p k = Some j -> (depth j < depth (JObj p))%nat.
Proof.
  cbn. induction p as [|[x v] p IH]; [done|]. cbn. destruct (String.eqb x k); [intros [= ->]; lia|].
  intros H%IH. lia.
Qed.

Lemma mjoin_nil {A B} (f : A -> list B) l : mjoin (f <$> l) = [] <-> forall x, x ∈ l -> f x = [].
Proof.
  induction l as [|x l IH]; [by split; [intros _ ? ?%elem_of_nil|]|]. rewrite fmap_cons. change (mjoin (?y :: ?z)) with (y ++ mjoin z).
  rewrite app_nil, IH. set_solver.
Qed.

Lemma diff_from_nil fuel prev next prefix : (default 0%nat (depth <$> prev) <= fuel)%nat ->
  diff_from fuel prev next prefix = [] <-> agree prev next.
Proof.
  revert prev next prefix. induction fuel as [|fuel IH]; intros prev next prefix Hf.
  - assert (Hno : forall p, prev <> Some (JObj p)) by (intros p ->; cbn in Hf; lia). cbn [diff_from].
    destruct (same_value prev next) eqn:E; [split; [intros _; by constructor|done]|].
    destruct prev as [[| | | |p|p]|], next as [[| | | |n|n]|]; try (split; [done|intros H; inversion H; congruence]).
    + destruct (same_elements p n) eqn:Ea; [split; [intros _; by constructor|done]|]. split; [done|]. intros H. inversion H; congruence.
  - cbn [diff_from]. destruct (same_value prev next) eqn:E; [split; [intros _; by constructor|done]|].
    destruct prev as [[| | | |p|p]|], next as [[| | | |n|n]|]; try (split; [done|intros H; inversion H; congruence]).
    + destruct (same_elements p n) eqn:Ea; [split; [intros _; by constructor|done]|]. split; [done|]. intros H. inversion H; congruence.
    + rewrite mjoin_nil.
      assert (Hk : forall k, (match jm_get p k, jm_get n k with None, None => [] | a, b => diff_from fuel a b (child_prefix prefix k) end) = [] <->
        agree (jm_get p k) (jm_get n k)).
      { intros k. destruct (jm_get p k) as [j|] eqn:Ep.
        - apply depth_child in Ep. cbn [fmap option_fmap option_map default from_option id] in Hf. by rewrite IH by (cbn; lia).
        - destruct (jm_get n k); [by rewrite IH by (cbn; lia)|]. split; [intros _; by constructor|done]. }
      split.
      * intros H. apply agree_object. intros k. destruct (decide (k ∈ both_keys p.*1 n.*1)) as [Hin|Hout]; [apply Hk, H, Hin|].
        rewrite both_keys_spec in Hout. apply Decidable.not_or in Hout as [H1 H2].
        apply jm_get_None_keys in H1, H2. rewrite H1, H2. by constructor.
      * intros H k _. apply Hk. inversion H; subst; [congruence|done].
Qed.

(** No path is reported exactly when the two configurations agree. *)
Theorem no_difference_iff_agree prev next prefix : diffConfigPaths prev next prefix = [] <-> agree prev next.
Proof. by apply diff_from_nil. Qed.

(** An array of objects is reported as changed although it is the same. *)
Example equal_arrays_differ :
  let c := JObj [("agents", JObj [("list", JArr [JObj [("id", JStr "main")]])])] in
  diffConfigPaths (Some c) (Some c) "" = ["agents.list"].
Proof. reflexivity. Qed.

(** ** Theorems on plans *)

Section plans.
Context (plugins : list ChannelReload).

Definition kind_of (path : string) : option RuleKind := rr_kind <$> matchRule plugins path.
Definition needs_restart (path : string) : bool :=
  match kind_of path with None | Some kind_restart => true | _ => false end.
Definition is_noop (path : string) : bool := match kind_of path with Some kind_none => true | _ => false end.
Definition actions_of (path : string) : list ReloadAction := match kind_of path with Some (kind_hot l) => l | _ => [] end.
Definition is_hot (path : string) : bool := match kind_of path with Some (kind_hot _) => true | _ => false end.

(** Whether the plan carries out an action. *)
Definition does (a : ReloadAction) (p : GatewayReloadPlan) : bool :=
  match a with
  | reload_hooks => gp_reloadHooks p
  | restart_gmail_watcher => gp_restartGmailWatcher p
  | restart_browser_control => gp_restartBrowserControl p
  | restart_cron => gp_restartCron p
  | restart_heartbeat => gp_restartHeartbeat p
  | restart_channel id => bool_decide (id ∈ gp_restartChannels p)
  end.

Lemma does_apply a b p : does a (applyAction b p) = bool_decide (a = b) || does a p.
Proof.
  destruct b; destruct a as [| | | | |x]; cbn; try done.
  apply eq_bool_prop_intro. rewrite orb_True, !bool_decide_spec. case_bool_decide; set_solver.
Qed.

Lemma does_actions a l p : does a (foldl (fun p a => applyAction a p) p l) = bool_decide (a ∈ l) || does a p.
Proof.
  revert p. induction l as [|b l IH]; intros p; cbn [foldl]; [by rewrite bool_decide_eq_false_2 by apply not_elem_of_nil|].
  rewrite IH, does_apply. destruct (does a p); rewrite ?orb_true_r; [done|]. rewrite !orb_false_r.
  apply eq_bool_prop_intro. rewrite orb_True, !bool_decide_spec, elem_of_cons. tauto.
Qed.

Lemma apply_reasons l p : let p' := foldl (fun p a => applyAction a p) p l in
  gp_restartGateway p' = gp_restartGateway p /\ gp_restartReasons p' = gp_restartReasons p /\
  gp_hotReasons p' = gp_hotReasons p /\ gp_noopPaths p' = gp_noopPaths p.
Proof. revert p. induction l as [|b l IH]; intros p; [done|]. cbn [foldl]. destruct (IH (applyAction b p)) as (-> & -> & -> & ->). by destruct b. Qed.

(** The loop over the paths. *)
Lemma plan_loop l p : let p' := foldl (plan_path plugins) p l in
  gp_restartGateway p' = gp_restartGateway p || existsb needs_restart l /\
  gp_restartReasons p' = gp_restartReasons p ++ keep needs_restart l /\
  gp_hotReasons p' = gp_hotReasons p ++ keep is_hot l /\ gp_noopPaths p' = gp_noopPaths p ++ keep is_noop l /\
  forall a, does a p' = does a p || existsb (fun path => bool_decide (a ∈ actions_of path)) l.
Proof.
  revert p. unfold keep. induction l as [|x l IH]; intros p; cbn [foldl existsb].
  { rewrite !filter_nil, !app_nil_r. split_and!; [by rewrite orb_false_r|done..|]. intros a. by rewrite orb_false_r. }
  destruct (IH (plan_path plugins p x)) as (-> & -> & -> & -> & Ha). rewrite !filter_cons.
  assert (Hx : actions_of x = match kind_of x with Some (kind_hot k) => k | _ => [] end) by done.
  unfold plan_path in *. unfold needs_restart, is_hot, is_noop in *. unfold kind_of in *.
  destruct (rr_kind <$> matchRule plugins x) as [[|actions|]|] eqn:E; cbn [decide] in *; repeat case_decide; try done.
  2: { destruct (apply_reasons actions (p <| gp_hotReasons ::= fun l => l ++ [x] |>)) as (-> & -> & -> & ->).
       cbn. rewrite <- app_assoc. split_and!; try done. intros a. rewrite Ha, does_actions, Hx.
       replace (does a (p <| gp_hotReasons ::= _ |>)) with (does a p) by (by destruct a).
       by destruct (does a p), (bool_decide (a ∈ actions)). }
  all: cbn; rewrite <- app_assoc; split_and!; try done; [rewrite ?orb_true_r; done..|].
  all: intros a; rewrite Ha, Hx, (bool_decide_eq_false_2 (a ∈ [])) by apply not_elem_of_nil; by destruct a.
Qed.

(** A plan restarts the gateway exactly when some path has no rule or one that asks for it;
    every path is listed under its kind, in order; and an action is carried out exactly
    when the rule of some path asks for it, the reloading of the hooks also with the
    restart of the Gmail watcher. *)
Theorem plan_exact paths :
  let p := buildGatewayReloadPlan plugins paths in
  gp_restartGateway p = existsb needs_restart paths /\ gp_restartReasons p = keep needs_restart paths /\
  gp_hotReasons p = keep is_hot paths /\ gp_noopPaths p = keep is_noop paths /\
  forall a, does a p = true <->
    exists path, path ∈ paths /\ (a ∈ actions_of path \/ (a = reload_hooks /\ restart_gmail_watcher ∈ actions_of path)).
Proof.
  cbv zeta. unfold buildGatewayReloadPlan. set (p0 := mkGatewayReloadPlan _ _ _ _ _ _ _ _ _ _ _).
  destruct (plan_loop paths p0) as (H1 & H2 & H3 & H4 & H5). set (p := foldl _ _ _) in *.
  assert (Hd : forall a, does a p = true <-> exists path, path ∈ paths /\ a ∈ actions_of path).
  { intros a. rewrite H5. replace (does a p0) with false by (by destruct a). cbn [orb]. rewrite existsb_exists.
    split; intros (x & Hx & Hin); exists x.
    - split; [by apply list_elem_of_In|]. by apply bool_decide_eq_true in Hin.
    - split; [by apply list_elem_of_In|]. by apply bool_decide_eq_true. }
  assert (Hg := Hd restart_gmail_watcher). cbn [does] in Hg. destruct (gp_restartGmailWatcher p) eqn:E.
  - cbn. rewrite H1, H2, H3, H4. split_and!; [done..|]. intros a.
    replace (does a (p <| gp_reloadHooks := true |>)) with (bool_decide (a = reload_hooks) || does a p) by (by destruct a).
    rewrite orb_true_iff, bool_decide_eq_true, Hd. destruct (proj1 Hg eq_refl) as (x & Hx & Hin). naive_solver.
  - rewrite H1, H2, H3, H4. split_and!; [done..|]. intros a. rewrite Hd. split; [naive_solver|].
    intros (x & Hx & [Hin|[-> Hin]]); [by exists x|]. discriminate (proj2 Hg (ex_intro _ x (conj Hx Hin))).
Qed.
End plans.

(** ** Theorems on the reloader *)

(** What happens to a reloader, with whether the file changed since it was last read. *)
Inductive step (plugins : list ChannelReload) : Reloader * bool -> Reloader * bool -> Prop :=
  | step_file s d : step plugins (s, d) (schedule s, true)
  | step_timer s d : debounceTimer s = true ->
      step plugins (s, d) (timer_fires s, if bool_decide (running s = idle) then false else d)
  | step_read snapshot s d : running s = reading -> step plugins (s, d) (snapshot_read plugins snapshot s, d)
  | step_hot s d : running s = hot_reloading -> step plugins (s, d) (hot_reloaded s, d)
  | step_stop s d : step plugins (s, d) (stop s, d).

Definition restarts s : nat := length (keep (fun e => match e with on_restart _ _ => true | _ => false end) (effects s)).

(** A change is owed a reading; a restart is asked for at most once. *)
Record reloader_ok (sd : Reloader * bool) : Prop := {
  ok_owed : sd.2 = true -> stopped sd.1 = false ->
    debounceTimer sd.1 = true \/ (pending sd.1 = true /\ running sd.1 <> idle);
  ok_pending : pending sd.1 = true -> running sd.1 <> idle;
  ok_restarts : restarts sd.1 = if restartQueued sd.1 then 1%nat else 0%nat;
  ok_timer : stopped sd.1 = true -> debounceTimer sd.1 = false
}.

Lemma finish_ok s d : reloader_ok (s, d) -> reloader_ok (finish s, d).
Proof.
  intros [H1 H2 H3 H4]. cbn [fst snd] in *. unfold finish, schedule. cbn.
  destruct (pending s) eqn:Ep; [destruct (stopped s) eqn:Es|]; constructor; cbn; try done; try (by auto); try congruence.
  intros Hd Hs. destruct (H1 Hd Hs) as [?|[? _]]; [by left|congruence].
Qed.

Lemma queue_restart_ok plan c s d : reloader_ok (s, d) -> reloader_ok (queue_restart plan c s, d).
Proof.
  intros [H1 H2 H3 H4]. cbn [fst snd] in *. unfold queue_restart. destruct (restartQueued s) eqn:Er; [by constructor; cbn [fst snd]; rewrite ?Er|].
  constructor; cbn; try done. unfold restarts, keep in *. cbn. rewrite filter_app, length_app, H3. done.
Qed.

Lemma reloader_step_ok plugins sd sd' : step plugins sd sd' -> reloader_ok sd -> reloader_ok sd'.
Proof.
  intros Hst Hok. destruct Hst as [s d|s d Ht|snapshot s d Hr|s d Hr|s d].
  - destruct Hok as [H1 H2 H3 H4]. cbn [fst snd] in *. unfold schedule. destruct (stopped s) eqn:Es; constructor; cbn; try done; try congruence; auto.
  - destruct Hok as [H1 H2 H3 H4]. cbn [fst snd] in *. unfold timer_fires. cbn. destruct (stopped s) eqn:Es.
    { constructor; cbn; try done; auto. congruence. }
    case_bool_decide as Hi; constructor; cbn; try done; auto; congruence.
  - unfold snapshot_read. destruct snapshot as [| |next]; [by apply finish_ok..|]. cbv zeta.
    set (s1 := s <| currentConfig := next |> <| settings := resolveGatewayReloadSettings next |>).
    assert (Hok1 : reloader_ok (s1, d)) by (destruct Hok as [H1 H2 H3 H4]; constructor; done).
    destruct (diffConfigPaths _ _ _) as [|x l]; [by apply finish_ok|]. set (plan := buildGatewayReloadPlan plugins (x :: l)). clearbody plan.
    assert (Hhot : reloader_ok (s1 <| running := hot_reloading |> <| effects ::= fun l => l ++ [on_hot_reload plan next] |>, d)).
    { destruct Hok1 as [H1 H2 H3 H4]. cbn [fst snd] in *. constructor; cbn; try done; [|].
      - intros Hd Hs. destruct (H1 Hd Hs) as [?|[? _]]; [by left|by right].
      - unfold restarts, keep in *. cbn. rewrite filter_app, length_app. cbn. rewrite Nat.add_0_r. exact H3. }
    destruct (rs_mode (settings s1)); [by apply finish_ok|by apply finish_ok, queue_restart_ok|..];
      (destruct (gp_restartGateway plan); [case_bool_decide; [by apply finish_ok|by apply finish_ok, queue_restart_ok]|exact Hhot]).
  - by apply finish_ok.
  - destruct Hok as [H1 H2 H3 H4]. cbn [fst snd] in *. constructor; cbn; done.
Qed.

(** C31: however file events, timers, readings and hot reloads fall between each other, a change
    of the file that was not read yet is owed a reading, by the timer or by the reload that
    runs, until the reloader is stopped; and the gateway is asked to restart at most
    once. *)
Theorem no_change_is_forgotten plugins c s d : rtc (step plugins) (startGatewayConfigReloader c, false) (s, d) ->
  (d = true -> stopped s = false -> debounceTimer s = true \/ (pending s = true /\ running s <> idle)) /\
  (restarts s <= 1)%nat.
Proof.
  intros Hr. assert (H : reloader_ok (s, d)).
  { revert Hr. apply (rtc_ind_r reloader_ok); [by constructor|]. intros x y _ Hxy Hx. by eapply reloader_step_ok. }
  destruct H as [H1 _ H3 _]. split; [exact H1|]. cbn in H3. rewrite H3. destruct (restartQueued s); lia.
Qed.

Definition cron (n : Z) : json := JObj [("cron", JObj [("interval", JNum n)])].

Lemma no_change_is_forgotten_witness :
  let s := schedule (timer_fires (schedule (startGatewayConfigReloader (cron 1)))) in
  let s := timer_fires s in
  rtc (step []) (startGatewayConfigReloader (cron 1), false) (s, true) /\
  debounceTimer s = false /\ (debounceTimer s = true \/ (pending s = true /\ running s <> idle)).
Proof.
  cbn zeta. set (s0 := startGatewayConfigReloader (cron 1)). set (s := timer_fires _).
  assert (Hr : rtc (step []) (s0, false) (s, true)).
  { eapply rtc_l; [apply step_file|]. eapply rtc_l; [by apply step_timer|]. eapply rtc_l; [apply step_file|].
    eapply rtc_l; [by apply step_timer|]. apply rtc_refl. }
  split; [exact Hr|]. split; [reflexivity|]. exact (proj1 (no_change_is_forgotten [] (cron 1) s true Hr) eq_refl eq_refl).
Defined.

(** A hot reload that throws is not tried again: the new configuration is taken as current
    before it is carried out, and reading it once more finds no difference. *)
Example failed_hot_reload_is_lost :
  let s := snapshot_read [] (read_valid (cron 2)) (timer_fires (schedule (startGatewayConfigReloader (cron 1)))) in
  length (effects s) = 1%nat /\
  effects (snapshot_read [] (read_valid (cron 2)) (timer_fires (schedule (hot_reloaded s)))) = effects s.
Proof. vm_compute. auto. Qed.

(** A reload that was reading when the reloader was stopped still restarts the gateway. *)
Example stopped_reloader_restarts :
  let s := stop (timer_fires (schedule (startGatewayConfigReloader (cron 1)))) in
  restarts (snapshot_read [] (read_valid (JObj [("gateway", JObj [("port", JNum 1)])])) s) = 1%nat.
Proof. vm_compute. reflexivity. Qed.
