(* ===== verification/ChannelAccess.v ===== *)
(** * Who may talk to the assistant

    openclaw/discord/monitor/allow-list.ts and openclaw/telegram/bot-access.ts: the lists of
    allowed senders and channels; openclaw/telegram/targets.ts and group-migration.ts: the
    targets of messages and the migration of the settings of a group.  A Set is the list of
    its members. *)

From S2P Require Import Prelude JsMap JsString JsNumber JsRegExp GatewayNet GatewayMethods.
From Stdlib Require Import Ascii.

(** An entry of a list of the configuration. *)
Inductive Entry := entry_text (s : string) | entry_number (z : Z).
(** [String(entry)]. *)
Definition entry_string (e : Entry) : string := match e with entry_text s => s | entry_number z => js_toString z end.

Definition re_all_digits : regex := re_seqs [re_start; re_plus (re_chr is_digit_char); re_end].

(** ** Discord *)
Module Discord.

Record DiscordAllowList := mkDiscordAllowList { allowAll : bool; ids : list string; names : list string }.
#[export] Instance DiscordAllowList_eta : EtaRecord DiscordAllowList := fun l =>
  mkDiscordAllowList (allowAll l) (ids l) (names l).

Definition add (x : string) (l : list string) : list string := if bool_decide (x ∈ l) then l else l ++ [x].

Definition is_slug_char (c : ascii) : bool := is_lower c || is_digit_char c.
Definition re_dash : regex := re_lit_char "-"%char.

Definition normalizeDiscordSlug (value : string) : string :=
  let t := folded value in
  let t := replace_first (re_seq re_start (re_lit "#")) (fun _ => "") t in
  let t := replace_all (re_plus (re_chr (fun c => negb (is_slug_char c)))) (fun _ => "-") t in
  replace_all (re_alt (re_seq re_start (re_plus re_dash)) (re_seq (re_plus re_dash) re_end)) (fun _ => "") t.

Definition user_prefixes : list string := ["discord:"; "user:"; "pk:"].

(** The digits of a mention. *)
Definition without_mention (text : string) : string :=
  replace_first (re_seq (re_lit ">") re_end) (fun _ => "")
    (replace_first (re_seqs [re_start; re_lit "<@"; re_opt (re_lit "!")]) (fun _ => "") text).

Definition take_entry (prefixes : list string) (l : DiscordAllowList) (entry : Entry) : DiscordAllowList :=
  let text := js_trim (entry_string entry) in
  if negb (truthy_str text) || String.eqb text "*" then l else
  let maybeId := without_mention text in
  if test re_all_digits maybeId then l <| ids ::= add maybeId |> else
  match List.find (js_startsWith text) prefixes with
  | Some prefix =>
      let candidate := js_slice_str_from text (js_str_length prefix) in
      if truthy_str candidate then l <| ids ::= add candidate |> else l
  | None =>
      let normalized := normalizeDiscordSlug text in
      if truthy_str normalized then l <| names ::= add normalized |> else l
  end.

Definition normalizeDiscordAllowList (raw : list Entry) (prefixes : list string) : option DiscordAllowList :=
  match raw with
  | [] => None
  | _ =>
      let all := existsb (fun e => String.eqb (js_trim (entry_string e)) "*") raw in
      Some (foldl (take_entry prefixes) (mkDiscordAllowList all [] []) raw)
  end.

Record Candidate := mkCandidate { ca_id : option string; ca_name : option string; ca_tag : option string }.

(** [x && list.has(f(x))] of an optional text. *)
Definition given_in (l : list string) (f : string -> string) (x : option string) : bool :=
  match x with Some t => truthy_str t && has l (f t) | None => false end.
Definition slug_of (x : option string) : string :=
  match x with Some t => if truthy_str t then normalizeDiscordSlug t else "" | None => "" end.

Definition allowListMatches (l : DiscordAllowList) (c : Candidate) : bool :=
  if allowAll l then true
  else if given_in (ids l) id (ca_id c) then true
  else let slug := slug_of (ca_name c) in
    if truthy_str slug && has (names l) slug then true
    else if given_in (names l) normalizeDiscordSlug (ca_tag c) then true
    else false.

Inductive DiscordMatchSource := by_wildcard | by_id | by_name | by_tag.

(** The key and the source of the match, or none. *)
Definition resolveDiscordAllowListMatch (l : DiscordAllowList) (c : Candidate) : option (string * DiscordMatchSource) :=
  if allowAll l then Some ("*", by_wildcard)
  else match (if given_in (ids l) id (ca_id c) then ca_id c else None) with
       | Some i => Some (i, by_id)
       | None =>
           let nameSlug := slug_of (ca_name c) in
           if truthy_str nameSlug && has (names l) nameSlug then Some (nameSlug, by_name)
           else let tagSlug := slug_of (ca_tag c) in
             if truthy_str tagSlug && has (names l) tagSlug then Some (tagSlug, by_tag) else None
       end.

(** A list that is not there or empty admits everybody. *)
Definition allowed_by (raw : option (list Entry)) (c : Candidate) : bool :=
  match normalizeDiscordAllowList (default [] raw) user_prefixes with
  | None => true
  | Some l => allowListMatches l c
  end.

Definition resolveDiscordUserAllowed (allowList : option (list Entry)) (userId : string) (userName userTag : option string) : bool :=
  allowed_by allowList (mkCandidate (Some userId) userName userTag).

(** [channel] and [guild] are the lists of users of the two, where they are set. *)
Definition resolveDiscordOwnerAllowFrom (channel guild : option (list Entry)) (sender : Candidate) : option (list string) :=
  match normalizeDiscordAllowList (default [] (match channel with Some _ => channel | None => guild end)) user_prefixes with
  | None => None
  | Some l =>
      match resolveDiscordAllowListMatch l sender with
      | Some (key, _) => if negb (truthy_str key) || String.eqb key "*" then None else Some [key]
      | None => None
      end
  end.

Record User := mkUser { us_id : string; us_username : string; us_discriminator : option string }.

Definition formatDiscordUserTag (u : User) : string :=
  let d := js_trim (default "" (us_discriminator u)) in
  if truthy_str d && negb (String.eqb d "0") then us_username u +:+ "#" +:+ d else us_username u.

Definition resolveDiscordCommandAuthorized (isDirectMessage : bool) (allowFrom : option (list Entry)) (author : User) : bool :=
  if negb isDirectMessage then true
  else allowed_by allowFrom (mkCandidate (Some (us_id author)) (Some (us_username author)) (Some (formatDiscordUserTag author))).

(** The entry of a guild, by its id, by the slug of its name or by the wildcard: the settings
    that were found, the id and the slug.  An inherited member counts as an entry without
    settings. *)
Section guild.
Context {A : Type} (slug_field : A -> option string).

Definition resolveDiscordGuildEntry (guild : option (string * option string)) (entries : option (jsmap A)) :
    option (option A * string * option string) :=
  match guild, entries with
  | Some (id, name), Some entries =>
      let slug := normalizeDiscordSlug (default "" name) in
      let found e := Some (Some e, id, if truthy_str slug then Some slug else slug_field e) in
      match jm_get entries id with
      | Some e => Some (Some e, id, slug_field e)
      | None =>
          match member_of entries slug with
          | own e => found e
          | inherited => Some (None, id, Some slug)
          | no_member => match jm_get entries "*" with Some e => found e | None => None end
          end
      end
  | _, _ => None
  end.
End guild.

Definition isDiscordAutoThreadOwnedByBot (isThread autoThread : bool) (botId threadOwnerId : option string) : bool :=
  isThread && autoThread &&
  match trimmed botId, trimmed threadOwnerId with Some b, Some o => String.eqb b o | _, _ => false end.

(** [given] is the value computed before, when there is one; the two others are the settings
    of the channel and of the guild. *)
Definition resolveDiscordShouldRequireMention (isGuildMessage isThread autoThread : bool) (botId threadOwnerId : option string)
    (given : option bool) (channel guild : option bool) : bool :=
  if negb isGuildMessage then false
  else if default (isDiscordAutoThreadOwnedByBot isThread autoThread botId threadOwnerId) given then false
  else default true (match channel with Some _ => channel | None => guild end).

Inductive GroupPolicy := policy_open | policy_disabled | policy_allowlist.

Definition isDiscordGroupAllowedByPolicy (p : GroupPolicy) (guildAllowlisted channelAllowlistConfigured channelAllowed : bool) : bool :=
  match p with
  | policy_disabled => false
  | policy_open => true
  | policy_allowlist => if negb guildAllowlisted then false else if negb channelAllowlistConfigured then true else channelAllowed
  end.

Definition resolveGroupDmAllow (channels : option (list Entry)) (channelId : string) (channelName : option string) (channelSlug : string) : bool :=
  match default [] channels with
  | [] => true
  | channels =>
      let allowList := (fun e => normalizeDiscordSlug (entry_string e)) <$> channels in
      let candidates := keep truthy_str [normalizeDiscordSlug channelId; channelSlug; slug_of channelName] in
      has allowList "*" || existsb (has allowList) candidates
  end.

Inductive ReactionMode := reactions_off | reactions_own | reactions_all | reactions_allowlist.

Definition shouldEmitDiscordReactionNotification (mode : option ReactionMode) (botId messageAuthorId : option string)
    (user : Candidate) (allowlist : option (list Entry)) : bool :=
  match default reactions_own mode with
  | reactions_off => false
  | reactions_all => true
  | reactions_own => truthy_opt botId && bool_decide (messageAuthorId = botId)
  | reactions_allowlist =>
      match normalizeDiscordAllowList (default [] allowlist) user_prefixes with
      | None => false
      | Some l => allowListMatches l user
      end
  end.

(** *** Theorems *)

Definition names_ok (l : DiscordAllowList) : Prop := "" ∉ names l /\ "" ∉ ids l.

Lemma add_spec x y l : y ∈ add x l <-> y = x \/ y ∈ l.
Proof. unfold add. case_bool_decide; set_solver. Qed.

Lemma take_entry_ok prefixes l e : names_ok l -> names_ok (take_entry prefixes l e).
Proof.
  intros [Hn Hi]. unfold take_entry. cbv zeta. set (text := js_trim (entry_string e)). clearbody text.
  destruct (_ || _); [done|]. destruct (test re_all_digits (without_mention text)) eqn:Et.
  - split; [done|]. cbn. intros [E|?]%add_spec; [|done]. rewrite <- E in Et. done.
  - destruct (List.find _ _) as [p|].
    + destruct (truthy_str (js_slice_str_from _ _)) eqn:E; [|done]. split; [done|]. cbn. intros [E'|?]%add_spec; [|done]. by rewrite <- E' in E.
    + destruct (truthy_str (normalizeDiscordSlug text)) eqn:E; [|done]. split; [|done]. cbn. intros [E'|?]%add_spec; [|done]. by rewrite <- E' in E.
Qed.

Lemma take_entries_ok prefixes raw l : names_ok l -> names_ok (foldl (take_entry prefixes) l raw).
Proof. revert l. induction raw as [|e raw IH]; intros l H; [exact H|]. apply IH. by apply take_entry_ok. Qed.

Lemma normalized_ok raw prefixes l : normalizeDiscordAllowList raw prefixes = Some l -> names_ok l.
Proof.
  unfold normalizeDiscordAllowList. destruct raw as [|e raw]; [done|]. intros [= <-]. apply (take_entries_ok prefixes (e :: raw)).
  split; apply not_elem_of_nil.
Qed.

(** The two readings of a list agree: a sender is admitted exactly when a match is found. *)
Theorem allow_list_readings_agree raw prefixes l c : normalizeDiscordAllowList raw prefixes = Some l ->
  allowListMatches l c = true <-> is_Some (resolveDiscordAllowListMatch l c).
Proof.
  intros [Hn Hi]%normalized_ok. unfold allowListMatches, resolveDiscordAllowListMatch.
  destruct (allowAll l); [split; [by eexists|done]|].
  destruct (given_in (ids l) id (ca_id c)) eqn:Ei; [destruct (ca_id c) as [i|]; [split; [by eexists|done]|done]|].
  cbv zeta. destruct (truthy_str (slug_of (ca_name c)) && _); [split; [by eexists|done]|].
  unfold given_in, slug_of; destruct (ca_tag c) as [t|]; [|split; [done|by intros []]].
  destruct (truthy_str t) eqn:Et; cbn [andb]; [|split; [done|by intros []]].
  destruct (has (names l) (normalizeDiscordSlug t)) eqn:Eh; [|rewrite andb_false_r; split; [done|by intros []]].
  rewrite andb_true_r; destruct (truthy_str (normalizeDiscordSlug t)) eqn:E; [split; [by eexists|done]|].
  exfalso; apply Hn; unfold truthy_str in E; apply negb_false_iff, String.eqb_eq in E; rewrite <- E; by apply has_true.
Qed.

Lemma allow_list_readings_agree_witness :
  exists l, normalizeDiscordAllowList [entry_text "<@123>"; entry_text "Ann Lee"] user_prefixes = Some l /\
    is_Some (resolveDiscordAllowListMatch l (mkCandidate (Some "9") (Some "ann.lee") None)).
Proof.
  eexists. split; [vm_compute; reflexivity|].
  apply (allow_list_readings_agree [entry_text "<@123>"; entry_text "Ann Lee"] user_prefixes); [vm_compute; reflexivity|].
  vm_compute. reflexivity.
Defined.

(** Names are compared by their slugs: another user whose name differs in punctuation is
    admitted. *)
Example names_alike_admitted :
  resolveDiscordUserAllowed (Some [entry_text "ann.lee"]) "666" (Some "ann_lee_") None = true.
Proof. vm_compute. reflexivity. Qed.

(** A guild that calls itself like a member of every object passes for a listed one. *)
Example constructor_is_a_guild :
  resolveDiscordGuildEntry (fun _ : nat => None) (Some ("7", Some "Constructor")) (Some [("1", 1%nat)]) = Some (None, "7", Some "constructor").
Proof. vm_compute. reflexivity. Qed.

(** The wildcard of group messages admits nobody: its slug is the empty text. *)
Example group_wildcard_admits_nobody :
  normalizeDiscordSlug "*" = "" /\ resolveGroupDmAllow (Some [entry_text "*"]) "42" (Some "team") "team" = false.
Proof. vm_compute. auto. Qed.

Theorem group_wildcard_alone channelId channelName channelSlug :
  resolveGroupDmAllow (Some [entry_text "*"]) channelId channelName channelSlug = false.
Proof.
  unfold resolveGroupDmAllow. cbn [default from_option id fmap list_fmap entry_string].
  assert (normalizeDiscordSlug "*" = "") as -> by (vm_compute; reflexivity).
  apply orb_false_iff. split; [done|]. apply not_true_is_false. intros (x & Hx%list_elem_of_In & Hh)%existsb_exists.
  apply elem_of_keep in Hx as [Hx _]. apply has_true, list_elem_of_singleton in Hh as ->. done.
Qed.
End Discord.

(** ** Telegram *)
Module Telegram.

Record NormalizedAllowFrom := mkNormalizedAllowFrom {
  al_entries : list string; al_entriesLower : list string; al_hasWildcard : bool; al_hasEntries : bool
}.

Definition re_telegram : regex := re_seqs [re_start; re_alt (re_ilit "telegram") (re_ilit "tg"); re_lit ":"].
Definition re_group_prefix : regex := re_seq re_start (re_ilit "group:").

Definition normalizeAllowFrom (l : option (list Entry)) : NormalizedAllowFrom :=
  let entries := keep truthy_str ((fun e => js_trim (entry_string e)) <$> default [] l) in
  let normalized := replace_first re_telegram (fun _ => "") <$> keep (fun v => negb (String.eqb v "*")) entries in
  mkNormalizedAllowFrom normalized (js_toLowerCase <$> normalized) (has entries "*") (0 <? js_length entries).

Definition normalizeAllowFromWithStore (allowFrom : option (list Entry)) (storeAllowFrom : option (list string)) : NormalizedAllowFrom :=
  let combined := keep truthy_str ((fun e => js_trim (entry_string e)) <$> (default [] allowFrom ++ (entry_text <$> default [] storeAllowFrom))) in
  normalizeAllowFrom (Some (entry_text <$> combined)).

Fixpoint firstDefined {A} (values : list (option A)) : option A :=
  match values with [] => None | Some v :: _ => Some v | None :: values => firstDefined values end.

Definition names_user (username entry : string) : bool := String.eqb entry username || String.eqb entry ("@" +:+ username).

Definition isSenderAllowed (allow : NormalizedAllowFrom) (senderId senderUsername : option string) : bool :=
  if negb (al_hasEntries allow) then true
  else if al_hasWildcard allow then true
  else if match senderId with Some i => truthy_str i && has (al_entries allow) i | None => false end then true
  else match js_toLowerCase <$> senderUsername with
       | Some username => if negb (truthy_str username) then false else existsb (names_user username) (al_entriesLower allow)
       | None => false
       end.

Inductive AllowFromMatchSource := by_wildcard | by_id | by_username.

Definition resolveSenderAllowMatch (allow : NormalizedAllowFrom) (senderId senderUsername : option string) : option (string * AllowFromMatchSource) :=
  if al_hasWildcard allow then Some ("*", by_wildcard)
  else if negb (al_hasEntries allow) then None
  else match (if match senderId with Some i => truthy_str i && has (al_entries allow) i | None => false end then senderId else None) with
       | Some i => Some (i, by_id)
       | None =>
           match js_toLowerCase <$> senderUsername with
           | Some username =>
               if negb (truthy_str username) then None else
               match List.find (names_user username) (al_entriesLower allow) with
               | Some e => if truthy_str e then Some (e, by_username) else None
               | None => None
               end
           | None => None
           end
       end.

(** *** Targets *)

(** One turn of the loop: the text and whether a prefix of Telegram was taken off. *)
Definition strip_once (t : string) (stripped : bool) : string * bool :=
  if test re_telegram t then (js_trim (replace_first re_telegram (fun _ => "") t), true)
  else if stripped && test re_group_prefix t then (js_trim (replace_first re_group_prefix (fun _ => "") t), stripped)
  else (t, stripped).

Fixpoint strip_loop (fuel : nat) (t : string) (stripped : bool) : string :=
  match fuel with
  | O => t
  | S fuel => let '(next, stripped) := strip_once t stripped in if String.eqb next t then t else strip_loop fuel next stripped
  end.

Definition stripTelegramInternalPrefixes (to : string) : string :=
  let t := js_trim to in strip_loop (S (String.length t)) t false.

Record TelegramTarget := mkTelegramTarget { tt_chatId : string; tt_messageThreadId : option Z }.

Definition re_topic : regex :=
  re_seqs [re_start; re_group 1 (re_lazy_plus (re_chr is_dot)); re_lit ":topic:"; re_group 2 (re_plus (re_chr is_digit_char)); re_end].
Definition re_colon : regex :=
  re_seqs [re_start; re_group 1 (re_plus (re_chr is_dot)); re_lit ":"; re_group 2 (re_plus (re_chr is_digit_char)); re_end].

Definition parseTelegramTarget (to : string) : TelegramTarget :=
  let normalized := stripTelegramInternalPrefixes to in
  let target m := mkTelegramTarget (default "" (group 1 m)) (group 2 m ≫= parseInt) in
  match exec re_topic normalized with
  | Some m => target m
  | None => match exec re_colon normalized with Some m => target m | None => mkTelegramTarget normalized None end
  end.

(** *** Groups that became supergroups *)
Section groups.
Context {G : Type}.

Record Migration := mkMigration { mi_migrated : bool; mi_skippedExisting : bool }.

(** The result and the groups afterwards. *)
Definition migrateTelegramGroupsInPlace (groups : option (jsmap G)) (oldChatId newChatId : string) : Migration * option (jsmap G) :=
  match groups with
  | None => (mkMigration false false, groups)
  | Some m =>
      if String.eqb oldChatId newChatId then (mkMigration false false, groups) else
      match jm_get m oldChatId with
      | None => (mkMigration false false, groups)
      | Some g =>
          if jm_has m newChatId then (mkMigration false true, groups)
          else (mkMigration true false, Some (jm_delete (jm_set m newChatId g) oldChatId))
      end
  end.

(** The groups of the accounts and the global ones. *)
Record TelegramConfig := mkTelegramConfig { tc_accounts : option (jsmap (option (jsmap G))); tc_groups : option (jsmap G) }.

(** The key of the account whose groups are used. *)
Definition resolveAccountGroups (normalizeAccountId : string -> string) (cfg : TelegramConfig) (accountId : option string) : option string :=
  match accountId, tc_accounts cfg with
  | Some a, Some accounts =>
      if negb (truthy_str a) then None else
      let normalized := normalizeAccountId a in
      match jm_get accounts normalized with
      | Some (Some _) => Some normalized
      | _ => match List.find (fun key => String.eqb (js_toLowerCase key) (js_toLowerCase normalized)) (jm_keys accounts) with
             | Some k => if truthy_str k then Some k else None
             | None => None
             end
      end
  | _, _ => None
  end.

Record MigrationResult := mkMigrationResult { mr_migrated : bool; mr_skippedExisting : bool; mr_scopes : list string }.

Definition migrateTelegramGroupConfig (normalizeAccountId : string -> string) (cfg : TelegramConfig) (accountId : option string)
    (oldChatId newChatId : string) : MigrationResult * TelegramConfig :=
  let '(a, accounts) :=
    match resolveAccountGroups normalizeAccountId cfg accountId, tc_accounts cfg with
    | Some key, Some accounts =>
        match jm_get accounts key with
        | Some groups => let '(a, groups) := migrateTelegramGroupsInPlace groups oldChatId newChatId in (a, Some (jm_set accounts key groups))
        | None => (mkMigration false false, Some accounts)
        end
    | _, accounts => (mkMigration false false, accounts)
    end in
  let '(g, groups) := migrateTelegramGroupsInPlace (tc_groups cfg) oldChatId newChatId in
  (mkMigrationResult (mi_migrated a || mi_migrated g) (mi_skippedExisting a || mi_skippedExisting g)
     ((if mi_migrated a then ["account"] else []) ++ (if mi_migrated g then ["global"] else [])),
   mkTelegramConfig accounts groups).
End groups.
Arguments TelegramConfig : clear implicits.

(** *** Theorems *)

Lemma find_some_existsb {A} (f : A -> bool) l : is_Some (List.find f l) <-> existsb f l = true.
Proof.
  rewrite existsb_exists. split.
  - intros [x [? ?]%find_some]. eauto.
  - intros (x & Hx & Hf). destruct (List.find f l) eqn:E; [by eexists|]. by rewrite (find_none _ _ E x Hx) in Hf.
Qed.

(** With entries in the list its two readings agree; an empty list admits everybody in the
    one and nobody in the other. *)
Theorem sender_readings_agree l id name : let allow := normalizeAllowFrom l in
  (al_hasEntries allow = true -> isSenderAllowed allow id name = true <-> is_Some (resolveSenderAllowMatch allow id name)) /\
  (al_hasEntries allow = false -> isSenderAllowed allow id name = true /\ resolveSenderAllowMatch allow id name = None).
Proof.
  cbv zeta. unfold isSenderAllowed, resolveSenderAllowMatch. split; intros Hh; rewrite Hh; cbn [negb].
  - destruct (al_hasWildcard _); [split; [by eexists|done]|].
    destruct (match id with Some i => _ | None => false end) eqn:Ei; [destruct id as [i|]; [split; [by eexists|done]|done]|].
    destruct (js_toLowerCase <$> name) as [u|]; [|split; [done|by intros []]].
    destruct (truthy_str u) eqn:Eu; cbn [negb]; [|split; [done|by intros []]].
    rewrite <- find_some_existsb. split; [|destruct (List.find _ _); [by eexists|by intros []]].
    intros [e He]. rewrite He. apply find_some in He as [_ He]. assert (truthy_str e = true) as ->; [|by eexists].
    unfold names_user in He. apply orb_true_iff in He as [He|He]; apply String.eqb_eq in He; subst e; [done|reflexivity].
  - split; [done|]. unfold normalizeAllowFrom in *. cbn [al_hasEntries al_hasWildcard] in *.
    destruct (keep truthy_str _) as [|x k]; [reflexivity|]. apply Z.ltb_ge in Hh. unfold js_length in Hh. cbn [length] in Hh. lia.
Qed.

(** Patterns that take at least one character. *)
Definition takes (r : regex) : Prop := forall s s', matches r s s' -> (String.length (ms_rest s') < String.length (ms_rest s))%nat.

Lemma takes_weak r s s' : matches r s s' -> (String.length (ms_rest s') <= String.length (ms_rest s))%nat.
Proof. intros [u ->]%matches_suffix. rewrite str_length_app. lia. Qed.
Lemma takes_chr p : takes (re_chr p).
Proof. intros s s' (c & t & -> & _ & ->)%matches_chr. cbn. lia. Qed.
Lemma takes_seq_l r1 r2 : takes r1 -> takes (re_seq r1 r2).
Proof. intros H s s' (s1 & H1 & H2)%matches_seq. apply H in H1. apply takes_weak in H2. lia. Qed.
Lemma takes_seq_r r1 r2 : takes r2 -> takes (re_seq r1 r2).
Proof. intros H s s' (s1 & H1 & H2)%matches_seq. apply takes_weak in H1. apply H in H2. lia. Qed.

Lemma length_trimStart s : (String.length (js_trimStart s) <= String.length s)%nat.
Proof. induction s as [|c s IH]; [done|]. cbn. destruct (is_space c); cbn; lia. Qed.
Lemma length_trimEnd s : (String.length (js_trimEnd s) <= String.length s)%nat.
Proof. induction s as [|c s IH]; [done|]. cbn [js_trimEnd]. destruct (blank _); cbn; lia. Qed.
Lemma length_trim s : (String.length (js_trim s) <= String.length s)%nat.
Proof. unfold js_trim. pose proof (length_trimEnd (js_trimStart s)). pose proof (length_trimStart s). lia. Qed.

Lemma replace_shortens r s : takes r -> test r s = true -> (String.length (replace_first r (fun _ => "") s) < String.length s)%nat.
Proof.
  unfold test, replace_first. intros Ht. destruct (exec r s) as [m|] eqn:E; [|done]. intros _.
  pose proof (exec_split _ _ _ E) as Hs. unfold exec in E. apply exec_from_matches in E as (p & s' & Hm & Hr & _).
  apply Ht in Hm. rewrite Hr in Hm. cbn [ms_rest] in Hm. rewrite Hs. rewrite !str_length_app in *. cbn. lia.
Qed.

Lemma takes_telegram : takes re_telegram.
Proof. apply takes_seq_r, takes_seq_r, takes_seq_l. apply takes_chr. Qed.
Lemma takes_group : takes re_group_prefix.
Proof. apply takes_seq_r. change (re_ilit "group:") with (re_seq (re_chr (fun d => Ascii.eqb (lower_ascii "g") (lower_ascii d))) (re_ilit "roup:")). apply takes_seq_l, takes_chr. Qed.

(** A turn that changes the text makes it shorter; one that does not found no prefix. *)
Lemma strip_once_spec t b : let '(t', _) := strip_once t b in
  (t' = t /\ test re_telegram t = false) \/ (String.length t' < String.length t)%nat.
Proof.
  unfold strip_once. destruct (test re_telegram t) eqn:E.
  - right. pose proof (replace_shortens _ _ takes_telegram E). pose proof (length_trim (replace_first re_telegram (fun _ => "") t)). lia.
  - destruct b; cbn [andb]; [|by left]. destruct (test re_group_prefix t) eqn:Eg; [|by left]. right.
    pose proof (replace_shortens _ _ takes_group Eg). pose proof (length_trim (replace_first re_group_prefix (fun _ => "") t)). lia.
Qed.

Lemma strip_loop_spec fuel more t b : (String.length t < fuel)%nat ->
  test re_telegram (strip_loop fuel t b) = false /\ strip_loop (fuel + more) t b = strip_loop fuel t b.
Proof.
  revert t b. induction fuel as [|fuel IH]; intros t b Hf; [lia|]. cbn [strip_loop Nat.add].
  pose proof (strip_once_spec t b) as H. destruct (strip_once t b) as [t' b'].
  destruct (String.eqb_spec t' t) as [->|Hne]; [destruct H as [[_ ?]|?]; [done|lia]|].
  destruct H as [[? _]|H]; [done|]. apply IH. lia.
Qed.

(** Taking off the prefixes ends within the length of the text, and leaves none of
    Telegram. *)
Theorem prefixes_come_off to more :
  let t := js_trim to in
  strip_loop (S (String.length t) + more) t false = stripTelegramInternalPrefixes to /\
  test re_telegram (stripTelegramInternalPrefixes to) = false.
Proof. cbv zeta. unfold stripTelegramInternalPrefixes. destruct (strip_loop_spec (S (String.length (js_trim to))) more (js_trim to) false ltac:(lia)). done. Qed.
End Telegram.
