(* ===== verification/DiscordText.v ===== *)
(** * Messages and targets of Discord

    openclaw/discord/chunk.ts: the division of a reply by characters and by lines, with
    fenced code blocks closed and opened again; openclaw/discord/targets.ts: what the
    target of a message names.  A character is one code unit; numbers of characters and
    lines are whole. *)

From S2P Require Import Prelude JsString JsNumber JsRegExp.
From Stdlib Require Import Ascii.

Definition nl : ascii := ascii_of_nat 10.

(** ** Dividing a reply *)

Record OpenFence := mkOpenFence { fe_indent : string; fe_markerChar : string; fe_markerLen : nat; fe_openLine : string }.

Definition DEFAULT_MAX_CHARS : Z := 2000.
Definition DEFAULT_MAX_LINES : Z := 17.

(** [c{3,}]. *)
Definition re_run (c : ascii) : regex := re_seq (re_times 3 (re_lit_char c)) (re_many (re_lit_char c)).
Definition FENCE_RE : regex :=
  re_seqs [re_start; re_group 1 (re_upto 3 (re_lit_char " ")); re_group 2 (re_alt (re_run "`") (re_run "~"));
           re_group 3 (re_many (re_chr is_dot)); re_end].

Definition countLines (text : string) : Z :=
  if negb (truthy_str text) then 0 else js_length (js_split nl text).

Definition parseFenceLine (line : string) : option OpenFence :=
  match exec FENCE_RE line with
  | None => None
  | Some m =>
      let marker := default "" (group 2 m) in
      Some (mkOpenFence (default "" (group 1 m))
              (match marker with String c _ => String c "" | "" => "`" end) (String.length marker) line)
  end.

Definition repeat_str (s : string) (n : nat) : string := str (repeat s n).

Definition closeFenceLine (f : OpenFence) : string := fe_indent f +:+ repeat_str (fe_markerChar f) (fe_markerLen f).

Definition closeFenceIfNeeded (text : string) (open : option OpenFence) : string :=
  match open with
  | None => text
  | Some f =>
      let closeLine := closeFenceLine f in
      if negb (truthy_str text) then closeLine
      else if negb (js_endsWith text newline) then text +:+ newline +:+ closeLine
      else text +:+ closeLine
  end.

Definition str_take (n : nat) (s : string) : string := String.substring 0 n s.
Definition str_drop (n : nat) (s : string) : string := String.substring n (String.length s - n) s.

(** The loop for [breakIdx]: the last index of a blank, or -1. *)
Fixpoint last_blank (window : string) : Z :=
  match window with
  | EmptyString => -1
  | String c t => let i := last_blank t in if 0 <=? i then i + 1 else if is_space c then 0 else -1
  end.

Definition break_at (preserve : bool) (limit : Z) (remaining : string) : Z :=
  if preserve then limit else
  let i := last_blank (str_take (Z.to_nat limit) remaining) in if i <=? 0 then limit else i.

Fixpoint split_loop (fuel : nat) (preserve : bool) (limit : Z) (remaining : string) : list string :=
  if js_str_length remaining <=? limit then (if truthy_str remaining then [remaining] else [])
  else match fuel with
       | O => [remaining]
       | S fuel =>
           let i := Z.to_nat (break_at preserve limit remaining) in
           str_take i remaining :: split_loop fuel preserve limit (str_drop i remaining)
       end.

Definition splitLongLine (line : string) (maxChars : Z) (preserveWhitespace : bool) : list string :=
  let limit := Z.max 1 maxChars in
  if js_str_length line <=? limit then [line]
  else split_loop (String.length line) preserveWhitespace limit line.

(** The variables of the loop. *)
Record ChunkState := mkChunkState { ck_chunks : list string; ck_current : string; ck_lines : Z; ck_fence : option OpenFence }.
#[export] Instance ChunkState_eta : EtaRecord ChunkState := fun s =>
  mkChunkState (ck_chunks s) (ck_current s) (ck_lines s) (ck_fence s).
Implicit Types s : ChunkState.

Definition push_payload (text : string) (fence : option OpenFence) (chunks : list string) : list string :=
  let payload := closeFenceIfNeeded text fence in
  if truthy_str (js_trim payload) then chunks ++ [payload] else chunks.

Definition flush s : ChunkState :=
  if negb (truthy_str (ck_current s)) then s else
  let s := s <| ck_chunks ::= push_payload (ck_current s) (ck_fence s) |> in
  match ck_fence s with
  | Some f => s <| ck_current := fe_openLine f |> <| ck_lines := 1 |>
  | None => s <| ck_current := "" |> <| ck_lines := 0 |>
  end.

Definition next_fence (line : string) (open : option OpenFence) : option OpenFence :=
  match parseFenceLine line with
  | None => open
  | Some info =>
      match open with
      | None => Some info
      | Some f =>
          if String.eqb (fe_markerChar f) (fe_markerChar info) && (fe_markerLen f <=? fe_markerLen info)%nat
          then None else open
      end
  end.

Definition add_segment (charLimit lineLimit : Z) (s : ChunkState) (ix : nat * string) : ChunkState :=
  let '(segIndex, segment) := ix in
  let isLineContinuation := (0 <? segIndex)%nat in
  let delimiter := if isLineContinuation then "" else if truthy_str (ck_current s) then newline else "" in
  let addition := delimiter +:+ segment in
  let nextLen := js_str_length (ck_current s) + js_str_length addition in
  let nextLines := ck_lines s + (if isLineContinuation then 0 else 1) in
  let s := if ((charLimit <? nextLen) || (lineLimit <? nextLines)) && truthy_str (ck_current s) then flush s else s in
  if truthy_str (ck_current s) then
    s <| ck_current ::= fun c => c +:+ addition |> <| ck_lines ::= fun n => if isLineContinuation then n else n + 1 |>
  else s <| ck_current := segment |> <| ck_lines := 1 |>.

Definition reserve_chars (f : option OpenFence) : Z :=
  match f with Some f => js_str_length (closeFenceLine f) + 1 | None => 0 end.
Definition char_limit (maxChars : Z) (f : option OpenFence) : Z :=
  let effective := maxChars - reserve_chars f in if 0 <? effective then effective else maxChars.
Definition line_limit (maxLines : Z) (f : option OpenFence) : Z :=
  let effective := maxLines - (match f with Some _ => 1 | None => 0 end) in if 0 <? effective then effective else maxLines.

Definition chunk_line (maxChars maxLines : Z) (s : ChunkState) (originalLine : string) : ChunkState :=
  let nextOpenFence := next_fence originalLine (ck_fence s) in
  let charLimit := char_limit maxChars nextOpenFence in
  let prefixLen := if truthy_str (ck_current s) then js_str_length (ck_current s) + 1 else 0 in
  let segments := splitLongLine originalLine (Z.max 1 (charLimit - prefixLen)) (bool_decide (ck_fence s <> None)) in
  let s := foldl (add_segment charLimit (line_limit maxLines nextOpenFence)) s (imap pair segments) in
  s <| ck_fence := nextOpenFence |>.

(** The italics of a reasoning text; [first] is the chunk at hand as it was changed for the
    one before it. *)
Fixpoint close_italics (first : string) (rest : list string) : list string :=
  let closed := if negb (js_endsWith (js_trimEnd first) "_") then first +:+ "_" else first in
  match rest with
  | [] => [closed]
  | next :: rest =>
      let leading := (String.length next - String.length (js_trimStart next))%nat in
      let nextBody := str_drop leading next in
      closed :: close_italics (if negb (js_startsWith nextBody "_") then str_take leading next +:+ "_" +:+ nextBody else next) rest
  end.

Definition opensWithReasoningItalics (source : string) : bool :=
  js_startsWith source ("Reasoning:" +:+ newline +:+ "_") && js_endsWith (js_trimEnd source) "_".

Definition rebalanceReasoningItalics (source : string) (chunks : list string) : list string :=
  match chunks with
  | first :: ((_ :: _) as rest) => if negb (opensWithReasoningItalics source) then chunks else close_italics first rest
  | _ => chunks
  end.

Definition chunk_lines (maxChars maxLines : Z) (body : string) : list string :=
  let s := foldl (chunk_line maxChars maxLines) (mkChunkState [] "" 0 None) (js_split nl body) in
  if truthy_str (ck_current s) then push_payload (ck_current s) (ck_fence s) (ck_chunks s) else ck_chunks s.

Definition chunkDiscordText (text : string) (maxChars maxLines : option Z) : list string :=
  let maxChars := Z.max 1 (default DEFAULT_MAX_CHARS maxChars) in
  let maxLines := Z.max 1 (default DEFAULT_MAX_LINES maxLines) in
  if negb (truthy_str text) then []
  else if (js_str_length text <=? maxChars) && (countLines text <=? maxLines) then [text]
  else rebalanceReasoningItalics text (chunk_lines maxChars maxLines text).

(** [chunkMarkdownTextWithMode] divides a text at newlines, in a module outside. *)
Definition chunkDiscordTextWithMode (chunkMarkdownTextWithMode : string -> Z -> list string)
    (text : string) (maxChars maxLines : option Z) (newline_mode : bool) : list string :=
  if negb newline_mode then chunkDiscordText text maxChars maxLines
  else foldl (fun chunks line =>
         match chunkDiscordText line maxChars maxLines with
         | [] => if truthy_str line then chunks ++ [line] else chunks
         | nested => chunks ++ nested
         end) [] (chunkMarkdownTextWithMode text (Z.max 1 (default DEFAULT_MAX_CHARS maxChars))).

(** ** Theorems on the division *)

(** *** Lengths, lines and what is not blank *)

Lemma take_drop_str n t : (n <= String.length t)%nat -> str_take n t +:+ str_drop n t = t.
Proof. intros H. unfold str_take, str_drop. by rewrite <- substring_split. Qed.

Lemma length_take_str n t : (n <= String.length t)%nat -> String.length (str_take n t) = n.
Proof.
  revert t. induction n as [|n IH]; intros [|c t] H; cbn in *; try done; try lia.
  f_equal. apply IH. lia.
Qed.

Lemma length_drop_str n t : (n <= String.length t)%nat -> String.length (str_drop n t) = (String.length t - n)%nat.
Proof.
  intros H. pose proof (take_drop_str n t H) as E. apply (f_equal String.length) in E.
  rewrite str_length_app, length_take_str in E by done. lia.
Qed.

(** The newlines of a text. *)
Fixpoint newlines (t : string) : Z :=
  match t with EmptyString => 0 | String c t => (if Ascii.eqb c nl then 1 else 0) + newlines t end.

Lemma newlines_app a b : newlines (a +:+ b) = newlines a + newlines b.
Proof. induction a as [|c a IH]; [done|]. rewrite str_app_cons. cbn [newlines]. rewrite IH. lia. Qed.
Lemma newlines_pos a : 0 <= newlines a.
Proof. induction a as [|c a IH]; [done|]. cbn [newlines]. destruct (Ascii.eqb c nl); lia. Qed.

Lemma split_newlines t : js_length (js_split nl t) = newlines t + 1.
Proof.
  unfold js_length. induction t as [|c t IH]; [done|]. cbn [js_split newlines].
  destruct (Ascii.eqb c nl); [cbn [length]; lia|]. destruct (js_split nl t); cbn [length] in *; [|lia].
  pose proof (newlines_pos t). lia.
Qed.

Lemma split_pieces_free t : Forall (fun p => free_of nl p = true) (js_split nl t).
Proof.
  induction t as [|c t IH]; [by repeat constructor|]. cbn [js_split]. destruct (Ascii.eqb c nl) eqn:E; [by constructor|].
  destruct IH as [|x l Hx Hl]; constructor; try done; cbn [free_of]; by rewrite E.
Qed.

Lemma countLines_spec t : countLines t = if truthy_str t then newlines t + 1 else 0.
Proof. unfold countLines. rewrite split_newlines. by destruct (truthy_str t). Qed.

Lemma newlines_free a : free_of nl a = true <-> newlines a = 0.
Proof.
  induction a as [|c a IH]; [done|]. cbn [free_of newlines]. pose proof (newlines_pos a).
  destruct (Ascii.eqb c nl); cbn; [split; [done|lia]|]. rewrite IH. lia.
Qed.

Lemma truthy_app a b : truthy_str (a +:+ b) = truthy_str a || truthy_str b.
Proof. by destruct a. Qed.

(** The text without its blanks. *)
Fixpoint ink (t : string) : string :=
  match t with EmptyString => "" | String c t => if is_space c then ink t else String c (ink t) end.

Lemma ink_app a b : ink (a +:+ b) = ink a +:+ ink b.
Proof. induction a as [|c a IH]; [done|]. rewrite str_app_cons. cbn [ink]. rewrite IH. by destruct (is_space c). Qed.
Lemma ink_blank a : blank a = true -> ink a = "".
Proof. induction a as [|c a IH]; [done|]. cbn [blank ink]. intros [-> H]%andb_true_iff. by apply IH. Qed.
Lemma ink_trimStart a : ink (js_trimStart a) = ink a.
Proof. induction a as [|c a IH]; [done|]. cbn [js_trimStart ink]. destruct (is_space c) eqn:E; [done|]. cbn [ink]. by rewrite E. Qed.
Lemma ink_trimEnd a : ink (js_trimEnd a) = ink a.
Proof.
  induction a as [|c a IH]; [done|]. cbn [js_trimEnd]. destruct (blank (String c a)) eqn:E.
  - by rewrite (ink_blank _ E).
  - cbn [ink]. by rewrite IH.
Qed.
Lemma ink_trim a : ink (js_trim a) = ink a.
Proof. unfold js_trim. by rewrite ink_trimEnd, ink_trimStart. Qed.

(** *** A long line *)

Lemma last_blank_range w : -1 <= last_blank w /\ (last_blank w < js_str_length w).
Proof.
  unfold js_str_length. induction w as [|c w IH]; cbn [last_blank String.length]; [lia|].
  destruct (Z.leb_spec 0 (last_blank w)); [lia|]. destruct (is_space c); lia.
Qed.

Lemma break_at_range preserve limit t : 1 <= limit < js_str_length t -> 1 <= break_at preserve limit t <= limit.
Proof.
  intros H. unfold break_at. destruct preserve; [lia|].
  pose proof (last_blank_range (str_take (Z.to_nat limit) t)) as [H1 H2].
  unfold js_str_length in *. rewrite length_take_str in H2 by lia. destruct (Z.leb_spec (last_blank (str_take (Z.to_nat limit) t)) 0); lia.
Qed.

Lemma split_loop_spec fuel preserve limit t : 1 <= limit -> (String.length t <= fuel)%nat ->
  str (split_loop fuel preserve limit t) = t /\ Forall (fun p => js_str_length p <= limit) (split_loop fuel preserve limit t).
Proof.
  intros Hl. revert t. induction fuel as [|fuel IH]; intros t Hf; cbn [split_loop].
  - destruct t; cbn in Hf; [|lia]. destruct (Z.leb_spec (js_str_length "") limit); [done|]. unfold js_str_length in *. cbn in *. lia.
  - destruct (Z.leb_spec (js_str_length t) limit) as [Hs|Hs].
    { destruct t; [done|]. cbn [truthy_str]. split; [apply str_app_nil_r|by repeat constructor]. }
    pose proof (break_at_range preserve limit t ltac:(lia)) as Hb. set (i := break_at preserve limit t) in *. clearbody i.
    assert (Hi : (Z.to_nat i <= String.length t)%nat) by (unfold js_str_length in Hs; lia).
    destruct (IH (str_drop (Z.to_nat i) t)) as [H1 H2]; [rewrite length_drop_str by done; lia|].
    split; [|constructor; [unfold js_str_length; rewrite length_take_str by done; lia|done]].
    change (str_take (Z.to_nat i) t +:+ str (split_loop fuel preserve limit (str_drop (Z.to_nat i) t)) = t).
    rewrite H1. by apply take_drop_str.
Qed.

(** The pieces of a line are the line, and short enough. *)
Lemma splitLongLine_spec line limit preserve :
  str (splitLongLine line limit preserve) = line /\
  Forall (fun p => js_str_length p <= Z.max 1 limit) (splitLongLine line limit preserve).
Proof.
  unfold splitLongLine. destruct (Z.leb_spec (js_str_length line) (Z.max 1 limit)).
  - split; [apply str_app_nil_r|by repeat constructor].
  - apply split_loop_spec; lia.
Qed.

(** *** Fences *)

Lemma fence_groups line m : exec FENCE_RE line = Some m -> exists u v w, group 1 m = Some u /\ group 2 m = Some v /\
  exists before after, line = before +:+ u +:+ v +:+ w +:+ after.
Proof.
  intros E. pose proof (exec_split _ _ _ E) as Hs. unfold exec in E. apply exec_from_matches in E as (p & s' & Hm & Hr & Hc).
  unfold FENCE_RE, re_seqs in Hm. cbn [foldr] in Hm.
  apply matches_seq in Hm as (s1 & H1 & Hm). apply matches_assert in H1 as [-> _].
  apply matches_seq in Hm as (s2 & H2 & Hm). apply matches_group in H2 as (t2 & u & M2 & R2 & _ & C2).
  apply matches_seq in Hm as (s3 & H3 & Hm). apply matches_group in H3 as (t3 & v & M3 & R3 & _ & C3).
  apply matches_seq in Hm as (s4 & H4 & Hm). apply matches_group in H4 as (t4 & w & M4 & R4 & _ & C4).
  apply matches_seq in Hm as (s5 & H5 & Hm). apply matches_assert in H5 as [-> _]. assert (s' = s4) as -> by (by inversion Hm).
  apply matches_caps in M2 as K2; [|reflexivity]. apply matches_caps in M3 as K3; [|reflexivity]. apply matches_caps in M4 as K4; [|reflexivity].
  exists u, v, w. unfold group. rewrite <- Hc, C4, K4, C3, K3, C2. split_and!; [done|done|].
  exists (mr_before m), (mr_after m). rewrite Hs at 1. f_equal. cbn [ms_rest] in R2. by rewrite <- Hr, <- R4, <- R3, <- R2, Hr.
Qed.

Lemma str_repeat_length x n : js_str_length (repeat_str (String x "") n) = Z.of_nat n.
Proof.
  induction n as [|n IH]; [done|]. change (repeat_str (String x "") (S n)) with (String x "" +:+ repeat_str (String x "") n).
  rewrite js_str_length_app, IH. change (js_str_length (String x "")) with 1. lia.
Qed.
Lemma newlines_repeat x n : Ascii.eqb x nl = false -> newlines (repeat_str (String x "") n) = 0.
Proof.
  intros H. induction n as [|n IH]; [done|]. change (repeat_str (String x "") (S n)) with (String x "" +:+ repeat_str (String x "") n).
  rewrite newlines_app, IH. cbn. by rewrite H.
Qed.

(** The line that closes a fence is no longer than the one that opened it. *)
Lemma parseFenceLine_spec line f : parseFenceLine line = Some f -> free_of nl line = true ->
  fe_openLine f = line /\ truthy_str line = true /\ js_str_length (closeFenceLine f) <= js_str_length line /\ newlines (closeFenceLine f) = 0.
Proof.
  unfold parseFenceLine. destruct (exec FENCE_RE line) as [m|] eqn:E; [|done]. intros [= <-] Hf.
  pose proof E as (u & v & w & -> & -> & before & after & Hl)%fence_groups. cbn [default from_option id fe_openLine].
  unfold closeFenceLine. cbn [fe_indent fe_markerChar fe_markerLen]. rewrite js_str_length_app, newlines_app.
  rewrite newlines_free, Hl in Hf. rewrite !newlines_app in Hf.
  pose proof (newlines_pos before); pose proof (newlines_pos u); pose proof (newlines_pos v); pose proof (newlines_pos w); pose proof (newlines_pos after).
  split; [done|]. split.
  { destruct line; [vm_compute in E; discriminate|done]. }
  assert (Hv : exists x, match v with String c _ => String c "" | "" => "`" end = String x "" /\ Ascii.eqb x nl = false).
  { destruct v as [|x v]; [by exists "`"%char|]. exists x. split; [done|]. cbn [newlines] in *. pose proof (newlines_pos v). destruct (Ascii.eqb x nl); [lia|done]. }
  destruct Hv as (x & -> & Hx). rewrite str_repeat_length, newlines_repeat by done. split; [|lia].
  rewrite Hl, !js_str_length_app. change (Z.of_nat (String.length v)) with (js_str_length v).
  pose proof (js_str_length_pos before); pose proof (js_str_length_pos w); pose proof (js_str_length_pos after). lia.
Qed.

(** *** Every chunk fits *)

Lemma Forall_imap_pair {A} (Q : A -> Prop) (l : list A) : Forall Q l -> Forall (fun ix : nat * A => Q ix.2) (imap pair l).
Proof. intros H. apply Forall_lookup. intros i ix Hx. rewrite list_lookup_imap in Hx. apply fmap_Some in Hx as (y & Hy & ->). by eapply Forall_lookup in H. Qed.

Section fit.
Variables (maxC maxL room : Z).
Hypotheses (HmaxC : 1 <= maxC) (HmaxL : 1 <= maxL) (Hroom : 0 <= room).

(** Without fences a chunk keeps to both limits; a fence may cost a reopened line and its
    end. *)
Definition line_bound : Z := if room =? 0 then maxL else Z.max 2 maxL.
Definition chunk_fits (c : string) : Prop :=
  js_str_length c <= maxC + 2 * room /\ countLines c <= line_bound + (if room =? 0 then 0 else 1) /\ truthy_str c = true.

Definition fence_fits (f : OpenFence) : Prop :=
  js_str_length (fe_openLine f) + 1 <= room /\ js_str_length (closeFenceLine f) + 1 <= room /\
  newlines (closeFenceLine f) = 0 /\ newlines (fe_openLine f) = 0 /\ truthy_str (fe_openLine f) = true.

Record chunks_ok s : Prop := {
  ok_current : js_str_length (ck_current s) <= maxC + room;
  ok_fence : forall f, ck_fence s = Some f -> fence_fits f;
  ok_newlines : truthy_str (ck_current s) = true -> newlines (ck_current s) + 1 = ck_lines s;
  ok_lines : ck_lines s <= line_bound;
  ok_chunks : Forall chunk_fits (ck_chunks s)
}.

Lemma payload_fits text fence : (forall f, fence = Some f -> fence_fits f) -> truthy_str text = true ->
  js_str_length text <= maxC + room -> newlines text + 1 <= line_bound -> chunk_fits (closeFenceIfNeeded text fence).
Proof.
  intros Hf Ht H1 H2. unfold closeFenceIfNeeded, chunk_fits. destruct fence as [f|].
  - destruct (Hf f eq_refl) as (F1 & F2 & F3 & _ & _). rewrite Ht. cbn [negb].
    assert (Hp : (room =? 0) = false) by (apply Z.eqb_neq; pose proof (js_str_length_pos (closeFenceLine f)); lia).
    rewrite Hp. rewrite countLines_spec.
    destruct (js_endsWith text newline); cbn [negb]; rewrite !js_str_length_app, truthy_app, Ht, !newlines_app, F3; cbn [orb];
      change (js_str_length newline) with 1; change (newlines newline) with 1; split_and!; (done || lia).
  - rewrite countLines_spec, Ht. split; [lia|]. split; [destruct (room =? 0); lia|done].
Qed.

Lemma push_fits s : chunks_ok s -> truthy_str (ck_current s) = true ->
  Forall chunk_fits (push_payload (ck_current s) (ck_fence s) (ck_chunks s)).
Proof.
  intros [H1 H2 H3 H4 H5] Ht. unfold push_payload. destruct (truthy_str (js_trim _)); [|done].
  apply Forall_app. split; [done|]. constructor; [|constructor]. apply payload_fits; try done. rewrite H3; done.
Qed.

Definition reopened (fence : option OpenFence) : string := match fence with Some f => fe_openLine f | None => "" end.

Lemma flush_ok s : chunks_ok s -> truthy_str (ck_current s) = true ->
  chunks_ok (flush s) /\ ck_fence (flush s) = ck_fence s /\ ck_current (flush s) = reopened (ck_fence s) /\
  ck_lines (flush s) = (if truthy_str (reopened (ck_fence s)) then 1 else 0).
Proof.
  intros Hok Ht. pose proof (push_fits s Hok Ht) as Hp. destruct Hok as [H1 H2 H3 H4 H5]. unfold flush. rewrite Ht. cbn [negb].
  destruct s as [chunks current lines fence]. cbn in *. destruct fence as [f|]; cbn.
  - destruct (H2 f eq_refl) as (F1 & F2 & F3 & F4 & F5). cbn. rewrite F5. split; [|done].
    constructor; cbn; try done; [lia|lia|]. unfold line_bound. destruct (room =? 0); lia.
  - split; [|done]. constructor; cbn; try done; [change (js_str_length "") with 0; lia|]. unfold line_bound. destruct (room =? 0); lia.
Qed.

Lemma add_segment_ok charLimit lineLimit s ix : charLimit <= maxC -> lineLimit <= maxL ->
  chunks_ok s -> js_str_length ix.2 <= maxC /\ newlines ix.2 = 0 -> chunks_ok (add_segment charLimit lineLimit s ix).
Proof.
  intros Hc Hl Hok. destruct ix as [i seg]. cbn [snd]. intros [Hs Hn]. unfold add_segment. cbv zeta.
  set (cont := (0 <? i)%nat). clearbody cont. set (delimiter := if cont then "" else _).
  assert (Hd : js_str_length delimiter = newlines delimiter /\ newlines delimiter <= 1 /\ (cont = true -> delimiter = "") /\
               (cont = false -> truthy_str (ck_current s) = true -> newlines delimiter = 1)).
  { unfold delimiter. destruct cont; [by split_and!|]. by destruct (truthy_str (ck_current s)). }
  clearbody delimiter. destruct Hd as (D1 & D2 & D3 & D4). rewrite js_str_length_app.
  assert (Hfresh : forall s', chunks_ok s' -> chunks_ok (s' <| ck_current := seg |> <| ck_lines := 1 |>)).
  { intros s' [H1 H2 H3 H4 H5]. constructor; cbn; try done; [lia|lia|]. unfold line_bound. destruct (room =? 0); lia. }
  destruct (truthy_str (ck_current s)) eqn:Et.
  2: { rewrite andb_false_r, Et. by apply Hfresh. }
  rewrite andb_true_r. destruct ((charLimit <? _) || (lineLimit <? _)) eqn:Ee.
  - destruct (flush_ok s Hok Et) as (Hok' & Hf & Hcur & Hlines). destruct (truthy_str (ck_current (flush s))) eqn:Et'; [|by apply Hfresh].
    rewrite Hcur in Et'. destruct (ck_fence s) as [f|] eqn:Efs; [|done]. cbn [reopened] in *. rewrite Et' in Hlines.
    destruct (ok_fence s Hok f Efs) as (F1 & F2 & F3 & F4 & F5). destruct Hok' as [H1 H2 H3 H4 H5].
    assert (room =? 0 = false) as Hr by (apply Z.eqb_neq; pose proof (js_str_length_pos (fe_openLine f)); lia).
    constructor; cbn; rewrite ?Hcur, ?Hlines; try done.
    + rewrite !js_str_length_app. lia.
    + intros _. rewrite !newlines_app, F4, Hn. destruct cont; [rewrite D3 by done; cbn; lia|rewrite D4 by done; lia].
    + unfold line_bound. rewrite Hr. destruct cont; lia.
  - apply orb_false_iff in Ee as [E1%Z.ltb_ge E2%Z.ltb_ge]. rewrite Et. destruct Hok as [H1 H2 H3 H4 H5].
    constructor; cbn; try done.
    + rewrite !js_str_length_app. lia.
    + intros _. rewrite !newlines_app, Hn. specialize (H3 Et). destruct cont; [rewrite D3 by done; cbn; lia|rewrite D4 by done; lia].
    + unfold line_bound in *. destruct cont; [lia|]. destruct (room =? 0); lia.
Qed.

Lemma chunk_line_ok s line : chunks_ok s -> free_of nl line = true /\ (forall f, parseFenceLine line = Some f -> js_str_length line + 1 <= room) ->
  chunks_ok (chunk_line maxC maxL s line).
Proof.
  intros Hok [Hfree Hfence]. unfold chunk_line. set (next := next_fence line (ck_fence s)).
  assert (Hnext : forall f, next = Some f -> fence_fits f).
  { intros f. unfold next, next_fence. destruct (parseFenceLine line) as [info|] eqn:Ep; [|apply (ok_fence s Hok)].
    assert (fence_fits info) as Hi.
    { destruct (parseFenceLine_spec line info Ep Hfree) as (P1 & P2 & P3 & P4). specialize (Hfence info eq_refl). rewrite newlines_free in Hfree.
      unfold fence_fits. rewrite P1. split_and!; try done; lia. }
    destruct (ck_fence s) as [g|] eqn:Eg; [|by intros [= <-]]. destruct (String.eqb _ _ && _); [done|]. intros [= <-]. by apply (ok_fence s Hok). }
  clearbody next. set (limit := Z.max 1 _).
  assert (Hlim : char_limit maxC next <= maxC).
  { unfold char_limit, reserve_chars. destruct next as [f|]; [pose proof (js_str_length_pos (closeFenceLine f))|];
      match goal with |- context [0 <? ?x] => destruct (Z.ltb_spec 0 x) end; lia. }
  assert (Hll : line_limit maxL next <= maxL).
  { unfold line_limit. destruct next; match goal with |- context [0 <? ?x] => destruct (Z.ltb_spec 0 x) end; lia. }
  destruct (splitLongLine_spec line limit (bool_decide (ck_fence s <> None))) as [S1 S2].
  set (segs := splitLongLine _ _ _) in *. clearbody segs.
  assert (Hsegs : Forall (fun p => js_str_length p <= maxC /\ newlines p = 0) segs).
  { apply Forall_forall. intros p Hp. pose proof (proj1 (Forall_forall _ _) S2 p Hp) as Hlen. cbn in Hlen. split.
    - unfold limit in Hlen. destruct (truthy_str (ck_current s)); [pose proof (js_str_length_pos (ck_current s))|]; lia.
    - rewrite newlines_free, <- S1 in Hfree. apply list_elem_of_split in Hp as (l1 & l2 & ->). rewrite str_app_str in Hfree.
      change (str (p :: l2)) with (p +:+ str l2) in Hfree. rewrite !newlines_app in Hfree.
      pose proof (newlines_pos (str l1)); pose proof (newlines_pos p); pose proof (newlines_pos (str l2)). lia. }
  clear Hfree. assert (Hok' : chunks_ok (foldl (add_segment (char_limit maxC next) (line_limit maxL next)) s (imap pair segs))).
  { eapply foldl_inv; [|by apply Forall_imap_pair|done]. intros t ix Ht Hix. by apply add_segment_ok. }
  destruct Hok' as [H1 H2 H3 H4 H5]. by constructor.
Qed.

Lemma chunk_lines_fit body :
  Forall (fun line => forall f, parseFenceLine line = Some f -> js_str_length line + 1 <= room) (js_split nl body) ->
  Forall chunk_fits (chunk_lines maxC maxL body).
Proof.
  intros Hb. unfold chunk_lines. set (s := foldl _ _ _). assert (Hok : chunks_ok s).
  { apply (foldl_inv chunks_ok _ _ _ _ chunk_line_ok).
    - apply Forall_and. split; [apply split_pieces_free|exact Hb].
    - constructor; cbn; try done; [change (js_str_length "") with 0; lia|]. unfold line_bound. destruct (room =? 0); lia. }
  destruct (truthy_str (ck_current s)) eqn:E; [by apply push_fits|apply Hok].
Qed.
End fit.

Lemma close_italics_fit N L first rest :
  js_str_length first <= N + 1 /\ countLines first <= L /\ truthy_str first = true ->
  Forall (fun c => js_str_length c <= N /\ countLines c <= L /\ truthy_str c = true) rest ->
  Forall (fun c => js_str_length c <= N + 2 /\ countLines c <= L /\ truthy_str c = true) (close_italics first rest).
Proof.
  assert (Hclose : forall c, js_str_length c <= N + 1 /\ countLines c <= L /\ truthy_str c = true ->
    let c' := if negb (js_endsWith (js_trimEnd c) "_") then c +:+ "_" else c in js_str_length c' <= N + 2 /\ countLines c' <= L /\ truthy_str c' = true).
  { intros c (H1 & H2 & H3). rewrite countLines_spec, H3 in H2. cbv zeta. destruct (js_endsWith _ _); cbn [negb].
    - rewrite countLines_spec, H3. split_and!; (done || lia).
    - rewrite countLines_spec, js_str_length_app, truthy_app, newlines_app, H3. cbn [orb]. change (js_str_length "_") with 1. change (newlines "_") with 0.
      split_and!; (done || lia). }
  revert first. induction rest as [|next rest IH]; intros first Hf Hr; cbn [close_italics]; constructor; try (by apply Hclose); [constructor|].
  apply Forall_cons in Hr as [(H1 & H2 & H3) Hr]. apply IH; [|done]. destruct (js_startsWith _ _); cbn [negb]; [split_and!; (done || lia)|].
  set (n := (_ - _)%nat). assert (Hn : (n <= String.length next)%nat) by lia. clearbody n.
  pose proof (take_drop_str n next Hn) as E. rewrite countLines_spec, H3 in H2. rewrite countLines_spec, !js_str_length_app, !truthy_app, !newlines_app, orb_true_r.
  rewrite <- E, js_str_length_app in H1. rewrite <- E, newlines_app in H2. change (js_str_length "_") with 1. change (newlines "_") with 0.
  split_and!; (done || lia).
Qed.

(** What a fence of the text may add to a chunk at either end; 0 for a text without
    fences. *)
Definition fence_room (text : string) : Z :=
  foldr (fun line n => Z.max n (match parseFenceLine line with Some _ => js_str_length line + 1 | None => 0 end)) 0 (js_split nl text).

Lemma fence_room_spec l : let n := foldr (fun line n => Z.max n (match parseFenceLine line with Some _ => js_str_length line + 1 | None => 0 end)) 0 l in
  0 <= n /\ Forall (fun line => forall f, parseFenceLine line = Some f -> js_str_length line + 1 <= n) l.
Proof.
  induction l as [|line l [H1 H2]]; [done|]. cbn. split; [destruct (parseFenceLine line); lia|]. constructor.
  - intros f ->. lia.
  - eapply Forall_impl; [exact H2|]. cbn. intros x Hx f Hf. specialize (Hx f Hf). lia.
Qed.

(** C39: every chunk of a text without fences and reasoning keeps to the limit of characters and
    to that of lines; italics add two characters, a fence the line that opens it, the one
    that closes it, and at most one line to the limit or three lines in all.  No chunk is
    empty. *)
Theorem discord_chunks_fit text maxChars maxLines :
  let maxC := Z.max 1 (default DEFAULT_MAX_CHARS maxChars) in let maxL := Z.max 1 (default DEFAULT_MAX_LINES maxLines) in
  let room := fence_room text in
  Forall (fun c => js_str_length c <= maxC + 2 * room + (if opensWithReasoningItalics text then 2 else 0) /\
      countLines c <= (if room =? 0 then maxL else Z.max 3 (maxL + 1)) /\ truthy_str c = true)
    (chunkDiscordText text maxChars maxLines).
Proof.
  cbv zeta. unfold chunkDiscordText. set (maxC := Z.max 1 _). set (maxL := Z.max 1 _).
  destruct (fence_room_spec (js_split nl text)) as [R1 R2]. fold (fence_room text) in R1, R2. set (room := fence_room text) in *. clearbody room.
  destruct (truthy_str text) eqn:Et; cbn [negb]; [|constructor]. destruct (_ && _) eqn:Eok.
  { apply andb_true_iff in Eok as [E1%Z.leb_le E2%Z.leb_le]. repeat constructor; [|destruct (room =? 0); lia|done]. destruct (opensWithReasoningItalics text); lia. }
  assert (Hb : line_bound maxL room + (if room =? 0 then 0 else 1) = (if room =? 0 then maxL else Z.max 3 (maxL + 1))) by (unfold line_bound; destruct (room =? 0); lia).
  pose proof (chunk_lines_fit maxC maxL room ltac:(lia) ltac:(lia) R1 text R2) as Hfit. set (chunks := chunk_lines _ _ _) in *. clearbody chunks.
  unfold chunk_fits in Hfit. rewrite Hb in Hfit. clear Hb. unfold rebalanceReasoningItalics.
  assert (Hplain : Forall (fun c => js_str_length c <= maxC + 2 * room + (if opensWithReasoningItalics text then 2 else 0) /\
      countLines c <= (if room =? 0 then maxL else Z.max 3 (maxL + 1)) /\ truthy_str c = true) chunks).
  { eapply Forall_impl; [exact Hfit|]. cbn. intros c (H1 & H2 & H3). split_and!; try done. destruct (opensWithReasoningItalics text); lia. }
  destruct chunks as [|first [|next rest]]; [done..|]. destruct (opensWithReasoningItalics text); cbn [negb]; [|done].
  apply Forall_cons in Hfit as [(H1 & H2 & H3) Hfit]. apply close_italics_fit; [|exact Hfit]. split_and!; (done || lia).
Qed.

(** *** Nothing but blanks is lost *)

Lemma ink_split t : ink (str (js_split nl t)) = ink t.
Proof.
  induction t as [|c t IH]; [done|]. cbn [js_split]. destruct (Ascii.eqb_spec c nl) as [->|Hc].
  - change (str ("" :: js_split nl t)) with (str (js_split nl t)). cbn [ink]. exact IH.
  - destruct (js_split nl t) as [|x l]; [change (ink (String c "") = ink (String c t)); cbn [ink]; by rewrite <- IH|]. change (str (String c x :: l)) with (String c (str (x :: l))).
    cbn [ink]. by rewrite IH.
Qed.

Definition held s : string := ink (str (ck_chunks s)) +:+ ink (ck_current s).

Lemma ink_push text chunks : ink (str (push_payload text None chunks)) = ink (str chunks) +:+ ink text.
Proof.
  unfold push_payload. cbn [closeFenceIfNeeded]. destruct (truthy_str (js_trim text)) eqn:E.
  - rewrite str_app_str, ink_app. do 2 f_equal. apply str_app_nil_r.
  - apply truthy_str_false in E. rewrite <- (ink_trim text), E. by rewrite str_app_nil_r.
Qed.

Lemma held_flush s : ck_fence s = None -> held (flush s) = held s.
Proof.
  intros Hf. unfold flush, held. destruct (truthy_str (ck_current s)); cbn [negb]; [|done].
  destruct s as [chunks current lines fence]. cbn in *. subst fence. cbn. by rewrite ink_push, str_app_nil_r.
Qed.

Lemma held_add charLimit lineLimit s ix : ck_fence s = None ->
  held (add_segment charLimit lineLimit s ix) = held s +:+ ink ix.2 /\ ck_fence (add_segment charLimit lineLimit s ix) = None.
Proof.
  intros Hf. destruct ix as [i seg]. unfold add_segment. cbv zeta. cbn [snd]. set (cont := (0 <? i)%nat). clearbody cont.
  set (delimiter := if cont then "" else _). assert (Hd : ink delimiter = "") by (unfold delimiter; destruct cont; [done|by destruct (truthy_str (ck_current s))]). clearbody delimiter.
  set (s1 := if _ && _ then flush s else s). assert (H1 : held s1 = held s /\ ck_fence s1 = None).
  { unfold s1. destruct (_ && _); [|done]. split; [by apply held_flush|]. unfold flush.
    destruct (truthy_str (ck_current s)); cbn [negb]; [|done]. destruct s; cbn in *; by subst. }
  destruct H1 as [<- H2]. clearbody s1. destruct (truthy_str (ck_current s1)) eqn:E; unfold held; cbn.
  - by rewrite !ink_app, Hd, !str_app_assoc.
  - apply truthy_str_false in E. rewrite E. by rewrite str_app_nil_r.
Qed.

Lemma held_line maxC maxL s line : ck_fence s = None -> parseFenceLine line = None ->
  held (chunk_line maxC maxL s line) = held s +:+ ink line /\ ck_fence (chunk_line maxC maxL s line) = None.
Proof.
  intros Hf Hp. unfold chunk_line, next_fence. rewrite Hp, Hf. set (limit := Z.max 1 _). clearbody limit.
  set (keep := bool_decide _). clearbody keep. destruct (splitLongLine_spec line limit keep) as [S1 _].
  set (segs := splitLongLine _ _ _) in *. clearbody segs. cbn [ck_fence]. split; [|done]. rewrite <- S1. clear S1 Hp line limit. generalize (char_limit maxC None) (line_limit maxL None).
  intros cl ll. change (imap pair segs) with (imap (fun i (x : string) => (id i, x)) segs). generalize (@id nat) as g.
  revert s Hf. induction segs as [|seg segs IH]; intros s Hf g; [by rewrite str_app_nil_r|].
  cbn [imap foldl]. destruct (held_add cl ll s (g 0%nat, seg) Hf) as [H1 H2].
  change (str (seg :: segs)) with (seg +:+ str segs). rewrite ink_app, <- str_app_assoc. cbn [snd] in H1. rewrite <- H1.
  exact (IH _ H2 (fun i => g (S i))).
Qed.

Theorem discord_chunks_keep_text text maxChars maxLines :
  fence_room text = 0 -> opensWithReasoningItalics text = false ->
  ink (str (chunkDiscordText text maxChars maxLines)) = ink text.
Proof.
  intros Hr Ho. unfold chunkDiscordText. destruct (truthy_str text) eqn:Et; cbn [negb]; [|by apply truthy_str_false in Et as ->].
  destruct (_ && _); [by rewrite (str_app_nil_r text : str [text] = text)|].
  assert (rebalanceReasoningItalics text (chunk_lines (Z.max 1 (default DEFAULT_MAX_CHARS maxChars)) (Z.max 1 (default DEFAULT_MAX_LINES maxLines)) text) =
    chunk_lines (Z.max 1 (default DEFAULT_MAX_CHARS maxChars)) (Z.max 1 (default DEFAULT_MAX_LINES maxLines)) text) as ->.
  { unfold rebalanceReasoningItalics. rewrite Ho. by destruct (chunk_lines _ _ _) as [|? [|]]. }
  generalize (Z.max 1 (default DEFAULT_MAX_CHARS maxChars)) (Z.max 1 (default DEFAULT_MAX_LINES maxLines)). intros maxC maxL.
  destruct (fence_room_spec (js_split nl text)) as [_ Hf]. fold (fence_room text) in Hf. rewrite Hr in Hf.
  assert (Hn : Forall (fun line => parseFenceLine line = None) (js_split nl text)).
  { eapply Forall_impl; [exact Hf|]. cbn. intros line Hl. destruct (parseFenceLine line) as [f|]; [|done].
    specialize (Hl f eq_refl). pose proof (js_str_length_pos line). lia. }
  unfold chunk_lines. set (s0 := mkChunkState [] "" 0 None). rewrite <- (ink_split text).
  assert (Hs : held (foldl (chunk_line maxC maxL) s0 (js_split nl text)) = held s0 +:+ ink (str (js_split nl text)) /\
               ck_fence (foldl (chunk_line maxC maxL) s0 (js_split nl text)) = None).
  { assert (H0 : ck_fence s0 = None) by done. revert H0. clear Hf. generalize s0. induction Hn as [|line l Hl _ IH]; intros s Hs; [by rewrite str_app_nil_r|].
    cbn [foldl]. destruct (held_line maxC maxL s line Hs Hl) as [H1 H2]. destruct (IH _ H2) as [H3 H4]. split; [|done].
    rewrite H3, H1, str_app_assoc. f_equal. change (str (line :: l)) with (line +:+ str l). by rewrite ink_app. }
  destruct Hs as [H1 H2]. set (s := foldl _ _ _) in *. clearbody s. change (held s0) with "" in H1. rewrite str_app_nil in H1.
  rewrite <- H1. destruct (truthy_str (ck_current s)) eqn:E.
  - rewrite H2. by rewrite ink_push.
  - apply truthy_str_false in E. unfold held. rewrite E. by rewrite str_app_nil_r.
Qed.

Definition code (n : nat) (c : string) : string := repeat_str c n.

Lemma discord_chunks_keep_text_witness :
  let text := "alpha  beta gamma   delta epsilon  zeta" in
  fence_room text = 0 /\ length (chunkDiscordText text (Some 12) (Some 50)) = 5%nat /\
  ink (str (chunkDiscordText text (Some 12) (Some 50))) = ink text.
Proof. cbn zeta. split; [reflexivity|]. split; [reflexivity|]. apply (discord_chunks_keep_text _ (Some 12) (Some 50)); reflexivity. Defined.

(** A line of code that is divided goes on behind the info string of the fence that is
    opened again, where it is not shown. *)
Example continuation_on_the_fence :
  chunkDiscordText (str ["```txt"; newline; code 60 "a"; newline; "```"]) (Some 50) (Some 50) =
  [str ["```txt"; newline; code 39 "a"; newline; "```"]; str ["```txt"; code 21 "a"; newline; "```"]].
Proof. vm_compute. reflexivity. Qed.

(** A fence that opens where the chunk is nearly full is divided itself: the chunk ends in an
    open code block, and the next shows the rest of the info string as text. *)
Example fence_is_divided :
  chunkDiscordText (str [code 13 "0"; newline; "```python title"; newline; "x = 1"; newline; "```"]) (Some 24) (Some 50) =
  [str [code 13 "0"; newline; "```pyt"]; str ["hon title"; newline; "x = 1"; newline; "```"]].
Proof. vm_compute. reflexivity. Qed.

(** The italics are added after the division, so a chunk of a reasoning text may be longer
    than the limit. *)
Example italics_exceed_the_limit :
  js_str_length <$> chunkDiscordText (str ["Reasoning:"; newline; "_"; code 60 "a"; "_"]) (Some 30) None = [31; 21; 25].
Proof. vm_compute. reflexivity. Qed.

(** With the line ends of Windows the dot of the pattern stops before the carriage return:
    no fence is seen, and the code is divided without closing it. *)
Example carriage_return_hides_fence : parseFenceLine (str ["```js"; String (ascii_of_nat 13) ""]) = None.
Proof. vm_compute. reflexivity. Qed.

(** ** Targets *)
Module Targets.

Inductive TargetKind := kind_user | kind_channel.
#[export] Instance TargetKind_eq_dec : EqDecision TargetKind.
Proof. solve_decision. Defined.

Definition re_mention : regex :=
  re_seqs [re_start; re_lit "<@"; re_opt (re_lit "!"); re_group 1 (re_plus (re_chr is_digit_char)); re_lit ">"; re_end].
Definition re_digits : regex := re_seqs [re_start; re_plus (re_chr is_digit_char); re_end].
(** The pattern of [isLikelyUsername]: its last alternative is not bound to the start. *)
Definition re_known_format : regex :=
  re_alt (re_seq re_start (re_alts (re_lit "user:") [re_lit "channel:"; re_lit "discord:"; re_lit "@"; re_seq (re_lit "<@") (re_opt (re_lit "!"))]))
         (re_seq (re_plus (re_chr is_digit_char)) re_end).

Record Entry := mkEntry { en_kind : string; en_id : string }.

(** The targets, their constructor and the check of an id are of a module outside.  A
    failure is the message of its exception. *)
Section targets.
Context {T : Type} (target_kind : T -> TargetKind) (buildMessagingTarget : TargetKind -> string -> string -> T)
        (ensureTargetId : string -> regex -> string -> string + string).

Definition after_prefix (trimmed p : string) (k : TargetKind) : option T :=
  let id := js_trim (js_slice_str_from trimmed (js_str_length p)) in
  if truthy_str id then Some (buildMessagingTarget k id trimmed) else None.

Definition ambiguous (trimmed : string) : string :=
  "Ambiguous Discord recipient " +:+ String (ascii_of_nat 34) trimmed +:+ String (ascii_of_nat 34) (". Use " +:+
  String (ascii_of_nat 34) ("user:" +:+ trimmed) +:+ String (ascii_of_nat 34) (" for DMs or " +:+
  String (ascii_of_nat 34) ("channel:" +:+ trimmed) +:+ String (ascii_of_nat 34) " for channel messages.")).

Definition parseDiscordTarget (raw : string) (defaultKind : option TargetKind) (ambiguousMessage : option string) : string + option T :=
  let trimmed := js_trim raw in
  if negb (truthy_str trimmed) then inr None else
  match exec re_mention trimmed with
  | Some m => inr (Some (buildMessagingTarget kind_user (default "" (group 1 m)) trimmed))
  | None =>
      if js_startsWith trimmed "user:" then inr (after_prefix trimmed "user:" kind_user)
      else if js_startsWith trimmed "channel:" then inr (after_prefix trimmed "channel:" kind_channel)
      else if js_startsWith trimmed "discord:" then inr (after_prefix trimmed "discord:" kind_user)
      else if js_startsWith trimmed "@" then
        match ensureTargetId (js_trim (js_slice_str_from trimmed 1)) re_digits "Discord DMs require a user id (use user:<id> or a <@id> mention)" with
        | inl e => inl e
        | inr id => inr (Some (buildMessagingTarget kind_user id trimmed))
        end
      else if test re_digits trimmed then
        match defaultKind with
        | Some k => inr (Some (buildMessagingTarget k trimmed trimmed))
        | None => inl (default (ambiguous trimmed) ambiguousMessage)
        end
      else inr (Some (buildMessagingTarget kind_channel trimmed trimmed))
  end.

Definition safeParseDiscordTarget (input : string) defaultKind ambiguousMessage : option T :=
  match parseDiscordTarget input defaultKind ambiguousMessage with inl _ => None | inr t => t end.

Definition isExplicitUserLookup (input : string) (defaultKind : option TargetKind) : bool :=
  if test re_mention input then true
  else if test (re_seq re_start (re_alt (re_lit "user:") (re_lit "discord:"))) input then true
  else if js_startsWith input "@" then true
  else if test re_digits input then bool_decide (defaultKind = Some kind_user)
  else false.

Definition isLikelyUsername (input : string) : bool := if test re_known_format input then false else true.

(** [directory] is what the lookup answers, or nothing when it throws. *)
Definition resolveDiscordTarget (raw : string) (directory : string -> option (list Entry)) defaultKind ambiguousMessage : string + option T :=
  let trimmed := js_trim raw in
  if negb (truthy_str trimmed) then inr None else
  let likelyUsername := isLikelyUsername trimmed in
  let shouldLookup := isExplicitUserLookup trimmed defaultKind || likelyUsername in
  let directParse := safeParseDiscordTarget trimmed defaultKind ambiguousMessage in
  let again := parseDiscordTarget trimmed defaultKind ambiguousMessage in
  match (match directParse with Some t => if bool_decide (target_kind t <> kind_channel) && negb likelyUsername then Some t else None | None => None end) with
  | Some t => inr (Some t)
  | None =>
      if negb shouldLookup then match directParse with Some t => inr (Some t) | None => again end
      else match directory trimmed with
           | Some (e :: _) =>
               if String.eqb (en_kind e) "user"
               then inr (Some (buildMessagingTarget kind_user (replace_first (re_seq re_start (re_lit "user:")) (fun _ => "") (en_id e)) trimmed))
               else again
           | _ => again
           end
  end.

(** The directory is asked only for names and for a user that no id was given of: a target
    that is parsed as a user, and every one that ends in a digit and names no user, is what
    the parser says. *)
Theorem directory_only_for_names raw directory defaultKind ambiguousMessage :
  isLikelyUsername (js_trim raw) = false ->
  (isExplicitUserLookup (js_trim raw) defaultKind = false \/
   exists t, parseDiscordTarget raw defaultKind ambiguousMessage = inr (Some t) /\ target_kind t <> kind_channel) ->
  resolveDiscordTarget raw directory defaultKind ambiguousMessage = parseDiscordTarget raw defaultKind ambiguousMessage.
Proof.
  intros Hl H. assert (Ht : parseDiscordTarget raw defaultKind ambiguousMessage = parseDiscordTarget (js_trim raw) defaultKind ambiguousMessage).
  { unfold parseDiscordTarget. by rewrite trim_idem. }
  rewrite Ht in *. unfold resolveDiscordTarget, safeParseDiscordTarget. destruct (truthy_str (js_trim raw)) eqn:E; cbn [negb].
  2: { unfold parseDiscordTarget. rewrite trim_idem, E. done. }
  rewrite Hl, orb_false_r. destruct H as [Hx|(t & Hp & Hk)].
  - rewrite Hx. cbn [negb]. destruct (parseDiscordTarget (js_trim raw) defaultKind ambiguousMessage) as [e|[t|]]; [done| |done]. by destruct (_ && _).
  - rewrite Hp. rewrite bool_decide_true by done. done.
Qed.
End targets.

Definition named (k : TargetKind) (id raw : string) : TargetKind * string := (k, id).
Definition digits_only (candidate : string) (p : regex) (message : string) : string + string :=
  if test p candidate then inr candidate else inl message.

Lemma directory_only_for_names_witness :
  resolveDiscordTarget fst named digits_only " <@!42> " (fun _ => Some [mkEntry "user" "user:7"]) None None = inr (Some (kind_user, "42")).
Proof.
  rewrite (directory_only_for_names fst named digits_only " <@!42> "); [reflexivity|reflexivity|].
  right. exists (kind_user, "42"). split; [reflexivity|discriminate].
Defined.

(** A name that ends in a digit is taken for a channel and never looked up. *)
Example trailing_digit_is_no_name :
  resolveDiscordTarget fst named digits_only "john" (fun _ => Some [mkEntry "user" "user:7"]) None None = inr (Some (kind_user, "7")) /\
  resolveDiscordTarget fst named digits_only "john1" (fun _ => Some [mkEntry "user" "user:7"]) None None = inr (Some (kind_channel, "john1")).
Proof. vm_compute. auto. Qed.
End Targets.
