(* ===== verification/GatewayHandshake.v ===== *)
(** * Connections of the gateway and their handshake

    openclaw/gateway/server/ws-connection/message-handler.ts: the first request of a
    connection and everything it has to pass before the connection is a client;
    openclaw/gateway/device-auth.ts: the text a device signs; server/close-reason.ts: the
    reason of a close; server/health-state.ts: the versions and the cached health;
    server/ws-connection.ts: the connection with its timer, its client and its end.
    Schemas, signatures, the store of paired devices and the tests of the kind of a client
    are of other modules: the schemas' verdict is part of a frame, the rest are parameters
    and the interface [DevicePairing]. *)

From S2P Require Import Prelude JsMap JsString JsNumber Json GatewayNet GatewayAuth GatewayMethods GatewayNodes.
From Stdlib Require Import Ascii.

(** ** Data *)

Definition PROTOCOL_VERSION : Z := 3.
Definition CONTROL_UI : string := "openclaw-control-ui".

Inductive ErrorCode := NOT_LINKED | NOT_PAIRED | AGENT_TIMEOUT | INVALID_REQUEST | UNAVAILABLE.

(** [details] is the one member of the details the handshake gives: the expected protocol
    or the id of a request of pairing. *)
Inductive Details := expected_protocol (version : Z) | pairing_request (requestId : string).
Record ErrorShape := mkErrorShape { er_code : ErrorCode; er_message : string; er_details : option Details }.
Definition errorShape (code : ErrorCode) (message : string) : ErrorShape := mkErrorShape code message None.

Record ClientInfo := mkClientInfo {
  ci_id : string; ci_displayName : option string; ci_version : string; ci_platform : string;
  ci_deviceFamily : option string; ci_modelIdentifier : option string; ci_mode : string; ci_instanceId : option string
}.
Record Device := mkDevice {
  dv_id : string; dv_publicKey : string; dv_signature : string; dv_signedAt : Z; dv_nonce : option string
}.
Record ConnectParams := mkConnectParams {
  pm_minProtocol : Z; pm_maxProtocol : Z; pm_client : ClientInfo;
  pm_caps : option (list string); pm_commands : option (list string); pm_permissions : option (jsmap bool);
  pm_pathEnv : option string; pm_role : option string; pm_scopes : option (list string);
  pm_device : option Device; pm_token : option string; pm_password : option string
}.
#[export] Instance ConnectParams_eta : EtaRecord ConnectParams := fun p =>
  mkConnectParams (pm_minProtocol p) (pm_maxProtocol p) (pm_client p) (pm_caps p) (pm_commands p) (pm_permissions p)
    (pm_pathEnv p) (pm_role p) (pm_scopes p) (pm_device p) (pm_token p) (pm_password p).

(** What the registry of nodes reads of the parameters. *)
Definition node_params (p : ConnectParams) : Registry.ConnectParams :=
  Registry.mkConnectParams (dv_id <$> pm_device p) (ci_id (pm_client p)) (ci_displayName (pm_client p)) (ci_platform (pm_client p))
    (ci_version (pm_client p)) None None (ci_deviceFamily (pm_client p)) (ci_modelIdentifier (pm_client p))
    (pm_caps p) (pm_commands p) (pm_permissions p) (pm_pathEnv p).

(** The connection as it was opened, and what the handler reads of the configuration. *)
Record Upgrade := mkUpgrade {
  up_connId : string; up_req : IncomingMessage; up_connectNonce : string; up_auth : ResolvedGatewayAuth;
  up_trustedProxies : list string; up_allowedOrigins : list string;
  up_allowInsecureAuth : bool; up_dangerouslyDisableDeviceAuth : bool;
  up_allowCommands : option (list string); up_denyCommands : option (list string);
  up_methods : list string; up_events : list string; up_canvasHostUrl : option string
}.

(** ** Texts *)

(** *** The text a device signs *)

Record DeviceAuthPayloadParams := mkPayloadParams {
  dp_deviceId : string; dp_clientId : string; dp_clientMode : string; dp_role : string; dp_scopes : list string;
  dp_signedAtMs : Z; dp_token : option string; dp_nonce : option string; dp_version : option string
}.

Definition payload_version (p : DeviceAuthPayloadParams) : string :=
  default (if truthy_opt (dp_nonce p) then "v2" else "v1") (dp_version p).

Definition payload_fields (p : DeviceAuthPayloadParams) : list string :=
  let version := payload_version p in
  [version; dp_deviceId p; dp_clientId p; dp_clientMode p; dp_role p; join_with "," (dp_scopes p);
   js_toString (dp_signedAtMs p); default "" (dp_token p)] ++
  (if String.eqb version "v2" then [default "" (dp_nonce p)] else []).

Definition buildDeviceAuthPayload (p : DeviceAuthPayloadParams) : string := join_with "|" (payload_fields p).

(** *** The reason of a close *)

Definition CLOSE_REASON_MAX_BYTES : Z := 120.

Definition is_lead_byte (c : ascii) : bool := (192 <=? nat_of_ascii c)%nat.
(** The three bytes of the replacement character. *)
Definition replacement_bytes : string := String (ascii_of_nat 239) (String (ascii_of_nat 191) (String (ascii_of_nat 189) "")).

(** The bytes of [buf.subarray(0, n).toString()]: a character that is cut becomes the
    replacement character.  A character of a text here takes one byte or two. *)
Fixpoint decoded_prefix (n : nat) (buf : string) : string :=
  match n, buf with
  | S n, String c t => if is_lead_byte c && (n =? 0)%nat then replacement_bytes else String c (decoded_prefix n t)
  | _, _ => ""
  end.

(** The bytes of the text that is sent as the reason. *)
Definition truncateCloseReason (reason : string) (maxBytes : Z) : string :=
  if negb (truthy_str reason) then "invalid handshake"
  else let buf := utf8_text reason in
       if js_str_length buf <=? maxBytes then buf else decoded_prefix (Z.to_nat maxBytes) buf.

(** *** Refusals of the authorization *)

Inductive AuthProvidedKind := provided_token | provided_password | provided_none.

Section kinds.
(** The tests of utils/message-channel.js on the id and the mode of a client. *)
Context (isGatewayCliClient isWebchatClient : string -> string -> bool).

Definition isWebchatConnect (p : ConnectParams) : bool := isWebchatClient (ci_id (pm_client p)) (ci_mode (pm_client p)).
Definition isControlUi (p : ConnectParams) : bool := String.eqb (ci_id (pm_client p)) CONTROL_UI.

Definition tokenHint (p : ConnectParams) : string :=
  if isGatewayCliClient (ci_id (pm_client p)) (ci_mode (pm_client p)) then "set gateway.remote.token to match gateway.auth.token"
  else if isControlUi p || isWebchatConnect p then "open the dashboard URL and paste the token in Control UI settings"
  else "provide gateway auth token".
Definition passwordHint (p : ConnectParams) : string :=
  if isGatewayCliClient (ci_id (pm_client p)) (ci_mode (pm_client p)) then "set gateway.remote.password to match gateway.auth.password"
  else if isControlUi p || isWebchatConnect p then "enter the password in Control UI settings"
  else "provide gateway auth password".

Definition formatGatewayAuthFailureMessage (authMode : ResolvedGatewayAuthMode) (authProvided : AuthProvidedKind)
    (reason : option string) (p : ConnectParams) : string :=
  let because := fun s => bool_decide (reason = Some s) in
  let missing := fun what hint => "unauthorized: gateway " +:+ what +:+ " missing (" +:+ hint +:+ ")" in
  if because "token_missing" then missing "token" (tokenHint p)
  else if because "token_mismatch" then "unauthorized: gateway token mismatch (" +:+ tokenHint p +:+ ")"
  else if because "token_missing_config" then "unauthorized: gateway token not configured on gateway (set gateway.auth.token)"
  else if because "password_missing" then missing "password" (passwordHint p)
  else if because "password_mismatch" then "unauthorized: gateway password mismatch (" +:+ passwordHint p +:+ ")"
  else if because "password_missing_config" then "unauthorized: gateway password not configured on gateway (set gateway.auth.password)"
  else if because "tailscale_user_missing" then "unauthorized: tailscale identity missing (use Tailscale Serve auth or gateway token/password)"
  else if because "tailscale_proxy_missing" then "unauthorized: tailscale proxy headers missing (use Tailscale Serve or gateway token/password)"
  else if because "tailscale_whois_failed" then "unauthorized: tailscale identity check failed (use Tailscale Serve auth or gateway token/password)"
  else if because "tailscale_user_mismatch" then "unauthorized: tailscale identity mismatch (use Tailscale Serve auth or gateway token/password)"
  else match authMode, authProvided with
       | mode_token, provided_none => missing "token" (tokenHint p)
       | mode_password, provided_none => missing "password" (passwordHint p)
       | _, _ => "unauthorized"
       end.
End kinds.

(** ** The connection as it was opened *)

Section opened.
Context (u : Upgrade).

Definition requestHost : option string := host_header (up_req u).
Definition requestOrigin : option string := headerValue (up_req u) "origin".
Definition forwardedFor : option string := headerValue (up_req u) "x-forwarded-for".
Definition realIp : option string := headerValue (up_req u) "x-real-ip".
Definition remoteAddr : option string := remoteAddress (up_req u).

Definition clientIp : option string := resolveGatewayClientIp remoteAddr forwardedFor realIp (up_trustedProxies u).
Definition hasProxyHeaders : bool := truthy_opt forwardedFor || truthy_opt realIp.
Definition hasUntrustedProxyHeaders : bool := hasProxyHeaders && negb (isTrustedProxyAddress remoteAddr (up_trustedProxies u)).
Definition isLocalClient : bool := isLocalDirectRequest (Some (up_req u)) (up_trustedProxies u).
Definition reportedClientIp : option string :=
  if isLocalClient || hasUntrustedProxyHeaders then None
  else match clientIp with
       | Some ip => if truthy_str ip && negb (isLoopbackAddress (Some ip)) then Some ip else None
       | None => None
       end.

(** The two warnings of the log. *)
Definition hostIsLocalish : bool :=
  let hostName := resolveHostName requestHost in
  String.eqb hostName "localhost" || String.eqb hostName "127.0.0.1" || String.eqb hostName "::1" || js_endsWith hostName ".ts.net".
Definition warns_untrusted_proxy : bool := hasUntrustedProxyHeaders.
Definition warns_loopback_host : bool := negb hostIsLocalish && isLoopbackAddress remoteAddr && negb hasProxyHeaders.
End opened.

(** ** The handshake *)

(** A refusal: the cause and the reason that are recorded, the error that is sent, and
    how the connection is closed. *)
Record Failure := mkFailure { fl_cause : string; fl_reason : option string; fl_error : ErrorShape; fl_code : Z; fl_close : string }.
Inductive Stop := failed (f : Failure) | thrown (e : string).

(** Most refusals close the connection with the text of the error. *)
Definition refusal (cause : string) (reason : option string) (code : ErrorCode) (message : string) : Failure :=
  mkFailure cause reason (errorShape code message) 1008 message.

Record PairedDevice := mkPairedDevice {
  pd_publicKey : string; pd_role : option string; pd_roles : option (list string); pd_scopes : option (list string)
}.
Record DeviceMetadata := mkDeviceMetadata {
  dm_client : ClientInfo; dm_role : string; dm_scopes : list string; dm_remoteIp : option string
}.
Record PairingRequest := mkPairingRequest {
  pq_deviceId : string; pq_publicKey : string; pq_metadata : DeviceMetadata; pq_silent : bool
}.
Record Pairing := mkPairing { pr_requestId : string; pr_silent : bool; pr_created : bool }.
Record DeviceToken := mkDeviceToken {
  dt_token : string; dt_role : string; dt_scopes : list string; dt_rotatedAtMs : option Z; dt_createdAtMs : Z
}.

(** The store of paired devices (infra/device-pairing.js).  Every operation may throw. *)
Class DevicePairing (D : Type) := {
  verifyDeviceToken : string -> string -> string -> list string -> D -> D * (string + bool);
  requestDevicePairing : PairingRequest -> D -> D * (string + Pairing);
  approveDevicePairing : string -> D -> D * (string + option string);
  getPairedDevice : string -> D -> D * (string + option PairedDevice);
  updatePairedDeviceMetadata : string -> DeviceMetadata -> D -> D * (string + unit);
  ensureDeviceToken : string -> string -> list string -> D -> D * (string + option DeviceToken)
}.

(** The store, and the broadcasts of the handshake. *)
Inductive PairEvent := pair_requested (requestId : string) | pair_resolved (requestId deviceId : string) (ts : Z).
Record Hs {D : Type} := mkHs { hs_store : D; hs_broadcasts : list PairEvent }.
Arguments Hs : clear implicits.
Arguments mkHs {D}.

(** What a client is admitted with. *)
Record Admitted_client := mkAdmitted {
  ad_params : ConnectParams; ad_role : string; ad_scopes : list string; ad_device : option Device;
  ad_method : string; ad_deviceToken : option DeviceToken
}.

Section handshake.
Context {D : Type} `{DevicePairing D}.
Context (new_URL : string -> option URL) (tailscaleWhois : string -> string + option WhoisIdentity).
Context (isGatewayCliClient isWebchatClient : string -> string -> bool).
(** infra/device-identity.js. *)
Context (deriveDeviceIdFromPublicKey normalizeDevicePublicKeyBase64Url : string -> option string)
        (verifyDeviceSignature : string -> string -> string -> bool).

Definition M (A : Type) : Type := Hs D -> Hs D * (Stop + A).
Definition ret {A} (a : A) : M A := fun s => (s, inr a).
Definition stop {A} (f : Failure) : M A := fun s => (s, inl (failed f)).
Definition bind {A B} (x : M A) (k : A -> M B) : M B := fun s =>
  match x s with (s', inr a) => k a s' | (s', inl e) => (s', inl e) end.
(** A computation outside that may throw. *)
Definition lift {A} (x : string + A) : M A := fun s =>
  (s, match x with inl e => inl (thrown e) | inr a => inr a end).
Definition store {A} (op : D -> D * (string + A)) : M A := fun s =>
  let '(d, x) := op (hs_store s) in (mkHs d (hs_broadcasts s), match x with inl e => inl (thrown e) | inr a => inr a end).
Definition tell (e : PairEvent) : M unit := fun s => (mkHs (hs_store s) (hs_broadcasts s ++ [e]), inr tt).
Definition ensure (b : bool) (f : Failure) : M unit := if b then ret tt else stop f.
#[local] Notation "'let*' x := c 'in' k" := (bind c (fun x => k)) (at level 60, x pattern, c at level 59, right associativity).
#[local] Notation "c ;;* k" := (bind c (fun _ => k)) (at level 60, right associativity).

Section one.
Context (u : Upgrade) (p : ConnectParams) (now : Z).

(** *** What needs no waiting: protocol, role, scopes and origin *)

Definition protocol_mismatch : Failure :=
  mkFailure "protocol-mismatch" None (mkErrorShape INVALID_REQUEST "protocol mismatch" (Some (expected_protocol PROTOCOL_VERSION)))
    1002 "protocol mismatch".
Definition negotiate : M unit :=
  ensure (negb ((pm_maxProtocol p <? PROTOCOL_VERSION) || (PROTOCOL_VERSION <? pm_minProtocol p))) protocol_mismatch.

Definition roleRaw : string := default "operator" (pm_role p).
Definition check_role : M string :=
  if String.eqb roleRaw "operator" || String.eqb roleRaw "node" then ret roleRaw
  else stop (refusal "invalid-role" None INVALID_REQUEST "invalid role").

Definition requestedScopes : list string := default [] (pm_scopes p).
Definition granted_scopes (role : string) : list string :=
  match requestedScopes with
  | _ :: _ => requestedScopes
  | [] => if String.eqb role "operator" then ["operator.admin"] else []
  end.

Definition ORIGIN_MESSAGE : string :=
  "origin not allowed (open the Control UI from the gateway host or allow it in gateway.controlUi.allowedOrigins)".
Definition check_origin : M unit :=
  if isControlUi p || isWebchatConnect isWebchatClient p then
    match checkBrowserOrigin new_URL (requestHost u) (requestOrigin u) (up_allowedOrigins u) with
    | None => ret tt
    | Some reason => stop (mkFailure "origin-mismatch" (Some reason) (errorShape INVALID_REQUEST ORIGIN_MESSAGE) 1008
                             (truncateCloseReason ORIGIN_MESSAGE CLOSE_REASON_MAX_BYTES))
    end
  else ret tt.

(** *** Authorization *)

Definition hasSharedAuth : bool := truthy_opt (pm_token p) || truthy_opt (pm_password p).
Definition allowInsecureControlUi : bool := isControlUi p && up_allowInsecureAuth u.
Definition disableControlUiDeviceAuth : bool := isControlUi p && up_dangerouslyDisableDeviceAuth u.
Definition allowControlUiBypass : bool := allowInsecureControlUi || disableControlUiDeviceAuth.
Definition device : option Device := if disableControlUiDeviceAuth then None else pm_device p.

Definition authorize (auth : ResolvedGatewayAuth) : M GatewayAuthResult :=
  lift (authorizeGatewayConnect tailscaleWhois auth (pm_token p) (pm_password p) (Some (up_req u)) (up_trustedProxies u)).

Definition auth_ok (r : GatewayAuthResult) : bool := match r with refused _ => false | _ => true end.
Definition auth_reason (r : GatewayAuthResult) : option string := match r with refused reason => Some reason | _ => None end.
Definition auth_method (r : GatewayAuthResult) : string :=
  match r with
  | by_token => "token" | by_password => "password" | by_tailscale _ => "tailscale"
  | refused _ => match ga_mode (up_auth u) with mode_password => "password" | mode_token => "token" end
  end.

Definition without_tailscale (a : ResolvedGatewayAuth) : ResolvedGatewayAuth :=
  mkResolvedGatewayAuth (ga_mode a) (ga_token a) (ga_password a) false.
(** Whether the shared secret alone lets the client in. *)
Definition shared_auth : M bool :=
  if hasSharedAuth then
    let* r := authorize (without_tailscale (up_auth u)) in
    ret match r with by_token | by_password => true | _ => false end
  else ret false.

Definition authProvided : AuthProvidedKind :=
  if truthy_opt (pm_token p) then provided_token else if truthy_opt (pm_password p) then provided_password else provided_none.
Definition rejectUnauthorized (authResult : GatewayAuthResult) : Failure :=
  let authMessage := formatGatewayAuthFailureMessage isGatewayCliClient isWebchatClient
                       (ga_mode (up_auth u)) authProvided (auth_reason authResult) p in
  mkFailure "unauthorized" (auth_reason authResult) (errorShape INVALID_REQUEST authMessage) 1008
    (truncateCloseReason authMessage CLOSE_REASON_MAX_BYTES).

(** A client without a device. *)
Definition without_device (authResult : GatewayAuthResult) (sharedAuthOk : bool) : M unit :=
  ensure (negb (isControlUi p && negb allowControlUiBypass))
    (refusal "control-ui-insecure-auth" None INVALID_REQUEST "control ui requires HTTPS or localhost (secure context)") ;;*
  (if sharedAuthOk then ret tt
   else if negb (auth_ok authResult) && hasSharedAuth then stop (rejectUnauthorized authResult)
   else stop (refusal "device-required" None NOT_PAIRED "device identity required")).

(** *** The identity of a device *)

Definition DEVICE_SIGNATURE_SKEW_MS : Z := 10 * 60 * 1000.
Definition device_failure (reason message : string) : Failure := refusal "device-auth-invalid" (Some reason) INVALID_REQUEST message.

Definition nonceRequired : bool := negb (isLocalClient u).
Definition providedNonce (dv : Device) : string := default "" (js_trim <$> dv_nonce dv).

Definition signed_payload (role : string) (dv : Device) (nonce : option string) (version : string) : string :=
  buildDeviceAuthPayload (mkPayloadParams (dv_id dv) (ci_id (pm_client p)) (ci_mode (pm_client p)) role requestedScopes
    (dv_signedAt dv) (pm_token p) nonce (Some version)).
Definition signature_ok (role : string) (dv : Device) : bool :=
  let verify := fun payload => verifyDeviceSignature (dv_publicKey dv) payload (dv_signature dv) in
  let provided := truthy_str (providedNonce dv) in
  let signatureOk := verify (signed_payload role dv (if provided then Some (providedNonce dv) else None) (if provided then "v2" else "v1")) in
  let allowLegacy := negb nonceRequired && negb provided in
  if negb signatureOk && allowLegacy then verify (signed_payload role dv None "v1") else signatureOk.

(** The key of the device, in its normal form. *)
Definition prove_device (role : string) (dv : Device) : M string :=
  ensure (match deriveDeviceIdFromPublicKey (dv_publicKey dv) with
          | Some id => truthy_str id && String.eqb id (dv_id dv)
          | None => false
          end) (device_failure "device-id-mismatch" "device identity mismatch") ;;*
  ensure (Z.abs (now - dv_signedAt dv) <=? DEVICE_SIGNATURE_SKEW_MS) (device_failure "device-signature-stale" "device signature expired") ;;*
  ensure (negb (nonceRequired && negb (truthy_str (providedNonce dv)))) (device_failure "device-nonce-missing" "device nonce required") ;;*
  ensure (negb (truthy_str (providedNonce dv) && negb (String.eqb (providedNonce dv) (up_connectNonce u))))
    (device_failure "device-nonce-mismatch" "device nonce mismatch") ;;*
  ensure (signature_ok role dv) (device_failure "device-signature" "device signature invalid") ;;*
  match normalizeDevicePublicKeyBase64Url (dv_publicKey dv) with
  | Some k => if truthy_str k then ret k else stop (device_failure "device-public-key" "device public key invalid")
  | None => stop (device_failure "device-public-key" "device public key invalid")
  end.

(** The token may be that of the device. *)
Definition device_token_ok (role : string) (scopes : list string) (authResult : GatewayAuthResult) : M bool :=
  match device, pm_token p with
  | Some dv, Some token =>
      if negb (auth_ok authResult) && truthy_str token then store (verifyDeviceToken (dv_id dv) token role scopes) else ret false
  | _, _ => ret false
  end.

(** *** Pairing *)

Definition device_metadata (role : string) (scopes : list string) : DeviceMetadata :=
  mkDeviceMetadata (pm_client p) role scopes (reportedClientIp u).
Definition pairing_request_of (dv : Device) (key role : string) (scopes : list string) : PairingRequest :=
  mkPairingRequest (dv_id dv) key (device_metadata role scopes) (isLocalClient u).

Definition requirePairing (reason : string) (dv : Device) (key role : string) (scopes : list string) : M unit :=
  let* pairing := store (requestDevicePairing (pairing_request_of dv key role scopes)) in
  if pr_silent pairing then
    let* approved := store (approveDevicePairing (pr_requestId pairing)) in
    match approved with
    | Some deviceId => tell (pair_resolved (pr_requestId pairing) deviceId now)
    | None => ret tt
    end
  else
    (if pr_created pairing then tell (pair_requested (pr_requestId pairing)) else ret tt) ;;*
    stop (mkFailure "pairing-required" (Some reason)
            (mkErrorShape NOT_PAIRED "pairing required" (Some (pairing_request (pr_requestId pairing)))) 1008 "pairing required").

Definition allowedRoles (paired : PairedDevice) : list string :=
  match pd_roles paired with
  | Some l => l
  | None => match pd_role paired with Some r => if truthy_str r then [r] else [] | None => [] end
  end.
(** The first scope that is not allowed; an empty one counts as none. *)
Definition missing_scope (scopes : list string) (paired : PairedDevice) : bool :=
  match scopes with
  | [] => false
  | _ => match default [] (pd_scopes paired) with
         | [] => true
         | allowed => match List.find (fun s => negb (has allowed s)) scopes with Some s => truthy_str s | None => false end
         end
  end.

Definition pair_device (dv : Device) (key role : string) (scopes : list string) : M unit :=
  let require := fun reason => requirePairing reason dv key role scopes in
  let* paired := store (getPairedDevice (dv_id dv)) in
  match paired with
  | None => require "not-paired"
  | Some pd =>
      if negb (String.eqb (pd_publicKey pd) key) then require "not-paired" else
      (if has (allowedRoles pd) role then ret tt else require "role-upgrade") ;;*
      (if missing_scope scopes pd then require "scope-upgrade" else ret tt) ;;*
      store (updatePairedDeviceMetadata (dv_id dv) (device_metadata role scopes))
  end.

(** *** The commands of a node *)

(** The allow list is read from the configuration of the moment. *)
Definition node_commands (role : string) : option (list string) :=
  if String.eqb role "node" then
    let allowlist := resolveNodeCommandAllowlist (up_allowCommands u) (up_denyCommands u)
                       (Some (ci_platform (pm_client p))) (ci_deviceFamily (pm_client p)) in
    Some (keep (fun cmd => truthy_str cmd && has allowlist cmd) (js_trim <$> default [] (pm_commands p)))
  else pm_commands p.

(** *** The whole handshake *)

(** What is decided in the first step, before anything is waited for. *)
Definition first_step : M (string * list string) :=
  negotiate ;;*
  let* role := check_role in
  check_origin ;;*
  ret (role, granted_scopes role).

Definition identify (role : string) (authResult : GatewayAuthResult) (sharedAuthOk : bool) : M (option (Device * string)) :=
  match device with
  | None => without_device authResult sharedAuthOk ;;* ret None
  | Some dv => let* key := prove_device role dv in ret (Some (dv, key))
  end.

Definition handshake : M Admitted_client :=
  let* rs := first_step in
  let role := rs.1 in
  let scopes := rs.2 in
  let* authResult := authorize (up_auth u) in
  let* sharedAuthOk := shared_auth in
  let* identity := identify role authResult sharedAuthOk in
  let* tokenOk := device_token_ok role scopes authResult in
  ensure (auth_ok authResult || tokenOk) (rejectUnauthorized authResult) ;;*
  match identity with
  | Some (dv, key) => if allowControlUiBypass && sharedAuthOk then ret tt else pair_device dv key role scopes
  | None => ret tt
  end ;;*
  let* deviceToken := match identity with Some (dv, _) => store (ensureDeviceToken (dv_id dv) role scopes) | None => ret None end in
  ret (mkAdmitted (p <| pm_role := Some role |> <| pm_scopes := Some scopes |> <| pm_commands := node_commands role |>)
         role scopes (fst <$> identity) (if tokenOk then "device-token" else auth_method authResult) deviceToken).
End one.
End handshake.

(** ** The connection *)

Record Client := mkClient {
  cl_serial : nat;                 (* which object it is *)
  cl_params : ConnectParams; cl_connId : string; cl_presenceKey : option string; cl_clientIp : option string
}.
Inductive HandshakeState := hs_pending | hs_connected | hs_failed.

Record PresenceEntry := mkPresenceEntry {
  pe_host : string; pe_ip : option string; pe_deviceId : option string; pe_role : string; pe_scopes : list string;
  pe_instanceId : option string
}.
Inductive PresenceUpdate := presence_connect (e : PresenceEntry) | presence_disconnect.

Record HelloOk := mkHelloOk {
  ho_protocol : Z; ho_connId : string; ho_methods : list string; ho_events : list string;
  ho_presenceVersion : Z; ho_healthVersion : Z; ho_cachedHealth : bool; ho_canvasHostUrl : option string;
  ho_auth : option (string * string * list string * Z);
  ho_maxPayload : Z; ho_maxBufferedBytes : Z; ho_tickIntervalMs : Z
}.
Definition MAX_PAYLOAD_BYTES : Z := 512 * 1024.
Definition TICK_INTERVAL_MS : Z := 30000.

(** What is sent on the socket: the challenge, and answers to the request of an id. *)
Inductive Sent := sent_challenge (nonce : string) | sent_error (id : string) (e : ErrorShape) | sent_hello (id : string) (h : HelloOk).

(** server/health-state.ts; the health itself is opaque. *)
Record HealthState := mkHealthState {
  presenceVersion : Z; healthVersion : Z; healthCache : option json; healthRefresh : bool; health_broadcasts : list json
}.
#[export] Instance HealthState_eta : EtaRecord HealthState := fun h =>
  mkHealthState (presenceVersion h) (healthVersion h) (healthCache h) (healthRefresh h) (health_broadcasts h).
Definition new_HealthState : HealthState := mkHealthState 1 1 None false [].

Definition incrementPresenceVersion (h : HealthState) : HealthState := h <| presenceVersion ::= fun n => n + 1 |>.
(** A refresh is begun when none is running; it ends with a health or with an exception. *)
Definition refreshGatewayHealthSnapshot (h : HealthState) : HealthState := h <| healthRefresh := true |>.
Definition refresh_ends (snap : option json) (h : HealthState) : HealthState :=
  if negb (healthRefresh h) then h else
  (match snap with
   | Some s => h <| healthCache := Some s |> <| healthVersion ::= fun n => n + 1 |> <| health_broadcasts ::= fun l => l ++ [s] |>
   | None => h
   end) <| healthRefresh := false |>.

(** The connection, and what it shares with the others: the set of clients (those of this
    connection), the registry of nodes, the health and the presence. *)
Record World := mkWorld {
  ws_client : option Client; ws_closed : bool; ws_timer : bool; ws_state : HandshakeState; ws_cause : option string;
  ws_sent : list Sent; ws_socket : option (Z * string);
  ws_clients : list Client; ws_registry : Registry.NodeRegistry; ws_health : HealthState;
  ws_presence : list (string * PresenceUpdate); ws_nodes_seen : list (string * Z); ws_unsubscribed : list string;
  ws_calls : list (string * string); ws_waiting : list (string * ConnectParams); ws_serial : nat
}.
#[export] Instance World_eta : EtaRecord World := fun w =>
  mkWorld (ws_client w) (ws_closed w) (ws_timer w) (ws_state w) (ws_cause w) (ws_sent w) (ws_socket w) (ws_clients w)
    (ws_registry w) (ws_health w) (ws_presence w) (ws_nodes_seen w) (ws_unsubscribed w) (ws_calls w) (ws_waiting w) (ws_serial w).

Implicit Types w : World.

Definition opened_connection (nonce : string) (registry : Registry.NodeRegistry) (health : HealthState) : World :=
  mkWorld None false true hs_pending None [sent_challenge nonce] None [] registry health [] [] [] [] [] 0.

Definition send (m : Sent) w : World := w <| ws_sent ::= fun l => l ++ [m] |>.
Definition setCloseCause (cause : string) w : World :=
  match ws_cause w with
  | Some c => if truthy_str c then w else w <| ws_cause := Some cause |>
  | None => w <| ws_cause := Some cause |>
  end.

(** [clients.delete(client)]. *)
Definition without_client (c : Client) (l : list Client) : list Client := keep (fun d => negb (cl_serial d =? cl_serial c)%nat) l.

Definition close (code : Z) (reason : string) w : World :=
  if ws_closed w then w else
  w <| ws_closed := true |> <| ws_timer := false |>
    <| ws_clients ::= (match ws_client w with Some c => without_client c | None => id end) |>
    <| ws_socket := Some (code, reason) |>.

Definition refuse (id : option string) (f : Failure) w : World :=
  let w := setCloseCause (fl_cause f) (w <| ws_state := hs_failed |>) in
  close (fl_code f) (fl_close f) (match id with Some id => send (sent_error id (fl_error f)) w | None => w end).

(** A message: not JSON, not a request, or a request whose parameters the schema of
    connect refuses with a text or takes. *)
Inductive Incoming := not_json | not_request (id : string) (errors : string) | request (id method : string) (params : string + ConnectParams).

Section connection.
Context {D : Type} `{DevicePairing D}.
Context (new_URL : string -> option URL) (tailscaleWhois : string -> string + option WhoisIdentity).
Context (isGatewayCliClient isWebchatClient : string -> string -> bool).
Context (deriveDeviceIdFromPublicKey normalizeDevicePublicKeyBase64Url : string -> option string)
        (verifyDeviceSignature : string -> string -> string -> bool).
Context {A : Type} (extraHandlers : option (jsmap A)) (coreGatewayHandlers : jsmap A).
Context (u : Upgrade).

Definition run_handshake (p : ConnectParams) (now : Z) (s : Hs D) : Hs D * (Stop + Admitted_client) :=
  handshake new_URL tailscaleWhois isGatewayCliClient isWebchatClient deriveDeviceIdFromPublicKey
    normalizeDevicePublicKeyBase64Url verifyDeviceSignature u p now s.

(** What stops the handshake in its first step does not look at the store. *)
Definition stops_at_once (p : ConnectParams) (d : D) : option Stop :=
  match (first_step (D := D) new_URL isWebchatClient u p (mkHs d [])).2 with inl e => Some e | inr _ => None end.

Definition invalid_handshake (handshakeError : string) : Failure :=
  mkFailure "invalid-handshake" None (errorShape INVALID_REQUEST handshakeError) 1008
    (truncateCloseReason handshakeError CLOSE_REASON_MAX_BYTES).

(** *** The end of a handshake *)

Definition presenceKey (a : Admitted_client) : option string :=
  let c := pm_client (ad_params a) in
  if isGatewayCliClient (ci_id c) (ci_mode c) then None
  else Some (default (default (up_connId u) (ci_instanceId c)) (dv_id <$> ad_device a)).

Definition presence_entry (a : Admitted_client) : PresenceEntry :=
  let c := pm_client (ad_params a) in
  mkPresenceEntry (default (ci_id c) (ci_displayName c)) (if isLocalClient u then None else reportedClientIp u)
    (dv_id <$> ad_device a) (ad_role a) (ad_scopes a)
    (match ad_device a with Some d => Some (dv_id d) | None => ci_instanceId c end).

Definition track_presence (a : Admitted_client) w : World :=
  match presenceKey a with
  | Some k => if truthy_str k
              then w <| ws_presence ::= fun l => l ++ [(k, presence_connect (presence_entry a))] |>
                     <| ws_health ::= incrementPresenceVersion |>
              else w
  | None => w
  end.

Definition hello (a : Admitted_client) (h : HealthState) : HelloOk :=
  mkHelloOk PROTOCOL_VERSION (up_connId u) (up_methods u) (up_events u) (presenceVersion h) (healthVersion h)
    (match healthCache h with Some _ => true | None => false end) (up_canvasHostUrl u)
    ((fun t => (dt_token t, dt_role t, dt_scopes t, default (dt_createdAtMs t) (dt_rotatedAtMs t))) <$> ad_deviceToken a)
    MAX_PAYLOAD_BYTES MAX_BUFFERED_BYTES TICK_INTERVAL_MS.

Definition setClient (c : Client) w : World :=
  w <| ws_client := Some c |> <| ws_clients ::= fun l => l ++ [c] |>.

(** The ids whose last connection is recorded. *)
Definition nodeIdsForPairing (p : ConnectParams) : list string :=
  let nodeId := Registry.node_id (node_params p) in
  let instanceId := default "" (js_trim <$> ci_instanceId (pm_client p)) in
  nodeId :: (if truthy_str instanceId && negb (String.eqb instanceId nodeId) then [instanceId] else []).

Definition register_node (now : Z) (a : Admitted_client) w : World :=
  if negb (String.eqb (ad_role a) "node") then w else
  w <| ws_registry ::= Registry.register now (up_connId u) (node_params (ad_params a)) (reportedClientIp u) |>
    <| ws_nodes_seen ::= fun l => l ++ ((fun id => (id, now)) <$> nodeIdsForPairing (ad_params a)) |>.

Definition admit_client (now : Z) (id : string) (a : Admitted_client) w : World :=
  let w := track_presence a w in
  let helloOk := hello a (ws_health w) in
  let c := mkClient (ws_serial w) (ad_params a) (up_connId u) (presenceKey a) (reportedClientIp u) in
  let w := setClient c (w <| ws_timer := false |> <| ws_serial ::= S |>) in
  let w := register_node now a (w <| ws_state := hs_connected |>) in
  (send (sent_hello id helloOk) w) <| ws_health ::= refreshGatewayHealthSnapshot |>.

(** The handshake of the request [id] ended. *)
Definition handshake_ends (now : Z) (id : string) (outcome : Stop + Admitted_client) w : World :=
  match outcome with
  | inr a => admit_client now id a w
  | inl (failed f) => refuse (Some id) f w
  | inl (thrown _) => match ws_client w with None => close 1000 "" w | Some _ => w end
  end.

(** *** Messages *)

Definition gateway_client (c : Client) : GatewayWsClient :=
  mkGatewayWsClient (cl_connId c) (pm_role (cl_params c)) (pm_scopes (cl_params c)).

Definition answer_request (c : Client) (id method : string) w : World :=
  match handleGatewayRequest extraHandlers coreGatewayHandlers method (Some (gateway_client c)) with
  | answer_error e => send (sent_error id (errorShape INVALID_REQUEST e)) w
  | call_handler _ => w <| ws_calls ::= fun l => l ++ [(id, method)] |>
  | call_inherited => w
  end.

(** The handshake of a request that is not refused at once waits in [ws_waiting]. *)
Definition receive (d : D) (m : Incoming) w : World :=
  if ws_closed w then w else
  match ws_client w with
  | None =>
      match m with
      | not_json => close 1000 "" w
      | not_request _ _ => refuse None (invalid_handshake "invalid request frame") w
      | request id method params =>
          if negb (String.eqb method "connect")
          then refuse (Some id) (invalid_handshake "invalid handshake: first request must be connect") w
          else match params with
               | inl errors => refuse (Some id) (invalid_handshake ("invalid connect params: " +:+ errors)) w
               | inr p => match stops_at_once p d with
                          | Some e => handshake_ends 0 id (inl e) w
                          | None => w <| ws_waiting ::= fun l => l ++ [(id, p)] |>
                          end
               end
      end
  | Some c =>
      match m with
      | not_json => w
      | not_request id errors => send (sent_error id (errorShape INVALID_REQUEST ("invalid request frame: " +:+ errors))) w
      | request id method _ => answer_request c id method w
      end
  end.

(** A handler that throws. *)
Definition handler_throws (id message : string) w : World := send (sent_error id (errorShape UNAVAILABLE message)) w.

(** *** The timer and the end of the socket *)

Definition timer_fires w : World :=
  if negb (ws_timer w) then w else
  let w := w <| ws_timer := false |> in
  match ws_client w with
  | None => close 1000 "" (setCloseCause "handshake-timeout" (w <| ws_state := hs_failed |>))
  | Some _ => w
  end.

Definition socket_error w : World := close 1000 "" w.

Definition socket_closed w : World :=
  let w := match ws_client w with
           | Some c =>
               match cl_presenceKey c with
               | Some k => if truthy_str k
                           then w <| ws_presence ::= fun l => l ++ [(k, presence_disconnect)] |> <| ws_health ::= incrementPresenceVersion |>
                           else w
               | None => w
               end
           | None => w
           end in
  let w := match ws_client w with
           | Some c =>
               if bool_decide (pm_role (cl_params c) = Some "node") then
                 let '(r, nodeId) := Registry.unregister (up_connId u) (ws_registry w) in
                 let w := w <| ws_registry := r |> in
                 match nodeId with
                 | Some n => if truthy_str n then w <| ws_unsubscribed ::= fun l => l ++ [n] |> else w
                 | None => w
                 end
               else w
           | None => w
           end in
  close 1000 "" w.
End connection.

(** ** Theorems on the handshake *)

Section admission.
Context {D : Type} `{DevicePairing D}.
Context (new_URL : string -> option URL) (tailscaleWhois : string -> string + option WhoisIdentity).
Context (isGatewayCliClient isWebchatClient : string -> string -> bool).
Context (deriveDeviceIdFromPublicKey normalizeDevicePublicKeyBase64Url : string -> option string)
        (verifyDeviceSignature : string -> string -> string -> bool).

Lemma bind_inr {A B} (x : M A) (k : A -> M (D := D) B) s s' b : bind x k s = (s', inr b) ->
  exists s1 a, x s = (s1, inr a) /\ k a s1 = (s', inr b).
Proof. unfold bind. destruct (x s) as [s1 [e|a]]; [done|]. eauto. Qed.
Lemma ensure_inr b f s s' t : ensure (D := D) b f s = (s', inr t) -> b = true /\ s' = s.
Proof. unfold ensure, ret, stop. destruct b; [|done]. by intros [= <- _]. Qed.
Lemma lift_inr {A} (x : string + A) s s' a : lift (D := D) x s = (s', inr a) -> x = inr a /\ s' = s.
Proof. unfold lift. destruct x; [done|]. by intros [= <- <-]. Qed.
Lemma store_inr {A} (op : D -> D * (string + A)) s s' a : store op s = (s', inr a) ->
  (op (hs_store s)).2 = inr a /\ hs_broadcasts s' = hs_broadcasts s /\ hs_store s' = (op (hs_store s)).1.
Proof. unfold store. destruct (op (hs_store s)) as [d [e|x]]; [done|]. by intros [= <- <-]. Qed.

Ltac unwind :=
  repeat match goal with
    | E : bind _ _ _ = (_, inr _) |- _ => apply bind_inr in E as (? & ? & ? & E)
    | E : ensure _ _ _ = (_, inr _) |- _ => apply ensure_inr in E as [? ->]
    | E : lift _ _ = (_, inr _) |- _ => apply lift_inr in E as [? ->]
    | E : ret _ _ = (_, inr _) |- _ => unfold ret in E; injection E as <- <-
    | E : stop _ _ = (_, inr _) |- _ => discriminate E
    end.

Section one.
Context (u : Upgrade) (p : ConnectParams) (now : Z).
Notation hand := (handshake new_URL tailscaleWhois isGatewayCliClient isWebchatClient deriveDeviceIdFromPublicKey
    normalizeDevicePublicKeyBase64Url verifyDeviceSignature u p now).

(** The first step: the protocol fits, the role is one of two, and a browser comes from a
    page that is allowed. *)
Definition fits : Prop := pm_minProtocol p <= PROTOCOL_VERSION <= pm_maxProtocol p.
Definition page_allowed : Prop :=
  isControlUi p || isWebchatConnect isWebchatClient p = true ->
  checkBrowserOrigin new_URL (requestHost u) (requestOrigin u) (up_allowedOrigins u) = None.

Lemma first_step_spec (s s' : Hs D) role scopes : first_step new_URL isWebchatClient u p s = (s', inr (role, scopes)) ->
  s' = s /\ fits /\ page_allowed /\ (role = "operator" \/ role = "node") /\ role = roleRaw p /\ scopes = granted_scopes p role.
Proof.
  unfold first_step, negotiate, check_role, check_origin, page_allowed, fits. intros E. unwind.
  destruct (String.eqb (roleRaw p) "operator" || String.eqb (roleRaw p) "node") eqn:Hr; unwind.
  apply orb_true_iff in Hr.
  match goal with E : negb _ = true |- _ => apply negb_true_iff, orb_false_iff in E as [Hlo Hhi] end.
  assert (Hp : pm_minProtocol p <= PROTOCOL_VERSION <= pm_maxProtocol p) by (apply Z.ltb_ge in Hlo, Hhi; lia).
  assert (Hrole : roleRaw p = "operator" \/ roleRaw p = "node") by (destruct Hr as [?%String.eqb_eq|?%String.eqb_eq]; auto).
  destruct (isControlUi p || isWebchatConnect isWebchatClient p); [destruct (checkBrowserOrigin _ _ _ _); unwind|unwind];
    repeat (split; [done|]); done.
Qed.

(** Who is authorized: who knows the secret, or is vouched for by Tailscale. *)
Definition authorized : Prop :=
  knows_secret (up_auth u) (pm_token p) (pm_password p) \/
  asks_tailscale (up_auth u) (Some (up_req u)) (up_trustedProxies u) = true /\ exists user, vouched tailscaleWhois (Some (up_req u)) user.

Lemma authorize_spec auth r : authorizeGatewayConnect tailscaleWhois auth (pm_token p) (pm_password p) (Some (up_req u)) (up_trustedProxies u) = inr r ->
  match r with
  | refused _ => True
  | by_tailscale user => asks_tailscale auth (Some (up_req u)) (up_trustedProxies u) = true /\ vouched tailscaleWhois (Some (up_req u)) user
  | _ => knows_secret auth (pm_token p) (pm_password p)
  end.
Proof. intros E%connection_decision. destruct r; [by destruct E as (_ & ? & _)..| |done]. exact E. Qed.

Lemma auth_ok_authorized r : authorizeGatewayConnect tailscaleWhois (up_auth u) (pm_token p) (pm_password p) (Some (up_req u)) (up_trustedProxies u) = inr r ->
  auth_ok r = true -> authorized.
Proof. intros E%authorize_spec. unfold authorized. destruct r; cbn; [by left|by left| |done]. right. destruct E. eauto. Qed.

Lemma shared_auth_spec (s s' : Hs D) b : shared_auth tailscaleWhois u p s = (s', inr b) ->
  s' = s /\ (b = true -> knows_secret (up_auth u) (pm_token p) (pm_password p)).
Proof.
  unfold shared_auth. destruct (hasSharedAuth p); intros E; unwind; [|done]. unfold authorize in *. unwind. split; [done|].
  match goal with E : authorizeGatewayConnect _ _ _ _ _ _ = _ |- _ => apply authorize_spec in E end.
  case_match; done.
Qed.

(** What a device has to show: the key its id is derived from, a signature that is not
    older than ten minutes, made over the nonce of this connection; only a client of this
    machine may leave the nonce out. *)
Definition device_proved (role : string) (dv : Device) (key : string) : Prop :=
  deriveDeviceIdFromPublicKey (dv_publicKey dv) = Some (dv_id dv) /\
  normalizeDevicePublicKeyBase64Url (dv_publicKey dv) = Some key /\
  Z.abs (now - dv_signedAt dv) <= 10 * 60 * 1000 /\
  (providedNonce dv = up_connectNonce u /\
   verifyDeviceSignature (dv_publicKey dv) (signed_payload p role dv (Some (up_connectNonce u)) "v2") (dv_signature dv) = true \/
   isLocalClient u = true /\ providedNonce dv = "" /\
   verifyDeviceSignature (dv_publicKey dv) (signed_payload p role dv None "v1") (dv_signature dv) = true).

(** The second check of a signature is the first one again. *)
Lemma signature_checked_once role dv :
  signature_ok verifyDeviceSignature u p role dv =
  verifyDeviceSignature (dv_publicKey dv)
    (if truthy_str (providedNonce dv) then signed_payload p role dv (Some (providedNonce dv)) "v2" else signed_payload p role dv None "v1")
    (dv_signature dv).
Proof.
  unfold signature_ok. destruct (truthy_str (providedNonce dv)).
  - by rewrite !andb_false_r.
  - by destruct (verifyDeviceSignature _ _ _), (nonceRequired u).
Qed.

Lemma prove_device_spec role dv (s s' : Hs D) key :
  prove_device deriveDeviceIdFromPublicKey normalizeDevicePublicKeyBase64Url verifyDeviceSignature u p now role dv s = (s', inr key) ->
  s' = s /\ device_proved role dv key.
Proof.
  unfold prove_device, device_proved. intros E. unwind. rewrite signature_checked_once in *.
  destruct (deriveDeviceIdFromPublicKey _) as [i|]; [|done].
  match goal with E : truthy_str i && _ = true |- _ => apply andb_true_iff in E as [_ ->%String.eqb_eq] end.
  destruct (normalizeDevicePublicKeyBase64Url _) as [k|]; [|unwind]. destruct (truthy_str k); unwind.
  match goal with E : (_ <=? _) = true |- _ => apply Z.leb_le in E; unfold DEVICE_SIGNATURE_SKEW_MS in E end.
  split_and!; [done..|]. unfold nonceRequired in *. destruct (truthy_str (providedNonce dv)) eqn:Hn; cbn [negb andb] in *.
  - left. destruct (String.eqb_spec (providedNonce dv) (up_connectNonce u)) as [Hx|]; [|done]. by rewrite <- Hx.
  - right. apply truthy_str_false in Hn. by destruct (isLocalClient u).
Qed.

(** What the store says of a device whose pairing is not asked for again. *)
Definition paired_for (dv : Device) (key role : string) (scopes : list string) (d : D) : Prop :=
  exists pd, (getPairedDevice (dv_id dv) d).2 = inr (Some pd) /\ pd_publicKey pd = key /\ role ∈ allowedRoles pd /\
    (forall scope, scope ∈ scopes -> scope ∈ default [] (pd_scopes pd)).
(** The request of pairing that the store then gets is one that it grants without asking. *)
Definition request_granted (dv : Device) (key role : string) (scopes : list string) (d : D) : Prop :=
  exists pairing, (requestDevicePairing (pairing_request_of u p dv key role scopes) d).2 = inr pairing /\ pr_silent pairing = true.
Definition granted_silently (dv : Device) (key role : string) (scopes : list string) (d : D) : Prop :=
  request_granted dv key role scopes (getPairedDevice (dv_id dv) d).1.

Lemma requirePairing_spec reason dv key role scopes s s' t :
  requirePairing u p now reason dv key role scopes s = (s', inr t) -> request_granted dv key role scopes (hs_store s).
Proof.
  unfold requirePairing. intros E. unwind.
  match goal with E : store _ _ = (_, inr ?x) |- _ => apply store_inr in E as (Hq & _); destruct (pr_silent x) eqn:Hs; [|by unwind] end.
  unfold request_granted. eauto.
Qed.

Lemma missing_scope_spec scopes pd : missing_scope scopes pd = false -> Forall (fun x => x <> "") scopes ->
  forall x, x ∈ scopes -> x ∈ default [] (pd_scopes pd).
Proof.
  unfold missing_scope. destruct scopes as [|a l]; [set_solver|]. intros Hm Hne x Hx.
  destruct (default [] (pd_scopes pd)) as [|b k]; [done|].
  destruct (List.find _ _) as [y|] eqn:E.
  - apply find_some in E as [Hin _]. apply truthy_str_false in Hm as ->. apply list_elem_of_In in Hin.
    rewrite Forall_forall in Hne. by destruct (Hne _ Hin).
  - apply list_elem_of_In in Hx. pose proof (find_none _ _ E x Hx) as Hf. apply negb_false_iff in Hf. by apply has_true.
Qed.

Lemma pair_device_spec dv key role scopes s s' t :
  pair_device u p now dv key role scopes s = (s', inr t) -> Forall (fun x => x <> "") scopes ->
  paired_for dv key role scopes (hs_store s) \/ granted_silently dv key role scopes (hs_store s).
Proof.
  unfold pair_device, granted_silently. intros E Hne. unwind.
  match goal with E : store _ _ = (_, inr ?x) |- _ => apply store_inr in E as (Hg & _ & <-); destruct x as [pd|] end.
  2: { right. by eapply requirePairing_spec. }
  destruct (String.eqb_spec (pd_publicKey pd) key) as [Hk|]; cbn [negb] in *; [|right; by eapply requirePairing_spec].
  unwind. destruct (has (allowedRoles pd) role) eqn:Hr; [|right; by eapply requirePairing_spec]. unwind.
  destruct (missing_scope scopes pd) eqn:Hm; [right; by eapply requirePairing_spec|].
  left. exists pd. apply has_true in Hr. split_and!; [done..|]. by eapply missing_scope_spec.
Qed.

(** The id of the device and the key it proved, when there is one. *)
Lemma identify_spec role r shared (s s' : Hs D) identity :
  identify isGatewayCliClient isWebchatClient deriveDeviceIdFromPublicKey normalizeDevicePublicKeyBase64Url verifyDeviceSignature
    u p now role r shared s = (s', inr identity) ->
  s' = s /\
  match identity with
  | Some (dv, key) => device u p = Some dv /\ device_proved role dv key
  | None => device u p = None /\ shared = true /\ (isControlUi p = true -> allowControlUiBypass u p = true)
  end.
Proof.
  unfold identify. destruct (device u p) as [dv|]; intros E; unwind.
  - match goal with E : prove_device _ _ _ _ _ _ _ _ _ = _ |- _ => by apply prove_device_spec in E as [-> ?] end.
  - unfold without_device in *. unwind. destruct shared; unwind; [|destruct (negb (auth_ok r) && hasSharedAuth p); unwind].
    split_and!; [done..|]. intros Hc. by destruct (isControlUi p), (allowControlUiBypass u p).
Qed.

Lemma granted_scopes_named role : Forall (fun x => x <> "") (requestedScopes p) -> Forall (fun x => x <> "") (granted_scopes p role).
Proof. unfold granted_scopes. destruct (requestedScopes p); [|done]. intros _. destruct (String.eqb role "operator"); by repeat constructor. Qed.
Lemma device_sent dv : device u p = Some dv -> pm_device p = Some dv.
Proof. unfold device. by destruct (disableControlUiDeviceAuth u p). Qed.

(** The token of the request is one the store knows for the device. *)
Definition device_token (dv : Device) (role : string) (scopes : list string) (d : D) : Prop :=
  exists token, pm_token p = Some token /\ (verifyDeviceToken (dv_id dv) token role scopes d).2 = inr true.
(** The store when the pairing is looked at: a token may have been looked up before. *)
Definition after_token (role : string) (scopes : list string) (d d1 : D) : Prop :=
  d1 = d \/ exists dv token, pm_device p = Some dv /\ pm_token p = Some token /\
    d1 = (verifyDeviceToken (dv_id dv) token role scopes d).1.

Lemma device_token_ok_spec role scopes r (s s' : Hs D) b : device_token_ok u p role scopes r s = (s', inr b) ->
  after_token role scopes (hs_store s) (hs_store s') /\
  (b = true -> exists dv, device u p = Some dv /\ device_token dv role scopes (hs_store s)).
Proof.
  unfold device_token_ok, after_token. destruct (device u p) as [dv|] eqn:Hd, (pm_token p) as [token|] eqn:Ht;
    try (intros E; unwind; split; [by left|done]).
  destruct (negb (auth_ok r) && truthy_str token); [|intros E; unwind; split; [by left|done]].
  intros (E & _ & ->)%store_inr. split; [right; exists dv, token; by rewrite (device_sent dv)|].
  intros ->. exists dv. split; [done|]. by exists token.
Qed.

(** What lets a client in: [d] is the store when its handshake began. *)
Definition admissible (role : string) (scopes : list string) (dv : option Device) (d : D) : Prop :=
  match dv with
  | None => knows_secret (up_auth u) (pm_token p) (pm_password p) /\ (isControlUi p = true -> allowControlUiBypass u p = true)
  | Some dv =>
      pm_device p = Some dv /\
      exists key, device_proved role dv key /\ (authorized \/ device_token dv role scopes d) /\
        ((exists d1, after_token role scopes d d1 /\
            (paired_for dv key role scopes d1 \/ granted_silently dv key role scopes d1)) \/
         allowControlUiBypass u p = true /\ knows_secret (up_auth u) (pm_token p) (pm_password p))
  end.

Definition role_scopes_ok (a : Admitted_client) : Prop :=
  (ad_role a = "operator" \/ ad_role a = "node") /\ ad_scopes a = granted_scopes p (ad_role a) /\
  pm_role (ad_params a) = Some (ad_role a) /\ pm_scopes (ad_params a) = Some (ad_scopes a) /\
  pm_device (ad_params a) = pm_device p /\ pm_client (ad_params a) = pm_client p.

Lemma handshake_admission (s s' : Hs D) a : Forall (fun x => x <> "") (requestedScopes p) -> hand s = (s', inr a) ->
  fits /\ page_allowed /\ role_scopes_ok a /\ admissible (ad_role a) (ad_scopes a) (ad_device a) (hs_store s).
Proof.
  unfold handshake. intros Hne E. unwind.
  match goal with E : first_step _ _ _ _ _ = (_, inr ?rs) |- _ => destruct rs as [role scopes]; apply first_step_spec in E as (-> & Hf & Ho & Hr & _ & ->) end.
  match goal with E : shared_auth _ _ _ _ = _ |- _ => apply shared_auth_spec in E as [-> Hshared] end.
  match goal with E : identify _ _ _ _ _ _ _ _ _ _ _ _ = _ |- _ => apply identify_spec in E as [-> Hid] end.
  match goal with E : device_token_ok _ _ _ _ _ _ = _ |- _ => pose proof (device_token_ok_spec _ _ _ _ _ _ E) as [Hafter Htok] end.
  cbn [ad_role ad_scopes ad_device fst snd] in *. unfold authorize in *. unwind. split_and!; [apply Hf..|exact Ho|by unfold role_scopes_ok; cbn|].
  pose proof (granted_scopes_named role Hne) as Hne'. unfold admissible.
  match goal with |- context [fst <$> ?x] => destruct x as [[dv key]|] end; cbn [fmap option_fmap option_map fst] in *.
  2: { destruct Hid as (_ & -> & Hc). auto. }
  destruct Hid as [Hd Hproved]. split; [by apply device_sent|]. exists key. split; [done|]. split.
  - match goal with E : auth_ok _ || _ = true |- _ => apply orb_true_iff in E as [Hok|Hok] end.
    + left. by eapply auth_ok_authorized.
    + right. destruct (Htok Hok) as (dv' & Hd' & Ht). by assert (dv' = dv) as -> by congruence.
  - match goal with E : (if ?b then _ else _) _ = _ |- _ => destruct b eqn:Hb end.
    + apply andb_true_iff in Hb as [Hb1 ->]. auto.
    + match goal with E : pair_device _ _ _ _ _ _ _ _ = _ |- _ => apply pair_device_spec in E; [|done] end. left. eauto.
Qed.
End one.
End admission.

(** ** Theorems on the connection *)

Section life.
Context {D : Type} `{DevicePairing D}.
Context (new_URL : string -> option URL) (tailscaleWhois : string -> string + option WhoisIdentity).
Context (isGatewayCliClient isWebchatClient : string -> string -> bool).
Context (deriveDeviceIdFromPublicKey normalizeDevicePublicKeyBase64Url : string -> option string)
        (verifyDeviceSignature : string -> string -> string -> bool).
Context {A : Type} (extraHandlers : option (jsmap A)) (coreGatewayHandlers : jsmap A).
Context (u : Upgrade).

(** What can happen: a message, the end of the [k]-th handshake that waits, an exception
    of a handler, the timer, an error or the end of the socket, what other connections do to
    the registry, the end of a refresh of the health. *)
Inductive Event :=
  | ev_message (d : D) (m : Incoming) | ev_handshake (k : nat) (now : Z) (s : Hs D) | ev_throws (id message : string)
  | ev_timer | ev_error | ev_closed | ev_registry (r : Registry.NodeRegistry) | ev_refresh (snap : option json).

Definition perform (e : Event) (w : World) : World :=
  match e with
  | ev_message d m => receive new_URL isGatewayCliClient isWebchatClient extraHandlers coreGatewayHandlers u d m w
  | ev_handshake k now s =>
      match ws_waiting w !! k with
      | Some (id, p) =>
          handshake_ends isGatewayCliClient u now id
            (run_handshake new_URL tailscaleWhois isGatewayCliClient isWebchatClient deriveDeviceIdFromPublicKey
               normalizeDevicePublicKeyBase64Url verifyDeviceSignature u p now s).2
            (w <| ws_waiting ::= delete k |>)
      | None => w
      end
  | ev_throws id message => handler_throws id message w
  | ev_timer => timer_fires w
  | ev_error => socket_error w
  | ev_closed => socket_closed u w
  | ev_registry r => w <| ws_registry := r |>
  | ev_refresh snap => w <| ws_health ::= refresh_ends snap |>
  end.
Definition run (l : list Event) (w : World) : World := foldl (fun w e => perform e w) w l.

(** What the schema of connect asks of the texts. *)
Definition valid_params (p : ConnectParams) : Prop :=
  Forall (fun x => x <> "") (requestedScopes p) /\ ci_id (pm_client p) <> "" /\
  match pm_device p with Some dv => dv_id dv <> "" | None => True end.
Definition valid_event (e : Event) : Prop :=
  match e with ev_message _ (request _ _ (inr p)) => valid_params p | _ => True end.

(** A client made by a handshake for [p] that ended at [now] and began with the store [d]. *)
Definition passed (p : ConnectParams) (now : Z) (d : D) (c : Client) : Prop :=
  exists a, cl_params c = ad_params a /\ cl_connId c = up_connId u /\
    fits p /\ page_allowed new_URL isWebchatClient u p /\ role_scopes_ok p a /\
    admissible tailscaleWhois deriveDeviceIdFromPublicKey normalizeDevicePublicKeyBase64Url verifyDeviceSignature u p now
      (ad_role a) (ad_scopes a) (ad_device a) d.

(** The handshake is a step of the run, for a request that was received before. *)
Definition passed_in (w0 : World) (l : list Event) (c : Client) : Prop :=
  exists es1 k now s es2 id p, l = es1 ++ ev_handshake k now s :: es2 /\
    ws_waiting (run es1 w0) !! k = Some (id, p) /\ cl_serial c = ws_serial (run es1 w0) /\
    (exists d, ev_message d (request id "connect" (inr p)) ∈ es1) /\ passed p now (hs_store s) c.

Record all_passed (w0 : World) (l : list Event) (w : World) : Prop := {
  ap_waiting : Forall (fun x => exists d, ev_message d (request x.1 "connect" (inr x.2)) ∈ l) (ws_waiting w);
  ap_clients : Forall (passed_in w0 l) (ws_clients w);
  ap_client : forall c, ws_client w = Some c -> passed_in w0 l c
}.

(** The parts of the state that a step leaves alone. *)
Definition same_clients (w w' : World) : Prop :=
  ws_client w' = ws_client w /\ ws_waiting w' = ws_waiting w /\ ws_clients w' `sublist_of` ws_clients w.

Lemma same_refl w : same_clients w w.
Proof. done. Qed.
Lemma same_trans w1 w2 w3 : same_clients w1 w2 -> same_clients w2 w3 -> same_clients w1 w3.
Proof. intros (? & ? & ?) (? & ? & ?). split_and!; [congruence..|by etrans]. Qed.
Lemma close_same code reason w : same_clients w (close code reason w).
Proof.
  unfold close. destruct (ws_closed w); [apply same_refl|]. split_and!; [done..|]. destruct w; cbn.
  destruct ws_client0; [|done]. unfold without_client, keep. apply sublist_filter.
Qed.
Lemma refuse_same id f w : same_clients w (refuse id f w).
Proof. eapply same_trans; [|apply close_same]. unfold setCloseCause. destruct id; repeat case_match; done. Qed.
Lemma all_passed_same w0 l w w' : same_clients w w' -> all_passed w0 l w -> all_passed w0 l w'.
Proof.
  intros (Hc & Hw & Hs) [H1 H2 H3]. split; [by rewrite Hw| |by rewrite Hc].
  rewrite Forall_forall in H2 |- *. intros c Hin. apply H2. by eapply elem_of_sublist.
Qed.
Lemma all_passed_later w0 l e w : all_passed w0 l w -> all_passed w0 (l ++ [e]) w.
Proof.
  assert (Hp : forall c, passed_in w0 l c -> passed_in w0 (l ++ [e]) c).
  { intros c (es1 & k & now & s & es2 & id & p & -> & Hc). exists es1, k, now, s, (es2 ++ [e]), id, p.
    split; [by rewrite <- app_assoc|exact Hc]. }
  intros [H1 H2 H3]. split.
  - eapply Forall_impl; [exact H1|]. intros x [d Hd]. exists d. apply elem_of_app. by left.
  - eapply Forall_impl; [exact H2|]. exact Hp.
  - intros c Hc. by apply Hp, H3.
Qed.

Lemma ends_refused now id e w : same_clients w (handshake_ends isGatewayCliClient u now id (inl e) w).
Proof. destruct e as [f|x]; cbn; [apply refuse_same|]. destruct (ws_client w) eqn:E; [apply same_refl|apply close_same]. Qed.

Definition new_client (a : Admitted_client) w : Client :=
  mkClient (ws_serial w) (ad_params a) (up_connId u) (presenceKey isGatewayCliClient u a) (reportedClientIp u).
Lemma admit_clients now id a w :
  let w' := admit_client isGatewayCliClient u now id a w in
  ws_client w' = Some (new_client a w) /\ ws_clients w' = ws_clients w ++ [new_client a w] /\ ws_waiting w' = ws_waiting w /\
  ws_closed w' = ws_closed w.
Proof. unfold admit_client, register_node, track_presence, new_client. repeat case_match; done. Qed.

Lemma receive_same (d : D) m w : same_clients w (receive new_URL isGatewayCliClient isWebchatClient extraHandlers coreGatewayHandlers u d m w) \/
  exists id p, m = request id "connect" (inr p) /\ ws_client w = None /\ ws_closed w = false /\ stops_at_once new_URL isWebchatClient u p d = None /\
    receive new_URL isGatewayCliClient isWebchatClient extraHandlers coreGatewayHandlers u d m w = w <| ws_waiting ::= fun l => l ++ [(id, p)] |>.
Proof.
  unfold receive. destruct (ws_closed w) eqn:Hcl; [left; apply same_refl|]. destruct (ws_client w) as [c|] eqn:Hc.
  { left. destruct m as [|id e|id method params]; [apply same_refl|done|]. unfold answer_request. case_match; done. }
  destruct m as [|id e|id method params]; [left; apply close_same|left; apply refuse_same|].
  destruct (String.eqb_spec method "connect") as [->|]; cbn [negb]; [|left; apply refuse_same].
  destruct params as [e|p]; [left; apply refuse_same|].
  destruct (stops_at_once _ _ _ _ _) as [e|] eqn:Es; [left; apply ends_refused|]. right. by exists id, p.
Qed.

Lemma socket_closed_same w : same_clients w (socket_closed u w).
Proof. unfold socket_closed. eapply same_trans; [|apply close_same]. repeat case_match; done. Qed.
Lemma timer_same w : same_clients w (timer_fires w).
Proof.
  unfold timer_fires. destruct (negb _); [apply same_refl|]. cbv zeta. destruct (ws_client (w <| ws_timer := false |>)); [done|].
  eapply same_trans; [|apply close_same]. unfold setCloseCause. repeat case_match; done.
Qed.

Lemma all_passed_event w0 l e : Forall valid_event l -> all_passed w0 l (run l w0) ->
  all_passed w0 (l ++ [e]) (perform e (run l w0)).
Proof.
  intros Hv Hi. pose proof (all_passed_later w0 l e _ Hi) as Hl.
  destruct e as [d m|k now s|id msg| | | |r|snap]; cbn [perform].
  - destruct (receive_same d m (run l w0)) as [Hs|(id & p & -> & Hn & _ & _ & ->)]; [by eapply all_passed_same|].
    destruct Hl as [H1 H2 H3]. split; [|exact H2|exact H3]. apply Forall_app. split; [exact H1|]. constructor; [|done].
    exists d. apply elem_of_app. right. by left.
  - destruct (ws_waiting (run l w0) !! k) as [[id p]|] eqn:Hk; [|done].
    destruct (Forall_lookup_1 _ _ _ _ (ap_waiting _ _ _ Hi) Hk) as [d Hd]. cbn [fst snd] in Hd.
    assert (Hp : valid_params p) by (rewrite Forall_forall in Hv; exact (Hv _ Hd)).
    assert (Hi' : all_passed w0 (l ++ [ev_handshake k now s]) ((run l w0) <| ws_waiting ::= delete k |>)).
    { destruct Hl as [H1 H2 H3]. split; [|exact H2|exact H3]. by apply Forall_delete. }
    destruct (run_handshake _ _ _ _ _ _ _ _ _ _ _) as [s' [e|a]] eqn:E; cbn [snd]; [eapply all_passed_same; [apply ends_refused|done]|].
    set (w := (run l w0) <| ws_waiting ::= delete k |>) in *.
    assert (Hnew : passed_in w0 (l ++ [ev_handshake k now s]) (new_client a w)).
    { exists l, k, now, s, [], id, p. split_and!; [done|done|done|by exists d|]. exists a.
      pose proof (handshake_admission _ _ _ _ _ _ _ _ _ _ _ _ _ (proj1 Hp) E) as (? & ? & ? & ?). done. }
    cbn [handshake_ends]. destruct (admit_clients now id a w) as (Hc & Hcs & Hw & _). destruct Hi' as [H1 H2 H3]. split.
    + by rewrite Hw.
    + rewrite Hcs. apply Forall_app. split; [done|]. by constructor.
    + intros c. rewrite Hc. by intros [= <-].
  - by destruct Hl; split.
  - eapply all_passed_same; [apply timer_same|done].
  - eapply all_passed_same; [apply close_same|done].
  - eapply all_passed_same; [apply socket_closed_same|done].
  - by destruct Hl; split.
  - by destruct Hl; split.
Qed.

(** C30: whatever happens on a connection, each of its clients comes from a step of the run
    at which a handshake ended, for a request of connect that had been received; and at the
    time of that step, with the store of that handshake, the client was entitled to it:
    the protocol fits, a browser comes from an allowed page, the role is one of two, and a
    client without a device knows the secret, while a device proved its key with a
    signature not more than ten minutes from that time, over the nonce of this connection
    (a client of this machine may leave the nonce out), is authorized by the secret, by
    Tailscale or by its own token, and is paired for the role and the scopes, unless the
    store grants the pairing without asking or the bypass of the control page is on and
    the secret is known.  (The operations of the store are arbitrary functions, so each may
    include what others did to it since the one before.) *)
Theorem clients_have_passed nonce registry health l : Forall valid_event l ->
  let w0 := opened_connection nonce registry health in
  Forall (passed_in w0 l) (ws_clients (run l w0)) /\ (forall c, ws_client (run l w0) = Some c -> passed_in w0 l c).
Proof.
  intros Hv. cbv zeta. set (w0 := opened_connection nonce registry health).
  assert (Hi : all_passed w0 l (run l w0)); [|by destruct Hi].
  induction l as [|e l IH] using rev_ind; [by split|]. apply Forall_app in Hv as [Hv _].
  unfold run. rewrite foldl_snoc. by apply all_passed_event; [|apply IH].
Qed.

(** *** What is left of a connection that ended *)

(** The session of this connection in the registry. *)
Definition session_of (w : World) : option string := jm_get (Registry.nodesByConn (ws_registry w)) (up_connId u).

(** The client waits for the answer to its first request, and the connection does not end
    while a handshake is running; other connections leave the session alone. *)
Definition orderly (e : Event) (w : World) : Prop :=
  match e with
  | ev_message _ _ | ev_timer | ev_error | ev_closed => ws_waiting w = []
  | ev_registry r => jm_wf (Registry.nodesByConn r) /\ jm_get (Registry.nodesByConn r) (up_connId u) = session_of w
  | _ => True
  end.
Fixpoint orderly_run (l : list Event) (w : World) : Prop :=
  match l with [] => True | e :: l => valid_event e /\ orderly e w /\ orderly_run l (perform e w) end.

Record tidy (w : World) : Prop := {
  ti_clients : ws_clients w = if ws_closed w then [] else option_list (ws_client w);
  ti_waiting : ws_waiting w = [] \/ exists id p, ws_waiting w = [(id, p)] /\ valid_params p /\ ws_client w = None /\ ws_closed w = false;
  ti_wf : jm_wf (Registry.nodesByConn (ws_registry w));
  ti_session : session_of w = None \/
    exists c n, ws_client w = Some c /\ pm_role (cl_params c) = Some "node" /\ session_of w = Some n /\ n <> ""
}.

(** Steps that keep the client and the session, and close the connection or not. *)
Definition tidy_step (w w' : World) : Prop :=
  ws_client w' = ws_client w /\ ws_waiting w' = ws_waiting w /\ ws_registry w' = ws_registry w /\
  (ws_closed w' = ws_closed w /\ ws_clients w' = ws_clients w \/
   ws_closed w = false /\ ws_closed w' = true /\ ws_clients w' = match ws_client w with Some c => without_client c (ws_clients w) | None => ws_clients w end).

Lemma without_self (c : Client) : without_client c [c] = [].
Proof. unfold without_client, keep. rewrite filter_cons_False; [done|]. by rewrite Nat.eqb_refl. Qed.

Lemma tidy_preserved w w' : tidy_step w w' -> ws_waiting w = [] -> tidy w -> tidy w'.
Proof.
  intros (Hc & Hw & Hr & Hcl) Hn [H1 H2 H3 H4]. split.
  - destruct Hcl as [[-> ->]|(Hcl & -> & ->)]; [by rewrite Hc|]. rewrite H1, Hcl. destruct (ws_client w) as [c|]; [apply without_self|done].
  - left. by rewrite Hw.
  - by rewrite Hr.
  - unfold session_of in *. by rewrite Hr, Hc.
Qed.

Lemma close_closes code reason w : ws_closed (close code reason w) = true.
Proof. unfold close. by destruct (ws_closed w) eqn:E. Qed.
Lemma close_step code reason w : tidy_step w (close code reason w).
Proof.
  unfold close, tidy_step. destruct (ws_closed w) eqn:E; [by split_and!; auto|]. split_and!; [done..|]. right. split_and!; [done..|].
  destruct w; cbn in *. by destruct ws_client0.
Qed.
Lemma tidy_step_trans w1 w2 w3 : ws_client w2 = ws_client w1 -> ws_waiting w2 = ws_waiting w1 -> ws_registry w2 = ws_registry w1 ->
  ws_closed w2 = ws_closed w1 -> ws_clients w2 = ws_clients w1 -> tidy_step w2 w3 -> tidy_step w1 w3.
Proof. unfold tidy_step. intros -> -> -> -> ->. done. Qed.
Lemma refuse_step id f w : tidy_step w (refuse id f w).
Proof. unfold refuse. eapply tidy_step_trans; [..|apply close_step]; unfold setCloseCause; destruct id; repeat case_match; done. Qed.
Lemma timer_step w : tidy_step w (timer_fires w).
Proof.
  unfold timer_fires. destruct (negb _); [by split_and!; auto|]. cbv zeta.
  destruct (ws_client (w <| ws_timer := false |>)) eqn:E; [by split_and!; auto|].
  eapply tidy_step_trans; [..|apply close_step]; unfold setCloseCause; repeat case_match; done.
Qed.
Lemma ends_step now id e w : tidy_step w (handshake_ends isGatewayCliClient u now id (inl e) w).
Proof. destruct e as [f|x]; cbn; [apply refuse_step|]. destruct (ws_client w) eqn:E; [by split_and!; auto|apply close_step]. Qed.

Lemma receive_step (d : D) m w : tidy_step w (receive new_URL isGatewayCliClient isWebchatClient extraHandlers coreGatewayHandlers u d m w) \/
  exists id p, m = request id "connect" (inr p) /\ ws_client w = None /\ ws_closed w = false /\
    receive new_URL isGatewayCliClient isWebchatClient extraHandlers coreGatewayHandlers u d m w = w <| ws_waiting ::= fun l => l ++ [(id, p)] |>.
Proof.
  unfold receive. destruct (ws_closed w) eqn:Hcl; [left; by split_and!; auto|]. destruct (ws_client w) as [c|] eqn:Hc.
  { left. destruct m as [|id e|id method params]; [by split_and!; auto..|]. unfold answer_request. case_match; by split_and!; auto. }
  destruct m as [|id e|id method params]; [left; apply close_step|left; apply refuse_step|].
  destruct (String.eqb_spec method "connect") as [->|]; cbn [negb]; [|left; apply refuse_step].
  destruct params as [e|p]; [left; apply refuse_step|].
  destruct (stops_at_once _ _ _ _ _) as [e|]; [left; apply ends_step|]. right. by exists id, p.
Qed.

Lemma reject_calls_conns n r : Registry.nodesByConn (Registry.reject_calls n r) = Registry.nodesByConn r.
Proof. unfold Registry.reject_calls. by rewrite Registry.reject_loop. Qed.

(** The end of the socket removes the session and, with [close], the client. *)
Lemma socket_closed_tidy w : ws_waiting w = [] -> tidy w ->
  tidy (socket_closed u w) /\ ws_clients (socket_closed u w) = [] /\ session_of (socket_closed u w) = None.
Proof.
  intros Hn Ht. unfold socket_closed. cbv zeta.
  assert (Hp : forall w' : World, ws_client w' = ws_client w -> ws_waiting w' = [] -> ws_closed w' = ws_closed w -> ws_clients w' = ws_clients w ->
            jm_wf (Registry.nodesByConn (ws_registry w')) -> session_of w' = None ->
            tidy (close 1000 "" w') /\ ws_clients (close 1000 "" w') = [] /\ session_of (close 1000 "" w') = None).
  { intros w' Hc Hw Hcl Hcs Hwf Hs. assert (Ht' : tidy w').
    { split; [by rewrite Hcs, Hcl, Hc; apply Ht|by left|done|by left]. }
    assert (Hs' : session_of (close 1000 "" w') = None) by (unfold session_of, close in *; by destruct (ws_closed w')).
    assert (Ht2 : tidy (close 1000 "" w')) by (eapply tidy_preserved; [apply close_step|done|done]).
    split_and!; [done| |done]. destruct Ht2 as [-> _ _ _]. unfold close. by destruct (ws_closed w') eqn:E; [rewrite E|]. }
  destruct (ws_client w) as [c|] eqn:Hc.
  2: { rewrite Hc. apply Hp; [done..|by apply Ht|]. destruct Ht as [_ _ _ [|(c & n & Hc' & _)]]; [done|congruence]. }
  set (w1 := match cl_presenceKey c with Some k => _ | None => w end).
  assert (H1 : ws_client w1 = Some c /\ ws_waiting w1 = [] /\ ws_closed w1 = ws_closed w /\ ws_clients w1 = ws_clients w /\ ws_registry w1 = ws_registry w).
  { subst w1. repeat case_match; by split_and!. }
  clearbody w1. destruct H1 as (Hc1 & Hw1 & Hcl1 & Hcs1 & Hr1). rewrite Hc1. destruct Ht as [_ _ Hwf Hses].
  assert (Hnone : session_of w = None -> session_of w1 = None) by (unfold session_of; by rewrite Hr1).
  case_bool_decide as Hrole.
  2: { apply Hp; [exact Hc1|done..|by rewrite Hr1|]. apply Hnone. destruct Hses as [|(c' & n & Hc' & Hr' & _)]; [done|congruence]. }
  unfold Registry.unregister. rewrite Hr1. fold (session_of w).
  destruct Hses as [Hs|(c' & n & _ & _ & Hs & Hne)]; rewrite Hs.
  - apply Hp; [exact Hc1|done..|]. unfold session_of. cbn. exact Hs.
  - apply truthy_str_true in Hne as Ht. rewrite Ht. cbn [negb]. cbv zeta. rewrite Ht.
    match goal with |- context [Registry.reject_calls n ?x] => set (r := Registry.reject_calls n x) end.
    assert (Hd : Registry.nodesByConn r = jm_delete (Registry.nodesByConn (ws_registry w)) (up_connId u)).
    { subst r. rewrite reject_calls_conns. by destruct (ws_registry w). }
    apply Hp; [exact Hc1|done..| |].
    + change (jm_wf (Registry.nodesByConn r)). rewrite Hd. by apply jm_wf_delete.
    + change (jm_get (Registry.nodesByConn r) (up_connId u) = None). rewrite Hd. by apply jm_get_delete_eq.
Qed.

Lemma node_id_named p : valid_params p -> Registry.node_id (node_params p) <> "".
Proof. intros (_ & Hc & Hd). unfold Registry.node_id, node_params. cbn. by destruct (pm_device p). Qed.

Lemma admit_registry now id a w :
  ws_registry (admit_client isGatewayCliClient u now id a w) =
  if String.eqb (ad_role a) "node"
  then Registry.register now (up_connId u) (node_params (ad_params a)) (reportedClientIp u) (ws_registry w) else ws_registry w.
Proof. unfold admit_client, register_node, track_presence. repeat case_match; try done; by destruct (String.eqb (ad_role a) "node"). Qed.

Lemma admit_tidy now id a p w : ws_waiting w = [] -> ws_client w = None -> ws_closed w = false -> valid_params p -> role_scopes_ok p a ->
  tidy w -> tidy (admit_client isGatewayCliClient u now id a w).
Proof.
  intros Hw Hc Hcl Hp (_ & _ & Hr & _ & Hdv & Hci) [H1 _ H3 H4]. destruct (admit_clients now id a w) as (Hc' & Hcs & Hw' & Hcl').
  assert (Hnone : session_of w = None) by (destruct H4 as [|(? & ? & ? & _)]; [done|congruence]).
  assert (Hid : Registry.node_id (node_params (ad_params a)) <> "").
  { replace (Registry.node_id (node_params (ad_params a))) with (Registry.node_id (node_params p)); [by apply node_id_named|].
    unfold Registry.node_id, node_params. cbn. by rewrite Hci, Hdv. }
  pose proof (admit_registry now id a w) as Hreg. split.
  - by rewrite Hcs, Hcl', Hc', H1, Hcl, Hc.
  - left. by rewrite Hw'.
  - rewrite Hreg. destruct (String.eqb _ _); [|done]. destruct (ws_registry w). cbn in *. by apply jm_wf_set.
  - unfold session_of in *. rewrite Hreg. destruct (String.eqb_spec (ad_role a) "node") as [Hn|]; [|by left]. right.
    exists (new_client a w), (Registry.node_id (node_params (ad_params a))). split_and!; [done|by rewrite <- Hn| |done].
    destruct (ws_registry w). apply jm_get_set_eq.
Qed.

Lemma tidy_event e w : valid_event e -> orderly e w -> tidy w -> tidy (perform e w).
Proof.
  intros Hv Ho Ht. destruct e as [d m|k now s|id msg| | | |r|snap]; cbn [perform orderly] in *.
  - destruct (receive_step d m w) as [Hs|(id & p & -> & Hn & Hcl & ->)]; [by eapply tidy_preserved|].
    destruct Ht as [H1 _ H3 H4]. split; [exact H1| |exact H3|exact H4]. right. exists id, p. split_and!; [cbn; by rewrite Ho|exact Hv|done..].
  - destruct (ws_waiting w !! k) as [[id p]|] eqn:Hk; [|done]. destruct (ti_waiting _ Ht) as [Hw|(id' & p' & Hw & Hp & Hc & Hcl)]; [by rewrite Hw in Hk|].
    rewrite Hw in Hk. apply list_lookup_singleton_Some in Hk as [-> [= -> ->]].
    set (w0 := w <| ws_waiting ::= delete 0%nat |>).
    assert (Hw0 : ws_waiting w0 = []) by (subst w0; cbn; by rewrite Hw).
    assert (Ht0 : tidy w0) by (destruct Ht as [H1 _ H3 H4]; split; [exact H1|by left|exact H3|exact H4]).
    assert (Hc0 : ws_client w0 = None) by done. assert (Hcl0 : ws_closed w0 = false) by done. clearbody w0.
    destruct (run_handshake _ _ _ _ _ _ _ _ _ _ _) as [s' [e|a]] eqn:E; cbn [snd]; [by eapply tidy_preserved; [apply ends_step|..]|].
    pose proof (handshake_admission _ _ _ _ _ _ _ _ _ _ _ _ _ (proj1 Hp) E) as (_ & _ & Hrs & _). by eapply admit_tidy.
  - by destruct Ht as [H1 H2 H3 H4]; split.
  - eapply tidy_preserved; [apply timer_step|done..].
  - eapply tidy_preserved; [apply close_step|done..].
  - by apply socket_closed_tidy.
  - destruct Ht as [H1 H2 _ H4], Ho as [Hwf Hs]. split; [exact H1|exact H2|exact Hwf|]. unfold session_of in *. cbn. by rewrite Hs.
  - by destruct Ht as [H1 H2 H3 H4]; split.
Qed.

Lemma tidy_run l w : orderly_run l w -> tidy w -> tidy (run l w).
Proof. revert w. induction l as [|e l IH]; intros w; [done|]. intros (Hv & Ho & Hr) Ht. apply IH; [done|by apply tidy_event]. Qed.

(** When the socket ends, the client is no longer among the clients and its session no
    longer in the registry, if the client waited for its answers and no handshake was
    running when the connection was closed. *)
Theorem ended_connection_forgotten nonce registry health l : jm_wf (Registry.nodesByConn registry) ->
  jm_get (Registry.nodesByConn registry) (up_connId u) = None ->
  orderly_run (l ++ [ev_closed]) (opened_connection nonce registry health) ->
  let w := run (l ++ [ev_closed]) (opened_connection nonce registry health) in
  ws_closed w = true /\ ws_clients w = [] /\ session_of w = None.
Proof.
  intros Hwf Hs Ho. cbv zeta. unfold run. rewrite foldl_app. cbn [foldl perform]. fold (run l (opened_connection nonce registry health)).
  assert (Hl : orderly_run l (opened_connection nonce registry health) /\ ws_waiting (run l (opened_connection nonce registry health)) = []).
  { revert Ho. generalize (opened_connection nonce registry health). induction l as [|e l IH]; intros w; cbn; [by intros (_ & ? & _)|].
    intros (? & ? & (? & ?)%IH). auto. }
  destruct Hl as [Hl Hw]. assert (Ht : tidy (run l (opened_connection nonce registry health))).
  { apply tidy_run; [done|]. split; [done|by left|done|by left]. }
  destruct (socket_closed_tidy _ Hw Ht) as (_ & Hc & Hses). split; [apply close_closes|done].
Qed.
End life.

(** ** Theorems on texts *)

(** The members of a payload without the separators. *)
Definition plain (p : DeviceAuthPayloadParams) : Prop :=
  Forall (fun s => free_of "|" s = true) (payload_fields p) /\ Forall (fun s => free_of "," s = true /\ s <> "") (dp_scopes p).

Lemma join_inj c l k : Forall (fun s => free_of c s = true /\ s <> "") l -> Forall (fun s => free_of c s = true /\ s <> "") k ->
  join_with (String c "") l = join_with (String c "") k -> l = k.
Proof.
  intros Hl Hk E. assert (He : forall m, Forall (fun s => free_of c s = true /\ s <> "") m -> join_with (String c "") m = "" -> m = []).
  { intros [|a m] Hm Hj; [done|]. apply Forall_cons in Hm as [[_ Ha] _]. cbn in Hj. destruct m; [done|].
    by destruct a. }
  destruct l as [|a l]; [symmetry; apply He; [done|]; by rewrite <- E|]. destruct k as [|b k]; [by apply He|].
  assert (Hs : forall m, m <> [] -> Forall (fun s => free_of c s = true /\ s <> "") m -> js_split c (join_with (String c "") m) = m).
  { intros m Hm Hf. apply js_split_join; [done|]. eapply Forall_impl; [exact Hf|]. by intros ? [? _]. }
  rewrite <- (Hs (a :: l)), <- (Hs (b :: k)) by done. by rewrite E.
Qed.

Lemma js_toString_inj a b : js_toString a = js_toString b -> a = b.
Proof. intros E. apply (f_equal parseInt) in E. rewrite !parseInt_toString in E. by injection E. Qed.

(** What a device signs determines what the gateway checks, as long as no member holds a
    separator. *)
Theorem device_payload_unambiguous p q : plain p -> plain q -> buildDeviceAuthPayload p = buildDeviceAuthPayload q ->
  payload_version p = payload_version q /\ dp_deviceId p = dp_deviceId q /\ dp_clientId p = dp_clientId q /\
  dp_clientMode p = dp_clientMode q /\ dp_role p = dp_role q /\ dp_scopes p = dp_scopes q /\ dp_signedAtMs p = dp_signedAtMs q /\
  default "" (dp_token p) = default "" (dp_token q) /\
  (payload_version p = "v2" -> default "" (dp_nonce p) = default "" (dp_nonce q)).
Proof.
  intros [Hp Hps] [Hq Hqs] E. unfold buildDeviceAuthPayload in E.
  assert (Hf : payload_fields p = payload_fields q).
  { rewrite <- (js_split_join "|" (payload_fields p)), <- (js_split_join "|" (payload_fields q)) by done. by rewrite E. }
  unfold payload_fields in Hf. injection Hf as Hv Hd Hc Hm Hr Hs Ht Hk Hn. split_and!; [done..| | |done|].
  - by apply (join_inj ",").
  - by apply js_toString_inj.
  - intros H2. rewrite <- Hv, H2 in Hn. by injection Hn.
Qed.

Definition signed_example (scopes : list string) (nonce : option string) : DeviceAuthPayloadParams :=
  mkPayloadParams "d1" "cli" "cli" "operator" scopes 1700000000000 (Some "t0ken") nonce None.

Lemma device_payload_unambiguous_witness :
  ~ buildDeviceAuthPayload (signed_example ["operator.read"] (Some "n1")) = buildDeviceAuthPayload (signed_example ["operator.read"] (Some "n2")).
Proof.
  intros E. assert (Hp : forall n, free_of "|" n = true -> plain (signed_example ["operator.read"] (Some n)) \/ n = "").
  { intros n Hn. destruct n as [|c n]; [by right|]. left. split; repeat constructor; try done. }
  destruct (Hp "n1" eq_refl) as [H1|]; [|done]. destruct (Hp "n2" eq_refl) as [H2|]; [|done].
  destruct (device_payload_unambiguous _ _ H1 H2 E) as (_ & _ & _ & _ & _ & _ & _ & _ & Hn). discriminate (Hn eq_refl).
Defined.

(** One scope with a comma is signed as two scopes are. *)
Example comma_joins_scopes : buildDeviceAuthPayload (signed_example ["operator.read,operator.admin"] None) =
  buildDeviceAuthPayload (signed_example ["operator.read"; "operator.admin"] None).
Proof. reflexivity. Qed.

Lemma decoded_prefix_length n buf : js_str_length (decoded_prefix n buf) <= Z.of_nat n + 2.
Proof.
  revert buf. induction n as [|n IH]; intros [|c t]; cbn [decoded_prefix]; try (change (js_str_length "") with 0; lia).
  destruct (is_lead_byte c && (n =? 0)%nat) eqn:E; [change (js_str_length replacement_bytes) with 3; lia|].
  specialize (IH t). unfold js_str_length in *. cbn [String.length]. lia.
Qed.

(** The reason of a close fits a control frame, which takes 123 bytes, although the
    replacement of a cut character may exceed the limit the code sets. *)
Theorem close_reason_fits reason : js_str_length (truncateCloseReason reason CLOSE_REASON_MAX_BYTES) <= 122.
Proof.
  unfold truncateCloseReason, CLOSE_REASON_MAX_BYTES. destruct (negb (truthy_str reason)); [done|]. cbv zeta.
  destruct (Z.leb_spec (js_str_length (utf8_text reason)) 120); [lia|]. pose proof (decoded_prefix_length (Z.to_nat 120) (utf8_text reason)). lia.
Qed.

(** ** Runs *)
Module Runs.

(** A store that knows the devices of a table, and grants silent requests. *)
#[export] Instance table_pairing : DevicePairing (jsmap PairedDevice) := {
  verifyDeviceToken := fun _ _ _ _ d => (d, inr false);
  requestDevicePairing := fun q d => (d, inr (mkPairing ("request-" +:+ pq_deviceId q) (pq_silent q) true));
  approveDevicePairing := fun id d => (d, inr (Some id));
  getPairedDevice := fun id d => (d, inr (jm_get d id));
  updatePairedDeviceMetadata := fun _ _ d => (d, inr tt);
  ensureDeviceToken := fun _ _ _ d => (d, inr None)
}.

Definition no_url (s : string) : option URL := None.
Definition no_whois (ip : string) : string + option WhoisIdentity := inr None.
Definition is_mode (mode : string) (id m : string) : bool := String.eqb m mode.
(** The id of a device is its key with a mark; a signature is the text signed. *)
Definition derived (key : string) : option string := Some ("id-" +:+ key).
Definition signs (key payload signature : string) : bool := String.eqb payload signature.

Definition remote_upgrade (insecure disabled : bool) : Upgrade :=
  mkUpgrade "conn-1" (mkIncomingMessage (Some "203.0.113.7") (Some "gw.example.com") []) "nonce-1"
    (mkResolvedGatewayAuth mode_token (Some "s3cret") None false) [] [] insecure disabled None None ["health"] ["tick"] None.
Definition client_params (id mode role : string) (device : option Device) (token : string) : ConnectParams :=
  mkConnectParams 3 3 (mkClientInfo id None "1.0" "linux" None None mode None) None (Some ["system.notify"; "rm"]) None None (Some role) None
    device (Some token) None.
Definition a_node : ConnectParams := client_params "node-host" "node" "node" None "s3cret".

Definition run_at (u : Upgrade) (l : list (Event (D := jsmap PairedDevice))) : World :=
  run (A := unit) no_url no_whois (is_mode "cli") (is_mode "webchat") derived Some signs None [] u l
    (opened_connection (up_connectNonce u) Registry.new_NodeRegistry new_HealthState).
Definition u0 : Upgrade := remote_upgrade false false.
Definition connect (p : ConnectParams) : Event (D := jsmap PairedDevice) := ev_message [] (request "1" "connect" (inr p)).
Definition ended : Event (D := jsmap PairedDevice) := ev_handshake 0 1000 (mkHs [] []).

(** What is left: whether the connection is closed, the number of clients and the session. *)
Definition left_over (u : Upgrade) (l : list (Event (D := jsmap PairedDevice))) : bool * nat * option string :=
  let w := run_at u l in (ws_closed w, length (ws_clients w), session_of u w).

Example a_node_comes_and_goes :
  left_over u0 [connect a_node; ended] = (false, 1%nat, Some "node-host") /\ left_over u0 [connect a_node; ended; ev_closed] = (true, 0%nat, None).
Proof. vm_compute. auto. Qed.

(** The end of the socket during a handshake: the client and the session are made
    afterwards, and nothing removes them. *)
Example closed_during_handshake : left_over u0 [connect a_node; ev_closed; ended] = (true, 1%nat, Some "node-host").
Proof. vm_compute. reflexivity. Qed.

(** The timer during a handshake: the client stays among the clients. *)
Example timeout_during_handshake : left_over u0 [connect a_node; ev_timer; ended; ev_closed] = (true, 1%nat, None).
Proof. vm_compute. reflexivity. Qed.

(** Two requests before the answer are two handshakes, and the first client stays. *)
Example two_handshakes : left_over u0 [connect a_node; connect a_node; ended; ended; ev_closed] = (true, 1%nat, None).
Proof. vm_compute. reflexivity. Qed.

(** A guess that makes the comparison throw ends the connection without an answer. *)
Example exception_is_not_answered :
  let w := run_at u0 [connect (client_params "cli" "cli" "operator" None (String (ascii_of_nat 233) "3cret")); ended] in
  ws_closed w = true /\ ws_sent w = [sent_challenge "nonce-1"] /\ ws_cause w = None.
Proof. vm_compute. auto. Qed.

(** With the authentication of devices switched off for the control page, a client that
    calls itself the control page and a node is registered under any device id it names. *)
Example unproved_device_registers :
  let u := mkUpgrade "conn-1" (mkIncomingMessage (Some "127.0.0.1") (Some "localhost") [("origin", one_header "http://localhost")]) "nonce-1"
    (up_auth u0) [] [] false true None None [] [] None in
  let origin := fun _ : string => Some (mkURL "http://localhost" "localhost" "localhost") in
  let p := client_params CONTROL_UI "ui" "node" (Some (mkDevice "victim" "" "" 0 None)) "s3cret" in
  session_of u (run (A := unit) origin no_whois (is_mode "cli") (is_mode "webchat") (fun _ => None) (fun _ => None) (fun _ _ _ => false) None [] u
    [connect p; ended] (opened_connection "nonce-1" Registry.new_NodeRegistry new_HealthState)) = Some "victim".
Proof. vm_compute. reflexivity. Qed.

(** A device that is not paired, with a signature over the nonce. *)
Definition a_device (nonce : string) : Device :=
  let payload := buildDeviceAuthPayload (mkPayloadParams "id-k" "cli" "cli" "operator" [] 900 (Some "s3cret") (Some nonce) (Some "v2")) in
  mkDevice "id-k" "k" payload 900 (Some nonce).
Definition a_paired_device : PairedDevice := mkPairedDevice "k" None (Some ["operator"]) (Some ["operator.admin"]).
Definition last_answer (nonce : string) (d : jsmap PairedDevice) : option Sent :=
  last (ws_sent (run_at u0 [connect (client_params "cli" "cli" "operator" (Some (a_device nonce)) "s3cret"); ev_handshake 0 1000 (mkHs d [])])).

Example devices_are_checked :
  last_answer "nonce-2" [] = Some (sent_error "1" (errorShape INVALID_REQUEST "device nonce mismatch")) /\
  last_answer "nonce-1" [] = Some (sent_error "1" (mkErrorShape NOT_PAIRED "pairing required" (Some (pairing_request "request-id-k")))) /\
  match last_answer "nonce-1" [("id-k", a_paired_device)] with Some (sent_hello "1" h) => ho_protocol h = 3 | _ => False end.
Proof. vm_compute. auto. Qed.

Definition with_device : list (Event (D := jsmap PairedDevice)) :=
  [connect (client_params "cli" "cli" "operator" (Some (a_device "nonce-1")) "s3cret"); ev_handshake 0 1000 (mkHs [("id-k", a_paired_device)] [])].

Lemma clients_have_passed_witness :
  exists c p, ws_client (run_at u0 with_device) = Some c /\
    passed (D := jsmap PairedDevice) no_url no_whois (is_mode "webchat") derived Some signs u0 p 1000 [("id-k", a_paired_device)] c.
Proof.
  assert (Hv : Forall (valid_event (D := jsmap PairedDevice)) with_device) by (repeat constructor; done).
  pose proof (clients_have_passed (A := unit) no_url no_whois (is_mode "cli") (is_mode "webchat") derived Some signs None [] u0
    "nonce-1" Registry.new_NodeRegistry new_HealthState with_device Hv) as [_ H].
  change (run _ _ _ _ _ _ _ _ _ _ _ _) with (run_at u0 with_device) in H.
  destruct (ws_client (run_at u0 with_device)) as [c|] eqn:E; [|vm_compute in E; discriminate E].
  destruct (H c eq_refl) as (es1 & k & now & s & es2 & id & p & El & _ & _ & _ & Hp). exists c, p. split; [done|].
  destruct es1 as [|e1 [|e2 es1]]; [discriminate El| |destruct es1; discriminate El].
  injection El as _ _ <- <- _. exact Hp.
Defined.

Lemma ended_connection_forgotten_witness :
  let w := run_at u0 [connect a_node; ended; ev_closed] in ws_clients w = [] /\ session_of u0 w = None.
Proof.
  pose proof (ended_connection_forgotten (A := unit) no_url no_whois (is_mode "cli") (is_mode "webchat") derived Some signs None [] u0
    "nonce-1" Registry.new_NodeRegistry new_HealthState [connect a_node; ended]) as H.
  cbv zeta in H. destruct H as (_ & Hc & Hs); [constructor|reflexivity| |exact (conj Hc Hs)].
  change ([connect a_node; ended] ++ [ev_closed]) with [connect a_node; ended; ev_closed].
  split; [by repeat constructor|]. split; [done|]. split; [done|]. split; [done|]. split; [done|]. split; [|done].
  vm_compute. reflexivity.
Defined.
End Runs.
