(* ===== verification/GatewayChannels.v ===== *)
(** * Channels and runs of the gateway

    openclaw/gateway/server-channels.ts: the manager that starts and stops the accounts of
    the channels; openclaw/gateway/server-methods/agent-job.ts: waiting for the end of a run
    of an agent.  A channel is a plugin outside: what it answers about its accounts, and
    when its tasks end, are inputs; a call that waits is kept in a list until it goes on.
    The configuration is one for a whole run, where the code reads it at every start and
    stop, and the check of a configured account answers and does not throw. *)

From S2P Require Import Prelude JsMap JsString JsNumber Json.
From Stdlib Require Import Ascii.

(** ** The manager of channels *)
Module Manager.

(** A snapshot of an account is an object; a member that is undefined counts as null. *)
Definition Snapshot : Type := jsmap json.
Definition member (k : string) (s : Snapshot) : json := default JNull (jm_get s k).
(** [{...a, ...b}]. *)
Definition spread (a b : Snapshot) : Snapshot := foldl (fun m kv => jm_set m kv.1 kv.2) a b.
Definition nullish (j : json) : bool := match j with JNull => true | _ => false end.
Definition is_running (s : Snapshot) : bool := match member "running" s with JBool b => b | _ => false end.

(** What the plugin of a channel says of the configuration of the moment. *)
Record Plugin := mkPlugin {
  pg_starts : bool;                                (* gateway.startAccount *)
  pg_stops : bool;                                 (* gateway.stopAccount *)
  pg_listAccountIds : list string;
  pg_isEnabled : string -> bool;
  pg_disabledReason : string -> option string;
  pg_checks : bool;                                (* config.isConfigured *)
  pg_unconfiguredReason : string -> option string;
  pg_described : string -> option bool;            (* describeAccount(...).configured *)
  pg_defaultRuntime : option Snapshot;
  pg_defaultAccountId : string
}.

(** A task that was started: its serial number is that of its abort controller. *)
Record Task := mkTask { tk_serial : nat; tk_account : string }.

(** The store of a channel: the maps of the code, the tasks that run, the controllers that
    were aborted, the starts that wait for the check of the configuration, and the stops
    that wait for a task. *)
Record Store := mkStore {
  aborts : jsmap nat; tasks : jsmap nat; runtimes : jsmap Snapshot;
  live : list Task; aborted : list nat; starting : list string; stopping : list (string * option nat); serial : nat
}.
#[export] Instance Store_eta : EtaRecord Store := fun s =>
  mkStore (aborts s) (tasks s) (runtimes s) (live s) (aborted s) (starting s) (stopping s) (serial s).
Definition createRuntimeStore : Store := mkStore [] [] [] [] [] [] [] 0.

Implicit Types s : Store.

Section channel.
Context (plugin : Plugin).

Definition cloneDefaultRuntime (accountId : string) : Snapshot :=
  jm_set (default [("accountId", JStr "default")] (pg_defaultRuntime plugin)) "accountId" (JStr accountId).
Definition getRuntime (accountId : string) s : Snapshot := default (cloneDefaultRuntime accountId) (jm_get (runtimes s) accountId).
Definition setRuntime (accountId : string) (patch : Snapshot) s : Store :=
  let next := jm_set (spread (getRuntime accountId s) patch) "accountId" (JStr accountId) in
  s <| runtimes ::= fun m => jm_set m accountId next |>.

Definition not_running (reason : string) : Snapshot := [("running", JBool false); ("lastError", JStr reason)].

(** *** Starting an account *)

(** The second half, after the check of the configuration. *)
Definition launch (now : Z) (id : string) (configured : bool) s : Store :=
  if negb configured
  then setRuntime id (not_running (default "not configured" (pg_unconfiguredReason plugin id))) s
  else
    let n := serial s in
    let s := setRuntime id [("running", JBool true); ("lastStartAt", JNum now); ("lastError", JNull)]
               (s <| serial ::= S |> <| aborts ::= fun m => jm_set m id n |>) in
    s <| live ::= fun l => l ++ [mkTask n id] |> <| tasks ::= fun m => jm_set m id n |>.

(** The first half: an account with a task is left alone. *)
Definition start_account (now : Z) (id : string) s : Store :=
  if jm_has (tasks s) id then s
  else if negb (pg_isEnabled plugin id) then setRuntime id (not_running (default "disabled" (pg_disabledReason plugin id))) s
  else if pg_checks plugin then s <| starting ::= fun l => l ++ [id] |>
  else launch now id true s.

Definition startChannel (now : Z) (accountId : option string) s : Store :=
  if negb (pg_starts plugin) then s else
  let accountIds := match accountId with Some id => if truthy_str id then [id] else pg_listAccountIds plugin | None => pg_listAccountIds plugin end in
  foldl (fun s id => start_account now id s) s accountIds.

(** The check of the [k]-th start that waits answers. *)
Definition configured_answers (now : Z) (k : nat) (configured : bool) s : Store :=
  match starting s !! k with
  | Some id => launch now id configured (s <| starting ::= delete k |>)
  | None => s
  end.

(** A task ends, with an exception or without: the entries of its account are deleted. *)
Definition task_ends (now : Z) (n : nat) (error : option string) s : Store :=
  match List.find (fun t => (tk_serial t =? n)%nat) (live s) with
  | None => s
  | Some t =>
      let id := tk_account t in
      let s := s <| live ::= keep (fun t => negb (tk_serial t =? n)%nat) |> in
      let s := match error with Some message => setRuntime id [("lastError", JStr message)] s | None => s end in
      setRuntime id [("running", JBool false); ("lastStopAt", JNum now)]
        (s <| aborts ::= fun m => jm_delete m id |> <| tasks ::= fun m => jm_delete m id |>)
  end.

(** *** Stopping *)

(** The first half: the controller is aborted, and the task is waited for. *)
Definition stop_account (id : string) s : Store :=
  let abort := jm_get (aborts s) id in
  let task := jm_get (tasks s) id in
  if match abort, task with None, None => negb (pg_stops plugin) | _, _ => false end then s
  else s <| aborted ::= fun l => l ++ option_list abort |> <| stopping ::= fun l => l ++ [(id, task)] |>.

Definition knownIds (accountId : option string) s : list string :=
  match accountId with
  | Some id => if truthy_str id then [id] else remove_dups (jm_keys (aborts s) ++ jm_keys (tasks s) ++ pg_listAccountIds plugin)
  | None => remove_dups (jm_keys (aborts s) ++ jm_keys (tasks s) ++ pg_listAccountIds plugin)
  end.
Definition stopChannel (accountId : option string) s : Store := foldl (fun s id => stop_account id s) s (knownIds accountId s).

Definition is_live (n : nat) s : bool := existsb (fun t => (tk_serial t =? n)%nat) (live s).

(** The second half, when the task that was read has ended. *)
Definition stop_goes_on (now : Z) (k : nat) s : Store :=
  match stopping s !! k with
  | Some (id, task) =>
      if match task with Some n => is_live n s | None => false end then s else
      setRuntime id [("running", JBool false); ("lastStopAt", JNum now)]
        (s <| stopping ::= delete k |> <| aborts ::= fun m => jm_delete m id |> <| tasks ::= fun m => jm_delete m id |>)
  | None => s
  end.

(** *** Snapshots *)

Definition markChannelLoggedOut (cleared : bool) (accountId : option string) s : Store :=
  let id := default (pg_defaultAccountId plugin) accountId in
  let current := getRuntime id s in
  setRuntime id ([("running", JBool false); ("lastError", if cleared then JStr "logged out" else member "lastError" current)] ++
                 match member "connected" current with JBool _ => [("connected", JBool false)] | _ => [] end) s.

Definition account_snapshot (id : string) s : Snapshot :=
  let next := jm_set (getRuntime id s) "accountId" (JStr id) in
  let or_error := fun reason => if nullish (member "lastError" next) then jm_set next "lastError" (JStr reason) else next in
  if is_running next then next
  else if negb (pg_isEnabled plugin id) then or_error (default "disabled" (pg_disabledReason plugin id))
  else if bool_decide (pg_described plugin id = Some false) then or_error (default "not configured" (pg_unconfiguredReason plugin id))
  else next.

(** The snapshot of the default account, and those of all accounts. *)
Definition getRuntimeSnapshot s : Snapshot * jsmap Snapshot :=
  let accounts := foldl (fun m id => jm_set m id (account_snapshot id s)) [] (pg_listAccountIds plugin) in
  (default (cloneDefaultRuntime (pg_defaultAccountId plugin)) (jm_get accounts (pg_defaultAccountId plugin)), accounts).
End channel.

(** *** Theorems on the manager *)

Lemma running_cleared plugin now name s :
  is_running (getRuntime plugin name (setRuntime plugin name [("running", JBool false); ("lastStopAt", JNum now)] s)) = false.
Proof.
  unfold getRuntime at 1, setRuntime. cbn [runtimes field_update]. destruct s. cbn. rewrite jm_get_set_eq. cbn [default from_option id].
  unfold is_running, member, spread. cbn [foldl fst snd]. by rewrite jm_get_set_ne, jm_get_set_ne, jm_get_set_eq.
Qed.

Section props.
Context (plugin : Plugin).

Inductive Event :=
  | ev_start (now : Z) (accountId : option string) | ev_configured (now : Z) (k : nat) (configured : bool)
  | ev_task_ends (now : Z) (n : nat) (error : option string)
  | ev_stop (accountId : option string) | ev_stop_goes_on (now : Z) (k : nat) | ev_stop_fails (k : nat)
  | ev_status (id : string) (patch : Snapshot) | ev_logged_out (cleared : bool) (accountId : option string).

(** [ev_stop_fails] is a stop whose [stopAccount] throws, [ev_status] a call of setStatus. *)
Definition perform (e : Event) s : Store :=
  match e with
  | ev_start now accountId => startChannel plugin now accountId s
  | ev_configured now k configured => configured_answers plugin now k configured s
  | ev_task_ends now n error => task_ends plugin now n error s
  | ev_stop accountId => stopChannel plugin accountId s
  | ev_stop_goes_on now k => stop_goes_on plugin now k s
  | ev_stop_fails k => s <| stopping ::= delete k |>
  | ev_status id patch => setRuntime plugin id patch s
  | ev_logged_out cleared accountId => markChannelLoggedOut plugin cleared accountId s
  end.
Definition run (l : list Event) s : Store := foldl (fun s e => perform e s) s l.

(** An account is not started or stopped while a start of it waits, nor started while a
    stop of it waits. *)
Definition quiet (id : string) s : Prop := id ∉ starting s /\ id ∉ (stopping s).*1.
Definition orderly (e : Event) s : Prop :=
  match e with
  | ev_start _ (Some id) => id <> "" /\ quiet id s
  | ev_start _ None => NoDup (pg_listAccountIds plugin) /\ forall id, id ∈ pg_listAccountIds plugin -> quiet id s
  | ev_stop (Some id) => id <> "" /\ id ∉ starting s
  | ev_stop None => starting s = []
  | _ => True
  end.
Fixpoint orderly_run (l : list Event) s : Prop :=
  match l with [] => True | e :: l => orderly e s /\ orderly_run l (perform e s) end.

(** The map of tasks holds exactly the tasks that run, with their controllers. *)
Record tracked s : Prop := {
  tr_tasks : jm_wf (tasks s); tr_aborts : jm_wf (aborts s);
  tr_live id n : jm_get (tasks s) id = Some n <-> mkTask n id ∈ live s;
  tr_same id : jm_get (aborts s) id = jm_get (tasks s) id;
  tr_serial t : t ∈ live s -> (tk_serial t < serial s)%nat;
  tr_distinct : NoDup (tk_serial <$> live s);
  tr_starting : NoDup (starting s);
  tr_waits id : id ∈ starting s -> jm_get (tasks s) id = None /\ id ∉ (stopping s).*1;
  tr_stops id t : (id, t) ∈ stopping s -> jm_get (tasks s) id = None \/ jm_get (tasks s) id = t
}.

Lemma tracked_runtimes f s : tracked s -> tracked (s <| runtimes ::= f |>).
Proof. intros [H1 H2 H3 H4 H5 H6 H7 H8 H9]. by split. Qed.
Lemma tracked_setRuntime id patch s : tracked s -> tracked (setRuntime plugin id patch s).
Proof. apply tracked_runtimes. Qed.

(** What the bookkeeping of a start does to the maps. *)
Lemma launch_maps now id s :
  let s' := launch plugin now id true s in
  tasks s' = jm_set (tasks s) id (serial s) /\ aborts s' = jm_set (aborts s) id (serial s) /\
  live s' = live s ++ [mkTask (serial s) id] /\ starting s' = starting s /\ stopping s' = stopping s /\ serial s' = S (serial s) /\
  aborted s' = aborted s.
Proof. by destruct s. Qed.

Lemma launch_tracked now id b s : jm_get (tasks s) id = None -> quiet id s -> tracked s -> tracked (launch plugin now id b s).
Proof.
  intros Hn [Hq1 Hq2] Ht. destruct b; [|by apply tracked_setRuntime]. destruct Ht as [H1 H2 H3 H4 H5 H6 H7 H8 H9].
  destruct (launch_maps now id s) as (E1 & E2 & E3 & E4 & E5 & E6 & _). split; rewrite ?E1, ?E2, ?E3, ?E4, ?E5, ?E6.
  - by apply jm_wf_set.
  - by apply jm_wf_set.
  - intros id' n. rewrite elem_of_app, list_elem_of_singleton. destruct (decide (id' = id)) as [->|Hne].
    + rewrite jm_get_set_eq. split.
      * intros [= <-]. by right.
      * intros [Hl|[= ->]]; [|done]. apply H3 in Hl. congruence.
    + rewrite jm_get_set_ne by done. rewrite H3. split; [by left|]. intros [|[= _ ?]]; done.
  - intros id'. destruct (decide (id' = id)) as [->|Hne]; [by rewrite !jm_get_set_eq|]. by rewrite !jm_get_set_ne.
  - intros t [Hl%H5| ->%list_elem_of_singleton]%elem_of_app; cbn; lia.
  - rewrite fmap_app. apply NoDup_app. split_and!; [done| |apply NoDup_singleton].
    intros n (t & -> & Hl%H5)%list_elem_of_fmap Hin%list_elem_of_singleton. cbn in Hin. lia.
  - done.
  - intros id' Hin. destruct (decide (id' = id)) as [->|Hne]; [done|]. rewrite jm_get_set_ne by done. by apply H8.
  - intros id' t Hin. destruct (decide (id' = id)) as [->|Hne]; [|rewrite jm_get_set_ne by done; by apply H9].
    destruct Hq2. apply list_elem_of_fmap. by exists (id, t).
Qed.

Lemma start_account_tracked now id s : quiet id s -> tracked s -> tracked (start_account plugin now id s).
Proof.
  intros [Hq1 Hq2] Ht. unfold start_account. destruct (jm_has (tasks s) id) eqn:Hh; [done|]. apply jm_has_false in Hh.
  destruct (pg_isEnabled plugin id); cbn [negb]; [|by apply tracked_setRuntime].
  destruct (pg_checks plugin); [|by apply launch_tracked]. destruct Ht as [H1 H2 H3 H4 H5 H6 H7 H8 H9]. split; try done; cbn.
  - apply NoDup_app. split_and!; [done| |apply NoDup_singleton]. by intros x Hx ->%list_elem_of_singleton.
  - intros id' [Hin| ->%list_elem_of_singleton]%elem_of_app; [by apply H8|done].
Qed.
Lemma start_account_others now id s id' : id' <> id -> quiet id' s -> quiet id' (start_account plugin now id s).
Proof.
  intros Hne [H1 H2]. unfold start_account, launch. repeat case_match; split; try done. cbn. set_solver.
Qed.

Lemma starts_tracked now ids s : NoDup ids -> (forall id, id ∈ ids -> quiet id s) -> tracked s ->
  tracked (foldl (fun s id => start_account plugin now id s) s ids).
Proof.
  intros Hnd. revert s. induction Hnd as [|id ids Hni _ IH]; intros s Hq Ht; [done|]. cbn. apply IH.
  - intros id' Hin. apply start_account_others; [set_solver|]. apply Hq. by right.
  - apply start_account_tracked; [|done]. apply Hq. by left.
Qed.

Lemma delete_not_in {A} (l : list A) k x : NoDup l -> l !! k = Some x -> x ∉ delete k l.
Proof.
  intros Hnd Hk. rewrite delete_take_drop. rewrite <- (take_drop_middle l k x Hk) in Hnd. apply NoDup_app in Hnd as (_ & Hd & Hx).
  apply NoDup_cons in Hx as [Hx _]. rewrite elem_of_app. intros [Hin|Hin]; [|done]. apply (Hd x Hin). by left.
Qed.

Lemma configured_tracked now k b s : tracked s -> tracked (configured_answers plugin now k b s).
Proof.
  intros Ht. unfold configured_answers. destruct (starting s !! k) as [id|] eqn:Hk; [|done].
  pose proof (list_elem_of_lookup_2 _ _ _ Hk) as Hin. destruct (tr_waits _ Ht id Hin) as [Hn Hq]. pose proof (tr_starting _ Ht) as Hnd.
  apply launch_tracked; [done| |].
  - split; [|done]. by apply delete_not_in.
  - destruct Ht as [H1 H2 H3 H4 H5 H6 H7 H8 H9]. split; try done; cbn.
    + eapply sublist_NoDup; [exact H7|apply sublist_delete].
    + intros id' Hd. apply H8. eapply elem_of_sublist; [exact Hd|apply sublist_delete].
Qed.

Lemma find_live n s t : List.find (fun t => (tk_serial t =? n)%nat) (live s) = Some t -> t ∈ live s /\ tk_serial t = n.
Proof. intros [Hin Hn]%find_some. apply list_elem_of_In in Hin. by apply Nat.eqb_eq in Hn. Qed.
Lemma live_same s t t' : tracked s -> t ∈ live s -> t' ∈ live s -> tk_serial t = tk_serial t' \/ tk_account t = tk_account t' -> t = t'.
Proof.
  intros Ht Hin Hin' He. destruct t as [n id], t' as [n' id']; cbn in He.
  assert (E1 : jm_get (tasks s) id = Some n) by (by apply Ht). assert (E2 : jm_get (tasks s) id' = Some n') by (by apply Ht).
  destruct He as [->| ->]; [|congruence]. apply list_elem_of_lookup in Hin as [i Hi], Hin' as [j Hj].
  assert (i = j) as ->; [|congruence]. eapply NoDup_lookup; [apply (tr_distinct _ Ht)| |]; rewrite list_lookup_fmap.
  - by rewrite Hi.
  - by rewrite Hj.
Qed.

Lemma task_ends_tracked now n error s : tracked s -> tracked (task_ends plugin now n error s).
Proof.
  intros Ht. unfold task_ends. destruct (List.find _ _) as [t|] eqn:Hf; [|done]. apply find_live in Hf as [Hin <-]. cbv zeta.
  apply tracked_setRuntime. set (s1 := match error with Some _ => _ | None => _ end).
  assert (E : tasks s1 = tasks s /\ aborts s1 = aborts s /\ live s1 = keep (fun x => negb (tk_serial x =? tk_serial t)%nat) (live s) /\
              starting s1 = starting s /\ stopping s1 = stopping s /\ serial s1 = serial s) by (subst s1; by destruct error).
  clearbody s1. destruct E as (E1 & E2 & E3 & E4 & E5 & E6).
  assert (Hlive : forall x, x ∈ live s1 <-> x ∈ live s /\ tk_account x <> tk_account t).
  { intros x. rewrite E3, elem_of_keep, negb_true_iff, Nat.eqb_neq. split; intros [Ha Hb]; split; try done.
    - intros He. apply Ha. f_equal. apply (live_same s); auto.
    - intros He. apply Hb. f_equal. apply (live_same s); auto. }
  pose proof Ht as [H1 H2 H3 H4 H5 H6 H7 H8 H9]. split; cbn; rewrite ?E1, ?E2, ?E4, ?E5, ?E6.
  - by apply jm_wf_delete.
  - by apply jm_wf_delete.
  - intros id m. change (live (s1 <| aborts ::= _ |> <| tasks ::= _ |>)) with (live s1). rewrite Hlive. cbn [tk_account]. rewrite jm_get_delete by done.
    case_decide as Hd; [split; [done|intros [_ ?]; congruence]|]. rewrite H3. split; [intros ?; split; [done|congruence]|by intros [? _]].
  - intros id. rewrite !jm_get_delete by done. by case_decide.
  - intros x [Hx _]%Hlive. by apply H5.
  - change (live (s1 <| aborts ::= _ |> <| tasks ::= _ |>)) with (live s1). rewrite E3.
    eapply sublist_NoDup; [exact H6|]. apply fmap_sublist. unfold keep. apply sublist_filter.
  - done.
  - intros id Hid. destruct (H8 id Hid) as [Hn Hq]. split; [|done]. rewrite jm_get_delete by done. by case_decide.
  - intros id o Ho. rewrite jm_get_delete by done. case_decide; [by left|by apply H9].
Qed.

Lemma stop_account_tracked id s : id ∉ starting s -> tracked s -> tracked (stop_account plugin id s) /\ starting (stop_account plugin id s) = starting s.
Proof.
  intros Hq Ht. unfold stop_account. case_match; [done|]. split; [|done]. destruct Ht as [H1 H2 H3 H4 H5 H6 H7 H8 H9]. split; try done; cbn.
  - intros id' Hin. destruct (H8 id' Hin) as [Hn Hs]. split; [done|]. rewrite fmap_app, elem_of_app. cbn. rewrite list_elem_of_singleton. intros [| ->]; done.
  - intros id' t [Hin|Hin]%elem_of_app; [by apply H9|]. apply list_elem_of_singleton in Hin. injection Hin as -> ->. by right.
Qed.

Lemma stops_tracked ids s : (forall id, id ∈ ids -> id ∉ starting s) -> tracked s -> tracked (foldl (fun s id => stop_account plugin id s) s ids).
Proof.
  revert s. induction ids as [|id ids IH]; intros s Hq Ht; [done|]. cbn.
  destruct (stop_account_tracked id s) as [Ht' Es]; [apply Hq; by left|done|]. apply IH; [|done]. rewrite Es. intros id' Hin. apply Hq. by right.
Qed.

Lemma drop_stop_tracked k s : tracked s -> tracked (s <| stopping ::= delete k |>).
Proof.
  intros [H1 H2 H3 H4 H5 H6 H7 H8 H9]. split; try done; cbn.
  - intros id Hin. destruct (H8 id Hin) as [Hn Hs]. split; [done|]. intros (t & -> & Hd)%list_elem_of_fmap.
    apply Hs, list_elem_of_fmap. exists t. split; [done|]. eapply elem_of_sublist; [exact Hd|apply sublist_delete].
  - intros id t Hin. apply H9. eapply elem_of_sublist; [exact Hin|apply sublist_delete].
Qed.

Lemma is_live_false n s : is_live n s = false <-> forall t, t ∈ live s -> tk_serial t <> n.
Proof.
  unfold is_live. rewrite <- not_true_iff_false, existsb_exists. split.
  - intros Hn t Hin He. apply Hn. exists t. rewrite <- list_elem_of_In, Nat.eqb_eq. done.
  - intros Hn (t & Hin & He). rewrite <- list_elem_of_In in Hin. apply Nat.eqb_eq in He. by apply (Hn t).
Qed.

(** The task that a stop waited for is the last one of its account. *)
Lemma stopped_task_gone k id task s : tracked s -> stopping s !! k = Some (id, task) ->
  match task with Some n => is_live n s | None => false end = false -> jm_get (tasks s) id = None.
Proof.
  intros Ht Hk Hl. destruct (tr_stops _ Ht id task (list_elem_of_lookup_2 _ _ _ Hk)) as [|He]; [done|]. rewrite He.
  destruct task as [n|]; [|done]. rewrite is_live_false in Hl. apply Ht in He. by destruct (Hl _ He).
Qed.

Lemma stop_goes_on_tracked now k s : tracked s -> tracked (stop_goes_on plugin now k s).
Proof.
  intros Ht. unfold stop_goes_on. destruct (stopping s !! k) as [[id task]|] eqn:Hk; [|done].
  destruct (match task with Some n => is_live n s | None => false end) eqn:Hl; [done|]. apply tracked_setRuntime.
  pose proof (stopped_task_gone _ _ _ _ Ht Hk Hl) as Hn. apply drop_stop_tracked with (k := k) in Ht.
  destruct Ht as [H1 H2 H3 H4 H5 H6 H7 H8 H9].
  assert (Ed : forall id', jm_get (jm_delete (tasks s) id) id' = jm_get (tasks s) id').
  { intros id'. rewrite jm_get_delete by done. case_decide; congruence. }
  split; try done; cbn in *.
  - by apply jm_wf_delete.
  - by apply jm_wf_delete.
  - intros id' n. rewrite Ed. apply H3.
  - intros id'. rewrite Ed, jm_get_delete by done. case_decide as Hd; [by rewrite <- Hd in *|apply H4].
  - intros id' Hin. rewrite Ed. by apply H8.
  - intros id' t Hin. rewrite Ed. by apply H9.
Qed.

Lemma tracked_event e s : orderly e s -> tracked s -> tracked (perform e s).
Proof.
  intros Ho Ht. destruct e as [now [id|]|now k b|now n error|[id|]|now k|k|id patch|c id]; cbn [perform orderly] in *.
  - destruct Ho as [Hid%truthy_str_true Hq]. unfold startChannel. destruct (pg_starts plugin); [|done]. cbn [negb]. rewrite Hid. by apply start_account_tracked.
  - destruct Ho as [Hnd Hq]. unfold startChannel. destruct (pg_starts plugin); [|done]. by apply starts_tracked.
  - by apply configured_tracked.
  - by apply task_ends_tracked.
  - destruct Ho as [Hid%truthy_str_true Hq]. unfold stopChannel, knownIds. rewrite Hid. by apply stop_account_tracked.
  - unfold stopChannel. apply stops_tracked; [|done]. rewrite Ho. intros ? _. apply not_elem_of_nil.
  - by apply stop_goes_on_tracked.
  - by apply drop_stop_tracked.
  - by apply tracked_setRuntime.
  - unfold markChannelLoggedOut. by apply tracked_setRuntime.
Qed.

Lemma tracked_run l s : orderly_run l s -> tracked s -> tracked (run l s).
Proof. revert s. induction l as [|e l IH]; intros s; [done|]. intros [Ho Hr] Ht. apply IH; [done|by apply tracked_event]. Qed.
Lemma tracked_new : tracked createRuntimeStore.
Proof. split; try done; try apply jm_wf_nil; try apply NoDup_nil_2; intros *; cbn; try (by intros ?%not_elem_of_nil); split; [done|by intros ?%not_elem_of_nil]. Qed.

(** C37: when the starts and stops of an account do not overlap, an account has at most one
    task, the map of tasks holds exactly the tasks that run, the controllers kept are
    theirs, and a stop that goes on leaves its account without a task. *)
Theorem one_task_per_account l : orderly_run l createRuntimeStore ->
  let s := run l createRuntimeStore in
  NoDup (tk_account <$> live s) /\
  (forall id n, jm_get (tasks s) id = Some n <-> mkTask n id ∈ live s) /\
  (forall id, jm_get (aborts s) id = jm_get (tasks s) id) /\
  (forall now k id task, stopping s !! k = Some (id, task) -> match task with Some n => is_live n s | None => false end = false ->
     let s' := stop_goes_on plugin now k s in
     jm_get (tasks s') id = None /\ id ∉ tk_account <$> live s' /\ is_running (getRuntime plugin id s') = false).
Proof.
  intros Ho. cbv zeta. pose proof (tracked_run l _ Ho tracked_new) as Ht. set (s := run l createRuntimeStore) in *. clearbody s.
  split_and!; [|by apply Ht..|].
  - apply NoDup_fmap_2_strong; [|by eapply NoDup_fmap_1, Ht]. intros t t' Hin Hin' He. apply (live_same s); auto.
  - intros now k id task Hk Hl. pose proof (stop_goes_on_tracked now k s Ht) as Ht'.
    assert (Hn : jm_get (tasks (stop_goes_on plugin now k s)) id = None).
    { unfold stop_goes_on. rewrite Hk, Hl. cbn. by apply jm_get_delete_eq, Ht. }
    split_and!; [done| |].
    + intros ([n id'] & -> & Hin)%list_elem_of_fmap. apply Ht' in Hin. cbn in Hn. congruence.
    + unfold stop_goes_on. rewrite Hk, Hl. by apply running_cleared.
Qed.
End props.

(** *** Runs *)

(** A channel with two accounts, whose configuration is checked or not. *)
Definition a_channel (checks : bool) : Plugin :=
  mkPlugin true false ["a"; "b"] (fun _ => true) (fun _ => None) checks (fun _ => None) (fun _ => None) None "a".
Definition seen s : list Task * jsmap nat * list nat := (live s, tasks s, aborted s).
Definition start_a : Event := ev_start 1 (Some "a").
Definition stop_a : Event := ev_stop (Some "a").

Example start_and_stop :
  seen (run (a_channel false) [ev_start 1 None; stop_a] createRuntimeStore) = ([mkTask 0 "a"; mkTask 1 "b"], [("a", 0%nat); ("b", 1%nat)], [0%nat]) /\
  seen (run (a_channel false) [ev_start 1 None; stop_a; ev_task_ends 2 0 None; ev_stop_goes_on 3 0] createRuntimeStore) =
    ([mkTask 1 "b"], [("b", 1%nat)], [0%nat]).
Proof. vm_compute. auto. Qed.

(** Two starts while the configuration is checked give an account two tasks.  The maps
    hold the second only: a stop aborts it, and the first goes on with nothing that names
    it. *)
Example two_starts_two_tasks :
  seen (run (a_channel true) [start_a; start_a; ev_configured 2 0 true; ev_configured 2 0 true] createRuntimeStore) =
    ([mkTask 0 "a"; mkTask 1 "a"], [("a", 1%nat)], []) /\
  seen (run (a_channel true) [start_a; start_a; ev_configured 2 0 true; ev_configured 2 0 true; stop_a; ev_task_ends 3 1 None; ev_stop_goes_on 4 0]
          createRuntimeStore) = ([mkTask 0 "a"], [], [1%nat]).
Proof. vm_compute. auto. Qed.

(** When one of the two ends, the other is forgotten and a third can be started. *)
Example end_forgets_the_other :
  seen (run (a_channel true) [start_a; start_a; ev_configured 2 0 true; ev_configured 2 0 true; ev_task_ends 3 0 None; start_a; ev_configured 4 0 true]
          createRuntimeStore) = ([mkTask 1 "a"; mkTask 2 "a"], [("a", 2%nat)], []).
Proof. vm_compute. reflexivity. Qed.

(** A stop while the configuration is checked stops nothing. *)
Example stop_during_start :
  seen (run (a_channel true) [start_a; stop_a; ev_configured 2 0 true] createRuntimeStore) = ([mkTask 0 "a"], [("a", 0%nat)], []).
Proof. vm_compute. reflexivity. Qed.

Lemma one_task_per_account_witness :
  let s := run (a_channel false) [ev_start 1 None; stop_a; ev_task_ends 2 0 None] createRuntimeStore in
  jm_get (tasks (stop_goes_on (a_channel false) 3 0 s)) "a" = None /\ mkTask 1 "b" ∈ live s.
Proof.
  cbv zeta. destruct (one_task_per_account (a_channel false) [ev_start 1 None; stop_a; ev_task_ends 2 0 None]) as (_ & Hl & _ & Hs).
  - cbn. unfold quiet. split_and!; try done; try (by intros; split; apply not_elem_of_nil); try apply not_elem_of_nil.
    repeat constructor; set_solver.
  - split; [|by apply Hl]. by apply (Hs 3 0%nat "a" (Some 0%nat)).
Defined.
End Manager.

(** ** Waiting for the end of a run *)
Module AgentJob.

Definition AGENT_RUN_CACHE_TTL_MS : Z := 10 * 60000.

Record AgentRunSnapshot := mkAgentRunSnapshot {
  ar_runId : string; ar_failed : bool; ar_startedAt : option Z; ar_endedAt : option Z; ar_error : option string; ar_ts : Z
}.
(** An event of an agent as far as it is read here. *)
Record AgentEvent := mkAgentEvent {
  ae_runId : string; ae_stream : string; ae_phase : string; ae_startedAt : option Z; ae_endedAt : option Z; ae_error : option string
}.
Record Waiter := mkWaiter { wt_serial : nat; wt_runId : string }.

(** The two maps, the calls that wait, in the order of their listeners, and the answers
    given. *)
Record Jobs := mkJobs {
  agentRunCache : jsmap AgentRunSnapshot; agentRunStarts : jsmap Z;
  waiters : list Waiter; answers : list (nat * option AgentRunSnapshot); calls : nat
}.
#[export] Instance Jobs_eta : EtaRecord Jobs := fun s =>
  mkJobs (agentRunCache s) (agentRunStarts s) (waiters s) (answers s) (calls s).
Definition new_Jobs : Jobs := mkJobs [] [] [] [] 0.

Implicit Types s : Jobs.

Definition pruneAgentRunCache (now : Z) s : Jobs :=
  s <| agentRunCache ::= keep (fun kv => negb (AGENT_RUN_CACHE_TTL_MS <? now - ar_ts kv.2)) |>.
Definition recordAgentRunSnapshot (entry : AgentRunSnapshot) s : Jobs :=
  (pruneAgentRunCache (ar_ts entry) s) <| agentRunCache ::= fun m => jm_set m (ar_runId entry) entry |>.
Definition getCachedAgentRun (now : Z) (runId : string) s : Jobs * option AgentRunSnapshot :=
  let s := pruneAgentRunCache now s in (s, jm_get (agentRunCache s) runId).

Definition ends (e : AgentEvent) : bool := String.eqb (ae_phase e) "end" || String.eqb (ae_phase e) "error".
Definition snapshot_of (now : Z) (e : AgentEvent) s : AgentRunSnapshot :=
  mkAgentRunSnapshot (ae_runId e) (String.eqb (ae_phase e) "error")
    (match ae_startedAt e with Some t => Some t | None => jm_get (agentRunStarts s) (ae_runId e) end) (ae_endedAt e) (ae_error e) now.

(** The listener of the module. *)
Definition listener (now : Z) (e : AgentEvent) s : Jobs :=
  if negb (String.eqb (ae_stream e) "lifecycle") then s
  else if String.eqb (ae_phase e) "start" then s <| agentRunStarts ::= fun m => jm_set m (ae_runId e) (default now (ae_startedAt e)) |>
  else if negb (ends e) then s
  else recordAgentRunSnapshot (snapshot_of now e s) (s <| agentRunStarts ::= fun m => jm_delete m (ae_runId e) |>).

Definition finish (n : nat) (entry : option AgentRunSnapshot) s : Jobs :=
  if existsb (fun w => (wt_serial w =? n)%nat) (waiters s)
  then s <| waiters ::= keep (fun w => negb (wt_serial w =? n)%nat) |> <| answers ::= fun l => l ++ [(n, entry)] |>
  else s.

(** The listener of a call that waits. *)
Definition waiter_hears (now : Z) (e : AgentEvent) (w : Waiter) s : Jobs :=
  if negb (String.eqb (ae_stream e) "lifecycle") || negb (String.eqb (ae_runId e) (wt_runId w)) || negb (ends e) then s
  else
    let '(s, cached) := getCachedAgentRun now (wt_runId w) s in
    match cached with
    | Some c => finish (wt_serial w) (Some c) s
    | None =>
        let snapshot := snapshot_of now e s in
        finish (wt_serial w) (Some snapshot) (recordAgentRunSnapshot snapshot s)
    end.

(** An event reaches the listener of the module first. *)
Definition agent_event (now : Z) (e : AgentEvent) s : Jobs :=
  foldl (fun s w => waiter_hears now e w s) (listener now e s) (waiters s).

Definition waitForAgentJob (now : Z) (runId : string) (timeoutMs : Z) s : Jobs :=
  let n := calls s in
  let s := s <| calls ::= S |> in
  let '(s, cached) := getCachedAgentRun now runId s in
  match cached with
  | Some c => s <| answers ::= fun l => l ++ [(n, Some c)] |>
  | None =>
      if timeoutMs <=? 0 then s <| answers ::= fun l => l ++ [(n, None)] |>
      else s <| waiters ::= fun l => l ++ [mkWaiter n runId] |>
  end.
Definition timerDelayMs (timeoutMs : Z) : Z := Z.max 1 (Z.min timeoutMs 2147483647).
Definition timer_fires (n : nat) s : Jobs := finish n None s.

(** *** Theorems on waiting *)

Inductive step : Jobs -> Jobs -> Prop :=
  | step_event now e s : step s (agent_event now e s)
  | step_wait now runId timeoutMs s : step s (waitForAgentJob now runId timeoutMs s)
  | step_timer n s : step s (timer_fires n s).

(** Every call is either waiting or answered, once. *)
Definition answered_once s : Prop := Permutation ((wt_serial <$> waiters s) ++ (answers s).*1) (seq 0 (calls s)).

Definition others (n : nat) (w : Waiter) : bool := negb (wt_serial w =? n)%nat.
Lemma others_all n l : n ∉ (wt_serial <$> l) -> keep (others n) l = l.
Proof.
  unfold keep, others. induction l as [|w l IH]; intros Hni; [done|]. rewrite filter_cons. cbn in Hni. apply not_elem_of_cons in Hni as [Hw Hl].
  rewrite decide_True; [by rewrite IH|]. by apply negb_true_iff, Nat.eqb_neq.
Qed.
Lemma take_out n l : NoDup (wt_serial <$> l) -> n ∈ (wt_serial <$> l) -> Permutation ((wt_serial <$> keep (others n) l) ++ [n]) (wt_serial <$> l).
Proof.
  induction l as [|w l IH]; [by intros _ ?%not_elem_of_nil|]. rewrite !fmap_cons. intros [Hni Hnd]%NoDup_cons Hin.
  destruct (decide (wt_serial w = n)) as [<-|Hne].
  - replace (keep (others (wt_serial w)) (w :: l)) with (keep (others (wt_serial w)) l).
    + rewrite others_all by done. by rewrite Permutation_app_comm.
    + unfold keep. rewrite filter_cons_False; [done|]. unfold others. by rewrite Nat.eqb_refl.
  - unfold keep. rewrite filter_cons_True by (by apply negb_true_iff, Nat.eqb_neq). rewrite fmap_cons. cbn. apply perm_skip, IH; [done|].
    apply elem_of_cons in Hin as [|]; [congruence|done].
Qed.

Lemma waits_iff n s : existsb (fun w => (wt_serial w =? n)%nat) (waiters s) = true <-> n ∈ (wt_serial <$> waiters s).
Proof.
  rewrite existsb_exists, list_elem_of_fmap. split.
  - intros (w & Hin & He%Nat.eqb_eq). apply list_elem_of_In in Hin. eauto.
  - intros (w & -> & Hin). exists w. rewrite <- list_elem_of_In, Nat.eqb_refl. done.
Qed.

Lemma finish_answered n r s : answered_once s -> answered_once (finish n r s).
Proof.
  unfold answered_once, finish. destruct (existsb _ _) eqn:E; [|done]. apply waits_iff in E. intros Hp.
  assert (Hnd : NoDup (wt_serial <$> waiters s)).
  { apply (NoDup_app (wt_serial <$> waiters s) (answers s).*1). rewrite Hp. apply NoDup_seq. }
  destruct s as [c st ws ans k]. cbn in *. rewrite fmap_app. cbn. rewrite <- Hp, (Permutation_app_comm ans.*1), app_assoc.
  apply Permutation_app_tail. by apply take_out.
Qed.

Lemma prune_answered now s : answered_once s -> answered_once (pruneAgentRunCache now s).
Proof. done. Qed.
Lemma record_answered e s : answered_once s -> answered_once (recordAgentRunSnapshot e s).
Proof. done. Qed.
Lemma hears_answered now e w s : answered_once s -> answered_once (waiter_hears now e w s).
Proof.
  intros Ha. unfold waiter_hears. destruct (_ || _ || _); [done|]. unfold getCachedAgentRun. cbv zeta.
  destruct (jm_get _ _); by apply finish_answered.
Qed.
Lemma listener_answered now e s : answered_once s -> answered_once (listener now e s).
Proof. intros Ha. unfold listener. by repeat case_match. Qed.

Lemma wait_answered now runId timeoutMs s : answered_once s -> answered_once (waitForAgentJob now runId timeoutMs s).
Proof.
  unfold waitForAgentJob, getCachedAgentRun, answered_once. intros Ha. destruct s as [c st ws ans k]. cbn -[seq] in *.
  destruct (jm_get _ _); [|destruct (timeoutMs <=? 0)]; cbn -[seq]; rewrite ?seq_S, ?fmap_app; cbn -[seq]; rewrite <- Ha.
  - by rewrite app_assoc.
  - by rewrite app_assoc.
  - rewrite <- !app_assoc. apply Permutation_app_head. by rewrite Permutation_app_comm.
Qed.

Lemma step_answered s s' : step s s' -> answered_once s -> answered_once s'.
Proof.
  intros [now e t|now r tm t|n t] Ha.
  - unfold agent_event. apply (foldl_inv answered_once (fun _ => True)); [|by apply Forall_true|by apply listener_answered].
    intros. by apply hears_answered.
  - by apply wait_answered.
  - by apply finish_answered.
Qed.

(** Every call is answered at most once, whatever happens, and until then it waits. *)
Theorem jobs_answered_once s : rtc step new_Jobs s -> answered_once s.
Proof. intros Hr. assert (H0 : answered_once new_Jobs) by constructor. revert H0. induction Hr; [done|]. intros. by apply IHHr, (step_answered x). Qed.

Lemma jobs_answered_once_witness :
  let e := mkAgentEvent "r" "lifecycle" "end" None (Some 9) None in
  let s := agent_event 10 e (waitForAgentJob 5 "r" 1000 new_Jobs) in
  answered_once s /\ answers s = [(0%nat, Some (mkAgentRunSnapshot "r" false None (Some 9) None 10))].
Proof.
  cbv zeta. split; [|reflexivity]. apply jobs_answered_once. eapply rtc_l; [apply (step_wait 5 "r" 1000)|]. apply rtc_once. constructor.
Defined.

(** *** The end of a run answers every call that waits for it *)

Lemma hears_other now e w s : ae_runId e <> wt_runId w -> waiter_hears now e w s = s.
Proof. intros Hn. unfold waiter_hears. by rewrite (proj2 (String.eqb_neq _ _) Hn), orb_true_r. Qed.

Definition fresh (now : Z) (c : AgentRunSnapshot) s : Prop := jm_get (agentRunCache s) (ar_runId c) = Some c /\ ar_ts c = now /\ jm_wf (agentRunCache s).

Lemma prune_fresh now c s : fresh now c s -> fresh now c (pruneAgentRunCache now s).
Proof.
  intros (Hg & Ht & Hw). destruct s as [m st ws ans k]. unfold fresh, pruneAgentRunCache, keep. cbn in *.
  assert (Hw' : jm_wf (filter (fun kv : string * AgentRunSnapshot => negb (AGENT_RUN_CACHE_TTL_MS <? now - ar_ts kv.2) = true) m)).
  { unfold jm_wf, jm_keys in *. eapply sublist_NoDup; [exact Hw|]. apply fmap_sublist, sublist_filter. }
  split_and!; [|done|done]. apply jm_elem_of_get; [done|]. apply list_elem_of_filter. split; [|by apply jm_elem_of_get].
  cbn. rewrite Ht, Z.sub_diag. done.
Qed.

(** The calls that wait for the run. *)
Definition waits_for (runId : string) (w : Waiter) : bool := String.eqb (wt_runId w) runId.


Lemma hears_end now e c w s : ends e = true -> ae_stream e = "lifecycle" -> ae_runId e = wt_runId w -> ar_runId c = wt_runId w -> fresh now c s ->
  exists s1, waiter_hears now e w s = finish (wt_serial w) (Some c) s1 /\ fresh now c s1 /\ waiters s1 = waiters s /\ answers s1 = answers s.
Proof.
  intros He Hl Hr Hc Hf. unfold waiter_hears. rewrite Hl, Hr, String.eqb_refl, He. cbn [negb orb]. unfold getCachedAgentRun. cbv zeta.
  pose proof (prune_fresh _ _ _ Hf) as Hf'. pose proof (proj1 Hf') as Hg. rewrite Hc in Hg. rewrite Hg.
  rewrite String.eqb_refl.
  exists (pruneAgentRunCache now s). split; [done|]. split; [exact Hf'|done].
Qed.

Lemma finish_fresh now c n r s : fresh now c s -> fresh now c (finish n r s).
Proof. unfold finish. by destruct (existsb _ _). Qed.

Lemma hears_all now e c ws s : ends e = true -> ae_stream e = "lifecycle" -> ar_runId c = ae_runId e -> fresh now c s ->
  (forall w, w ∈ ws -> w ∈ waiters s) -> NoDup (wt_serial <$> ws) ->
  let s' := foldl (fun s w => waiter_hears now e w s) s ws in
  answers s' = answers s ++ ((fun w => (wt_serial w, Some c)) <$> keep (waits_for (ae_runId e)) ws) /\
  (forall w, w ∈ waiters s' <-> w ∈ waiters s /\ forall v, v ∈ keep (waits_for (ae_runId e)) ws -> wt_serial v <> wt_serial w).
Proof.
  intros He Hl Hc. cbv zeta. revert s. induction ws as [|w ws IH]; intros s Hf Hin Hnd.
  - cbn. rewrite app_nil_r. split; [done|]. intros v. split; [|by intros [? _]]. intros Hv. split; [done|]. by intros x Hx%not_elem_of_nil.
  - cbn [foldl]. rewrite fmap_cons in Hnd. apply NoDup_cons in Hnd as [Hni Hnd].
    assert (Hws : forall w', w' ∈ ws -> wt_serial w' <> wt_serial w) by (intros w' Hw' E; apply Hni; rewrite <- E; by apply list_elem_of_fmap_2).
    rewrite keep_cons. change (waits_for (ae_runId e) w) with (String.eqb (wt_runId w) (ae_runId e)).
    destruct (String.eqb_spec (wt_runId w) (ae_runId e)) as [Hr|Hr].
    + destruct (hears_end now e c w s) as (s1 & -> & Hf1 & Hw1 & Ha1); [done|done|by rewrite Hr|by rewrite Hc, Hr|done|].
      assert (Hwait : existsb (fun x => (wt_serial x =? wt_serial w)%nat) (waiters s1) = true).
      { apply waits_iff. rewrite Hw1. apply list_elem_of_fmap_2, Hin. by left. }
      assert (Hfin : forall x, x ∈ waiters (finish (wt_serial w) (Some c) s1) <-> x ∈ waiters s /\ wt_serial x <> wt_serial w).
      { intros x. unfold finish. rewrite Hwait. cbn. fold (others (wt_serial w)). rewrite elem_of_keep, Hw1. unfold others. rewrite negb_true_iff, Nat.eqb_neq. tauto. }
      destruct (IH (finish (wt_serial w) (Some c) s1)) as [IA IW]; [by apply finish_fresh| |done|].
      { intros v Hv. apply Hfin. split; [apply Hin; by right|by apply Hws]. }
      split.
      * rewrite IA. unfold finish. rewrite Hwait. cbn. rewrite Ha1, <- (app_assoc _ [_]). done.
      * intros v. rewrite IW, Hfin. split; [intros [[Hv Hd] Ho]|intros [Hv Ho]]; (split; [|]).
        -- done.
        -- intros x [->|Hx]%elem_of_cons; [congruence|by apply Ho].
        -- split; [done|]. intros E. apply (Ho w); [by left|done].
        -- intros x Hx. apply Ho. by right.
    + rewrite hears_other by congruence. apply IH; [done| |done]. intros v Hv. apply Hin. by right.
Qed.

(** When a run ends, the calls that wait for it are answered with the snapshot that was
    just recorded, in their order, and only the others go on waiting; the branch of a call
    that finds no snapshot is never taken. *)
Theorem end_answers_waiters now e s : ends e = true -> ae_stream e = "lifecycle" -> answered_once s -> jm_wf (agentRunCache s) ->
  exists c, ar_runId c = ae_runId e /\ ar_failed c = String.eqb (ae_phase e) "error" /\ ar_ts c = now /\
    answers (agent_event now e s) = answers s ++ ((fun w => (wt_serial w, Some c)) <$> keep (waits_for (ae_runId e)) (waiters s)) /\
    (forall w, w ∈ waiters (agent_event now e s) <-> w ∈ waiters s /\ wt_runId w <> ae_runId e).
Proof.
  intros He Hl Ha Hw. exists (snapshot_of now e s). set (c := snapshot_of now e s).
  assert (Hls : listener now e s = recordAgentRunSnapshot c (s <| agentRunStarts ::= fun m => jm_delete m (ae_runId e) |>)).
  { unfold listener. rewrite Hl, He. cbn [negb String.eqb]. unfold ends in He. destruct (String.eqb_spec (ae_phase e) "start") as [E|]; [|done].
    by rewrite E in He. }
  assert (Hf : fresh now c (listener now e s)).
  { rewrite Hls. split_and!; [exact (jm_get_set_eq _ _ _)|done|]. refine (jm_wf_set _ _ _ _). cbn.
    unfold keep, jm_wf, jm_keys in *. eapply sublist_NoDup; [exact Hw|]. apply fmap_sublist, sublist_filter. }
  assert (Hsame : waiters (listener now e s) = waiters s /\ answers (listener now e s) = answers s) by (by rewrite Hls).
  clear Hls. destruct Hsame as [Hws Has].
  assert (Hnd : NoDup (wt_serial <$> waiters s)).
  { apply (NoDup_app (wt_serial <$> waiters s) (answers s).*1). unfold answered_once in Ha. rewrite Ha. apply NoDup_seq. }
  destruct (hears_all now e c (waiters s) (listener now e s)) as [HA HW]; [done..|by rewrite Hws|done|].
  split_and!; [done..|by rewrite <- Has|]. intros w. unfold agent_event. rewrite HW, Hws. split.
  - intros [Hin Hd]. split; [done|]. intros E. apply (Hd w); [|done]. apply elem_of_keep. split; [|done]. by apply String.eqb_eq.
  - intros [Hin Hd]. split; [done|]. intros v [Hv Hvin]%elem_of_keep E. apply String.eqb_eq in Hv. apply Hd.
    rewrite <- Hv. f_equal. apply list_elem_of_lookup in Hin as [i Hi], Hvin as [j Hj].
    assert (i = j) as ->; [|congruence]. eapply NoDup_lookup; [exact Hnd| |]; rewrite list_lookup_fmap; [by rewrite Hi|by rewrite Hj, <- E].
Qed.

Lemma end_answers_waiters_witness :
  let e := mkAgentEvent "r" "lifecycle" "error" None (Some 9) (Some "boom") in
  let s := waitForAgentJob 6 "q" 1000 (waitForAgentJob 5 "r" 1000 new_Jobs) in
  waiters (agent_event 10 e s) = [mkWaiter 1 "q"] /\ mkWaiter 0 "r" ∉ waiters (agent_event 10 e s).
Proof.
  cbv zeta. split; [reflexivity|]. destruct (end_answers_waiters 10 (mkAgentEvent "r" "lifecycle" "error" None (Some 9) (Some "boom"))
    (waitForAgentJob 6 "q" 1000 (waitForAgentJob 5 "r" 1000 new_Jobs))) as (c & _ & _ & _ & _ & Hw); [reflexivity|reflexivity|apply wait_answered, wait_answered; constructor|constructor|].
  rewrite Hw. by intros [_ Hd].
Defined.

(** A run that is begun again under the same id: who waits for it gets the end of the run
    before. *)
Example earlier_end_answers :
  let phase := fun now p => agent_event now (mkAgentEvent "r" "lifecycle" p None None None) in
  answers (waitForAgentJob 60000 "r" 1000 (phase 50000 "start" (phase 10 "end" (phase 0 "start" new_Jobs)))) =
    [(0%nat, Some (mkAgentRunSnapshot "r" false (Some 0) None None 10))].
Proof. vm_compute. reflexivity. Qed.
End AgentJob.
