(* ===== verification/GatewayHttp.v ===== *)
(** * Requests over HTTP of the gateway

    openclaw/gateway/hooks.ts: the settings, the body and the payloads of hooks;
    hooks-mapping.ts: the mappings from paths to actions with their templates;
    server-http.ts: the handler of hooks, the order of the handlers and the authorization
    of the canvas; server/hooks.ts: what a hook sets in motion.  The URL of a request is
    given by its path and its query; channels, transform modules, the clock and drawn ids
    are inputs. *)

From S2P Require Import Prelude JsMap JsString JsNumber JsRegExp Json GatewayNet GatewayAuth GatewayMethods GatewayNodes GatewayHandshake.
From Stdlib Require Import Ascii.

(** ** Settings *)

Inductive WakeMode := wake_now | next_heartbeat.
#[export] Instance WakeMode_eq_dec : EqDecision WakeMode.
Proof. solve_decision. Defined.
Definition mode_text (m : WakeMode) : string := match m with wake_now => "now" | next_heartbeat => "next-heartbeat" end.
Inductive ActionKind := kind_wake | kind_agent.

Record HookTransform := mkHookTransform { tf_module : string; tf_export : option string }.
(** A mapping of the configuration, and, with every default filled in, a resolved one. *)
Record HookMappingConfig := mkHookMappingConfig {
  hc_id : option string; hc_matchPath : option string; hc_matchSource : option string;
  hc_action : option ActionKind; hc_wakeMode : option WakeMode; hc_name : option string; hc_sessionKey : option string;
  hc_messageTemplate : option string; hc_textTemplate : option string; hc_deliver : option bool; hc_allowUnsafe : option bool;
  hc_channel : option string; hc_to : option string; hc_model : option string; hc_thinking : option string;
  hc_timeoutSeconds : option Z; hc_transform : option HookTransform
}.
#[export] Instance HookMappingConfig_eta : EtaRecord HookMappingConfig := fun m =>
  mkHookMappingConfig (hc_id m) (hc_matchPath m) (hc_matchSource m) (hc_action m) (hc_wakeMode m) (hc_name m) (hc_sessionKey m)
    (hc_messageTemplate m) (hc_textTemplate m) (hc_deliver m) (hc_allowUnsafe m) (hc_channel m) (hc_to m) (hc_model m)
    (hc_thinking m) (hc_timeoutSeconds m) (hc_transform m).
Record HookMapping := mkHookMapping {
  hm_id : string; hm_matchPath : option string; hm_matchSource : option string; hm_action : ActionKind; hm_wakeMode : WakeMode;
  hm_name : option string; hm_sessionKey : option string; hm_messageTemplate : option string; hm_textTemplate : option string;
  hm_deliver : option bool; hm_allowUnsafe : option bool; hm_channel : option string; hm_to : option string;
  hm_model : option string; hm_thinking : option string; hm_timeoutSeconds : option Z; hm_transform : option HookTransform
}.

Definition brace (c : string) : string := "{" +:+ "{" +:+ c +:+ "}" +:+ "}".
Definition gmail_preset : HookMappingConfig :=
  mkHookMappingConfig (Some "gmail") (Some "gmail") None (Some kind_agent) (Some wake_now) (Some "Gmail")
    (Some ("hook:gmail:" +:+ brace "messages[0].id"))
    (Some ("New email from " +:+ brace "messages[0].from" +:+ newline +:+ "Subject: " +:+ brace "messages[0].subject" +:+ newline +:+
           brace "messages[0].snippet" +:+ newline +:+ brace "messages[0].body"))
    None None None None None None None None None.
Definition hookPresetMappings : jsmap (list HookMappingConfig) := [("gmail", [gmail_preset])].

Definition strip_leading : string -> string := replace_first (re_seq re_start (re_plus (re_lit "/"))) (fun _ => "").
Definition strip_trailing : string -> string := replace_first (re_seq (re_plus (re_lit "/")) re_end) (fun _ => "").

Definition normalizeMatchPath (raw : option string) : option string :=
  match raw with
  | Some r => if truthy_str r then
                let t := js_trim r in
                if truthy_str t then Some (strip_trailing (strip_leading t)) else None
              else None
  | None => None
  end.

Definition resolvePath (baseDir target : string) : string :=
  if negb (truthy_str target) then baseDir
  else if js_startsWith target "/" then target else path_join [baseDir; target].

(** [s?.trim() || d]. *)
Definition trimmed_or (s : option string) (d : string) : string :=
  match s with Some s => if truthy_str (js_trim s) then js_trim s else d | None => d end.

Definition normalizeHookMapping (m : HookMappingConfig) (index : nat) (transformsDir : string) : HookMapping :=
  mkHookMapping (trimmed_or (hc_id m) ("mapping-" +:+ js_toString (Z.of_nat index + 1))) (normalizeMatchPath (hc_matchPath m))
    (js_trim <$> hc_matchSource m) (default kind_agent (hc_action m)) (default wake_now (hc_wakeMode m)) (hc_name m) (hc_sessionKey m)
    (hc_messageTemplate m) (hc_textTemplate m) (hc_deliver m) (hc_allowUnsafe m) (hc_channel m) (hc_to m) (hc_model m) (hc_thinking m)
    (hc_timeoutSeconds m)
    ((fun t => mkHookTransform (resolvePath transformsDir (tf_module t))
                 (match tf_export t with Some e => trimmed (Some e) | None => None end)) <$> hc_transform m).

Record HooksConfig := mkHooksConfig {
  ho_enabled : option bool; ho_token : option string; ho_path : option string; ho_maxBodyBytes : option Z;
  ho_presets : list string; ho_gmailAllowUnsafe : option bool; ho_mappings : list HookMappingConfig; ho_transformsDir : option string
}.

(** A name of Object.prototype as a preset is not iterable, and spreading it throws. *)
Definition preset_mappings (gmailAllowUnsafe : option bool) (preset : string) : string + list HookMappingConfig :=
  match member_of hookPresetMappings preset with
  | no_member => inr []
  | inherited => inl "Spread syntax requires ...iterable[Symbol.iterator] to be a function"
  | own l => match gmailAllowUnsafe with
             | Some b => if String.eqb preset "gmail" then inr ((fun m => m <| hc_allowUnsafe := Some b |>) <$> l) else inr l
             | None => inr l
             end
  end.
Fixpoint all_presets (gmailAllowUnsafe : option bool) (presets : list string) : string + list HookMappingConfig :=
  match presets with
  | [] => inr []
  | p :: ps => match preset_mappings gmailAllowUnsafe p, all_presets gmailAllowUnsafe ps with
               | inl e, _ => inl e | inr _, inl e => inl e | inr l, inr k => inr (l ++ k)
               end
  end.

(** [configDir] is the directory of the configuration file. *)
Definition resolveHookMappings (configDir : string) (hooks : HooksConfig) : string + list HookMapping :=
  match all_presets (ho_gmailAllowUnsafe hooks) (ho_presets hooks) with
  | inl e => inl e
  | inr ps =>
      let transformsDir := match ho_transformsDir hooks with
                           | Some d => if truthy_str d then resolvePath configDir d else configDir
                           | None => configDir
                           end in
      inr (imap (fun i m => normalizeHookMapping m i transformsDir) (ho_mappings hooks ++ ps))
  end.

Record HooksConfigResolved := mkHooksConfigResolved { hr_basePath : string; hr_token : string; hr_maxBodyBytes : Z; hr_mappings : list HookMapping }.

Definition DEFAULT_HOOKS_PATH : string := "/hooks".
Definition DEFAULT_HOOKS_MAX_BODY_BYTES : Z := 256 * 1024.

Definition hooks_path (p : option string) : string :=
  let rawPath := trimmed_or p DEFAULT_HOOKS_PATH in
  let withSlash := if js_startsWith rawPath "/" then rawPath else "/" +:+ rawPath in
  if 1 <? js_str_length withSlash then strip_trailing withSlash else withSlash.

(** The exception, or the settings when hooks are enabled. *)
Definition resolveHooksConfig (configDir : string) (hooks : option HooksConfig) : string + option HooksConfigResolved :=
  match hooks with
  | None => inr None
  | Some h =>
      if negb (bool_decide (ho_enabled h = Some true)) then inr None else
      let token := default "" (js_trim <$> ho_token h) in
      if negb (truthy_str token) then inl "hooks.enabled requires hooks.token" else
      let trimmed := hooks_path (ho_path h) in
      if String.eqb trimmed "/" then inl "hooks.path may not be '/'" else
      let maxBodyBytes := match ho_maxBodyBytes h with Some n => if 0 <? n then n else DEFAULT_HOOKS_MAX_BODY_BYTES | None => DEFAULT_HOOKS_MAX_BODY_BYTES end in
      match resolveHookMappings configDir h with
      | inl e => inl e
      | inr mappings => inr (Some (mkHooksConfigResolved trimmed token maxBodyBytes mappings))
      end
  end.

(** ** Requests *)

Definition extractHookToken (req : IncomingMessage) : option string :=
  let text := fun name => match jm_get (headers req) name with Some (one_header s) => js_trim s | _ => "" end in
  let auth := text "authorization" in
  let bearer := if js_startsWith (js_toLowerCase auth) "bearer " then js_trim (js_slice_str_from auth 7) else "" in
  if truthy_str bearer then Some bearer
  else let headerToken := text "x-openclaw-token" in if truthy_str headerToken then Some headerToken else None.

(** A body as it arrives; the answer is given once. *)
Record Body := mkBody { bd_done : bool; bd_total : Z; bd_chunks : list string; bd_answer : option (string + json); bd_destroyed : bool }.
#[export] Instance Body_eta : EtaRecord Body := fun b => mkBody (bd_done b) (bd_total b) (bd_chunks b) (bd_answer b) (bd_destroyed b).
Inductive BodyEvent := body_data (chunk : string) | body_end | body_error (e : string).
Definition new_body : Body := mkBody false 0 [] None false.

(** [decode] is toString of a buffer, [parse_error] the text of an exception of JSON.parse. *)
Section body.
Context (decode : string -> string) (parse_error : string -> string) (maxBytes : Z).

Definition read_value (bytes : string) : string + json :=
  let raw := js_trim (decode bytes) in
  if negb (truthy_str raw) then inr (JObj [])
  else match parse raw with Some j => inr j | None => inl (parse_error raw) end.

Definition body_step (e : BodyEvent) (b : Body) : Body :=
  if bd_done b then b else
  match e with
  | body_data chunk =>
      let b := b <| bd_total ::= fun n => n + js_str_length chunk |> in
      if maxBytes <? bd_total b
      then b <| bd_done := true |> <| bd_answer := Some (inl "payload too large") |> <| bd_destroyed := true |>
      else b <| bd_chunks ::= fun l => l ++ [chunk] |>
  | body_end => b <| bd_done := true |> <| bd_answer := Some (read_value (str (bd_chunks b))) |>
  | body_error err => b <| bd_done := true |> <| bd_answer := Some (inl err) |>
  end.
Definition readJsonBody (l : list BodyEvent) : Body := foldl (fun b e => body_step e b) new_body l.
End body.

(** [Object.entries(req.headers)], with the last of equal names. *)
Definition normalizeHookHeaders (req : IncomingMessage) : jsmap string :=
  foldl (fun m kv => match kv.2 with
                     | one_header v => jm_set m (js_toLowerCase kv.1) v
                     | many_headers [] => m
                     | many_headers l => jm_set m (js_toLowerCase kv.1) (join_with ", " l)
                     end) [] (headers req).

(** ** Payloads *)

Definition payload : Type := jsmap json.
(** A member that is a text which is not blank, trimmed. *)
Definition text_member (k : string) (p : payload) : option string :=
  match jm_get p k with Some (JStr s) => trimmed (Some s) | _ => None end.
Definition wake_mode_of (k : string) (p : payload) : WakeMode :=
  match jm_get p k with Some (JStr s) => if String.eqb s "next-heartbeat" then next_heartbeat else wake_now | _ => wake_now end.

Definition normalizeWakePayload (p : payload) : string + (string * WakeMode) :=
  match text_member "text" p with
  | None => inl "text required"
  | Some text => inr (text, wake_mode_of "mode" p)
  end.

Record HookAgentPayload := mkHookAgentPayload {
  hp_message : string; hp_name : string; hp_wakeMode : WakeMode; hp_sessionKey : string; hp_deliver : bool; hp_channel : string;
  hp_to : option string; hp_model : option string; hp_thinking : option string; hp_timeoutSeconds : option Z; hp_allowUnsafe : option bool
}.

Section channels.
(** The ids of the channel plugins, and normalizeMessageChannel of a module outside. *)
Context (plugins : list string) (normalizeMessageChannel : string -> option string).

Definition listHookChannelValues : list string := "last" :: plugins.
Definition getHookChannelError : string := "channel must be " +:+ join_with "|" listHookChannelValues.
Definition resolveHookChannel (raw : option json) : option string :=
  match raw with
  | None => Some "last"
  | Some (JStr s) => match normalizeMessageChannel s with
                     | Some n => if truthy_str n && has listHookChannelValues n then Some n else None
                     | None => None
                     end
  | Some _ => None
  end.
Definition resolveHookDeliver (raw : option json) : bool := match raw with Some (JBool false) => false | _ => true end.

(** [id] is what the factory of ids draws. *)
Definition normalizeAgentPayload (id : string) (p : payload) : string + HookAgentPayload :=
  match text_member "message" p with
  | None => inl "message required"
  | Some message =>
      let name := default "Hook" (text_member "name" p) in
      let wakeMode := wake_mode_of "wakeMode" p in
      let sessionKey := default ("hook:" +:+ id) (text_member "sessionKey" p) in
      match resolveHookChannel (jm_get p "channel") with
      | None => inl getHookChannelError
      | Some channel =>
          let to := text_member "to" p in
          let model := text_member "model" p in
          if jm_has p "model" && negb (bool_decide (is_Some model)) then inl "model required"
          else inr (mkHookAgentPayload message name wakeMode sessionKey (resolveHookDeliver (jm_get p "deliver")) channel to model
                      (text_member "thinking" p)
                      (match jm_get p "timeoutSeconds" with Some (JNum n) => if 0 <? n then Some n else None | _ => None end) None)
      end
  end.
End channels.

(** ** Mappings *)

(** *** Templates *)

Record HookContext := mkHookContext {
  cx_payload : json; cx_headers : jsmap string; cx_query : jsmap string; cx_path : string; cx_now : string
}.

(** A value a path leads to: JSON, a function every object inherits, the prototype of an
    array or of an object, or nothing. *)
Inductive Value := v_json (j : json) | v_function | v_proto (array : bool) | v_undefined.

Definition array_names : list string :=
  ["at"; "concat"; "copyWithin"; "fill"; "find"; "findIndex"; "findLast"; "findLastIndex"; "lastIndexOf"; "pop"; "push"; "reverse";
   "shift"; "unshift"; "slice"; "sort"; "splice"; "includes"; "indexOf"; "join"; "keys"; "entries"; "values"; "forEach"; "filter";
   "flat"; "flatMap"; "map"; "every"; "some"; "reduce"; "reduceRight"; "toReversed"; "toSorted"; "toSpliced"; "with"].

Definition object_member (name : string) : Value :=
  if String.eqb name "__proto__" then v_proto false else if has inherited_names name then v_function else v_undefined.
Definition array_member (name : string) : Value :=
  if String.eqb name "__proto__" then v_proto true
  else if has array_names name || has inherited_names name then v_function else v_undefined.

(** The element of an array under the text of its index. *)
Fixpoint element_named (i : Z) (name : string) (l : list json) : option json :=
  match l with
  | [] => None
  | j :: l => if String.eqb name (js_toString i) then Some j else element_named (i + 1) name l
  end.

Definition json_value (o : option json) (other : Value) : Value := match o with Some j => v_json j | None => other end.

(** [current[part]] for a text, and for an index. *)
Definition by_name (current : Value) (name : string) : Value :=
  match current with
  | v_json (JObj l) => json_value (jm_get l name) (object_member name)
  | v_json (JArr l) => if String.eqb name "length" then v_json (JNum (js_length l)) else json_value (element_named 0 name l) (array_member name)
  | v_proto true => if String.eqb name "length" then v_json (JNum 0)
                    else if String.eqb name "__proto__" then v_proto false else array_member name
  | v_proto false => if String.eqb name "__proto__" then v_json JNull else object_member name
  | _ => v_undefined
  end.
Definition by_index (current : Value) (i : Z) : Value :=
  match current with
  | v_json (JArr l) => json_value (l !! Z.to_nat i) v_undefined
  | _ => v_undefined
  end.

Inductive PathPart := part_name (s : string) | part_index (i : Z).

Definition re_part : regex :=
  re_alt (re_group 1 (re_plus (re_chr (fun c => negb (one_of ".[]" c)))))
         (re_group 2 (re_seqs [re_lit "["; re_group 3 (re_plus (re_chr is_digit_char)); re_lit "]"])).

(** The loop of [re.exec]. *)
Definition path_parts (pathExpr : string) : list PathPart :=
  (replace_all_acc re_part (fun acc m =>
     (acc ++ match group 1 m, group 3 m with
             | Some s, _ => [part_name s]
             | None, Some d => [part_index (default 0 (parseInt d))]
             | None, None => []
             end, "")) [] pathExpr).1.

Fixpoint walk (parts : list PathPart) (current : Value) : Value :=
  match parts with
  | [] => current
  | part :: parts =>
      match current with
      | v_undefined | v_json JNull => v_undefined
      | _ => walk parts (match part with part_name s => by_name current s | part_index i => by_index current i end)
      end
  end.

Definition getByPath (input : json) (pathExpr : string) : Value :=
  if truthy_str pathExpr then walk (path_parts pathExpr) (v_json input) else v_undefined.

Definition text_object (m : jsmap string) : json := JObj ((fun kv => (kv.1, JStr kv.2)) <$> m).

Definition resolveTemplateExpr (expr : string) (ctx : HookContext) : Value :=
  if String.eqb expr "path" then v_json (JStr (cx_path ctx))
  else if String.eqb expr "now" then v_json (JStr (cx_now ctx))
  else if js_startsWith expr "headers." then getByPath (text_object (cx_headers ctx)) (js_slice_str_from expr 8)
  else if js_startsWith expr "query." then getByPath (text_object (cx_query ctx)) (js_slice_str_from expr 6)
  else if js_startsWith expr "payload." then getByPath (cx_payload ctx) (js_slice_str_from expr 8)
  else getByPath (cx_payload ctx) expr.

(** What replaces an expression; a function has no JSON, and its text is undefined. *)
Definition rendered_value (v : Value) : string :=
  match v with
  | v_undefined | v_json JNull => ""
  | v_json (JStr s) => s
  | v_json (JNum n) => js_toString n
  | v_json (JBool b) => if b then "true" else "false"
  | v_json j => stringify j
  | v_function => "undefined"
  | v_proto array => if array then "[]" else "{}"
  end.

Definition re_template : regex :=
  re_seqs [re_lit "{"; re_lit "{"; re_many (re_chr is_space); re_group 1 (re_plus (re_chr (fun c => negb (Ascii.eqb c "}"))));
           re_many (re_chr is_space); re_lit "}"; re_lit "}"].

Definition renderTemplate (template : string) (ctx : HookContext) : string :=
  if negb (truthy_str template) then ""
  else replace_all re_template (fun m => rendered_value (resolveTemplateExpr (js_trim (default "" (group 1 m))) ctx)) template.

Definition renderOptional (value : option string) (ctx : HookContext) : option string :=
  match value with
  | Some v => if truthy_str v then trimmed (Some (renderTemplate v ctx)) else None
  | None => None
  end.

(** *** Actions *)

Record AgentAction := mkAgentAction {
  aa_message : string; aa_name : option string; aa_wakeMode : WakeMode; aa_sessionKey : option string; aa_deliver : option bool;
  aa_allowUnsafe : option bool; aa_channel : option string; aa_to : option string; aa_model : option string;
  aa_thinking : option string; aa_timeoutSeconds : option Z
}.
Inductive HookAction := action_wake (text : string) (mode : WakeMode) | action_agent (a : AgentAction).
Inductive HookResult := act (a : HookAction) | skipped | refused_hook (error : string).

Definition mappingMatches (m : HookMapping) (ctx : HookContext) : bool :=
  (if truthy_opt (hm_matchPath m) then bool_decide (hm_matchPath m = normalizeMatchPath (Some (cx_path ctx))) else true) &&
  (if truthy_opt (hm_matchSource m)
   then match by_name (v_json (cx_payload ctx)) "source" with
        | v_json (JStr s) => truthy_str s && bool_decide (hm_matchSource m = Some s)
        | _ => false
        end
   else true).

Definition buildActionFromMapping (m : HookMapping) (ctx : HookContext) : HookAction :=
  match hm_action m with
  | kind_wake => action_wake (renderTemplate (default "" (hm_textTemplate m)) ctx) (hm_wakeMode m)
  | kind_agent =>
      action_agent (mkAgentAction (renderTemplate (default "" (hm_messageTemplate m)) ctx) (renderOptional (hm_name m) ctx) (hm_wakeMode m)
        (renderOptional (hm_sessionKey m) ctx) (hm_deliver m) (hm_allowUnsafe m) (hm_channel m) (renderOptional (hm_to m) ctx)
        (renderOptional (hm_model m) ctx) (renderOptional (hm_thinking m) ctx) (hm_timeoutSeconds m))
  end.

Definition validateAction (a : HookAction) : HookResult :=
  match a with
  | action_wake text _ => if truthy_str (js_trim text) then act a else refused_hook "hook mapping requires text"
  | action_agent g => if truthy_str (js_trim (aa_message g)) then act a else refused_hook "hook mapping requires message"
  end.

(** What a transform answers: null, nothing, or an object with members of its choice. *)
Record Override := mkOverride {
  ov_kind : option ActionKind; ov_text : option string; ov_mode : option WakeMode; ov_agent : option string; ov_wakeMode : option WakeMode;
  ov_name : option string; ov_sessionKey : option string; ov_deliver : option bool; ov_allowUnsafe : option bool;
  ov_channel : option string; ov_to : option string; ov_model : option string; ov_thinking : option string; ov_timeoutSeconds : option Z
}.
Inductive TransformResult := tr_null | tr_undefined | tr_object (o : Override).

(** The mode of an override counts when it is the later one. *)
Definition merged_mode (o : option WakeMode) (base : WakeMode) : WakeMode :=
  if bool_decide (o = Some next_heartbeat) then next_heartbeat else base.

Definition mergeAction (base : HookAction) (override : option Override) : HookResult :=
  match override with
  | None => validateAction base
  | Some o =>
      let kind := default (match base with action_wake _ _ => kind_wake | action_agent _ => kind_agent end) (ov_kind o) in
      match kind with
      | kind_wake =>
          let '(text, mode) := match base with action_wake t m => (t, m) | action_agent _ => ("", wake_now) end in
          validateAction (action_wake (default text (ov_text o)) (merged_mode (ov_mode o) mode))
      | kind_agent =>
          let b := match base with
                   | action_agent a => a
                   | action_wake _ _ => mkAgentAction "" None wake_now None None None None None None None None
                   end in
          validateAction (action_agent (mkAgentAction (default (aa_message b) (ov_agent o)) (nullish (ov_name o) (aa_name b))
            (merged_mode (ov_wakeMode o) (aa_wakeMode b)) (nullish (ov_sessionKey o) (aa_sessionKey b))
            (nullish (ov_deliver o) (aa_deliver b)) (nullish (ov_allowUnsafe o) (aa_allowUnsafe b)) (nullish (ov_channel o) (aa_channel b))
            (nullish (ov_to o) (aa_to b)) (nullish (ov_model o) (aa_model b)) (nullish (ov_thinking o) (aa_thinking b))
            (nullish (ov_timeoutSeconds o) (aa_timeoutSeconds b))))
      end
  end.

(** *** Transforms *)

Definition HookTransformFn : Type := HookContext -> string + TransformResult.
(** The exports of a module: a function, or something else. *)
Definition HookModule : Type := jsmap (option HookTransformFn).

Definition resolveTransformFn (m : HookModule) (exportName : option string) : string + HookTransformFn :=
  let candidate := match exportName with
                   | Some e => if truthy_str e then jm_get m e else nullish (jm_get m "default") (jm_get m "transform")
                   | None => nullish (jm_get m "default") (jm_get m "transform")
                   end in
  match candidate with
  | Some (Some fn) => inr fn
  | _ => inl "hook transform module must export a function"
  end.

Section transforms.
(** What importing a module gives. *)
Context (import_module : string -> string + HookModule).

(** The cache, which is looked up by the path of the module alone. *)
Definition loadTransform (t : HookTransform) (cache : jsmap HookTransformFn) : jsmap HookTransformFn * (string + HookTransformFn) :=
  match jm_get cache (tf_module t) with
  | Some fn => (cache, inr fn)
  | None =>
      match import_module (tf_module t) with
      | inl e => (cache, inl e)
      | inr m => match resolveTransformFn m (tf_export t) with
                 | inl e => (cache, inl e)
                 | inr fn => (jm_set cache (tf_module t) fn, inr fn)
                 end
      end
  end.

(** The first mapping that matches decides; the left of the sum is an exception. *)
Fixpoint applyHookMappings (mappings : list HookMapping) (ctx : HookContext) (cache : jsmap HookTransformFn) :
    jsmap HookTransformFn * (string + option HookResult) :=
  match mappings with
  | [] => (cache, inr None)
  | m :: rest =>
      if negb (mappingMatches m ctx) then applyHookMappings rest ctx cache else
      let base := buildActionFromMapping m ctx in
      match hm_transform m with
      | None => (cache, inr (Some (mergeAction base None)))
      | Some t =>
          match loadTransform t cache with
          | (cache, inl e) => (cache, inl e)
          | (cache, inr fn) =>
              (cache, match fn ctx with
                      | inl e => inl e
                      | inr tr_null => inr (Some skipped)
                      | inr tr_undefined => inr (Some (mergeAction base None))
                      | inr (tr_object o) => inr (Some (mergeAction base (Some o)))
                      end)
          end
      end
  end.
End transforms.

(** ** The handler of hooks *)

(** What is answered; [not_ours] leaves the request to the next handler. *)
Inductive Response :=
  | not_ours | plain_text (status : Z) (text : string) | json_answer (status : Z) (body : json) | no_content.
(** What a hook sets in motion. *)
Inductive HookCall := wake_call (text : string) (mode : WakeMode) | agent_call (p : HookAgentPayload).

(** A request: its method, the path of its URL, its query, and its body. *)
Record HttpRequest := mkHttpRequest {
  rq_req : IncomingMessage; rq_method : string; rq_pathname : string; rq_query : jsmap string; rq_body : list BodyEvent
}.

Section handler.
Context (decode : string -> string) (parse_error : string -> string).
Context (plugins : list string) (normalizeMessageChannel : string -> option string).
Context (import_module : string -> string + HookModule).
(** The drawn ids: that of a new session, and that of the run. *)
Context (sessionId runId : string) (now : string).

Definition error_body (e : string) : json := JObj [("ok", JBool false); ("error", JStr e)].
Definition wake_answer (mode : WakeMode) : Response := json_answer 200 (JObj [("ok", JBool true); ("mode", JStr (mode_text mode))]).
Definition agent_answer : Response := json_answer 202 (JObj [("ok", JBool true); ("runId", JStr runId)]).
Definition not_found : Response := plain_text 404 "Not Found".
Definition QUERY_TOKEN_MESSAGE : string :=
  "Hook token must be provided via Authorization: Bearer <token> or X-OpenClaw-Token header (query parameters are not allowed).".

(** The members of the payload; an array has its elements under their indices. *)
Definition payload_of (j : json) : payload :=
  match j with JObj l => l | JArr l => imap (fun i j => (js_toString (Z.of_nat i), j)) l | _ => [] end.
Definition payload_value (j : json) : json := match j with JObj _ | JArr _ => j | _ => JObj [] end.

Definition mapped_payload (a : AgentAction) (channel : string) : HookAgentPayload :=
  mkHookAgentPayload (aa_message a) (default "Hook" (aa_name a)) (aa_wakeMode a) (default "" (aa_sessionKey a))
    (resolveHookDeliver (JBool <$> aa_deliver a)) channel (aa_to a) (aa_model a) (aa_thinking a) (aa_timeoutSeconds a) (aa_allowUnsafe a).

Definition run_mappings (config : HooksConfigResolved) (ctx : HookContext) (cache : jsmap HookTransformFn) :
    jsmap HookTransformFn * Response * list HookCall :=
  match hr_mappings config with
  | [] => (cache, not_found, [])
  | _ =>
      match applyHookMappings import_module (hr_mappings config) ctx cache with
      | (cache, inl _) => (cache, json_answer 500 (error_body "hook mapping failed"), [])
      | (cache, inr None) => (cache, not_found, [])
      | (cache, inr (Some (refused_hook e))) => (cache, json_answer 400 (error_body e), [])
      | (cache, inr (Some skipped)) => (cache, no_content, [])
      | (cache, inr (Some (act (action_wake text mode)))) => (cache, wake_answer mode, [wake_call text mode])
      | (cache, inr (Some (act (action_agent a)))) =>
          match resolveHookChannel plugins normalizeMessageChannel (JStr <$> aa_channel a) with
          | None => (cache, json_answer 400 (error_body (getHookChannelError plugins)), [])
          | Some channel => (cache, agent_answer, [agent_call (mapped_payload a channel)])
          end
      end
  end.

(** After the checks of the request; the answer of the body, if it came. *)
Definition answer_body (config : HooksConfigResolved) (rq : HttpRequest) (subPath : string) (body : string + json)
    (cache : jsmap HookTransformFn) : jsmap HookTransformFn * Response * list HookCall :=
  match body with
  | inl e => (cache, json_answer (if String.eqb e "payload too large" then 413 else 400) (error_body e), [])
  | inr value =>
      let p := payload_of value in
      if String.eqb subPath "wake" then
        match normalizeWakePayload p with
        | inl e => (cache, json_answer 400 (error_body e), [])
        | inr (text, mode) => (cache, wake_answer mode, [wake_call text mode])
        end
      else if String.eqb subPath "agent" then
        match normalizeAgentPayload plugins normalizeMessageChannel sessionId p with
        | inl e => (cache, json_answer 400 (error_body e), [])
        | inr v => (cache, agent_answer, [agent_call v])
        end
      else run_mappings config (mkHookContext (payload_value value) (normalizeHookHeaders (rq_req rq)) (rq_query rq) subPath now) cache
  end.

(** No answer while the body has not ended. *)
Definition handleHooksRequest (config : option HooksConfigResolved) (rq : HttpRequest) (cache : jsmap HookTransformFn) :
    jsmap HookTransformFn * option Response * list HookCall :=
  let answer := fun r => (cache, Some r, []) in
  match config with
  | None => answer not_ours
  | Some c =>
      let basePath := hr_basePath c in
      if negb (String.eqb (rq_pathname rq) basePath) && negb (js_startsWith (rq_pathname rq) (basePath +:+ "/")) then answer not_ours
      else if jm_has (rq_query rq) "token" then answer (plain_text 400 QUERY_TOKEN_MESSAGE)
      else match extractHookToken (rq_req rq) with
           | None => answer (plain_text 401 "Unauthorized")
           | Some token =>
               if negb (String.eqb token (hr_token c)) then answer (plain_text 401 "Unauthorized")
               else if negb (String.eqb (rq_method rq) "POST") then answer (plain_text 405 "Method Not Allowed")
               else
                 let subPath := strip_leading (js_slice_str_from (rq_pathname rq) (js_str_length basePath)) in
                 if negb (truthy_str subPath) then answer not_found
                 else match bd_answer (readJsonBody decode parse_error (hr_maxBodyBytes c) (rq_body rq)) with
                      | None => (cache, None, [])
                      | Some body => let '(cache, r, calls) := answer_body c rq subPath body cache in (cache, Some r, calls)
                      end
           end
  end.
End handler.

(** ** What hooks set in motion *)

(** server/hooks.ts: the events of the main session, the reasons of the heartbeats that
    were asked for, and the runs that were begun. *)
Record CronJob := mkCronJob { cj_id : string; cj_payload : HookAgentPayload; cj_sessionKey : string; cj_mainSessionKey : string }.
Record HookWorld := mkHookWorld { hw_events : list (string * string); hw_heartbeats : list string; hw_jobs : list CronJob }.
#[export] Instance HookWorld_eta : EtaRecord HookWorld := fun w => mkHookWorld (hw_events w) (hw_heartbeats w) (hw_jobs w).

Definition enqueueSystemEvent (text sessionKey : string) (w : HookWorld) : HookWorld := w <| hw_events ::= fun l => l ++ [(sessionKey, text)] |>.
Definition requestHeartbeatNow (reason : string) (w : HookWorld) : HookWorld := w <| hw_heartbeats ::= fun l => l ++ [reason] |>.
Definition heartbeat_if_now (mode : WakeMode) (reason : string) (w : HookWorld) : HookWorld :=
  match mode with wake_now => requestHeartbeatNow reason w | next_heartbeat => w end.

Definition dispatchWakeHook (mainSessionKey text : string) (mode : WakeMode) (w : HookWorld) : HookWorld :=
  heartbeat_if_now mode "hook:wake" (enqueueSystemEvent text mainSessionKey w).

Definition dispatchAgentHook (mainSessionKey uuid jobId : string) (p : HookAgentPayload) (w : HookWorld) : HookWorld :=
  let sessionKey := if truthy_str (js_trim (hp_sessionKey p)) then js_trim (hp_sessionKey p) else "hook:" +:+ uuid in
  w <| hw_jobs ::= fun l => l ++ [mkCronJob jobId p sessionKey mainSessionKey] |>.

(** The end of a run: an exception, or a status with a summary or an error. *)
Record RunResult := mkRunResult { rr_status : string; rr_summary : option string; rr_error : option string }.
Definition job_ends (j : CronJob) (r : string + RunResult) (w : HookWorld) : HookWorld :=
  let name := hp_name (cj_payload j) in
  let mode := hp_wakeMode (cj_payload j) in
  match r with
  | inl e => heartbeat_if_now mode ("hook:" +:+ cj_id j +:+ ":error")
               (enqueueSystemEvent ("Hook " +:+ name +:+ " (error): " +:+ e) (cj_mainSessionKey j) w)
  | inr r =>
      let summary := trimmed_or (rr_summary r) (trimmed_or (rr_error r) (rr_status r)) in
      let prefix := if String.eqb (rr_status r) "ok" then "Hook " +:+ name else "Hook " +:+ name +:+ " (" +:+ rr_status r +:+ ")" in
      heartbeat_if_now mode ("hook:" +:+ cj_id j) (enqueueSystemEvent (js_trim (prefix +:+ ": " +:+ summary)) (cj_mainSessionKey j) w)
  end.

(** ** Other requests *)

Definition hasAuthorizedWsClientForIp (clients : list Client) (clientIp : string) : bool :=
  existsb (fun c => truthy_opt (cl_clientIp c) && bool_decide (cl_clientIp c = Some clientIp)) clients.

Section canvas.
Context (tailscaleWhois : string -> string + option WhoisIdentity).

(** The exception, or whether the request may see the canvas. *)
Definition authorizeCanvasRequest (req : IncomingMessage) (auth : ResolvedGatewayAuth) (trustedProxies : list string) (clients : list Client) :
    string + bool :=
  let by_ip :=
    match resolveRequestClientIp req trustedProxies with
    | Some ip => if truthy_str ip then hasAuthorizedWsClientForIp clients ip else false
    | None => false
    end in
  if isLocalDirectRequest (Some req) trustedProxies then inr true else
  match getBearerToken req with
  | None => inr by_ip
  | Some token =>
      match authorizeGatewayConnect tailscaleWhois (without_tailscale auth) (Some token) (Some token) (Some req) trustedProxies with
      | inl e => inl e
      | inr (refused _) => inr by_ip
      | inr _ => inr true
      end
  end.
End canvas.

Section paths.
(** The paths of the canvas host. *)
Context (A2UI_PATH CANVAS_HOST_PATH CANVAS_WS_PATH : string).
Definition isCanvasPath (pathname : string) : bool :=
  String.eqb pathname A2UI_PATH || js_startsWith pathname (A2UI_PATH +:+ "/") || String.eqb pathname CANVAS_HOST_PATH ||
  js_startsWith pathname (CANVAS_HOST_PATH +:+ "/") || String.eqb pathname CANVAS_WS_PATH.

(** The handlers of a request: each throws, or says whether it answered.  What comes of a
    request is the name of the one that did. *)
Inductive Handler := by_hooks | by_tools | by_slack | by_plugins | by_responses | by_chat | by_a2ui | by_canvas | by_avatar | by_control_ui.
Inductive Outcome := left_to_websocket | handled (h : Handler) | unauthorized | nobody | server_error.

Record Enabled := mkEnabled { en_plugins : bool; en_responses : bool; en_chat : bool; en_canvas : bool; en_controlUi : bool }.

Fixpoint first_handler (run : Handler -> string + bool) (hs : list Handler) (rest : Outcome) : Outcome :=
  match hs with
  | [] => rest
  | h :: hs => match run h with inl _ => server_error | inr true => handled h | inr false => first_handler run hs rest end
  end.

Definition handleRequest (upgrade : option string) (pathname : string) (en : Enabled) (canvas_ok : string + bool)
    (run : Handler -> string + bool) : Outcome :=
  if String.eqb (js_toLowerCase (default "" upgrade)) "websocket" then left_to_websocket else
  let ui := first_handler run (if en_controlUi en then [by_avatar; by_control_ui] else []) nobody in
  let canvas := first_handler run (if en_canvas en then [by_a2ui; by_canvas] else []) ui in
  let after_apis :=
    if en_canvas en && isCanvasPath pathname
    then match canvas_ok with inl _ => server_error | inr true => canvas | inr false => unauthorized end
    else canvas in
  first_handler run ([by_hooks; by_tools; by_slack] ++ (if en_plugins en then [by_plugins] else []) ++
    (if en_responses en then [by_responses] else []) ++ (if en_chat en then [by_chat] else [])) after_apis.

(** The upgrade of a connection to a websocket. *)
Inductive UpgradeOutcome := up_rejected | up_canvas | up_gateway | up_destroyed.
Definition handleUpgrade (canvasHost : bool) (pathname : string) (canvas_ok : string + bool) (canvas_takes : bool) : UpgradeOutcome :=
  if negb canvasHost then up_gateway
  else
    let rest := if canvas_takes then up_canvas else up_gateway in
    if String.eqb pathname CANVAS_WS_PATH
    then match canvas_ok with inl _ => up_destroyed | inr true => rest | inr false => up_rejected end
    else rest.
End paths.

(** ** Theorems on bodies *)

Section bodies.
Context (decode : string -> string) (parse_error : string -> string) (maxBytes : Z).
Notation bstep := (body_step decode parse_error maxBytes).
Notation read := (readJsonBody decode parse_error maxBytes).

Definition total (chunks : list string) : Z := js_str_length (str chunks).

Lemma total_app l k : total (l ++ k) = total l + total k.
Proof. unfold total, js_str_length. rewrite str_app_str, str_length_app. lia. Qed.
Lemma total_snoc l c : total (l ++ [c]) = total l + js_str_length c.
Proof. rewrite total_app. unfold total at 2. cbn. by rewrite str_app_nil_r. Qed.
Lemma total_pos l : 0 <= total l.
Proof. unfold total, js_str_length. lia. Qed.

Lemma body_loop l b : foldl (fun b e => bstep e b) b (body_data <$> l) =
  if bd_done b then b
  else foldl (fun b e => bstep e b) b (body_data <$> l).
Proof.
  destruct (bd_done b) eqn:E; [|done]. induction l as [|c l IH]; [done|]. cbn. unfold body_step at 2. by rewrite E.
Qed.

(** A body that has not ended holds what came, within the limit. *)
Record body_ok (b : Body) : Prop := {
  bo_total : bd_total b = total (bd_chunks b) \/ bd_done b = true;
  bo_open : bd_done b = false -> bd_answer b = None /\ total (bd_chunks b) <= Z.max 0 maxBytes;
  bo_value : forall j, bd_answer b = Some (inr j) -> read_value decode parse_error (str (bd_chunks b)) = inr j /\ total (bd_chunks b) <= Z.max 0 maxBytes
}.

Lemma body_step_ok e b : body_ok b -> body_ok (bstep e b).
Proof.
  intros [H1 H2 H3]. unfold body_step. destruct (bd_done b) eqn:Ed; [by constructor; rewrite ?Ed|]. destruct H2 as [Ha Hl]; [done|]. destruct H1 as [H1|]; [|done].
  destruct e as [c| |err].
  - cbv zeta. destruct b as [d t cs a de]. cbn in *. subst. destruct (Z.ltb_spec maxBytes (total cs + js_str_length c)); split; cbn; rewrite ?total_snoc; try (by auto); try done.
    intros _. split; [done|lia].
  - destruct b as [d t cs a de]. cbn in *. split; cbn; [by right|done|]. intros j [= E]. done.
  - destruct b as [d t cs a de]. cbn in *. split; cbn; [by right|done|]. by intros j [= E].
Qed.
Lemma body_read_ok l : body_ok (read l).
Proof.
  unfold readJsonBody. apply (foldl_inv body_ok (fun _ => True)); [|by apply Forall_true|].
  - intros. by apply body_step_ok.
  - split; cbn; [by left|intros _; split; [done|change (total []) with 0; lia]|done].
Qed.

(** However the body is divided, it is read when it does not exceed the limit, and refused
    as soon as it does. *)
Theorem body_read_whole chunks : 0 <= maxBytes ->
  bd_answer (read ((body_data <$> chunks) ++ [body_end])) =
    Some (if total chunks <=? maxBytes then read_value decode parse_error (str chunks) else inl "payload too large").
Proof.
  intros Hm. unfold readJsonBody. rewrite foldl_app.
  assert (H : forall cs b, bd_done b = false -> bd_total b = total (bd_chunks b) -> total (bd_chunks b) <= maxBytes ->
    bd_answer (foldl (fun b e => bstep e b) (foldl (fun b e => bstep e b) b (body_data <$> cs)) [body_end]) =
      Some (if total (bd_chunks b ++ cs) <=? maxBytes then read_value decode parse_error (str (bd_chunks b ++ cs)) else inl "payload too large")).
  2: { specialize (H chunks new_body eq_refl eq_refl). cbn [bd_chunks new_body] in H. rewrite app_nil_l in H. apply H. change (total []) with 0. lia. }
  induction cs as [|c cs IH]; intros b Hd Ht Hl.
  - cbn. rewrite app_nil_r. unfold body_step. rewrite Hd. cbn. by rewrite (proj2 (Z.leb_le _ _) Hl).
  - rewrite fmap_cons. cbn [foldl]. destruct (Z.ltb_spec maxBytes (bd_total b + js_str_length c)) as [Hx|Hx].
    + rewrite (body_loop cs). destruct b as [d t ks a de]. cbn in *. subst. unfold body_step at 3. cbn. rewrite (proj2 (Z.ltb_lt _ _) Hx). cbn.
      destruct (Z.leb_spec (total (ks ++ c :: cs)) maxBytes) as [Hy|]; [|done]. exfalso.
      rewrite (cons_middle c ks cs), app_assoc, total_app, total_snoc in Hy. pose proof (total_pos cs). lia.
    + destruct b as [d t ks a de]. cbn in *. subst. unfold body_step at 3. cbn. rewrite (proj2 (Z.ltb_ge _ _) Hx).
      rewrite IH; cbn; [by rewrite <- app_assoc|done|by rewrite total_snoc|by rewrite total_snoc].
Qed.
End bodies.

(** ** Theorems on hooks *)

Section authorization.
Context (decode : string -> string) (parse_error : string -> string) (plugins : list string) (normalizeMessageChannel : string -> option string)
  (import_module : string -> string + HookModule) (sessionId runId now : string).
Notation handle := (handleHooksRequest decode parse_error plugins normalizeMessageChannel import_module sessionId runId now).

(** C34: a hook sets something in motion only for a POST below the path of the hooks, with the
    configured token in a header and none in the query, and with a body that ended within
    the limit; a request sets at most one thing in motion. *)
Theorem hooks_need_the_token config rq cache cache' r calls : handle config rq cache = (cache', r, calls) -> calls <> [] ->
  (exists call, calls = [call]) /\
  exists c subPath value, config = Some c /\ extractHookToken (rq_req rq) = Some (hr_token c) /\ rq_method rq = "POST" /\
    jm_has (rq_query rq) "token" = false /\ (rq_pathname rq = hr_basePath c \/ js_startsWith (rq_pathname rq) (hr_basePath c +:+ "/") = true) /\
    subPath = strip_leading (js_slice_str_from (rq_pathname rq) (js_str_length (hr_basePath c))) /\ subPath <> "" /\
    bd_answer (readJsonBody decode parse_error (hr_maxBodyBytes c) (rq_body rq)) = Some (inr value) /\
    total (bd_chunks (readJsonBody decode parse_error (hr_maxBodyBytes c) (rq_body rq))) <= Z.max 0 (hr_maxBodyBytes c).
Proof.
  unfold handleHooksRequest. cbv zeta. destruct config as [c|]; [|by intros [= <- <- <-]].
  destruct (negb (String.eqb (rq_pathname rq) (hr_basePath c)) && negb (js_startsWith (rq_pathname rq) (hr_basePath c +:+ "/"))) eqn:Hpath;
    [by intros [= <- <- <-]|].
  destruct (jm_has (rq_query rq) "token") eqn:Hq; [by intros [= <- <- <-]|].
  destruct (extractHookToken (rq_req rq)) as [token|] eqn:Ht; [|by intros [= <- <- <-]].
  destruct (String.eqb_spec token (hr_token c)) as [->|]; cbn [negb]; [|by intros [= <- <- <-]].
  destruct (String.eqb_spec (rq_method rq) "POST") as [Hm|]; cbn [negb]; [|by intros [= <- <- <-]].
  destruct (truthy_str (strip_leading _)) eqn:Hs; cbn [negb]; [|by intros [= <- <- <-]].
  destruct (bd_answer _) as [[e|value]|] eqn:Hb; [by intros [= <- <- <-]| |by intros [= <- <- <-]].
  destruct (answer_body _ _ _ _ _ _ _ _ _ _ _) as [[k a] l] eqn:Ea. intros [= <- <- <-] Hne. split.
  - clear -Ea Hne. unfold answer_body in Ea. cbv zeta in Ea. destruct (String.eqb _ "wake").
    { destruct (normalizeWakePayload _) as [e|[t m]]; injection Ea as <- <- <-; [done|by eexists]. }
    destruct (String.eqb _ "agent"); [destruct (normalizeAgentPayload _ _ _ _); injection Ea as <- <- <-; [done|by eexists]|].
    unfold run_mappings in Ea. destruct (hr_mappings c); [by injection Ea as <- <- <-|].
    destruct (applyHookMappings _ _ _ _) as [? [?|[[[]| |]|]]]; try (by injection Ea as <- <- <-); [injection Ea as <- <- <-; by eexists|].
    destruct (resolveHookChannel _ _ _); injection Ea as <- <- <-; [by eexists|done].
  - exists c, (strip_leading (js_slice_str_from (rq_pathname rq) (js_str_length (hr_basePath c)))), value.
    apply truthy_str_true in Hs. apply andb_false_iff in Hpath as [Hp|Hp]; apply negb_false_iff in Hp;
      [apply String.eqb_eq in Hp|]; split_and!; auto;
      apply (bo_value _ _ _ _ (body_read_ok decode parse_error (hr_maxBodyBytes c) (rq_body rq)) value Hb).
Qed.
End authorization.

(** ** Theorems on runs *)

(** A run that ends leaves one event in the main session, and asks for a heartbeat exactly
    when its mode is now. *)
Lemma job_reports_once j r w :
  (exists text, hw_events (job_ends j r w) = hw_events w ++ [(cj_mainSessionKey j, text)]) /\
  (hw_heartbeats (job_ends j r w) = hw_heartbeats w <-> hp_wakeMode (cj_payload j) = next_heartbeat).
Proof.
  unfold job_ends. destruct r as [e|r]; destruct (hp_wakeMode (cj_payload j)); cbn; (split; [by eexists|]); (split; [|done]); try done;
    intros E; apply (f_equal length) in E; rewrite length_app in E; cbn in E; lia.
Qed.

(** ** Theorems on other requests *)

Lemma first_handler_spec run hs rest h : first_handler run hs rest = handled h -> h ∈ hs \/ rest = handled h.
Proof.
  induction hs as [|x hs IH]; cbn; [by right|]. destruct (run x) as [e|[]]; [done| |].
  - intros [= ->]. left. by left.
  - intros [Hin|]%IH; [left; by right|by right].
Qed.

Definition of_api (h : Handler) : bool := match h with by_hooks | by_tools | by_slack | by_plugins | by_responses | by_chat => true | _ => false end.

(** A request for the canvas that is not authorized is answered by none of the handlers of
    pages, and otherwise by a handler of an interface that checks for itself. *)
Theorem canvas_needs_authorization a2ui host ws upgrade pathname en run h :
  en_canvas en = true -> isCanvasPath a2ui host ws pathname = true ->
  handleRequest a2ui host ws upgrade pathname en (inr false) run = handled h -> of_api h = true.
Proof.
  intros Hc Hp. unfold handleRequest. cbv zeta. rewrite Hc, Hp. cbn [andb]. destruct (String.eqb _ _); [done|]. intros E.
  apply first_handler_spec in E as [E|E]; [|done]. destruct (en_plugins en), (en_responses en), (en_chat en); cbn in E;
    repeat (apply elem_of_cons in E as [->|E]; [done|]); by apply not_elem_of_nil in E.
Qed.

(** ** Runs *)
Module Runs.

Definition a_mapping (id : string) (path : option string) (message : string) (mode : WakeMode) (transform : option HookTransform) : HookMappingConfig :=
  mkHookMappingConfig (Some id) path None None (Some mode) None None (Some message) None None None None None None None None transform.
Definition settings (path : string) (mappings : list HookMappingConfig) (presets : list string) : HooksConfig :=
  mkHooksConfig (Some true) (Some "s3cret") (Some path) None presets None mappings None.
Definition resolved (path : string) (mappings : list HookMappingConfig) (presets : list string) : option HooksConfigResolved :=
  match resolveHooksConfig "/etc/openclaw" (Some (settings path mappings presets)) with inr c => c | inl _ => None end.

Definition no_module (path : string) : string + HookModule := inl "not found".
Definition with_token : IncomingMessage :=
  mkIncomingMessage (Some "203.0.113.7") (Some "gw.example.com") [("authorization", one_header "Bearer s3cret")].
Definition post (pathname body : string) : HttpRequest := mkHttpRequest with_token "POST" pathname [] [body_data body; body_end].
Definition ask (modules : string -> string + HookModule) (config : option HooksConfigResolved) (rq : HttpRequest) (cache : jsmap HookTransformFn) :=
  handleHooksRequest id (fun _ => "SyntaxError") ["telegram"; "discord"] Some modules "u1" "run-1" "2026-01-01T00:00:00.000Z" config rq cache.
Definition answered (config : option HooksConfigResolved) (rq : HttpRequest) : option Response * list HookCall :=
  let '(_, r, calls) := ask no_module config rq [] in (r, calls).

(** Texts in JSON, with single quotes for double ones. *)
Definition quotes (s : string) : string := string_map (fun c => if Ascii.eqb c "'" then dq else c) s.

Example wake_hook :
  answered (resolved "/hooks" [] []) (post "/hooks/wake" (quotes "{'text':' hello ','mode':'next-heartbeat'}")) =
    (Some (wake_answer next_heartbeat), [wake_call "hello" next_heartbeat]) /\
  answered (resolved "/hooks" [] []) (mkHttpRequest with_token "POST" "/hooks/wake" [("token", "s3cret")] []) =
    (Some (plain_text 400 QUERY_TOKEN_MESSAGE), []).
Proof. vm_compute. auto. Qed.

Definition message_of (calls : list HookCall) : list (string * string) :=
  omap (fun c => match c with agent_call p => Some (hp_message p, hp_sessionKey p) | wake_call _ _ => None end) calls.

Example gmail_hook :
  message_of (answered (resolved "/hooks" [] ["gmail"])
    (post "/hooks/gmail" (quotes "{'messages':[{'id':'m1','from':'ann','subject':'{{path}}','snippet':'hi','body':7}]}"))).2 =
    [("New email from ann" +:+ newline +:+ "Subject: " +:+ brace "path" +:+ newline +:+ "hi" +:+ newline +:+ "7", "hook:gmail:m1")].
Proof. vm_compute. reflexivity. Qed.

(** A path of two slashes becomes the empty path, which every request is below. *)
Example double_slash_takes_everything :
  hr_basePath <$> resolved "//" [] [] = Some "" /\
  answered (resolved "//" [] []) (mkHttpRequest (mkIncomingMessage None None []) "GET" "/control/index.html" [] []) =
    (Some (plain_text 401 "Unauthorized"), []).
Proof. vm_compute. auto. Qed.

(** A mapping for the path of one slash is a mapping for every path. *)
Example slash_matches_all :
  message_of (answered (resolved "/hooks" [a_mapping "root" (Some "/") "root" wake_now None] ["gmail"]) (post "/hooks/gmail" "{}")).2 =
    [("root", "")].
Proof. vm_compute. reflexivity. Qed.

(** The names every object inherits are found in a payload without them. *)
Example inherited_in_template :
  message_of (answered (resolved "/hooks" [a_mapping "m" None ("got " +:+ brace "constructor" +:+ brace "__proto__") wake_now None] [])
    (post "/hooks/x" "{}")).2 = [("got undefined{}", "")].
Proof. vm_compute. reflexivity. Qed.

(** A preset with the name of an inherited member stops the gateway from starting. *)
Example inherited_preset : match resolveHooksConfig "/etc" (Some (settings "/hooks" [] ["constructor"])) with inl _ => True | inr _ => False end.
Proof. vm_compute. exact I. Qed.

(** Two mappings that name two exports of one module: the second uses the function of the
    first. *)
Definition says (text : string) : HookTransformFn := fun _ =>
  inr (tr_object (mkOverride None None None (Some text) None None None None None None None None None None)).
Definition two_exports (path : string) : string + HookModule := inr [("first", Some (says "one")); ("second", Some (says "two"))].
Definition by_export : option HooksConfigResolved :=
  resolved "/hooks" [a_mapping "a" (Some "a") "x" wake_now (Some (mkHookTransform "t.js" (Some "first")));
                     a_mapping "b" (Some "b") "x" wake_now (Some (mkHookTransform "t.js" (Some "second")))] [].
Example second_export_is_ignored :
  let '(cache, _, first) := ask two_exports by_export (post "/hooks/a" "{}") [] in
  let '(_, _, second) := ask two_exports by_export (post "/hooks/b" "{}") cache in
  let '(_, _, alone) := ask two_exports by_export (post "/hooks/b" "{}") [] in
  message_of first = [("one", "")] /\ message_of second = [("one", "")] /\ message_of alone = [("two", "")].
Proof. vm_compute. auto. Qed.

(** A transform cannot ask for now when the mapping says the next heartbeat. *)
Definition asks_now : Override := mkOverride None None None None (Some wake_now) None None None None None None None None None.
Example now_is_not_taken_over ctx :
  let base := buildActionFromMapping (normalizeHookMapping (a_mapping "m" None "hi" next_heartbeat None) 0 "/") ctx in
  match base, mergeAction base (Some asks_now) with
  | action_agent _, act (action_agent a) => aa_wakeMode a = next_heartbeat
  | _, _ => False
  end.
Proof. vm_compute. reflexivity. Qed.

(** The client that a handshake left behind authorizes the canvas for its address, after
    its connection was closed. *)
Example ghost_client_opens_canvas :
  let w := GatewayHandshake.Runs.run_at GatewayHandshake.Runs.u0
    [GatewayHandshake.Runs.connect GatewayHandshake.Runs.a_node; ev_closed; GatewayHandshake.Runs.ended] in
  ws_closed w = true /\
  authorizeCanvasRequest GatewayHandshake.Runs.no_whois (mkIncomingMessage (Some "203.0.113.7") None []) (up_auth GatewayHandshake.Runs.u0) []
    (ws_clients w) = inr true.
Proof. vm_compute. auto. Qed.

Lemma hooks_need_the_token_witness :
  extractHookToken with_token = Some "s3cret" /\ jm_has ([] : jsmap string) "token" = false.
Proof.
  set (config := resolved "/hooks" [] []). set (rq := post "/hooks/wake" (quotes "{'text':'hello'}")).
  destruct (hooks_need_the_token id (fun _ => "SyntaxError") ["telegram"; "discord"] Some no_module "u1" "run-1" "2026-01-01T00:00:00.000Z"
    config rq [] [] (Some (wake_answer wake_now)) [wake_call "hello" wake_now]) as (_ & c & s & v & Hc & Ht & _ & Hq & _); [by vm_compute|done|].
  split; [|exact Hq]. etrans; [exact Ht|]. vm_compute in Hc. by injection Hc as <-.
Defined.

Lemma body_read_whole_witness :
  bd_answer (readJsonBody id (fun _ => "SyntaxError") 8 ((body_data <$> ["[1,"; "2]"]) ++ [body_end])) = Some (inr (JArr [JNum 1; JNum 2])) /\
  bd_answer (readJsonBody id (fun _ => "SyntaxError") 4 ((body_data <$> ["[1,"; "2]"]) ++ [body_end])) = Some (inl "payload too large").
Proof. split; rewrite (body_read_whole id (fun _ => "SyntaxError")) by lia; by vm_compute. Defined.

Lemma canvas_needs_authorization_witness :
  let run := fun h => match h with by_chat => inr true | _ => inr false end in
  let en := mkEnabled true true true true true in
  handleRequest "/a2ui" "/canvas" "/ws" None "/canvas/x" en (inr false) run = handled by_chat /\ of_api by_chat = true.
Proof.
  cbv zeta. split; [reflexivity|].
  apply (canvas_needs_authorization "/a2ui" "/canvas" "/ws" None "/canvas/x" (mkEnabled true true true true true)
    (fun h => match h with by_chat => inr true | _ => inr false end)); reflexivity.
Defined.
End Runs.
