(* ===== verification/GatewayClient.v ===== *)
(** * The client of the gateway

    openclaw/gateway/client.ts: GatewayClient, which nodes, the command line and the
    gateway itself connect with.  A timer is a flag or a delay in the state and its end
    an event; the continuations of the request of connect wait in [jobs] and run when the
    event that settled it is over.  The store of device tokens, signatures, fingerprints
    and the schemas are of other modules: an interface and parameters.  The callbacks of
    the options are outputs. *)

From S2P Require Import Prelude JsMap JsString JsNumber Json GatewayNet GatewayAuth GatewayMethods GatewayNodes GatewayHandshake.
From Stdlib Require Import Ascii Sorted.

(** ** Data *)

Record DeviceIdentity := mkDeviceIdentity { di_deviceId : string; di_publicKeyPem : string; di_privateKeyPem : string }.

Record GatewayClientOptions := mkOptions {
  op_url : option string; op_token : option string; op_password : option string; op_instanceId : option string;
  op_clientName : option string; op_clientDisplayName : option string; op_clientVersion : option string;
  op_platform : option string; op_mode : option string; op_role : option string; op_scopes : option (list string);
  op_caps : option (list string); op_commands : option (list string); op_permissions : option (jsmap bool);
  op_pathEnv : option string; op_deviceIdentity : option DeviceIdentity;
  op_minProtocol : option Z; op_maxProtocol : option Z; op_tlsFingerprint : option string
}.
#[export] Instance GatewayClientOptions_eta : EtaRecord GatewayClientOptions := fun o =>
  mkOptions (op_url o) (op_token o) (op_password o) (op_instanceId o) (op_clientName o) (op_clientDisplayName o)
    (op_clientVersion o) (op_platform o) (op_mode o) (op_role o) (op_scopes o) (op_caps o) (op_commands o)
    (op_permissions o) (op_pathEnv o) (op_deviceIdentity o) (op_minProtocol o) (op_maxProtocol o) (op_tlsFingerprint o).

Definition GATEWAY_CLIENT : string := "gateway-client".
Definition BACKEND : string := "backend".

Definition describeGatewayCloseCode (code : Z) : option string :=
  if code =? 1000 then Some "normal closure"
  else if code =? 1006 then Some "abnormal closure (no close frame)"
  else if code =? 1008 then Some "policy violation"
  else if code =? 1012 then Some "service restart"
  else None.

(** The store of device tokens (infra/device-auth-store.js). *)
Class DeviceTokens (S : Type) := {
  loadDeviceAuthToken : string -> string -> S -> option string;
  storeDeviceAuthToken : string -> string -> string -> list string -> S -> S;
  clearDeviceAuthToken : string -> string -> S -> S
}.

(** The parameters of a request: those of connect, or what a caller passes. *)
Inductive Params := connect_params (p : ConnectParams) | any_params (j : option json).
Record RequestFrame := mkRequestFrame { rf_id : string; rf_method : string; rf_params : Params }.

(** Who waits for the answer: the caller of [request], or the continuations of
    [sendConnect] with what they remember. *)
Inductive Caller := user_call | connect_call (canFallbackToShared : bool) (role : string).
Inductive Outcome := resolved (payload : option json) | rejected (error : string).
Record Pending := mkPending { pn_expectFinal : bool; pn_caller : Caller }.

(** A frame as [JSON.parse] and the schemas sort it. *)
Inductive Frame :=
  | event_frame (event : string) (payload : option json) (seq : option Z)
  | response_frame (id : string) (ok : bool) (payload : option json) (error : option string)
  | other_frame.

Inductive Output :=
  | o_send (f : RequestFrame)
  | o_close (code : Z) (reason : string)          (* [ws.close] *)
  | o_connectError (e : string)
  | o_onClose (code : Z) (reason : string)
  | o_hello (payload : option json)
  | o_event (event : string) (payload : option json) (seq : option Z)
  | o_gap (expected received : Z).

Record Job := mkJob { jb_fallback : bool; jb_role : string; jb_outcome : Outcome }.

(** The current socket: its number, and whether its state is OPEN. *)
Record Socket := mkSocket { sk_id : nat; sk_open : bool }.

Record GatewayClient {S : Type} := mkGatewayClient {
  ws : option Socket; sockets : nat; pending : jsmap Pending; backoffMs : Z; closed : bool; lastSeq : option Z;
  connectNonce : option string; connectSent : bool; connectTimer : bool;
  lastTick : option Z; tickIntervalMs : Z; tickTimer : option Z;
  reconnects : list Z;                            (* the delays of the timers that will start again *)
  tokens : S; jobs : list Job;
  settled : list (string * Outcome);              (* the requests of callers that have ended *)
  out : list Output
}.
Arguments GatewayClient : clear implicits.
Arguments mkGatewayClient {S}.
#[export] Instance GatewayClient_eta S : EtaRecord (GatewayClient S) := fun c =>
  mkGatewayClient (ws c) (sockets c) (pending c) (backoffMs c) (closed c) (lastSeq c) (connectNonce c) (connectSent c)
    (connectTimer c) (lastTick c) (tickIntervalMs c) (tickTimer c) (reconnects c) (tokens c) (jobs c) (settled c) (out c).

(** [j?.name] of an object. *)
Definition member (name : string) (j : option json) : option json :=
  match j with Some (JObj l) => jm_get l name | _ => None end.
Definition str_of (j : option json) : option string := match j with Some (JStr s) => Some s | _ => None end.
Definition strings_of (j : option json) : option (list string) :=
  match j with Some (JArr l) => Some (omap (fun x => str_of (Some x)) l) | _ => None end.

Section client.
Context {S : Type} `{DeviceTokens S}.
Context (signDevicePayload : string -> string -> string) (publicKeyRawBase64UrlFromPem : string -> string).
Context (normalizeFingerprint : string -> string).
Context (invalid_request : RequestFrame -> option string).     (* the errors of the schema *)
Context (process_platform : string).
Context (opts : GatewayClientOptions).

Implicit Types c : GatewayClient S.

Definition emit (o : Output) c : GatewayClient S := c <| out ::= fun l => l ++ [o] |>.

(** The constructor; [loaded] is the identity of the machine. *)
Definition with_identity (loaded : DeviceIdentity) (o : GatewayClientOptions) : GatewayClientOptions :=
  o <| op_deviceIdentity := Some (default loaded (op_deviceIdentity o)) |>.
Definition new_GatewayClient (s : S) : GatewayClient S :=
  mkGatewayClient None 0 [] 1000 false None None false false None 30000 None [] s [] [] [].

(** *** Fingerprints *)

Definition wss (url : string) : bool := js_startsWith url "wss://".
Definition the_url : string := default "ws://127.0.0.1:18789" (op_url opts).

(** [checkServerIdentity] of the options of the socket, for the fingerprint of the
    certificate. *)
Definition compare_fingerprints (expected fingerprint : string) : option string :=
  if negb (truthy_str expected) then Some "gateway tls fingerprint missing"
  else if negb (truthy_str fingerprint) then Some "gateway tls fingerprint unavailable"
  else if negb (String.eqb fingerprint expected) then Some "gateway tls fingerprint mismatch"
  else None.
Definition checkServerIdentity (fingerprint256 : option string) : option string :=
  compare_fingerprints (normalizeFingerprint (default "" (op_tlsFingerprint opts))) (normalizeFingerprint (default "" fingerprint256)).

(** [peer]: the certificate of the peer, if the socket offers one. *)
Definition validateTlsFingerprint (peer : option (option string)) c : option string :=
  if negb (truthy_opt (op_tlsFingerprint opts)) || (match ws c with None => true | Some _ => false end) then None else
  let expected := normalizeFingerprint (default "" (op_tlsFingerprint opts)) in
  if negb (truthy_str expected) then Some "gateway tls fingerprint missing" else
  match peer with
  | None => Some "gateway tls fingerprint unavailable"
  | Some fp => compare_fingerprints expected (normalizeFingerprint (default "" fp))
  end.

(** *** Requests *)

Definition settle (id : string) (caller : Caller) (o : Outcome) c : GatewayClient S :=
  match caller with
  | user_call => c <| settled ::= fun l => l ++ [(id, o)] |>
  | connect_call fallback role => c <| jobs ::= fun l => l ++ [mkJob fallback role o] |>
  end.

Definition is_open c : bool := match ws c with Some s => sk_open s | None => false end.

Definition request_as (caller : Caller) (id method : string) (params : Params) (expectFinal : bool) c : GatewayClient S :=
  if negb (is_open c) then settle id caller (rejected "gateway not connected") c else
  let frame := mkRequestFrame id method params in
  match invalid_request frame with
  | Some errors => settle id caller (rejected ("invalid request frame: " +:+ errors)) c
  | None => emit (o_send frame) (c <| pending ::= fun m => jm_set m id (mkPending expectFinal caller) |>)
  end.
Definition request := request_as user_call.

Definition flushPendingErrors (e : string) c : GatewayClient S :=
  (foldl (fun c kv => settle kv.1 (pn_caller kv.2) (rejected e) c) c (pending c)) <| pending := [] |>.

(** [this.ws?.close(code, reason)]. *)
Definition close_ws (code : Z) (reason : string) c : GatewayClient S :=
  match ws c with
  | Some s => emit (o_close code reason) (c <| ws := Some (mkSocket (sk_id s) false) |>)
  | None => c
  end.

(** *** Connecting *)

Definition role_of : string := default "operator" (op_role opts).
Definition scopes_of : list string := default ["operator.admin"] (op_scopes opts).
Definition client_name : string := default GATEWAY_CLIENT (op_clientName opts).
Definition client_mode : string := default BACKEND (op_mode opts).

Definition storedToken (s : S) : option string :=
  match op_deviceIdentity opts with Some d => loadDeviceAuthToken (di_deviceId d) role_of s | None => None end.
Definition authToken (s : S) : option string :=
  match storedToken s with Some t => Some t | None => op_token opts end.
Definition canFallbackToShared (s : S) : bool := truthy_opt (storedToken s) && truthy_opt (op_token opts).

(** The members of [auth]: without a token and a password there is none. *)
Definition auth_token (s : S) : option string :=
  if truthy_opt (authToken s) || truthy_opt (op_password opts) then authToken s else None.
Definition auth_password (s : S) : option string :=
  if truthy_opt (authToken s) || truthy_opt (op_password opts) then op_password opts else None.

Definition device_of (now : Z) (nonce : option string) (s : S) : option Device :=
  match op_deviceIdentity opts with
  | None => None
  | Some d =>
      let payload := buildDeviceAuthPayload (mkPayloadParams (di_deviceId d) client_name client_mode role_of scopes_of
                                               now (authToken s) nonce None) in
      Some (mkDevice (di_deviceId d) (publicKeyRawBase64UrlFromPem (di_publicKeyPem d))
              (signDevicePayload (di_privateKeyPem d) payload) now nonce)
  end.

Definition connect_of (now : Z) (nonce : option string) (s : S) : ConnectParams :=
  mkConnectParams (default PROTOCOL_VERSION (op_minProtocol opts)) (default PROTOCOL_VERSION (op_maxProtocol opts))
    (mkClientInfo client_name (op_clientDisplayName opts) (default "dev" (op_clientVersion opts))
       (default process_platform (op_platform opts)) None None client_mode (op_instanceId opts))
    (Some (default [] (op_caps opts))) (op_commands opts) (op_permissions opts) (op_pathEnv opts)
    (Some role_of) (Some scopes_of) (device_of now nonce s) (auth_token s) (auth_password s).

Definition sendConnect (now : Z) (id : string) c : GatewayClient S :=
  if connectSent c then c else
  let c := c <| connectSent := true |> <| connectTimer := false |> in
  request_as (connect_call (canFallbackToShared (tokens c)) role_of) id "connect"
    (connect_params (connect_of now (connectNonce c) (tokens c))) false c.

Definition queueConnect c : GatewayClient S :=
  c <| connectNonce := None |> <| connectSent := false |> <| connectTimer := true |>.

Definition startTickWatch c : GatewayClient S := c <| tickTimer := Some (Z.max (tickIntervalMs c) 1000) |>.

(** The continuations of the request. *)
Definition connect_failed (fallback : bool) (role e : string) c : GatewayClient S :=
  let c := match op_deviceIdentity opts with
           | Some d => if fallback then c <| tokens ::= clearDeviceAuthToken (di_deviceId d) role |> else c
           | None => c
           end in
  close_ws 1008 "connect failed" (emit (o_connectError e) c).

Definition remember_token (role : string) (hello : option json) c : GatewayClient S :=
  let auth := member "auth" hello in
  match str_of (member "deviceToken" auth), op_deviceIdentity opts with
  | Some t, Some d =>
      if truthy_str t
      then c <| tokens ::= storeDeviceAuthToken (di_deviceId d) (default role (str_of (member "role" auth))) t
                             (default [] (strings_of (member "scopes" auth))) |>
      else c
  | _, _ => c
  end.

Definition hello_interval (hello : option json) : Z :=
  match member "tickIntervalMs" (member "policy" hello) with Some (JNum n) => n | _ => 30000 end.

Definition connected (now : Z) (fallback : bool) (role : string) (hello : option json) c : GatewayClient S :=
  let c := (remember_token role hello c) <| backoffMs := 1000 |> in
  match hello with
  | None => connect_failed fallback role "Cannot read properties of undefined (reading 'policy')" c
  | Some JNull => connect_failed fallback role "Cannot read properties of null (reading 'policy')" c
  | Some _ =>
      emit (o_hello hello) (startTickWatch (c <| tickIntervalMs := hello_interval hello |> <| lastTick := Some now |>))
  end.

Definition run_job (now : Z) (j : Job) c : GatewayClient S :=
  match jb_outcome j with
  | resolved hello => connected now (jb_fallback j) (jb_role j) hello c
  | rejected e => connect_failed (jb_fallback j) (jb_role j) e c
  end.
(** The continuations make no new jobs. *)
Definition run_jobs (now : Z) c : GatewayClient S :=
  foldl (fun c j => run_job now j c) (c <| jobs := [] |>) (jobs c).

(** *** The life of the connection *)

Definition start c : GatewayClient S :=
  if closed c then c else
  if truthy_opt (op_tlsFingerprint opts) && negb (wss the_url)
  then emit (o_connectError "gateway tls fingerprint requires wss:// gateway url") c
  else c <| ws := Some (mkSocket (sockets c) false) |> <| sockets ::= Nat.succ |>.

Definition stop c : GatewayClient S :=
  let c := c <| closed := true |> <| tickTimer := None |> in
  flushPendingErrors "gateway client stopped" ((close_ws 1005 "" c) <| ws := None |>).

Definition scheduleReconnect c : GatewayClient S :=
  if closed c then c else
  c <| tickTimer := None |> <| reconnects ::= fun l => l ++ [backoffMs c] |>
    <| backoffMs := Z.min (backoffMs c * 2) 30000 |>.

(** *** The events of a socket *)

Definition on_open (socket : nat) (peer : option (option string)) c : GatewayClient S :=
  let c := match ws c with
           | Some s => if (sk_id s =? socket)%nat then c <| ws := Some (mkSocket socket true) |> else c
           | None => c
           end in
  let tlsError := if wss the_url && truthy_opt (op_tlsFingerprint opts) then validateTlsFingerprint peer c else None in
  match tlsError with
  | Some e => close_ws 1008 e (emit (o_connectError e) c)
  | None => queueConnect c
  end.

Definition on_close (code : Z) (reason : string) c : GatewayClient S :=
  let c := flushPendingErrors ("gateway closed (" +:+ js_toString code +:+ "): " +:+ reason) (c <| ws := None |>) in
  emit (o_onClose code reason) (scheduleReconnect c).

Definition on_error (e : string) c : GatewayClient S := if connectSent c then c else emit (o_connectError e) c.

Definition track_seq (seq : option Z) c : GatewayClient S :=
  match seq with
  | None => c
  | Some n =>
      let c := match lastSeq c with
               | Some m => if m + 1 <? n then emit (o_gap (m + 1) n) c else c
               | None => c
               end in
      c <| lastSeq := Some n |>
  end.

Definition handleMessage (f : Frame) (now : Z) (id : string) c : GatewayClient S :=
  match f with
  | event_frame event payload seq =>
      if String.eqb event "connect.challenge" then
        match str_of (member "nonce" payload) with
        | Some nonce => if truthy_str nonce then sendConnect now id (c <| connectNonce := Some nonce |>) else c
        | None => c
        end
      else
        let c := track_seq seq c in
        let c := if String.eqb event "tick" then c <| lastTick := Some now |> else c in
        emit (o_event event payload seq) c
  | response_frame rid ok payload error =>
      match jm_get (pending c) rid with
      | None => c
      | Some p =>
          if pn_expectFinal p && bool_decide (str_of (member "status" payload) = Some "accepted") then c else
          let c := c <| pending ::= fun m => jm_delete m rid |> in
          settle rid (pn_caller p) (if ok then resolved payload else rejected (default "unknown error" error)) c
      end
  | other_frame => c
  end.

(** The watch for a connection without ticks. *)
Definition on_tick (now : Z) c : GatewayClient S :=
  if closed c then c else
  match lastTick c with
  | None => c
  | Some t => if (t =? 0) || negb (tickIntervalMs c * 2 <? now - t) then c else close_ws 4000 "tick timeout" c
  end.

(** ** Runs *)

(** What may happen.  [id] is the id a request draws, [now] the clock. *)
Inductive Event :=
  | ev_start | ev_stop
  | ev_open (socket : nat) (peer : option (option string))
  | ev_message (f : Frame) (id : string)
  | ev_close (code : Z) (reason : string)
  | ev_error (e : string)
  | ev_connect_timer (id : string)
  | ev_tick
  | ev_reconnect (delay : Z)
  | ev_request (id method : string) (params : option json) (expectFinal : bool).

Definition remove_one (d : Z) (l : list Z) : list Z :=
  match list_find (d =.) l with Some (i, _) => delete i l | None => l end.

(** A timer that was cleared does not end. *)
Definition handle (now : Z) (e : Event) c : GatewayClient S :=
  match e with
  | ev_start => start c
  | ev_stop => stop c
  | ev_open socket peer => on_open socket peer c
  | ev_message f id => handleMessage f now id c
  | ev_close code reason => on_close code reason c
  | ev_error e => on_error e c
  | ev_connect_timer id => if connectTimer c then sendConnect now id (c <| connectTimer := false |>) else c
  | ev_tick => match tickTimer c with Some _ => on_tick now c | None => c end
  | ev_reconnect d => if bool_decide (d ∈ reconnects c) then start (c <| reconnects ::= remove_one d |>) else c
  | ev_request id method params expectFinal => request id method (any_params params) expectFinal c
  end.
Definition step (now : Z) (e : Event) c : GatewayClient S := run_jobs now (handle now e c).
Definition run (es : list (Z * Event)) c : GatewayClient S := foldl (fun c e => step e.1 e.2 c) c es.
End client.

(** ** Every request ends once *)

Section requests.
Context {S : Type} `{DeviceTokens S}.
Context (sign : string -> string -> string) (raw_key : string -> string) (fingerprint : string -> string).
Context (invalid_request : RequestFrame -> option string) (platform : string) (opts : GatewayClientOptions).
Implicit Types c : GatewayClient S.

Notation step := (step sign raw_key fingerprint invalid_request platform opts).
Notation handle := (handle sign raw_key fingerprint invalid_request platform opts).

Definition is_user (p : Pending) : bool := match pn_caller p with user_call => true | connect_call _ _ => false end.
(** The requests of callers that wait. *)
Definition waiting c : list string := omap (fun kv : string * Pending => if is_user kv.2 then Some kv.1 else None) (pending c).

Definition ids_of (e : Event) : list string :=
  match e with ev_message _ id | ev_connect_timer id | ev_request id _ _ _ => [id] | _ => [] end.
Definition asked_of (e : Event) : list string := match e with ev_request id _ _ _ => [id] | _ => [] end.

(** Runs in which every id is drawn once: the requests of callers, all ids drawn, and the
    client. *)
Inductive session : list string -> list string -> GatewayClient S -> Prop :=
  | session_new s : session [] [] (new_GatewayClient s)
  | session_step asked used c now e :
      session asked used c -> (forall id, id ∈ ids_of e -> id ∉ used) ->
      session (asked_of e ++ asked) (ids_of e ++ used) (step now e c).

Record accounted (asked used : list string) c : Prop := {
  ac_wf : jm_wf (pending c);
  ac_ids : Permutation ((settled c).*1 ++ waiting c) asked;
  ac_used : forall id, id ∈ jm_keys (pending c) -> id ∈ used;
  ac_none : ws c = None -> pending c = []
}.

(** The requests of [c'] are those of [c], and it has not lost the socket. *)
Definition same_calls c c' : Prop := pending c' = pending c /\ settled c' = settled c /\ (ws c' = None -> ws c = None).

Lemma accounted_ext asked used c c' : same_calls c c' -> accounted asked used c -> accounted asked used c'.
Proof. intros (Hp & Hs & Hw) [H1 H2 H3 H4]. constructor; unfold waiting in *; rewrite ?Hp, ?Hs; auto. Qed.

Lemma same_calls_trans c1 c2 c3 : same_calls c1 c2 -> same_calls c2 c3 -> same_calls c1 c3.
Proof. intros (H1 & H2 & H3) (H4 & H5 & H6). split_and!; [by rewrite H4|by rewrite H5|auto]. Qed.

Lemma close_ws_calls code reason c : same_calls c (close_ws code reason c).
Proof. unfold close_ws. by destruct (ws c) eqn:E; split_and!. Qed.

Lemma connect_failed_calls f r e c : same_calls c (connect_failed opts f r e c).
Proof. unfold connect_failed. eapply same_calls_trans; [|apply close_ws_calls]. repeat case_match; done. Qed.

Lemma run_job_calls now j c : same_calls c (run_job opts now j c).
Proof.
  unfold run_job, connected. destruct (jb_outcome j); [|apply connect_failed_calls].
  assert (Hr : same_calls c (remember_token opts (jb_role j) payload c)) by (unfold remember_token; repeat case_match; done).
  eapply same_calls_trans; [exact Hr|]. generalize (remember_token opts (jb_role j) payload c). intros r.
  assert (Hf : forall e, same_calls r (connect_failed opts (jb_fallback j) (jb_role j) e (r <| backoffMs := 1000 |>)))
    by (intros e; eapply same_calls_trans; [|apply connect_failed_calls]; done).
  by destruct payload as [[]|].
Qed.

Lemma run_jobs_calls now c : same_calls c (run_jobs opts now c).
Proof.
  unfold run_jobs. apply (same_calls_trans _ (c <| jobs := [] |>)); [done|].
  generalize (jobs c), (c <| jobs := [] |>). intros l. induction l as [|j l IH]; intros d; [done|]. cbn [foldl].
  eapply same_calls_trans; [apply run_job_calls|apply IH].
Qed.

Lemma settle_shape id p o c : let c' := settle id p o c in
  pending c' = pending c /\ ws c' = ws c /\
  (settled c').*1 = (settled c).*1 ++ match p with user_call => [id] | connect_call _ _ => [] end.
Proof. destruct p; cbn; split_and!; try done; [by rewrite fmap_app|by rewrite app_nil_r]. Qed.

Lemma flush_shape e c : let c' := flushPendingErrors e c in
  pending c' = [] /\ (settled c').*1 = (settled c).*1 ++ waiting c.
Proof.
  unfold flushPendingErrors, waiting. split; [done|]. cbn. generalize (pending c). intros m. revert c.
  induction m as [|[k p] m IH]; intros c; [by rewrite app_nil_r|]. cbn [foldl]. rewrite IH. cbn [fst snd].
  destruct (settle_shape k (pn_caller p) (rejected e) c) as (_ & _ & ->). cbn. unfold is_user.
  rewrite <- app_assoc. by destruct (pn_caller p).
Qed.

Lemma flush_accounted asked used e c : accounted asked used c -> accounted asked used (flushPendingErrors e c).
Proof.
  intros [H1 H2 H3 H4]. destruct (flush_shape e c) as [Hp Hs]. constructor; unfold waiting; rewrite ?Hp.
  - apply jm_wf_nil.
  - rewrite Hs. cbn. by rewrite app_nil_r.
  - cbn. by intros id ?%not_elem_of_nil.
  - done.
Qed.

Lemma waiting_fresh (m : jsmap Pending) id p : jm_get m id = None -> jm_set m id p = m ++ [(id, p)].
Proof. intros Hm. by rewrite jm_set_fresh by by apply jm_get_None_keys. Qed.

Definition asks (caller : Caller) (id : string) : list string := match caller with user_call => [id] | connect_call _ _ => [] end.

Lemma request_accounted asked used caller id method params ef c : id ∉ used -> accounted asked used c ->
  accounted (asks caller id ++ asked) (id :: used) (request_as invalid_request caller id method params ef c).
Proof.
  intros Hid [H1 H2 H3 H4]. unfold request_as.
  assert (Hset : forall o, accounted (asks caller id ++ asked) (id :: used) (settle id caller o c)).
  { intros o. destruct (settle_shape id caller o c) as (Hp & Hw & Hs). constructor; unfold waiting; rewrite ?Hp, ?Hw, ?Hs; [done| | |done].
    - rewrite <- H2. unfold waiting. fold (asks caller id). rewrite <- app_assoc. apply Permutation_app_swap_app.
    - intros i Hi. right. by apply H3. }
  unfold is_open in *. destruct (ws c) as [sk|] eqn:Ews; [|apply Hset]. destruct (negb (sk_open sk)); [apply Hset|]. destruct (invalid_request _); [apply Hset|].
  assert (Hn : jm_get (pending c) id = None) by (apply jm_get_None_keys; intros Hk; by apply Hid, H3).
  constructor; cbn; unfold waiting; cbn.
  - by apply jm_wf_set.
  - rewrite waiting_fresh by done. rewrite omap_app, app_assoc. rewrite (Permutation_app_comm _ (omap _ [_])).
    apply Permutation_app; [|done]. by destruct caller.
  - rewrite waiting_fresh by done. unfold jm_keys. rewrite fmap_app. cbn.
    intros i [Hi|Hi]%elem_of_app; [right; by apply H3|]. apply list_elem_of_singleton in Hi as ->. left.
  - by rewrite Ews.
Qed.

Lemma accounted_more asked used used' c : (forall i, i ∈ used -> i ∈ used') -> accounted asked used c -> accounted asked used' c.
Proof. intros Hu [H1 H2 H3 H4]. constructor; auto. Qed.

Lemma sendConnect_accounted asked used now id c : id ∉ used -> accounted asked used c ->
  accounted asked (id :: used) (sendConnect sign raw_key invalid_request platform opts now id c).
Proof.
  intros Hid Hc. unfold sendConnect. destruct (connectSent c).
  - eapply accounted_more; [|done]. by right.
  - refine (request_accounted asked used (connect_call _ _) id _ _ _ _ Hid _). by apply (accounted_ext _ _ c).
Qed.

Lemma waiting_delete (m : jsmap Pending) id p : jm_wf m -> jm_get m id = Some p ->
  let w := omap (fun kv : string * Pending => if is_user kv.2 then Some kv.1 else None) in
  Permutation (w m) (asks (pn_caller p) id ++ w (jm_delete m id)).
Proof.
  intros Hw Hg w. induction m as [|[k q] m IH]; [done|]. apply NoDup_cons in Hw as [Hn Hw]. revert Hg. cbn [jm_get jm_delete].
  destruct (String.eqb_spec k id) as [->|Hne].
  - intros [= ->]. unfold w. cbn. unfold is_user. by destruct (pn_caller p).
  - intros Hg. specialize (IH Hw Hg). unfold w in *. cbn. destruct (is_user q); [|done].
    rewrite IH. apply Permutation_middle.
Qed.

Lemma response_accounted asked used rid ok payload error c now id : accounted asked used c ->
  accounted asked used (handleMessage sign raw_key invalid_request platform opts (response_frame rid ok payload error) now id c).
Proof.
  intros [H1 H2 H3 H4]. cbn. destruct (jm_get (pending c) rid) as [p|] eqn:E; [|done].
  destruct (_ && _); [done|]. set (c1 := c <| pending ::= _ |>).
  match goal with |- accounted _ _ (settle _ _ ?o _) => destruct (settle_shape rid (pn_caller p) o c1) as (Hp & Hw & Hs) end.
  constructor; unfold waiting; rewrite ?Hp, ?Hw, ?Hs; cbn.
  - by apply jm_wf_delete.
  - rewrite <- H2. unfold waiting. rewrite (waiting_delete _ _ _ H1 E), <- app_assoc. done.
  - intros i Hi. apply H3. eapply elem_of_sublist; [|apply jm_keys_delete_subset]; done.
  - intros Hn. by rewrite (H4 Hn).
Qed.

Lemma start_accounted asked used c : accounted asked used c -> accounted asked used (start opts c).
Proof. apply accounted_ext. unfold start. by repeat case_match. Qed.

Lemma handle_accounted asked used now e c : (forall id, id ∈ ids_of e -> id ∉ used) -> accounted asked used c ->
  accounted (asked_of e ++ asked) (ids_of e ++ used) (handle now e c).
Proof.
  intros Hid Hc. assert (Hmore : forall id c', accounted asked used c' -> accounted asked (id :: used) c')
    by (intros id c'; apply accounted_more; by right).
  destruct e as [| |socket peer|f id|code reason|e|id| |d|id method params ef]; cbn [GatewayClient.handle asked_of ids_of app] in *.
  - by apply start_accounted.
  - unfold stop. set (c1 := close_ws 1005 "" _). assert (Hc1 : accounted asked used c1).
    { eapply accounted_ext; [|exact Hc]. eapply same_calls_trans; [|apply close_ws_calls]. done. }
    destruct (flush_shape "gateway client stopped" (c1 <| ws := None |>)) as [Hp Hs]. destruct Hc1 as [H1 H2 H3 H4].
    constructor; unfold waiting; rewrite ?Hp, ?Hs; cbn; [apply jm_wf_nil|by rewrite app_nil_r|by intros ? ?%not_elem_of_nil|done].
  - eapply accounted_ext; [|exact Hc]. unfold on_open. set (c1 := match ws c with Some _ => _ | None => _ end).
    assert (Hc1 : same_calls c c1) by (unfold c1; repeat case_match; done).
    eapply same_calls_trans; [exact Hc1|]. case_match; [|done]. eapply same_calls_trans; [|apply close_ws_calls]. done.
  - destruct f as [event payload seq|rid ok payload error|]; [|by apply Hmore, response_accounted|by apply Hmore].
    cbn [handleMessage]. destruct (String.eqb event "connect.challenge").
    + destruct (str_of _) as [nonce|]; [|by apply Hmore]. destruct (truthy_str nonce); [|by apply Hmore].
      apply sendConnect_accounted; [by apply Hid; left|]. by apply (accounted_ext _ _ c).
    + apply Hmore. eapply accounted_ext; [|exact Hc]. unfold track_seq. by repeat case_match.
  - unfold on_close. set (c1 := flushPendingErrors _ _).
    assert (Hc1 : accounted asked used c1).
    { destruct (flush_shape ("gateway closed (" +:+ js_toString code +:+ "): " +:+ reason) (c <| ws := None |>)) as [Hp Hs].
      destruct Hc as [H1 H2 H3 H4]. constructor; unfold waiting, c1; rewrite ?Hp, ?Hs; cbn;
        [apply jm_wf_nil|by rewrite app_nil_r|by intros ? ?%not_elem_of_nil|done]. }
    eapply accounted_ext; [|exact Hc1]. unfold scheduleReconnect. by repeat case_match.
  - eapply accounted_ext; [|exact Hc]. unfold on_error. by repeat case_match.
  - destruct (connectTimer c); [|by apply Hmore]. apply sendConnect_accounted; [by apply Hid; left|].
    by apply (accounted_ext _ _ c).
  - destruct (tickTimer c); [|done]. eapply accounted_ext; [|exact Hc]. unfold on_tick.
    repeat case_match; try done. apply close_ws_calls.
  - destruct (bool_decide _); [|done]. apply start_accounted. by apply (accounted_ext _ _ c).
  - apply (request_accounted asked used user_call); [by apply Hid; left|done].
Qed.

Lemma session_accounted asked used c : session asked used c ->
  accounted asked used c /\ NoDup asked /\ (forall id, id ∈ asked -> id ∈ used).
Proof.
  induction 1 as [s|asked used c now e _ (IH & Hn & Hu) Hid].
  - split_and!; [|constructor|done]. constructor; [apply jm_wf_nil|done|by intros ? ?%not_elem_of_nil|done].
  - split_and!.
    + unfold GatewayClient.step. eapply accounted_ext; [apply run_jobs_calls|]. by apply handle_accounted.
    + destruct e; try done. constructor; [|done]. intros Hin. eapply Hid; [by left|]. by apply Hu.
    + intros id Hi. destruct e; cbn in *; try (by apply Hu); try (right; by apply Hu).
      apply elem_of_cons in Hi as [->|Hi]; [left|right; by apply Hu].
Qed.

Lemma waiting_pending c id : jm_wf (pending c) -> id ∈ waiting c ->
  exists p, jm_get (pending c) id = Some p /\ pn_caller p = user_call.
Proof.
  intros Hw Hi. apply list_elem_of_omap in Hi as ([k p] & Hin & Hp). cbn in Hp. unfold is_user in Hp.
  destruct (pn_caller p) eqn:E; [|done]. injection Hp as ->. exists p. split; [|done]. by apply jm_elem_of_get.
Qed.

(** [c'] has ended no request of [c] with a result. *)
Definition no_result c c' : Prop := forall id v, (id, resolved v) ∈ settled c' -> (id, resolved v) ∈ settled c.

Lemma no_result_calls c c' c'' : same_calls c' c'' -> no_result c c' -> no_result c c''.
Proof. intros (_ & Hs & _) Hn id v. rewrite Hs. apply Hn. Qed.

Lemma settle_rejected id p e c : no_result c (settle id p (rejected e) c).
Proof.
  intros i v. destruct p; cbn; [|done]. intros [Hi|Hi]%elem_of_app; [done|]. by apply list_elem_of_singleton in Hi.
Qed.

Lemma flush_rejected e c : no_result c (flushPendingErrors e c).
Proof.
  unfold flushPendingErrors. cbn. generalize (pending c). intros m. revert c.
  induction m as [|[k p] m IH]; intros c; [by intros id v|]. intros id v Hi. cbn [foldl] in Hi. apply IH in Hi.
  by eapply settle_rejected.
Qed.

Lemma request_rejected caller id method params ef c :
  no_result c (request_as invalid_request caller id method params ef c).
Proof. unfold request_as. repeat case_match; first [apply settle_rejected|by intros i v]. Qed.

Lemma sendConnect_rejected now id c : no_result c (sendConnect sign raw_key invalid_request platform opts now id c).
Proof. intros i v. unfold sendConnect. destruct (connectSent c); [done|]. intros Hi. by apply request_rejected in Hi. Qed.

(** Only its own answer gives a request a result. *)
Lemma results_from_answers now e c id v : (id, resolved v) ∈ settled (step now e c) ->
  (id, resolved v) ∈ settled c \/ exists error r, e = ev_message (response_frame id true v error) r.
Proof.
  unfold GatewayClient.step. destruct (run_jobs_calls now (handle now e c)) as (_ & -> & _).
  assert (Hstart : forall c, no_result c (start opts c)) by (intros d i w; unfold start; repeat case_match; intros Hi; exact Hi).
  assert (Hclose : forall code reason c, no_result c (close_ws code reason c)) by (intros code r d; eapply no_result_calls; [apply close_ws_calls|by intros i w]).
  destruct e as [| |socket peer|f r|code reason|e|r| |d|r method params ef]; cbn [GatewayClient.handle]; intros Hi.
  - left. by apply Hstart.
  - left. apply flush_rejected in Hi. cbn in Hi. by apply Hclose in Hi.
  - left. revert Hi. unfold on_open, queueConnect. repeat case_match; intros Hi; try done; by apply Hclose in Hi.
  - destruct f as [event payload seq|rid ok payload error|]; [left| |by left]; cbn [handleMessage] in Hi.
    + revert Hi. repeat case_match; intros Hi; try done; try (by apply sendConnect_rejected in Hi).
      all: revert Hi; unfold track_seq; repeat case_match; done.
    + destruct (jm_get (pending c) rid) as [p|]; [|by left]. destruct (_ && _); [by left|]. revert Hi.
      destruct (pn_caller p), ok; cbn; intros Hi; try (by left); apply elem_of_app in Hi as [Hi|Hi]; try (by left);
        apply list_elem_of_singleton in Hi; [|done]. injection Hi as -> ->. right. by exists error, r.
  - left. revert Hi. unfold on_close, scheduleReconnect. repeat case_match; intros Hi; by apply flush_rejected in Hi.
  - left. revert Hi. unfold on_error. by case_match.
  - left. destruct (connectTimer c); [|done]. by apply sendConnect_rejected in Hi.
  - left. revert Hi. unfold on_tick. repeat case_match; intros Hi; try done. by apply Hclose in Hi.
  - left. destruct (bool_decide _); [|done]. by apply Hstart in Hi.
  - left. by apply request_rejected in Hi.
Qed.

(** C23: requests of the gateway client end once.  In every session, of calls, messages, opened and
    closed connections, errors, timers and stops in any order, whose requests draw ids that were
    not drawn before: the requests that ended and those that wait are together exactly the ones
    that were asked, each once, so that none is lost or answered twice and what has ended no longer
    waits; and when there is no connection, all of them have ended.  An answer other than a notice of
    acceptance ends the waiting request whose id it has, and no other, with what it carries; and
    nothing but its own answer ends a request with a result. *)
Theorem client_requests_end_once asked used c : session asked used c ->
  Permutation ((settled c).*1 ++ waiting c) asked /\ NoDup (settled c).*1 /\
  (forall id, id ∈ waiting c -> id ∉ (settled c).*1) /\
  (ws c = None -> Permutation (settled c).*1 asked) /\
  (forall now id ok payload error r, id ∈ waiting c -> str_of (member "status" payload) <> Some "accepted" ->
     settled (step now (ev_message (response_frame id ok payload error) r) c) =
       settled c ++ [(id, if ok then resolved payload else rejected (default "unknown error" error))]) /\
  (forall now e id v, (id, resolved v) ∈ settled (step now e c) ->
     (id, resolved v) ∈ settled c \/ exists error r, e = ev_message (response_frame id true v error) r).
Proof.
  intros Hs. destruct (session_accounted _ _ _ Hs) as ([H1 H2 H3 H4] & Hn & _).
  assert (Hd : NoDup ((settled c).*1 ++ waiting c)) by by rewrite H2. apply NoDup_app in Hd as (Hd1 & Hd2 & _).
  split_and!; [done|done|by intros id Hw Hse; eapply Hd2| | |intros now e id v; apply results_from_answers].
  - intros Hws. rewrite <- H2. unfold waiting. rewrite (H4 Hws). cbn. by rewrite app_nil_r.
  - intros now id ok payload error r Hw Ha. destruct (waiting_pending c id H1 Hw) as (p & Hp & Hu).
    unfold GatewayClient.step. destruct (run_jobs_calls now (handle now (ev_message (response_frame id ok payload error) r) c)) as (_ & -> & _).
    cbn. rewrite Hp, (bool_decide_eq_false_2 _ Ha), andb_false_r, Hu. by destruct ok.
Qed.

(** A run whose ids are distinct is such a session. *)
Lemma session_run s (es : list (Z * Event)) : NoDup (mjoin ((fun e => ids_of e.2) <$> es)) ->
  session (mjoin ((fun e => asked_of e.2) <$> reverse es)) (mjoin ((fun e => ids_of e.2) <$> reverse es))
    (run sign raw_key fingerprint invalid_request platform opts es (new_GatewayClient s)).
Proof.
  induction es as [|[now e] es IH] using rev_ind; [constructor|].
  rewrite fmap_app, join_app. cbn. rewrite app_nil_r. intros (Hn & Hd & _)%NoDup_app.
  rewrite reverse_snoc. cbn. unfold run. rewrite foldl_snoc. cbn. constructor; [by apply IH|].
  intros id He Hu. apply list_elem_of_join in Hu as (l & Hi & Hl).
  apply list_elem_of_fmap in Hl as (x & -> & Hx). rewrite elem_of_reverse in Hx. apply (Hd id); [|done].
  apply list_elem_of_join. exists (ids_of x.2). split; [done|]. apply list_elem_of_fmap. by exists x.
Qed.
End requests.

(** ** Stopping, reconnecting, gaps *)

Section life.
Context {S : Type} `{DeviceTokens S}.
Context (sign : string -> string -> string) (raw_key : string -> string) (fingerprint : string -> string).
Context (invalid_request : RequestFrame -> option string) (platform : string) (opts : GatewayClientOptions).
Implicit Types c : GatewayClient S.

Notation step := (step sign raw_key fingerprint invalid_request platform opts).
Notation handle := (handle sign raw_key fingerprint invalid_request platform opts).
Notation run := (run sign raw_key fingerprint invalid_request platform opts).

(** What [stop] leaves, and keeps. *)
Definition stopped (n : nat) c : Prop := closed c = true /\ ws c = None /\ pending c = [] /\ sockets c = n.

Lemma stopped_ext n c c' : closed c' = closed c -> ws c' = ws c -> pending c' = pending c -> sockets c' = sockets c ->
  stopped n c -> stopped n c'.
Proof. intros H1 H2 H3 H4. unfold stopped. by rewrite H1, H2, H3, H4. Qed.

Lemma settle_stopped n id p o c : stopped n c -> stopped n (settle id p o c).
Proof. by destruct p. Qed.

Lemma request_stopped n caller id method params ef c : stopped n c ->
  stopped n (request_as invalid_request caller id method params ef c).
Proof.
  intros Hc. unfold request_as, is_open. destruct Hc as (H1 & H2 & H3 & H4). rewrite H2. cbn [negb].
  by apply settle_stopped.
Qed.

Lemma sendConnect_stopped n now id c : stopped n c -> stopped n (sendConnect sign raw_key invalid_request platform opts now id c).
Proof.
  intros Hc. unfold sendConnect. destruct (connectSent c); [done|]. apply request_stopped. done.
Qed.

Lemma stop_stopped c : stopped (sockets c) (stop c).
Proof.
  unfold stop. set (c1 := close_ws 1005 "" _). assert (Hc1 : closed c1 = true /\ sockets c1 = sockets c)
    by (unfold c1, close_ws; case_match; done).
  unfold flushPendingErrors. generalize (pending (c1 <| ws := None |>)). intros l.
  assert (Hf : forall c, closed c = true -> ws c = None -> let c' := foldl (fun c kv => settle kv.1 (pn_caller kv.2) (rejected "gateway client stopped") c) c l in
    closed c' = true /\ ws c' = None /\ sockets c' = sockets c).
  { induction l as [|[k p] l IH]; intros d Hd Hw; [done|]. cbn [foldl fst snd]. 
    destruct (IH (settle k (pn_caller p) (rejected "gateway client stopped") d)) as (-> & -> & ->); by destruct (pn_caller p). }
  destruct (Hf (c1 <| ws := None |>)) as (Ha & Hb & Hc); [by destruct Hc1|done|].
  destruct Hc1 as [_ Hs]. repeat split; [exact Ha|exact Hb|exact (eq_trans Hc Hs)].
Qed.

Lemma close_ws_stopped n code reason c : stopped n c -> close_ws code reason c = c.
Proof. intros (_ & Hw & _). unfold close_ws. by rewrite Hw. Qed.

Lemma run_job_stopped n now j c : stopped n c -> stopped n (run_job opts now j c).
Proof.
  intros Hc. assert (Hf : forall f r e c, stopped n c -> stopped n (connect_failed opts f r e c)).
  { intros f r e d Hd. unfold connect_failed. set (d1 := match op_deviceIdentity opts with Some _ => _ | None => _ end).
    assert (Hd1 : stopped n d1) by (unfold d1; repeat case_match; done).
    by rewrite (close_ws_stopped n). }
  unfold run_job, connected. destruct (jb_outcome j); [|by apply Hf].
  assert (Hr : stopped n (remember_token opts (jb_role j) payload c)) by (unfold remember_token; repeat case_match; done).
  destruct payload as [[]|]; try done; by apply Hf.
Qed.

Lemma run_jobs_stopped n now c : stopped n c -> stopped n (run_jobs opts now c).
Proof.
  intros Hc. unfold run_jobs. assert (Hj : stopped n (c <| jobs := [] |>)) by done. revert Hj.
  generalize (jobs c), (c <| jobs := [] |>). intros l. induction l as [|j l IH]; intros d Hd; [done|]. cbn [foldl].
  by apply IH, run_job_stopped.
Qed.

Lemma handle_stopped n now e c : stopped n c -> stopped n (handle now e c).
Proof.
  intros Hc. pose proof Hc as (Hcl & Hw & Hp & Hn).
  assert (Hst : forall d, stopped n d -> stopped n (start opts d)) by (intros d (H1 & H2 & H3 & H4); unfold start; by rewrite H1).
  destruct e as [| |socket peer|f id|code reason|e|id| |d|id method params ef]; cbn [GatewayClient.handle].
  - by apply Hst.
  - rewrite <- Hn. apply stop_stopped.
  - unfold on_open. rewrite Hw. case_match; [|done]. by rewrite (close_ws_stopped n).
  - destruct f as [event payload seq|rid ok payload error|]; cbn [handleMessage]; [|by rewrite Hp|done].
    destruct (String.eqb event "connect.challenge").
    + repeat case_match; try done. by apply sendConnect_stopped.
    + unfold track_seq. by repeat case_match.
  - unfold on_close, flushPendingErrors, scheduleReconnect. cbn. rewrite Hp. cbn. rewrite Hcl. done.
  - unfold on_error. by case_match.
  - case_match; [|done]. by apply sendConnect_stopped.
  - case_match; [|done]. unfold on_tick. by rewrite Hcl.
  - case_match; [|done]. by apply Hst.
  - by apply request_stopped.
Qed.

(** A client that was stopped makes no connection and leaves no request waiting, whatever
    happens afterwards and whatever timers were still running. *)
Theorem stopped_for_good es c :
  let c' := run es (stop c) in closed c' = true /\ ws c' = None /\ pending c' = [] /\ sockets c' = sockets c.
Proof.
  change (stopped (sockets c) (run es (stop c))). pose proof (stop_stopped c) as Hc. revert Hc.
  generalize (stop c). induction es as [|[now e] es IH]; intros d Hd; [done|].
  cbn. apply IH. unfold GatewayClient.step. by apply run_jobs_stopped, handle_stopped.
Qed.

(** *** The delays between attempts *)

(** [n] connections in a row that close before the gateway said hello. *)
Fixpoint failures (n : nat) (code : Z) (reason : string) c : GatewayClient S :=
  match n with O => c | Datatypes.S n => on_close code reason (failures n code reason c) end.

Lemma flush_keeps e c : let c' := flushPendingErrors e c in
  backoffMs c' = backoffMs c /\ reconnects c' = reconnects c /\ closed c' = closed c.
Proof.
  unfold flushPendingErrors. cbn. generalize (pending c). intros l. revert c.
  induction l as [|[k p] l IH]; intros c; [done|]. cbn [foldl fst snd].
  destruct (IH (settle k (pn_caller p) (rejected e) c)) as (-> & -> & ->). by destruct (pn_caller p).
Qed.

Lemma on_close_delay code reason c : closed c = false -> let c' := on_close code reason c in
  closed c' = false /\ backoffMs c' = Z.min (backoffMs c * 2) 30000 /\ reconnects c' = reconnects c ++ [backoffMs c].
Proof.
  intros Hc. unfold on_close. set (e := "gateway closed (" +:+ _).
  destruct (flush_keeps e (c <| ws := None |>)) as (Fb & Fr & Fc). cbn zeta. revert Fb Fr Fc.
  generalize (flushPendingErrors e (c <| ws := None |>)). intros d Fb Fr Fc.
  unfold scheduleReconnect. cbn in Fc. rewrite Fc, Hc. cbn in *. rewrite Fc, Fb, Fr. done.
Qed.

(** The delays double from one second to half a minute. *)
Theorem reconnect_delays n code reason c : closed c = false -> backoffMs c = 1000 -> reconnects c = [] ->
  reconnects (failures n code reason c) = (fun k => Z.min (1000 * 2 ^ Z.of_nat k) 30000) <$> seq 0 n.
Proof.
  intros Hc Hb Hr.
  enough (closed (failures n code reason c) = false /\
          backoffMs (failures n code reason c) = Z.min (1000 * 2 ^ Z.of_nat n) 30000 /\
          reconnects (failures n code reason c) = (fun k => Z.min (1000 * 2 ^ Z.of_nat k) 30000) <$> seq 0 n) by tauto.
  induction n as [|n (IHc & IHb & IHr)]; [cbn [failures]; by rewrite Hb, Hr|]. cbn [failures].
  destruct (on_close_delay code reason _ IHc) as (-> & -> & ->). rewrite IHb, IHr, seq_S, fmap_app. split_and!; [done| |done].
  rewrite Nat2Z.inj_succ, Z.pow_succ_r by lia. lia.
Qed.
End life.

(** *** Lost events *)

Section gaps.
Context {S : Type} `{DeviceTokens S}.
Context (sign : string -> string -> string) (raw_key : string -> string).
Context (invalid_request : RequestFrame -> option string) (platform : string) (opts : GatewayClientOptions).
Implicit Types c : GatewayClient S.

(** What was reported lost: from the first number up to before the second. *)
Definition gaps c : list (Z * Z) := omap (fun o => match o with o_gap e r => Some (e, r) | _ => None end) (out c).

Definition receive_event (now : Z) (id : string) c (e : string * option json * Z) : GatewayClient S :=
  handleMessage sign raw_key invalid_request platform opts (event_frame e.1.1 e.1.2 (Some e.2)) now id c.

Definition missed (m : Z) (n : Z) : list (Z * Z) := if m + 1 <? n then [(m + 1, n)] else [].

Lemma receive_event_gaps now id c e m : String.eqb e.1.1 "connect.challenge" = false -> lastSeq c = Some m ->
  gaps (receive_event now id c e) = gaps c ++ missed m e.2 /\ lastSeq (receive_event now id c e) = Some e.2.
Proof.
  intros He Hm. unfold receive_event, missed. cbn [handleMessage]. rewrite He. unfold track_seq. rewrite Hm.
  destruct (m + 1 <? e.2); destruct (String.eqb e.1.1 "tick"); unfold gaps; cbn; rewrite ?omap_app; cbn;
    rewrite ?app_nil_r; split; done.
Qed.

(** When the numbers of the events grow, what is reported is exactly what did not arrive. *)
Theorem gaps_are_the_missing now id es m c :
  lastSeq c = Some m -> Forall (fun e => String.eqb e.1.1 "connect.challenge" = false) es -> StronglySorted Z.lt (m :: es.*2) ->
  exists g, gaps (foldl (receive_event now id) c es) = gaps c ++ g /\ (forall e r, (e, r) ∈ g -> m < e) /\
    forall n, m < n < default m (last es.*2) -> (n ∉ es.*2 <-> exists e r, (e, r) ∈ g /\ e <= n < r).
Proof.
  revert m c. induction es as [|e es IH]; intros m c Hm Hes Hs.
  - exists []. split_and!; [by rewrite app_nil_r|by intros ? ? ?%not_elem_of_nil|]. cbn. lia.
  - apply Forall_cons in Hes as [He Hes]. rewrite fmap_cons in Hs. apply StronglySorted_inv in Hs as [Hs Hm'].
    destruct (receive_event_gaps now id c e m He Hm) as [Hg Hl].
    destruct (IH e.2 _ Hl Hes Hs) as (g & Heq & Hlow & Hiff). exists (missed m e.2 ++ g). cbn [foldl].
    split; [rewrite Heq, Hg; by rewrite <- app_assoc|]. pose proof (Forall_cons_1 _ _ _ Hm') as [Hme _].
    assert (Hmiss : forall a b, (a, b) ∈ missed m e.2 -> a = m + 1 /\ b = e.2 /\ m + 1 < e.2).
    { intros a b. unfold missed. destruct (Z.ltb_spec (m + 1) e.2); [|by intros ?%not_elem_of_nil].
      by intros [= -> ->]%list_elem_of_singleton. }
    split; [intros a b [(-> & _)%Hmiss|Hin%Hlow]%elem_of_app; lia|].
    assert (Hlast : default m (last (e :: es).*2) = default e.2 (last es.*2)) by (rewrite fmap_cons, last_cons; by destruct (last es.*2)).
    intros n Hn. rewrite Hlast in Hn. rewrite fmap_cons. apply StronglySorted_inv in Hs as [_ Hge].
    rewrite Forall_forall in Hge. setoid_rewrite elem_of_app. rewrite not_elem_of_cons.
    destruct (Z.lt_trichotomy n e.2) as [Hlt|[->|Hgt]].
    + split.
      * intros _. exists (m + 1), e.2. split; [left|lia]. unfold missed. rewrite (proj2 (Z.ltb_lt _ _)) by lia. left.
      * intros _. split; [lia|]. intros Hin%Hge. lia.
    + split; [by intros [? _]|]. intros (a & b & [Hin%Hmiss|Hin%Hlow] & Hab); lia.
    + rewrite Hiff by lia. split.
      * intros (_ & a & b & Hin & Hab). exists a, b. split; [by right|done].
      * intros (a & b & [Hin%Hmiss|Hin] & Hab); [lia|]. split; [lia|by exists a, b].
Qed.
End gaps.

(** ** The client and the gateway *)

Section handshake.
Context {S D : Type} `{DeviceTokens S}.
Context (sign : string -> string -> string) (raw_key : string -> string) (platform : string).
Context (derive normalize : string -> option string) (verify : string -> string -> string -> bool).

(** The keys of a device are a pair, whose public half has the id of the device and the
    normal form [key]. *)
Record keys_of (d : DeviceIdentity) (key : string) : Prop := {
  ko_id : derive (raw_key (di_publicKeyPem d)) = Some (di_deviceId d);
  ko_truthy : truthy_str (di_deviceId d) = true;
  ko_key : normalize (raw_key (di_publicKeyPem d)) = Some key;
  ko_key_truthy : truthy_str key = true;
  ko_pair : forall text, verify (raw_key (di_publicKeyPem d)) text (sign (di_privateKeyPem d) text) = true
}.

(** A nonce that [trim] keeps, as a UUID is. *)
Definition plain (nonce : string) : Prop := truthy_str nonce = true /\ js_trim nonce = nonce.

Lemma default_auth_token opts (s : S) : default "" (auth_token opts s) = default "" (authToken opts s).
Proof.
  unfold auth_token. destruct (authToken opts s) as [t|]; [|by destruct (truthy_opt _ || _)].
  destruct (truthy_opt (Some t)) eqn:E; [done|]. destruct (truthy_opt (op_password opts)); [done|].
  by destruct t.
Qed.

Lemma payload_ext p q : payload_version p = payload_version q -> dp_deviceId p = dp_deviceId q -> dp_clientId p = dp_clientId q ->
  dp_clientMode p = dp_clientMode q -> dp_role p = dp_role q -> dp_scopes p = dp_scopes q -> dp_signedAtMs p = dp_signedAtMs q ->
  default "" (dp_token p) = default "" (dp_token q) -> default "" (dp_nonce p) = default "" (dp_nonce q) ->
  buildDeviceAuthPayload p = buildDeviceAuthPayload q.
Proof.
  intros H1 H2 H3 H4 H5 H6 H7 H8 H9. unfold buildDeviceAuthPayload, payload_fields.
  by rewrite H1, H2, H3, H4, H5, H6, H7, H8, H9.
Qed.

Lemma client_signature_ok u opts d key now nonce (s : S) :
  op_deviceIdentity opts = Some d -> keys_of d key -> (forall n, nonce = Some n -> plain n) ->
  let p := connect_of sign raw_key platform opts now nonce s in
  forall dv, pm_device p = Some dv -> signature_ok verify u p (role_of opts) dv = true.
Proof.
  intros Hd [K1 K2 K3 K4 K5] Hn. cbn zeta. unfold connect_of at 1. cbn [pm_device]. unfold device_of at 1. rewrite Hd.
  intros dv [= <-]. set (p := connect_of _ _ _ _ _ _ _).
  unfold signature_ok, signed_payload, providedNonce. subst p. cbn [dv_publicKey dv_signature dv_nonce dv_id dv_signedAt].
  destruct nonce as [n|].
  - destruct (Hn n eq_refl) as (Hn2 & Hn3). change (default "" (js_trim <$> Some n)) with (js_trim n). rewrite Hn3, Hn2.
    erewrite payload_ext; [by rewrite K5|..]; try done; [|cbn; apply default_auth_token].
    unfold payload_version. cbn. by rewrite Hn2.
  - change (truthy_str (default "" (js_trim <$> None))) with false.
    erewrite payload_ext; [by rewrite K5|..]; try done. cbn. apply default_auth_token.
Qed.

(** C24: what the client signs is what the gateway verifies.  Whatever the options and the
    stored token of a client are, if the keys of its device are a pair and its nonce, when
    it has one, is one that [trim] keeps, then the gateway accepts the proof of its device
    exactly if the two clocks differ by at most ten minutes and the nonce is that of the
    gateway's challenge, or there is none and the client is local.  A remote client
    without a nonce, whose request went out on its timer before the challenge arrived, is
    refused for that: see [timer_beats_challenge]. *)
Theorem gateway_accepts_signature u opts d key now now' nonce (s : S) (h : Hs D) :
  op_deviceIdentity opts = Some d -> keys_of d key -> (forall n, nonce = Some n -> plain n) ->
  let p := connect_of sign raw_key platform opts now nonce s in
  exists dv, pm_device p = Some dv /\
    let proof := prove_device derive normalize verify u p now' (role_of opts) dv h in
    (proof = (h, inr key) <->
       Z.abs (now' - now) <= DEVICE_SIGNATURE_SKEW_MS /\
       match nonce with Some n => n = up_connectNonce u | None => isLocalClient u = true end) /\
    (nonce = None -> isLocalClient u = false -> Z.abs (now' - now) <= DEVICE_SIGNATURE_SKEW_MS ->
       proof = (h, inl (failed (device_failure "device-nonce-missing" "device nonce required")))).
Proof.
  intros Hd HK Hn. pose proof (client_signature_ok u opts d key now nonce s Hd HK Hn) as Hsig. cbn zeta in *.
  destruct HK as [K1 K2 K3 K4 _]. set (p := connect_of _ _ _ _ _ _ _) in *.
  assert (Hdv : exists dv, pm_device p = Some dv /\ dv_id dv = di_deviceId d /\
    dv_publicKey dv = raw_key (di_publicKeyPem d) /\ dv_signedAt dv = now /\ dv_nonce dv = nonce).
  { unfold p, connect_of, device_of. rewrite Hd. by eexists. }
  destruct Hdv as (dv & Edv & E1 & E2 & E3 & E4). specialize (Hsig dv Edv). exists dv. split; [done|].
  unfold prove_device. rewrite Hsig, E1, E2, E3, K1, K2, String.eqb_refl, K3, K4.
  cbn [andb ensure ret]. unfold bind, ret. unfold providedNonce, nonceRequired. rewrite E4.
  destruct (Z.leb_spec (Z.abs (now' - now)) DEVICE_SIGNATURE_SKEW_MS) as [Hle|Hgt]; cbn [ensure].
  2: { split; [split; [done|lia]|lia]. }
  destruct nonce as [n|].
  - destruct (Hn n eq_refl) as (Hn2 & Hn3). change (default "" (js_trim <$> Some n)) with (js_trim n).
    rewrite Hn3, Hn2. cbn [negb]. rewrite andb_false_r. cbn. split; [|done].
    destruct (String.eqb_spec n (up_connectNonce u)) as [->|Hne]; cbn; [done|].
    split; [done|by intros [_ ?]].
  - destruct (isLocalClient u); cbn; [done|]. split; [split; [done|by intros [_ ?]]|done].
Qed.
End handshake.

(** ** Concrete clients *)
Module Runs.

#[local] Instance one_token : DeviceTokens (option string) := {|
  loadDeviceAuthToken _ _ s := s; storeDeviceAuthToken _ _ t _ _ := Some t; clearDeviceAuthToken _ _ _ := None
|}.
Definition laptop : DeviceIdentity := mkDeviceIdentity "dev1" "pub" "priv".
Definition options : GatewayClientOptions :=
  mkOptions None (Some "shared") None None None None None None None None None None None None None (Some laptop) None None None.
(** The private key of a public one is marked; a signature is the key with the text. *)
Definition sign (priv text : string) : string := priv +:+ ":" +:+ text.
Definition raw_key (pem : string) : string := pem.
Definition verify (pub text signature : string) : bool := String.eqb signature ("priv:" +:+ text).
Definition run_of (es : list (Z * Event)) : GatewayClient (option string) :=
  run sign raw_key id (fun _ => None) "linux" options es (new_GatewayClient (Some "device-token")).
Definition challenge (nonce : string) : Event := ev_message (event_frame "connect.challenge" (Some (JObj [("nonce", JStr nonce)])) None) "r0".

(** The connection ends before the gateway has answered: the token of the device is
    forgotten, although nobody refused it. *)
Example lost_connection_clears_token :
  tokens (run_of [(0, ev_start); (1, ev_open 0 None); (2, challenge "n")]) = Some "device-token" /\
  tokens (run_of [(0, ev_start); (1, ev_open 0 None); (2, challenge "n"); (3, ev_close 1006 "")]) = None.
Proof. by vm_compute. Qed.

(** The timer of the challenge outlives the connection and the client: it reports a
    failure and forgets the token after [stop]. *)
Example timer_after_stop :
  let c := run_of [(0, ev_start); (1, ev_open 0 None); (2, ev_stop); (750, ev_connect_timer "r0")] in
  closed c = true /\ tokens c = None /\ out c = [o_close 1005 ""; o_connectError "gateway not connected"].
Proof. by vm_compute. Qed.

(** After the first attempt the error of a connection that cannot be made is not
    reported. *)
Example later_errors_are_silent :
  out (run_of [(0, ev_start); (1, ev_error "refused")]) = [o_connectError "refused"] /\
  let es := [(0, ev_start); (1, ev_open 0 None); (2, challenge "n"); (3, ev_close 1006 ""); (1003, ev_reconnect 1000)] in
  out (run_of (es ++ [(1004, ev_error "refused")])) = out (run_of es).
Proof. by vm_compute. Qed.

Definition hello_frame : Frame := response_frame "r0" true (Some (JObj [("policy", JObj [("tickIntervalMs", JNum 15000)])])) None.
Definition a_session : list (Z * Event) :=
  [(0, ev_start); (1, ev_open 0 None); (2, challenge "n"); (3, ev_message hello_frame "r1");
   (4, ev_request "a" "agent" None true); (5, ev_request "b" "health" None false);
   (6, ev_message (response_frame "a" true (Some (JObj [("status", JStr "accepted")])) None) "r2");
   (7, ev_message (response_frame "b" false None (Some "no")) "r3")].

(** One request has ended, the other has only been accepted; the end of the connection
    ends it. *)
Example session_ends :
  settled (run_of a_session) = [("b", rejected "no")] /\ waiting (run_of a_session) = ["a"] /\
  settled (run_of (a_session ++ [(8, ev_close 1012 "restart")])) = [("b", rejected "no"); ("a", rejected "gateway closed (1012): restart")].
Proof. by vm_compute. Qed.

Lemma a_session_runs : session sign raw_key id (fun _ => None) "linux" options ["b"; "a"] ["r3"; "r2"; "b"; "a"; "r1"; "r0"] (run_of a_session).
Proof.
  assert (Ha : mjoin ((fun e : Z * Event => asked_of e.2) <$> reverse a_session) = ["b"; "a"]) by by vm_compute.
  assert (Hu : mjoin ((fun e : Z * Event => ids_of e.2) <$> reverse a_session) = ["r3"; "r2"; "b"; "a"; "r1"; "r0"]) by by vm_compute.
  rewrite <- Ha, <- Hu. unfold run_of. apply session_run. apply (bool_decide_unpack _). by vm_compute.
Qed.

Lemma client_requests_end_once_witness :
  waiting (run_of a_session) = ["a"] /\ Permutation ((settled (run_of a_session)).*1 ++ waiting (run_of a_session)) ["b"; "a"].
Proof.
  split; [by vm_compute|].
  exact (proj1 (client_requests_end_once sign raw_key id (fun _ => None) "linux" options _ _ _ a_session_runs)).
Defined.

Definition upgrade : Upgrade :=
  mkUpgrade "c1" (mkIncomingMessage (Some "203.0.113.7") None []) "n" (mkResolvedGatewayAuth mode_token (Some "shared") None false)
    [] [] false false None None [] [] None.

Lemma gateway_accepts_signature_witness :
  isLocalClient upgrade = false /\
  exists dv, pm_device (connect_of sign raw_key "linux" options 1000 (Some "n") (Some "device-token")) = Some dv /\
    prove_device (D := unit) (fun _ => Some "dev1") Some verify upgrade
      (connect_of sign raw_key "linux" options 1000 (Some "n") (Some "device-token")) 5000 (role_of options) dv (mkHs tt []) = (mkHs tt [], inr "pub").
Proof.
  split; [by vm_compute|].
  destruct (gateway_accepts_signature sign raw_key "linux" (fun _ => Some "dev1") Some verify upgrade options laptop "pub" 1000 5000
    (Some "n") (Some "device-token") (mkHs tt [])) as (dv & Hdv & Hproof & _).
  - reflexivity.
  - split; try reflexivity. intros text. unfold verify, sign. cbn. by rewrite String.eqb_refl.
  - by intros n [= <-].
  - exists dv. split; [exact Hdv|]. apply Hproof. split; [by vm_compute|reflexivity].
Defined.

(** The challenge of a slow gateway arrives after the timer: the request has gone out
    without a nonce, the challenge is not answered any more, and the gateway refuses the
    remote client. *)
Example timer_beats_challenge :
  let c := run_of [(0, ev_start); (1, ev_open 0 None); (751, ev_connect_timer "r0"); (800, challenge "n")] in
  out c = [o_send (mkRequestFrame "r0" "connect" (connect_params (connect_of sign raw_key "linux" options 751 None (Some "device-token"))))] /\
  (dv ← pm_device (connect_of sign raw_key "linux" options 751 None (Some "device-token"));
   Some (prove_device (D := unit) (fun _ => Some "dev1") Some verify upgrade
     (connect_of sign raw_key "linux" options 751 None (Some "device-token")) 760 (role_of options) dv (mkHs tt [])).2) =
  Some (inl (failed (device_failure "device-nonce-missing" "device nonce required"))).
Proof. by vm_compute. Qed.
End Runs.
