(* ===== verification/Telegram.v ===== *)
(** * The channel of Telegram

    openclaw/telegram/: model-buttons.ts, the keyboards that choose a model and the texts
    their buttons send back; network-errors.ts, the errors after which a call is made
    again; draft-stream.ts, the draft of an answer that grows; sent-message-cache.ts;
    bot-updates.ts, the keys that tell updates apart; update-offset-store.ts;
    accounts.ts, token.ts, inline-buttons.ts, reaction-level.ts, network-config.ts and
    draft-chunking.ts, what is read of the configuration.  The calls of the bot are the
    library's; the clock, the files and the environment are inputs. *)

From S2P Require Import Prelude JsMap JsString JsNumber JsRegExp Json GatewayNet GatewayAuth GatewayMethods GatewayHandshake ChannelAccess.
From Stdlib Require Import Ascii DecimalString.

(** ** Keyboards *)
Module Buttons.

(** The data is text; the label is what is sent, in UTF-8. *)
Record Button := mkButton { bt_text : string; bt_data : string }.
Definition ButtonRow : Type := list Button.

Inductive ParsedModelCallback :=
  | cb_providers | cb_back
  | cb_list (provider : string) (page : Z)
  | cb_select (provider model : string).

Record ProviderInfo := mkProviderInfo { pi_id : string; pi_count : Z }.
Record ModelsKeyboardParams := mkKeyboard {
  kb_provider : string; kb_models : list string; kb_currentModel : option string;
  kb_currentPage : Z; kb_totalPages : Z; kb_pageSize : option Z
}.

Definition MODELS_PAGE_SIZE : Z := 8.
Definition MAX_CALLBACK_DATA_BYTES : Z := 64.

Definition is_provider_char (c : ascii) : bool := is_alnum c || Ascii.eqb c "_" || Ascii.eqb c "-".
Definition re_list : regex :=
  re_seqs [re_start; re_ilit "mdl_list_"; re_group 1 (re_plus (re_chr is_provider_char)); re_lit "_";
           re_group 2 (re_plus (re_chr is_digit_char)); re_end].
Definition re_sel : regex := re_seqs [re_start; re_lit "mdl_sel_"; re_group 1 (re_plus (re_chr is_dot)); re_end].

Definition parse_list (trimmed : string) : option ParsedModelCallback :=
  m ← exec re_list trimmed;
  provider ← group 1 m;
  page ← parseInt (default "1" (group 2 m));
  if truthy_str provider && (1 <=? page) then Some (cb_list provider page) else None.

Definition parse_sel (trimmed : string) : option ParsedModelCallback :=
  m ← exec re_sel trimmed;
  modelRef ← group 1 m;
  if negb (truthy_str modelRef) then None else
  i ← js_indexOf "/" modelRef;
  if (0 <? i) && (i <? js_str_length modelRef - 1)
  then Some (cb_select (js_slice_str modelRef 0 i) (js_slice_str_from modelRef (i + 1))) else None.

Definition parseModelCallbackData (data : string) : option ParsedModelCallback :=
  let trimmed := js_trim data in
  if negb (js_startsWith trimmed "mdl_") then None
  else if String.eqb trimmed "mdl_prov" then Some cb_providers
  else if String.eqb trimmed "mdl_back" then Some cb_back
  else match parse_list trimmed with Some r => Some r | None => parse_sel trimmed end.

Definition list_data (provider : string) (page : Z) : string := "mdl_list_" +:+ provider +:+ "_" +:+ js_toString page.
Definition sel_data (provider model : string) : string := "mdl_sel_" +:+ provider +:+ "/" +:+ model.

(** The loop: the rows that are full, and the one that is being filled. *)
Definition add_provider (st : list ButtonRow * ButtonRow) (p : ProviderInfo) : list ButtonRow * ButtonRow :=
  let row := st.2 ++ [mkButton (utf8_text (pi_id p) +:+ " (" +:+ js_toString (pi_count p) +:+ ")") (list_data (pi_id p) 1)] in
  if (length row =? 2)%nat then (st.1 ++ [row], []) else (st.1, row).
Definition buildProviderKeyboard (providers : list ProviderInfo) : list ButtonRow :=
  match providers with
  | [] => []
  | _ => let '(rows, row) := foldl add_provider ([], []) providers in
         match row with [] => rows | _ => rows ++ [row] end
  end.

(** A text after an ellipsis. *)
Definition ellipsis : string := utf8 8230.
Definition truncateModelId (modelId : string) (maxLen : Z) : string :=
  if js_str_length modelId <=? maxLen then utf8_text modelId
  else ellipsis +:+ utf8_text (js_slice_str_from modelId (-(maxLen - 1))).

Definition back_row : ButtonRow := [mkButton "<< Back" "mdl_back"].

Definition pageSize_of (pageSize : option Z) : Z := default MODELS_PAGE_SIZE pageSize.
Definition page_models (models : list string) (currentPage pageSize : Z) : list string :=
  let startIndex := (currentPage - 1) * pageSize in
  js_slice models startIndex (Z.min (startIndex + pageSize) (js_length models)).

Definition currentModelId (currentModel : option string) : option string :=
  match currentModel with
  | Some m => Some (if js_includes m "/" then join_with "/" (drop 1 (js_split "/" m)) else m)
  | None => None
  end.

Definition check_mark : string := " " +:+ utf8 10003.
Definition model_row (provider : string) (current : option string) (model : string) : option ButtonRow :=
  let callbackData := sel_data provider model in
  if MAX_CALLBACK_DATA_BYTES <? js_str_length (utf8_text callbackData) then None else
  let displayText := truncateModelId model 38 in
  Some [mkButton (if bool_decide (current = Some model) then displayText +:+ check_mark else displayText) callbackData].

Definition pagination_row (provider : string) (currentPage totalPages : Z) : ButtonRow :=
  (if 1 <? currentPage then [mkButton (utf8 9664 +:+ " Prev") (list_data provider (currentPage - 1))] else []) ++
  [mkButton (js_toString currentPage +:+ "/" +:+ js_toString totalPages) (list_data provider currentPage)] ++
  (if currentPage <? totalPages then [mkButton ("Next " +:+ utf8 9654) (list_data provider (currentPage + 1))] else []).

Definition buildModelsKeyboard (p : ModelsKeyboardParams) : list ButtonRow :=
  match kb_models p with
  | [] => [back_row]
  | _ =>
      omap (model_row (kb_provider p) (currentModelId (kb_currentModel p)))
           (page_models (kb_models p) (kb_currentPage p) (pageSize_of (kb_pageSize p))) ++
      (if 1 <? kb_totalPages p then [pagination_row (kb_provider p) (kb_currentPage p) (kb_totalPages p)] else []) ++
      [back_row]
  end.

Definition buildBrowseProvidersButton : list ButtonRow := [[mkButton "Browse providers" "mdl_prov"]].
Definition getModelsPageSize : Z := MODELS_PAGE_SIZE.

(** [Math.ceil(totalModels / size)]. *)
Definition calculateTotalPages (totalModels : Z) (pageSize : option Z) : Z :=
  let size := pageSize_of pageSize in if 0 <? size then - (- totalModels / size) else 1.

(** *** Theorems *)

(** The names of providers that the pattern of the list takes. *)
Definition provider_name (s : string) : Prop := of_class is_provider_char s /\ s <> "".

(** A text is divided in one way at its last separator. *)
Lemma last_separator c a b d e : free_of c d = true -> free_of c e = true ->
  a +:+ String c d = b +:+ String c e -> a = b /\ d = e.
Proof.
  intros Hd He. revert b. induction a as [|x a IH]; intros [|y b] E; rewrite ?str_app_nil, ?str_app_cons in E.
  - by injection E.
  - injection E as -> E. subst d. rewrite free_of_app in Hd. cbn in Hd. rewrite Ascii.eqb_refl in Hd. by rewrite andb_false_r in Hd.
  - injection E as -> E. subst e. rewrite free_of_app in He. cbn in He. rewrite Ascii.eqb_refl in He. by rewrite andb_false_r in He.
  - injection E as -> E. by destruct (IH b E) as [-> ->].
Qed.

Lemma uint_digits u : of_class is_digit_char (NilEmpty.string_of_uint u).
Proof. induction u; [done|..]; by apply of_class_cons. Qed.
Lemma page_digits n : 1 <= n -> exists c t, js_toString n = String c t /\ of_class is_digit_char (String c t).
Proof.
  intros Hn. destruct (nonneg_text n) as (u & Hu & E & _); [lia|]. pose proof (uint_digits u) as Hd.
  rewrite E. destruct u; [done|..]; eexists _, _; by split.
Qed.
Lemma free_of_digits c s : is_digit_char c = false -> of_class is_digit_char s -> free_of c s = true.
Proof.
  intros Hc. induction s as [|d s IH]; [done|]. intros [Hd Hs]%of_class_cons. cbn. rewrite IH by done.
  destruct (Ascii.eqb_spec d c) as [->|]; [congruence|done].
Qed.

(** A literal of [n] characters under the flag [i]. *)
Lemma matches_ilit d s s' : matches (re_ilit d) s s' ->
  exists u, ms_rest s = u +:+ ms_rest s' /\ String.length u = String.length d /\ ms_caps s' = ms_caps s.
Proof.
  revert s. induction d as [|c d IH]; intros s Hm; cbn [re_ilit] in Hm.
  - inversion Hm; subst. by exists "".
  - apply matches_seq in Hm as (s1 & (x & t & Hs & _ & ->)%matches_chr & (u & Hu & Hl & Hc)%IH).
    exists (String x u). cbn in Hu. rewrite Hs, Hu. split_and!; [done|cbn; by rewrite Hl|done].
Qed.

(** What the pattern of the list captures. *)
Lemma re_list_groups s m : exec re_list s = Some m -> exists before p d,
  s = before +:+ p +:+ String "_" d /\ String.length before = 9%nat /\ group 1 m = Some p /\ group 2 m = Some d /\
  of_class is_digit_char d.
Proof.
  intros (s' & Hm & Hc & _)%exec_anchored. cbn [foldr re_seqs] in Hm.
  apply matches_seq in Hm as (s1 & (b & H1 & Hb & K1)%matches_ilit & Hm).
  apply matches_seq in Hm as (s2 & (t2 & p & M2 & R2 & E2 & C2)%matches_group & Hm).
  apply matches_seq in Hm as (s3 & [R3 K3]%matches_lit & Hm).
  apply matches_seq in Hm as (s4 & (t4 & d & M4 & R4 & E4 & C4)%matches_group & Hm).
  apply matches_seq in Hm as (s5 & [-> He]%matches_assert & Hm). assert (s' = s4) as -> by by inversion Hm.
  apply matches_plus_chars in M2 as (_ & _ & _ & _ & K2). apply matches_plus_chars in M4 as (v & Hv & _ & Hd & K4).
  assert (Hend : ms_rest s4 = "") by by destruct (ms_rest s4).
  exists b, p, d. unfold group. rewrite <- Hc, C4, K4, K3, C2. cbn [cap_lookup Nat.eqb].
  assert (v = d) as -> by (rewrite R4, <- E4, Hend, !str_app_nil_r in Hv; done).
  split_and!; [|done|done|done|done].
  cbn [ms_rest] in H1. by rewrite H1, R2, R3, R4, Hend, str_app_nil_r.
Qed.
Lemma re_sel_group s m : exec re_sel s = Some m -> exists before u,
  s = before +:+ u /\ String.length before = 8%nat /\ group 1 m = Some u.
Proof.
  intros (s' & Hm & Hc & _)%exec_anchored. cbn [foldr re_seqs] in Hm.
  apply matches_seq in Hm as (s1 & [R1 K1]%matches_lit & Hm).
  apply matches_seq in Hm as (s2 & (t2 & u & M2 & R2 & E2 & C2)%matches_group & Hm).
  apply matches_seq in Hm as (s3 & [-> He]%matches_assert & Hm). assert (s' = s2) as -> by by inversion Hm.
  assert (Hend : ms_rest s2 = "") by by destruct (ms_rest s2).
  exists "mdl_sel_", u. unfold group. rewrite <- Hc, C2. split_and!; [|done|done].
  cbn [ms_rest] in R1. by rewrite R1, R2, Hend, str_app_nil_r.
Qed.

(** *** Texts without spaces *)

Definition ink_text (s : string) : Prop := of_class (fun c => negb (is_space c)) s.

Lemma ink_text_app a b : ink_text a -> ink_text b -> ink_text (a +:+ b).
Proof.
  induction a as [|c a IH]; [done|]. intros [Hc Ha]%of_class_cons Hb. rewrite str_app_cons.
  apply of_class_cons. split; [done|by apply IH].
Qed.
Lemma ink_trimmed s : ink_text s -> js_trim s = s.
Proof.
  unfold js_trim. intros Hs. assert (He : js_trimEnd s = s).
  { induction s as [|c s IH]; [done|]. apply of_class_cons in Hs as [Hc Hs]. apply negb_true_iff in Hc.
    cbn [js_trimEnd blank]. rewrite Hc. cbn [andb]. by rewrite IH. }
  destruct s as [|c s]; [done|]. apply of_class_cons in Hs as [Hc%negb_true_iff _]. cbn [js_trimStart]. by rewrite Hc.
Qed.
Lemma ink_of (p : ascii -> bool) s : (forall c, p c = true -> is_space c = false) -> of_class p s -> ink_text s.
Proof. intros Hp Hs c Hc. by rewrite (Hp c (Hs c Hc)). Qed.

Lemma provider_char_ink c : is_provider_char c = true -> is_space c = false /\ c <> "/"%char.
Proof. destruct c as [[] [] [] [] [] [] [] []]; vm_compute; try done; intros _; split; done. Qed.
Lemma digit_ink c : is_digit_char c = true -> is_space c = false.
Proof. destruct c as [[] [] [] [] [] [] [] []]; by vm_compute. Qed.
Lemma ink_dot c : is_space c = false -> is_dot c = true.
Proof. destruct c as [[] [] [] [] [] [] [] []]; by vm_compute. Qed.

Lemma str_app_inj_length a b c d : String.length a = String.length b -> a +:+ c = b +:+ d -> a = b /\ c = d.
Proof.
  revert b. induction a as [|x a IH]; intros [|y b] Hl E; try done. cbn in Hl. injection Hl as Hl.
  rewrite !str_app_cons in E. injection E as -> E. by destruct (IH b Hl E) as [-> ->].
Qed.

(** *** Round trips *)

Lemma ilit_match d prev v caps : matches (re_ilit d) (mkMstate prev (d +:+ v) caps) (mkMstate (last_char prev d) v caps).
Proof.
  revert prev. induction d as [|c d IH]; intros prev; [constructor|]. rewrite str_app_cons. cbn [re_ilit].
  econstructor; [|apply IH]. apply mt_chr. apply Ascii.eqb_refl.
Qed.

(** The match of the data of a page. *)
Lemma list_matches p n : provider_name p -> 1 <= n -> exists s',
  matches (re_seqs [re_ilit "mdl_list_"; re_group 1 (re_plus (re_chr is_provider_char)); re_lit "_";
                    re_group 2 (re_plus (re_chr is_digit_char)); re_end]) (mkMstate None (list_data p n) []) s'.
Proof.
  intros [Hp Hne] Hn. destruct (page_digits n Hn) as (c & t & Hpg & Hd). destruct p as [|x p]; [done|].
  eexists. unfold list_data. rewrite Hpg. cbn [re_seqs foldr].
  eapply mt_seq; [apply ilit_match|]. eapply mt_seq; [apply mt_group; by apply plus_chars_match|].
  eapply mt_seq; [unfold capture; cbn; by apply mt_chr|].
  eapply mt_seq; [apply mt_group|].
  { rewrite <- (str_app_nil_r (String c t)). by apply plus_chars_match. }
  eapply mt_seq; [|constructor]. by apply mt_assert.
Qed.

(** The button of a page is read as that page. *)
Lemma list_round_trip p n : provider_name p -> 1 <= n -> parseModelCallbackData (list_data p n) = Some (cb_list p n).
Proof.
  intros [Hp Hne] Hn. destruct (page_digits n Hn) as (c & t & Hpg & Hd).
  assert (Hink : ink_text (list_data p n)).
  { unfold list_data. rewrite Hpg. apply ink_text_app; [by apply (ink_of is_provider_char); [intros ? []%provider_char_ink|intros d Hc; revert Hc; clear; destruct d as [[] [] [] [] [] [] [] []]; by vm_compute]|].
    apply ink_text_app; [by apply (ink_of is_provider_char); [intros ? []%provider_char_ink|]|].
    apply (ink_text_app "_"); [intros d Hc; revert Hc; clear; destruct d as [[] [] [] [] [] [] [] []]; by vm_compute|].
    by apply (ink_of is_digit_char); [apply digit_ink|]. }
  unfold parseModelCallbackData. rewrite (ink_trimmed _ Hink). unfold list_data at 1 2 3. 
  change (js_startsWith ("mdl_list_" +:+ p +:+ "_" +:+ js_toString n) "mdl_") with true. cbn [negb].
  change (String.eqb ("mdl_list_" +:+ p +:+ "_" +:+ js_toString n) "mdl_prov") with false.
  change (String.eqb ("mdl_list_" +:+ p +:+ "_" +:+ js_toString n) "mdl_back") with false.
  assert (Hpl : parse_list (list_data p n) = Some (cb_list p n)); [|by rewrite Hpl].
  unfold parse_list. destruct (exec re_list (list_data p n)) as [m|] eqn:E.
  - cbn [mbind option_bind]. destruct (re_list_groups _ _ E) as (b & q & d & Hs & Hb & -> & -> & Hq). cbn [mbind option_bind default from_option].
    unfold list_data in Hs. change ("_" +:+ js_toString n) with (String "_" (js_toString n)) in Hs. rewrite <- !str_app_assoc in Hs.
    apply last_separator in Hs as [Hs <-]; [|rewrite Hpg; by apply free_of_digits|by apply free_of_digits].
    apply str_app_inj_length in Hs as [_ <-]; [|by rewrite Hb]. change (id (js_toString n)) with (js_toString n). rewrite parseInt_toString. cbn [mbind option_bind].
    unfold truthy_str. destruct (String.eqb_spec p ""); [done|]. by rewrite (proj2 (Z.leb_le 1 n)).
  - exfalso. revert E. apply not_eq_None_Some. destruct (list_matches p n) as [s' Hs]; [done|done|]. by eapply exec_anchored_is_Some.
Qed.
Lemma indexOf_app c a b : free_of c a = true -> js_indexOf c (a +:+ String c b) = Some (js_str_length a).
Proof.
  induction a as [|d a IH]; [rewrite str_app_nil; cbn [js_indexOf]; by rewrite Ascii.eqb_refl|]. cbn [free_of]. intros [Hd Ha]%andb_true_iff.
  rewrite str_app_cons. cbn [js_indexOf]. rewrite Ascii.eqb_sym. apply negb_true_iff in Hd. rewrite Hd, IH by done.
  cbn [fmap option_fmap option_map]. f_equal. unfold js_str_length. cbn [String.length]. lia.
Qed.

Lemma slice_front a b : js_slice_str (a +:+ b) 0 (js_str_length a) = a.
Proof.
  unfold js_slice_str, js_clamp. rewrite js_str_length_app. pose proof (js_str_length_pos a). pose proof (js_str_length_pos b).
  rewrite (proj2 (Z.ltb_ge (js_str_length a) 0)) by lia. cbn [Z.ltb Z.compare].
  rewrite !Z.min_l by lia. rewrite Z.sub_0_r. unfold js_str_length. rewrite Nat2Z.id. apply substring_app_l.
Qed.

Lemma no_list_in_sel t : exec re_list ("mdl_sel_" +:+ t) = None.
Proof.
  destruct (exec re_list ("mdl_sel_" +:+ t)) as [m|] eqn:E; [|done]. exfalso.
  apply exec_anchored in E as (s' & Hm & _). cbn [foldr re_seqs] in Hm.
  apply matches_seq in Hm as (s1 & Hm & _).
  do 5 (apply matches_seq in Hm as (? & (? & ? & [= <- <-] & Hb & ->)%matches_chr & Hm); first [discriminate Hb | clear Hb]).
Qed.

(** The button of a model is read as that model. *)
Lemma sel_round_trip p m : ink_text p -> free_of "/" p = true -> p <> "" -> ink_text m -> m <> "" ->
  parseModelCallbackData (sel_data p m) = Some (cb_select p m).
Proof.
  intros Hp Hs Hne Hm Hme.
  assert (Hink : ink_text (sel_data p m)).
  { unfold sel_data. repeat apply ink_text_app; try done; intros d Hc; revert Hc; clear; destruct d as [[] [] [] [] [] [] [] []]; by vm_compute. }
  unfold parseModelCallbackData. rewrite (ink_trimmed _ Hink). unfold sel_data at 1 2 3.
  change (js_startsWith ("mdl_sel_" +:+ p +:+ "/" +:+ m) "mdl_") with true. cbn [negb].
  change (String.eqb ("mdl_sel_" +:+ p +:+ "/" +:+ m) "mdl_prov") with false.
  change (String.eqb ("mdl_sel_" +:+ p +:+ "/" +:+ m) "mdl_back") with false.
  unfold parse_list. unfold sel_data at 1. rewrite no_list_in_sel. cbn [mbind option_bind].
  unfold parse_sel. destruct (exec re_sel (sel_data p m)) as [r|] eqn:E.
  - cbn [mbind option_bind]. destruct (re_sel_group _ _ E) as (b & u & Hu & Hb & ->). cbn [mbind option_bind].
    apply str_app_inj_length in Hu as [_ <-]; [|by rewrite Hb]. change ("/" +:+ m) with (String "/" m).
    assert (truthy_str (p +:+ String "/" m) = true) as -> by by destruct p. cbn [negb].
    rewrite indexOf_app by done. cbn [mbind option_bind]. rewrite js_str_length_app.
    assert (0 < js_str_length p) by (destruct p; [done|unfold js_str_length; cbn; lia]).
    assert (js_str_length (String "/" m) = js_str_length m + 1) as Hl by (unfold js_str_length; cbn; lia).
    assert (0 < js_str_length m) by (destruct m; [done|unfold js_str_length; cbn; lia]).
    rewrite (proj2 (Z.ltb_lt 0 (js_str_length p))) by done. rewrite (proj2 (Z.ltb_lt (js_str_length p) _)) by lia. cbn [andb].
    rewrite slice_front. do 2 f_equal.
    replace (p +:+ String "/" m) with ((p +:+ "/") +:+ m) by by rewrite str_app_assoc.
    replace (js_str_length p + 1) with (js_str_length (p +:+ "/")) by by rewrite js_str_length_app. apply slice_suffix.
  - exfalso. revert E. apply not_eq_None_Some.
    assert (Hd : of_class is_dot (p +:+ "/" +:+ m)).
    { intros c Hc. apply ink_dot. apply negb_true_iff. revert c Hc. repeat apply ink_text_app; try done.
      intros d Hc; revert Hc; clear; destruct d as [[] [] [] [] [] [] [] []]; by vm_compute. }
    destruct p as [|x p]; [done|]. rewrite str_app_cons in Hd. unfold sel_data.
    eapply exec_anchored_is_Some. cbn [re_seqs foldr]. 
    eapply mt_seq; [cbn; repeat (eapply mt_seq; [by apply mt_chr|]); by apply mt_chr|].
    eapply mt_seq; [apply mt_group|].
    { rewrite <- (str_app_nil_r (String x p +:+ "/" +:+ m)). rewrite str_app_cons. by apply plus_chars_match. }
    eapply mt_seq; [|constructor]. by apply mt_assert.
Qed.

Lemma provider_ink p : provider_name p -> ink_text p /\ free_of "/" p = true /\ p <> "".
Proof.
  intros [Hp Hne]. split_and!; [by apply (ink_of is_provider_char); [intros ? []%provider_char_ink|]| |done].
  clear Hne. induction p as [|c p IH]; [done|]. apply of_class_cons in Hp as [Hc Hp]. cbn. rewrite IH by done.
  apply provider_char_ink in Hc as [_ Hc]. by destruct (Ascii.eqb_spec c "/").
Qed.

(** *** The keyboards *)

Definition understood (p : ModelsKeyboardParams) (r : ParsedModelCallback) : Prop :=
  match r with
  | cb_back => True
  | cb_providers => False
  | cb_list provider n => provider = kb_provider p /\ 1 <= n <= kb_totalPages p
  | cb_select provider m =>
      provider = kb_provider p /\ m ∈ page_models (kb_models p) (kb_currentPage p) (pageSize_of (kb_pageSize p))
  end.

(** Every button of the keyboard of a provider is read back as what it stands for: a page
    that exists, a model of the page, or the way back; the data of a model fits. *)
Theorem keyboard_is_understood p row b : provider_name (kb_provider p) ->
  Forall (fun m => ink_text m /\ m <> "") (kb_models p) -> 1 <= kb_currentPage p <= kb_totalPages p ->
  row ∈ buildModelsKeyboard p -> b ∈ row ->
  exists r, parseModelCallbackData (bt_data b) = Some r /\ understood p r /\
    (forall provider m, r = cb_select provider m -> js_str_length (utf8_text (bt_data b)) <= MAX_CALLBACK_DATA_BYTES).
Proof.
  intros Hp Hms Hpg Hrow Hb. destruct (provider_ink _ Hp) as (Hi & Hf & Hne).
  assert (Hback : forall row, row ∈ [back_row] -> b ∈ row -> exists r, parseModelCallbackData (bt_data b) = Some r /\ understood p r /\
    (forall provider m, r = cb_select provider m -> js_str_length (utf8_text (bt_data b)) <= MAX_CALLBACK_DATA_BYTES)).
  { intros r ->%list_elem_of_singleton ->%list_elem_of_singleton. exists cb_back. by split_and!. }
  assert (Hlist : forall n, 1 <= n <= kb_totalPages p -> bt_data b = list_data (kb_provider p) n -> exists r,
    parseModelCallbackData (bt_data b) = Some r /\ understood p r /\
    (forall provider m, r = cb_select provider m -> js_str_length (utf8_text (bt_data b)) <= MAX_CALLBACK_DATA_BYTES)).
  { intros n Hn ->. exists (cb_list (kb_provider p) n). split; [apply list_round_trip; [done|lia]|by split]. }
  unfold buildModelsKeyboard in Hrow. destruct (kb_models p) as [|m0 ms] eqn:Em; [by apply (Hback row)|]. rewrite <- Em in *.
  apply elem_of_app in Hrow as [Hrow|Hrow]; [|apply elem_of_app in Hrow as [Hrow|Hrow]; [|by apply (Hback row)]].
  - apply list_elem_of_omap in Hrow as (m & Hin & Hm). unfold model_row in Hm.
    destruct (Z.ltb_spec MAX_CALLBACK_DATA_BYTES (js_str_length (utf8_text (sel_data (kb_provider p) m)))); [done|].
    injection Hm as <-. apply list_elem_of_singleton in Hb as ->. cbn [bt_data].
    assert (Hmin : m ∈ kb_models p).
    { eapply elem_of_sublist; [exact Hin|]. unfold page_models, js_slice.
      etransitivity; [apply sublist_take|apply sublist_drop]. }
    rewrite Forall_forall in Hms. destruct (Hms _ Hmin) as [Hmi Hmne].
    exists (cb_select (kb_provider p) m). split; [by apply sel_round_trip|]. split; [by split|done].
  - destruct (1 <? kb_totalPages p); [|by apply not_elem_of_nil in Hrow]. apply list_elem_of_singleton in Hrow as ->.
    unfold pagination_row in Hb. apply elem_of_app in Hb as [Hb|Hb]; [|apply elem_of_app in Hb as [Hb|Hb]].
    + destruct (Z.ltb_spec 1 (kb_currentPage p)); [|by apply not_elem_of_nil in Hb]. apply list_elem_of_singleton in Hb as ->.
      apply (Hlist (kb_currentPage p - 1)); [lia|done].
    + apply list_elem_of_singleton in Hb as ->. by apply (Hlist (kb_currentPage p)).
    + destruct (Z.ltb_spec (kb_currentPage p) (kb_totalPages p)); [|by apply not_elem_of_nil in Hb].
      apply list_elem_of_singleton in Hb as ->. apply (Hlist (kb_currentPage p + 1)); [lia|done].
Qed.

(** The pages hold every model once, in order. *)
Theorem pages_cover models pageSize : 0 < pageSize_of pageSize ->
  mjoin ((fun n => page_models models (Z.of_nat n) (pageSize_of pageSize)) <$>
         seq 1 (Z.to_nat (calculateTotalPages (js_length models) pageSize))) = models.
Proof.
  intros Hs. unfold calculateTotalPages. rewrite (proj2 (Z.ltb_lt _ _) Hs). set (size := pageSize_of pageSize) in *.
  assert (Hpage : forall k, page_models models (Z.of_nat (S k)) size = take (Z.to_nat size) (drop (k * Z.to_nat size) models)).
  { intros k. unfold page_models. replace (Z.of_nat (S k) - 1) with (Z.of_nat k) by lia.
    destruct (Z.le_ge_cases (Z.of_nat k * size + size) (js_length models)) as [Hle|Hge].
    - rewrite Z.min_l by done. rewrite js_slice_nonneg by lia. f_equal. f_equal. lia.
    - rewrite Z.min_r by done. unfold js_slice, js_clamp. unfold js_length in *.
      destruct (Z.ltb_spec (Z.of_nat k * size) 0); [lia|]. destruct (Z.ltb_spec (Z.of_nat (length models)) 0); [lia|].
      rewrite (Z.min_l (Z.of_nat (length models))) by lia.
      destruct (Z.le_ge_cases (Z.of_nat k * size) (Z.of_nat (length models))) as [Hk|Hk].
      + rewrite Z.min_l by lia. replace (Z.to_nat (Z.of_nat k * size)) with (k * Z.to_nat size)%nat by lia.
        rewrite !take_ge; [done|rewrite length_drop; lia|rewrite length_drop; lia].
      + rewrite Z.min_r by lia. rewrite !drop_ge by lia. by rewrite !take_nil. }
  assert (Hjoin : forall n, mjoin ((fun n => page_models models (Z.of_nat n) size) <$> seq 1 n) = take (n * Z.to_nat size) models).
  { induction n as [|n IH]; [done|]. rewrite seq_S, fmap_app, join_app, IH. cbn [fmap list_fmap]. cbn. rewrite app_nil_r.
    change (Z.pos (Pos.of_succ_nat n)) with (Z.of_nat (S n)). rewrite Hpage.
    rewrite take_take_drop. f_equal. lia. }
  rewrite Hjoin. apply take_ge.
  assert (Hc : js_length models <= - (- js_length models / size) * size) by (pose proof (Z.mul_div_le (- js_length models) size Hs); lia).
  unfold js_length in *. assert (0 <= - (- Z.of_nat (length models) / size)) by (assert (- Z.of_nat (length models) / size <= 0) by (apply Z.div_le_upper_bound; lia); lia). nia.
Qed.

Lemma keyboard_is_understood_witness :
  let p := mkKeyboard "open-ai" ["gpt-5"; "o3/mini"] (Some "open-ai/gpt-5") 1 2 (Some 2) in
  exists r, parseModelCallbackData "mdl_sel_open-ai/o3/mini" = Some r /\ understood p r.
Proof.
  set (p := mkKeyboard "open-ai" ["gpt-5"; "o3/mini"] (Some "open-ai/gpt-5") 1 2 (Some 2)).
  destruct (keyboard_is_understood p [mkButton "o3/mini" "mdl_sel_open-ai/o3/mini"] (mkButton "o3/mini" "mdl_sel_open-ai/o3/mini"))
    as (r & Hr & Hu & _).
  - split; [|done]. repeat (apply of_class_cons; split; [reflexivity|]). done.
  - repeat (apply Forall_cons; split); try done; (split; [|done]); repeat (apply of_class_cons; split; [reflexivity|]); done.
  - cbn. lia.
  - vm_compute. right. left.
  - left.
  - by exists r.
Defined.

(** A provider whose name has a dot is offered, but its button is not understood. *)
Example dotted_provider_is_dead :
  map (map bt_data) (buildProviderKeyboard [mkProviderInfo "z.ai" 3]) = [["mdl_list_z.ai_1"]] /\
  parseModelCallbackData "mdl_list_z.ai_1" = None.
Proof. by vm_compute. Qed.

(** The limit of the data is not observed for the buttons of providers. *)
Example provider_data_too_long :
  let id := "a-provider-whose-name-takes-more-than-the-bytes-that-are-left" in
  Forall (Forall (fun b => MAX_CALLBACK_DATA_BYTES < js_str_length (bt_data b))) (buildProviderKeyboard [mkProviderInfo id 1]).
Proof. repeat constructor. Qed.
End Buttons.

(** ** Errors of the network *)
Module Errors.

(** A value of an error: an object by its reference, or a primitive one. *)
Inductive val := v_ref (r : nat) | v_str (s : string) | v_num (n : Z) | v_bool (b : bool).
#[export] Instance val_eq_dec : EqDecision val.
Proof. solve_decision. Defined.

Definition truthy_val (v : val) : bool :=
  match v with v_ref _ => true | v_str s => truthy_str s | v_num n => negb (n =? 0) | v_bool b => b end.

(** The members of an object that are looked at; absent, null and undefined are [None],
    and an [errors] that is not an array has no elements. *)
Record ErrObj := mkErrObj {
  eo_name : option val; eo_errno : option val; eo_cause : option val; eo_reason : option val;
  eo_errors : list (option val); eo_error : option val
}.

Definition RECOVERABLE_ERROR_CODES : list string :=
  ["ECONNRESET"; "ECONNREFUSED"; "EPIPE"; "ETIMEDOUT"; "ESOCKETTIMEDOUT"; "ENETUNREACH"; "EHOSTUNREACH"; "ENOTFOUND";
   "EAI_AGAIN"; "UND_ERR_CONNECT_TIMEOUT"; "UND_ERR_HEADERS_TIMEOUT"; "UND_ERR_BODY_TIMEOUT"; "UND_ERR_SOCKET";
   "UND_ERR_ABORTED"; "ECONNABORTED"; "ERR_NETWORK"].
Definition RECOVERABLE_ERROR_NAMES : list string :=
  ["AbortError"; "TimeoutError"; "ConnectTimeoutError"; "HeadersTimeoutError"; "BodyTimeoutError"].
Definition RECOVERABLE_MESSAGE_SNIPPETS : list string :=
  ["fetch failed"; "typeerror: fetch failed"; "undici"; "network error"; "network request";
   "client network socket disconnected"; "socket hang up"; "getaddrinfo"; "timeout"; "timed out"].

Inductive ErrorContext := ctx_polling | ctx_send | ctx_webhook | ctx_unknown.
#[export] Instance ErrorContext_eq_dec : EqDecision ErrorContext.
Proof. solve_decision. Defined.

Section errors.
(** The objects; [String] of an object, and the two readers of infra/errors.js. *)
Context (heap : list ErrObj) (object_string : nat -> string).
Context (extractErrorCode : val -> option string) (formatErrorMessage : val -> string).

Definition String_of (v : val) : string :=
  match v with v_ref r => object_string r | v_str s => s | v_num n => js_toString n | v_bool b => if b then "true" else "false" end.

Definition normalizeCode (code : option string) : string := default "" ((fun c => js_toUpperCase (js_trim c)) <$> code).

Definition obj (v : val) : option ErrObj := match v with v_ref r => heap !! r | _ => None end.
Definition getErrorName (err : val) : string :=
  match obj err with Some o => default "" (String_of <$> eo_name o) | None => "" end.

Definition getErrorCode (err : val) : option string :=
  match extractErrorCode err with
  | Some direct => if truthy_str direct then Some direct else
      match obj err with
      | Some o => match eo_errno o with Some (v_str s) => Some s | Some (v_num n) => Some (js_toString n) | _ => None end
      | None => None
      end
  | None =>
      match obj err with
      | Some o => match eo_errno o with Some (v_str s) => Some s | Some (v_num n) => Some (js_toString n) | _ => None end
      | None => None
      end
  end.

(** What an object refers to, in the order it is pushed. *)
Definition members (v : val) : list val :=
  match obj v with
  | Some o => keep truthy_val (omap id ([eo_cause o; eo_reason o] ++ eo_errors o ++
                                        (if String.eqb (getErrorName v) "HttpError" then [eo_error o] else [])))
  | None => []
  end.

Definition unseen (seen : list val) (v : val) : bool := negb (bool_decide (v ∈ seen)).

(** One turn of the loop: the queue and the candidates, which are also what was seen.
    Pushing does not change what was seen. *)
Definition turn (queue seen : list val) : list val * list val :=
  match queue with
  | [] => ([], seen)
  | current :: queue =>
      if bool_decide (current ∈ seen) then (queue, seen)
      else let seen := seen ++ [current] in (queue ++ keep (unseen seen) (members current), seen)
  end.
Fixpoint collect (fuel : nat) (queue seen : list val) : list val :=
  match fuel with
  | O => seen
  | S fuel => match queue with [] => seen | _ => let '(queue, seen) := turn queue seen in collect fuel queue seen end
  end.

(** The references of all objects bound the pushes. *)
Definition edges (r : nat) : nat := length (members (v_ref r)).
Definition enough : nat := S (sum_list (edges <$> seq 0 (length heap))).
Definition collectErrorCandidates (err : val) : list val := collect enough [err] [].

Definition candidate_recoverable (allowMessageMatch : bool) (c : val) : bool :=
  let code := normalizeCode (getErrorCode c) in
  (truthy_str code && has RECOVERABLE_ERROR_CODES code) ||
  (let name := getErrorName c in truthy_str name && has RECOVERABLE_ERROR_NAMES name) ||
  (allowMessageMatch &&
   let message := js_toLowerCase (formatErrorMessage c) in
   truthy_str message && existsb (js_includes message) RECOVERABLE_MESSAGE_SNIPPETS).

Definition isRecoverableTelegramNetworkError (err : option val) (context : option ErrorContext) (allowMessageMatch : option bool) : bool :=
  match err with
  | None => false
  | Some err =>
      if negb (truthy_val err) then false else
      let allow := default (negb (bool_decide (context = Some ctx_send))) allowMessageMatch in
      existsb (candidate_recoverable allow) (collectErrorCandidates err)
  end.

(** *** The loop ends with everything that can be reached *)

(** What is reached from a value over the members. *)
Inductive reaches (v : val) : val -> Prop :=
  | reaches_here : reaches v v
  | reaches_member w x : reaches v w -> x ∈ members w -> reaches v x.

(** What is left to push. *)
Definition left_over (seen : list val) : nat :=
  sum_list ((fun r => if bool_decide (v_ref r ∈ seen) then 0%nat else edges r) <$> seq 0 (length heap)).

Lemma sum_list_if l (f g : nat -> nat) r : NoDup l -> r ∈ l -> (forall i, i <> r -> f i = g i) -> g r = 0%nat ->
  sum_list (f <$> l) = (f r + sum_list (g <$> l))%nat.
Proof.
  intros Hn Hr Hf Hg. induction l as [|i l IH]; [by apply not_elem_of_nil in Hr|]. apply NoDup_cons in Hn as [Hi Hn]. cbn.
  destruct (decide (i = r)) as [->|Hne].
  - rewrite Hg. cbn. f_equal. f_equal. apply list_fmap_ext. intros k x Hx. apply Hf. intros ->. apply Hi. by eapply list_elem_of_lookup_2.
  - apply elem_of_cons in Hr as [->|Hr]; [done|]. rewrite (IH Hn Hr), (Hf i) by done. lia.
Qed.

Lemma members_of_ref v : members v <> [] -> exists r, v = v_ref r /\ (r < length heap)%nat.
Proof. unfold members, obj. destruct v; try done. destruct (heap !! r) eqn:E; [|done]. intros _. exists r. split; [done|by eapply lookup_lt_Some]. Qed.

Lemma left_over_push v seen : v ∉ seen -> (length (members v) + left_over (seen ++ [v]) <= left_over seen)%nat.
Proof.
  intros Hv. assert (Hle : (left_over (seen ++ [v]) <= left_over seen)%nat).
  { unfold left_over. induction (seq 0 (length heap)) as [|i l IH]; [done|]. cbn.
    destruct (bool_decide_reflect (v_ref i ∈ seen)) as [Hi|Hi]; [rewrite bool_decide_eq_true_2; [lia|by apply elem_of_app; left]|].
    case_bool_decide; lia. }
  destruct (members v) as [|x l] eqn:Em; [cbn; lia|]. destruct (members_of_ref v) as (r & -> & Hr); [by rewrite Em|].
  unfold left_over at 2. rewrite (sum_list_if _ _ (fun i => if bool_decide (v_ref i ∈ seen ++ [v_ref r]) then 0%nat else edges i) r).
  - rewrite bool_decide_eq_false_2 by done. unfold edges at 1. rewrite Em. unfold left_over. lia.
  - apply NoDup_ListNoDup, seq_NoDup.
  - apply elem_of_seq. lia.
  - intros i Hi. assert (Heq : v_ref i ∈ seen ++ [v_ref r] <-> v_ref i ∈ seen).
    { rewrite elem_of_app, list_elem_of_singleton. split; [intros [?|[= ->]]; done|by left]. }
    by rewrite (bool_decide_ext _ _ Heq).
  - rewrite bool_decide_eq_true_2; [done|]. apply elem_of_app. right. by apply list_elem_of_singleton.
Qed.

Record loop_inv (err : val) (queue seen : list val) : Prop := {
  li_reach : forall v, v ∈ queue \/ v ∈ seen -> reaches err v;
  li_closed : forall v w, v ∈ seen -> w ∈ members v -> w ∈ seen \/ w ∈ queue;
  li_start : err ∈ queue \/ err ∈ seen;
  li_nodup : NoDup seen
}.

Lemma turn_inv err queue seen : loop_inv err queue seen -> let '(q, s) := turn queue seen in loop_inv err q s.
Proof.
  intros [H1 H2 H3 H4]. unfold turn. destruct queue as [|c queue]; [by constructor|].
  case_bool_decide as Hc.
  - constructor; [intros v [?|?]; apply H1; [left; by right|by right]| |destruct H3 as [[->|?]%elem_of_cons|?]; auto|done].
    intros v w Hv Hw. destruct (H2 v w Hv Hw) as [?|[->|?]%elem_of_cons]; auto.
  - assert (Hk : forall w, w ∈ keep (unseen (seen ++ [c])) (members c) <-> w ∉ seen ++ [c] /\ w ∈ members c).
    { intros w. unfold keep. rewrite list_elem_of_filter. unfold unseen. by rewrite negb_true_iff, bool_decide_eq_false. }
    assert (Hc' : reaches err c) by (apply H1; left; left).
    constructor.
    + intros v. rewrite !elem_of_app, Hk, list_elem_of_singleton. intros [[?|[_ ?]]|[?| ->]]; [apply H1; left; by right|by eapply reaches_member|apply H1; by right|done].
    + intros v w Hv Hw. rewrite !elem_of_app, Hk, list_elem_of_singleton.
      apply elem_of_app in Hv as [Hv| ->%list_elem_of_singleton].
      * destruct (H2 v w Hv Hw) as [?|[->|?]%elem_of_cons]; auto.
      * destruct (decide (w ∈ seen ++ [c])) as [Hs|Hs]; [apply elem_of_app in Hs as [?| ->%list_elem_of_singleton]|]; auto.
    + rewrite !elem_of_app, list_elem_of_singleton. destruct H3 as [[->|?]%elem_of_cons|?]; auto.
    + apply NoDup_app. split_and!; [done|by intros x Hx ->%list_elem_of_singleton|apply NoDup_singleton].
Qed.

Lemma turn_decreases c queue seen : let '(q, s) := turn (c :: queue) seen in
  (length q + left_over s < length (c :: queue) + left_over seen)%nat.
Proof.
  unfold turn. case_bool_decide as Hc; [cbn; lia|]. pose proof (left_over_push c seen Hc) as Hl.
  assert (length (keep (unseen (seen ++ [c])) (members c)) <= length (members c))%nat by apply length_filter.
  rewrite length_app. cbn. lia.
Qed.

Lemma collect_spec err fuel more : forall queue seen, loop_inv err queue seen -> (length queue + left_over seen <= fuel)%nat ->
  loop_inv err [] (collect fuel queue seen) /\ collect (fuel + more) queue seen = collect fuel queue seen.
Proof.
  induction fuel as [|fuel IH]; intros queue seen Hi Hf.
  - destruct queue; [|cbn in Hf; lia]. split; [done|]. by destruct more.
  - cbn [collect Nat.add]. destruct queue as [|c queue]; [done|]. pose proof (turn_inv err (c :: queue) seen Hi) as Ht.
    pose proof (turn_decreases c queue seen) as Hd. destruct (turn (c :: queue) seen) as [q s]. apply IH; [done|lia].
Qed.

(** The loop ends, also for errors that refer to each other in a circle, and its
    candidates are the values that can be reached, each once. *)
Lemma candidates_spec err more :
  collect (enough + more) [err] [] = collectErrorCandidates err /\
  NoDup (collectErrorCandidates err) /\ (forall v, v ∈ collectErrorCandidates err <-> reaches err v).
Proof.
  unfold collectErrorCandidates. destruct (collect_spec err enough more [err] []) as [[H1 H2 H3 H4] Hm].
  - constructor; [|by intros ? ? ?%not_elem_of_nil|left; left|constructor].
    intros v [->%list_elem_of_singleton|Hv%not_elem_of_nil]; [constructor|done].
  - unfold enough, left_over. cbn [length]. apply le_n_S. apply Nat.eq_le_incl. f_equal.
  - split_and!; [done|done|]. intros v. split; [intros Hv; apply H1; by right|].
    induction 1 as [|w x _ IH Hx]; [by destruct H3 as [?%not_elem_of_nil|?]|].
    by destruct (H2 w x IH Hx) as [?|?%not_elem_of_nil].
Qed.

(** A call is made again exactly when something that can be reached from the error says so,
    however long the loop is run. *)
Theorem recoverable_when_reached err context allow :
  isRecoverableTelegramNetworkError (Some err) context allow = true <->
  truthy_val err = true /\
  exists v, reaches err v /\ candidate_recoverable (default (negb (bool_decide (context = Some ctx_send))) allow) v = true.
Proof.
  unfold isRecoverableTelegramNetworkError. destruct (truthy_val err); cbn [negb]; [|split; [done|by intros [? _]]].
  rewrite existsb_exists. destruct (candidates_spec err 0) as (_ & _ & Hc). split.
  - intros (v & Hv & Ht). split; [done|]. exists v. split; [|done]. by apply Hc, list_elem_of_In.
  - intros (_ & v & Hv & Ht). exists v. split; [|done]. by apply list_elem_of_In, Hc.
Qed.
End errors.

(** Two errors that are each other's cause; the second has the code. *)
Definition circle : list ErrObj :=
  [mkErrObj (Some (v_str "HttpError")) None (Some (v_ref 1)) None [] None;
   mkErrObj None (Some (v_str "econnreset")) (Some (v_ref 0)) None [Some (v_ref 1); None] None].
Example circle_ends :
  collectErrorCandidates circle (fun _ => "") (v_ref 0) = [v_ref 0; v_ref 1] /\
  isRecoverableTelegramNetworkError circle (fun _ => "") (fun _ => None) (fun _ => "") (Some (v_ref 0)) (Some ctx_send) None = true.
Proof. by vm_compute. Qed.
End Errors.

(** ** The draft of an answer *)
Module Draft.

Definition TELEGRAM_DRAFT_MAX_CHARS : Z := 4096.
Definition DEFAULT_THROTTLE_MS : Z := 300.

Record Params := mkParams { pr_maxChars : option Z; pr_draftId : Z; pr_throttleMs : option Z }.

(** What [sendDraft] left to wait for: nothing, or the call of the bot. *)
Inductive Flight := returned_at_once | calling.
(** The variables of the stream; [sent] are the texts given to the bot, the latest last. *)
Record DraftStream := mkDraftStream {
  lastSentText : string; lastSentAt : Z; pendingText : string; inFlight : option Flight;
  timer : option Z; stopped : bool; sent : list string
}.
#[export] Instance DraftStream_eta : EtaRecord DraftStream := fun s =>
  mkDraftStream (lastSentText s) (lastSentAt s) (pendingText s) (inFlight s) (timer s) (stopped s) (sent s).

Section stream.
Context (params : Params).
Implicit Types s : DraftStream.

Definition maxChars : Z := Z.min (default TELEGRAM_DRAFT_MAX_CHARS (pr_maxChars params)) TELEGRAM_DRAFT_MAX_CHARS.
Definition throttleMs : Z := Z.max 50 (default DEFAULT_THROTTLE_MS (pr_throttleMs params)).
Definition draftId : Z := if pr_draftId params =? 0 then 1 else Z.abs (pr_draftId params).

Definition createTelegramDraftStream : DraftStream := mkDraftStream "" 0 "" None None false [].

Definition in_flight s : bool := match inFlight s with Some _ => true | None => false end.

(** [sendDraft], up to the call of the bot or to its return. *)
Definition sendDraft (now : Z) (text : string) s : DraftStream :=
  let done := s <| inFlight := Some returned_at_once |> in
  if stopped s then done else
  let trimmed := js_trimEnd text in
  if negb (truthy_str trimmed) then done
  else if maxChars <? js_str_length trimmed then done <| stopped := true |>
  else if String.eqb trimmed (lastSentText s) then done
  else s <| lastSentText := trimmed |> <| lastSentAt := now |> <| inFlight := Some calling |> <| sent ::= fun l => l ++ [trimmed] |>.

Definition schedule (now : Z) s : DraftStream :=
  match timer s with
  | Some _ => s
  | None => s <| timer := Some (Z.max 0 (throttleMs - (now - lastSentAt s))) |>
  end.

(** [flush] up to its wait. *)
Definition flush (now : Z) s : DraftStream :=
  let s := s <| timer := None |> in
  if in_flight s then schedule now s else
  let text := pendingText s in
  if negb (truthy_str (js_trim text)) then s <| pendingText := "" |>
  else sendDraft now text (s <| pendingText := "" |>).

(** The wait is over; a call that failed stops the stream. *)
Definition settle (now : Z) (ok : bool) s : DraftStream :=
  match inFlight s with
  | None => s
  | Some f =>
      let s := match f with calling => if ok then s else s <| stopped := true |> | returned_at_once => s end in
      let s := s <| inFlight := None |> in
      if truthy_str (pendingText s) then schedule now s else s
  end.

Definition update (now : Z) (text : string) s : DraftStream :=
  if stopped s then s else
  let s := s <| pendingText := text |> in
  if in_flight s then schedule now s
  else if (match timer s with None => true | Some _ => false end) && (throttleMs <=? now - lastSentAt s) then flush now s
  else schedule now s.

Definition stop s : DraftStream := s <| stopped := true |> <| pendingText := "" |> <| timer := None |>.

Inductive Step := st_update (text : string) | st_flush | st_timer | st_settle (ok : bool) | st_stop.
Definition step s (e : Z * Step) : DraftStream :=
  match e.2 with
  | st_update text => update e.1 text s
  | st_flush => flush e.1 s
  | st_timer => match timer s with Some _ => flush e.1 s | None => s end
  | st_settle ok => settle e.1 ok s
  | st_stop => stop s
  end.
Definition run (es : list (Z * Step)) : DraftStream := foldl step createTelegramDraftStream es.

(** The text of the last update. *)
Definition last_update (es : list (Z * Step)) : option string :=
  last (omap (fun e => match e.2 with st_update t => Some t | _ => None end) es).

(** *** The last text arrives *)

Definition fits (t : string) : Prop := t <> "" /\ js_str_length t <= maxChars.
(** The text [t] waits, or was given to the bot, or has nothing to give. *)
Definition cared_for (t : string) s : Prop := pendingText s = t \/ js_trim t = "" \/ lastSentText s = js_trimEnd t.

Record stream_ok (t : option string) s : Prop := {
  so_pending : pendingText s = "" \/ t = Some (pendingText s);
  so_last : lastSentText s = default "" (last (sent s));
  so_fits : Forall fits (sent s);
  so_text : forall u, t = Some u -> stopped s = false -> cared_for u s;
  so_differ : forall i a b, sent s !! i = Some a -> sent s !! Datatypes.S i = Some b -> a <> b
}.
(** Somebody will come for the text that waits. *)
Definition waits s : Prop := stopped s = false -> pendingText s <> "" -> in_flight s = true \/ timer s <> None.

(** Changes that keep what the invariant reads. *)
Lemma stream_ok_ext t s s' : stream_ok t s -> pendingText s' = pendingText s -> lastSentText s' = lastSentText s -> sent s' = sent s ->
  (stopped s' = false -> stopped s = false) -> stream_ok t s'.
Proof.
  intros [H2 H3 H4 H5 H6] Hp Hl Hs Hst. constructor; rewrite ?Hs, ?Hl, ?Hp; try done.
  intros u Hu Hstop. unfold cared_for. rewrite Hp, Hl. apply H5; [done|by apply Hst].
Qed.

Lemma schedule_ok t now s : stream_ok t s -> stream_ok t (schedule now s) /\ waits (schedule now s).
Proof.
  intros Hok. split; [apply (stream_ok_ext t s); [done|..]|]; unfold schedule; try (by destruct (timer s)).
  intros _ _. right. destruct (timer s) eqn:E; [by rewrite E|done].
Qed.

Lemma differ_snoc (l : list string) x : default "" (last l) <> x ->
  (forall i a b, l !! i = Some a -> l !! Datatypes.S i = Some b -> a <> b) ->
  forall i a b, (l ++ [x]) !! i = Some a -> (l ++ [x]) !! Datatypes.S i = Some b -> a <> b.
Proof.
  intros Hx Hl i a b Ha Hb. assert (Hi : (Datatypes.S i < length (l ++ [x]))%nat) by by eapply lookup_lt_Some.
  rewrite length_app in Hi. cbn in Hi. rewrite lookup_app_l in Ha by lia.
  destruct (decide (Datatypes.S i < length l)%nat) as [Hlt|Hge].
  - rewrite lookup_app_l in Hb by done. by eapply Hl.
  - rewrite lookup_app_r in Hb by lia. replace (Datatypes.S i - length l)%nat with 0%nat in Hb by lia. injection Hb as <-.
    intros ->. apply Hx. rewrite last_lookup. replace (pred (length l)) with i by lia. by rewrite Ha.
Qed.

Lemma blank_trimStart t : blank t = true -> js_trimStart t = "".
Proof. induction t as [|c t IH]; [done|]. cbn. intros [Hc Ht]%andb_true_iff. rewrite Hc. by apply IH. Qed.
Lemma trimEnd_nothing t : js_trimEnd t = "" -> js_trim t = "".
Proof.
  intros Ht. unfold js_trim. destruct (blank t) eqn:Eb; [by rewrite blank_trimStart|].
  destruct t as [|c x]; [done|]. cbn [js_trimEnd] in Ht. by rewrite Eb in Ht.
Qed.

(** A text that is not waiting any more. *)
Lemma taken_ok t s s' : stream_ok t s -> pendingText s' = "" -> lastSentText s' = lastSentText s -> sent s' = sent s ->
  (stopped s' = false -> stopped s = false) -> js_trim (pendingText s) = "" \/ js_trimEnd (pendingText s) = lastSentText s \/ stopped s' = true ->
  stream_ok t s'.
Proof.
  intros [H2 H3 H4 H5 H6] Hp Hl Hs Hst Hw. constructor; rewrite ?Hs, ?Hl, ?Hp; try done; [by left|].
  intros u Hu Hstop. unfold cared_for. rewrite Hp, Hl. destruct (H5 u Hu (Hst Hstop)) as [E|?]; [|by right].
  right. destruct Hw as [Hw|[Hw|Hw]]; [left; by rewrite <- E|right; by rewrite <- Hw, E|congruence].
Qed.

Lemma waits_nothing s : pendingText s = "" -> waits s.
Proof. by intros Hp _ ?. Qed.

Lemma draft_flush_ok t now s : stream_ok t s -> stream_ok t (flush now s) /\ waits (flush now s).
Proof.
  intros Hok. unfold flush. change (in_flight (s <| timer := None |>)) with (in_flight s). destruct (in_flight s) eqn:Ef.
  { apply schedule_ok. by apply (stream_ok_ext t s). }
  change (pendingText (s <| timer := None |>)) with (pendingText s).
  destruct (truthy_str (js_trim (pendingText s))) eqn:Et; cbn [negb].
  2: { apply truthy_str_false in Et. split; [|by apply waits_nothing]. apply (taken_ok t s); try done. by left. }
  unfold sendDraft. cbn [stopped lastSentText field_update].
  change (stopped (s <| timer := None |> <| pendingText := "" |>)) with (stopped s).
  change (lastSentText (s <| timer := None |> <| pendingText := "" |>)) with (lastSentText s).
  destruct (stopped s) eqn:Es; [split; [|by apply waits_nothing]; apply (taken_ok t s); try done; cbn; rewrite Es; auto|].
  destruct (truthy_str (js_trimEnd (pendingText s))) eqn:Ee; cbn [negb].
  2: { apply truthy_str_false, trimEnd_nothing in Ee. split; [|by apply waits_nothing]. apply (taken_ok t s); auto. }
  destruct (Z.ltb_spec maxChars (js_str_length (js_trimEnd (pendingText s)))) as [Hlen|Hlen].
  { split; [|by apply waits_nothing]. apply (taken_ok t s); cbn; auto. }
  destruct (String.eqb_spec (js_trimEnd (pendingText s)) (lastSentText s)) as [He|He].
  { split; [|by apply waits_nothing]. apply (taken_ok t s); auto. }
  destruct Hok as [H2 H3 H4 H5 H6]. apply truthy_str_true in Ee. split; [|by apply waits_nothing]. constructor; cbn.
  - by left.
  - by rewrite last_snoc.
  - apply Forall_app. split; [done|]. by constructor.
  - intros u Hu _. unfold cared_for. cbn. destruct H2 as [H2|H2]; [by rewrite H2 in Ee|].
    rewrite Hu in H2. injection H2 as ->. auto.
  - apply differ_snoc; [|done]. rewrite <- H3. by intros E.
Qed.

Lemma settle_ok t now ok s : stream_ok t s -> waits s -> stream_ok t (settle now ok s) /\ waits (settle now ok s).
Proof.
  intros Hok Hw. unfold settle. destruct (inFlight s) as [f|]; [|done].
  set (s1 := match f with calling => _ | returned_at_once => _ end).
  assert (Hs1 : stream_ok t (s1 <| inFlight := None |>)) by (apply (stream_ok_ext t s); [done|..]; unfold s1; by destruct f, ok).
  destruct (truthy_str (pendingText (s1 <| inFlight := None |>))) eqn:E; [by apply schedule_ok|].
  apply truthy_str_false in E. split; [done|by apply waits_nothing].
Qed.

Lemma update_ok t now u s : stream_ok t s -> waits s -> stopped s = false ->
  stream_ok (Some u) (update now u s) /\ waits (update now u s).
Proof.
  intros [H2 H3 H4 H5 H6] Hw Hs. unfold update. rewrite Hs.
  assert (Hu : stream_ok (Some u) (s <| pendingText := u |>)).
  { constructor; try done; [by right|]. intros v [= ->] _. by left. }
  destruct (in_flight _); [by apply schedule_ok|]. destruct (_ && _); [by apply draft_flush_ok|by apply schedule_ok].
Qed.

Lemma stopped_stays s e : stopped s = true -> stopped (step s e) = true.
Proof.
  intros Hs. destruct e as [now [u| | |ok|]]; cbn [step fst snd]; [unfold update; by rewrite Hs|..|done].
  all: assert (Hf : stopped (flush now s) = true) by (unfold flush, schedule, sendDraft; repeat case_match; cbn in *; congruence).
  - done.
  - by destruct (timer s).
  - unfold settle, schedule. repeat case_match; cbn; congruence.
Qed.

Lemma last_update_snoc es e : last_update (es ++ [e]) = match e.2 with st_update u => Some u | _ => last_update es end.
Proof.
  unfold last_update. rewrite omap_app. cbn. destruct (e.2); rewrite ?app_nil_r; try done. by rewrite last_snoc.
Qed.

Lemma run_ok es : waits (run es) /\
  Forall fits (sent (run es)) /\ (forall i a b, sent (run es) !! i = Some a -> sent (run es) !! Datatypes.S i = Some b -> a <> b) /\
  (stopped (run es) = false -> stream_ok (last_update es) (run es)) /\ (exists t, stream_ok t (run es)).
Proof.
  induction es as [|e es (Hw & _ & _ & Hok & t & Hany)] using rev_ind.
  - assert (H : stream_ok None (run [])).
    { split; [by left|done|by apply Forall_nil|done|]. intros i a b Ha. by apply lookup_lt_Some, Nat.nlt_0_r in Ha. }
    split; [by intros ? ?|]. split; [apply H|]. split; [apply H|]. split; [done|by eexists].
  - unfold run in *. rewrite foldl_snoc. set (s := foldl step createTelegramDraftStream es) in *.
    assert (Hnew : forall t, stream_ok t s -> exists t', stream_ok t' (step s e) /\ waits (step s e) /\
                     (stopped (step s e) = false -> t' = match e.2 with st_update u => Some u | _ => t end)).
    { clear t Hany. intros t Ht. destruct e as [now [u| | |ok|]]; cbn [step fst snd].
      - destruct (stopped s) eqn:Es.
        + assert (update now u s = s) as -> by (unfold update; by rewrite Es). exists t. rewrite Es. by split_and!.
        + destruct (update_ok t now u s Ht Hw Es) as [H1 H2]. by exists (Some u).
      - destruct (draft_flush_ok t now s Ht) as [H1 H2]. by exists t.
      - destruct (timer s); [destruct (draft_flush_ok t now s Ht) as [H1 H2]|]; by exists t.
      - destruct (settle_ok t now ok s Ht Hw) as [H1 H2]. by exists t.
      - exists t. unfold stop. split_and!; [|by apply waits_nothing|done]. destruct Ht as [H2 H3 H4 H5 H6].
        constructor; try done. by left. }
    destruct (Hnew t Hany) as (t' & Ht' & Hw' & _). split_and!; [done|apply Ht'|apply Ht'| |by exists t'].
    intros Hs. assert (Hs0 : stopped s = false) by (destruct (stopped s) eqn:E; [by rewrite (stopped_stays _ e E) in Hs|done]).
    destruct (Hnew _ (Hok Hs0)) as (t2 & Ht2 & _ & Heq). rewrite last_update_snoc, <- Heq; done.
Qed.

(** C27: when nothing is under way and the stream was not stopped, the last text that was not
    blank is the one the bot was last given, without the spaces at its end; every text it was given
    fits and differs from the one before. *)
Theorem last_draft_arrives es : let s := run es in
  Forall fits (sent s) /\
  (forall i a b, sent s !! i = Some a -> sent s !! Datatypes.S i = Some b -> a <> b) /\
  (stopped s = false -> in_flight s = false -> timer s = None ->
   forall t, last_update es = Some t -> js_trim t <> "" -> last (sent s) = Some (js_trimEnd t)).
Proof.
  intros s. destruct (run_ok es) as (Hw & Hf & Hd & Hok & _). fold s in Hw, Hf, Hd, Hok. split_and!; [done|done|].
  intros Hs Hi Ht t Hl Hne. destruct (Hok Hs) as [H2 H3 H4 H5 H6].
  assert (Hp : pendingText s = "").
  { destruct (decide (pendingText s = "")) as [?|Hp]; [done|]. destruct (Hw Hs Hp) as [?|?]; congruence. }
  destruct (H5 t Hl Hs) as [E|[E|E]]; [|done|].
  - rewrite Hp in E. by subst t.
  - rewrite E in H3. destruct (last (sent s)) as [x|] eqn:Ex; cbn in H3; [by rewrite H3|].
    exfalso. by apply Hne, trimEnd_nothing.
Qed.
End stream.

(** While a call takes longer than the pause, the timer runs again and again without any
    delay. *)
Definition plain : Params := mkParams None 7 None.
Example busy_while_calling :
  let s := run plain [(1000, st_update "a"); (1001, st_update "ab"); (1300, st_timer); (1301, st_timer); (1302, st_timer)] in
  sent s = ["a"] /\ in_flight s = true /\ timer s = Some 0.
Proof. by vm_compute. Qed.

Example draft_grows :
  sent (run plain [(1000, st_update "a"); (1050, st_settle true); (1060, st_update "ab"); (1070, st_update "abc "); (1301, st_timer); (1400, st_settle true)]) = ["a"; "abc"].
Proof. by vm_compute. Qed.

Lemma last_draft_arrives_witness :
  let es := [(1000, st_update "a"); (1050, st_settle true); (1060, st_update "ab"); (1070, st_update "abc "); (1301, st_timer); (1400, st_settle true)] in
  last (sent (run plain es)) = Some "abc".
Proof.
  exact (proj2 (proj2 (last_draft_arrives plain
    [(1000, st_update "a"); (1050, st_settle true); (1060, st_update "ab"); (1070, st_update "abc "); (1301, st_timer); (1400, st_settle true)]))
    eq_refl eq_refl eq_refl "abc " eq_refl ltac:(by vm_compute)).
Defined.
End Draft.

(** ** Messages that were sent *)
Module Sent.

Definition TTL_MS : Z := 24 * 60 * 60 * 1000.

Record CacheEntry := mkCacheEntry { messageIds : gset Z; timestamps : gmap Z Z }.
Notation SentMessages := (gmap string CacheEntry).

Definition expired (now timestamp : Z) : bool := TTL_MS <? now - timestamp.

(** The loop over the timestamps deletes from both. *)
Definition cleanupExpired (now : Z) (e : CacheEntry) : CacheEntry :=
  mkCacheEntry (filter (fun i => match timestamps e !! i with Some t => expired now t | None => false end = false) (messageIds e))
    (filter (fun kv => expired now kv.2 = false) (timestamps e)).

Definition recordSentMessage (now : Z) (chatId : string) (messageId : Z) (m : SentMessages) : SentMessages :=
  let e := default (mkCacheEntry ∅ ∅) (m !! chatId) in
  let e := mkCacheEntry ({[messageId]} ∪ messageIds e) (<[messageId := now]> (timestamps e)) in
  <[chatId := if (100 <? size (messageIds e))%nat then cleanupExpired now e else e]> m.

Definition wasSentByBot (now : Z) (chatId : string) (messageId : Z) (m : SentMessages) : SentMessages * bool :=
  match m !! chatId with
  | None => (m, false)
  | Some e => let e := cleanupExpired now e in (<[chatId := e]> m, bool_decide (messageId ∈ messageIds e))
  end.

Definition clearSentMessageCache (m : SentMessages) : SentMessages := ∅.

Inductive Op := op_record (chatId : string) (messageId : Z) | op_ask (chatId : string) (messageId : Z).
Definition apply_op (m : SentMessages) (e : Z * Op) : SentMessages :=
  match e.2 with op_record c i => recordSentMessage e.1 c i m | op_ask c i => (wasSentByBot e.1 c i m).1 end.

(** When a message was last recorded. *)
Definition record_time (chatId : string) (messageId : Z) (e : Z * Op) : option Z :=
  match e.2 with op_record c i => if String.eqb c chatId && (i =? messageId) then Some e.1 else None | op_ask _ _ => None end.
Definition recorded (chatId : string) (messageId : Z) (es : list (Z * Op)) : option Z :=
  last (omap (record_time chatId messageId) es).

(** The timestamp the cache has of a message. *)
Definition stamp (m : SentMessages) (chatId : string) (messageId : Z) : option Z := m !! chatId ≫= fun e => timestamps e !! messageId.

Definition entries_ok (m : SentMessages) : Prop := forall c e, m !! c = Some e -> messageIds e = dom (timestamps e).

Lemma ids_of_kept now e : messageIds e = dom (timestamps e) -> messageIds (cleanupExpired now e) = dom (timestamps (cleanupExpired now e)).
Proof.
  intros He. cbn. rewrite He. apply set_eq. intros i. rewrite elem_of_filter, !elem_of_dom. split.
  - intros [Hx [t Ht]]. rewrite Ht in Hx. exists t. by apply map_lookup_filter_Some.
  - intros [t [Ht Hx]%map_lookup_filter_Some]. rewrite Ht. split; [done|by eexists].
Qed.

Lemma entries_step m e : entries_ok m -> entries_ok (apply_op m e).
Proof.
  intros Hm. destruct e as [now [c i|c i]]; unfold apply_op; cbn [fst snd].
  - set (e0 := default (mkCacheEntry ∅ ∅) (m !! c)). assert (He0 : messageIds e0 = dom (timestamps e0))
      by (unfold e0; destruct (m !! c) eqn:E; [by eapply Hm|done]).
    unfold recordSentMessage. fold e0. intros c' e'. rewrite lookup_insert. case_decide; [|apply Hm]. intros [= <-].
    destruct (100 <? _)%nat; [apply ids_of_kept|]; cbn; by rewrite dom_insert_L, He0.
  - unfold wasSentByBot. destruct (m !! c) as [e|] eqn:E; [|done]. cbn [fst]. intros c' e'. rewrite lookup_insert. case_decide; [|apply Hm].
    intros [= <-]. apply ids_of_kept. by eapply Hm.
Qed.

Lemma stamp_cleanup now e i : timestamps (cleanupExpired now e) !! i =
  match timestamps e !! i with Some t => if expired now t then None else Some t | None => None end.
Proof.
  cbn. destruct (timestamps e !! i) as [t|] eqn:E.
  - destruct (expired now t) eqn:Ex.
    + apply map_lookup_filter_None. right. intros x Hx. rewrite E in Hx. injection Hx as <-. cbn. by rewrite Ex.
    + by apply map_lookup_filter_Some.
  - apply map_lookup_filter_None. by left.
Qed.

(** The cache at [now] knows the last time of a message, or that time is over. *)
Definition knows (now : Z) (es : list (Z * Op)) (m : SentMessages) : Prop := forall c i,
  stamp m c i = recorded c i es \/ (stamp m c i = None /\ exists t, recorded c i es = Some t /\ expired now t = true).

Lemma expired_mono now now' t : now <= now' -> expired now t = true -> expired now' t = true.
Proof. unfold expired. intros H. prop_of_bool. lia. Qed.

Lemma recorded_snoc c i es e : recorded c i (es ++ [e]) = match record_time c i e with Some t => Some t | None => recorded c i es end.
Proof.
  unfold recorded. rewrite omap_app. cbn. destruct (record_time c i e); [by rewrite last_snoc|by rewrite app_nil_r].
Qed.

Lemma stamp_insert m c e c' i : stamp (<[c := e]> m) c' i = if decide (c = c') then timestamps e !! i else stamp m c' i.
Proof. unfold stamp. rewrite lookup_insert. by case_decide. Qed.

Lemma knows_step now es m e : now <= e.1 -> knows now es m -> knows e.1 (es ++ [e]) (apply_op m e).
Proof.
  intros Hnow Hk. destruct e as [now' op]. cbn [fst] in *.
  assert (Hk' : knows now' es m).
  { intros c i. destruct (Hk c i) as [?|(Hn & t & Ht & Hx)]; [by left|right]. split; [done|]. exists t. split; [done|by eapply expired_mono]. }
  clear Hk. 
  assert (Hclean : forall c e, m !! c = Some e -> forall i,
    timestamps (cleanupExpired now' e) !! i = recorded c i es \/
    (timestamps (cleanupExpired now' e) !! i = None /\ exists t, recorded c i es = Some t /\ expired now' t = true)).
  { intros c e Hc i. rewrite stamp_cleanup. specialize (Hk' c i). unfold stamp in Hk'. rewrite Hc in Hk'. cbn in Hk'.
    destruct Hk' as [E|(E & t & Ht & Hx)]; rewrite E.
    - destruct (recorded c i es) as [t|] eqn:Er; [|by left]. destruct (expired now' t) eqn:Ex; [right|by left]. split; [done|by exists t].
    - right. split; [done|by exists t]. }
  intros c i. rewrite recorded_snoc. destruct op as [c0 i0|c0 i0]; cbn [apply_op snd fst record_time].
  - assert (Hkeep : expired now' now' = false) by (unfold expired, TTL_MS; apply Z.ltb_ge; lia).
    unfold recordSentMessage. rewrite stamp_insert. destruct (decide (c0 = c)) as [<-|Hne].
    2: { destruct (String.eqb_spec c0 c); [done|]. cbn [andb]. apply Hk'. }
    rewrite String.eqb_refl. cbn [andb]. set (e0 := default (mkCacheEntry ∅ ∅) (m !! c0)).
    assert (He0 : timestamps e0 !! i = stamp m c0 i) by (unfold e0, stamp; by destruct (m !! c0)).
    destruct (Z.eqb_spec i0 i) as [->|Hne].
    + left. destruct (100 <? _)%nat; rewrite ?stamp_cleanup; cbn [timestamps]; rewrite lookup_insert_eq, ?Hkeep; done.
    + destruct (100 <? _)%nat; rewrite ?stamp_cleanup; cbn [timestamps]; rewrite lookup_insert_ne, He0 by done; [|apply Hk'].
      destruct (Hk' c0 i) as [E|(E & t & Ht & Hx)]; rewrite E.
      * destruct (recorded c0 i es) as [t|]; [|by left]. destruct (expired now' t) eqn:Ex; [right|by left]. split; [done|by exists t].
      * right. split; [done|by exists t].
  - unfold wasSentByBot. destruct (m !! c0) as [e|] eqn:E; [|apply Hk']. cbn [fst]. rewrite stamp_insert.
    destruct (decide (c0 = c)) as [<-|Hne]; [|apply Hk']. by apply Hclean.
Qed.

(** The cache answers as a log of all that was sent would: a message is the bot's for a
    day after it was last recorded. *)
Theorem sent_for_a_day es now c i : Sorted.StronglySorted Z.le (es.*1 ++ [now]) ->
  let m := foldl apply_op ∅ es in
  (wasSentByBot now c i m).2 = match recorded c i es with Some t => negb (expired now t) | None => false end.
Proof.
  intros Hs m.
  assert (Hinv : entries_ok m /\ exists t0, t0 <= now /\ knows t0 es m).
  { subst m. revert now Hs. induction es as [|e es IH] using rev_ind; intros now Hs.
    - split; [intros k e; cbn [foldl]; by rewrite lookup_empty|]. exists now. split; [done|]. intros ? ?. by left.
    - rewrite fmap_app in Hs. rewrite foldl_snoc.
      assert (Hs1 : Sorted.StronglySorted Z.le (es.*1 ++ [e.1])) by (apply (StronglySorted_app_1_l _ _ [now]); by rewrite fmap_cons in Hs).
      destruct (IH e.1 Hs1) as (He & t0 & Ht0 & Hk). split; [by apply entries_step|]. exists e.1. split; [|by eapply knows_step].
      rewrite fmap_cons, <- app_assoc in Hs. cbn in Hs. apply StronglySorted_app_1_r in Hs. apply Sorted.StronglySorted_inv in Hs as [_ Hs].
      by apply Forall_inv in Hs. }
  destruct Hinv as (He & t0 & Ht0 & Hk). unfold wasSentByBot. specialize (Hk c i). unfold stamp in Hk.
  destruct (m !! c) as [e|] eqn:E; cbn in Hk |- *.
  - rewrite (He c e E). assert (Hd : bool_decide (i ∈ messageIds (cleanupExpired now e)) =
      match timestamps e !! i with Some t => negb (expired now t) | None => false end).
    { rewrite (ids_of_kept now e (He c e E)). destruct (timestamps (cleanupExpired now e) !! i) as [t|] eqn:Et.
      - rewrite bool_decide_eq_true_2 by (apply elem_of_dom; by eexists). rewrite stamp_cleanup in Et.
        destruct (timestamps e !! i) as [x|]; [|done]. by destruct (expired now x).
      - rewrite bool_decide_eq_false_2 by (by apply not_elem_of_dom). rewrite stamp_cleanup in Et.
        destruct (timestamps e !! i) as [x|]; [|done]. by destruct (expired now x). }
    cbn in Hd. rewrite <- (He c e E). rewrite Hd. destruct Hk as [->|(-> & t & -> & Hx)]; [done|].
    by rewrite (expired_mono t0 now t).
  - destruct Hk as [<-|(_ & t & -> & Hx)]; [done|]. by rewrite (expired_mono t0 now t).
Qed.
End Sent.

(** ** The keys of updates *)
Module Updates.

Record Message := mkMessage { ms_chatId : option Z; ms_message_id : option Z }.
Record Update := mkUpdate { up_update_id : option Z; up_message : option Message; up_edited_message : option Message }.
Record Callback := mkCallback { cb_id : option string; cb_message : option Message }.
Record Context := mkContext {
  cx_update : option Update; cx_update_id : option Z; cx_message : option Message; cx_callbackQuery : option Callback
}.

Definition MEDIA_GROUP_TIMEOUT_MS : Z := 500.
Definition RECENT_TELEGRAM_UPDATE_TTL_MS : Z := 5 * 60000.
Definition RECENT_TELEGRAM_UPDATE_MAX : Z := 2000.

Definition or_null {A} (a b : option A) : option A := match a with Some _ => a | None => b end.

Definition resolveTelegramUpdateId (c : Context) : option Z := or_null (cx_update c ≫= up_update_id) (cx_update_id c).

Definition key_message (c : Context) : option Message :=
  or_null (cx_message c) (or_null (cx_update c ≫= up_message) (or_null (cx_update c ≫= up_edited_message) (cx_callbackQuery c ≫= cb_message))).

Definition buildTelegramUpdateKey (c : Context) : option string :=
  match resolveTelegramUpdateId c with
  | Some updateId => Some ("update:" +:+ js_toString updateId)
  | None =>
      let callbackId := default "" (cx_callbackQuery c ≫= cb_id) in
      if truthy_str callbackId then Some ("callback:" +:+ callbackId) else
      match key_message c ≫= ms_chatId, key_message c ≫= ms_message_id with
      | Some chatId, Some messageId => Some ("message:" +:+ js_toString chatId +:+ ":" +:+ js_toString messageId)
      | _, _ => None
      end
  end.

(** What tells updates apart. *)
Inductive Identity := by_update (id : Z) | by_callback (id : string) | by_message (chatId messageId : Z).
Definition identity (c : Context) : option Identity :=
  match resolveTelegramUpdateId c with
  | Some updateId => Some (by_update updateId)
  | None =>
      let callbackId := default "" (cx_callbackQuery c ≫= cb_id) in
      if truthy_str callbackId then Some (by_callback callbackId) else
      match key_message c ≫= ms_chatId, key_message c ≫= ms_message_id with
      | Some chatId, Some messageId => Some (by_message chatId messageId)
      | _, _ => None
      end
  end.

(** Two updates have the same key exactly when they are told apart by nothing. *)
Theorem update_keys_identify c d :
  buildTelegramUpdateKey c = buildTelegramUpdateKey d <-> identity c = identity d.
Proof.
  set (key := fun i => match i with
    | by_update u => "update:" +:+ js_toString u
    | by_callback u => "callback:" +:+ u
    | by_message u v => "message:" +:+ js_toString u +:+ ":" +:+ js_toString v
    end).
  assert (Hk : forall c, buildTelegramUpdateKey c = key <$> identity c).
  { intros x. unfold buildTelegramUpdateKey, identity. repeat case_match; done. }
  rewrite !Hk. split; [|by intros ->]. intros E.
  destruct (identity c) as [i|], (identity d) as [j|]; try done. cbn in E. injection E as E. f_equal.
  destruct i as [u|u|u v], j as [x|x|x y]; cbn [key] in E; try (exfalso; by cbn in E).
  - apply str_app_inj_l, js_toString_inj in E. by rewrite E.
  - apply str_app_inj_l in E. by rewrite E.
  - apply str_app_inj_l in E. change (js_toString u +:+ String ":" (js_toString v) = js_toString x +:+ String ":" (js_toString y)) in E.
    apply Buttons.last_separator in E as [Hu Hv]; [|by apply js_toString_free|by apply js_toString_free].
    apply js_toString_inj in Hu, Hv. by rewrite Hu, Hv.
Qed.
End Updates.

(** ** The number of the last update *)
Module Offsets.

Definition STORE_VERSION : Z := 1.

Definition re_other_chars : regex :=
  re_plus (re_chr (fun c => negb (is_alnum c || one_of "._-" c))).
Definition normalizeAccountId (accountId : option string) : string :=
  let trimmed := default "" (js_trim <$> accountId) in
  if truthy_str trimmed then replace_all re_other_chars (fun _ => "_") trimmed else "default".

Definition resolveTelegramUpdateOffsetPath (stateDir : string) (accountId : option string) : string :=
  path_join [stateDir; "telegram"; "update-offset-" +:+ normalizeAccountId accountId +:+ ".json"].

(** The state that is returned is its last update. *)
Definition safeParseState (raw : string) : option (option Z) :=
  match parse raw with
  | Some (JObj l) =>
      if negb (match jm_get l "version" with Some (JNum v) => v =? STORE_VERSION | _ => false end) then None
      else match jm_get l "lastUpdateId" with Some JNull => Some None | Some (JNum n) => Some (Some n) | _ => None end
  | _ => None
  end.

(** The files by their paths. *)
Definition readTelegramUpdateOffset (stateDir : string) (accountId : option string) (files : jsmap string) : option Z :=
  raw ← jm_get files (resolveTelegramUpdateOffsetPath stateDir accountId);
  default None (safeParseState raw).

(** [JSON.stringify(payload, null, 2)] and a line end. *)
Definition payload_text (updateId : Z) : string :=
  str ["{"; newline; "  "; quote "version"; ": "; js_toString STORE_VERSION; ","; newline;
       "  "; quote "lastUpdateId"; ": "; js_toString updateId; newline; "}"; newline].

(** The files after every step of the writing: the temporary file, its mode, its new name;
    [id] is the drawn part of its name. *)
Definition writeTelegramUpdateOffset (stateDir id : string) (accountId : option string) (updateId : Z) (files : jsmap string) : list (jsmap string) :=
  let filePath := resolveTelegramUpdateOffsetPath stateDir accountId in
  let tmp := filePath +:+ "." +:+ id +:+ ".tmp" in
  let written := jm_set files tmp (payload_text updateId) in
  [files; written; jm_set (jm_delete written tmp) filePath (payload_text updateId)].

Lemma payload_reads_back n : safeParseState (payload_text n) = Some (Some n).
Proof.
  unfold safeParseState. assert (parse (payload_text n) = Some (JObj [("version", JNum 1); ("lastUpdateId", JNum n)])) as ->; [|done].
  set (rest := newline +:+ "}" +:+ newline). set (t := " " +:+ stringify (JNum n) +:+ rest). set (len := String.length (stringify (JNum n))).
  set (front := str ["{"; newline; "  "; quote "version"; ": 1,"; newline; "  "; quote "lastUpdateId"; ":"]).
  assert (Ht : payload_text n = front +:+ t) by reflexivity.
  assert (Hv : forall m, (len <= m)%nat -> parse_value m t = Some (JNum n, rest)).
  { intros m Hm. rewrite <- (reads_back_num n m rest Hm); [|by vm_compute]. by destruct m. }
  assert (Hl : exists c, String.length (front +:+ t) = S (S (S c)) /\ (len <= c)%nat).
  { exists (36 + len)%nat. split; [|lia]. unfold t. rewrite !str_length_app.
    change (String.length front) with 35%nat. change (String.length rest) with 3%nat. change (String.length " ") with 1%nat. fold len. lia. }
  destruct Hl as (c & Hl & Hc). rewrite Ht. unfold parse. rewrite Hl. specialize (Hv c Hc). clear Ht Hl. clearbody t.
  assert (E : parse_value (S (S (S c))) (front +:+ t) =
    match
      match parse_value c t with
      | Some (v, r) =>
          let l := [("version", JNum 1); ("lastUpdateId", v)] in
          match strip_prefix "," (skip_ws r) with
          | Some r' => parse_members c l r'
          | None => match strip_prefix "}" (skip_ws r) with Some r' => Some (l, r') | None => None end
          end
      | None => None
      end
    with Some (l, r) => Some (JObj l, r) | None => None end) by reflexivity.
  by rewrite E, Hv.
Qed.

(** Whatever step the writing reaches, the file holds the old number or the new one, and
    at the end the new one. *)
Theorem offset_is_replaced_whole stateDir id accountId updateId files : 
  let read := readTelegramUpdateOffset stateDir accountId in
  let states := writeTelegramUpdateOffset stateDir id accountId updateId files in
  Forall (fun fs => read fs = read files \/ read fs = Some updateId) states /\ read <$> last states = Some (Some updateId).
Proof.
  intros read states. unfold states, writeTelegramUpdateOffset, read, readTelegramUpdateOffset.
  set (path := resolveTelegramUpdateOffsetPath stateDir accountId). set (tmp := path +:+ "." +:+ id +:+ ".tmp").
  assert (Hne : tmp <> path).
  { intros E. apply (f_equal String.length) in E. unfold tmp in E. rewrite !str_length_app in E. cbn in E. lia. }
  assert (Hend : default None (safeParseState (payload_text updateId)) = Some updateId) by by rewrite payload_reads_back.
  split; [|cbn [last fmap option_fmap option_map]; rewrite jm_get_set_eq; cbn [mbind option_bind]; by rewrite Hend].
  apply Forall_cons. split; [by left|]. apply Forall_cons. split; [left; by rewrite jm_get_set_ne|].
  apply Forall_singleton. right. rewrite jm_get_set_eq. exact Hend.
Qed.

(** Different accounts may have the same file. *)
Example accounts_share_a_file :
  resolveTelegramUpdateOffsetPath "/s" (Some "a/b") = resolveTelegramUpdateOffsetPath "/s" (Some "a:b") /\
  resolveTelegramUpdateOffsetPath "/s" (Some "a/b") = "/s/telegram/update-offset-a_b.json".
Proof. by vm_compute. Qed.
End Offsets.

(** ** What is read of the configuration *)
Module Settings.

Record DraftChunk := mkDraftChunk { dc_minChars : option Z; dc_maxChars : option Z; dc_breakPreference : option string }.
Record TelegramAccountConfig := mkAccountConfig {
  ac_enabled : option bool; ac_name : option string; ac_tokenFile : option string; ac_botToken : option string;
  ac_capabilities : option json; ac_reactionLevel : option string; ac_draftChunk : option DraftChunk
}.
Definition no_config : TelegramAccountConfig := mkAccountConfig None None None None None None None.
(** [channels.telegram]: the members of an account, and the accounts. *)
Record TelegramConfig := mkTelegramConfig { tg_base : TelegramAccountConfig; tg_accounts : option (jsmap TelegramAccountConfig) }.

Inductive TokenSource := source_env | source_tokenFile | source_config | source_none.
#[export] Instance TokenSource_eq_dec : EqDecision TokenSource.
Proof. solve_decision. Defined.
Record TokenResolution := mkTokenResolution { tr_token : string; tr_source : TokenSource }.
Definition no_token : TokenResolution := mkTokenResolution "" source_none.

Record ResolvedTelegramAccount := mkResolved {
  ra_accountId : string; ra_enabled : bool; ra_name : option string; ra_token : string; ra_tokenSource : TokenSource;
  ra_config : TelegramAccountConfig
}.

Definition or_null {A} (a b : option A) : option A := match a with Some _ => a | None => b end.
Definition or_empty (s : string) : option string := if truthy_str s then Some s else None.
Definition trimmed (o : option string) : option string := o ≫= fun s => or_empty (js_trim s).

(** [{...base, ...account}]. *)
Definition merge (base account : TelegramAccountConfig) : TelegramAccountConfig :=
  mkAccountConfig (or_null (ac_enabled account) (ac_enabled base)) (or_null (ac_name account) (ac_name base))
    (or_null (ac_tokenFile account) (ac_tokenFile base)) (or_null (ac_botToken account) (ac_botToken base))
    (or_null (ac_capabilities account) (ac_capabilities base)) (or_null (ac_reactionLevel account) (ac_reactionLevel base))
    (or_null (ac_draftChunk account) (ac_draftChunk base)).

(** The files: absent, unreadable with an error, or their text. *)
Inductive FileRead := no_file | read_error (e : string) | file_text (t : string).

Section settings.
(** routing/session-key.js and routing/bindings.js, the order of [localeCompare], the files
    and the environment. *)
Context (DEFAULT_ACCOUNT_ID : string) (normalizeAccountId : option string -> string).
Context (bound : list string) (boundDefault : option string) (locale_le : string -> string -> bool).
Context (files : string -> FileRead) (envToken : option string).

Definition find_key (accounts : jsmap TelegramAccountConfig) (id : string) : option TelegramAccountConfig :=
  match List.find (fun key => String.eqb (normalizeAccountId (Some key)) id) (jm_keys accounts) with
  | Some key => if truthy_str key then jm_get accounts key else None
  | None => None
  end.

(** *** token.ts *)

Definition resolveAccountCfg (cfg : option TelegramConfig) (id : string) : option TelegramAccountConfig :=
  accounts ← cfg ≫= tg_accounts;
  match jm_get accounts id with Some direct => Some direct | None => find_key accounts id end.

(** A file gives a token, nothing (with its end of the search), or is passed over. *)
Definition read_token (path : string) : option TokenResolution :=
  match files path with
  | no_file | read_error _ => Some no_token
  | file_text t => if truthy_str (js_trim t) then Some (mkTokenResolution (js_trim t) source_tokenFile) else None
  end.

Definition resolveTelegramToken (cfg : option TelegramConfig) (opts_accountId : option string) : TokenResolution :=
  let accountId := normalizeAccountId opts_accountId in
  let accountCfg := resolveAccountCfg cfg accountId in
  match trimmed (accountCfg ≫= ac_tokenFile) with
  | Some path => default no_token (read_token path)
  | None =>
      match trimmed (accountCfg ≫= ac_botToken) with
      | Some token => mkTokenResolution token source_config
      | None =>
          if negb (String.eqb accountId DEFAULT_ACCOUNT_ID) then no_token else
          match trimmed (cfg ≫= fun c => ac_tokenFile (tg_base c)) ≫= read_token with
          | Some r => r
          | None =>
              match trimmed (cfg ≫= fun c => ac_botToken (tg_base c)) with
              | Some token => mkTokenResolution token source_config
              | None => match trimmed envToken with Some token => mkTokenResolution token source_env | None => no_token end
              end
          end
      end
  end.

(** *** accounts.ts *)

Definition listConfiguredAccountIds (cfg : option TelegramConfig) : list string :=
  match cfg ≫= tg_accounts with
  | None => []
  | Some accounts => foldl (fun ids key => let id := normalizeAccountId (Some key) in if has ids id then ids else ids ++ [id]) []
                       (keep truthy_str (jm_keys accounts))
  end.
Definition listTelegramAccountIds (cfg : option TelegramConfig) : list string :=
  let ids := foldl (fun ids id => if has ids id then ids else ids ++ [id]) [] (listConfiguredAccountIds cfg ++ bound) in
  match ids with [] => [DEFAULT_ACCOUNT_ID] | _ => js_sort locale_le ids end.

Definition resolveDefaultTelegramAccountId (cfg : option TelegramConfig) : string :=
  match boundDefault with
  | Some b => if truthy_str b then b else
      if has (listTelegramAccountIds cfg) DEFAULT_ACCOUNT_ID then DEFAULT_ACCOUNT_ID else default DEFAULT_ACCOUNT_ID (head (listTelegramAccountIds cfg))
  | None => if has (listTelegramAccountIds cfg) DEFAULT_ACCOUNT_ID then DEFAULT_ACCOUNT_ID else default DEFAULT_ACCOUNT_ID (head (listTelegramAccountIds cfg))
  end.

Definition resolveAccountConfig (cfg : option TelegramConfig) (accountId : string) : option TelegramAccountConfig :=
  accounts ← cfg ≫= tg_accounts;
  match jm_get accounts accountId with
  | Some direct => Some direct
  | None => find_key accounts (normalizeAccountId (Some accountId))
  end.

Definition base_of (cfg : option TelegramConfig) : TelegramAccountConfig := default no_config (tg_base <$> cfg).
Definition mergeTelegramAccountConfig (cfg : option TelegramConfig) (accountId : string) : TelegramAccountConfig :=
  merge (base_of cfg) (default no_config (resolveAccountConfig cfg accountId)).

Definition resolve_one (cfg : option TelegramConfig) (accountId : string) : ResolvedTelegramAccount :=
  let merged := mergeTelegramAccountConfig cfg accountId in
  let token := resolveTelegramToken cfg (Some accountId) in
  mkResolved accountId (default true (ac_enabled (base_of cfg)) && default true (ac_enabled merged)) (trimmed (ac_name merged))
    (tr_token token) (tr_source token) merged.

Definition resolveTelegramAccount (cfg : option TelegramConfig) (accountId : option string) : ResolvedTelegramAccount :=
  let hasExplicitAccountId := truthy_str (default "" (js_trim <$> accountId)) in
  let primary := resolve_one cfg (normalizeAccountId accountId) in
  if hasExplicitAccountId then primary else
  if negb (bool_decide (ra_tokenSource primary = source_none)) then primary else
  let fallbackId := resolveDefaultTelegramAccountId cfg in
  if String.eqb fallbackId (ra_accountId primary) then primary else
  let fallback := resolve_one cfg fallbackId in
  if bool_decide (ra_tokenSource fallback = source_none) then primary else fallback.

Definition listEnabledTelegramAccounts (cfg : option TelegramConfig) : list ResolvedTelegramAccount :=
  keep ra_enabled ((fun id => resolveTelegramAccount cfg (Some id)) <$> listTelegramAccountIds cfg).

(** *** inline-buttons.ts *)

Inductive InlineButtonsScope := scope_off | scope_dm | scope_group | scope_all | scope_allowlist.
#[export] Instance InlineButtonsScope_eq_dec : EqDecision InlineButtonsScope.
Proof. solve_decision. Defined.
Definition DEFAULT_INLINE_BUTTONS_SCOPE : InlineButtonsScope := scope_allowlist.

Definition normalizeInlineButtonsScope (value : option json) : option InlineButtonsScope :=
  match value with
  | Some (JStr s) =>
      let t := js_toLowerCase (js_trim s) in
      if String.eqb t "off" then Some scope_off else if String.eqb t "dm" then Some scope_dm
      else if String.eqb t "group" then Some scope_group else if String.eqb t "all" then Some scope_all
      else if String.eqb t "allowlist" then Some scope_allowlist else None
  | _ => None
  end.

(** The elements of a list of capabilities are texts. *)
Definition names_inline_buttons (entry : json) : bool :=
  match entry with JStr s => String.eqb (js_toLowerCase (js_trim s)) "inlinebuttons" | _ => false end.
Definition resolveInlineButtonsScopeFromCapabilities (capabilities : option json) : InlineButtonsScope :=
  match capabilities with
  | Some (JArr l) => if existsb names_inline_buttons l then scope_all else scope_off
  | Some (JObj l) => default DEFAULT_INLINE_BUTTONS_SCOPE (normalizeInlineButtonsScope (jm_get l "inlineButtons"))
  | _ => DEFAULT_INLINE_BUTTONS_SCOPE
  end.
Definition resolveTelegramInlineButtonsScope (cfg : option TelegramConfig) (accountId : option string) : InlineButtonsScope :=
  resolveInlineButtonsScopeFromCapabilities (ac_capabilities (ra_config (resolveTelegramAccount cfg accountId))).
Definition scope_is_on (s : InlineButtonsScope) : bool := negb (bool_decide (s = scope_off)).
Definition isTelegramInlineButtonsEnabled (cfg : option TelegramConfig) (accountId : option string) : bool :=
  if truthy_opt accountId then scope_is_on (resolveTelegramInlineButtonsScope cfg accountId) else
  match listTelegramAccountIds cfg with
  | [] => scope_is_on (resolveTelegramInlineButtonsScope cfg accountId)
  | ids => existsb (fun id => scope_is_on (resolveTelegramInlineButtonsScope cfg (Some id))) ids
  end.

Inductive ChatType := chat_direct | chat_group | chat_unknown.
Definition re_chat_id : regex := re_seqs [re_start; re_opt (re_lit "-"); re_plus (re_chr is_digit_char); re_end].
Definition resolveTelegramTargetChatType (target : string) : ChatType :=
  if negb (truthy_str (js_trim target)) then chat_unknown else
  let chatId := js_trim (Telegram.tt_chatId (Telegram.parseTelegramTarget target)) in
  if negb (truthy_str chatId) then chat_unknown
  else if test re_chat_id chatId then (if js_startsWith chatId "-" then chat_group else chat_direct)
  else chat_unknown.

(** *** reaction-level.ts *)

Record ReactionLevel := mkReactionLevel { rl_level : string; rl_ackEnabled : bool; rl_agentReactionsEnabled : bool; rl_guidance : option string }.
Definition reaction_level (level : string) : ReactionLevel :=
  if String.eqb level "off" then mkReactionLevel level false false None
  else if String.eqb level "ack" then mkReactionLevel level true false None
  else if String.eqb level "minimal" then mkReactionLevel level false true (Some "minimal")
  else if String.eqb level "extensive" then mkReactionLevel level false true (Some "extensive")
  else mkReactionLevel "ack" true false None.
Definition resolveTelegramReactionLevel (cfg : option TelegramConfig) (accountId : option string) : ReactionLevel :=
  reaction_level (default "minimal" (ac_reactionLevel (ra_config (resolveTelegramAccount cfg accountId)))).

(** *** network-config.ts *)

Definition TELEGRAM_DISABLE_AUTO_SELECT_FAMILY_ENV : string := "OPENCLAW_TELEGRAM_DISABLE_AUTO_SELECT_FAMILY".
Definition TELEGRAM_ENABLE_AUTO_SELECT_FAMILY_ENV : string := "OPENCLAW_TELEGRAM_ENABLE_AUTO_SELECT_FAMILY".
Record AutoSelectFamily := mkAutoSelectFamily { as_value : option bool; as_source : option string }.
(** [truthy_env]: the test of infra/env.js on a variable of the environment. *)
Definition resolveTelegramAutoSelectFamilyDecision (truthy_env : string -> bool) (network : option bool) (nodeMajor : option Z) : AutoSelectFamily :=
  if truthy_env TELEGRAM_ENABLE_AUTO_SELECT_FAMILY_ENV then mkAutoSelectFamily (Some true) (Some ("env:" +:+ TELEGRAM_ENABLE_AUTO_SELECT_FAMILY_ENV))
  else if truthy_env TELEGRAM_DISABLE_AUTO_SELECT_FAMILY_ENV then mkAutoSelectFamily (Some false) (Some ("env:" +:+ TELEGRAM_DISABLE_AUTO_SELECT_FAMILY_ENV))
  else match network with
       | Some b => mkAutoSelectFamily (Some b) (Some "config")
       | None => match nodeMajor with
                 | Some n => if 22 <=? n then mkAutoSelectFamily (Some false) (Some "default-node22") else mkAutoSelectFamily None None
                 | None => mkAutoSelectFamily None None
                 end
       end.

(** *** draft-chunking.ts *)

Record Chunking := mkChunking { ch_minChars : Z; ch_maxChars : Z; ch_breakPreference : string }.
(** [textLimit]: what auto-reply/chunk.js makes of the configuration. *)
Definition resolveTelegramDraftStreamingChunking (textLimit : Z) (cfg : option TelegramConfig) (accountId : option string) : Chunking :=
  let account := (cfg ≫= tg_accounts) ≫= fun m => jm_get m (normalizeAccountId accountId) in
  let draftCfg := or_null (account ≫= ac_draftChunk) (ac_draftChunk (base_of cfg)) in
  let maxRequested := Z.max 1 (default 800 (draftCfg ≫= dc_maxChars)) in
  let maxChars := Z.max 1 (Z.min maxRequested textLimit) in
  let minRequested := Z.max 1 (default 200 (draftCfg ≫= dc_minChars)) in
  mkChunking (Z.min minRequested maxChars) maxChars
    (match draftCfg ≫= dc_breakPreference with
     | Some b => if String.eqb b "newline" || String.eqb b "sentence" then b else "paragraph"
     | None => "paragraph"
     end).

(** *** Theorems *)

Theorem draft_chunks_in_bounds textLimit cfg accountId : 1 <= textLimit ->
  let c := resolveTelegramDraftStreamingChunking textLimit cfg accountId in 1 <= ch_minChars c <= ch_maxChars c /\ ch_maxChars c <= textLimit.
Proof. intros H. cbn. lia. Qed.

Lemma trimmed_truthy o s : trimmed o = Some s -> s <> "".
Proof. unfold trimmed, or_empty. intros (t & -> & Ht)%bind_Some. destruct (truthy_str (js_trim t)) eqn:E; [|done]. injection Ht as <-. intros Es. by rewrite Es in E. Qed.

(** A token has a source and a source a token; the token that every account could use, that
    of the environment or of the whole channel, is given to the default account only. *)
Theorem tokens_stay_with_their_account cfg id :
  let r := resolveTelegramToken cfg id in
  (tr_source r = source_none <-> tr_token r = "") /\
  (tr_source r = source_env -> normalizeAccountId id = DEFAULT_ACCOUNT_ID) /\
  (normalizeAccountId id <> DEFAULT_ACCOUNT_ID -> forall base,
     resolveTelegramToken (Some (mkTelegramConfig base (cfg ≫= tg_accounts))) id = r).
Proof.
  intros r. assert (Hread : forall path t, read_token path = Some t -> (tr_source t = source_none <-> tr_token t = "") /\ tr_source t <> source_env).
  { intros path t. unfold read_token. destruct (files path); try (intros [= <-]; by split).
    destruct (truthy_str (js_trim t0)) eqn:E; [|done]. intros [= <-]. cbn. split; [split; [done|]|done]. intros E'. by rewrite E' in E. }
  assert (Hsome : forall o s src, trimmed o = Some s -> src <> source_none -> src = source_none <-> s = "").
  { intros o s src Hs Hsrc. split; [done|]. intros ->. by apply trimmed_truthy in Hs. }
  assert (Hr : r = resolveTelegramToken cfg id) by done. clearbody r. unfold resolveTelegramToken in Hr. cbv zeta in Hr.
  split_and!.
  - destruct (trimmed (resolveAccountCfg cfg _ ≫= ac_tokenFile)) as [p|].
    { destruct (read_token p) as [t|] eqn:E; rewrite Hr; [by eapply Hread|done]. }
    destruct (trimmed (resolveAccountCfg cfg _ ≫= ac_botToken)) as [t|] eqn:E; [rewrite Hr; by eapply Hsome|].
    destruct (negb _); [by rewrite Hr|]. destruct (trimmed (cfg ≫= _) ≫= read_token) as [t|] eqn:E2.
    { rewrite Hr. apply bind_Some in E2 as (p & _ & Hp). by eapply Hread. }
    destruct (trimmed (cfg ≫= _)) eqn:E3 in Hr; [rewrite Hr; by eapply Hsome|].
    destruct (trimmed envToken) eqn:E4; rewrite Hr; [by eapply Hsome|done].
  - intros Hs. destruct (trimmed (resolveAccountCfg cfg _ ≫= ac_tokenFile)) as [p|].
    { destruct (read_token p) as [t|] eqn:E; rewrite Hr in Hs; [by apply Hread in E as [_ ?]|done]. }
    destruct (trimmed (resolveAccountCfg cfg _ ≫= ac_botToken)) as [t|] eqn:E; [by rewrite Hr in Hs|].
    destruct (String.eqb_spec (normalizeAccountId id) DEFAULT_ACCOUNT_ID) as [?|?]; [done|by rewrite Hr in Hs].
  - intros Hne base. rewrite Hr. unfold resolveTelegramToken. cbv zeta.
    assert (Hc : resolveAccountCfg (Some (mkTelegramConfig base (cfg ≫= tg_accounts))) (normalizeAccountId id) = resolveAccountCfg cfg (normalizeAccountId id)) by done.
    rewrite Hc. destruct (String.eqb_spec (normalizeAccountId id) DEFAULT_ACCOUNT_ID) as [?|?]; [done|]. done.
Qed.

(** Without an account the one that is found lacks a token only if the default one and the
    one it falls back to both do. *)
Theorem account_with_a_token cfg : ra_tokenSource (resolveTelegramAccount cfg None) = source_none <->
  ra_tokenSource (resolve_one cfg (normalizeAccountId None)) = source_none /\
  ra_tokenSource (resolve_one cfg (resolveDefaultTelegramAccountId cfg)) = source_none.
Proof.
  unfold resolveTelegramAccount. change (truthy_str (default "" (js_trim <$> None))) with false. cbv iota zeta.
  set (p := resolve_one cfg (normalizeAccountId None)). set (f := resolve_one cfg (resolveDefaultTelegramAccountId cfg)).
  case_bool_decide as Hp; cbn [negb]; [|naive_solver].
  change (ra_accountId p) with (normalizeAccountId None).
  destruct (String.eqb_spec (resolveDefaultTelegramAccountId cfg) (normalizeAccountId None)) as [E|E].
  - assert (f = p) as -> by (unfold f, p; by rewrite E). naive_solver.
  - case_bool_decide; naive_solver.
Qed.
End settings.
End Settings.
