(* ===== verification/GatewaySessions.v ===== *)
(** * Sessions of the gateway and the messages in them

    openclaw/gateway/sessions-patch.ts: changing the settings of a session;
    server-wizard-sessions.ts and server-methods/wizard.ts: the wizards that run;
    chat-attachments.ts: the images of a message; chat-sanitize.ts and
    server-methods/agent-timestamp.ts: the envelope before a message, put on and taken
    off.  The normalisations of levels, models and labels, the wizards themselves and
    the detection of the type of an image are of other modules: parameters and the
    classes [SessionRules] and [WizardSession]. *)

From S2P Require Import Prelude JsMap JsString JsNumber JsRegExp Json GatewayNet GatewayAuth GatewayMethods GatewayNodes GatewayHandshake.
From Stdlib Require Import Ascii.

(** ** Changing a session *)
Module Patch.

Record SessionEntry := mkSessionEntry {
  se_sessionId : string; se_updatedAt : option Z; se_spawnedBy : option string; se_label : option string;
  se_thinkingLevel : option string; se_verboseLevel : option string; se_reasoningLevel : option string;
  se_responseUsage : option string; se_elevatedLevel : option string;
  se_execHost : option string; se_execSecurity : option string; se_execAsk : option string; se_execNode : option string;
  se_providerOverride : option string; se_modelOverride : option string;
  se_sendPolicy : option string; se_groupActivation : option string;
  se_other : json                       (* what is not touched here *)
}.
#[export] Instance SessionEntry_eta : EtaRecord SessionEntry := fun e =>
  mkSessionEntry (se_sessionId e) (se_updatedAt e) (se_spawnedBy e) (se_label e) (se_thinkingLevel e) (se_verboseLevel e)
    (se_reasoningLevel e) (se_responseUsage e) (se_elevatedLevel e) (se_execHost e) (se_execSecurity e) (se_execAsk e)
    (se_execNode e) (se_providerOverride e) (se_modelOverride e) (se_sendPolicy e) (se_groupActivation e) (se_other e).

(** A member of the patch; one that is undefined counts as absent. *)
Inductive Patched := absent | null | value (s : string).
Record SessionsPatch := mkSessionsPatch {
  sp_spawnedBy : Patched; sp_label : Patched; sp_thinkingLevel : Patched; sp_verboseLevel : Patched;
  sp_reasoningLevel : Patched; sp_responseUsage : Patched; sp_elevatedLevel : Patched;
  sp_execHost : Patched; sp_execSecurity : Patched; sp_execAsk : Patched; sp_execNode : Patched;
  sp_model : Patched; sp_sendPolicy : Patched; sp_groupActivation : Patched
}.

Record ModelRef := mkModelRef { mr_provider : string; mr_model : string }.
#[export] Instance ModelRef_eq_dec : EqDecision ModelRef.
Proof. solve_decision. Defined.

(** What the other modules decide. *)
Class SessionRules := {
  isSubagentSessionKey : string -> bool;
  parseSessionLabel : string -> string + string;
  normalizeThinkLevel : string -> option string;
  formatThinkingLevels : string -> string -> string;
  parseVerboseOverride : option string -> string + option string;     (* null is [None] *)
  applyVerboseOverride : option string -> SessionEntry -> SessionEntry;
  normalizeReasoningLevel : string -> option string;
  normalizeUsageDisplay : string -> option string;
  normalizeElevatedLevel : string -> option string;
  normalizeSendPolicy : string -> option string;
  normalizeGroupActivation : string -> option string;
  supportsXHighThinking : string -> string -> bool;
  formatXHighModelHint : string;
  resolvedDefault : ModelRef;
  resolveAllowedModelRef : string -> string + ModelRef;
  applyModelOverrideToSessionEntry : ModelRef -> bool -> SessionEntry -> SessionEntry
}.

(** What the patch relies on: its checks of the name and of the parent come before the
    overrides, which have to leave both alone. *)
Class SessionLaws `{SessionRules} : Prop := {
  verbose_keeps v e : let e' := applyVerboseOverride v e in
    se_label e' = se_label e /\ se_spawnedBy e' = se_spawnedBy e;
  model_keeps m d e : let e' := applyModelOverrideToSessionEntry m d e in
    se_label e' = se_label e /\ se_spawnedBy e' = se_spawnedBy e
}.

Definition invalid {A} (message : string) : ErrorShape + A := inl (errorShape INVALID_REQUEST message).

Definition one_of_words (words : list string) (raw : string) : option string :=
  let normalized := js_toLowerCase (js_trim raw) in if has words normalized then Some normalized else None.
Definition normalizeExecHost : string -> option string := one_of_words ["sandbox"; "gateway"; "node"].
Definition normalizeExecSecurity : string -> option string := one_of_words ["deny"; "allowlist"; "full"].
Definition normalizeExecAsk : string -> option string := one_of_words ["off"; "on-miss"; "always"].

Definition use_one_of (field : string) (words : list string) : string :=
  "invalid " +:+ field +:+ " (use " +:+ join_with "|" (quote <$> words) +:+ ")".

Section patch.
Context `{SessionRules}.
(** [catalog]: whether the caller gave a loader of the catalogue of models. *)
Context (now : Z) (fresh : string) (catalog : bool) (store : jsmap SessionEntry) (storeKey : string) (patch : SessionsPatch).

Definition existing : option SessionEntry := jm_get store storeKey.
Definition first_entry : SessionEntry :=
  match existing with
  | Some e => e <| se_updatedAt := Some (Z.max (default 0 (se_updatedAt e)) now) |>
  | None => mkSessionEntry fresh (Some now) None None None None None None None None None None None None None None None JNull
  end.

(** A step takes the new entry and gives it changed, or a refusal. *)
Definition Step : Type := SessionEntry -> ErrorShape + SessionEntry.
Definition andThen (a b : Step) : Step := fun e => match a e with inl err => inl err | inr e' => b e' end.

(** A member that null clears and a text sets. *)
Definition patch_member (p : Patched) (clear : SessionEntry -> SessionEntry) (set : string -> Step) : Step := fun e =>
  match p with absent => inr e | null => inr (clear e) | value raw => set raw e end.
(** The text has to be normalised; [off], if given, clears too. *)
Definition set_level (normalize : string -> option string) (message : string) (off : option string)
    (clear : SessionEntry -> SessionEntry) (put : string -> SessionEntry -> SessionEntry) (raw : string) : Step := fun e =>
  match normalize raw with
  | None => invalid message
  | Some n => if negb (truthy_str n) then invalid message
              else if bool_decide (off = Some n) then inr (clear e) else inr (put n e)
  end.

Definition spawned_already : option string := existing ≫= se_spawnedBy.
Definition step_spawnedBy : Step := fun e =>
  match sp_spawnedBy patch with
  | absent => inr e
  | null => if truthy_opt spawned_already then invalid "spawnedBy cannot be cleared once set" else inr e
  | value raw =>
      let trimmed := js_trim raw in
      if negb (truthy_str trimmed) then invalid "invalid spawnedBy: empty"
      else if negb (isSubagentSessionKey storeKey) then invalid "spawnedBy is only supported for subagent:* sessions"
      else if truthy_opt spawned_already && negb (bool_decide (spawned_already = Some trimmed))
      then invalid "spawnedBy cannot be changed once set"
      else inr (e <| se_spawnedBy := Some trimmed |>)
  end.

Definition label_used (label : string) : bool :=
  existsb (fun kv : string * SessionEntry => negb (String.eqb kv.1 storeKey) && bool_decide (se_label kv.2 = Some label)) store.
Definition step_label : Step :=
  patch_member (sp_label patch) (fun e => e <| se_label := None |>) (fun raw e =>
    match parseSessionLabel raw with
    | inl error => invalid error
    | inr label => if label_used label then invalid ("label already in use: " +:+ label) else inr (e <| se_label := Some label |>)
    end).

Definition hint (own : option string) (fallback : string) : string :=
  let t := default "" (js_trim <$> own) in if truthy_str t then t else fallback.
Definition thinking_message : string :=
  "invalid thinkingLevel (use " +:+
  formatThinkingLevels (hint (existing ≫= se_providerOverride) (mr_provider resolvedDefault))
    (hint (existing ≫= se_modelOverride) (mr_model resolvedDefault)) +:+ ")".
Definition step_thinkingLevel : Step :=
  patch_member (sp_thinkingLevel patch) (fun e => e <| se_thinkingLevel := None |>)
    (set_level normalizeThinkLevel thinking_message None id (fun n e => e <| se_thinkingLevel := Some n |>)).

Definition step_verboseLevel : Step := fun e =>
  let apply raw := match parseVerboseOverride raw with inl error => invalid error | inr v => inr (applyVerboseOverride v e) end in
  match sp_verboseLevel patch with absent => inr e | null => apply None | value raw => apply (Some raw) end.

Definition step_reasoningLevel : Step :=
  let clear e := e <| se_reasoningLevel := None |> in
  patch_member (sp_reasoningLevel patch) clear
    (set_level normalizeReasoningLevel (use_one_of "reasoningLevel" ["on"; "off"; "stream"]) (Some "off") clear
       (fun n e => e <| se_reasoningLevel := Some n |>)).
Definition step_responseUsage : Step :=
  let clear e := e <| se_responseUsage := None |> in
  patch_member (sp_responseUsage patch) clear
    (set_level normalizeUsageDisplay (use_one_of "responseUsage" ["off"; "tokens"; "full"]) (Some "off") clear
       (fun n e => e <| se_responseUsage := Some n |>)).
Definition step_elevatedLevel : Step :=
  patch_member (sp_elevatedLevel patch) (fun e => e <| se_elevatedLevel := None |>)
    (set_level normalizeElevatedLevel (use_one_of "elevatedLevel" ["on"; "off"; "ask"; "full"]) None id
       (fun n e => e <| se_elevatedLevel := Some n |>)).
Definition step_execHost : Step :=
  patch_member (sp_execHost patch) (fun e => e <| se_execHost := None |>)
    (set_level normalizeExecHost (use_one_of "execHost" ["sandbox"; "gateway"; "node"]) None id (fun n e => e <| se_execHost := Some n |>)).
Definition step_execSecurity : Step :=
  patch_member (sp_execSecurity patch) (fun e => e <| se_execSecurity := None |>)
    (set_level normalizeExecSecurity (use_one_of "execSecurity" ["deny"; "allowlist"; "full"]) None id
       (fun n e => e <| se_execSecurity := Some n |>)).
Definition step_execAsk : Step :=
  patch_member (sp_execAsk patch) (fun e => e <| se_execAsk := None |>)
    (set_level normalizeExecAsk (use_one_of "execAsk" ["off"; "on-miss"; "always"]) None id (fun n e => e <| se_execAsk := Some n |>)).
Definition step_execNode : Step :=
  patch_member (sp_execNode patch) (fun e => e <| se_execNode := None |>)
    (set_level (fun raw => Some (js_trim raw)) "invalid execNode: empty" None id (fun n e => e <| se_execNode := Some n |>)).

Definition step_model : Step :=
  patch_member (sp_model patch) (applyModelOverrideToSessionEntry resolvedDefault true) (fun raw e =>
    let trimmed := js_trim raw in
    if negb (truthy_str trimmed) then invalid "invalid model: empty"
    else if negb catalog then inl (errorShape UNAVAILABLE "model catalog unavailable")
    else match resolveAllowedModelRef trimmed with
         | inl error => invalid error
         | inr ref => inr (applyModelOverrideToSessionEntry ref (bool_decide (ref = resolvedDefault)) e)
         end).

(** The thinking of a model that has no such level. *)
Definition step_xhigh : Step := fun e =>
  if negb (bool_decide (se_thinkingLevel e = Some "xhigh")) then inr e
  else if supportsXHighThinking (default (mr_provider resolvedDefault) (se_providerOverride e)) (default (mr_model resolvedDefault) (se_modelOverride e))
  then inr e
  else match sp_thinkingLevel patch with
       | absent => inr (e <| se_thinkingLevel := Some "high" |>)
       | _ => invalid ("thinkingLevel " +:+ quote "xhigh" +:+ " is only supported for " +:+ formatXHighModelHint)
       end.

Definition step_sendPolicy : Step :=
  patch_member (sp_sendPolicy patch) (fun e => e <| se_sendPolicy := None |>)
    (set_level normalizeSendPolicy (use_one_of "sendPolicy" ["allow"; "deny"]) None id (fun n e => e <| se_sendPolicy := Some n |>)).
Definition step_groupActivation : Step :=
  patch_member (sp_groupActivation patch) (fun e => e <| se_groupActivation := None |>)
    (set_level normalizeGroupActivation (use_one_of "groupActivation" ["mention"; "always"]) None id
       (fun n e => e <| se_groupActivation := Some n |>)).

Definition steps_before_model : list Step :=
  [step_spawnedBy; step_label; step_thinkingLevel; step_verboseLevel; step_reasoningLevel; step_responseUsage;
   step_elevatedLevel; step_execHost; step_execSecurity; step_execAsk; step_execNode].
Definition steps : list Step :=
  steps_before_model ++ [step_model; step_xhigh; step_sendPolicy; step_groupActivation].
Definition patched_entry : ErrorShape + SessionEntry := foldr andThen inr steps first_entry.

(** Whether the patch gets to the await of the catalogue. *)
Definition awaits_catalog : bool :=
  match foldr andThen inr steps_before_model first_entry, sp_model patch with
  | inr _, value raw => truthy_str (js_trim raw) && catalog
  | _, _ => false
  end.

(** The store afterwards, and the answer.  The checks read the store as it is at first;
    [meanwhile] is what others do to it during the await. *)
Definition applySessionsPatchToStore (meanwhile : jsmap SessionEntry -> jsmap SessionEntry) :
    jsmap SessionEntry * (ErrorShape + SessionEntry) :=
  let found := if awaits_catalog then meanwhile store else store in
  match patched_entry with
  | inl err => (found, inl err)
  | inr next => (jm_set found storeKey next, inr next)
  end.
End patch.

(** *** Theorems *)

Section theorems.
Context `{SessionRules}.
Context (now : Z) (fresh : string) (catalog : bool) (store : jsmap SessionEntry) (storeKey : string) (patch : SessionsPatch).

(** Two sessions have no name in common. *)
Definition labels_unique (st : jsmap SessionEntry) : Prop := forall k1 k2 e1 e2 l,
  jm_get st k1 = Some e1 -> jm_get st k2 = Some e2 -> se_label e1 = Some l -> se_label e2 = Some l -> k1 = k2.

Definition keeps (P : SessionEntry -> Prop) (s : Step) : Prop := forall e e', P e -> s e = inr e' -> P e'.

Lemma andThen_keeps P a b : keeps P a -> keeps P b -> keeps P (andThen a b).
Proof. unfold keeps, andThen. intros Ha Hb e e' He. destruct (a e) as [|e1] eqn:E; [done|]. intros Hr. eapply Hb; [|exact Hr]. by eapply Ha. Qed.
Lemma all_keep P l : Forall (keeps P) l -> keeps P (foldr andThen inr l).
Proof. induction 1 as [|s l Hs _ IH]; [by intros e e' He [= <-]|]. by apply andThen_keeps. Qed.

Lemma member_keeps P p clear set : (forall e, P e -> P (clear e)) -> (forall raw, keeps P (set raw)) -> keeps P (patch_member p clear set).
Proof. intros Hc Hs e e' He. unfold patch_member. destruct p; [by intros [= <-]|intros [= <-]; by apply Hc|by apply Hs]. Qed.
Lemma level_keeps P normalize message off clear put raw : (forall e, P e -> P (clear e)) -> (forall n e, P e -> P (put n e)) ->
  keeps P (set_level normalize message off clear put raw).
Proof.
  intros Hc Hp e e' He. unfold set_level, invalid. destruct (normalize raw) as [n|]; [|done].
  destruct (negb _); [done|]. case_bool_decide; intros [= <-]; auto.
Qed.

(** What a predicate on name, parent and time has to be checked for. *)
Definition reads_identity (P : SessionEntry -> Prop) : Prop := forall e e',
  se_label e' = se_label e -> se_spawnedBy e' = se_spawnedBy e -> se_updatedAt e' = se_updatedAt e -> P e -> P e'.

Lemma steps_keep P : reads_identity P ->
  keeps P (step_spawnedBy store storeKey patch) -> keeps P (step_label store storeKey patch) ->
  keeps P (step_verboseLevel patch) -> keeps P (step_model catalog patch) ->
  keeps P (foldr andThen inr (steps catalog store storeKey patch)).
Proof.
  intros HP Hsp Hl Hv Hm. apply all_keep. unfold steps, steps_before_model. cbn [app].
  assert (Hx : keeps P (step_xhigh patch)).
  { intros e e' He. unfold step_xhigh, invalid. destruct (negb _); [by intros [= <-]|]. destruct (supportsXHighThinking _ _); [by intros [= <-]|].
    destruct (sp_thinkingLevel patch); try done. intros [= <-]. by apply (HP e). }
  repeat (apply Forall_cons; split); try done; try (apply member_keeps); try (intros ?; apply level_keeps); intros;
    match goal with He : P ?e |- _ => by apply (HP e) end.
Qed.

(** The patch overrides neither the verbosity nor the model, or these overrides leave the
    names and the parents alone. *)
Definition names_kept : Prop := sp_verboseLevel patch = absent /\ sp_model patch = absent \/ SessionLaws.

(** Of the name and the parent alone. *)
Definition reads_name (P : SessionEntry -> Prop) : Prop := forall e e',
  se_label e' = se_label e -> se_spawnedBy e' = se_spawnedBy e -> P e -> P e'.

Lemma name_steps_keep P : names_kept -> reads_name P ->
  keeps P (step_spawnedBy store storeKey patch) -> keeps P (step_label store storeKey patch) ->
  keeps P (foldr andThen inr (steps catalog store storeKey patch)).
Proof.
  intros Hk HP Hsp Hl. apply steps_keep; [by intros e e' H1 H2 _; apply HP|done|done|..].
  - intros e e' He. unfold step_verboseLevel, invalid. destruct Hk as [[-> _]|Hk]; [by intros [= <-]|].
    destruct (sp_verboseLevel patch) as [| |raw]; [by intros [= <-]|..].
    all: destruct (parseVerboseOverride _) as [|v]; [done|]; intros [= <-]; destruct (verbose_keeps v e); by eapply HP.
  - unfold step_model. destruct Hk as [[_ ->]|Hk]; [by intros e e' He [= <-]|]. apply member_keeps.
    + intros e He. destruct (model_keeps resolvedDefault true e). by eapply HP.
    + intros raw e e' He. unfold invalid. destruct (negb _); [done|]. destruct (negb catalog); [done|].
      destruct (resolveAllowedModelRef _) as [|r]; [done|]. intros [= <-].
      destruct (model_keeps r (bool_decide (r = resolvedDefault)) e). by eapply HP.
Qed.

Lemma patched_is next : patched_entry now fresh catalog store storeKey patch = inr next ->
  foldr andThen inr (steps catalog store storeKey patch) (first_entry now fresh store storeKey) = inr next.
Proof. done. Qed.

Lemma patched_label next l : names_kept -> patched_entry now fresh catalog store storeKey patch = inr next -> se_label next = Some l ->
  existing store storeKey ≫= se_label = Some l \/ label_used store storeKey l = false.
Proof.
  set (P := fun e => forall l, se_label e = Some l -> existing store storeKey ≫= se_label = Some l \/ label_used store storeKey l = false).
  intros Hk Hn. revert l. change (P next). eapply (name_steps_keep P Hk); [..|exact Hn].
  - intros e e' Hl _ He x. rewrite Hl. apply He.
  - intros e e' He. unfold step_spawnedBy, invalid. destruct (sp_spawnedBy patch); repeat case_match; try done; intros [= <-]; done.
  - apply member_keeps; [by intros e _ x|]. intros raw e e' He. unfold invalid. destruct (parseSessionLabel raw) as [|x]; [done|].
    destruct (label_used store storeKey x) eqn:Eu; [done|]. intros [= <-] y [= <-]. by right.
  - intros x. unfold first_entry. destruct (existing store storeKey) as [e|]; [|done]. cbn. by left.
Qed.

Lemma patched_parent next s : names_kept -> patched_entry now fresh catalog store storeKey patch = inr next ->
  spawned_already store storeKey = Some s -> s <> "" -> se_spawnedBy next = Some s.
Proof.
  intros Hk Hn Hs Hne. assert (Ht : truthy_opt (spawned_already store storeKey) = true).
  { rewrite Hs. cbn. unfold truthy_str. by destruct (String.eqb_spec s ""). }
  eapply (name_steps_keep (fun e => se_spawnedBy e = Some s) Hk); [..|exact Hn].
  - intros e e' _ Hp He. by rewrite Hp.
  - intros e e' He. unfold step_spawnedBy, invalid. rewrite Ht. destruct (sp_spawnedBy patch) as [| |raw]; [by intros [= <-]|done|].
    destruct (negb _); [done|]. destruct (negb _); [done|]. cbn [andb]. case_bool_decide as Hd; [|done]. cbn.
    rewrite Hs in Hd. injection Hd as Hd. intros [= <-]. cbn. by rewrite <- Hd.
  - apply member_keeps; [done|]. intros raw e e' He. unfold invalid. destruct (parseSessionLabel raw); [done|]. destruct (label_used _ _ _); [done|].
    by intros [= <-].
  - unfold spawned_already in Hs. unfold first_entry. destruct (existing store storeKey); [|done]. exact Hs.
Qed.

Lemma patched_time next : sp_verboseLevel patch = absent -> sp_model patch = absent ->
  patched_entry now fresh catalog store storeKey patch = inr next ->
  se_updatedAt next = Some (Z.max (default now (existing store storeKey ≫= fun e => Some (default 0 (se_updatedAt e)))) now).
Proof.
  intros Hv Hm Hn. eapply (steps_keep (fun e => se_updatedAt e = Some (Z.max (default now (existing store storeKey ≫= fun e => Some (default 0 (se_updatedAt e)))) now))); [..|exact Hn].
  - intros e e' _ _ Hu He. by rewrite Hu.
  - intros e e' He. unfold step_spawnedBy, invalid. destruct (sp_spawnedBy patch); repeat case_match; try done; intros [= <-]; done.
  - apply member_keeps; [done|]. intros raw e e' He. unfold invalid. destruct (parseSessionLabel raw); [done|]. destruct (label_used _ _ _); [done|].
    by intros [= <-].
  - intros e e' He. unfold step_verboseLevel. rewrite Hv. by intros [= <-].
  - intros e e' He. unfold step_model, patch_member. rewrite Hm. by intros [= <-].
  - unfold first_entry. destruct (existing store storeKey); [done|]. cbn. f_equal. lia.
Qed.

Lemma get_member {V} (m : jsmap V) k v : jm_get m k = Some v -> (k, v) ∈ m.
Proof.
  induction m as [|[k0 v0] m IH]; [done|]. cbn. destruct (String.eqb_spec k0 k) as [->|]; [intros [= ->]; left|right; auto].
Qed.

(** Only the last two steps follow the check of the level. *)
Definition thinking_fits (e : SessionEntry) : Prop := se_thinkingLevel e = Some "xhigh" ->
  supportsXHighThinking (default (mr_provider resolvedDefault) (se_providerOverride e)) (default (mr_model resolvedDefault) (se_modelOverride e)) = true.

Lemma patched_thinking next : patched_entry now fresh catalog store storeKey patch = inr next -> thinking_fits next.
Proof.
  unfold patched_entry. assert (Hsplit : forall l k e, foldr andThen inr (l ++ k) e =
    match foldr andThen inr l e with inl err => inl err | inr e' => foldr andThen inr k e' end).
  { induction l as [|s l IH]; intros k e; [done|]. cbn [foldr app]. unfold andThen at 1 3. destruct (s e); [done|apply IH]. }
  change (steps catalog store storeKey patch) with
    (take 12 (steps catalog store storeKey patch) ++ [step_xhigh patch] ++ [step_sendPolicy patch; step_groupActivation patch]).
  rewrite Hsplit. destruct (foldr andThen inr (take 12 _) _) as [|e1]; [done|].
  cbn [app foldr]. unfold andThen at 1.
  assert (Hx : forall e2, step_xhigh patch e1 = inr e2 -> thinking_fits e2).
  { intros e2. unfold step_xhigh, invalid. case_bool_decide as Hd; cbn [negb]; [|by intros [= <-] ?].
    destruct (supportsXHighThinking _ _) eqn:Es; [by intros [= <-] _|]. destruct (sp_thinkingLevel patch); try done. by intros [= <-] ?. }
  destruct (step_xhigh patch e1) as [|e2] eqn:E; [done|]. intros Hr.
  eapply (all_keep thinking_fits [step_sendPolicy patch; step_groupActivation patch]); [|by apply Hx|exact Hr].
  repeat (apply Forall_cons; split); try done; apply member_keeps; try (intros ?; apply level_keeps); done.
Qed.

End theorems.

(** *** A concrete store *)

#[local] Instance plain_rules : SessionRules := {|
  isSubagentSessionKey k := js_startsWith k "subagent:";
  parseSessionLabel raw := if truthy_str (js_trim raw) then inr (js_trim raw) else inl "invalid label: empty";
  normalizeThinkLevel raw := if has ["off"; "low"; "high"; "xhigh"] raw then Some raw else None;
  formatThinkingLevels _ _ := "off|low|high";
  parseVerboseOverride raw := inr raw;
  applyVerboseOverride v e := e <| se_verboseLevel := v |>;
  normalizeReasoningLevel := Some; normalizeUsageDisplay := Some; normalizeElevatedLevel := Some;
  normalizeSendPolicy := Some; normalizeGroupActivation := Some;
  supportsXHighThinking provider _ := String.eqb provider "openai";
  formatXHighModelHint := "openai";
  resolvedDefault := mkModelRef "openai" "gpt";
  resolveAllowedModelRef raw := inr (mkModelRef "anthropic" raw);
  applyModelOverrideToSessionEntry m is_default e :=
    if is_default then e <| se_providerOverride := None |> <| se_modelOverride := None |>
    else e <| se_providerOverride := Some (mr_provider m) |> <| se_modelOverride := Some (mr_model m) |>
|}.
#[local] Instance plain_laws : SessionLaws.
Proof. split; [done|]. intros m [] e; done. Qed.

Definition entry (label parent : option string) : SessionEntry :=
  mkSessionEntry "s" (Some 5) parent label (Some "xhigh") None None None None None None None None None None None None JNull.
Definition two_sessions : jsmap SessionEntry := [("main", entry (Some "home") None); ("subagent:a", entry None (Some "main"))].
Definition no_patch : SessionsPatch :=
  mkSessionsPatch absent absent absent absent absent absent absent absent absent absent absent absent absent absent.
Definition model_patch : SessionsPatch :=
  mkSessionsPatch absent (value " work ") absent absent absent absent absent absent absent absent absent (value "claude") absent absent.

(** The name of the other session is refused; with another model the level falls back. *)
Example patches :
  (applySessionsPatchToStore 9 "new" true two_sessions "subagent:a"
     (mkSessionsPatch absent (value "home") absent absent absent absent absent absent absent absent absent absent absent absent) id).2
  = invalid "label already in use: home" /\
  match (applySessionsPatchToStore 9 "new" true two_sessions "subagent:a" model_patch id).2 with
  | inr e => se_label e = Some "work" /\ se_thinkingLevel e = Some "high" /\ se_updatedAt e = Some 9
  | inl _ => False
  end.
Proof. by vm_compute. Qed.

Lemma two_names_unique : labels_unique two_sessions.
Proof.
  assert (Hm : forall k e l, jm_get two_sessions k = Some e -> se_label e = Some l -> k = "main").
  { intros k e l. unfold two_sessions. cbn [jm_get]. destruct (String.eqb_spec "main" k) as [<-|_]; [done|].
    destruct (String.eqb "subagent:a" k); [|done]. by intros [= <-]. }
  intros k1 k2 e1 e2 l Hg1 Hg2 Hl1 Hl2. by rewrite (Hm k1 e1 l), (Hm k2 e2 l).
Qed.


(** While the catalogue is awaited another session takes the name: the patch does not look
    again, and two sessions have it. *)
Example name_taken_meanwhile :
  let take := fun st => jm_set st "main" (entry (Some "work") None) in
  let st := (applySessionsPatchToStore 9 "new" true two_sessions "subagent:a" model_patch take).1 in
  (se_label <$> jm_get st "main") = Some (Some "work") /\ (se_label <$> jm_get st "subagent:a") = Some (Some "work").
Proof. by vm_compute. Qed.
End Patch.

(** ** Wizards *)
Module Wizards.

Inductive NextResult := next_step (prompt : json) | next_done.

(** wizard/session.js: a session has a status; its questions and answers move it on. *)
Class WizardSession (W : Type) := {
  getStatus : W -> string;
  getError : W -> option string;
  cancel : W -> W;
  moves : W -> W -> Prop                   (* what its runner may make of it by itself *)
}.
Definition running `{WizardSession W} (w : W) : bool := String.eqb (getStatus w) "running".
(** A session that ended does not begin again. *)
Class WizardLaws (W : Type) `{WizardSession W} : Prop := {
  moves_end w w' : moves w w' -> running w = false -> running w' = false
}.

Section wizards.
Context {W : Type} `{WizardSession W}.
Implicit Types m : jsmap W.

(** *** server-wizard-sessions.ts *)

Definition findRunningWizard m : option string := fst <$> List.find (fun kv : string * W => running kv.2) m.
Definition purgeWizardSession (id : string) m : jsmap W :=
  match jm_get m id with
  | None => m
  | Some w => if running w then m else jm_delete m id
  end.

(** *** server-methods/wizard.ts *)

Inductive Response :=
  | respond_error (e : ErrorShape)
  | respond_next (sessionId : option string) (r : NextResult)
  | respond_status (status : string) (error : option string).
Definition wizard_error (code : ErrorCode) (message : string) : Response := respond_error (errorShape code message).

(** [wizard.start] up to its wait: [errors] are those of the schema, [w] the new session. *)
Definition wizard_start (errors : option string) (sessionId : string) (w : W) m : jsmap W * option Response :=
  match errors with
  | Some e => (m, Some (wizard_error INVALID_REQUEST ("invalid wizard.start params: " +:+ e)))
  | None =>
      if truthy_opt (findRunningWizard m) then (m, Some (wizard_error UNAVAILABLE "wizard already running"))
      else (jm_set m sessionId w, None)
  end.

(** The end of [session.next()]; [start] when the handler is that of the start. *)
Definition next_ended (start : bool) (sessionId : string) (r : NextResult) m : jsmap W * Response :=
  (match r with next_done => purgeWizardSession sessionId m | next_step _ => m end,
   respond_next (if start then Some sessionId else None) r).

(** [wizard.next] up to its first wait; [answered] is whether an answer is given. *)
Definition wizard_next (errors : option string) (sessionId : string) (answered : bool) m : option Response :=
  match errors with
  | Some e => Some (wizard_error INVALID_REQUEST ("invalid wizard.next params: " +:+ e))
  | None =>
      match jm_get m sessionId with
      | None => Some (wizard_error INVALID_REQUEST "wizard not found")
      | Some w => if answered && negb (running w) then Some (wizard_error INVALID_REQUEST "wizard not running") else None
      end
  end.
(** The answer threw. *)
Definition answer_failed (e : string) : Response := wizard_error INVALID_REQUEST e.

Definition wizard_cancel (errors : option string) (sessionId : string) m : jsmap W * Response :=
  match errors with
  | Some e => (m, wizard_error INVALID_REQUEST ("invalid wizard.cancel params: " +:+ e))
  | None =>
      match jm_get m sessionId with
      | None => (m, wizard_error INVALID_REQUEST "wizard not found")
      | Some w => (jm_delete m sessionId, respond_status (getStatus (cancel w)) (getError (cancel w)))
      end
  end.

Definition wizard_status (errors : option string) (sessionId : string) m : jsmap W * Response :=
  match errors with
  | Some e => (m, wizard_error INVALID_REQUEST ("invalid wizard.status params: " +:+ e))
  | None =>
      match jm_get m sessionId with
      | None => (m, wizard_error INVALID_REQUEST "wizard not found")
      | Some w => (if running w then m else jm_delete m sessionId, respond_status (getStatus w) (getError w))
      end
  end.

(** *** One wizard at a time *)

Inductive step m : jsmap W -> Prop :=
  | step_start errors id w : id <> "" -> jm_get m id = None -> step m (wizard_start errors id w m).1
  | step_next_ended start id r : step m (next_ended start id r m).1
  | step_cancel errors id : step m (wizard_cancel errors id m).1
  | step_status errors id : step m (wizard_status errors id m).1
  | step_moves id w w' : jm_get m id = Some w -> moves w w' -> step m (jm_set m id w').

Inductive reachable : jsmap W -> Prop :=
  | reachable_none : reachable []
  | reachable_step m m' : reachable m -> step m m' -> reachable m'.

Definition one_running m : Prop := jm_wf m /\ (forall id, id ∈ jm_keys m -> id <> "") /\
  forall a b v w, jm_get m a = Some v -> jm_get m b = Some w -> running v = true -> running w = true -> a = b.

Lemma delete_one_running m id : one_running m -> one_running (jm_delete m id).
Proof.
  intros (Hw & Hk & H1). split_and!; [by apply jm_wf_delete| |].
  - intros i Hi. apply Hk. eapply elem_of_sublist; [exact Hi|apply jm_keys_delete_subset].
  - intros a b v w. rewrite !jm_get_delete by done. repeat case_decide; try done. apply H1.
Qed.

Lemma none_running m : jm_wf m -> findRunningWizard m = None -> forall id w, jm_get m id = Some w -> running w = false.
Proof.
  intros Hw Hf id w Hg. unfold findRunningWizard in Hf. destruct (List.find _ m) as [kv|] eqn:E; [done|].
  apply (find_none _ _ E (id, w)). apply list_elem_of_In. by apply jm_elem_of_get.
Qed.

Lemma found_is_named m : (forall id, id ∈ jm_keys m -> id <> "") -> truthy_opt (findRunningWizard m) = false -> findRunningWizard m = None.
Proof.
  unfold findRunningWizard. intros Hk. destruct (List.find _ m) as [[k w]|] eqn:E; [|done]. cbn. intros Ht. exfalso.
  apply find_some in E as [Hin _]. apply (Hk k).
  - unfold jm_keys. apply list_elem_of_fmap. exists (k, w). split; [done|by apply list_elem_of_In].
  - unfold truthy_str in Ht. by destruct (String.eqb_spec k "").
Qed.

(** At most one wizard runs, whatever is asked for in whatever order, and whatever the
    wizards do by themselves. *)
Theorem one_wizard_at_a_time `{!WizardLaws W} m : reachable m ->
  forall a b v w, jm_get m a = Some v -> jm_get m b = Some w -> running v = true -> running w = true -> a = b.
Proof.
  intros Hr. enough (one_running m) as (_ & _ & ?) by done.
  induction Hr as [|m m' _ IH Hs]; [split_and!; [apply jm_wf_nil|by intros ? ?%not_elem_of_nil|done]|].
  destruct Hs as [errors id w0 Hne Hfresh|start id r|errors id|errors id|id w w' Hg Hm].
  - unfold wizard_start. destruct errors; [done|]. destruct (truthy_opt (findRunningWizard m)) eqn:Et; [done|].
    destruct IH as (Hw & Hk & H1). pose proof (none_running m Hw (found_is_named m Hk Et)) as Hnone. split_and!; cbn [fst].
    + by apply jm_wf_set.
    + intros i Hi. rewrite jm_set_fresh in Hi by by apply jm_get_None_keys. unfold jm_keys in Hi. rewrite fmap_app in Hi.
      apply elem_of_app in Hi as [Hi| ->%list_elem_of_singleton]; [by apply Hk|done].
    + intros a b v w. rewrite !jm_get_set. repeat case_decide; subst; try done.
      * intros _ Hb _ Hrun. by rewrite (Hnone b w Hb) in Hrun.
      * intros Ha _ Hrun. by rewrite (Hnone a v Ha) in Hrun.
      * intros Ha _ Hrun. by rewrite (Hnone a v Ha) in Hrun.
  - unfold next_ended. cbn [fst]. destruct r; [done|]. unfold purgeWizardSession.
    destruct (jm_get m id) as [w|]; [|done]. destruct (running w); [done|by apply delete_one_running].
  - unfold wizard_cancel. destruct errors; [done|]. destruct (jm_get m id); [by apply delete_one_running|done].
  - unfold wizard_status. destruct errors; [done|]. destruct (jm_get m id) as [w|]; [|done].
    cbn [fst]. destruct (running w); [done|by apply delete_one_running].
  - destruct IH as (Hw & Hk & H1). split_and!; [by apply jm_wf_set| |].
    + intros i Hi. destruct (decide (i = id)) as [->|Hne].
      * apply Hk. destruct (decide (id ∈ jm_keys m)) as [?|Hn]; [done|]. apply jm_get_None_keys in Hn. congruence.
      * apply Hk. destruct (decide (i ∈ jm_keys m)) as [?|Hn]; [done|]. exfalso. revert Hi. apply jm_get_None_keys.
        rewrite jm_get_set_ne by done. by apply jm_get_None_keys.
    + assert (Hback : forall x, running w' = true -> jm_get m id = Some w -> x = w -> running x = true).
      { intros x Hx _ ->. destruct (running w) eqn:E; [done|]. by rewrite (moves_end w w' Hm E) in Hx. }
      intros a b v x. rewrite !jm_get_set. repeat case_decide; subst; try done.
      * intros [= <-] Hb Hv Hx. eapply (H1 _ _ w x); eauto.
      * intros Ha [= <-] Hv Hx. eapply (H1 _ _ v w); eauto.
      * apply H1.
Qed.
End wizards.
End Wizards.

(** ** Images of a message *)
Module Attachments.

(** [content]: a text, or something else. *)
Record ChatAttachment := mkChatAttachment {
  at_type : option string; at_mimeType : option string; at_fileName : option string; at_content : option string
}.
Record ChatImageContent := mkImage { im_data : string; im_mimeType : string }.

Definition normalizeMime (mime : option string) : option string :=
  match mime with
  | Some m => if negb (truthy_str m) then None else
      let cleaned := js_toLowerCase (js_trim (default "" (head (js_split ";" m)))) in
      if truthy_str cleaned then Some cleaned else None
  | None => None
  end.
Definition isImageMime (mime : option string) : bool := match mime with Some m => js_startsWith m "image/" | None => false end.

(** The address of data in base64: a type without a semicolon, then the data. *)
Definition re_data_url : regex :=
  re_seqs [re_start; re_lit "data:"; re_plus (re_chr (fun c => negb (Ascii.eqb c ";"))); re_lit ";base64,";
           re_group 1 (re_many (re_chr is_dot)); re_end].
Definition re_not_base64 : regex := re_chr (fun c => negb (is_alnum c || one_of "+/=" c)).

Section attachments.
(** media/mime.js on the bytes at the head of a file. *)
Context (detectMime : string -> option string).

Definition sniffMimeFromBase64 (base64 : string) : option string :=
  let trimmed := js_trim base64 in
  if negb (truthy_str trimmed) then None else
  let take := Z.min 256 (js_str_length trimmed) in
  let sliceLen := take - take mod 4 in
  if sliceLen <? 8 then None else detectMime (base64_decode (js_slice_str trimmed 0 sliceLen)).

Definition label_of (idx : nat) (a : ChatAttachment) : string :=
  if truthy_opt (at_fileName a) then default "" (at_fileName a)
  else if truthy_opt (at_type a) then default "" (at_type a)
  else "attachment-" +:+ js_toString (Z.of_nat (S idx)).

Definition size_of (b64 : string) : Z := js_str_length (base64_decode b64).
Definition bad_base64 (b64 : string) : bool := negb (js_str_length b64 mod 4 =? 0) || test re_not_base64 b64.
Definition size_message (label : string) (size maxBytes : Z) : string :=
  "attachment " +:+ label +:+ ": exceeds size limit (" +:+ js_toString size +:+ " > " +:+ js_toString maxBytes +:+ " bytes)".

(** What one attachment gives: an error that is thrown, nothing with a warning, or an image. *)
Inductive Parsed := throws (e : string) | dropped (warning : string) | image (i : ChatImageContent) (warning : option string).

Definition strip_data_url (b64 : string) : string :=
  match exec re_data_url b64 with Some m => default "" (group 1 m) | None => b64 end.

Definition parse_attachment (maxBytes : Z) (idx : nat) (a : ChatAttachment) : Parsed :=
  let mime := default "" (at_mimeType a) in
  let label := label_of idx a in
  match at_content a with
  | None => throws ("attachment " +:+ label +:+ ": content must be base64 string")
  | Some content =>
      let b64 := strip_data_url (js_trim content) in
      if bad_base64 b64 then throws ("attachment " +:+ label +:+ ": invalid base64 content") else
      let sizeBytes := size_of b64 in
      if (sizeBytes <=? 0) || (maxBytes <? sizeBytes) then throws (size_message label sizeBytes maxBytes) else
      let providedMime := normalizeMime (Some mime) in
      let sniffedMime := normalizeMime (sniffMimeFromBase64 b64) in
      match sniffedMime with
      | Some m =>
          if negb (isImageMime sniffedMime) then dropped ("attachment " +:+ label +:+ ": detected non-image (" +:+ m +:+ "), dropping")
          else image (mkImage b64 m)
                 (match providedMime with
                  | Some p => if String.eqb m p then None
                              else Some ("attachment " +:+ label +:+ ": mime mismatch (" +:+ p +:+ " -> " +:+ m +:+ "), using sniffed")
                  | None => None
                  end)
      | None =>
          if negb (isImageMime providedMime) then dropped ("attachment " +:+ label +:+ ": unable to detect image mime type, dropping")
          else image (mkImage b64 (default mime providedMime)) None
      end
  end.

(** The loop; an element that is null is passed over.  The images are those up to the
    error, if there is one. *)
Fixpoint parse_loop (maxBytes : Z) (idx : nat) (l : list (option ChatAttachment)) (images : list ChatImageContent) (warnings : list string) :
    (string + list ChatImageContent) * list string :=
  match l with
  | [] => (inr images, warnings)
  | None :: l => parse_loop maxBytes (S idx) l images warnings
  | Some a :: l =>
      match parse_attachment maxBytes idx a with
      | throws e => (inl e, warnings)
      | dropped w => parse_loop maxBytes (S idx) l images (warnings ++ [w])
      | image i w => parse_loop maxBytes (S idx) l (images ++ [i]) (warnings ++ match w with Some w => [w] | None => [] end)
      end
  end.

Definition parseMessageWithAttachments (message : string) (attachments : option (list (option ChatAttachment))) (maxBytes : option Z) :
    (string + string * list ChatImageContent) * list string :=
  let '(r, warnings) := parse_loop (default 5000000 maxBytes) 0 (default [] attachments) [] [] in
  (match r with inl e => inl e | inr images => inr (message, images) end, warnings).

(** The deprecated one: blocks of Markdown. *)
Definition re_spaces : regex := re_plus (re_chr is_space).
Definition build_block (maxBytes : Z) (idx : nat) (a : ChatAttachment) : string + string :=
  let mime := default "" (at_mimeType a) in
  let label := label_of idx a in
  match at_content a with
  | None => inl ("attachment " +:+ label +:+ ": content must be base64 string")
  | Some content =>
      if negb (js_startsWith mime "image/") then inl ("attachment " +:+ label +:+ ": only image/* supported") else
      let b64 := js_trim content in
      if bad_base64 b64 then inl ("attachment " +:+ label +:+ ": invalid base64 content") else
      let sizeBytes := size_of b64 in
      if (sizeBytes <=? 0) || (maxBytes <? sizeBytes) then inl (size_message label sizeBytes maxBytes) else
      inr ("![" +:+ replace_all re_spaces (fun _ => "_") label +:+ "](data:" +:+ mime +:+ ";base64," +:+ content +:+ ")")
  end.
Fixpoint build_blocks (maxBytes : Z) (idx : nat) (l : list (option ChatAttachment)) : string + list string :=
  match l with
  | [] => inr []
  | None :: l => build_blocks maxBytes (S idx) l
  | Some a :: l =>
      match build_block maxBytes idx a with
      | inl e => inl e
      | inr b => match build_blocks maxBytes (S idx) l with inl e => inl e | inr bs => inr (b :: bs) end
      end
  end.
Definition buildMessageWithAttachments (message : string) (attachments : option (list (option ChatAttachment))) (maxBytes : option Z) : string + string :=
  match build_blocks (default 2000000 maxBytes) 0 (default [] attachments) with
  | inl e => inl e
  | inr [] => inr message
  | inr blocks =>
      let gap := newline +:+ newline in
      inr (message +:+ (if truthy_str (js_trim message) then gap else "") +:+ join_with gap blocks)
  end.

(** *** What is passed on is an image *)

Definition good_image (maxBytes : Z) (i : ChatImageContent) : Prop :=
  js_startsWith (im_mimeType i) "image/" = true /\ bad_base64 (im_data i) = false /\ 0 < size_of (im_data i) <= maxBytes.

Lemma parse_attachment_good maxBytes idx a i w : parse_attachment maxBytes idx a = image i w -> good_image maxBytes i.
Proof.
  unfold parse_attachment, good_image. destruct (at_content a) as [content|]; [|done]. cbv zeta.
  generalize (normalizeMime (Some (default "" (at_mimeType a)))). intros pm. set (b64 := strip_data_url (js_trim content)). destruct (bad_base64 b64) eqn:Eb; [done|].
  destruct (_ || _) eqn:Es; [done|]. apply orb_false_iff in Es as [H1%Z.leb_gt H2%Z.ltb_ge].
  destruct (normalizeMime (sniffMimeFromBase64 b64)) as [m|] eqn:Em.
  - destruct (isImageMime (Some m)) eqn:Ei; cbn [negb]; [|done]. intros [= <- _]. done.
  - destruct (isImageMime pm) eqn:Ei; cbn [negb]; [|done]. intros [= <- _]. cbn [im_mimeType im_data]. by destruct pm.
Qed.

(** Every image that is passed on with a message is base64 of a size within the limit, and
    its type that of an image. *)
Theorem attachments_are_images message attachments maxBytes m images warnings :
  parseMessageWithAttachments message attachments maxBytes = (inr (m, images), warnings) ->
  m = message /\ Forall (good_image (default 5000000 maxBytes)) images /\ (length images <= length (default [] attachments))%nat.
Proof.
  unfold parseMessageWithAttachments. generalize (default 5000000 maxBytes) (default [] attachments). intros mb l.
  destruct (parse_loop mb 0 l [] []) as [r w] eqn:E. destruct r as [e|imgs]; [done|]. intros [= <- <- <-]. split; [done|].
  enough (Hgen : forall l idx acc ws r w', parse_loop mb idx l acc ws = (inr r, w') -> Forall (good_image mb) acc ->
    Forall (good_image mb) r /\ (length r <= length acc + length l)%nat) by (by destruct (Hgen _ _ _ _ _ _ E)).
  clear. induction l as [|[a|] l IH]; intros idx acc ws r w'; cbn [parse_loop].
  - intros [= <- _]. cbn. split; [done|lia].
  - destruct (parse_attachment mb idx a) as [e|w|i w] eqn:Ea; [done|..]; intros Hp Hacc.
    + destruct (IH _ _ _ _ _ Hp Hacc). cbn. split; [done|lia].
    + destruct (IH _ _ _ _ _ Hp) as [? Hl]; [apply Forall_app; split; [done|]; apply Forall_singleton; by eapply parse_attachment_good|].
      split; [done|]. rewrite length_app in Hl. cbn in *. lia.
  - intros Hp Hacc. destruct (IH _ _ _ _ _ Hp Hacc). cbn. split; [done|lia].
Qed.
End attachments.

(** The type in the address of the data is not read, and one with parameters is not taken
    for such an address. *)
Example data_url_with_parameters :
  strip_data_url "data:image/png;base64,AAAA" = "AAAA" /\
  bad_base64 (strip_data_url "data:image/png;charset=utf-8;base64,AAAA") = true.
Proof. by vm_compute. Qed.
End Attachments.

(** ** The envelope before a message *)
Module Envelope.

(** *** chat-sanitize.ts *)

Definition not_bracket (c : ascii) : bool := negb (Ascii.eqb c "]").
Definition ENVELOPE_PREFIX : regex :=
  re_seqs [re_start; re_lit "["; re_group 1 (re_plus (re_chr not_bracket)); re_lit "]"; re_many (re_chr is_space)].
Definition ENVELOPE_CHANNELS : list string :=
  ["WebChat"; "WhatsApp"; "Telegram"; "Signal"; "Slack"; "Discord"; "Google Chat"; "iMessage"; "Teams"; "Matrix"; "Zalo";
   "Zalo Personal"; "BlueBubbles"].
Definition MESSAGE_ID_LINE : regex :=
  re_seqs [re_start; re_many (re_chr is_space); re_ilit "[message_id:"; re_many (re_chr is_space); re_plus (re_chr not_bracket);
           re_lit "]"; re_many (re_chr is_space); re_end].

Definition digits (n : nat) : regex := re_times n (re_chr is_digit_char).
(** [sep] stands between the day and the time. *)
Definition re_moment (sep : string) (after : list regex) : regex :=
  re_seqs ([digits 4; re_lit "-"; digits 2; re_lit "-"; digits 2; re_lit sep; digits 2; re_lit ":"; digits 2] ++ after).
Definition re_iso : regex := re_moment "T" [re_lit "Z"; re_boundary].
Definition re_local : regex := re_moment " " [re_boundary].

Definition looksLikeEnvelopeHeader (header : string) : bool :=
  test re_iso header || test re_local header || existsb (fun label => js_startsWith header (label +:+ " ")) ENVELOPE_CHANNELS.

Definition stripEnvelope (text : string) : string :=
  match exec ENVELOPE_PREFIX text with
  | None => text
  | Some m => if negb (looksLikeEnvelopeHeader (default "" (group 1 m))) then text
              else js_slice_str_from text (js_str_length (mr_match m))
  end.

Definition lf : ascii := ascii_of_nat 10.
Definition cr : ascii := ascii_of_nat 13.
Fixpoint drop_cr (s : string) : string :=
  match s with
  | EmptyString => EmptyString
  | String c EmptyString => if Ascii.eqb c cr then EmptyString else s
  | String c t => String c (drop_cr t)
  end.
(** [text.split] at the line ends: a carriage return belongs to the line feed after it. *)
Fixpoint end_lines (l : list string) : list string :=
  match l with [] => [] | [x] => [x] | x :: l => drop_cr x :: end_lines l end.
Definition split_lines (text : string) : list string := end_lines (js_split lf text).

Definition stripMessageIdHints (text : string) : string :=
  if negb (js_includes text "[message_id:") then text else
  let lines := split_lines text in
  let filtered := keep (fun line => negb (test MESSAGE_ID_LINE line)) lines in
  if (length filtered =? length lines)%nat then text else join_with newline filtered.

Definition strip_text (t : string) : string := stripMessageIdHints (stripEnvelope t).

(** Values that did not change are the same objects; equal ones are not told apart here. *)
Definition strip_item (item : json) : json :=
  match item with
  | JObj entry =>
      match jm_get entry "type", jm_get entry "text" with
      | Some (JStr "text"), Some (JStr t) => if String.eqb (strip_text t) t then item else JObj (jm_set entry "text" (JStr (strip_text t)))
      | _, _ => item
      end
  | _ => item
  end.
Definition stripEnvelopeFromContent (content : list json) : list json := strip_item <$> content.

Definition stripEnvelopeFromMessage (message : json) : json :=
  match message with
  | JObj entry =>
      let role := match jm_get entry "role" with Some (JStr r) => js_toLowerCase r | _ => "" end in
      if negb (String.eqb role "user") then message else
      match jm_get entry "content" with
      | Some (JStr t) => if String.eqb (strip_text t) t then message else JObj (jm_set entry "content" (JStr (strip_text t)))
      | Some (JArr l) => JObj (jm_set entry "content" (JArr (stripEnvelopeFromContent l)))
      | _ => match jm_get entry "text" with
             | Some (JStr t) => if String.eqb (strip_text t) t then message else JObj (jm_set entry "text" (JStr (strip_text t)))
             | _ => message
             end
      end
  | _ => message
  end.
Definition stripEnvelopeFromMessages (messages : list json) : list json := stripEnvelopeFromMessage <$> messages.

(** *** agent-timestamp.ts *)

Definition CRON_TIME : string := "Current time: ".
Definition TIMESTAMP_ENVELOPE_PATTERN : regex :=
  re_seq re_start (re_seq (re_lit "[") (re_seq (re_many (re_chr is_dot)) (re_moment " " []))).

(** [formatted] and [dow]: the moment and the day of the week in the time zone. *)
Definition injectTimestamp (formatted : option string) (dow message : string) : string :=
  if negb (truthy_str (js_trim message)) then message
  else if test TIMESTAMP_ENVELOPE_PATTERN message then message
  else if js_includes message CRON_TIME then message
  else match formatted with
       | Some f => if truthy_str f then "[" +:+ dow +:+ " " +:+ f +:+ "] " +:+ message else message
       | None => message
       end.

(** *** What is put on is taken off *)

(** The format of a moment: a day and a time, a space, and the name of the zone. *)
Record moment := mkMoment { mo_year : string; mo_month : string; mo_day : string; mo_hour : string; mo_minute : string; mo_zone : string }.
Definition two_digits (s : string) : Prop := of_class is_digit_char s /\ String.length s = 2%nat.
Definition moment_ok (m : moment) : Prop :=
  (of_class is_digit_char (mo_year m) /\ String.length (mo_year m) = 4%nat) /\ two_digits (mo_month m) /\ two_digits (mo_day m) /\
  two_digits (mo_hour m) /\ two_digits (mo_minute m) /\ of_class not_bracket (mo_zone m).
Definition moment_text (m : moment) : string :=
  mo_year m +:+ "-" +:+ mo_month m +:+ "-" +:+ mo_day m +:+ " " +:+ mo_hour m +:+ ":" +:+ mo_minute m.
Definition formatted_text (m : moment) : string := moment_text m +:+ " " +:+ mo_zone m.

Lemma digits_match n u : forall prev v caps, of_class is_digit_char u -> String.length u = n ->
  matches (digits n) (mkMstate prev (u +:+ v) caps) (mkMstate (last_char prev u) v caps).
Proof.
  revert n. induction u as [|c u IH]; intros n prev v caps Hu <-; [constructor|].
  apply of_class_cons in Hu as [Hc Hu]. rewrite str_app_cons. cbn [String.length digits re_times].
  econstructor; [by apply mt_chr|by apply (IH (String.length u))].
Qed.

Lemma lit_match c prev v caps : matches (re_lit (String c "")) (mkMstate prev (String c v) caps) (mkMstate (Some c) v caps).
Proof. apply mt_chr. apply Ascii.eqb_refl. Qed.

(** The pattern of a moment at a moment, whatever follows it. *)
Lemma moment_match m prev v caps after s' : moment_ok m ->
  matches (foldr re_seq re_eps after) (mkMstate (last_char None (mo_minute m)) v caps) s' ->
  matches (re_moment " " after) (mkMstate prev (moment_text m +:+ v) caps) s'.
Proof.
  intros ((Hy & Ly) & (Hmo & Lmo) & (Hd & Ld) & (Hh & Lh) & (Hmi & Lmi) & _) Ha.
  unfold re_moment, re_seqs, moment_text. cbn [app foldr]. rewrite !str_app_assoc.
  econstructor; [by apply digits_match|]. econstructor; [apply lit_match|].
  econstructor; [by apply digits_match|]. econstructor; [apply lit_match|].
  econstructor; [by apply digits_match|]. econstructor; [apply lit_match|].
  econstructor; [by apply digits_match|]. econstructor; [apply lit_match|].
  econstructor; [by apply digits_match|].
  assert (last_char (Some ":"%char) (mo_minute m) = last_char None (mo_minute m)) as -> by by destruct (mo_minute m). exact Ha.
Qed.

Lemma last_of_digits u : of_class is_digit_char u -> u <> "" -> exists c, last_char None u = Some c /\ is_digit_char c = true.
Proof.
  intros Hu Hne. destruct u as [|c u]; [done|]. cbn. clear Hne. revert c Hu. induction u as [|d u IH]; intros c Hu.
  - apply of_class_cons in Hu as [Hc _]. by exists c.
  - cbn. apply IH. by apply of_class_cons in Hu as [_ Hu].
Qed.

Lemma class_app p a b : of_class p a -> of_class p b -> of_class p (a +:+ b).
Proof.
  induction a as [|c a IH]; [done|]. intros [Hc Ha]%of_class_cons Hb. rewrite str_app_cons. apply of_class_cons. auto.
Qed.
Lemma class_weaken (p q : ascii -> bool) s : (forall c, p c = true -> q c = true) -> of_class p s -> of_class q s.
Proof. intros Hpq Hs c Hc. by apply Hpq, Hs. Qed.
Lemma digit_no_bracket c : is_digit_char c = true -> not_bracket c = true.
Proof. destruct c as [[] [] [] [] [] [] [] []]; by vm_compute. Qed.
Lemma digit_dot c : is_digit_char c = true -> is_dot c = true.
Proof. destruct c as [[] [] [] [] [] [] [] []]; by vm_compute. Qed.

Lemma formatted_no_bracket m : moment_ok m -> of_class not_bracket (formatted_text m).
Proof.
  intros ((Hy & _) & (Hmo & _) & (Hd & _) & (Hh & _) & (Hmi & _) & Hz). unfold formatted_text, moment_text.
  assert (Hsep : forall c, not_bracket c = true -> of_class not_bracket (String c "")) by (intros c Hc; by apply of_class_cons).
  repeat apply class_app; try (by apply (class_weaken is_digit_char); [apply digit_no_bracket|]); try (by apply Hsep); done.
Qed.

Lemma header_of_moment dow m : moment_ok m -> looksLikeEnvelopeHeader (dow +:+ " " +:+ formatted_text m) = true.
Proof.
  intros Hm. unfold looksLikeEnvelopeHeader. apply orb_true_iff. left. apply orb_true_iff. right.
  apply test_spec. unfold formatted_text. exists (dow +:+ " "), (moment_text m +:+ " " +:+ mo_zone m).
  eexists. split; [by rewrite str_app_assoc|]. apply moment_match; [done|]. cbn [foldr]. econstructor; [|constructor].
  apply mt_assert. cbn. destruct Hm as (_ & _ & _ & _ & (Hmi & Lmi) & _).
  destruct (last_of_digits (mo_minute m) Hmi) as (c & -> & Hc); [by intros E; rewrite E in Lmi|]. cbn.
  unfold is_word, is_alnum. rewrite Hc, orb_true_r. done.
Qed.

(** The spaces at the beginning of a text. *)
Lemma leading_spaces t : exists u, t = u +:+ js_trimStart t /\ of_class is_space u /\ boundary_test is_space (str_head (js_trimStart t)) = false.
Proof.
  induction t as [|c t (u & Hu & Hs & Hb)]; [by exists ""|]. cbn. destruct (is_space c) eqn:E.
  - exists (String c u). split_and!; [rewrite str_app_cons; by f_equal|by apply of_class_cons|done].
  - exists "". by split_and!.
Qed.

Lemma run_assert {A} (p : option ascii -> option ascii -> bool) (k : mstate -> option A) s :
  p (ms_prev s) (str_head (ms_rest s)) = true -> run_regex (re_assert p) k s = k s.
Proof. intros Hp. cbn. by rewrite Hp. Qed.

Lemma capture_app n p u v cs p' cs' : capture n (mkMstate p (u +:+ v) cs) (mkMstate p' v cs') = mkMstate p' v ((n, u) :: cs').
Proof.
  unfold capture, consumed. cbn [ms_rest]. rewrite str_length_app, Nat.add_sub, substring_app_l. done.
Qed.

(** The prefix takes the brackets, and the spaces after them. *)
Lemma strip_prefix_of h t : of_class not_bracket h -> h <> "" -> looksLikeEnvelopeHeader h = true ->
  stripEnvelope ("[" +:+ h +:+ "] " +:+ t) = js_trimStart t.
Proof.
  intros Hh Hne Hlook. destruct h as [|c h]; [done|]. destruct (leading_spaces t) as (u & Hu & Hs & Hb).
  set (text := "[" +:+ String c h +:+ "] " +:+ t).
  assert (Hm : match_here ENVELOPE_PREFIX (mkMstate None text []) =
               Some (mkMstate (last_char (Some " "%char) u) (js_trimStart t) [(1%nat, String c h)])).
  { unfold match_here, ENVELOPE_PREFIX, re_seqs, text. cbn [foldr]. rewrite run_seq. unfold re_start. rewrite run_assert by done. rewrite run_seq.
    cbn [re_lit]. unfold re_lit_char. change ("[" +:+ String c h +:+ "] " +:+ t) with (String "[" (String c h +:+ "] " +:+ t)).
    rewrite run_chr by done. rewrite run_seq, run_group.
    eapply run_plus_chr; [exact Hh|done|]. rewrite capture_app.
    change ("] " +:+ t) with (String "]" (String " " t)). rewrite run_seq. cbn [re_lit]. unfold re_lit_char. rewrite run_chr by done.
    rewrite run_seq. unfold re_many.
    assert (Ht : String " " t = String " " u +:+ js_trimStart t) by (rewrite str_app_cons; by f_equal).
    rewrite Ht. eapply run_star_chr; [by apply of_class_cons|done|]. done. }
  unfold stripEnvelope. assert (He : exec ENVELOPE_PREFIX text = Some (mkMatchResult "" (consumed (mkMstate None text []) (mkMstate (last_char (Some " "%char) u) (js_trimStart t) [(1%nat, String c h)])) [(1%nat, String c h)] (js_trimStart t))).
  { unfold exec. destruct text as [|x text'] eqn:Et; [done|]. cbn [exec_from]. by rewrite Hm. }
  rewrite He. match goal with |- context [group 1 ?r] => change (default "" (group 1 r)) with (String c h) end. rewrite Hlook. cbn [negb].
  pose proof (exec_split _ _ _ He) as Hsp. cbn [mr_before mr_match mr_after] in Hsp. rewrite str_app_nil in Hsp.
  rewrite Hsp at 1. apply slice_suffix.
Qed.

(** A message that was given its moment is read without it again, and is given it once
    only. *)
Theorem timestamp_round_trip dow m message : of_class not_bracket dow -> of_class is_dot dow -> moment_ok m ->
  js_trim message <> "" -> test TIMESTAMP_ENVELOPE_PATTERN message = false -> js_includes message CRON_TIME = false ->
  let stamped := injectTimestamp (Some (formatted_text m)) dow message in
  stripEnvelope stamped = js_trimStart message /\ forall f d, injectTimestamp f d stamped = stamped.
Proof.
  intros Hd Hdot Hm Hne Ht Hc stamped.
  assert (Hst : stamped = "[" +:+ (dow +:+ " " +:+ formatted_text m) +:+ "] " +:+ message).
  { unfold stamped, injectTimestamp. unfold truthy_str. destruct (String.eqb_spec (js_trim message) ""); [done|]. cbn [negb].
    rewrite Ht, Hc. assert (Hf : formatted_text m <> "").
    { destruct Hm as ((_ & Ly) & _). unfold formatted_text, moment_text. destruct (mo_year m); [done|]. done. }
    destruct (String.eqb_spec (formatted_text m) ""); [done|]. cbn [negb]. by rewrite !str_app_assoc. }
  rewrite Hst. split.
  - apply strip_prefix_of; [|by destruct dow|by apply header_of_moment].
    apply class_app; [done|]. apply class_app; [by apply of_class_cons|by apply formatted_no_bracket].
  - intros f d. unfold injectTimestamp. destruct (negb _); [done|].
    assert (test TIMESTAMP_ENVELOPE_PATTERN ("[" +:+ (dow +:+ " " +:+ formatted_text m) +:+ "] " +:+ message) = true) as ->; [|done].
    apply test_anchored. unfold formatted_text. rewrite !str_app_assoc.
    eexists. econstructor; [apply lit_match|]. econstructor.
    + unfold re_many. rewrite <- (str_app_assoc dow " "). apply star_chars_match. apply class_app; [done|by apply of_class_cons].
    + apply moment_match; [done|]. constructor.
Qed.
End Envelope.
